(* ===== verification/_CoqProject ===== *)
-Q . S2P
Prelude.v
Decimals.v
DecimalFacts.v
DecimalText.v
Market.v
Geometry.v
IndicatorSpec.v
Conditions.v
Series.v
DecimalFunctions.v
IndicatorMath.v
Calculations.v
Indicators.v
IndicatorWarmup.v
IndicatorCausality.v
IndicatorValues.v
Convergence.v
Strategy.v
Alignment.v
Sizing.v
Broker.v
KernelState.v
Kernel.v
KernelRun.v
SignalTrace.v
SignalCausality.v
Scenario.v
Funnel.v
ExitRules.v
RunInvariants.v
NoLookahead.v
KernelFacts.v
Containers.v
TradingModels.v
FillLedger.v
FillProjection.v
ExecutionStore.v
StoreFacts.v
StoreSteps.v
Protection.v
ProtectionFacts.v
Ledger.v
LedgerFacts.v
RiskModels.v
EntryLimits.v
Breakers.v
BetaExposure.v
FuturesBooks.v
FuturesGate.v
Gate.v
Verdicts.v
GateFacts.v
GateScenario.v
LiveSignals.v
LiveWindows.v
Engine.v
ExitGuards.v
FuturesVenue.v
Submit.v
Reconcile.v
Exits.v
Capital.v
EntryCycle.v
ClosedBar.v
CycleSteps.v
CycleRuns.v
CycleFacts.v
Portfolio.v
Proposals.v
PortfolioStore.v
PortfolioRuntime.v
PortfolioFacts.v
PortfolioSteps.v
PortfolioSafety.v
PortfolioBreakers.v
Fleet.v
FleetFacts.v
Studies.v
Reports.v
Adoption.v
