(* ===== verification/Prelude.v ===== *)
(** * ThyTrader: a verification development of the trading core

    ThyTrader runs one strategy document through research (a deterministic bar-level
    simulation), paper and live trading. This library models the Python code those three
    share, the simulation itself, and the records, store and ledgers that paper and live
    trading keep, as executable functions, and proves what each part promises. Every file
    opens with what it holds; this header is the map. Paths are relative to
    [src/src/thytrader].

    ** The foundations

    - [Prelude]: results and loops. A Python operation that may raise is a [result]; a [for]
      loop with an accumulator is [foldM]; a [while cursor < end] clock loop is [instants],
      whose fuel is proved sufficient ([visit_fuel]). [result_rel] relates two computations.
    - [Decimals], [DecimalFacts]: Python's [decimal] arithmetic in a context of
      [prec] digits rounding half to even, as the language defines it: a decimal is a
      coefficient and an exponent, an operation is exact and then rounded. [DecimalFacts]
      proves that every operation returns a nearest representable number with half a unit of
      relative error, and adds such errors up along a formula. NaN, infinities, signed
      zero and the exponent limits of a context are not modelled: the code validates its
      inputs as finite and its magnitudes are far from the limits. [simulation_context] (64
      digits, [backtest/kernel.py]) and [default_context] (28 digits) are the two instances.
    - [DecimalFunctions]: [Decimal.sqrt], [ln] and [log10] as the reference implementation of
      the [decimal] module computes them, with the bounds its loops need.
    - [DecimalText]: [decimal_text.py] and the canonical decimals of results.
    - [Market]: [market_data/models.py], [quality.py], [no_trade.py], [hole_settlement.py],
      [freshness.py]. Instants and durations are integers in microseconds.
    - [Geometry]: [trading/geometry.py]; stops, targets, protective limits, bar buckets.

    ** From a strategy document to a signal trace

    - [IndicatorSpec], [Conditions], [Strategy]: the strategy document of
      [strategies/models.py] and [strategies/schema]; validators are [bool] or [result]
      functions, queries are functions of the document.
    - [Series], [IndicatorMath], [Calculations], [Indicators]:
      [evaluation/indicators.py] and [evaluation/indicator_math]. A calculation is a function
      from candles to one optional value per candle; [Indicators] holds the dispatch tables
      and the declared lags.
    - [IndicatorWarmup]: when the values of each kind begin, and that the schema's minimum
      warmup says exactly that. [IndicatorCausality]: a value reads
      no later candle. [IndicatorValues]: ranges of bounded indicators. [Convergence]: the
      updates a recursive indicator needs to forget its seed, in binary floating point as the
      source computes them, the C library's [log] being taken to return the nearest number.
    - [Alignment]: [evaluation/multi_timeframe.py] and [strategies/schema/timeframes.py], the
      maps from a decision close to the last completed bar of another clock.
    - [SignalTrace], [SignalCausality]: [evaluation/signal_evaluator.py] and [trace.py], and
      that the signals of a bar read nothing that had not closed by then.

    ** The simulation

    - [Sizing]: [trading/economics.py], [futures_sizing.py], [sizing.py], [trailing.py].
    - [Broker]: [backtest/broker.py] and [evaluation/stress.py].
    - [KernelState], [Kernel], [KernelRun]: [backtest/kernel*.py] and the records of
      [backtest/models.py]. Python mutates a [_Book], a [_Tally] and a list of trades in
      place; here each function takes them and returns them, in the order the code writes
      them. Dictionaries keyed by an instant are [gmap]s, and reading an absent key raises
      [KeyError]. Each book is owned by one product and never aliased, so passing values is
      faithful; the cash is shared and is threaded through the books in lockstep order.
      [Scenario] is one worked run, which instantiates the theorems about runs.
    - [Funnel]: a finished run's diagnostics always pass their own validators, and account for
      every signal, entry and trade. [ExitRules]: the exit checks of a bar implement one
      decision with a fixed precedence. [RunInvariants]: when trades may open and close, and
      how many books are open. [NoLookahead]: the state after a bar is independent of every
      later candle and record. [KernelFacts]: recorded profit agrees with the cash moved and
      entries never overdraw; stop prices and expiry; a run in which a resting pyramid add
      outlives its position.

    ** Paper and live books

    - [Containers]: Python dictionaries and sorting. A dictionary whose order the code reads is
      an association list in insertion order.
    - [TradingModels]: the records of [trading/models.py] and [trading/day_open.py]. A module
      per record keeps Python's field names; [replace] is a setter per use. Also the focus on
      one product of [trading/overlay.py], and [futures_safety.py].
    - [FillLedger], [FillProjection]: [trading/fill_ledger.py] and [futures_repair.py], and
      that a fill changes the book it belongs to as it should. The clock the code reads is an
      argument, one reading per call of [utc_now].
    - [ExecutionStore], [StoreFacts]: [trading/memory.py] and [trading/lease_fence.py] as
      functions of the store's state, its well-formedness, and a worked book.
    - [StoreSteps]: fills apply exactly once whatever is delivered. Concurrent clients as a step
      relation on the store, the store as a leased pass sees it ([execution/leases.py]), and
      worker leases on a shared clock: no lost update, and exclusion as long as every save quotes
      the row it read. [persistence/postgres_futures_funding.py], under the row lock.
    - [Protection], [ProtectionFacts]: [trading/protection*.py]; when a book may be reported
      covered.
    - [Adoption]: [trading/inventory_claims.py], [adoption.py], [adoption_write.py] and
      [memory_adoption.py]: coins the account already holds become a live book's position. The
      store the claims are read from and the store written to are two, since the venue is asked in
      between. An adoption takes only coins no book manages, leaves a protected position, and a
      refused one writes nothing.
    - [Ledger], [LedgerFacts]: [trading/ledger.py] and [performance.py]; the replay of fills
      accounts for every unit of cash.

    ** The risk gates

    - [RiskModels]: spot product identifiers, the policy documents of [risk/models.py] and
      [risk/futures_policy.py] with their validators, verdicts.
    - [EntryLimits]: [trading/exposure.py], [lifecycle.py], [entry_latch.py]; membership, slots,
      the capital base, exposure and order bounds, clustering and portfolio limits. Where the
      code sums over a Python set, the order of its elements is the class [SetOrder]: any
      permutation.
    - [Breakers]: the reconstruction of a day's opening, whose fingerprints are the class
      [Digest], and [risk/breakers.py]. [BetaExposure]: [beta_exposure.py] and
      [futures_beta.py], on beta estimates given as evidence.
    - [FuturesBooks]: [trading/futures_book.py]; the funding loop returns exactly the uncharged
      hours a book was held. [FuturesGate]: [futures_collateral.py], [futures_live.py] and
      [futures_entry.py]; [Gate]: [risk/gate.py]. The context variable of a futures book is an
      argument.
    - [Verdicts]: every verdict is the one allowance or a denial with its reason. [GateFacts]:
      what an allowed spot entry satisfies, that an admitted live futures entry is exact, and
      that a fleet that grew by admitted starts stays within the policy. [GateScenario] is a
      worked gate.

    ** Paper and live cycles

    - [LiveSignals]: [execution/signals.py]; the evaluation of the newest bar agrees with a
      research trace that holds it. Live selects the other clocks' bars from each decision's own
      warmup, research from the run's; so the agreement is stated for every bar of a document
      that reads only its decision clock, and for the first bar of any document.
    - [LiveWindows]: [execution/clock_windows.py], [references.py], [candle_wait.py] and parts of
      [freshness.py]; the windows of a deployment hold what its decisions require.
    - [Engine]: what a cycle runs in. A program is a function of a [World]: the
      backing store, the working copy of a planned fill order, a count of clock and identifier
      readings, and the calls made to the venue with the store at that moment. It returns a new
      world and a [result]; an exception keeps the writes made before it. The venue is the class
      [Venue] (any answer to any request, per call), the clock, fresh identifiers and the
      supervisor's reports are [Surroundings]. [Engine] also holds [execution/broker.py],
      [paper.py], [leases.py] and the instrument-scoped store of [trading/overlay.py].
    - [ExitGuards], [FuturesVenue], [Submit], [Reconcile], [Exits], [Capital]:
      [exit_guards.py] and [attached.py]; [futures_live.py] and [futures_venue_check.py];
      [submit.py]; [reconcile.py] and [reconcile_fill_order.py]; [runtime_ops.py], [exits.py],
      [futures_reduction.py], [futures_obligations.py] and [futures_cancel.py]; [capital.py] and
      [breaker_pause.py].
    - [EntryCycle], [ClosedBar]: [entry.py], [entry_admission.py], [entry_sizing.py] and
      [entry_reprice.py]; [live_protection.py], [futures_liquidation.py], [residual.py], and
      [loop.py], whose [process_closed_bar] runs everything above in the code's order.
    - [CycleSteps], [CycleRuns]: a worked venue and clock; one lemma per operation of the engine,
      that whatever happens it is a sequence of [cycle_step]s: steps of the store, plans, and
      calls to the venue for allowed submissions on record. [CycleFacts] concludes: a cycle writes
      ahead, an idempotency key sends at most one order, a submission leaves a known state on
      every branch, flattening only exits; the operator's stop survives a cycle, refused orders
      back off until the delay overflows, and a paper bar takes the exit decision of the simulation.

    ** Portfolios

    - [Portfolio]: [portfolios/values.py], [models.py], [allocation.py], [journal_changes.py] and
      [rules.py]. A change is a plan made from the current aggregate and a validated command.
      [Proposals]: [proposals.py] and the settlements of [manager.py].
    - [PortfolioStore]: [store_memory.py]. A call is a function of the state it finds under the
      store's lock; what it read before is an argument, so it may be stale.
    - [PortfolioRuntime]: [deployment.py], the actions of [runtime.py] and of [manager.py] on the
      books of a portfolio, and [execution_worker/portfolio_supervisor.py], as programs on a
      [Desk]: the portfolio store and the execution store.
    - [PortfolioFacts]: validated texts are fractions on a grid of four places, which 28 digits add
      exactly; so the allocation check is exact, and every plan leaves a sound aggregate.
      [PortfolioSteps]: the calls of the services as steps of a store, their invariant, and what a
      call does to a stored proposal. [PortfolioSafety] concludes: weights and reserve never exceed
      the capital, decided proposals are final, and the manager keeps its weekly budget.
      [PortfolioBreakers]: a supervision pass over a portfolio whose loss stop is reached halts it.

    ** Fleet control

    - [Fleet]: [fleet_control/models.py], [effects.py], [commands.py], [store.py] and [service.py]:
      disarm, managed stop, flatten and rearm, as programs on a [FleetWorld]. Every awaited call may
      be lost before or after it took effect, and other clients act before it
      ([FleetSurroundings]); a log that nothing reads records what took effect.
    - [FleetFacts]: rules for such programs ([triple]) and one lemma per operation. A fleet action
      takes effect once however often it is retried, its receipts say what took effect, a stop can
      always be finished, and a finished operation is final. The guard that serialises the attempts
      under a key is the assumption that others leave the key alone ([respects]).

    ** Research and reports

    - [Studies]: [research/sweep_axes.py], [study_models.py], [study_planning.py],
      [sweep_selection.py], [study_assembly.py] and [stitched_equity.py]: the axes of a sweep and
      their grid, requests with their validators, the planner, selection, aggregates and the
      stitched path, from published strategies to a study with its scored children. The candidates
      derived from axes are an argument of the planner. It shows where the windows of a
      walk-forward study lie, at most 24 folds since the code's loop is bounded by that, and that
      selection depends on training results alone.
    - [Reports]: [backtest/cost_attribution.py], which is exact; [benchmark.py]; and
      [portfolios/combine.py], which makes one account of the runs of a portfolio's sleeves. The
      search for sampled instants takes one turn per step of the common clock, as many as fit the
      window and one more, so it never runs out of turns.

    Statements about money under rounding carry an explicit slack of one part in ten to the
    eighteenth; statements about structure (funnel, timing, causality, records) are exact and
    hold in every decimal context.

    ** What is not modelled

    Processes, HTTP, PostgreSQL (but for the funding rows) and the Coinbase clients; of fleet
    control the inventory page and the texts; of research the rewriting of documents by a sweep,
    submission, jobs, campaigns and promotion; of reports the ratio metrics, which need powers with
    a fractional exponent. The theorems of the kernel start from any signal traces; its call of the evaluator is not composed with
    [SignalTrace]. Beta estimation runs in floating point. Audit notes and decision journals write
    nothing a cycle reads and are left out of the engine. A cycle runs without other writers between
    its calls; interleaving is the subject of [StoreSteps]. The preparation of a futures book before a
    cycle, the supervision of stopped books, the service that validates adoption requests and desk orders are not modelled; nor are
    starting a portfolio, which creates its books, and the planning of portfolio backtests. How fingerprints are computed, serialisation, the detail texts of verdicts
    and cursors of paginated reads are outside. *)

From Stdlib Require Export ZArith QArith Qpower Qabs Lia Lqa.
From stdpp Require Export base tactics option list gmap strings.

#[export] Set Default Goal Selector "!".

(** ** Failure

    A Python operation that may raise returns a [result]; the constructors of [error]
    name the exception classes the modelled code can raise. *)

Inductive error :=
  | DivisionByZero
  | InvalidOperation
  | KeyError
  | IndexError
  | OverflowError
  | ValueError (message : string)
  | BacktestSimulationError (message : string)
  | IndicatorCalculationError
  | CandleQualityError (message : string)
  | SignalEvaluationError (message : string)
  | ExecutionConflictError (message : string)
  | ExecutionStoreError (message : string)
  | LeaseTakenError
  | Inexact
  | BrokerError (message : string)
  | TimeoutError
  | PortfolioNotFoundError
  | PortfolioSleeveNotFoundError
  | PortfolioStrategyNotFoundError
  | PortfolioProposalNotFoundError
  | PortfolioRevisionConflictError (current_revision : Z)
  | PortfolioValidationError (code : string)
  | PortfolioConflictError (code : string)
  | PortfolioSleeveExistsError (sleeve_id : string)
  | PortfolioLiveAcknowledgementError
  | PortfolioStorageUnavailableError
  | PortfolioCombinationError.

Inductive result (A : Type) :=
  | Ok (a : A)
  | Raise (e : error).
Arguments Ok {A} a.
Arguments Raise {A} e.

#[global] Instance result_ret : MRet result := fun A => Ok.
#[global] Instance result_bind : MBind result := fun A B f m =>
  match m with Ok a => f a | Raise e => Raise e end.
#[global] Instance result_fmap : FMap result := fun A B f m =>
  match m with Ok a => Ok (f a) | Raise e => Raise e end.

#[global] Instance error_eq_dec : EqDecision error.
Proof. solve_decision. Defined.

#[global] Instance result_eq_dec {A} `{EqDecision A} : EqDecision (result A).
Proof. solve_decision. Defined.

(** A bind succeeds exactly when both halves do. *)
Lemma bind_Ok {A B} (m : result A) (f : A → result B) b :
  (m ≫= f) = Ok b ↔ ∃ a, m = Ok a ∧ f a = Ok b.
Proof. destruct m; cbn; naive_solver. Qed.

Lemma fmap_Ok {A B} (m : result A) (f : A → B) b :
  f <$> m = Ok b ↔ ∃ a, m = Ok a ∧ b = f a.
Proof. destruct m; cbn; naive_solver. Qed.

Lemma bind_Raise {A B} (m : result A) (f : A → result B) e :
  (m ≫= f) = Raise e ↔ m = Raise e ∨ ∃ a, m = Ok a ∧ f a = Raise e.
Proof. destruct m; cbn; naive_solver. Qed.

(** Success, as a proposition that a hypothesis can carry. *)
Definition is_ok {A} (m : result A) : Prop := ∃ a, m = Ok a.

(** [mapM] over a result, as a Python comprehension that stops at the first exception. *)
Fixpoint result_mapM {A B} (f : A → result B) (l : list A) : result (list B) :=
  match l with
  | [] => Ok []
  | x :: l => y ← f x; k ← result_mapM f l; Ok (y :: k)
  end.

(** A left fold that may raise: a Python [for] loop over a list with an accumulator. *)
Fixpoint foldM {A S} (f : S → A → result S) (s : S) (l : list A) : result S :=
  match l with
  | [] => Ok s
  | x :: l => s' ← f s x; foldM f s' l
  end.

Lemma foldM_app {A S} (f : S → A → result S) s l k :
  foldM f s (l ++ k) = (s' ← foldM f s l; foldM f s' k).
Proof.
  revert s. induction l as [|x l IH]; intros s; cbn; [done|].
  destruct (f s x); cbn; [apply IH|done].
Qed.

(** Invariants of a loop. *)
Lemma foldM_ind {A S} (f : S → A → result S) (P : S → Prop) s l s' :
  P s → (∀ s x t, x ∈ l → P s → f s x = Ok t → P t) → foldM f s l = Ok s' → P s'.
Proof.
  revert s. induction l as [|x l IH]; intros s Hs Hstep; cbn.
  - by intros [= <-].
  - intros (t & Ht & Hk)%bind_Ok. eapply IH; [| |exact Hk].
    + eapply Hstep; [|done|exact Ht]. left.
    + intros u y v Hy. apply Hstep. by right.
Qed.

(** The same for a loop over [range(n)]: the invariant may speak of the index. *)
Lemma foldM_seq_ind {S'} (f : S' → nat → result S') (P : nat → S' → Prop) s n s' :
  P O s → (∀ i u v, (i < n)%nat → P i u → f u i = Ok v → P (S i) v) → foldM f s (seq 0 n) = Ok s' → P n s'.
Proof.
  intros H0 Hstep. assert (∀ k j u, (j + k = n)%nat → P j u → foldM f u (seq j k) = Ok s' → P n s') as Hgen.
  { induction k as [|k IH]; intros j u Hjk Hu; cbn.
    - intros [= <-]. by replace n with j by lia.
    - intros (v & Hv & Hk)%bind_Ok. apply (IH (S j) v); [lia|eapply Hstep; [lia|done..]|done]. }
  intros H. by apply (Hgen n O s).
Qed.

(** Python's [assert]-like guard: raise unless the condition holds. *)
Definition guard_or (b : bool) (e : error) : result unit := if b then Ok tt else Raise e.

Lemma guard_or_Ok b e : guard_or b e = Ok tt ↔ b = true.
Proof. destruct b; cbn; naive_solver. Qed.

(** Two computations that fail alike or return related values. *)
Inductive result_rel {A B} (R : A → B → Prop) : result A → result B → Prop :=
  | rel_ok a b : R a b → result_rel R (Ok a) (Ok b)
  | rel_raise e : result_rel R (Raise e) (Raise e).

Lemma rel_bind {A B C D} (R : A → B → Prop) (S' : C → D → Prop) m m' f g :
  result_rel R m m' → (∀ a b, R a b → result_rel S' (f a) (g b)) → result_rel S' (m ≫= f) (m' ≫= g).
Proof. intros [a b H|e] Hf; cbn; [by apply Hf|constructor]. Qed.

Lemma rel_same {A C D} (S' : C → D → Prop) (m : result A) f g :
  (∀ a, result_rel S' (f a) (g a)) → result_rel S' (m ≫= f) (m ≫= g).
Proof. intros Hf. destruct m; cbn; [apply Hf|constructor]. Qed.

Lemma rel_foldM {A S1 S2} (R : S1 → S2 → Prop) (f : S1 → A → result S1) (g : S2 → A → result S2) l s s' :
  R s s' → (∀ x u v, x ∈ l → R u v → result_rel R (f u x) (g v x)) →
  result_rel R (foldM f s l) (foldM g s' l).
Proof.
  revert s s'. induction l as [|x l IH]; intros s s' Hs Hf; cbn; [by constructor|].
  eapply rel_bind; [apply Hf; [left|done]|]. intros u v Huv. apply IH; [done|].
  intros y a b Hy. apply Hf. by right.
Qed.

(** A loop that simulates another: where one step succeeds, so does the other, and the states
    stay related. *)
Lemma foldM_simulates {A S1 S2} (R : S1 → S2 → Prop) (f : S1 → A → result S1) (g : S2 → A → result S2) l s s' t :
  R s s' → (∀ x u v u', x ∈ l → R u v → f u x = Ok u' → ∃ v', g v x = Ok v' ∧ R u' v') →
  foldM f s l = Ok t → ∃ t', foldM g s' l = Ok t' ∧ R t t'.
Proof.
  revert s s'. induction l as [|x l IH]; intros s s' Hs Hstep; cbn.
  - intros [= <-]. by exists s'.
  - intros (u & Hu & Hk)%bind_Ok. destruct (Hstep x s s' u ltac:(left) Hs Hu) as (v & -> & Hv). cbn.
    apply (IH u v Hv); [|done]. intros y a b a' Hy. apply Hstep. by right.
Qed.

Lemma mapM_simulates {A B C} (R : B → C → Prop) (f : A → result B) (g : A → result C) l k :
  (∀ x y, x ∈ l → f x = Ok y → ∃ z, g x = Ok z ∧ R y z) →
  result_mapM f l = Ok k → ∃ k', result_mapM g l = Ok k' ∧ Forall2 R k k'.
Proof.
  revert k. induction l as [|x l IH]; intros k Hf; cbn.
  - intros [= <-]. by exists [].
  - intros (y & Hy & (r & Hr & [= <-])%bind_Ok)%bind_Ok.
    destruct (Hf x y ltac:(left) Hy) as (z & -> & Hz).
    destruct (IH r) as (r' & -> & Hr'); [intros a b Ha; apply Hf; by right|done|]. cbn.
    eexists. split; [done|]. by constructor.
Qed.

(** ** Boolean filters *)

Lemma elem_of_filter_bool {A} (f : A → bool) x l : x ∈ List.filter f l ↔ f x = true ∧ x ∈ l.
Proof. rewrite !list_elem_of_In, filter_In. tauto. Qed.

Lemma existsb_false {A} (f : A → bool) l x : existsb f l = false → x ∈ l → f x = false.
Proof.
  intros H Hx. apply not_true_iff_false. intros Hf. apply (not_true_iff_false (existsb f l)); [done|].
  apply existsb_exists. exists x. by rewrite <- list_elem_of_In.
Qed.

(** ** Tactics *)

(** Turn every [m ≫= f = Ok b] hypothesis into its two halves, and substitute. *)
Ltac invert_ok :=
  repeat match goal with
  | H : mbind _ _ = Ok _ |- _ => apply bind_Ok in H as (? & ? & ?)
  | H : fmap _ _ = Ok _ |- _ => apply fmap_Ok in H as (? & ? & ?)
  | H : Ok _ = Ok _ |- _ => injection H as ?
  | H : Raise _ = Ok _ |- _ => discriminate H
  | H : Ok _ = Raise _ |- _ => discriminate H
  | H : guard_or _ _ = Ok _ |- _ => apply guard_or_Ok in H
  | H : (_, _) = (_, _) |- _ => injection H as ?
  | H : Some _ = Some _ |- _ => injection H as ?
  | H : mret _ = Ok _ |- _ => injection H as ?
  end; subst.

(** Case analysis on every [if] and [match] of a hypothesis that equates code to [Ok]. *)
Ltac case_ok H :=
  repeat (match type of H with
  | (if ?b then _ else _) = _ => let E := fresh "E" in destruct b eqn:E
  | match ?x with _ => _ end = _ => let E := fresh "E" in destruct x eqn:E
  end; try discriminate H).

(** ** Booleans *)

Lemma andb_prop_iff b c : b && c = true ↔ b = true ∧ c = true.
Proof. apply andb_true_iff. Qed.

(** ** Rationals

    [p10 e] is ten to an integer power. *)

Definition p10 (e : Z) : Q := Qpower 10 e.

Lemma p10_pos e : (0 < p10 e)%Q.
Proof. apply Qpower_0_lt. reflexivity. Qed.

Lemma p10_add a b : (p10 (a + b) == p10 a * p10 b)%Q.
Proof. unfold p10. apply Qpower_plus. intros H. discriminate H. Qed.

Lemma p10_Z n : (0 ≤ n)%Z → (p10 n == inject_Z (10 ^ n))%Q.
Proof. intros Hn. unfold p10. rewrite Zpower_Qpower by done. reflexivity. Qed.

Lemma p10_nonzero e : ~ (p10 e == 0)%Q.
Proof. pose proof (p10_pos e). lra. Qed.

#[global] Instance Qle_preorder : PreOrder Qle.
Proof. split; [exact Qle_refl|exact Qle_trans]. Qed.

(** ** Clock loops

    [cursor = start; while cursor < end_: visit(cursor); cursor += step], as the list of
    visited instants. [loop_fuel] bounds the iterations; [visit_fuel] shows that more fuel
    changes nothing, so the loop has ended by its own condition. *)

Fixpoint visit (fuel : nat) (cursor end_ step : Z) : list Z :=
  match fuel with
  | O => []
  | S fuel => if (cursor <? end_)%Z then cursor :: visit fuel (cursor + step)%Z end_ step else []
  end.

Definition loop_fuel (cursor end_ step : Z) : nat := Z.to_nat ((end_ - cursor + step - 1) / step).

Definition instants (cursor end_ step : Z) : list Z := visit (loop_fuel cursor end_ step) cursor end_ step.

(** The closed form: an arithmetic progression. *)
Fixpoint grid (start step : Z) (n : nat) : list Z :=
  match n with O => [] | S n => start :: grid (start + step)%Z step n end.

Lemma loop_fuel_step cursor end_ step : (0 < step)%Z -> (cursor < end_)%Z ->
  loop_fuel cursor end_ step = S (loop_fuel (cursor + step) end_ step).
Proof.
  intros Hs Hc. unfold loop_fuel.
  replace (end_ - cursor + step - 1)%Z with ((end_ - (cursor + step) + step - 1) + 1 * step)%Z by lia.
  rewrite Z.div_add by lia. pose proof (Z.div_pos (end_ - (cursor + step) + step - 1) step). lia.
Qed.

Lemma loop_fuel_done cursor end_ step : (0 < step)%Z -> (end_ <= cursor)%Z ->
  loop_fuel cursor end_ step = O.
Proof.
  intros Hs Hc. unfold loop_fuel.
  assert ((end_ - cursor + step - 1) / step < 1)%Z by (apply Z.div_lt_upper_bound; lia). lia.
Qed.

Lemma visit_grid fuel cursor end_ step : (0 < step)%Z -> (loop_fuel cursor end_ step <= fuel)%nat ->
  visit fuel cursor end_ step = grid cursor step (loop_fuel cursor end_ step).
Proof.
  intros Hs. revert cursor. induction fuel as [|fuel IH]; intros cursor Hf.
  - by assert (loop_fuel cursor end_ step = 0)%nat as -> by lia.
  - cbn [visit]. destruct (Z.ltb_spec cursor end_).
    + rewrite loop_fuel_step in * by done. cbn [grid]. rewrite IH by lia. done.
    + by rewrite loop_fuel_done.
Qed.

Lemma visit_fuel fuel cursor end_ step : (0 < step)%Z -> (loop_fuel cursor end_ step <= fuel)%nat ->
  visit fuel cursor end_ step = instants cursor end_ step.
Proof. intros. unfold instants. by rewrite !visit_grid by lia. Qed.

Lemma instants_grid cursor end_ step : (0 < step)%Z ->
  instants cursor end_ step = grid cursor step (loop_fuel cursor end_ step).
Proof. intros. by apply visit_grid. Qed.

Lemma instants_step cursor end_ step : (0 < step)%Z -> (cursor < end_)%Z ->
  instants cursor end_ step = cursor :: instants (cursor + step) end_ step.
Proof. intros. rewrite !instants_grid, loop_fuel_step by done. done. Qed.

Lemma instants_done cursor end_ step : (0 < step)%Z -> (end_ <= cursor)%Z ->
  instants cursor end_ step = [].
Proof. intros. by rewrite instants_grid, loop_fuel_done. Qed.

Lemma elem_of_grid x start step n :
  x ∈ grid start step n ↔ ∃ k, (k < n)%nat ∧ x = (start + step * Z.of_nat k)%Z.
Proof.
  revert start. induction n as [|n IH]; intros start; cbn [grid].
  - rewrite elem_of_nil. split; [done|]. intros (k & Hk & _). lia.
  - rewrite elem_of_cons, IH. split.
    + intros [-> | (k & Hk & ->)]; [exists O|exists (S k)]; lia.
    + intros ([|k] & Hk & ->); [left; lia|right]. exists k. lia.
Qed.

(** The loop visits exactly the multiples of the step in the half-open range. *)
Lemma elem_of_instants x cursor end_ step : (0 < step)%Z ->
  x ∈ instants cursor end_ step ↔ ∃ k, (0 <= k)%Z ∧ x = (cursor + step * k)%Z ∧ (x < end_)%Z.
Proof.
  intros Hs. rewrite instants_grid, elem_of_grid by done.
  pose proof (Z.div_mod (end_ - cursor + step - 1) step ltac:(lia)) as Hd.
  pose proof (Z.mod_pos_bound (end_ - cursor + step - 1) step Hs) as Hm.
  unfold loop_fuel. set (q := ((end_ - cursor + step - 1) / step)%Z) in *. split.
  - intros (k & Hk & ->). exists (Z.of_nat k). split; [lia|]. split; [done|]. nia.
  - intros (k & Hk & -> & Hlt). exists (Z.to_nat k). rewrite Z2Nat.id by done.
    split; [|done]. assert (k < q)%Z by nia. lia.
Qed.
