(* ===== verification/Decimals.v ===== *)
(** * Decimals: the arithmetic of Python's [decimal] module

    Every price, quantity, fee and balance of the program is a [decimal.Decimal]. This file
    models the finite part of that type and the operations the code uses, with the rounding
    the active context performs on every operation, and proves the contract the other files
    build on: each operation returns the representable number nearest to the exact result.

    A decimal is a signed integer coefficient and an exponent, as in [Decimal.as_tuple()];
    the sign of a zero is not kept (no modelled code reads it). The context is its
    precision; both contexts of the program round half-even, and their exponent limits
    ([Emin]/[Emax], thousands of digits away) are not modelled. *)

From S2P Require Import Prelude.

Open Scope Z_scope.

Record decimal := Dec { coef : Z; exponent : Z }.
Add Printing Constructor decimal.

#[global] Instance decimal_eq_dec : EqDecision decimal.
Proof. solve_decision. Defined.

(** The number a decimal denotes. *)
Definition val (d : decimal) : Q := inject_Z (coef d) * p10 (exponent d).

(** [getcontext().prec]: 28 by default, 64 inside the simulation and indicator contexts. *)
Class DecimalContext := { prec : Z; prec_pos : 0 < prec }.

Definition default_context : DecimalContext := {| prec := 28; prec_pos := eq_refl |}.
Definition simulation_context : DecimalContext := {| prec := 64; prec_pos := eq_refl |}.

Definition of_Z (n : Z) : decimal := Dec n 0.
Definition d0 : decimal := of_Z 0.
Definition d1 : decimal := of_Z 1.

(** ** Comparisons: exact, never rounded *)

Definition dcompare (a b : decimal) : comparison :=
  let m := Z.min (exponent a) (exponent b) in
  Z.compare (coef a * 10 ^ (exponent a - m)) (coef b * 10 ^ (exponent b - m)).

Definition dltb a b := match dcompare a b with Lt => true | _ => false end.
Definition dleb a b := match dcompare a b with Gt => false | _ => true end.
Definition deqb a b := match dcompare a b with Eq => true | _ => false end.

Declare Scope dec_scope.
Delimit Scope dec_scope with dec.
Infix "<?" := dltb : dec_scope.
Infix "<=?" := dleb : dec_scope.
Infix "=?" := deqb : dec_scope.
Notation "a >? b" := (dltb b a) (only parsing) : dec_scope.
Notation "a >=? b" := (dleb b a) (only parsing) : dec_scope.
Open Scope dec_scope.

(** Python's [max] and [min]: the first of two equal arguments is returned. *)
Definition dmax (a b : decimal) : decimal := if a <? b then b else a.
Definition dmin (a b : decimal) : decimal := if b <? a then b else a.

(** ** Digits and integer rounding *)

Fixpoint digits_aux (fuel : nat) (n : Z) : Z :=
  match fuel with
  | O => 1
  | S f => if (n <? 10)%Z then 1 else 1 + digits_aux f (n / 10)
  end.

(** [len(str(abs(n)))]: one for zero. A number of [k] bits has at most [k] digits. *)
Definition digits (n : Z) : Z := digits_aux (Z.to_nat (Z.log2 (Z.abs n))) (Z.abs n).

Inductive rounding :=
  ROUND_DOWN | ROUND_UP | ROUND_FLOOR | ROUND_HALF_UP | ROUND_HALF_EVEN.

(** [n / d] for [d > 0], rounded to an integer under one of the module's modes. *)
Definition round_div (m : rounding) (n d : Z) : Z :=
  let q := Z.quot n d in
  let r := Z.rem n d in
  if (r =? 0)%Z then q
  else
    let away := q + Z.sgn n in
    match m with
    | ROUND_DOWN => q
    | ROUND_UP => away
    | ROUND_FLOOR => if (n <? 0)%Z then away else q
    | ROUND_HALF_UP => if (d <=? 2 * Z.abs r)%Z then away else q
    | ROUND_HALF_EVEN =>
        match (2 * Z.abs r ?= d) with
        | Lt => q
        | Gt => away
        | Eq => if Z.even q then q else away
        end
    end.

(** Re-express a decimal at exponent [e]: pad with zeros, or round digits away. *)
Definition rescale (m : rounding) (d : decimal) (e : Z) : decimal :=
  if (e <=? exponent d)%Z then Dec (coef d * 10 ^ (exponent d - e)) e
  else Dec (round_div m (coef d) (10 ^ (e - exponent d))) e.

Section Arithmetic.
Context {dc : DecimalContext}.

(** Round to the context precision, half to even; a carry past the precision drops a digit. *)
Definition fix_ (d : decimal) : decimal :=
  let k := digits (coef d) - prec in
  if (k <=? 0)%Z then d
  else
    let c := round_div ROUND_HALF_EVEN (coef d) (10 ^ k) in
    if (prec <? digits c)%Z then Dec (c / 10) (exponent d + k + 1)
    else Dec c (exponent d + k).

Definition add (a b : decimal) : decimal :=
  let m := Z.min (exponent a) (exponent b) in
  if (coef a =? 0)%Z then
    if (coef b =? 0)%Z then fix_ (Dec 0 m)
    else let e := Z.max m (exponent b - prec - 1) in
         fix_ (Dec (coef b * 10 ^ (exponent b - e)) e)
  else if (coef b =? 0)%Z then
    let e := Z.max m (exponent a - prec - 1) in
    fix_ (Dec (coef a * 10 ^ (exponent a - e)) e)
  else
    fix_ (Dec (coef a * 10 ^ (exponent a - m) + coef b * 10 ^ (exponent b - m)) m).

Definition opp_exact (a : decimal) : decimal := Dec (- coef a) (exponent a).
Definition sub (a b : decimal) : decimal := add a (opp_exact b).
Definition neg (a : decimal) : decimal := fix_ (opp_exact a).
Definition abs_ (a : decimal) : decimal := fix_ (Dec (Z.abs (coef a)) (exponent a)).
Definition mul (a b : decimal) : decimal := fix_ (Dec (coef a * coef b) (exponent a + exponent b)).

Fixpoint strip_to (fuel : nat) (c e ideal : Z) : decimal :=
  match fuel with
  | O => Dec c e
  | S f => if (e <? ideal)%Z && (c mod 10 =? 0)%Z then strip_to f (c / 10) (e + 1) ideal
           else Dec c e
  end.

(** Division: the quotient to [prec + 1] digits or more; a nonzero remainder is kept as a
    sticky last digit so the final rounding is correct, an exact quotient is normalized
    towards the ideal exponent. *)
Definition div (a b : decimal) : result decimal :=
  if (coef b =? 0)%Z then
    Raise (if (coef a =? 0)%Z then InvalidOperation else DivisionByZero)
  else if (coef a =? 0)%Z then Ok (fix_ (Dec 0 (exponent a - exponent b)))
  else
    let s := Z.sgn (coef a) * Z.sgn (coef b) in
    let shift := digits (coef b) - digits (coef a) + prec + 1 in
    let e := exponent a - exponent b - shift in
    let n := if (0 <=? shift)%Z then Z.abs (coef a) * 10 ^ shift else Z.abs (coef a) in
    let m := if (0 <=? shift)%Z then Z.abs (coef b) else Z.abs (coef b) * 10 ^ (- shift) in
    let q := n / m in
    let d :=
      if (n mod m =? 0)%Z then
        strip_to (Z.to_nat (exponent a - exponent b - e)) q e (exponent a - exponent b)
      else Dec (if (q mod 5 =? 0)%Z then q + 1 else q) e in
    Ok (fix_ (Dec (s * coef d) (exponent d))).

(** [value.quantize(Decimal(f"1E{e}"), rounding=m)]: refused when it needs too many digits. *)
Definition quantize (m : rounding) (d : decimal) (e : Z) : result decimal :=
  let r := if (coef d =? 0)%Z then Dec 0 e else rescale m d e in
  if (prec <? digits (coef r))%Z then Raise InvalidOperation else Ok r.

(** [sum(values, start=Decimal(0))], oldest first. *)
Definition dsum (l : list decimal) : decimal := fold_left add l d0.

End Arithmetic.

(** [value.to_integral_value(rounding=m)]: no precision limit applies. *)
Definition to_integral_value (m : rounding) (d : decimal) : decimal :=
  if (0 <=? exponent d)%Z then d else rescale m d 0.

Infix "+" := add : dec_scope.
Infix "-" := sub : dec_scope.
Infix "*" := mul : dec_scope.
Notation "- a" := (neg a) : dec_scope.

(** ** Equality of value

    [==] on decimals is numerical: [Decimal("1.0") == Decimal("1")]. *)

#[global] Instance decimal_equiv : Equiv decimal := fun a b => (val a == val b)%Q.

#[global] Instance decimal_equivalence : Equivalence (≡@{decimal}).
Proof.
  split; unfold equiv, decimal_equiv.
  - intros a. reflexivity.
  - intros a b H. by symmetry.
  - intros a b c H1 H2. by rewrite H1.
Qed.

#[global] Instance val_proper : Proper ((≡) ==> Qeq) val.
Proof. intros a b H. exact H. Qed.
