(* ===== verification/DecimalFacts.v ===== *)
(** * DecimalFacts: how close decimal arithmetic comes

    Every operation returns a nearest representable number; then how such errors add up along
    a formula. *)

From S2P Require Import Prelude Decimals.

Open Scope Z_scope.

(** * The contract of decimal arithmetic

    Comparisons decide the order of values; every rounding operation returns a representable
    number, no representable number lies strictly between it and the exact result
    ([rounds_nearest]), and it is within half a unit in the last place ([rounds_error]). *)

(** ** Powers of ten and values *)

Lemma pow10_pos n : 0 <= n -> 0 < 10 ^ n.
Proof. intros. apply Z.pow_pos_nonneg; lia. Qed.

Lemma val_Dec c e : val (Dec c e) = (inject_Z c * p10 e)%Q.
Proof. done. Qed.

(** Moving digits between coefficient and exponent keeps the value. *)
Lemma val_shift c e k : 0 <= k -> (val (Dec (c * 10 ^ k) e) == val (Dec c (e + k)))%Q.
Proof.
  intros Hk. rewrite !val_Dec, inject_Z_mult, <- p10_Z by done. rewrite p10_add. ring.
Qed.

Lemma val_align d m : m <= exponent d ->
  (val d == inject_Z (coef d * 10 ^ (exponent d - m)) * p10 m)%Q.
Proof.
  intros Hm. rewrite <- (val_Dec _ m), val_shift by lia. destruct d as [c e]; cbn.
  by replace (m + (e - m)) with e by lia.
Qed.

Lemma val_opp d : (val (opp_exact d) == - val d)%Q.
Proof. destruct d. unfold val, opp_exact; cbn. rewrite inject_Z_opp. ring. Qed.

Lemma val_of_Z n : (val (of_Z n) == inject_Z n)%Q.
Proof. unfold val, of_Z; cbn. unfold p10. cbn. ring. Qed.

Lemma val_d0 : (val d0 == 0)%Q.
Proof. reflexivity. Qed.

Lemma val_d1 : (val d1 == 1)%Q.
Proof. reflexivity. Qed.

(** ** Comparisons *)

Lemma Qcompare_scale a b m :
  (inject_Z a * p10 m ?= inject_Z b * p10 m)%Q = Z.compare a b.
Proof.
  pose proof (p10_pos m) as Hp.
  destruct (Z.compare_spec a b) as [->|H|H].
  - by apply Qeq_alt.
  - apply Qlt_alt. rewrite Zlt_Qlt in H. by apply Qmult_lt_compat_r.
  - apply Qgt_alt. rewrite Zlt_Qlt in H. by apply Qmult_lt_compat_r.
Qed.

Lemma dcompare_spec a b : dcompare a b = (val a ?= val b)%Q.
Proof.
  unfold dcompare. set (m := Z.min _ _).
  rewrite (Qcompare_comp _ _ (val_align a m ltac:(lia)) _ _ (val_align b m ltac:(lia))).
  by rewrite Qcompare_scale.
Qed.

Lemma dltb_lt a b : (a <? b)%dec = true ↔ (val a < val b)%Q.
Proof.
  unfold dltb. rewrite dcompare_spec, Qlt_alt. destruct (_ ?= _)%Q; naive_solver.
Qed.

Lemma dleb_le a b : (a <=? b)%dec = true ↔ (val a <= val b)%Q.
Proof.
  unfold dleb. rewrite dcompare_spec, Qle_alt. destruct (_ ?= _)%Q; naive_solver.
Qed.

Lemma deqb_eq a b : (a =? b)%dec = true ↔ (val a == val b)%Q.
Proof.
  unfold deqb. rewrite dcompare_spec, Qeq_alt. destruct (_ ?= _)%Q; naive_solver.
Qed.

Lemma dltb_ge a b : (a <? b)%dec = false ↔ (val b <= val a)%Q.
Proof.
  rewrite <- not_true_iff_false, dltb_lt. split; [apply Qnot_lt_le|apply Qle_not_lt].
Qed.

Lemma dltb_negb a b : (a <? b)%dec = negb (b <=? a)%dec.
Proof.
  destruct (a <? b)%dec eqn:E; symmetry; [apply negb_true_iff|apply negb_false_iff].
  - apply dltb_lt in E. apply not_true_iff_false. rewrite dleb_le. lra.
  - apply dltb_ge in E. by apply dleb_le.
Qed.

Lemma dleb_gt a b : (a <=? b)%dec = false ↔ (val b < val a)%Q.
Proof.
  rewrite <- not_true_iff_false, dleb_le. split; [apply Qnot_le_lt|apply Qlt_not_le].
Qed.

Lemma deqb_neq a b : (a =? b)%dec = false ↔ ¬ (val a == val b)%Q.
Proof. by rewrite <- not_true_iff_false, deqb_eq. Qed.

(** Turn the boolean tests of the code into statements about values. *)
Ltac dec_cmp :=
  repeat match goal with
  | H : (_ <? _)%dec = true |- _ => apply dltb_lt in H
  | H : (_ <? _)%dec = false |- _ => apply dltb_ge in H
  | H : (_ <=? _)%dec = true |- _ => apply dleb_le in H
  | H : (_ <=? _)%dec = false |- _ => apply dleb_gt in H
  | H : (_ =? _)%dec = true |- _ => apply deqb_eq in H
  | H : (_ =? _)%dec = false |- _ => apply deqb_neq in H
  | |- (_ <? _)%dec = true => apply dltb_lt
  | |- (_ <? _)%dec = false => apply dltb_ge
  | |- (_ <=? _)%dec = true => apply dleb_le
  | |- (_ <=? _)%dec = false => apply dleb_gt
  end.

#[global] Instance dltb_proper : Proper ((≡) ==> (≡) ==> eq) dltb.
Proof.
  intros a a' Ha b b' Hb. unfold dltb. rewrite !dcompare_spec.
  by rewrite (Qcompare_comp _ _ Ha _ _ Hb).
Qed.

#[global] Instance dleb_proper : Proper ((≡) ==> (≡) ==> eq) dleb.
Proof.
  intros a a' Ha b b' Hb. unfold dleb. rewrite !dcompare_spec.
  by rewrite (Qcompare_comp _ _ Ha _ _ Hb).
Qed.

Lemma dmax_spec a b :
  (val a <= val (dmax a b))%Q ∧ (val b <= val (dmax a b))%Q ∧ (dmax a b = a ∨ dmax a b = b).
Proof.
  unfold dmax. destruct (a <? b)%dec eqn:E; dec_cmp; (split; [|split]); first [lra|auto].
Qed.

Lemma dmin_spec a b :
  (val (dmin a b) <= val a)%Q ∧ (val (dmin a b) <= val b)%Q ∧ (dmin a b = a ∨ dmin a b = b).
Proof.
  unfold dmin. destruct (b <? a)%dec eqn:E; dec_cmp; (split; [|split]); first [lra|auto].
Qed.

(** ** Digits *)

Lemma digits_aux_spec fuel n :
  0 <= n -> n < 2 ^ (Z.of_nat fuel + 1) ->
  1 <= digits_aux fuel n ∧ n < 10 ^ digits_aux fuel n ∧
  (n <> 0 -> 10 ^ (digits_aux fuel n - 1) <= n).
Proof.
  revert n. induction fuel as [|fuel IH]; intros n Hn Hlt; cbn [digits_aux].
  - change (2 ^ (Z.of_nat 0 + 1)) with 2 in Hlt. cbn. lia.
  - destruct (Z.ltb_spec n 10); [cbn; lia|].
    destruct (IH (n / 10)) as (H1 & H2 & H3).
    + apply Z.div_pos; lia.
    + apply Z.div_lt_upper_bound; [lia|].
      replace (Z.of_nat (S fuel) + 1) with (Z.succ (Z.of_nat fuel + 1)) in Hlt by lia.
      rewrite Z.pow_succ_r in Hlt by lia. lia.
    + set (k := digits_aux fuel (n / 10)) in *.
      pose proof (Z.div_mod n 10 ltac:(lia)). pose proof (Z.mod_pos_bound n 10 ltac:(lia)).
      split; [lia|]. replace (1 + k - 1) with k by lia. split.
      * replace (1 + k) with (Z.succ k) by lia. rewrite Z.pow_succ_r by lia. lia.
      * intros _. assert (n / 10 <> 0) by (intros E; rewrite E in *; lia).
        replace k with (Z.succ (k - 1)) by lia. rewrite Z.pow_succ_r by lia.
        specialize (H3 ltac:(done)). lia.
Qed.

Lemma digits_spec n :
  1 <= digits n ∧ Z.abs n < 10 ^ digits n ∧ (n <> 0 -> 10 ^ (digits n - 1) <= Z.abs n).
Proof.
  destruct (decide (n = 0)) as [->|Hn]; [split; [done|]; split; done|].
  unfold digits. pose proof (Z.log2_nonneg (Z.abs n)).
  pose proof (Z.log2_spec (Z.abs n) ltac:(lia)) as Hl.
  destruct (digits_aux_spec (Z.to_nat (Z.log2 (Z.abs n))) (Z.abs n)) as (? & ? & H3).
  - lia.
  - rewrite Z2Nat.id by done. replace (_ + 1) with (Z.succ (Z.log2 (Z.abs n))) by lia. lia.
  - split; [done|]. split; [done|]. intros _. apply H3. lia.
Qed.

Lemma digits_le n k : 0 < k -> Z.abs n < 10 ^ k -> digits n <= k.
Proof.
  intros Hk Hn. destruct (decide (n = 0)) as [->|Hz]; [change (1 <= k); lia|].
  destruct (digits_spec n) as (_ & _ & H). specialize (H Hz).
  apply Z.lt_pred_le. apply (Z.pow_lt_mono_r_iff 10); lia.
Qed.

Lemma digits_bound n k : digits n <= k -> Z.abs n < 10 ^ k.
Proof.
  intros Hk. destruct (digits_spec n) as (H1 & H2 & _).
  apply (Z.lt_le_trans _ _ _ H2). apply Z.pow_le_mono_r; lia.
Qed.

(** ** Integer rounding *)

Lemma quot_rem_facts n d : 0 < d ->
  n = d * Z.quot n d + Z.rem n d ∧ Z.abs (Z.rem n d) < d ∧
  (Z.rem n d = 0 ∨ (0 < Z.rem n d ∧ 0 < n) ∨ (Z.rem n d < 0 ∧ n < 0)).
Proof.
  intros Hd. pose proof (Z.quot_rem' n d). pose proof (Z.rem_bound_abs n d ltac:(lia)).
  split; [done|]. split; [lia|].
  destruct (Z.lt_trichotomy n 0) as [Hn|[->|Hn]].
  - pose proof (Z.rem_bound_pos_neg n d). lia.
  - left. by apply Z.rem_0_l; lia.
  - pose proof (Z.rem_bound_pos n d). lia.
Qed.

(** Rounding to the nearest, whichever way ties go, is off by at most half a step. *)
Lemma round_div_nearest m n d : 0 < d -> m = ROUND_HALF_EVEN ∨ m = ROUND_HALF_UP ->
  2 * Z.abs (round_div m n d * d - n) <= d.
Proof.
  intros Hd Hm. destruct (quot_rem_facts n d Hd) as (Hn & Hr & Hs).
  unfold round_div. set (q := Z.quot n d) in *. set (r := Z.rem n d) in *.
  clearbody q r.
  destruct (Z.eqb_spec r 0) as [Hz|Hz]; [nia|].
  destruct Hs as [?|Hs]; [lia|].
  destruct Hm as [-> | ->], Hs as [[Hr0 Hs]|[Hr0 Hs]];
    rewrite ?(Z.sgn_pos n), ?(Z.sgn_neg n) by done.
  1,2: destruct (Z.compare_spec (2 * Z.abs r) d); [destruct (Z.even q)|..]; lia.
  all: destruct (Z.leb_spec d (2 * Z.abs r)); lia.
Qed.

(** The directed modes bracket the exact quotient. *)
Lemma round_div_down n d : 0 < d -> 0 <= n -> round_div ROUND_DOWN n d = n / d.
Proof.
  intros Hd Hn. unfold round_div. rewrite Z.quot_div_nonneg by lia.
  by destruct (_ =? _).
Qed.

Lemma round_div_floor n d : 0 < d -> round_div ROUND_FLOOR n d = n / d.
Proof.
  intros Hd. destruct (quot_rem_facts n d Hd) as (Hn & Hr & Hs).
  unfold round_div. set (q := Z.quot n d) in *. set (r := Z.rem n d) in *.
  clearbody q r.
  destruct (Z.eqb_spec r 0) as [Hz|Hz]; [|destruct (Z.ltb_spec n 0)].
  - apply (Z.div_unique n d q 0); lia.
  - apply (Z.div_unique n d _ (r + d)); nia.
  - apply (Z.div_unique n d q r); nia.
Qed.

Lemma round_div_up n d : 0 < d -> 0 <= n -> n <= round_div ROUND_UP n d * d < n + d.
Proof.
  intros Hd Hpos. destruct (quot_rem_facts n d Hd) as (Hn & Hr & Hs).
  unfold round_div. set (q := Z.quot n d) in *. set (r := Z.rem n d) in *.
  clearbody q r.
  destruct (Z.eqb_spec r 0); [lia|]. rewrite Z.sgn_pos by lia. lia.
Qed.

Lemma inject_Z_minus a b : inject_Z (a - b) = (inject_Z a - inject_Z b)%Q.
Proof. unfold Qminus. rewrite <- inject_Z_opp. apply inject_Z_plus. Qed.

Lemma Qabs_inject z : Qabs (inject_Z z) = inject_Z (Z.abs z).
Proof. done. Qed.

(** A rounding error of at most half a step never passes another multiple of the step. *)
Lemma nearest_multiple (q z d : Z) (t : Q) : 0 < d ->
  (2 * Qabs (inject_Z (q * d) - t) <= inject_Z d)%Q ->
  (Qabs (inject_Z (q * d) - t) <= Qabs (inject_Z (z * d) - t))%Q.
Proof.
  intros Hd Hq. destruct (decide (q = z)) as [->|Hne]; [apply Qle_refl|].
  assert (Hzq : (inject_Z d <= Qabs (inject_Z (z * d) - inject_Z (q * d)))%Q).
  { rewrite <- inject_Z_minus, Qabs_inject, <- Zle_Qle. nia. }
  pose proof (Qabs_triangle (inject_Z (z * d) - t) (t - inject_Z (q * d))) as Ht.
  rewrite (Qabs_wd (inject_Z (z * d) - t + (t - inject_Z (q * d)))
             (inject_Z (z * d) - inject_Z (q * d))) in Ht by ring.
  rewrite (Qabs_Qminus t) in Ht. lra.
Qed.

(** ** Representable numbers and correct rounding *)

(** A number of at most [p] digits, times a power of ten. *)
Definition representable (p : Z) (q : Q) : Prop :=
  ∃ c e, Z.abs c <= 10 ^ p ∧ (q == inject_Z c * p10 e)%Q.

(** Half a unit in the last of [p] places, relative to the number. *)
Definition half_ulp (p : Z) : Q := ((1 # 2) * p10 (1 - p))%Q.

(** [d] is [q] rounded to [p] digits. *)
Record rounds (p : Z) (q : Q) (d : decimal) : Prop := {
  rounds_representable : representable p (val d);
  rounds_nearest r : representable p r -> (Qabs (val d - q) <= Qabs (r - q))%Q;
  rounds_error : (Qabs (val d - q) <= half_ulp p * Qabs q)%Q
}.

#[global] Instance representable_proper p : Proper (Qeq ==> iff) (representable p).
Proof.
  intros q q' Hq. unfold representable. split; intros (c & e & H1 & H2); exists c, e;
    (split; [done|]); [by rewrite <- Hq|by rewrite Hq].
Qed.

#[global] Instance rounds_proper p : Proper (Qeq ==> (≡) ==> iff) (rounds p).
Proof.
  assert (∀ q q' d d', (q == q')%Q -> d ≡ d' -> rounds p q d -> rounds p q' d') as H.
  { intros q q' d d' Hq Hd [H1 H2 H3]. unfold equiv, decimal_equiv in Hd. split.
    - by rewrite <- Hd.
    - intros r Hr. rewrite <- Hq, <- Hd. by apply H2.
    - by rewrite <- Hq, <- Hd. }
  intros q q' Hq d d' Hd. split; apply H; done || by symmetry.
Qed.

Lemma half_ulp_pos p : (0 < half_ulp p)%Q.
Proof. unfold half_ulp. pose proof (p10_pos (1 - p)). lra. Qed.

Lemma half_ulp_half p : 0 < p -> (half_ulp p <= 1 # 2)%Q.
Proof.
  intros Hp. unfold half_ulp. assert (p10 (1 - p) <= 1)%Q; [|lra].
  assert (1 * p10 (1 - p) <= p10 (p - 1) * p10 (1 - p))%Q as H.
  { apply Qmult_le_compat_r; [|apply Qlt_le_weak, p10_pos].
    rewrite p10_Z by lia. change 1%Q with (inject_Z 1). rewrite <- Zle_Qle.
    pose proof (pow10_pos (p - 1) ltac:(lia)). lia. }
  rewrite <- p10_add in H. replace (p - 1 + (1 - p)) with 0 in H by lia.
  change (p10 0) with 1%Q in H. lra.
Qed.

Lemma Qabs_scale a b u : (0 < u)%Q -> (Qabs (a * u - b * u) == Qabs (a - b) * u)%Q.
Proof.
  intros Hu. transitivity (Qabs ((a - b) * u)); [apply Qabs_wd; ring|].
  rewrite Qabs_Qmult, (Qabs_pos u) by lra. reflexivity.
Qed.

Lemma p10_inv e : (p10 (- e) * p10 e == 1)%Q.
Proof. rewrite <- p10_add. by replace (- e + e) with 0 by lia. Qed.

Section FixCore.
Context `{DecimalContext}.

(** [c] stands for the exact number [t]: both lie on the same side of every multiple of
    five, so no digit is lost by rounding [c] in place of [t]. *)
Definition stands_for (c : Z) (t : Q) : Prop := ∀ m : Z,
  (c <= 5 * m -> (t <= inject_Z (5 * m))%Q) ∧ (5 * m <= c -> (inject_Z (5 * m) <= t)%Q).

Lemma stands_for_self c : stands_for c (inject_Z c).
Proof. intros m. by rewrite <- !Zle_Qle. Qed.

Section Drop.
Variables (c k : Z) (t : Q).
Hypothesis Hk : 0 < k.
Hypothesis Hdig : digits c = prec + k.
Hypothesis Hc : stands_for c t.
#[local] Abbreviation q := (round_div ROUND_HALF_EVEN c (10 ^ k)).
#[local] Abbreviation D := (10 ^ k).

Lemma drop_half : (2 * Qabs (inject_Z (q * D) - t) <= inject_Z D)%Q.
Proof.
  pose proof (pow10_pos (k - 1) ltac:(lia)) as Hpos.
  assert (HD : D = 10 * 10 ^ (k - 1)).
  { replace k with (Z.succ (k - 1)) at 1 by lia. by rewrite Z.pow_succ_r by lia. }
  pose proof (round_div_nearest ROUND_HALF_EVEN c D ltac:(lia) ltac:(by left)) as Hn.
  set (j := 10 ^ (k - 1)) in *.
  destruct (Hc ((2 * q + 1) * j)) as [Hup _], (Hc ((2 * q - 1) * j)) as [_ Hlo].
  specialize (Hup ltac:(lia)). specialize (Hlo ltac:(lia)).
  replace (5 * ((2 * q + 1) * j)) with (q * D + 5 * j) in Hup by (rewrite HD; ring).
  replace (5 * ((2 * q - 1) * j)) with (q * D - 5 * j) in Hlo by (rewrite HD; ring).
  rewrite inject_Z_plus in Hup. rewrite inject_Z_minus in Hlo.
  assert (inject_Z D == 2 * inject_Z (5 * j))%Q as ->.
  { rewrite HD. change 2%Q with (inject_Z 2). rewrite <- inject_Z_mult. apply inject_Z_injective. ring. }
  assert (Qabs (inject_Z (q * D) - t) <= inject_Z (5 * j))%Q; [|lra].
  apply Qabs_Qle_condition. lra.
Qed.

Lemma drop_size : Z.abs q <= 10 ^ prec.
Proof.
  pose proof prec_pos as Hp. pose proof (pow10_pos k ltac:(lia)) as HD.
  pose proof (round_div_nearest ROUND_HALF_EVEN c D HD ltac:(by left)) as Hn.
  destruct (digits_spec c) as (_ & Hlt & _). rewrite Hdig, Z.pow_add_r in Hlt by lia.
  assert (Z.abs (q * D) = Z.abs q * D) as Ha by (by rewrite Z.abs_mul, (Z.abs_eq D) by lia).
  apply Z.le_ngt. intros Hgt.
  assert ((10 ^ prec + 1) * D <= Z.abs q * D) by (apply Z.mul_le_mono_nonneg_r; lia). lia.
Qed.

(** The exact number has at least [prec] digits before the dropped ones. *)
Lemma drop_magnitude : (inject_Z (10 ^ (prec - 1) * D) <= Qabs t)%Q.
Proof.
  pose proof prec_pos as Hp. pose proof (pow10_pos (k - 1) ltac:(lia)) as HD.
  destruct (digits_spec c) as (_ & _ & Hge).
  assert (c <> 0) as Hnz.
  { intros E. rewrite E in Hdig. change (digits 0) with 1 in Hdig. lia. }
  specialize (Hge Hnz). rewrite Hdig in Hge.
  replace (prec + k - 1) with (prec - 1 + k) in Hge by lia. rewrite Z.pow_add_r in Hge by lia.
  assert (Hf : 10 ^ (prec - 1) * D = 5 * (2 * 10 ^ (prec - 1) * 10 ^ (k - 1))).
  { replace k with (Z.succ (k - 1)) at 1 by lia. rewrite Z.pow_succ_r by lia. ring. }
  rewrite Hf in *. set (m := 2 * _ * _) in *.
  destruct (Z.le_ge_cases 0 c).
  - etransitivity; [|apply Qle_Qabs]. apply (Hc m). lia.
  - rewrite <- Qabs_opp. etransitivity; [|apply Qle_Qabs].
    destruct (Hc (- m)) as [Hup _]. specialize (Hup ltac:(lia)).
    replace (5 * - m) with (- (5 * m)) in Hup by ring. rewrite inject_Z_opp in Hup. lra.
Qed.

Lemma drop_val e : (val (fix_ (Dec c e)) == inject_Z (q * D) * p10 e)%Q.
Proof.
  pose proof prec_pos as Hp. pose proof drop_size as Hq. unfold fix_; cbn [coef exponent].
  rewrite Hdig. replace (prec + k - prec) with k by lia.
  destruct (Z.leb_spec k 0) as [|_]; [lia|].
  rewrite <- val_Dec, val_shift by lia.
  destruct (Z.ltb_spec prec (digits q)) as [Hov|]; [|done].
  assert (10 ^ prec <= Z.abs q) as Hge.
  { destruct (digits_spec q) as (_ & _ & Hd). destruct (decide (q = 0)) as [E|E].
    - rewrite E in Hov. change (digits 0) with 1 in Hov. lia.
    - etransitivity; [|apply Hd, E]. apply Z.pow_le_mono_r; lia. }
  assert (q = 10 * (q / 10)) as Hten.
  { apply Z.div_exact; [lia|]. assert (10 ^ prec = 10 * 10 ^ (prec - 1)) as Hpp.
    { replace prec with (Z.succ (prec - 1)) at 1 by lia. by rewrite Z.pow_succ_r by lia. }
    destruct (Z.abs_spec q) as [[_ Ha]|[_ Ha]].
    - replace q with (10 ^ (prec - 1) * 10) by lia. apply Z_mod_mult.
    - replace q with (- 10 ^ (prec - 1) * 10) by lia. apply Z_mod_mult. }
  rewrite Hten at 2. rewrite <- val_shift by lia. rewrite !val_Dec, inject_Z_mult.
  change (10 ^ 1) with 10. ring_simplify. rewrite inject_Z_mult. ring.
Qed.

Lemma drop_rounds e : rounds prec (t * p10 e) (fix_ (Dec c e)).
Proof.
  pose proof prec_pos as Hp. pose proof (p10_pos e) as Hu.
  pose proof (pow10_pos k ltac:(lia)) as HD.
  pose proof drop_half as Hh. pose proof drop_size as Hq. pose proof drop_magnitude as Hm.
  split.
  - rewrite drop_val. exists q, (e + k). split; [done|].
    rewrite <- val_Dec, val_shift by lia. done.
  - intros r (c' & e' & Hc' & Hr). rewrite drop_val, Qabs_scale by done.
    assert (r == r * p10 (- e) * p10 e)%Q as Hr'.
    { rewrite <- Qmult_assoc, p10_inv. ring. }
    rewrite Hr', Qabs_scale by done. apply Qmult_le_compat_r; [|lra].
    destruct (Z.le_gt_cases (e + k) e') as [He|He].
    + assert (r * p10 (- e) == inject_Z (c' * 10 ^ (e' - e - k) * D))%Q as ->.
      { rewrite Hr, <- Qmult_assoc, <- p10_add. rewrite <- Z.mul_assoc, <- Z.pow_add_r by lia.
        rewrite inject_Z_mult, <- p10_Z by lia.
        by replace (e' - e - k + k) with (e' + - e) by lia. }
      by apply nearest_multiple.
    + assert (Hsmall : (Qabs (r * p10 (- e)) <= inject_Z (10 ^ (prec - 1) * D))%Q).
      { rewrite Hr, <- Qmult_assoc, <- p10_add, Qabs_Qmult.
        rewrite (Qabs_pos (p10 _)) by (apply Qlt_le_weak, p10_pos).
        rewrite Qabs_inject. transitivity (inject_Z (10 ^ prec) * p10 (e' + - e))%Q.
        - apply Qmult_le_compat_r; [by rewrite <- Zle_Qle|apply Qlt_le_weak, p10_pos].
        - rewrite <- Z.pow_add_r, <- !p10_Z, <- p10_add by lia.
          replace (prec - 1 + k) with (prec + (e' + - e) + (e + k - 1 - e')) by lia.
          rewrite (p10_add (_ + _)). set (w := p10 (prec + (e' + - e))).
          assert (1 <= p10 (e + k - 1 - e'))%Q as H1.
          { rewrite p10_Z by lia. change 1%Q with (inject_Z 1). rewrite <- Zle_Qle.
            pose proof (pow10_pos (e + k - 1 - e') ltac:(lia)). lia. }
          pose proof (p10_pos (prec + (e' + - e))) as Hw. fold w in Hw. nra. }
      set (r' := (r * p10 (- e))%Q) in *. set (B := 10 ^ (prec - 1) * D) in *.
      assert (∃ z, (Qabs (inject_Z (z * D) - t) <= Qabs t - inject_Z B)%Q) as [z Hz].
      { destruct (Qlt_le_dec t 0) as [Ht|Ht].
        - exists (- 10 ^ (prec - 1)). pose proof (Qabs_neg t ltac:(lra)) as Ha.
          replace (- 10 ^ (prec - 1) * D) with (- B) by (unfold B; ring).
          rewrite inject_Z_opp. apply Qabs_Qle_condition. lra.
        - exists (10 ^ (prec - 1)). fold B. pose proof (Qabs_pos t ltac:(lra)) as Ha.
          apply Qabs_Qle_condition. lra. }
      etransitivity; [by apply (nearest_multiple _ z)|]. etransitivity; [exact Hz|].
      pose proof (Qabs_triangle (r' - t) (- r')) as Htri. rewrite Qabs_opp in Htri.
      assert (Qabs (r' - t + - r') == Qabs t)%Q as Ht.
      { rewrite <- (Qabs_opp t). apply Qabs_wd. ring. }
      lra.
  - rewrite drop_val, Qabs_scale, Qabs_Qmult, (Qabs_pos (p10 e)) by (done || lra).
    rewrite Qmult_assoc. apply Qmult_le_compat_r; [|lra].
    unfold half_ulp. assert (inject_Z D <= p10 (1 - prec) * Qabs t)%Q; [|lra].
    assert (inject_Z D == p10 (1 - prec) * inject_Z (10 ^ (prec - 1) * D))%Q as ->.
    { rewrite inject_Z_mult, <- !p10_Z by lia. rewrite Qmult_assoc, <- p10_add.
      replace (1 - prec + (prec - 1)) with 0 by lia. change (p10 0) with 1%Q. ring. }
    rewrite !(Qmult_comm (p10 (1 - prec))). apply Qmult_le_compat_r; [done|].
    apply Qlt_le_weak, p10_pos.
Qed.

End Drop.
End FixCore.

(** ** Every operation rounds its exact result *)

Section Operations.
Context `{DecimalContext}.

Lemma representable_val d : digits (coef d) <= prec -> representable prec (val d).
Proof.
  intros Hd. exists (coef d), (exponent d). split; [|done].
  apply Z.lt_le_incl. by apply digits_bound.
Qed.

Lemma exact_rounds q d : digits (coef d) <= prec -> (q == val d)%Q -> rounds prec q d.
Proof.
  intros Hd Hq. split; [by apply representable_val|intros r _|];
    assert (val d - q == 0)%Q as -> by lra.
  - apply Qabs_nonneg.
  - pose proof (half_ulp_pos prec). pose proof (Qabs_nonneg q). change (Qabs 0) with 0%Q. nra.
Qed.

Lemma stands_rounds c e t : stands_for c t -> (digits c <= prec -> (t == inject_Z c)%Q) ->
  rounds prec (t * p10 e) (fix_ (Dec c e)).
Proof.
  intros Hst Hex. destruct (Z.le_gt_cases (digits c) prec) as [Hle|Hgt].
  - assert (fix_ (Dec c e) = Dec c e) as ->.
    { unfold fix_; cbn. by destruct (Z.leb_spec (digits c - prec) 0); [|lia]. }
    apply exact_rounds; [done|]. by rewrite Hex.
  - apply (drop_rounds c (digits c - prec)); [lia|lia|done].
Qed.

Lemma fix_rounds d : rounds prec (val d) (fix_ d).
Proof. destruct d as [c e]. apply (stands_rounds c e (inject_Z c)); [apply stands_for_self|done]. Qed.

Lemma fix_rounds_eq q d : (q == val d)%Q -> rounds prec q (fix_ d).
Proof. intros Hq. rewrite Hq. apply fix_rounds. Qed.

Lemma add_rounds a b : rounds prec (val a + val b) (a + b)%dec.
Proof.
  pose proof prec_pos as Hp. unfold add. set (m := Z.min _ _).
  destruct (Z.eqb_spec (coef a) 0) as [Ha|Ha], (Z.eqb_spec (coef b) 0) as [Hb|Hb];
    apply fix_rounds_eq; unfold val at 3; cbn [coef exponent].
  - unfold val. rewrite Ha, Hb. ring.
  - rewrite <- val_align by lia. unfold val at 1. rewrite Ha. ring.
  - rewrite <- val_align by lia. unfold val at 2. rewrite Hb. ring.
  - rewrite (val_align a m), (val_align b m), inject_Z_plus by lia. ring.
Qed.

Lemma sub_rounds a b : rounds prec (val a - val b) (a - b)%dec.
Proof.
  unfold sub. assert (val a - val b == val a + val (opp_exact b))%Q as ->
    by (rewrite val_opp; ring). apply add_rounds.
Qed.

Lemma mul_rounds a b : rounds prec (val a * val b) (a * b)%dec.
Proof.
  apply fix_rounds_eq. unfold val; cbn. rewrite inject_Z_mult, p10_add. ring.
Qed.

Lemma neg_rounds a : rounds prec (- val a) (- a)%dec.
Proof. apply fix_rounds_eq. by rewrite val_opp. Qed.

Lemma abs_rounds a : rounds prec (Qabs (val a)) (abs_ a).
Proof.
  apply fix_rounds_eq. unfold val; cbn [coef exponent].
  rewrite <- Qabs_inject, Qabs_Qmult. apply Qmult_comp; [done|].
  apply Qabs_pos, Qlt_le_weak, p10_pos.
Qed.

Lemma strip_to_val f c e ideal : (val (strip_to f c e ideal) == val (Dec c e))%Q.
Proof.
  revert c e. induction f as [|f IH]; intros c e; cbn [strip_to]; [done|].
  destruct (_ && _) eqn:Hb; [|done]. rewrite IH.
  apply andb_prop_iff in Hb as [_ Hm%Z.eqb_eq].
  rewrite <- val_shift by lia. change (10 ^ 1) with 10.
  rewrite (Z.div_mod c 10) at 2 by lia. rewrite Hm, Z.add_0_r. by rewrite (Z.mul_comm 10).
Qed.

Lemma stands_for_opp c t : stands_for c t -> stands_for (- c) (- t).
Proof.
  intros Hst m. destruct (Hst (- m)) as [H1 H2].
  replace (5 * - m) with (- (5 * m)) in * by ring. rewrite inject_Z_opp in *.
  split; intros Hm; [specialize (H2 ltac:(lia))|specialize (H1 ltac:(lia))]; lra.
Qed.

(** The sticky digit of a truncated quotient stands for the exact quotient. *)
Lemma sticky_stands_for n m : 0 < m -> n mod m <> 0 ->
  stands_for (if (n / m) mod 5 =? 0 then n / m + 1 else n / m) (inject_Z n / inject_Z m).
Proof.
  intros Hm Hne. set (q := n / m).
  assert (Hqn : (inject_Z (q * m) < inject_Z n ∧ inject_Z n < inject_Z ((q + 1) * m))%Q).
  { rewrite <- !Zlt_Qlt. subst q. pose proof (Z.div_mod n m ltac:(lia)).
    pose proof (Z.mod_pos_bound n m Hm). lia. }
  assert (Hmq : (0 < inject_Z m)%Q).
  { change 0%Q with (inject_Z 0). by rewrite <- Zlt_Qlt. }
  assert (Ht : (inject_Z q < inject_Z n / inject_Z m ∧ inject_Z n / inject_Z m < inject_Z (q + 1))%Q).
  { split; [apply Qlt_shift_div_l|apply Qlt_shift_div_r]; try done;
      rewrite <- inject_Z_mult; apply Hqn. }
  set (t := (inject_Z n / inject_Z m)%Q) in *. intros z.
  pose proof (Z.div_mod q 5 ltac:(lia)). pose proof (Z.mod_pos_bound q 5 ltac:(lia)).
  split; intros Hz.
  - assert (q + 1 <= 5 * z) as Hle by (destruct (Z.eqb_spec (q mod 5) 0); lia).
    rewrite Zle_Qle in Hle. lra.
  - assert (5 * z <= q) as Hle by (destruct (Z.eqb_spec (q mod 5) 0); lia).
    rewrite Zle_Qle in Hle. lra.
Qed.

Lemma digits_ge_pow n k : 0 <= k -> 10 ^ k <= Z.abs n -> k < digits n.
Proof.
  intros Hk Hn. apply (Z.pow_lt_mono_r_iff 10); [lia|destruct (digits_spec n); lia|].
  destruct (digits_spec n) as (_ & Hd & _). lia.
Qed.

(** The divided coefficient: an integer quotient with more digits than the precision. *)
Lemma div_scaling a b : a <> 0 -> b <> 0 ->
  let shift := digits b - digits a + prec + 1 in
  let n := if (0 <=? shift)%Z then Z.abs a * 10 ^ shift else Z.abs a in
  let m := if (0 <=? shift)%Z then Z.abs b else Z.abs b * 10 ^ (- shift) in
  0 < m ∧ 10 ^ prec <= n / m ∧
  (inject_Z (Z.abs a) / inject_Z (Z.abs b) == inject_Z n / inject_Z m * p10 (- shift))%Q.
Proof.
  intros Ha Hb shift n m. pose proof prec_pos as Hp.
  destruct (digits_spec a) as (Ha1 & _ & Ha3), (digits_spec b) as (Hb1 & Hb2 & _).
  specialize (Ha3 Ha). assert (Hbq : (0 < inject_Z (Z.abs b))%Q).
  { change 0%Q with (inject_Z 0). rewrite <- Zlt_Qlt. lia. }
  subst n m. destruct (Z.leb_spec 0 shift) as [Hs|Hs].
  - pose proof (pow10_pos shift Hs) as Hpos. split; [lia|]. split.
    + apply Z.div_le_lower_bound; [lia|].
      transitivity (10 ^ digits b * 10 ^ prec); [apply Z.mul_le_mono_nonneg_r; lia|].
      transitivity (10 ^ (digits a - 1) * 10 ^ shift); [|apply Z.mul_le_mono_nonneg_r; lia].
      rewrite <- !Z.pow_add_r by lia. apply Z.pow_le_mono_r; lia.
    + rewrite inject_Z_mult, <- p10_Z by done. rewrite (Qmult_comm (inject_Z (Z.abs a))).
      pose proof (p10_inv shift) as Hi. unfold Qdiv. rewrite (Qmult_comm _ (p10 (- shift))).
      rewrite !Qmult_assoc, Hi. ring.
  - pose proof (pow10_pos (- shift) ltac:(lia)) as Hpos. split; [nia|]. split.
    + apply Z.div_le_lower_bound; [nia|].
      transitivity (10 ^ digits b * 10 ^ (- shift) * 10 ^ prec);
        [apply Z.mul_le_mono_nonneg_r; nia|].
      rewrite <- !Z.pow_add_r by lia. etransitivity; [|exact Ha3]. apply Z.pow_le_mono_r; lia.
    + rewrite inject_Z_mult, <- p10_Z by lia.
      field. split; [apply p10_nonzero|lra].
Qed.

Lemma val_zero d : (val d == 0)%Q ↔ coef d = 0.
Proof.
  unfold val. split; intros Hz.
  - apply Qmult_integral in Hz as [Hz|Hz]; [|by apply p10_nonzero in Hz].
    change 0%Q with (inject_Z 0) in Hz. by rewrite inject_Z_injective in Hz.
  - rewrite Hz. ring.
Qed.

Lemma val_quotient a b : coef b <> 0 ->
  (val a / val b == inject_Z (Z.sgn (coef a) * Z.sgn (coef b)) *
     (inject_Z (Z.abs (coef a)) / inject_Z (Z.abs (coef b))) *
     p10 (exponent a - exponent b))%Q.
Proof.
  intros Hb. destruct a as [ca ea], b as [cb eb]; unfold val; cbn [coef exponent] in *.
  assert (Hcb : (~ inject_Z cb == 0)%Q).
  { change 0%Q with (inject_Z 0). by rewrite inject_Z_injective. }
  replace (ea - eb) with (ea + - eb) by lia. rewrite p10_add.
  assert (p10 (- eb) == / p10 eb)%Q as -> by apply Qpower_opp.
  assert (inject_Z ca == inject_Z (Z.sgn ca) * inject_Z (Z.abs ca))%Q as Hca.
  { rewrite <- inject_Z_mult, inject_Z_injective. lia. }
  rewrite Hca, inject_Z_mult.
  pose proof (p10_nonzero eb).
  destruct (Z.abs_spec cb) as [[Hs ->]|[Hs ->]].
  - rewrite (Z.sgn_pos cb) by lia. change (inject_Z 1) with 1%Q. field. tauto.
  - rewrite (Z.sgn_neg cb), inject_Z_opp by lia. change (inject_Z (-1)) with (- (1))%Q.
    field. split; [tauto|]. intros E. apply Hcb. lra.
Qed.

Lemma div_rounds a b d : div a b = Ok d ->
  ¬ (val b == 0)%Q ∧ rounds prec (val a / val b) d.
Proof.
  intros Hdiv. rewrite val_zero. unfold div in Hdiv.
  destruct (Z.eqb_spec (coef b) 0) as [|Hb]; [done|]. split; [done|].
  rewrite val_quotient by done. destruct (Z.eqb_spec (coef a) 0) as [Ha|Ha].
  { injection Hdiv as <-. apply fix_rounds_eq. rewrite Ha, val_Dec.
    rewrite Z.mul_0_l. change (inject_Z 0) with 0%Q. ring. }
  pose proof (div_scaling (coef a) (coef b) Ha Hb) as (Hm & Hq & Hval).
  set (shift := digits (coef b) - _ + _ + _) in *.
  set (n := if (0 <=? shift)%Z then Z.abs (coef a) * _ else _) in *.
  set (m := if (0 <=? shift)%Z then Z.abs (coef b) else _) in *.
  set (s := Z.sgn (coef a) * Z.sgn (coef b)) in *.
  set (e := exponent a - exponent b - shift) in *.
  rewrite Hval, <- !Qmult_assoc, <- p10_add.
  replace (- shift + (exponent a - exponent b)) with e by lia. rewrite Qmult_assoc.
  injection Hdiv as <-. destruct (Z.eqb_spec (n mod m) 0) as [Hex|Hin].
  - apply fix_rounds_eq. rewrite val_Dec, inject_Z_mult.
    set (d := strip_to _ _ _ _). transitivity (inject_Z s * val d)%Q; [|unfold val; ring].
    unfold d. rewrite strip_to_val, val_Dec.
    assert (inject_Z n / inject_Z m == inject_Z (n / m))%Q as ->; [|ring].
    rewrite (Z.div_mod n m) at 1 by lia. rewrite Hex, Z.add_0_r, inject_Z_mult.
    field. change 0%Q with (inject_Z 0). rewrite inject_Z_injective. lia.
  - cbn [coef exponent]. set (q := if ((n / m) mod 5 =? 0)%Z then n / m + 1 else n / m).
    assert (Hst : stands_for q (inject_Z n / inject_Z m)) by (by apply sticky_stands_for).
    assert (10 ^ prec <= q) as Hbig by (unfold q; case_match; lia).
    assert (s = 1 ∨ s = -1) as [-> | ->] by lia.
    + rewrite Z.mul_1_l, Qmult_1_l. apply stands_rounds; [done|]. intros Hd.
      pose proof (digits_ge_pow q prec). pose proof prec_pos. lia.
    + replace (-1 * q) with (- q) by lia.
      assert (inject_Z (-1) * (inject_Z n / inject_Z m) == - (inject_Z n / inject_Z m))%Q as ->
        by (change (inject_Z (-1)) with (- (1))%Q; ring).
      apply stands_rounds; [by apply stands_for_opp|]. intros Hd.
      pose proof (digits_ge_pow (- q) prec). pose proof prec_pos. lia.
Qed.

End Operations.

(** ** Consequences of correct rounding *)

Section Consequences.
Context {p : Z}.
Implicit Types (q r : Q) (d : decimal).

(** Rounding never passes a representable number. *)
Lemma rounds_ge r q d : rounds p q d -> representable p r -> (r <= q)%Q -> (r <= val d)%Q.
Proof.
  intros Hd Hr Hle. apply Qnot_lt_le. intros Hlt. pose proof (rounds_nearest _ _ _ Hd r Hr) as Hn.
  pose proof (Qabs_neg (val d - q) ltac:(lra)). pose proof (Qabs_neg (r - q) ltac:(lra)). lra.
Qed.

Lemma rounds_le r q d : rounds p q d -> representable p r -> (q <= r)%Q -> (val d <= r)%Q.
Proof.
  intros Hd Hr Hle. apply Qnot_lt_le. intros Hlt. pose proof (rounds_nearest _ _ _ Hd r Hr) as Hn.
  pose proof (Qabs_pos (val d - q) ltac:(lra)). pose proof (Qabs_pos (r - q) ltac:(lra)). lra.
Qed.

(** A representable result is exact. *)
Lemma rounds_exact q d : rounds p q d -> representable p q -> (val d == q)%Q.
Proof.
  intros Hd Hq. apply Qle_antisym; [by apply (rounds_le q q)|by apply (rounds_ge q q)].
Qed.

(** Rounding is monotone. *)
Lemma rounds_mono q1 q2 d1 d2 :
  (q1 < q2)%Q -> rounds p q1 d1 -> rounds p q2 d2 -> (val d1 <= val d2)%Q.
Proof.
  intros Hq H1 H2. apply Qnot_lt_le. intros Hlt.
  destruct (Qlt_le_dec (val d2) q1) as [Ha|Ha].
  - destruct (Qlt_le_dec q2 (val d1)) as [Hb|Hb].
    + pose proof (rounds_nearest _ _ _ H1 _ (rounds_representable _ _ _ H2)) as N1.
      pose proof (rounds_nearest _ _ _ H2 _ (rounds_representable _ _ _ H1)) as N2.
      pose proof (Qabs_pos (val d1 - q1) ltac:(lra)). pose proof (Qabs_neg (val d2 - q1) ltac:(lra)).
      pose proof (Qabs_neg (val d2 - q2) ltac:(lra)). pose proof (Qabs_pos (val d1 - q2) ltac:(lra)).
      lra.
    + pose proof (rounds_ge _ _ _ H2 (rounds_representable _ _ _ H1) Hb). lra.
  - pose proof (rounds_le _ _ _ H1 (rounds_representable _ _ _ H2) Ha). lra.
Qed.

Lemma representable_0 : 0 < p -> representable p 0.
Proof. intros. exists 0, 0. split; [|done]. pose proof (pow10_pos p). lia. Qed.

Lemma representable_Z n : Z.abs n <= 10 ^ p -> representable p (inject_Z n).
Proof. intros. exists n, 0. split; [done|]. change (p10 0) with 1%Q. ring. Qed.

Lemma representable_opp q : representable p q -> representable p (- q).
Proof.
  intros (c & e & Hc & Hq). exists (- c), e. split; [lia|]. rewrite Hq, inject_Z_opp. ring.
Qed.

Lemma rounds_nonneg q d : 0 < p -> rounds p q d -> (0 <= q)%Q -> (0 <= val d)%Q.
Proof. intros. eapply rounds_ge; eauto using representable_0. Qed.

Lemma rounds_nonpos q d : 0 < p -> rounds p q d -> (q <= 0)%Q -> (val d <= 0)%Q.
Proof. intros. eapply rounds_le; eauto using representable_0. Qed.

(** No underflow to zero: the sign of a result is the sign of the exact value. *)
Lemma rounds_pos q d : 0 < p -> rounds p q d -> (0 < q)%Q -> (0 < val d)%Q.
Proof.
  intros Hp Hd Hq. pose proof (rounds_error _ _ _ Hd) as He.
  pose proof (half_ulp_half p Hp). pose proof (half_ulp_pos p).
  pose proof (Qabs_pos q ltac:(lra)) as Ha. apply Qabs_Qle_condition in He.
  assert (half_ulp p * Qabs q <= (1 # 2) * q)%Q by (rewrite Ha; nra). lra.
Qed.

Lemma rounds_neg q d : 0 < p -> rounds p q d -> (q < 0)%Q -> (val d < 0)%Q.
Proof.
  intros Hp Hd Hq. pose proof (rounds_error _ _ _ Hd) as He.
  pose proof (half_ulp_half p Hp). pose proof (half_ulp_pos p).
  pose proof (Qabs_neg q ltac:(lra)) as Ha. apply Qabs_Qle_condition in He.
  assert (half_ulp p * Qabs q <= (1 # 2) * - q)%Q by (rewrite Ha; nra). lra.
Qed.

(** The relative error, for a non-negative result. *)
Lemma rounds_bounds q d : rounds p q d -> (0 <= q)%Q ->
  (q * (1 - half_ulp p) <= val d ∧ val d <= q * (1 + half_ulp p))%Q.
Proof.
  intros Hd Hq. pose proof (rounds_error _ _ _ Hd) as He.
  rewrite (Qabs_pos q) in He by done. apply Qabs_Qle_condition in He. lra.
Qed.

End Consequences.

(** Numbers on a common decimal grid that fit the precision are exact: the case of venue
    prices, quantities and fees. *)
Definition on_grid (g : Z) (q : Q) : Prop := ∃ n, (q == inject_Z n * p10 (- g))%Q.

Lemma on_grid_representable p g q :
  0 <= p -> on_grid g q -> (Qabs q <= p10 (p - g))%Q -> representable p q.
Proof.
  intros Hp [n Hn] Hq. exists n, (- g). split; [|done].
  rewrite Hn, Qabs_Qmult, (Qabs_pos (p10 _)) in Hq by apply Qlt_le_weak, p10_pos.
  replace (p - g) with (p + - g) in Hq by lia. rewrite p10_add, Qabs_inject in Hq.
  apply Qmult_le_r in Hq; [|apply p10_pos]. rewrite p10_Z, <- Zle_Qle in Hq by done. done.
Qed.

Lemma on_grid_plus g q r : on_grid g q -> on_grid g r -> on_grid g (q + r).
Proof. intros [n Hn] [m Hm]. exists (n + m). rewrite Hn, Hm, inject_Z_plus. ring. Qed.

Lemma on_grid_opp g q : on_grid g q -> on_grid g (- q).
Proof. intros [n Hn]. exists (- n). rewrite Hn, inject_Z_opp. ring. Qed.

Lemma on_grid_mult g h q r : on_grid g q -> on_grid h r -> on_grid (g + h) (q * r).
Proof.
  intros [n Hn] [m Hm]. exists (n * m). rewrite Hn, Hm, inject_Z_mult.
  replace (- (g + h)) with (- g + - h) by lia. rewrite p10_add. ring.
Qed.

(** ** Quantization and integral values *)

Lemma rescale_floor d : exists n,
  to_integral_value ROUND_FLOOR d ≡ of_Z n ∧ (inject_Z n <= val d)%Q ∧ (val d < inject_Z (n + 1))%Q.
Proof.
  unfold to_integral_value, equiv, decimal_equiv. destruct (Z.leb_spec 0 (exponent d)) as [He|He].
  - exists (coef d * 10 ^ exponent d).
    assert (val d == inject_Z (coef d * 10 ^ exponent d))%Q as Hd.
    { unfold val. rewrite inject_Z_mult, <- p10_Z by done. done. }
    rewrite val_of_Z, Hd. split; [done|]. rewrite <- Zle_Qle, <- Zlt_Qlt. lia.
  - unfold rescale. destruct (Z.leb_spec 0 (exponent d)); [lia|].
    pose proof (pow10_pos (0 - exponent d) ltac:(lia)) as Hpos.
    rewrite round_div_floor by done. set (D := 10 ^ (0 - exponent d)) in *.
    exists (coef d / D). split; [done|].
    assert (inject_Z (coef d) == val d * inject_Z D)%Q as Hd.
    { unfold val, D. rewrite <- p10_Z, <- Qmult_assoc, <- p10_add by lia.
      replace (exponent d + (0 - exponent d)) with 0 by lia. change (p10 0) with 1%Q. ring. }
    assert (HDq : (0 < inject_Z D)%Q) by (change 0%Q with (inject_Z 0); rewrite <- Zlt_Qlt; lia).
    pose proof (Z.mul_div_le (coef d) D Hpos) as Hlo.
    pose proof (Z.mul_succ_div_gt (coef d) D Hpos) as Hhi.
    rewrite Zle_Qle, inject_Z_mult, Hd in Hlo. rewrite Zlt_Qlt, inject_Z_mult, Hd in Hhi.
    unfold Z.succ in Hhi. split.
    + apply (Qmult_le_r _ _ (inject_Z D)); [done|]. lra.
    + apply (Qmult_lt_r _ _ (inject_Z D)); [done|]. lra.
Qed.

(** [quantize(Decimal("1"))]: the integer each rounding mode picks. *)
Definition rounds_integer (m : rounding) (q : Q) (n : Z) : Prop :=
  match m with
  | ROUND_DOWN => (0 <= q -> inject_Z n <= q ∧ q < inject_Z (n + 1))%Q ∧
                  (q <= 0 -> q <= inject_Z n ∧ inject_Z n <= 0)%Q
  | ROUND_UP => (0 <= q -> q <= inject_Z n ∧ inject_Z n < q + 1)%Q
  | ROUND_FLOOR => (inject_Z n <= q ∧ q < inject_Z (n + 1))%Q
  | ROUND_HALF_UP | ROUND_HALF_EVEN => (Qabs (inject_Z n - q) <= 1 # 2)%Q
  end.

Lemma rounds_integer_exact m n : rounds_integer m (inject_Z n) n.
Proof.
  destruct m; cbn [rounds_integer]; rewrite ?inject_Z_plus; change (inject_Z 1) with 1%Q.
  - repeat split; intros; lra.
  - repeat split; lra.
  - repeat split; lra.
  - apply Qabs_Qle_condition. repeat split; lra.
  - apply Qabs_Qle_condition. repeat split; lra.
Qed.

Lemma round_div_integer m n D : 0 < D ->
  rounds_integer m (inject_Z n / inject_Z D) (round_div m n D).
Proof.
  intros HD. assert (HDq : (0 < inject_Z D)%Q) by (change 0%Q with (inject_Z 0); rewrite <- Zlt_Qlt; lia).
  assert (Hq : (inject_Z n == inject_Z n / inject_Z D * inject_Z D)%Q) by (field; lra).
  set (q := (inject_Z n / inject_Z D)%Q) in *.
  assert (Hle : ∀ a, a * D <= n -> (inject_Z a <= q)%Q).
  { intros a Ha. apply (Qmult_le_r _ _ (inject_Z D)); [done|]. rewrite <- Hq, <- inject_Z_mult.
    by rewrite <- Zle_Qle. }
  assert (Hge : ∀ a, n <= a * D -> (q <= inject_Z a)%Q).
  { intros a Ha. apply (Qmult_le_r _ _ (inject_Z D)); [done|]. rewrite <- Hq, <- inject_Z_mult.
    by rewrite <- Zle_Qle. }
  assert (Hlt : ∀ a, n < a * D -> (q < inject_Z a)%Q).
  { intros a Ha. apply (Qmult_lt_r _ _ (inject_Z D)); [done|]. rewrite <- Hq, <- inject_Z_mult.
    by rewrite <- Zlt_Qlt. }
  assert (Hnn : (0 <= q)%Q -> 0 <= n).
  { intros H0. rewrite Zle_Qle, Hq. apply Qmult_le_0_compat; [done|lra]. }
  assert (Hnp : (q <= 0)%Q -> n <= 0).
  { intros H0. rewrite Zle_Qle, Hq. change (inject_Z 0) with 0%Q. nra. }
  assert (Hnear : ∀ a, 2 * Z.abs (a * D - n) <= D -> (Qabs (inject_Z a - q) <= 1 # 2)%Q).
  { intros a Ha. apply Qabs_Qle_condition.
    assert (inject_Z (2 * a * D) <= inject_Z (2 * n + D))%Q as H1 by (rewrite <- Zle_Qle; lia).
    assert (inject_Z (2 * n - D) <= inject_Z (2 * a * D))%Q as H2 by (rewrite <- Zle_Qle; lia).
    rewrite inject_Z_plus, !inject_Z_mult, Hq in H1. rewrite inject_Z_minus, !inject_Z_mult, Hq in H2.
    change (inject_Z 2) with 2%Q in *. split; apply (Qmult_le_r _ _ (inject_Z D)); lra. }
  destruct m; cbn [rounds_integer].
  - split.
    + intros H0. specialize (Hnn H0). rewrite round_div_down by done.
      pose proof (Z.div_mod n D ltac:(lia)). pose proof (Z.mod_pos_bound n D HD).
      split; [apply Hle; nia|apply Hlt; nia].
    + intros H0. specialize (Hnp H0). destruct (quot_rem_facts n D HD) as (Hn & Hr & Hs).
      assert (round_div ROUND_DOWN n D = Z.quot n D) as -> by (unfold round_div; by destruct (_ =? _)).
      split; [apply Hge; lia|]. change 0%Q with (inject_Z 0). rewrite <- Zle_Qle.
      pose proof (Z.quot_le_upper_bound n D 0 HD). lia.
  - intros H0. pose proof (round_div_up n D HD (Hnn H0)) as Hu. split; [apply Hge; lia|].
    assert (inject_Z (round_div ROUND_UP n D - 1) < q)%Q as H1.
    { apply (Qmult_lt_r _ _ (inject_Z D)); [done|]. rewrite <- Hq, <- inject_Z_mult.
      rewrite <- Zlt_Qlt. lia. }
    rewrite inject_Z_minus in H1. change (inject_Z 1) with 1%Q in H1. lra.
  - rewrite round_div_floor by done.
    pose proof (Z.div_mod n D ltac:(lia)). pose proof (Z.mod_pos_bound n D HD).
    split; [apply Hle; nia|apply Hlt; nia].
  - apply Hnear, round_div_nearest; [done|by right].
  - apply Hnear, round_div_nearest; [done|by left].
Qed.

#[global] Instance rounds_integer_proper m : Proper (Qeq ==> eq ==> iff) (rounds_integer m).
Proof.
  intros q q' Hq n ? <-. destruct m; cbn [rounds_integer]; by rewrite Hq.
Qed.

Lemma rescale_integer m d : ∃ n, val (rescale m d 0) = val (of_Z n) ∧ rounds_integer m (val d) n ∧
  rescale m d 0 = Dec n 0.
Proof.
  unfold rescale. destruct (Z.leb_spec 0 (exponent d)) as [He|He].
  - exists (coef d * 10 ^ (exponent d - 0)). split; [done|]. split; [|done].
    assert (val d == inject_Z (coef d * 10 ^ (exponent d - 0)))%Q as ->.
    { rewrite <- val_of_Z. unfold of_Z. rewrite val_shift by lia. destruct d as [c e]; cbn.
      by rewrite Z.sub_0_r. }
    apply rounds_integer_exact.
  - eexists. split; [done|]. split; [|done].
    pose proof (pow10_pos (0 - exponent d) ltac:(lia)) as Hp.
    assert (val d == inject_Z (coef d) / inject_Z (10 ^ (0 - exponent d)))%Q as ->.
    { unfold val. rewrite <- p10_Z by lia. unfold Qdiv.
      assert (/ p10 (0 - exponent d) == p10 (exponent d))%Q as ->; [|done].
      unfold p10. rewrite <- Qpower_opp. by replace (- (0 - exponent d)) with (exponent d) by lia. }
    by apply round_div_integer.
Qed.

Lemma quantize_integer `{DecimalContext} m d r : quantize m d 0 = Ok r ->
  ∃ n, (val r == inject_Z n)%Q ∧ rounds_integer m (val d) n ∧ Z.abs n <= 10 ^ prec.
Proof.
  unfold quantize. destruct (Z.eqb_spec (coef d) 0) as [Hz|Hz]; intros Hq.
  - destruct (prec <? _)%Z; [done|]. injection Hq as <-. exists 0. split; [done|]. split.
    + assert (val d == inject_Z 0)%Q as -> by (by apply val_zero). apply rounds_integer_exact.
    + pose proof prec_pos. pose proof (pow10_pos prec). lia.
  - destruct (rescale_integer m d) as (n & _ & Hn & E). rewrite E in Hq; cbn [coef] in Hq.
    destruct (Z.ltb_spec prec (digits n)) as [|Hd]; [done|]. injection Hq as <-.
    exists n. split; [apply val_of_Z|]. split; [done|]. apply digits_bound in Hd. lia.
Qed.

(** Both contexts of the program are wide: their unit in the last place is negligible. *)
Definition wide (dc : DecimalContext) : Prop := 28 <= @prec dc.

Lemma default_wide : wide default_context.
Proof. unfold wide. cbn. lia. Qed.

Lemma simulation_wide : wide simulation_context.
Proof. unfold wide. cbn. lia. Qed.

Lemma half_ulp_wide p : 28 <= p -> (half_ulp p <= 1 # 10 ^ 20)%Q.
Proof.
  intros Hp. unfold half_ulp. assert (p10 (1 - p) <= p10 (-27))%Q as H.
  { replace (-27) with (1 - p + (p - 28)) by lia. rewrite p10_add.
    assert (1 <= p10 (p - 28))%Q as H1.
    { rewrite p10_Z by lia. change 1%Q with (inject_Z 1). rewrite <- Zle_Qle.
      pose proof (pow10_pos (p - 28)). lia. }
    pose proof (p10_pos (1 - p)). nra. }
  assert (p10 (-27) <= 1 # 10 ^ 27)%Q as H2 by (vm_compute; congruence).
  assert (((1 # 2) * (1 # 10 ^ 27)) <= 1 # 10 ^ 20)%Q as H3 by (vm_compute; congruence). lra.
Qed.

(** A coarse form of the relative error, enough to compare prices percents apart. *)
Lemma rounds_percent `{DecimalContext} q d : wide _ -> rounds prec q d -> (0 <= q)%Q ->
  (q * (99 # 100) <= val d ∧ val d <= q * (101 # 100))%Q.
Proof.
  intros Hw Hd Hq. destruct (rounds_bounds q d Hd Hq) as [H1 H2].
  pose proof (half_ulp_wide prec Hw) as Hu. pose proof (half_ulp_pos prec).
  assert (1 # 10 ^ 20 <= 1 # 100)%Q as Hc by (vm_compute; congruence). nra.
Qed.

Lemma Qdiv_mul x y : (0 < y)%Q -> (x / y * y == x)%Q.
Proof. intros. field. lra. Qed.

(** Division by a non-zero decimal never raises. *)
Lemma div_total `{DecimalContext} a b : ¬ (val b == 0)%Q -> ∃ q, div a b = Ok q.
Proof.
  rewrite val_zero. intros Hb. unfold div. destruct (Z.eqb_spec (coef b) 0); [done|].
  destruct (coef a =? 0)%Z; by eexists.
Qed.

(** ** Digits of a rounded decimal *)

Lemma fix_digits `{DecimalContext} d : digits (coef (fix_ d)) <= prec.
Proof.
  pose proof prec_pos as Hp. destruct d as [c e]. unfold fix_; cbn [coef exponent].
  destruct (Z.leb_spec (digits c - prec) 0); cbn [coef]; [lia|].
  assert (Z.abs (round_div ROUND_HALF_EVEN c (10 ^ (digits c - prec))) <= 10 ^ prec) as Hq by (apply drop_size; [done|ring]).
  set (q := round_div _ _ _) in *. destruct (Z.ltb_spec prec (digits q)) as [Hov|]; cbn [coef]; [|lia].
  apply digits_le; [done|]. assert (0 < 10 ^ (prec - 1)) by (apply pow10_pos; lia).
  assert (10 ^ prec = 10 * 10 ^ (prec - 1)) as Hpp.
  { replace prec with (Z.succ (prec - 1)) at 1 by lia. by rewrite Z.pow_succ_r by lia. }
  assert (1 < prec \/ prec = 1) as [Hlong|Hone] by lia.
  2: { rewrite Hone in *. change (10 ^ 1) with 10 in *. change (10 ^ (1 - 1)) with 1 in *.
    assert (-1 <= q / 10) by (apply Z.div_le_lower_bound; lia).
    assert (q / 10 <= 1) by (apply Z.div_le_upper_bound; lia). lia. }
  assert (10 ^ (prec - 1) < 10 ^ prec) by (apply Z.pow_lt_mono_r; lia).
  assert (- 10 ^ (prec - 1) <= q / 10) by (apply Z.div_le_lower_bound; lia).
  assert (q / 10 <= 10 ^ (prec - 1)) by (apply Z.div_le_upper_bound; lia). lia.
Qed.

Lemma digits_opp n : digits (- n) = digits n.
Proof. unfold digits. by rewrite Z.abs_opp. Qed.

(** A second rounding changes nothing, also after a change of sign. *)
Lemma fix_small `{DecimalContext} d : digits (coef d) <= prec -> fix_ d = d.
Proof. intros Hd. unfold fix_. by destruct (Z.leb_spec (digits (coef d) - prec) 0); [|lia]. Qed.

Lemma neg_fix `{DecimalContext} d : neg (fix_ d) = opp_exact (fix_ d).
Proof. unfold neg. apply fix_small. cbn. rewrite digits_opp. apply fix_digits. Qed.

(** ** Rounding is symmetric about zero *)

Lemma round_half_even_opp n d : 0 < d -> round_div ROUND_HALF_EVEN (- n) d = - round_div ROUND_HALF_EVEN n d.
Proof.
  intros Hd. unfold round_div. rewrite Z.quot_opp_l, Z.rem_opp_l, Z.sgn_opp, Z.abs_opp, Z.even_opp by lia.
  assert ((- Z.rem n d =? 0) = (Z.rem n d =? 0)) as -> by (destruct (Z.eqb_spec (Z.rem n d) 0), (Z.eqb_spec (- Z.rem n d) 0); lia).
  destruct (_ =? 0); [done|]. destruct (_ ?= _); [|done|lia]. destruct (Z.even _); lia.
Qed.

Lemma fix_opp `{DecimalContext} d : fix_ (opp_exact d) = opp_exact (fix_ d).
Proof.
  destruct d as [c e]. unfold opp_exact; cbn [coef exponent]. unfold fix_; cbn [coef exponent]. rewrite digits_opp.
  destruct (Z.leb_spec (digits c - prec) 0) as [|Hk]; [done|].
  rewrite round_half_even_opp by (apply pow10_pos; lia).
  assert (Z.abs (round_div ROUND_HALF_EVEN c (10 ^ (digits c - prec))) <= 10 ^ prec) as Hq by (apply drop_size; [done|ring]).
  set (q := round_div _ _ _) in *. rewrite digits_opp. destruct (Z.ltb_spec prec (digits q)) as [Hov|]; [|done].
  cbn [coef exponent]. f_equal. pose proof prec_pos as Hp.
  assert (10 ^ prec <= Z.abs q) as Hge.
  { destruct (digits_spec q) as (_ & _ & Hd). destruct (decide (q = 0)) as [E|E].
    - rewrite E in Hov. change (digits 0) with 1 in Hov. lia.
    - etransitivity; [|apply Hd, E]. apply Z.pow_le_mono_r; lia. }
  assert (10 ^ prec = 10 ^ (prec - 1) * 10) as Hpp.
  { replace prec with (Z.succ (prec - 1)) at 1 by lia. rewrite Z.pow_succ_r by lia. ring. }
  destruct (Z.abs_spec q) as [[_ Ha]|[_ Ha]].
  - replace q with (10 ^ (prec - 1) * 10) by lia. rewrite <- Z.mul_opp_l, !Z.div_mul by lia. done.
  - replace q with (- 10 ^ (prec - 1) * 10) by lia. rewrite <- Z.mul_opp_l, !Z.div_mul by lia. done.
Qed.

Lemma opp_opp d : opp_exact (opp_exact d) = d.
Proof. destruct d. unfold opp_exact; cbn. by rewrite Z.opp_involutive. Qed.

Lemma add_opp `{DecimalContext} a b : add (opp_exact a) (opp_exact b) = opp_exact (add a b).
Proof.
  assert (∀ z, (- z =? 0) = (z =? 0)) as Hz by (intros z; destruct (Z.eqb_spec z 0), (Z.eqb_spec (- z) 0); lia).
  unfold add; cbn [coef exponent opp_exact]. rewrite !Hz.
  destruct (coef a =? 0), (coef b =? 0); rewrite <- fix_opp; unfold opp_exact; cbn [coef exponent]; do 2 f_equal; ring.
Qed.

(** * A calculus of relative errors for decimal expressions

    Money formulas chain multiplications, divisions and additions of non-negative decimals,
    each rounded. [approx k q d] says that the computed decimal [d] is the exact number [q]
    up to [k] parts in ten to the twentieth; the lemmas add up the errors, operation by
    operation, in every context of at least 28 digits. *)

Definition unit_error : Q := 1 # 100000000000000000000.
Definition err (k : Z) : Q := (inject_Z k * unit_error)%Q.

(** Error counts stay small, so second-order terms vanish in one unit. *)
Definition few (k : Z) : Prop := 0 <= k <= 1000.

Record approx (k : Z) (q : Q) (d : decimal) : Prop := {
  approx_nonneg : (0 <= q)%Q;
  approx_low : (q * (1 - err k) <= val d)%Q;
  approx_high : (val d <= q * (1 + err k))%Q
}.

#[global] Instance approx_proper k : Proper (Qeq ==> eq ==> iff) (approx k).
Proof.
  intros q q' Hq d ? <-. split; intros [H1 H2 H3].
  - split; by rewrite <- Hq.
  - split; by rewrite Hq.
Qed.

Lemma err_add i j : (err (i + j) == err i + err j)%Q.
Proof. unfold err. rewrite inject_Z_plus. ring. Qed.

Lemma err_bounds k : few k -> (0 <= err k ∧ err k <= 1 # 100000000000000000)%Q.
Proof.
  intros [H0 H1]. unfold err. rewrite Zle_Qle in H0, H1.
  change (inject_Z 0) with 0%Q in H0. change (inject_Z 1000) with (1000 # 1)%Q in H1.
  unfold unit_error. split; [|lra]. lra.
Qed.

Lemma err_le i j : i <= j -> (err i <= err j)%Q.
Proof. intros H. unfold err. rewrite Zle_Qle in H. unfold unit_error. lra. Qed.

(** The products of the calculus: second-order terms fit in one unit. *)
Lemma two_factors x y : (0 <= x -> x <= 1 # 100000000000000000 -> 0 <= y ->
  y <= 1 # 100000000000000000 ->
  (1 + x) * (1 + y) <= 1 + x + y + unit_error ∧ 1 - x - y <= (1 - x) * (1 - y))%Q.
Proof.
  intros Hx Hx1 Hy Hy1. unfold unit_error.
  assert (0 <= x * y)%Q by (apply Qmult_le_0_compat; lra).
  assert (x * y <= (1 # 100000000000000000) * (1 # 100000000000000000))%Q.
  { apply (Qle_trans _ ((1 # 100000000000000000) * y)); [by apply Qmult_le_compat_r|].
    apply Qmult_le_l; [done|lra]. }
  split; lra.
Qed.

Lemma approx_weaken i j q d : i <= j -> approx i q d -> approx j q d.
Proof.
  intros Hij [H0 H1 H2]. pose proof (err_le i j Hij). split; [done|..]; nra.
Qed.

Lemma approx_val d : (0 <= val d)%Q -> approx 0 (val d) d.
Proof. intros H. split; [done|..]; unfold err; change (inject_Z 0) with 0%Q; lra. Qed.

Lemma approx_ge0 k q d : few k -> approx k q d -> (0 <= val d)%Q.
Proof.
  intros Hk [H0 H1 H2]. destruct (err_bounds k Hk).
  assert (0 <= q * (1 - err k))%Q by (apply Qmult_le_0_compat; lra). lra.
Qed.

Lemma approx_gt0 k q d : few k -> approx k q d -> (0 < q)%Q -> (0 < val d)%Q.
Proof. intros Hk [H0 H1 H2] Hq. destruct (err_bounds k Hk). nra. Qed.

(** Monotonicity of a product of non-negative rationals. *)
Ltac qmono := apply Qmult_le_compat_nonneg; split; first [lra | done | apply Qmult_le_0_compat; lra].

(** An exact bound on the number bounds the decimal, and conversely. *)
Lemma approx_le k q d : few k -> approx k q d -> (q <= val d * (1 + err (k + 1)))%Q.
Proof.
  intros Hk [H0 H1 H2]. destruct (err_bounds k Hk). rewrite err_add.
  assert (E1 : (err 1 == unit_error)%Q) by (unfold err; change (inject_Z 1) with 1%Q; ring).
  assert (Hu : (0 <= unit_error)%Q) by done.
  assert (Hu1 : (unit_error <= 1 # 100000000000000000)%Q) by done.
  assert (1 <= (1 - err k) * (1 + (err k + err 1)))%Q.
  { rewrite E1. assert (err k * err k <= (1 # 100000000000000000) * (1 # 100000000000000000))%Q.
    { apply (Qle_trans _ ((1 # 100000000000000000) * err k)); [by apply Qmult_le_compat_r|].
      apply Qmult_le_l; [done|lra]. }
    assert (err k * unit_error <= (1 # 2) * unit_error)%Q by (apply Qmult_le_compat_r; lra).
    unfold unit_error in *. lra. }
  assert (q * 1 <= q * ((1 - err k) * (1 + (err k + err 1))))%Q by qmono.
  assert (q * (1 - err k) * (1 + (err k + err 1)) <= val d * (1 + (err k + err 1)))%Q
    by (apply Qmult_le_compat_r; lra).
  lra.
Qed.

(** The slack of every bound stated about money: one part in ten to the eighteenth. *)
Definition slack : Q := 1 # 1000000000000000000.

Lemma err_slack k : few k -> k <= 100 -> (err k <= slack)%Q.
Proof. intros _ H. apply (Qle_trans _ (err 100)); [by apply err_le|done]. Qed.

Lemma err_mul i j : few i -> few j -> ((1 + err i) * (1 + err j) <= 1 + err (i + j + 1))%Q.
Proof.
  intros Hi Hj. destruct (err_bounds i Hi), (err_bounds j Hj).
  destruct (two_factors (err i) (err j)) as [F1 _]; [lra..|].
  assert (E1 : (err 1 == unit_error)%Q) by (unfold err; change (inject_Z 1) with 1%Q; ring).
  rewrite !err_add. lra.
Qed.

(** Chaining upper bounds. *)
Lemma upper_trans i j a b c : few i -> few j -> (0 <= c)%Q ->
  (a <= b * (1 + err i))%Q -> (b <= c * (1 + err j))%Q -> (a <= c * (1 + err (i + j + 1)))%Q.
Proof.
  intros Hi Hj Hc Ha Hb. destruct (err_bounds i Hi). pose proof (err_mul i j Hi Hj).
  assert (b * (1 + err i) <= c * (1 + err j) * (1 + err i))%Q by (apply Qmult_le_compat_r; lra).
  assert (c * ((1 + err i) * (1 + err j)) <= c * (1 + err (i + j + 1)))%Q.
  { rewrite !(Qmult_comm c). by apply Qmult_le_compat_r. }
  lra.
Qed.

Section Operations.
Context {dc : DecimalContext}.
Context (Hw : wide dc).

(** Rounding an approximated exact value once more. *)
Lemma approx_round k q v d : few k -> (0 <= q)%Q ->
  (q * (1 - err k) <= v)%Q -> (v <= q * (1 + err k))%Q -> rounds prec v d -> approx (k + 2) q d.
Proof.
  intros Hk H0 H1 H2 Hr. pose proof (half_ulp_wide prec Hw) as Hh. pose proof (half_ulp_pos prec).
  destruct (err_bounds k Hk). change (1 # 10 ^ 20)%Q with unit_error in Hh.
  assert (Hu : (unit_error <= 1 # 100000000000000000)%Q) by done.
  assert (Hv : (0 <= v)%Q) by (assert (0 <= q * (1 - err k))%Q by (apply Qmult_le_0_compat; lra); lra).
  destruct (rounds_bounds _ _ Hr Hv) as [L U]. set (h := half_ulp prec) in *.
  destruct (two_factors (err k) h) as [F1 F2]; [lra..|].
  assert (E2 : (err 2 == unit_error + unit_error)%Q)
    by (unfold err; change (inject_Z 2) with (2 # 1)%Q; ring).
  split; [done| |]; rewrite err_add.
  - assert (q * (1 - (err k + err 2)) <= q * ((1 - err k) * (1 - h)))%Q
      by qmono.
    assert (q * (1 - err k) * (1 - h) <= v * (1 - h))%Q by (apply Qmult_le_compat_r; lra). lra.
  - assert (q * ((1 + err k) * (1 + h)) <= q * (1 + (err k + err 2)))%Q
      by qmono.
    assert (v * (1 + h) <= q * (1 + err k) * (1 + h))%Q by (apply Qmult_le_compat_r; lra). lra.
Qed.

Lemma upper_rounds k q v d : few k -> (0 <= v)%Q -> (0 <= q)%Q ->
  (v <= q * (1 + err k))%Q -> rounds prec v d -> (val d <= q * (1 + err (k + 2)))%Q.
Proof.
  intros Hk Hv Hq Hu Hr. pose proof (half_ulp_wide prec Hw) as Hh.
  destruct (rounds_bounds _ _ Hr Hv) as [_ U]. change (1 # 10 ^ 20)%Q with unit_error in Hh.
  assert (E1 : (err 1 == unit_error)%Q) by (unfold err; change (inject_Z 1) with 1%Q; ring).
  replace (k + 2) with (1 + k + 1) by lia. eapply upper_trans; [done|done|done| |exact Hu].
  assert (v * (1 + half_ulp prec) <= v * (1 + err 1))%Q; [|lra].
  rewrite !(Qmult_comm v). apply Qmult_le_compat_r; lra.
Qed.

(** A difference known to be non-negative. *)
Lemma approx_sub x y : (0 <= val x - val y)%Q -> approx 2 (val x - val y) (x - y)%dec.
Proof.
  intros H. apply (approx_round 0 _ (val x - val y)); [done|done|..|apply sub_rounds];
    unfold err; change (inject_Z 0) with 0%Q; lra.
Qed.

Lemma approx_mul i j a b x y : few i -> few j -> few (i + j + 1) ->
  approx i a x -> approx j b y -> approx (i + j + 3) (a * b) (x * y)%dec.
Proof.
  intros Hi Hj Hij Hx Hy. pose proof (approx_ge0 _ _ _ Hi Hx) as Hx0.
  pose proof (approx_ge0 _ _ _ Hj Hy) as Hy0. destruct Hx as [A0 A1 A2], Hy as [B0 B1 B2].
  destruct (err_bounds i Hi), (err_bounds j Hj).
  destruct (two_factors (err i) (err j)) as [F1 F2]; [lra..|].
  assert (E1 : (err 1 == unit_error)%Q) by (unfold err; change (inject_Z 1) with 1%Q; ring).
  assert (Hu : (0 <= unit_error)%Q) by done.
  assert (Hu1 : (unit_error <= 1 # 100000000000000000)%Q) by done.
  assert (Hab : (0 <= a * b)%Q) by (by apply Qmult_le_0_compat).
  replace (i + j + 3) with (i + j + 1 + 2) by lia.
  apply (approx_round _ _ (val x * val y)); [done|done|..|apply mul_rounds]; rewrite !err_add, E1.
  - assert (a * b * (1 - (err i + err j + unit_error)) <= a * b * ((1 - err i) * (1 - err j)))%Q
      by qmono.
    assert (a * (1 - err i) * (b * (1 - err j)) <= val x * val y)%Q; [|lra].
    qmono.
  - assert (a * b * ((1 + err i) * (1 + err j)) <= a * b * (1 + (err i + err j + unit_error)))%Q
      by qmono.
    assert (val x * val y <= a * (1 + err i) * (b * (1 + err j)))%Q; [|lra].
    qmono.
Qed.

Lemma approx_add k a b x y : few k -> approx k a x -> approx k b y -> approx (k + 2) (a + b) (x + y)%dec.
Proof.
  intros Hk [A0 A1 A2] [B0 B1 B2].
  apply (approx_round _ _ (val x + val y)); [done|lra|lra|lra|apply add_rounds].
Qed.

Lemma approx_div i j a b x y z : few i -> few j -> few (i + j + 2) -> (0 < b)%Q ->
  approx i a x -> approx j b y -> div x y = Ok z -> approx (i + j + 4) (a / b) z.
Proof.
  intros Hi Hj Hij Hb Hx Hy Hz. pose proof (approx_ge0 _ _ _ Hi Hx) as Hx0.
  pose proof (approx_gt0 _ _ _ Hj Hy Hb) as Hy0. apply div_rounds in Hz as [_ Hr].
  destruct Hx as [A0 A1 A2], Hy as [B0 B1 B2]. destruct (err_bounds i Hi), (err_bounds j Hj).
  assert (Hq : (0 <= a / b)%Q) by (apply Qle_shift_div_l; lra).
  pose proof (Qdiv_mul a b Hb) as Hqb. set (q := (a / b)%Q) in *.
  assert (Hu : (0 <= unit_error)%Q) by done.
  assert (Hu1 : (unit_error <= 1 # 100000000000000000)%Q) by done.
  assert (E2 : (err 2 == unit_error + unit_error)%Q)
    by (unfold err; change (inject_Z 2) with (2 # 1)%Q; ring).
  destruct (err_bounds (i + j + 2) Hij) as [S0 S1]. rewrite !err_add in S0, S1.
  destruct (two_factors (err j) (err i)) as [F1 F2]; [lra..|].
  destruct (two_factors (err j) (err i + err j + err 2)) as [G1 G2]; [lra..|].
  replace (i + j + 4) with (i + j + 2 + 2) by lia.
  apply (approx_round _ _ (val x / val y)); [done|done|..|done]; rewrite !err_add.
  - apply Qle_shift_div_l; [done|].
    assert (q * (1 - (err i + err j + err 2)) * val y <= q * (1 - (err i + err j + err 2)) * (b * (1 + err j)))%Q.
    { qmono. }
    assert ((1 - (err i + err j + err 2)) * (1 + err j) <= 1 - err i)%Q.
    { assert (0 <= (err i + err j + err 2) * err j)%Q by (apply Qmult_le_0_compat; lra). lra. }
    assert (a * ((1 - (err i + err j + err 2)) * (1 + err j)) <= a * (1 - err i))%Q
      by qmono.
    assert (q * (1 - (err i + err j + err 2)) * (b * (1 + err j)) ==
            q * b * ((1 - (err i + err j + err 2)) * (1 + err j)))%Q by ring.
    assert (q * b * ((1 - (err i + err j + err 2)) * (1 + err j)) ==
            a * ((1 - (err i + err j + err 2)) * (1 + err j)))%Q by (rewrite Hqb; reflexivity).
    lra.
  - apply Qle_shift_div_r; [done|].
    assert (q * (1 + (err i + err j + err 2)) * (b * (1 - err j)) <= q * (1 + (err i + err j + err 2)) * val y)%Q.
    { qmono. }
    assert (1 + err i <= (1 + (err i + err j + err 2)) * (1 - err j))%Q.
    { assert ((err i + err j + err 2) * err j <= (err i + err j + err 2) * (1 # 100000000000000000))%Q
        by qmono.
      assert ((err i + err j + err 2) * (1 # 100000000000000000) <=
              (1 # 100000000000000000) * (1 # 100000000000000000))%Q by (apply Qmult_le_compat_r; lra).
      unfold unit_error in *. lra. }
    assert (a * (1 + err i) <= a * ((1 + (err i + err j + err 2)) * (1 - err j)))%Q
      by qmono.
    assert (q * (1 + (err i + err j + err 2)) * (b * (1 - err j)) ==
            q * b * ((1 + (err i + err j + err 2)) * (1 - err j)))%Q by ring.
    assert (q * b * ((1 + (err i + err j + err 2)) * (1 - err j)) ==
            a * ((1 + (err i + err j + err 2)) * (1 - err j)))%Q by (rewrite Hqb; reflexivity).
    lra.
Qed.

End Operations.

(** ** Absolute errors

    For amounts of either sign: [near e x y] bounds a difference, [small m x] a magnitude. *)

Definition near (e x y : Q) : Prop := (x - y <= e ∧ y - x <= e)%Q.
Definition small (m x : Q) : Prop := (- m <= x ∧ x <= m)%Q.

Lemma small_abs x : small (Qabs x) x.
Proof. unfold small. apply Qabs_Qle_condition, Qle_refl. Qed.

Lemma small_val m a b : (val a == val b)%Q -> small m (val b) -> small m (val a).
Proof. unfold small. intros ->. done. Qed.

Section AbsoluteErrors.
Context {dc : DecimalContext} (Hw : wide dc).

Lemma rounds_near q d m : rounds prec q d -> small m q -> near (unit_error * m) (val d) q ∧ small (2 * m) (val d).
Proof.
  intros [_ _ He] Hq. pose proof (half_ulp_wide prec Hw) as Hu. pose proof (half_ulp_pos prec).
  assert (Hm : (Qabs q <= m)%Q) by (by apply Qabs_Qle_condition).
  pose proof (Qabs_nonneg q).
  assert (Hb : (half_ulp prec * Qabs q <= unit_error * m)%Q).
  { apply (Qle_trans _ (half_ulp prec * m)); [rewrite !(Qmult_comm (half_ulp prec)); by apply Qmult_le_compat_r; [|lra]|].
    apply Qmult_le_compat_r; [exact Hu|lra]. }
  assert (Ha : (Qabs (val d - q) <= unit_error * m)%Q) by lra.
  apply Qabs_Qle_condition in Ha. unfold near, small, unit_error in *. lra.
Qed.

Lemma add_near a b x y : small x (val a) -> small y (val b) ->
  near (unit_error * (x + y)) (val (a + b)%dec) (val a + val b) ∧ small (2 * (x + y)) (val (a + b)%dec).
Proof. intros [] []. apply rounds_near; [apply add_rounds|]. unfold small. lra. Qed.

Lemma sub_near a b x y : small x (val a) -> small y (val b) ->
  near (unit_error * (x + y)) (val (a - b)%dec) (val a - val b) ∧ small (2 * (x + y)) (val (a - b)%dec).
Proof. intros [] []. apply rounds_near; [apply sub_rounds|]. unfold small. lra. Qed.

Lemma mul_near a b m : small m (val a * val b) ->
  near (unit_error * m) (val (a * b)%dec) (val a * val b) ∧ small (2 * m) (val (a * b)%dec).
Proof. apply rounds_near, mul_rounds. Qed.

Lemma div_near a b z m : div a b = Ok z -> small m (val a / val b) ->
  near (unit_error * m) (val z) (val a / val b) ∧ small (2 * m) (val z).
Proof. intros Hz. apply rounds_near. by apply div_rounds in Hz as [_ ?]. Qed.

(** A share [a * x / y] of [a], for [0 < x <= y]. *)
Lemma share_near a x y z : (0 < val x)%Q -> (val x <= val y)%Q -> div (a * x)%dec y = Ok z ->
  near (3 * unit_error * Qabs (val a)) (val z) (val a * (val x / val y)) ∧ small (Qabs (val a)) (val a * (val x / val y)).
Proof.
  intros Hx Hxy Hz. assert (Hy : (0 < val y)%Q) by lra. pose proof (Qdiv_mul (val x) (val y) Hy) as Hr.
  set (r := (val x / val y)%Q) in *.
  assert (Hr0 : (0 <= r)%Q) by (apply Qle_shift_div_l; lra).
  assert (Hr1 : (r <= 1)%Q) by (apply Qle_shift_div_r; lra).
  pose proof (Qabs_nonneg (val a)) as Ha. set (m := Qabs (val a)) in *.
  assert (Hs : ∀ t, (0 <= t)%Q -> small (m * t) (val a * t)).
  { intros t Ht. destruct (small_abs (val a)) as [S1 S2]. fold m in S1, S2. split.
    - assert (- m * t <= val a * t)%Q by (apply Qmult_le_compat_r; lra). lra.
    - apply Qmult_le_compat_r; lra. }
  assert (Hmr : (m * r <= m)%Q) by (rewrite <- (Qmult_1_r m) at 2; rewrite !(Qmult_comm m); apply Qmult_le_compat_r; lra).
  destruct (Hs r Hr0) as [R1 R2].
  assert (Hx0 : (0 <= val x)%Q) by lra. destruct (mul_near a x (m * val x) (Hs _ Hx0)) as [[N1 N2] _].
  assert (Hn : near (unit_error * m) (val (a * x)%dec / val y) (val a * r)).
  { assert (E : (val a * r == val a * val x / val y)%Q) by (unfold r; field; lra).
    assert (D : (val (a * x)%dec / val y - val a * val x / val y == (val (a * x)%dec - val a * val x) / val y)%Q) by (field; lra).
    assert (B : (unit_error * (m * val x) / val y == unit_error * m * r)%Q) by (unfold r; field; lra).
    assert (U : (unit_error * m * r <= unit_error * m)%Q).
    { rewrite <- (Qmult_1_r (unit_error * m)) at 2. rewrite !(Qmult_comm (unit_error * m)).
      apply Qmult_le_compat_r; [done|]. apply Qmult_le_0_compat; [done|lra]. }
    assert (I : (0 <= / val y)%Q) by (apply Qlt_le_weak, Qinv_lt_0_compat, Hy).
    split; rewrite E.
    - assert ((val (a * x)%dec - val a * val x) / val y <= unit_error * (m * val x) / val y)%Q by (by apply Qmult_le_compat_r). lra.
    - assert (- ((val (a * x)%dec - val a * val x) / val y) <= unit_error * (m * val x) / val y)%Q.
      { assert (E2 : (- ((val (a * x)%dec - val a * val x) / val y) == (val a * val x - val (a * x)%dec) / val y)%Q) by (field; lra).
        rewrite E2. by apply Qmult_le_compat_r. }
      lra. }
  destruct Hn as [H1 H2]. assert (Hu : (unit_error <= 1)%Q) by done.
  assert (Hum : (unit_error * m <= 1 * m)%Q) by (apply Qmult_le_compat_r; lra).
  destruct (div_near (a * x)%dec y z (2 * m) Hz) as [[Z1 Z2] _]; [split; lra|]. unfold near, small. lra.
Qed.

End AbsoluteErrors.
