(* ===== verification/DecimalText.v ===== *)
(** * DecimalText: canonical text of a decimal ([decimal_text.py])

    Results, fingerprints and journals store decimals as text. This file models
    [canonical_decimal] and the two sibling renderers of the code base, and proves that the
    text parses back to the same number, that two decimals have the same text exactly when
    they are equal, and that the renderers agree. *)

From Stdlib Require Import Ascii.
From S2P Require Import Prelude Decimals DecimalFacts.

Open Scope Z_scope.

(** ** Digits of a natural number, most significant first, at a fixed width *)

Fixpoint digit_list (k : nat) (n : Z) : list Z :=
  match k with
  | O => []
  | S k => digit_list k (n / 10) ++ [n mod 10]
  end.

Definition digit_char (z : Z) : ascii := ascii_of_nat (48 + Z.to_nat z).
Definition digit_value (c : ascii) : option Z :=
  let n := Z.of_nat (nat_of_ascii c) - 48 in
  if (0 <=? n) && (n <=? 9) then Some n else None.

Definition number_of (l : list Z) : Z := fold_left (fun acc x => 10 * acc + x) l 0.

Definition digit_text (k : nat) (n : Z) : list ascii := digit_char <$> digit_list k n.

(** The characters of Python's fixed-point [format(value, "f")], sign first. *)
Definition format_f (d : decimal) : list ascii :=
  let m := Z.abs (coef d) in
  let sign := if (coef d <? 0)%Z then ["-"%char] else [] in
  if (0 <=? exponent d)%Z then
    let m := m * 10 ^ exponent d in sign ++ digit_text (Z.to_nat (digits m)) m
  else
    let f := Z.to_nat (- exponent d) in
    let whole := m / 10 ^ (- exponent d) in
    sign ++ digit_text (Z.to_nat (digits whole)) whole ++ ["."%char] ++ digit_text f m.

(** [str.partition(".")] *)
Fixpoint partition_dot (l : list ascii) : list ascii * bool * list ascii :=
  match l with
  | [] => ([], false, [])
  | c :: l => if Ascii.eqb c "."%char then ([], true, l)
              else let '(whole, sep, fraction) := partition_dot l in (c :: whole, sep, fraction)
  end.

(** [str.rstrip("0")] *)
Fixpoint rstrip0 (l : list ascii) : list ascii :=
  match l with
  | [] => []
  | c :: l => match rstrip0 l with
              | [] => if Ascii.eqb c "0"%char then [] else [c]
              | k => c :: k
              end
  end.

Fixpoint parse_digits (l : list ascii) : option (list Z) :=
  match l with
  | [] => Some []
  | c :: l => z ← digit_value c; k ← parse_digits l; Some (z :: k)
  end.

(** [Decimal(text)] on plain decimal text: [-]digits[.digits]. *)
Definition parse_decimal (l : list ascii) : option decimal :=
  let '(s, body) := match l with
    | c :: k => if Ascii.eqb c "-"%char then (-1, k) else (1, l)
    | [] => (1, []) end in
  let '(whole, _, fraction) := partition_dot body in
  w ← parse_digits whole; f ← parse_digits fraction;
  if bool_decide (w ++ f = []) then None
  else Some (Dec (s * number_of (w ++ f)) (- Z.of_nat (length f))).

(** [decimal_text.canonical_decimal]; the result is a character list, [canonical_text]
    its string. *)
Definition canonical_decimal (value : decimal) : list ascii :=
  let '(whole, separator, fraction) := partition_dot (format_f value) in
  let canonical_fraction := if separator : bool then rstrip0 fraction else [] in
  let decimal_places := match canonical_fraction with [] => [] | _ => "."%char :: canonical_fraction end in
  let result := whole ++ decimal_places in
  match parse_decimal result with
  | Some d => if (coef d =? 0)%Z then ["0"%char] else result
  | None => result
  end.

Definition canonical_text (value : decimal) : string :=
  String.string_of_list_ascii (canonical_decimal value).

(** [economic_guard._decimal_text]: strips trailing zeros, then a trailing point. *)
Definition _decimal_text (value : decimal) : list ascii :=
  let text := format_f value in
  if existsb (Ascii.eqb "."%char) text then
    let stripped := rstrip0 text in
    match last stripped with
    | Some c => if Ascii.eqb c "."%char then take (length stripped - 1) stripped else stripped
    | None => stripped
    end
  else text.

(** The decimal that canonical text denotes: no exponent, no trailing fraction zeros. *)
Definition canon (d : decimal) : decimal :=
  if (coef d =? 0)%Z then Dec 0 0
  else if (0 <=? exponent d)%Z then Dec (coef d * 10 ^ exponent d) 0
  else strip_to (Z.to_nat (- exponent d)) (coef d) (exponent d) 0.

(** [backtest/models.py]'s [ResultDecimalText]: canonical text of at most 64 digits inside
    the engine's exponent envelope. Fields of that type hold [canon value]. *)
Definition result_decimal (value : decimal) : result decimal :=
  let c := canon value in
  if ((digits (coef c) <=? 64) && (-6206 <=? exponent c) &&
      (digits (coef c) + exponent c - 1 <=? 6144))%Z
  then Ok c else Raise (ValueError "result decimals must fit the deterministic Decimal envelope").

(** [decimal_text.display_ratio]: four places, unknown on any arithmetic failure. Finite
    inputs; a nonzero ratio that rounds to zero is unknown. *)
Definition display_ratio `{DecimalContext} (numerator denominator : option decimal) : option decimal :=
  match numerator, denominator with
  | Some numerator, Some denominator =>
      if (denominator <=? d0)%dec then None
      else
        match (q ← div numerator denominator; quantize ROUND_HALF_EVEN q (-4)) with
        | Ok ratio => if (ratio =? d0)%dec && negb (numerator =? d0)%dec then None else Some ratio
        | Raise _ => None
        end
  | _, _ => None
  end.

(** ** Digit lists and their text *)

Lemma digit_list_app a b n : 0 <= n ->
  digit_list (a + b) n = digit_list a (n / 10 ^ Z.of_nat b) ++ digit_list b n.
Proof.
  revert n. induction b as [|b IH]; intros n Hn.
  - cbn. rewrite Nat.add_0_r, app_nil_r. by rewrite Z.div_1_r.
  - rewrite Nat.add_succ_r. cbn [digit_list]. rewrite IH by (apply Z.div_pos; lia).
    rewrite app_assoc. do 3 f_equal. rewrite Z.div_div by lia.
    rewrite Nat2Z.inj_succ, Z.pow_succ_r by lia. done.
Qed.

Lemma length_digit_list k n : length (digit_list k n) = k.
Proof. revert n. induction k as [|k IH]; intros n; cbn; [done|]. rewrite length_app, IH. cbn. lia. Qed.

Lemma number_of_snoc l x : number_of (l ++ [x]) = 10 * number_of l + x.
Proof. unfold number_of. by rewrite fold_left_app. Qed.

Lemma number_of_digit_list k n : 0 <= n -> n < 10 ^ Z.of_nat k -> number_of (digit_list k n) = n.
Proof.
  revert n. induction k as [|k IH]; intros n H0 Hn.
  - cbn in *. lia.
  - cbn [digit_list]. rewrite number_of_snoc, IH.
    + symmetry. apply Z.div_mod. lia.
    + apply Z.div_pos; lia.
    + rewrite Nat2Z.inj_succ, Z.pow_succ_r in Hn by lia. apply Z.div_lt_upper_bound; lia.
Qed.

Lemma digit_list_range k n : Forall (λ z, 0 <= z <= 9) (digit_list k n).
Proof.
  revert n. induction k as [|k IH]; intros n; cbn; [constructor|].
  apply Forall_app. split; [done|]. constructor; [|constructor].
  pose proof (Z.mod_pos_bound n 10 ltac:(lia)). lia.
Qed.

(** A decidable property of the ten digits holds of every digit. *)
Lemma digit_cases (P : Z -> Prop) z : 0 <= z <= 9 ->
  P 0 -> P 1 -> P 2 -> P 3 -> P 4 -> P 5 -> P 6 -> P 7 -> P 8 -> P 9 -> P z.
Proof.
  intros Hz. assert (z = 0 ∨ z = 1 ∨ z = 2 ∨ z = 3 ∨ z = 4 ∨ z = 5 ∨ z = 6 ∨ z = 7 ∨ z = 8 ∨ z = 9)
    as Hc by lia.
  intros. by destruct_or! Hc; subst z.
Qed.

Lemma digit_char_value z : 0 <= z <= 9 -> digit_value (digit_char z) = Some z.
Proof. intros Hz. pattern z. by apply digit_cases. Qed.

Lemma digit_char_not_dot z : 0 <= z <= 9 -> Ascii.eqb (digit_char z) "."%char = false.
Proof. intros Hz. pattern z. by apply digit_cases. Qed.

Lemma digit_char_not_minus z : 0 <= z <= 9 -> Ascii.eqb (digit_char z) "-"%char = false.
Proof. intros Hz. pattern z. by apply digit_cases. Qed.

Lemma digit_char_zero z : 0 <= z <= 9 -> Ascii.eqb (digit_char z) "0"%char = (z =? 0).
Proof. intros Hz. pattern z. by apply digit_cases. Qed.

Lemma parse_digit_text l : Forall (λ z, 0 <= z <= 9) l -> parse_digits (digit_char <$> l) = Some l.
Proof.
  induction 1 as [|z l Hz _ IH]; cbn [parse_digits fmap list_fmap]; [done|].
  by rewrite digit_char_value, IH.
Qed.

Lemma partition_digits l k : Forall (λ z, 0 <= z <= 9) l ->
  partition_dot ((digit_char <$> l) ++ "."%char :: k) = (digit_char <$> l, true, k) ∧
  partition_dot (digit_char <$> l) = (digit_char <$> l, false, []).
Proof.
  induction 1 as [|z l Hz _ [IH1 IH2]]; cbn [partition_dot fmap list_fmap app]; [done|].
  by rewrite digit_char_not_dot, IH1, IH2.
Qed.

Lemma rstrip0_snoc l c :
  rstrip0 (l ++ [c]) = if Ascii.eqb c "0"%char then rstrip0 l else l ++ [c].
Proof.
  induction l as [|a l IH]; cbn [rstrip0 app].
  - by destruct (Ascii.eqb c "0"%char).
  - rewrite IH. destruct (Ascii.eqb c "0"%char); [done|]. by destruct (l ++ [c]) eqn:E; [destruct l|].
Qed.

(** ** The normal form of a fraction *)

Fixpoint strip_frac (f : nat) (c : Z) : Z * nat :=
  match f with
  | O => (c, O)
  | S f' => if (c mod 10 =? 0)%Z then strip_frac f' (c / 10) else (c, f)
  end.

Lemma strip_to_frac f c :
  strip_to f c (- Z.of_nat f) 0 = Dec (strip_frac f c).1 (- Z.of_nat (strip_frac f c).2).
Proof.
  revert c. induction f as [|f IH]; intros c; cbn [strip_to strip_frac]; [done|].
  assert ((- Z.of_nat (S f) <? 0)%Z = true) as -> by (apply Z.ltb_lt; lia). cbn [andb].
  destruct (Z.eqb_spec (c mod 10) 0); [|done].
  replace (- Z.of_nat (S f) + 1) with (- Z.of_nat f) by lia. apply IH.
Qed.

Lemma strip_frac_abs f c :
  strip_frac f (Z.abs c) = (Z.abs (strip_frac f c).1, (strip_frac f c).2).
Proof.
  revert c. induction f as [|f IH]; intros c; cbn [strip_frac]; [done|].
  assert (Hm : (Z.abs c mod 10 =? 0)%Z = (c mod 10 =? 0)%Z).
  { apply eq_true_iff_eq. rewrite !Z.eqb_eq, !Z.mod_divide by lia. apply Z.divide_abs_r. }
  rewrite Hm. destruct (Z.eqb_spec (c mod 10) 0) as [E|]; [|done].
  rewrite <- IH. f_equal. apply Z.mod_divide in E as [k ->]; [|lia].
  rewrite Z.abs_mul, !Z.div_mul by lia. done.
Qed.

Lemma strip_frac_spec f c : let '(c', f') := strip_frac f c in
  (f' <= f)%nat ∧ c = c' * 10 ^ (Z.of_nat f - Z.of_nat f') ∧ (f' = O ∨ c' mod 10 <> 0).
Proof.
  revert c. induction f as [|f IH]; intros c; cbn [strip_frac].
  - split; [lia|]. split; [|by left]. rewrite Z.sub_diag, Z.pow_0_r. lia.
  - destruct (Z.eqb_spec (c mod 10) 0) as [E|].
    + specialize (IH (c / 10)). destruct (strip_frac f (c / 10)) as [c' f'].
      destruct IH as (H1 & H2 & H3). split; [lia|]. split; [|done].
      replace (Z.of_nat (S f) - Z.of_nat f') with (Z.succ (Z.of_nat f - Z.of_nat f')) by lia.
      rewrite Z.pow_succ_r by lia. pose proof (Z.div_mod c 10 ltac:(lia)). lia.
    + split; [lia|]. split; [|by right]. rewrite Z.sub_diag, Z.pow_0_r. lia.
Qed.

Lemma rstrip0_digit_text f c :
  rstrip0 (digit_text f c) = digit_text (strip_frac f c).2 (strip_frac f c).1.
Proof.
  revert c. induction f as [|f IH]; intros c; cbn [strip_frac]; [done|].
  unfold digit_text in *. cbn [digit_list]. rewrite fmap_app. cbn [fmap list_fmap].
  rewrite rstrip0_snoc, digit_char_zero, IH.
  - destruct (Z.eqb_spec (c mod 10) 0); [done|]. cbn [fst snd digit_list]. by rewrite fmap_app.
  - pose proof (Z.mod_pos_bound c 10 ltac:(lia)). lia.
Qed.

(** ** Plain text: sign, whole part and an optional fraction *)

Definition plain_text (negative : bool) (w : Z) (f : nat) (m : Z) : list ascii :=
  (if negative then ["-"%char] else []) ++ digit_text (Z.to_nat (digits w)) w ++
  match f with O => [] | _ => "."%char :: digit_text f m end.

Lemma digit_text_head k n : 0 < Z.of_nat k ->
  ∃ c l, digit_text k n = c :: l ∧ Ascii.eqb c "-"%char = false.
Proof.
  intros Hk. unfold digit_text. pose proof (digit_list_range k n) as Hr.
  destruct (digit_list k n) as [|z l] eqn:E.
  - pose proof (length_digit_list k n) as Hl. rewrite E in Hl. cbn in Hl. lia.
  - apply Forall_cons in Hr as [Hz _]. eexists _, _. split; [done|]. by apply digit_char_not_minus.
Qed.

Lemma parse_digit_list k n : parse_digits (digit_text k n) = Some (digit_list k n).
Proof. apply parse_digit_text, digit_list_range. Qed.

(** Plain text of a whole part and [f] fraction digits denotes [m * 10^-f]. *)
Lemma parse_plain_text negative f m : 0 <= m ->
  parse_decimal (plain_text negative (m / 10 ^ Z.of_nat f) f m) =
  Some (Dec ((if negative then -1 else 1) * m) (- Z.of_nat f)).
Proof.
  intros Hm. set (w := m / 10 ^ Z.of_nat f).
  destruct (digits_spec w) as (Hd1 & Hd2 & _).
  assert (Hw : 0 <= w) by (apply Z.div_pos; [lia|apply pow10_pos; lia]).
  set (a := Z.to_nat (digits w)).
  assert (Hnum : number_of (digit_list a w ++ digit_list f m) = m).
  { unfold w. rewrite <- digit_list_app by done. apply number_of_digit_list; [done|].
    rewrite Nat2Z.inj_add, Z.add_comm, Z.pow_add_r by lia.
    pose proof (pow10_pos (Z.of_nat f) ltac:(lia)).
    pose proof (Z.mul_succ_div_gt m (10 ^ Z.of_nat f) ltac:(lia)). fold w in H0.
    assert (Z.succ w <= 10 ^ Z.of_nat a) by (unfold a; rewrite Z2Nat.id by lia; lia).
    assert (10 ^ Z.of_nat f * Z.succ w <= 10 ^ Z.of_nat f * 10 ^ Z.of_nat a)
      by (apply Z.mul_le_mono_nonneg_l; lia). lia. }
  destruct (digit_text_head a w ltac:(unfold a; lia)) as (c & l & Hc & Hminus).
  assert (Hne : digit_list a w ++ digit_list f m <> []).
  { intros [E _]%app_eq_nil. unfold digit_text in Hc. rewrite E in Hc. done. }
  pose proof (partition_digits (digit_list a w)) as Hpart.
  unfold plain_text, parse_decimal. fold a.
  destruct negative; cbn [app]; [|rewrite Hc; cbn [app]; rewrite Hminus];
    change (Ascii.eqb "-" "-") with true; cbv iota; rewrite <- ?Hc;
    rewrite ?app_comm_cons, <- ?Hc.
  all: destruct f as [|f].
  all: try (rewrite app_nil_r; destruct (Hpart [] (digit_list_range _ _)) as [_ Hp];
    unfold digit_text at 1; rewrite Hp; fold (digit_text a w);
    rewrite parse_digit_list; cbn [mbind option_bind parse_digits];
    rewrite bool_decide_eq_false_2 by done; cbn [digit_list] in Hnum; rewrite Hnum; done).
  all: destruct (Hpart (digit_text (S f) m) (digit_list_range _ _)) as [Hp _];
    unfold digit_text at 1; rewrite Hp; fold (digit_text a w);
    rewrite !parse_digit_list; cbn [mbind option_bind];
    rewrite bool_decide_eq_false_2 by done; rewrite Hnum, length_digit_list; done.
Qed.

(** ** Canonical text is the plain text of the normal form *)

Lemma canon_spec d : ∃ c f,
  canon d = Dec c (- Z.of_nat f) ∧ canon d ≡ d ∧ (f = O ∨ c mod 10 <> 0).
Proof.
  unfold canon. destruct (Z.eqb_spec (coef d) 0) as [H0|H0].
  - exists 0, O. split; [done|]. split; [|by left].
    unfold equiv, decimal_equiv. by rewrite (proj2 (val_zero d) H0).
  - destruct (Z.leb_spec 0 (exponent d)) as [He|He].
    + exists (coef d * 10 ^ exponent d), O. split; [done|]. split; [|by left].
      unfold equiv, decimal_equiv. rewrite val_shift by done. by destruct d.
    + set (n := Z.to_nat (- exponent d)).
      pose proof (strip_to_val n (coef d) (exponent d) 0) as Hv.
      pose proof (strip_to_frac n (coef d)) as Hst.
      replace (- Z.of_nat n) with (exponent d) in Hst by (unfold n; lia).
      pose proof (strip_frac_spec n (coef d)) as Hs. rewrite Hst in *.
      destruct (strip_frac n (coef d)) as [c f]; cbn [fst snd] in *. exists c, f.
      split; [done|]. split; [|apply Hs]. unfold equiv, decimal_equiv. rewrite Hv. by destruct d.
Qed.

(** The canonical form has the value of the decimal. *)
Lemma canon_equiv d : canon d ≡ d.
Proof. destruct (canon_spec d) as (c & f & _ & H & _). exact H. Qed.

Lemma val_canon d : (val (canon d) == val d)%Q.
Proof. apply canon_equiv. Qed.

Lemma canon_unique a b : a ≡ b -> canon a = canon b.
Proof.
  intros Hab. destruct (canon_spec a) as (c & f & Ea & Ha & Hf), (canon_spec b) as (c' & f' & Eb & Hb & Hf').
  assert (Hv : Dec c (- Z.of_nat f) ≡ Dec c' (- Z.of_nat f')) by (by rewrite <- Ea, <- Eb, Ha, Hb).
  rewrite Ea, Eb. clear Ea Eb Ha Hb Hab a b.
  assert (key : ∀ c c' f f', (f < f')%nat -> c' mod 10 <> 0 ∨ f' = O ->
    Dec c (- Z.of_nat f) ≡ Dec c' (- Z.of_nat f') -> False).
  { clear. intros c c' f f' Hlt [Hm| ->] Hv; [|lia]. apply Hm. unfold equiv, decimal_equiv in Hv.
    replace (- Z.of_nat f) with (- Z.of_nat f' + Z.of_nat (f' - f)) in Hv by lia.
    rewrite <- val_shift, !val_Dec in Hv by lia.
    apply Qmult_inj_r in Hv; [|apply p10_nonzero]. rewrite inject_Z_injective in Hv. subst c'.
    replace (Z.of_nat (f' - f)) with (Z.succ (Z.of_nat (f' - f) - 1)) by lia.
    rewrite Z.pow_succ_r by lia. rewrite (Z.mul_comm 10), Z.mul_assoc. apply Z_mod_mult. }
  destruct (Nat.lt_trichotomy f f') as [H|[->|H]].
  - exfalso. apply (key c c' f f'); tauto.
  - f_equal. unfold equiv, decimal_equiv in Hv. rewrite !val_Dec in Hv.
    apply Qmult_inj_r in Hv; [|apply p10_nonzero]. by rewrite inject_Z_injective in Hv.
  - exfalso. apply (key c' c f' f); [done|tauto|by symmetry].
Qed.

Definition canon_text (d : decimal) : list ascii :=
  let f := Z.to_nat (- exponent d) in
  plain_text (coef d <? 0)%Z (Z.abs (coef d) / 10 ^ (- exponent d)) f (Z.abs (coef d)).

Lemma canonical_integral d : 0 <= exponent d -> canonical_decimal d = canon_text (canon d).
Proof.
  intros He. unfold canonical_decimal, format_f, canon, canon_text.
  destruct (Z.leb_spec 0 (exponent d)) as [_|]; [|lia].
  set (m := Z.abs (coef d) * 10 ^ exponent d).
  assert (Hp : partition_dot ((if (coef d <? 0)%Z then ["-"%char] else []) ++
      digit_text (Z.to_nat (digits m)) m) =
    ((if (coef d <? 0)%Z then ["-"%char] else []) ++ digit_text (Z.to_nat (digits m)) m, false, [])).
  { pose proof (proj2 (partition_digits (digit_list (Z.to_nat (digits m)) m) [] (digit_list_range _ _))) as Hp.
    destruct (coef d <? 0)%Z; cbn [app partition_dot]; unfold digit_text; by rewrite Hp. }
  rewrite Hp. cbv iota. rewrite app_nil_r.
  pose proof (parse_plain_text (coef d <? 0)%Z 0 m ltac:(lia)) as Hparse.
  unfold plain_text in Hparse. change (10 ^ Z.of_nat 0) with 1 in Hparse.
  rewrite Z.div_1_r, app_nil_r in Hparse. rewrite Hparse; cbn [coef exponent].
  pose proof (pow10_pos _ He).
  destruct (Z.eqb_spec (coef d) 0) as [H0|H0].
  + assert (m = 0) as -> by (unfold m; rewrite H0; done). rewrite Z.mul_0_r. done.
  + assert (m <> 0) by (unfold m; nia).
    destruct (Z.eqb_spec ((if (coef d <? 0)%Z then -1 else 1) * m) 0);
      [destruct (coef d <? 0)%Z; lia|]. cbn [coef exponent].
    change (10 ^ (- 0)) with 1. change (Z.to_nat (- 0)) with O. rewrite Z.div_1_r.
    rewrite Z.abs_mul, (Z.abs_eq (10 ^ _)) by lia. fold m. unfold plain_text. rewrite app_nil_r.
    assert ((coef d * 10 ^ exponent d <? 0)%Z = (coef d <? 0)%Z) as ->; [|done].
    apply eq_true_iff_eq. rewrite !Z.ltb_lt. nia.
Qed.

(** Stripping the fraction leaves the sign and the whole part alone. *)
Lemma canonical_fraction d : exponent d < 0 -> canonical_decimal d = canon_text (canon d).
Proof.
  intros He. unfold canonical_decimal, format_f, canon, canon_text.
  destruct (Z.leb_spec 0 (exponent d)) as [|_]; [lia|].
  set (f := Z.to_nat (- exponent d)). set (m := Z.abs (coef d)).
  set (w := m / 10 ^ (- exponent d)).
  assert (Hw : w = m / 10 ^ Z.of_nat f) by (unfold w, f; by rewrite Z2Nat.id by lia).
  set (s := if (coef d <? 0)%Z then ["-"%char] else []).
  assert (Hp : partition_dot (s ++ digit_text (Z.to_nat (digits w)) w ++ ["."%char] ++ digit_text f m) =
    (s ++ digit_text (Z.to_nat (digits w)) w, true, digit_text f m)).
  { pose proof (proj1 (partition_digits (digit_list (Z.to_nat (digits w)) w) (digit_text f m)
      (digit_list_range _ _))) as Hp.
    unfold s. destruct (coef d <? 0)%Z; unfold digit_text in *; cbn [app partition_dot] in *; by rewrite Hp. }
  rewrite Hp. cbv iota. clear Hp.
  rewrite rstrip0_digit_text. pose proof (strip_frac_abs f (coef d)) as Ha. fold m in Ha.
  rewrite Ha. clear Ha. cbn [fst snd].
  pose proof (strip_frac_spec f (coef d)) as Hs.
  pose proof (strip_to_frac f (coef d)) as Hst.
  replace (- Z.of_nat f) with (exponent d) in Hst by (unfold f; lia). fold f. rewrite Hst. clear Hst.
  destruct (strip_frac f (coef d)) as [c' f']. destruct Hs as (Hff & Hc & Hn); cbn [fst snd].
  set (j := Z.of_nat f - Z.of_nat f') in *. pose proof (pow10_pos j ltac:(lia)) as Hj.
  assert (Hw' : w = Z.abs c' / 10 ^ Z.of_nat f').
  { rewrite Hw. unfold m. rewrite Hc, Z.abs_mul, (Z.abs_eq (10 ^ j)) by lia.
    replace (Z.of_nat f) with (j + Z.of_nat f') by lia. rewrite Z.pow_add_r by lia.
    rewrite (Z.mul_comm (10 ^ j)), Z.div_mul_cancel_r; [done| |lia].
    pose proof (pow10_pos (Z.of_nat f') ltac:(lia)). lia. }
  assert (Hsign : (coef d <? 0)%Z = (c' <? 0)%Z).
  { apply eq_true_iff_eq. rewrite !Z.ltb_lt, Hc. nia. }
  pose proof (parse_plain_text (c' <? 0)%Z f' (Z.abs c') ltac:(lia)) as Hparse.
  unfold plain_text in Hparse. rewrite <- Hw', <- Hsign in Hparse. fold s in Hparse.
  assert (Hmatch : match digit_text f' (Z.abs c') with
    | [] => [] | _ => "."%char :: digit_text f' (Z.abs c') end =
    match f' with O => [] | _ => "."%char :: digit_text f' (Z.abs c') end).
  { destruct f' as [|f']; [done|].
    destruct (digit_text_head (S f') (Z.abs c') ltac:(lia)) as (x & l & Hx & _). by rewrite Hx. }
  rewrite Hmatch, <- app_assoc, Hparse. cbn [coef exponent].
  destruct (Z.eqb_spec (coef d) 0) as [H0|H0].
  + assert (c' = 0) as -> by nia. rewrite Z.mul_0_r. done.
  + assert (c' <> 0) by (intros E; rewrite E in Hc; lia).
    destruct (Z.eqb_spec ((if (coef d <? 0)%Z then -1 else 1) * Z.abs c') 0);
      [destruct (coef d <? 0)%Z; lia|]. cbn [coef exponent].
    unfold plain_text. rewrite Z.opp_involutive, Nat2Z.id, <- Hw', <- Hsign. done.
Qed.

Lemma canonical_decimal_canon d : canonical_decimal d = canon_text (canon d).
Proof.
  destruct (Z.le_gt_cases 0 (exponent d)); [by apply canonical_integral|by apply canonical_fraction].
Qed.

Lemma parse_canon_text d : parse_decimal (canon_text (canon d)) = Some (canon d).
Proof.
  destruct (canon_spec d) as (c & f & -> & _ & _). unfold canon_text; cbn [coef exponent].
  rewrite Z.opp_involutive, Nat2Z.id, parse_plain_text by lia. do 2 f_equal.
  destruct (Z.ltb_spec c 0); lia.
Qed.

(** ** Properties *)

(** C40: parsing canonical text gives back the decimal in its normal form, which has the same
    value: writing a price, quantity or fee into a result and reading it again with
    [Decimal(text)] never changes it. *)
Theorem canonical_roundtrip (d : decimal) :
  parse_decimal (canonical_decimal d) = Some (canon d) ∧ canon d ≡ d.
Proof. rewrite canonical_decimal_canon, parse_canon_text. split; [done|apply canon_equiv]. Qed.

(** Two decimals have the same canonical text exactly when they are numerically equal,
    whatever their exponents, so fingerprints of equal values are equal. *)
Lemma canonical_text_injective (a b : decimal) :
  canonical_decimal a = canonical_decimal b ↔ a ≡ b.
Proof.
  rewrite !canonical_decimal_canon. split; intros Hab.
  - apply (f_equal parse_decimal) in Hab. rewrite !parse_canon_text in Hab.
    injection Hab as Hab. by rewrite <- (canon_equiv a), <- (canon_equiv b), Hab.
  - by rewrite (canon_unique a b Hab).
Qed.
