(* ===== verification/Market.v ===== *)
(** * Market: candles, intervals and coverage ([market_data/])

    The candle data every other component reads: the interval clock, candle validation, the
    quality and coverage report of a range, and the confirmed no-trade bars that fill a
    sparse market's holes. Instants and durations are integers in microseconds since the
    UTC epoch; the modelled values are timezone-aware UTC, which the source checks at its
    boundary ([_require_utc]). *)

From stdpp Require Import sorting.
From S2P Require Import Prelude Decimals DecimalFacts.

Open Scope Z_scope.

Abbreviation datetime := Z.
Abbreviation timedelta := Z.

Definition second : timedelta := 1000000.
Definition minute : timedelta := 60 * second.
Definition hour : timedelta := 60 * minute.
Definition day : timedelta := 24 * hour.

Inductive CandleInterval :=
  | ONE_HOUR | FIVE_MINUTES | FIFTEEN_MINUTES | THIRTY_MINUTES | SIX_HOURS
  | ONE_DAY | ONE_MINUTE | TWO_HOURS | FOUR_HOURS.

#[global] Instance CandleInterval_eq_dec : EqDecision CandleInterval.
Proof. solve_decision. Defined.

(** [_INTERVAL_DURATIONS] *)
Definition duration (i : CandleInterval) : timedelta :=
  match i with
  | ONE_MINUTE => minute
  | FIVE_MINUTES => 5 * minute
  | FIFTEEN_MINUTES => 15 * minute
  | THIRTY_MINUTES => 30 * minute
  | ONE_HOUR => hour
  | TWO_HOURS => 2 * hour
  | FOUR_HOURS => 4 * hour
  | SIX_HOURS => 6 * hour
  | ONE_DAY => day
  end.

(** [CandleInterval(value)]: the members' tokens. *)
Definition parse_candle_interval (value : string) : result CandleInterval :=
  if bool_decide (value = "1h"%string) then Ok ONE_HOUR
  else if bool_decide (value = "5m"%string) then Ok FIVE_MINUTES
  else if bool_decide (value = "15m"%string) then Ok FIFTEEN_MINUTES
  else if bool_decide (value = "30m"%string) then Ok THIRTY_MINUTES
  else if bool_decide (value = "6h"%string) then Ok SIX_HOURS
  else if bool_decide (value = "1d"%string) then Ok ONE_DAY
  else if bool_decide (value = "1m"%string) then Ok ONE_MINUTE
  else if bool_decide (value = "2h"%string) then Ok TWO_HOURS
  else if bool_decide (value = "4h"%string) then Ok FOUR_HOURS
  else Raise (ValueError "Unsupported candle interval").

(** [CandleInterval.align_closed_end]: replace the clock fields of [now] by the last multiple
    of the interval. The fields of an instant are its remainders: [instant.minute] is
    [(instant / minute) mod 60], and [replace] subtracts what the new field drops. *)
Definition align_closed_end (i : CandleInterval) (now : datetime) : result datetime :=
  let instant := now - now mod minute in
  let minutes := duration i / minute in
  if minutes <? 1 then Raise (ValueError "Unsupported candle interval")
  else if minutes <? 60 then
    let field := (instant / minute) mod 60 in
    let kept := field / minutes * minutes in
    Ok (instant - (field - kept) * minute)
  else
    let hours := minutes / 60 in
    let minute_field := (instant / minute) mod 60 in
    let hour_field := (instant / hour) mod 24 in
    if hours <? 24 then
      let kept := hour_field / hours * hours in
      Ok (instant - (hour_field - kept) * hour - minute_field * minute)
    else if hours =? 24 then Ok (instant - hour_field * hour - minute_field * minute)
    else Raise (ValueError "Unsupported candle interval").

Definition requires_live_user_feed (i : CandleInterval) : bool := duration i <? hour.

Record Candle := mk_candle {
  starts_at : datetime;
  open : decimal;
  high : decimal;
  low : decimal;
  close : decimal;
  volume : decimal
}.

#[global] Instance Candle_eq_dec : EqDecision Candle.
Proof. solve_decision. Defined.

Record MarketProduct := {
  market_product_id : string;
  trading_enabled : bool;
  price_increment : decimal;
  base_increment : decimal;
  base_min_size : decimal;
  quote_min_size : decimal
}.

(** ** Candle values *)

(** [quality.validate_candle_values]; a modelled decimal is always finite. *)
Definition validate_candle_values (c : Candle) : result unit :=
  if ((open c <=? d0) || (high c <=? d0) || (low c <=? d0) || (close c <=? d0)
      || (volume c <? d0)
      || (high c <? dmax (open c) (close c))
      || (dmin (open c) (close c) <? low c)
      || (high c <? low c))%dec
  then Raise (CandleQualityError "Candle OHLCV values are semantically invalid.")
  else Ok tt.

(** ** Quality of a candle sequence *)

Record CandleQualityReport := {
  candles : list Candle;
  candle_count : Z;
  gap_count : Z;
  missing_intervals : Z;
  latest_completed_at : option datetime;
  is_stale : bool
}.

Record CandleRangeReport := {
  range_starts_at : datetime;
  range_ends_at : datetime;
  requested_candle_count : Z;
  quality : CandleQualityReport;
  complete : bool
}.

(** [sorted(candles, key=lambda candle: candle.starts_at)]: a stable insertion sort. *)
Fixpoint insert_candle (c : Candle) (l : list Candle) : list Candle :=
  match l with
  | [] => [c]
  | x :: l' => if starts_at c <? starts_at x then c :: l else x :: insert_candle c l'
  end.

Definition sort_candles (l : list Candle) : list Candle :=
  fold_left (fun acc c => insert_candle c acc) l [].

(** [_validate_timestamps]: strictly increasing starts a whole number of bars apart. *)
Fixpoint _validate_timestamps (previous : option datetime) (l : list Candle) (i : CandleInterval)
    : result unit :=
  match l with
  | [] => Ok tt
  | c :: l =>
      _ ← match previous with
          | None => Ok tt
          | Some p =>
              let elapsed := starts_at c - p in
              if elapsed <=? 0 then
                Raise (CandleQualityError "Candle timestamps must be strictly increasing.")
              else if negb (elapsed mod duration i =? 0) then
                Raise (CandleQualityError "Candle timestamps must align to the selected interval.")
              else Ok tt
          end;
      _validate_timestamps (Some (starts_at c)) l i
  end.

(** [_gaps]: discontinuities and omitted bars between consecutive completed candles. *)
Fixpoint _gaps (l : list Candle) (i : CandleInterval) : Z * Z :=
  match l with
  | p :: (c :: _) as rest =>
      let '(gaps, missing) := _gaps rest i in
      let intervals := (starts_at c - starts_at p) / duration i in
      if 1 <? intervals then (gaps + 1, missing + (intervals - 1)) else (gaps, missing)
  | _ => (0, 0)
  end.

Definition _completion_boundary (start : datetime) (i : CandleInterval) : datetime :=
  start + duration i.

Definition analyze_candles (cs : list Candle) (i : CandleInterval) (now : datetime)
    : result CandleQualityReport :=
  _ ← foldM (fun _ c => validate_candle_values c) tt cs;
  let ordered := sort_candles cs in
  _ ← _validate_timestamps None ordered i;
  let completed := List.filter (fun c => _completion_boundary (starts_at c) i <=? now) ordered in
  let '(gaps, missing) := _gaps completed i in
  let latest := (fun c => _completion_boundary (starts_at c) i) <$> last completed in
  Ok {| candles := completed;
        candle_count := Z.of_nat (length completed);
        gap_count := gaps;
        missing_intervals := missing;
        latest_completed_at := latest;
        is_stale := match latest with
                    | Some at_ => duration i * 2 <? now - at_
                    | None => false
                    end |}.

Definition require_aligned_range (i : CandleInterval) (start end_ : datetime) : result unit :=
  if (end_ <=? start) || negb ((end_ - start) mod duration i =? 0) then
    Raise (CandleQualityError "Historical ranges must be non-empty and align to the selected interval.")
  else Ok tt.

Definition analyze_range (cs : list Candle) (i : CandleInterval) (start end_ now : datetime)
    : result CandleRangeReport :=
  _ ← require_aligned_range i start end_;
  if existsb (fun c => (starts_at c <? start) || (end_ <=? starts_at c)) cs then
    Raise (CandleQualityError "Historical candles must fall within the requested half-open range.")
  else
    q ← analyze_candles cs i now;
    let requested := (end_ - start) / duration i in
    Ok {| range_starts_at := start;
          range_ends_at := end_;
          requested_candle_count := requested;
          quality := q;
          complete :=
            (candle_count q =? requested) && (gap_count q =? 0) &&
            match head (candles q) with
            | Some c => starts_at c =? start
            | None => false
            end &&
            bool_decide (latest_completed_at q = Some end_) |}.

Definition missing_interval_starts (cs : list Candle) (i : CandleInterval) (start end_ : datetime)
    : result (list datetime) :=
  _ ← require_aligned_range i start end_;
  Ok (List.filter (fun cursor => negb (existsb (fun c => starts_at c =? cursor) cs))
        (instants start end_ (duration i))).

(** ** No-trade bars ([no_trade.py]) *)

Definition NO_TRADE_VOLUME : decimal := d0.

Definition no_trade_bar (start : datetime) (previous_close : decimal) : Candle :=
  {| starts_at := start; open := previous_close; high := previous_close; low := previous_close;
     close := previous_close; volume := NO_TRADE_VOLUME |}.

Definition is_no_trade_bar (c : Candle) : bool := (volume c =? NO_TRADE_VOLUME)%dec.

Definition count_no_trade_bars (cs : list Candle) : nat := length (List.filter is_no_trade_bar cs).

Fixpoint has_interior_gaps (cs : list Candle) (i : CandleInterval) : bool :=
  match cs with
  | earlier :: (later :: _) as rest =>
      negb (starts_at later - starts_at earlier =? duration i) || has_interior_gaps rest i
  | _ => false
  end.

(** [_append_flat_until]: flat bars at the last close until [end_]; [previous] is [filled[-1]]. *)
Definition _append_flat_until (previous : Candle) (end_ : datetime) (step : timedelta)
    : list Candle :=
  (fun start => no_trade_bar start (close previous)) <$>
    instants (starts_at previous + step) end_ step.

Fixpoint fill_gaps_from (previous : Candle) (rest : list Candle) (step : timedelta) : list Candle :=
  match rest with
  | [] => []
  | c :: rest => _append_flat_until previous (starts_at c) step ++ c :: fill_gaps_from c rest step
  end.

Definition fill_no_trade_gaps (cs : list Candle) (i : CandleInterval) (through : option datetime)
    : list Candle :=
  match cs with
  | [] => []
  | c :: rest =>
      let filled := c :: fill_gaps_from c rest (duration i) in
      match through, last filled with
      | Some end_, Some previous => filled ++ _append_flat_until previous end_ (duration i)
      | _, _ => filled
      end
  end.

(** [settle_cutoff]: a missing bar newer than this is not yet a confirmed hole. *)
Definition HOLE_SETTLE_MINIMUM : timedelta := 15 * minute.
Definition settle_cutoff (closed_end : datetime) (i : CandleInterval) : datetime :=
  closed_end - (if HOLE_SETTLE_MINIMUM <? duration i then duration i else HOLE_SETTLE_MINIMUM).

(** ** Freshness ([freshness.py]) *)

Inductive FreshnessStatus := FRESH | STALE | UNKNOWN.
Definition _FRESHNESS_GRACE_SECONDS : Z := 300.

(** [evaluate_freshness]: status and reported age in seconds ([int] truncates towards zero). *)
Definition evaluate_freshness (newest_candle_at : option datetime) (now : datetime)
    (i : CandleInterval) : FreshnessStatus * option Z :=
  match newest_candle_at with
  | None => (UNKNOWN, None)
  | Some newest =>
      let threshold := duration i / second * 2 + _FRESHNESS_GRACE_SECONDS in
      let age := Z.quot (now - newest) second in
      let status := if age <? 0 then STALE else if age <? threshold then FRESH else STALE in
      (status, Some (Z.max 0 age))
  end.

(** ** Facts *)

Lemma duration_pos i : 0 < duration i.
Proof. by destruct i. Qed.

(** [earlier] starts a positive whole number of bars before [later]. *)
Definition bars_before (i : CandleInterval) (earlier later : Candle) : Prop :=
  starts_at earlier < starts_at later ∧ (duration i | starts_at later - starts_at earlier).

#[global] Instance bars_before_trans i : Transitive (bars_before i).
Proof.
  intros a b c [H1 D1] [H2 D2]. split; [lia|].
  replace (starts_at c - starts_at a)
    with ((starts_at b - starts_at a) + (starts_at c - starts_at b)) by lia.
  by apply Z.divide_add_r.
Qed.

Lemma validate_timestamps_sorted i l p :
  _validate_timestamps (starts_at <$> p) l i = Ok tt ->
  StronglySorted (bars_before i) (match p with Some c => c :: l | None => l end).
Proof.
  pose proof (duration_pos i). revert p. induction l as [|c l IH]; intros p Hv.
  - destruct p; repeat constructor.
  - cbn [_validate_timestamps] in Hv. apply bind_Ok in Hv as ([] & Hp & Hl).
    specialize (IH (Some c) Hl). destruct p as [p|]; cbn in Hp; [|done].
    destruct (Z.leb_spec (starts_at c - starts_at p) 0); [done|].
    destruct (Z.eqb_spec ((starts_at c - starts_at p) mod duration i) 0); [|done].
    assert (bars_before i p c) by (split; [lia|apply Z.mod_divide; lia]).
    apply SSorted_cons; [done|]. constructor; [done|].
    apply StronglySorted_cons in IH as [Hc _]. eapply Forall_impl; [exact Hc|].
    intros x. by apply transitivity.
Qed.

Lemma StronglySorted_list_filter {A} (R : A -> A -> Prop) f l :
  StronglySorted R l -> StronglySorted R (List.filter f l).
Proof.
  induction 1 as [|x l Hl IH Hx]; cbn; [constructor|]. destruct (f x); [|done].
  constructor; [done|]. rewrite List.Forall_forall in *. intros y [Hy _]%filter_In. auto.
Qed.

Lemma gaps_nonneg i l : 0 <= (_gaps l i).1.
Proof.
  induction l as [|p [|c l] IH]; [done..|]. cbn [_gaps].
  change (0 <= (let '(g, m) := _gaps (c :: l) i in
    if 1 <? (starts_at c - starts_at p) / duration i
    then (g + 1, m + ((starts_at c - starts_at p) / duration i - 1)) else (g, m)).1).
  destruct (_gaps (c :: l) i) as [g m]; cbn [fst] in *. destruct (1 <? _); cbn; lia.
Qed.

(** Sorted candles without a gap are contiguous: their starts are an exact grid. *)
Lemma no_gaps_grid i c l :
  StronglySorted (bars_before i) (c :: l) -> (_gaps (c :: l) i).1 = 0 ->
  starts_at <$> (c :: l) = Prelude.grid (starts_at c) (duration i) (S (length l)).
Proof.
  pose proof (duration_pos i) as Hd.
  revert c. induction l as [|x l IH]; intros c Hs Hg; [done|].
  apply StronglySorted_cons in Hs as [Hc Hs]. apply Forall_cons in Hc as [[Hlt [k Hk]] _].
  pose proof (gaps_nonneg i (x :: l)) as Hge.
  change ((let '(g, m) := _gaps (x :: l) i in
    if 1 <? (starts_at x - starts_at c) / duration i
    then (g + 1, m + ((starts_at x - starts_at c) / duration i - 1)) else (g, m)).1 = 0) in Hg.
  destruct (_gaps (x :: l) i) as [g m] eqn:Eg; cbn [fst] in *.
  rewrite Hk, Z.div_mul in Hg by lia.
  destruct (Z.ltb_spec 1 k); cbn [fst] in Hg; [lia|]. assert (k = 1) as -> by nia.
  rewrite fmap_cons. change (Prelude.grid (starts_at c) (duration i) (S (length (x :: l))))
    with (starts_at c :: Prelude.grid (starts_at c + duration i) (duration i) (S (length l))).
  f_equal. rewrite (IH x) by (done || by rewrite Eg). f_equal. lia.
Qed.

Lemma insert_candle_perm c l : insert_candle c l ≡ₚ c :: l.
Proof.
  induction l as [|x l IH]; cbn; [done|]. destruct (_ <? _); [done|].
  rewrite IH. apply perm_swap.
Qed.

Lemma sort_candles_perm l : sort_candles l ≡ₚ l.
Proof.
  unfold sort_candles. rewrite <- (app_nil_r l) at 2. generalize (@nil Candle).
  induction l as [|c l IH]; intros acc; cbn; [done|]. rewrite IH, insert_candle_perm.
  by rewrite Permutation_middle.
Qed.

(** What a successful quality analysis establishes. *)
Lemma analyze_candles_spec cs i now q : analyze_candles cs i now = Ok q ->
  StronglySorted (bars_before i) (candles q) ∧ (∀ c, c ∈ candles q -> c ∈ cs) ∧
  candle_count q = Z.of_nat (length (candles q)) ∧ gap_count q = (_gaps (candles q) i).1.
Proof.
  unfold analyze_candles. intros ([] & _ & ([] & Hv & Hq)%bind_Ok)%bind_Ok.
  destruct (_gaps _ _) as [gaps missing] eqn:Eg. injection Hq as <-. cbn.
  split; [|split; [|split; [done|by rewrite Eg]]].
  - apply StronglySorted_list_filter. apply (validate_timestamps_sorted i _ None Hv).
  - intros c [Hc _]%list_elem_of_In%filter_In. by rewrite <- sort_candles_perm, list_elem_of_In.
Qed.

(** A range report that says [complete] has exactly one candle at every bar of the
    half-open range, in order, and no expected start is missing. *)
Lemma complete_range_covers cs i start end_ now report :
  analyze_range cs i start end_ now = Ok report -> complete report = true ->
  starts_at <$> candles (quality report) = instants start end_ (duration i) ∧
  missing_interval_starts cs i start end_ = Ok [].
Proof.
  pose proof (duration_pos i) as Hd. unfold analyze_range, missing_interval_starts.
  intros ([] & Hr & Ha)%bind_Ok Hc. rewrite Hr; cbn. unfold require_aligned_range in Hr.
  destruct (existsb _ cs); [done|]. apply bind_Ok in Ha as (q & Hq & Ha).
  injection Ha as <-; cbn [complete quality] in *.
  apply analyze_candles_spec in Hq as (Hs & Hin & Hcount & Hgap).
  rewrite !andb_prop_iff in Hc. destruct Hc as [[[Hn%Z.eqb_eq Hg%Z.eqb_eq] Hh] _].
  rewrite Hcount in Hn. rewrite Hgap in Hg.
  destruct (candles q) as [|c l] eqn:El; [done|]. cbn in Hh. apply Z.eqb_eq in Hh.
  destruct (Z.leb_spec end_ start); [done|]. cbn [orb] in Hr.
  destruct (Z.eqb_spec ((end_ - start) mod duration i) 0) as [Hm|]; [|done].
  assert (Hfuel : loop_fuel start end_ (duration i) = length (c :: l)).
  { unfold loop_fuel. pose proof (Z.div_mod (end_ - start) (duration i) ltac:(lia)) as Hdm.
    assert ((end_ - start + duration i - 1) / duration i = (end_ - start) / duration i) as ->; [|lia].
    symmetry. apply (Z.div_unique _ _ _ (duration i - 1)); lia. }
  assert (Hgrid : starts_at <$> (c :: l) = instants start end_ (duration i)).
  { rewrite (no_gaps_grid i) by done. rewrite instants_grid, Hfuel by done. by rewrite Hh. }
  split; [exact Hgrid|]. f_equal. rewrite <- Hgrid.
  assert (Hall : ∀ x, x ∈ c :: l -> existsb (fun k => starts_at k =? starts_at x) cs = true).
  { intros x Hx. apply existsb_exists. exists x. rewrite <- list_elem_of_In. split; [auto|].
    apply Z.eqb_refl. }
  clear -Hall. induction (c :: l) as [|x k IH]; [done|].
  rewrite fmap_cons; cbn [List.filter]. rewrite (Hall x) by left; cbn. apply IH.
  intros y Hy. apply Hall. by right.
Qed.

(** ** Filling confirmed holes *)

Lemma has_gaps_app l p k i :
  has_interior_gaps ((l ++ [p]) ++ k) i = has_interior_gaps (l ++ [p]) i || has_interior_gaps (p :: k) i.
Proof.
  induction l as [|x l IH]; [done|]. destruct l as [|y l].
  - cbn. by rewrite orb_false_r.
  - cbn [app has_interior_gaps] in *. by rewrite IH, orb_assoc.
Qed.

Lemma flats_contiguous i p n :
  has_interior_gaps
    (p :: ((λ start, no_trade_bar start (close p)) <$> grid (starts_at p + duration i) (duration i) n)) i
  = false.
Proof.
  revert p. induction n as [|n IH]; intros p; [done|].
  cbn [grid fmap list_fmap has_interior_gaps].
  change (starts_at (no_trade_bar (starts_at p + duration i) (close p)))
    with (starts_at p + duration i).
  replace (starts_at p + duration i - starts_at p) with (duration i) by lia.
  rewrite Z.eqb_refl; cbn [negb orb].
  apply (IH (no_trade_bar (starts_at p + duration i) (close p))).
Qed.

Lemma fill_between i p c rest : bars_before i p c ->
  has_interior_gaps (p :: _append_flat_until p (starts_at c) (duration i) ++ c :: rest) i =
  has_interior_gaps (c :: rest) i.
Proof.
  pose proof (duration_pos i) as Hd. intros [Hlt [k Hk]].
  assert (1 <= k) as H1 by nia. unfold _append_flat_until.
  replace k with (Z.of_nat (Z.to_nat (k - 1)) + 1) in Hk by lia.
  revert p Hk Hlt. induction (Z.to_nat (k - 1)) as [|n IH]; intros p Hk Hlt.
  - rewrite instants_done by lia. cbn [fmap list_fmap app has_interior_gaps].
    replace (starts_at c - starts_at p) with (duration i) by lia. by rewrite Z.eqb_refl.
  - rewrite instants_step by lia. cbn [fmap list_fmap app].
    set (f := no_trade_bar (starts_at p + duration i) (close p)).
    change (negb (starts_at f - starts_at p =? duration i) || has_interior_gaps
      (f :: ((λ start, no_trade_bar start (close f)) <$> instants (starts_at f + duration i) (starts_at c) (duration i))
         ++ c :: rest) i = has_interior_gaps (c :: rest) i).
    replace (starts_at f - starts_at p) with (duration i) by (unfold f; cbn; lia).
    rewrite Z.eqb_refl; cbn [negb orb]. apply IH; unfold f; cbn [starts_at no_trade_bar]; lia.
Qed.

Lemma fill_gaps_from_contiguous i p rest : StronglySorted (bars_before i) (p :: rest) ->
  has_interior_gaps (p :: fill_gaps_from p rest (duration i)) i = false.
Proof.
  revert p. induction rest as [|c rest IH]; intros p Hs; [done|].
  apply StronglySorted_cons in Hs as [Hp Hs]. apply Forall_cons in Hp as [Hpc _].
  cbn [fill_gaps_from]. rewrite fill_between by done. by apply IH.
Qed.

(** Filling the confirmed holes of a well-formed sequence leaves no interior gap, up to and
    including the trailing bars of [through]. *)
Lemma fill_no_trade_gaps_contiguous cs i through :
  _validate_timestamps None cs i = Ok tt ->
  has_interior_gaps (fill_no_trade_gaps cs i through) i = false.
Proof.
  intros Hv. pose proof (validate_timestamps_sorted i cs None Hv) as Hs. cbn in Hs.
  destruct cs as [|c rest]; [done|]. cbn [fill_no_trade_gaps].
  pose proof (fill_gaps_from_contiguous i c rest Hs) as Hf. destruct through as [end_|]; [|done].
  set (filled := c :: fill_gaps_from _ _ _) in *.
  destruct (last filled) as [p|] eqn:El; [|exact Hf].
  apply last_Some in El as [l El]. rewrite El in *. rewrite has_gaps_app, Hf; cbn [orb].
  unfold _append_flat_until. rewrite instants_grid by apply duration_pos. apply flats_contiguous.
Qed.

Lemma elem_of_flats p c end_ step : c ∈ _append_flat_until p end_ step ->
  c = no_trade_bar (starts_at c) (close p).
Proof. unfold _append_flat_until. by intros (start & -> & _)%list_elem_of_fmap. Qed.

(** A bar of a filled sequence is a real candle, or flat at the close of a real one. *)
Definition real_or_flat (cs : list Candle) (c : Candle) : Prop :=
  c ∈ cs ∨ ∃ p, p ∈ cs ∧ c = no_trade_bar (starts_at c) (close p).

Lemma fill_gaps_from_real p rest step c :
  c ∈ p :: fill_gaps_from p rest step -> real_or_flat (p :: rest) c.
Proof.
  revert p. induction rest as [|x rest IH]; intros p.
  - cbn. intros ->%list_elem_of_singleton. left. by left.
  - cbn [fill_gaps_from]. rewrite elem_of_cons, elem_of_app.
    intros [-> | [Hc|Hc]]; [left; by left|right|].
    + exists p. split; [by left|]. by eapply elem_of_flats.
    + destruct (IH x Hc) as [H|(q & Hq & H)]; [left|right; exists q; split; [|done]]; by right.
Qed.

Lemma fill_gaps_from_sublist p rest step : rest `sublist_of` fill_gaps_from p rest step.
Proof.
  revert p. induction rest as [|x rest IH]; intros p; cbn; [constructor|].
  apply sublist_inserts_l. apply sublist_skip, IH.
Qed.

(** Filling never drops, changes or reorders a provider candle, and invents no price: every
    added bar is flat at the close of a candle of the input with zero volume. *)
Lemma fill_no_trade_gaps_faithful cs i through :
  cs `sublist_of` fill_no_trade_gaps cs i through ∧
  ∀ c, c ∈ fill_no_trade_gaps cs i through -> real_or_flat cs c.
Proof.
  destruct cs as [|c rest]; [split; [constructor|intros c []%elem_of_nil]|]. cbn [fill_no_trade_gaps].
  pose proof (sublist_skip c _ _ (fill_gaps_from_sublist c rest (duration i))) as Hsub.
  pose proof (fill_gaps_from_real c rest (duration i)) as Hreal.
  set (filled := c :: fill_gaps_from c rest (duration i)) in *.
  destruct through as [end_|]; [|by split; [|intros; apply Hreal]].
  destruct (last filled) as [p|] eqn:El; [|by split; [|intros; apply Hreal]].
  split; [by apply sublist_inserts_r|]. intros x [Hx|Hx]%elem_of_app; [by apply Hreal|].
  apply elem_of_flats in Hx. assert (p ∈ filled) as Hp.
  { apply last_Some in El as [l ->]. apply elem_of_app. right. by left. }
  destruct (Hreal p Hp) as [H|(q & Hq & H)]; right.
  - by exists p.
  - exists q. split; [done|]. rewrite Hx, H. done.
Qed.

(** ** Bar alignment *)

(** An instant truncated to the minute, and its clock fields, in whole minutes. *)
Lemma truncate_minute now : now - now mod minute = now / minute * minute.
Proof. pose proof (Z.div_mod now minute ltac:(done)). lia. Qed.

Lemma minute_fields q : q * minute / minute = q ∧ q * minute / hour = q / 60.
Proof.
  split; [by apply Z.div_mul|]. change hour with (60 * minute). rewrite (Z.mul_comm 60).
  rewrite <- Z.div_div by done. by rewrite Z.div_mul.
Qed.

Lemma bar_floor now k : 0 < k ->
  now / (k * minute) * (k * minute) = now / minute / k * k * minute.
Proof. intros Hk. rewrite (Z.mul_comm k minute), <- Z.div_div by done. ring. Qed.

(** The calendar arithmetic on hours and minutes is integer division. *)
Lemma align_closed_end_spec i now :
  align_closed_end i now = Ok (now / duration i * duration i).
Proof.
  unfold align_closed_end. rewrite truncate_minute. set (q := now / minute).
  destruct (minute_fields q) as [-> ->].
  assert (duration i = duration i / minute * minute) as -> by (by destruct i).
  rewrite Z.div_mul by done. rewrite bar_floor by (by destruct i). fold q.
  destruct i; match goal with |- context [duration ?j / minute] =>
    let r := eval vm_compute in (duration j / minute) in change (duration j / minute) with r end;
    repeat match goal with |- context [Zpos ?a / 60] =>
      let r := eval vm_compute in (Zpos a / 60) in change (Zpos a / 60) with r end;
    cbn -[Z.mul Z.div Z.modulo Z.sub]; f_equal;
    rewrite <- ?Z.mul_sub_distr_r; change hour with (60 * minute);
    rewrite ?Z.mul_assoc, <- ?Z.mul_sub_distr_r; f_equal; Z.to_euclidean_division_equations; lia.
Qed.

(** [align_closed_end] never raises on a supported interval and is the latest multiple of
    the interval's duration at or before [now], counted from the UTC epoch. *)
Lemma align_closed_end_floor i now : ∃ aligned, align_closed_end i now = Ok aligned ∧
  (duration i | aligned) ∧ aligned <= now < aligned + duration i.
Proof.
  exists (now / duration i * duration i). split; [apply align_closed_end_spec|]. split; [by eexists|].
  assert (Hd : 0 < duration i) by (by destruct i).
  pose proof (Z.div_mod now (duration i) ltac:(lia)). pose proof (Z.mod_pos_bound now (duration i) Hd). nia.
Qed.

(** ** Concrete sequences *)

Definition sample_bar (k : Z) : Candle :=
  mk_candle (20000 * day + hour * k) (of_Z 100) (of_Z 101) (of_Z 99) (of_Z 100) d1.
