(* ===== verification/Geometry.v ===== *)
(** * Geometry: entry levels and protective prices ([trading/geometry.py])

    The stop and take-profit of one entry, the limit of a stop-only exit, and the legality
    of a bracket, shared by the backtest, paper and live paths. Snapping onto a venue
    increment divides and quantizes, so it can raise; research prices pass no increment. *)

From S2P Require Import Prelude Decimals DecimalFacts Market.

Open Scope Z_scope.

Inductive OrderSide := BUY | SELL.
Inductive PositionSide := LONG | SHORT.

#[global] Instance OrderSide_eq_dec : EqDecision OrderSide.
Proof. solve_decision. Defined.
#[global] Instance PositionSide_eq_dec : EqDecision PositionSide.
Proof. solve_decision. Defined.

Inductive EntrySkipReason :=
  | ENTRY_PRICE_NOT_POSITIVE
  | STOP_DISTANCE_NOT_POSITIVE
  | STOP_NOT_POSITIVE
  | TARGET_NOT_POSITIVE
  | STOP_WITHIN_PRICE_INCREMENT
  | TARGET_WITHIN_PRICE_INCREMENT
  | NET_TARGET_BELOW_MINIMUM
  | ECONOMICS_FEE_UNAVAILABLE
  | SIZING_CASH_UNAVAILABLE
  | NO_OPEN_POSITION
  | INSUFFICIENT_CASH
  | NOTIONAL_BELOW_MINIMUM
  | QUANTITY_BELOW_VENUE_MINIMUM
  | NOTIONAL_BELOW_VENUE_MINIMUM
  | BELOW_ONE_CONTRACT.

#[global] Instance EntrySkipReason_eq_dec : EqDecision EntrySkipReason.
Proof. solve_decision. Defined.

Inductive skip_category := geometry | sizing.

Definition _GEOMETRY_SKIPS : list EntrySkipReason :=
  [ENTRY_PRICE_NOT_POSITIVE; STOP_DISTANCE_NOT_POSITIVE; STOP_NOT_POSITIVE; TARGET_NOT_POSITIVE;
   STOP_WITHIN_PRICE_INCREMENT; TARGET_WITHIN_PRICE_INCREMENT; NET_TARGET_BELOW_MINIMUM;
   ECONOMICS_FEE_UNAVAILABLE].

Definition entry_skip_category (reason : EntrySkipReason) : skip_category :=
  if bool_decide (reason ∈ _GEOMETRY_SKIPS) then geometry else sizing.

(** A value or a named refusal: Python's [T | EntrySkipReason]. *)
Inductive skippable (A : Type) :=
  | Sized (a : A)
  | Skip (reason : EntrySkipReason).
Arguments Sized {A} a.
Arguments Skip {A} reason.

Record EntryLevels := { stop_price : decimal; target_price : option decimal }.

(** [PROTECTIVE_STOP_LIMIT_BUFFER = Decimal("0.05")] *)
Definition PROTECTIVE_STOP_LIMIT_BUFFER : decimal := Dec 5 (-2).

Definition venue_increment_error : error := ValueError "venue increment must be positive".

Section Geometry.
Context {dc : DecimalContext}.

(** [(value / increment).quantize(Decimal("1"), rounding) * increment] *)
Definition snap_to (value increment : decimal) (rounding : rounding) : result decimal :=
  if (increment <=? d0)%dec then Raise venue_increment_error
  else
    q ← div value increment;
    steps ← quantize rounding q 0;
    Ok (steps * increment)%dec.

Definition _snap (value : decimal) (increment : option decimal) (rounding : rounding) : result decimal :=
  match increment with
  | None => Ok value
  | Some increment => snap_to value increment rounding
  end.

Definition entry_levels (side : PositionSide) (entry_price stop_distance : decimal)
    (reward_multiple price_increment : option decimal) : result (skippable EntryLevels) :=
  if (entry_price <=? d0)%dec then Ok (Skip ENTRY_PRICE_NOT_POSITIVE)
  else if (stop_distance <=? d0)%dec then Ok (Skip STOP_DISTANCE_NOT_POSITIVE)
  else match side with
  | LONG =>
      stop ← _snap (entry_price - stop_distance)%dec price_increment ROUND_DOWN;
      if (stop <=? d0)%dec then Ok (Skip STOP_NOT_POSITIVE)
      else match reward_multiple with
      | None => Ok (Sized {| stop_price := stop; target_price := None |})
      | Some multiple =>
          target ← _snap (entry_price + stop_distance * multiple)%dec price_increment ROUND_HALF_UP;
          if (target <=? entry_price)%dec then Ok (Skip TARGET_WITHIN_PRICE_INCREMENT)
          else Ok (Sized {| stop_price := stop; target_price := Some target |})
      end
  | SHORT =>
      stop ← _snap (entry_price + stop_distance)%dec price_increment ROUND_HALF_UP;
      target ← match reward_multiple with
        | None => Ok (Sized None)
        | Some multiple =>
            target ← _snap (entry_price - stop_distance * multiple)%dec price_increment ROUND_DOWN;
            if (target <=? d0)%dec then Ok (Skip TARGET_NOT_POSITIVE) else Ok (Sized (Some target))
        end;
      match target with
      | Skip reason => Ok (Skip reason)
      | Sized target =>
          if (stop <=? entry_price)%dec then Ok (Skip STOP_WITHIN_PRICE_INCREMENT)
          else Ok (Sized {| stop_price := stop; target_price := target |})
      end
  end.

Definition protective_stop_limit_price (cover_side : OrderSide) (stop_price price_increment : decimal)
    : result decimal :=
  match cover_side with
  | SELL => _snap (stop_price * (d1 - PROTECTIVE_STOP_LIMIT_BUFFER))%dec (Some price_increment) ROUND_DOWN
  | BUY => _snap (stop_price * (d1 + PROTECTIVE_STOP_LIMIT_BUFFER))%dec (Some price_increment) ROUND_UP
  end.

End Geometry.

Definition entry_order_side (side : PositionSide) : OrderSide :=
  match side with LONG => BUY | SHORT => SELL end.

Definition exit_order_side (side : PositionSide) : OrderSide :=
  match side with LONG => SELL | SHORT => BUY end.

Definition bracket_is_valid (side : PositionSide) (entry stop take_profit : decimal) : bool :=
  if ((entry <=? d0) || (stop <=? d0) || (take_profit <=? d0))%dec then false
  else match side with
  | LONG => ((stop <? entry) && (entry <? take_profit))%dec
  | SHORT => ((take_profit <? entry) && (entry <? stop))%dec
  end.

Definition paper_stop_hit (side : PositionSide) (candle : Candle) (stop_price : decimal) : bool :=
  match side with
  | LONG => (low candle <=? stop_price)%dec
  | SHORT => (stop_price <=? high candle)%dec
  end.

Definition paper_stop_fill_price (side : PositionSide) (candle : Candle) (stop_price : decimal) : decimal :=
  match side with
  | LONG => dmin (open candle) stop_price
  | SHORT => dmax (open candle) stop_price
  end.

(** [entry_bar_bucket]: the start of the bar that contains the fill. *)
Definition entry_bar_bucket (fill_time : datetime) (timeframe : string) : result datetime :=
  interval ← parse_candle_interval timeframe;
  let instant := fill_time - fill_time mod minute in
  closed_end ← align_closed_end interval (instant + duration interval);
  Ok (closed_end - duration interval).

(** ** Facts about snapping *)

Section SnapFacts.
Context {dc : DecimalContext}.

Lemma snap_to_spec v inc m r : snap_to v inc m = Ok r ->
  (0 < val inc)%Q ∧ ∃ q n, rounds prec (val v / val inc) q ∧ rounds_integer m (val q) n ∧
    Z.abs n <= 10 ^ prec ∧ rounds prec (inject_Z n * val inc) r.
Proof.
  unfold snap_to. destruct (inc <=? d0)%dec eqn:Hi; [done|].
  intros (q & Hq & (s & Hs & [= <-])%bind_Ok)%bind_Ok. dec_cmp. split; [exact Hi|].
  apply div_rounds in Hq as [_ Hq]. apply quantize_integer in Hs as (n & Hn & Hr & Hsz).
  exists q, n. split; [done|]. split; [done|]. split; [done|]. rewrite <- Hn. apply mul_rounds.
Qed.

Lemma snap_down_le v inc r : wide dc -> snap_to v inc ROUND_DOWN = Ok r -> (0 <= val v)%Q ->
  (0 <= val r ∧ val r <= val v * (103 # 100))%Q.
Proof.
  intros Hw (Hi & q & n & Hq & Hn & _ & Hr)%snap_to_spec Hv. pose proof prec_pos as Hp.
  assert (Hq0 : (0 <= val v / val inc)%Q) by (apply Qle_shift_div_l; lra).
  destruct (rounds_percent _ _ Hw Hq Hq0) as [_ Hqb].
  pose proof (rounds_nonneg _ _ Hp Hq Hq0) as Hqn.
  destruct Hn as [Hn _]. destruct (Hn Hqn) as [Hn1 Hn2].
  assert (Hn0 : (0 <= inject_Z n)%Q).
  { change 0%Q with (inject_Z 0). rewrite <- Zle_Qle. apply Z.lt_succ_r. rewrite Zlt_Qlt.
    change (inject_Z 0) with 0%Q. unfold Z.succ. lra. }
  assert (Hm0 : (0 <= inject_Z n * val inc)%Q) by (apply Qmult_le_0_compat; lra).
  destruct (rounds_percent _ _ Hw Hr Hm0) as [_ Hrb].
  split; [by eapply rounds_nonneg|].
  pose proof (Qdiv_mul (val v) (val inc) Hi) as Hd. set (w := (val v / val inc)%Q) in *.
  assert (inject_Z n * val inc <= w * (101 # 100) * val inc)%Q by (apply Qmult_le_compat_r; lra).
  lra.
Qed.

Lemma snap_up_ge v inc r : wide dc -> snap_to v inc ROUND_UP = Ok r -> (0 <= val v)%Q ->
  (val v * (98 # 100) <= val r)%Q.
Proof.
  intros Hw (Hi & q & n & Hq & Hn & _ & Hr)%snap_to_spec Hv. pose proof prec_pos as Hp.
  assert (Hq0 : (0 <= val v / val inc)%Q) by (apply Qle_shift_div_l; lra).
  destruct (rounds_percent _ _ Hw Hq Hq0) as [Hqb _].
  pose proof (rounds_nonneg _ _ Hp Hq Hq0) as Hqn.
  destruct (Hn Hqn) as [Hn1 _].
  assert (Hm0 : (0 <= inject_Z n * val inc)%Q) by (apply Qmult_le_0_compat; lra).
  destruct (rounds_percent _ _ Hw Hr Hm0) as [Hrb _].
  pose proof (Qdiv_mul (val v) (val inc) Hi) as Hd. set (w := (val v / val inc)%Q) in *.
  assert (w * (99 # 100) * val inc <= inject_Z n * val inc)%Q by (apply Qmult_le_compat_r; lra).
  lra.
Qed.

Lemma buffer_factors : wide dc ->
  (val (d1 - PROTECTIVE_STOP_LIMIT_BUFFER)%dec == 19 # 20)%Q ∧
  (val (d1 + PROTECTIVE_STOP_LIMIT_BUFFER)%dec == 21 # 20)%Q.
Proof.
  intros Hw. unfold wide in Hw.
  assert (10 ^ 28 <= 10 ^ prec) as Hpow by (apply Z.pow_le_mono_r; lia).
  pose proof (sub_rounds d1 PROTECTIVE_STOP_LIMIT_BUFFER) as Hs.
  pose proof (add_rounds d1 PROTECTIVE_STOP_LIMIT_BUFFER) as Ha.
  split.
  - rewrite (rounds_exact _ _ Hs); [done|]. exists 95, (-2). split; [lia|done].
  - rewrite (rounds_exact _ _ Ha); [done|]. exists 105, (-2). split; [lia|done].
Qed.

(** The limit of a live stop-only exit never crosses back over its trigger: a sell limit is
    strictly below the stop (and not negative), a buy limit strictly above it, after every
    rounding of the multiplication, the division and the snap. *)
Lemma protective_limit_through_stop (side : OrderSide) (stop inc limit : decimal) :
  wide dc -> (0 < val stop)%Q -> protective_stop_limit_price side stop inc = Ok limit ->
  match side with
  | SELL => (0 <= val limit ∧ val limit < val stop)%Q
  | BUY => (val stop < val limit)%Q
  end.
Proof.
  intros Hw Hs. pose proof (buffer_factors Hw) as [H19 H21].
  destruct side; cbn [protective_stop_limit_price _snap]; intros Hp.
  - pose proof (mul_rounds stop (d1 + PROTECTIVE_STOP_LIMIT_BUFFER)%dec) as Hm. rewrite H21 in Hm.
    destruct (rounds_percent _ _ Hw Hm ltac:(lra)) as [Hlo _].
    pose proof (snap_up_ge _ _ _ Hw Hp ltac:(lra)). lra.
  - pose proof (mul_rounds stop (d1 - PROTECTIVE_STOP_LIMIT_BUFFER)%dec) as Hm. rewrite H19 in Hm.
    destruct (rounds_percent _ _ Hw Hm ltac:(lra)) as [Hlo Hhi].
    pose proof (snap_down_le _ _ _ Hw Hp ltac:(lra)). lra.
Qed.

(** ** The geometry contract *)

(** [entry] is a price the venue can quote: on the increment grid when there is one. *)
Definition quotable (price_increment : option decimal) (entry : decimal) : Prop :=
  representable prec (val entry) ∧
  match price_increment with
  | None => True
  | Some inc => ∃ m, Z.abs m <= 10 ^ prec ∧ (val entry == inject_Z m * val inc)%Q
  end.

(** Snapping down a price below a quotable one cannot pass it. *)
Lemma snap_down_cap v inc entry r : quotable inc entry -> (0 < val entry)%Q ->
  (val v <= val entry)%Q -> _snap v inc ROUND_DOWN = Ok r -> (val r <= val entry)%Q.
Proof.
  intros [Hrep Hgrid] He Hv. destruct inc as [inc|]; cbn [_snap]; [|by intros [= <-]].
  intros (Hi & q & n & Hq & Hn & _ & Hr)%snap_to_spec. destruct Hgrid as (m & Hm & Hem).
  assert (Hqm : (val q <= inject_Z m)%Q).
  { eapply rounds_le; [exact Hq|by apply representable_Z|]. apply Qle_shift_div_r; [done|]. lra. }
  assert (Hm0 : (0 < inject_Z m)%Q) by (apply (Qmult_lt_r _ _ (val inc)); [done|lra]).
  assert (Hnm : (inject_Z n <= inject_Z m)%Q).
  { destruct Hn as [H1 H2]. destruct (Qlt_le_dec (val q) 0); [|pose proof (H1 ltac:(done)); lra].
    pose proof (H2 ltac:(lra)). lra. }
  eapply rounds_le; [exact Hr|done|]. rewrite Hem. apply Qmult_le_compat_r; lra.
Qed.

(** What [entry_levels] promises about accepted levels: the stop protects the position (it is
    never on the profit side of the entry and never free), a long's target is a profit, a
    short's target is a positive price that is not a loss. *)
Definition protective_levels (side : PositionSide) (entry : decimal) (levels : EntryLevels) : Prop :=
  match side with
  | LONG => (0 < val (stop_price levels) ∧ val (stop_price levels) <= val entry)%Q ∧
            ∀ target, target_price levels = Some target -> (val entry < val target)%Q
  | SHORT => (val entry < val (stop_price levels))%Q ∧
             ∀ target, target_price levels = Some target ->
               (0 < val target ∧ val target <= val entry)%Q
  end.

(** Every pair of levels [entry_levels] accepts is protective, with and without a venue
    increment, whatever the roundings did. *)
Lemma entry_levels_protective side entry dist multiple inc levels :
  quotable inc entry ->
  (∀ m, multiple = Some m -> (0 <= val m)%Q) ->
  entry_levels side entry dist multiple inc = Ok (Sized levels) ->
  protective_levels side entry levels.
Proof.
  intros Hq Hm. unfold entry_levels. pose proof prec_pos as Hp.
  destruct (entry <=? d0)%dec eqn:He; [done|]. destruct (dist <=? d0)%dec eqn:Hd; [done|].
  dec_cmp. change (val d0) with 0%Q in *. destruct Hq as [Hrep Hgrid].
  destruct side.
  - intros (stop & Hs & Hk)%bind_Ok. destruct (stop <=? d0)%dec eqn:H0; [done|]. dec_cmp.
    change (val d0) with 0%Q in *.
    assert (Hcap : (val stop <= val entry)%Q).
    { eapply snap_down_cap; [by split| |..|exact Hs]; [done|].
      eapply rounds_le; [apply sub_rounds|done|lra]. }
    destruct multiple as [m|]; [|injection Hk as <-; by split].
    apply bind_Ok in Hk as (target & Ht & Hk).
    destruct (target <=? entry)%dec eqn:Hte; [done|]. injection Hk as <-. dec_cmp.
    split; [done|]. by intros ? [= <-].
  - intros (stop & Hs & (target & Ht & Hk)%bind_Ok)%bind_Ok.
    destruct target as [target|]; [|done]. destruct (stop <=? entry)%dec eqn:H0; [done|].
    injection Hk as <-. dec_cmp. split; [done|]. cbn [target_price]. intros t ->.
    destruct multiple as [m|]; [|done]. apply bind_Ok in Ht as (x & Hx & Ht).
    destruct (x <=? d0)%dec eqn:Hx0; [done|]. injection Ht as ->. dec_cmp. split; [done|].
    eapply snap_down_cap; [by split| |..|exact Hx]; [done|].
    eapply rounds_le; [apply sub_rounds|done|].
    assert (0 <= val (dist * m)%dec)%Q; [|lra].
    refine (rounds_nonneg _ _ Hp (mul_rounds dist m) _). apply Qmult_le_0_compat; [lra|by apply Hm].
Qed.

(** Without a venue increment the geometry never raises. *)
Lemma entry_levels_total side entry dist multiple : is_ok (entry_levels side entry dist multiple None).
Proof.
  unfold entry_levels, is_ok. destruct (_ <=? _)%dec; [by eexists|]. destruct (dist <=? _)%dec; [by eexists|].
  destruct side; cbn; [destruct (_ <=? d0)%dec; [by eexists|]|]; destruct multiple; cbn;
    repeat case_match; cbn; eauto; by eexists.
Qed.

End SnapFacts.

(** ** Snapping of short levels *)

(** The doc comment of [entry_levels] says the stop is snapped away from entry and the target
    toward it. For a short the code does the reverse: at entry 100 and increment 1, a stop
    distance of 1.4 rests the stop at 101 (closer than 101.4), and the target asked at 98.6
    rests at 98 (further away). *)
Lemma short_levels_snap_reversed :
  @entry_levels default_context SHORT (of_Z 100) (Dec 14 (-1)) (Some d1) (Some d1) =
    Ok (Sized {| stop_price := of_Z 101; target_price := Some (of_Z 98) |}).
Proof. vm_compute. reflexivity. Qed.

(** The bar bucket of a fill is the bar that contains it: its start is a multiple of the
    interval and the fill lies in the half-open bar. *)
Lemma entry_bar_bucket_contains fill_time timeframe bucket interval :
  parse_candle_interval timeframe = Ok interval ->
  entry_bar_bucket fill_time timeframe = Ok bucket ->
  (duration interval | bucket) ∧ bucket <= fill_time < bucket + duration interval.
Proof.
  intros Hi. unfold entry_bar_bucket. rewrite Hi. cbn [mbind result_bind].
  rewrite align_closed_end_spec. cbn [mbind result_bind]. intros [= <-].
  pose proof (duration_pos interval) as Hd. rewrite truncate_minute.
  assert (Hk : duration interval = duration interval / minute * minute) by (by destruct interval).
  set (k := duration interval / minute) in *. assert (Hk0 : 0 < k) by (by destruct interval).
  assert (Hb : fill_time / minute * minute / duration interval = fill_time / duration interval).
  { rewrite Hk, (Z.mul_comm k), <- !Z.div_div, Z.div_mul by (done || lia). done. }
  replace (fill_time / minute * minute + duration interval)
    with (fill_time / minute * minute + 1 * duration interval) by lia.
  rewrite Z.div_add, Hb by lia. set (b := fill_time / duration interval).
  replace ((b + 1) * duration interval - duration interval) with (b * duration interval) by lia.
  split; [by exists b|]. pose proof (Z.div_mod fill_time (duration interval) ltac:(lia)).
  pose proof (Z.mod_pos_bound fill_time (duration interval) Hd). fold b in H. lia.
Qed.
