(* ===== verification/IndicatorSpec.v ===== *)
(** * IndicatorSpec: declared indicators ([strategies/schema/indicator_*.py])

    The registry of indicator kinds, their parameter blocks and output series, the validators
    an indicator declaration passes, and the minimum warmup of every kind. Periods are
    naturals (every period field is bounded below by the schema); a text-valued parameter is
    the decimal its text denotes. A validator is a [result unit]: [Ok tt] accepts. *)

From S2P Require Import Prelude Decimals.

Open Scope nat_scope.

Inductive IndicatorKind :=
  | EMA | SMA | RSI | ATR | VOLUME_SMA | HIGHEST | LOWEST | STDEV | ROC | WILLIAMS_R | CCI
  | IDENTITY | CONSTANT | WMA | MOMENTUM | MFI | MACD | BOLLINGER | STDEV_SAMPLE | STOCHASTIC
  | ADX | DEMA | TEMA | HMA | KAMA | VWMA | SUPERTREND | PARABOLIC_SAR | AROON | ICHIMOKU
  | VORTEX | LINEAR_REGRESSION | TRIX | STOCHASTIC_RSI | PPO | ULTIMATE_OSCILLATOR
  | AWESOME_OSCILLATOR | CMO | TSI | KELTNER | DONCHIAN | BOLLINGER_PERCENT_B
  | BOLLINGER_BANDWIDTH | NATR | CHOPPINESS | HISTORICAL_VOLATILITY | OBV | CMF
  | ACCUMULATION_DISTRIBUTION | VWAP | FORCE_INDEX | ZSCORE | PERCENT_RANK.

(** [kind.value] *)
Definition kind_value (kind : IndicatorKind) : string :=
  match kind with
  | EMA => "ema"
  | SMA => "sma"
  | RSI => "rsi"
  | ATR => "atr"
  | VOLUME_SMA => "volume_sma"
  | HIGHEST => "highest"
  | LOWEST => "lowest"
  | STDEV => "stdev"
  | ROC => "roc"
  | WILLIAMS_R => "williams_r"
  | CCI => "cci"
  | IDENTITY => "identity"
  | CONSTANT => "constant"
  | WMA => "wma"
  | MOMENTUM => "momentum"
  | MFI => "mfi"
  | MACD => "macd"
  | BOLLINGER => "bollinger"
  | STDEV_SAMPLE => "stdev_sample"
  | STOCHASTIC => "stochastic"
  | ADX => "adx"
  | DEMA => "dema"
  | TEMA => "tema"
  | HMA => "hma"
  | KAMA => "kama"
  | VWMA => "vwma"
  | SUPERTREND => "supertrend"
  | PARABOLIC_SAR => "parabolic_sar"
  | AROON => "aroon"
  | ICHIMOKU => "ichimoku"
  | VORTEX => "vortex"
  | LINEAR_REGRESSION => "linear_regression"
  | TRIX => "trix"
  | STOCHASTIC_RSI => "stochastic_rsi"
  | PPO => "ppo"
  | ULTIMATE_OSCILLATOR => "ultimate_oscillator"
  | AWESOME_OSCILLATOR => "awesome_oscillator"
  | CMO => "cmo"
  | TSI => "tsi"
  | KELTNER => "keltner"
  | DONCHIAN => "donchian"
  | BOLLINGER_PERCENT_B => "bollinger_percent_b"
  | BOLLINGER_BANDWIDTH => "bollinger_bandwidth"
  | NATR => "natr"
  | CHOPPINESS => "choppiness"
  | HISTORICAL_VOLATILITY => "historical_volatility"
  | OBV => "obv"
  | CMF => "cmf"
  | ACCUMULATION_DISTRIBUTION => "accumulation_distribution"
  | VWAP => "vwap"
  | FORCE_INDEX => "force_index"
  | ZSCORE => "zscore"
  | PERCENT_RANK => "percent_rank"
  end.

#[global] Instance IndicatorKind_eq_dec : EqDecision IndicatorKind.
Proof. solve_decision. Defined.

(** The union of the parameter models; one constructor per class. *)
Inductive IndicatorParameterBlock :=
  | IndicatorParameters (period : nat)
  | MacdIndicatorParameters (fast_period slow_period signal_period : nat)
  | BollingerIndicatorParameters (period : nat) (stdev_multiplier : decimal)
  | StochasticIndicatorParameters (k_period d_period : nat)
  | ConstantIndicatorParameters (value : decimal)
  | EmptyIndicatorParameters
  | KamaIndicatorParameters (period fast_period slow_period : nat)
  | SupertrendIndicatorParameters (period : nat) (multiplier : decimal)
  | ParabolicSarIndicatorParameters (step max_step : decimal)
  | IchimokuIndicatorParameters (tenkan_period kijun_period senkou_b_period : nat)
  | StochasticRsiIndicatorParameters (rsi_period stoch_period k_period d_period : nat)
  | UltimateOscillatorIndicatorParameters (short_period medium_period long_period : nat)
  | AwesomeOscillatorIndicatorParameters (fast_period slow_period : nat)
  | TsiIndicatorParameters (long_period short_period signal_period : nat)
  | KeltnerIndicatorParameters (period atr_period : nat) (multiplier : decimal)
  | HistoricalVolatilityIndicatorParameters (period : nat) (annualization_periods : Z)
  | SignalLineIndicatorParameters (signal_period : nat).

(** [Field(ge=low, le=high)] *)
Definition in_range (low high n : nat) : bool := (low <=? n) && (n <=? high).

Definition _require_band_multiplier (value : decimal) : bool :=
  ((d0 <? value) && (value <=? of_Z 10))%dec.

(** Field bounds and model validators of every parameter class. *)
Definition valid_parameters (p : IndicatorParameterBlock) : bool :=
  match p with
  | IndicatorParameters period => in_range 2 500 period
  | MacdIndicatorParameters fast slow signal =>
      in_range 2 500 fast && in_range 2 500 slow && in_range 2 500 signal && (fast <? slow)
  | BollingerIndicatorParameters period m => in_range 2 500 period && _require_band_multiplier m
  | StochasticIndicatorParameters k d => in_range 2 100 k && in_range 2 500 d
  | ConstantIndicatorParameters _ => true
  | EmptyIndicatorParameters => true
  | KamaIndicatorParameters period fast slow =>
      in_range 2 100 period && in_range 2 100 fast && in_range 2 500 slow && (fast <? slow)
  | SupertrendIndicatorParameters period m => in_range 2 100 period && _require_band_multiplier m
  | ParabolicSarIndicatorParameters step max_step =>
      ((d0 <? step) && (max_step <=? d1) && (step <=? max_step))%dec
  | IchimokuIndicatorParameters t k s =>
      in_range 2 500 t && in_range 2 500 k && in_range 2 500 s && (t <? k) && (k <? s)
  | StochasticRsiIndicatorParameters r s k d =>
      in_range 2 100 r && in_range 2 100 s && in_range 1 100 k && in_range 1 100 d
  | UltimateOscillatorIndicatorParameters s m l =>
      in_range 2 100 s && in_range 2 100 m && in_range 2 100 l && (s <? m) && (m <? l)
  | AwesomeOscillatorIndicatorParameters fast slow =>
      in_range 2 500 fast && in_range 2 500 slow && (fast <? slow)
  | TsiIndicatorParameters long short signal =>
      in_range 2 500 long && in_range 2 500 short && in_range 2 500 signal && (short <? long)
  | KeltnerIndicatorParameters period atr m =>
      in_range 2 500 period && in_range 2 100 atr && _require_band_multiplier m
  | HistoricalVolatilityIndicatorParameters period a => in_range 2 500 period && (1 <=? a)%Z && (a <=? 525600)%Z
  | SignalLineIndicatorParameters signal => in_range 2 500 signal
  end.

(** ** Inputs *)

Inductive source_field := open_field | high_field | low_field | close_field | volume_field.

#[global] Instance source_field_eq_dec : EqDecision source_field.
Proof. solve_decision. Defined.

(** A single field name, or a canonical tuple of names. *)
Inductive indicator_input :=
  | SingleField (f : source_field)
  | TupleFields (l : list source_field).

#[global] Instance indicator_input_eq_dec : EqDecision indicator_input.
Proof. solve_decision. Defined.

Definition HLC_INPUT : list source_field := [high_field; low_field; close_field].
Definition HLCV_INPUT : list source_field := [high_field; low_field; close_field; volume_field].
Definition HL_INPUT : list source_field := [high_field; low_field].
Definition CLOSE_VOLUME_INPUT : list source_field := [close_field; volume_field].
Definition MAX_INDICATOR_OFFSET : nat := 500.

Definition _SINGLE_SOURCE_INPUT (kind : IndicatorKind) : option source_field :=
  match kind with
  | RSI | MACD | BOLLINGER | TRIX | STOCHASTIC_RSI | PPO | CMO | TSI | BOLLINGER_PERCENT_B
  | BOLLINGER_BANDWIDTH | HISTORICAL_VOLATILITY => Some close_field
  | VOLUME_SMA => Some volume_field
  | _ => None
  end.

Definition _CONFIGURABLE_SINGLE_SOURCE_KINDS (kind : IndicatorKind) : bool :=
  match kind with
  | EMA | SMA | HIGHEST | LOWEST | STDEV | STDEV_SAMPLE | ROC | WMA | MOMENTUM | DEMA | TEMA
  | HMA | KAMA | LINEAR_REGRESSION | ZSCORE | PERCENT_RANK => true
  | _ => false
  end.

Definition _LOCKED_TUPLE_INPUT (kind : IndicatorKind) : option (list source_field) :=
  match kind with
  | ATR | WILLIAMS_R | CCI | STOCHASTIC | ADX | SUPERTREND | VORTEX | ULTIMATE_OSCILLATOR
  | KELTNER | NATR | CHOPPINESS => Some HLC_INPUT
  | MFI | CMF | ACCUMULATION_DISTRIBUTION | VWAP => Some HLCV_INPUT
  | VWMA | OBV | FORCE_INDEX => Some CLOSE_VOLUME_INPUT
  | PARABOLIC_SAR | AROON | ICHIMOKU | AWESOME_OSCILLATOR | DONCHIAN => Some HL_INPUT
  | _ => None
  end.

Definition _SHORT_PERIOD_KINDS (kind : IndicatorKind) : bool :=
  match kind with
  | RSI | ATR | WILLIAMS_R | CCI | MFI | ADX | CMO | NATR => true
  | _ => false
  end.

(** ** Declarations *)

Record IndicatorDefinition := mk_indicator {
  ind_id : string;
  kind : IndicatorKind;
  input : option indicator_input;
  parameters : IndicatorParameterBlock;
  ind_timeframe : option string;
  offset : option nat;
  ind_source : option string
}.

Definition indicator_offset (indicator : IndicatorDefinition) : nat := default 0 (offset indicator).

Definition normalize_zero_offset (value : option nat) : option nat :=
  match value with Some O => None | _ => value end.

Definition indicator_output_series (kind : IndicatorKind) : option (list string) :=
  match kind with
  | MACD => Some ["macd"; "signal"; "histogram"]
  | BOLLINGER => Some ["middle"; "upper"; "lower"]
  | STOCHASTIC | STOCHASTIC_RSI => Some ["k"; "d"]
  | ADX => Some ["adx"; "plus_di"; "minus_di"]
  | SUPERTREND => Some ["value"; "direction"]
  | AROON => Some ["up"; "down"; "oscillator"]
  | ICHIMOKU => Some ["tenkan"; "kijun"; "senkou_a"; "senkou_b"]
  | VORTEX => Some ["plus"; "minus"]
  | LINEAR_REGRESSION => Some ["value"; "slope"]
  | PPO => Some ["ppo"; "signal"; "histogram"]
  | TSI => Some ["tsi"; "signal"]
  | KELTNER | DONCHIAN => Some ["upper"; "middle"; "lower"]
  | OBV => Some ["obv"; "signal"]
  | ACCUMULATION_DISTRIBUTION => Some ["ad"; "signal"]
  | _ => None
  end.

(** [f"{indicator.id}.{name}"] *)
Definition series_key (id name : string) : string := (id +:+ "." +:+ name)%string.

Definition indicator_value_keys (indicator : IndicatorDefinition) : list string :=
  match indicator_output_series (kind indicator) with
  | None => [ind_id indicator]
  | Some series => series_key (ind_id indicator) <$> series
  end.

(** ** Validation *)

Definition is_empty_parameters (p : IndicatorParameterBlock) : bool :=
  match p with EmptyIndicatorParameters => true | _ => false end.
Definition is_constant_parameters (p : IndicatorParameterBlock) : bool :=
  match p with ConstantIndicatorParameters _ => true | _ => false end.

(** [indicator.input in _IDENTITY_INPUTS] *)
Definition is_identity_input (i : option indicator_input) : bool :=
  match i with Some (SingleField _) => true | _ => false end.

Definition _require_identity_indicator (indicator : IndicatorDefinition) : result unit :=
  _ ← guard_or (is_empty_parameters (parameters indicator))
        (ValueError "identity parameters must be an empty object");
  guard_or (is_identity_input (input indicator))
    (ValueError "identity input must be one of open, high, low, close, volume").

Definition _require_constant_indicator (indicator : IndicatorDefinition) : result unit :=
  _ ← guard_or (is_constant_parameters (parameters indicator))
        (ValueError "constant parameters must declare value");
  _ ← guard_or (bool_decide (input indicator = None)) (ValueError "constant must omit input");
  _ ← guard_or (bool_decide (ind_timeframe indicator = None)) (ValueError "constant must omit timeframe");
  _ ← guard_or (bool_decide (offset indicator = None)) (ValueError "constant must omit offset");
  guard_or (bool_decide (ind_source indicator = None)) (ValueError "constant must omit source").

(** The messages that list a kind's locked input are abbreviated to the kind. *)
Definition _require_locked_source (indicator : IndicatorDefinition) : result unit :=
  let k := kind indicator in
  match _LOCKED_TUPLE_INPUT k with
  | Some locked =>
      guard_or (bool_decide (input indicator = Some (TupleFields locked)))
        (ValueError (kind_value k +:+ " input must be the locked fields in canonical order"))
  | None =>
      if _CONFIGURABLE_SINGLE_SOURCE_KINDS k then
        guard_or (is_identity_input (input indicator))
          (ValueError (kind_value k +:+ " input must be one of open, high, low, close, volume"))
      else match _SINGLE_SOURCE_INPUT k with
      | None => Raise KeyError
      | Some expected =>
          guard_or (bool_decide (input indicator = Some (SingleField expected)))
            (ValueError (kind_value k +:+ " input must be its locked field"))
      end
  end.

Definition _require_period_indicator (indicator : IndicatorDefinition) : result unit :=
  let k := kind indicator in
  match parameters indicator with
  | IndicatorParameters period =>
      let maximum := if _SHORT_PERIOD_KINDS k then 100 else 500 in
      _ ← guard_or (period <=? maximum) (ValueError (kind_value k +:+ " period exceeds its maximum"));
      _require_locked_source indicator
  | _ => Raise (ValueError (kind_value k +:+ " parameters must declare period"))
  end.

(** [_PARAMETER_SHAPES.get(kind)]: the classes the kind's parameters must belong to. *)
Definition _PARAMETER_SHAPES (kind : IndicatorKind) : option (IndicatorParameterBlock → bool) :=
  match kind with
  | MACD | PPO => Some (λ p, match p with MacdIndicatorParameters _ _ _ => true | _ => false end)
  | BOLLINGER | BOLLINGER_PERCENT_B | BOLLINGER_BANDWIDTH =>
      Some (λ p, match p with BollingerIndicatorParameters _ _ => true | _ => false end)
  | STOCHASTIC => Some (λ p, match p with StochasticIndicatorParameters _ _ => true | _ => false end)
  | KAMA => Some (λ p, match p with KamaIndicatorParameters _ _ _ => true | _ => false end)
  | SUPERTREND => Some (λ p, match p with SupertrendIndicatorParameters _ _ => true | _ => false end)
  | PARABOLIC_SAR =>
      Some (λ p, match p with ParabolicSarIndicatorParameters _ _ => true | _ => false end)
  | ICHIMOKU => Some (λ p, match p with IchimokuIndicatorParameters _ _ _ => true | _ => false end)
  | STOCHASTIC_RSI =>
      Some (λ p, match p with StochasticRsiIndicatorParameters _ _ _ _ => true | _ => false end)
  | ULTIMATE_OSCILLATOR =>
      Some (λ p, match p with UltimateOscillatorIndicatorParameters _ _ _ => true | _ => false end)
  | AWESOME_OSCILLATOR =>
      Some (λ p, match p with AwesomeOscillatorIndicatorParameters _ _ => true | _ => false end)
  | TSI => Some (λ p, match p with TsiIndicatorParameters _ _ _ => true | _ => false end)
  | KELTNER => Some (λ p, match p with KeltnerIndicatorParameters _ _ _ => true | _ => false end)
  | HISTORICAL_VOLATILITY =>
      Some (λ p, match p with
                 | IndicatorParameters _ | HistoricalVolatilityIndicatorParameters _ _ => true
                 | _ => false end)
  | OBV | ACCUMULATION_DISTRIBUTION =>
      Some (λ p, match p with SignalLineIndicatorParameters _ => true | _ => false end)
  | _ => None
  end.

Definition validate_kind_period (indicator : IndicatorDefinition) : result unit :=
  if bool_decide (ind_source indicator ≠ None) && bool_decide (ind_timeframe indicator ≠ None)
  then Raise (ValueError "an indicator with source must omit timeframe: it reads the reference instrument's timeframe")
  else match kind indicator with
  | IDENTITY => _require_identity_indicator indicator
  | CONSTANT => _require_constant_indicator indicator
  | k =>
      match _PARAMETER_SHAPES k with
      | None => _require_period_indicator indicator
      | Some shape =>
          _ ← guard_or (shape (parameters indicator)) (ValueError (kind_value k +:+ " parameters"));
          _require_locked_source indicator
      end
  end.

(** A declaration that reaches the engine: field bounds and the model validator passed. *)
Definition valid_indicator (indicator : IndicatorDefinition) : Prop :=
  valid_parameters (parameters indicator) = true ∧ validate_kind_period indicator = Ok tt.

Definition _indicator_input_fields (indicator : IndicatorDefinition) : list source_field :=
  match input indicator with
  | None => []
  | Some (SingleField f) => [f]
  | Some (TupleFields l) => l
  end.

(** ** Minimum warmup ([indicator_warmup.py]) *)

Definition parameters_error : error := ValueError "indicator parameters must be the declared model".

Definition _period_of (p : IndicatorParameterBlock) : result nat :=
  match p with
  | HistoricalVolatilityIndicatorParameters period _ => Ok period
  | IndicatorParameters period => Ok period
  | _ => Raise parameters_error
  end.

Definition _macd_warmup (p : IndicatorParameterBlock) : result nat :=
  match p with
  | MacdIndicatorParameters _ slow signal => Ok (slow + signal - 1)
  | _ => Raise parameters_error
  end.

Definition _bollinger_warmup (p : IndicatorParameterBlock) : result nat :=
  match p with BollingerIndicatorParameters period _ => Ok period | _ => Raise parameters_error end.

Definition _stochastic_warmup (p : IndicatorParameterBlock) : result nat :=
  match p with StochasticIndicatorParameters k d => Ok (k + d - 1) | _ => Raise parameters_error end.

Definition _adx_warmup (p : IndicatorParameterBlock) : result nat := n ← _period_of p; Ok (2 * n - 1).
Definition _dema_warmup (p : IndicatorParameterBlock) : result nat := n ← _period_of p; Ok (2 * n - 1).
Definition _tema_warmup (p : IndicatorParameterBlock) : result nat := n ← _period_of p; Ok (3 * n - 2).
Definition _trix_warmup (p : IndicatorParameterBlock) : result nat := n ← _period_of p; Ok (3 * n - 1).
Definition _hma_warmup (p : IndicatorParameterBlock) : result nat :=
  n ← _period_of p; Ok (n + Nat.sqrt n - 1).

Definition _kama_warmup (p : IndicatorParameterBlock) : result nat :=
  match p with KamaIndicatorParameters period _ _ => Ok (period + 1) | _ => Raise parameters_error end.

Definition _supertrend_warmup (p : IndicatorParameterBlock) : result nat :=
  match p with SupertrendIndicatorParameters period _ => Ok period | _ => Raise parameters_error end.

Definition _parabolic_sar_warmup (p : IndicatorParameterBlock) : result nat :=
  match p with ParabolicSarIndicatorParameters _ _ => Ok 2 | _ => Raise parameters_error end.

Definition _ichimoku_warmup (p : IndicatorParameterBlock) : result nat :=
  match p with
  | IchimokuIndicatorParameters t k s => Ok (Nat.max (Nat.max t k) s)
  | _ => Raise parameters_error
  end.

Definition _stochastic_rsi_warmup (p : IndicatorParameterBlock) : result nat :=
  match p with
  | StochasticRsiIndicatorParameters r s k d => Ok (r + s + k + d - 2)
  | _ => Raise parameters_error
  end.

Definition _ultimate_oscillator_warmup (p : IndicatorParameterBlock) : result nat :=
  match p with
  | UltimateOscillatorIndicatorParameters _ _ long => Ok (long + 1)
  | _ => Raise parameters_error
  end.

Definition _awesome_oscillator_warmup (p : IndicatorParameterBlock) : result nat :=
  match p with AwesomeOscillatorIndicatorParameters _ slow => Ok slow | _ => Raise parameters_error end.

Definition _tsi_warmup (p : IndicatorParameterBlock) : result nat :=
  match p with
  | TsiIndicatorParameters long short signal => Ok (long + short + signal - 1)
  | _ => Raise parameters_error
  end.

Definition _keltner_warmup (p : IndicatorParameterBlock) : result nat :=
  match p with KeltnerIndicatorParameters n a _ => Ok (Nat.max n a) | _ => Raise parameters_error end.

Definition _historical_volatility_warmup (p : IndicatorParameterBlock) : result nat :=
  n ← _period_of p; Ok (n + 1).

Definition _signal_line_warmup (p : IndicatorParameterBlock) : result nat :=
  match p with SignalLineIndicatorParameters n => Ok n | _ => Raise parameters_error end.

(** [_WARMUP_RULES.get(kind)] *)
Definition _WARMUP_RULES (kind : IndicatorKind) : option (IndicatorParameterBlock → result nat) :=
  match kind with
  | MACD | PPO => Some _macd_warmup
  | BOLLINGER | BOLLINGER_PERCENT_B | BOLLINGER_BANDWIDTH => Some _bollinger_warmup
  | STOCHASTIC => Some _stochastic_warmup
  | ADX => Some _adx_warmup
  | DEMA => Some _dema_warmup
  | TEMA => Some _tema_warmup
  | TRIX => Some _trix_warmup
  | HMA => Some _hma_warmup
  | KAMA => Some _kama_warmup
  | SUPERTREND => Some _supertrend_warmup
  | PARABOLIC_SAR => Some _parabolic_sar_warmup
  | ICHIMOKU => Some _ichimoku_warmup
  | STOCHASTIC_RSI => Some _stochastic_rsi_warmup
  | ULTIMATE_OSCILLATOR => Some _ultimate_oscillator_warmup
  | AWESOME_OSCILLATOR => Some _awesome_oscillator_warmup
  | TSI => Some _tsi_warmup
  | KELTNER => Some _keltner_warmup
  | HISTORICAL_VOLATILITY => Some _historical_volatility_warmup
  | OBV | ACCUMULATION_DISTRIBUTION => Some _signal_line_warmup
  | _ => None
  end.

Definition _LOOKBACK_WARMUP_KINDS (kind : IndicatorKind) : bool :=
  match kind with
  | RSI | ROC | MOMENTUM | MFI | AROON | VORTEX | CMO | FORCE_INDEX | PERCENT_RANK
  | HISTORICAL_VOLATILITY => true
  | _ => false
  end.

Definition _UNIT_WARMUP_KINDS (kind : IndicatorKind) : bool :=
  match kind with IDENTITY | CONSTANT => true | _ => false end.

Definition _base_min_warmup (indicator : IndicatorDefinition) : result nat :=
  let k := kind indicator in
  if _UNIT_WARMUP_KINDS k then Ok 1
  else match _WARMUP_RULES k with
  | Some rule => rule (parameters indicator)
  | None =>
      let extra := if _LOOKBACK_WARMUP_KINDS k then 1 else 0 in
      match parameters indicator with
      | IndicatorParameters period => Ok (period + extra)
      | _ => Raise parameters_error
      end
  end.

Definition _indicator_min_warmup (indicator : IndicatorDefinition) : result nat :=
  base ← _base_min_warmup indicator; Ok (base + indicator_offset indicator).
Definition indicator_min_warmup := _indicator_min_warmup.

(** ** Validated declarations *)

(** The parameter class a validated declaration has, by kind: what the [_parameters_of]
    narrowings of the engine rely on. *)
Lemma valid_indicator_shape indicator shape : valid_indicator indicator ->
  _PARAMETER_SHAPES (kind indicator) = Some shape -> shape (parameters indicator) = true.
Proof.
  intros [_ Hv] Hs. unfold validate_kind_period in Hv. destruct (_ && _); [done|].
  destruct (kind indicator) eqn:Hk; try discriminate Hs; rewrite Hs in Hv; cbn in Hv;
    by destruct (shape _).
Qed.

Lemma valid_indicator_period indicator : valid_indicator indicator ->
  _PARAMETER_SHAPES (kind indicator) = None -> _UNIT_WARMUP_KINDS (kind indicator) = false ->
  ∃ period, parameters indicator = IndicatorParameters period ∧ 2 <= period.
Proof.
  intros [Hp Hv] Hs Hu. unfold validate_kind_period in Hv. destruct (_ && _); [done|].
  assert (Hr : _require_period_indicator indicator = Ok tt)
    by (destruct (kind indicator) eqn:Hk; try discriminate Hu; try discriminate Hs; exact Hv).
  unfold _require_period_indicator in Hr. destruct (parameters indicator); try discriminate Hr.
  eexists. split; [done|]. cbn in Hp. unfold in_range in Hp.
  apply andb_prop_iff in Hp as [?%Nat.leb_le _]. done.
Qed.

Ltac bounds_of H :=
  unfold in_range in H;
  repeat match goal with
  | H : _ && _ = true |- _ => apply andb_prop_iff in H as [? ?]
  | H : (_ <=? _)%nat = true |- _ => apply Nat.leb_le in H
  | H : (_ <? _)%nat = true |- _ => apply Nat.ltb_lt in H
  end.

Lemma base_warmup_positive indicator : valid_indicator indicator ->
  ∃ bars, _base_min_warmup indicator = Ok bars ∧ 1 <= bars.
Proof.
  intros Hv. unfold _base_min_warmup.
  destruct (_UNIT_WARMUP_KINDS (kind indicator)) eqn:Hu; [by eexists|].
  pose proof (proj1 Hv) as Hp.
  destruct (_PARAMETER_SHAPES (kind indicator)) as [shape|] eqn:Hs.
  - pose proof (valid_indicator_shape _ _ Hv Hs) as Hsh.
    destruct (kind indicator) eqn:Hk; try discriminate Hs; injection Hs as <-;
      destruct (parameters indicator); try discriminate Hsh; cbn in Hp; bounds_of Hp;
      (eexists; split; [reflexivity|]; lia).
  - destruct (valid_indicator_period _ Hv Hs Hu) as (n & Hn & H2). rewrite Hn.
    destruct (kind indicator) eqn:Hk; try discriminate Hs; try discriminate Hu;
      (eexists; split; [reflexivity|]; cbn; lia).
Qed.

(** The warmup of a validated declaration exists: the rule of its kind never meets a
    parameter block of another kind, and asks for at least one bar on top of the bar lag. *)
Lemma valid_indicator_warmup indicator : valid_indicator indicator ->
  ∃ bars, indicator_min_warmup indicator = Ok bars ∧ 1 + indicator_offset indicator <= bars.
Proof.
  intros Hv. destruct (base_warmup_positive _ Hv) as (bars & Hb & H1). unfold indicator_min_warmup, _indicator_min_warmup.
  rewrite Hb. eexists. split; [reflexivity|]. lia.
Qed.
