(* ===== verification/Conditions.v ===== *)
(** * Conditions: bounded rule trees and their three-valued evaluation

    [strategies/schema/conditions.py] declares the trees; [_evaluate_condition] and its
    helpers in [evaluation/signal_evaluator.py] decide them on one completed bar. A row of
    indicator values is a dict from value keys to optional decimals. *)

From stdpp Require Import pretty.
From S2P Require Import Prelude Decimals DecimalFacts IndicatorSpec.

Open Scope Z_scope.

(** [Mapping[str, Decimal | None]] *)
Notation values := (gmap string (option decimal)).

(** [row.get(key)]: a missing key and an undefined value read the same. *)
Definition row_get (row : values) (key : string) : option decimal := mjoin (row !! key).

Record IndicatorOperand := mk_operand {
  indicator : string;
  series : option string;
  operand_offset : option nat
}.

#[global] Instance IndicatorOperand_eq_dec : EqDecision IndicatorOperand.
Proof. solve_decision. Defined.

Definition operand_value_key (operand : IndicatorOperand) : string :=
  let key := match series operand with
             | None => indicator operand
             | Some s => series_key (indicator operand) s
             end in
  match operand_offset operand with
  | None => key
  | Some n => (key +:+ "@" +:+ pretty (N.of_nat n))%string
  end.

(** A literal is the decimal its validated text denotes. *)
Inductive ConditionOperand :=
  | Indicator (o : IndicatorOperand)
  | LiteralOperand (literal : decimal).

Inductive ComparisonOperator := GT | GTE | LT | LTE | EQ | CROSSES_ABOVE | CROSSES_BELOW.

#[global] Instance ComparisonOperator_eq_dec : EqDecision ComparisonOperator.
Proof. solve_decision. Defined.

Record ComparisonCondition := mk_comparison {
  left : ConditionOperand;
  operator : ComparisonOperator;
  right : ConditionOperand
}.

Inductive ConditionNode :=
  | Comparison (c : ComparisonCondition)
  | AllCondition (all : list ConditionNode)
  | AnyCondition (any : list ConditionNode)
  | NotCondition (not_ : ConditionNode).

Definition is_indicator_operand (o : ConditionOperand) : bool :=
  match o with Indicator _ => true | LiteralOperand _ => false end.

Definition is_crossing (o : ComparisonOperator) : bool :=
  match o with CROSSES_ABOVE | CROSSES_BELOW => true | _ => false end.

Definition validate_cross_operands (c : ComparisonCondition) : result unit :=
  if is_crossing (operator c) then
    _ ← guard_or (is_indicator_operand (left c))
          (ValueError "crossover left operand must reference an indicator");
    guard_or (is_indicator_operand (right c))
      (ValueError "crossover right operand must reference an indicator")
  else Ok tt.

(** ** Tree queries *)

Fixpoint _comparison_conditions (condition : ConditionNode) : list ComparisonCondition :=
  match condition with
  | Comparison c => [c]
  | NotCondition n => _comparison_conditions n
  | AllCondition l | AnyCondition l => concat (map _comparison_conditions l)
  end.

(** [(node count, depth)]; the schema keeps every child tuple non-empty, where Python's
    [max] agrees with the fold from zero. *)
Fixpoint _condition_tree_size (condition : ConditionNode) : nat * nat :=
  match condition with
  | Comparison _ => (1, 1)%nat
  | NotCondition n => let '(nodes, depth) := _condition_tree_size n in (nodes + 1, depth + 1)%nat
  | AllCondition l | AnyCondition l =>
      let sizes := map _condition_tree_size l in
      (1 + sum_list (map fst sizes), 1 + fold_left Nat.max (map snd sizes) 0)%nat
  end.

Definition _MAX_CONDITION_DEPTH : nat := 4.
Definition _MAX_CONDITION_NODES : nat := 64.

Definition _require_bounded_condition_tree (condition : ConditionNode) : result unit :=
  let '(node_count, depth) := _condition_tree_size condition in
  if (_MAX_CONDITION_DEPTH <? depth)%nat then Raise (ValueError "condition tree depth exceeds 4")
  else if (_MAX_CONDITION_NODES <? node_count)%nat
  then Raise (ValueError "condition tree node count exceeds 64")
  else Ok tt.

(** [dict.fromkeys(items)]: the distinct items, in encounter order. *)
Definition from_keys {A} `{EqDecision A} (l : list A) : list A :=
  fold_left (λ acc x, if bool_decide (x ∈ acc) then acc else acc ++ [x]) l [].

Definition operand_reads (o : ConditionOperand) : list IndicatorOperand :=
  match o with Indicator i => [i] | LiteralOperand _ => [] end.

Definition comparison_reads (c : ComparisonCondition) : list IndicatorOperand :=
  operand_reads (left c) ++ operand_reads (right c).

Definition condition_indicator_operands (condition : ConditionNode) : list IndicatorOperand :=
  from_keys (concat (map comparison_reads (_comparison_conditions condition))).

Definition _referenced_indicator_ids (condition : ConditionNode) : gset string :=
  list_to_set (map indicator (concat (map comparison_reads (_comparison_conditions condition)))).

Definition _require_operand_series (operand : IndicatorOperand) (ind : IndicatorDefinition) : result unit :=
  if bool_decide (kind ind = CONSTANT) && bool_decide (operand_offset operand ≠ None)
  then Raise (ValueError "constant operand must omit offset")
  else match indicator_output_series (kind ind) with
  | None => guard_or (bool_decide (series operand = None))
              (ValueError (kind_value (kind ind) +:+ " operand must omit series"))
  | Some outputs =>
      guard_or (match series operand with Some s => bool_decide (s ∈ outputs) | None => false end)
        (ValueError (kind_value (kind ind) +:+ " series must be one of its outputs"))
  end.

(** ** Evaluation *)

Definition _operand_value (operand : ConditionOperand) (row : values) : option decimal :=
  match operand with
  | Indicator o => row_get row (operand_value_key o)
  | LiteralOperand d => Some d
  end.

Definition _evaluate_comparison (condition : ComparisonCondition) (current : values)
    (previous : option values) : option bool :=
  match _operand_value (left condition) current, _operand_value (right condition) current with
  | Some l, Some r =>
      match operator condition with
      | GT => Some (l >? r)%dec
      | GTE => Some (l >=? r)%dec
      | LT => Some (l <? r)%dec
      | LTE => Some (l <=? r)%dec
      | EQ => Some (l =? r)%dec
      | CROSSES_ABOVE | CROSSES_BELOW =>
          match previous with
          | None => None
          | Some previous =>
              match _operand_value (left condition) previous, _operand_value (right condition) previous with
              | Some previous_left, Some previous_right =>
                  match operator condition with
                  | CROSSES_ABOVE => Some ((previous_left <=? previous_right) && (l >? r))%dec
                  | _ => Some ((previous_left >=? previous_right) && (l <? r))%dec
                  end
              | _, _ => None
              end
          end
      end
  | _, _ => None
  end.

(** [tuple(bool(o) for o in outcomes)], or [None] when any outcome is [None]. *)
Fixpoint all_defined (outcomes : list (option bool)) : option (list bool) :=
  match outcomes with
  | [] => Some []
  | o :: rest => b ← o; bs ← all_defined rest; Some (b :: bs)
  end.

Fixpoint _evaluate_condition (condition : ConditionNode) (current : values)
    (previous : option values) : option bool :=
  match condition with
  | Comparison c => _evaluate_comparison c current previous
  | NotCondition n => negb <$> _evaluate_condition n current previous
  | AllCondition l =>
      (forallb id) <$> all_defined (map (λ child, _evaluate_condition child current previous) l)
  | AnyCondition l =>
      (existsb id) <$> all_defined (map (λ child, _evaluate_condition child current previous) l)
  end.

Inductive EntryConditionOutcome := MATCHED | NOT_MATCHED | UNDEFINED.

#[global] Instance EntryConditionOutcome_eq_dec : EqDecision EntryConditionOutcome.
Proof. solve_decision. Defined.

Definition _condition_outcome (condition : ConditionNode) (current : values)
    (previous : option values) : EntryConditionOutcome :=
  match _evaluate_condition condition current previous with
  | None => UNDEFINED
  | Some b => if b then MATCHED else NOT_MATCHED
  end.

Definition and_entry_outcomes (l r : EntryConditionOutcome) : EntryConditionOutcome :=
  match l, r with
  | UNDEFINED, _ | _, UNDEFINED => UNDEFINED
  | MATCHED, MATCHED => MATCHED
  | _, _ => NOT_MATCHED
  end.

(** ** The evaluator against a two-valued reference *)

(** Induction over trees that reaches the children of a group. *)
Lemma condition_ind (P : ConditionNode -> Prop) :
  (∀ c, P (Comparison c)) ->
  (∀ l, Forall P l -> P (AllCondition l)) ->
  (∀ l, Forall P l -> P (AnyCondition l)) ->
  (∀ n, P n -> P (NotCondition n)) -> ∀ n, P n.
Proof.
  intros Hc Ha Ho Hn. fix IH 1. intros [c|l|l|n].
  - apply Hc.
  - apply Ha. induction l; constructor; [apply IH|assumption].
  - apply Ho. induction l; constructor; [apply IH|assumption].
  - apply Hn, IH.
Qed.

(** The tree read as a proposition, given the truth of its comparisons. *)
Fixpoint satisfies (truth : ComparisonCondition -> Prop) (condition : ConditionNode) : Prop :=
  match condition with
  | Comparison c => truth c
  | NotCondition n => ¬ satisfies truth n
  | AllCondition l => fold_right and True (map (satisfies truth) l)
  | AnyCondition l => fold_right or False (map (satisfies truth) l)
  end.

Lemma all_defined_None l : all_defined l = None ↔ None ∈ l.
Proof.
  induction l as [|[b|] l IH]; cbn.
  - split; [done|]. by intros ?%elem_of_nil.
  - rewrite elem_of_cons. destruct (all_defined l) eqn:E; cbn.
    + split; [done|]. intros [?|?]; [done|]. by apply IH in H.
    + split; [|done]. intros _. right. by apply IH.
  - split; [left|done].
Qed.

Lemma all_defined_Some l bs : all_defined l = Some bs ↔ l = Some <$> bs.
Proof.
  revert bs. induction l as [|[b|] l IH]; intros bs; cbn.
  - split; [by intros [= <-]|]. by destruct bs.
  - destruct (all_defined l) as [k|] eqn:E; cbn.
    + split.
      * intros [= <-]. cbn. f_equal. by apply IH.
      * destruct bs as [|c bs]; [done|]. cbn. intros [= <- H]. apply IH in H. congruence.
    + split; [done|]. destruct bs as [|c bs]; [done|]. cbn. intros [= _ H]. apply IH in H. congruence.
  - split; [done|]. by destruct bs.
Qed.

Section Evaluation.
Context (current : values) (previous : option values).

Let eval (n : ConditionNode) : option bool := _evaluate_condition n current previous.

(** Undefinedness is never short-circuited away. *)
Lemma evaluate_None n :
  eval n = None ↔ ∃ c, c ∈ _comparison_conditions n ∧ _evaluate_comparison c current previous = None.
Proof.
  assert (Hgroup : ∀ l (g : list bool -> bool),
    Forall (λ n, eval n = None ↔ ∃ c, c ∈ _comparison_conditions n ∧
      _evaluate_comparison c current previous = None) l ->
    (g <$> all_defined (map eval l) = None ↔
     ∃ c, c ∈ concat (map _comparison_conditions l) ∧ _evaluate_comparison c current previous = None)).
  { intros l g Hl. rewrite fmap_None, all_defined_None, Forall_forall in *. split.
    - intros (n0 & Hn & Hin)%list_elem_of_fmap_1. symmetry in Hn.
      apply Hl in Hn as (c & Hc & He); [|done]. exists c. split; [|done].
      apply list_elem_of_In, in_concat. exists (_comparison_conditions n0).
      split; [by apply in_map, list_elem_of_In|by apply list_elem_of_In].
    - intros (c & Hc & He). apply list_elem_of_In, in_concat in Hc as (k & Hk & Hc).
      apply in_map_iff in Hk as (n0 & <- & Hn). apply list_elem_of_In in Hn, Hc.
      apply list_elem_of_fmap. exists n0. split; [|done]. symmetry. apply Hl; [done|]. by exists c. }
  induction n as [c|l IH|l IH|n IH] using condition_ind; cbn.
  - split; [intros; exists c; split; [by left|done]|]. by intros (? & ->%list_elem_of_singleton & ?).
  - by apply (Hgroup l (forallb id)).
  - by apply (Hgroup l (existsb id)).
  - rewrite fmap_None. exact IH.
Qed.

(** Decided trees agree with the two-valued reading. *)
Lemma evaluate_Some n b : eval n = Some b ->
  (b = true ↔ satisfies (λ c, _evaluate_comparison c current previous = Some true) n).
Proof.
  revert b. induction n as [c|l IH|l IH|n IH] using condition_ind; cbn; intros b He.
  - rewrite He. naive_solver.
  - apply fmap_Some in He as (bs & Hbs%all_defined_Some & ->).
    revert bs Hbs. induction IH as [|n l Hn Hl IHl]; intros [|c bs]; try done; cbn.
    intros [= Hc Hbs]. rewrite andb_true_iff, (IHl _ Hbs), (Hn _ Hc). done.
  - apply fmap_Some in He as (bs & Hbs%all_defined_Some & ->).
    revert bs Hbs. induction IH as [|n l Hn Hl IHl]; intros [|c bs]; try done; cbn.
    intros [= Hc Hbs]. rewrite orb_true_iff, (IHl _ Hbs), (Hn _ Hc). done.
  - apply fmap_Some in He as (c & Hc & ->). specialize (IH _ Hc). rewrite <- IH.
    destruct c; cbn; naive_solver.
Qed.

(** One bar's rule outcome is [UNDEFINED] exactly when some comparison of the tree lacks a
    value, wherever it sits and whatever the other branches say; otherwise it is [MATCHED]
    exactly when the tree holds as an ordinary boolean formula. *)
Lemma condition_outcome_spec n :
  (_condition_outcome n current previous = UNDEFINED ↔
     ∃ c, c ∈ _comparison_conditions n ∧ _evaluate_comparison c current previous = None) ∧
  (_condition_outcome n current previous = MATCHED ↔
     (∀ c, c ∈ _comparison_conditions n -> _evaluate_comparison c current previous ≠ None) ∧
     satisfies (λ c, _evaluate_comparison c current previous = Some true) n).
Proof.
  unfold _condition_outcome. pose proof (evaluate_None n) as HN. unfold eval in HN.
  destruct (_evaluate_condition n current previous) as [b|] eqn:E.
  - pose proof (evaluate_Some n b E) as HS. split.
    + split; [by destruct b|]. intros H. by apply HN in H.
    + assert (Hdef : ∀ c, c ∈ _comparison_conditions n -> _evaluate_comparison c current previous ≠ None).
      { intros c Hc Hn. assert (Some b = None) by (apply HN; by exists c). done. }
      destruct b; [split; [intros _; split; [done|by apply HS]|done]|].
      split; [done|]. intros [_ H]. by apply HS in H.
  - split; [by rewrite <- HN|]. split; [done|]. intros [Hd _].
    destruct HN as [HN _]. destruct (HN eq_refl) as (c & Hc & Hnone). by apply Hd in Hc.
Qed.

End Evaluation.

(** ** Locality: only declared operands are read *)

(** Two rows that agree on every operand a tree reads. *)
Definition rows_agree (reads : list IndicatorOperand) (a b : values) : Prop :=
  ∀ o, o ∈ reads -> row_get a (operand_value_key o) = row_get b (operand_value_key o).

Lemma elem_of_from_keys {A} `{EqDecision A} (l : list A) x : x ∈ from_keys l ↔ x ∈ l.
Proof.
  unfold from_keys. assert (H : ∀ acc, x ∈ fold_left (λ acc x, if bool_decide (x ∈ acc) then acc
    else acc ++ [x]) l acc ↔ x ∈ acc ∨ x ∈ l); [|by rewrite H, elem_of_nil; naive_solver].
  induction l as [|y l IH]; intros acc; cbn.
  - rewrite elem_of_nil. naive_solver.
  - rewrite IH, elem_of_cons. case_bool_decide; [naive_solver|].
    rewrite elem_of_app, list_elem_of_singleton. naive_solver.
Qed.

Lemma NoDup_from_keys {A} `{EqDecision A} (l : list A) : NoDup (from_keys l).
Proof.
  unfold from_keys. assert (H : ∀ acc, NoDup acc -> NoDup (fold_left (λ acc x, if bool_decide (x ∈ acc)
    then acc else acc ++ [x]) l acc)); [|apply H, NoDup_nil_2].
  induction l as [|y l IH]; intros acc Hacc; cbn; [done|]. apply IH.
  case_bool_decide; [done|]. apply NoDup_app. split; [done|]. split; [|apply NoDup_singleton].
  by intros x Hx ->%list_elem_of_singleton.
Qed.

Lemma operand_value_agree o reads a b : (∀ i, i ∈ operand_reads o -> i ∈ reads) ->
  rows_agree reads a b -> _operand_value o a = _operand_value o b.
Proof. destruct o; cbn; intros Hr Hab; [|done]. apply Hab, Hr. by left. Qed.

Lemma comparison_agree c reads a b pa pb : (∀ i, i ∈ comparison_reads c -> i ∈ reads) ->
  rows_agree reads a b ->
  match pa, pb with Some pa, Some pb => rows_agree reads pa pb | None, None => True | _, _ => False end ->
  _evaluate_comparison c a pa = _evaluate_comparison c b pb.
Proof.
  intros Hr Hab Hp. unfold comparison_reads in Hr. unfold _evaluate_comparison.
  assert (Hl : ∀ x y, rows_agree reads x y -> _operand_value (left c) x = _operand_value (left c) y)
    by (intros; eapply operand_value_agree; [|done]; intros; apply Hr, elem_of_app; auto).
  assert (Hg : ∀ x y, rows_agree reads x y -> _operand_value (right c) x = _operand_value (right c) y)
    by (intros; eapply operand_value_agree; [|done]; intros; apply Hr, elem_of_app; auto).
  rewrite (Hl a b Hab), (Hg a b Hab). destruct pa, pb; try done.
  by rewrite (Hl _ _ Hp), (Hg _ _ Hp).
Qed.

(** A rule reads nothing but its declared operands: two bars whose rows (and previous rows)
    agree on [condition_indicator_operands] get the same outcome. *)
Lemma condition_outcome_local n a b pa pb :
  let reads := condition_indicator_operands n in
  rows_agree reads a b ->
  match pa, pb with Some pa, Some pb => rows_agree reads pa pb | None, None => True | _, _ => False end ->
  _condition_outcome n a pa = _condition_outcome n b pb.
Proof.
  intros reads Hab Hp. unfold _condition_outcome. f_equal.
  assert (Hc : ∀ c, c ∈ _comparison_conditions n ->
    _evaluate_comparison c a pa = _evaluate_comparison c b pb).
  { intros c Hc. apply (comparison_agree c reads); [|done|done]. intros i Hi.
    apply elem_of_from_keys, list_elem_of_In, in_concat. exists (comparison_reads c).
    split; [by apply in_map, list_elem_of_In|by apply list_elem_of_In]. }
  assert (Hind : _evaluate_condition n a pa = _evaluate_condition n b pb); [|by rewrite Hind].
  clear reads Hab Hp. revert Hc.
  assert (Hgroup : ∀ l, Forall (λ n, (∀ c, c ∈ _comparison_conditions n ->
      _evaluate_comparison c a pa = _evaluate_comparison c b pb) ->
      _evaluate_condition n a pa = _evaluate_condition n b pb) l ->
    (∀ c, c ∈ concat (map _comparison_conditions l) ->
      _evaluate_comparison c a pa = _evaluate_comparison c b pb) ->
    map (λ n, _evaluate_condition n a pa) l = map (λ n, _evaluate_condition n b pb) l).
  { induction 1 as [|n0 l Hn _ IHl]; cbn; [done|]. intros Hc. f_equal.
    - apply Hn. intros c Hin. apply Hc, elem_of_app. by left.
    - apply IHl. intros c Hin. apply Hc, elem_of_app. by right. }
  induction n as [c|l IH|l IH|n IH] using condition_ind; cbn; intros Hc.
  - apply Hc. by left.
  - by rewrite (Hgroup l IH Hc).
  - by rewrite (Hgroup l IH Hc).
  - by rewrite (IH Hc).
Qed.

(** A crossover fires on one side only, needs both bars, and is the change of side it names:
    not above on the previous bar and strictly above on this one. *)
Lemma crosses_above_spec l r current previous :
  _evaluate_comparison (mk_comparison l CROSSES_ABOVE r) current previous = Some true ↔
  ∃ row a b pa pb, previous = Some row ∧
    _operand_value l current = Some a ∧ _operand_value r current = Some b ∧
    _operand_value l row = Some pa ∧ _operand_value r row = Some pb ∧
    (val pa <= val pb)%Q ∧ (val b < val a)%Q ∧
    _evaluate_comparison (mk_comparison l CROSSES_BELOW r) current previous = Some false.
Proof.
  unfold _evaluate_comparison. cbn [left right operator].
  destruct (_operand_value l current) as [a|]; [|naive_solver].
  destruct (_operand_value r current) as [b|]; [|naive_solver].
  destruct previous as [row|]; [|naive_solver].
  destruct (_operand_value l row) as [pa|] eqn:Epa; [|naive_solver].
  destruct (_operand_value r row) as [pb|] eqn:Epb; [|naive_solver].
  split.
  - intros [= H]. apply andb_prop_iff in H as [H1 H2]. exists row, a, b, pa, pb.
    assert (E : (a <? b)%dec = false) by (dec_cmp; lra). rewrite E, andb_false_r. dec_cmp. done.
  - intros (row' & a' & b' & pa' & pb' & [= <-] & [= <-] & [= <-] & H1 & H2 & Hp & Hc & _).
    simplify_eq. f_equal. apply andb_prop_iff. split; by dec_cmp.
Qed.
