(* ===== verification/Series.v ===== *)
(** * Series: aligned series and the loops that build them

    An indicator maps the bars it is given to one value per bar. The engine builds such
    series with index loops, loops that carry state, and zips of aligned series; this file
    has those loops, the lemmas that run them on a prefix of the bars, and the two halves of
    a warmup: a series has no value before a bar ([early]) and has one from it on ([full]). *)

From S2P Require Import Prelude Decimals DecimalFacts.

Open Scope nat_scope.

#[global] Arguments Nat.ltb : simpl never.

Notation series := (list (option decimal)).

(** [for index in range(n): result.append(f(index))] *)
Definition each_index {B} (n : nat) (f : nat → result B) : result (list B) := result_mapM f (seq 0 n).

(** [for value in values: ...; result.append(...)] with loop variables [S]. *)
Fixpoint loop {S A B} (step : S → A → result (S * B)) (s : S) (l : list A) : result (list B) :=
  match l with
  | [] => Ok []
  | x :: l => r ← step s x; k ← loop step r.1 l; Ok (r.2 :: k)
  end.

Definition enumerate {A} (l : list A) : list (nat * A) := imap pair l.

(** [zip(a, b, strict=True)] *)
Definition zip_strict {A B} (a : list A) (b : list B) : result (list (A * B)) :=
  if (length a =? length b) then Ok (zip a b)
  else Raise (ValueError "zip() arguments have different lengths").

(** [tuple(f(x, y) for x, y in zip(a, b, strict=True))] *)
Definition zip_map {A B C} (f : A → B → result C) (a : list A) (b : list B) : result (list C) :=
  l ← zip_strict a b; result_mapM (λ p, f p.1 p.2) l.

(** [values[a:b]] for [a <= b], and [values[i]] for an index the loop guards keep in range. *)
Definition slice {A} (l : list A) (a b : nat) : list A := take (b - a) (drop a l).
Definition at_ (l : list decimal) (i : nat) : decimal := nth i l d0.

(** ** Loops *)

Lemma mapM_length {A B} (f : A → result B) l k : result_mapM f l = Ok k -> length k = length l.
Proof.
  revert k. induction l as [|x l IH]; cbn; [by intros k [= <-]|].
  intros k (y & _ & (k' & Hk & [= <-])%bind_Ok)%bind_Ok. cbn. by rewrite (IH k').
Qed.

Lemma mapM_take {A B} (f : A → result B) l k n : result_mapM f l = Ok k -> result_mapM f (take n l) = Ok (take n k).
Proof.
  revert k n. induction l as [|x l IH]; cbn; [intros k [|n] [= <-]; done|].
  intros k [|n] (y & Hy & (k' & Hk & [= <-])%bind_Ok)%bind_Ok; [done|]. cbn. by rewrite Hy, (IH k' n).
Qed.

Lemma mapM_ext {A B} (f g : A → result B) l : (∀ x, x ∈ l -> f x = g x) -> result_mapM f l = result_mapM g l.
Proof.
  induction l as [|x l IH]; intros H; cbn; [done|]. rewrite H by left. rewrite IH; [done|].
  intros y Hy. apply H. by right.
Qed.

Lemma mapM_lookup {A B} (f : A → result B) l k i y : result_mapM f l = Ok k -> k !! i = Some y ->
  ∃ x, l !! i = Some x ∧ f x = Ok y.
Proof.
  revert k i. induction l as [|x l IH]; cbn; [by intros k i [= <-]|].
  intros k i (z & Hz & (k' & Hk & [= <-])%bind_Ok)%bind_Ok. destruct i as [|i]; cbn; [intros [= <-]; eauto|].
  by apply IH.
Qed.

Lemma each_index_length {B} n (f : nat → result B) k : each_index n f = Ok k -> length k = n.
Proof. unfold each_index. intros H%mapM_length. by rewrite length_seq in H. Qed.

Lemma each_index_lookup {B} n (f : nat → result B) k i y : each_index n f = Ok k -> k !! i = Some y ->
  i < n ∧ f i = Ok y.
Proof.
  unfold each_index. intros H Hi. destruct (mapM_lookup _ _ _ _ _ H Hi) as (x & Hx & Hf).
  apply lookup_seq in Hx as [-> ?]. done.
Qed.

Lemma seq_take n m a : n <= m -> take n (seq a m) = seq a n.
Proof.
  revert n a. induction m as [|m IH]; intros [|n] a Hn; cbn; [done|lia|done|]. f_equal. apply IH. lia.
Qed.

Lemma loop_length {S A B} (step : S → A → result (S * B)) s l k : loop step s l = Ok k -> length k = length l.
Proof.
  revert s k. induction l as [|x l IH]; intros s k; cbn; [by intros [= <-]|].
  intros (r & _ & (k' & Hk & [= <-])%bind_Ok)%bind_Ok. cbn. by rewrite (IH r.1 k').
Qed.

Lemma loop_take {S A B} (step : S → A → result (S * B)) s l k n : loop step s l = Ok k ->
  loop step s (take n l) = Ok (take n k).
Proof.
  revert s k n. induction l as [|x l IH]; intros s k n; cbn; [intros [= <-]; by destruct n|].
  intros (r & Hr & (k' & Hk & [= <-])%bind_Ok)%bind_Ok. destruct n as [|n]; [done|].
  cbn [loop take]. rewrite Hr. cbn [mbind result_bind]. by rewrite (IH _ _ n Hk).
Qed.

Lemma loop_ext {S A B} (f g : S → A → result (S * B)) s l : (∀ x u, x ∈ l -> f u x = g u x) -> loop f s l = loop g s l.
Proof.
  revert s. induction l as [|x l IH]; intros s H; cbn; [done|]. rewrite H by left.
  destruct (g s x) as [r|]; cbn; [|done]. rewrite IH; [done|]. intros y u Hy. apply H. by right.
Qed.

(** A loop invariant over the state and the outputs so far. *)
Lemma loop_ind {S A B} (step : S → A → result (S * B)) (P : list A → S → list B → Prop) s l k :
  P [] s [] ->
  (∀ pre x u out u' y, P pre u out -> step u x = Ok (u', y) -> P (pre ++ [x]) u' (out ++ [y])) ->
  loop step s l = Ok k -> ∃ u, P l u k.
Proof.
  intros H0 Hstep. enough (∀ l pre u out k, P pre u out -> loop step u l = Ok k -> ∃ v, P (pre ++ l) v (out ++ k)) as H
    by (intros Hk; exact (H l [] s [] k H0 Hk)).
  clear l k. induction l as [|x l IH]; intros pre u out k HP; cbn.
  - intros [= <-]. rewrite !app_nil_r. eauto.
  - intros ([u' y] & Hs & (k' & Hk & [= <-])%bind_Ok)%bind_Ok. cbn in *.
    destruct (IH (pre ++ [x]) u' (out ++ [y]) k') as [v Hv]; [by eapply Hstep|done|].
    exists v. by rewrite <- !app_assoc in Hv.
Qed.

Lemma length_enumerate {A} (l : list A) : length (enumerate l) = length l.
Proof. apply length_imap. Qed.

Lemma enumerate_take {A} (l : list A) n : enumerate (take n l) = take n (enumerate l).
Proof.
  unfold enumerate. apply list_eq. intros i. rewrite list_lookup_imap.
  destruct (decide (i < n)).
  - rewrite !lookup_take_lt by done. by rewrite list_lookup_imap.
  - rewrite !lookup_take_ge by lia. done.
Qed.

Lemma elem_of_enumerate {A} (l : list A) i x : (i, x) ∈ enumerate l ↔ l !! i = Some x.
Proof.
  unfold enumerate. rewrite list_elem_of_lookup. split.
  - intros [j Hj]. rewrite list_lookup_imap in Hj. destruct (l !! j) eqn:E; [|done]. by injection Hj as <- <-.
  - intros H. exists i. by rewrite list_lookup_imap, H.
Qed.

(** ** Prefixes

    What a loop computes on the first bars does not depend on the bars that follow. Every
    lemma has the form an indicator's proof chains: the computation on the prefix returns the
    prefix of what the computation on all bars returned. *)

Lemma each_index_cut {B} (f g : nat → result B) len ys n : each_index len f = Ok ys ->
  (∀ i, i < n -> i < len -> g i = f i) -> each_index (Nat.min n len) g = Ok (take n ys).
Proof.
  intros H Hg. unfold each_index in *. apply mapM_take with (n := n) in H. rewrite <- H.
  destruct (decide (n <= len)) as [Hn|Hn].
  - rewrite Nat.min_l, seq_take by done. apply mapM_ext. intros i Hi. apply elem_of_seq in Hi. apply Hg; lia.
  - rewrite Nat.min_r, (take_ge (seq 0 len)) by (rewrite ?length_seq; lia).
    apply mapM_ext. intros i Hi. apply elem_of_seq in Hi. apply Hg; lia.
Qed.

Lemma enumerate_loop_cut {S A B} (f g : S → nat * A → result (S * B)) s l ys n :
  loop f s (enumerate l) = Ok ys ->
  (∀ u i x, i < n -> i < length l -> g u (i, x) = f u (i, x)) -> loop g s (enumerate (take n l)) = Ok (take n ys).
Proof.
  intros H Hg. rewrite enumerate_take. apply loop_take with (n := n) in H. rewrite <- H. apply loop_ext.
  intros [i x] u Hi. apply list_elem_of_lookup in Hi as [j Hj]. apply lookup_take_Some in Hj as [Hj Hlt].
  pose proof (lookup_lt_Some _ _ _ Hj) as Hlen. rewrite length_enumerate in Hlen.
  unfold enumerate in Hj. rewrite list_lookup_imap in Hj. destruct (l !! j); [|done]. injection Hj as <- _. by apply Hg.
Qed.

Lemma zip_take {A B} (a : list A) (b : list B) n : zip (take n a) (take n b) = take n (zip a b).
Proof. revert b n. induction a as [|x a IH]; intros [|y b] [|n]; cbn; try done. f_equal. apply IH. Qed.

Lemma zip_strict_cut {A B} (a : list A) (b : list B) k n : zip_strict a b = Ok k ->
  zip_strict (take n a) (take n b) = Ok (take n k).
Proof.
  unfold zip_strict. destruct (Nat.eqb_spec (length a) (length b)) as [E|]; [|done]. intros [= <-].
  by rewrite !length_take, E, Nat.eqb_refl, zip_take.
Qed.

Lemma zip_map_cut {A B C} (f : A → B → result C) a b k n : zip_map f a b = Ok k ->
  zip_map f (take n a) (take n b) = Ok (take n k).
Proof.
  unfold zip_map. intros (l & Hl & Hk)%bind_Ok. rewrite (zip_strict_cut _ _ _ n Hl). cbn. by apply mapM_take.
Qed.

Lemma zip_strict_length {A B} (a : list A) (b : list B) k : zip_strict a b = Ok k ->
  length a = length b ∧ length k = length a ∧ k = zip a b.
Proof.
  unfold zip_strict. destruct (Nat.eqb_spec (length a) (length b)) as [E|]; [|done]. intros [= <-].
  rewrite length_zip_with. split_and!; [done|lia|done].
Qed.

Lemma zip_map_lookup {A B C} (f : A → B → result C) a b k i y : zip_map f a b = Ok k -> k !! i = Some y ->
  ∃ u v, a !! i = Some u ∧ b !! i = Some v ∧ f u v = Ok y.
Proof.
  unfold zip_map. intros (l & Hl & Hk)%bind_Ok Hi. apply zip_strict_length in Hl as (_ & _ & ->).
  destruct (mapM_lookup _ _ _ _ _ Hk Hi) as ([u v] & Hu & Hf). apply lookup_zip_with_Some in Hu as (u' & v' & [= <- <-] & Ha & Hb).
  eauto.
Qed.

Lemma zip_map_length {A B C} (f : A → B → result C) a b k : zip_map f a b = Ok k ->
  length a = length b ∧ length k = length a.
Proof.
  unfold zip_map. intros (l & Hl & Hk)%bind_Ok. apply zip_strict_length in Hl as (? & ? & _).
  apply mapM_length in Hk. lia.
Qed.

(** The step of a chain: the first computation of a bind succeeds. *)
Lemma bind_intro {A B} (m : result A) (k : A → result B) a r : m = Ok a -> k a = r -> (m ≫= k) = r.
Proof. by intros -> <-. Qed.

(** Reading at or before an index does not see what follows it. *)
Lemma at_take l n i : i < n -> at_ (take n l) i = at_ l i.
Proof.
  unfold at_. revert n i. induction l as [|x l IH]; intros [|n] [|i] Hi; cbn; try done; try lia. apply IH. lia.
Qed.

Lemma slice_take {A} (l : list A) n a b : b <= n -> slice (take n l) a b = slice l a b.
Proof.
  intros Hb. unfold slice. rewrite skipn_firstn_comm, take_take. f_equal. lia.
Qed.

Lemma take_take_le {A} (l : list A) n m : m <= n -> take m (take n l) = take m l.
Proof. intros. rewrite take_take. f_equal. lia. Qed.

Lemma map_take {A B} (f : A → B) l n : map f (take n l) = take n (map f l).
Proof. symmetry. apply firstn_map. Qed.

(** A fold over positions before an index. *)
Lemma fold_left_ext {S A} (f g : S → A → S) l s : (∀ u x, x ∈ l -> f u x = g u x) -> fold_left f l s = fold_left g l s.
Proof.
  revert s. induction l as [|x l IH]; intros s H; cbn; [done|]. rewrite H by left. apply IH. intros u y Hy. apply H. by right.
Qed.

Lemma length_slice {A} (l : list A) a b : b <= length l -> length (slice l a b) = b - a.
Proof. intros. unfold slice. rewrite length_take, length_drop. lia. Qed.

(** ** Definedness

    A series is [early k] when it has no value before bar [k], and [full k] when it has one
    on every bar from [k] on. *)

Definition early (k : nat) (ys : series) : Prop := ∀ i v, ys !! i = Some (Some v) -> k <= i.
Definition full (k : nat) (ys : series) : Prop := ∀ i y, ys !! i = Some y -> k <= i -> is_Some y.

Lemma early_weaken k k' ys : early k ys -> k' <= k -> early k' ys.
Proof. intros H ? i v Hi. specialize (H i v Hi). lia. Qed.

Lemma full_weaken k k' ys : full k ys -> k <= k' -> full k' ys.
Proof. intros H ? i y Hi ?. eapply H; [done|lia]. Qed.

Lemma each_early k n (f : nat → result (option decimal)) ys : each_index n f = Ok ys ->
  (∀ i v, f i = Ok (Some v) -> k <= i) -> early k ys.
Proof. intros H Hf i v Hi. destruct (each_index_lookup _ _ _ _ _ H Hi) as [_ Hy]. by eapply Hf. Qed.

Lemma each_full k n (f : nat → result (option decimal)) ys : each_index n f = Ok ys ->
  (∀ i y, f i = Ok y -> k <= i -> is_Some y) -> full k ys.
Proof. intros H Hf i y Hi. destruct (each_index_lookup _ _ _ _ _ H Hi) as [_ Hy]. by apply Hf. Qed.

Lemma loop_lookup {S A B} (f : S → A → result (S * B)) s l k i y : loop f s l = Ok k -> k !! i = Some y ->
  ∃ x u u', l !! i = Some x ∧ f u x = Ok (u', y).
Proof.
  revert s k i. induction l as [|x l IH]; intros s k i; cbn; [by intros [= <-]|].
  intros (r & Hr & (k' & Hk & [= <-])%bind_Ok)%bind_Ok. destruct i as [|i]; cbn.
  - intros [= <-]. exists x, s, r.1. by destruct r.
  - intros Hi. apply (IH _ _ _ Hk Hi).
Qed.

Lemma enumerate_loop_lookup {S A B} (f : S → nat * A → result (S * B)) s l k i y :
  loop f s (enumerate l) = Ok k -> k !! i = Some y -> ∃ x u u', l !! i = Some x ∧ f u (i, x) = Ok (u', y).
Proof.
  intros H Hi. destruct (loop_lookup _ _ _ _ _ _ H Hi) as ([j x] & u & u' & Hx & Hf).
  unfold enumerate in Hx. rewrite list_lookup_imap in Hx. destruct (l !! i) eqn:E; [|done].
  injection Hx as <- <-. eauto.
Qed.

(** Values computed from two series, where both have one. *)
Lemma zip_early {A} (f : option decimal → A → result (option decimal)) k a b ys : zip_map f a b = Ok ys ->
  (∀ u v y, f u v = Ok (Some y) -> is_Some u) -> early k a -> early k ys.
Proof.
  intros H Hf Ha i y Hi. destruct (zip_map_lookup _ _ _ _ _ _ H Hi) as (u & v & Hu & _ & Hy).
  apply Hf in Hy as [w ->]. by eapply Ha.
Qed.

Lemma zip_early_r {A} (f : A → option decimal → result (option decimal)) k a b ys : zip_map f a b = Ok ys ->
  (∀ u v y, f u v = Ok (Some y) -> is_Some v) -> early k b -> early k ys.
Proof.
  intros H Hf Hb i y Hi. destruct (zip_map_lookup _ _ _ _ _ _ H Hi) as (u & v & _ & Hv & Hy).
  apply Hf in Hy as [w ->]. by eapply Hb.
Qed.

Lemma zip_full (f : option decimal → option decimal → result (option decimal)) k a b ys : zip_map f a b = Ok ys ->
  (∀ u v y, f (Some u) (Some v) = Ok y -> is_Some y) -> full k a -> full k b -> full k ys.
Proof.
  intros H Hf Ha Hb i y Hi Hk. destruct (zip_map_lookup _ _ _ _ _ _ H Hi) as (u & v & Hu & Hv & Hy).
  destruct (Ha _ _ Hu Hk) as [u' ->], (Hb _ _ Hv Hk) as [v' ->]. by eapply Hf.
Qed.

Lemma lookup_repeat {A} (x : A) n i : i < n -> repeat x n !! i = Some x.
Proof. revert i. induction n as [|n IH]; intros [|i] ?; cbn; try done; try lia. apply IH. lia. Qed.

(** Undefined for [k] bars, then defined: the two properties together. *)
Lemma early_full_suffix k ys : early k ys -> full k ys ->
  ∃ vs, ys = repeat None (Nat.min k (length ys)) ++ map Some vs.
Proof.
  intros He Hf. exists (omap id (drop k ys)). apply list_eq. intros i.
  destruct (decide (i < Nat.min k (length ys))) as [Hi|Hi].
  - rewrite lookup_app_l by (by rewrite repeat_length). rewrite lookup_repeat by done.
    destruct (ys !! i) as [[v|]|] eqn:E; [specialize (He i v E); lia|done|].
    apply lookup_ge_None in E. lia.
  - rewrite lookup_app_r by (rewrite repeat_length; lia). rewrite repeat_length.
    assert (Hd : map Some (omap id (drop k ys)) = drop k ys).
    { assert (Forall (λ y, is_Some y) (drop k ys)) as H.
      { apply Forall_lookup. intros j y. rewrite lookup_drop. intros Hy. eapply Hf; [exact Hy|lia]. }
      induction (drop k ys) as [|y l IH]; [done|]. inversion H as [|? ? [v ->] Hl]; subst. cbn. f_equal. by apply IH. }
    rewrite Hd, lookup_drop. destruct (decide (k <= length ys)); [f_equal; lia|].
    rewrite !lookup_ge_None_2; [done|lia|lia].
Qed.
