(* ===== verification/DecimalFunctions.v ===== *)
(** * DecimalFunctions: [Decimal.sqrt], [Decimal.ln] and [Decimal.log10]

    The three functions of Python's [decimal] module the indicators use beyond field
    arithmetic, as its reference implementation computes them on integers. Each rounds once:
    the square root is taken one digit further than the context and its last digit made
    sticky when the root is inexact; a logarithm is approximated with more and more guard
    digits until the approximation decides the rounding.

    The reference implementation's Newton iterations are replaced by the integers they
    return ([Z.sqrt]). The argument reduction of [ilog] halves its argument each round, so
    its fuel is far beyond the dozen rounds a precision of a hundred digits needs; the
    guard-digit search asks for three more digits per round and a round fails once in a
    thousand inputs. *)

From S2P Require Import Prelude Decimals DecimalFacts.

Open Scope Z_scope.

Section Functions.
Context {dc : DecimalContext}.

(** ** Square root *)

Definition sqrt (d : decimal) : result decimal :=
  if (coef d =? 0)%Z then Ok (fix_ (Dec 0 (exponent d / 2)))
  else if (coef d <? 0)%Z then Raise InvalidOperation
  else
    let e := exponent d / 2 in
    let odd := Z.odd (exponent d) in
    let c := if odd then coef d * 10 else coef d in
    let l := if odd then digits (coef d) / 2 + 1 else (digits (coef d) + 1) / 2 in
    let shift := prec + 1 - l in
    let c' := if (0 <=? shift)%Z then c * 100 ^ shift else c / 100 ^ (- shift) in
    let exact := if (0 <=? shift)%Z then true else (c mod 100 ^ (- shift) =? 0)%Z in
    let n := Z.sqrt c' in
    if exact && (n * n =? c')%Z then
      Ok (fix_ (Dec (if (0 <=? shift)%Z then n / 10 ^ shift else n * 10 ^ (- shift)) e))
    else Ok (fix_ (Dec (if (n mod 5 =? 0)%Z then n + 1 else n) (e - shift))).

(** ** Logarithms *)

Definition sqrt_nearest (n : Z) : Z := let s := Z.sqrt n in if (n - s * s <=? s)%Z then s else s + 1.

(** [a / b], to the nearest integer and to the even one of two. *)
Definition div_nearest (a b : Z) : Z :=
  let q := a / b in
  let r := a mod b in
  if (b <? 2 * r + q mod 2)%Z then q + 1 else q.

Definition rshift_nearest (x shift : Z) : Z := div_nearest x (2 ^ shift).

Definition ilog_bits : Z := 8.

Fixpoint ilog_reduce (fuel : nat) (M y R : Z) : Z * Z :=
  match fuel with
  | O => (y, R)
  | S fuel =>
      if (if (R <=? ilog_bits)%Z then M <=? Z.abs y * 2 ^ (ilog_bits - R)
          else M <=? Z.abs y / 2 ^ (R - ilog_bits))%Z
      then ilog_reduce fuel M (div_nearest (M * y * 2) (M + sqrt_nearest (M * (M + rshift_nearest y R)))) (R + 1)
      else (y, R)
  end.

Fixpoint ilog_taylor (M yshift : Z) (k : nat) (w : Z) : Z :=
  match k with
  | O => w
  | S k' => ilog_taylor M yshift k' (div_nearest M (Z.of_nat k) - div_nearest (yshift * w) M)
  end.

(** [M * log(x / M)], approximately. *)
Definition ilog (x M : Z) : Z :=
  let (y, R) := ilog_reduce 200 M (x - M) 0 in
  let T := - (- (10 * digits M) / (3 * ilog_bits)) in
  let w := ilog_taylor M (rshift_nearest y R) (Z.to_nat (T - 1)) (div_nearest M T) in
  div_nearest (w * y) M.

(** The first [p] decimals of [log 10], truncated. *)
Fixpoint log10_digits_search (fuel : nat) (p extra : Z) : Z :=
  let M := 10 ^ (p + extra + 2) in
  let n := div_nearest (ilog (10 * M) M) 100 in
  match fuel with
  | O => n / 10 ^ extra
  | S fuel => if (n mod 10 ^ extra =? 0)%Z then log10_digits_search fuel p (extra + 3) else n / 10 ^ extra
  end.
Definition log10_digits (p : Z) : Z := log10_digits_search 50 p 3.

(** The power of ten [f] with [c * 10 ^ e = d * 10 ^ f] and [d] within a factor ten of one. *)
Definition log_scale (c e : Z) : Z := let l := digits c in if (1 <=? e + l)%Z then e + l - 1 else e + l.

Definition log_mantissa (c e p f : Z) : Z :=
  let k := e + p - f in ilog (if (0 <=? k)%Z then c * 10 ^ k else div_nearest c (10 ^ (- k))) (10 ^ p).

Definition dlog (c e p : Z) : Z :=
  let p := p + 2 in
  let f := log_scale c e in
  let log_d := if (0 <? p)%Z then log_mantissa c e p f else 0 in
  let extra := digits f - 1 in
  let f_log_ten :=
    if (f =? 0)%Z then 0
    else if (0 <=? p + extra)%Z then div_nearest (f * log10_digits (p + extra)) (10 ^ extra)
    else 0 in
  div_nearest (f_log_ten + log_d) 100.

Definition dlog10 (c e p : Z) : Z :=
  let p := p + 2 in
  let f := log_scale c e in
  if (0 <? p)%Z then
    let M := 10 ^ p in
    div_nearest (f * M + div_nearest (log_mantissa c e p f * M) (log10_digits p)) 100
  else div_nearest (div_nearest f (10 ^ (- p))) 100.

(** [num < den] on the texts of two integers, with the difference of their lengths. *)
Definition text_gap (num den : Z) : Z :=
  let a := digits num in
  let b := digits den in
  let m := Z.max a b in
  let n' := num * 10 ^ (m - a) in
  let d' := den * 10 ^ (m - b) in
  let less := (n' <? d')%Z || ((n' =? d') && (a <? b))%Z in
  a - b - (if less then 1 else 0).

Definition ln_exp_bound (c e : Z) : Z :=
  let adj := e + digits c - 1 in
  if (1 <=? adj)%Z then digits (adj * 23 / 10) - 1
  else if (adj <=? -2)%Z then digits ((-1 - adj) * 23 / 10) - 1
  else if (adj =? 0)%Z then text_gap (c - 10 ^ (- e)) c
  else e + digits (10 ^ (- e) - c) - 1.

Definition log10_exp_bound (c e : Z) : Z :=
  let adj := e + digits c - 1 in
  if (1 <=? adj)%Z then digits adj - 1
  else if (adj <=? -2)%Z then digits (-1 - adj) - 1
  else if (adj =? 0)%Z then text_gap (c - 10 ^ (- e)) (231 * c) + 2
  else let num := 10 ^ (- e) - c in text_gap num 231 + 3 + e - 1.

(** More guard digits until the approximation is not halfway between two results. *)
Fixpoint log_places (fuel : nat) (approximate : Z → Z) (places : Z) : Z * Z :=
  let n := approximate places in
  match fuel with
  | O => (n, places)
  | S fuel =>
      if (n mod (5 * 10 ^ (digits n - prec - 1)) =? 0)%Z then log_places fuel approximate (places + 3)
      else (n, places)
  end.

(** The logarithm of zero is an infinity in Python; infinities are not represented, so it is
    an error here. *)
Definition ln (d : decimal) : result decimal :=
  if (coef d <=? 0)%Z then Raise InvalidOperation
  else if (d =? d1)%dec then Ok d0
  else
    let '(n, places) := log_places 50 (dlog (coef d) (exponent d)) (prec - ln_exp_bound (coef d) (exponent d) + 2) in
    Ok (fix_ (Dec n (- places))).

Definition log10 (d : decimal) : result decimal :=
  if (coef d <=? 0)%Z then Raise InvalidOperation
  else if (coef d =? 10 ^ (digits (coef d) - 1))%Z then Ok (fix_ (of_Z (exponent d + digits (coef d) - 1)))
  else
    let '(n, places) := log_places 50 (dlog10 (coef d) (exponent d)) (prec - log10_exp_bound (coef d) (exponent d) + 2) in
    Ok (fix_ (Dec n (- places))).

End Functions.
