(* ===== verification/IndicatorMath.v ===== *)
(** * IndicatorMath: averages and rolling statistics ([evaluation/indicator_math/])

    The engine's arithmetic on aligned series: [core.py], [moving_averages.py] and
    [rolling_statistics.py]. Each function takes the oldest-first values of every bar it is
    given and returns one value per bar, undefined while its window is incomplete. Every
    operation rounds once in the ambient context (the engine installs 64 digits), in the
    order the code performs them. *)

From S2P Require Import Prelude Decimals DecimalFunctions Market Series IndicatorSpec.

Open Scope nat_scope.

(** [Decimal(n)] of a small integer. *)
Definition of_nat (n : nat) : decimal := of_Z (Z.of_nat n).

(** [None if x is None or y is None else f(x, y)] *)
Definition opt2 {A B C} (f : A → B → result C) (x : option A) (y : option B) : result (option C) :=
  match x, y with Some x, Some y => Some <$> f x y | _, _ => Ok None end.

(** ** core.py *)

Definition source_of (source : source_field) (candle : Candle) : decimal :=
  match source with
  | open_field => open candle
  | high_field => high candle
  | low_field => low candle
  | close_field => close candle
  | volume_field => volume candle
  end.

Definition _locked_source_series (indicator : IndicatorDefinition) (candles : list Candle) : result (list decimal) :=
  match input indicator with
  | Some (SingleField source) => Ok (map (source_of source) candles)
  | _ => Raise IndicatorCalculationError
  end.

Definition _period_parameter (indicator : IndicatorDefinition) : result nat :=
  match parameters indicator with
  | HistoricalVolatilityIndicatorParameters period _ => Ok period
  | IndicatorParameters period => Ok period
  | _ => Raise IndicatorCalculationError
  end.

(** The defined values of a window. *)
Definition defined (window : list (option decimal)) : list decimal := omap id window.

Definition _windows_defined (values : list (option decimal)) (period : nat) : list (option (list decimal)) :=
  imap (λ index _,
    if index + 1 <? period then None
    else
      let window := defined (slice values (index + 1 - period) (index + 1)) in
      if length window =? period then Some window else None) values.

Section Math.
Context {dc : DecimalContext}.

Definition _difference (left right : list (option decimal)) : result (list (option decimal)) :=
  zip_map (opt2 (λ first second, Ok (first - second)%dec)) left right.

(** ** moving_averages.py *)

Definition _simple_moving_average_defined (values : list (option decimal)) (period : nat) : result series :=
  each_index (length values) (λ index,
    if index + 1 <? period then Ok None
    else
      let window := slice values (index + 1 - period) (index + 1) in
      if existsb (λ value, match value with None => true | Some _ => false end) window then Ok None
      else Some <$> div (dsum (defined window)) (of_nat period)).

(** The recurrence of Wilder's average, and of the exponential one. *)
Definition wilder_step (period : nat) (previous value : decimal) : result decimal :=
  div (previous * of_nat (period - 1) + value)%dec (of_nat period).
Definition ema_step (period : nat) (previous value : decimal) : result decimal :=
  div (of_nat (period - 1) * previous + of_nat 2 * value)%dec (of_nat (period + 1)).

(** The loop both averages share: nothing until the bar that completes the first window, the
    mean of that window there, the recurrence afterwards. *)
Definition seeded_step (advance : decimal → decimal → result decimal) (period : nat) (values : list decimal)
    (previous : option decimal) (p : nat * decimal) : result (option decimal * option decimal) :=
  let '(index, value) := p in
  if index + 1 <? period then Ok (previous, None)
  else
    previous ← match previous with
               | None => div (dsum (take period values)) (of_nat period)
               | Some previous => advance previous value
               end;
    Ok (Some previous, Some previous).

Definition seeded (advance : decimal → decimal → result decimal) (period : nat)
    (values : list decimal) : result series :=
  loop (seeded_step advance period values) None (enumerate values).

(** The same over a series with holes: a hole is copied and advances nothing. *)
Definition seeded_optional_step (advance : decimal → decimal → result decimal) (period : nat)
    (state : list decimal * option decimal) (value : option decimal)
    : result (list decimal * option decimal * option decimal) :=
  match value with
  | None => Ok (state, None)
  | Some value =>
      match state.2 with
      | None =>
          let seed := state.1 ++ [value] in
          if length seed <? period then Ok ((seed, None), None)
          else previous ← div (dsum seed) (of_nat period); Ok ((seed, Some previous), Some previous)
      | Some previous =>
          previous ← advance previous value; Ok ((state.1, Some previous), Some previous)
      end
  end.

Definition seeded_optional (advance : decimal → decimal → result decimal) (period : nat)
    (values : list (option decimal)) : result series :=
  loop (seeded_optional_step advance period) ([], None) values.

Definition _wilder_smooth (values : list decimal) (period : nat) : result series :=
  seeded (wilder_step period) period values.

Definition _wilder_smooth_optional (values : list (option decimal)) (period : nat) : result series :=
  seeded_optional (wilder_step period) period values.

Definition _simple_moving_average (values : list decimal) (period : nat) : result series :=
  each_index (length values) (λ index,
    if index + 1 <? period then Ok None
    else Some <$> div (dsum (slice values (index + 1 - period) (index + 1))) (of_nat period)).

Definition _exponential_moving_average (values : list decimal) (period : nat) : result series :=
  seeded (ema_step period) period values.

(** [for offset, value in enumerate(window, start=1)]: the weighted sum over the weights' sum. *)
Definition weighted_mean (window : list decimal) : result decimal :=
  let '(weighted, weight_sum) :=
    fold_left (λ acc p,
      let weight := of_nat (S p.1) in
      ((acc.1 + p.2 * weight)%dec, (acc.2 + weight)%dec)) (enumerate window) (d0, d0) in
  div weighted weight_sum.

Definition _weighted_moving_average (values : list decimal) (period : nat) : result series :=
  each_index (length values) (λ index,
    if index + 1 <? period then Ok None
    else Some <$> weighted_mean (slice values (index + 1 - period) (index + 1))).

Definition _exponential_moving_average_optional (values : list (option decimal)) (period : nat) : result series :=
  seeded_optional (ema_step period) period values.

Definition _weighted_moving_average_optional (values : list (option decimal)) (period : nat) : result series :=
  result_mapM (λ window,
    match window with None => Ok None | Some window => Some <$> weighted_mean window end)
    (_windows_defined values period).

Definition _double_exponential_moving_average (values : list decimal) (period : nat) : result series :=
  first ← _exponential_moving_average values period;
  second ← _exponential_moving_average_optional first period;
  zip_map (opt2 (λ outer inner, Ok (of_nat 2 * outer - inner)%dec)) first second.

Definition _triple_exponential_moving_average (values : list decimal) (period : nat) : result series :=
  first ← _exponential_moving_average values period;
  second ← _exponential_moving_average_optional first period;
  third ← _exponential_moving_average_optional second period;
  pairs ← zip_strict first second;
  zip_map (λ p tri,
    match p.1, p.2, tri with
    | Some one, Some two, Some tri => Ok (Some (of_nat 3 * one - of_nat 3 * two + tri)%dec)
    | _, _, _ => Ok None
    end) pairs third.

Definition _hull_moving_average (values : list decimal) (period : nat) : result series :=
  half ← _weighted_moving_average values (period / 2);
  full ← _weighted_moving_average values period;
  raw ← zip_map (opt2 (λ short long, Ok (of_nat 2 * short - long)%dec)) half full;
  _weighted_moving_average_optional raw (Nat.sqrt period).

(** The bars before [period] are undefined; the value at [period - 1] seeds the recurrence. *)
Definition _kaufman_adaptive_values (indicator : IndicatorDefinition) (candles : list Candle) : result series :=
  match parameters indicator with
  | KamaIndicatorParameters period fast_period slow_period =>
      values ← _locked_source_series indicator candles;
      let lead := repeat None (Nat.min period (length values)) in
      if length values <=? period then Ok lead
      else
        fast ← div (of_nat 2) (of_nat (fast_period + 1));
        slow ← div (of_nat 2) (of_nat (slow_period + 1));
        let span := (fast - slow)%dec in
        rest ← loop (λ previous index,
          let change := abs_ (at_ values index - at_ values (index - period))%dec in
          let volatility := fold_left (λ acc position,
            (acc + abs_ (at_ values position - at_ values (position - 1)))%dec) (seq (index - period + 1) period) d0 in
          efficiency ← if (volatility =? d0)%dec then Ok d1 else div change volatility;
          let base := (efficiency * span + slow)%dec in
          let smoothing := (base * base)%dec in
          let previous := (previous + smoothing * (at_ values index - previous))%dec in
          Ok (previous, Some previous)) (at_ values (period - 1)) (seq period (length values - period));
        Ok (lead ++ rest)
  | _ => Raise IndicatorCalculationError
  end.

(** ** rolling_statistics.py *)

(** [for value in window[1:]: if replace(value, extreme): extreme = value] *)
Definition extreme_of (maximum : bool) (window : list decimal) : result decimal :=
  match window with
  | [] => Raise IndexError
  | value :: rest =>
      Ok (fold_left (λ extreme value,
        if (if maximum then extreme <? value else value <? extreme)%dec then value else extreme) rest value)
  end.

Definition _rolling_extreme (values : list decimal) (period : nat) (maximum : bool) : result series :=
  each_index (length values) (λ index,
    if index + 1 <? period then Ok None
    else Some <$> extreme_of maximum (slice values (index + 1 - period) (index + 1))).

(** The squared deviations from a mean, summed oldest first. *)
Definition sum_squares (mean : decimal) (window : list decimal) : decimal :=
  fold_left (λ sum_sq value, let delta := (value - mean)%dec in (sum_sq + delta * delta)%dec) window d0.

(** A variance that is not positive has deviation zero. *)
Definition deviation_of (variance : decimal) : result decimal :=
  if (variance <=? d0)%dec then Ok d0 else sqrt variance.

Definition _rolling_stdev (values : list decimal) (period divisor : nat) : result series :=
  each_index (length values) (λ index,
    if index + 1 <? period then Ok None
    else
      let window := slice values (index + 1 - period) (index + 1) in
      mean ← div (dsum window) (of_nat period);
      variance ← div (sum_squares mean window) (of_nat divisor);
      Some <$> deviation_of variance).

Definition _rolling_population_stdev (values : list decimal) (period : nat) : result series :=
  _rolling_stdev values period period.
Definition _rolling_sample_stdev (values : list decimal) (period : nat) : result series :=
  _rolling_stdev values period (period - 1).
Definition _rolling_highest (values : list decimal) (period : nat) : result series :=
  _rolling_extreme values period true.
Definition _rolling_lowest (values : list decimal) (period : nat) : result series :=
  _rolling_extreme values period false.

Definition _rolling_extreme_optional (values : list (option decimal)) (period : nat) (maximum : bool) : result series :=
  result_mapM (λ window,
    match window with None => Ok None | Some window => Some <$> extreme_of maximum window end)
    (_windows_defined values period).

(** Fitted endpoint and slope of one window, from its folds. *)
Definition regression_of (period : nat) (window : list decimal) : result (decimal * decimal) :=
  let count := of_nat period in
  let sum_x_int := (period * (period - 1)) / 2 in
  let sum_xx_int := ((period - 1) * period * (2 * period - 1)) / 6 in
  let sum_x := of_nat sum_x_int in
  let divisor := of_Z (Z.of_nat (period * sum_xx_int) - Z.of_nat (sum_x_int * sum_x_int)) in
  let last_x := of_nat (period - 1) in
  let '(sum_y, sum_xy) :=
    fold_left (λ acc p, ((acc.1 + p.2)%dec, (acc.2 + of_nat p.1 * p.2)%dec)) (enumerate window) (d0, d0) in
  slope ← div (count * sum_xy - sum_x * sum_y)%dec divisor;
  intercept ← div (sum_y - slope * sum_x)%dec count;
  Ok ((intercept + slope * last_x)%dec, slope).

Definition _linear_regression_series (indicator : IndicatorDefinition) (candles : list Candle)
    : result (gmap string series) :=
  period ← _period_parameter indicator;
  values ← _locked_source_series indicator candles;
  fits ← each_index (length values) (λ index,
    if index + 1 <? period then Ok (None, None)
    else
      fit ← regression_of period (slice values (index + 1 - period) (index + 1));
      Ok (Some fit.1, Some fit.2));
  Ok {[ "value" := map fst fits; "slope" := map snd fits ]}.

Definition _rolling_zscore (values : list decimal) (period : nat) : result series :=
  means ← _simple_moving_average values period;
  deviations ← _rolling_population_stdev values period;
  pairs ← zip_strict values means;
  zip_map (λ p deviation,
    match p.2, deviation with
    | Some mean, Some deviation =>
        if (deviation =? d0)%dec then Ok None else Some <$> div (p.1 - mean)%dec deviation
    | _, _ => Ok None
    end) pairs deviations.

Definition _percent_rank (values : list decimal) (period : nat) : result series :=
  each_index (length values) (λ index,
    if index <? period then Ok None
    else
      let count := length (filter (λ position, (at_ values position <=? at_ values index)%dec = true)
                             (seq (index - period) period)) in
      Some <$> div (of_nat 100 * of_nat count)%dec (of_nat period)).

End Math.
