(* ===== verification/Calculations.v ===== *)
(** * Calculations: oscillators, channels and bands

    The momentum and volatility calculations of [evaluation/indicator_math]. *)

From S2P Require Import Prelude Decimals Market IndicatorSpec Series DecimalFunctions IndicatorMath.

(** * Momentum and volume indicators ([evaluation/indicator_math/])

    [momentum.py] and [volume.py]. A division whose denominator is zero is avoided the way
    the code avoids it: the bar is undefined, or the code's substitute value is used. *)

Open Scope nat_scope.

(** [pairwise(items)] *)
Definition pairwise {A} (l : list A) : list (A * A) := zip l (tail l).

(** [[None] if items else []], then the values of the bars after the first. *)
Definition after_first {A B} (items : list A) (rest : list (option B)) : list (option B) :=
  match items with [] => [] | _ => None :: rest end.

(** One value per consecutive pair. *)
Definition changes_of {A B} (f : A → A → option B) (l : list A) : list (option B) :=
  after_first l (map (λ p, f p.1 p.2) (pairwise l)).

Section Math.
Context {dc : DecimalContext}.

Definition hundred : decimal := of_nat 100.

(** ** momentum.py *)

Definition _FLAT_RSI_RANGE : decimal := Dec 1 (-30).

(** The defined values are a suffix: the line is undefined only before its first value. *)
Definition _macd_signal_ema (macd_line : list (option decimal)) (period : nat) : result series :=
  let values := defined macd_line in
  let prefix := repeat None (length macd_line - length values) in
  rest ← _exponential_moving_average values period;
  Ok (prefix ++ rest).

Definition _macd_series (indicator : IndicatorDefinition) (candles : list Candle) : result (gmap string series) :=
  match parameters indicator with
  | MacdIndicatorParameters fast_period slow_period signal_period =>
      closes ← _locked_source_series indicator candles;
      fast ← _exponential_moving_average closes fast_period;
      slow ← _exponential_moving_average closes slow_period;
      macd_line ← zip_map (opt2 (λ fast_value slow_value, Ok (fast_value - slow_value)%dec)) fast slow;
      signal ← _macd_signal_ema macd_line signal_period;
      histogram ← zip_map (opt2 (λ line signal_value, Ok (line - signal_value)%dec)) macd_line signal;
      Ok {[ "macd" := macd_line; "signal" := signal; "histogram" := histogram ]}
  | _ => Raise IndicatorCalculationError
  end.

Definition _stochastic_series (indicator : IndicatorDefinition) (candles : list Candle) : result (gmap string series) :=
  match parameters indicator with
  | StochasticIndicatorParameters k_period d_period =>
      highest ← _rolling_extreme (map high candles) k_period true;
      lowest ← _rolling_extreme (map low candles) k_period false;
      pairs ← zip_strict candles highest;
      percent_k ← zip_map (λ p low_value,
        match p.2, low_value with
        | Some high_value, Some low_value =>
            let span := (high_value - low_value)%dec in
            if (span =? d0)%dec then Ok None
            else Some <$> div (hundred * (close p.1 - low_value))%dec span
        | _, _ => Ok None
        end) pairs lowest;
      percent_d ← _simple_moving_average_defined percent_k d_period;
      Ok {[ "k" := percent_k; "d" := percent_d ]}
  | _ => Raise IndicatorCalculationError
  end.

Record RsiState := mk_rsi {
  gains : list decimal;
  losses : list decimal;
  averages : option (decimal * decimal)
}.

(** The strength of one bar from its two averages. *)
Definition rsi_value (average_gain average_loss : decimal) : result decimal :=
  if (average_gain =? d0)%dec && (average_loss =? d0)%dec then Ok (of_nat 50)
  else if (average_loss =? d0)%dec then Ok hundred
  else div (hundred * average_gain)%dec (average_gain + average_loss)%dec.

Definition rsi_step (values : list decimal) (period : nat) (state : RsiState) (index : nat)
    : result (RsiState * option decimal) :=
  let change := (at_ values index - at_ values (index - 1))%dec in
  let gain := dmax change d0 in
  let loss := dmax (- change)%dec d0 in
  let gains := gains state ++ [gain] in
  let losses := losses state ++ [loss] in
  if index <? period then Ok (mk_rsi gains losses (averages state), None)
  else
    avg ← match averages state with
          | None =>
              average_gain ← div (dsum (take period gains)) (of_nat period);
              average_loss ← div (dsum (take period losses)) (of_nat period);
              Ok (average_gain, average_loss)
          | Some (average_gain, average_loss) =>
              average_gain ← div (average_gain * of_nat (period - 1) + gain)%dec (of_nat period);
              average_loss ← div (average_loss * of_nat (period - 1) + loss)%dec (of_nat period);
              Ok (average_gain, average_loss)
          end;
    value ← rsi_value avg.1 avg.2;
    Ok (mk_rsi gains losses (Some avg), Some value).

Definition _relative_strength_index (values : list decimal) (period : nat) : result series :=
  match values with
  | [] => Ok []
  | _ =>
      rest ← loop (rsi_step values period) (mk_rsi [] [] None) (seq 1 (length values - 1));
      Ok (None :: rest)
  end.

Definition _rate_of_change (values : list decimal) (period : nat) : result series :=
  each_index (length values) (λ index,
    if index <? period then Ok None
    else
      let past := at_ values (index - period) in
      if (past =? d0)%dec then Ok None
      else Some <$> div (hundred * (at_ values index - past))%dec past).

Definition _williams_percent_r (candles : list Candle) (period : nat) : result series :=
  highest ← _rolling_extreme (map high candles) period true;
  lowest ← _rolling_extreme (map low candles) period false;
  pairs ← zip_strict candles highest;
  zip_map (λ p low_value,
    match p.2, low_value with
    | Some high_value, Some low_value =>
        let span := (high_value - low_value)%dec in
        if (span =? d0)%dec then Ok None
        else ratio ← div (high_value - close p.1)%dec span; Ok (Some (ratio * of_Z (-100))%dec)
    | _, _ => Ok None
    end) pairs lowest.

(** [(high + low + close) / Decimal(3)] *)
Definition typical_price (candle : Candle) : result decimal :=
  div (high candle + low candle + close candle)%dec (of_nat 3).

Definition _commodity_channel_index (candles : list Candle) (period : nat) : result series :=
  typical ← result_mapM typical_price candles;
  means ← _simple_moving_average typical period;
  loop (λ (_ : unit) p,
    let '(index, mean) := p in
    match mean with
    | None => Ok (tt, None)
    | Some mean =>
        let window := slice typical (index + 1 - period) (index + 1) in
        mad ← div (dsum (map (λ value, abs_ (value - mean)%dec) window)) (of_nat period);
        if (mad =? d0)%dec then Ok (tt, None)
        else value ← div (at_ typical index - mean)%dec (Dec 15 (-3) * mad)%dec; Ok (tt, Some value)
    end) tt (enumerate means).

Definition _momentum (values : list decimal) (period : nat) : result series :=
  each_index (length values) (λ index,
    if index <? period then Ok None
    else Ok (Some (at_ values index - at_ values (index - period))%dec)).

Definition _triple_exponential_rate (values : list decimal) (period : nat) : result series :=
  first ← _exponential_moving_average values period;
  second ← _exponential_moving_average_optional first period;
  third ← _exponential_moving_average_optional second period;
  loop (λ (previous : option decimal) current,
    value ← match current, previous with
            | Some current, Some previous =>
                if (previous =? d0)%dec then Ok None
                else Some <$> div (hundred * (current - previous))%dec previous
            | _, _ => Ok None
            end;
    Ok (current, value)) None third.

Definition _stochastic_rsi_series (indicator : IndicatorDefinition) (candles : list Candle) : result (gmap string series) :=
  match parameters indicator with
  | StochasticRsiIndicatorParameters rsi_period stoch_period k_period d_period =>
      closes ← _locked_source_series indicator candles;
      rsi ← _relative_strength_index closes rsi_period;
      highest ← _rolling_extreme_optional rsi stoch_period true;
      lowest ← _rolling_extreme_optional rsi stoch_period false;
      pairs ← zip_strict rsi highest;
      raw ← zip_map (λ p low_value,
        match p.1, p.2, low_value with
        | Some value, Some high_value, Some low_value =>
            if (high_value - low_value <=? _FLAT_RSI_RANGE)%dec then Ok None
            else Some <$> div (hundred * (value - low_value))%dec (high_value - low_value)%dec
        | _, _, _ => Ok None
        end) pairs lowest;
      percent_k ← _simple_moving_average_defined raw k_period;
      percent_d ← _simple_moving_average_defined percent_k d_period;
      Ok {[ "k" := percent_k; "d" := percent_d ]}
  | _ => Raise IndicatorCalculationError
  end.

Definition _ppo_series (indicator : IndicatorDefinition) (candles : list Candle) : result (gmap string series) :=
  match parameters indicator with
  | MacdIndicatorParameters fast_period slow_period signal_period =>
      closes ← _locked_source_series indicator candles;
      fast ← _exponential_moving_average closes fast_period;
      slow ← _exponential_moving_average closes slow_period;
      line ← zip_map (λ fast_value slow_value,
        match fast_value, slow_value with
        | Some fast_value, Some slow_value =>
            if (slow_value =? d0)%dec then Ok None
            else Some <$> div (hundred * (fast_value - slow_value))%dec slow_value
        | _, _ => Ok None
        end) fast slow;
      signal ← _exponential_moving_average_optional line signal_period;
      histogram ← _difference line signal;
      Ok {[ "ppo" := line; "signal" := signal; "histogram" := histogram ]}
  | _ => Raise IndicatorCalculationError
  end.

Definition _pressure_average (pressure ranges : list decimal) (index period : nat) : result (option decimal) :=
  let '(pressure_sum, range_sum) :=
    fold_left (λ acc position, ((acc.1 + at_ pressure position)%dec, (acc.2 + at_ ranges position)%dec))
      (seq (index - period + 1) period) (d0, d0) in
  if (range_sum =? d0)%dec then Ok None else Some <$> div pressure_sum range_sum.

Definition _ultimate_oscillator_values (indicator : IndicatorDefinition) (candles : list Candle) : result series :=
  match parameters indicator with
  | UltimateOscillatorIndicatorParameters short_period medium_period long_period =>
      let pressure := d0 :: map (λ p : Candle * Candle,
        (close p.2 - dmin (low p.2) (close p.1))%dec) (pairwise candles) in
      let ranges := d0 :: map (λ p : Candle * Candle,
        (dmax (high p.2) (close p.1) - dmin (low p.2) (close p.1))%dec) (pairwise candles) in
      each_index (length candles) (λ index,
        if index <? long_period then Ok None
        else
          short ← _pressure_average pressure ranges index short_period;
          medium ← _pressure_average pressure ranges index medium_period;
          long ← _pressure_average pressure ranges index long_period;
          match short, medium, long with
          | Some short, Some medium, Some long =>
              Some <$> div (hundred * (of_nat 4 * short + of_nat 2 * medium + long))%dec (of_nat 7)
          | _, _, _ => Ok None
          end)
  | _ => Raise IndicatorCalculationError
  end.

Definition _awesome_oscillator_values (indicator : IndicatorDefinition) (candles : list Candle) : result series :=
  match parameters indicator with
  | AwesomeOscillatorIndicatorParameters fast_period slow_period =>
      median ← result_mapM (λ candle, div (high candle + low candle)%dec (of_nat 2)) candles;
      fast ← _simple_moving_average median fast_period;
      slow ← _simple_moving_average median slow_period;
      _difference fast slow
  | _ => Raise IndicatorCalculationError
  end.

Definition _chande_momentum_oscillator (values : list decimal) (period : nat) : result series :=
  each_index (length values) (λ index,
    if index <? period then Ok None
    else
      let '(gains, losses) :=
        fold_left (λ acc position,
          let change := (at_ values position - at_ values (position - 1))%dec in
          if (d0 <? change)%dec then ((acc.1 + change)%dec, acc.2)
          else if (change <? d0)%dec then (acc.1, (acc.2 - change)%dec)
          else acc) (seq (index - period + 1) period) (d0, d0) in
      let total := (gains + losses)%dec in
      if (total =? d0)%dec then Ok None
      else Some <$> div (hundred * (gains - losses))%dec total).

Definition _true_strength_series (indicator : IndicatorDefinition) (candles : list Candle) : result (gmap string series) :=
  match parameters indicator with
  | TsiIndicatorParameters long_period short_period signal_period =>
      closes ← _locked_source_series indicator candles;
      let changes := changes_of (λ previous current, Some (current - previous)%dec) closes in
      let magnitudes := changes_of (λ previous current, Some (abs_ (current - previous)%dec)) closes in
      long_change ← _exponential_moving_average_optional changes long_period;
      numerator ← _exponential_moving_average_optional long_change short_period;
      long_magnitude ← _exponential_moving_average_optional magnitudes long_period;
      denominator ← _exponential_moving_average_optional long_magnitude short_period;
      tsi ← zip_map (λ top bottom,
        match top, bottom with
        | Some top, Some bottom =>
            if (bottom =? d0)%dec then Ok None else Some <$> div (hundred * top)%dec bottom
        | _, _ => Ok None
        end) numerator denominator;
      signal ← _exponential_moving_average_optional tsi signal_period;
      Ok {[ "tsi" := tsi; "signal" := signal ]}
  | _ => Raise IndicatorCalculationError
  end.

(** ** volume.py *)

Definition volume_at (candles : list Candle) (index : nat) : decimal := at_ (map volume candles) index.

Definition _money_flow_index (candles : list Candle) (period : nat) : result series :=
  typical ← result_mapM typical_price candles;
  each_index (length candles) (λ index,
    if index <? period then Ok None
    else
      let '(positive, negative) :=
        fold_left (λ acc flow_index,
          let current := at_ typical flow_index in
          let previous := at_ typical (flow_index - 1) in
          let raw := (current * volume_at candles flow_index)%dec in
          if (previous <? current)%dec then ((acc.1 + raw)%dec, acc.2)
          else if (current <? previous)%dec then (acc.1, (acc.2 + raw)%dec)
          else acc) (seq (index - period + 1) period) (d0, d0) in
      let total := (positive + negative)%dec in
      if (total =? d0)%dec then Ok None else Some <$> div (hundred * positive)%dec total).

Definition _money_flow_multiplier (candle : Candle) : result decimal :=
  let span := (high candle - low candle)%dec in
  if (span =? d0)%dec then Ok d0
  else div ((close candle - low candle) - (high candle - close candle))%dec span.

(** The weighted sum and the volume of a window, each summed oldest first. *)
Definition volume_folds (flow volumes : list decimal) (first_position count : nat) : decimal * decimal :=
  fold_left (λ acc position, ((acc.1 + at_ flow position)%dec, (acc.2 + at_ volumes position)%dec))
    (seq first_position count) (d0, d0).

Definition over_volume (sums : decimal * decimal) : result (option decimal) :=
  if (sums.2 =? d0)%dec then Ok None else Some <$> div sums.1 sums.2.

Definition _volume_weighted_moving_average (candles : list Candle) (period : nat) : result series :=
  each_index (length candles) (λ index,
    if index + 1 <? period then Ok None
    else over_volume (volume_folds (map (λ candle, (close candle * volume candle)%dec) candles)
                        (map volume candles) (index + 1 - period) period)).

Definition _on_balance_volume_series (indicator : IndicatorDefinition) (candles : list Candle) : result (gmap string series) :=
  match parameters indicator with
  | SignalLineIndicatorParameters signal_period =>
      balance ← loop (λ (state : decimal * option decimal) candle,
        let running := match state.2 with
                       | None => state.1
                       | Some previous_close =>
                           if (previous_close <? close candle)%dec then (state.1 + volume candle)%dec
                           else if (close candle <? previous_close)%dec then (state.1 - volume candle)%dec
                           else state.1
                       end in
        Ok ((running, Some (close candle)), running)) (d0, None) candles;
      signal ← _simple_moving_average balance signal_period;
      Ok {[ "obv" := map Some balance; "signal" := signal ]}
  | _ => Raise IndicatorCalculationError
  end.

Definition _accumulation_distribution_series (indicator : IndicatorDefinition) (candles : list Candle)
    : result (gmap string series) :=
  match parameters indicator with
  | SignalLineIndicatorParameters signal_period =>
      line ← loop (λ running candle,
        multiplier ← _money_flow_multiplier candle;
        let running := (running + multiplier * volume candle)%dec in
        Ok (running, running)) d0 candles;
      signal ← _simple_moving_average line signal_period;
      Ok {[ "ad" := map Some line; "signal" := signal ]}
  | _ => Raise IndicatorCalculationError
  end.

Definition _chaikin_money_flow (candles : list Candle) (period : nat) : result series :=
  flows ← result_mapM (λ candle, multiplier ← _money_flow_multiplier candle; Ok (multiplier * volume candle)%dec) candles;
  each_index (length candles) (λ index,
    if index + 1 <? period then Ok None
    else over_volume (volume_folds flows (map volume candles) (index + 1 - period) period)).

Definition _rolling_volume_weighted_average_price (candles : list Candle) (period : nat) : result series :=
  typical ← result_mapM typical_price candles;
  each_index (length candles) (λ index,
    if index + 1 <? period then Ok None
    else
      let weighted := map (λ p, (p.1 * volume p.2)%dec) (zip typical candles) in
      over_volume (volume_folds weighted (map volume candles) (index + 1 - period) period)).

Definition _force_index (candles : list Candle) (period : nat) : result series :=
  _exponential_moving_average_optional
    (changes_of (λ previous candle, Some ((close candle - close previous) * volume candle)%dec) candles) period.

End Math.

(** * Volatility, bands and trend systems ([evaluation/indicator_math/])

    [volatility.py] and [trend.py]: true ranges and the bands built on them, and the systems
    that carry a trend from bar to bar. *)

Open Scope nat_scope.

Section Math.
Context {dc : DecimalContext}.

(** ** volatility.py *)

(** Lower and upper band around a middle line. *)
Definition band (mid_width : option (decimal * decimal)) (upper : bool) : option decimal :=
  match mid_width with
  | None => None
  | Some (mid, width) => Some (if upper then mid + width else mid - width)%dec
  end.

Definition _bollinger_series (indicator : IndicatorDefinition) (candles : list Candle) : result (gmap string series) :=
  match parameters indicator with
  | BollingerIndicatorParameters period stdev_multiplier =>
      closes ← _locked_source_series indicator candles;
      middle ← _simple_moving_average closes period;
      deviation ← _rolling_population_stdev closes period;
      widths ← zip_map (opt2 (λ mid stdev, Ok (mid, (stdev_multiplier * stdev)%dec))) middle deviation;
      Ok {[ "middle" := middle; "upper" := map (λ w, band w true) widths; "lower" := map (λ w, band w false) widths ]}
  | _ => Raise IndicatorCalculationError
  end.

Definition _true_range (candle : Candle) (previous_close : option decimal) : decimal :=
  let high_low := (high candle - low candle)%dec in
  match previous_close with
  | None => high_low
  | Some previous_close =>
      dmax (dmax high_low (abs_ (high candle - previous_close)%dec)) (abs_ (low candle - previous_close)%dec)
  end.

Record AtrState := mk_atr {
  true_ranges : list decimal;
  atr_previous_close : option decimal;
  previous_atr : option decimal
}.

Definition atr_step (period : nat) (state : AtrState) (p : nat * Candle) : result (AtrState * option decimal) :=
  let '(index, candle) := p in
  let true_range := _true_range candle (atr_previous_close state) in
  let ranges := true_ranges state ++ [true_range] in
  if index + 1 <? period then Ok (mk_atr ranges (Some (close candle)) (previous_atr state), None)
  else
    atr ← match previous_atr state with
          | None => div (dsum (drop (length ranges - period) ranges)) (of_nat period)
          | Some previous => div (previous * of_nat (period - 1) + true_range)%dec (of_nat period)
          end;
    Ok (mk_atr ranges (Some (close candle)) (Some atr), Some atr).

Definition _average_true_range (candles : list Candle) (period : nat) : result series :=
  loop (atr_step period) (mk_atr [] None None) (enumerate candles).

Definition _true_ranges (candles : list Candle) : result (list decimal) :=
  loop (λ previous_close candle, Ok (Some (close candle), _true_range candle previous_close)) None candles.

Definition _keltner_series (indicator : IndicatorDefinition) (candles : list Candle) : result (gmap string series) :=
  match parameters indicator with
  | KeltnerIndicatorParameters period atr_period multiplier =>
      middle ← _exponential_moving_average (map close candles) period;
      atr ← _average_true_range candles atr_period;
      widths ← zip_map (opt2 (λ mid atr_value, Ok (mid, (multiplier * atr_value)%dec))) middle atr;
      Ok {[ "upper" := map (λ w, band w true) widths; "middle" := middle; "lower" := map (λ w, band w false) widths ]}
  | _ => Raise IndicatorCalculationError
  end.

Definition half_sum (a b : decimal) : result decimal := div (a + b)%dec (of_nat 2).

Definition _donchian_series (indicator : IndicatorDefinition) (candles : list Candle) : result (gmap string series) :=
  period ← _period_parameter indicator;
  upper ← _rolling_extreme (map high candles) period true;
  lower ← _rolling_extreme (map low candles) period false;
  middle ← zip_map (opt2 half_sum) upper lower;
  Ok {[ "upper" := upper; "middle" := middle; "lower" := lower ]}.

(** [bands[name]] *)
Definition series_of (matrix : gmap string series) (name : string) : result series :=
  match matrix !! name with Some values => Ok values | None => Raise KeyError end.

Definition _bollinger_percent_b_values (indicator : IndicatorDefinition) (candles : list Candle) : result series :=
  bands ← _bollinger_series indicator candles;
  upper ← series_of bands "upper";
  lower ← series_of bands "lower";
  pairs ← zip_strict candles upper;
  zip_map (λ p lower,
    match p.2, lower with
    | Some upper, Some lower =>
        if (upper =? lower)%dec then Ok None
        else Some <$> div (close p.1 - lower)%dec (upper - lower)%dec
    | _, _ => Ok None
    end) pairs lower.

Definition _bollinger_bandwidth_values (indicator : IndicatorDefinition) (candles : list Candle) : result series :=
  bands ← _bollinger_series indicator candles;
  middle ← series_of bands "middle";
  upper ← series_of bands "upper";
  lower ← series_of bands "lower";
  pairs ← zip_strict middle upper;
  zip_map (λ p lower,
    match p.1, p.2, lower with
    | Some middle, Some upper, Some lower =>
        if (middle =? d0)%dec then Ok None else Some <$> div (upper - lower)%dec middle
    | _, _, _ => Ok None
    end) pairs lower.

Definition _normalized_average_true_range (candles : list Candle) (period : nat) : result series :=
  atr ← _average_true_range candles period;
  zip_map (λ candle atr,
    match atr with
    | None => Ok None
    | Some atr => if (close candle =? d0)%dec then Ok None else Some <$> div (hundred * atr)%dec (close candle)
    end) candles atr.

Definition _choppiness_index (candles : list Candle) (period : nat) : result series :=
  ranges ← _true_ranges candles;
  highest ← _rolling_extreme (map high candles) period true;
  lowest ← _rolling_extreme (map low candles) period false;
  log_period ← log10 (of_nat period);
  pairs ← zip_strict highest lowest;
  loop (λ (_ : unit) p,
    let '(index, (high_value, low_value)) := p in
    match high_value, low_value with
    | Some high_value, Some low_value =>
        if (high_value =? low_value)%dec then Ok (tt, None)
        else
          let range_sum := dsum (slice ranges (index + 1 - period) (index + 1)) in
          ratio ← div range_sum (high_value - low_value)%dec;
          logarithm ← log10 ratio;
          value ← div (hundred * logarithm)%dec log_period;
          Ok (tt, Some value)
    | _, _ => Ok (tt, None)
    end) tt (enumerate pairs).

Definition _sample_deviation (window : list decimal) : result decimal :=
  mean ← div (dsum window) (of_nat (length window));
  variance ← div (sum_squares mean window) (of_Z (Z.of_nat (length window) - 1));
  deviation_of variance.

Definition _historical_volatility_values (indicator : IndicatorDefinition) (candles : list Candle) : result series :=
  period ← _period_parameter indicator;
  scale ← match parameters indicator with
          | HistoricalVolatilityIndicatorParameters _ annualization_periods => Some <$> sqrt (of_Z annualization_periods)
          | _ => Ok None
          end;
  rest ← result_mapM (λ p : Candle * Candle,
    if (close p.1 <=? d0)%dec || (close p.2 <=? d0)%dec then Ok None
    else ratio ← div (close p.2) (close p.1); Some <$> ln ratio) (pairwise candles);
  let returns := after_first candles rest in
  result_mapM (λ window,
    match window with
    | None => Ok None
    | Some window =>
        deviation ← _sample_deviation window;
        let volatility := (hundred * deviation)%dec in
        Ok (Some (match scale with None => volatility | Some scale => (volatility * scale)%dec end))
    end) (_windows_defined returns period).

(** ** trend.py *)

(** True range and directional moves of one bar. *)
Definition directional_moves (previous : option Candle) (candle : Candle) : decimal * decimal * decimal :=
  match previous with
  | None => ((high candle - low candle)%dec, d0, d0)
  | Some previous =>
      let up_move := (high candle - high previous)%dec in
      let down_move := (low previous - low candle)%dec in
      (_true_range candle (Some (close previous)),
       if (down_move <? up_move)%dec && (d0 <? up_move)%dec then up_move else d0,
       if (up_move <? down_move)%dec && (d0 <? down_move)%dec then down_move else d0)
  end.

(** Directional lines and index of one bar, from its smoothed true range and moves. *)
Definition directional_index (tr_value plus_value minus_value : option decimal)
    : result (option decimal * option decimal * option decimal) :=
  match tr_value, plus_value, minus_value with
  | Some tr_value, Some plus_value, Some minus_value =>
      if (tr_value =? d0)%dec then Ok (None, None, None)
      else
        plus_line ← div (hundred * plus_value)%dec tr_value;
        minus_line ← div (hundred * minus_value)%dec tr_value;
        let di_sum := (plus_line + minus_line)%dec in
        if (di_sum =? d0)%dec then Ok (Some plus_line, Some minus_line, None)
        else
          dx ← div (hundred * abs_ (plus_line - minus_line))%dec di_sum;
          Ok (Some plus_line, Some minus_line, Some dx)
  | _, _, _ => Ok (None, None, None)
  end.

Definition _adx_series (indicator : IndicatorDefinition) (candles : list Candle) : result (gmap string series) :=
  match parameters indicator with
  | IndicatorParameters period =>
      moves ← loop (λ previous candle, Ok (Some candle, directional_moves previous candle)) None candles;
      smoothed_tr ← _wilder_smooth (map (λ m, m.1.1) moves) period;
      smoothed_plus ← _wilder_smooth (map (λ m, m.1.2) moves) period;
      smoothed_minus ← _wilder_smooth (map snd moves) period;
      pairs ← zip_strict smoothed_tr smoothed_plus;
      lines ← zip_map (λ p minus_value, directional_index p.1 p.2 minus_value) pairs smoothed_minus;
      adx_values ← _wilder_smooth_optional (map snd lines) period;
      Ok {[ "adx" := adx_values; "plus_di" := map (λ l, l.1.1) lines; "minus_di" := map (λ l, l.1.2) lines ]}
  | _ => Raise IndicatorCalculationError
  end.

Record _SupertrendState := mk_supertrend {
  st_upper : decimal;
  st_lower : decimal;
  direction : Z
}.

Definition _advance_supertrend (state : _SupertrendState) (close previous_close midpoint width : decimal) : _SupertrendState :=
  let basic_upper := (midpoint + width)%dec in
  let basic_lower := (midpoint - width)%dec in
  let upper := if (basic_upper <? st_upper state)%dec || (st_upper state <? previous_close)%dec
               then basic_upper else st_upper state in
  let lower := if (st_lower state <? basic_lower)%dec || (previous_close <? st_lower state)%dec
               then basic_lower else st_lower state in
  mk_supertrend upper lower
    (if (direction state <? 0)%Z then (if (upper <? close)%dec then 1 else -1)
     else (if (close <? lower)%dec then -1 else 1))%Z.

(** One bar: its candle and its average true range. *)
Definition supertrend_step (multiplier : decimal) (s : option _SupertrendState * option decimal)
    (p : Candle * option decimal)
    : result (option _SupertrendState * option decimal * (option decimal * option decimal)) :=
  let '(state, previous_close) := s in
  let '(candle, atr_value) := p in
  match atr_value with
  | None => Ok ((state, Some (close candle)), (None, None))
  | Some atr_value =>
      midpoint ← div (high candle + low candle)%dec (of_nat 2);
      let width := (multiplier * atr_value)%dec in
      let state := match state, previous_close with
                   | Some state, Some previous_close =>
                       _advance_supertrend state (close candle) previous_close midpoint width
                   | _, _ => mk_supertrend (midpoint + width)%dec (midpoint - width)%dec (-1)
                   end in
      Ok ((Some state, Some (close candle)),
          (Some (if (0 <? direction state)%Z then st_lower state else st_upper state),
           Some (of_Z (direction state))))
  end.

Definition _supertrend_series (indicator : IndicatorDefinition) (candles : list Candle) : result (gmap string series) :=
  match parameters indicator with
  | SupertrendIndicatorParameters period multiplier =>
      atr ← _average_true_range candles period;
      pairs ← zip_strict candles atr;
      rows ← loop (supertrend_step multiplier) (None, None) pairs;
      Ok {[ "value" := map fst rows; "direction" := map snd rows ]}
  | _ => Raise IndicatorCalculationError
  end.

Record _SarState := mk_sar {
  is_long : bool;
  sar : decimal;
  extreme : decimal;
  acceleration : decimal
}.

Definition _advance_long_sar (state : _SarState) (candle : Candle) (previous_high previous_low step max_step : decimal)
    : _SarState * decimal :=
  if (low candle <=? sar state)%dec then
    let reported := dmax (dmax (extreme state) previous_high) (high candle) in
    let following := (reported + step * (low candle - reported))%dec in
    (mk_sar false (dmax (dmax following previous_high) (high candle)) (low candle) step, reported)
  else
    let higher := (extreme state <? high candle)%dec in
    let extreme' := if higher then high candle else extreme state in
    let acceleration' := if higher then dmin (acceleration state + step)%dec max_step else acceleration state in
    let following := (sar state + acceleration' * (extreme' - sar state))%dec in
    (mk_sar (is_long state) (dmin (dmin following previous_low) (low candle)) extreme' acceleration', sar state).

Definition _advance_short_sar (state : _SarState) (candle : Candle) (previous_high previous_low step max_step : decimal)
    : _SarState * decimal :=
  if (sar state <=? high candle)%dec then
    let reported := dmin (dmin (extreme state) previous_low) (low candle) in
    let following := (reported + step * (high candle - reported))%dec in
    (mk_sar true (dmin (dmin following previous_low) (low candle)) (high candle) step, reported)
  else
    let lower := (low candle <? extreme state)%dec in
    let extreme' := if lower then low candle else extreme state in
    let acceleration' := if lower then dmin (acceleration state + step)%dec max_step else acceleration state in
    let following := (sar state + acceleration' * (extreme' - sar state))%dec in
    (mk_sar (is_long state) (dmax (dmax following previous_high) (high candle)) extreme' acceleration', sar state).

(** The trend the first two bars open. *)
Definition sar_start (first second : Candle) (step : decimal) : _SarState :=
  let down_move := (low first - low second)%dec in
  let up_move := (high second - high first)%dec in
  let long := negb ((d0 <? down_move)%dec && (up_move <? down_move)%dec) in
  mk_sar long (if long then low first else high first) (if long then high second else low second) step.

Definition sar_step (step max_step : decimal) (s : _SarState * (decimal * decimal)) (candle : Candle)
    : result (_SarState * (decimal * decimal) * option decimal) :=
  let '(state, (previous_high, previous_low)) := s in
  let '(state, reported) :=
    (if is_long state then _advance_long_sar else _advance_short_sar)
      state candle previous_high previous_low step max_step in
  Ok ((state, (high candle, low candle)), Some reported).

Definition _parabolic_sar_values (indicator : IndicatorDefinition) (candles : list Candle) : result series :=
  match parameters indicator with
  | ParabolicSarIndicatorParameters step max_step =>
      match candles with
      | [] => Ok []
      | [_] => Ok [None]
      | first :: (second :: _) as rest =>
          values ← loop (sar_step step max_step) (sar_start first second step, (high second, low second)) rest;
          Ok (None :: values)
      end
  | _ => Raise IndicatorCalculationError
  end.

(** The most recent index of a window's extreme. *)
Definition extreme_index (replace : decimal → decimal → bool) (values : list decimal) (first_position count : nat) : nat :=
  fold_left (λ best position, if replace (at_ values position) (at_ values best) then position else best)
    (seq (S first_position) count) first_position.

Definition _aroon_series (indicator : IndicatorDefinition) (candles : list Candle) : result (gmap string series) :=
  period ← _period_parameter indicator;
  lines ← each_index (length candles) (λ index,
    if index <? period then Ok (None, None, None)
    else
      let high_index := extreme_index (λ value best, (best <=? value)%dec) (map high candles) (index - period) period in
      let low_index := extreme_index (λ value best, (value <=? best)%dec) (map low candles) (index - period) period in
      up_value ← div (hundred * of_nat (period - (index - high_index)))%dec (of_nat period);
      down_value ← div (hundred * of_nat (period - (index - low_index)))%dec (of_nat period);
      Ok (Some up_value, Some down_value, Some (up_value - down_value)%dec));
  Ok {[ "up" := map (λ l, l.1.1) lines; "down" := map (λ l, l.1.2) lines; "oscillator" := map snd lines ]}.

Definition _midpoint_series (candles : list Candle) (period : nat) : result series :=
  highest ← _rolling_extreme (map high candles) period true;
  lowest ← _rolling_extreme (map low candles) period false;
  zip_map (opt2 half_sum) highest lowest.

Definition _ichimoku_series (indicator : IndicatorDefinition) (candles : list Candle) : result (gmap string series) :=
  match parameters indicator with
  | IchimokuIndicatorParameters tenkan_period kijun_period senkou_b_period =>
      tenkan ← _midpoint_series candles tenkan_period;
      kijun ← _midpoint_series candles kijun_period;
      senkou_a ← zip_map (opt2 half_sum) tenkan kijun;
      senkou_b ← _midpoint_series candles senkou_b_period;
      Ok {[ "tenkan" := tenkan; "kijun" := kijun; "senkou_a" := senkou_a; "senkou_b" := senkou_b ]}
  | _ => Raise IndicatorCalculationError
  end.

(** The three sums of a vortex window, over the bars and their predecessors. *)
Definition vortex_folds (pairs : list (Candle * Candle)) : decimal * decimal * decimal :=
  fold_left (λ acc p,
    let '(plus_sum, minus_sum, range_sum) := acc in
    let '(previous, current) := p in
    ((plus_sum + abs_ (high current - low previous))%dec,
     (minus_sum + abs_ (low current - high previous))%dec,
     (range_sum + _true_range current (Some (close previous)))%dec)) pairs (d0, d0, d0).

Definition _vortex_series (indicator : IndicatorDefinition) (candles : list Candle) : result (gmap string series) :=
  period ← _period_parameter indicator;
  lines ← each_index (length candles) (λ index,
    if index <? period then Ok (None, None)
    else
      let '(plus_sum, minus_sum, range_sum) := vortex_folds (pairwise (slice candles (index - period) (index + 1))) in
      if (range_sum =? d0)%dec then Ok (None, None)
      else
        plus ← div plus_sum range_sum;
        minus ← div minus_sum range_sum;
        Ok (Some plus, Some minus));
  Ok {[ "plus" := map fst lines; "minus" := map snd lines ]}.

End Math.
