(* ===== verification/Indicators.v ===== *)
(** * Indicators: the indicator engine ([evaluation/indicators.py])

    [calculate_indicator_rows] computes every declared indicator over one instrument's closed
    bars and returns one row of values per bar: the dispatch tables that map a kind to its
    calculation, the declared bar lag of an indicator, and the lags requested by operands. *)

From S2P Require Import Prelude Decimals DecimalFunctions Market Series IndicatorSpec Conditions.
From S2P Require Import IndicatorMath Calculations.

Open Scope nat_scope.

Section Engine.
Context {dc : DecimalContext}.

(** Period kinds that read whole candles. *)
Definition _CANDLE_CALCULATORS (kind : IndicatorKind) : option (list Candle → nat → result (list (option decimal))) :=
  match kind with
  | ATR => Some _average_true_range
  | WILLIAMS_R => Some _williams_percent_r
  | CCI => Some _commodity_channel_index
  | MFI => Some _money_flow_index
  | VWMA => Some _volume_weighted_moving_average
  | NATR => Some _normalized_average_true_range
  | CHOPPINESS => Some _choppiness_index
  | CMF => Some _chaikin_money_flow
  | VWAP => Some _rolling_volume_weighted_average_price
  | FORCE_INDEX => Some _force_index
  | _ => None
  end.

(** Period kinds over one selected (or locked) field. *)
Definition _SERIES_CALCULATORS (kind : IndicatorKind) : option (list decimal → nat → result (list (option decimal))) :=
  match kind with
  | SMA => Some _simple_moving_average
  | VOLUME_SMA => Some _simple_moving_average
  | EMA => Some _exponential_moving_average
  | RSI => Some _relative_strength_index
  | HIGHEST => Some _rolling_highest
  | LOWEST => Some _rolling_lowest
  | STDEV => Some _rolling_population_stdev
  | STDEV_SAMPLE => Some _rolling_sample_stdev
  | ROC => Some _rate_of_change
  | WMA => Some _weighted_moving_average
  | MOMENTUM => Some _momentum
  | DEMA => Some _double_exponential_moving_average
  | TEMA => Some _triple_exponential_moving_average
  | HMA => Some _hull_moving_average
  | TRIX => Some _triple_exponential_rate
  | CMO => Some _chande_momentum_oscillator
  | ZSCORE => Some _rolling_zscore
  | PERCENT_RANK => Some _percent_rank
  | _ => None
  end.

(** Single-output kinds whose parameters are not the plain period block. *)
Definition _SHAPED_CALCULATORS (kind : IndicatorKind)
    : option (IndicatorDefinition → list Candle → result (list (option decimal))) :=
  match kind with
  | KAMA => Some _kaufman_adaptive_values
  | PARABOLIC_SAR => Some _parabolic_sar_values
  | ULTIMATE_OSCILLATOR => Some _ultimate_oscillator_values
  | AWESOME_OSCILLATOR => Some _awesome_oscillator_values
  | BOLLINGER_PERCENT_B => Some _bollinger_percent_b_values
  | BOLLINGER_BANDWIDTH => Some _bollinger_bandwidth_values
  | HISTORICAL_VOLATILITY => Some _historical_volatility_values
  | _ => None
  end.

Definition _MULTI_SERIES_CALCULATORS (kind : IndicatorKind)
    : option (IndicatorDefinition → list Candle → result (gmap string (list (option decimal)))) :=
  match kind with
  | MACD => Some _macd_series
  | BOLLINGER => Some _bollinger_series
  | STOCHASTIC => Some _stochastic_series
  | ADX => Some _adx_series
  | SUPERTREND => Some _supertrend_series
  | AROON => Some _aroon_series
  | ICHIMOKU => Some _ichimoku_series
  | VORTEX => Some _vortex_series
  | LINEAR_REGRESSION => Some _linear_regression_series
  | STOCHASTIC_RSI => Some _stochastic_rsi_series
  | PPO => Some _ppo_series
  | TSI => Some _true_strength_series
  | KELTNER => Some _keltner_series
  | DONCHIAN => Some _donchian_series
  | OBV => Some _on_balance_volume_series
  | ACCUMULATION_DISTRIBUTION => Some _accumulation_distribution_series
  | _ => None
  end.

Definition _identity_values (indicator : IndicatorDefinition) (candles : list Candle) : result (list (option decimal)) :=
  values ← _locked_source_series indicator candles; Ok (map Some values).

Definition _constant_values (indicator : IndicatorDefinition) (candles : list Candle) : result (list (option decimal)) :=
  match parameters indicator with
  | ConstantIndicatorParameters value => Ok (map (λ _, Some value) candles)
  | _ => Raise IndicatorCalculationError
  end.

Definition _indicator_values (indicator : IndicatorDefinition) (candles : list Candle) : result (list (option decimal)) :=
  match kind indicator with
  | IDENTITY => _identity_values indicator candles
  | CONSTANT => _constant_values indicator candles
  | k =>
      match _SHAPED_CALCULATORS k with
      | Some calculator => calculator indicator candles
      | None =>
          match parameters indicator with
          | IndicatorParameters period =>
              match _CANDLE_CALCULATORS k with
              | Some calculator => calculator candles period
              | None =>
                  values ← _locked_source_series indicator candles;
                  match _SERIES_CALCULATORS k with
                  | Some calculator => calculator values period
                  | None => Raise IndicatorCalculationError
                  end
              end
          | _ => Raise IndicatorCalculationError
          end
      end
  end.

Definition _multi_series_values (indicator : IndicatorDefinition) (candles : list Candle)
    : result (gmap string (list (option decimal))) :=
  match _MULTI_SERIES_CALCULATORS (kind indicator) with
  | Some calculator => calculator indicator candles
  | None => Raise IndicatorCalculationError
  end.

(** [values[index]] *)
Definition value_at (values : list (option decimal)) (index : nat) : result (option decimal) :=
  match values !! index with Some value => Ok value | None => Raise IndexError end.

(** One row of a multi-output indicator, in the declared order of its series. *)
Definition series_row (id : string) (names : list string) (matrix : gmap string (list (option decimal))) (index : nat)
    : result values :=
  foldM (λ (row : values) name,
    values ← series_of matrix name; value ← value_at values index;
    Ok (<[ series_key id name := value ]> row)) ∅ names.

Definition _unlagged_keyed_values (indicator : IndicatorDefinition) (candles : list Candle) : result (list values) :=
  match indicator_output_series (kind indicator) with
  | None =>
      values ← _indicator_values indicator candles;
      Ok (map (λ value, {[ ind_id indicator := value ]}) values)
  | Some names =>
      matrix ← _multi_series_values indicator candles;
      each_index (length candles) (series_row (ind_id indicator) names matrix)
  end.

(** [dict.fromkeys(indicator_value_keys(indicator))] *)
Definition undefined_row (indicator : IndicatorDefinition) : values :=
  list_to_map (map (λ key, (key, None)) (indicator_value_keys indicator)).

Definition _keyed_indicator_values (indicator : IndicatorDefinition) (candles : list Candle) : result (list values) :=
  rows ← _unlagged_keyed_values indicator candles;
  let offset := indicator_offset indicator in
  if offset =? 0 then Ok rows
  else
    let lead := Nat.min offset (length rows) in
    Ok (repeat (undefined_row indicator) lead ++ take (length rows - lead) rows).

(** [row.update(keyed)] *)
Definition update (row keyed : values) : values := keyed ∪ row.

(** [for index, row in enumerate(rows): row[key] = rows[index - offset].get(base_key)], once
    per lagged operand; the key read is never the key written. *)
Definition lag_operand (known : list string) (rows : list values) (operand : IndicatorOperand) : list values :=
  match operand_offset operand with
  | None => rows
  | Some offset =>
      if negb (bool_decide (Conditions.indicator operand ∈ known)) then rows
      else
        let base_key := operand_value_key (mk_operand (Conditions.indicator operand) (series operand) None) in
        let key := operand_value_key operand in
        imap (λ index row,
          <[ key := if index <? offset then None else row_get (default ∅ (rows !! (index - offset))) base_key ]> row) rows
  end.

Definition calculate_indicator_rows (indicators : list IndicatorDefinition) (candles : list Candle)
    (operands : list IndicatorOperand) : result (list values) :=
  rows ← foldM (λ rows indicator,
    keyed_rows ← _keyed_indicator_values indicator candles;
    zip_map (λ row keyed, Ok (update row keyed)) rows keyed_rows) (map (λ _, ∅ : values) candles) indicators;
  Ok (fold_left (lag_operand (map ind_id indicators)) operands rows).

End Engine.
