(* ===== verification/IndicatorWarmup.v ===== *)
(** * IndicatorWarmup: when values begin

    The first bar at which every kind of indicator has a value, and that the schema's minimum
    warmup says exactly that. *)

From S2P Require Import Prelude Decimals Market IndicatorSpec Conditions Series DecimalFunctions IndicatorMath.
From S2P Require Import Calculations Indicators.

(** * When an indicator has a value

    For every calculation, the bar before which it has no value and, where no division can
    be undefined, the bar from which it always has one. The lemmas are named
    [<calculation>_early] and [<calculation>_full] and are chained by the hint database
    [warm]. *)

Open Scope nat_scope.

Create HintDb warm.

(** ** Windows of a series with holes *)

Lemma defined_repeat k : defined (repeat None k) = [].
Proof. unfold defined. by induction k. Qed.

Lemma defined_map_Some values : defined (map Some values) = values.
Proof. unfold defined. induction values as [|v values IH]; cbn; [done|]. by f_equal. Qed.

Lemma defined_app xs ys : defined (xs ++ ys) = defined xs ++ defined ys.
Proof. unfold defined. apply omap_app. Qed.

Lemma length_defined xs : length (defined xs) <= length xs.
Proof. unfold defined in *. induction xs as [|[x|] xs IH]; cbn in *; lia. Qed.

Lemma defined_full xs : length (defined xs) = length xs ↔ Forall is_Some xs.
Proof.
  induction xs as [|[x|] xs IH].
  - split; [constructor|done].
  - rewrite Forall_cons. change (defined (Some x :: xs)) with (x :: defined xs). cbn [length]. rewrite <- IH.
    split; [intros [=]; eauto|intros [_ ->]; done].
  - rewrite Forall_cons. change (defined (None :: xs)) with (defined xs). pose proof (length_defined xs).
    split; [cbn; lia|]. intros [[? ?] _]. done.
Qed.

(** A series with no value before [k] has at most one per later bar. *)
Lemma early_count k xs : early k xs -> length (defined xs) <= length xs - k.
Proof.
  revert xs. induction k as [|k IH]; intros xs H; [pose proof (length_defined xs); lia|].
  destruct xs as [|[v|] xs]; [cbn; lia| |].
  - specialize (H 0 v eq_refl). lia.
  - change (defined (None :: xs)) with (defined xs). cbn [length Nat.sub]. apply IH. intros i v Hi.
    specialize (H (S i) v Hi). lia.
Qed.

Lemma early_app k xs ys : early k (xs ++ ys) -> early k xs.
Proof. intros H i v Hi. apply (H i v). by apply lookup_app_l_Some. Qed.

Lemma windows_lookup xs period i w : _windows_defined xs period !! i = Some w ->
  i < length xs ∧ w = (if i + 1 <? period then None
       else let window := defined (slice xs (i + 1 - period) (i + 1)) in
            if length window =? period then Some window else None).
Proof.
  unfold _windows_defined. rewrite list_lookup_imap. destruct (xs !! i) eqn:E; [|done]. intros [= <-].
  apply lookup_lt_Some in E. done.
Qed.

Lemma slice_lookup {A} (l : list A) a b j : slice l a b !! j = (if decide (j < b - a) then l !! (a + j) else None).
Proof.
  unfold slice. case_decide; [by rewrite lookup_take_lt, lookup_drop|]. by rewrite lookup_take_ge by lia.
Qed.

Lemma windows_early k xs period i w : early k xs -> 1 <= period -> _windows_defined xs period !! i = Some (Some w) ->
  k + period - 1 <= i.
Proof.
  intros He Hp (Hi & Hw)%windows_lookup. cbn zeta in Hw. destruct (Nat.ltb_spec (i + 1) period); [done|].
  destruct (Nat.eqb_spec (length (defined (slice xs (i + 1 - period) (i + 1)))) period) as [El|]; [|done].
  assert (Hf : Forall is_Some (slice xs (i + 1 - period) (i + 1)))
    by (apply defined_full; rewrite length_slice by lia; lia).
  rewrite Forall_lookup in Hf. destruct (xs !! (i + 1 - period)) as [y|] eqn:Hy; [|apply lookup_ge_None in Hy; lia].
  destruct (Hf 0 y) as [v ->]; [|specialize (He _ _ Hy); lia].
  rewrite slice_lookup. case_decide; [by rewrite Nat.add_0_r|lia].
Qed.

Lemma windows_full k xs period i w : full k xs -> 1 <= period -> _windows_defined xs period !! i = Some w ->
  k + period - 1 <= i -> is_Some w.
Proof.
  intros Hf Hp (Hi & ->)%windows_lookup Hk. rewrite (proj2 (Nat.ltb_ge _ _)) by lia. cbn zeta.
  rewrite (proj2 (Nat.eqb_eq _ _)); [done|]. assert (Hl : length (slice xs (i + 1 - period) (i + 1)) = period)
    by (rewrite length_slice; lia).
  rewrite <- Hl at 2. apply defined_full, Forall_lookup. intros j y. rewrite slice_lookup. case_decide; [|done].
  intros Hy. eapply Hf; [exact Hy|lia].
Qed.

(** A calculation that maps the complete windows of a series. *)
Lemma map_windows_early {A} (f : list decimal → result A) (g : A → decimal) k xs period ys :
  result_mapM (λ w, match w with None => Ok None | Some w => (λ a, Some (g a)) <$> f w end) (_windows_defined xs period) = Ok ys ->
  1 <= period -> early k xs -> early (k + period - 1) ys.
Proof.
  intros H Hp He i v Hi. destruct (mapM_lookup _ _ _ _ _ H Hi) as ([w|] & Hw & Hf); [|done].
  by eapply windows_early.
Qed.

Lemma map_windows_full {A} (f : list decimal → result A) (g : A → decimal) k xs period ys :
  result_mapM (λ w, match w with None => Ok None | Some w => (λ a, Some (g a)) <$> f w end) (_windows_defined xs period) = Ok ys ->
  1 <= period -> full k xs -> full (k + period - 1) ys.
Proof.
  intros H Hp Hf i y Hi Hk. destruct (mapM_lookup _ _ _ _ _ H Hi) as (w & Hw & Hy).
  destruct (windows_full _ _ _ _ _ Hf Hp Hw Hk) as [win ->]. apply fmap_Ok in Hy as (a & _ & ->). done.
Qed.

(** A value computed from two series needs the right one, and the left one. *)
Ltac refute_guards :=
  let Hd := fresh in
  intros Hd; exfalso; revert Hd; unfold opt2; cbn;
  repeat match goal with |- context [match ?x with _ => _ end] => destruct x end;
  intros Hd; discriminate Hd.
Ltac needs_right := let v := fresh "v" in intros ? v ?; destruct v; [intros _; eexists; reflexivity|refute_guards].
Ltac needs_left := let u := fresh "u" in intros u ? ?; destruct u; [intros _; eexists; reflexivity|refute_guards].

Section Warmup.
Context {dc : DecimalContext}.

Implicit Types (values : list decimal) (xs ys : series) (candles : list Candle).

(** ** Averages *)

(** Calculations that are undefined until an index guard passes. *)
Lemma window_early (g : nat → result (option decimal)) len period ys :
  each_index len (λ i, if i + 1 <? period then Ok None else g i) = Ok ys -> early (period - 1) ys.
Proof. intros H. eapply each_early; [exact H|]. intros i v Hf. cbn beta in Hf. destruct (Nat.ltb_spec (i + 1) period); [done|lia]. Qed.

Lemma window_full (g : nat → result (option decimal)) len period ys :
  each_index len (λ i, if i + 1 <? period then Ok None else g i) = Ok ys ->
  (∀ i y, g i = Ok y -> is_Some y) -> full (period - 1) ys.
Proof.
  intros H Hg. eapply each_full; [exact H|]. intros i y Hf Hk. cbn beta in Hf. destruct (Nat.ltb_spec (i + 1) period); [lia|eauto].
Qed.

Lemma lag_early (g : nat → result (option decimal)) len period ys :
  each_index len (λ i, if i <? period then Ok None else g i) = Ok ys -> early period ys.
Proof. intros H. eapply each_early; [exact H|]. intros i v Hf. cbn beta in Hf. destruct (Nat.ltb_spec i period); [done|lia]. Qed.

Lemma lag_full (g : nat → result (option decimal)) len period ys :
  each_index len (λ i, if i <? period then Ok None else g i) = Ok ys ->
  (∀ i y, g i = Ok y -> is_Some y) -> full period ys.
Proof.
  intros H Hg. eapply each_full; [exact H|]. intros i y Hf Hk. cbn beta in Hf. destruct (Nat.ltb_spec i period); [lia|eauto].
Qed.

Lemma seeded_early advance period values ys : seeded advance period values = Ok ys -> early (period - 1) ys.
Proof.
  intros H i v Hi. destruct (enumerate_loop_lookup _ _ _ _ _ _ H Hi) as (x & u & u' & _ & Hf). cbn in Hf.
  destruct (Nat.ltb_spec (i + 1) period); [done|lia].
Qed.

Lemma seeded_full advance period values ys : seeded advance period values = Ok ys -> full (period - 1) ys.
Proof.
  intros H i y Hi Hk. destruct (enumerate_loop_lookup _ _ _ _ _ _ H Hi) as (x & u & u' & _ & Hf). cbn in Hf.
  destruct (Nat.ltb_spec (i + 1) period); [lia|]. apply bind_Ok in Hf as (a & _ & [= _ <-]). done.
Qed.

Lemma seeded_optional_early advance k period xs ys : seeded_optional advance period xs = Ok ys -> 1 <= period ->
  early k xs -> early (k + period - 1) ys.
Proof.
  intros H Hp. unfold seeded_optional in H.
  enough (∃ u : list decimal * option decimal, length ys = length xs ∧
      (u.2 = None -> u.1 = defined xs) ∧ (u.2 ≠ None -> period <= length (defined xs)) ∧
      (early k xs -> early (k + period - 1) ys)) as (u & _ & _ & _ & He) by exact He.
  refine (loop_ind _ (λ pre u out, length out = length pre ∧
      (u.2 = None -> u.1 = defined pre) ∧ (u.2 ≠ None -> period <= length (defined pre)) ∧
      (early k pre -> early (k + period - 1) out)) _ _ _ _ _ H); [by split_and!|].
  clear H xs ys. intros pre x [seed prev] out u' y (Hl & Hs & Hc & He) Hf. cbn in *.
  rewrite !length_app, defined_app. cbn [length].
  assert (Hearly : early k (pre ++ [x]) -> (is_Some y -> period <= length (defined (pre ++ [x]))) ->
                   early (k + period - 1) (out ++ [y])).
  { intros Hk Hy i v. rewrite lookup_app. destruct (out !! i) eqn:E.
    - intros [= ->]. apply (He (early_app _ _ _ Hk) _ _ E).
    - destruct (i - length out) eqn:Ei; [|done]. cbn. intros [= ->]. apply lookup_ge_None in E.
      pose proof (early_count _ _ Hk) as Hcount. rewrite length_app in Hcount. cbn in Hcount.
      specialize (Hy ltac:(done)). lia. }
  rewrite defined_app in Hearly.
  destruct x as [v|]; cbn in *.
  - destruct prev as [previous|].
    + apply bind_Ok in Hf as (a & _ & [= <- <-]). cbn. rewrite length_app.
      specialize (Hc ltac:(done)). split_and!; [lia|done|lia|]. intros Hk. apply Hearly; [done|]. rewrite length_app. lia.
    + rewrite (Hs eq_refl) in Hf. destruct (Nat.ltb_spec (length (defined pre ++ [v])) period).
      * injection Hf as <- <-. cbn. split_and!; [lia|done|done|]. intros Hk. apply Hearly; [done|]. intros [? ?]. done.
      * apply bind_Ok in Hf as (a & _ & [= <- <-]). cbn. split_and!; [lia|done|done|]. intros Hk. by apply Hearly.
  - injection Hf as <- <-. cbn. rewrite app_nil_r in *. split_and!; [lia|done|done|]. intros Hk. apply Hearly; [done|].
    intros [? ?]. done.
Qed.

(** ** A recurrence over a defined suffix is the recurrence over the suffix *)

Lemma enumerate_from {A} (l : list A) j : imap (λ i x, (j + i, x)) l = zip (seq j (length l)) l.
Proof.
  revert j. induction l as [|x l IH]; intros j; cbn; [done|]. rewrite Nat.add_0_r. f_equal.
  rewrite <- IH. apply imap_ext. intros i y _. cbn. f_equal. lia.
Qed.

Lemma seeded_optional_suffix advance period k values : 1 <= period ->
  seeded_optional advance period (repeat None k ++ map Some values) =
  (ys ← seeded advance period values; Ok (repeat None k ++ ys)).
Proof.
  intros Hp. unfold seeded_optional, seeded.
  induction k as [|k IH]; [cbn [repeat app]|cbn; rewrite IH; by destruct (loop (seeded_step advance period values) None (enumerate values))].
  transitivity (loop (seeded_step advance period values) None (enumerate values));
    [|by destruct (loop (seeded_step advance period values) None (enumerate values))].
  assert (Hgen : ∀ l pre seed (prev : option decimal), values = pre ++ l ->
    (if prev then True else seed = pre ∧ length pre < period) -> (if prev then period <= length pre else True) ->
    loop (seeded_optional_step advance period) (seed, prev) (map Some l) =
    loop (seeded_step advance period values) prev (imap (λ i x, (length pre + i, x)) l)).
  { induction l as [|x l IHl]; intros pre seed prev Hv Hnone Hsome; [done|]. cbn [map imap loop].
    rewrite Nat.add_0_r. assert (Hrest : imap ((λ i y, (length pre + i, y)) ∘ S) l = imap (λ i y, (length (pre ++ [x]) + i, y)) l).
    { apply imap_ext. intros i y _. cbn. rewrite length_app. cbn. f_equal. lia. }
    rewrite Hrest. assert (Hv' : values = (pre ++ [x]) ++ l) by (by rewrite <- app_assoc).
    cbn [seeded_optional_step seeded_step fst snd]. destruct prev as [previous|].
    - rewrite (proj2 (Nat.ltb_ge _ _)) by lia. destruct (advance previous x) as [a|]; cbn; [|done].
      rewrite (IHl (pre ++ [x]) seed (Some a)); [done|done|done|rewrite length_app; cbn; lia].
    - destruct Hnone as [-> Hlt]. assert (Hlen : length (pre ++ [x]) = length pre + 1) by (by rewrite length_app).
      rewrite <- Hlen. destruct (Nat.ltb_spec (length (pre ++ [x])) period) as [Hw|Hw]; cbn.
      + rewrite (IHl (pre ++ [x]) (pre ++ [x]) None); [done|done|done|done].
      + assert (take period values = pre ++ [x]) as ->.
        { rewrite Hv', take_app_le by lia. apply take_ge. lia. }
        destruct (div _ _) as [a|]; cbn; [|done].
        rewrite (IHl (pre ++ [x]) (pre ++ [x]) (Some a)); [done|done|done|lia]. }
  rewrite (Hgen values [] [] None); [|done|split; [done|cbn; lia]|done]. done.
Qed.

Lemma seeded_optional_full advance k period xs ys : seeded_optional advance period xs = Ok ys -> 1 <= period ->
  early k xs -> full k xs -> full (k + period - 1) ys.
Proof.
  intros H Hp He Hf. destruct (early_full_suffix k xs He Hf) as [vs Hs]. rewrite Hs in H.
  rewrite seeded_optional_suffix in H by done. apply bind_Ok in H as (ys' & Hy & [= <-]).
  pose proof (seeded_full _ _ _ _ Hy) as Hfull. intros i y Hi Hk. rewrite lookup_app_r in Hi.
  - eapply Hfull; [exact Hi|]. rewrite repeat_length. lia.
  - rewrite repeat_length. lia.
Qed.

Lemma ema_optional_early k period xs ys : _exponential_moving_average_optional xs period = Ok ys -> 1 <= period ->
  early k xs -> early (k + period - 1) ys.
Proof. apply seeded_optional_early. Qed.
Lemma ema_optional_full k period xs ys : _exponential_moving_average_optional xs period = Ok ys -> 1 <= period ->
  early k xs -> full k xs -> full (k + period - 1) ys.
Proof. apply seeded_optional_full. Qed.
Lemma ema_early period values ys : _exponential_moving_average values period = Ok ys -> early (period - 1) ys.
Proof. apply seeded_early. Qed.
Lemma ema_full period values ys : _exponential_moving_average values period = Ok ys -> full (period - 1) ys.
Proof. apply seeded_full. Qed.
Lemma wilder_early period values ys : _wilder_smooth values period = Ok ys -> early (period - 1) ys.
Proof. apply seeded_early. Qed.
Lemma wilder_optional_early k period xs ys : _wilder_smooth_optional xs period = Ok ys -> 1 <= period ->
  early k xs -> early (k + period - 1) ys.
Proof. apply seeded_optional_early. Qed.

(** The signal line of [_macd_signal_ema] is the average that skips holes. *)
Lemma macd_signal_suffix period k values : 1 <= period ->
  _macd_signal_ema (repeat None k ++ map Some values) period =
  _exponential_moving_average_optional (repeat None k ++ map Some values) period.
Proof.
  intros Hp. unfold _macd_signal_ema, _exponential_moving_average_optional. rewrite seeded_optional_suffix by done.
  rewrite defined_app, defined_repeat, defined_map_Some, length_app, repeat_length, length_map. cbn [app].
  by replace (k + length values - length values) with k by lia.
Qed.

Lemma macd_signal_optional period k xs : 1 <= period -> early k xs -> full k xs ->
  _macd_signal_ema xs period = _exponential_moving_average_optional xs period.
Proof. intros Hp He Hf. destruct (early_full_suffix k xs He Hf) as [vs ->]. by apply macd_signal_suffix. Qed.

(** [Some <$> m] is defined. *)
Lemma fmap_Some_defined {A} (m : result A) y : Some <$> m = Ok y -> is_Some y.
Proof. intros (a & _ & ->)%fmap_Ok. done. Qed.

Lemma sma_early period values ys : _simple_moving_average values period = Ok ys -> early (period - 1) ys.
Proof. apply window_early. Qed.
Lemma sma_full period values ys : _simple_moving_average values period = Ok ys -> full (period - 1) ys.
Proof. intros H. eapply window_full; [exact H|]. intros i y. apply fmap_Some_defined. Qed.

Lemma wma_early period values ys : _weighted_moving_average values period = Ok ys -> early (period - 1) ys.
Proof. apply window_early. Qed.
Lemma wma_full period values ys : _weighted_moving_average values period = Ok ys -> full (period - 1) ys.
Proof. intros H. eapply window_full; [exact H|]. intros i y. apply fmap_Some_defined. Qed.

Lemma extreme_early period maximum values ys : _rolling_extreme values period maximum = Ok ys -> early (period - 1) ys.
Proof. apply window_early. Qed.
Lemma extreme_full period maximum values ys : _rolling_extreme values period maximum = Ok ys -> full (period - 1) ys.
Proof. intros H. eapply window_full; [exact H|]. intros i y. apply fmap_Some_defined. Qed.

Lemma stdev_early period divisor values ys : _rolling_stdev values period divisor = Ok ys -> early (period - 1) ys.
Proof. apply window_early. Qed.
Lemma stdev_full period divisor values ys : _rolling_stdev values period divisor = Ok ys -> full (period - 1) ys.
Proof.
  intros H. eapply window_full; [exact H|]. intros i y Hf. cbn beta zeta in Hf. invert_ok. eexists. reflexivity.
Qed.

(** The mean of a window with holes. *)
Lemma sma_defined_early k period xs ys : _simple_moving_average_defined xs period = Ok ys -> 1 <= period ->
  early k xs -> early (k + period - 1) ys.
Proof.
  intros H Hp He i v Hi. destruct (each_index_lookup _ _ _ _ _ H Hi) as [Hn Hf]. cbn beta zeta in Hf.
  destruct (Nat.ltb_spec (i + 1) period); [done|]. destruct (existsb _ _) eqn:Ee; [done|].
  destruct (xs !! (i + 1 - period)) as [y|] eqn:Hy; [|apply lookup_ge_None in Hy; lia].
  destruct y as [w|]; [specialize (He _ _ Hy); lia|].
  rewrite <- not_true_iff_false in Ee. contradict Ee. apply existsb_exists. exists None. split; [|done].
  apply list_elem_of_In, list_elem_of_lookup. exists 0. rewrite slice_lookup. case_decide; [by rewrite Nat.add_0_r|lia].
Qed.

Lemma wma_optional_early k period xs ys : _weighted_moving_average_optional xs period = Ok ys -> 1 <= period ->
  early k xs -> early (k + period - 1) ys.
Proof. apply (map_windows_early weighted_mean (λ v, v)). Qed.
Lemma wma_optional_full k period xs ys : _weighted_moving_average_optional xs period = Ok ys -> 1 <= period ->
  full k xs -> full (k + period - 1) ys.
Proof. apply (map_windows_full weighted_mean (λ v, v)). Qed.

Lemma extreme_optional_early k period maximum xs ys : _rolling_extreme_optional xs period maximum = Ok ys -> 1 <= period ->
  early k xs -> early (k + period - 1) ys.
Proof. apply (map_windows_early (extreme_of maximum) (λ v, v)). Qed.

Lemma opt2_early_l (f : decimal → decimal → result decimal) k a b ys : zip_map (opt2 f) a b = Ok ys -> early k a -> early k ys.
Proof. intros H. eapply zip_early; [exact H|]. needs_left. Qed.
Lemma opt2_early_r (f : decimal → decimal → result decimal) k a b ys : zip_map (opt2 f) a b = Ok ys -> early k b -> early k ys.
Proof. intros H. eapply zip_early_r; [exact H|]. needs_right. Qed.
Lemma opt2_full (f : decimal → decimal → result decimal) k a b ys : zip_map (opt2 f) a b = Ok ys ->
  full k a -> full k b -> full k ys.
Proof. intros H. eapply zip_full; [exact H|]. intros u v y. apply fmap_Some_defined. Qed.

End Warmup.

(** * The first value of every kind of indicator

    The declared minimum warmup of a kind against its calculation: no kind completes a row
    before its warmup, and the kinds that never divide by a market value complete every row
    from it on. *)

Open Scope nat_scope.

(** A dictionary in which some output of the kind has no value before [k], and one in which
    every series has a value from [k] on. *)
Definition dict_early (kind : IndicatorKind) (k : nat) (m : gmap string series) : Prop :=
  ∃ name ys, name ∈ default [] (indicator_output_series kind) ∧ m !! name = Some ys ∧ early k ys.
Definition dict_full (k : nat) (m : gmap string series) : Prop := map_Forall (λ _, full k) m.

Lemma dict_full_insert k name ys (m : gmap string series) : full k ys -> dict_full k m -> dict_full k (<[name := ys]> m).
Proof. intros. by apply map_Forall_insert_2. Qed.

Ltac by_guard lemma := match goal with H : each_index _ _ = _ |- _ => exact (lemma _ _ _ _ H) end.

Section Kinds.
Context {dc : DecimalContext}.

Implicit Types (values : list decimal) (xs ys : series) (candles : list Candle) (m : gmap string series).

(** Series read through a projection of a list of lines. *)
Lemma map_early {A} (f : A → option decimal) k (lines : list A) :
  (∀ i x v, lines !! i = Some x -> f x = Some v -> k <= i) -> early k (map f lines).
Proof. intros H i v Hi. apply list_lookup_fmap_Some in Hi as (x & Hl & Hx). symmetry in Hl. by eapply H. Qed.

Lemma map_full {A} (f : A → option decimal) k (lines : list A) :
  (∀ i x, lines !! i = Some x -> k <= i -> is_Some (f x)) -> full k (map f lines).
Proof. intros H i y Hi Hk. apply list_lookup_fmap_Some in Hi as (x & -> & Hx). by eapply H. Qed.

Lemma map_Some_full k values : full k (map Some values).
Proof. apply map_full. intros i x _ _. done. Qed.

(** ** One output *)

Lemma dema_early period values ys : _double_exponential_moving_average values period = Ok ys -> 1 <= period ->
  early (2 * period - 2) ys.
Proof.
  unfold _double_exponential_moving_average. intros H Hp. invert_ok. eapply opt2_early_r; [eassumption|].
  eapply early_weaken; [eapply ema_optional_early; [eassumption|done|by eapply ema_early]|lia].
Qed.

Lemma dema_full period values ys : _double_exponential_moving_average values period = Ok ys -> 1 <= period ->
  full (2 * period - 2) ys.
Proof.
  unfold _double_exponential_moving_average. intros H Hp. invert_ok. eapply opt2_full; [eassumption|..].
  - eapply full_weaken; [by eapply ema_full|lia].
  - eapply full_weaken; [eapply ema_optional_full; [eassumption|done|by eapply ema_early|by eapply ema_full]|lia].
Qed.

(** The third smoothing of TEMA and TRIX. *)
Lemma ema3_early period values a b c : _exponential_moving_average values period = Ok a ->
  _exponential_moving_average_optional a period = Ok b -> _exponential_moving_average_optional b period = Ok c ->
  1 <= period -> early (3 * period - 3) c.
Proof.
  intros Ha Hb Hc Hp. eapply early_weaken; [eapply ema_optional_early; [exact Hc|done|]|].
  - eapply ema_optional_early; [exact Hb|done|by eapply ema_early].
  - lia.
Qed.

Lemma ema2_full period values a b : _exponential_moving_average values period = Ok a ->
  _exponential_moving_average_optional a period = Ok b -> 1 <= period -> full (2 * period - 2) b ∧ early (2 * period - 2) b.
Proof.
  intros Ha Hb Hp. split.
  - eapply full_weaken; [eapply ema_optional_full; [exact Hb|done|by eapply ema_early|by eapply ema_full]|lia].
  - eapply early_weaken; [eapply ema_optional_early; [exact Hb|done|by eapply ema_early]|lia].
Qed.

Lemma tema_early period values ys : _triple_exponential_moving_average values period = Ok ys -> 1 <= period ->
  early (3 * period - 3) ys.
Proof.
  unfold _triple_exponential_moving_average. intros H Hp. invert_ok. eapply zip_early_r; [eassumption|..].
  - needs_right.
  - by eapply ema3_early.
Qed.

Lemma tema_full period values ys : _triple_exponential_moving_average values period = Ok ys -> 1 <= period ->
  full (3 * period - 3) ys.
Proof.
  unfold _triple_exponential_moving_average. intros H Hp. invert_ok. intros i y Hi Hk.
  match goal with H : zip_map _ _ _ = Ok _ |- _ => destruct (zip_map_lookup _ _ _ _ _ _ H Hi) as ([u v] & w & Hu & Hw & Hy) end.
  match goal with H : zip_strict _ _ = Ok _ |- _ => apply zip_strict_length in H as (_ & _ & ->) end.
  apply lookup_zip_with_Some in Hu as (u' & v' & [= <- <-] & Hu & Hv).
  destruct (ema2_full period values x x0) as [F2 E2]; [done..|].
  destruct (ema_full _ _ _ H _ _ Hu) as [a ->]; [lia|]. destruct (F2 _ _ Hv) as [b ->]; [lia|].
  assert (F3 : full (2 * period - 2 + period - 1) x1) by (by eapply ema_optional_full).
  destruct (F3 _ _ Hw) as [c ->]; [lia|]. cbn in Hy. by injection Hy as <-.
Qed.

Lemma hma_early period values ys : _hull_moving_average values period = Ok ys -> 1 <= period ->
  early (period + Nat.sqrt period - 2) ys.
Proof.
  unfold _hull_moving_average. intros H Hp. invert_ok. pose proof (Nat.sqrt_le_mono 1 period Hp). change (Nat.sqrt 1) with 1 in *.
  eapply early_weaken; [eapply wma_optional_early; [eassumption|done|eapply opt2_early_r; [eassumption|by eapply wma_early]]|lia].
Qed.

Lemma hma_full period values ys : _hull_moving_average values period = Ok ys -> 1 <= period ->
  full (period + Nat.sqrt period - 2) ys.
Proof.
  unfold _hull_moving_average. intros H Hp. invert_ok. pose proof (Nat.sqrt_le_mono 1 period Hp). change (Nat.sqrt 1) with 1 in *.
  eapply full_weaken; [eapply wma_optional_full; [eassumption|done|eapply (opt2_full _ (period - 1)); [eassumption|..]]|].
  - eapply full_weaken; [by eapply wma_full|]. pose proof (Nat.div_lt period 2 ltac:(lia) ltac:(lia)). lia.
  - by eapply wma_full.
  - lia.
Qed.

Lemma lead_early {A} (f : A → option decimal) period len (rest : list A) : period <= len ->
  early period (repeat None (Nat.min period len) ++ map f rest).
Proof.
  intros Hl i v Hi. rewrite Nat.min_l in Hi by done. destruct (decide (i < period)); [|lia].
  rewrite lookup_app_l, lookup_repeat in Hi by (rewrite ?repeat_length; lia). done.
Qed.

Lemma kama_defined indicator period fast slow candles ys : parameters indicator = KamaIndicatorParameters period fast slow ->
  _kaufman_adaptive_values indicator candles = Ok ys -> early period ys ∧ full period ys.
Proof.
  intros Hp. unfold _kaufman_adaptive_values. rewrite Hp. intros (values & _ & H)%bind_Ok.
  destruct (Nat.leb_spec (length values) period) as [Hl|Hl].
  - injection H as <-. rewrite Nat.min_r by done. split; intros i y Hi; pose proof (lookup_lt_Some _ _ _ Hi) as Hlt;
      rewrite repeat_length in Hlt; [by rewrite lookup_repeat in Hi|lia].
  - invert_ok. rewrite Nat.min_l by lia. split.
    + intros i v Hi. destruct (decide (i < period)); [|lia].
      rewrite lookup_app_l, lookup_repeat in Hi by (rewrite ?repeat_length; lia). done.
    + intros i y Hi Hk. rewrite lookup_app_r in Hi by (rewrite repeat_length; lia).
      match goal with H : loop _ _ _ = Ok _ |- _ => destruct (loop_lookup _ _ _ _ _ _ H Hi) as (j & u & u' & _ & Hf) end.
      cbn beta zeta in Hf. apply bind_Ok in Hf as (e & _ & [= _ <-]). done.
Qed.

Lemma rsi_defined period values ys : _relative_strength_index values period = Ok ys -> 1 <= period ->
  early period ys ∧ full period ys.
Proof.
  intros H Hp. destruct values as [|v values]; [injection H as <-; split; intros i y Hi; done|].
  unfold _relative_strength_index in H. apply bind_Ok in H as (rest & Hr & [= <-]).
  assert (Hrest : ∀ i y, rest !! i = Some y -> (is_Some y ↔ period <= S i)).
  { intros i y Hi. destruct (loop_lookup _ _ _ _ _ _ Hr Hi) as (j & u & u' & Hj & Hf).
    apply lookup_seq in Hj as [-> _]. unfold rsi_step in Hf. destruct (Nat.ltb_spec (1 + i) period).
    - injection Hf as _ <-. split; [intros [? ?]; done|lia].
    - apply bind_Ok in Hf as (a & _ & (b & _ & [= _ <-])%bind_Ok). split; [lia|done]. }
  split; intros [|i] y Hi.
  - done.
  - apply (Hrest i (Some y)); [done|done].
  - lia.
  - intros Hk. by apply (Hrest i y).
Qed.

Lemma atr_early period candles ys : _average_true_range candles period = Ok ys -> early (period - 1) ys.
Proof.
  intros H i v Hi. destruct (enumerate_loop_lookup _ _ _ _ _ _ H Hi) as (x & u & u' & _ & Hf). cbn in Hf.
  destruct (Nat.ltb_spec (i + 1) period); [done|lia].
Qed.

Lemma atr_full period candles ys : _average_true_range candles period = Ok ys -> full (period - 1) ys.
Proof.
  intros H i y Hi Hk. destruct (enumerate_loop_lookup _ _ _ _ _ _ H Hi) as (x & u & u' & _ & Hf). cbn in Hf.
  destruct (Nat.ltb_spec (i + 1) period); [lia|]. apply bind_Ok in Hf as (a & _ & [= _ <-]). done.
Qed.

Lemma roc_early period values ys : _rate_of_change values period = Ok ys -> early period ys.
Proof. apply lag_early. Qed.

Lemma momentum_early period values ys : _momentum values period = Ok ys -> early period ys.
Proof. apply lag_early. Qed.
Lemma momentum_full period values ys : _momentum values period = Ok ys -> full period ys.
Proof. intros H. eapply lag_full; [exact H|]. intros i y [= <-]. done. Qed.

Lemma percent_rank_early period values ys : _percent_rank values period = Ok ys -> early period ys.
Proof. apply lag_early. Qed.
Lemma percent_rank_full period values ys : _percent_rank values period = Ok ys -> full period ys.
Proof. intros H. eapply lag_full; [exact H|]. intros i y. apply fmap_Some_defined. Qed.

Lemma cmo_early period values ys : _chande_momentum_oscillator values period = Ok ys -> early period ys.
Proof. apply lag_early. Qed.

Lemma zscore_early period values ys : _rolling_zscore values period = Ok ys -> early (period - 1) ys.
Proof.
  unfold _rolling_zscore. intros H. invert_ok. eapply zip_early_r; [eassumption|needs_right|by eapply stdev_early].
Qed.

Lemma williams_early period candles ys : _williams_percent_r candles period = Ok ys -> early (period - 1) ys.
Proof.
  unfold _williams_percent_r. intros H. invert_ok. eapply zip_early_r; [eassumption|needs_right|by eapply extreme_early].
Qed.

Lemma cci_early period candles ys : _commodity_channel_index candles period = Ok ys -> early (period - 1) ys.
Proof.
  unfold _commodity_channel_index. intros H. invert_ok. intros i v Hi.
  match goal with H : loop _ _ _ = Ok _ |- _ => destruct (enumerate_loop_lookup _ _ _ _ _ _ H Hi) as ([mean|] & u & u' & Hm & Hf) end;
    [|discriminate Hf]. by eapply sma_early.
Qed.

Lemma trix_early period values ys : _triple_exponential_rate values period = Ok ys -> 1 <= period ->
  early (3 * period - 2) ys.
Proof.
  unfold _triple_exponential_rate. intros H Hp. invert_ok.
  assert (He : early (3 * period - 3) x1) by (by eapply ema3_early).
  match goal with H : loop _ _ _ = Ok _ |- _ => rename H into Hl end. intros i v Hi.
  (* the state of the loop is the value of the previous bar *)
  assert (Hprev : ∀ l s k j, loop (λ (previous : option decimal) current,
      value ← match current, previous with
              | Some current, Some previous =>
                  if (previous =? d0)%dec then Ok None
                  else Some <$> div (hundred * (current - previous))%dec previous
              | _, _ => Ok None
              end;
      Ok (current, value)) s l = Ok k -> k !! j = Some (Some v) -> ∃ w, (s :: l) !! j = Some (Some w)).
  { clear. induction l as [|x l IH]; intros s k j; cbn; [by intros [= <-]|].
    intros (r & Hr & (k' & Hk & [= <-])%bind_Ok)%bind_Ok. destruct j as [|j]; cbn; [|].
    - intros [= Hr2]. apply bind_Ok in Hr as (y & Hy & [= <-]). cbn in Hr2. subst y.
      destruct s as [w|]; [by exists w|]. by destruct x.
    - intros Hj. apply bind_Ok in Hr as (y & Hy & [= <-]). destruct (IH _ _ _ Hk Hj) as [w Hw]. by exists w. }
  destruct (Hprev _ _ _ _ Hl Hi) as [w Hw]. destruct i as [|i]; [done|]. cbn in Hw. specialize (He _ _ Hw). lia.
Qed.

Lemma awesome_early fast slow indicator candles ys : parameters indicator = AwesomeOscillatorIndicatorParameters fast slow ->
  _awesome_oscillator_values indicator candles = Ok ys -> early (slow - 1) ys.
Proof.
  intros Hp. unfold _awesome_oscillator_values, _difference. rewrite Hp. intros H. invert_ok.
  eapply opt2_early_r; [eassumption|by eapply sma_early].
Qed.

Lemma awesome_full fast slow indicator candles ys : parameters indicator = AwesomeOscillatorIndicatorParameters fast slow ->
  fast < slow -> _awesome_oscillator_values indicator candles = Ok ys -> full (slow - 1) ys.
Proof.
  intros Hp Hlt. unfold _awesome_oscillator_values, _difference. rewrite Hp. intros H. invert_ok.
  eapply (opt2_full _ (slow - 1)); [eassumption| |by eapply sma_full]. eapply full_weaken; [by eapply sma_full|lia].
Qed.

Lemma ultimate_early short medium long indicator candles ys :
  parameters indicator = UltimateOscillatorIndicatorParameters short medium long ->
  _ultimate_oscillator_values indicator candles = Ok ys -> early long ys.
Proof. intros Hp. unfold _ultimate_oscillator_values. rewrite Hp. apply lag_early. Qed.

Lemma sar_defined step max_step indicator candles ys : parameters indicator = ParabolicSarIndicatorParameters step max_step ->
  _parabolic_sar_values indicator candles = Ok ys -> early 1 ys ∧ full 1 ys.
Proof.
  intros Hp. unfold _parabolic_sar_values. rewrite Hp. destruct candles as [|c0 [|c1 candles]].
  - intros [= <-]. split; intros i y Hi; done.
  - intros [= <-]. split; intros [|i] y Hi; try done. lia.
  - intros (rest & Hr & [= <-])%bind_Ok. split; intros [|i] y Hi; try done; try lia. intros _. cbn in Hi.
    destruct (loop_lookup _ _ _ _ _ _ Hr Hi) as (j & [st [ph pl]] & u' & _ & Hf). unfold sar_step in Hf.
    destruct (is_long st);
      [destruct (_advance_long_sar st j ph pl step max_step)|destruct (_advance_short_sar st j ph pl step max_step)];
      injection Hf as _ <-; done.
Qed.

Lemma mfi_early period candles ys : _money_flow_index candles period = Ok ys -> early period ys.
Proof. unfold _money_flow_index. intros H. invert_ok. by_guard lag_early. Qed.

Lemma vwma_early period candles ys : _volume_weighted_moving_average candles period = Ok ys -> early (period - 1) ys.
Proof. apply window_early. Qed.

Lemma cmf_early period candles ys : _chaikin_money_flow candles period = Ok ys -> early (period - 1) ys.
Proof. unfold _chaikin_money_flow. intros H. invert_ok. by_guard window_early. Qed.

Lemma vwap_early period candles ys : _rolling_volume_weighted_average_price candles period = Ok ys -> early (period - 1) ys.
Proof. unfold _rolling_volume_weighted_average_price. intros H. invert_ok. by_guard window_early. Qed.

Lemma changes_early {A} (f : A → A → option decimal) l : early 1 (changes_of f l).
Proof. intros [|i] v; [by destruct l|lia]. Qed.

Lemma changes_full {A} (f : A → A → decimal) l : full 1 (changes_of (λ a b, Some (f a b)) l).
Proof.
  intros [|i] y Hi Hk; [lia|]. destruct l as [|x l]; [done|]. unfold changes_of, after_first in Hi. change ((None :: ?k) !! S i) with (k !! i) in Hi.
  apply list_lookup_fmap_Some in Hi as (p & -> & _). done.
Qed.

Lemma force_early period candles ys : _force_index candles period = Ok ys -> 1 <= period -> early period ys.
Proof. intros H Hp. eapply early_weaken; [eapply ema_optional_early; [exact H|done|apply changes_early]|lia]. Qed.
Lemma force_full period candles ys : _force_index candles period = Ok ys -> 1 <= period -> full period ys.
Proof.
  intros H Hp. eapply full_weaken; [eapply ema_optional_full; [exact H|done|apply changes_early|apply changes_full]|lia].
Qed.

Lemma natr_early period candles ys : _normalized_average_true_range candles period = Ok ys -> early (period - 1) ys.
Proof.
  unfold _normalized_average_true_range. intros H. invert_ok. eapply zip_early_r; [eassumption|needs_right|by eapply atr_early].
Qed.

Lemma choppiness_early period candles ys : _choppiness_index candles period = Ok ys -> early (period - 1) ys.
Proof.
  unfold _choppiness_index. intros H. invert_ok. intros i v Hi.
  match goal with H : loop _ _ _ = Ok _ |- _ => destruct (enumerate_loop_lookup _ _ _ _ _ _ H Hi) as ([h [l|]] & u & u' & Hp & Hf) end;
    [|destruct h; discriminate Hf].
  match goal with H : zip_strict _ _ = Ok _ |- _ => apply zip_strict_length in H as (_ & _ & ->) end.
  apply lookup_zip_with_Some in Hp as (? & ? & [= _ <-] & _ & Hlow). by eapply extreme_early.
Qed.

Lemma volatility_early period indicator candles ys : _period_parameter indicator = Ok period -> 1 <= period ->
  _historical_volatility_values indicator candles = Ok ys -> early period ys.
Proof.
  intros Hper Hp. unfold _historical_volatility_values. rewrite Hper. intros H. cbn in H.
  apply bind_Ok in H as (scale & _ & (rest & _ & H)%bind_Ok).
  eapply early_weaken; [eapply (map_windows_early _sample_deviation (λ d, match scale with None => hundred * d | Some s => hundred * d * s end)%dec 1); [|done|]|].
  - etransitivity; [|exact H]. apply mapM_ext. intros [w|] _; [|done]. by destruct (_sample_deviation w).
  - intros [|i] v; [by destruct candles|]. intros _. lia.
  - lia.
Qed.

(** ** Several outputs *)

Ltac dict_series name := exists name; eexists; split; [cbn; repeat first [left|right]|split; [reflexivity|]].
Ltac dict_all := repeat (apply dict_full_insert; [|]); try (match goal with |- dict_full _ ∅ => apply map_Forall_empty end).

(** Bands around a middle line. *)
Lemma band_early k mid dev widths b (f : decimal → decimal → result (decimal * decimal)) :
  zip_map (opt2 f) mid dev = Ok widths -> early k dev -> early k (map (λ w, band w b) widths).
Proof.
  intros H He. apply map_early. intros i w v Hi Hb. destruct (zip_map_lookup _ _ _ _ _ _ H Hi) as (x & y & Hx & Hy & Hf).
  destruct y as [y|]; [by eapply He|]. destruct x; injection Hf as <-; discriminate Hb.
Qed.

Lemma band_full k mid dev widths b (f : decimal → decimal → result (decimal * decimal)) :
  zip_map (opt2 f) mid dev = Ok widths -> full k mid -> full k dev -> full k (map (λ w, band w b) widths).
Proof.
  intros H Hm Hd. apply map_full. intros i w Hi Hk. destruct (zip_map_lookup _ _ _ _ _ _ H Hi) as (x & y & Hx & Hy & Hf).
  destruct (Hm _ _ Hx Hk) as [x' ->], (Hd _ _ Hy Hk) as [y' ->]. apply fmap_Ok in Hf as ([? ?] & _ & ->). done.
Qed.

Lemma macd_defined fast slow signal indicator candles m : parameters indicator = MacdIndicatorParameters fast slow signal ->
  fast < slow -> 1 <= fast -> 1 <= signal -> _macd_series indicator candles = Ok m ->
  dict_early MACD (slow + signal - 2) m ∧ dict_full (slow + signal - 2) m.
Proof.
  intros Hp Hlt Hf Hs. unfold _macd_series. rewrite Hp. intros H. invert_ok.
  match goal with H1 : _exponential_moving_average _ fast = Ok ?a, H2 : _exponential_moving_average _ slow = Ok ?b,
    H3 : zip_map _ ?a ?b = Ok ?l |- _ =>
      assert (El : early (slow - 1) l) by (eapply opt2_early_r; [exact H3|by eapply ema_early]);
      assert (Fl : full (slow - 1) l) by (eapply opt2_full; [exact H3|eapply full_weaken; [by eapply ema_full|lia]|by eapply ema_full])
  end.
  match goal with H : _macd_signal_ema _ _ = Ok ?s |- _ =>
    rewrite (macd_signal_optional signal (slow - 1)) in H by done;
    assert (Es : early (slow + signal - 2) s) by (eapply early_weaken; [eapply ema_optional_early; [exact H|done|exact El]|lia]);
    assert (Fs : full (slow + signal - 2) s) by (eapply full_weaken; [eapply ema_optional_full; [exact H|done|exact El|exact Fl]|lia])
  end.
  split; [dict_series "signal"%string; exact Es|]. dict_all.
  - eapply full_weaken; [exact Fl|lia].
  - exact Fs.
  - eapply opt2_full; [eassumption|eapply full_weaken; [exact Fl|lia]|exact Fs].
Qed.

Lemma bollinger_defined period multiplier indicator candles m :
  parameters indicator = BollingerIndicatorParameters period multiplier -> _bollinger_series indicator candles = Ok m ->
  (∃ middle upper lower, m = {[ "middle" := middle; "upper" := upper; "lower" := lower ]} ∧
     early (period - 1) lower) ∧ dict_full (period - 1) m.
Proof.
  intros Hp. unfold _bollinger_series. rewrite Hp. intros H. invert_ok. split.
  - do 3 eexists. split; [reflexivity|]. eapply band_early; [eassumption|by eapply stdev_early].
  - dict_all; [by eapply sma_full|..]; (eapply band_full; [eassumption|by eapply sma_full|by eapply stdev_full]).
Qed.

Lemma percent_b_early period multiplier indicator candles ys :
  parameters indicator = BollingerIndicatorParameters period multiplier ->
  _bollinger_percent_b_values indicator candles = Ok ys -> early (period - 1) ys.
Proof.
  intros Hp. unfold _bollinger_percent_b_values. intros (bands & Hb & H)%bind_Ok.
  destruct (bollinger_defined _ _ _ _ _ Hp Hb) as [(middle & upper & lower & -> & He) _].
  invert_ok. match goal with H : series_of _ "lower" = Ok ?x |- _ => change (Ok lower = Ok x) in H; injection H as <- end.
  eapply zip_early_r; [eassumption|needs_right|exact He].
Qed.

Lemma bandwidth_early period multiplier indicator candles ys :
  parameters indicator = BollingerIndicatorParameters period multiplier ->
  _bollinger_bandwidth_values indicator candles = Ok ys -> early (period - 1) ys.
Proof.
  intros Hp. unfold _bollinger_bandwidth_values. intros (bands & Hb & H)%bind_Ok.
  destruct (bollinger_defined _ _ _ _ _ Hp Hb) as [(middle & upper & lower & -> & He) _].
  invert_ok. match goal with H : series_of _ "lower" = Ok ?x |- _ => change (Ok lower = Ok x) in H; injection H as <- end.
  eapply zip_early_r; [eassumption|needs_right|exact He].
Qed.

Lemma stochastic_early k_period d_period indicator candles m :
  parameters indicator = StochasticIndicatorParameters k_period d_period -> 1 <= k_period -> 1 <= d_period ->
  _stochastic_series indicator candles = Ok m -> dict_early STOCHASTIC (k_period + d_period - 2) m.
Proof.
  intros Hp Hk Hd. unfold _stochastic_series. rewrite Hp. intros H. invert_ok. dict_series "d"%string.
  eapply early_weaken; [eapply (sma_defined_early (k_period - 1)); [eassumption|done|]|lia].
  eapply zip_early_r; [eassumption|needs_right|by eapply extreme_early].
Qed.

Lemma stochastic_rsi_early r s k d indicator candles m :
  parameters indicator = StochasticRsiIndicatorParameters r s k d -> 1 <= r -> 1 <= s -> 1 <= k -> 1 <= d ->
  _stochastic_rsi_series indicator candles = Ok m -> dict_early STOCHASTIC_RSI (r + s + k + d - 3) m.
Proof.
  intros Hp Hr Hs Hk Hd. unfold _stochastic_rsi_series. rewrite Hp. intros H. invert_ok. dict_series "d"%string.
  match goal with H : _relative_strength_index _ _ = Ok _ |- _ => apply rsi_defined in H as [Hrsi _]; [|done] end.
  eapply early_weaken; [eapply (sma_defined_early (r + s - 1 + k - 1)); [eassumption|done|]|lia].
  eapply sma_defined_early; [eassumption|done|]. eapply zip_early_r; [eassumption|needs_right|].
  eapply extreme_optional_early; [eassumption|done|done].
Qed.

Lemma ppo_early fast slow signal indicator candles m : parameters indicator = MacdIndicatorParameters fast slow signal ->
  1 <= slow -> 1 <= signal -> _ppo_series indicator candles = Ok m -> dict_early PPO (slow + signal - 2) m.
Proof.
  intros Hp Hl Hs. unfold _ppo_series. rewrite Hp. intros H. invert_ok. dict_series "signal"%string.
  eapply early_weaken; [eapply (ema_optional_early (slow - 1)); [eassumption|done|]|lia].
  eapply zip_early_r; [eassumption|needs_right|by eapply ema_early].
Qed.

Lemma tsi_early long short signal indicator candles m : parameters indicator = TsiIndicatorParameters long short signal ->
  1 <= long -> 1 <= short -> 1 <= signal -> _true_strength_series indicator candles = Ok m ->
  dict_early TSI (long + short + signal - 2) m.
Proof.
  intros Hp Hl Hs Hg. unfold _true_strength_series. rewrite Hp. intros H. invert_ok. dict_series "signal"%string.
  eapply early_weaken; [eapply (ema_optional_early (1 + long - 1 + short - 1)); [eassumption|done|]|lia].
  eapply zip_early_r; [eassumption|needs_right|]. eapply ema_optional_early; [eassumption|done|].
  eapply ema_optional_early; [eassumption|done|]. apply changes_early.
Qed.

Lemma keltner_defined period atr_period multiplier indicator candles m :
  parameters indicator = KeltnerIndicatorParameters period atr_period multiplier ->
  _keltner_series indicator candles = Ok m ->
  dict_early KELTNER (Nat.max period atr_period - 1) m ∧ dict_full (Nat.max period atr_period - 1) m.
Proof.
  intros Hp. unfold _keltner_series. rewrite Hp. intros H. invert_ok.
  match goal with H1 : _exponential_moving_average _ _ = Ok ?mid, H2 : _average_true_range _ _ = Ok ?atr, H3 : zip_map _ _ _ = Ok _ |- _ =>
    pose proof (ema_early _ _ _ H1) as Em; pose proof (ema_full _ _ _ H1) as Fm;
    pose proof (atr_early _ _ _ H2) as Ea; pose proof (atr_full _ _ _ H2) as Fa; rename H3 into Hz end.
  split.
  - destruct (decide (period <= atr_period)).
    + dict_series "lower"%string. eapply early_weaken; [eapply band_early; [exact Hz|exact Ea]|lia].
    + dict_series "middle"%string. eapply early_weaken; [exact Em|lia].
  - dict_all; [|eapply full_weaken; [exact Fm|lia]|];
      (eapply band_full; [exact Hz|eapply full_weaken; [exact Fm|lia]|eapply full_weaken; [exact Fa|lia]]).
Qed.

Lemma donchian_defined period indicator candles m : _period_parameter indicator = Ok period ->
  _donchian_series indicator candles = Ok m -> dict_early DONCHIAN (period - 1) m ∧ dict_full (period - 1) m.
Proof.
  intros Hp. unfold _donchian_series. rewrite Hp. intros H. cbn in H. invert_ok. split.
  - dict_series "upper"%string. by eapply extreme_early.
  - dict_all; [by eapply extreme_full| |by eapply extreme_full].
    eapply opt2_full; [eassumption|by eapply extreme_full|by eapply extreme_full].
Qed.

Lemma midpoint_early period candles ys : _midpoint_series candles period = Ok ys -> early (period - 1) ys.
Proof. unfold _midpoint_series. intros H. invert_ok. eapply opt2_early_r; [eassumption|by eapply extreme_early]. Qed.
Lemma midpoint_full period candles ys : _midpoint_series candles period = Ok ys -> full (period - 1) ys.
Proof.
  unfold _midpoint_series. intros H. invert_ok. eapply opt2_full; [eassumption|by eapply extreme_full|by eapply extreme_full].
Qed.

Lemma ichimoku_defined tenkan kijun senkou_b indicator candles m :
  parameters indicator = IchimokuIndicatorParameters tenkan kijun senkou_b -> tenkan < kijun -> kijun < senkou_b ->
  _ichimoku_series indicator candles = Ok m -> dict_early ICHIMOKU (senkou_b - 1) m ∧ dict_full (senkou_b - 1) m.
Proof.
  intros Hp Ht Hk. unfold _ichimoku_series. rewrite Hp. intros H. invert_ok. split.
  - dict_series "senkou_b"%string. by eapply midpoint_early.
  - dict_all; [eapply full_weaken; [by eapply midpoint_full|lia]..| |by eapply midpoint_full].
    eapply opt2_full; [eassumption|..]; (eapply full_weaken; [by eapply midpoint_full|lia]).
Qed.

Lemma obv_defined signal_period indicator candles m : parameters indicator = SignalLineIndicatorParameters signal_period ->
  _on_balance_volume_series indicator candles = Ok m ->
  dict_early OBV (signal_period - 1) m ∧ dict_full (signal_period - 1) m.
Proof.
  intros Hp. unfold _on_balance_volume_series. rewrite Hp. intros H. invert_ok. split.
  - dict_series "signal"%string. by eapply sma_early.
  - dict_all; [apply map_Some_full|by eapply sma_full].
Qed.

Lemma ad_defined signal_period indicator candles m : parameters indicator = SignalLineIndicatorParameters signal_period ->
  _accumulation_distribution_series indicator candles = Ok m ->
  dict_early ACCUMULATION_DISTRIBUTION (signal_period - 1) m ∧ dict_full (signal_period - 1) m.
Proof.
  intros Hp. unfold _accumulation_distribution_series. rewrite Hp. intros H. invert_ok. split.
  - dict_series "signal"%string. by eapply sma_early.
  - dict_all; [apply map_Some_full|by eapply sma_full].
Qed.

Lemma adx_early period indicator candles m : parameters indicator = IndicatorParameters period -> 1 <= period ->
  _adx_series indicator candles = Ok m -> dict_early ADX (2 * period - 2) m.
Proof.
  intros Hp Hge. unfold _adx_series. rewrite Hp. intros H. invert_ok. dict_series "adx"%string.
  eapply early_weaken; [eapply (wilder_optional_early (period - 1)); [eassumption|done|]|lia].
  apply map_early. intros i [[a b] c] v Hi Hc. cbn in Hc. subst c.
  match goal with H : zip_map _ _ _ = Ok _ |- _ => destruct (zip_map_lookup _ _ _ _ _ _ H Hi) as (u & w & _ & Hw & Hf) end.
  destruct w as [w|]; [by eapply wilder_early|]. exfalso. revert Hf. unfold directional_index.
  destruct u as [[?|] [?|]]; discriminate.
Qed.

Lemma supertrend_defined period multiplier indicator candles m :
  parameters indicator = SupertrendIndicatorParameters period multiplier ->
  _supertrend_series indicator candles = Ok m -> dict_early SUPERTREND (period - 1) m ∧ dict_full (period - 1) m.
Proof.
  intros Hp. unfold _supertrend_series. rewrite Hp. intros H. invert_ok.
  match goal with H : _average_true_range _ _ = Ok ?a |- _ =>
    pose proof (atr_early _ _ _ H) as Ea; pose proof (atr_full _ _ _ H) as Fa end.
  match goal with H : zip_strict _ _ = Ok _ |- _ => apply zip_strict_length in H as (_ & _ & ->) end.
  match goal with H : loop _ _ _ = Ok ?r |- _ => rename H into Hr; rename r into rows end.
  assert (Hrow : ∀ i row, rows !! i = Some row -> ∃ y, x !! i = Some y ∧
            ((y = None ∧ row = (None, None)) ∨ (is_Some y ∧ is_Some row.1 ∧ is_Some row.2))).
  { intros i row Hi. destruct (loop_lookup _ _ _ _ _ _ Hr Hi) as ([c y] & [st pc] & u' & Hx & Hf).
    apply lookup_zip_with_Some in Hx as (? & ? & [= <- <-] & _ & Hy). exists y. split; [done|].
    unfold supertrend_step in Hf. destruct y as [y|]; [right|left; by injection Hf as _ <-].
    apply bind_Ok in Hf as (mid & _ & Hf). injection Hf as _ <-. cbn. split_and!; done. }
  split.
  - dict_series "value"%string. apply map_early. intros i row v Hi Hv.
    destruct (Hrow _ _ Hi) as (y & Hy & [[-> ->]|([w ->] & _)]); [done|]. by eapply Ea.
  - dict_all; apply map_full; intros i row Hi Hk; destruct (Hrow _ _ Hi) as (y & Hy & [[-> ->]|(_ & ? & ?)]); try done;
      destruct (Fa _ _ Hy Hk) as [? [=]].
Qed.

Lemma regression_defined period indicator candles m : _period_parameter indicator = Ok period ->
  _linear_regression_series indicator candles = Ok m -> dict_early LINEAR_REGRESSION (period - 1) m ∧ dict_full (period - 1) m.
Proof.
  intros Hp. unfold _linear_regression_series. rewrite Hp. intros H. cbn in H. invert_ok.
  match goal with H : each_index _ _ = Ok ?r |- _ => rename H into Hr; rename r into fits end.
  assert (Hfit : ∀ i fit, fits !! i = Some fit -> (i < period - 1 ∧ fit = (None, None)) ∨
                          (period - 1 <= i ∧ is_Some fit.1 ∧ is_Some fit.2)).
  { intros i fit Hi. destruct (each_index_lookup _ _ _ _ _ Hr Hi) as [_ Hf].
    destruct (Nat.ltb_spec (i + 1) period); [left; injection Hf as <-; split; [lia|done]|right].
    invert_ok. split_and!; [lia|done|done]. }
  split.
  - dict_series "value"%string. apply map_early. intros i fit v Hi Hv. by destruct (Hfit _ _ Hi) as [[_ ->]|[? _]].
  - dict_all; apply map_full; intros i fit Hi Hk; destruct (Hfit _ _ Hi) as [[? _]|(_ & ? & ?)]; try done; lia.
Qed.

Lemma aroon_defined period indicator candles m : _period_parameter indicator = Ok period ->
  _aroon_series indicator candles = Ok m -> dict_early AROON period m ∧ dict_full period m.
Proof.
  intros Hp. unfold _aroon_series. rewrite Hp. intros H. cbn in H. invert_ok.
  match goal with H : each_index _ _ = Ok ?r |- _ => rename H into Hr; rename r into lines end.
  assert (Hline : ∀ i l, lines !! i = Some l -> (i < period ∧ l = (None, None, None)) ∨
                          (period <= i ∧ is_Some l.1.1 ∧ is_Some l.1.2 ∧ is_Some l.2)).
  { intros i l Hi. destruct (each_index_lookup _ _ _ _ _ Hr Hi) as [_ Hf].
    destruct (Nat.ltb_spec i period); [left; injection Hf as <-; done|right].
    invert_ok. split_and!; done. }
  split.
  - dict_series "up"%string. apply map_early. intros i l v Hi Hv. by destruct (Hline _ _ Hi) as [[_ ->]|[? _]].
  - dict_all; apply map_full; intros i l Hi Hk; destruct (Hline _ _ Hi) as [[? _]|(_ & ? & ? & ?)]; try done; lia.
Qed.

Lemma vortex_early period indicator candles m : _period_parameter indicator = Ok period ->
  _vortex_series indicator candles = Ok m -> dict_early VORTEX period m.
Proof.
  intros Hp. unfold _vortex_series. rewrite Hp. intros H. cbn in H. invert_ok. dict_series "plus"%string.
  apply map_early. intros i l v Hi Hv.
  match goal with H : each_index _ _ = Ok _ |- _ => destruct (each_index_lookup _ _ _ _ _ H Hi) as [_ Hf] end.
  destruct (Nat.ltb_spec i period); [injection Hf as <-; done|done].
Qed.

End Kinds.

(** * The schema's warmup is the engine's warmup

    [_indicator_min_warmup] tells a strategy how many bars an indicator needs before its
    values may be read. Against [_keyed_indicator_values], lag included: a row that has every
    output is never earlier, and for the kinds that divide by no market value it is never
    later. *)

Open Scope nat_scope.

(** The kinds whose value never depends on a market quantity being nonzero. *)
Definition always_defined (kind : IndicatorKind) : bool :=
  match kind with
  | EMA | SMA | RSI | ATR | VOLUME_SMA | HIGHEST | LOWEST | STDEV | STDEV_SAMPLE | IDENTITY | CONSTANT | WMA
  | MOMENTUM | MACD | BOLLINGER | DEMA | TEMA | HMA | KAMA | SUPERTREND | PARABOLIC_SAR | AROON | ICHIMOKU
  | LINEAR_REGRESSION | AWESOME_OSCILLATOR | KELTNER | DONCHIAN | OBV | ACCUMULATION_DISTRIBUTION | FORCE_INDEX
  | PERCENT_RANK => true
  | _ => false
  end.

(** A row in which every output of the indicator has a value. *)
Definition complete_row (indicator : IndicatorDefinition) (row : values) : Prop :=
  ∀ key, key ∈ indicator_value_keys indicator -> is_Some (row_get row key).

#[local] Hint Resolve sma_early sma_full ema_early ema_full wma_early wma_full extreme_early extreme_full : warm.
#[local] Hint Resolve stdev_early stdev_full dema_early dema_full tema_early tema_full hma_early hma_full : warm.
#[local] Hint Resolve roc_early momentum_early momentum_full percent_rank_early percent_rank_full cmo_early : warm.
#[local] Hint Resolve zscore_early williams_early cci_early trix_early awesome_early awesome_full ultimate_early : warm.
#[local] Hint Resolve mfi_early vwma_early cmf_early vwap_early force_early force_full natr_early : warm.
#[local] Hint Resolve choppiness_early volatility_early atr_early atr_full percent_b_early bandwidth_early : warm.
#[local] Hint Resolve stochastic_early stochastic_rsi_early ppo_early tsi_early adx_early vortex_early : warm.
#[local] Hint Extern 4 (_ <= _) => lia : warm.
#[local] Hint Extern 4 (_ < _) => lia : warm.

Lemma dict_early_weaken kind k k' m : dict_early kind k m -> k' <= k -> dict_early kind k' m.
Proof. intros (name & ys & ? & ? & ?) ?. exists name, ys. split_and!; [done|done|by eapply early_weaken]. Qed.

Lemma dict_full_weaken k k' m : dict_full k m -> k <= k' -> dict_full k' m.
Proof. intros H ? name ys Hn. eapply full_weaken; [by eapply H|done]. Qed.

Lemma early_0 ys : early 0 ys.
Proof. intros i v _. lia. Qed.

Section Exact.
Context {dc : DecimalContext}.

Lemma rsi_early period values ys : _relative_strength_index values period = Ok ys -> 1 <= period -> early period ys.
Proof. intros. by eapply rsi_defined. Qed.
Lemma rsi_full period values ys : _relative_strength_index values period = Ok ys -> 1 <= period -> full period ys.
Proof. intros. by eapply rsi_defined. Qed.
Lemma kama_full indicator period fast slow candles ys : parameters indicator = KamaIndicatorParameters period fast slow ->
  _kaufman_adaptive_values indicator candles = Ok ys -> full period ys.
Proof. intros. by eapply kama_defined. Qed.
Lemma kama_early indicator period fast slow candles ys : parameters indicator = KamaIndicatorParameters period fast slow ->
  _kaufman_adaptive_values indicator candles = Ok ys -> early period ys.
Proof. intros. by eapply kama_defined. Qed.
Lemma sar_early step max_step indicator candles ys : parameters indicator = ParabolicSarIndicatorParameters step max_step ->
  _parabolic_sar_values indicator candles = Ok ys -> early 1 ys.
Proof. intros. by eapply sar_defined. Qed.
Lemma sar_full step max_step indicator candles ys : parameters indicator = ParabolicSarIndicatorParameters step max_step ->
  _parabolic_sar_values indicator candles = Ok ys -> full 1 ys.
Proof. intros. by eapply sar_defined. Qed.
#[local] Hint Resolve rsi_early rsi_full kama_early kama_full sar_early sar_full : warm.

(** Parameters of a validated declaration, with their bounds. *)
Lemma valid_shape indicator : valid_indicator indicator ->
  match kind indicator with
  | IDENTITY => True
  | CONSTANT => True
  | k => match _PARAMETER_SHAPES k with
         | Some shape => shape (parameters indicator) = true ∧ valid_parameters (parameters indicator) = true
         | None => ∃ period, parameters indicator = IndicatorParameters period ∧ 2 <= period
         end
  end.
Proof.
  intros Hv. pose proof (valid_indicator_shape indicator) as Hs. pose proof (valid_indicator_period _ Hv) as Hp.
  destruct (kind indicator) eqn:Hk; try exact I;
    first [exact (Hp eq_refl eq_refl)|split; [exact (Hs _ Hv eq_refl)|exact (proj1 Hv)]].
Qed.

(** One series that holds the declared warmup. *)
Ltac warm_case :=
  split; [eapply early_weaken; [solve [eauto with warm]|lia]
         |intros; first [discriminate|eapply full_weaken; [solve [eauto with warm]|lia]]].

Ltac open_shape Hs Hk :=
  rewrite Hk in Hs; cbn in Hs;
  match type of Hs with
  | ∃ _, _ => let n := fresh "n" in destruct Hs as (n & Hpar & Hn)
  | _ ∧ _ => let Hb := fresh "Hb" in destruct Hs as [Hs Hb];
             match type of Hs with context [parameters ?i] => destruct (parameters i) eqn:Hpar; try discriminate Hs end;
             cbn in Hb; bounds_of Hb
  | True => idtac
  end.

Lemma single_warmup indicator candles base ys : valid_indicator indicator ->
  indicator_output_series (kind indicator) = None -> _base_min_warmup indicator = Ok base ->
  _indicator_values indicator candles = Ok ys ->
  early (base - 1) ys ∧ (always_defined (kind indicator) = true -> full (base - 1) ys).
Proof.
  intros Hv Ho Hb H. pose proof (valid_shape _ Hv) as Hs. unfold _indicator_values in H. unfold _base_min_warmup in Hb.
  destruct (kind indicator) eqn:Hk; try discriminate Ho; clear Ho; cbn in Hb, H; cbn in Hs;
    try (match type of Hs with
         | ∃ _, _ => destruct Hs as (n & Hpar & Hn); rewrite Hpar in Hb, H; cbn in Hb, H
         | _ ∧ _ => destruct Hs as [Hs Hbounds]; destruct (parameters indicator) eqn:Hpar; try discriminate Hs;
                    cbn in Hb, Hbounds; bounds_of Hbounds
         end); injection Hb as <-; cbn [always_defined].
  all: try (match type of H with mbind _ _ = _ => apply bind_Ok in H as (vs & Hvs & H); cbn beta in H end).
  all: try solve [warm_case].
  - unfold _identity_values in H. apply bind_Ok in H as (vs & _ & [= <-]). split; [apply early_0|].
    intros _. apply map_Some_full.
  - unfold _constant_values in H. destruct (parameters indicator); try discriminate H. injection H as <-.
    split; [apply early_0|]. intros _. apply map_full. intros i x _ _. done.
  - split; [|discriminate]. apply (early_weaken period); [|lia].
    eapply volatility_early; [unfold _period_parameter; by rewrite Hpar|lia|exact H].
  - split; [|discriminate]. apply (early_weaken period); [|lia].
    eapply volatility_early; [unfold _period_parameter; by rewrite Hpar|lia|exact H].
Qed.

Lemma period_of_plain indicator period : parameters indicator = IndicatorParameters period ->
  _period_parameter indicator = Ok period.
Proof. intros Hp. unfold _period_parameter. by rewrite Hp. Qed.

(** Close a kind with its lemma: the side conditions are bounds of the parameters. *)
Ltac dict_case L :=
  match goal with H : _ = Ok ?m' |- dict_early _ _ ?m' ∧ _ =>
    let D := fresh in pose proof L as D;
    repeat (match type of D with _ = _ -> _ => fail 1 | _ -> _ => specialize (D ltac:(lia)) end);
    specialize (D H) as [? ?]
  end;
  split; [eapply dict_early_weaken; [eassumption|lia]|intros _; eapply dict_full_weaken; [eassumption|lia]].
Ltac early_case L :=
  match goal with H : _ = Ok ?m' |- dict_early _ _ ?m' ∧ _ =>
    let D := fresh in pose proof L as D;
    repeat (match type of D with _ = _ -> _ => fail 1 | _ -> _ => specialize (D ltac:(lia)) end);
    specialize (D H)
  end;
  split; [eapply dict_early_weaken; [eassumption|lia]|discriminate].

Lemma multi_warmup indicator candles base m names : valid_indicator indicator ->
  indicator_output_series (kind indicator) = Some names -> _base_min_warmup indicator = Ok base ->
  _multi_series_values indicator candles = Ok m ->
  dict_early (kind indicator) (base - 1) m ∧ (always_defined (kind indicator) = true -> dict_full (base - 1) m).
Proof.
  intros Hv Ho Hb H. pose proof (valid_shape _ Hv) as Hs. unfold _multi_series_values in H. unfold _base_min_warmup in Hb.
  destruct (kind indicator) eqn:Hk; try discriminate Ho; clear Ho; cbn in Hb, H; cbn in Hs;
    (match type of Hs with
     | ∃ _, _ => destruct Hs as (n & Hpar & Hn); rewrite Hpar in Hb; cbn in Hb
     | _ ∧ _ => destruct Hs as [Hs Hbounds]; destruct (parameters indicator) eqn:Hpar; try discriminate Hs;
                cbn in Hb, Hbounds; bounds_of Hbounds
     end); injection Hb as <-; cbn [always_defined].
  - dict_case (macd_defined _ _ _ _ candles m Hpar).
  - destruct (bollinger_defined _ _ _ _ _ Hpar H) as [(middle & upper & lower & -> & He) Hf]. split; [|intros _; exact Hf].
    exists "lower"%string, lower. split_and!; [cbn; repeat first [left|right]|reflexivity|exact He].
  - early_case (stochastic_early _ _ _ candles m Hpar).
  - early_case (adx_early _ _ candles m Hpar).
  - dict_case (supertrend_defined _ _ _ candles m Hpar).
  - dict_case (aroon_defined _ _ candles m (period_of_plain _ _ Hpar)).
  - dict_case (ichimoku_defined _ _ _ _ candles m Hpar).
  - early_case (vortex_early _ _ candles m (period_of_plain _ _ Hpar)).
  - dict_case (regression_defined _ _ candles m (period_of_plain _ _ Hpar)).
  - early_case (stochastic_rsi_early _ _ _ _ _ candles m Hpar).
  - early_case (ppo_early _ _ _ _ candles m Hpar).
  - early_case (tsi_early _ _ _ _ candles m Hpar).
  - dict_case (keltner_defined _ _ _ _ candles m Hpar).
  - dict_case (donchian_defined _ _ candles m (period_of_plain _ _ Hpar)).
  - dict_case (obv_defined _ _ candles m Hpar).
  - dict_case (ad_defined _ _ candles m Hpar).
Qed.

(** ** Rows *)

Lemma series_key_inj id : Inj (=) (=) (series_key id).
Proof. intros a b H. unfold series_key in H. by apply (inj (String.append id)), (inj (String.append ".")) in H. Qed.

Lemma series_row_get id (m : gmap string series) i names row row0 :
  foldM (λ (row : values) name,
    values ← series_of m name; value ← value_at values i; Ok (<[ series_key id name := value ]> row)) row0 names = Ok row ->
  (∀ name, name ∈ names -> ∃ ys y, m !! name = Some ys ∧ ys !! i = Some y ∧ row !! series_key id name = Some y) ∧
  (∀ key, (∀ name, name ∈ names -> series_key id name ≠ key) -> row !! key = row0 !! key).
Proof.
  revert row0. induction names as [|n names IH]; intros row0; cbn.
  - intros [= <-]. split; [by intros name ?%elem_of_nil|done].
  - intros (row1 & Hrow1 & Hrest)%bind_Ok. destruct (IH _ Hrest) as [Hin Hout].
    apply bind_Ok in Hrow1 as (ys & Hys & (y & Hy & [= <-])%bind_Ok).
    unfold series_of in Hys. destruct (m !! n) as [ys'|] eqn:Hm; [|done]. injection Hys as ->.
    unfold value_at in Hy. destruct (ys !! i) as [y'|] eqn:Hi; [|done]. injection Hy as ->. split.
    + intros name Hname. destruct (decide (name ∈ names)) as [|Hn]; [by apply Hin|].
      apply elem_of_cons in Hname as [->|]; [|done]. exists ys, y. split_and!; [done|done|].
      rewrite Hout; [by rewrite lookup_insert_eq|]. intros name Hn' Heq. by apply (inj (series_key id)) in Heq as ->.
    + intros key Hkey. rewrite Hout by (intros; apply Hkey; by right). apply lookup_insert_ne, Hkey. left.
Qed.

Lemma unlagged_complete indicator candles base rows i row : valid_indicator indicator ->
  _base_min_warmup indicator = Ok base -> _unlagged_keyed_values indicator candles = Ok rows -> rows !! i = Some row ->
  (complete_row indicator row -> base <= i + 1) ∧
  (always_defined (kind indicator) = true -> base <= i + 1 -> complete_row indicator row).
Proof.
  intros Hv Hb H Hi. unfold _unlagged_keyed_values, complete_row, indicator_value_keys in *.
  destruct (indicator_output_series (kind indicator)) as [names|] eqn:Ho.
  - apply bind_Ok in H as (m & Hm & Hr). destruct (multi_warmup _ _ _ _ _ Hv Ho Hb Hm) as [(name & ys & Hin & Hys & He) Hfull].
    rewrite Ho in Hin. cbn in Hin. destruct (each_index_lookup _ _ _ _ _ Hr Hi) as [_ Hrow].
    destruct (series_row_get _ _ _ _ _ _ Hrow) as [Hget _]. split.
    + intros Hall. destruct (Hget _ Hin) as (ys' & y & Hys' & Hy & Hkey). rewrite Hys in Hys'. injection Hys' as <-.
      destruct (Hall (series_key (ind_id indicator) name)) as [v Hg]; [by apply list_elem_of_fmap_2|].
      unfold row_get in Hg. rewrite Hkey in Hg. cbn in Hg. subst y. specialize (He _ _ Hy). lia.
    + intros Ha Hge key (n & -> & Hn)%list_elem_of_fmap. destruct (Hget _ Hn) as (ys' & y & Hys' & Hy & Hkey).
      unfold row_get. rewrite Hkey. cbn. eapply (Hfull Ha _ _ Hys'); [exact Hy|lia].
  - apply bind_Ok in H as (ys & Hys & [= <-]). destruct (single_warmup _ _ _ _ Hv Ho Hb Hys) as [He Hfull].
    apply list_lookup_fmap_Some in Hi as (y & -> & Hy). split.
    + intros Hall. destruct (Hall (ind_id indicator)) as [v Hg]; [left|]. unfold row_get in Hg.
      rewrite lookup_singleton_eq in Hg. cbn in Hg. subst y. specialize (He _ _ Hy). lia.
    + intros Ha Hge key ->%list_elem_of_singleton. unfold row_get. rewrite lookup_singleton_eq. cbn.
      eapply (Hfull Ha); [exact Hy|lia].
Qed.

Lemma undefined_row_incomplete indicator : valid_indicator indicator -> ¬ complete_row indicator (undefined_row indicator).
Proof.
  intros _ H. assert (∃ key, key ∈ indicator_value_keys indicator) as [key Hkey].
  { unfold indicator_value_keys. destruct (kind indicator); cbn; eexists; left. }
  destruct (H _ Hkey) as [v Hg]. unfold row_get, undefined_row in Hg.
  destruct (list_to_map _ !! key) as [y|] eqn:E; [|done]. apply elem_of_list_to_map_2 in E.
  apply list_elem_of_fmap in E as (k & [= -> ->] & _). done.
Qed.

(** C33: the schema's warmup is exactly the engine's. With the bar lag of the declaration included,
    a row that has a value for every output is at or after the bar the minimum warmup names;
    and for every kind that divides by no market quantity, every row from that bar on is
    complete. *)
Theorem warmup_exact indicator candles rows bars i row : valid_indicator indicator ->
  indicator_min_warmup indicator = Ok bars -> _keyed_indicator_values indicator candles = Ok rows -> rows !! i = Some row ->
  (complete_row indicator row -> bars <= i + 1) ∧
  (always_defined (kind indicator) = true -> bars <= i + 1 -> complete_row indicator row).
Proof.
  intros Hv Hbars H Hi. unfold indicator_min_warmup, _indicator_min_warmup in Hbars.
  destruct (base_warmup_positive _ Hv) as (base & Hb & Hpos). rewrite Hb in Hbars. injection Hbars as <-.
  unfold _keyed_indicator_values in H. apply bind_Ok in H as (urows & Hu & H).
  destruct (Nat.eqb_spec (indicator_offset indicator) 0) as [E|E]; injection H as <-.
  - rewrite E, Nat.add_0_r. by eapply unlagged_complete.
  - set (off := indicator_offset indicator) in *. set (lead := Nat.min off (length urows)) in *.
    destruct (decide (i < lead)) as [Hlt|Hge].
    + rewrite lookup_app_l, lookup_repeat in Hi by (rewrite ?repeat_length; done). injection Hi as <-.
      split; [intros Hc; by apply undefined_row_incomplete in Hc|lia].
    + rewrite lookup_app_r in Hi by (rewrite repeat_length; lia). rewrite repeat_length in Hi.
      apply lookup_take_Some in Hi as [Hi Hlen]. assert (lead = off) as -> by lia.
      destruct (unlagged_complete _ _ _ _ _ _ Hv Hb Hu Hi) as [H1 H2].
      split; [intros Hc; specialize (H1 Hc); lia|]. intros Ha Hk. apply H2; [done|lia].
Qed.

End Exact.

(** The highest close of two bars, lagged by one bar: three bars of warmup. *)
Definition sample_indicator : IndicatorDefinition :=
  mk_indicator "top" HIGHEST (Some (SingleField close_field)) (IndicatorParameters 2) None (Some 1) None.
Definition sample_candles : list Candle :=
  imap (λ i price, mk_candle (Z.of_nat i * 3600) (of_Z price) (of_Z (price + 2)) (of_Z (price - 1)) (of_Z (price + 1)) (of_Z 10))
    [100; 102; 101; 105]%Z.

Lemma warmup_exact_witness : ∃ rows row,
  _keyed_indicator_values (dc := simulation_context) sample_indicator sample_candles = Ok rows ∧ rows !! 2 = Some row ∧
  complete_row sample_indicator row.
Proof.
  eexists. eexists. split; [reflexivity|]. split; [reflexivity|].
  eapply (warmup_exact (dc := simulation_context) sample_indicator sample_candles _ 3 2).
  - vm_compute. repeat split; reflexivity.
  - reflexivity.
  - reflexivity.
  - reflexivity.
  - reflexivity.
  - apply Nat.le_refl.
Defined.
