(* ===== verification/IndicatorCausality.v ===== *)
(** * IndicatorCausality: no indicator looks ahead

    Every calculation of the indicator engine, run on the first [n] bars, returns the first
    [n] values it returns on all of them; so do the rows of [calculate_indicator_rows], with
    declared and requested lags. One lemma per calculation, named [<calculation>_cut], is
    declared in the hint database [cut]; [chain] replays a calculation on the prefix. *)

From S2P Require Import Prelude Decimals DecimalFunctions Market IndicatorSpec Conditions Series.
From S2P Require Import IndicatorMath Calculations Indicators IndicatorWarmup.

Open Scope nat_scope.

Create HintDb cut.
#[export] Hint Resolve zip_strict_cut zip_map_cut mapM_take loop_take : cut.

(** Replay the binds of a calculation on the prefix, each by its own lemma. *)
Ltac chain :=
  repeat rewrite map_take;
  repeat (eapply bind_intro; [solve [eauto with cut]|]; cbn beta; repeat rewrite map_take);
  try solve [eauto with cut].

(** The dictionaries of multi-output calculations, cut series by series. *)
Ltac chain_dict := chain; rewrite ?fmap_insert, ?map_fmap_singleton, <- ?map_take; reflexivity.

Ltac index_guard i Hi :=
  match goal with |- context [?a <? ?b] => destruct (Nat.ltb_spec a b) as [|Hi]; [done|] end.

Lemma defined_take_windows (values : list (option decimal)) period n :
  _windows_defined (take n values) period = take n (_windows_defined values period).
Proof.
  unfold _windows_defined. apply list_eq. intros i. rewrite list_lookup_imap.
  destruct (decide (i < n)) as [Hi|]; [|by rewrite !lookup_take_ge by lia].
  rewrite !lookup_take_lt, list_lookup_imap by done. destruct (values !! i); cbn; [|done]. do 2 f_equal.
  rewrite slice_take by lia. done.
Qed.

Section Causality.
Context {dc : DecimalContext}.

Implicit Types (values : list decimal) (xs ys : series) (candles : list Candle).

(** ** Averages and rolling statistics *)

Lemma source_series_cut indicator candles values n : _locked_source_series indicator candles = Ok values ->
  _locked_source_series indicator (take n candles) = Ok (take n values).
Proof. unfold _locked_source_series. destruct (input indicator) as [[]|]; [|done..]. intros [= <-]. by rewrite map_take. Qed.
#[local] Hint Resolve source_series_cut : cut.

(** Calculations that read a full trailing window. *)
Lemma window_cut {A B} (f : list A → result (option B)) (l : list A) period (ys : list (option B)) n :
  each_index (length l) (λ i, if i + 1 <? period then Ok None else f (slice l (i + 1 - period) (i + 1))) = Ok ys ->
  each_index (length (take n l)) (λ i, if i + 1 <? period then Ok None else f (slice (take n l) (i + 1 - period) (i + 1)))
    = Ok (take n ys).
Proof.
  intros H. rewrite length_take. eapply each_index_cut; [exact H|]. intros i Hi _. cbn beta. by rewrite slice_take by lia.
Qed.

Lemma sma_cut values period ys n : _simple_moving_average values period = Ok ys ->
  _simple_moving_average (take n values) period = Ok (take n ys).
Proof. apply (window_cut (λ w, Some <$> div (dsum w) (of_nat period))). Qed.

Lemma sma_defined_cut xs period ys n : _simple_moving_average_defined xs period = Ok ys ->
  _simple_moving_average_defined (take n xs) period = Ok (take n ys).
Proof.
  apply (window_cut (λ w, if existsb (λ value, match value with None => true | Some _ => false end) w then Ok None
                          else Some <$> div (dsum (defined w)) (of_nat period))).
Qed.

Lemma seeded_cut advance period values ys n : seeded advance period values = Ok ys ->
  seeded advance period (take n values) = Ok (take n ys).
Proof.
  unfold seeded. intros H. eapply enumerate_loop_cut; [exact H|]. intros u i x Hi _. cbn [seeded_step].
  destruct (Nat.ltb_spec (i + 1) period); [done|]. by rewrite take_take_le by lia.
Qed.

Lemma seeded_optional_cut advance period xs ys n : seeded_optional advance period xs = Ok ys ->
  seeded_optional advance period (take n xs) = Ok (take n ys).
Proof. apply loop_take. Qed.

Lemma ema_cut values period ys n : _exponential_moving_average values period = Ok ys ->
  _exponential_moving_average (take n values) period = Ok (take n ys).
Proof. apply seeded_cut. Qed.

Lemma wilder_cut values period ys n : _wilder_smooth values period = Ok ys ->
  _wilder_smooth (take n values) period = Ok (take n ys).
Proof. apply seeded_cut. Qed.

Lemma ema_optional_cut xs period ys n : _exponential_moving_average_optional xs period = Ok ys ->
  _exponential_moving_average_optional (take n xs) period = Ok (take n ys).
Proof. apply seeded_optional_cut. Qed.

Lemma wilder_optional_cut xs period ys n : _wilder_smooth_optional xs period = Ok ys ->
  _wilder_smooth_optional (take n xs) period = Ok (take n ys).
Proof. apply seeded_optional_cut. Qed.

Lemma wma_cut values period ys n : _weighted_moving_average values period = Ok ys ->
  _weighted_moving_average (take n values) period = Ok (take n ys).
Proof. apply (window_cut (λ w, Some <$> weighted_mean w)). Qed.

Lemma wma_optional_cut xs period ys n : _weighted_moving_average_optional xs period = Ok ys ->
  _weighted_moving_average_optional (take n xs) period = Ok (take n ys).
Proof. unfold _weighted_moving_average_optional. rewrite defined_take_windows. apply mapM_take. Qed.

Lemma extreme_cut values period maximum ys n : _rolling_extreme values period maximum = Ok ys ->
  _rolling_extreme (take n values) period maximum = Ok (take n ys).
Proof. apply (window_cut (λ w, Some <$> extreme_of maximum w)). Qed.

Lemma extreme_optional_cut xs period maximum ys n : _rolling_extreme_optional xs period maximum = Ok ys ->
  _rolling_extreme_optional (take n xs) period maximum = Ok (take n ys).
Proof. unfold _rolling_extreme_optional. rewrite defined_take_windows. apply mapM_take. Qed.

Lemma stdev_cut values period divisor ys n : _rolling_stdev values period divisor = Ok ys ->
  _rolling_stdev (take n values) period divisor = Ok (take n ys).
Proof.
  apply (window_cut (λ w, mean ← div (dsum w) (of_nat period); variance ← div (sum_squares mean w) (of_nat divisor);
                          Some <$> deviation_of variance)).
Qed.

Lemma population_stdev_cut values period ys n : _rolling_population_stdev values period = Ok ys ->
  _rolling_population_stdev (take n values) period = Ok (take n ys).
Proof. apply stdev_cut. Qed.
#[local] Hint Resolve sma_cut sma_defined_cut ema_cut wilder_cut ema_optional_cut wilder_optional_cut : cut.
#[local] Hint Resolve wma_cut wma_optional_cut extreme_cut extreme_optional_cut population_stdev_cut : cut.

Lemma dema_cut values period ys n : _double_exponential_moving_average values period = Ok ys ->
  _double_exponential_moving_average (take n values) period = Ok (take n ys).
Proof. unfold _double_exponential_moving_average. intros H. invert_ok. chain. Qed.

Lemma tema_cut values period ys n : _triple_exponential_moving_average values period = Ok ys ->
  _triple_exponential_moving_average (take n values) period = Ok (take n ys).
Proof. unfold _triple_exponential_moving_average. intros H. invert_ok. chain. Qed.

Lemma hma_cut values period ys n : _hull_moving_average values period = Ok ys ->
  _hull_moving_average (take n values) period = Ok (take n ys).
Proof. unfold _hull_moving_average. intros H. invert_ok. chain. Qed.

Lemma zscore_cut values period ys n : _rolling_zscore values period = Ok ys ->
  _rolling_zscore (take n values) period = Ok (take n ys).
Proof. unfold _rolling_zscore. intros H. invert_ok. chain. Qed.

Lemma filter_ext_in {A} (P Q : A → Prop) `{∀ x, Decision (P x), ∀ x, Decision (Q x)} (l : list A) :
  (∀ x, x ∈ l -> (P x ↔ Q x)) -> filter P l = filter Q l.
Proof.
  induction l as [|x l IH]; intros Hx; [done|]. rewrite !filter_cons.
  assert (P x ↔ Q x) by (apply Hx; left). rewrite IH by (intros; apply Hx; by right).
  destruct (decide (P x)), (decide (Q x)); tauto.
Qed.

Lemma percent_rank_cut values period ys n : _percent_rank values period = Ok ys ->
  _percent_rank (take n values) period = Ok (take n ys).
Proof.
  unfold _percent_rank. intros H. rewrite length_take. eapply each_index_cut; [exact H|]. intros i Hi _. cbn beta.
  destruct (Nat.ltb_spec i period); [done|]. do 5 f_equal. apply filter_ext_in. intros x Hx%elem_of_seq.
  by rewrite !at_take by lia.
Qed.

Lemma regression_cut indicator candles m n : _linear_regression_series indicator candles = Ok m ->
  _linear_regression_series indicator (take n candles) = Ok (take n <$> m).
Proof.
  unfold _linear_regression_series. intros H. invert_ok. chain.
  eapply bind_intro.
  - rewrite length_take. eapply each_index_cut; [eassumption|]. intros i Hi _. cbn beta. by rewrite slice_take by lia.
  - cbn beta. chain_dict.
Qed.

Lemma lead_take {A} (rest : list (option A)) period len n : length rest = len - period -> n <= len ->
  take n (repeat None (Nat.min period len) ++ rest) = repeat None (Nat.min period n) ++ take (n - period) rest.
Proof.
  intros Hl Hn. rewrite take_app, repeat_length. f_equal.
  - destruct (decide (period <= len)); [rewrite Nat.min_l by lia|rewrite Nat.min_r by lia].
    + destruct (decide (period <= n)); [rewrite take_ge, Nat.min_l by (rewrite ?repeat_length; lia); done|].
      rewrite Nat.min_r by lia. replace period with (n + (period - n)) by lia. rewrite repeat_app.
      rewrite take_app_le by (rewrite repeat_length; lia). by rewrite take_ge by (rewrite repeat_length; lia).
    + rewrite Nat.min_r by lia. replace len with (n + (len - n)) by lia. rewrite repeat_app.
      rewrite take_app_le by (rewrite repeat_length; lia). by rewrite take_ge by (rewrite repeat_length; lia).
  - destruct (decide (period <= len)); [by rewrite Nat.min_l|].
    assert (rest = []) as -> by (apply nil_length_inv; lia). by rewrite !take_nil.
Qed.

Lemma kama_cut indicator candles ys n : _kaufman_adaptive_values indicator candles = Ok ys ->
  _kaufman_adaptive_values indicator (take n candles) = Ok (take n ys).
Proof.
  unfold _kaufman_adaptive_values. destruct (parameters indicator); try done. intros (values & Hv & H)%bind_Ok.
  chain. clear Hv. rewrite length_take. set (len := length values) in *.
  destruct (Nat.leb_spec len period) as [Hlen|Hlen].
  - injection H as <-. rewrite (proj2 (Nat.leb_le _ _)) by lia. f_equal.
    destruct (decide (n <= len)); [rewrite (Nat.min_l n) by lia|rewrite (Nat.min_r n), take_ge by (rewrite ?repeat_length; lia); done].
    pose proof (lead_take (A:=decimal) [] period len n) as L. rewrite !app_nil_r, !take_nil, app_nil_r in L. rewrite L by (cbn; lia).
    done.
  - invert_ok. destruct (decide (n <= len)) as [Hn|Hn].
    + rewrite (Nat.min_l n) by lia. rewrite lead_take; [|apply loop_length in H1; by rewrite length_seq in H1|done].
      destruct (Nat.leb_spec n period) as [Hp|Hp].
      * by replace (n - period) with 0 by lia; rewrite take_0, app_nil_r.
      * rewrite H, H0. cbn. apply loop_take with (n := n - period) in H1. rewrite seq_take in H1 by lia.
        eapply bind_intro; [|reflexivity]. rewrite at_take by lia. rewrite <- H1. apply loop_ext.
        intros i u Hi%elem_of_seq. rewrite !at_take by lia.
        rewrite (fold_left_ext _ (λ acc position, (acc + abs_ (at_ values position - at_ values (position - 1)))%dec)); [done|].
        intros v j Hj%elem_of_seq. by rewrite !at_take by lia.
    + rewrite (Nat.min_r n), (take_ge values) by lia. rewrite (proj2 (Nat.leb_gt _ _)) by lia.
      rewrite H, H0. cbn. rewrite H1. cbn. rewrite take_ge; [done|]. rewrite length_app, repeat_length.
      apply loop_length in H1. rewrite length_seq in H1. lia.
Qed.

(** ** Momentum *)

Lemma repeat_take {A} (x : A) k n : take n (repeat x k) = repeat x (Nat.min n k).
Proof. revert n. induction k as [|k IH]; intros [|n]; cbn; try done. f_equal. apply IH. Qed.

Lemma macd_cut indicator candles m n :
  (∀ fast slow signal, parameters indicator = MacdIndicatorParameters fast slow signal -> fast < slow ∧ 1 <= signal) ->
  _macd_series indicator candles = Ok m -> _macd_series indicator (take n candles) = Ok (take n <$> m).
Proof.
  unfold _macd_series. destruct (parameters indicator); try done. intros Hpar H. destruct (Hpar _ _ _ eq_refl) as [Hlt Hsig].
  assert (Hline : ∀ a b values line, _exponential_moving_average values fast_period = Ok a ->
    _exponential_moving_average values slow_period = Ok b ->
    zip_map (opt2 (λ f s, Ok (f - s)%dec)) a b = Ok line ->
    _macd_signal_ema line signal_period = _exponential_moving_average_optional line signal_period).
  { intros a b values line Ha Hb Hz. apply (macd_signal_optional _ (slow_period - 1)); [done|..].
    - eapply opt2_early_r; [exact Hz|by eapply ema_early].
    - eapply opt2_full; [exact Hz|eapply full_weaken; [by eapply ema_full|lia]|by eapply ema_full]. }
  invert_ok.
  match goal with H1 : _exponential_moving_average _ fast_period = Ok _, H2 : _exponential_moving_average _ slow_period = Ok _,
    H3 : zip_map _ _ _ = Ok ?l, H4 : _macd_signal_ema ?l _ = Ok _ |- _ =>
      rewrite (Hline _ _ _ _ H1 H2 H3) in H4;
      pose proof (Hline _ _ _ _ (ema_cut _ _ _ n H1) (ema_cut _ _ _ n H2) (zip_map_cut _ _ _ _ n H3)) as Hcut
  end.
  do 4 (eapply bind_intro; [solve [eauto with cut]|]; cbn beta). rewrite Hcut. chain_dict.
Qed.

Lemma rsi_cut values period ys n : _relative_strength_index values period = Ok ys ->
  _relative_strength_index (take n values) period = Ok (take n ys).
Proof.
  destruct n as [|n]; [by destruct values|]. destruct values as [|v values]; [by intros [= <-]|].
  unfold _relative_strength_index. cbn [take]. change (v :: take n values) with (take (S n) (v :: values)).
  set (vs := v :: values). assert (Hl : length vs = S (length values)) by done. clearbody vs.
  intros (rest & Hr & [= <-])%bind_Ok. cbn [take]. eapply bind_intro; [|reflexivity].
  apply loop_take with (n := n) in Hr. rewrite <- Hr. rewrite length_take, Hl in *.
  replace (take n (seq 1 (S (length values) - 1))) with (seq 1 (Nat.min (S n) (S (length values)) - 1)).
  - apply loop_ext. intros i u Hi%elem_of_seq. unfold rsi_step. by rewrite !at_take by lia.
  - destruct (decide (n <= length values)); [rewrite seq_take by lia; f_equal; lia|].
    rewrite take_ge by (rewrite length_seq; lia). f_equal. lia.
Qed.
#[local] Hint Resolve rsi_cut : cut.

(** Calculations that look at single earlier positions. *)
Ltac positions_cut H := rewrite length_take; eapply each_index_cut; [exact H|]; intros i Hi _; cbn beta.

Lemma roc_cut values period ys n : _rate_of_change values period = Ok ys ->
  _rate_of_change (take n values) period = Ok (take n ys).
Proof. unfold _rate_of_change. intros H. positions_cut H. by rewrite !at_take by lia. Qed.

Lemma momentum_cut values period ys n : _momentum values period = Ok ys -> _momentum (take n values) period = Ok (take n ys).
Proof. unfold _momentum. intros H. positions_cut H. by rewrite !at_take by lia. Qed.

Lemma williams_cut candles period ys n : _williams_percent_r candles period = Ok ys ->
  _williams_percent_r (take n candles) period = Ok (take n ys).
Proof. unfold _williams_percent_r. intros H. invert_ok. chain. Qed.

Lemma cci_cut candles period ys n : _commodity_channel_index candles period = Ok ys ->
  _commodity_channel_index (take n candles) period = Ok (take n ys).
Proof.
  unfold _commodity_channel_index. intros H. invert_ok. chain. eapply enumerate_loop_cut; [eassumption|].
  intros u i [mean|] Hi _; [|done]. cbn beta iota. rewrite slice_take, at_take by lia. done.
Qed.

Lemma trix_cut values period ys n : _triple_exponential_rate values period = Ok ys ->
  _triple_exponential_rate (take n values) period = Ok (take n ys).
Proof. unfold _triple_exponential_rate. intros H. invert_ok. chain. Qed.

Lemma stochastic_cut indicator candles m n : _stochastic_series indicator candles = Ok m ->
  _stochastic_series indicator (take n candles) = Ok (take n <$> m).
Proof. unfold _stochastic_series. destruct (parameters indicator); try done. intros H. invert_ok. chain_dict. Qed.

Lemma stochastic_rsi_cut indicator candles m n : _stochastic_rsi_series indicator candles = Ok m ->
  _stochastic_rsi_series indicator (take n candles) = Ok (take n <$> m).
Proof. unfold _stochastic_rsi_series. destruct (parameters indicator); try done. intros H. invert_ok. chain_dict. Qed.

Lemma ppo_cut indicator candles m n : _ppo_series indicator candles = Ok m ->
  _ppo_series indicator (take n candles) = Ok (take n <$> m).
Proof.
  unfold _ppo_series, _difference. destruct (parameters indicator); try done. intros H. invert_ok. chain_dict.
Qed.

Lemma pairwise_take {A} (l : list A) n : pairwise (take n l) = take (n - 1) (pairwise l).
Proof.
  unfold pairwise. destruct n as [|n]; [done|]. rewrite Nat.sub_succ, Nat.sub_0_r. destruct l as [|x l]; [cbn; by rewrite take_nil|].
  cbn [take tail]. revert x n. induction l as [|y l IH]; intros x n; [by destruct n|]. destruct n as [|n]; [done|].
  cbn [take zip zip_with]. f_equal. apply IH.
Qed.

Lemma after_first_take {A B} (l : list A) (rest : list (option B)) n :
  after_first (take n l) (take (n - 1) rest) = take n (after_first l rest).
Proof. destruct n as [|n]; [done|]. destruct l; [done|]. cbn [take after_first]. by rewrite Nat.sub_succ, Nat.sub_0_r. Qed.

Lemma changes_take {A B} (f : A → A → option B) l n : changes_of f (take n l) = take n (changes_of f l).
Proof. unfold changes_of. by rewrite pairwise_take, map_take, after_first_take. Qed.

Lemma pressure_cut pressure ranges i period n : i < n -> period <= i ->
  _pressure_average (take n pressure) (take n ranges) i period = _pressure_average pressure ranges i period.
Proof.
  intros Hi Hp. unfold _pressure_average.
  rewrite (fold_left_ext _ (λ acc position, ((acc.1 + at_ pressure position)%dec, (acc.2 + at_ ranges position)%dec)));
    [done|]. intros u x Hx%elem_of_seq. by rewrite !at_take by lia.
Qed.

Lemma ultimate_cut indicator candles ys n :
  (∀ s m l, parameters indicator = UltimateOscillatorIndicatorParameters s m l -> s <= l ∧ m <= l) ->
  _ultimate_oscillator_values indicator candles = Ok ys -> _ultimate_oscillator_values indicator (take n candles) = Ok (take n ys).
Proof.
  unfold _ultimate_oscillator_values. destruct (parameters indicator); try done. intros Hpar H.
  destruct (Hpar _ _ _ eq_refl) as [H1 H2]. destruct n as [|n]; [done|]. positions_cut H.
  rewrite pairwise_take, Nat.sub_succ, Nat.sub_0_r, !map_take. destruct (Nat.ltb_spec i long_period); [done|].
  change (d0 :: take n ?l) with (take (S n) (d0 :: l)). rewrite !pressure_cut by lia. done.
Qed.

Lemma difference_cut xs ys zs n : _difference xs ys = Ok zs -> _difference (take n xs) (take n ys) = Ok (take n zs).
Proof. apply zip_map_cut. Qed.
#[local] Hint Resolve difference_cut : cut.

Lemma awesome_cut indicator candles ys n : _awesome_oscillator_values indicator candles = Ok ys ->
  _awesome_oscillator_values indicator (take n candles) = Ok (take n ys).
Proof. unfold _awesome_oscillator_values. destruct (parameters indicator); try done. intros H. invert_ok. chain. Qed.

Lemma cmo_cut values period ys n : _chande_momentum_oscillator values period = Ok ys ->
  _chande_momentum_oscillator (take n values) period = Ok (take n ys).
Proof.
  unfold _chande_momentum_oscillator. intros H. positions_cut H. destruct (Nat.ltb_spec i period); [done|].
  rewrite (fold_left_ext _ (λ acc position,
    let change := (at_ values position - at_ values (position - 1))%dec in
    if (d0 <? change)%dec then ((acc.1 + change)%dec, acc.2)
    else if (change <? d0)%dec then (acc.1, (acc.2 - change)%dec) else acc)); [done|].
  intros u x Hx%elem_of_seq. by rewrite !at_take by lia.
Qed.

Lemma tsi_cut indicator candles m n : _true_strength_series indicator candles = Ok m ->
  _true_strength_series indicator (take n candles) = Ok (take n <$> m).
Proof.
  unfold _true_strength_series. destruct (parameters indicator); try done. intros H. invert_ok.
  eapply bind_intro; [solve [eauto with cut]|]. cbn beta. rewrite !changes_take. chain_dict.
Qed.

(** ** Volume *)

Lemma volume_at_take candles n i : i < n -> volume_at (take n candles) i = volume_at candles i.
Proof. intros. unfold volume_at. rewrite map_take. by apply at_take. Qed.

Lemma volume_folds_take flow volumes a c n : a + c <= n ->
  volume_folds (take n flow) (take n volumes) a c = volume_folds flow volumes a c.
Proof.
  intros Hn. unfold volume_folds. apply fold_left_ext. intros u x Hx%elem_of_seq. by rewrite !at_take by lia.
Qed.

Lemma mfi_cut candles period ys n : _money_flow_index candles period = Ok ys ->
  _money_flow_index (take n candles) period = Ok (take n ys).
Proof.
  unfold _money_flow_index. intros H. invert_ok. chain.
  match goal with H : each_index _ _ = Ok _ |- _ => positions_cut H end. destruct (Nat.ltb_spec i period); [done|].
  rewrite (fold_left_ext _ (λ acc flow_index,
    let raw := (at_ x flow_index * volume_at candles flow_index)%dec in
    if (at_ x (flow_index - 1) <? at_ x flow_index)%dec then ((acc.1 + raw)%dec, acc.2)
    else if (at_ x flow_index <? at_ x (flow_index - 1))%dec then (acc.1, (acc.2 + raw)%dec) else acc)); [done|].
  intros u j Hj%elem_of_seq. cbn beta zeta. rewrite !at_take, volume_at_take by lia. done.
Qed.

Lemma vwma_cut candles period ys n : _volume_weighted_moving_average candles period = Ok ys ->
  _volume_weighted_moving_average (take n candles) period = Ok (take n ys).
Proof.
  unfold _volume_weighted_moving_average. intros H. positions_cut H. destruct (Nat.ltb_spec (i + 1) period); [done|].
  by rewrite !map_take, volume_folds_take by lia.
Qed.

Lemma cmf_cut candles period ys n : _chaikin_money_flow candles period = Ok ys ->
  _chaikin_money_flow (take n candles) period = Ok (take n ys).
Proof.
  unfold _chaikin_money_flow. intros H. invert_ok. chain.
  match goal with H : each_index _ _ = Ok _ |- _ => positions_cut H end. destruct (Nat.ltb_spec (i + 1) period); [done|].
  by rewrite volume_folds_take by lia.
Qed.

Lemma vwap_cut candles period ys n : _rolling_volume_weighted_average_price candles period = Ok ys ->
  _rolling_volume_weighted_average_price (take n candles) period = Ok (take n ys).
Proof.
  unfold _rolling_volume_weighted_average_price. intros H. invert_ok. chain.
  match goal with H : each_index _ _ = Ok _ |- _ => positions_cut H end. destruct (Nat.ltb_spec (i + 1) period); [done|].
  by rewrite zip_take, map_take, volume_folds_take by lia.
Qed.

Lemma force_cut candles period ys n : _force_index candles period = Ok ys ->
  _force_index (take n candles) period = Ok (take n ys).
Proof. unfold _force_index. rewrite changes_take. apply ema_optional_cut. Qed.

Lemma obv_cut indicator candles m n : _on_balance_volume_series indicator candles = Ok m ->
  _on_balance_volume_series indicator (take n candles) = Ok (take n <$> m).
Proof. unfold _on_balance_volume_series. destruct (parameters indicator); try done. intros H. invert_ok. chain_dict. Qed.

Lemma ad_cut indicator candles m n : _accumulation_distribution_series indicator candles = Ok m ->
  _accumulation_distribution_series indicator (take n candles) = Ok (take n <$> m).
Proof.
  unfold _accumulation_distribution_series. destruct (parameters indicator); try done. intros H. invert_ok. chain_dict.
Qed.

(** ** Volatility and trend *)

Lemma bollinger_cut indicator candles m n : _bollinger_series indicator candles = Ok m ->
  _bollinger_series indicator (take n candles) = Ok (take n <$> m).
Proof. unfold _bollinger_series. destruct (parameters indicator); try done. intros H. invert_ok. chain_dict. Qed.
#[local] Hint Resolve bollinger_cut : cut.

Lemma series_of_cut (m : gmap string series) name ys n : series_of m name = Ok ys -> series_of (take n <$> m) name = Ok (take n ys).
Proof. unfold series_of. rewrite lookup_fmap. destruct (m !! name); [|done]. by intros [= <-]. Qed.
#[local] Hint Resolve series_of_cut : cut.

Lemma percent_b_cut indicator candles ys n : _bollinger_percent_b_values indicator candles = Ok ys ->
  _bollinger_percent_b_values indicator (take n candles) = Ok (take n ys).
Proof. unfold _bollinger_percent_b_values. intros H. invert_ok. chain. Qed.

Lemma bandwidth_cut indicator candles ys n : _bollinger_bandwidth_values indicator candles = Ok ys ->
  _bollinger_bandwidth_values indicator (take n candles) = Ok (take n ys).
Proof. unfold _bollinger_bandwidth_values. intros H. invert_ok. chain. Qed.

Lemma atr_cut candles period ys n : _average_true_range candles period = Ok ys ->
  _average_true_range (take n candles) period = Ok (take n ys).
Proof. unfold _average_true_range. intros H. eapply enumerate_loop_cut; [exact H|]. done. Qed.

Lemma true_ranges_cut candles (ranges : list decimal) n : _true_ranges candles = Ok ranges ->
  _true_ranges (take n candles) = Ok (take n ranges).
Proof. apply loop_take. Qed.

Lemma midpoint_cut candles period ys n : _midpoint_series candles period = Ok ys ->
  _midpoint_series (take n candles) period = Ok (take n ys).
Proof. unfold _midpoint_series. intros H. invert_ok. chain. Qed.
#[local] Hint Resolve atr_cut true_ranges_cut midpoint_cut : cut.

Lemma keltner_cut indicator candles m n : _keltner_series indicator candles = Ok m ->
  _keltner_series indicator (take n candles) = Ok (take n <$> m).
Proof. unfold _keltner_series. destruct (parameters indicator); try done. intros H. invert_ok. chain_dict. Qed.

Lemma donchian_cut indicator candles m n : _donchian_series indicator candles = Ok m ->
  _donchian_series indicator (take n candles) = Ok (take n <$> m).
Proof. unfold _donchian_series. intros H. invert_ok. chain_dict. Qed.

Lemma natr_cut candles period ys n : _normalized_average_true_range candles period = Ok ys ->
  _normalized_average_true_range (take n candles) period = Ok (take n ys).
Proof. unfold _normalized_average_true_range. intros H. invert_ok. chain. Qed.

Lemma choppiness_cut candles period ys n : _choppiness_index candles period = Ok ys ->
  _choppiness_index (take n candles) period = Ok (take n ys).
Proof.
  unfold _choppiness_index. intros H. invert_ok. chain. eapply enumerate_loop_cut; [eassumption|].
  intros u i [[h|] [l|]] Hi _; try done. cbn beta iota. by rewrite slice_take by lia.
Qed.

Lemma volatility_cut indicator candles ys n : _historical_volatility_values indicator candles = Ok ys ->
  _historical_volatility_values indicator (take n candles) = Ok (take n ys).
Proof.
  unfold _historical_volatility_values. intros H. invert_ok.
  do 2 (eapply bind_intro; [eassumption|]; cbn beta). rewrite pairwise_take.
  eapply bind_intro; [by eapply mapM_take|]. cbn beta zeta.
  rewrite after_first_take, defined_take_windows. by apply mapM_take.
Qed.

Lemma adx_cut indicator candles m n : _adx_series indicator candles = Ok m ->
  _adx_series indicator (take n candles) = Ok (take n <$> m).
Proof. unfold _adx_series. destruct (parameters indicator); try done. intros H. invert_ok. chain_dict. Qed.

Lemma supertrend_cut indicator candles m n : _supertrend_series indicator candles = Ok m ->
  _supertrend_series indicator (take n candles) = Ok (take n <$> m).
Proof. unfold _supertrend_series. destruct (parameters indicator); try done. intros H. invert_ok. chain_dict. Qed.

Lemma sar_cut indicator candles ys n : _parabolic_sar_values indicator candles = Ok ys ->
  _parabolic_sar_values indicator (take n candles) = Ok (take n ys).
Proof.
  unfold _parabolic_sar_values. destruct (parameters indicator); try done.
  destruct candles as [|c0 [|c1 candles]], n as [|[|n]]; cbn [take]; try (by intros [= <-]);
    try (by intros (rest & _ & [= <-])%bind_Ok).
  - intros (rest & Hr & [= <-])%bind_Ok. eapply bind_intro; [exact (loop_take _ _ _ _ (S n) Hr)|reflexivity].
Qed.

Lemma extreme_index_take replace values a c n : a + c < n ->
  extreme_index replace (take n values) a c = extreme_index replace values a c.
Proof.
  intros Hn. unfold extreme_index. assert (Hgen : ∀ l best, (∀ x, x ∈ l -> x < n) -> best < n ->
    fold_left (λ best position, if replace (at_ (take n values) position) (at_ (take n values) best) then position else best) l best =
    fold_left (λ best position, if replace (at_ values position) (at_ values best) then position else best) l best).
  { induction l as [|x l IH]; intros best Hl Hb; cbn; [done|]. assert (x < n) by (apply Hl; left).
    rewrite !at_take by done. apply IH; [intros; apply Hl; by right|by destruct (replace _ _)]. }
  apply Hgen; [intros x Hx%elem_of_seq; lia|lia].
Qed.

Lemma aroon_cut indicator candles m n : _aroon_series indicator candles = Ok m ->
  _aroon_series indicator (take n candles) = Ok (take n <$> m).
Proof.
  unfold _aroon_series. intros H. invert_ok. chain. eapply bind_intro.
  - match goal with H : each_index _ _ = Ok _ |- _ => positions_cut H end.
    destruct (Nat.ltb_spec i x); [done|]. rewrite ?map_take, !extreme_index_take by lia. done.
  - cbn beta. chain_dict.
Qed.

Lemma ichimoku_cut indicator candles m n : _ichimoku_series indicator candles = Ok m ->
  _ichimoku_series indicator (take n candles) = Ok (take n <$> m).
Proof. unfold _ichimoku_series. destruct (parameters indicator); try done. intros H. invert_ok. chain_dict. Qed.

Lemma vortex_cut indicator candles m n : _vortex_series indicator candles = Ok m ->
  _vortex_series indicator (take n candles) = Ok (take n <$> m).
Proof.
  unfold _vortex_series. intros H. invert_ok. chain. eapply bind_intro.
  - match goal with H : each_index _ _ = Ok _ |- _ => positions_cut H end. by rewrite slice_take by lia.
  - cbn beta. chain_dict.
Qed.

(** ** The engine *)

#[local] Hint Resolve dema_cut tema_cut hma_cut zscore_cut percent_rank_cut regression_cut kama_cut roc_cut : cut.
#[local] Hint Resolve momentum_cut williams_cut cci_cut trix_cut stochastic_cut stochastic_rsi_cut ppo_cut : cut.
#[local] Hint Resolve awesome_cut cmo_cut tsi_cut mfi_cut vwma_cut cmf_cut vwap_cut force_cut obv_cut ad_cut : cut.
#[local] Hint Resolve percent_b_cut bandwidth_cut keltner_cut donchian_cut natr_cut choppiness_cut : cut.
#[local] Hint Resolve volatility_cut adx_cut supertrend_cut sar_cut aroon_cut ichimoku_cut vortex_cut : cut.

(** What the parameter models guarantee of the two calculations that rely on their order. *)
Lemma valid_macd_parameters indicator fast slow signal : valid_indicator indicator ->
  parameters indicator = MacdIndicatorParameters fast slow signal -> fast < slow ∧ 1 <= signal.
Proof. intros [Hv _] Hp. rewrite Hp in Hv. cbn in Hv. bounds_of Hv. lia. Qed.

Lemma valid_ultimate_parameters indicator s m l : valid_indicator indicator ->
  parameters indicator = UltimateOscillatorIndicatorParameters s m l -> s <= l ∧ m <= l.
Proof. intros [Hv _] Hp. rewrite Hp in Hv. cbn in Hv. bounds_of Hv. lia. Qed.

Lemma indicator_values_cut indicator candles ys n : valid_indicator indicator -> _indicator_values indicator candles = Ok ys ->
  _indicator_values indicator (take n candles) = Ok (take n ys).
Proof.
  intros Hv. unfold _indicator_values, _identity_values, _constant_values, _rolling_sample_stdev.
  assert (Hult : _ultimate_oscillator_values indicator candles = Ok ys ->
                 _ultimate_oscillator_values indicator (take n candles) = Ok (take n ys))
    by (apply ultimate_cut; intros; by eapply valid_ultimate_parameters).
  destruct (kind indicator); cbn; try solve [eauto with cut]; intros H; invert_ok;
    try (destruct (parameters indicator); try discriminate H); invert_ok; chain; try done; try solve [eauto using stdev_cut with cut].
Qed.

Lemma multi_series_cut indicator candles m n : valid_indicator indicator -> _multi_series_values indicator candles = Ok m ->
  _multi_series_values indicator (take n candles) = Ok (take n <$> m).
Proof.
  intros Hv. unfold _multi_series_values.
  assert (Hmacd : _macd_series indicator candles = Ok m -> _macd_series indicator (take n candles) = Ok (take n <$> m))
    by (apply macd_cut; intros; by eapply valid_macd_parameters).
  destruct (kind indicator); cbn; try done; eauto with cut.
Qed.

(** Reading a row of a prefix. *)
Lemma series_row_cut id names (m : gmap string series) n i : i < n ->
  series_row id names (take n <$> m) i = series_row id names m i.
Proof.
  intros Hi. unfold series_row. generalize (∅ : values). induction names as [|name names IH]; intros row; cbn; [done|].
  assert (series_of (take n <$> m) name = (take n) <$> series_of m name) as ->
    by (unfold series_of; rewrite lookup_fmap; by destruct (m !! name)).
  destruct (series_of m name) as [ys|]; cbn; [|done]. unfold value_at. rewrite lookup_take_lt by done.
  destruct (ys !! i); cbn; [apply IH|done].
Qed.

Lemma unlagged_cut indicator candles (rows : list values) n : valid_indicator indicator ->
  _unlagged_keyed_values indicator candles = Ok rows -> _unlagged_keyed_values indicator (take n candles) = Ok (take n rows).
Proof.
  intros Hv. unfold _unlagged_keyed_values. destruct (indicator_output_series (kind indicator)) as [names|]; intros H; invert_ok.
  - eapply bind_intro; [by apply multi_series_cut|]. cbn beta. rewrite length_take.
    eapply each_index_cut; [eassumption|]. intros i Hi _. by apply series_row_cut.
  - eapply bind_intro; [by apply indicator_values_cut|]. cbn beta. by rewrite map_take.
Qed.

Lemma lagged_take {A} (x : A) rows off n :
  take n (repeat x (Nat.min off (length rows)) ++ take (length rows - Nat.min off (length rows)) rows) =
  repeat x (Nat.min off (length (take n rows))) ++
    take (length (take n rows) - Nat.min off (length (take n rows))) (take n rows).
Proof.
  rewrite length_take. set (len := length rows). rewrite take_app, repeat_length, repeat_take, !take_take.
  f_equal; [f_equal; lia|]. destruct (decide (n <= len)).
  - rewrite (Nat.min_l n len) by done. destruct (decide (off <= n)).
    + rewrite (Nat.min_l off n), (Nat.min_l off len) by lia. f_equal. lia.
    + rewrite (Nat.min_r off n) by lia. replace (n - Nat.min off len) with 0 by lia.
      replace (n - n) with 0 by lia. done.
  - rewrite (Nat.min_r n len) by lia. f_equal. lia.
Qed.

Lemma keyed_cut indicator candles (rows : list values) n : valid_indicator indicator ->
  _keyed_indicator_values indicator candles = Ok rows -> _keyed_indicator_values indicator (take n candles) = Ok (take n rows).
Proof.
  intros Hv H. unfold _keyed_indicator_values in *. apply bind_Ok in H as (urows & Hu & H).
  eapply bind_intro; [by apply unlagged_cut|]. cbn beta zeta in *. destruct (_ =? 0); injection H as <-; [done|].
  by rewrite lagged_take.
Qed.

Lemma lag_operand_take known (rows : list values) operand n :
  lag_operand known (take n rows) operand = take n (lag_operand known rows operand).
Proof.
  unfold lag_operand. destruct (operand_offset operand) as [off|]; [|done]. destruct (negb _); [done|].
  apply list_eq. intros i. rewrite list_lookup_imap. destruct (decide (i < n)) as [Hi|Hi].
  - by rewrite !lookup_take_lt, list_lookup_imap by lia.
  - by rewrite (lookup_take_ge rows n i), (lookup_take_ge _ n i) by lia.
Qed.

Lemma rows_cut indicators (rows : list values) candles n (out : list values) : Forall valid_indicator indicators ->
  foldM (λ rows indicator, keyed_rows ← _keyed_indicator_values indicator candles;
           zip_map (λ row keyed, Ok (update row keyed)) rows keyed_rows) rows indicators = Ok out ->
  foldM (λ rows indicator, keyed_rows ← _keyed_indicator_values indicator (take n candles);
           zip_map (λ row keyed, Ok (update row keyed)) rows keyed_rows) (take n rows) indicators = Ok (take n out).
Proof.
  intros Hv. revert rows. induction Hv as [|ind indicators Hind Hv IH]; intros rows; cbn; [by intros [= <-]|].
  intros (r & (keyed & Hk & Hz)%bind_Ok & Hrest)%bind_Ok. eapply bind_intro.
  - eapply bind_intro; [by apply keyed_cut|]. cbn beta. by apply zip_map_cut.
  - by apply IH.
Qed.

(** The engine does not look ahead: whatever bars follow, the rows of the first [n] bars are the
    rows the engine computes when it is given only those bars. *)
Lemma indicator_rows_cut indicators candles operands rows n : Forall valid_indicator indicators ->
  calculate_indicator_rows indicators candles operands = Ok rows ->
  calculate_indicator_rows indicators (take n candles) operands = Ok (take n rows).
Proof.
  intros Hv H. unfold calculate_indicator_rows in *. apply bind_Ok in H as (r & Hr & H). injection H as <-.
  eapply bind_intro; [rewrite map_take; by apply rows_cut|]. cbn beta. f_equal. clear Hr. revert r.
  induction operands as [|o operands IH]; intros r; cbn; [done|]. by rewrite lag_operand_take, IH.
Qed.

End Causality.
