(* ===== verification/IndicatorValues.v ===== *)
(** * IndicatorValues: what the values of the indicators are

    Three contracts of the indicator mathematics: the average that skips undefined values is
    the shipped average of the defined suffix, a rolling extreme is the extreme of its window,
    and the relative strength index stays between 0 and 100 under every rounding. *)

From S2P Require Import Prelude Decimals DecimalFacts Market IndicatorSpec Series.
From S2P Require Import IndicatorMath Calculations IndicatorWarmup.

Open Scope nat_scope.

(** Over a series that is undefined on its first [k] bars, the exponential average that skips
    undefined values is those [k] undefined bars followed by the shipped average of the
    values; and the signal line of MACD is that same series. *)
Lemma optional_average_is_shipped `{DecimalContext} period k (values : list decimal) : 1 <= period ->
  let line := repeat None k ++ map Some values in
  _exponential_moving_average_optional line period =
    (ys ← _exponential_moving_average values period; Ok (repeat None k ++ ys)) ∧
  _macd_signal_ema line period = _exponential_moving_average_optional line period.
Proof. intros Hp line. split; [by apply seeded_optional_suffix|by apply macd_signal_suffix]. Qed.

(** ** Rolling extremes *)

(** Smaller or equal for a maximum, greater or equal for a minimum. *)
Definition within (maximum : bool) (value extreme : decimal) : Prop :=
  if maximum then (val value <= val extreme)%Q else (val extreme <= val value)%Q.

Lemma within_refl maximum value : within maximum value value.
Proof. destruct maximum; apply Qle_refl. Qed.

Lemma within_trans maximum a b c : within maximum a b -> within maximum b c -> within maximum a c.
Proof. destruct maximum; unfold within; intros; lra. Qed.

Lemma extreme_of_spec maximum window v : extreme_of maximum window = Ok v ->
  v ∈ window ∧ ∀ w, w ∈ window -> within maximum w v.
Proof.
  destruct window as [|x rest]; [done|]. intros [= <-]. set (replace := λ extreme value : decimal, _).
  enough (∀ l seen e, e ∈ seen -> (∀ w, w ∈ seen -> within maximum w e) ->
    fold_left replace l e ∈ seen ++ l ∧ ∀ w, w ∈ seen ++ l -> within maximum w (fold_left replace l e)) as Hgen.
  { apply (Hgen rest [x] x); [left|]. intros w ->%list_elem_of_singleton. apply within_refl. }
  induction l as [|y l IH]; intros seen e He Hall; cbn [fold_left]; [by rewrite app_nil_r|].
  replace (seen ++ y :: l) with ((seen ++ [y]) ++ l) by (by rewrite <- app_assoc).
  assert (Hstep : replace e y ∈ seen ++ [y] ∧ ∀ w, w ∈ seen ++ [y] -> within maximum w (replace e y)).
  { unfold replace. destruct (if maximum then (e <? y)%dec else (y <? e)%dec) eqn:Hb.
    - assert (within maximum e y) by (destruct maximum; dec_cmp; unfold within; lra).
      split; [apply elem_of_app; right; by left|].
      intros w [Hw | ->%list_elem_of_singleton]%elem_of_app; [|apply within_refl]. eapply within_trans; [by apply Hall|done].
    - assert (within maximum y e) by (destruct maximum; dec_cmp; unfold within; lra).
      split; [apply elem_of_app; by left|].
      intros w [Hw | ->%list_elem_of_singleton]%elem_of_app; [by apply Hall|done]. }
  destruct Hstep. by apply IH.
Qed.

(** A value of a rolling maximum (minimum) is one of the [period] values that end at its bar,
    and none of them exceeds (undercuts) it. *)
Lemma rolling_extreme_spec values period maximum ys i v : _rolling_extreme values period maximum = Ok ys ->
  ys !! i = Some (Some v) ->
  let window := slice values (i + 1 - period) (i + 1) in
  length window = period ∧ v ∈ window ∧ ∀ w, w ∈ window -> within maximum w v.
Proof.
  intros H Hi. destruct (each_index_lookup _ _ _ _ _ H Hi) as [Hlt Hf]. cbn beta in Hf.
  destruct (Nat.ltb_spec (i + 1) period); [done|]. apply fmap_Ok in Hf as (e & He & [= ->]). cbn zeta.
  split; [rewrite length_slice; lia|by apply extreme_of_spec].
Qed.

(** ** The relative strength index *)

Section Rsi.
Context {dc : DecimalContext} (Hw : wide dc).

(** A quantity an operation returned: not negative, and it fits the context. *)
Definition magnitude (d : decimal) : Prop := (0 <= val d)%Q ∧ representable prec (val d).

Lemma magnitude_rounds q d : rounds prec q d -> (0 <= q)%Q -> magnitude d.
Proof. intros Hd Hq. split; [eapply rounds_nonneg; [apply prec_pos|done..]|apply Hd]. Qed.

Lemma magnitude_0 : magnitude d0.
Proof. split; [rewrite val_d0; lra|]. rewrite val_d0. apply representable_0, prec_pos. Qed.

Lemma magnitude_dmax d : representable prec (val d) -> magnitude (dmax d d0).
Proof.
  intros Hd. pose proof (dmax_spec d d0) as (_ & H0 & [E|E]); rewrite E in *.
  - split; [rewrite val_d0 in H0; exact H0|done].
  - apply magnitude_0.
Qed.

Lemma magnitude_add a b : magnitude a -> magnitude b -> magnitude (a + b)%dec.
Proof. intros [Ha _] [Hb _]. eapply magnitude_rounds; [apply add_rounds|lra]. Qed.

Lemma magnitude_sum l : Forall magnitude l -> magnitude (dsum l).
Proof.
  intros Hl. unfold dsum. assert (Hgen : ∀ acc, magnitude acc -> magnitude (fold_left add l acc)).
  { induction Hl as [|x l Hx Hl IH]; intros acc Hacc; cbn; [done|]. apply IH. by apply magnitude_add. }
  apply Hgen, magnitude_0.
Qed.

Lemma val_of_nat n : (val (of_nat n) == inject_Z (Z.of_nat n))%Q.
Proof. apply val_of_Z. Qed.

Lemma magnitude_div a n d : magnitude a -> 0 < n -> div a (of_nat n) = Ok d -> magnitude d.
Proof.
  intros [Ha _] Hn Hd. destruct (div_rounds _ _ _ Hd) as [_ Hr]. eapply magnitude_rounds; [exact Hr|].
  rewrite val_of_nat. apply Qle_shift_div_l; [rewrite <- (Zlt_Qlt 0); lia|]. lra.
Qed.

Lemma magnitude_step a n gain m d : magnitude a -> magnitude gain -> 0 < m ->
  div (a * of_nat n + gain)%dec (of_nat m) = Ok d -> magnitude d.
Proof.
  intros [Ha Hra] Hg Hm Hd. eapply magnitude_div; [|exact Hm|exact Hd]. apply magnitude_add; [|done].
  eapply magnitude_rounds; [apply mul_rounds|]. rewrite val_of_nat.
  apply Qmult_le_0_compat; [done|]. rewrite <- (Zle_Qle 0). lia.
Qed.

(** A hundred times a number that fits is the same digits, two places up. *)
Lemma hundred_exact g : representable prec (val g) -> (val (hundred * g)%dec == 100 * val g)%Q.
Proof.
  intros (c & e & Hc & Hv). pose proof (mul_rounds hundred g) as Hm.
  assert (val hundred == 100)%Q as E by (apply (val_of_nat 100)). rewrite E in Hm.
  apply (rounds_exact (p := prec)); [exact Hm|].
  exists c, (e + 2)%Z. split; [done|]. rewrite Hv, p10_add. change (p10 2) with 100%Q. ring.
Qed.

Definition is_percentage (v : decimal) : Prop := (0 <= val v)%Q ∧ (val v <= 100)%Q.

Lemma rsi_value_percentage gain loss v : magnitude gain -> magnitude loss -> rsi_value gain loss = Ok v -> is_percentage v.
Proof.
  intros [Hg Hrg] [Hl _]. unfold rsi_value, is_percentage. destruct (loss =? d0)%dec eqn:El.
  { destruct (gain =? d0)%dec; cbn; intros [= <-]; vm_compute; split; discriminate. }
  rewrite andb_false_r. intros Hd. dec_cmp. rewrite val_d0 in El. destruct (div_rounds _ _ _ Hd) as [_ Hr].
  rewrite (hundred_exact _ Hrg) in Hr. pose proof (add_rounds gain loss) as Ha.
  assert (val gain <= val (gain + loss)%dec)%Q by (eapply rounds_ge; [exact Ha|exact Hrg|lra]).
  assert (0 < val (gain + loss)%dec)%Q by (eapply rounds_pos; [apply prec_pos|exact Ha|lra]).
  split.
  - eapply rounds_nonneg; [apply prec_pos|exact Hr|]. apply Qle_shift_div_l; lra.
  - eapply rounds_le; [exact Hr|apply (representable_Z 100)|apply Qle_shift_div_r; lra].
    unfold wide in Hw. assert (10 ^ 28 <= 10 ^ prec)%Z by (apply Z.pow_le_mono_r; lia). lia.
Qed.

(** Averages and changes of the loop are magnitudes; every value it reports is a percentage. *)
Definition rsi_invariant (state : RsiState) (out : series) : Prop :=
  Forall magnitude (gains state) ∧ Forall magnitude (losses state) ∧
  (∀ g l, averages state = Some (g, l) -> magnitude g ∧ magnitude l) ∧
  (∀ v, Some v ∈ out -> is_percentage v).

Lemma rsi_step_invariant values period state index state' y out : 0 < period ->
  rsi_invariant state out -> rsi_step values period state index = Ok (state', y) -> rsi_invariant state' (out ++ [y]).
Proof.
  intros Hp (Hg & Hl & Ha & Ho) Hs. unfold rsi_step in Hs.
  set (change := (at_ values index - at_ values (index - 1))%dec) in *.
  assert (Hgain : magnitude (dmax change d0)) by (apply magnitude_dmax; apply sub_rounds).
  assert (Hloss : magnitude (dmax (- change)%dec d0)) by (apply magnitude_dmax; apply neg_rounds).
  assert (HG : Forall magnitude (gains state ++ [dmax change d0])) by (apply Forall_app; split; [done|by constructor]).
  assert (HL : Forall magnitude (losses state ++ [dmax (- change)%dec d0])) by (apply Forall_app; split; [done|by constructor]).
  destruct (index <? period).
  { injection Hs as <- <-. split_and!; [done|done|done|]. intros v [?|[=]%list_elem_of_singleton]%elem_of_app. by apply Ho. }
  apply bind_Ok in Hs as ([g l] & Hav & (v & Hv & [= <- <-])%bind_Ok). cbn in Hv.
  assert (magnitude g ∧ magnitude l) as [Hmg Hml].
  { destruct (averages state) as [[g0 l0]|]; apply bind_Ok in Hav as (g1 & Hg1 & (l1 & Hl1 & [= <- <-])%bind_Ok).
    - destruct (Ha _ _ eq_refl).
      split; [eapply (magnitude_step _ _ _ _ _); [| |exact Hp|exact Hg1]|eapply magnitude_step; [| |exact Hp|exact Hl1]]; done.
    - split; (eapply magnitude_div; [|exact Hp|eassumption]); apply magnitude_sum; by apply Forall_take. }
  split_and!; [done|done|by intros ? ? [= <- <-]|].
  intros w [?|[= ->]%list_elem_of_singleton]%elem_of_app; [by apply Ho|exact (rsi_value_percentage _ _ _ Hmg Hml Hv)].
Qed.

Lemma rsi_start_invariant : rsi_invariant (mk_rsi [] [] None) [].
Proof. unfold rsi_invariant. split_and!; [constructor|constructor|by intros ? ? [=]|by intros ? ?%elem_of_nil]. Qed.

(** Every reported relative strength is between 0 and 100, whatever the rounding of the averages
    and of the final division. *)
Lemma rsi_is_percentage values period ys i v : 0 < period -> _relative_strength_index values period = Ok ys ->
  ys !! i = Some (Some v) -> is_percentage v.
Proof.
  intros Hp H Hi. destruct values as [|x values]; [injection H as <-; done|]. unfold _relative_strength_index in H.
  set (values' := x :: values) in *.
  apply bind_Ok in H as (rest & Hr & [= <-]). destruct i as [|i]; [done|]. cbn in Hi.
  destruct (loop_ind _ (λ _ state out, rsi_invariant state out) _ _ _
    rsi_start_invariant (λ pre x u out u' y Hu Hs, rsi_step_invariant values' period u x u' y out Hp Hu Hs) Hr) as [u (_ & _ & _ & Ho)].
  apply Ho. by eapply list_elem_of_lookup_2.
Qed.

End Rsi.
