(* ===== verification/Convergence.v ===== *)
(** * Convergence: when an indicator's seed has decayed ([strategies/schema/indicator_convergence.py])

    A recursive stage with smoothing [alpha] keeps [(1 - alpha) ^ k] of its seed after [k]
    updates. The source finds the [k] that leaves a thousandth in floating point, as
    [ceil(log(1e-3) / log(1 - alpha))], and so does this file: on binary64 numbers, with the
    division, subtraction and multiplication of Rocq's specification of them. [log] is the C
    library's; it is taken to return the nearest number, which [math_log] computes from the
    integer logarithm of [DecimalFunctions] with a hundred bits behind the point. *)

From Stdlib Require Import SpecFloat.
From S2P Require Import Prelude Decimals DecimalFunctions IndicatorSpec.

Open Scope nat_scope.

(** ** Floats: 53 bits of precision, exponents up to 1024 *)

Definition binary64 : Type := spec_float.
Definition fsub : binary64 → binary64 → binary64 := SFsub 53 1024.
Definition fmul : binary64 → binary64 → binary64 := SFmul 53 1024.
Definition fdiv : binary64 → binary64 → binary64 := SFdiv 53 1024.
Definition float_of_int (n : Z) : binary64 := binary_normalize 53 1024 n 0 false.

Definition is_float_zero (x : binary64) : bool := match x with S754_zero _ => true | _ => false end.

(** [a / b] on floats. *)
Definition true_div (a b : binary64) : result binary64 := if is_float_zero b then Raise DivisionByZero else Ok (fdiv a b).

Definition LOG_BITS : Z := 100.

(** [math.log], of positive numbers whose bits end within [LOG_BITS] behind the point. *)
Definition math_log (x : binary64) : result binary64 :=
  match x with
  | S754_finite false m e =>
      Ok (binary_normalize 53 1024 (ilog (Z.shiftl (Zpos m) (e + LOG_BITS)) (2 ^ LOG_BITS)) (- LOG_BITS) false)
  | S754_infinity false | S754_nan => Ok x
  | _ => Raise (ValueError "math domain error")
  end.

(** [math.ceil] *)
Definition math_ceil (x : binary64) : result Z :=
  match x with
  | S754_zero _ => Ok 0%Z
  | S754_infinity _ => Raise OverflowError
  | S754_nan => Raise (ValueError "cannot convert float NaN to integer")
  | S754_finite s m e =>
      let n := if s then Zneg m else Zpos m in
      Ok (if (e <? 0)%Z then - (- n / 2 ^ (- e)) else n * 2 ^ e)%Z
  end.

(** [1e-3]: the float nearest to one thousandth. *)
Definition RESIDUAL_SEED_WEIGHT : binary64 := fdiv (float_of_int 1) (float_of_int 1000).

Definition ANCHOR_SENSITIVE_KINDS (kind : IndicatorKind) : bool :=
  match kind with SUPERTREND | PARABOLIC_SAR | OBV | ACCUMULATION_DISTRIBUTION => true | _ => false end.

(** A smoothing of at most one gives a count that is not negative. *)
Definition updates_to_converge (alpha : binary64) : result nat :=
  if SFleb (float_of_int 1) alpha then Ok 0
  else
    seed ← math_log RESIDUAL_SEED_WEIGHT;
    kept ← math_log (fsub (float_of_int 1) alpha);
    updates ← true_div seed kept;
    Z.to_nat <$> math_ceil updates.

Definition _ema_updates (period : nat) : result nat :=
  alpha ← true_div (float_of_int 2) (float_of_int (Z.of_nat period + 1)); updates_to_converge alpha.

Definition _wilder_updates (period : nat) : result nat :=
  alpha ← true_div (float_of_int 1) (float_of_int (Z.of_nat period)); updates_to_converge alpha.

Definition _period (parameters : IndicatorParameterBlock) : result nat :=
  match parameters with IndicatorParameters period => Ok period | _ => Raise parameters_error end.

Definition _ema (parameters : IndicatorParameterBlock) : result nat :=
  period ← _period parameters; _ema_updates period.

Definition _chained_ema (stages : nat) (parameters : IndicatorParameterBlock) : result nat :=
  period ← _period parameters; updates ← _ema_updates period; Ok (stages * updates).

Definition _wilder (parameters : IndicatorParameterBlock) : result nat :=
  period ← _period parameters; _wilder_updates period.

Definition _adx (parameters : IndicatorParameterBlock) : result nat :=
  period ← _period parameters; updates ← _wilder_updates period; Ok (2 * updates).

Definition _macd (parameters : IndicatorParameterBlock) : result nat :=
  match parameters with
  | MacdIndicatorParameters _ slow signal =>
      slow ← _ema_updates slow; signal ← _ema_updates signal; Ok (slow + signal)
  | _ => Raise parameters_error
  end.

Definition _tsi (parameters : IndicatorParameterBlock) : result nat :=
  match parameters with
  | TsiIndicatorParameters long short signal =>
      long ← _ema_updates long; short ← _ema_updates short; signal ← _ema_updates signal; Ok (long + short + signal)
  | _ => Raise parameters_error
  end.

(** [alpha = (2 / (slow + 1)) ** 2]: the square is a product rounded once. *)
Definition _kama (parameters : IndicatorParameterBlock) : result nat :=
  match parameters with
  | KamaIndicatorParameters _ _ slow =>
      smoothing ← true_div (float_of_int 2) (float_of_int (Z.of_nat slow + 1));
      updates ← updates_to_converge (fmul smoothing smoothing);
      Ok (Nat.max 1 updates)
  | _ => Raise parameters_error
  end.

Definition _supertrend (parameters : IndicatorParameterBlock) : result nat :=
  match parameters with
  | SupertrendIndicatorParameters period _ => _wilder_updates period
  | _ => Raise parameters_error
  end.

Definition _stochastic_rsi (parameters : IndicatorParameterBlock) : result nat :=
  match parameters with
  | StochasticRsiIndicatorParameters rsi_period _ _ _ => _wilder_updates rsi_period
  | _ => Raise parameters_error
  end.

Definition _keltner_total (parameters : IndicatorParameterBlock) : result nat :=
  match parameters with
  | KeltnerIndicatorParameters period atr_period _ =>
      middle ← _ema_updates period;
      range ← _wilder_updates atr_period;
      Ok (Nat.max (period + middle) (atr_period + range))
  | _ => Raise parameters_error
  end.

(** [_CONVERGENCE_RULES.get(kind)] *)
Definition _CONVERGENCE_RULES (kind : IndicatorKind) : option (IndicatorParameterBlock → result nat) :=
  match kind with
  | EMA => Some _ema
  | DEMA => Some (_chained_ema 2)
  | TEMA => Some (_chained_ema 3)
  | TRIX => Some (_chained_ema 3)
  | FORCE_INDEX => Some _ema
  | MACD => Some _macd
  | PPO => Some _macd
  | TSI => Some _tsi
  | KAMA => Some _kama
  | RSI => Some _wilder
  | ATR => Some _wilder
  | NATR => Some _wilder
  | ADX => Some _adx
  | SUPERTREND => Some _supertrend
  | STOCHASTIC_RSI => Some _stochastic_rsi
  | _ => None
  end.

Definition RECURSIVE_KINDS (kind : IndicatorKind) : bool :=
  match _CONVERGENCE_RULES kind, kind with Some _, _ => true | None, KELTNER => true | None, _ => false end.

Definition _base_convergence_warmup (indicator : IndicatorDefinition) : result nat :=
  match kind indicator with
  | KELTNER => _keltner_total (parameters indicator)
  | k =>
      minimum ← _base_min_warmup indicator;
      match _CONVERGENCE_RULES k with
      | None => Ok minimum
      | Some rule => updates ← rule (parameters indicator); Ok (minimum + updates)
      end
  end.

Definition indicator_convergence_warmup (indicator : IndicatorDefinition) : result nat :=
  base ← _base_convergence_warmup indicator; Ok (base + indicator_offset indicator).

Definition indicator_anchor_sensitive (indicator : IndicatorDefinition) : bool :=
  ANCHOR_SENSITIVE_KINDS (kind indicator).

Definition indicator_recursive (kind : IndicatorKind) : bool := RECURSIVE_KINDS kind.

(** ** The updates of common periods

    The float formula gives the exact least count: [11 / 13] of the seed of a 12-bar EMA is left
    per update, [13 / 14] of a 14-bar Wilder average's. *)

Example ema_12 : _ema_updates 12 = Ok 42 ∧ (1000 * 11 ^ 42 <= 13 ^ 42)%Z ∧ (13 ^ 41 < 1000 * 11 ^ 41)%Z.
Proof. split; [vm_compute; reflexivity|split; [by vm_compute|by vm_compute]]. Qed.

Example wilder_14 : _wilder_updates 14 = Ok 94 ∧ (1000 * 13 ^ 94 <= 14 ^ 94)%Z ∧ (14 ^ 93 < 1000 * 13 ^ 93)%Z.
Proof. split; [vm_compute; reflexivity|split; [by vm_compute|by vm_compute]]. Qed.

Example bounds_of_updates : _ema_updates 2 = Ok 7 ∧ _ema_updates 500 = Ok 1727 ∧ _wilder_updates 500 = Ok 3451 ∧
  _wilder_updates 1 = Ok 0 ∧ _wilder_updates 0 = Raise DivisionByZero.
Proof. vm_compute. done. Qed.
