(* ===== verification/Strategy.v ===== *)
(** * Strategy: the strategy document and its queries ([strategies/schema], [strategies/models.py])

    The records of a validated strategy document as the engine reads them, the numeric bounds
    their validators enforce, and the read-only queries of [document_queries.py]. A field
    typed [DecimalText] holds the decimal its normalized text denotes; annotations, names and
    the canonical-JSON rendering carry no behaviour the engine reads and are left out. *)

From S2P Require Import Prelude Decimals DecimalFacts Market Geometry IndicatorSpec Conditions.

Open Scope Z_scope.

(** ** Instruments and data requirements ([schema/market.py]) *)

Record Instrument := {
  product_id : string;
  base_currency : string;
  quote_currency : string;
  is_future : bool
}.

Record ReferenceInstrument := {
  reference_id : string;
  reference_product_id : string;
  reference_timeframe : string
}.

Record DataRequirements := {
  warmup_bars : nat;
  convergence_policy : bool;
  required_fields : list source_field;
  reference_instruments_ : list ReferenceInstrument
}.

Definition require_unique_references (d : DataRequirements) : result unit :=
  let references := reference_instruments_ d in
  if negb (bool_decide (NoDup (reference_id <$> references)))
  then Raise (ValueError "reference_instruments ids must be unique")
  else guard_or (bool_decide (NoDup ((λ r, (reference_product_id r, reference_timeframe r)) <$> references)))
         (ValueError "reference_instruments must not repeat one product_id and timeframe pair").

(** ** Entry and exit rules *)

Record EntryDefinition := {
  side : PositionSide;
  when : ConditionNode;
  cooldown_bars : Z;
  max_open_positions : Z;
  economic_guard : option decimal;
  pyramiding : bool
}.

(** [max_open_positions] is one unless pyramiding is enabled, and then between two and eight. *)
Definition validate_pyramiding_bounds (e : EntryDefinition) : result unit :=
  if pyramiding e then
    if max_open_positions e <? 2
    then Raise (ValueError "enabled pyramiding requires max_open_positions between 2 and 8") else Ok tt
  else if negb (max_open_positions e =? 1)
  then Raise (ValueError "max_open_positions must be 1 unless pyramiding is enabled") else Ok tt.

Definition valid_entry (e : EntryDefinition) : bool :=
  (0 <=? cooldown_bars e) && (cooldown_bars e <=? 10000) &&
  (1 <=? max_open_positions e) && (max_open_positions e <=? 8) &&
  match economic_guard e with Some m => (d0 <=? m)%dec && (m <=? d1)%dec | None => true end &&
  bool_decide (validate_pyramiding_bounds e = Ok tt) &&
  bool_decide (_require_bounded_condition_tree (when e) = Ok tt).

Record AtrMultipleStop := { atr_indicator : string; multiple : decimal }.

Inductive TakeProfitDefinition :=
  | RewardRiskTakeProfit (reward_multiple : decimal)
  | NoTakeProfit.

Inductive TrailingStopDefinition :=
  | DisabledTrailingStop
  | AtrTrailingStop (policy : AtrMultipleStop).

Record ExitDefinition := {
  initial_stop : AtrMultipleStop;
  take_profit : TakeProfitDefinition;
  trailing_stop : TrailingStopDefinition;
  max_bars_held : Z;
  signal_exit : option ConditionNode
}.

(** [Decimal("0.5") <= multiple <= Decimal("10")] *)
Definition require_bounded_multiple (m : decimal) : bool := ((Dec 5 (-1) <=? m) && (m <=? of_Z 10))%dec.

Definition valid_exits (x : ExitDefinition) : bool :=
  require_bounded_multiple (multiple (initial_stop x)) &&
  match take_profit x with RewardRiskTakeProfit m => require_bounded_multiple m | NoTakeProfit => true end &&
  match trailing_stop x with AtrTrailingStop p => require_bounded_multiple (multiple p)
                           | DisabledTrailingStop => true end &&
  (1 <=? max_bars_held x) && (max_bars_held x <=? 100000) &&
  match signal_exit x with
  | Some c => bool_decide (_require_bounded_condition_tree c = Ok tt)
  | None => true
  end.

Definition signal_exit_condition (x : ExitDefinition) : option ConditionNode := signal_exit x.

Definition atr_trailing_stop (x : ExitDefinition) : option AtrMultipleStop :=
  match trailing_stop x with AtrTrailingStop policy => Some policy | DisabledTrailingStop => None end.

Definition reward_risk_multiple (x : ExitDefinition) : option decimal :=
  match take_profit x with RewardRiskTakeProfit m => Some m | NoTakeProfit => None end.

(** ** Sizing, limits, execution, derivatives *)

Record RiskFractionSizing := {
  risk_fraction : decimal;
  min_quote_notional : decimal;
  max_quote_notional : decimal
}.

Definition validate_ranges (s : RiskFractionSizing) : bool :=
  ((d0 <? risk_fraction s) && (risk_fraction s <=? Dec 25 (-2)) &&
   (d0 <? min_quote_notional s) && (d0 <? max_quote_notional s) &&
   (min_quote_notional s <=? max_quote_notional s))%dec.

Record PortfolioLimits := {
  max_strategy_exposure_fraction : decimal;
  max_concurrent_positions : Z
}.

Definition validate_exposure (p : PortfolioLimits) : bool :=
  ((d0 <? max_strategy_exposure_fraction p) && (max_strategy_exposure_fraction p <=? d1))%dec &&
  (1 <=? max_concurrent_positions p) && (max_concurrent_positions p <=? 8).

Inductive UnfilledPolicy := cancel | reprice.

Record ExecutionPreferences := { max_entry_wait_bars : Z; on_unfilled_entry : UnfilledPolicy }.

Definition valid_execution (e : ExecutionPreferences) : bool :=
  (1 <=? max_entry_wait_bars e) && (max_entry_wait_bars e <=? 50).

Record Derivatives := { max_leverage : decimal; flatten_before_expiry_hours : option Z }.

Definition MAX_STRATEGY_LEVERAGE : decimal := of_Z 20.
Definition require_bounded_leverage (d : Derivatives) : bool :=
  ((d1 <=? max_leverage d) && (max_leverage d <=? MAX_STRATEGY_LEVERAGE))%dec &&
  match flatten_before_expiry_hours d with
  | Some h => (1 <=? h) && (h <=? 720)
  | None => true
  end.

Record HigherTimeframeFilter := {
  htf_timeframe : string;
  htf_data_requirements : DataRequirements;
  htf_indicators : list IndicatorDefinition;
  htf_when : ConditionNode
}.

Record StrategyDefinition := {
  instrument : Instrument;
  additional_instruments : list Instrument;
  timeframe : string;
  data_requirements : DataRequirements;
  indicators : list IndicatorDefinition;
  htf_filter : option HigherTimeframeFilter;
  entry : EntryDefinition;
  sizing : RiskFractionSizing;
  portfolio_limits : PortfolioLimits;
  exits : ExitDefinition;
  execution : ExecutionPreferences;
  derivatives : option Derivatives
}.

(** ** Queries ([schema/document_queries.py]) *)

Definition MAX_STRATEGY_INSTRUMENTS : nat := 8.

Definition covered_instruments (d : StrategyDefinition) : list Instrument :=
  instrument d :: additional_instruments d.

Definition covered_product_ids (d : StrategyDefinition) : list string :=
  product_id <$> covered_instruments d.

(** [sorted] on strings: insertion sort by code point. *)
Fixpoint insert_string (x : string) (l : list string) : list string :=
  match l with
  | [] => [x]
  | y :: k => if String.leb x y then x :: l else y :: insert_string x k
  end.
Definition sort_strings (l : list string) : list string := foldr insert_string [] l.

Definition lockstep_product_ids (d : StrategyDefinition) : list string :=
  sort_strings (covered_product_ids d).

Definition pyramiding_enabled (d : StrategyDefinition) : bool := pyramiding (entry d).

Definition can_pyramid_add (strategy : StrategyDefinition) (side_ : PositionSide)
    (entry_price mark : decimal) (add_count : Z) : bool :=
  if negb (pyramiding (entry strategy)) || (add_count <? 1) || (max_open_positions (entry strategy) <=? add_count)
  then false
  else match side_ with
  | LONG => (mark >? entry_price)%dec
  | SHORT => (mark <? entry_price)%dec
  end.

Definition resolved_indicator_timeframe (i : IndicatorDefinition) (decision_timeframe : string) : string :=
  default decision_timeframe (ind_timeframe i).

Definition decision_clock_indicators (d : StrategyDefinition) : list IndicatorDefinition :=
  List.filter (λ i, bool_decide (ind_source i = None) &&
               bool_decide (resolved_indicator_timeframe i (timeframe d) = timeframe d)) (indicators d).

Definition reference_instruments (d : StrategyDefinition) : list ReferenceInstrument :=
  reference_instruments_ (data_requirements d).

Definition reference_indicator_groups (d : StrategyDefinition)
    : list (ReferenceInstrument * list IndicatorDefinition) :=
  map (λ r, (r, List.filter (λ i, bool_decide (ind_source i = Some (reference_id r))) (indicators d)))
    (reference_instruments d).

(** [EXECUTION_TIMEFRAMES]: the supported clocks, in venue-duration order. *)
Definition EXECUTION_TIMEFRAMES : list string := ["1m"; "5m"; "15m"; "30m"; "1h"; "2h"; "4h"; "6h"; "1d"].

Definition extra_indicator_timeframe_groups (d : StrategyDefinition)
    : list (string * list IndicatorDefinition) :=
  concat (map (λ tf,
    if bool_decide (tf = timeframe d) then []
    else match List.filter (λ i, bool_decide (resolved_indicator_timeframe i (timeframe d) = tf)) (indicators d) with
         | [] => []
         | group => [(tf, group)]
         end) EXECUTION_TIMEFRAMES).

Definition extra_indicator_timeframes (d : StrategyDefinition) : list string :=
  fst <$> extra_indicator_timeframe_groups d.

Definition unbound_indicator_timeframes (d : StrategyDefinition) : list string :=
  List.filter (λ tf, negb (bool_decide (Some tf = htf_timeframe <$> htf_filter d)))
    (extra_indicator_timeframes d).

Definition strategy_indicator_operands (d : StrategyDefinition) : list IndicatorOperand :=
  from_keys (concat (map condition_indicator_operands
    (when (entry d) ::
     match signal_exit_condition (exits d) with Some c => [c] | None => [] end ++
     match htf_filter d with Some f => [htf_when f] | None => [] end))).

(** ** Cross-section validation of instruments ([schema/document_validation.py]) *)

Definition _validate_covered_instruments (d : StrategyDefinition) : result unit :=
  let products := covered_product_ids d in
  if negb (bool_decide (NoDup products))
  then Raise (ValueError "additional_instruments must be unique and exclude instrument.product_id")
  else if (MAX_STRATEGY_INSTRUMENTS <? length products)%nat
  then Raise (ValueError "a strategy document may cover at most 8 spot products")
  else if negb (bool_decide (length (from_keys (quote_currency <$> covered_instruments d)) = 1%nat))
  then Raise (ValueError "all covered instruments must share one quote currency")
  else if Z.of_nat (length products) <? max_concurrent_positions (portfolio_limits d)
  then Raise (ValueError "max_concurrent_positions cannot exceed the number of covered products")
  else Ok tt.

Definition _validate_derivatives (d : StrategyDefinition) : result unit :=
  if existsb is_future (additional_instruments d)
  then Raise (ValueError "additional_instruments must be spot; futures are single-instrument")
  else if negb (is_future (instrument d)) then
    guard_or (negb (bool_decide (is_Some (derivatives d))))
      (ValueError "derivatives is only allowed with instrument.kind future")
  else if negb (bool_decide (is_Some (derivatives d)))
  then Raise (ValueError "a futures strategy needs a derivatives block (max_leverage)")
  else match additional_instruments d with
  | _ :: _ => Raise (ValueError "a futures strategy cannot cover additional instruments (P3)")
  | [] => guard_or (negb (pyramiding (entry d)))
            (ValueError "a futures strategy cannot pyramid in P1 (one position per book)")
  end.

(** The checks of a validated document that the simulation relies on. *)
Definition valid_strategy (d : StrategyDefinition) : Prop :=
  valid_entry (entry d) = true ∧ valid_exits (exits d) = true ∧ validate_ranges (sizing d) = true ∧
  validate_exposure (portfolio_limits d) = true ∧ valid_execution (execution d) = true ∧
  match derivatives d with Some x => require_bounded_leverage x = true | None => True end ∧
  _validate_covered_instruments d = Ok tt ∧ _validate_derivatives d = Ok tt.

(** ** Facts *)

Lemma insert_string_perm x l : insert_string x l ≡ₚ x :: l.
Proof.
  induction l as [|y l IH]; cbn; [done|]. destruct (String.leb x y); [done|].
  rewrite IH. constructor.
Qed.

Lemma sort_strings_perm l : sort_strings l ≡ₚ l.
Proof. induction l as [|x l IH]; cbn; [done|]. by rewrite insert_string_perm, IH. Qed.

(** The lockstep order visits every covered product once. *)
Lemma lockstep_product_ids_perm d : lockstep_product_ids d ≡ₚ covered_product_ids d.
Proof. apply sort_strings_perm. Qed.

Lemma lockstep_NoDup d : valid_strategy d -> NoDup (lockstep_product_ids d).
Proof.
  intros (_ & _ & _ & _ & _ & _ & Hv & _). rewrite lockstep_product_ids_perm.
  unfold _validate_covered_instruments in Hv. by case_bool_decide.
Qed.

(** A futures strategy never scales in. *)
Lemma future_never_pyramids d s p m n : valid_strategy d -> is_future (instrument d) = true ->
  can_pyramid_add d s p m n = false.
Proof.
  intros (_ & _ & _ & _ & _ & _ & _ & Hv) Hf. unfold _validate_derivatives in Hv.
  destruct (existsb _ _); [done|]. rewrite Hf in Hv. cbn in Hv. destruct (negb _); [done|].
  destruct (additional_instruments d); [|done]. apply guard_or_Ok, negb_true_iff in Hv.
  unfold can_pyramid_add. by rewrite Hv.
Qed.

(** A same-side add is legal only in unrealized profit and below the declared count, and
    never on a document that did not opt in. *)
Lemma pyramid_add_in_profit d s entry_price mark n :
  can_pyramid_add d s entry_price mark n = true ↔
  pyramiding (entry d) = true ∧ 1 <= n < max_open_positions (entry d) ∧
  match s with LONG => (val entry_price < val mark)%Q | SHORT => (val mark < val entry_price)%Q end.
Proof.
  unfold can_pyramid_add. destruct (pyramiding (entry d)); cbn; [|naive_solver].
  destruct (Z.ltb_spec n 1); cbn; [split; [done|lia]|].
  destruct (Z.leb_spec (max_open_positions (entry d)) n); cbn; [split; [done|lia]|].
  destruct s; rewrite dltb_lt; split; [done|by intros (_ & _ & ?)|done|by intros (_ & _ & ?)].
Qed.

(** ** A concrete document

    A long EMA-cross document with an ATR stop, used to instantiate theorems. *)

Definition ema_operand (id : string) : ConditionOperand := Indicator (mk_operand id None None).

Definition demo_strategy : StrategyDefinition := {|
  instrument := {| product_id := "BTC-USD"; base_currency := "BTC"; quote_currency := "USD"; is_future := false |};
  additional_instruments := [];
  timeframe := "1h";
  data_requirements := {| warmup_bars := 20; convergence_policy := false;
                          required_fields := [high_field; low_field; close_field]; reference_instruments_ := [] |};
  indicators :=
    [mk_indicator "fast" EMA (Some (SingleField close_field)) (IndicatorParameters 2) None None None;
     mk_indicator "slow" EMA (Some (SingleField close_field)) (IndicatorParameters 3) None None None;
     mk_indicator "atr" ATR (Some (TupleFields HLC_INPUT)) (IndicatorParameters 2) None None None];
  htf_filter := None;
  entry := {| side := LONG;
              when := AllCondition [Comparison (mk_comparison (ema_operand "fast") GT (ema_operand "slow"))];
              cooldown_bars := 0; max_open_positions := 1; economic_guard := None; pyramiding := false |};
  sizing := {| risk_fraction := Dec 1 (-2); min_quote_notional := of_Z 10; max_quote_notional := of_Z 1000 |};
  portfolio_limits := {| max_strategy_exposure_fraction := Dec 5 (-1); max_concurrent_positions := 1 |};
  exits := {| initial_stop := {| atr_indicator := "atr"; multiple := of_Z 2 |};
              take_profit := RewardRiskTakeProfit (of_Z 2);
              trailing_stop := DisabledTrailingStop; max_bars_held := 10; signal_exit := None |};
  execution := {| max_entry_wait_bars := 2; on_unfilled_entry := cancel |};
  derivatives := None
|}.

Lemma demo_strategy_valid : valid_strategy demo_strategy.
Proof. vm_compute. repeat split; reflexivity. Qed.
