(* ===== verification/Alignment.v ===== *)
(** * Alignment: completed bars of another clock ([evaluation/multi_timeframe.py])

    A rule on a coarser clock, or on another instrument, may read a bar only once that bar has
    closed. These are the maps from a decision close to the last completed bar, the coverage a
    dataset needs for one evaluation window, and the decision-clock bounds a dataset supports;
    with the clock helpers of [strategies/schema/timeframes.py] and the warmup an extra clock
    needs under either warmup policy. *)

From S2P Require Import Prelude Decimals Market IndicatorSpec Conditions Convergence Strategy.

Open Scope Z_scope.

(** ** Clocks ([schema/timeframes.py]) *)

Definition timeframe_seconds (timeframe : string) : result Z :=
  match parse_candle_interval timeframe with
  | Ok i => Ok (duration i / second)
  | Raise (ValueError _) => Raise (ValueError ("unsupported strategy timeframe: " +:+ timeframe))
  | Raise e => Raise e
  end.

Definition is_valid_htf_pair (decision_timeframe htf_timeframe : string) : bool :=
  match timeframe_seconds decision_timeframe, timeframe_seconds htf_timeframe with
  | Ok decision_seconds, Ok htf_seconds =>
      if htf_seconds <=? decision_seconds then false else htf_seconds mod decision_seconds =? 0
  | _, _ => false
  end.

Definition is_valid_reference_pair (decision_timeframe reference_timeframe : string) : bool :=
  if bool_decide (reference_timeframe = decision_timeframe) then true
  else is_valid_htf_pair decision_timeframe reference_timeframe.

(** [max(..., default=0)] over the lags an operand list requests of one indicator. *)
Definition largest_lag (operands : list IndicatorOperand) (id : string) : nat :=
  fold_left Nat.max
    (map (λ o, default 0%nat (operand_offset o))
       (List.filter (λ o, bool_decide (Conditions.indicator o = id)) operands)) 0%nat.

(** [max(..., default=1)]: Python's [max] of a non-empty sequence is the fold from its head. *)
Definition extra_indicator_timeframe_warmup (indicators : list IndicatorDefinition)
    (operands : list IndicatorOperand) (convergence : bool) : result nat :=
  let per_indicator := if convergence then indicator_convergence_warmup else _indicator_min_warmup in
  needs ← result_mapM (λ i, n ← per_indicator i; Ok (n + largest_lag operands (ind_id i))%nat) indicators;
  Ok match needs with [] => 1%nat | n :: rest => fold_left Nat.max rest n end.

Definition extra_indicator_required_fields (indicators : list IndicatorDefinition) : list source_field :=
  let needed := concat (map _indicator_input_fields indicators) in
  List.filter (λ f, bool_decide (f ∈ needed))
    [open_field; high_field; low_field; close_field; volume_field].

(** ** Completed bars *)

Definition last_completed_bar_start (close_at : datetime) (interval : CandleInterval) : result datetime :=
  exclusive_end ← align_closed_end interval close_at;
  Ok (exclusive_end - duration interval).

Definition interval_open_ceil (instant : datetime) (timeframe : string) : result datetime :=
  interval ← parse_candle_interval timeframe;
  exclusive_end ← align_closed_end interval instant;
  Ok (if exclusive_end =? instant then instant else exclusive_end + duration interval).

Definition interval_open_floor_before (limit : datetime) (timeframe : string) : result datetime :=
  interval ← parse_candle_interval timeframe;
  exclusive_end ← align_closed_end interval limit;
  Ok (if exclusive_end =? limit then limit - duration interval else exclusive_end).

Definition earliest_evaluation_start_for_closed_bar (dataset_starts_at : datetime) (timeframe : string)
    (warmup : nat) (decision_timeframe : string) : result datetime :=
  clock ← parse_candle_interval timeframe;
  let raw_start := dataset_starts_at + duration clock * Z.of_nat warmup in
  interval_open_ceil raw_start decision_timeframe.

Definition latest_evaluation_end_for_closed_bar (dataset_ends_at : datetime) (timeframe : string)
    (decision_timeframe : string) : result datetime :=
  clock ← parse_candle_interval timeframe;
  let first_invalid := dataset_ends_at + duration clock in
  interval_open_floor_before first_invalid decision_timeframe.

Definition closed_bar_required_coverage (starts ends : datetime) (timeframe : string) (warmup : nat)
    : result (datetime * datetime) :=
  interval ← parse_candle_interval timeframe;
  first_mapped_start ← last_completed_bar_start starts interval;
  last_mapped_start ← last_completed_bar_start ends interval;
  let warmup_offset := duration interval * (Z.of_nat warmup - 1) in
  Ok (first_mapped_start - warmup_offset, last_mapped_start + duration interval).

(** The [while cursor < coverage_end] loop. *)
Definition closed_bar_starts (starts ends : datetime) (timeframe : string) (warmup : nat)
    : result (list datetime) :=
  c ← closed_bar_required_coverage starts ends timeframe warmup;
  let '(coverage_start, coverage_end) := c in
  interval ← parse_candle_interval timeframe;
  Ok (instants coverage_start coverage_end (duration interval)).

Definition htf_required_coverage (starts ends : datetime) (f : HigherTimeframeFilter)
    : result (datetime * datetime) :=
  closed_bar_required_coverage starts ends (htf_timeframe f) (warmup_bars (htf_data_requirements f)).

Definition htf_candle_starts (starts ends : datetime) (f : HigherTimeframeFilter) : result (list datetime) :=
  closed_bar_starts starts ends (htf_timeframe f) (warmup_bars (htf_data_requirements f)).

Definition mapped_htf_start (ltf_close : datetime) (htf_timeframe : string) : result datetime :=
  interval ← parse_candle_interval htf_timeframe;
  last_completed_bar_start ltf_close interval.

Definition ltf_close (candle_starts_at : datetime) (ltf_timeframe : string) : result datetime :=
  seconds ← timeframe_seconds ltf_timeframe;
  Ok (candle_starts_at + seconds * second).

Definition index_candles_by_start (candles : list Candle) : result (gmap datetime Candle) :=
  foldM (λ (indexed : gmap datetime Candle) candle,
    match indexed !! starts_at candle with
    | Some _ => Raise (ValueError "Closed-bar candles contain duplicate timestamps.")
    | None => Ok (<[starts_at candle := candle]> indexed)
    end) ∅ candles.

Definition bars_closed_at_or_before (candles : list Candle) (close_at : datetime) (timeframe : string)
    : result (list Candle) :=
  interval ← parse_candle_interval timeframe;
  Ok (List.filter (λ c, starts_at c + duration interval <=? close_at) candles).

Definition htf_bars_closed_at_or_before (htf_candles : list Candle) (close_at : datetime) (htf_timeframe : string)
    : result (list Candle) :=
  bars_closed_at_or_before htf_candles close_at htf_timeframe.

(** ** Facts *)

Lemma last_completed_spec close_at i :
  last_completed_bar_start close_at i = Ok (close_at / duration i * duration i - duration i).
Proof. unfold last_completed_bar_start. by rewrite align_closed_end_spec. Qed.

Lemma timeframe_seconds_parse tf i : parse_candle_interval tf = Ok i ->
  timeframe_seconds tf = Ok (duration i / second).
Proof. unfold timeframe_seconds. by intros ->. Qed.

Lemma duration_seconds i : duration i / second * second = duration i.
Proof. by destruct i. Qed.

Lemma ltf_close_spec start tf i : parse_candle_interval tf = Ok i -> ltf_close start tf = Ok (start + duration i).
Proof. intros Hp. unfold ltf_close. rewrite (timeframe_seconds_parse _ _ Hp); cbn. by rewrite duration_seconds. Qed.

(** Floors of a positive width, as bounds. *)
Lemma floor_bounds x d : 0 < d -> x / d * d <= x < x / d * d + d.
Proof. intros Hd. pose proof (Z.div_mod x d ltac:(lia)). pose proof (Z.mod_pos_bound x d Hd). nia. Qed.

Lemma floor_of_multiple x d : 0 < d -> (d | x) -> x / d * d = x.
Proof. intros Hd [k ->]. by rewrite Z.div_mul by lia. Qed.

Lemma mapped_spec close_at tf i : parse_candle_interval tf = Ok i ->
  mapped_htf_start close_at tf = Ok (close_at / duration i * duration i - duration i).
Proof. intros Hp. unfold mapped_htf_start. rewrite Hp; cbn. apply last_completed_spec. Qed.

(** The starts a window needs, as an arithmetic progression between floors. *)
Lemma closed_bar_starts_spec starts ends tf warmup i : parse_candle_interval tf = Ok i ->
  closed_bar_starts starts ends tf warmup =
  Ok (instants (starts / duration i * duration i - duration i * Z.of_nat warmup)
        (ends / duration i * duration i) (duration i)).
Proof.
  intros Hp. unfold closed_bar_starts, closed_bar_required_coverage. rewrite Hp; cbn.
  rewrite !last_completed_spec; cbn. f_equal. f_equal; lia.
Qed.

(** The bar a close maps to, and the [warmup - 1] bars before it, are among the starts. *)
Lemma mapped_bar_covered starts ends close_at tf warmup i k : parse_candle_interval tf = Ok i ->
  starts <= close_at <= ends -> (k < warmup)%nat ->
  close_at / duration i * duration i - duration i * (1 + Z.of_nat k)
    ∈ instants (starts / duration i * duration i - duration i * Z.of_nat warmup)
        (ends / duration i * duration i) (duration i).
Proof.
  intros Hp Hc Hk. pose proof (duration_pos i) as Hd. apply elem_of_instants; [done|].
  pose proof (Z.div_le_mono starts close_at (duration i) Hd ltac:(lia)).
  pose proof (Z.div_le_mono close_at ends (duration i) Hd ltac:(lia)).
  exists (close_at / duration i - starts / duration i + (Z.of_nat warmup - 1 - Z.of_nat k)). nia.
Qed.

(** At a decision close the mapped bar is the last completed bar of the other clock: it has
    closed by then, the next one has not, and every bar of that clock that has closed starts no
    later. *)
Lemma mapped_bar_is_last_completed close_at tf i : parse_candle_interval tf = Ok i ->
  ∃ start, mapped_htf_start close_at tf = Ok start ∧ (duration i | start) ∧
    start + duration i <= close_at < start + 2 * duration i ∧
    ∀ other, (duration i | other) -> other + duration i <= close_at -> other <= start.
Proof.
  intros Hp. pose proof (duration_pos i) as Hd. eexists. split; [by apply mapped_spec|].
  pose proof (floor_bounds close_at _ Hd). split; [|split; [lia|]].
  - exists (close_at / duration i - 1). lia.
  - intros other [k ->] Hk. pose proof (Z.div_le_lower_bound close_at (duration i) (k + 1) Hd). nia.
Qed.

(** The bars a window requires of another clock contain, for every decision close of the
    window and for the close just before it, the bar it maps to and the whole warmup before that
    bar; none of them is still open when the window ends. *)
Lemma closed_bar_starts_cover starts ends tf warmup required : 
  closed_bar_starts starts ends tf warmup = Ok required ->
  (∀ close_at k, starts <= close_at <= ends -> (k < warmup)%nat ->
     ∃ i start, parse_candle_interval tf = Ok i ∧ mapped_htf_start close_at tf = Ok start ∧
       start - duration i * Z.of_nat k ∈ required) ∧
  (∀ bar, bar ∈ required -> ∃ i, parse_candle_interval tf = Ok i ∧ (duration i | bar) ∧ bar + duration i <= ends).
Proof.
  intros H. destruct (parse_candle_interval tf) as [i|e] eqn:Hp;
    [|unfold closed_bar_starts, closed_bar_required_coverage in H; by rewrite Hp in H].
  rewrite (closed_bar_starts_spec _ _ _ _ _ Hp) in H. injection H as <-. pose proof (duration_pos i) as Hd. split.
  - intros close_at k Hc Hk. exists i. eexists. split; [done|]. split; [by apply mapped_spec|].
    replace (_ - _ - _) with (close_at / duration i * duration i - duration i * (1 + Z.of_nat k)) by lia.
    by eapply mapped_bar_covered.
  - intros bar (k & Hk & -> & Hlt)%elem_of_instants; [|done]. exists i. split; [done|]. split.
    + exists (starts / duration i - Z.of_nat warmup + k). lia.
    + pose proof (floor_bounds ends _ Hd). 
      assert (starts / duration i - Z.of_nat warmup + k < ends / duration i) by nia. nia.
Qed.

(** ** The bounds a dataset supports *)

Lemma interval_open_ceil_spec instant tf i : parse_candle_interval tf = Ok i ->
  ∃ o, interval_open_ceil instant tf = Ok o ∧ (duration i | o) ∧ instant <= o < instant + duration i.
Proof.
  intros Hp. unfold interval_open_ceil. rewrite Hp; cbn. rewrite align_closed_end_spec; cbn.
  pose proof (duration_pos i) as Hd. pose proof (floor_bounds instant _ Hd). eexists. split; [done|].
  destruct (Z.eqb_spec (instant / duration i * duration i) instant) as [He|].
  - split; [|lia]. by exists (instant / duration i).
  - split; [|lia]. exists (instant / duration i + 1). lia.
Qed.

Lemma interval_open_floor_spec limit tf i : parse_candle_interval tf = Ok i ->
  ∃ o, interval_open_floor_before limit tf = Ok o ∧ (duration i | o) ∧ o < limit <= o + duration i.
Proof.
  intros Hp. unfold interval_open_floor_before. rewrite Hp; cbn. rewrite align_closed_end_spec; cbn.
  pose proof (duration_pos i) as Hd. pose proof (floor_bounds limit _ Hd). eexists. split; [done|].
  destruct (Z.eqb_spec (limit / duration i * duration i) limit) as [He|].
  - split; [|lia]. exists (limit / duration i - 1). lia.
  - split; [|lia]. by exists (limit / duration i).
Qed.

(** Any window between the earliest start and the latest end computed for a dataset whose
    bars start from [first] to [last_] requires only bars the dataset holds. *)
Lemma supported_window_is_covered first last_ clock decision warmup i start end_ starts ends required :
  parse_candle_interval clock = Ok i -> (duration i | first) -> (duration i | last_) ->
  earliest_evaluation_start_for_closed_bar first clock warmup decision = Ok start ->
  latest_evaluation_end_for_closed_bar last_ clock decision = Ok end_ ->
  start <= starts -> ends <= end_ ->
  closed_bar_starts starts ends clock warmup = Ok required ->
  ∀ bar, bar ∈ required -> (duration i | bar) ∧ first <= bar ∧ bar + duration i <= last_.
Proof.
  intros Hp Hf [l Hl] Hs He Hss Hee Hr bar Hb. pose proof (duration_pos i) as Hd.
  rewrite (closed_bar_starts_spec _ _ _ _ _ Hp) in Hr. injection Hr as <-.
  unfold earliest_evaluation_start_for_closed_bar in Hs. unfold latest_evaluation_end_for_closed_bar in He.
  rewrite Hp in Hs, He; cbn in Hs, He.
  assert (first + duration i * Z.of_nat warmup <= start) as Hstart.
  { destruct (parse_candle_interval decision) as [j|] eqn:Hj; [|unfold interval_open_ceil in Hs; by rewrite Hj in Hs].
    destruct (interval_open_ceil_spec (first + duration i * Z.of_nat warmup) _ _ Hj) as (o & Ho & _ & ?).
    assert (o = start) as <- by congruence. lia. }
  assert (end_ < last_ + duration i) as Hend.
  { destruct (parse_candle_interval decision) as [j|] eqn:Hj; [|unfold interval_open_floor_before in He; by rewrite Hj in He].
    destruct (interval_open_floor_spec (last_ + duration i) _ _ Hj) as (o & Ho & _ & ?).
    assert (o = end_) as <- by congruence. lia. }
  apply elem_of_instants in Hb as (k & Hk & Hbar & Hlt); [|done].
  pose proof (floor_bounds starts _ Hd). pose proof (floor_bounds ends _ Hd). destruct Hf as [f Hf].
  assert (f + Z.of_nat warmup <= starts / duration i) by (apply Z.div_le_lower_bound; [done|nia]).
  assert (ends / duration i < l + 1) by (apply Z.div_lt_upper_bound; [done|nia]).
  split; [exists (starts / duration i - Z.of_nat warmup + k); lia|]. split; [nia|].
  assert (starts / duration i - Z.of_nat warmup + k < ends / duration i) by nia. nia.
Qed.

(** ** Witnesses: an hourly decision clock reading a six-hour clock *)
