(* ===== verification/Sizing.v ===== *)
(** * Sizing: economics, order sizes and the trailing ratchet

    [trading/economics.py] (net maker profit and the entry guard), [trading/futures_sizing.py]
    (whole contracts within margin bounds), [trading/sizing.py] (ATR-risk orders on venue
    increments) and [trading/trailing.py] (the ratchet of a trailing stop). All are pure; a
    division or a quantization can raise. *)

From Stdlib Require Import Ascii.
From S2P Require Import Prelude Decimals DecimalFacts DecimalText Market Geometry.
From S2P Require Import Strategy.

Open Scope Z_scope.

(** ** Net economics of an entry: always under [localcontext(Context(prec=64))] *)

Section Economics.

#[local] Instance economics_context : DecimalContext := simulation_context.

Definition net_target_return (side : PositionSide) (entry target fee : decimal) : result decimal :=
  let gross := match side with LONG => (target - entry)%dec | SHORT => (entry - target)%dec end in
  div (gross - (entry + target) * fee)%dec entry.

Definition target_guard_allows (guard : option decimal) (side : PositionSide) (entry : decimal)
    (target : option decimal) (fee : decimal) : result bool :=
  match guard with
  | None => Ok true
  | Some minimum =>
      match target with
      | None => Ok false
      | Some target => net ← net_target_return side entry target fee; Ok (net >=? minimum)%dec
      end
  end.

Record EconomicPreflightRequest := {
  pf_side : PositionSide;
  pf_entry_price : decimal;
  pf_quantity : decimal;
  pf_stop_price : decimal;
  pf_target_price : option decimal;
  maker_fee_rate : decimal;
  taker_fee_rate : decimal;
  fixed_slippage_bps : decimal;
  spread_bps : decimal
}.

(** The request's field validators (non-negative by the [EconomicDecimal] pattern). *)
Definition valid_preflight_request (r : EconomicPreflightRequest) : bool :=
  ((d0 <? pf_entry_price r) && (d0 <? pf_quantity r) && (d0 <? pf_stop_price r) &&
   match pf_target_price r with Some t => d0 <? t | None => true end &&
   (d0 <=? maker_fee_rate r) && (maker_fee_rate r <=? Dec 1 (-1)) &&
   (d0 <=? taker_fee_rate r) && (taker_fee_rate r <=? Dec 1 (-1)) &&
   (d0 <=? fixed_slippage_bps r) && (fixed_slippage_bps r <=? of_Z 1000) &&
   (d0 <=? spread_bps r) && (spread_bps r <=? of_Z 1000))%dec.

Record EconomicPreflight := {
  entry_notional : list ascii;
  entry_fee : list ascii;
  maker_break_even_price : list ascii;
  net_target_quote_pnl : option (list ascii);
  net_target_return_fraction : option (list ascii);
  net_stop_quote_pnl : list ascii;
  target_clears_costs : option bool
}.

Definition economic_preflight (request : EconomicPreflightRequest) : result EconomicPreflight :=
  let entry := pf_entry_price request in
  let quantity := pf_quantity request in
  let maker := maker_fee_rate request in
  let taker := taker_fee_rate request in
  let direction := match pf_side request with LONG => d1 | SHORT => of_Z (-1) end in
  let stop := pf_stop_price request in
  if (direction * (entry - stop) <=? d0)%dec ||
     match pf_target_price request with
     | Some target => (direction * (target - entry) <=? d0)%dec
     | None => false
     end
  then Raise (ValueError "stop and target must lie on the correct sides of entry")
  else
    half ← div (spread_bps request) (of_Z 2);
    stress ← div (fixed_slippage_bps request + half)%dec (of_Z 10000);
    let stop := (stop * (d1 - direction * stress))%dec in
    let stop_pnl := ((direction * (stop - entry) - entry * maker - stop * taker) * quantity)%dec in
    net ← match pf_target_price request with
          | None => Ok None
          | Some target => n ← net_target_return (pf_side request) entry target maker; Ok (Some n)
          end;
    break_even ← div (entry * (d1 + direction * maker))%dec (d1 - direction * maker)%dec;
    Ok {| entry_notional := _decimal_text (entry * quantity)%dec;
          entry_fee := _decimal_text (entry * quantity * maker)%dec;
          maker_break_even_price := _decimal_text break_even;
          net_target_quote_pnl := (λ n, _decimal_text (n * entry * quantity)%dec) <$> net;
          net_target_return_fraction := _decimal_text <$> net;
          net_stop_quote_pnl := _decimal_text stop_pnl;
          target_clears_costs := (λ n, (d0 <? n)%dec) <$> net |}.

End Economics.

(** ** Futures: whole contracts within every margin bound *)

Record FuturesMarginTerms := {
  contract_size : decimal;
  long_rate : decimal;
  short_rate : decimal;
  maintenance_fraction : decimal;
  min_buffer_fraction : decimal;
  terms_max_leverage : decimal;
  fee_per_contract : decimal
}.

Definition initial_rate (terms : FuturesMarginTerms) (side : PositionSide) : decimal :=
  match side with LONG => long_rate terms | SHORT => short_rate terms end.

Record ContractSizingLimits := {
  limit_max_notional : decimal;
  limit_min_notional : decimal;
  max_exposure_fraction : decimal
}.

Record SizedEntry := {
  quantity : decimal;
  notional : decimal;
  entry_price : decimal;
  sized_stop_price : decimal;
  sized_target_price : option decimal
}.

Section Sizing.
Context {dc : DecimalContext}.

Definition whole_contracts (terms : FuturesMarginTerms) (q : decimal) : result decimal :=
  c ← div q (contract_size terms);
  Ok (to_integral_value ROUND_FLOOR c * contract_size terms)%dec.

Definition maintenance (terms : FuturesMarginTerms) (q price : decimal) (side : PositionSide) : decimal :=
  (q * price * initial_rate terms side * maintenance_fraction terms)%dec.

Definition fee_per_unit (terms : FuturesMarginTerms) : result decimal :=
  div (fee_per_contract terms) (contract_size terms).

Definition size_contracts (terms : FuturesMarginTerms) (limits : ContractSizingLimits)
    (equity : decimal) (side : PositionSide) (limit_price requested_notional maker_fee : decimal)
    : result (skippable (decimal * bool)) :=
  if (equity <=? d0)%dec then Ok (Skip INSUFFICIENT_CASH)
  else
    let unit := (limit_price * contract_size terms)%dec in
    if (unit <=? d0)%dec then Ok (Skip ENTRY_PRICE_NOT_POSITIVE)
    else
      let fee := (unit * maker_fee + fee_per_contract terms)%dec in
      let rate := initial_rate terms side in
      let leverage := terms_max_leverage terms in
      let room := (d1 - min_buffer_fraction terms)%dec in
      let exposure := max_exposure_fraction limits in
      b1 ← div (limit_max_notional limits) unit;
      b2 ← div (leverage * equity)%dec (unit + leverage * fee)%dec;
      b3 ← div (room * equity)%dec (unit * rate * maintenance_fraction terms + room * fee)%dec;
      b4 ← div (exposure * equity)%dec (unit * rate + exposure * fee)%dec;
      let bound := dmin (dmin (dmin b1 b2) b3) b4 in
      requested ← div requested_notional unit;
      let contracts := to_integral_value ROUND_FLOOR (dmin requested bound) in
      if (contracts <? d1)%dec then Ok (Skip BELOW_ONE_CONTRACT)
      else if (contracts * unit <? limit_min_notional limits)%dec then Ok (Skip NOTIONAL_BELOW_MINIMUM)
      else Ok (Sized (contracts * contract_size terms, requested >? bound)%dec).

(** ** Spot and paper orders on venue increments *)

(** The default [ROUND_DOWN] of the keyword argument is what every caller uses. *)
Definition quantize_to_increment (value increment : decimal) : result decimal :=
  snap_to value increment ROUND_DOWN.

Definition sizing_limits (strategy : StrategyDefinition) : ContractSizingLimits :=
  {| limit_max_notional := max_quote_notional (sizing strategy);
     limit_min_notional := min_quote_notional (sizing strategy);
     max_exposure_fraction := max_strategy_exposure_fraction (portfolio_limits strategy) |}.

Definition _contract_order (strategy : StrategyDefinition) (margin : FuturesMarginTerms)
    (equity entry : decimal) (levels : EntryLevels) (requested_notional fee_rate : decimal)
    (side : PositionSide) : result (skippable SizedEntry) :=
  sized ← size_contracts margin (sizing_limits strategy) equity side entry requested_notional fee_rate;
  match sized with
  | Skip reason => Ok (Skip reason)
  | Sized (q, _capped) =>
      Ok (Sized {| quantity := q; notional := (q * entry)%dec; entry_price := entry;
                   sized_stop_price := stop_price levels; sized_target_price := target_price levels |})
  end.

Definition realized_distance (side : PositionSide) (entry stop : decimal) : decimal :=
  match side with LONG => (entry - stop)%dec | SHORT => (stop - entry)%dec end.

Definition _bounded_order (strategy : StrategyDefinition) (cash entry : decimal) (levels : EntryLevels)
    (product : MarketProduct) (fee_rate : decimal) (side : PositionSide)
    (margin : option FuturesMarginTerms) : result (skippable SizedEntry) :=
  allowed ← target_guard_allows (economic_guard (Strategy.entry strategy)) side entry
              (target_price levels) fee_rate;
  if negb allowed then Ok (Skip NET_TARGET_BELOW_MINIMUM)
  else
    let distance := realized_distance side entry (stop_price levels) in
    if (distance <=? d0)%dec then Ok (Skip STOP_WITHIN_PRICE_INCREMENT)
    else
      let requested_risk := (cash * risk_fraction (sizing strategy))%dec in
      risk_quantity ← div requested_risk distance;
      match margin with
      | Some margin =>
          _contract_order strategy margin cash entry levels (risk_quantity * entry)%dec fee_rate side
      | None =>
          fee_adjusted_cash ← (if (d0 <? fee_rate)%dec then div cash (d1 + fee_rate)%dec else Ok cash);
          let maximum_notional :=
            dmin (dmin (max_quote_notional (sizing strategy))
                    (cash * max_strategy_exposure_fraction (portfolio_limits strategy))%dec)
              fee_adjusted_cash in
          let notional := dmin (risk_quantity * entry)%dec maximum_notional in
          if (notional <? min_quote_notional (sizing strategy))%dec then Ok (Skip NOTIONAL_BELOW_MINIMUM)
          else
            raw ← div notional entry;
            q ← quantize_to_increment raw (base_increment product);
            if (q <? base_min_size product)%dec then Ok (Skip QUANTITY_BELOW_VENUE_MINIMUM)
            else
              let notional := (q * entry)%dec in
              if (notional <? quote_min_size product)%dec then Ok (Skip NOTIONAL_BELOW_VENUE_MINIMUM)
              else if (match side with LONG => true | SHORT => false end) && (notional >? cash)%dec
              then Ok (Skip INSUFFICIENT_CASH)
              else Ok (Sized {| quantity := q; notional := notional; entry_price := entry;
                                sized_stop_price := stop_price levels;
                                sized_target_price := target_price levels |})
      end.

Definition size_entry_or_skip (strategy : StrategyDefinition) (cash entry atr : decimal)
    (product : MarketProduct) (fee_rate : decimal) (side : PositionSide)
    (margin : option FuturesMarginTerms) : result (skippable SizedEntry) :=
  if (entry <=? d0)%dec then Ok (Skip ENTRY_PRICE_NOT_POSITIVE)
  else if (atr <=? d0)%dec then Ok (Skip STOP_DISTANCE_NOT_POSITIVE)
  else if (cash <=? d0)%dec then Ok (Skip INSUFFICIENT_CASH)
  else
    snapped_entry ← quantize_to_increment entry (price_increment product);
    levels ← entry_levels side snapped_entry (atr * multiple (initial_stop (exits strategy)))%dec
               (reward_risk_multiple (exits strategy)) (Some (price_increment product));
    match levels with
    | Skip reason => Ok (Skip reason)
    | Sized levels => _bounded_order strategy cash snapped_entry levels product fee_rate side margin
    end.

(** [size_entry]: the order, or [None] for any skip. *)
Definition size_entry (strategy : StrategyDefinition) (cash entry atr : decimal)
    (product : MarketProduct) (fee_rate : decimal) (side : PositionSide) : result (option SizedEntry) :=
  sized ← size_entry_or_skip strategy cash entry atr product fee_rate side None;
  Ok (match sized with Sized order => Some order | Skip _ => None end).

Definition size_long_entry (strategy : StrategyDefinition) (cash entry atr : decimal)
    (product : MarketProduct) (fee_rate : decimal) : result (option SizedEntry) :=
  size_entry strategy cash entry atr product fee_rate LONG.

Definition size_pyramid_add_or_skip (strategy : StrategyDefinition) (cash entry existing_stop : decimal)
    (existing_target : option decimal) (product : MarketProduct) (fee_rate : decimal)
    (side : PositionSide) : result (skippable SizedEntry) :=
  if (entry <=? d0)%dec then Ok (Skip ENTRY_PRICE_NOT_POSITIVE)
  else if (cash <=? d0)%dec then Ok (Skip INSUFFICIENT_CASH)
  else
    snapped_entry ← quantize_to_increment entry (price_increment product);
    if (snapped_entry <=? d0)%dec then Ok (Skip ENTRY_PRICE_NOT_POSITIVE)
    else if (realized_distance side snapped_entry existing_stop <=? d0)%dec
    then Ok (Skip STOP_DISTANCE_NOT_POSITIVE)
    else _bounded_order strategy cash snapped_entry
           {| stop_price := existing_stop; target_price := existing_target |} product fee_rate side None.

(** ** The trailing ratchet *)

Record TrailingStopState := { trail_stop_price : decimal; state_extreme : decimal }.

(** [ratcheted_long_stop] and [ratcheted_short_stop] in one: [better] is [max] or [min],
    [away] moves one ATR multiple away from the extreme. *)
Definition ratchet_with (better : decimal -> decimal -> decimal) (away : decimal -> decimal -> decimal)
    (current_stop : decimal) (trail_extreme : option decimal) (bar_extreme : decimal)
    (atr : option decimal) (multiple : decimal) (price_increment : option decimal) (ratchet : bool)
    : result TrailingStopState :=
  let extreme := match trail_extreme with None => bar_extreme | Some e => better e bar_extreme end in
  let unchanged := Ok {| trail_stop_price := current_stop; state_extreme := extreme |} in
  match ratchet, atr with
  | true, Some atr =>
      if (atr <=? d0)%dec || (multiple <=? d0)%dec then unchanged
      else
        let candidate := away extreme (atr * multiple)%dec in
        candidate ← match price_increment with
                    | None => Ok candidate
                    | Some increment => quantize_to_increment candidate increment
                    end;
        if (candidate <=? d0)%dec then unchanged
        else Ok {| trail_stop_price := better current_stop candidate; state_extreme := extreme |}
  | _, _ => unchanged
  end.

Definition ratcheted_long_stop (current_stop : decimal) (trail_extreme : option decimal)
    (bar_high : decimal) (atr : option decimal) (multiple : decimal) (price_increment : option decimal)
    (ratchet : bool) : result TrailingStopState :=
  ratchet_with dmax sub current_stop trail_extreme bar_high atr multiple price_increment ratchet.

Definition ratcheted_short_stop (current_stop : decimal) (trail_extreme : option decimal)
    (bar_low : decimal) (atr : option decimal) (multiple : decimal) (price_increment : option decimal)
    (ratchet : bool) : result TrailingStopState :=
  ratchet_with dmin add current_stop trail_extreme bar_low atr multiple price_increment ratchet.

End Sizing.

(** ** The preflight *)

(** The levels of a request lie on the profitable and the protective side of its entry. *)
Definition ordered_request (r : EconomicPreflightRequest) : Prop :=
  match pf_side r with
  | LONG => (val (pf_stop_price r) < val (pf_entry_price r))%Q ∧
            ∀ t, pf_target_price r = Some t -> (val (pf_entry_price r) < val t)%Q
  | SHORT => (val (pf_entry_price r) < val (pf_stop_price r))%Q ∧
             ∀ t, pf_target_price r = Some t -> (val t < val (pf_entry_price r))%Q
  end.

Section Preflight.

#[local] Existing Instance economics_context.

(** The rounded directed distance has the sign of the exact one. *)
Lemma directed_sign side x y :
  (match side with LONG => d1 | SHORT => of_Z (-1) end * (x - y) <=? d0)%dec = true ↔
  match side with LONG => (val x <= val y)%Q | SHORT => (val y <= val x)%Q end.
Proof.
  pose proof (prec_pos : 0 < prec) as Hp. rewrite dleb_le. change (val d0) with 0%Q.
  pose proof (sub_rounds x y) as Hs.
  destruct side; match goal with |- context[(?d * _)%dec] => pose proof (mul_rounds d (x - y)%dec) as Hm end.
  - change (val d1) with 1%Q in Hm. split; intros H.
    + apply Qnot_lt_le. intros Hlt. pose proof (rounds_pos _ _ Hp Hs ltac:(lra)).
      pose proof (rounds_pos _ _ Hp Hm ltac:(lra)). lra.
    + pose proof (rounds_nonpos _ _ Hp Hs ltac:(lra)). apply (rounds_nonpos _ _ Hp Hm). lra.
  - change (val (of_Z (-1))) with (-1)%Q in Hm. split; intros H.
    + apply Qnot_lt_le. intros Hlt. pose proof (rounds_neg _ _ Hp Hs ltac:(lra)).
      pose proof (rounds_pos _ _ Hp Hm ltac:(lra)). lra.
    + pose proof (rounds_nonneg _ _ Hp Hs ltac:(lra)). apply (rounds_nonpos _ _ Hp Hm). lra.
Qed.

Lemma net_target_return_total side e t f : (0 < val e)%Q -> ∃ n, net_target_return side e t f = Ok n.
Proof. intros He. apply div_total. lra. Qed.

(** The preflight of a validated request answers exactly when its stop and target lie on
    the correct sides of the entry, and otherwise raises the documented [ValueError]; no
    rounding makes it reject an ordered request or accept an unordered one. *)
Lemma economic_preflight_total r : valid_preflight_request r = true ->
  (ordered_request r -> is_ok (economic_preflight r)) ∧
  (¬ ordered_request r -> economic_preflight r =
     Raise (ValueError "stop and target must lie on the correct sides of entry")).
Proof.
  intros Hv. unfold valid_preflight_request in Hv.
  repeat (apply andb_prop_iff in Hv as [Hv ?]). dec_cmp. change (val d0) with 0%Q in *.
  unfold economic_preflight. match goal with |- context[if ?c then Raise _ else _] => set (bad := c) end.
  assert (Hbad : bad = false ↔ ordered_request r).
  { unfold bad, ordered_request. rewrite orb_false_iff, <- !not_true_iff_false, directed_sign.
    destruct (pf_target_price r) as [t|].
    - rewrite directed_sign.
      destruct (pf_side r); split; intros [Ha Hb]; (split; [lra|]);
        first [specialize (Hb _ eq_refl); lra | intros ? [= <-]; lra].
    - destruct (pf_side r); split; intros [Ha Hb]; (split; [lra|done]). }
  split.
  - intros Ho. rewrite (proj2 Hbad Ho).
    destruct (div_total (spread_bps r) (of_Z 2)) as [half ->]; [done|]. cbn [mbind result_bind].
    match goal with |- context[div ?a (of_Z 10000)] => destruct (div_total a (of_Z 10000)) as [stress ->]; [done|] end.
    cbn [mbind result_bind].
    assert (Hden : ¬ (val (d1 - match pf_side r with LONG => d1 | SHORT => of_Z (-1) end * maker_fee_rate r)%dec == 0)%Q).
    { intros Hz. pose proof (prec_pos : 0 < prec) as Hp. change (val (Dec 1 (-1))) with (1 # 10)%Q in *.
      assert (Hm : (val (match pf_side r with LONG => d1 | SHORT => of_Z (-1) end * maker_fee_rate r)%dec <= 1 # 2)%Q).
      { assert (Hrep : representable prec (1 # 2)) by (by exists 5, (-1)).
        apply (rounds_le _ _ _ (mul_rounds _ _) Hrep).
        destruct (pf_side r); [change (val d1) with 1%Q|change (val (of_Z (-1))) with (-1)%Q]; lra. }
      pose proof (rounds_pos _ _ Hp (sub_rounds d1 (match pf_side r with LONG => d1 | SHORT => of_Z (-1) end * maker_fee_rate r)%dec)) as Hpos.
      change (val d1) with 1%Q in Hpos. specialize (Hpos ltac:(lra)). lra. }
    destruct (pf_target_price r) as [t|].
    + destruct (net_target_return_total (pf_side r) (pf_entry_price r) t (maker_fee_rate r)) as [n ->]; [lra|].
      cbn [mbind result_bind]. match goal with |- context[div ?a ?b] => destruct (div_total a b Hden) as [be ->] end.
      by eexists.
    + cbn [mbind result_bind]. match goal with |- context[div ?a ?b] => destruct (div_total a b Hden) as [be ->] end.
      by eexists.
  - intros Ho. destruct bad eqn:E; [done|]. exfalso. by apply Ho, Hbad.
Qed.

End Preflight.

Definition demo_request : EconomicPreflightRequest :=
  {| pf_side := LONG; pf_entry_price := of_Z 100; pf_quantity := of_Z 2; pf_stop_price := of_Z 95;
     pf_target_price := Some (of_Z 110); maker_fee_rate := Dec 4 (-3); taker_fee_rate := Dec 6 (-3);
     fixed_slippage_bps := of_Z 5; spread_bps := of_Z 2 |}.

(** ** The trailing stop never loosens *)

Definition at_least_as_tight (side : PositionSide) (new old : decimal) : Prop :=
  match side with LONG => (val old <= val new)%Q | SHORT => (val new <= val old)%Q end.

Definition ratcheted (side : PositionSide) `{DecimalContext} :=
  match side with LONG => ratcheted_long_stop | SHORT => ratcheted_short_stop end.

(** A ratchet never loosens the working stop, for longs and shorts, with and without a venue
    increment; the trail extreme never retreats and covers the bar; and the fill bar
    ([ratchet = False]) or a missing ATR leaves the stop as it was. *)
Lemma ratchet_never_loosens `{DecimalContext} side stop extreme bar atr m inc ratchet state :
  ratcheted side stop extreme bar atr m inc ratchet = Ok state ->
  at_least_as_tight side (trail_stop_price state) stop ∧
  at_least_as_tight side (state_extreme state) bar ∧
  (∀ e, extreme = Some e -> at_least_as_tight side (state_extreme state) e) ∧
  (ratchet = false ∨ atr = None -> trail_stop_price state = stop).
Proof.
  intros Hr. assert (Hx : state_extreme state = match extreme with None => bar
    | Some e => match side with LONG => dmax e bar | SHORT => dmin e bar end end ∧
    (trail_stop_price state = stop ∨ ratchet = true ∧ is_Some atr ∧ ∃ c, trail_stop_price state =
      match side with LONG => dmax stop c | SHORT => dmin stop c end)).
  { destruct side; cbn in Hr; unfold ratcheted_long_stop, ratcheted_short_stop, ratchet_with in Hr;
      destruct ratchet, atr as [atr|]; try (injection Hr as <-; cbn; split; [done|by left]);
      (destruct (_ || _); [injection Hr as <-; split; [done|by left]|]);
      apply bind_Ok in Hr as (c & _ & Hr);
      (destruct (c <=? d0)%dec; injection Hr as <-; cbn; (split; [done|]); [by left|right; eauto]). }
  destruct Hx as [Hx Hs]. rewrite Hx. split; [|split; [|split]].
  - destruct Hs as [->|(_ & _ & c & ->)]; destruct side; cbn; try apply Qle_refl;
      [apply dmax_spec|apply dmin_spec].
  - destruct extreme as [e|], side; cbn; try apply Qle_refl; [apply dmax_spec|apply dmin_spec].
  - intros e ->. destruct side; cbn; [apply dmax_spec|apply dmin_spec].
  - destruct Hs as [->|(-> & [a ->] & _)]; [done|]. by intros [?|?].
Qed.

(** ** Orders stay within every cap *)

Lemma below_slack k q v : 0 <= k <= 100 -> (0 <= q)%Q -> (v <= q * (1 + err k))%Q -> (v <= q * (1 + slack))%Q.
Proof.
  intros Hk Hq Hv. pose proof (err_slack k ltac:(unfold few; lia) ltac:(lia)).
  assert (q * (1 + err k) <= q * (1 + slack))%Q; [|lra].
  rewrite !(Qmult_comm q). apply Qmult_le_compat_r; lra.
Qed.

Ltac few := unfold few in *; lia.

(** Evaluate the error counts the calculus adds up. *)
Ltac norm_err :=
  repeat match goal with
  | H : context[err ?k] |- _ =>
      is_ground k; let k' := eval vm_compute in k in progress change (err k) with (err k') in H
  end.

Section Caps.
Context {dc : DecimalContext}.
Context (Hw : wide dc).

Lemma dmin_le_l a b : (val (dmin a b) <= val a)%Q.
Proof. apply dmin_spec. Qed.
Lemma dmin_le_r a b : (val (dmin a b) <= val b)%Q.
Proof. apply dmin_spec. Qed.

(** Whole units of something that costs [y] each, bounded by a computed quotient [x / y]. *)
Lemma units_bound i j a b x y z (n : Q) : few i -> few j -> 0 <= i + j + 4 <= 100 -> (0 < b)%Q ->
  approx i a x -> approx j b y -> div x y = Ok z -> (n <= val z)%Q -> (n * b <= a * (1 + slack))%Q.
Proof.
  intros Hi Hj Hij Hb Hx Hy Hz Hn. destruct (approx_div Hw i j a b x y z) as [Q0 _ Q2]; try done; [few|].
  pose proof (below_slack _ _ _ Hij Q0 Q2) as Hs. pose proof (Qdiv_mul a b Hb) as Hab.
  assert (n * b <= a / b * (1 + slack) * b)%Q by (apply Qmult_le_compat_r; lra).
  assert (a / b * (1 + slack) * b == a / b * b * (1 + slack))%Q as E by ring. rewrite E, Hab in H. done.
Qed.

Record valid_terms (t : FuturesMarginTerms) : Prop := {
  size_pos : (0 < val (contract_size t))%Q;
  long_rate_pos : (0 < val (long_rate t))%Q;
  short_rate_pos : (0 < val (short_rate t))%Q;
  fraction_pos : (0 < val (maintenance_fraction t))%Q;
  buffer_range : (0 <= val (min_buffer_fraction t) ∧ val (min_buffer_fraction t) < 1)%Q;
  leverage_pos : (1 <= val (terms_max_leverage t))%Q;
  contract_fee_nonneg : (0 <= val (fee_per_contract t))%Q
}.

Lemma initial_rate_pos t side : valid_terms t -> (0 < val (initial_rate t side))%Q.
Proof. intros []. by destruct side. Qed.

Lemma Qmul_pos a b : (0 < a)%Q -> (0 < b)%Q -> (0 < a * b)%Q.
Proof. intros Ha Hb. assert (0 * b < a * b)%Q by (by apply Qmult_lt_compat_r). lra. Qed.

(** Whole contracts within every margin bound. A futures entry is a whole number [n] of
    contracts, at least one, and with [u] the notional of one contract, [f] its entry fee and
    [E] the equity, every documented bound holds after the fee, up to one part in 10^18:
    the quote cap, the requested risk, leverage [n u <= L (E - n f)], the liquidation buffer
    [n u r m <= (1 - b) (E - n f)] and the exposure cap [n u r <= X (E - n f)]. *)
Lemma size_contracts_bounds terms limits equity side price requested maker q capped :
  valid_terms terms -> (0 <= val maker)%Q -> (0 < val price)%Q -> (0 <= val requested)%Q ->
  (0 <= val (limit_max_notional limits))%Q -> (0 < val (max_exposure_fraction limits))%Q ->
  size_contracts terms limits equity side price requested maker = Ok (Sized (q, capped)) ->
  let u := (val price * val (contract_size terms))%Q in
  let f := (u * val maker + val (fee_per_contract terms))%Q in
  let r := val (initial_rate terms side) in
  let E := val equity in
  let L := val (terms_max_leverage terms) in
  let room := (1 - val (min_buffer_fraction terms))%Q in
  let X := val (max_exposure_fraction limits) in
  ∃ n : Z, 1 <= n ∧ rounds prec (inject_Z n * val (contract_size terms)) q ∧
    (inject_Z n * u <= val requested * (1 + slack))%Q ∧
    (inject_Z n * u <= val (limit_max_notional limits) * (1 + slack))%Q ∧
    (inject_Z n * u <= L * (E - inject_Z n * f) + slack * (L * E))%Q ∧
    (inject_Z n * u * r * val (maintenance_fraction terms) <=
       room * (E - inject_Z n * f) + slack * (room * E))%Q ∧
    (inject_Z n * u * r <= X * (E - inject_Z n * f) + slack * (X * E))%Q.
Proof.
  intros Ht Hmk Hpr Hreq Hmax Hexp Hs u f r E L room X. pose proof (initial_rate_pos terms side Ht) as Hrate.
  destruct Ht as [Hcs _ _ Hmf [Hb0 Hb1] Hlev Hcf]. unfold size_contracts in Hs.
  destruct (equity <=? d0)%dec eqn:HE; [done|].
  destruct (price * contract_size terms <=? d0)%dec eqn:HU; [done|].
  apply bind_Ok in Hs as (b1 & H1 & (b2 & H2 & (b3 & H3 & (b4 & H4 & (rq & H5 & Hk)%bind_Ok)%bind_Ok)%bind_Ok)%bind_Ok).
  destruct (_ <? d1)%dec eqn:Hone in Hk; [done|]. destruct (_ <? _)%dec eqn:Hmin in Hk; [done|].
  injection Hk as <- <-. dec_cmp. change (val d0) with 0%Q in *. change (val d1) with 1%Q in *.
  clear HU.
  assert (Hu : (0 < u)%Q) by (by apply Qmul_pos).
  assert (Hf : (0 <= f)%Q) by (assert (0 <= u * val maker)%Q by (apply Qmult_le_0_compat; lra); unfold f; lra).
  assert (HL : (0 < L)%Q) by (unfold L; lra). assert (Hroom : (0 < room)%Q) by (unfold room; lra).
  assert (A := λ d H, approx_val d H).
  pose proof (approx_mul Hw 0 0 _ _ _ _ ltac:(few) ltac:(few) ltac:(few)
    (A price ltac:(lra)) (A (contract_size terms) ltac:(lra))) as Au. change (val price * _)%Q with u in Au.
  pose proof (approx_mul Hw 3 0 _ _ _ _ ltac:(few) ltac:(few) ltac:(few) Au (A maker Hmk)) as Af0.
  pose proof (approx_add Hw 6 _ _ _ _ ltac:(few) Af0
    (approx_weaken 0 6 _ _ ltac:(lia) (A (fee_per_contract terms) Hcf))) as Af. change (_ + _)%Q with f in Af.
  pose proof (approx_sub Hw d1 (min_buffer_fraction terms) ltac:(change (val d1) with 1%Q; lra)) as Ar.
  change (val d1 - _)%Q with room in Ar.
  pose proof (approx_mul Hw 0 0 _ _ _ _ ltac:(few) ltac:(few) ltac:(few)
    (A (terms_max_leverage terms) ltac:(lra)) (A equity ltac:(lra))) as ALE.
  pose proof (approx_mul Hw 0 8 _ _ _ _ ltac:(few) ltac:(few) ltac:(few)
    (A (terms_max_leverage terms) ltac:(lra)) Af) as ALf.
  pose proof (approx_add Hw 11 _ _ _ _ ltac:(few) (approx_weaken 3 11 _ _ ltac:(lia) Au) ALf) as AL.
  pose proof (approx_mul Hw 2 0 _ _ _ _ ltac:(few) ltac:(few) ltac:(few) Ar (A equity ltac:(lra))) as ARE.
  pose proof (approx_mul Hw 3 0 _ _ _ _ ltac:(few) ltac:(few) ltac:(few) Au
    (A (initial_rate terms side) ltac:(lra))) as Aur.
  pose proof (approx_mul Hw 6 0 _ _ _ _ ltac:(few) ltac:(few) ltac:(few) Aur
    (A (maintenance_fraction terms) ltac:(lra))) as Aurm.
  pose proof (approx_mul Hw 2 8 _ _ _ _ ltac:(few) ltac:(few) ltac:(few) Ar Af) as ARf.
  pose proof (approx_add Hw 13 _ _ _ _ ltac:(few) (approx_weaken 9 13 _ _ ltac:(lia) Aurm) ARf) as AR.
  pose proof (approx_mul Hw 0 0 _ _ _ _ ltac:(few) ltac:(few) ltac:(few)
    (A (max_exposure_fraction limits) ltac:(lra)) (A equity ltac:(lra))) as AXE.
  pose proof (approx_mul Hw 0 8 _ _ _ _ ltac:(few) ltac:(few) ltac:(few)
    (A (max_exposure_fraction limits) ltac:(lra)) Af) as AXf.
  pose proof (approx_add Hw 11 _ _ _ _ ltac:(few) (approx_weaken 6 11 _ _ ltac:(lia) Aur) AXf) as AX.
  set (bound := dmin (dmin (dmin b1 b2) b3) b4) in *.
  destruct (rescale_floor (dmin rq bound)) as (n & Hn & Hle & _). unfold equiv, decimal_equiv in Hn.
  rewrite val_of_Z in Hn. rewrite Hn in Hone.
  pose proof (dmin_le_l rq bound). pose proof (dmin_le_r rq bound).
  pose proof (dmin_le_l (dmin (dmin b1 b2) b3) b4). pose proof (dmin_le_r (dmin (dmin b1 b2) b3) b4).
  pose proof (dmin_le_l (dmin b1 b2) b3). pose proof (dmin_le_r (dmin b1 b2) b3).
  pose proof (dmin_le_l b1 b2). pose proof (dmin_le_r b1 b2). fold bound in H6, H7.
  assert (HLf : (0 <= L * f)%Q) by (apply Qmult_le_0_compat; lra).
  assert (Hrf : (0 <= room * f)%Q) by (apply Qmult_le_0_compat; lra).
  assert (Hur : (0 < u * r)%Q) by (by apply Qmul_pos).
  assert (Hurm : (0 < u * r * val (maintenance_fraction terms))%Q) by (by apply Qmul_pos).
  assert (HXf : (0 <= X * f)%Q) by (apply Qmult_le_0_compat; unfold X; lra).
  exists n. split; [|split; [|repeat split]].
  - change 1%Q with (inject_Z 1) in Hone. by rewrite <- Zle_Qle in Hone.
  - rewrite <- Hn. apply mul_rounds.
  - eapply (units_bound 0 3); [few|few|lia|exact Hu|by apply A|exact Au|exact H5|lra].
  - eapply (units_bound 0 3); [few|few|lia|exact Hu|by apply A|exact Au|exact H1|lra].
  - assert (inject_Z n * (u + L * f) <= L * E * (1 + slack))%Q; [|lra].
    eapply (units_bound 3 13); [few|few|lia|lra|exact ALE|exact AL|exact H2|lra].
  - assert (inject_Z n * (u * r * val (maintenance_fraction terms) + room * f) <= room * E * (1 + slack))%Q; [|lra].
    eapply (units_bound 5 15); [few|few|lia|lra|exact ARE|exact AR|exact H3|lra].
  - assert (inject_Z n * (u * r + X * f) <= X * E * (1 + slack))%Q; [|lra].
    eapply (units_bound 3 13); [few|few|lia|lra|exact AXE|exact AX|exact H4|lra].
Qed.

(** Snapping a non-negative value down adds only rounding. *)
Lemma snap_down_upper v inc r : (0 <= val v)%Q -> snap_to v inc ROUND_DOWN = Ok r ->
  (0 <= val r ∧ val r <= val v * (1 + err 7))%Q.
Proof.
  intros Hv (Hi & q & n & Hq & Hn & _ & Hr)%snap_to_spec. pose proof prec_pos as Hp.
  assert (Hq0 : (0 <= val v / val inc)%Q) by (apply Qle_shift_div_l; lra).
  pose proof (rounds_nonneg _ _ Hp Hq Hq0) as Hqn. destruct Hn as [Hn _].
  destruct (Hn Hqn) as [Hn1 Hn2].
  assert (Hn0 : (0 <= inject_Z n)%Q).
  { change 0%Q with (inject_Z 0). rewrite <- Zle_Qle. apply Z.lt_succ_r. rewrite Zlt_Qlt.
    change (inject_Z 0) with 0%Q. unfold Z.succ. lra. }
  assert (Hm0 : (0 <= inject_Z n * val inc)%Q) by (apply Qmult_le_0_compat; lra).
  split; [by eapply rounds_nonneg|].
  pose proof (Qdiv_mul (val v) (val inc) Hi) as Hd. set (w := (val v / val inc)%Q) in *.
  assert (Hw1 : (val q <= w * (1 + err 2))%Q).
  { apply (upper_rounds Hw 0 w w); [few|done|done| |done]. unfold err. change (inject_Z 0) with 0%Q. lra. }
  replace 7 with (5 + 2) by lia.
  apply (upper_rounds Hw 5 (val v) (inject_Z n * val inc)); [few|done|done| |done].
  assert (inject_Z n * val inc <= w * (1 + err 2) * val inc)%Q by (apply Qmult_le_compat_r; lra).
  assert (w * (1 + err 2) * val inc == val v * (1 + err 2))%Q as E by (rewrite <- Hd; ring).
  assert (val v * (1 + err 2) <= val v * (1 + err 5))%Q.
  { rewrite !(Qmult_comm (val v)). apply Qmult_le_compat_r; [|done].
    pose proof (err_le 2 5 ltac:(lia)). lra. }
  lra.
Qed.

(** What the strategy and the venue promise about an order on the spot path. *)
Record within_caps (strategy : StrategyDefinition) (product : MarketProduct) (side : PositionSide)
    (cash fee : decimal) (order : SizedEntry) : Prop := {
  cap_quote : (val (notional order) <= val (max_quote_notional (sizing strategy)) * (1 + slack))%Q;
  cap_exposure : (val (notional order) <=
    val cash * val (max_strategy_exposure_fraction (portfolio_limits strategy)) * (1 + slack))%Q;
  cap_cash : (val (notional order) <= val cash / (1 + val fee) * (1 + slack))%Q;
  cap_long : side = LONG -> (val (notional order) <= val cash)%Q;
  cap_risk : (val (quantity order) *
    match side with LONG => val (entry_price order) - val (sized_stop_price order)
                  | SHORT => val (sized_stop_price order) - val (entry_price order) end <=
    val cash * val (risk_fraction (sizing strategy)) * (1 + slack))%Q;
  floor_quantity : (val (base_min_size product) <= val (quantity order))%Q;
  floor_notional : (val (quote_min_size product) <= val (notional order))%Q;
  order_notional : rounds prec (val (quantity order) * val (entry_price order)) (notional order)
}.

(** The cash left for notional once the maker fee is reserved. *)
Lemma fee_adjusted_bounds cash fee adj : (0 < val cash)%Q -> (0 <= val fee)%Q ->
  (if (d0 <? fee)%dec then div cash (d1 + fee)%dec else Ok cash) = Ok adj ->
  (val adj <= val cash / (1 + val fee) * (1 + err 6))%Q ∧ (0 <= val cash / (1 + val fee))%Q ∧
  (0 <= val adj)%Q.
Proof.
  intros Hcash Hfee Hadj. pose proof prec_pos as Hp.
  assert (Hz : (0 <= val cash / (1 + val fee))%Q) by (apply Qle_shift_div_l; lra).
  assert (A := λ d H, approx_val d H).
  destruct (d0 <? fee)%dec eqn:Hf0; dec_cmp.
  - pose proof (approx_add Hw 0 _ _ _ _ ltac:(few) (A d1 ltac:(done)) (A fee ltac:(lra))) as A1.
    change (val d1) with 1%Q in A1.
    pose proof (approx_div Hw 0 2 (val cash) (1 + val fee)%Q _ _ _ ltac:(few) ltac:(few) ltac:(few) ltac:(lra)
      (A cash ltac:(lra)) A1 Hadj) as Au. pose proof (approx_ge0 6 _ _ ltac:(few) Au).
    by destruct Au as [_ _ Hu].
  - injection Hadj as <-. change (val d0) with 0%Q in Hf0.
    assert (val fee == 0)%Q as E by lra. rewrite E in *.
    assert (val cash / (1 + 0) == val cash)%Q as E2 by field. rewrite E2 in *.
    assert (0 <= val cash * err 6)%Q by (apply Qmult_le_0_compat; [done|apply err_bounds; few]).
    repeat split; lra.
Qed.

Lemma bounded_order_caps strategy cash entry levels product fee side order :
  validate_ranges (sizing strategy) = true -> validate_exposure (portfolio_limits strategy) = true ->
  (0 < val cash)%Q -> (0 < val entry)%Q -> (0 <= val fee)%Q ->
  _bounded_order strategy cash entry levels product fee side None = Ok (Sized order) ->
  within_caps strategy product side cash fee order ∧
  entry_price order = entry ∧ sized_stop_price order = stop_price levels ∧
  sized_target_price order = target_price levels ∧
  match side with LONG => (val (stop_price levels) < val entry)%Q
                | SHORT => (val entry < val (stop_price levels))%Q end.
Proof.
  intros Hsz Hexp Hcash Hen Hfee Hs. unfold _bounded_order in Hs.
  apply bind_Ok in Hs as (allowed & _ & Hs). destruct allowed; [|done]. cbn [negb] in Hs.
  destruct (realized_distance side entry (stop_price levels) <=? d0)%dec eqn:Hdist; [done|].
  apply bind_Ok in Hs as (rq & Hrq & (adj & Hadj & Hs)%bind_Ok). cbv zeta in Hs.
  set (cap := dmin (dmin _ _) adj) in Hs. set (want := dmin _ cap) in Hs.
  destruct (want <? _)%dec; [done|].
  apply bind_Ok in Hs as (raw & Hraw & (q & Hq & Hs)%bind_Ok).
  destruct (q <? base_min_size product)%dec eqn:Hbase; [done|].
  destruct (q * entry <? quote_min_size product)%dec eqn:Hquote; [done|].
  destruct (_ && _) eqn:Hlong; [done|]. injection Hs as <-.
  pose proof prec_pos as Hp. unfold validate_ranges in Hsz. unfold validate_exposure in Hexp.
  repeat (apply andb_prop_iff in Hsz as [Hsz ?]). repeat (apply andb_prop_iff in Hexp as [Hexp ?]).
  dec_cmp. change (val d0) with 0%Q in *. change (val d1) with 1%Q in *.
  set (d := match side with LONG => (val entry - val (stop_price levels))%Q
                       | SHORT => (val (stop_price levels) - val entry)%Q end).
  assert (Hdr : rounds prec d (realized_distance side entry (stop_price levels)))
    by (destruct side; apply sub_rounds).
  assert (Hd : (0 < d)%Q).
  { destruct (Qlt_le_dec 0 d); [done|]. pose proof (rounds_nonpos _ _ Hp Hdr ltac:(done)). lra. }
  assert (A := λ d H, approx_val d H).
  pose proof (approx_round Hw 0 d d _ ltac:(few) ltac:(lra) ltac:(unfold err; change (inject_Z 0) with 0%Q; lra)
    ltac:(unfold err; change (inject_Z 0) with 0%Q; lra) Hdr) as Ad.
  pose proof (approx_mul Hw 0 0 _ _ _ _ ltac:(few) ltac:(few) ltac:(few) (A cash ltac:(lra))
    (A (risk_fraction (sizing strategy)) ltac:(lra))) as Ak.
  pose proof (approx_mul Hw 0 0 _ _ _ _ ltac:(few) ltac:(few) ltac:(few) (A cash ltac:(lra))
    (A (max_strategy_exposure_fraction (portfolio_limits strategy)) ltac:(lra))) as Ax.
  pose proof (approx_div Hw 3 2 _ _ _ _ _ ltac:(few) ltac:(few) ltac:(few) Hd Ak Ad Hrq) as Arq.
  pose proof (approx_mul Hw 9 0 _ _ _ _ ltac:(few) ltac:(few) ltac:(few) Arq (A entry ltac:(lra))) as Aw.
  destruct (fee_adjusted_bounds _ _ _ Hcash Hfee Hadj) as (Hadj' & Hadj0 & Hadjp).
  pose proof (dmin_le_l (rq * entry)%dec cap) as W1. pose proof (dmin_le_r (rq * entry)%dec cap) as W2.
  fold want in W1, W2.
  set (c1 := max_quote_notional (sizing strategy)) in *.
  set (c2 := (cash * max_strategy_exposure_fraction (portfolio_limits strategy))%dec) in *.
  pose proof (dmin_le_l (dmin c1 c2) adj) as W3. pose proof (dmin_le_r (dmin c1 c2) adj) as W4.
  fold cap in W3, W4. pose proof (dmin_le_l c1 c2) as W5. pose proof (dmin_le_r c1 c2) as W6.
  (* the wanted notional is not negative *)
  assert (Hwant : (0 <= val want)%Q).
  { pose proof (approx_ge0 12 _ _ ltac:(few) Aw). pose proof (approx_ge0 3 _ _ ltac:(few) Ax).
    unfold want, cap. destruct (dmin_spec (rq * entry)%dec (dmin (dmin c1 c2) adj)) as (_ & _ & [->| ->]); [done|].
    destruct (dmin_spec (dmin c1 c2) adj) as (_ & _ & [->| ->]); [|done].
    destruct (dmin_spec c1 c2) as (_ & _ & [->| ->]); [lra|done]. }
  pose proof (approx_div Hw 0 0 _ _ _ _ _ ltac:(few) ltac:(few) ltac:(few) Hen (A want Hwant)
    (A entry ltac:(lra)) Hraw) as Araw.
  pose proof (approx_ge0 4 _ _ ltac:(few) Araw) as Hraw0. destruct Araw as [Q0 _ Qu].
  destruct (snap_down_upper _ _ _ Hraw0 Hq) as [Hq0 Hqu].
  pose proof (upper_trans 7 4 _ _ _ ltac:(few) ltac:(few) Q0 Hqu Qu) as Hqw.
  pose proof (Qdiv_mul (val want) (val entry) Hen) as Hwe.
  set (w := (val want / val entry)%Q) in *. norm_err.
  assert (Hn0 : (0 <= val q * val entry)%Q) by (apply Qmult_le_0_compat; lra).
  assert (Hqe : (val q * val entry <= val want * (1 + err 12))%Q).
  { assert (val q * val entry <= w * (1 + err 12) * val entry)%Q by (apply Qmult_le_compat_r; lra).
    assert (w * (1 + err 12) * val entry == val want * (1 + err 12))%Q as E by (rewrite <- Hwe; ring). lra. }
  pose proof (upper_rounds Hw 12 _ _ _ ltac:(few) Hn0 Hwant Hqe (mul_rounds q entry)) as Hnot. norm_err.
  assert (Hcap : ∀ k c, 0 <= k <= 50 -> (0 <= c)%Q -> (val want <= c * (1 + err k))%Q ->
    (val (q * entry)%dec <= c * (1 + slack))%Q).
  { intros k c Hk Hc Hle. apply (below_slack (14 + k + 1)); [lia|done|].
    apply (upper_trans 14 k _ (val want)); [few|few|done|done|done]. }
  assert (Z0 : (0 <= val c1)%Q) by lra.
  split; [split|repeat split]; cbn [quantity notional entry_price sized_stop_price]; try done.
  - fold c1. apply (Hcap 0); [lia|done|]. unfold err. change (inject_Z 0) with 0%Q. lra.
  - destruct Ax as [X0 _ X2]. norm_err. apply (Hcap 3); [lia|done|]. lra.
  - apply (Hcap 6); [lia|done|]. lra.
  - intros ->. cbn in Hlong. dec_cmp. done.
  - fold d. destruct Arq as [R0 _ R2]. destruct Ak as [K0 _ _].
    pose proof (Qdiv_mul _ d Hd : (_ / d * d == val cash * val (risk_fraction (sizing strategy)))%Q) as Hk.
    set (z := (val cash * val (risk_fraction (sizing strategy)) / d)%Q) in *.
    destruct Aw as [Y0 _ Y2]. norm_err.
    assert (Hq2 : (val q * val entry <= z * val entry * (1 + err 25))%Q).
    { apply (upper_trans 12 12 _ (val want)); [few|few|done|done|lra]. }
    assert (Hq3 : (val q <= z * (1 + err 25))%Q) by (apply (Qmult_le_r _ _ (val entry)); [done|lra]).
    apply (below_slack 25); [lia|done|].
    assert (val q * d <= z * (1 + err 25) * d)%Q by (apply Qmult_le_compat_r; lra).
    assert (z * (1 + err 25) * d == val cash * val (risk_fraction (sizing strategy)) * (1 + err 25))%Q as E
      by (rewrite <- Hk; ring). lra.
  - apply mul_rounds.
  - unfold d in Hd. destruct side; lra.
Qed.

End Caps.

(** An order the sizer returns on the spot path respects every cap at once: quote cap,
    exposure fraction, cash net of the fee, cash itself for a long, the risk fraction of
    cash lost if the stop is hit, and both venue minimums; and its levels are ordered stop,
    entry, target on the side traded. The slack covers decimal rounding, one part in 10^18. *)
Lemma sized_order_within_caps `{DecimalContext} strategy cash price atr product fee side order :
  wide _ -> valid_strategy strategy -> (0 <= val fee)%Q ->
  size_entry_or_skip strategy cash price atr product fee side None = Ok (Sized order) ->
  within_caps strategy product side cash fee order ∧
  match side with
  | LONG => (0 < val (sized_stop_price order) ∧ val (sized_stop_price order) < val (entry_price order))%Q ∧
            ∀ t, sized_target_price order = Some t -> (val (entry_price order) < val t)%Q
  | SHORT => (val (entry_price order) < val (sized_stop_price order))%Q ∧
             ∀ t, sized_target_price order = Some t -> (0 < val t)%Q
  end.
Proof.
  intros Hw (_ & _ & Hsz & Hexp & _) Hfee Hs. unfold size_entry_or_skip in Hs.
  destruct (price <=? d0)%dec; [done|]. destruct (atr <=? d0)%dec; [done|].
  destruct (cash <=? d0)%dec eqn:Hcash; [done|].
  apply bind_Ok in Hs as (snapped & _ & (levels & Hl & Hs)%bind_Ok).
  destruct levels as [levels|]; [|done]. unfold entry_levels in Hl.
  destruct (snapped <=? d0)%dec eqn:Hsn; [done|]. dec_cmp. change (val d0) with 0%Q in *.
  apply (bounded_order_caps Hw) in Hs as (Hcaps & He & Hstop & Htarget & Hside); [|done..].
  split; [done|]. rewrite He, Hstop, Htarget. destruct (_ <=? d0)%dec in Hl; [done|]. destruct side.
  - apply bind_Ok in Hl as (stop & _ & Hl). destruct (stop <=? d0)%dec eqn:H0; [done|]. dec_cmp.
    destruct (reward_risk_multiple (exits strategy)); [|injection Hl as <-; done].
    apply bind_Ok in Hl as (t & _ & Hl). destruct (t <=? snapped)%dec eqn:Ht; [done|].
    injection Hl as <-. dec_cmp. split; [done|]. by intros ? [= <-].
  - split; [done|]. apply bind_Ok in Hl as (stop & _ & (t & Ht & Hl)%bind_Ok).
    destruct t as [t|]; [|done]. destruct (stop <=? snapped)%dec; [done|]. injection Hl as <-.
    cbn [target_price]. intros x ->. destruct (reward_risk_multiple (exits strategy)); [|done].
    apply bind_Ok in Ht as (y & _ & Ht). destruct (y <=? d0)%dec eqn:Hy; [done|].
    injection Ht as ->. by dec_cmp.
Qed.

Definition demo_product : MarketProduct :=
  {| market_product_id := "BTC-USD"; trading_enabled := true; price_increment := Dec 1 (-2); base_increment := Dec 1 (-8); base_min_size := Dec 1 (-8);
     quote_min_size := d1 |}.

Definition demo_terms : FuturesMarginTerms :=
  {| contract_size := Dec 1 (-2); long_rate := Dec 25 (-2); short_rate := Dec 3 (-1);
     maintenance_fraction := d1; min_buffer_fraction := Dec 5 (-1);
     terms_max_leverage := of_Z 3; fee_per_contract := Dec 15 (-2) |}.

Lemma demo_terms_valid : valid_terms demo_terms.
Proof. by repeat split. Qed.
