(* ===== verification/Broker.v ===== *)
(** * Broker: bar-level fill pricing ([backtest/broker.py], [evaluation/stress.py])

    Maker limits fill at their posted price; marketable legs cross half the optional spread
    stress and then pay adverse slippage. [maker_touched] decides whether a bar trades through
    a resting limit. The divisions by fixed basis-point constants are in the ambient context. *)

From S2P Require Import Prelude Decimals DecimalFacts Geometry.

Open Scope Z_scope.

Inductive QuoteSide := ask_side | bid_side.

Record FillQuote := {
  reference_price : decimal;
  price : decimal;
  executable_side : option QuoteSide;
  spread_cost : decimal
}.

(** [FillModel(spread_bps)] is its one field. *)
Record FillModel := { model_spread_bps : decimal }.

Record ExecutionStress := {
  entry_latency_bars : Z;
  maker_penetration_bps : decimal;
  entry_fill_fraction : decimal
}.

(** Field bounds and validators of [ExecutionStress]. *)
Definition valid_stress (s : ExecutionStress) : bool :=
  (0 <=? entry_latency_bars s) && (entry_latency_bars s <=? 100) &&
  ((d0 <=? maker_penetration_bps s) && (maker_penetration_bps s <=? of_Z 1000) &&
   (d0 <? entry_fill_fraction s) && (entry_fill_fraction s <=? d1))%dec.

Definition _ONE : decimal := d1.
Definition _BPS : decimal := of_Z 10000.
Definition _HALF_SPREAD_DIVISOR : decimal := of_Z 20000.

Section Broker.
Context {dc : DecimalContext}.

Definition spread_stressed (m : FillModel) : bool := (d0 <? model_spread_bps m)%dec.

Definition _half_spread_fraction (m : FillModel) : result decimal :=
  div (model_spread_bps m) _HALF_SPREAD_DIVISOR.

Definition maker (limit_price : decimal) : FillQuote :=
  {| reference_price := limit_price; price := limit_price; executable_side := None; spread_cost := d0 |}.

Definition bid (m : FillModel) (raw_price : decimal) : result decimal :=
  if negb (spread_stressed m) then Ok raw_price
  else h ← _half_spread_fraction m; Ok (raw_price * (_ONE - h))%dec.

Definition ask (m : FillModel) (raw_price : decimal) : result decimal :=
  if negb (spread_stressed m) then Ok raw_price
  else h ← _half_spread_fraction m; Ok (raw_price * (_ONE + h))%dec.

Definition raw_for_bid (m : FillModel) (bid_price : decimal) : result decimal :=
  if negb (spread_stressed m) then Ok bid_price
  else h ← _half_spread_fraction m; div bid_price (_ONE - h)%dec.

Definition raw_for_ask (m : FillModel) (ask_price : decimal) : result decimal :=
  if negb (spread_stressed m) then Ok ask_price
  else h ← _half_spread_fraction m; div ask_price (_ONE + h)%dec.

Definition mark (m : FillModel) (raw_price : decimal) (side : PositionSide) : result decimal :=
  match side with SHORT => ask m raw_price | LONG => bid m raw_price end.

Definition _quote (m : FillModel) (reference_price price : decimal) (side : QuoteSide)
    (spread_cost : decimal) : FillQuote :=
  if negb (spread_stressed m)
  then {| reference_price := reference_price; price := price; executable_side := None; spread_cost := d0 |}
  else {| reference_price := reference_price; price := price; executable_side := Some side;
          spread_cost := spread_cost |}.

Definition taker_buy (m : FillModel) (reference_price slippage_bps : decimal) : result FillQuote :=
  ask ← ask m reference_price;
  slip ← div slippage_bps _BPS;
  Ok (_quote m reference_price (ask * (_ONE + slip))%dec ask_side (ask - reference_price)%dec).

Definition taker_sell (m : FillModel) (reference_price slippage_bps : decimal) : result FillQuote :=
  bid ← bid m reference_price;
  slip ← div slippage_bps _BPS;
  Ok (_quote m reference_price (bid * (_ONE - slip))%dec bid_side (reference_price - bid)%dec).

Definition maker_touched (high low price : decimal) (buy : bool) (stress : option ExecutionStress)
    : result bool :=
  buffer ← match stress with
           | None => Ok d0
           | Some s => div (maker_penetration_bps s) (of_Z 10000)
           end;
  Ok (if buy then (low <=? price * (d1 - buffer))%dec else (high >=? price * (d1 + buffer))%dec).

End Broker.

(** ** Marketable fills are adverse *)

Section Adverse.
Context {dc : DecimalContext}.
Context (Hw : wide dc).

Lemma div_positive a n q : 0 < n -> div a (of_Z n) = Ok q -> rounds prec (val a / inject_Z n) q.
Proof. intros _ Hq. apply div_rounds in Hq as [_ Hq]. by rewrite val_of_Z in Hq. Qed.

Lemma one_representable : representable prec 1.
Proof. apply (representable_Z 1). pose proof prec_pos. pose proof (pow10_pos prec). lia. Qed.

(** A fraction of at most one tenth, taken off or put on, stays between zero and two. *)
Lemma basis_fraction a n q : (0 <= val a)%Q -> (val a <= 1000)%Q -> 10000 <= n ->
  div a (of_Z n) = Ok q ->
  (0 <= val q ∧ 0 < val (_ONE - q)%dec ∧ val (_ONE - q)%dec <= 1 ∧ 1 <= val (_ONE + q)%dec)%Q.
Proof.
  intros Ha0 Ha1 Hn Hq. pose proof prec_pos as Hp. apply div_positive in Hq; [|lia].
  assert (HnQ : (10000 <= inject_Z n)%Q) by (rewrite Zle_Qle in Hn; exact Hn).
  assert (Hx0 : (0 <= val a / inject_Z n)%Q) by (apply Qle_shift_div_l; lra).
  assert (Hx1 : (val a / inject_Z n <= 1 # 10)%Q) by (apply Qle_shift_div_r; lra).
  destruct (rounds_percent _ _ Hw Hq Hx0) as [_ Hq1].
  pose proof (rounds_nonneg _ _ Hp Hq Hx0) as Hq0. split; [done|].
  pose proof (sub_rounds _ONE q) as Hs. pose proof (add_rounds _ONE q) as Hd.
  change (val _ONE) with 1%Q in *. split; [|split].
  - apply (rounds_pos _ _ Hp Hs). lra.
  - apply (rounds_le _ _ _ Hs one_representable). lra.
  - apply (rounds_ge _ _ _ Hd one_representable). lra.
Qed.

Lemma scale_down p f : (0 <= val p)%Q -> representable prec (val p) -> (0 < val f)%Q -> (val f <= 1)%Q ->
  (0 <= val (p * f)%dec ∧ val (p * f)%dec <= val p)%Q.
Proof.
  intros Hp0 Hrep Hf0 Hf1. split.
  - refine (rounds_nonneg _ _ prec_pos (mul_rounds p f) _). apply Qmult_le_0_compat; lra.
  - apply (rounds_le _ _ _ (mul_rounds p f) Hrep).
    assert (val p * val f <= val p * 1)%Q by (apply Qmult_le_compat_nonneg; lra). lra.
Qed.

Lemma scale_up p f : (0 <= val p)%Q -> representable prec (val p) -> (1 <= val f)%Q ->
  (val p <= val (p * f)%dec)%Q.
Proof.
  intros Hp0 Hrep Hf1. apply (rounds_ge _ _ _ (mul_rounds p f) Hrep).
  assert (val p * 1 <= val p * val f)%Q by (apply Qmult_le_compat_nonneg; lra). lra.
Qed.

Definition valid_bps (d : decimal) : Prop := (0 <= val d ∧ val d <= 1000)%Q.

Lemma bid_below m p b : valid_bps (model_spread_bps m) -> (0 <= val p)%Q -> representable prec (val p) ->
  bid m p = Ok b -> (0 <= val b ∧ val b <= val p)%Q ∧ representable prec (val b).
Proof.
  intros [Hs0 Hs1] Hp Hrep. unfold bid. destruct (negb _).
  - intros [= <-]. split; [lra|done].
  - intros (h & Hh & [= <-])%bind_Ok.
    destruct (basis_fraction _ 20000 _ Hs0 Hs1 ltac:(lia) Hh) as (_ & F0 & F1 & _).
    split; [by apply scale_down|]. eapply rounds_representable, mul_rounds.
Qed.

Lemma ask_above m p a : valid_bps (model_spread_bps m) -> (0 <= val p)%Q -> representable prec (val p) ->
  ask m p = Ok a -> (val p <= val a)%Q ∧ representable prec (val a).
Proof.
  intros [Hs0 Hs1] Hp Hrep. unfold ask. destruct (negb _).
  - intros [= <-]. split; [apply Qle_refl|done].
  - intros (h & Hh & [= <-])%bind_Ok.
    destruct (basis_fraction _ 20000 _ Hs0 Hs1 ltac:(lia) Hh) as (_ & _ & _ & F1).
    split; [by apply scale_up|]. eapply rounds_representable, mul_rounds.
Qed.

(** A marketable leg never improves on its reference: a taker sell is priced at or below it
    and never negative, a taker buy at or above it, whatever spread stress and slippage the
    run declares (up to their bounds) and after every rounding. *)
Lemma taker_fills_adverse m reference slippage :
  valid_bps (model_spread_bps m) -> valid_bps slippage ->
  (0 <= val reference)%Q -> representable prec (val reference) ->
  (∀ q, taker_sell m reference slippage = Ok q -> (0 <= val (price q) ∧ val (price q) <= val reference)%Q) ∧
  (∀ q, taker_buy m reference slippage = Ok q -> (val reference <= val (price q))%Q).
Proof.
  intros Hm [Hs0 Hs1] Hr Hrep. split; intros q.
  - intros (b & Hb & (s & Hs & Hq)%bind_Ok)%bind_Ok. injection Hq as <-.
    destruct (bid_below _ _ _ Hm Hr Hrep Hb) as [[B0 B1] Brep].
    destruct (basis_fraction _ 10000 _ Hs0 Hs1 ltac:(lia) Hs) as (_ & F0 & F1 & _).
    destruct (scale_down b _ B0 Brep F0 F1). unfold _quote. destruct (negb _); cbn [price]; lra.
  - intros (a & Ha & (s & Hs & Hq)%bind_Ok)%bind_Ok. injection Hq as <-.
    destruct (ask_above _ _ _ Hm Hr Hrep Ha) as [A1 Arep].
    destruct (basis_fraction _ 10000 _ Hs0 Hs1 ltac:(lia) Hs) as (_ & _ & _ & F1).
    pose proof (scale_up a _ ltac:(lra) Arep F1). unfold _quote. destruct (negb _); cbn [price]; lra.
Qed.

End Adverse.
