(* ===== verification/KernelState.v ===== *)
(** * KernelState: the state of the backtest kernel

    [backtest/kernel_state.py], the fill, trade and diagnostics records of
    [backtest/models.py] and the funding clock of [evaluation/futures_spec.py]. A record field
    typed [ResultDecimalText] holds [canon] of its value (see [DecimalText.result_decimal]). *)

From S2P Require Import Prelude Decimals DecimalFacts DecimalText Market Geometry.
From S2P Require Import IndicatorSpec Conditions Strategy Sizing Broker.

Open Scope Z_scope.

(** ** Evidence records *)

Inductive BacktestExitReason :=
  stop_loss | take_profit_ | time_exit | signal | evaluation_end | liquidation | expiry.

#[global] Instance BacktestExitReason_eq_dec : EqDecision BacktestExitReason.
Proof. solve_decision. Defined.

Definition exit_value (r : BacktestExitReason) : string :=
  match r with
  | stop_loss => "stop_loss" | take_profit_ => "take_profit" | time_exit => "time_exit"
  | signal => "signal" | evaluation_end => "evaluation_end" | liquidation => "liquidation"
  | expiry => "expiry"
  end.

Record BacktestFill := {
  candle_starts_at : datetime;
  fill_price : decimal;
  fill_quantity : decimal;
  fill_notional : decimal;
  fill_fee : decimal;
  fee_rate : decimal;
  fill_reference_price : option decimal;
  fill_executable_side : option QuoteSide;
  fill_spread_cost : option decimal
}.

Record BacktestExitFill := { exit_fill : BacktestFill; reason : BacktestExitReason }.

Record BacktestTrade := {
  trade_entry : BacktestFill;
  trade_exit : BacktestExitFill;
  gross_pnl : decimal;
  net_pnl : decimal;
  holding_bars : Z;
  trade_funding : option decimal
}.

(** [Field(ge=0)] on [holding_bars], then [require_ordered_fills]. *)
Definition validate_trade (t : BacktestTrade) : result BacktestTrade :=
  if holding_bars t <? 0 then Raise (ValueError "holding_bars must be at least 0")
  else if candle_starts_at (exit_fill (trade_exit t)) <? candle_starts_at (trade_entry t)
  then Raise (ValueError "trade exit cannot precede entry") else Ok t.

Record EquityPoint := {
  point_starts_at : datetime;
  point_cash : decimal;
  base_quantity : decimal;
  mark_price : decimal;
  equity : decimal
}.

(** ** Signal records ([evaluation/trace.py]) *)

Record SignalTraceRecord := {
  record_starts_at : datetime;
  indicator_values : list (string * option decimal);
  entry_condition : EntryConditionOutcome;
  exit_condition : option EntryConditionOutcome
}.

(** ** Entries, positions, books *)

Record _PendingEntry := mk_pending {
  pending_signal : SignalTraceRecord;
  limit_price : decimal;
  pending_quantity : decimal;
  pending_stop_price : decimal;
  pending_target_price : option decimal;
  waited_bars : Z;
  pending_side : PositionSide;
  is_pyramid_add : bool;
  size_capped : bool
}.

Record _Position := mk_position {
  position_entry : BacktestFill;
  position_stop_price : decimal;
  position_target_price : option decimal;
  entered_bar_index : Z;
  take_profit_resting : bool;
  trail_extreme : option decimal;
  position_side : PositionSide;
  add_count : Z;
  unit_fee : option decimal;
  funding : option decimal
}.

Record _Book := mk_book {
  book_product_id : string;
  candle_by_start : gmap datetime Candle;
  records : gmap datetime SignalTraceRecord;
  pending : option _PendingEntry;
  position : option _Position;
  book_cooldown : Z
}.

Definition set_pending (b : _Book) (p : option _PendingEntry) : _Book :=
  mk_book (book_product_id b) (candle_by_start b) (records b) p (position b) (book_cooldown b).
Definition set_position (b : _Book) (p : option _Position) : _Book :=
  mk_book (book_product_id b) (candle_by_start b) (records b) (pending b) p (book_cooldown b).
Definition set_cooldown (b : _Book) (n : Z) : _Book :=
  mk_book (book_product_id b) (candle_by_start b) (records b) (pending b) (position b) n.

Definition is_open (b : _Book) : bool :=
  match position b, pending b with None, None => false | _, _ => true end.

(** ** Costs and futures terms *)

Record _FuturesTerms := {
  margin : FuturesMarginTerms;
  funding_rates : option (gmap datetime decimal);
  constant_funding_rate : option decimal;
  flatten_at : option datetime
}.

Definition perpetual (t : _FuturesTerms) : bool :=
  match funding_rates t, constant_funding_rate t with None, None => false | _, _ => true end.

Record _Costs := {
  cost_maker_fee_rate : decimal;
  cost_taker_fee_rate : decimal;
  slippage_bps : decimal;
  fill_model : FillModel;
  execution_stress : option ExecutionStress;
  futures : option _FuturesTerms
}.

(** ** Counters

    A [dict[key, int]] in insertion order. *)

Definition counter (K : Type) : Type := list (K * Z).

(** [counts[key] = counts.get(key, 0) + 1] *)
Fixpoint bump {K} `{EqDecision K} (key : K) (counts : counter K) : counter K :=
  match counts with
  | [] => [(key, 1)]
  | (k, n) :: rest => if decide (k = key) then (k, n + 1) :: rest else (k, n) :: bump key rest
  end.

Fixpoint total {K} (counts : counter K) : Z :=
  match counts with [] => 0 | (_, n) :: rest => n + total rest end.
Definition keys {K} (counts : counter K) : list K := map fst counts.

Inductive BacktestGateReason := PENDING_ENTRY | COOLDOWN | MAX_POSITIONS | IN_POSITION | EXPIRY_WINDOW.

#[global] Instance BacktestGateReason_eq_dec : EqDecision BacktestGateReason.
Proof. solve_decision. Defined.

(** [BacktestGateReason | EntrySkipReason] *)
Inductive skip_reason :=
  | Gate (g : BacktestGateReason)
  | EntrySkip (r : EntrySkipReason).

#[global] Instance skip_reason_eq_dec : EqDecision skip_reason.
Proof. solve_decision. Defined.

Definition skip_value (r : skip_reason) : string :=
  match r with
  | Gate PENDING_ENTRY => "pending_entry" | Gate COOLDOWN => "cooldown"
  | Gate MAX_POSITIONS => "max_positions" | Gate IN_POSITION => "in_position"
  | Gate EXPIRY_WINDOW => "expiry_window"
  | EntrySkip ENTRY_PRICE_NOT_POSITIVE => "entry_price_not_positive"
  | EntrySkip STOP_DISTANCE_NOT_POSITIVE => "stop_distance_not_positive"
  | EntrySkip STOP_NOT_POSITIVE => "stop_not_positive"
  | EntrySkip TARGET_NOT_POSITIVE => "target_not_positive"
  | EntrySkip STOP_WITHIN_PRICE_INCREMENT => "stop_within_price_increment"
  | EntrySkip TARGET_WITHIN_PRICE_INCREMENT => "target_within_price_increment"
  | EntrySkip NET_TARGET_BELOW_MINIMUM => "net_target_below_minimum"
  | EntrySkip ECONOMICS_FEE_UNAVAILABLE => "economics_fee_unavailable"
  | EntrySkip SIZING_CASH_UNAVAILABLE => "sizing_cash_unavailable"
  | EntrySkip NO_OPEN_POSITION => "no_open_position"
  | EntrySkip INSUFFICIENT_CASH => "insufficient_cash"
  | EntrySkip NOTIONAL_BELOW_MINIMUM => "notional_below_minimum"
  | EntrySkip QUANTITY_BELOW_VENUE_MINIMUM => "quantity_below_venue_minimum"
  | EntrySkip NOTIONAL_BELOW_VENUE_MINIMUM => "notional_below_venue_minimum"
  | EntrySkip BELOW_ONE_CONTRACT => "below_one_contract"
  end.

Record _Tally := {
  signals_matched : Z;
  entries_rested : Z;
  entries_filled : Z;
  entries_expired : Z;
  entries_repriced : Z;
  entries_refused_at_fill : Z;
  entries_unfilled_at_end : Z;
  entries_size_capped : Z;
  warmup_bars_seen : Z;
  skipped : counter skip_reason;
  exits_ : counter BacktestExitReason
}.

Definition empty_tally : _Tally := Build__Tally 0 0 0 0 0 0 0 0 0 [] [].

Definition matched (t : _Tally) : _Tally :=
  let '(Build__Tally m r f e p u n c w s x) := t in Build__Tally (m + 1) r f e p u n c w s x.
Definition warmed (t : _Tally) : _Tally :=
  let '(Build__Tally m r f e p u n c w s x) := t in Build__Tally m r f e p u n c (w + 1) s x.
Definition filled (t : _Tally) : _Tally :=
  let '(Build__Tally m r f e p u n c w s x) := t in Build__Tally m r (f + 1) e p u n c w s x.
Definition expired (t : _Tally) : _Tally :=
  let '(Build__Tally m r f e p u n c w s x) := t in Build__Tally m r f (e + 1) p u n c w s x.
Definition repriced (t : _Tally) : _Tally :=
  let '(Build__Tally m r f e p u n c w s x) := t in Build__Tally m r f e (p + 1) u n c w s x.
Definition refused (t : _Tally) : _Tally :=
  let '(Build__Tally m r f e p u n c w s x) := t in Build__Tally m r f e p (u + 1) n c w s x.
Definition unfilled (t : _Tally) : _Tally :=
  let '(Build__Tally m r f e p u n c w s x) := t in Build__Tally m r f e p u (n + 1) c w s x.

(** [tally.skip(reason)] *)
Definition skip (reason : skip_reason) (t : _Tally) : _Tally :=
  let '(Build__Tally m r f e p u n c w s x) := t in Build__Tally m r f e p u n c w (bump reason s) x.

(** [tally.closed(trade)] *)
Definition closed (trade : BacktestTrade) (t : _Tally) : _Tally :=
  let '(Build__Tally m r f e p u n c w s x) := t in
  Build__Tally m r f e p u n c w s (bump (reason (trade_exit trade)) x).

(** [tally.rested(pending)] *)
Definition rested (p : _PendingEntry) (t : _Tally) : _Tally :=
  let '(Build__Tally m r f e q u n c w s x) := t in
  Build__Tally m (r + 1) f e q u n (if size_capped p then c + 1 else c) w s x.

(** ** Diagnostics *)

Record BacktestDiagnostics := {
  tally : _Tally;
  diag_skipped : list (skip_reason * Z);
  exit_reasons : list (BacktestExitReason * Z)
}.

(** [sorted(items, key=...)] by a string key: a stable insertion sort. *)
Fixpoint insert_by {A} (key : A -> string) (x : A) (l : list A) : list A :=
  match l with
  | [] => [x]
  | y :: k => if String.leb (key x) (key y) then x :: l else y :: insert_by key x k
  end.
Definition sort_by {A} (key : A -> string) (l : list A) : list A := foldr (insert_by key) [] l.

(** The validators of [BacktestDiagnostics]: positive counts, unique reasons, and
    [require_coherent_funnel]. *)
Definition coherent_funnel (d : BacktestDiagnostics) : bool :=
  let t := tally d in
  forallb (λ '(_, n), 1 <=? n) (diag_skipped d) && forallb (λ '(_, n), 1 <=? n) (exit_reasons d) &&
  (length (diag_skipped d) <=? 32)%nat && (length (exit_reasons d) <=? 8)%nat &&
  bool_decide (NoDup (keys (exit_reasons d))) &&
  (signals_matched t =? entries_rested t + total (diag_skipped d)) &&
  (entries_rested t =? entries_filled t + entries_expired t + entries_refused_at_fill t
                       + entries_unfilled_at_end t) &&
  bool_decide (NoDup (keys (diag_skipped d))).

(** [tally.diagnostics()] *)
Definition diagnostics (t : _Tally) : result BacktestDiagnostics :=
  let d := {| tally := t; diag_skipped := sort_by (λ p, skip_value p.1) (skipped t);
              exit_reasons := sort_by (λ p, exit_value p.1) (exits_ t) |} in
  if coherent_funnel d then Ok d else Raise (ValueError "incoherent backtest diagnostics").

(** ** The funding clock *)

(** [funding_hours]: the loop [while cursor <= ends_at], with the shared clock-loop fuel. *)
Definition funding_hours (starts_at ends_at : datetime) : list datetime :=
  instants ((starts_at / hour + 1) * hour) (ends_at + 1) hour.

(** ** Facts about counters *)

Lemma total_bump {K} `{EqDecision K} (key : K) (c : counter K) : total (bump key c) = total c + 1.
Proof.
  induction c as [|[k n] c IH]; cbn; [done|]. destruct (decide (k = key)); cbn; lia.
Qed.

Lemma bump_keys {K} `{EqDecision K} (key k : K) (c : counter K) :
  k ∈ keys (bump key c) ↔ k = key ∨ k ∈ keys c.
Proof.
  induction c as [|[k' n] c IH]; cbn.
  - rewrite list_elem_of_singleton, elem_of_nil. naive_solver.
  - destruct (decide (k' = key)) as [->|]; cbn; rewrite !elem_of_cons; [naive_solver|].
    unfold keys in IH. rewrite IH. naive_solver.
Qed.

Lemma bump_NoDup {K} `{EqDecision K} (key : K) (c : counter K) :
  NoDup (keys c) -> NoDup (keys (bump key c)).
Proof.
  induction c as [|[k n] c IH]; cbn; [intros _; apply NoDup_singleton|].
  intros [Hk Hn]%NoDup_cons. destruct (decide (k = key)); cbn; apply NoDup_cons; [done|].
  split; [|by apply IH]. pose proof (bump_keys key k c) as Hb. unfold keys in *. rewrite Hb. naive_solver.
Qed.

Definition positive_counts {K} (c : counter K) : Prop := Forall (λ p, 1 <= p.2) c.

Lemma bump_positive {K} `{EqDecision K} (key : K) (c : counter K) :
  positive_counts c -> positive_counts (bump key c).
Proof.
  unfold positive_counts. induction c as [|[k n] c IH]; cbn; [by repeat constructor|].
  intros [Hn Hc]%Forall_cons. cbn in Hn. destruct (decide (k = key)); constructor; cbn; auto. lia.
Qed.

Lemma insert_by_perm {A} key (x : A) l : insert_by key x l ≡ₚ x :: l.
Proof.
  induction l as [|y l IH]; cbn; [done|]. destruct (String.leb _ _); [done|]. rewrite IH. constructor.
Qed.

Lemma sort_by_perm {A} key (l : list A) : sort_by key l ≡ₚ l.
Proof. induction l as [|x l IH]; cbn; [done|]. by rewrite insert_by_perm, IH. Qed.

#[global] Instance total_perm {K} : Proper ((≡ₚ) ==> eq) (@total K).
Proof.
  intros l k H. induction H as [|[k n] l l' _ IH|[k n] [k' n'] l|l l' l'' _ IH1 _ IH2]; cbn; lia.
Qed.

(** The funding hours of a bar are exactly the whole hours [T] with
    [starts_at < T <= ends_at], for every pair of instants. *)
Lemma funding_hours_spec starts_at ends_at t :
  t ∈ funding_hours starts_at ends_at ↔ (hour | t) ∧ starts_at < t <= ends_at.
Proof.
  unfold funding_hours. assert (Hh : 0 < hour) by done. rewrite elem_of_instants by done.
  pose proof (Z.div_mod starts_at hour ltac:(lia)). pose proof (Z.mod_pos_bound starts_at hour Hh).
  set (q := starts_at / hour) in *. split.
  - intros (k & Hk & -> & Hlt). split; [exists (q + 1 + k); lia|]. nia.
  - intros ([m ->] & Hlo & Hhi). exists (m - (q + 1)). assert (q < m) by nia. lia.
Qed.
