(* ===== verification/Kernel.v ===== *)
(** * Kernel: the bar-level simulation ([backtest/kernel*.py])

    One definition per function of the kernel modules, with the mutable book, tally and trade
    list passed as values. The section is generic in the decimal context; [simulate_books]
    runs it under the 64-digit simulation context. Reading the candle or record of an absent
    bar raises [KeyError], as the dicts do. *)

From S2P Require Import Prelude Decimals DecimalFacts DecimalText Market Geometry.
From S2P Require Import IndicatorSpec Conditions Strategy Sizing Broker KernelState.

Open Scope Z_scope.

(** [mapping[key]] *)
Definition dict_get {V} (m : gmap datetime V) (k : datetime) : result V :=
  match m !! k with Some v => Ok v | None => Raise KeyError end.

Lemma dict_get_Ok {V} (m : gmap datetime V) k v : dict_get m k = Ok v ↔ m !! k = Some v.
Proof. unfold dict_get. destruct (m !! k); naive_solver. Qed.

Section Kernel.
Context {dc : DecimalContext}.

(** ** ATR reads and the trail ([kernel_atr.py]) *)

Definition _optional_indicator_value (record : option SignalTraceRecord) (indicator_id : string)
    : option decimal :=
  match record with
  | None => None
  | Some record =>
      (fix scan (l : list (string * option decimal)) : option decimal :=
        match l with
        | [] => None
        | (id, Some v) :: rest => if bool_decide (id = indicator_id) then Some v else scan rest
        | (_, None) :: rest => scan rest
        end) (indicator_values record)
  end.

Definition _indicator_value (record : SignalTraceRecord) (indicator_id : string) : result decimal :=
  match _optional_indicator_value (Some record) indicator_id with
  | Some v => Ok v
  | None => Raise (BacktestSimulationError "Backtest entry signal lacks its required ATR value.")
  end.

Definition _trail_position (position : _Position) (candle : Candle) (strategy : StrategyDefinition)
    (record : option SignalTraceRecord) (is_fill_bar : bool) : result _Position :=
  match atr_trailing_stop (exits strategy) with
  | None => Ok position
  | Some policy =>
      let atr := _optional_indicator_value record (atr_indicator policy) in
      state ← match position_side position with
        | SHORT => ratcheted_short_stop (position_stop_price position) (trail_extreme position)
                     (low candle) atr (multiple policy) None (negb is_fill_bar)
        | LONG => ratcheted_long_stop (position_stop_price position) (trail_extreme position)
                     (high candle) atr (multiple policy) None (negb is_fill_bar)
        end;
      if (trail_stop_price state =? position_stop_price position)%dec &&
         match trail_extreme position with Some e => (state_extreme state =? e)%dec | None => false end
      then Ok position
      else Ok (mk_position (position_entry position) (trail_stop_price state)
                 (position_target_price position) (entered_bar_index position)
                 (take_profit_resting position) (Some (state_extreme state))
                 (position_side position) (add_count position) (unit_fee position) (funding position))
  end.

(** ** Fills ([kernel_fills.py]) *)

Definition text_option (d : option decimal) : result (option decimal) :=
  match d with None => Ok None | Some d => c ← result_decimal d; Ok (Some c) end.

(** A [BacktestFill] of canonical texts, without spread evidence. *)
Definition maker_fill (starts_at : datetime) (price quantity notional fee rate : decimal)
    : result BacktestFill :=
  price ← result_decimal price;
  quantity ← result_decimal quantity;
  notional ← result_decimal notional;
  fee ← result_decimal fee;
  rate ← result_decimal rate;
  Ok {| candle_starts_at := starts_at; fill_price := price; fill_quantity := quantity;
        fill_notional := notional; fill_fee := fee; fee_rate := rate;
        fill_reference_price := None; fill_executable_side := None; fill_spread_cost := None |}.

(** [_fill_evidence]: spread evidence only for stressed taker fills. *)
Definition _fill_evidence (quote : FillQuote) (fill : BacktestFill) : result BacktestFill :=
  match executable_side quote with
  | None => Ok fill
  | Some s =>
      reference ← result_decimal (reference_price quote);
      cost ← result_decimal (spread_cost quote);
      Ok {| candle_starts_at := candle_starts_at fill; fill_price := fill_price fill;
            fill_quantity := fill_quantity fill; fill_notional := fill_notional fill;
            fill_fee := fill_fee fill; fee_rate := fee_rate fill;
            fill_reference_price := Some reference; fill_executable_side := Some s;
            fill_spread_cost := Some cost |}
  end.

(** Cash after a maker entry: longs pay notional and fee, shorts receive the notional. *)
Definition entry_cash (short : bool) (cash notional fee : decimal) : decimal :=
  if short then (cash + notional - fee)%dec else (cash - notional - fee)%dec.

Definition is_short (side : PositionSide) : bool := match side with SHORT => true | LONG => false end.

Definition _open_position (pending : _PendingEntry) (candle : Candle) (cash : decimal)
    (entry_bar_index : Z) (costs : _Costs) : result (option _Position * decimal) :=
  let short := is_short (pending_side pending) in
  let quote := maker (limit_price pending) in
  let terms := futures costs in
  sized ← match terms with
    | None => Ok (Some (pending_quantity pending, None))
    | Some terms =>
        quantity ← whole_contracts (margin terms) (pending_quantity pending);
        if (quantity <=? d0)%dec then Ok None
        else unit_fee ← div (fee_per_contract (margin terms)) (contract_size (margin terms));
             Ok (Some (quantity, Some unit_fee))
    end;
  match sized with
  | None => Ok (None, cash)
  | Some (quantity, unit_fee) =>
      let notional := (quantity * price quote)%dec in
      let fee := (notional * cost_maker_fee_rate costs)%dec in
      let fee := match unit_fee with Some u => (fee + quantity * u)%dec | None => fee end in
      if match terms with None => negb short && (notional + fee >? cash)%dec | Some _ => false end
      then Ok (None, cash)
      else
        entry ← maker_fill (starts_at candle) (price quote) quantity notional fee (cost_maker_fee_rate costs);
        let next_cash := entry_cash short cash notional fee in
        Ok (Some (mk_position entry (pending_stop_price pending) (pending_target_price pending)
                    entry_bar_index false None (pending_side pending) 1 unit_fee
                    match terms with
                    | Some terms => if perpetual terms then Some d0 else None
                    | None => None
                    end), next_cash)
  end.

(** [None] stands for the unchanged position Python hands back when cash cannot fund the add. *)
Definition _scale_in (pending : _PendingEntry) (position : _Position) (cash : decimal) (costs : _Costs)
    : result (option _Position * decimal) :=
  let short := is_short (pending_side pending) in
  let quote := maker (limit_price pending) in
  let add_quantity := pending_quantity pending in
  let notional := (add_quantity * price quote)%dec in
  let fee := (notional * cost_maker_fee_rate costs)%dec in
  if negb short && (notional + fee >? cash)%dec then Ok (None, cash)
  else
    let held := position_entry position in
    let quantity := (fill_quantity held + add_quantity)%dec in
    entry_price ← div (fill_price held * fill_quantity held + price quote * add_quantity)%dec quantity;
    entry ← maker_fill (candle_starts_at held) entry_price quantity (quantity * entry_price)%dec
              (fill_fee held + fee)%dec (fee_rate held);
    let next_cash := entry_cash short cash notional fee in
    Ok (Some (mk_position entry (position_stop_price position) (position_target_price position)
                (entered_bar_index position) (take_profit_resting position) (trail_extreme position)
                (position_side position) (add_count position + 1) (unit_fee position)
                (funding position)), next_cash).

Definition _fill_resting_entry (book : _Book) (pending : _PendingEntry) (candle : Candle) (offset : Z)
    (costs : _Costs) (cash : decimal) (t : _Tally) : result (_Book * decimal * _Tally) :=
  match position book with
  | Some position =>
      scaled ← _scale_in pending position cash costs;
      let '(scaled, cash) := scaled in
      match scaled with
      | None => Ok (book, cash, refused t)
      | Some scaled => Ok (set_position book (Some scaled), cash, filled t)
      end
  | None =>
      opened ← _open_position pending candle cash offset costs;
      let '(opened, cash) := opened in
      Ok (set_position book opened, cash, match opened with None => refused t | Some _ => filled t end)
  end.

(** [int((exit_ - entry) / bar_duration)]: both instants lie on the bar grid, where the
    quotient is a whole number. *)
Definition _holding_bars (entry exit_ bar_duration : Z) : Z := Z.quot (exit_ - entry) bar_duration.

Definition _close_position (position : _Position) (candle : Candle) (cash : decimal) (quote : FillQuote)
    (why : BacktestExitReason) (rate : decimal) (bar_duration : timedelta)
    : result (BacktestTrade * decimal) :=
  let entry := position_entry position in
  let quantity := fill_quantity entry in
  let exit_notional := (quantity * price quote)%dec in
  let exit_fee := (exit_notional * rate)%dec in
  let exit_fee := match unit_fee position with
                  | Some u => (exit_fee + quantity * u)%dec
                  | None => exit_fee
                  end in
  bare ← maker_fill (starts_at candle) (price quote) quantity exit_notional exit_fee rate;
  exit ← _fill_evidence quote bare;
  let entry_notional := fill_notional entry in
  let entry_fee := fill_fee entry in
  let '(net, gross, next_cash) :=
    if is_short (position_side position) then
      ((entry_notional - entry_fee - exit_notional - exit_fee)%dec,
       (entry_notional - exit_notional)%dec, (cash - exit_notional - exit_fee)%dec)
    else
      ((exit_notional - exit_fee - entry_notional - entry_fee)%dec,
       (exit_notional - entry_notional)%dec, (cash + exit_notional - exit_fee)%dec) in
  let net := match funding position with Some f => (net + f)%dec | None => net end in
  gross ← result_decimal gross;
  net ← result_decimal net;
  paid ← text_option (funding position);
  trade ← validate_trade
    {| trade_entry := entry; trade_exit := {| exit_fill := exit; reason := why |};
       gross_pnl := gross; net_pnl := net;
       holding_bars := _holding_bars (candle_starts_at entry) (starts_at candle) bar_duration;
       trade_funding := paid |};
  Ok (trade, next_cash).

(** ** Exits ([kernel_exits.py]) *)

Definition _signal_exit_matched (record : option SignalTraceRecord) : bool :=
  match record with
  | Some record => bool_decide (exit_condition record = Some MATCHED)
  | None => false
  end.

Definition _stop_hit (position : _Position) (candle : Candle) (m : FillModel) : result bool :=
  match position_side position with
  | SHORT => a ← ask m (high candle); Ok (a >=? position_stop_price position)%dec
  | LONG => b ← bid m (low candle); Ok (b <=? position_stop_price position)%dec
  end.

Definition _stop_reference (position : _Position) (candle : Candle) (costs : _Costs) : result decimal :=
  match position_side position with
  | SHORT => r ← raw_for_ask (fill_model costs) (position_stop_price position); Ok (dmax (open candle) r)
  | LONG => r ← raw_for_bid (fill_model costs) (position_stop_price position); Ok (dmin (open candle) r)
  end.

Definition _taker_exit_quote (position : _Position) (reference : decimal) (costs : _Costs) : result FillQuote :=
  match position_side position with
  | SHORT => taker_buy (fill_model costs) reference (slippage_bps costs)
  | LONG => taker_sell (fill_model costs) reference (slippage_bps costs)
  end.

(** The result of an exit check: the book, the trade if one closed, and the cash. *)
Notation exit_result := (result (_Book * option BacktestTrade * decimal)).

(** A marketable close at [reference]: the shared tail of every taker exit. *)
Definition taker_close (book : _Book) (position : _Position) (candle : Candle) (reference : decimal)
    (why : BacktestExitReason) (costs : _Costs) (cash : decimal) (bar_duration : timedelta) : exit_result :=
  quote ← _taker_exit_quote position reference costs;
  closed ← _close_position position candle cash quote why (cost_taker_fee_rate costs) bar_duration;
  Ok (set_position book None, Some closed.1, closed.2).

Definition _stop_out (book : _Book) (candle : Candle) (costs : _Costs) (cash : decimal)
    (bar_duration : timedelta) : exit_result :=
  match position book with
  | None => Ok (book, None, cash)
  | Some position =>
      if negb (take_profit_resting position) then Ok (book, None, cash)
      else
        hit ← _stop_hit position candle (fill_model costs);
        if negb hit then Ok (book, None, cash)
        else reference ← _stop_reference position candle costs;
             taker_close book position candle reference stop_loss costs cash bar_duration
  end.

Definition _match_take_profit (book : _Book) (candle : Candle) (costs : _Costs) (cash : decimal)
    (bar_duration : timedelta) : exit_result :=
  match position book with
  | None => Ok (book, None, cash)
  | Some position =>
      if negb (take_profit_resting position) then Ok (book, None, cash)
      else match position_target_price position with
      | None => Ok (book, None, cash)
      | Some target =>
          hit ← maker_touched (high candle) (low candle) target
                  (is_short (position_side position)) (execution_stress costs);
          if negb hit then Ok (book, None, cash)
          else
            closed ← _close_position position candle cash (maker target) take_profit_
                       (cost_maker_fee_rate costs) bar_duration;
            Ok (set_position book None, Some closed.1, closed.2)
      end
  end.

Definition rest_take_profit (p : _Position) : _Position :=
  mk_position (position_entry p) (position_stop_price p) (position_target_price p) (entered_bar_index p)
    true (trail_extreme p) (position_side p) (add_count p) (unit_fee p) (funding p).

Definition _manage_position (book : _Book) (candle : Candle) (offset : Z) (strategy : StrategyDefinition)
    (costs : _Costs) (cash : decimal) (bar_duration : timedelta) : exit_result :=
  match position book with
  | None => Ok (book, None, cash)
  | Some position =>
      hit ← _stop_hit position candle (fill_model costs);
      if (hit : bool) then
        reference ← _stop_reference position candle costs;
        taker_close book position candle reference stop_loss costs cash bar_duration
      else
        let is_fill_bar := offset =? entered_bar_index position in
        let record := records book !! starts_at candle in
        position ← _trail_position position candle strategy record is_fill_bar;
        if negb is_fill_bar && _signal_exit_matched record then
          taker_close book position candle (close candle) signal costs cash bar_duration
        else if max_bars_held (exits strategy) <=? offset - entered_bar_index position then
          taker_close book position candle (close candle) time_exit costs cash bar_duration
        else Ok (set_position book (Some (rest_take_profit position)), None, cash)
  end.

(** ** Futures rules ([kernel_futures.py]) *)

Definition _in_expiry_window (costs : _Costs) (instant : datetime) : bool :=
  match futures costs with
  | Some terms => match flatten_at terms with Some f => f <=? instant | None => false end
  | None => false
  end.

Definition _flatten_for_expiry (book : _Book) (candle : Candle) (costs : _Costs) (cash : decimal)
    (bar_duration : timedelta) (t : _Tally) : result (_Book * option BacktestTrade * decimal * _Tally) :=
  let '(book, t) := match pending book with
                    | Some _ => (set_pending book None, expired t)
                    | None => (book, t)
                    end in
  match position book with
  | None => Ok (book, None, cash, t)
  | Some position =>
      r ← taker_close book position candle (open candle) expiry costs cash bar_duration;
      Ok (r, t)
  end.

(** [-quantity if short else quantity] *)
Definition signed_quantity (side : PositionSide) (quantity : decimal) : decimal :=
  match side with SHORT => (- quantity)%dec | LONG => quantity end.

Definition _liquidate (book : _Book) (candle : Candle) (costs : _Costs) (cash : decimal)
    (bar_duration : timedelta) : exit_result :=
  match futures costs, position book with
  | Some terms, Some position =>
      let side := position_side position in
      let adverse := match side with SHORT => high candle | LONG => low candle end in
      let quantity := fill_quantity (position_entry position) in
      m ← mark (fill_model costs) adverse side;
      let equity := (cash + signed_quantity side quantity * m)%dec in
      if (equity >=? maintenance (margin terms) quantity adverse side)%dec then Ok (book, None, cash)
      else taker_close book position candle adverse liquidation costs cash bar_duration
  | _, _ => Ok (book, None, cash)
  end.

Definition _funding_rate (terms : _FuturesTerms) (hour_ : datetime) : result decimal :=
  match constant_funding_rate terms with
  | Some r => Ok r
  | None =>
      match funding_rates terms with
      | Some rates =>
          match rates !! hour_ with
          | Some r => Ok r
          | None => Raise (BacktestSimulationError "FUNDING_HISTORY_MISSING")
          end
      | None => Raise (BacktestSimulationError "FUNDING_HISTORY_MISSING")
      end
  end.

Definition _charge_funding (book : _Book) (candle : Candle) (costs : _Costs) (cash : decimal)
    (bar_duration : timedelta) : result (_Book * decimal) :=
  match futures costs, position book with
  | Some terms, Some position =>
      if negb (perpetual terms) then Ok (book, cash)
      else match funding_hours (starts_at candle) (starts_at candle + bar_duration) with
      | [] => Ok (book, cash)
      | hours =>
          let signed := signed_quantity (position_side position) (fill_quantity (position_entry position)) in
          total ← foldM (λ acc h, r ← _funding_rate terms h; Ok (acc + signed * close candle * r)%dec) d0 hours;
          let flow := (- total)%dec in
          let paid := default d0 (funding position) in
          Ok (set_position book (Some
                (mk_position (position_entry position) (position_stop_price position)
                   (position_target_price position) (entered_bar_index position)
                   (take_profit_resting position) (trail_extreme position) (position_side position)
                   (add_count position) (unit_fee position) (Some (paid + flow)%dec))),
              (cash + flow)%dec)
      end
  | _, _ => Ok (book, cash)
  end.

(** The cash argument is the flat book's equity. *)
Definition _size_contracts (terms : _FuturesTerms) (strategy : StrategyDefinition) (cash : decimal)
    (side : PositionSide) (limit requested_notional maker_fee : decimal)
    : result (skippable (decimal * bool)) :=
  size_contracts (margin terms) (sizing_limits strategy) cash side limit requested_notional maker_fee.

(** ** Entries ([kernel_entries.py]) *)

Definition _CASH_CAP_HEADROOM : decimal := Dec 1 (-12).

Record _SizedNotional := { sized_notional : decimal; capped : bool }.

Definition _bounded_notional (strategy : StrategyDefinition) (cash stop_distance limit maker_fee : decimal)
    : result (skippable _SizedNotional) :=
  risk_quantity ← div (cash * risk_fraction (sizing strategy))%dec stop_distance;
  adjusted ← div cash (d1 + maker_fee)%dec;
  let maximum_notional :=
    dmin (dmin (max_quote_notional (sizing strategy))
            (cash * max_strategy_exposure_fraction (portfolio_limits strategy))%dec)
      (adjusted * (d1 - _CASH_CAP_HEADROOM))%dec in
  let requested := (risk_quantity * limit)%dec in
  let notional := dmin requested maximum_notional in
  if (notional <? min_quote_notional (sizing strategy))%dec then Ok (Skip NOTIONAL_BELOW_MINIMUM)
  else Ok (Sized {| sized_notional := notional; capped := (requested >? maximum_notional)%dec |}).

Definition _size_entry (signal_ : SignalTraceRecord) (strategy : StrategyDefinition) (cash limit maker_fee : decimal)
    (terms : option _FuturesTerms) : result (skippable _PendingEntry) :=
  atr ← _indicator_value signal_ (atr_indicator (initial_stop (exits strategy)));
  let stop_distance := (atr * multiple (initial_stop (exits strategy)))%dec in
  let side := side (entry strategy) in
  levels ← entry_levels side limit stop_distance (reward_risk_multiple (exits strategy)) None;
  match levels with
  | Skip why => Ok (Skip why)
  | Sized levels =>
      allowed ← target_guard_allows (economic_guard (entry strategy)) side limit
                  (target_price levels) maker_fee;
      if negb allowed then Ok (Skip NET_TARGET_BELOW_MINIMUM)
      else
        sized ← match terms with
          | Some terms =>
              r ← div (cash * risk_fraction (sizing strategy))%dec stop_distance;
              _size_contracts terms strategy cash side limit (r * limit)%dec maker_fee
          | None =>
              sized ← _bounded_notional strategy cash stop_distance limit maker_fee;
              match sized with
              | Skip why => Ok (Skip why)
              | Sized s => q ← div (sized_notional s) limit; Ok (Sized (q, capped s))
              end
          end;
        match sized with
        | Skip why => Ok (Skip why)
        | Sized (q, is_capped) =>
            Ok (Sized (mk_pending signal_ limit q (stop_price levels) (target_price levels) 0 side
                         false is_capped))
        end
  end.

Definition _size_pyramid_add (signal_ : SignalTraceRecord) (strategy : StrategyDefinition)
    (cash limit maker_fee : decimal) (position : _Position) : result (skippable _PendingEntry) :=
  let side := position_side position in
  allowed ← target_guard_allows (economic_guard (entry strategy)) side limit
              (position_target_price position) maker_fee;
  if negb allowed then Ok (Skip NET_TARGET_BELOW_MINIMUM)
  else
    let stop_distance := match side with
                         | LONG => (limit - position_stop_price position)%dec
                         | SHORT => (position_stop_price position - limit)%dec
                         end in
    if (limit <=? d0)%dec then Ok (Skip ENTRY_PRICE_NOT_POSITIVE)
    else if (stop_distance <=? d0)%dec then Ok (Skip STOP_DISTANCE_NOT_POSITIVE)
    else if (cash <=? d0)%dec then Ok (Skip INSUFFICIENT_CASH)
    else
      sized ← _bounded_notional strategy cash stop_distance limit maker_fee;
      match sized with
      | Skip why => Ok (Skip why)
      | Sized s =>
          q ← div (sized_notional s) limit;
          Ok (Sized (mk_pending signal_ limit q (position_stop_price position)
                       (position_target_price position) 0 side true (capped s)))
      end.

Definition _entry_gate (book : _Book) (strategy : StrategyDefinition) (limit : decimal)
    (may_open_book expiry_window : bool) : option BacktestGateReason :=
  if expiry_window then Some EXPIRY_WINDOW
  else match pending book with
  | Some _ => Some PENDING_ENTRY
  | None =>
      if 0 <? book_cooldown book then Some COOLDOWN
      else match position book with
      | None => if may_open_book then None else Some MAX_POSITIONS
      | Some position =>
          if can_pyramid_add strategy (position_side position) (fill_price (position_entry position))
               limit (add_count position)
          then None else Some IN_POSITION
      end
  end.

Definition _maybe_rest_entry (book : _Book) (record : SignalTraceRecord) (strategy : StrategyDefinition)
    (costs : _Costs) (cash limit : decimal) (may_open_book expiry_window : bool) (t : _Tally)
    : result (_Book * _Tally) :=
  match entry_condition record with
  | UNDEFINED => Ok (book, warmed t)
  | NOT_MATCHED => Ok (book, t)
  | MATCHED =>
      let t := matched t in
      match _entry_gate book strategy limit may_open_book expiry_window with
      | Some gate => Ok (book, skip (Gate gate) t)
      | None =>
          sized ← match position book with
            | None => _size_entry record strategy cash limit (cost_maker_fee_rate costs) (futures costs)
            | Some position =>
                _size_pyramid_add record strategy cash limit (cost_maker_fee_rate costs) position
            end;
          match sized with
          | Skip why => Ok (book, skip (EntrySkip why) t)
          | Sized p => Ok (set_pending book (Some p), rested p t)
          end
      end
  end.

Definition with_waited (p : _PendingEntry) (waited : Z) : _PendingEntry :=
  mk_pending (pending_signal p) (limit_price p) (pending_quantity p) (pending_stop_price p)
    (pending_target_price p) waited (pending_side p) (is_pyramid_add p) (size_capped p).

Definition with_limit (p : _PendingEntry) (limit : decimal) (waited : Z) : _PendingEntry :=
  mk_pending (pending_signal p) limit (pending_quantity p) (pending_stop_price p)
    (pending_target_price p) waited (pending_side p) (is_pyramid_add p) (size_capped p).

Definition with_quantity (p : _PendingEntry) (q : decimal) : _PendingEntry :=
  mk_pending (pending_signal p) (limit_price p) q (pending_stop_price p)
    (pending_target_price p) (waited_bars p) (pending_side p) (is_pyramid_add p) (size_capped p).

(** Drop the resting entry and start at least one bar of cooldown. *)
Definition expire_entry (book : _Book) (strategy : StrategyDefinition) : _Book :=
  set_cooldown (set_pending book None) (Z.max (cooldown_bars (entry strategy)) 1).

Definition _match_entry (book : _Book) (candle : Candle) (offset : Z) (strategy : StrategyDefinition)
    (costs : _Costs) (cash : decimal) (t : _Tally) : result (_Book * decimal * _Tally) :=
  match pending book with
  | None => Ok (book, cash, t)
  | Some p =>
      if bool_decide (is_Some (position book)) && negb (is_pyramid_add p) then Ok (book, cash, t)
      else
        let latency := match execution_stress costs with None => 0 | Some s => entry_latency_bars s end in
        if waited_bars p <? latency
        then Ok (set_pending book (Some (with_waited p (waited_bars p + 1))), cash, t)
        else
          traded_through ← maker_touched (high candle) (low candle) (limit_price p)
                             (negb (is_short (pending_side p))) (execution_stress costs);
          if (traded_through : bool) then
            let p := match execution_stress costs with
                     | None => p
                     | Some s => with_quantity p (pending_quantity p * entry_fill_fraction s)%dec
                     end in
            _fill_resting_entry (set_pending book None) p candle offset costs cash t
          else
            let waited := waited_bars p + 1 in
            if waited - latency <? max_entry_wait_bars (execution strategy)
            then Ok (set_pending book (Some (with_waited p waited)), cash, t)
            else match on_unfilled_entry (execution strategy) with
            | reprice =>
                allowed ← target_guard_allows (economic_guard (entry strategy)) (pending_side p)
                            (close candle) (pending_target_price p) (cost_maker_fee_rate costs);
                if negb allowed then Ok (expire_entry book strategy, cash, expired t)
                else Ok (set_pending book (Some (with_limit p (close candle) latency)), cash, repriced t)
            | cancel => Ok (expire_entry book strategy, cash, expired t)
            end
  end.

(** ** One bar of one book ([kernel.py]) *)

Definition _record_close (book : _Book) (trade : option BacktestTrade) (strategy : StrategyDefinition)
    (trades : list BacktestTrade) (t : _Tally) : _Book * list BacktestTrade * _Tally :=
  match trade with
  | None => (book, trades, t)
  | Some trade => (set_cooldown book (cooldown_bars (entry strategy)), trades ++ [trade], closed trade t)
  end.

(** [if trade is None: trade, cash = check(...)] *)
Definition or_else (r : exit_result) (check : _Book -> decimal -> exit_result) : exit_result :=
  x ← r;
  let '(book, trade, cash) := x in
  match trade with Some _ => Ok (book, trade, cash) | None => check book cash end.

Definition check_exits (book : _Book) (candle : Candle) (offset : Z) (strategy : StrategyDefinition)
    (costs : _Costs) (cash : decimal) (bar_duration : timedelta) : exit_result :=
  or_else (or_else (or_else
    (_liquidate book candle costs cash bar_duration)
    (λ book cash, _stop_out book candle costs cash bar_duration))
    (λ book cash, _match_take_profit book candle costs cash bar_duration))
    (λ book cash, _manage_position book candle offset strategy costs cash bar_duration).

Definition cool_down (book : _Book) : _Book :=
  if 0 <? book_cooldown book then set_cooldown book (book_cooldown book - 1) else book.

Definition _process_bar (book : _Book) (candle : Candle) (offset : Z) (strategy : StrategyDefinition)
    (costs : _Costs) (cash : decimal) (bar_duration : timedelta) (trades : list BacktestTrade) (t : _Tally)
    : result (_Book * decimal * list BacktestTrade * _Tally) :=
  let book := cool_down book in
  if _in_expiry_window costs (starts_at candle) then
    r ← _flatten_for_expiry book candle costs cash bar_duration t;
    let '(book, trade, cash, t) := r in
    let '(book, trades, t) := _record_close book trade strategy trades t in
    Ok (book, cash, trades, t)
  else
    m ← _match_entry book candle offset strategy costs cash t;
    let '(book, cash, t) := m in
    x ← check_exits book candle offset strategy costs cash bar_duration;
    let '(book, trade, cash) := x in
    let '(book, trades, t) := _record_close book trade strategy trades t in
    f ← _charge_funding book candle costs cash bar_duration;
    Ok (f.1, f.2, trades, t).

End Kernel.
