(* ===== verification/KernelRun.v ===== *)
(** * KernelRun: the simulation of a whole run

    [backtest/kernel_bars.py] (the bar grid), [backtest/kernel_results.py] (equity points and
    the summary), [backtest/research_validity.py] and [_simulate_books] of
    [backtest/kernel.py]: every product book on each shared bar in lockstep order, one quote
    balance, then the terminal liquidation. *)

From S2P Require Import Prelude Decimals DecimalFacts DecimalText Market Geometry.
From S2P Require Import IndicatorSpec Conditions Strategy Sizing Broker KernelState Kernel.

Open Scope Z_scope.

(** ** The run specification *)

(** The fields of [ResearchRunSpecification] the simulation reads. *)
Record ResearchRunSpecification := {
  evaluation_starts_at : datetime;
  evaluation_ends_at : datetime;
  warmup_starts_at : datetime;
  warmup_window_bars : Z;
  initial_quote_balance : decimal;
  spec_maker_fee_rate : decimal;
  spec_taker_fee_rate : decimal;
  spec_slippage_bps : decimal;
  spec_spread_bps : decimal;
  spec_execution_stress : option ExecutionStress
}.

(** The bounds [CapitalAssumptions] and [CostAssumptions] validate. *)
Definition valid_costs (s : ResearchRunSpecification) : bool :=
  ((d0 <? initial_quote_balance s) &&
   (d0 <=? spec_maker_fee_rate s) && (spec_maker_fee_rate s <=? spec_taker_fee_rate s) &&
   (spec_taker_fee_rate s <=? Dec 1 (-1)) &&
   (d0 <=? spec_slippage_bps s) && (spec_slippage_bps s <=? of_Z 1000) &&
   (d0 <=? spec_spread_bps s) && (spec_spread_bps s <=? of_Z 1000))%dec &&
  match spec_execution_stress s with Some x => valid_stress x | None => true end.

(** [for interval in CandleInterval], in declaration order. *)
Definition all_intervals : list CandleInterval :=
  [ONE_HOUR; FIVE_MINUTES; FIFTEEN_MINUTES; THIRTY_MINUTES; SIX_HOURS; ONE_DAY; ONE_MINUTE;
   TWO_HOURS; FOUR_HOURS].

(** [specification_bar_interval]; every member is a supported execution clock. *)
Definition specification_bar_interval (s : ResearchRunSpecification) : result CandleInterval :=
  let span := evaluation_starts_at s - warmup_starts_at s in
  (fix scan (l : list CandleInterval) : result CandleInterval :=
    match l with
    | [] => Raise (ValueError "warmup starts_at must equal evaluation starts_at minus the declared warmup bars")
    | i :: rest =>
        if negb (span =? duration i * warmup_window_bars s) then scan rest
        else
          _ ← foldM (λ _ stamp,
                aligned ← align_closed_end i stamp;
                guard_or (aligned =? stamp)
                  (ValueError "warmup and evaluation bounds must align to the inferred candle interval"))
              tt [warmup_starts_at s; evaluation_starts_at s; evaluation_ends_at s];
          Ok i
    end) all_intervals.

(** ** The bar grid ([kernel_bars.py]) *)

Definition _bar_interval (s : ResearchRunSpecification) (strategy : StrategyDefinition) : result CandleInterval :=
  strategy_interval ← parse_candle_interval (timeframe strategy);
  spec_interval ← specification_bar_interval s;
  _ ← guard_or (bool_decide (strategy_interval = spec_interval))
        (BacktestSimulationError "Backtest timeframe does not match the strategy and run windows.");
  let span := evaluation_ends_at s - evaluation_starts_at s in
  _ ← guard_or (negb ((span <? duration strategy_interval) || negb (span mod duration strategy_interval =? 0)))
        (BacktestSimulationError "Backtest evaluation window is not a positive multiple of the strategy timeframe.");
  Ok strategy_interval.

(** [except CandleQualityError]: the candle checks surface as a simulation error. *)
Definition as_simulation_error {A} (message : string) (r : result A) : result A :=
  match r with Raise (CandleQualityError _) => Raise (BacktestSimulationError message) | _ => r end.

(** [{candle.starts_at: candle for candle in selected}]: a later duplicate wins. *)
Definition index_by_start (l : list Candle) : gmap datetime Candle :=
  fold_left (λ m c, <[starts_at c := c]> m) l ∅.

Definition expected_starts (start : datetime) (bar : timedelta) (count : Z) : list datetime :=
  (λ k, start + bar * Z.of_nat k) <$> seq 0 (Z.to_nat count).

Definition _candle_map (s : ResearchRunSpecification) (candles : list Candle) (i : CandleInterval)
    : result (gmap datetime Candle) :=
  let start := warmup_starts_at s in
  let bar := duration i in
  let end_ := evaluation_ends_at s + bar in
  let selected := List.filter (λ c, (start <=? starts_at c) && (starts_at c <? end_)) candles in
  _ ← as_simulation_error "Backtest candles have invalid timestamps or values."
        (foldM (λ _ c, validate_candle_values c) tt selected);
  let expected_count := Z.quot (end_ - start) bar in
  let mapped := index_by_start selected in
  _ ← guard_or (Z.of_nat (length selected) =? expected_count)
        (BacktestSimulationError "Backtest candle coverage is incomplete or duplicated.");
  _ ← guard_or (Z.of_nat (size mapped) =? expected_count)
        (BacktestSimulationError "Backtest candle coverage is duplicated.");
  _ ← foldM (λ _ t,
        guard_or (match mapped !! t with
                  | Some c => negb ((open c <=? d0) || (high c <? low c))%dec
                  | None => false
                  end) (BacktestSimulationError "Backtest candles are not valid contiguous OHLC bars."))
      tt (expected_starts start bar expected_count);
  Ok mapped.

(** ** Results ([kernel_results.py]) *)

Record BacktestSummary := {
  initial_equity : decimal;
  final_equity : decimal;
  total_net_pnl : decimal;
  total_return_fraction : decimal;
  gross_profit : decimal;
  gross_loss : decimal;
  win_rate : decimal;
  profit_factor : option decimal;
  average_win : option decimal;
  average_loss : option decimal;
  trade_count : Z;
  winning_trade_count : Z;
  maximum_drawdown : decimal;
  maximum_drawdown_fraction : decimal;
  exposure_bars : Z;
  evaluation_bars : Z;
  total_spread_cost : option decimal;
  validity_limits : list string;
  total_funding : option decimal
}.

Record BacktestResult := {
  trades : list BacktestTrade;
  equity_curve : list EquityPoint;
  summary : BacktestSummary
}.

Section Run.
Context {dc : DecimalContext}.

Definition _signed_quantity (position : _Position) : decimal :=
  signed_quantity (position_side position) (fill_quantity (position_entry position)).

(** The loop over [books] accumulates the equity, the open books with their marks, and the
    first book's mark. *)
Definition _equity_point (starts : datetime) (cash : decimal) (books : list _Book) (m : FillModel)
    (use_open : bool) : result EquityPoint :=
  r ← foldM (λ acc book,
        let '(index, equity, open_books, first_mark) := acc in
        candle ← dict_get (candle_by_start book) starts;
        let raw := if use_open : bool then open candle else close candle in
        mark_ ← match position book with
                | None => Ok raw
                | Some position => mark m raw (position_side position)
                end;
        let first_mark := if index =? 0 then mark_ else first_mark in
        Ok match position book with
           | None => (index + 1, equity, open_books, first_mark)
           | Some position =>
               (index + 1, (equity + _signed_quantity position * mark_)%dec,
                open_books ++ [(position, mark_)], first_mark)
           end) (0, cash, [], d0) books;
  let '(_, equity, open_books, first_mark) := r in
  let '(base, mark_) := match open_books with
                        | [(position, mark_)] => (_signed_quantity position, mark_)
                        | _ => (d0, first_mark)
                        end in
  cash ← result_decimal cash;
  base ← result_decimal base;
  mark_ ← result_decimal mark_;
  equity ← result_decimal equity;
  Ok {| point_starts_at := starts; point_cash := cash; base_quantity := base;
        mark_price := mark_; KernelState.equity := equity |}.

(** Peak, maximum drawdown and maximum drawdown fraction, in one pass over the curve. *)
Definition drawdown_step (acc : decimal * decimal * decimal) (point : EquityPoint)
    : result (decimal * decimal * decimal) :=
  let '(peak, maximum, fraction) := acc in
  let equity := KernelState.equity point in
  let peak := dmax peak equity in
  let drawdown := (peak - equity)%dec in
  ratio ← div drawdown peak;
  Ok (peak, dmax maximum drawdown, dmax fraction ratio).

Definition drawdowns (initial : decimal) (curve : list EquityPoint) : result (decimal * decimal * decimal) :=
  foldM drawdown_step (initial, d0, d0) curve.

(** [spread_cost or "0"] of both fills of every trade, times their quantities. *)
Definition spread_cost_total (trades : list BacktestTrade) : decimal :=
  dsum (concat (map (λ t,
    map (λ fill, (default d0 (fill_spread_cost fill) * fill_quantity fill)%dec)
      [trade_entry t; exit_fill (trade_exit t)]) trades)).

(** [canonical_decimal(numerator / denominator)] when the condition holds, else [None]. *)
Definition ratio_text (numerator denominator : decimal) : result (option decimal) :=
  q ← div numerator denominator; c ← result_decimal q; Ok (Some c).

Definition Zlen {A} (l : list A) : Z := Z.of_nat (length l).

Definition _summary (initial_cash final_cash : decimal) (trades : list BacktestTrade)
    (curve : list EquityPoint) (include_spread_cost : bool) (bars : Z) (include_funding : bool)
    (limits : list string) : result BacktestSummary :=
  dd ← drawdowns initial_cash curve;
  let '(_, max_drawdown, max_fraction) := dd in
  let net_pnls := map net_pnl trades in
  let wins := List.filter (λ p, (p >? d0)%dec) net_pnls in
  let losses := List.filter (λ p, (p <? d0)%dec) net_pnls in
  let gross_profit := dsum wins in
  let gross_loss := (- dsum losses)%dec in
  let trade_count := Zlen trades in
  total_return ← div (final_cash - initial_cash)%dec initial_cash;
  win_rate ← (if trade_count =? 0 then Ok d0
              else q ← div (of_Z (Zlen wins)) (of_Z trade_count); result_decimal q);
  initial ← result_decimal initial_cash;
  final ← result_decimal final_cash;
  net ← result_decimal (final_cash - initial_cash)%dec;
  total_return ← result_decimal total_return;
  profit ← result_decimal gross_profit;
  loss ← result_decimal gross_loss;
  factor ← (if (gross_loss =? d0)%dec then Ok None else ratio_text gross_profit gross_loss);
  avg_win ← (if Zlen wins =? 0 then Ok None else ratio_text gross_profit (of_Z (Zlen wins)));
  avg_loss ← (if Zlen losses =? 0 then Ok None else ratio_text gross_loss (of_Z (Zlen losses)));
  drawdown ← result_decimal max_drawdown;
  fraction ← result_decimal max_fraction;
  spread ← (if include_spread_cost then text_option (Some (spread_cost_total trades)) else Ok None);
  paid ← (if include_funding
          then text_option (Some (dsum (map (λ t, default d0 (trade_funding t)) trades))) else Ok None);
  Ok {| initial_equity := initial; final_equity := final; total_net_pnl := net;
        total_return_fraction := total_return; KernelRun.gross_profit := profit;
        KernelRun.gross_loss := loss; KernelRun.win_rate := win_rate; profit_factor := factor;
        average_win := avg_win; average_loss := avg_loss; KernelRun.trade_count := trade_count;
        winning_trade_count := Zlen wins; maximum_drawdown := drawdown;
        maximum_drawdown_fraction := fraction;
        exposure_bars := foldr Z.add 0 (map (λ t, Z.max 1 (holding_bars t)) trades);
        evaluation_bars := bars; total_spread_cost := spread; validity_limits := limits;
        total_funding := paid |}.

Definition _evaluated_no_trade_bars (books : list _Book) (start : datetime) (bar : timedelta) (n : nat)
    : result Z :=
  foldM (λ acc k,
    foldM (λ acc book,
      candle ← dict_get (candle_by_start book) (start + bar * Z.of_nat k);
      Ok (if is_no_trade_bar candle then acc + 1 else acc)) acc books) 0 (seq 0 n).

(** ** The loop ([_simulate_books]) *)

Record sim := mk_sim {
  sim_books : list _Book;
  sim_cash : decimal;
  sim_trades : list BacktestTrade;
  sim_tally : _Tally
}.

Definition open_count (books : list _Book) : Z := Zlen (List.filter is_open books).

(** One product on one bar: manage the book, then rest an entry on its signal. *)
Definition step_book (strategy : StrategyDefinition) (costs : _Costs) (bar : timedelta) (starts : datetime)
    (offset : Z) (s : sim) (index : nat) : result sim :=
  match sim_books s !! index with
  | None => Raise KeyError
  | Some book =>
      candle ← dict_get (candle_by_start book) starts;
      r ← _process_bar book candle offset strategy costs (sim_cash s) bar (sim_trades s) (sim_tally s);
      let '(book, cash, trades, t) := r in
      let books := <[index := book]> (sim_books s) in
      record ← dict_get (records book) starts;
      rest ← _maybe_rest_entry book record strategy costs cash (close candle)
               (open_count books <? max_concurrent_positions (portfolio_limits strategy))
               (_in_expiry_window costs (starts + bar)) t;
      let '(book, t) := rest in
      Ok (mk_sim (<[index := book]> books) cash trades t)
  end.

(** One shared bar: every book in lockstep order, then the equity point. *)
Definition step_bar (strategy : StrategyDefinition) (costs : _Costs) (bar : timedelta) (start : datetime)
    (acc : sim * list EquityPoint) (offset : nat) : result (sim * list EquityPoint) :=
  let '(s, curve) := acc in
  let starts := start + bar * Z.of_nat offset in
  s ← foldM (step_book strategy costs bar starts (Z.of_nat offset)) s (seq 0 (length (sim_books s)));
  point ← _equity_point starts (sim_cash s) (sim_books s) (fill_model costs) false;
  Ok (s, curve ++ [point]).

(** The terminal boundary: count unfilled entries, liquidate positions at the open. *)
Definition finish_book (costs : _Costs) (bar : timedelta) (ends : datetime) (s : sim) (index : nat)
    : result sim :=
  match sim_books s !! index with
  | None => Raise KeyError
  | Some book =>
      let t := match pending book with Some _ => unfilled (sim_tally s) | None => sim_tally s end in
      let book := set_pending book None in
      match position book with
      | None => Ok (mk_sim (<[index := book]> (sim_books s)) (sim_cash s) (sim_trades s) t)
      | Some position =>
          candle ← dict_get (candle_by_start book) ends;
          quote ← _taker_exit_quote position (open candle) costs;
          c ← _close_position position candle (sim_cash s) quote evaluation_end
                (cost_taker_fee_rate costs) bar;
          let '(trade, cash) := c in
          Ok (mk_sim (<[index := set_position book None]> (sim_books s)) cash
                (sim_trades s ++ [trade]) (closed trade t))
      end
  end.

Definition resolve_costs (spec : ResearchRunSpecification) (terms : option _FuturesTerms) : _Costs :=
  {| cost_maker_fee_rate := spec_maker_fee_rate spec; cost_taker_fee_rate := spec_taker_fee_rate spec;
     slippage_bps := spec_slippage_bps spec;
     fill_model := {| model_spread_bps := spec_spread_bps spec |};
     execution_stress := spec_execution_stress spec; futures := terms |}.

(** [_futures_validity_limits] *)
Definition _futures_validity_limits (terms : option _FuturesTerms) (bar : timedelta) : list string :=
  match terms with
  | None => []
  | Some t =>
      ["futures_constant_margin"; "futures_conservative_liquidation"; "futures_shared_usdc_collateral"] ++
      match constant_funding_rate t with Some _ => ["futures_constant_funding"] | None => [] end ++
      (if perpetual t && (hour <? bar) then ["futures_funding_at_bar_close"] else [])
  end.

Definition collect_backtest_validity_limits (strategy : StrategyDefinition) (stress : option ExecutionStress)
    (no_trade_bars : Z) (futures_limits : list string) : list string :=
  [match stress with None => "maker_touch_full_fill" | Some _ => "execution_stress" end;
   "stop_before_tp_same_bar"] ++
  (if is_short (side (entry strategy)) && negb (is_future (instrument strategy))
   then ["spot_short_synthetic"] else []) ++
  match signal_exit_condition (exits strategy) with Some _ => ["signal_exit_at_close"] | None => [] end ++
  (if 0 <? no_trade_bars then ["synthetic_no_trade_bars"] else []) ++ futures_limits.

(** The loop proper: every evaluation bar, then the terminal boundary. *)
Definition run_bars (strategy : StrategyDefinition) (costs : _Costs) (bar : timedelta) (start : datetime)
    (s : sim) (n : nat) : result (sim * list EquityPoint) :=
  foldM (step_bar strategy costs bar start) (s, []) (seq 0 n).

Definition finish_run (costs : _Costs) (bar : timedelta) (ends : datetime) (s : sim) : result sim :=
  foldM (finish_book costs bar ends) s (seq 0 (length (sim_books s))).

Definition _simulate_books (spec : ResearchRunSpecification) (strategy : StrategyDefinition)
    (candles_by_product : gmap string (list Candle)) (traces : gmap string (list SignalTraceRecord))
    (terms : option _FuturesTerms) : result (BacktestResult * BacktestDiagnostics) :=
  interval ← _bar_interval spec strategy;
  let bar := duration interval in
  books ← result_mapM (λ id,
    match candles_by_product !! id, traces !! id with
    | Some candles, Some records_ =>
        m ← _candle_map spec candles interval;
        Ok (mk_book id m (fold_left (λ acc r, <[record_starts_at r := r]> acc) records_ ∅) None None 0)
    | _, _ => Raise KeyError
    end) (lockstep_product_ids strategy);
  let costs := resolve_costs spec terms in
  let initial_cash := initial_quote_balance spec in
  let bars := Z.quot (evaluation_ends_at spec - evaluation_starts_at spec) bar in
  r ← run_bars strategy costs bar (evaluation_starts_at spec) (mk_sim books initial_cash [] empty_tally)
        (Z.to_nat bars);
  let '(s, curve) := r in
  s ← finish_run costs bar (evaluation_ends_at spec) s;
  point ← _equity_point (evaluation_ends_at spec) (sim_cash s) (sim_books s) (fill_model costs) true;
  let curve := curve ++ [point] in
  no_trade ← _evaluated_no_trade_bars (sim_books s) (evaluation_starts_at spec) bar (Z.to_nat bars);
  summary ← _summary initial_cash (sim_cash s) (sim_trades s) curve (spread_stressed (fill_model costs)) bars
              match terms with Some t => perpetual t | None => false end
              (collect_backtest_validity_limits strategy (execution_stress costs) no_trade
                 (_futures_validity_limits terms bar));
  d ← diagnostics (sim_tally s);
  Ok ({| trades := sim_trades s; equity_curve := curve; KernelRun.summary := summary |}, d).

End Run.

(** [with localcontext(_SIMULATION_CONTEXT)], and the error translation of
    [simulate_backtest_with_diagnostics]: decimal and value errors become one simulation error,
    a [KeyError] passes. *)
Definition simulate_books spec strategy candles_by_product traces terms
    : result (BacktestResult * BacktestDiagnostics) :=
  match @_simulate_books simulation_context spec strategy candles_by_product traces terms with
  | Ok r => Ok r
  | Raise (BacktestSimulationError m) => Raise (BacktestSimulationError m)
  | Raise KeyError => Raise KeyError
  | Raise _ => Raise (BacktestSimulationError
      "Backtest arithmetic failed under the deterministic Decimal contract.")
  end.
