(* ===== verification/SignalTrace.v ===== *)
(** * SignalTrace: the signal evaluator ([evaluation/signal_evaluator.py])

    [evaluate_signal_trace] turns one instrument's bars, the bars of every coarser clock and of
    every reference instrument into one record per evaluation bar. The run's identity checks,
    the selection of exact bars, the indicator rows of each clock, the overlay of last completed
    values onto a decision close, the higher-timeframe filter and the record loop are modelled
    in the order the source runs them. The two fingerprints are digests of serialised documents
    and are functions given to the evaluator. Documents and specifications are validated values,
    so validating them again returns them. *)

From S2P Require Import Prelude Decimals DecimalFacts DecimalText Market IndicatorSpec Conditions.
From S2P Require Import Convergence Strategy Alignment Series IndicatorMath Indicators.
From S2P Require Import KernelState KernelRun.

Open Scope Z_scope.

(** ** The identity of a run ([evaluation/models.py]) *)

Record IndicatorTimeframeDataset := { extra_timeframe : string; extra_fingerprint : string }.

Record ReferenceInstrumentDataset := {
  bound_reference_id : string;
  bound_product_id : string;
  bound_timeframe : string;
  reference_fingerprint : string
}.

(** A [ResearchRunSpecification] with the datasets it is bound to. *)
Record BoundSpecification := {
  run :> ResearchRunSpecification;
  spec_strategy_fingerprint : string;
  dataset_fingerprint : string;
  htf_dataset_fingerprint : option string;
  indicator_dataset_fingerprints : list IndicatorTimeframeDataset;
  reference_dataset_fingerprints : list ReferenceInstrumentDataset
}.

Record SignalTrace := {
  run_fingerprint : string;
  trace_strategy_fingerprint : string;
  trace_dataset_fingerprint : string;
  indicator_ids : list string;
  trace_records : list SignalTraceRecord
}.

(** ** Bars *)

Definition _within_decimal_contract (value : decimal) : bool :=
  let adjusted := digits (coef value) + exponent value - 1 in
  (digits (coef value) <=? 64) && (-6143 <=? adjusted) && (adjusted <=? 6144).

Definition _invalid_ohlc_geometry (c : Candle) : bool :=
  ((open c <=? d0) || (high c <=? d0) || (low c <=? d0) || (close c <=? d0)
   || ((low c >? high c) || (volume c <? d0))
   || ((open c <? low c) || (open c >? high c))
   || ((close c <? low c) || (close c >? high c)))%dec.

Definition _require_ohlcv_contract (c : Candle) : result unit :=
  if existsb (λ value, negb (_within_decimal_contract value)) [open c; high c; low c; close c; volume c]
  then Raise (SignalEvaluationError "Signal evaluation candles violate OHLCV Decimal limits.")
  else if _invalid_ohlc_geometry c
  then Raise (SignalEvaluationError "Signal evaluation candles violate OHLCV invariants.")
  else Ok tt.

(** Timestamps are timezone-aware UTC instants, so only the range test is left. *)
Definition _select_window_candles (s : ResearchRunSpecification) (candles : list Candle) : list Candle :=
  List.filter (λ c, (warmup_starts_at s <=? starts_at c) && (starts_at c <? evaluation_ends_at s)) candles.

(** [for index, candle in enumerate(selected)]: the exact grid, each bar within contract. *)
Fixpoint require_contiguous (start bar : Z) (index : Z) (selected : list Candle) : result unit :=
  match selected with
  | [] => Ok tt
  | c :: rest =>
      _ ← guard_or (starts_at c =? start + bar * index)
            (SignalEvaluationError "Signal evaluation candles are not contiguous UTC bars.");
      _ ← _require_ohlcv_contract c;
      require_contiguous start bar (index + 1) rest
  end.

Definition _required_candles (s : ResearchRunSpecification) (candles : list Candle) : result (list Candle) :=
  let selected := _select_window_candles s candles in
  interval ← specification_bar_interval s;
  let bar := duration interval in
  let expected_count := warmup_window_bars s + Z.quot (evaluation_ends_at s - evaluation_starts_at s) bar in
  _ ← guard_or (Zlen selected =? expected_count)
        (SignalEvaluationError "Signal evaluation candle coverage is incomplete or duplicated.");
  _ ← require_contiguous (warmup_starts_at s) bar 0 selected;
  Ok selected.

(** [except ValueError]: a duplicate timestamp surfaces as an evaluation error. *)
Definition _required_htf_candles (expected_starts : list datetime) (candles : list Candle) : result (list Candle) :=
  by_start ← match index_candles_by_start candles with
             | Raise (ValueError message) => Raise (SignalEvaluationError message)
             | r => r
             end;
  result_mapM (λ start,
    match by_start !! start with
    | None => Raise (SignalEvaluationError "HTF candle coverage is incomplete or not contiguous.")
    | Some candle => _ ← _require_ohlcv_contract candle; Ok candle
    end) expected_starts.

(** ** Indicator rows of each clock *)

(** [except (DecimalException, IndicatorCalculationError)] *)
Definition as_signal_error {A} (message : string) (r : result A) : result A :=
  match r with
  | Raise (DivisionByZero | InvalidOperation | IndicatorCalculationError) => Raise (SignalEvaluationError message)
  | _ => r
  end.

(** [calculate_indicator_rows] in the engine context, with its error translation. *)
Definition signal_rows (message : string) (d : StrategyDefinition) (indicators : list IndicatorDefinition)
    (candles : list Candle) : result (list values) :=
  as_signal_error message
    (calculate_indicator_rows (dc := simulation_context) indicators candles (strategy_indicator_operands d)).

Abbreviation row_map := (gmap datetime values).

(** [{candle.starts_at: values for candle, values in zip(selected, computed, strict=True)}] *)
Definition index_rows (selected : list Candle) (computed : list values) : result row_map :=
  pairs ← zip_strict selected computed;
  Ok (fold_left (λ m '(c, row), <[starts_at c := row]> m) pairs (∅ : row_map)).

Definition calculate_htf_indicator_rows (d : StrategyDefinition) (htf_candles : list Candle)
    (starts ends : datetime) : result row_map :=
  match htf_filter d with
  | None =>
      match htf_candles with
      | _ :: _ => Raise (SignalEvaluationError "HTF candles were supplied without an HTF filter.")
      | [] => Ok ∅
      end
  | Some f =>
      match htf_candles with
      | [] => Raise (SignalEvaluationError "HTF candles are required for an HTF-filter strategy.")
      | _ =>
          expected ← htf_candle_starts starts ends f;
          selected ← _required_htf_candles expected htf_candles;
          rows ← signal_rows "HTF indicator calculation failed under the deterministic Decimal contract."
                   d (htf_indicators f) selected;
          index_rows selected rows
      end
  end.

Definition group_warmup (d : StrategyDefinition) (indicators : list IndicatorDefinition) : result nat :=
  extra_indicator_timeframe_warmup indicators (strategy_indicator_operands d)
    (convergence_policy (data_requirements d)).

(** The candles a group of one extra clock reads: its own, or the filter's on the filter's clock. *)
Definition extra_clock_candles (d : StrategyDefinition) (extra : gmap string (list Candle))
    (htf_candles : list Candle) (timeframe : string) : list Candle :=
  match extra !! timeframe with
  | Some candles => candles
  | None => if bool_decide (Some timeframe = htf_timeframe <$> htf_filter d) then htf_candles else []
  end.

Definition extra_group_rows (d : StrategyDefinition) (extra : gmap string (list Candle)) (htf_candles : list Candle)
    (starts ends : datetime) (group : string * list IndicatorDefinition) : result (string * row_map) :=
  let '(timeframe, indicators) := group in
  match extra_clock_candles d extra htf_candles timeframe with
  | [] => Raise (SignalEvaluationError ("Candles are required for indicator timeframe " +:+ timeframe))
  | candles =>
      warmup ← group_warmup d indicators;
      expected ← closed_bar_starts starts ends timeframe warmup;
      selected ← _required_htf_candles expected candles;
      computed ← signal_rows "Indicator-timeframe calculation failed under the deterministic Decimal contract."
                   d indicators selected;
      rows ← index_rows selected computed;
      Ok (timeframe, rows)
  end.

(** A dict in the order its keys were written. *)
Definition calculate_extra_indicator_rows (d : StrategyDefinition) (extra : gmap string (list Candle))
    (htf_candles : list Candle) (starts ends : datetime) : result (list (string * row_map)) :=
  result_mapM (extra_group_rows d extra htf_candles starts ends) (extra_indicator_timeframe_groups d).

Definition reference_label (r : ReferenceInstrument) : string :=
  (reference_id r +:+ " (" +:+ reference_product_id r +:+ " " +:+ reference_timeframe r +:+ ")")%string.

Definition _reference_window (candles : list Candle) (label : string) (expected_starts : list datetime)
    (strict : bool) : result (option (list Candle)) :=
  match candles with
  | [] =>
      if strict
      then Raise (SignalEvaluationError ("Candles are required for reference instrument " +:+ label))
      else Ok None
  | _ =>
      match _required_htf_candles expected_starts candles with
      | Ok selected => Ok (Some selected)
      | Raise (SignalEvaluationError _) =>
          if strict
          then Raise (SignalEvaluationError
            ("Reference instrument " +:+ label +:+ " candle coverage is incomplete or not contiguous."))
          else Ok None
      | Raise e => Raise e
      end
  end.

Definition reference_group_rows (d : StrategyDefinition) (references : gmap string (list Candle))
    (starts ends : datetime) (strict : bool) (rows_by_reference : gmap string row_map)
    (group : ReferenceInstrument * list IndicatorDefinition) : result (gmap string row_map) :=
  let '(reference, indicators) := group in
  warmup ← group_warmup d indicators;
  expected ← closed_bar_starts starts ends (reference_timeframe reference) warmup;
  selected ← _reference_window (default [] (references !! reference_id reference)) (reference_label reference)
               expected strict;
  match selected with
  | None => Ok rows_by_reference
  | Some selected =>
      computed ← signal_rows "Reference indicator calculation failed under the deterministic Decimal contract."
                   d indicators selected;
      rows ← index_rows selected computed;
      Ok (<[reference_id reference := rows]> rows_by_reference)
  end.

(** [set(reference_candles) - declared] is non-empty. *)
Definition has_undeclared (d : StrategyDefinition) (references : gmap string (list Candle)) : bool :=
  negb (bool_decide (dom references ⊆@{gset string} list_to_set (reference_id <$> reference_instruments d))).

Definition calculate_reference_indicator_rows (d : StrategyDefinition) (references : gmap string (list Candle))
    (starts ends : datetime) (strict : bool) : result (gmap string row_map) :=
  if has_undeclared d references && strict
  then Raise (SignalEvaluationError "Reference candles were supplied for undeclared reference instruments.")
  else foldM (reference_group_rows d references starts ends strict) ∅ (reference_indicator_groups d).

(** ** Values held onto one decision close *)

Definition require_row (row : option values) (message : string) : result values :=
  match row with Some row => Ok row | None => Raise (SignalEvaluationError message) end.

(** [current] and [previous] rows as one pair; a dict updated in place is returned. *)
Definition overlay_clock (d : StrategyDefinition) (current_close : datetime) (previous_ltf_start : option datetime)
    (state : values * option values) (clock : string * row_map) : result (values * option values) :=
  let '(current, previous) := state in
  let '(timeframe_, rows) := clock in
  current_start ← mapped_htf_start current_close timeframe_;
  mapped_current ← require_row (rows !! current_start)
                     "Indicator timeframe alignment missed a last completed bar.";
  let current := update current mapped_current in
  match previous, previous_ltf_start with
  | Some previous, Some previous_ltf_start =>
      previous_close ← ltf_close previous_ltf_start (timeframe d);
      previous_start ← mapped_htf_start previous_close timeframe_;
      mapped_previous ← require_row (rows !! previous_start)
                          "Indicator timeframe alignment missed a previous completed bar.";
      Ok (current, Some (update previous mapped_previous))
  | _, _ => Ok (current, previous)
  end.

Definition _mapped_reference_row (rows : option row_map) (close_at : datetime) (timeframe : string)
    : result (option values) :=
  match rows with
  | None => Ok None
  | Some rows => start ← mapped_htf_start close_at timeframe; Ok (rows !! start)
  end.

(** The mapped row, or in lenient mode every key of the group undefined. *)
Definition reference_row (strict : bool) (keys : list string) (mapped : option values) (message : string)
    : result values :=
  match mapped with
  | Some row => Ok row
  | None => if strict then Raise (SignalEvaluationError message)
            else Ok (list_to_map (map (λ key, (key, None)) keys))
  end.

Definition overlay_reference (current_close : datetime) (previous_close : option datetime)
    (reference_rows : gmap string row_map) (strict : bool) (state : values * option values)
    (group : ReferenceInstrument * list IndicatorDefinition) : result (values * option values) :=
  let '(current, previous) := state in
  let '(reference, indicators) := group in
  let keys := concat (map indicator_value_keys indicators) in
  let rows := reference_rows !! reference_id reference in
  mapped ← _mapped_reference_row rows current_close (reference_timeframe reference);
  row ← reference_row strict keys mapped "Reference instrument alignment missed a last completed bar.";
  let current := update current row in
  match previous, previous_close with
  | Some previous, Some previous_close =>
      mapped_previous ← _mapped_reference_row rows previous_close (reference_timeframe reference);
      row ← reference_row strict keys mapped_previous
              "Reference instrument alignment missed a previous completed bar.";
      Ok (current, Some (update previous row))
  | _, _ => Ok (current, previous)
  end.

Definition _overlay_reference_values (d : StrategyDefinition) (current_close : datetime)
    (previous_close : option datetime) (state : values * option values)
    (reference_rows : gmap string row_map) (strict : bool) : result (values * option values) :=
  foldM (overlay_reference current_close previous_close reference_rows strict) state (reference_indicator_groups d).

Definition overlay_indicator_timeframe_values (d : StrategyDefinition) (candle : Candle)
    (previous_ltf_start : option datetime) (ltf_values : values) (previous_ltf_values : option values)
    (extra_rows : list (string * row_map)) (reference_rows : gmap string row_map) (strict : bool)
    : result (values * option values) :=
  current_close ← ltf_close (starts_at candle) (timeframe d);
  state ← foldM (overlay_clock d current_close previous_ltf_start) (ltf_values, previous_ltf_values) extra_rows;
  match reference_instruments d with
  | [] => Ok state
  | _ =>
      previous_close ← match previous_ltf_start with
                       | None => Ok None
                       | Some start => c ← ltf_close start (timeframe d); Ok (Some c)
                       end;
      _overlay_reference_values d current_close previous_close state reference_rows strict
  end.

Definition htf_filter_outcome (d : StrategyDefinition) (candle : Candle) (previous_ltf_start : option datetime)
    (htf_rows : row_map) : result (EntryConditionOutcome * values) :=
  match htf_filter d with
  | None => Ok (MATCHED, ∅)
  | Some f =>
      current_close ← ltf_close (starts_at candle) (timeframe d);
      current_start ← mapped_htf_start current_close (htf_timeframe f);
      current_values ← require_row (htf_rows !! current_start) "HTF alignment missed a last completed HTF bar.";
      previous_values ← match previous_ltf_start with
        | None => Ok None
        | Some start =>
            previous_close ← ltf_close start (timeframe d);
            previous_start ← mapped_htf_start previous_close (htf_timeframe f);
            row ← require_row (htf_rows !! previous_start) "HTF alignment missed a previous completed HTF bar.";
            Ok (Some row)
        end;
      Ok (_condition_outcome (htf_when f) current_values previous_values, current_values)
  end.

(** ** The identity checks *)

Section Evaluator.
Context (strategy_fingerprint : StrategyDefinition → string).
Context (research_run_fingerprint : BoundSpecification → string).

Definition _verify_contract (s : BoundSpecification) (d : StrategyDefinition) : result unit :=
  _ ← guard_or (bool_decide (strategy_fingerprint d = spec_strategy_fingerprint s))
        (SignalEvaluationError "Research run strategy identity failed verification.");
  _ ← guard_or (warmup_window_bars s =? Z.of_nat (warmup_bars (data_requirements d)))
        (SignalEvaluationError "Research run warmup does not match the strategy requirement.");
  spec_interval ← specification_bar_interval s;
  strategy_interval ← parse_candle_interval (timeframe d);
  _ ← guard_or (bool_decide (spec_interval = strategy_interval))
        (SignalEvaluationError "Research run bar spacing does not match the published strategy timeframe.");
  _ ← guard_or (eqb (bool_decide (is_Some (htf_filter d))) (bool_decide (is_Some (htf_dataset_fingerprint s))))
        (SignalEvaluationError "Research run HTF dataset identity does not match the published strategy.");
  _ ← guard_or (bool_decide (extra_timeframe <$> indicator_dataset_fingerprints s = unbound_indicator_timeframes d))
        (SignalEvaluationError "Research run indicator-timeframe datasets do not match the published strategy.");
  guard_or (bool_decide (
      ((λ b, (bound_reference_id b, bound_product_id b, bound_timeframe b)) <$> reference_dataset_fingerprints s) =
      ((λ r, (reference_id r, reference_product_id r, reference_timeframe r)) <$> reference_instruments d)))
    (SignalEvaluationError "Research run reference-instrument datasets do not match the published strategy.").

Definition _htf_indicator_rows (s : BoundSpecification) (d : StrategyDefinition) (htf_candles : list Candle)
    : result row_map :=
  match htf_filter d, htf_dataset_fingerprint s with
  | None, Some _ => Raise (SignalEvaluationError
      "Research run HTF dataset is not declared by the published strategy.")
  | Some _, None => Raise (SignalEvaluationError
      "Research run HTF dataset fingerprint is required for an HTF-filter strategy.")
  | _, _ => calculate_htf_indicator_rows d htf_candles (evaluation_starts_at s) (evaluation_ends_at s)
  end.

(** ** Records *)

Definition decision_and_filter_indicators (d : StrategyDefinition) : list IndicatorDefinition :=
  match htf_filter d with None => indicators d | Some f => indicators d ++ htf_indicators f end.

Definition strategy_indicator_value_keys (d : StrategyDefinition) : list string :=
  concat (map indicator_value_keys (decision_and_filter_indicators d)) ++
  map operand_value_key
    (List.filter (λ o, bool_decide (is_Some (operand_offset o))) (strategy_indicator_operands d)).

Definition _row_value (row htf_values : values) (key : string) : option decimal :=
  match row !! key with Some value => value | None => row_get htf_values key end.

(** [IndicatorTraceValue(value=_canonical_optional(...))]: the field's validator bounds the text
    exactly as [result_decimal] bounds a result's. *)
Definition _canonical_optional (value : option decimal) : result (option decimal) :=
  match value with None => Ok None | Some value => c ← result_decimal value; Ok (Some c) end.

(** [SignalTraceRecord.validate_unique_indicator_ids] *)
Definition validate_unique_indicator_ids (entries : list (string * option decimal)) : result unit :=
  guard_or (negb (bool_decide (entries = [])) && bool_decide (NoDup entries.*1))
    (ValueError "signal trace indicator IDs must be unique").

(** One evaluation bar: its record from the decision row, the row before it and the clocks. *)
Definition trace_record (d : StrategyDefinition) (extra_rows : list (string * row_map))
    (reference_rows : gmap string row_map) (htf_rows : row_map) (candle : Candle) (row : values)
    (before : option (Candle * values)) : result SignalTraceRecord :=
  let previous_ltf_start := (λ b, starts_at b.1) <$> before in
  merged ← overlay_indicator_timeframe_values d candle previous_ltf_start row (snd <$> before)
             extra_rows reference_rows true;
  let '(merged_values, merged_previous) := merged in
  let ltf_outcome := _condition_outcome (when (entry d)) merged_values merged_previous in
  htf ← htf_filter_outcome d candle previous_ltf_start htf_rows;
  let '(htf_outcome, htf_values) := htf in
  entries ← result_mapM (λ key, value ← _canonical_optional (_row_value merged_values htf_values key); Ok (key, value))
              (strategy_indicator_value_keys d);
  _ ← validate_unique_indicator_ids entries;
  Ok {| record_starts_at := starts_at candle;
        indicator_values := entries;
        entry_condition := and_entry_outcomes ltf_outcome htf_outcome;
        exit_condition := (λ c, _condition_outcome c merged_values merged_previous)
                            <$> signal_exit_condition (exits d) |}.

(** The loop over [enumerate(zip(engine_candles, indicator_rows))]; warmup bars are skipped and
    the bar before the current one is the pair the loop saw last. *)
Fixpoint trace_loop (record : Candle → values → option (Candle * values) → result SignalTraceRecord)
    (from : datetime) (before : option (Candle * values)) (bars : list (Candle * values))
    : result (list SignalTraceRecord) :=
  match bars with
  | [] => Ok []
  | (candle, row) :: rest =>
      if starts_at candle <? from then trace_loop record from (Some (candle, row)) rest
      else
        r ← record candle row before;
        rs ← trace_loop record from (Some (candle, row)) rest;
        Ok (r :: rs)
  end.

(** [SignalTrace]'s validators: some records, strictly increasing, on the declared keys. *)
Fixpoint increasing_records (l : list SignalTraceRecord) : bool :=
  match l with
  | a :: (b :: _) as rest => (record_starts_at a <? record_starts_at b) && increasing_records rest
  | _ => true
  end.

Definition validate_trace (t : SignalTrace) : result SignalTrace :=
  _ ← guard_or (negb (bool_decide (length (trace_records t) = 0%nat)))
        (ValueError "records should have at least one item");
  _ ← guard_or (increasing_records (trace_records t))
        (ValueError "signal trace records must be strictly increasing");
  _ ← guard_or (bool_decide (NoDup (indicator_ids t)))
        (ValueError "signal trace indicator sequence must contain unique IDs");
  _ ← guard_or (forallb (λ r, bool_decide ((indicator_values r).*1 = indicator_ids t)) (trace_records t))
        (ValueError "signal trace records must match the exact indicator sequence");
  Ok t.

Definition evaluate_signal_trace (s : BoundSpecification) (d : StrategyDefinition) (candles htf_candles : list Candle)
    (extra references : gmap string (list Candle)) : result SignalTrace :=
  _ ← _verify_contract s d;
  engine_candles ← _required_candles s candles;
  indicator_rows ← signal_rows "Signal indicator calculation failed under the deterministic Decimal contract."
                     d (decision_clock_indicators d) engine_candles;
  extra_rows ← calculate_extra_indicator_rows d extra htf_candles (evaluation_starts_at s) (evaluation_ends_at s);
  reference_rows ← calculate_reference_indicator_rows d references (evaluation_starts_at s) (evaluation_ends_at s) true;
  htf_rows ← _htf_indicator_rows s d htf_candles;
  bars ← zip_strict engine_candles indicator_rows;
  records ← trace_loop (trace_record d extra_rows reference_rows htf_rows) (evaluation_starts_at s) None bars;
  validate_trace {|
    run_fingerprint := research_run_fingerprint s;
    trace_strategy_fingerprint := spec_strategy_fingerprint s;
    trace_dataset_fingerprint := dataset_fingerprint s;
    indicator_ids := strategy_indicator_value_keys d;
    trace_records := records |}.

End Evaluator.
