(* ===== verification/SignalCausality.v ===== *)
(** * SignalCausality: signals do not depend on the future

    Replaying an evaluation as of an earlier instant, on histories that agree with the full ones
    on every bar closed by then, reproduces the records up to that instant: whatever the decision
    clock, the coarser clocks, the higher-timeframe filter and the reference instruments do
    later, and whatever bar is still open at that instant, cannot change a signal. *)

From stdpp Require Import sorting.
From S2P Require Import Prelude Decimals DecimalFacts DecimalText Market Geometry IndicatorSpec Conditions.
From S2P Require Import Convergence Strategy Alignment Series IndicatorMath Indicators IndicatorCausality.
From S2P Require Import KernelState KernelRun SignalTrace.

Open Scope Z_scope.

(** ** Histories of one clock *)

(** Two histories of one clock that agree on the bars closed by an instant; the second one, which
    is the one replayed, is well formed. *)
Record same_closed (ends : datetime) (i : CandleInterval) (cs cs' : list Candle) : Prop := {
  closed_agree : ∀ c, starts_at c + duration i <= ends -> c ∈ cs ↔ c ∈ cs';
  replay_distinct : NoDup (starts_at <$> cs');
  replay_supplied : cs' = [] ↔ cs = []
}.

Lemma index_step_lookup cs m0 m :
  foldM (λ (indexed : gmap datetime Candle) candle,
    match indexed !! starts_at candle with
    | Some _ => Raise (ValueError "Closed-bar candles contain duplicate timestamps.")
    | None => Ok (<[starts_at candle := candle]> indexed)
    end) m0 cs = Ok m ->
  ∀ t c, m !! t = Some c ↔ m0 !! t = Some c ∨ c ∈ cs ∧ starts_at c = t.
Proof.
  revert m0. induction cs as [|x cs IH]; intros m0 H t c; cbn in H.
  - injection H as <-. rewrite elem_of_nil. naive_solver.
  - destruct (m0 !! starts_at x) eqn:E; [done|]. cbn in H. rewrite (IH _ H).
    rewrite lookup_insert_Some, elem_of_cons. split.
    + intros [[[? ?]|[? ?]]|[? ?]]; subst; auto.
    + intros [Hm|[[->|?] ?]]; [|by auto|by auto]. left. right. split; [congruence|done].
Qed.

Lemma index_step_total cs (m0 : gmap datetime Candle) : NoDup (starts_at <$> cs) ->
  (∀ c, c ∈ cs -> m0 !! starts_at c = None) ->
  is_ok (foldM (λ (indexed : gmap datetime Candle) candle,
    match indexed !! starts_at candle with
    | Some _ => Raise (ValueError "Closed-bar candles contain duplicate timestamps.")
    | None => Ok (<[starts_at candle := candle]> indexed)
    end) m0 cs).
Proof.
  revert m0. induction cs as [|x cs IH]; intros m0 Hnd Hm; [by eexists|]. cbn [foldM].
  rewrite fmap_cons in Hnd. apply NoDup_cons in Hnd as [Hx Hnd]. rewrite (Hm x) by left. cbn. apply IH; [done|].
  intros c Hc. rewrite lookup_insert_ne; [apply Hm; by right|]. intros He. apply Hx. rewrite He.
  by apply list_elem_of_fmap_2.
Qed.

Lemma index_candles_lookup cs m t c : index_candles_by_start cs = Ok m -> m !! t = Some c ↔ c ∈ cs ∧ starts_at c = t.
Proof. intros H. rewrite (index_step_lookup _ _ _ H), lookup_empty. naive_solver. Qed.

Lemma index_candles_total cs : NoDup (starts_at <$> cs) -> is_ok (index_candles_by_start cs).
Proof. intros. apply index_step_total; [done|]. intros. apply lookup_empty. Qed.

(** ** Required starts, and the bars selected for them *)

Lemma grid_take start step n m : take m (grid start step n) = grid start step (Nat.min m n).
Proof. revert start n. induction m as [|m IH]; intros start [|n]; cbn; [done..|]. f_equal. apply IH. Qed.

Lemma instants_prefix a e e' step : 0 < step -> e' <= e ->
  instants a e' step = take (loop_fuel a e' step) (instants a e step).
Proof.
  intros Hs He. rewrite !instants_grid, grid_take by done. f_equal. unfold loop_fuel.
  pose proof (Z.div_le_mono (e' - a + step - 1) (e - a + step - 1) step Hs ltac:(lia)). lia.
Qed.

Lemma NoDup_grid start step n : 0 < step -> NoDup (grid start step n).
Proof.
  intros Hs. revert start. induction n as [|n IH]; intros start; cbn; constructor; [|apply IH].
  rewrite elem_of_grid. intros (k & _ & ?). nia.
Qed.

Lemma mapM_agree {A B} (f g : A → result B) l k n : result_mapM f l = Ok k ->
  (∀ x, x ∈ take n l -> f x = g x) -> result_mapM g (take n l) = Ok (take n k).
Proof. intros H Hf. rewrite <- (mapM_ext f g _ Hf). by apply mapM_take. Qed.

(** Reading the successful selection of a clock. *)
Lemma required_candles_starts expected cs selected : _required_htf_candles expected cs = Ok selected ->
  starts_at <$> selected = expected ∧ ∃ m, index_candles_by_start cs = Ok m.
Proof.
  unfold _required_htf_candles. intros (m & Hm & Hs)%bind_Ok.
  assert (index_candles_by_start cs = Ok m) as Hi by (destruct (index_candles_by_start cs) as [|[]]; congruence).
  split; [|by eexists]. revert selected Hs. induction expected as [|t expected IH]; intros selected Hs; cbn in Hs.
  - by injection Hs as <-.
  - apply bind_Ok in Hs as (c & Hc & Hs). apply bind_Ok in Hs as (k & Hk & Hs). injection Hs as <-.
    destruct (m !! t) as [x|] eqn:E; [|done]. apply bind_Ok in Hc as ([] & _ & Hc). injection Hc as ->.
    apply (index_candles_lookup _ _ _ _ Hi) in E as [_ <-]. rewrite fmap_cons. f_equal. by apply IH.
Qed.

Lemma required_candles_replay i ends expected cs cs' selected n :
  (∀ c, starts_at c + duration i <= ends -> c ∈ cs ↔ c ∈ cs') -> NoDup (starts_at <$> cs') ->
  (∀ t, t ∈ take n expected -> t + duration i <= ends) -> _required_htf_candles expected cs = Ok selected ->
  _required_htf_candles (take n expected) cs' = Ok (take n selected).
Proof.
  intros Hagree Hnd Hclosed H. pose proof (required_candles_starts _ _ _ H) as [_ [m Hm]].
  destruct (index_candles_total cs' Hnd) as [m' Hm'].
  unfold _required_htf_candles in *. rewrite Hm in H. rewrite Hm'. cbn [mbind result_bind] in *.
  eapply mapM_agree; [exact H|]. intros t Ht.
  cbn beta. assert (m !! t = m' !! t) as ->; [|done]. apply option_eq. intros c.
  rewrite (index_candles_lookup _ _ _ _ Hm), (index_candles_lookup _ _ _ _ Hm').
  split; intros [Hc <-]; (split; [apply Hagree|]; try done; by apply Hclosed).
Qed.

(** ** Rows of a clock *)

Lemma index_rows_fold (pairs : list (Candle * values)) m0 t : t ∉ starts_at <$> pairs.*1 ->
  fold_left (λ m '(c, row), <[starts_at c := row]> m) pairs m0 !! t = (m0 : row_map) !! t.
Proof.
  revert m0. induction pairs as [|[c row] pairs IH]; intros m0 Ht; cbn in *; [done|].
  apply not_elem_of_cons in Ht as [Hne Ht]. rewrite IH by done. by rewrite lookup_insert_ne.
Qed.

Lemma index_rows_lookup (pairs : list (Candle * values)) m0 i c row : NoDup (starts_at <$> pairs.*1) ->
  pairs !! i = Some (c, row) ->
  fold_left (λ m '(c, row), <[starts_at c := row]> m) pairs (m0 : row_map) !! starts_at c = Some row.
Proof.
  revert m0 i. induction pairs as [|[c' row'] pairs IH]; intros m0 [|i] Hnd Hi; cbn in *; try done.
  - injection Hi as -> ->. apply NoDup_cons in Hnd as [Hn _]. rewrite index_rows_fold by done. apply lookup_insert_eq.
  - apply NoDup_cons in Hnd as [_ Hnd]. by eapply IH.
Qed.

(** Two row maps read alike by every close up to an instant. *)
Definition rows_agree (ends : datetime) (timeframe : string) (rows rows' : row_map) : Prop :=
  ∀ close_at t, close_at <= ends -> mapped_htf_start close_at timeframe = Ok t -> rows !! t = rows' !! t.

(** Between multiples of the step the loop runs their distance in steps. *)
Lemma loop_fuel_multiples p q step : 0 < step -> loop_fuel (p * step) (q * step) step = Z.to_nat (q - p).
Proof.
  intros Hs. unfold loop_fuel. f_equal. symmetry. apply (Z.div_unique _ _ _ (step - 1)); lia.
Qed.

(** The bars of an arithmetic progression that close by [ends] are its part before the last
    boundary, so cutting there changes no row that a close up to [ends] reads. *)
Lemma index_rows_replay ends tf i selected computed rows a e n : parse_candle_interval tf = Ok i ->
  starts_at <$> selected = instants a e (duration i) -> (duration i | a) ->
  n = loop_fuel a (ends / duration i * duration i) (duration i) ->
  index_rows selected computed = Ok rows ->
  ∃ rows', index_rows (take n selected) (take n computed) = Ok rows' ∧ rows_agree ends tf rows rows'.
Proof.
  intros Hp Hstarts [q Ha] Hn H. pose proof (duration_pos i) as Hd. unfold index_rows in *.
  apply bind_Ok in H as (pairs & Hz & H). injection H as <-.
  pose proof (zip_strict_length _ _ _ Hz) as (Hlen & _ & Hpairs).
  assert (Hfst : pairs.*1 = selected) by (subst pairs; apply fst_zip; lia).
  assert (Hnd : NoDup (starts_at <$> pairs.*1)) by (rewrite Hfst, Hstarts, instants_grid by done; by apply NoDup_grid).
  eexists. split; [eapply bind_intro; [by apply zip_strict_cut|reflexivity]|].
  intros close_at t Hc Ht. rewrite (mapped_spec _ _ _ Hp) in Ht. injection Ht as <-.
  set (t := _ - _). destruct (decide (t ∈ take n (starts_at <$> selected))) as [Hin|Hout].
  - apply list_elem_of_lookup in Hin as [j Hj]. apply lookup_take_Some in Hj as [Hj Hjn].
    rewrite <- Hfst, !list_lookup_fmap in Hj. destruct (pairs !! j) as [[c row]|] eqn:Ej; [|done].
    injection Hj as <-. rewrite (index_rows_lookup pairs ∅ j c row) by done. symmetry.
    apply (index_rows_lookup _ ∅ j c row); [|by rewrite lookup_take_lt].
    rewrite !fmap_take. eapply sublist_NoDup; [exact Hnd|apply sublist_take].
  - rewrite !index_rows_fold; [done| |].
    + by rewrite !fmap_take, Hfst.
    + rewrite Hfst. intros Hin. apply Hout. subst n a t. rewrite Hstarts in Hin |- *.
      rewrite instants_grid in * by done. apply elem_of_grid in Hin as (k & Hk & Htk).
      rewrite grid_take, elem_of_grid, loop_fuel_multiples by done. exists k. split; [|done].
      pose proof (Z.div_le_mono close_at ends (duration i) Hd Hc). apply Nat.min_glb_lt; [|done].
      assert (Z.of_nat k = close_at / duration i - 1 - q) by nia. lia.
Qed.

Lemma signal_rows_take message d group bars computed n : Forall valid_indicator group ->
  signal_rows message d group bars = Ok computed ->
  signal_rows message d group (take n bars) = Ok (take n computed).
Proof.
  intros Hv H. unfold signal_rows in *.
  assert (calculate_indicator_rows (dc := simulation_context) group bars (strategy_indicator_operands d) = Ok computed) as Hc
    by (unfold as_signal_error in H; destruct (calculate_indicator_rows _ _ _) as [|[]]; congruence).
  by rewrite (indicator_rows_cut _ _ _ _ n Hv Hc).
Qed.

(** One clock: selecting, computing and indexing its rows as of an earlier instant. *)
Lemma clock_replay message d group tf i starts ends ends' warmup cs cs' expected selected computed rows :
  parse_candle_interval tf = Ok i -> ends' <= ends -> Forall valid_indicator group -> same_closed ends' i cs cs' ->
  closed_bar_starts starts ends tf warmup = Ok expected -> _required_htf_candles expected cs = Ok selected ->
  signal_rows message d group selected = Ok computed -> index_rows selected computed = Ok rows ->
  ∃ expected' selected' computed' rows',
    closed_bar_starts starts ends' tf warmup = Ok expected' ∧ _required_htf_candles expected' cs' = Ok selected' ∧
    signal_rows message d group selected' = Ok computed' ∧ index_rows selected' computed' = Ok rows' ∧
    rows_agree ends' tf rows rows'.
Proof.
  intros Hp He Hv Hsame Hexp Hsel Hcomp Hrows. pose proof (duration_pos i) as Hd.
  rewrite (closed_bar_starts_spec starts ends _ _ _ Hp) in Hexp. injection Hexp as <-.
  rewrite (closed_bar_starts_spec starts ends' _ _ _ Hp).
  set (a := _ - _) in *. set (e' := ends' / duration i * duration i).
  pose proof (Z.div_le_mono ends' ends (duration i) Hd He) as Hle.
  assert (Ha : (duration i | a)) by (exists (starts / duration i - Z.of_nat warmup); lia).
  pose proof (required_candles_starts _ _ _ Hsel) as [Hstarts _].
  destruct (index_rows_replay ends' tf i selected computed rows a _ (loop_fuel a e' (duration i)) Hp Hstarts Ha eq_refl Hrows)
    as (rows' & Hrows' & Hagree).
  assert (Hpre : instants a e' (duration i) =
    take (loop_fuel a e' (duration i)) (instants a (ends / duration i * duration i) (duration i)))
    by (apply instants_prefix; [done|nia]).
  do 4 eexists. split; [done|]. split; [|split; [by apply signal_rows_take|by split]].
  rewrite Hpre. destruct Hsame as [Hag Hnd _]. eapply required_candles_replay; [done|done| |done].
  rewrite <- Hpre. intros t (k & Hk & -> & Hlt)%elem_of_instants; [|done]. destruct Ha as [q Ha].
  pose proof (floor_bounds ends' _ Hd). rewrite Ha in *. subst e'.
  assert (q + k < ends' / duration i) by nia. nia.
Qed.

(** ** The rows of every clock *)

(** The declared indicators of any clock are validated ones. *)
Lemma filtered_valid d P : Forall valid_indicator (decision_and_filter_indicators d) ->
  Forall valid_indicator (List.filter P (indicators d)).
Proof.
  intros H. assert (Forall valid_indicator (indicators d)) as Hv
    by (unfold decision_and_filter_indicators in H; destruct (htf_filter d); [by apply Forall_app in H as []|done]).
  rewrite Forall_forall in *. intros x Hx.
  apply list_elem_of_In, filter_In in Hx as [Hx _]. apply Hv. by apply list_elem_of_In.
Qed.

Section Replay.
Context (d : StrategyDefinition) (starts ends ends' : datetime).
Context (extra extra' references references' : gmap string (list Candle)) (htf htf' : list Candle).

Hypothesis Hearlier : ends' <= ends.
Hypothesis Hvalid : Forall valid_indicator (decision_and_filter_indicators d).

(** The histories of a declared clock agree on the bars closed by [ends']. *)
Definition clock_agrees (timeframe : string) (cs cs' : list Candle) : Prop :=
  ∀ i, parse_candle_interval timeframe = Ok i -> same_closed ends' i cs cs'.

Hypothesis Hhtf : ∀ f, htf_filter d = Some f -> clock_agrees (htf_timeframe f) htf htf'.
Hypothesis Hhtf_none : htf = [] ↔ htf' = [].
Hypothesis Hextra : ∀ tf, option_Forall2 (clock_agrees tf) (extra !! tf) (extra' !! tf).
Hypothesis Href : ∀ r, r ∈ reference_instruments d ->
  clock_agrees (reference_timeframe r) (default [] (references !! reference_id r)) (default [] (references' !! reference_id r)).
Hypothesis Hdom : dom references' ⊆ dom references.
Hypothesis Hids : NoDup (reference_id <$> reference_instruments d).

Lemma htf_rows_replay rows : calculate_htf_indicator_rows d htf starts ends = Ok rows ->
  ∃ rows', calculate_htf_indicator_rows d htf' starts ends' = Ok rows' ∧
    ∀ f, htf_filter d = Some f -> rows_agree ends' (htf_timeframe f) rows rows'.
Proof.
  unfold calculate_htf_indicator_rows. destruct (htf_filter d) as [f|] eqn:Ef.
  - destruct htf as [|c cs] eqn:Eh; [done|]. rewrite <- Eh in *.
    intros (expected & He & (selected & Hs & (computed & Hc & Hr)%bind_Ok)%bind_Ok)%bind_Ok.
    assert (∃ i, parse_candle_interval (htf_timeframe f) = Ok i) as [i Hi].
    { unfold htf_candle_starts, closed_bar_starts, closed_bar_required_coverage in He.
      destruct (parse_candle_interval _); [by eexists|done]. }
    pose proof (Hhtf f eq_refl i Hi) as Hsame.
    assert (Hv : Forall valid_indicator (htf_indicators f))
      by (unfold decision_and_filter_indicators in Hvalid; rewrite Ef in Hvalid; by apply Forall_app in Hvalid as []).
    destruct (clock_replay _ d _ _ i starts ends ends' _ _ _ _ _ _ _ Hi Hearlier Hv Hsame He Hs Hc Hr)
      as (expected' & selected' & computed' & rows' & He' & Hs' & Hc' & Hr' & Ha).
    exists rows'. split; [|by intros ? [= <-]]. destruct htf' as [|c' cs'] eqn:Eh'; [exfalso; naive_solver|].
    rewrite <- Eh' in *. unfold htf_candle_starts. rewrite He'; cbn. rewrite Hs'; cbn. by rewrite Hc'.
  - destruct htf; [|done]. intros [= <-]. exists ∅. split; [|done]. by rewrite (proj1 Hhtf_none eq_refl).
Qed.

(** A clock's row maps agree, under the clock's own key. *)
Definition clock_rows_agree (a b : string * row_map) : Prop := a.1 = b.1 ∧ rows_agree ends' a.1 a.2 b.2.

Lemma extra_group_member tf group : (tf, group) ∈ extra_indicator_timeframe_groups d -> Forall valid_indicator group.
Proof.
  unfold extra_indicator_timeframe_groups. intros ([|[tf' group'] rest] & Hin & H)%list_elem_of_In%in_concat; [done|].
  apply in_map_iff in Hin as (t & Hl & _). destruct (bool_decide _); [done|].
  destruct (List.filter _ _) as [|x l] eqn:E; [done|]. injection Hl as -> <- <-.
  destruct H as [[= <- <-]|[]]. rewrite <- E. by apply filtered_valid.
Qed.

Lemma extra_candles_agree tf : clock_agrees tf (extra_clock_candles d extra htf tf) (extra_clock_candles d extra' htf' tf).
Proof.
  intros i Hi. unfold extra_clock_candles. destruct (Hextra tf) as [cs cs' Hcs|]; [by apply Hcs|].
  case_bool_decide as Htf; [|by split; [|constructor|]]. destruct (htf_filter d) as [f|] eqn:Ef; [|done].
  injection Htf as ->. by eapply Hhtf.
Qed.

Lemma extra_rows_replay rows : calculate_extra_indicator_rows d extra htf starts ends = Ok rows ->
  ∃ rows', calculate_extra_indicator_rows d extra' htf' starts ends' = Ok rows' ∧ Forall2 clock_rows_agree rows rows'.
Proof.
  unfold calculate_extra_indicator_rows. apply mapM_simulates. intros [tf group] [tf' r] Hin. unfold extra_group_rows.
  pose proof (extra_candles_agree tf) as Hagree.
  destruct (extra_clock_candles d extra htf tf) as [|c cs] eqn:Ecs; [done|]. rewrite <- Ecs in *.
  intros (warmup & Hw & (expected & He & (selected & Hs & (computed & Hc & (m & Hr & [= <- <-])%bind_Ok)%bind_Ok)%bind_Ok)%bind_Ok)%bind_Ok.
  assert (∃ i, parse_candle_interval tf = Ok i) as [i Hi].
  { unfold closed_bar_starts, closed_bar_required_coverage in He. destruct (parse_candle_interval tf); [by eexists|done]. }
  pose proof (Hagree i Hi) as Hsame.
  destruct (clock_replay _ d _ _ i starts ends ends' _ _ _ _ _ _ _ Hi Hearlier (extra_group_member _ _ Hin) Hsame He Hs Hc Hr)
    as (expected' & selected' & computed' & m' & He' & Hs' & Hc' & Hr' & Ha).
  exists (tf, m'). split; [|by split].
  destruct (extra_clock_candles d extra' htf' tf) as [|c' cs'] eqn:Ecs'.
  - exfalso. destruct Hsame as [_ _ Hempty]. rewrite (proj1 Hempty eq_refl) in Ecs. done.
  - rewrite <- Ecs' in *. rewrite Hw; cbn. rewrite He'; cbn. rewrite Hs'; cbn. rewrite Hc'; cbn. by rewrite Hr'.
Qed.

(** The rows of the references read so far agree, each on its own clock. *)
Definition reference_rows_agree (rows rows' : gmap string row_map) : Prop :=
  ∀ r, r ∈ reference_instruments d ->
    option_Forall2 (rows_agree ends' (reference_timeframe r)) (rows !! reference_id r) (rows' !! reference_id r).

Lemma reference_rows_insert r rows rows' m m' : r ∈ reference_instruments d -> reference_rows_agree rows rows' ->
  rows_agree ends' (reference_timeframe r) m m' ->
  reference_rows_agree (<[reference_id r := m]> rows) (<[reference_id r := m']> rows').
Proof.
  intros Hr Hrows Hm r2 Hr2. destruct (decide (reference_id r = reference_id r2)) as [E|E].
  - assert (r2 = r) as ->; [|rewrite !lookup_insert_eq; by constructor].
    apply list_elem_of_lookup in Hr as [i Hi]. apply list_elem_of_lookup in Hr2 as [j Hj].
    pose proof (NoDup_lookup _ i j (reference_id r) Hids) as Hij.
    rewrite !list_lookup_fmap, Hi, Hj in Hij. cbn in Hij. rewrite E in Hij. specialize (Hij eq_refl eq_refl).
    congruence.
  - rewrite !lookup_insert_ne by done. by apply Hrows.
Qed.

Lemma reference_group_member r group : (r, group) ∈ reference_indicator_groups d ->
  r ∈ reference_instruments d ∧ Forall valid_indicator group.
Proof.
  unfold reference_indicator_groups. intros (r' & [= -> ->] & Hr)%list_elem_of_fmap. split; [done|].
  by apply filtered_valid.
Qed.

Lemma reference_rows_replay rows : calculate_reference_indicator_rows d references starts ends true = Ok rows ->
  ∃ rows', calculate_reference_indicator_rows d references' starts ends' true = Ok rows' ∧ reference_rows_agree rows rows'.
Proof.
  unfold calculate_reference_indicator_rows, has_undeclared. case_bool_decide as Hu; [|done]. cbn [negb andb].
  rewrite bool_decide_true by (by transitivity (dom references)). cbn [negb andb].
  apply foldM_simulates; [intros r _; rewrite !lookup_empty; constructor|].
  intros [r group] u v u' Hin Huv. unfold reference_group_rows.
  destruct (reference_group_member _ _ Hin) as [Hr Hg].
  intros (warmup & Hw & (expected & He & (sel & Hs & Hk)%bind_Ok)%bind_Ok)%bind_Ok.
  assert (∃ i, parse_candle_interval (reference_timeframe r) = Ok i) as [i Hi].
  { unfold closed_bar_starts, closed_bar_required_coverage in He.
    destruct (parse_candle_interval (reference_timeframe r)); [by eexists|done]. }
  pose proof (Href r Hr i Hi) as Hsame. unfold _reference_window in Hs.
  destruct (default [] (references !! reference_id r)) as [|c cs] eqn:Ecs; [done|].
  rewrite <- Ecs in *. destruct (_required_htf_candles expected _) as [selected|[]] eqn:Hsel; try discriminate Hs.
  injection Hs as <-. apply bind_Ok in Hk as (computed & Hc & (m & Hm & [= <-])%bind_Ok).
  destruct (clock_replay _ d _ _ i starts ends ends' _ _ _ _ _ _ _ Hi Hearlier Hg Hsame He Hsel Hc Hm)
    as (expected' & selected' & computed' & m' & He' & Hs' & Hc' & Hr' & Ha).
  exists (<[reference_id r := m']> v). split; [|by apply reference_rows_insert].
  rewrite Hw; cbn. rewrite He'; cbn. unfold _reference_window. rewrite Hs'.
  destruct (default [] (references' !! reference_id r)) as [|c' cs'] eqn:Ecs'.
  - exfalso. destruct Hsame as [_ _ Hempty]. rewrite (proj1 Hempty eq_refl) in Ecs. done.
  - cbn. rewrite Hc'; cbn. by rewrite Hr'.
Qed.

End Replay.

(** ** Records *)

Section Records.
Context (d : StrategyDefinition) (ends' : datetime) (i : CandleInterval).
Context (extra_rows extra_rows' : list (string * row_map)) (reference_rows reference_rows' : gmap string row_map).
Context (htf_rows htf_rows' : row_map).

Hypothesis Hclock : parse_candle_interval (timeframe d) = Ok i.
Hypothesis Hextra : Forall2 (clock_rows_agree ends') extra_rows extra_rows'.
Hypothesis Href : reference_rows_agree d ends' reference_rows reference_rows'.
Hypothesis Hhtf : ∀ f, htf_filter d = Some f -> rows_agree ends' (htf_timeframe f) htf_rows htf_rows'.

(** The closes a record reads. *)
Definition closes_by (candle : Candle) (before : option datetime) : Prop :=
  starts_at candle + duration i <= ends' ∧ ∀ start, before = Some start -> start + duration i <= ends'.

Lemma overlay_clock_replay candle before state : closes_by candle before ->
  foldM (overlay_clock d (starts_at candle + duration i) before) state extra_rows =
  foldM (overlay_clock d (starts_at candle + duration i) before) state extra_rows'.
Proof.
  intros [Hc Hb]. revert state. induction Hextra as [|[tf rows] [tf' rows'] l l' [Ht Ha] _ IH]; intros state; [done|].
  cbn in Ht, Ha. subst tf'. cbn [foldM].
  assert (overlay_clock d (starts_at candle + duration i) before state (tf, rows) =
          overlay_clock d (starts_at candle + duration i) before state (tf, rows')) as ->.
  { unfold overlay_clock. destruct state as [current previous].
    destruct (mapped_htf_start (starts_at candle + duration i) tf) as [t|] eqn:Et; cbn [mbind result_bind]; [|done].
    rewrite (Ha _ _ Hc Et). destruct (require_row _ _); cbn [mbind result_bind]; [|done].
    destruct previous as [previous|]; [|done]. destruct before as [start|]; [|done].
    rewrite (ltf_close_spec _ _ _ Hclock); cbn [mbind result_bind].
    destruct (mapped_htf_start (start + duration i) tf) as [t2|] eqn:Et2; cbn [mbind result_bind]; [|done].
    by rewrite (Ha _ _ (Hb start eq_refl) Et2). }
  destruct (overlay_clock _ _ _ _ _); cbn; [apply IH; by apply Forall2_cons in Hextra as []|done].
Qed.

Lemma mapped_reference_replay r close_at : r ∈ reference_instruments d -> close_at <= ends' ->
  _mapped_reference_row (reference_rows !! reference_id r) close_at (reference_timeframe r) =
  _mapped_reference_row (reference_rows' !! reference_id r) close_at (reference_timeframe r).
Proof.
  intros Hr Hc. unfold _mapped_reference_row. destruct (Href r Hr) as [rows rows' Ha|]; [|done].
  destruct (mapped_htf_start close_at _) as [t|] eqn:Et; cbn; [|done]. by rewrite (Ha _ _ Hc Et).
Qed.

Lemma overlay_reference_replay current_close previous_close state : current_close <= ends' ->
  (∀ c, previous_close = Some c -> c <= ends') ->
  _overlay_reference_values d current_close previous_close state reference_rows true =
  _overlay_reference_values d current_close previous_close state reference_rows' true.
Proof.
  intros Hc Hp. unfold _overlay_reference_values.
  assert (Hg : ∀ r g, (r, g) ∈ reference_indicator_groups d -> r ∈ reference_instruments d)
    by (intros r g; unfold reference_indicator_groups; intros (r' & [= -> ->] & Hr)%list_elem_of_fmap; done).
  revert state. induction (reference_indicator_groups d) as [|[r g] l IH]; intros state; [done|]. cbn [foldM].
  assert (overlay_reference current_close previous_close reference_rows true state (r, g) =
          overlay_reference current_close previous_close reference_rows' true state (r, g)) as ->.
  { unfold overlay_reference. destruct state as [current previous].
    assert (r ∈ reference_instruments d) as Hr by (eapply Hg; left).
    rewrite (mapped_reference_replay r current_close Hr Hc).
    destruct previous as [previous|]; [|done]. destruct previous_close as [pc|]; [|done].
    by rewrite (mapped_reference_replay r pc Hr (Hp pc eq_refl)). }
  destruct (overlay_reference _ _ _ _ _ _); cbn; [apply IH; intros ? ? ?; eapply Hg; by right|done].
Qed.

Lemma overlay_replay candle before ltf_values previous_values : closes_by candle before ->
  overlay_indicator_timeframe_values d candle before ltf_values previous_values extra_rows reference_rows true =
  overlay_indicator_timeframe_values d candle before ltf_values previous_values extra_rows' reference_rows' true.
Proof.
  intros Hcb. unfold overlay_indicator_timeframe_values. rewrite (ltf_close_spec _ _ _ Hclock); cbn [mbind result_bind].
  rewrite (overlay_clock_replay candle before _ Hcb). destruct (foldM _ _ extra_rows') as [state|]; [|done].
  destruct (reference_instruments d) eqn:Er; [done|]. destruct Hcb as [Hc Hb].
  destruct before as [start|]; cbn [mbind result_bind]; [rewrite (ltf_close_spec _ _ _ Hclock); cbn [mbind result_bind]|];
    (apply overlay_reference_replay; [done|]).
  - intros c [= <-]. by apply Hb.
  - done.
Qed.

Lemma htf_outcome_replay candle before : closes_by candle before ->
  htf_filter_outcome d candle before htf_rows = htf_filter_outcome d candle before htf_rows'.
Proof.
  intros [Hc Hb]. unfold htf_filter_outcome. destruct (htf_filter d) as [f|] eqn:Ef; [|done].
  pose proof (Hhtf f eq_refl) as Ha. rewrite (ltf_close_spec _ _ _ Hclock); cbn [mbind result_bind].
  destruct (mapped_htf_start (starts_at candle + duration i) _) as [t|] eqn:Et; cbn; [|done].
  rewrite (Ha _ _ Hc Et). destruct (require_row _ _); cbn; [|done].
  destruct before as [start|]; [|done]. rewrite (ltf_close_spec _ _ _ Hclock); cbn [mbind result_bind].
  destruct (mapped_htf_start (start + duration i) _) as [t2|] eqn:Et2; cbn; [|done].
  by rewrite (Ha _ _ (Hb start eq_refl) Et2).
Qed.

Lemma record_replay candle row before : closes_by candle ((λ b, starts_at b.1) <$> before) ->
  trace_record d extra_rows reference_rows htf_rows candle row before =
  trace_record d extra_rows' reference_rows' htf_rows' candle row before.
Proof.
  intros Hcb. unfold trace_record. rewrite overlay_replay by done.
  destruct (overlay_indicator_timeframe_values _ _ _ _ _ _ _ _) as [[current previous]|]; cbn [mbind result_bind]; [|done].
  by rewrite htf_outcome_replay.
Qed.

End Records.

(** ** The decision clock *)

(** The same run, evaluated as of an earlier end. *)
Definition ending_at (s : ResearchRunSpecification) (ends : datetime) : ResearchRunSpecification :=
  {| evaluation_starts_at := evaluation_starts_at s; evaluation_ends_at := ends;
     warmup_starts_at := warmup_starts_at s; warmup_window_bars := warmup_window_bars s;
     initial_quote_balance := initial_quote_balance s; spec_maker_fee_rate := spec_maker_fee_rate s;
     spec_taker_fee_rate := spec_taker_fee_rate s; spec_slippage_bps := spec_slippage_bps s;
     spec_spread_bps := spec_spread_bps s; spec_execution_stress := spec_execution_stress s |}.

Definition as_of (s : BoundSpecification) (ends : datetime) : BoundSpecification :=
  {| run := ending_at s ends; spec_strategy_fingerprint := spec_strategy_fingerprint s;
     dataset_fingerprint := dataset_fingerprint s; htf_dataset_fingerprint := htf_dataset_fingerprint s;
     indicator_dataset_fingerprints := indicator_dataset_fingerprints s;
     reference_dataset_fingerprints := reference_dataset_fingerprints s |}.

(** What the inferred interval says about the windows. *)
Lemma bar_interval_spec s i : specification_bar_interval s = Ok i ->
  evaluation_starts_at s - warmup_starts_at s = duration i * warmup_window_bars s ∧
  (duration i | warmup_starts_at s) ∧ (duration i | evaluation_starts_at s) ∧ (duration i | evaluation_ends_at s) ∧
  ∀ ends, (duration i | ends) -> specification_bar_interval (ending_at s ends) = Ok i.
Proof.
  unfold specification_bar_interval; cbn [ending_at evaluation_starts_at warmup_starts_at warmup_window_bars evaluation_ends_at].
  induction all_intervals as [|j l IH]; [done|].
  destruct (Z.eqb_spec (evaluation_starts_at s - warmup_starts_at s) (duration j * warmup_window_bars s)) as [Hspan|];
    cbn [negb]; [|exact IH]. clear IH. pose proof (duration_pos j) as Hd.
  assert (Hstep : ∀ t, (x ← align_closed_end j t; guard_or (x =? t)
    (ValueError "warmup and evaluation bounds must align to the inferred candle interval")) = Ok tt ↔ (duration j | t)).
  { intros t. rewrite align_closed_end_spec. cbn. rewrite guard_or_Ok, Z.eqb_eq. split; [intros <-; by eexists|].
    by apply floor_of_multiple. }
  intros H. apply bind_Ok in H as ([] & H & [= <-]). cbn [foldM] in H.
  apply bind_Ok in H as ([] & H1 & ([] & H2 & ([] & H3 & _)%bind_Ok)%bind_Ok).
  pose proof (proj1 (Hstep _) H1). pose proof (proj1 (Hstep _) H2). pose proof (proj1 (Hstep _) H3).
  split_and!; [done..|]. intros ends Hends. cbn [foldM].
  rewrite H1; cbn [mbind result_bind]. rewrite H2; cbn [mbind result_bind].
  by rewrite (proj2 (Hstep _) Hends).
Qed.

Lemma contiguous_filter start bar index selected m : 0 < bar -> 0 <= index ->
  require_contiguous start bar index selected = Ok tt ->
  List.filter (λ c, starts_at c <? start + bar * m) selected = take (Z.to_nat (m - index)) selected ∧
  require_contiguous start bar index (take (Z.to_nat (m - index)) selected) = Ok tt ∧
  Forall (λ c, start <= starts_at c) selected ∧
  Forall (λ c, starts_at c + bar <= start + bar * m) (take (Z.to_nat (m - index)) selected) ∧
  Forall (λ c, start + bar * m <= starts_at c) (drop (Z.to_nat (m - index)) selected).
Proof.
  intros Hb. revert index. induction selected as [|c rest IH]; intros index Hi H; cbn in H.
  - destruct (Z.to_nat (m - index)); repeat constructor.
  - apply bind_Ok in H as ([] & Hc%guard_or_Ok%Z.eqb_eq & ([] & Ho & Hr)%bind_Ok).
    destruct (IH (index + 1) ltac:(lia) Hr) as (Hf & Hq & Hlow & Hin & Hout). cbn [List.filter].
    rewrite Hc. destruct (Z.ltb_spec (start + bar * index) (start + bar * m)) as [Hlt|Hge].
    + assert (index < m) by nia. replace (Z.to_nat (m - index)) with (S (Z.to_nat (m - (index + 1)))) by lia.
      cbn [take drop]. split_and!; [by rewrite Hf| | | |done].
      * cbn. rewrite Hc, Z.eqb_refl; cbn. by rewrite Ho.
      * constructor; [nia|done].
      * constructor; [nia|done].
    + assert (m <= index) by nia. replace (Z.to_nat (m - (index + 1))) with O in * by lia.
      replace (Z.to_nat (m - index)) with O by lia. cbn [take drop] in *. rewrite Hf.
      split_and!; [done..| | |]; [constructor; [nia|done]|constructor|constructor; [nia|done]].
Qed.

Lemma contiguous_lookup start bar index selected j c : require_contiguous start bar index selected = Ok tt ->
  selected !! j = Some c -> starts_at c = start + bar * (index + Z.of_nat j).
Proof.
  revert index j. induction selected as [|x rest IH]; intros index j H Hj; [done|]. cbn in H.
  apply bind_Ok in H as ([] & Hc%guard_or_Ok%Z.eqb_eq & ([] & _ & Hr)%bind_Ok). destruct j as [|j].
  - injection Hj as <-. lia.
  - rewrite (IH _ j Hr Hj). lia.
Qed.

Lemma filter_filter_andb {A} (f g : A → bool) l :
  List.filter f (List.filter g l) = List.filter (λ x, g x && f x) l.
Proof. induction l as [|x l IH]; [done|]. cbn. destruct (g x); cbn; [|done]. by rewrite IH. Qed.

Lemma required_decision_replay s i ends candles candles' selected : specification_bar_interval s = Ok i ->
  (duration i | ends) -> evaluation_starts_at s <= ends <= evaluation_ends_at s -> 0 <= warmup_window_bars s ->
  List.filter (λ c, starts_at c <? ends) candles = List.filter (λ c, starts_at c <? ends) candles' ->
  _required_candles s candles = Ok selected ->
  let n := Z.to_nat (warmup_window_bars s + (ends - evaluation_starts_at s) / duration i) in
  _required_candles (ending_at s ends) candles' = Ok (take n selected) ∧
  Forall (λ c, starts_at c + duration i <= ends) (take n selected) ∧
  Forall (λ c, ends <= starts_at c) (drop n selected) ∧
  (evaluation_starts_at s < ends -> ∃ c, c ∈ take n selected ∧ starts_at c = evaluation_starts_at s).
Proof.
  intros Hi Hends Hle Hwarm Hsame H n. pose proof (duration_pos i) as Hd.
  destruct (bar_interval_spec _ _ Hi) as (Hspan & [w Hw] & [a Ha] & [e He] & Hearly).
  unfold _required_candles in *. rewrite Hi in H. rewrite (Hearly ends Hends); cbn [mbind result_bind] in *.
  apply bind_Ok in H as ([] & Hlen%guard_or_Ok%Z.eqb_eq & ([] & Hgrid & [= <-])%bind_Ok).
  cbn [ending_at evaluation_starts_at warmup_starts_at warmup_window_bars evaluation_ends_at].
  destruct Hends as [k Hk]. set (m := warmup_window_bars s + (k - a)).
  assert (Hm : (ends - evaluation_starts_at s) / duration i = k - a)
    by (rewrite Hk, Ha, <- Z.mul_sub_distr_r, Z.div_mul by lia; done).
  assert (Hq : Z.quot (ends - evaluation_starts_at s) (duration i) = k - a)
    by (rewrite Hk, Ha, <- Z.mul_sub_distr_r, Z.quot_mul by lia; done).
  assert (Hq2 : Z.quot (evaluation_ends_at s - evaluation_starts_at s) (duration i) = e - a)
    by (rewrite He, Ha, <- Z.mul_sub_distr_r, Z.quot_mul by lia; done).
  assert (Hend : ends = warmup_starts_at s + duration i * m) by (unfold m; nia).
  destruct (contiguous_filter _ _ 0 _ m Hd ltac:(lia) Hgrid) as (Hf & Hc & Hlow & Hin & Hout).
  rewrite <- Hend in *. rewrite Z.sub_0_r in *. subst n. rewrite Hm. fold m.
  assert (Hsel : _select_window_candles (ending_at s ends) candles' = take (Z.to_nat m) (_select_window_candles s candles)).
  { rewrite <- Hf. unfold _select_window_candles.
    cbn [ending_at warmup_starts_at evaluation_ends_at]. rewrite filter_filter_andb.
    transitivity (List.filter (λ c, warmup_starts_at s <=? starts_at c)
      (List.filter (λ c, starts_at c <? ends) candles')).
    { rewrite filter_filter_andb. apply List.filter_ext. intros c. apply andb_comm. }
    rewrite <- Hsame, filter_filter_andb. apply List.filter_ext. intros c.
    destruct (Z.ltb_spec (starts_at c) ends), (Z.ltb_spec (starts_at c) (evaluation_ends_at s)), (_ <=? _); done || lia. }
  rewrite Hsel, Hq. assert (Z.to_nat m <= length (_select_window_candles s candles))%nat as Hfit
    by (unfold Zlen, m in *; rewrite Hq2 in Hlen; nia).
  split; [|split; [done|split; [done|]]].
  - rewrite (proj2 (guard_or_Ok _ _)); cbn [mbind result_bind]; [by rewrite Hc|].
    apply Z.eqb_eq. unfold Zlen. rewrite length_take. unfold m in *. nia.
  - intros Hlt. set (j := Z.to_nat (warmup_window_bars s)).
    assert (j < Z.to_nat m)%nat as Hj by (unfold j, m; nia).
    destruct (lookup_lt_is_Some_2 (_select_window_candles s candles) j ltac:(lia)) as [c Hcj].
    exists c. split; [apply list_elem_of_lookup; exists j; by rewrite lookup_take_lt|].
    rewrite (contiguous_lookup _ _ _ _ _ _ Hgrid Hcj). unfold j. lia.
Qed.

(** ** The loop *)

Lemma filter_all_false {A} (f : A → bool) l : (∀ x, x ∈ l -> f x = false) -> List.filter f l = [].
Proof.
  induction l as [|x l IH]; intros H; [done|]. cbn. rewrite (H x) by left. apply IH. intros y Hy. apply H. by right.
Qed.

Lemma trace_record_starts d extra_rows reference_rows htf_rows candle row before r :
  trace_record d extra_rows reference_rows htf_rows candle row before = Ok r -> record_starts_at r = starts_at candle.
Proof.
  unfold trace_record. intros ([current previous] & _ & H)%bind_Ok. apply bind_Ok in H as ([outcome row'] & _ & H).
  by apply bind_Ok in H as (entries & _ & ([] & _ & [= <-])%bind_Ok).
Qed.

Section Loop.
Context (f g : Candle → values → option (Candle * values) → result SignalTraceRecord) (from ends : datetime).
Hypothesis Hstarts : ∀ candle row before r, f candle row before = Ok r -> record_starts_at r = starts_at candle.

Lemma trace_loop_starts before bars records : trace_loop f from before bars = Ok records ->
  record_starts_at <$> records = starts_at <$> List.filter (λ c, from <=? starts_at c) bars.*1.
Proof.
  revert before records. induction bars as [|[candle row] bars IH]; intros before records; cbn [trace_loop].
  - by intros [= <-].
  - rewrite fmap_cons. cbn [fst List.filter]. rewrite Z.leb_antisym.
    destruct (starts_at candle <? from); cbn [negb]; [apply IH|].
    intros (r & Hr & (rs & Hrs & [= <-])%bind_Ok)%bind_Ok. rewrite !fmap_cons. f_equal; [by eapply Hstarts|by eapply IH].
Qed.

(** Replaying the bars before a boundary yields exactly the records before it. *)
Lemma trace_loop_replay before bars records n : trace_loop f from before bars = Ok records ->
  Forall (λ b, starts_at b.1 < ends) (take n bars) -> Forall (λ b, ends <= starts_at b.1) (drop n bars) ->
  (∀ candle row b, (candle, row) ∈ take n bars ->
     (∀ x, b = Some x -> before = Some x ∨ x ∈ take n bars) -> f candle row b = g candle row b) ->
  trace_loop g from before (take n bars) = Ok (List.filter (λ r, record_starts_at r <? ends) records).
Proof.
  revert before records n. induction bars as [|[candle row] bars IH]; intros before records n H Hin Hout Hfg.
  - injection H as <-. by destruct n.
  - destruct n as [|n].
    + apply trace_loop_starts in H. cbn [take drop trace_loop] in *. f_equal. symmetry.
      apply filter_all_false. intros r Hr. apply Z.ltb_ge.
      assert (Hmem : record_starts_at r ∈ record_starts_at <$> records) by by apply list_elem_of_fmap_2.
      rewrite H in Hmem. apply list_elem_of_fmap in Hmem as (c & -> & Hc%list_elem_of_In).
      apply filter_In in Hc as [Hc%list_elem_of_In _]. apply list_elem_of_fmap in Hc as (b & -> & Hb).
      by apply (proj1 (Forall_forall _ _) Hout).
    + cbn [trace_loop take drop] in *. apply Forall_cons in Hin as [Hlt Hin]; cbn in Hlt.
      assert (Hrest : ∀ c r b, (c, r) ∈ take n bars ->
        (∀ x, b = Some x -> Some (candle, row) = Some x ∨ x ∈ take n bars) -> f c r b = g c r b).
      { intros c r b Hc Hb. apply Hfg; [by right|]. intros x Hx. right.
        destruct (Hb x Hx) as [[= <-]|]; [by left|by right]. }
      destruct (starts_at candle <? from); [by apply (IH (Some (candle, row)))|].
      apply bind_Ok in H as (r & Hr & (rs & Hrs & [= <-])%bind_Ok).
      pose proof (IH _ _ n Hrs Hin Hout Hrest) as Hk. pose proof (Hstarts _ _ _ _ Hr) as Hst.
      rewrite <- Hfg, Hr by (by left || by intros x ->; left). cbn. rewrite Hk. cbn. rewrite Hst.
      by destruct (Z.ltb_spec (starts_at candle) ends); [|lia].
Qed.

End Loop.

(** ** The trace's own checks *)

Lemma increasing_records_sorted l :
  increasing_records l = true ↔ StronglySorted (λ a b, record_starts_at a < record_starts_at b) l.
Proof.
  induction l as [|a [|b l] IH].
  - split; [constructor|done].
  - split; [repeat constructor|done].
  - cbn [increasing_records]. rewrite andb_prop_iff, IH, Z.ltb_lt. split.
    + intros [Hab Hs]. constructor; [done|]. apply StronglySorted_cons in Hs as [Hb Hs]. constructor; [done|].
      eapply Forall_impl; [exact Hb|]. cbn. lia.
    + intros [Ha Hs]%StronglySorted_cons. by apply Forall_cons in Ha as [Ha _].
Qed.

Lemma validate_trace_filter t P :
  validate_trace t = Ok t -> List.filter P (trace_records t) ≠ [] ->
  ∀ t', indicator_ids t' = indicator_ids t -> trace_records t' = List.filter P (trace_records t) ->
  validate_trace t' = Ok t'.
Proof.
  unfold validate_trace. intros H Hne t' Hids Hrec. rewrite Hids, Hrec.
  apply bind_Ok in H as ([] & _ & ([] & Hs%guard_or_Ok & ([] & Hi & ([] & Hk%guard_or_Ok & _)%bind_Ok)%bind_Ok)%bind_Ok).
  rewrite (bool_decide_eq_false_2 (length _ = _)) by (by destruct (List.filter P (trace_records t))).
  cbn [negb guard_or mbind result_bind].
  assert (increasing_records (List.filter P (trace_records t)) = true) as ->.
  { apply increasing_records_sorted, StronglySorted_list_filter. by apply increasing_records_sorted. }
  cbn [guard_or mbind result_bind]. rewrite Hi; cbn [mbind result_bind].
  match goal with |- context [guard_or ?b _] => assert (b = true) as -> end; [|done].
  apply forallb_forall. intros x [Hx _]%filter_In. by apply (proj1 (forallb_forall _ _) Hk).
Qed.

Lemma validate_trace_id t t' : validate_trace t = Ok t' -> t' = t.
Proof.
  unfold validate_trace. intros ([] & _ & ([] & _ & ([] & _ & ([] & _ & H)%bind_Ok)%bind_Ok)%bind_Ok)%bind_Ok.
  by injection H as ->.
Qed.

(** ** No look-ahead *)

(** Every candle history an evaluation is given. *)
Record Histories := {
  decision_bars : list Candle;
  htf_bars : list Candle;
  extra_bars : gmap string (list Candle);
  reference_bars : gmap string (list Candle)
}.

(** Histories that agree on what is known by an instant: the decision bars that have started
    before it, and on every other clock the bars that have closed by it. *)
Record agree_until (d : StrategyDefinition) (ends : datetime) (h h' : Histories) : Prop := {
  decision_agree : List.filter (λ c, starts_at c <? ends) (decision_bars h) =
                   List.filter (λ c, starts_at c <? ends) (decision_bars h');
  htf_agree : ∀ f, htf_filter d = Some f -> clock_agrees ends (htf_timeframe f) (htf_bars h) (htf_bars h');
  htf_supplied : htf_bars h = [] ↔ htf_bars h' = [];
  extra_agree : ∀ tf, option_Forall2 (clock_agrees ends tf) (extra_bars h !! tf) (extra_bars h' !! tf);
  reference_agree : ∀ r, r ∈ reference_instruments d ->
    clock_agrees ends (reference_timeframe r) (default [] (reference_bars h !! reference_id r))
      (default [] (reference_bars h' !! reference_id r));
  reference_declared : dom (reference_bars h') ⊆ dom (reference_bars h)
}.

Section NoLookahead.
Context (strategy_fingerprint : StrategyDefinition → string).
Context (research_run_fingerprint : BoundSpecification → string).

Definition signals (s : BoundSpecification) (d : StrategyDefinition) (h : Histories) : result SignalTrace :=
  evaluate_signal_trace strategy_fingerprint research_run_fingerprint s d
    (decision_bars h) (htf_bars h) (extra_bars h) (reference_bars h).

Lemma contract_replay (s : BoundSpecification) d ends i : specification_bar_interval s = Ok i -> (duration i | ends) ->
  _verify_contract strategy_fingerprint s d = Ok tt ->
  _verify_contract strategy_fingerprint (as_of s ends) d = Ok tt ∧ parse_candle_interval (timeframe d) = Ok i ∧
  0 <= warmup_window_bars s.
Proof.
  intros Hi Hends H. destruct (bar_interval_spec _ _ Hi) as (_ & _ & _ & _ & Hearly).
  unfold _verify_contract in *. cbn [as_of run spec_strategy_fingerprint htf_dataset_fingerprint
    indicator_dataset_fingerprints reference_dataset_fingerprints]. rewrite (Hearly ends Hends).
  rewrite Hi in H. cbn [ending_at warmup_window_bars] in *. split; [done|].
  apply bind_Ok in H as ([] & _ & ([] & Hw%guard_or_Ok%Z.eqb_eq & (j & [= <-] & (k & Hk & ([] & Heq%guard_or_Ok & _)%bind_Ok)%bind_Ok)%bind_Ok)%bind_Ok).
  apply bool_decide_eq_true in Heq as <-. split; [done|lia].
Qed.

Lemma htf_contract_replay (s : BoundSpecification) d ends htf htf' rows : ends <= evaluation_ends_at s ->
  Forall valid_indicator (decision_and_filter_indicators d) ->
  (∀ f, htf_filter d = Some f -> clock_agrees ends (htf_timeframe f) htf htf') -> (htf = [] ↔ htf' = []) ->
  _htf_indicator_rows s d htf = Ok rows ->
  ∃ rows', _htf_indicator_rows (as_of s ends) d htf' = Ok rows' ∧
    ∀ f, htf_filter d = Some f -> rows_agree ends (htf_timeframe f) rows rows'.
Proof.
  intros Hle Hv Hagree Hempty. unfold _htf_indicator_rows. cbn [as_of run htf_dataset_fingerprint ending_at
    evaluation_starts_at evaluation_ends_at].
  destruct (htf_filter d) eqn:Ef, (htf_dataset_fingerprint s); try done; rewrite <- Ef in *;
    by apply htf_rows_replay.
Qed.

(** C6: signals do not look ahead: evaluating as of an earlier bar boundary, on histories that agree
    with the full ones on everything closed by then, yields exactly the records before it. *)
Theorem signals_do_not_look_ahead (s : BoundSpecification) d h h' ends i trace :
  specification_bar_interval s = Ok i -> (duration i | ends) ->
  evaluation_starts_at s < ends <= evaluation_ends_at s ->
  Forall valid_indicator (decision_and_filter_indicators d) ->
  require_unique_references (data_requirements d) = Ok tt ->
  agree_until d ends h h' ->
  signals s d h = Ok trace ->
  ∃ trace', signals (as_of s ends) d h' = Ok trace' ∧
    trace_records trace' = List.filter (λ r, record_starts_at r <? ends) (trace_records trace).
Proof.
  intros Hi Hends Hle Hv Hrefs [Hdec Hhtf Hhtf0 Hextra Hreference Hdom] H.
  unfold signals, evaluate_signal_trace in *. apply bind_Ok in H as ([] & Hcon & H).
  destruct (contract_replay _ _ _ _ Hi Hends Hcon) as (Hcon' & Htf & Hwarm).
  apply bind_Ok in H as (selected & Hsel & (rows & Hrows & (extras & Hex & (refs & Hre & (htfs & Hht & (bars & Hz & (records & Hrec & Hval)%bind_Ok)%bind_Ok)%bind_Ok)%bind_Ok)%bind_Ok)%bind_Ok).
  destruct (required_decision_replay s i ends _ _ selected Hi Hends ltac:(lia) Hwarm Hdec Hsel) as (Hsel' & Hin & Hout & Hsome).
  set (n := Z.to_nat _) in *.
  assert (Hids : NoDup (reference_id <$> reference_instruments d))
    by (unfold require_unique_references in Hrefs; case_bool_decide; done).
  assert (Hdecision : Forall valid_indicator (decision_clock_indicators d)) by by apply filtered_valid.
  assert (Hle' : ends <= evaluation_ends_at s) by lia.
  destruct (extra_rows_replay d _ _ ends _ _ _ _ Hle' Hv Hhtf Hextra _ Hex) as (extras' & Hex' & Hae).
  destruct (reference_rows_replay d _ _ ends _ _ Hle' Hv Hreference Hdom Hids _ Hre) as (refs' & Hre' & Har).
  destruct (htf_contract_replay s d ends _ _ _ Hle' Hv Hhtf Hhtf0 Hht) as (htfs' & Hht' & Hah).
  pose proof (zip_strict_length _ _ _ Hz) as (Hlen & _ & Hbars).
  assert (Hfst : bars.*1 = selected) by (subst bars; apply fst_zip; lia).
  assert (Hin' : Forall (λ b, starts_at b.1 + duration i <= ends) (take n bars)).
  { rewrite <- (Forall_fmap fst (λ c, starts_at c + duration i <= ends)), fmap_take, Hfst. exact Hin. }
  pose proof (duration_pos i) as Hd.
  assert (Hloop : trace_loop (trace_record d extras' refs' htfs') (evaluation_starts_at s) None (take n bars) =
                  Ok (List.filter (λ r, record_starts_at r <? ends) records)).
  { eapply trace_loop_replay; [intros; by eapply trace_record_starts|exact Hrec| | |].
    - eapply Forall_impl; [exact Hin'|]. cbn. lia.
    - rewrite <- (Forall_fmap fst (λ c, ends <= starts_at c)), fmap_drop, Hfst. exact Hout.
    - intros candle row before Hmem Hbefore. eapply record_replay; try done. rewrite Forall_forall in Hin'.
      split; [by apply (Hin' (candle, row))|]. intros start Hstart. apply fmap_Some in Hstart as (x & -> & ->).
      destruct (Hbefore x eq_refl) as [|Hx]; [done|]. by apply Hin'. }
  pose proof (validate_trace_id _ _ Hval) as Htrace.
  eexists. split.
  - rewrite Hcon'; cbn [mbind result_bind]. cbn [as_of run]. rewrite Hsel'; cbn [mbind result_bind].
    rewrite (signal_rows_take _ _ _ _ _ n Hdecision Hrows); cbn [mbind result_bind ending_at evaluation_starts_at evaluation_ends_at].
    rewrite Hex'; cbn [mbind result_bind]. rewrite Hre'; cbn [mbind result_bind].
    rewrite Hht'; cbn [mbind result_bind]. rewrite (zip_strict_cut _ _ _ n Hz); cbn [mbind result_bind].
    rewrite Hloop; cbn [mbind result_bind].
    eapply (validate_trace_filter trace (λ r, record_starts_at r <? ends)); [by rewrite Htrace in *| |by subst trace..].
    apply (trace_loop_starts _ _ (λ c w b r, trace_record_starts _ _ _ _ c w b r)) in Hloop. subst trace. cbn.
    intros Hnil. rewrite Hnil in Hloop. destruct (Hsome ltac:(lia)) as (c & Hc & Hat).
    rewrite fmap_take, Hfst in Hloop. symmetry in Hloop. apply fmap_nil_inv in Hloop.
    assert (c ∈ List.filter (λ c, evaluation_starts_at s <=? starts_at c) (take n selected)) as Hmem.
    { apply list_elem_of_In, filter_In. split; [by apply list_elem_of_In|]. apply Z.leb_le. lia. }
    rewrite Hloop in Hmem. by apply elem_of_nil in Hmem.
  - by subst trace.
Qed.

End NoLookahead.

(** ** A concrete run: an hourly document that also reads a six-hour clock *)

Definition breakout_strategy : StrategyDefinition := {|
  instrument := instrument demo_strategy; additional_instruments := []; timeframe := "1h";
  data_requirements := {| warmup_bars := 2; convergence_policy := false; required_fields := [close_field];
                          reference_instruments_ := [] |};
  indicators :=
    [mk_indicator "top" HIGHEST (Some (SingleField close_field)) (IndicatorParameters 2) None None None;
     mk_indicator "slow" HIGHEST (Some (SingleField close_field)) (IndicatorParameters 2) (Some "6h") None None];
  htf_filter := None;
  entry := {| side := LONG;
              when := Comparison (mk_comparison (ema_operand "top") CROSSES_ABOVE (ema_operand "slow"));
              cooldown_bars := 0; max_open_positions := 1; economic_guard := None; pyramiding := false |};
  sizing := sizing demo_strategy; portfolio_limits := portfolio_limits demo_strategy;
  exits := exits demo_strategy; execution := execution demo_strategy; derivatives := None
|}.

Definition bar_of (start price : Z) : Candle :=
  mk_candle start (of_Z price) (of_Z (price + 1)) (of_Z (price - 1)) (of_Z price) (of_Z 5).

Definition breakout_run : BoundSpecification := {|
  run := {| evaluation_starts_at := 240 * hour; evaluation_ends_at := 246 * hour;
            warmup_starts_at := 238 * hour; warmup_window_bars := 2; initial_quote_balance := of_Z 1000;
            spec_maker_fee_rate := d0; spec_taker_fee_rate := d0; spec_slippage_bps := d0; spec_spread_bps := d0;
            spec_execution_stress := None |};
  spec_strategy_fingerprint := "sha256:strategy"; dataset_fingerprint := "sha256:hourly";
  htf_dataset_fingerprint := None;
  indicator_dataset_fingerprints := [{| extra_timeframe := "6h"; extra_fingerprint := "sha256:six" |}];
  reference_dataset_fingerprints := [] |}.

(** What the run sees, and what is known four hours into it: the last two bars are other ones, and
    the six-hour bar in progress has another close. *)
Definition breakout_history (last_price : Z) : Histories := {|
  decision_bars := imap (λ k price, bar_of ((238 + Z.of_nat k) * hour) price) [100; 101; 99; 104; 108; 107; last_price; last_price];
  htf_bars := [];
  extra_bars := {[ "6h"%string := [bar_of (228 * hour) 103; bar_of (234 * hour) 102; bar_of (240 * hour) last_price] ]};
  reference_bars := ∅ |}.

Lemma breakout_agrees : agree_until breakout_strategy (244 * hour) (breakout_history 110) (breakout_history 90).
Proof.
  split; try done.
  - intros tf. unfold breakout_history; cbn [extra_bars]. destruct (decide (tf = "6h"%string)) as [->|Hne].
    + rewrite !lookup_singleton_eq. constructor. intros i [= <-]. split; [|apply (bool_decide_eq_true_1 (NoDup _)); vm_compute; reflexivity|done].
      intros c Hc. rewrite !elem_of_cons. split; intros [->|[->|[->|[]%elem_of_nil]]]; auto; exfalso; revert Hc; vm_compute; intros H; by apply H.
    + rewrite !lookup_singleton_ne by congruence. constructor.
  - intros r []%elem_of_nil.
Qed.

Lemma signals_do_not_look_ahead_witness : ∃ trace trace',
  signals (λ _, "sha256:strategy"%string) (λ _, "sha256:run"%string) breakout_run breakout_strategy (breakout_history 110) = Ok trace ∧
  signals (λ _, "sha256:strategy"%string) (λ _, "sha256:run"%string) (as_of breakout_run (244 * hour)) breakout_strategy
    (breakout_history 90) = Ok trace' ∧
  length (trace_records trace) = 6%nat ∧
  trace_records trace' = List.filter (λ r, record_starts_at r <? 244 * hour) (trace_records trace).
Proof.
  eexists. 
  destruct (signals_do_not_look_ahead (λ _, "sha256:strategy"%string) (λ _, "sha256:run"%string) breakout_run breakout_strategy
    (breakout_history 110) (breakout_history 90) (244 * hour) ONE_HOUR _ ltac:(reflexivity)
    ltac:(by exists 244) ltac:(vm_compute; split; congruence) ltac:(repeat constructor; vm_compute; reflexivity)
    ltac:(reflexivity) breakout_agrees ltac:(vm_compute; reflexivity)) as (trace' & H' & Hrecords).
  exists trace'. split; [vm_compute; reflexivity|]. split; [exact H'|]. split; [reflexivity|exact Hrecords].
Defined.
