(* ===== verification/Scenario.v ===== *)
(** * Scenario: a worked simulation run

    One hand-made evaluation window on [demo_strategy]. The witnesses of the simulation
    theorems apply them to this run: a signal rests, fills and takes profit; a second entry
    fills and is stopped out; a third expires unfilled; a last one is left over at the end. *)

From S2P Require Import Prelude Decimals DecimalFacts DecimalText Market Geometry.
From S2P Require Import IndicatorSpec Conditions Strategy Sizing Broker KernelState Kernel.
From S2P Require Import KernelRun.

Open Scope Z_scope.

Definition demo_start : datetime := 20000 * day.

Definition demo_bar (k o h l c : Z) : Candle :=
  mk_candle (demo_start + hour * k) (of_Z o) (of_Z h) (of_Z l) (of_Z c) (of_Z 10).

Definition demo_candles : list Candle :=
  [demo_bar (-2) 100 101 99 100; demo_bar (-1) 100 101 99 100;
   demo_bar 0 100 101 99 100; demo_bar 1 100 102 99 101; demo_bar 2 101 109 100 104;
   demo_bar 3 104 105 103 104; demo_bar 4 104 104 102 103; demo_bar 5 103 104 90 92;
   demo_bar 6 92 95 91 94; demo_bar 7 95 97 95 96; demo_bar 8 96 99 95 98;
   demo_bar 9 98 99 97 98; demo_bar 10 99 100 98 99].

Definition demo_record (k : Z) (entry : EntryConditionOutcome) : SignalTraceRecord :=
  {| record_starts_at := demo_start + hour * k;
     indicator_values := [("fast", Some (of_Z 3)); ("slow", Some (of_Z 2)); ("atr", Some (of_Z 2))];
     entry_condition := entry; exit_condition := None |}.

Definition demo_trace : list SignalTraceRecord :=
  [demo_record 0 MATCHED; demo_record 1 MATCHED; demo_record 2 NOT_MATCHED; demo_record 3 MATCHED;
   demo_record 4 NOT_MATCHED; demo_record 5 UNDEFINED; demo_record 6 MATCHED; demo_record 7 NOT_MATCHED;
   demo_record 8 NOT_MATCHED; demo_record 9 MATCHED].

Definition demo_spec : ResearchRunSpecification :=
  {| evaluation_starts_at := demo_start; evaluation_ends_at := demo_start + hour * 10;
     warmup_starts_at := demo_start - hour * 2; warmup_window_bars := 2;
     initial_quote_balance := of_Z 1000; spec_maker_fee_rate := Dec 4 (-3);
     spec_taker_fee_rate := Dec 6 (-3); spec_slippage_bps := of_Z 5; spec_spread_bps := d0;
     spec_execution_stress := None |}.

Definition demo_costs : _Costs := resolve_costs demo_spec None.

(** The books before the first bar. *)
Definition demo_books : list _Book :=
  match @_candle_map demo_spec demo_candles ONE_HOUR with
  | Ok m => [mk_book "BTC-USD" m (fold_left (λ acc r, <[record_starts_at r := r]> acc) demo_trace ∅)
               None None 0]
  | Raise _ => []
  end.

#[local] Existing Instance simulation_context.

Definition demo_sim : sim := mk_sim demo_books (of_Z 1000) [] empty_tally.
Definition demo_bars (n : nat) : result (sim * list EquityPoint) :=
  run_bars demo_strategy demo_costs hour demo_start demo_sim n.

(** The state after [n] bars. *)
Definition demo_after (n : nat) : sim := match demo_bars n with Ok (s, _) => s | Raise _ => demo_sim end.
Definition demo_final : sim :=
  match finish_run demo_costs hour (demo_start + hour * 10) (demo_after 10) with Ok s => s | Raise _ => demo_sim end.

Definition demo_curve (n : nat) : list EquityPoint :=
  match demo_bars n with Ok (_, c) => c | Raise _ => [] end.

(** The book after [n] bars. *)
Definition no_book : _Book := mk_book "" ∅ ∅ None None 0.
Definition demo_book (n : nat) : _Book := default no_book (sim_books (demo_after n) !! O).

Definition demo_result : result (BacktestResult * BacktestDiagnostics) :=
  simulate_books demo_spec demo_strategy {["BTC-USD" := demo_candles]} {["BTC-USD" := demo_trace]} None.

(** ** A dated contract

    The same window traded as a future that flattens at bar 2. *)

Definition demo_futures : _Costs := resolve_costs demo_spec (Some
  {| margin := demo_terms; funding_rates := None; constant_funding_rate := None;
     flatten_at := Some (demo_start + hour * 2) |}).

Definition demo_futures_after (n : nat) : sim * list EquityPoint :=
  match run_bars demo_strategy demo_futures hour demo_start demo_sim n with Ok r => r | Raise _ => (demo_sim, []) end.
Definition demo_futures_book (n : nat) : _Book :=
  default no_book (sim_books (demo_futures_after n).1 !! O).

(** The run succeeds, with the funnel and trades the scenario announces. *)
Example demo_result_ok :
  match demo_result with
  | Ok (r, d) =>
      map (λ t, reason (trade_exit t)) (trades r) = [take_profit_; stop_loss] ∧
      exit_reasons d = [(stop_loss, 1); (take_profit_, 1)] ∧
      signals_matched (tally d) = 5 ∧ entries_rested (tally d) = 4
  | Raise _ => False
  end.
Proof. vm_compute. repeat split. Qed.
