(* ===== verification/Funnel.v ===== *)
(** * Funnel: the entry funnel of the simulation is coherent

    [BacktestDiagnostics] documents two accounting identities: every matched signal either
    rests an entry or is counted under one skip reason, and every rested entry is filled,
    expired, refused or left unfilled at the end. They hold of every bar with the entries
    still pending added in, so a finished run always passes its own validators. *)

From S2P Require Import Prelude Decimals DecimalFacts DecimalText Market Geometry.
From S2P Require Import IndicatorSpec Conditions Strategy Sizing Broker KernelState Kernel.
From S2P Require Import KernelRun Scenario.

Open Scope Z_scope.

(** The funnel identities with [p] entries pending and [n] trades closed. *)
Record Funnel (t : _Tally) (p n : Z) : Prop := {
  funnel_signals : signals_matched t = entries_rested t + total (skipped t);
  funnel_entries : entries_rested t = entries_filled t + entries_expired t +
    entries_refused_at_fill t + entries_unfilled_at_end t + p;
  funnel_exits : total (exits_ t) = n;
  funnel_unique : NoDup (keys (skipped t)) ∧ NoDup (keys (exits_ t));
  funnel_positive : positive_counts (skipped t) ∧ positive_counts (exits_ t)
}.

Lemma funnel_empty : Funnel empty_tally 0 0.
Proof. split; try done; split; constructor. Qed.

Ltac tally_step :=
  match goal with t : _Tally |- _ => destruct t end;
  intros [? ? ? [? ?] [? ?]]; cbn in *; split; cbn; rewrite ?total_bump;
  repeat case_match; lazymatch goal with
  | |- _ /\ _ => split; first [assumption | by apply bump_NoDup | by apply bump_positive]
  | |- _ => lia
  end.

Section Steps.
Context (t : _Tally) (p n : Z).

Lemma funnel_warmed : Funnel t p n -> Funnel (warmed t) p n.
Proof. tally_step. Qed.
Lemma funnel_skip r : Funnel t p n -> Funnel (skip r (matched t)) p n.
Proof. tally_step. Qed.
Lemma funnel_rested e : Funnel t p n -> Funnel (rested e (matched t)) (p + 1) n.
Proof. tally_step. Qed.
Lemma funnel_filled : Funnel t (p + 1) n -> Funnel (filled t) p n.
Proof. tally_step. Qed.
Lemma funnel_expired : Funnel t (p + 1) n -> Funnel (expired t) p n.
Proof. tally_step. Qed.
Lemma funnel_refused : Funnel t (p + 1) n -> Funnel (refused t) p n.
Proof. tally_step. Qed.
Lemma funnel_unfilled : Funnel t (p + 1) n -> Funnel (unfilled t) p n.
Proof. tally_step. Qed.
Lemma funnel_repriced : Funnel t p n -> Funnel (repriced t) p n.
Proof. tally_step. Qed.
Lemma funnel_closed trade : Funnel t p n -> Funnel (closed trade t) p (n + 1).
Proof. tally_step. Qed.

End Steps.

#[export] Hint Resolve funnel_warmed funnel_skip funnel_rested funnel_filled funnel_expired funnel_refused
  funnel_unfilled funnel_repriced funnel_closed : funnel.

(** One entry pending, or none. *)
Definition pend (b : _Book) : Z := match pending b with Some _ => 1 | None => 0 end.

Section Preservation.
Context {dc : DecimalContext}.

(** Exits touch the position only. *)
Lemma taker_close_inv b q c ref why costs cash bar b' tr cash' :
  taker_close b q c ref why costs cash bar = Ok (b', tr, cash') ->
  ∃ quote trade, _taker_exit_quote q ref costs = Ok quote ∧
    _close_position q c cash quote why (cost_taker_fee_rate costs) bar = Ok (trade, cash') ∧
    b' = set_position b None ∧ tr = Some trade.
Proof.
  intros (quote & Hq & ([trade k] & Hc & [= <- <- <-])%bind_Ok)%bind_Ok. eauto 6.
Qed.

(** What an exit check may do to a book. *)
Definition exit_effect (b b' : _Book) : Prop :=
  pending b' = pending b ∧ book_cooldown b' = book_cooldown b ∧ book_product_id b' = book_product_id b ∧
  candle_by_start b' = candle_by_start b ∧ records b' = records b.

Lemma exit_effect_refl b : exit_effect b b.
Proof. done. Qed.

Lemma exit_effect_trans a b c : exit_effect a b -> exit_effect b c -> exit_effect a c.
Proof. unfold exit_effect. intros; naive_solver congruence. Qed.

Lemma exit_effect_set_position b p : exit_effect b (set_position b p).
Proof. done. Qed.

Hint Resolve exit_effect_refl exit_effect_set_position : core.

Lemma taker_close_effect b q c ref why costs cash bar b' tr cash' :
  taker_close b q c ref why costs cash bar = Ok (b', tr, cash') -> exit_effect b b'.
Proof. intros (? & ? & _ & _ & -> & _)%taker_close_inv. done. Qed.

Lemma liquidate_effect b c costs cash bar b' tr cash' :
  _liquidate b c costs cash bar = Ok (b', tr, cash') -> exit_effect b b'.
Proof.
  unfold _liquidate. destruct (futures costs); [|by intros [= <- _ _]].
  destruct (position b); [|by intros [= <- _ _]]. intros (m & _ & H)%bind_Ok.
  destruct (dleb _ _) in H; [by injection H as <- _ _|by apply taker_close_effect in H].
Qed.

Lemma stop_out_effect b c costs cash bar b' tr cash' :
  _stop_out b c costs cash bar = Ok (b', tr, cash') -> exit_effect b b'.
Proof.
  unfold _stop_out. destruct (position b); [|by intros [= <- _ _]]. destruct (negb _); [by intros [= <- _ _]|].
  intros ([] & _ & H)%bind_Ok; cbn in H; [|by injection H as <- _ _].
  apply bind_Ok in H as (r & _ & H). by apply taker_close_effect in H.
Qed.

Lemma take_profit_effect b c costs cash bar b' tr cash' :
  _match_take_profit b c costs cash bar = Ok (b', tr, cash') -> exit_effect b b'.
Proof.
  unfold _match_take_profit. destruct (position b); [|by intros [= <- _ _]].
  destruct (negb _); [by intros [= <- _ _]|]. destruct (position_target_price _); [|by intros [= <- _ _]].
  intros ([] & _ & H)%bind_Ok; cbn in H; [|by injection H as <- _ _].
  by apply bind_Ok in H as (r & _ & [= <- _ _]).
Qed.

Lemma manage_effect b c off strategy costs cash bar b' tr cash' :
  _manage_position b c off strategy costs cash bar = Ok (b', tr, cash') -> exit_effect b b'.
Proof.
  unfold _manage_position. destruct (position b); [|by intros [= <- _ _]].
  intros ([] & _ & H)%bind_Ok.
  - apply bind_Ok in H as (r & _ & H). by apply taker_close_effect in H.
  - apply bind_Ok in H as (q & _ & H). destruct (_ && _); [by apply taker_close_effect in H|].
    destruct (_ <=? _); [by apply taker_close_effect in H|]. by injection H as <- _ _.
Qed.

Lemma or_else_inv r check b' tr cash' : or_else r check = Ok (b', tr, cash') ->
  ∃ b1 t1 c1, r = Ok (b1, t1, c1) ∧
    ((is_Some t1 ∧ b' = b1 ∧ tr = t1 ∧ cash' = c1) ∨ (t1 = None ∧ check b1 c1 = Ok (b', tr, cash'))).
Proof.
  unfold or_else. intros ([[b1 t1] c1] & -> & H)%bind_Ok. exists b1, t1, c1. split; [done|].
  destruct t1; [left; injection H as <- <- <-; eauto|by right].
Qed.

Lemma check_exits_effect b c off strategy costs cash bar b' tr cash' :
  check_exits b c off strategy costs cash bar = Ok (b', tr, cash') -> exit_effect b b'.
Proof.
  intros (b3 & t3 & c3 & H3 & [(_ & -> & _)|[_ Hm%manage_effect]])%or_else_inv.
  2: apply (exit_effect_trans _ b3); [|done]. all: clear -H3;
  apply or_else_inv in H3 as (b2 & t2 & c2 & H2 & [(_ & -> & _)|[_ Hm%take_profit_effect]]).
  2,4: apply (exit_effect_trans _ b2); [|done]. all: clear -H2;
  apply or_else_inv in H2 as (b1 & t1 & c1 & H1 & [(_ & -> & _)|[_ Hm%stop_out_effect]]);
  apply liquidate_effect in H1; eauto using exit_effect_trans.
Qed.

Lemma effect_pend b b' : exit_effect b b' -> pend b' = pend b.
Proof. intros [H _]. unfold pend. by rewrite H. Qed.

Lemma fill_funnel b e c off costs cash t b' cash' t' p n : pend b = 0 ->
  _fill_resting_entry b e c off costs cash t = Ok (b', cash', t') ->
  Funnel t (p + 1) n -> Funnel t' (p + pend b') n.
Proof.
  intros Hb H Hf. assert (Hp : ∀ q, pend (set_position b q) = 0) by (intros; by rewrite <- Hb).
  unfold _fill_resting_entry in H. destruct (position b) as [q|].
  - apply bind_Ok in H as ([[q'|] k] & _ & H); injection H as <- <- <-;
      rewrite ?Hp, ?Hb, Z.add_0_r; auto with funnel.
  - apply bind_Ok in H as ([[q'|] k] & _ & H); injection H as <- <- <-;
      rewrite ?Hp, ?Hb, Z.add_0_r; auto with funnel.
Qed.

Lemma match_entry_funnel b c off strategy costs cash t b' cash' t' p n :
  _match_entry b c off strategy costs cash t = Ok (b', cash', t') ->
  Funnel t (p + pend b) n -> Funnel t' (p + pend b') n.
Proof.
  unfold _match_entry. destruct (pending b) as [e|] eqn:Hb; [|by intros [= <- <- <-]].
  assert (Hp : pend b = 1) by (unfold pend; by rewrite Hb). rewrite Hp.
  destruct (_ && _); [intros [= <- <- <-]; by rewrite Hp|].
  destruct (waited_bars e <? _); [by intros [= <- <- <-]|].
  intros ([] & _ & H)%bind_Ok Hf.
  - by eapply fill_funnel in H.
  - destruct (_ <? _) in H; [by injection H as <- <- <-|].
    destruct (on_unfilled_entry _).
    + injection H as <- <- <-. rewrite Z.add_0_r. auto with funnel.
    + apply bind_Ok in H as ([] & _ & H); cbn in H; injection H as <- <- <-.
      * auto with funnel.
      * rewrite Z.add_0_r. auto with funnel.
Qed.

Lemma record_close_funnel b tr strategy trades t b' trades' t' p :
  _record_close b tr strategy trades t = (b', trades', t') ->
  Funnel t p (Zlen trades) -> Funnel t' p (Zlen trades') ∧ pend b' = pend b.
Proof.
  unfold _record_close, Zlen. destruct tr; intros [= <- <- <-] Hf; [|done].
  rewrite length_app. cbn [length]. split; [|done].
  replace (Z.of_nat _) with (Z.of_nat (length trades) + 1) by lia. auto with funnel.
Qed.

Lemma charge_funding_effect b c costs cash bar r :
  _charge_funding b c costs cash bar = Ok r -> exit_effect b r.1.
Proof.
  unfold _charge_funding. destruct (futures costs); [|by intros [= <-]].
  destruct (position b); [|by intros [= <-]]. destruct (negb _); [by intros [= <-]|].
  destruct (funding_hours _ _); [by intros [= <-]|]. by intros (tot & _ & [= <-])%bind_Ok.
Qed.

Lemma cool_down_pend b : pend (cool_down b) = pend b.
Proof. unfold cool_down. by destruct (_ <? _). Qed.

Lemma flatten_funnel b c costs cash bar t b' tr cash' t' p n :
  _flatten_for_expiry b c costs cash bar t = Ok (b', tr, cash', t') ->
  Funnel t (p + pend b) n -> Funnel t' (p + pend b') n.
Proof.
  unfold _flatten_for_expiry. intros Hx Hf.
  assert (∀ b1 t1, Funnel t1 (p + pend b1) n ->
    match position b1 with
    | None => Ok (b1, None, cash, t1)
    | Some position => r ← taker_close b1 position c (open c) expiry costs cash bar; Ok (r, t1)
    end = Ok (b', tr, cash', t') -> Funnel t' (p + pend b') n) as Hclose.
  { intros b1 t1 Hf1. destruct (position b1); [|by intros [= <- _ _ <-]].
    intros ([[b3 tr3] k3] & Ht & [= <- <- <- <-])%bind_Ok.
    by apply taker_close_effect, effect_pend in Ht as ->. }
  unfold pend in Hf at 1. destruct (pending b) eqn:Hb; (eapply Hclose; [|exact Hx]).
  - change (pend _) with 0. rewrite Z.add_0_r. auto with funnel.
  - unfold pend. by rewrite Hb.
Qed.

Lemma process_bar_funnel b c off strategy costs cash bar trades t b' cash' trades' t' p :
  _process_bar b c off strategy costs cash bar trades t = Ok (b', cash', trades', t') ->
  Funnel t (p + pend b) (Zlen trades) -> Funnel t' (p + pend b') (Zlen trades').
Proof.
  unfold _process_bar. rewrite <- (cool_down_pend b). generalize (cool_down b). clear b. intros b.
  destruct (_in_expiry_window _ _).
  - intros ([[[b1 tr] k] t1] & Hx & H)%bind_Ok Hf.
    destruct (_record_close _ _ _ _ _) as [[b2 trades2] t2] eqn:Hr. injection H as <- <- <- <-.
    assert (Hf1 : Funnel t1 (p + pend b1) (Zlen trades)).
    { by eapply flatten_funnel in Hx. }
    destruct (record_close_funnel _ _ _ _ _ _ _ _ _ Hr Hf1) as [Hf2 ->]. done.
  - intros ([[b1 k] t1] & Hm & H)%bind_Ok Hf. apply (match_entry_funnel _ _ _ _ _ _ _ _ _ _ _ _ Hm) in Hf.
    apply bind_Ok in H as ([[b2 tr] k2] & Hc & H). apply check_exits_effect, effect_pend in Hc.
    destruct (_record_close _ _ _ _ _) as [[b3 trades3] t3] eqn:Hr.
    apply bind_Ok in H as ([b4 k4] & Hfund & [= <- <- <- <-]).
    apply charge_funding_effect, effect_pend in Hfund. cbn [fst] in Hfund. rewrite <- Hc in Hf.
    destruct (record_close_funnel _ _ _ _ _ _ _ _ _ Hr Hf) as [Hf2 E]. cbn [fst]. by rewrite Hfund, E.
Qed.

Lemma maybe_rest_funnel b r strategy costs cash limit may window t b' t' p n :
  _maybe_rest_entry b r strategy costs cash limit may window t = Ok (b', t') ->
  Funnel t (p + pend b) n -> Funnel t' (p + pend b') n.
Proof.
  unfold _maybe_rest_entry. destruct (entry_condition r).
  - destruct (_entry_gate _ _ _ _ _) as [g|] eqn:Hg; [intros [= <- <-]; auto with funnel|].
    assert (Hp : pend b = 0).
    { unfold _entry_gate in Hg. unfold pend. destruct window; [done|]. by destruct (pending b). }
    intros ([e|why] & _ & [= <- <-])%bind_Ok Hf; [|auto with funnel].
    rewrite Hp, Z.add_0_r in Hf. apply funnel_rested; done.
  - by intros [= <- <-].
  - intros [= <- <-]. auto with funnel.
Qed.

(** ** Lists of books *)

Fixpoint pending_total (books : list _Book) : Z :=
  match books with [] => 0 | b :: rest => pend b + pending_total rest end.

Lemma pending_total_update books i b b' : books !! i = Some b ->
  pending_total (<[i := b']> books) = pending_total books - pend b + pend b'.
Proof.
  revert i. induction books as [|x books IH]; intros [|i]; cbn [pending_total]; [done..|intros [= ->]; cbn [insert list_insert pending_total]; lia|].
  intros H. change (<[S i:=b']> (x :: books)) with (x :: <[i:=b']> books). cbn [pending_total].
  rewrite (IH _ H). lia.
Qed.

(** The invariant of the loop. *)
Definition sim_funnel (s : sim) : Prop :=
  Funnel (sim_tally s) (pending_total (sim_books s)) (Zlen (sim_trades s)).

Lemma step_book_funnel strategy costs bar starts off s i s' :
  step_book strategy costs bar starts off s i = Ok s' -> sim_funnel s -> sim_funnel s'.
Proof.
  unfold step_book, sim_funnel. destruct (sim_books s !! i) as [b|] eqn:Hb; [|done].
  intros (c & _ & ([[[b1 k] trades1] t1] & Hp & (r & _ & ([b2 t2] & Hr & [= <-])%bind_Ok)%bind_Ok)%bind_Ok)%bind_Ok Hf.
  cbn [sim_books sim_tally sim_trades].
  rewrite (pending_total_update _ i b1); [|by apply list_lookup_insert_eq; eapply lookup_lt_Some].
  rewrite (pending_total_update _ i b) by done.
  assert (H1 : Funnel (sim_tally s) ((pending_total (sim_books s) - pend b) + pend b) (Zlen (sim_trades s)))
    by (by rewrite Z.sub_add).
  apply (process_bar_funnel _ _ _ _ _ _ _ _ _ _ _ _ _ _ Hp) in H1.
  apply (maybe_rest_funnel _ _ _ _ _ _ _ _ _ _ _ _ _ Hr) in H1.
  by replace (pending_total (sim_books s) - pend b + pend b1 - pend b1 + pend b2)
    with (pending_total (sim_books s) - pend b + pend b2) by lia.
Qed.

Lemma run_bars_funnel strategy costs bar start s n s' curve :
  run_bars strategy costs bar start s n = Ok (s', curve) -> sim_funnel s -> sim_funnel s'.
Proof.
  intros H Hs. apply (foldM_ind _ (λ acc, sim_funnel acc.1)) in H; [done|done|].
  intros [s0 c0] off acc _ Hs0. unfold step_bar. intros (s1 & H1 & (pt & _ & [= <-])%bind_Ok)%bind_Ok.
  cbn in *. revert H1. apply foldM_ind; [done|]. intros. by eapply step_book_funnel.
Qed.

(** The terminal boundary empties every book's pending entry. *)
Lemma finish_book_funnel costs bar ends s i s' : (i < length (sim_books s))%nat ->
  finish_book costs bar ends s i = Ok s' -> sim_funnel s ->
  sim_funnel s' ∧ ∃ b, sim_books s' = <[i := b]> (sim_books s) ∧ pend b = 0.
Proof.
  intros Hi. destruct (lookup_lt_is_Some_2 _ _ Hi) as [b Hb].
  unfold finish_book. rewrite Hb. intros H Hf.
  assert (Hb0 : pend (set_pending b None) = 0) by done.
  assert (Hf1 : Funnel (match pending b with Some _ => unfilled (sim_tally s) | None => sim_tally s end)
                  (pending_total (sim_books s) - pend b) (Zlen (sim_trades s))).
  { revert Hf. unfold sim_funnel, pend. destruct (pending b); rewrite ?Z.sub_0_r; [|done].
    intros. apply funnel_unfilled. by rewrite Z.sub_add. }
  destruct (position _) in H.
  - apply bind_Ok in H as (c & _ & (q & _ & ([tr k] & _ & [= <-])%bind_Ok)%bind_Ok).
    split; [|eexists; split; [done|exact Hb0]]. unfold sim_funnel. cbn [sim_books sim_trades sim_tally].
    rewrite (pending_total_update _ _ _ _ Hb). change (pend (set_position _ _)) with 0.
    rewrite Z.add_0_r. unfold Zlen. rewrite length_app, Nat2Z.inj_add. by apply funnel_closed.
  - injection H as <-. split; [|eexists; split; [done|exact Hb0]]. unfold sim_funnel.
    cbn [sim_books sim_trades sim_tally]. rewrite (pending_total_update _ _ _ _ Hb), Hb0, Z.add_0_r. done.
Qed.

Lemma pending_total_zero books : (∀ j b, books !! j = Some b -> pend b = 0) -> pending_total books = 0.
Proof.
  induction books as [|b books IH]; intros H; cbn; [done|].
  rewrite (H O b eq_refl), IH; [done|]. intros j. apply (H (S j)).
Qed.

Lemma finish_run_funnel costs bar ends s s' : finish_run costs bar ends s = Ok s' ->
  sim_funnel s -> Funnel (sim_tally s') 0 (Zlen (sim_trades s')).
Proof.
  intros H Hs. set (n := length (sim_books s)) in *.
  apply (foldM_seq_ind _ (λ i u, sim_funnel u ∧ length (sim_books u) = n ∧
    ∀ j b, (j < i)%nat -> sim_books u !! j = Some b -> pend b = 0)) in H.
  - destruct H as (Hf & Hl & H0). unfold sim_funnel in Hf.
    rewrite (pending_total_zero (sim_books s')) in Hf; [done|].
    intros j b Hj. apply (H0 j); [|done]. apply lookup_lt_Some in Hj. lia.
  - split; [done|]. split; [done|]. lia.
  - intros i u v Hi (Hf & Hl & H0) Hv. apply finish_book_funnel in Hv as (Hf' & b & Hb & Hpb); [|lia|done].
    split; [done|]. rewrite Hb, length_insert. split; [done|]. intros j x Hj Hx.
    destruct (decide (j = i)) as [->|].
    + rewrite list_lookup_insert_eq in Hx by lia. by injection Hx as <-.
    + rewrite list_lookup_insert_ne in Hx by done. apply (H0 j); [lia|done].
Qed.

End Preservation.

(** ** The validators accept the tally *)

Definition all_skips : list skip_reason :=
  map Gate [PENDING_ENTRY; COOLDOWN; MAX_POSITIONS; IN_POSITION; EXPIRY_WINDOW] ++
  map EntrySkip [ENTRY_PRICE_NOT_POSITIVE; STOP_DISTANCE_NOT_POSITIVE; STOP_NOT_POSITIVE;
    TARGET_NOT_POSITIVE; STOP_WITHIN_PRICE_INCREMENT; TARGET_WITHIN_PRICE_INCREMENT;
    NET_TARGET_BELOW_MINIMUM; ECONOMICS_FEE_UNAVAILABLE; SIZING_CASH_UNAVAILABLE; NO_OPEN_POSITION;
    INSUFFICIENT_CASH; NOTIONAL_BELOW_MINIMUM; QUANTITY_BELOW_VENUE_MINIMUM;
    NOTIONAL_BELOW_VENUE_MINIMUM; BELOW_ONE_CONTRACT].

Lemma NoDup_bounded {A} (l all : list A) : NoDup l -> (∀ x, x ∈ all) -> (length l <= length all)%nat.
Proof. intros Hl Hall. apply submseteq_length, NoDup_submseteq; auto. Qed.

Lemma positive_forallb {K} (c : counter K) : positive_counts c -> forallb (λ '(_, n), 1 <=? n) c = true.
Proof.
  unfold positive_counts. intros H. apply forallb_forall. intros [k n] Hk.
  apply list_elem_of_In in Hk. rewrite Forall_forall in H. specialize (H _ Hk). cbn in H. lia.
Qed.

Lemma funnel_diagnostics t n : Funnel t 0 n ->
  ∃ d, diagnostics t = Ok d ∧ tally d = t ∧ total (diag_skipped d) = total (skipped t) ∧
       total (exit_reasons d) = n.
Proof.
  intros [Hm Hr Hx [Hu1 Hu2] [Hp1 Hp2]]. unfold diagnostics. set (d := Build_BacktestDiagnostics _ _ _).
  assert (P1 : diag_skipped d ≡ₚ skipped t) by apply sort_by_perm.
  assert (P2 : exit_reasons d ≡ₚ exits_ t) by apply sort_by_perm.
  assert (K1 : keys (diag_skipped d) ≡ₚ keys (skipped t)) by (unfold keys; by rewrite P1).
  assert (K2 : keys (exit_reasons d) ≡ₚ keys (exits_ t)) by (unfold keys; by rewrite P2).
  assert (E : coherent_funnel d = true).
  { unfold coherent_funnel. rewrite !andb_true_iff, !bool_decide_eq_true, !Z.eqb_eq, !Nat.leb_le.
    assert (T1 : total (diag_skipped d) = total (skipped t)) by (by rewrite P1).
    rewrite K1, K2, T1. change (tally d) with t.
    split; [split; [split; [split; [split; [split; [split|]|]|]|]|]|]; try done; try lia.
    - apply positive_forallb. unfold positive_counts. by rewrite P1.
    - apply positive_forallb. unfold positive_counts. by rewrite P2.
    - rewrite P1. pose proof (NoDup_bounded (keys (skipped t)) all_skips Hu1) as Hb.
      unfold keys in Hb. rewrite length_map in Hb. etransitivity; [apply Hb|by apply Nat.leb_le].
      intros [[]|[]]; apply list_elem_of_In; cbn; tauto.
    - rewrite P2. pose proof (NoDup_bounded (keys (exits_ t))
        [stop_loss; take_profit_; time_exit; signal; evaluation_end; liquidation; expiry] Hu2) as Hb.
      unfold keys in Hb. rewrite length_map in Hb. etransitivity; [apply Hb|by apply Nat.leb_le].
      intros []; apply list_elem_of_In; cbn; tauto. }
  exists d. rewrite E. repeat split; [by rewrite P1|by rewrite P2].
Qed.

(** What the diagnostics say of a run with these trades. *)
Definition accounts_for (d : BacktestDiagnostics) (trades : list BacktestTrade) : Prop :=
  signals_matched (tally d) = entries_rested (tally d) + total (diag_skipped d) ∧
  entries_rested (tally d) = entries_filled (tally d) + entries_expired (tally d) +
    entries_refused_at_fill (tally d) + entries_unfilled_at_end (tally d) ∧
  total (exit_reasons d) = Zlen trades.

(** C35: the diagnostics of a completed run always pass their own validators, and account for
    everything the run did: every matched signal rested an entry or was skipped for one
    counted reason, every rested entry was filled, expired, refused or left unfilled, and the
    exit reasons add up to the number of trades. *)
Theorem run_diagnostics_coherent (dc : DecimalContext) strategy costs bar start ends books cash n s curve s' :
  Forall (λ b, pending b = None) books ->
  run_bars strategy costs bar start (mk_sim books cash [] empty_tally) n = Ok (s, curve) ->
  finish_run costs bar ends s = Ok s' ->
  ∃ d, diagnostics (sim_tally s') = Ok d ∧ accounts_for d (sim_trades s').
Proof.
  intros Hb Hrun Hfin. apply finish_run_funnel in Hfin as Hf.
  - destruct (funnel_diagnostics _ _ Hf) as (d & Hd & Ht & Hs & Hx). exists d.
    destruct Hf. unfold accounts_for. rewrite Ht, Hs, Hx. rewrite Z.add_0_r in *. done.
  - eapply run_bars_funnel; [exact Hrun|]. unfold sim_funnel. cbn [sim_tally sim_books sim_trades].
    rewrite pending_total_zero; [apply funnel_empty|]. intros j b Hj. unfold pend.
    rewrite Forall_forall in Hb. by rewrite (Hb b) by (by eapply list_elem_of_lookup_2).
Qed.

Lemma run_diagnostics_coherent_witness :
  ∃ d, diagnostics (sim_tally demo_final) = Ok d ∧ accounts_for d (sim_trades demo_final).
Proof.
  apply (run_diagnostics_coherent simulation_context demo_strategy demo_costs hour demo_start
    (demo_start + hour * 10) demo_books (of_Z 1000) 10 (demo_after 10) (demo_curve 10)).
  - by repeat constructor.
  - vm_compute. reflexivity.
  - vm_compute. reflexivity.
Defined.
