(* ===== verification/ExitRules.v ===== *)
(** * ExitRules: which exit a bar takes, and what it guarantees

    The exit checks of [_process_bar] in one decision: liquidation, then the stop, then the
    resting take-profit, then the signal exit, then the time exit. *)

From S2P Require Import Prelude Decimals DecimalFacts DecimalText Market Geometry.
From S2P Require Import IndicatorSpec Conditions Strategy Sizing Broker KernelState Kernel.
From S2P Require Import KernelRun Scenario Funnel.

Open Scope Z_scope.

Section ExitRules.
Context {dc : DecimalContext}.

(** ** Abstract specification *)

(** Margin equity at the adverse extreme below maintenance. *)
Definition liquidates (p : _Position) (c : Candle) (costs : _Costs) (cash : decimal) : result bool :=
  match futures costs with
  | None => Ok false
  | Some terms =>
      let side := position_side p in
      let adverse := match side with SHORT => high c | LONG => low c end in
      let quantity := fill_quantity (position_entry p) in
      m ← mark (fill_model costs) adverse side;
      Ok (cash + signed_quantity side quantity * m <? maintenance (margin terms) quantity adverse side)%dec
  end.

(** The target rests and the bar trades through it. *)
Definition target_fills (p : _Position) (c : Candle) (costs : _Costs) : result bool :=
  match take_profit_resting p, position_target_price p with
  | true, Some target => maker_touched (high c) (low c) target (is_short (position_side p)) (execution_stress costs)
  | _, _ => Ok false
  end.

(** The exit of one bar, by precedence. *)
Definition exit_decision (p : _Position) (c : Candle) (record : option SignalTraceRecord) (offset : Z)
    (strategy : StrategyDefinition) (costs : _Costs) (cash : decimal) : result (option BacktestExitReason) :=
  liquidated ← liquidates p c costs cash;
  if (liquidated : bool) then Ok (Some liquidation) else
  stopped ← _stop_hit p c (fill_model costs);
  if (stopped : bool) then Ok (Some stop_loss) else
  reached ← target_fills p c costs;
  if (reached : bool) then Ok (Some take_profit_) else
  if negb (offset =? entered_bar_index p) && _signal_exit_matched record then Ok (Some signal) else
  if max_bars_held (exits strategy) <=? offset - entered_bar_index p then Ok (Some time_exit) else Ok None.

(** ** The exit checks implement it *)

(** A position that survives a bar: same entry and target, target resting from now on. *)
Definition kept (p p' : _Position) : Prop :=
  position_entry p' = position_entry p ∧ position_side p' = position_side p ∧
  position_target_price p' = position_target_price p ∧ entered_bar_index p' = entered_bar_index p ∧
  add_count p' = add_count p ∧ unit_fee p' = unit_fee p ∧ funding p' = funding p.

Lemma kept_refl p : kept p p.
Proof. done. Qed.
Hint Resolve kept_refl : core.

(** What the closing trade records. *)
Lemma close_trade p c cash q why rate bar trade cash' :
  _close_position p c cash q why rate bar = Ok (trade, cash') ->
  trade_entry trade = position_entry p ∧ candle_starts_at (exit_fill (trade_exit trade)) = starts_at c ∧
  reason (trade_exit trade) = why ∧
  holding_bars trade = _holding_bars (candle_starts_at (position_entry p)) (starts_at c) bar.
Proof.
  unfold _close_position. intros (bare & Hb & (exit & He & H)%bind_Ok)%bind_Ok.
  assert (Hx : candle_starts_at exit = starts_at c).
  { unfold maker_fill in Hb. unfold _fill_evidence in He. invert_ok. destruct (executable_side q); by invert_ok. }
  destruct (if is_short _ then _ else _) as [[net gross] next].
  do 3 apply bind_Ok in H as (? & _ & H). apply bind_Ok in H as (t & Hv & [= <- _]).
  unfold validate_trade in Hv. case_ok Hv. injection Hv as <-. done.
Qed.

(** [tr] closes position [p], possibly after its stop was trailed. *)
Definition closes (p : _Position) (c : Candle) (bar : timedelta) (why : BacktestExitReason)
    (tr : option BacktestTrade) (cash' : decimal) : Prop :=
  ∃ q cash quote rate t, kept p q ∧ tr = Some t ∧ _close_position q c cash quote why rate bar = Ok (t, cash').

Lemma closes_reason p c bar why tr cash' : closes p c bar why tr cash' ->
  option_map (λ t, reason (trade_exit t)) tr = Some why.
Proof. intros (q & k & quote & rate & t & _ & -> & (_ & _ & <- & _)%close_trade). done. Qed.

Lemma taker_close_closes b p p0 c ref why costs cash bar b' tr cash' : kept p0 p ->
  taker_close b p c ref why costs cash bar = Ok (b', tr, cash') ->
  b' = set_position b None ∧ closes p0 c bar why tr cash'.
Proof. intros Hk (q & t & _ & Hc & -> & ->)%taker_close_inv. split; [done|]. by exists p, cash, q, (cost_taker_fee_rate costs), t. Qed.

(** The outcome of an exit check that closes for [why] when [fires], and is idle otherwise. *)
Definition checks (r : result (_Book * option BacktestTrade * decimal)) (b : _Book) (p : _Position)
    (c : Candle) (bar : timedelta) (cash : decimal) (fires : result bool) (why : BacktestExitReason) : Prop :=
  ∀ b' tr cash', r = Ok (b', tr, cash') ->
    (fires = Ok true ∧ b' = set_position b None ∧ closes p c bar why tr cash') ∨
    (fires = Ok false ∧ b' = b ∧ tr = None ∧ cash' = cash).

Lemma liquidate_checks b p c costs cash bar : position b = Some p ->
  checks (_liquidate b c costs cash bar) b p c bar cash (liquidates p c costs cash) liquidation.
Proof.
  intros Hp b' tr cash'. unfold _liquidate, liquidates. rewrite Hp.
  destruct (futures costs); [|intros [= <- <- <-]; by right].
  intros (m & -> & H)%bind_Ok. cbn [mbind result_bind].
  rewrite dltb_negb. destruct (dleb _ _) in *.
  - injection H as <- <- <-. by right.
  - left. by apply (taker_close_closes _ _ p) in H.
Qed.

(** The stop check of [_stop_out] and of [_manage_position], once a position is known. *)
Lemma stop_out_checks b p c costs cash bar : position b = Some p -> take_profit_resting p = true ->
  checks (_stop_out b c costs cash bar) b p c bar cash (_stop_hit p c (fill_model costs)) stop_loss.
Proof.
  intros Hp Hr b' tr cash'. unfold _stop_out. rewrite Hp, Hr. cbn [negb].
  intros (hit & -> & H)%bind_Ok. destruct hit; cbn in H.
  - apply bind_Ok in H as (ref & _ & H). left. by apply (taker_close_closes _ _ p) in H.
  - injection H as <- <- <-. by right.
Qed.

Lemma stop_out_idle b p c costs cash bar : position b = Some p -> take_profit_resting p = false ->
  _stop_out b c costs cash bar = Ok (b, None, cash).
Proof. intros Hp Hr. unfold _stop_out. by rewrite Hp, Hr. Qed.

Lemma target_idle p c costs : take_profit_resting p = false -> target_fills p c costs = Ok false.
Proof. intros Hr. unfold target_fills. by rewrite Hr. Qed.

Lemma take_profit_checks b p c costs cash bar : position b = Some p ->
  checks (_match_take_profit b c costs cash bar) b p c bar cash (target_fills p c costs) take_profit_.
Proof.
  intros Hp b' tr cash'. unfold _match_take_profit, target_fills. rewrite Hp.
  destruct (take_profit_resting p); cbn [negb]; [|intros [= <- <- <-]; by right].
  destruct (position_target_price p); [|intros [= <- <- <-]; by right].
  intros (hit & -> & H)%bind_Ok. destruct hit; cbn in H.
  - apply bind_Ok in H as ([t k] & Hc & [= <- <- <-]). left. split; [done|]. split; [done|]. by eexists p, _, _, _, _.
  - injection H as <- <- <-. by right.
Qed.

Lemma trail_kept p c strategy record fb p' :
  _trail_position p c strategy record fb = Ok p' ->
  kept p p' ∧ take_profit_resting p' = take_profit_resting p.
Proof.
  unfold _trail_position, kept. destruct (atr_trailing_stop _); [|by intros [= <-]].
  intros (st & _ & H)%bind_Ok. destruct (_ && _) in H; by injection H as <-.
Qed.

(** What a decision for [why], or for no exit, does to the book. *)
Definition acts (p : _Position) (c : Candle) (bar : timedelta) (cash : decimal)
    (why : option BacktestExitReason) (b' : _Book) (tr : option BacktestTrade) (cash' : decimal) : Prop :=
  match why with
  | Some why => position b' = None ∧ closes p c bar why tr cash'
  | None => tr = None ∧ cash' = cash ∧ ∃ p', position b' = Some p' ∧ kept p p' ∧ take_profit_resting p' = true
  end.

Lemma manage_decides b p c off strategy costs cash bar b' tr cash' : position b = Some p ->
  _manage_position b c off strategy costs cash bar = Ok (b', tr, cash') ->
  ∃ hit : bool, _stop_hit p c (fill_model costs) = Ok hit ∧
  acts p c bar cash
    (if hit then Some stop_loss
     else if negb (off =? entered_bar_index p) && _signal_exit_matched (records b !! starts_at c) then Some signal
     else if max_bars_held (exits strategy) <=? off - entered_bar_index p then Some time_exit else None) b' tr cash'.
Proof.
  intros Hp. unfold _manage_position. rewrite Hp. intros (hit & -> & H)%bind_Ok. exists hit. split; [done|].
  destruct hit; cbn in H.
  - apply bind_Ok in H as (ref & _ & H). by apply (taker_close_closes _ _ p) in H as [-> ?].
  - apply bind_Ok in H as (q & [Hk _]%trail_kept & H). assert (Hi : entered_bar_index q = entered_bar_index p) by apply Hk.
    destruct (negb _ && _); [by apply (taker_close_closes _ _ p) in H as [-> ?]|]. rewrite Hi in H.
    destruct (_ <=? _); [by apply (taker_close_closes _ _ p) in H as [-> ?]|].
    injection H as <- <- <-. split; [done|]. split; [done|]. by exists (rest_take_profit q).
Qed.

(** An exit that fired ends the chain. *)
Lemma or_else_fired (idle : Prop) p c bar why b' tr cash' b1 t1 c1 :
  closes p c bar why t1 c1 -> position b1 = None ->
  (is_Some t1 ∧ b' = b1 ∧ tr = t1 ∧ cash' = c1) ∨ (t1 = None ∧ idle) ->
  position b' = None ∧ closes p c bar why tr cash'.
Proof. intros Hc Hb [(_ & -> & -> & ->)|[-> _]]; [done|]. by destruct Hc as (? & ? & ? & ? & ? & _ & ? & _). Qed.

Lemma check_exits_acts b p c off strategy costs cash bar b' tr cash' :
  position b = Some p ->
  check_exits b c off strategy costs cash bar = Ok (b', tr, cash') ->
  ∃ why, exit_decision p c (records b !! starts_at c) off strategy costs cash = Ok why ∧
    acts p c bar cash why b' tr cash'.
Proof.
  intros Hp (b3 & t3 & c3 & (b2 & t2 & c2 & (b1 & t1 & c1 & Hl & HS)%or_else_inv & HT)%or_else_inv & HM)%or_else_inv.
  unfold exit_decision.
  destruct (liquidate_checks _ _ _ _ _ _ Hp _ _ _ Hl) as [(-> & -> & Hc)|(-> & -> & -> & ->)]; cbn.
  { destruct (or_else_fired _ _ _ _ _ _ _ _ (set_position b None) _ _ Hc eq_refl HS) as [Hb Hc2].
    destruct (or_else_fired _ _ _ _ _ _ _ _ _ _ _ Hc2 Hb HT) as [Hb3 Hc3].
    eexists. split; [done|]. by eapply or_else_fired. }
  destruct HS as [([? ?] & _)|[_ HS]]; [done|].
  destruct (take_profit_resting p) eqn:Hrest.
  - destruct (stop_out_checks _ _ _ _ _ _ Hp Hrest _ _ _ HS) as [(Es & -> & Hc)|(Es & -> & -> & ->)]; rewrite Es; cbn.
    { destruct (or_else_fired _ _ _ _ _ _ _ _ (set_position b None) _ _ Hc eq_refl HT) as [Hb3 Hc3].
      eexists. split; [done|]. by eapply or_else_fired. }
    destruct HT as [([? ?] & _)|[_ HT]]; [done|].
    destruct (take_profit_checks _ _ _ _ _ _ Hp _ _ _ HT) as [(-> & -> & Hc)|(-> & -> & -> & ->)]; cbn.
    { eexists. split; [done|]. exact (or_else_fired _ _ _ _ _ _ _ _ (set_position b None) _ _ Hc eq_refl HM). }
    destruct HM as [([? ?] & _)|[_ HM]]; [done|].
    apply (manage_decides _ _ _ _ _ _ _ _ _ _ _ Hp) in HM as (hit & Eh & Hact).
    rewrite Es in Eh. injection Eh as <-. eexists. split; [|exact Hact]. destruct (negb _ && _); [done|]. by destruct (max_bars_held _ <=? _).
  - rewrite (stop_out_idle _ _ _ _ _ _ Hp Hrest) in HS. injection HS as <- <- <-.
    destruct HT as [([? ?] & _)|[_ HT]]; [done|].
    destruct (take_profit_checks _ _ _ _ _ _ Hp _ _ _ HT) as [(Et & _)|(Et & -> & -> & ->)];
      rewrite (target_idle _ _ _ Hrest) in Et; [done|].
    destruct HM as [([? ?] & _)|[_ HM]]; [done|].
    apply (manage_decides _ _ _ _ _ _ _ _ _ _ _ Hp) in HM as (hit & -> & Hact).
    cbn. eexists. split; [|exact Hact]. destruct hit; [done|]. rewrite (target_idle _ _ _ Hrest). cbn.
    destruct (negb _ && _); [done|]. by destruct (max_bars_held _ <=? _).
Qed.

(** C34: the exit checks of a bar implement one decision with a fixed precedence: liquidation,
    then the stop, then a resting take-profit, then the signal exit (never on the fill bar),
    then the time exit. A trade closes exactly when the decision names a reason, with that
    reason, and leaves the book flat; otherwise the position keeps its entry, target and cash
    and its take-profit rests from the next bar. *)
Theorem exit_priority b p c off strategy costs cash bar b' tr cash' :
  position b = Some p ->
  check_exits b c off strategy costs cash bar = Ok (b', tr, cash') ->
  exit_decision p c (records b !! starts_at c) off strategy costs cash =
    Ok (option_map (λ t, reason (trade_exit t)) tr) ∧
  match tr with
  | Some _ => position b' = None
  | None => cash' = cash ∧ ∃ p', position b' = Some p' ∧ kept p p' ∧ take_profit_resting p' = true
  end.
Proof.
  intros Hp (why & Hw & Ha)%(check_exits_acts _ p) ; [|done]. rewrite Hw. destruct why as [why|].
  - destruct Ha as [Hb Hc]. rewrite (closes_reason _ _ _ _ _ _ Hc). split; [done|].
    by destruct Hc as (? & ? & ? & ? & ? & _ & -> & _).
  - by destruct Ha as (-> & -> & ?).
Qed.

End ExitRules.

Lemma exit_priority_witness :
  let c := demo_bar 2 101 109 100 104 in
  match position (demo_book 2), @check_exits simulation_context (demo_book 2) c 2 demo_strategy demo_costs (of_Z 500) hour with
  | Some p, Ok (b', Some tr, _) =>
      @exit_decision simulation_context p c (records (demo_book 2) !! starts_at c) 2 demo_strategy demo_costs (of_Z 500)
        = Ok (Some (reason (trade_exit tr))) ∧ position b' = None
  | _, _ => False
  end.
Proof.
  cbv zeta. destruct (position (demo_book 2)) as [p|] eqn:Hp; [|by vm_compute in Hp].
  destruct (check_exits _ _ _ _ _ _ _) as [[[b' [tr|]] k]|e] eqn:Hc; [| |].
  - exact (exit_priority _ _ _ _ _ _ _ _ _ _ _ Hp Hc).
  - vm_compute in Hc. discriminate Hc.
  - vm_compute in Hc. discriminate Hc.
Defined.
