(* ===== verification/RunInvariants.v ===== *)
(** * RunInvariants: timing of a run

    Invariants of [run_bars] and [finish_run]: when a signal may fill, how long a position is
    held, which exits may share the entry's bar, and how many books are open. *)

From S2P Require Import Prelude Decimals DecimalFacts DecimalText Market Geometry.
From S2P Require Import IndicatorSpec Conditions Strategy Sizing Broker KernelState Kernel.
From S2P Require Import KernelRun Scenario Funnel ExitRules.

Open Scope Z_scope.

Section Timing.
Context {dc : DecimalContext} (strategy : StrategyDefinition) (costs : _Costs).
Context (bar : timedelta) (start : datetime).
Context (bar_positive : 0 < bar) (max_positive : 0 <= max_bars_held (exits strategy)).

(** The open of bar [k]. *)
Definition bar_start (k : Z) : datetime := start + bar * k.

Definition holds_since (p : _Position) (i : Z) : Prop :=
  entered_bar_index p = i ∧ candle_starts_at (position_entry p) = bar_start i.

(** An open position inside bar [off]. *)
Definition timed_in (off : Z) (p : _Position) : Prop :=
  ∃ i, holds_since p i ∧ 0 <= i <= off ∧ off - i <= max_bars_held (exits strategy) ∧
       (take_profit_resting p = true -> i < off).

(** An open position before bar [n]. *)
Definition timed (n : Z) (p : _Position) : Prop :=
  ∃ i, holds_since p i ∧ 0 <= i < n ∧ n - i <= max_bars_held (exits strategy).

Record keyed (b : _Book) : Prop := {
  candle_keyed : ∀ t c, candle_by_start b !! t = Some c -> starts_at c = t;
  record_keyed : ∀ t r, records b !! t = Some r -> record_starts_at r = t
}.

(** A resting entry seen by bar [n]: its signal is older, and only an add rests beside a
    position. *)
Definition pending_ok (n : Z) (b : _Book) : Prop :=
  ∀ e, pending b = Some e -> record_starts_at (pending_signal e) < bar_start n ∧
    (is_pyramid_add e = false -> position b = None).

Record book_ok (n : Z) (b : _Book) : Prop := {
  ok_keyed : keyed b;
  ok_pending : pending_ok n b;
  ok_position : ∀ p, position b = Some p -> timed n p
}.

(** A trade closed by bar [n]. *)
Definition trade_ok (n : Z) (t : BacktestTrade) : Prop :=
  ∃ i k, candle_starts_at (trade_entry t) = bar_start i ∧
    candle_starts_at (exit_fill (trade_exit t)) = bar_start k ∧
    0 <= i <= k ∧ k <= n ∧ holding_bars t = k - i ∧ k - i <= max_bars_held (exits strategy) ∧
    (reason (trade_exit t) = take_profit_ ∨ reason (trade_exit t) = signal -> i < k).

Lemma timed_timed_in n p : timed n p -> timed_in n p.
Proof. intros (i & Hi & ? & ?). exists i. repeat split; try apply Hi; lia. Qed.

Lemma bar_start_lt i k : i < k -> bar_start i < bar_start k.
Proof. unfold bar_start. nia. Qed.

Lemma holding_bars_on_grid i k : i <= k -> _holding_bars (bar_start i) (bar_start k) bar = k - i.
Proof.
  intros. unfold _holding_bars, bar_start. replace (start + bar * k - (start + bar * i)) with ((k - i) * bar) by lia.
  by rewrite Z.quot_mul by lia.
Qed.

(** A position closed at bar [k] gives a well-timed trade. *)
Lemma close_timed off p q c cash quote why rate t k' : starts_at c = bar_start off ->
  timed_in off p -> kept p q -> _close_position q c cash quote why rate bar = Ok (t, k') ->
  (why = take_profit_ ∨ why = signal -> entered_bar_index p <> off) -> trade_ok off t.
Proof.
  intros Hc (i & [Hi He] & Hr & Hm & _) (Hq & _) (Ht & Hx & Hw & Hh)%close_trade Hstrict.
  exists i, off. rewrite Ht, Hx, Hw, Hh, Hq, He, Hc, holding_bars_on_grid by lia.
  repeat split; try lia. intros H. specialize (Hstrict H). lia.
Qed.

Lemma kept_timed off p q : kept p q -> timed_in off p ->
  off + 1 - entered_bar_index p <= max_bars_held (exits strategy) -> timed (off + 1) q.
Proof.
  intros (He & _ & _ & Hi & _) (i & [Hx Hs] & ? & _) ?. exists i. unfold holds_since. rewrite Hi, He.
  repeat split; try done; lia.
Qed.

Lemma decision_facts p c r off cash why : exit_decision p c r off strategy costs cash = Ok why ->
  match why with
  | None => off + 1 - entered_bar_index p <= max_bars_held (exits strategy)
  | Some take_profit_ => take_profit_resting p = true
  | Some signal => entered_bar_index p <> off
  | Some _ => True
  end.
Proof.
  unfold exit_decision. intros (l & _ & H)%bind_Ok. destruct l; [by injection H as <-|].
  apply bind_Ok in H as (s & _ & H). destruct s; [by injection H as <-|].
  apply bind_Ok in H as (tp & Ht & H). destruct tp.
  - injection H as <-. unfold target_fills in Ht. by destruct (take_profit_resting p).
  - destruct (Z.eqb_spec off (entered_bar_index p)); cbn [negb andb] in H.
    + destruct (Z.leb_spec (max_bars_held (exits strategy)) (off - entered_bar_index p)); injection H as <-; [done|lia].
    + destruct (_signal_exit_matched r); [by injection H as <-|].
      destruct (Z.leb_spec (max_bars_held (exits strategy)) (off - entered_bar_index p)); injection H as <-; [done|lia].
Qed.

(** ** The exit checks *)

Lemma check_exits_flat b c off cash : position b = None ->
  check_exits b c off strategy costs cash bar = Ok (b, None, cash).
Proof.
  intros Hb. unfold check_exits, or_else, _liquidate, _stop_out, _match_take_profit, _manage_position.
  rewrite Hb. destruct (futures costs); cbn; rewrite ?Hb; cbn; rewrite ?Hb; cbn; rewrite ?Hb; reflexivity.
Qed.

Definition option_trades (tr : option BacktestTrade) : list BacktestTrade :=
  match tr with Some t => [t] | None => [] end.

Lemma check_exits_timed b c off cash b' tr cash' : starts_at c = bar_start off ->
  (∀ p, position b = Some p -> timed_in off p) ->
  check_exits b c off strategy costs cash bar = Ok (b', tr, cash') ->
  (∀ p, position b' = Some p -> timed (off + 1) p ∧ is_Some (position b)) ∧ Forall (trade_ok off) (option_trades tr).
Proof.
  intros Hc Hp H. destruct (position b) as [p|] eqn:Hb.
  2: { rewrite (check_exits_flat _ _ _ _ Hb) in H. injection H as <- <- <-. split; [congruence|constructor]. }
  apply (check_exits_acts _ _ _ _ _ _ _ _ _ _ _ Hb) in H as (why & Hw & Ha).
  apply decision_facts in Hw. specialize (Hp p eq_refl). destruct why as [why|].
  - destruct Ha as [Hb' (q & k & quote & rate & t & Hk & -> & Hcl)]. split; [congruence|].
    cbn [option_trades]. constructor; [|constructor].
    apply (close_timed off p q c k quote why rate t cash' Hc Hp Hk Hcl).
    destruct Hp as (i & [Hi _] & _ & _ & Hrest). intros [-> | ->]; [|exact Hw].
    specialize (Hrest Hw). lia.
  - destruct Ha as (-> & _ & p' & Hb' & Hk & _). split; [|constructor].
    intros ? [= <-]%(eq_trans (eq_sym Hb')). split; [|done]. by eapply kept_timed.
Qed.

(** ** Entries *)

(** A book inside bar [off], once its resting entry was matched. *)
Record mid_ok (off : Z) (b : _Book) : Prop := {
  mid_keyed : keyed b;
  mid_pending : pending_ok off b;
  mid_position : ∀ p, position b = Some p -> timed_in off p
}.

Lemma book_mid off b : book_ok off b -> mid_ok off b.
Proof. intros [? ? Hp]. split; [done..|]. intros p H. apply timed_timed_in; auto. Qed.

Lemma keyed_change b b' : candle_by_start b' = candle_by_start b -> records b' = records b -> keyed b -> keyed b'.
Proof. intros E1 E2 [H1 H2]. by split; rewrite ?E1, ?E2. Qed.

Lemma open_position_timed e c off cash p cash' : starts_at c = bar_start off -> 0 <= off ->
  _open_position e c cash off costs = Ok (Some p, cash') -> timed_in off p.
Proof.
  intros Hc Ho. unfold _open_position. intros ([[q u]|] & _ & H)%bind_Ok; [|done].
  case_match; [done|]. apply bind_Ok in H as (en & He & [= <- _]).
  assert (Hs : candle_starts_at en = starts_at c) by (unfold maker_fill in He; by invert_ok).
  exists off. unfold holds_since. cbn. rewrite Hs, Hc. repeat split; done || lia.
Qed.

Lemma scale_in_timed e p off cash p' cash' : timed_in off p ->
  _scale_in e p cash costs = Ok (Some p', cash') -> timed_in off p'.
Proof.
  unfold _scale_in. intros (i & [Hi Hs] & ? & ? & ?). case_match; [done|].
  intros (ep & _ & (en & He & [= <- _])%bind_Ok)%bind_Ok.
  assert (Hx : candle_starts_at en = candle_starts_at (position_entry p)) by (unfold maker_fill in He; by invert_ok).
  exists i. unfold holds_since. cbn. by rewrite Hx.
Qed.

Lemma fill_mid b e c off cash t b' cash' t' : starts_at c = bar_start off -> 0 <= off ->
  pending b = None -> mid_ok off b ->
  _fill_resting_entry b e c off costs cash t = Ok (b', cash', t') -> mid_ok off b'.
Proof.
  intros Hc Ho Hn Hmid H. pose proof Hmid as [Hk Hp Hm].
  assert (Hpend : ∀ b2, pending b2 = None -> pending_ok off b2) by (intros b2 Hb e0; by rewrite Hb).
  unfold _fill_resting_entry in H. destruct (position b) as [p|] eqn:Hb;
    apply bind_Ok in H as ([[p'|] k] & Hs & H); injection H as <- <- <-.
  - split; [by apply (keyed_change b)|by apply Hpend|]. intros q [= <-]. by eapply scale_in_timed, Hs; auto.
  - done.
  - split; [by apply (keyed_change b)|by apply Hpend|]. intros q [= <-]. by eapply open_position_timed, Hs.
  - split; [by apply (keyed_change b)|by apply Hpend|]. done.
Qed.

(** A change of the resting entry that keeps its signal and kind. *)
Lemma set_pending_mid off b e e' : mid_ok off b -> pending b = Some e ->
  pending_signal e' = pending_signal e -> is_pyramid_add e' = is_pyramid_add e -> mid_ok off (set_pending b (Some e')).
Proof.
  intros [Hk Hp Hm] Hb E1 E2. split; [by apply (keyed_change b)| |done].
  intros x [= <-]. cbn. rewrite E1, E2. by apply Hp.
Qed.

Lemma drop_pending_mid off b : mid_ok off b -> mid_ok off (set_pending b None).
Proof. intros [Hk Hp Hm]. split; [by apply (keyed_change b)|by intros ?|done]. Qed.

Lemma set_cooldown_mid off b n : mid_ok off b -> mid_ok off (set_cooldown b n).
Proof. intros [Hk Hp Hm]. split; [by apply (keyed_change b)|exact Hp|exact Hm]. Qed.

Lemma match_entry_mid b c off cash t b' cash' t' : starts_at c = bar_start off -> 0 <= off -> mid_ok off b ->
  _match_entry b c off strategy costs cash t = Ok (b', cash', t') -> mid_ok off b'.
Proof.
  intros Hc Ho Hb. unfold _match_entry. destruct (pending b) as [e|] eqn:He; [|by intros [= <- _ _]].
  pose proof (drop_pending_mid off b Hb) as Hd.
  assert (He1 : mid_ok off (expire_entry b strategy)) by (apply set_cooldown_mid, Hd).
  destruct (_ && _); [by intros [= <- _ _]|].
  destruct (_ <? _); [intros [= <- _ _]; by eapply set_pending_mid|].
  intros (hit & _ & H)%bind_Ok. destruct hit.
  - by eapply fill_mid, H.
  - destruct (_ <? _) in H; [injection H as <- _ _; by eapply set_pending_mid|].
    destruct (on_unfilled_entry _); [by injection H as <- _ _|].
    apply bind_Ok in H as (a & _ & H). destruct a; cbn in H; injection H as <- _ _; [|done].
    by eapply set_pending_mid.
Qed.

(** ** One bar *)

Lemma pending_ok_later n m b b' : n <= m -> pending b' = pending b ->
  (is_Some (position b') -> is_Some (position b)) -> pending_ok n b -> pending_ok m b'.
Proof.
  intros Hnm E Hs H e He. rewrite E in He. destruct (H e He) as [Hlt Ha]. split.
  - unfold bar_start in *. nia.
  - intros Hadd. specialize (Ha Hadd). destruct (position b') eqn:Hp; [|done].
    destruct Hs as [? Hs]; [done|congruence].
Qed.

(** What a processed bar did to the trade list. *)
Definition appended (off : Z) (trades trades' : list BacktestTrade) : Prop :=
  ∃ tr, trades' = trades ++ option_trades tr ∧ Forall (trade_ok off) (option_trades tr).

Lemma record_close_appended b tr trades t b' trades' t' off :
  _record_close b tr strategy trades t = (b', trades', t') -> Forall (trade_ok off) (option_trades tr) ->
  appended off trades trades' ∧ exit_effect (set_cooldown b 0) (set_cooldown b' 0) ∧ position b' = position b.
Proof.
  unfold _record_close. intros H Htr. destruct tr as [tr|]; injection H as <- <- <-.
  - split; [by exists (Some tr)|done].
  - split; [by exists None; rewrite app_nil_r|done].
Qed.

Lemma cool_down_mid off b : mid_ok off b -> mid_ok off (cool_down b).
Proof. unfold cool_down. intros. destruct (_ <? _); [by apply set_cooldown_mid|done]. Qed.

Lemma funding_kept b c cash r : _charge_funding b c costs cash bar = Ok r ->
  ∀ p', position r.1 = Some p' -> ∃ p, position b = Some p ∧
    entered_bar_index p' = entered_bar_index p ∧ position_entry p' = position_entry p.
Proof.
  assert (Hsame : r = (b, cash) -> ∀ p', position r.1 = Some p' -> ∃ p, position b = Some p ∧
    entered_bar_index p' = entered_bar_index p ∧ position_entry p' = position_entry p) by (intros -> p' Hp; by exists p').
  unfold _charge_funding. destruct (futures costs); [|intros [= <-]; by apply Hsame].
  destruct (position b) as [p|]; [|intros [= <-]; by apply Hsame]. destruct (negb _); [intros [= <-]; by apply Hsame|].
  destruct (funding_hours _ _); [intros [= <-]; by apply Hsame|]. intros (tot & _ & [= <-])%bind_Ok p' [= <-]. by exists p.
Qed.

Lemma flatten_spec b c cash t b' tr cash' t' off : mid_ok off b -> starts_at c = bar_start off ->
  _flatten_for_expiry b c costs cash bar t = Ok (b', tr, cash', t') ->
  keyed b' ∧ pending b' = None ∧ position b' = None ∧ Forall (trade_ok off) (option_trades tr).
Proof.
  intros Hmid Hc. unfold _flatten_for_expiry.
  assert (∀ b1 t1, pending b1 = None -> mid_ok off b1 ->
    match position b1 with
    | None => Ok (b1, None, cash, t1)
    | Some position => r ← taker_close b1 position c (open c) expiry costs cash bar; Ok (r, t1)
    end = Ok (b', tr, cash', t') ->
    keyed b' ∧ pending b' = None ∧ position b' = None ∧ Forall (trade_ok off) (option_trades tr)) as Hgo.
  { intros b1 t1 Hn [Hk _ Hp] H. destruct (position b1) as [p|] eqn:Hb.
    - apply bind_Ok in H as ([[b2 tr2] k2] & Ht & [= <- <- <- _]).
      apply (taker_close_closes _ _ p) in Ht as [-> (q & k & quote & rate & tt & Hkq & -> & Hcl)]; [|done].
      split; [by apply (keyed_change b1)|]. split; [done|]. split; [done|]. constructor; [|constructor].
      apply (close_timed off p q c k quote expiry rate tt k2 Hc (Hp p eq_refl) Hkq Hcl). naive_solver.
    - injection H as <- <- _ _. split; [done|]. split; [done|]. split; [done|constructor]. }
  destruct (pending b) eqn:Hpb; intros H.
  - by apply (Hgo (set_pending b None) (expired t)); [|apply drop_pending_mid|].
  - by apply (Hgo b t).
Qed.

Lemma process_bar_ok b c off cash trades t b' cash' trades' t' :
  starts_at c = bar_start off -> 0 <= off -> book_ok off b ->
  _process_bar b c off strategy costs cash bar trades t = Ok (b', cash', trades', t') ->
  book_ok (off + 1) b' ∧ appended off trades trades'.
Proof.
  intros Hc Ho Hb%book_mid%cool_down_mid. unfold _process_bar. revert Hb. generalize (cool_down b). clear b.
  intros b Hb. destruct (_in_expiry_window _ _).
  - intros ([[[b1 tr] k] t1] & Hx & H)%bind_Ok. apply (flatten_spec _ _ _ _ _ _ _ _ _ Hb Hc) in Hx as (Hk & Hn & Hp & Htr).
    destruct (_record_close _ _ _ _ _) as [[b2 trades2] t2] eqn:Hr. injection H as <- _ <- _.
    apply record_close_appended with (off := off) in Hr as (Ha & (En & _ & _ & Ec & Er) & Ep); [|done]. split; [|done].
    cbn in *. split; [by apply (keyed_change b1)|intros e He; congruence|intros p He; congruence].
  - intros ([[b1 k] t1] & Hm & H)%bind_Ok. apply (match_entry_mid _ _ _ _ _ _ _ _ Hc Ho Hb) in Hm as [Hk Hn Hp].
    apply bind_Ok in H as ([[b2 tr] k2] & Hx & H). pose proof (check_exits_effect _ _ _ _ _ _ _ _ _ _ Hx) as (Xn & _ & _ & Xc & Xr).
    apply (check_exits_timed _ _ _ _ _ _ _ Hc Hp) in Hx as (Hp2 & Htr).
    destruct (_record_close _ _ _ _ _) as [[b3 trades3] t3] eqn:Hr.
    apply bind_Ok in H as ([b4 k4] & Hf & [= <- _ <- _]).
    apply record_close_appended with (off := off) in Hr as (Ha & (En & _ & _ & Ec & Er) & Ep); [|done]. split; [|done].
    pose proof (funding_kept _ _ _ _ Hf) as Hkept. apply charge_funding_effect in Hf as (Fn & _ & _ & Fc & Fr).
    cbn in *. split.
    + apply (keyed_change b1); congruence || done.
    + apply (pending_ok_later off (off + 1) b1); [lia|congruence| |done].
      intros [p4 H4]. destruct (Hkept _ H4) as (p3 & H3 & _ & _). rewrite Ep in H3. by apply Hp2 in H3 as [_ ?].
    + intros p4 H4. destruct (Hkept _ H4) as (p3 & H3 & E1 & E2). rewrite Ep in H3. apply Hp2 in H3 as [(i & Hi & ? & ?) _].
      exists i. unfold holds_since in *. by rewrite E1, E2.
Qed.

(** ** Resting the next entry *)

Lemma size_entry_pending r cash limit fee terms e : _size_entry r strategy cash limit fee terms = Ok (Sized e) ->
  pending_signal e = r ∧ is_pyramid_add e = false.
Proof.
  unfold _size_entry. intros (atr & _ & (lv & _ & H)%bind_Ok)%bind_Ok. destruct lv; [|done].
  apply bind_Ok in H as (ok & _ & H). destruct (negb ok); [done|].
  apply bind_Ok in H as (sz & _ & H). destruct sz as [[q k]|]; [|done]. by injection H as <-.
Qed.

Lemma size_add_pending r cash limit fee p e : _size_pyramid_add r strategy cash limit fee p = Ok (Sized e) ->
  pending_signal e = r ∧ is_pyramid_add e = true.
Proof.
  unfold _size_pyramid_add. intros (ok & _ & H)%bind_Ok. destruct (negb ok); [done|].
  do 3 (case_match; [done|]). apply bind_Ok in H as (sz & _ & H). destruct sz; [|done].
  apply bind_Ok in H as (q & _ & H). by injection H as <-.
Qed.

(** Only [_maybe_rest_entry] adds a resting entry, on this bar's record. *)
Lemma maybe_rest_spec b r cash limit may window t b' t' :
  _maybe_rest_entry b r strategy costs cash limit may window t = Ok (b', t') ->
  b' = b ∨ ∃ e, b' = set_pending b (Some e) ∧ pending_signal e = r ∧ pending b = None ∧ window = false ∧
    (is_pyramid_add e = false -> position b = None) ∧ (position b = None -> may = true).
Proof.
  unfold _maybe_rest_entry. destruct (entry_condition r); [|intros [= <- _]; by left|intros [= <- _]; by left].
  destruct (_entry_gate _ _ _ _ _) eqn:Hg; [intros [= <- _]; by left|].
  intros (sz & Hs & H)%bind_Ok. destruct sz as [e|]; injection H as <- _; [right|by left].
  exists e. unfold _entry_gate in Hg. destruct window; [done|]. destruct (pending b); [done|].
  destruct (0 <? book_cooldown b); [done|]. destruct (position b).
  - apply size_add_pending in Hs as [-> ->]. repeat split; congruence.
  - apply size_entry_pending in Hs as [-> ->]. destruct may; [|done]. repeat split; congruence.
Qed.

Lemma maybe_rest_ok b r cash limit may window t b' t' off :
  _maybe_rest_entry b r strategy costs cash limit may window t = Ok (b', t') ->
  record_starts_at r = bar_start off -> book_ok (off + 1) b -> book_ok (off + 1) b'.
Proof.
  intros [-> | (e & -> & He & _ & _ & Ha & _)]%maybe_rest_spec Hr [Hk Hp Hm]; [done|].
  split; [by apply (keyed_change b)| |exact Hm]. intros x [= <-]. rewrite He, Hr. split; [|exact Ha].
  apply bar_start_lt. lia.
Qed.

(** ** The run *)

Lemma step_book_ok off s i s' : 0 <= off ->
  step_book strategy costs bar (bar_start off) off s i = Ok s' ->
  ∀ b, sim_books s !! i = Some b -> book_ok off b ->
  ∃ b', sim_books s' = <[i := b']> (sim_books s) ∧ book_ok (off + 1) b' ∧
    appended off (sim_trades s) (sim_trades s').
Proof.
  intros Ho. unfold step_book. intros H b Hb Hok. rewrite Hb in H.
  apply bind_Ok in H as (c & Hc & H). apply bind_Ok in H as ([[[b1 k] tr1] t1] & Hp & H).
  apply bind_Ok in H as (r & Hr & H). apply bind_Ok in H as ([b2 t2] & Hm & [= <-]).
  pose proof (ok_keyed _ _ Hok) as [Kc Kr].
  assert (Hs : starts_at c = bar_start off).
  { by apply Kc, dict_get_Ok. }
  apply process_bar_ok with (off := off) in Hp as [Hok1 Happ]; [|done..].
  assert (Hrs : record_starts_at r = bar_start off).
  { by apply (record_keyed _ (ok_keyed _ _ Hok1)), dict_get_Ok. }
  cbn [sim_books sim_trades]. exists b2. rewrite list_insert_insert_eq.
  split; [done|]. split; [|done]. by eapply maybe_rest_ok in Hm.
Qed.

Lemma trade_ok_later n m t : n <= m -> trade_ok n t -> trade_ok m t.
Proof.
  intros Hnm (i & k & ? & ? & ? & ? & ? & ? & ?). exists i, k.
  split; [done|]. split; [done|]. split; [done|]. split; [lia|]. done.
Qed.

Lemma appended_ok off trades trades' : appended off trades trades' -> Forall (trade_ok off) trades -> Forall (trade_ok off) trades'.
Proof. intros (tr & -> & H) H0. by apply Forall_app. Qed.

(** The loop invariant before bar [n]. *)
Definition sim_ok (n : Z) (s : sim) : Prop :=
  Forall (book_ok n) (sim_books s) ∧ Forall (trade_ok (n - 1)) (sim_trades s).

Lemma fold_books_ok off s s' : 0 <= off -> sim_ok off s ->
  foldM (step_book strategy costs bar (bar_start off) off) s (seq 0 (length (sim_books s))) = Ok s' ->
  sim_ok (off + 1) s' ∧ length (sim_books s') = length (sim_books s).
Proof.
  intros Ho [Hb Ht] H.
  apply (foldM_seq_ind _ (λ i u, length (sim_books u) = length (sim_books s) ∧ Forall (trade_ok off) (sim_trades u) ∧
    ∀ j b, sim_books u !! j = Some b -> book_ok (if decide (j < i)%nat then off + 1 else off) b)) in H.
  - destruct H as (Hl & Htr & Hbk). split; [|done]. split; [|by rewrite Z.add_simpl_r].
    apply Forall_lookup. intros j b Hj. specialize (Hbk j b Hj). apply lookup_lt_Some in Hj.
    by rewrite decide_True in Hbk by lia.
  - split; [done|]. split.
    + eapply Forall_impl; [exact Ht|]. intros t. apply trade_ok_later. lia.
    + intros j b Hj. rewrite decide_False by lia. rewrite Forall_lookup in Hb. by eapply Hb.
  - intros i u v Hi (Hl & Htr & Hbk) Hv.
    destruct (lookup_lt_is_Some_2 (sim_books u) i) as [b Hub]; [lia|].
    specialize (Hbk i b Hub) as Hib. rewrite decide_False in Hib by lia.
    apply step_book_ok with (b := b) in Hv as (b' & Ebk & Hok & Happ); [|done..].
    rewrite Ebk, length_insert. split; [done|]. split; [by eapply appended_ok|].
    intros j x Hj. destruct (decide (j = i)) as [->|Hne].
    + rewrite list_lookup_insert_eq in Hj by lia. injection Hj as <-. by rewrite decide_True by lia.
    + rewrite list_lookup_insert_ne in Hj by done. specialize (Hbk j x Hj).
      destruct (decide (j < i)%nat); [rewrite decide_True by lia|rewrite decide_False by lia]; done.
Qed.

Lemma equity_point_starts t cash books m uo pt : _equity_point t cash books m uo = Ok pt -> point_starts_at pt = t.
Proof.
  unfold _equity_point. intros ([[[? ?] ?] ?] & _ & H)%bind_Ok. destruct (match _ with [(_, _)] => _ | _ => _ end).
  do 4 apply bind_Ok in H as (? & _ & H). by injection H as <-.
Qed.

Lemma run_bars_ok s n s' curve : sim_ok 0 s ->
  run_bars strategy costs bar start s n = Ok (s', curve) ->
  sim_ok (Z.of_nat n) s' ∧ map point_starts_at curve = grid start bar n.
Proof.
  intros Hs H.
  apply (foldM_seq_ind _ (λ i acc, sim_ok (Z.of_nat i) acc.1 ∧
    map point_starts_at acc.2 = (λ k, bar_start (Z.of_nat k)) <$> seq 0 i)) in H.
  - destruct H as [H1 H2]. split; [done|]. cbn in H2. rewrite H2. unfold bar_start. clear.
    enough (∀ j, (λ k, start + bar * Z.of_nat k) <$> seq j n = grid (start + bar * Z.of_nat j) bar n) as Hg
      by (rewrite Hg; f_equal; lia).
    induction n as [|n IH]; intros j; cbn; [done|]. f_equal. rewrite IH. f_equal. lia.
  - done.
  - intros i [u c0] [v c1] Hi [Hu Hc] Hv. unfold step_bar in Hv. apply bind_Ok in Hv as (w & Hw & Hv).
    apply bind_Ok in Hv as (pt & Hpt & [= <- <-]). cbn [fst snd] in *.
    apply fold_books_ok in Hw as [Hw _]; [|lia|done].
    rewrite map_app, Hc, seq_S, fmap_app. cbn. rewrite (equity_point_starts _ _ _ _ _ _ Hpt).
    split; [by rewrite Nat2Z.inj_succ|done].
Qed.

Lemma finish_book_ok n s i s' b : 0 <= n -> sim_books s !! i = Some b -> book_ok n b ->
  finish_book costs bar (bar_start n) s i = Ok s' -> Forall (trade_ok n) (sim_trades s) ->
  (∃ b', sim_books s' = <[i := b']> (sim_books s)) ∧ Forall (trade_ok n) (sim_trades s').
Proof.
  intros Hn Hb [[Kc _] _ Hp] H Ht. unfold finish_book in H. rewrite Hb in H. cbn [position set_pending] in H.
  destruct (position b) as [p|].
  - apply bind_Ok in H as (c & Hc & (q & _ & ([tr k] & Hcl & [= <-])%bind_Ok)%bind_Ok).
    split; [by eexists|]. cbn [sim_trades]. apply Forall_app. split; [done|]. constructor; [|constructor].
    assert (Hs : starts_at c = bar_start n) by (apply Kc; by apply dict_get_Ok in Hc).
    apply (close_timed n p p c (sim_cash s) q evaluation_end (cost_taker_fee_rate costs) tr k Hs);
      [by apply timed_timed_in, Hp|done|done|naive_solver].
  - injection H as <-. split; [by eexists|done].
Qed.

Lemma finish_run_ok n s s' : 0 <= n -> sim_ok n s ->
  finish_run costs bar (bar_start n) s = Ok s' -> Forall (trade_ok n) (sim_trades s').
Proof.
  intros Hn [Hb Ht] H.
  apply (foldM_seq_ind _ (λ i u, length (sim_books u) = length (sim_books s) ∧ Forall (trade_ok n) (sim_trades u) ∧
    ∀ j b, (i <= j)%nat -> sim_books u !! j = Some b -> book_ok n b)) in H; [by destruct H as (_ & ? & _)|..].
  - split; [done|]. split.
    + eapply Forall_impl; [exact Ht|]. intros t. apply trade_ok_later. lia.
    + intros j b _ Hj. rewrite Forall_lookup in Hb. by eapply Hb.
  - intros i u v Hi (Hl & Htr & Hbk) Hv.
    destruct (lookup_lt_is_Some_2 (sim_books u) i) as [b Hub]; [lia|].
    apply finish_book_ok with (b := b) in Hv as ([b' Eb] & Htr'); [|done|done|by eapply Hbk|done].
    rewrite Eb, length_insert. split; [done|]. split; [done|].
    intros j x Hj. rewrite list_lookup_insert_ne by lia. apply Hbk. lia.
Qed.

(** ** Concurrency *)

Definition opens (b : _Book) : Z := if is_open b then 1 else 0.

Lemma open_count_update books i b b' : books !! i = Some b ->
  open_count (<[i := b']> books) = open_count books - opens b + opens b'.
Proof.
  unfold open_count, opens, Zlen. revert i. induction books as [|x books IH]; intros [|i]; [done|done| |].
  - intros [= ->]. change (<[0%nat:=b']> (b :: books)) with (b' :: books). cbn [List.filter].
    destruct (is_open b), (is_open b'); cbn [length]; lia.
  - intros H. specialize (IH i H). change (<[S i:=b']> (x :: books)) with (x :: <[i:=b']> books).
    cbn [List.filter]. destruct (is_open x); cbn [length]; lia.
Qed.

Lemma is_open_false b : is_open b = false ↔ position b = None ∧ pending b = None.
Proof. unfold is_open. destruct (position b), (pending b); naive_solver. Qed.

(** A closed book stays closed until the entry step. *)
Lemma process_bar_closed b c off cash trades t b' cash' trades' t' : is_open b = false ->
  _process_bar b c off strategy costs cash bar trades t = Ok (b', cash', trades', t') -> is_open b' = false.
Proof.
  intros [Hp Hn]%is_open_false. assert (Hc : position (cool_down b) = None ∧ pending (cool_down b) = None)
    by (unfold cool_down; by destruct (_ <? _)).
  unfold _process_bar. revert Hc. generalize (cool_down b). clear b Hp Hn. intros b [Hp Hn].
  destruct (_in_expiry_window _ _).
  - unfold _flatten_for_expiry. rewrite Hn, Hp. cbn. intros [= <- _ _ _]. by apply is_open_false.
  - unfold _match_entry. rewrite Hn. cbn. rewrite (check_exits_flat _ _ _ _ Hp). cbn.
    unfold _charge_funding. rewrite Hp. destruct (futures costs); cbn; intros [= <- _ _ _]; by apply is_open_false.
Qed.

Lemma step_book_open off s i s' b : sim_books s !! i = Some b ->
  step_book strategy costs bar (bar_start off) off s i = Ok s' ->
  length (sim_books s') = length (sim_books s) ∧
  (open_count (sim_books s) <= max_concurrent_positions (portfolio_limits strategy) ->
   open_count (sim_books s') <= max_concurrent_positions (portfolio_limits strategy)).
Proof.
  intros Hb. unfold step_book. rewrite Hb.
  intros (c & _ & ([[[b1 k] tr1] t1] & Hp & (r & _ & ([b2 t2] & Hm & [= <-])%bind_Ok)%bind_Ok)%bind_Ok)%bind_Ok.
  cbn [sim_books]. split; [by rewrite !length_insert|]. intros Hle.
  assert (Hb1 : <[i := b1]> (sim_books s) !! i = Some b1) by (apply list_lookup_insert_eq; by eapply lookup_lt_Some).
  assert (H1 : open_count (<[i := b1]> (sim_books s)) <= max_concurrent_positions (portfolio_limits strategy)).
  { rewrite (open_count_update _ _ b) by done. unfold opens.
    destruct (is_open b) eqn:Eb; [destruct (is_open b1); lia|]. rewrite (process_bar_closed _ _ _ _ _ _ _ _ _ _ Eb Hp). lia. }
  apply maybe_rest_spec in Hm as [-> | (e & -> & _ & Hn & _ & _ & Hmay)]; [by rewrite list_insert_insert_eq|].
  rewrite (open_count_update _ _ b1) by done. unfold opens.
  set (now := open_count (<[i:=b1]> (sim_books s))) in *.
  assert (Hone : (if is_open (set_pending b1 (Some e)) then 1 else 0) <= 1) by (destruct (is_open (set_pending b1 (Some e))); lia).
  destruct (is_open b1) eqn:E1; [lia|]. apply is_open_false in E1 as [Hpos _].
  specialize (Hmay Hpos). apply Z.ltb_lt in Hmay. lia.
Qed.

Lemma run_bars_open s n s' curve :
  open_count (sim_books s) <= max_concurrent_positions (portfolio_limits strategy) ->
  run_bars strategy costs bar start s n = Ok (s', curve) ->
  open_count (sim_books s') <= max_concurrent_positions (portfolio_limits strategy).
Proof.
  intros Hs H. apply (foldM_ind _ (λ acc, open_count (sim_books acc.1) <= max_concurrent_positions (portfolio_limits strategy)))
    in H; [done|done|].
  intros [u c0] off [v c1] _ Hu Hv. unfold step_bar in Hv. apply bind_Ok in Hv as (w & Hw & (pt & _ & [= <- _])%bind_Ok).
  cbn [fst] in *.
  apply (foldM_seq_ind _ (λ _ x, length (sim_books x) = length (sim_books u) ∧
    open_count (sim_books x) <= max_concurrent_positions (portfolio_limits strategy))) in Hw; [by destruct Hw|done|].
  intros i x y Hi [Hl Hx] Hy. destruct (lookup_lt_is_Some_2 (sim_books x) i) as [b Hb]; [lia|].
  destruct (step_book_open _ _ _ _ _ Hb Hy) as [Hl' Ho]. split; [congruence|auto].
Qed.

(** Books as [_simulate_books] builds them. *)
Definition fresh (b : _Book) : Prop := keyed b ∧ pending b = None ∧ position b = None.

Lemma fresh_sim_ok books cash : Forall fresh books -> sim_ok 0 (mk_sim books cash [] empty_tally).
Proof.
  intros Hf. split; [|constructor]. eapply Forall_impl; [exact Hf|]. cbn. intros b (Hk & Hn & Hp).
  split; [done|intros e He; congruence|intros p Hq; congruence].
Qed.

Lemma fresh_open_count books : Forall fresh books -> open_count books = 0.
Proof.
  unfold open_count, Zlen. induction 1 as [|b l (_ & Hn & Hp) _ IH]; cbn; [done|].
  by rewrite (proj2 (is_open_false b) (conj Hp Hn)).
Qed.

End Timing.


(** After every bar, at most [max_concurrent_positions] product books hold a position or a
    resting entry. *)
Lemma open_books_bounded {dc : DecimalContext} strategy costs bar start n books cash s curve :
  0 <= max_concurrent_positions (portfolio_limits strategy) -> Forall fresh books ->
  run_bars strategy costs bar start (mk_sim books cash [] empty_tally) n = Ok (s, curve) ->
  open_count (sim_books s) <= max_concurrent_positions (portfolio_limits strategy).
Proof. intros Hm Hf Hrun. eapply run_bars_open, Hrun. cbn. by rewrite fresh_open_count. Qed.

#[local] Existing Instance simulation_context.

Lemma demo_books_fresh : Forall fresh demo_books.
Proof.
  assert (∃ m r, demo_books = [mk_book "BTC-USD" m r None None 0] ∧
    map_Forall (λ t c, starts_at c = t) m ∧ map_Forall (λ t r, record_starts_at r = t) r) as (m & r & -> & Hm & Hr).
  { eexists _, _. split; [vm_compute; reflexivity|]. split; apply (bool_decide_unpack _); vm_compute; exact I. }
  repeat constructor; assumption.
Qed.

