(* ===== verification/NoLookahead.v ===== *)
(** * NoLookahead: a simulated past does not depend on the future

    Two runs whose candles and signal records agree on the bars already processed are in the
    same state: the same cash, trades, funnel counters, equity curve, and in every book the
    same resting entry, position and cooldown. *)

From S2P Require Import Prelude Decimals DecimalFacts DecimalText Market Geometry.
From S2P Require Import IndicatorSpec Conditions Strategy Sizing Broker KernelState Kernel.
From S2P Require Import KernelRun Scenario Funnel RunInvariants.

Open Scope Z_scope.

(** The books agree on their own state and on every bar before [horizon]. *)
Record same_view (horizon : datetime) (b b' : _Book) : Prop := {
  view_product : book_product_id b = book_product_id b';
  view_pending : pending b = pending b';
  view_position : position b = position b';
  view_cooldown : book_cooldown b = book_cooldown b';
  view_candles : ∀ t, t < horizon -> candle_by_start b !! t = candle_by_start b' !! t;
  view_records : ∀ t, t < horizon -> records b !! t = records b' !! t
}.

Section Views.
Context {dc : DecimalContext} (strategy : StrategyDefinition) (costs : _Costs).
Context (bar : timedelta) (horizon : datetime).

Notation view := (same_view horizon).

Lemma view_set_pending b b' p : view b b' -> view (set_pending b p) (set_pending b' p).
Proof. intros []; by split. Qed.
Lemma view_set_position b b' p : view b b' -> view (set_position b p) (set_position b' p).
Proof. intros []; by split. Qed.
Lemma view_set_cooldown b b' n : view b b' -> view (set_cooldown b n) (set_cooldown b' n).
Proof. intros []; by split. Qed.
Hint Resolve view_set_pending view_set_position view_set_cooldown : core.

(** A view beside equal values. *)
Definition with_equal {X} (a : _Book * X) (a' : _Book * X) : Prop := view a.1 a'.1 ∧ a.2 = a'.2.
Definition with_equal2 {X Y} (a a' : _Book * X * Y) : Prop := view a.1.1 a'.1.1 ∧ a.1.2 = a'.1.2 ∧ a.2 = a'.2.
Definition with_equal3 {X Y W} (a a' : _Book * X * Y * W) : Prop :=
  view a.1.1.1 a'.1.1.1 ∧ a.1.1.2 = a'.1.1.2 ∧ a.1.2 = a'.1.2 ∧ a.2 = a'.2.

(** Computations that only read shared values. *)
Ltac same :=
  repeat match goal with
  | |- result_rel _ (mbind _ ?m) (mbind _ ?m) => apply rel_same; intros ?
  | |- result_rel _ (if ?b then _ else _) (if ?b then _ else _) => destruct b
  | |- result_rel _ (match ?x with _ => _ end) (match ?x with _ => _ end) => destruct x
  | |- result_rel _ (let '(_, _) := ?x in _) (let '(_, _) := ?x in _) => destruct x
  | |- result_rel _ (Ok _) (Ok _) => constructor
  | |- result_rel _ (Raise _) (Raise _) => constructor
  end; try (unfold with_equal, with_equal2, with_equal3; cbn; by auto 8).

Lemma taker_close_rel b b' p c ref why cash : view b b' ->
  result_rel with_equal2 (taker_close b p c ref why costs cash bar) (taker_close b' p c ref why costs cash bar).
Proof. intros Hv. unfold taker_close. same. Qed.
Hint Resolve taker_close_rel : core.

Lemma liquidate_rel b b' c cash : view b b' ->
  result_rel with_equal2 (_liquidate b c costs cash bar) (_liquidate b' c costs cash bar).
Proof. intros Hv. unfold _liquidate. rewrite (view_position _ _ _ Hv). same. Qed.

Lemma stop_out_rel b b' c cash : view b b' ->
  result_rel with_equal2 (_stop_out b c costs cash bar) (_stop_out b' c costs cash bar).
Proof. intros Hv. unfold _stop_out. rewrite (view_position _ _ _ Hv). same. Qed.

Lemma take_profit_rel b b' c cash : view b b' ->
  result_rel with_equal2 (_match_take_profit b c costs cash bar) (_match_take_profit b' c costs cash bar).
Proof. intros Hv. unfold _match_take_profit. rewrite (view_position _ _ _ Hv). same. Qed.

Lemma manage_rel b b' c off cash : starts_at c < horizon -> view b b' ->
  result_rel with_equal2 (_manage_position b c off strategy costs cash bar) (_manage_position b' c off strategy costs cash bar).
Proof.
  intros Hc Hv. unfold _manage_position. rewrite (view_position _ _ _ Hv), (view_records _ _ _ Hv _ Hc). same.
Qed.

Lemma or_else_rel r r' k k' : result_rel with_equal2 r r' ->
  (∀ b b' cash, view b b' -> result_rel with_equal2 (k b cash) (k' b' cash)) ->
  result_rel with_equal2 (or_else r k) (or_else r' k').
Proof.
  intros Hr Hk. unfold or_else. eapply rel_bind; [exact Hr|].
  intros [[b tr] cash] [[b' tr'] cash'] (Hv & Ht & Hx). cbn in Hv, Ht, Hx. subst. destruct tr'; [by constructor|auto].
Qed.

Lemma check_exits_rel b b' c off cash : starts_at c < horizon -> view b b' ->
  result_rel with_equal2 (check_exits b c off strategy costs cash bar) (check_exits b' c off strategy costs cash bar).
Proof.
  intros Hc Hv. unfold check_exits. repeat (apply or_else_rel; [|intros]).
  - by apply liquidate_rel.
  - by apply stop_out_rel.
  - by apply take_profit_rel.
  - by apply manage_rel.
Qed.

Lemma fill_rel b b' e c off cash t : view b b' ->
  result_rel with_equal2 (_fill_resting_entry b e c off costs cash t) (_fill_resting_entry b' e c off costs cash t).
Proof. intros Hv. unfold _fill_resting_entry. rewrite (view_position _ _ _ Hv). same. Qed.

Lemma match_entry_rel b b' c off cash t : view b b' ->
  result_rel with_equal2 (_match_entry b c off strategy costs cash t) (_match_entry b' c off strategy costs cash t).
Proof.
  intros Hv. unfold _match_entry, expire_entry. rewrite (view_position _ _ _ Hv), (view_pending _ _ _ Hv).
  same; apply fill_rel; auto.
Qed.

Lemma flatten_rel b b' c cash t : view b b' ->
  result_rel with_equal3 (_flatten_for_expiry b c costs cash bar t) (_flatten_for_expiry b' c costs cash bar t).
Proof.
  intros Hv. unfold _flatten_for_expiry. rewrite (view_pending _ _ _ Hv).
  destruct (pending b'); cbn; rewrite (view_position _ _ _ Hv); same;
  (eapply rel_bind; [apply taker_close_rel; auto|]); intros [[x y] z] [[x' y'] z'] (H1 & H2 & H3);
  cbn in *; subst; by constructor.
Qed.

Lemma charge_funding_rel b b' c cash : view b b' ->
  result_rel with_equal (_charge_funding b c costs cash bar) (_charge_funding b' c costs cash bar).
Proof. intros Hv. unfold _charge_funding. rewrite (view_position _ _ _ Hv). same. Qed.

Lemma record_close_rel b b' tr trades t : view b b' ->
  with_equal2 (_record_close b tr strategy trades t) (_record_close b' tr strategy trades t).
Proof. intros Hv. unfold _record_close. destruct tr; split; cbn; auto. Qed.

Lemma process_bar_rel b b' c off cash trades t : starts_at c < horizon -> view b b' ->
  result_rel with_equal3 (_process_bar b c off strategy costs cash bar trades t)
    (_process_bar b' c off strategy costs cash bar trades t).
Proof.
  intros Hc Hv0. assert (Hv : view (cool_down b) (cool_down b')).
  { unfold cool_down. rewrite (view_cooldown _ _ _ Hv0). destruct (_ <? _); auto. }
  unfold _process_bar. revert Hv. generalize (cool_down b) (cool_down b'). clear b b' Hv0. intros b b' Hv.
  destruct (_in_expiry_window _ _).
  - eapply rel_bind; [by apply flatten_rel|].
    intros [[[b1 tr] k] t1] [[[b1' tr'] k'] t1'] (H1 & H2 & H3 & H4). cbn in H1, H2, H3, H4. subst.
    destruct (record_close_rel _ _ tr' trades t1' H1) as (R1 & R2 & R3).
    destruct (_record_close b1 _ _ _ _) as [[? ?] ?], (_record_close b1' _ _ _ _) as [[? ?] ?].
    cbn in R1, R2, R3. subst. by constructor.
  - eapply rel_bind; [by apply match_entry_rel|].
    intros [[b1 k] t1] [[b1' k'] t1'] (H1 & H2 & H3). cbn in H1, H2, H3. subst.
    eapply rel_bind; [by apply check_exits_rel|].
    intros [[b2 tr] k2] [[b2' tr'] k2'] (H4 & H5 & H6). cbn in H4, H5, H6. subst.
    destruct (record_close_rel _ _ tr' trades t1' H4) as (R1 & R2 & R3).
    destruct (_record_close b2 _ _ _ _) as [[? ?] ?], (_record_close b2' _ _ _ _) as [[? ?] ?].
    cbn in R1, R2, R3. subst. eapply rel_bind; [by apply charge_funding_rel|].
    intros [? ?] [? ?] [F1 F2]. cbn in *. subst. by constructor.
Qed.

Lemma maybe_rest_rel b b' r cash limit may window t : view b b' ->
  result_rel with_equal (_maybe_rest_entry b r strategy costs cash limit may window t)
    (_maybe_rest_entry b' r strategy costs cash limit may window t).
Proof.
  intros Hv. unfold _maybe_rest_entry, _entry_gate.
  rewrite (view_position _ _ _ Hv), (view_pending _ _ _ Hv), (view_cooldown _ _ _ Hv). same.
Qed.

(** ** The market data of a book never changes *)

Definition same_data (b b' : _Book) : Prop := candle_by_start b' = candle_by_start b ∧ records b' = records b.

Lemma match_entry_data b c off cash t b' cash' t' :
  _match_entry b c off strategy costs cash t = Ok (b', cash', t') -> same_data b b'.
Proof.
  unfold _match_entry. destruct (pending b) as [e|]; [|by intros [= <- _ _]].
  destruct (_ && _); [by intros [= <- _ _]|]. destruct (_ <? _); [by intros [= <- _ _]|].
  intros ([] & _ & H)%bind_Ok.
  - unfold _fill_resting_entry in H. destruct (position _); apply bind_Ok in H as ([[x|] k] & _ & H); by injection H as <- _ _.
  - destruct (_ <? _) in H; [by injection H as <- _ _|]. destruct (on_unfilled_entry _); [by injection H as <- _ _|].
    apply bind_Ok in H as ([] & _ & H); by injection H as <- _ _.
Qed.

Lemma record_close_data b tr trades t b' trades' t' :
  _record_close b tr strategy trades t = (b', trades', t') -> same_data b b'.
Proof. unfold _record_close. by destruct tr; intros [= <- _ _]. Qed.

Lemma flatten_data b c cash t r :
  _flatten_for_expiry b c costs cash bar t = Ok r -> same_data b r.1.1.1.
Proof.
  unfold _flatten_for_expiry. destruct (pending b); cbn; destruct (position b); try (by intros [= <-]);
  intros ([[b2 tr] k] & (_ & _ & _ & Ec & Er)%taker_close_effect & [= <-])%bind_Ok; done.
Qed.

Lemma process_bar_data b c off cash trades t r :
  _process_bar b c off strategy costs cash bar trades t = Ok r -> same_data b r.1.1.1.
Proof.
  unfold _process_bar. assert (Hcd : same_data b (cool_down b)) by (unfold cool_down; by destruct (_ <? _)).
  revert Hcd. generalize (cool_down b). intros b0 [Ec Er] H. unfold same_data. rewrite <- Ec, <- Er.
  destruct (_in_expiry_window _ _).
  - apply bind_Ok in H as ([[[b1 tr] k] t1] & Hx & H). apply flatten_data in Hx as [F1 F2].
    destruct (_record_close _ _ _ _ _) as [[b2 ?] ?] eqn:Hr. apply record_close_data in Hr as [R1 R2].
    injection H as <-. cbn in *. split; congruence.
  - apply bind_Ok in H as ([[b1 k] t1] & [M1 M2]%match_entry_data & H).
    apply bind_Ok in H as ([[b2 tr] k2] & (_ & _ & _ & X1 & X2)%check_exits_effect & H).
    destruct (_record_close _ _ _ _ _) as [[b3 ?] ?] eqn:Hr. apply record_close_data in Hr as [R1 R2].
    apply bind_Ok in H as (f & (_ & _ & _ & F1 & F2)%charge_funding_effect & [= <-]). cbn in *. split; congruence.
Qed.

Lemma step_book_keyed starts off s i s' : step_book strategy costs bar starts off s i = Ok s' ->
  Forall keyed (sim_books s) -> Forall keyed (sim_books s').
Proof.
  unfold step_book. destruct (sim_books s !! i) as [b|] eqn:E; [|done].
  intros (c & _ & ([[[b1 k] tr1] t1] & [P1 P2]%process_bar_data & (r & _ & ([b2 t2] & Hm & [= <-])%bind_Ok)%bind_Ok)%bind_Ok)%bind_Ok Hk.
  cbn [sim_books fst] in *. rewrite list_insert_insert_eq. apply Forall_insert; [done|].
  assert (Hb : keyed b) by (rewrite Forall_lookup in Hk; by eapply Hk). apply (keyed_change b); [..|done].
  all: by apply maybe_rest_spec in Hm as [-> | (e & -> & _)].
Qed.

(** ** The run *)

Record same_sim (s s' : sim) : Prop := {
  same_books : Forall2 view (sim_books s) (sim_books s');
  same_cash : sim_cash s = sim_cash s';
  same_trades : sim_trades s = sim_trades s';
  same_tally : sim_tally s = sim_tally s'
}.

Lemma open_count_view l l' : Forall2 view l l' -> open_count l = open_count l'.
Proof.
  unfold open_count, Zlen. induction 1 as [|b b' l l' Hv _ IH]; [done|]. cbn.
  assert (is_open b = is_open b') as -> by (unfold is_open; by rewrite (view_position _ _ _ Hv), (view_pending _ _ _ Hv)).
  destruct (is_open b'); cbn [length]; lia.
Qed.

Lemma step_book_rel starts off s s' i : starts < horizon -> same_sim s s' ->
  Forall (λ b, keyed b) (sim_books s) ->
  result_rel same_sim (step_book strategy costs bar starts off s i) (step_book strategy costs bar starts off s' i).
Proof.
  intros Hs [Hb Hc Ht Hy] Hk. unfold step_book. rewrite Hc, Ht, Hy.
  destruct (sim_books s !! i) as [b|] eqn:E.
  2: { assert (sim_books s' !! i = None) as -> ; [|constructor].
    apply lookup_ge_None. rewrite <- (Forall2_length _ _ _ Hb). by apply lookup_ge_None. }
  destruct (Forall2_lookup_l _ _ _ _ _ Hb E) as (b' & -> & Hv). unfold dict_get.
  rewrite <- (view_candles _ _ _ Hv _ Hs). destruct (candle_by_start b !! starts) as [c|] eqn:Ec; cbn; [|constructor].
  assert (Hcs : starts_at c = starts).
  { rewrite Forall_lookup in Hk. by eapply (candle_keyed _ (Hk _ _ E)). }
  eapply rel_bind; [apply process_bar_rel; [lia|done]|].
  intros [[[b1 k] tr] t] [[[b1' k'] tr'] t'] (H1 & H2 & H3 & H4). cbn in H1, H2, H3, H4. subst k' tr' t'.
  rewrite <- (view_records _ _ _ H1 _ Hs). destruct (records b1 !! starts) as [r|]; cbn; [|constructor].
  assert (H1b : Forall2 view (<[i:=b1]> (sim_books s)) (<[i:=b1']> (sim_books s'))) by (by apply Forall2_insert).
  rewrite (open_count_view _ _ H1b). eapply rel_bind; [by apply maybe_rest_rel|].
  intros [b2 t2] [b2' t2'] [H5 H6]. cbn in H5, H6. subst. constructor. split; cbn; try done. by apply Forall2_insert.
Qed.

Lemma same_books_view l l' : Forall2 view l l' -> length l = length l'.
Proof. apply Forall2_length. Qed.

(** What the equity point reads of a book. *)
Lemma equity_point_rel starts cash l l' m uo : starts < horizon -> Forall2 view l l' ->
  _equity_point starts cash l m uo = _equity_point starts cash l' m uo.
Proof.
  intros Hs Hl. unfold _equity_point. f_equal. generalize (0, cash, @nil (_Position * decimal), d0).
  induction Hl as [|b b' l l' Hv _ IH]; intros acc; [done|]. cbn. destruct acc as [[[? ?] ?] ?].
  unfold dict_get. rewrite (view_candles _ _ _ Hv _ Hs), (view_position _ _ _ Hv).
  destruct (candle_by_start b' !! starts); cbn; [|done].
  destruct (position b'); cbn; [destruct (mark _ _ _); cbn; [apply IH|done]|apply IH].
Qed.

Lemma step_bar_rel start off s s' curve : bar_start bar start (Z.of_nat off) < horizon -> same_sim s s' ->
  Forall keyed (sim_books s) ->
  result_rel (λ a a', same_sim a.1 a'.1 ∧ a.2 = a'.2 ∧ Forall keyed (sim_books a.1))
    (step_bar strategy costs bar start (s, curve) off) (step_bar strategy costs bar start (s', curve) off).
Proof.
  intros Ho Hs Hk. unfold step_bar. rewrite <- (same_books_view _ _ (same_books _ _ Hs)).
  eapply rel_bind.
  - apply (rel_foldM (λ a a', same_sim a a' ∧ Forall keyed (sim_books a))); [done|].
    intros i u v _ [Huv Hu]. pose proof (step_book_rel _ (Z.of_nat off) _ _ i Ho Huv Hu) as Hr.
    unfold bar_start in Hr. revert Hr. generalize (step_book strategy costs bar (start + bar * Z.of_nat off) (Z.of_nat off) v i).
    destruct (step_book _ _ _ _ _ u i) as [u'|] eqn:E; intros r Hr; inversion Hr; subst; constructor.
    split; [done|]. by eapply step_book_keyed in E.
  - intros u v [Huv Hu]. rewrite (same_cash _ _ Huv), (equity_point_rel _ _ _ _ _ _ Ho (same_books _ _ Huv)).
    apply rel_same. intros pt. by constructor.
Qed.

End Views.

(** C1: no look-ahead. If two sets of books agree on every candle and signal record before the
    end of bar [n], their runs over the first [n] bars fail alike, or reach the same cash,
    trades, funnel and equity curve with the same resting entries and positions: no value of
    a later bar can influence them. *)
Theorem no_lookahead {dc : DecimalContext} strategy costs bar start n books books' cash tally :
  0 < bar -> Forall keyed books ->
  Forall2 (same_view (bar_start bar start (Z.of_nat n))) books books' ->
  result_rel (λ a a', same_sim (bar_start bar start (Z.of_nat n)) a.1 a'.1 ∧ a.2 = a'.2)
    (run_bars strategy costs bar start (mk_sim books cash [] tally) n)
    (run_bars strategy costs bar start (mk_sim books' cash [] tally) n).
Proof.
  intros Hbar Hk Hv. unfold run_bars. set (h := bar_start _ _ _) in *.
  assert (H : result_rel (λ a a', same_sim h a.1 a'.1 ∧ a.2 = a'.2 ∧ Forall keyed (sim_books a.1))
    (foldM (step_bar strategy costs bar start) (mk_sim books cash [] tally, []) (seq 0 n))
    (foldM (step_bar strategy costs bar start) (mk_sim books' cash [] tally, []) (seq 0 n))).
  { apply rel_foldM; [by split; [split|]|]. intros off [u c] [v c'] Hoff (Huv & Hc & Hu). cbn in Huv, Hc, Hu. subst.
    apply step_bar_rel; [|done..]. apply elem_of_seq in Hoff. unfold h, bar_start. nia. }
  destruct H as [a a' (H1 & H2 & _)|e]; by constructor.
Qed.

(** Two futures after bar 4: the demo window, and one whose bar 5 crashes. *)
Definition crashed_books : list _Book :=
  map (λ b, mk_book (book_product_id b) (<[demo_start + hour * 5 := demo_bar 5 50 51 40 45]> (candle_by_start b))
              (records b) (pending b) (position b) (book_cooldown b)) demo_books.

Lemma no_lookahead_witness :
  result_rel (λ a a', same_sim (bar_start hour demo_start 5) a.1 a'.1 ∧ a.2 = a'.2)
    (@run_bars simulation_context demo_strategy demo_costs hour demo_start demo_sim 5)
    (@run_bars simulation_context demo_strategy demo_costs hour demo_start (mk_sim crashed_books (of_Z 1000) [] empty_tally) 5).
Proof.
  apply (@no_lookahead simulation_context demo_strategy demo_costs hour demo_start 5 demo_books crashed_books (of_Z 1000) empty_tally).
  - reflexivity.
  - eapply Forall_impl; [exact demo_books_fresh|]. by intros b [? _].
  - unfold crashed_books. generalize demo_books. intros l. induction l as [|b l IH]; constructor; [|done]. split; try done.
    intros t Ht. cbn. rewrite lookup_insert_ne; [done|]. unfold bar_start in Ht. lia.
Defined.
