(* ===== verification/KernelFacts.v ===== *)
(** * KernelFacts: money, liquidation, stops and drawdown of a run

    What a simulated book pays and earns, when it is liquidated or expires, where a stop fills,
    a resting add that outlives its position, and the drawdown pass. *)

From S2P Require Import Prelude Decimals DecimalFacts DecimalText Market Geometry IndicatorSpec Conditions Strategy.
From S2P Require Import Sizing Broker KernelState Kernel KernelRun Scenario Funnel ExitRules RunInvariants.

Open Scope Z_scope.

(** * Cash and recorded profit agree

    The simulator books cash in one order of rounded additions and the trade's net profit in
    another. Both stay within one part in ten to the eighteenth of the money moved, so the
    recorded profit explains the change of cash; and an entry never spends cash it has not. *)

Section Accounting.
Context {dc : DecimalContext} (Hw : wide dc).

(** Two rounded steps from a start. *)
Lemma entry_cash_near short cash n f x y z : small x (val cash) -> small y (val n) -> small z (val f) ->
  near (unit_error * (3 * x + 3 * y + z)) (val (entry_cash short cash n f))
    (val cash + (if short then val n else - val n) - val f).
Proof.
  intros Hc Hn Hf. unfold entry_cash. destruct short.
  - destruct (add_near Hw cash n x y Hc Hn) as [[] H2]. destruct (sub_near Hw _ _ _ _ H2 Hf) as [[] _].
    unfold near, unit_error in *. lra.
  - destruct (sub_near Hw cash n x y Hc Hn) as [[] H2]. destruct (sub_near Hw _ _ _ _ H2 Hf) as [[] _].
    unfold near, unit_error in *. lra.
Qed.

(** The recorded fill holds the computed values. *)
Lemma result_decimal_val d c : result_decimal d = Ok c -> (val c == val d)%Q.
Proof. unfold result_decimal. intros H. case_ok H; injection H as <-; apply val_canon. Qed.

Lemma maker_fill_vals s p q n f r fill : maker_fill s p q n f r = Ok fill ->
  (val (fill_quantity fill) == val q ∧ val (fill_notional fill) == val n ∧ val (fill_fee fill) == val f)%Q.
Proof.
  unfold maker_fill. intros H. apply bind_Ok in H as (p1 & _ & H). apply bind_Ok in H as (q1 & Hq & H).
  apply bind_Ok in H as (n1 & Hn & H). apply bind_Ok in H as (f1 & Hf & H). apply bind_Ok in H as (r1 & _ & [= <-]).
  cbn. auto using result_decimal_val.
Qed.

(** What opening does to cash, in terms of the recorded entry. *)
Lemma open_position_cash e c cash off costs p cash' : _open_position e c cash off costs = Ok (Some p, cash') ->
  ∃ n f : decimal, (val (fill_notional (position_entry p)) == val n)%Q ∧ (val (fill_fee (position_entry p)) == val f)%Q ∧
    position_side p = pending_side e ∧ cash' = entry_cash (is_short (pending_side e)) cash n f ∧
    (futures costs = None -> is_short (pending_side e) = false -> (val (n + f)%dec <= val cash)%Q).
Proof.
  unfold _open_position. cbv zeta. intros ([[q u]|] & Hs & H)%bind_Ok; [|done].
  set (n := (q * _)%dec) in H. set (f0 := (n * cost_maker_fee_rate costs)%dec) in H.
  set (f := match u with Some _ => _ | None => _ end) in H.
  match type of H with (if ?b then _ else _) = _ => destruct b eqn:Hg; [done|] end.
  apply bind_Ok in H as (en & (_ & Hn & Hf)%maker_fill_vals & [= <- <-]). exists n, f. cbn.
  repeat split; try done. intros Hfut Hlong. rewrite Hfut, Hlong in Hg. cbn in Hg. by apply dltb_ge in Hg.
Qed.

(** What closing does to cash and records, in terms of the recorded legs. *)
Lemma close_position_cash p c cash q why rate bar t cash' : funding p = None ->
  _close_position p c cash q why rate bar = Ok (t, cash') ->
  ∃ n f xn xf : decimal,
    n = fill_notional (position_entry p) ∧ f = fill_fee (position_entry p) ∧ trade_entry t = position_entry p ∧
    (val (fill_notional (exit_fill (trade_exit t))) == val xn)%Q ∧ (val (fill_fee (exit_fill (trade_exit t))) == val xf)%Q ∧
    if is_short (position_side p)
    then (val (net_pnl t) == val (n - f - xn - xf)%dec)%Q ∧ cash' = (cash - xn - xf)%dec
    else (val (net_pnl t) == val (xn - xf - n - f)%dec)%Q ∧ cash' = (cash + xn - xf)%dec.
Proof.
  intros Hfund. unfold _close_position. rewrite Hfund. cbv zeta.
  set (xn := (fill_quantity _ * price q)%dec). set (xf := match unit_fee p with Some _ => _ | None => _ end).
  intros (bare & (_ & Hxn & Hxf)%maker_fill_vals & H)%bind_Ok. apply bind_Ok in H as (ex & Hex & H).
  assert (Hev : fill_notional ex = fill_notional bare ∧ fill_fee ex = fill_fee bare).
  { unfold _fill_evidence in Hex. destruct (executable_side q); [|by injection Hex as <-].
    apply bind_Ok in Hex as (r1 & _ & Hex). apply bind_Ok in Hex as (r2 & _ & [= <-]). done. }
  destruct Hev as [E1 E2].
  exists (fill_notional (position_entry p)), (fill_fee (position_entry p)), xn, xf.
  destruct (is_short (position_side p)); apply bind_Ok in H as (g & _ & H); apply bind_Ok in H as (net & Hnet & H);
    apply bind_Ok in H as (pd & _ & H); apply bind_Ok in H as (tt & Hv & [= <- <-]);
    unfold validate_trade in Hv; case_ok Hv; injection Hv as <-; cbn; rewrite E1, E2;
    repeat split; try done; by apply result_decimal_val.
Qed.

(** The money a round trip moves. *)
Definition turnover (t : BacktestTrade) : Q :=
  (Qabs (val (fill_notional (trade_entry t))) + Qabs (val (fill_fee (trade_entry t))) +
   Qabs (val (fill_notional (exit_fill (trade_exit t)))) + Qabs (val (fill_fee (exit_fill (trade_exit t)))))%Q.

(** A trade's recorded net profit explains the cash its entry and exit moved, up to one
    part in ten to the eighteenth of the cash and the turnover, for longs and shorts, spot
    and dated futures, whatever happened to the shared cash in between. *)
Lemma net_pnl_explains_cash e c0 cash0 off costs p cash1 q c1 cash2 quote why rate bar t cash3 :
  _open_position e c0 cash0 off costs = Ok (Some p, cash1) ->
  kept p q -> funding p = None ->
  _close_position q c1 cash2 quote why rate bar = Ok (t, cash3) ->
  near (slack * (Qabs (val cash0) + Qabs (val cash2) + turnover t))
    ((val cash1 - val cash0) + (val cash3 - val cash2)) (val (net_pnl t)).
Proof.
  intros (n & f & Hn & Hf & Hside & -> & _)%open_position_cash (Ke & Ks & _ & _ & _ & _ & Kf) Hfund.
  rewrite <- Kf in Hfund. intros (n' & f' & xn & xf & -> & -> & Et & Hxn & Hxf & Hout)%close_position_cash; [|done].
  unfold turnover. rewrite Et, Ke in *. rewrite Ks, Hside in Hout.
  pose proof (small_abs (val cash0)) as S0. pose proof (small_abs (val cash2)) as S2.
  pose proof (small_abs (val (fill_notional (position_entry p)))) as Sn'.
  pose proof (small_abs (val (fill_fee (position_entry p)))) as Sf'.
  pose proof (small_abs (val (fill_notional (exit_fill (trade_exit t))))) as Sxn'.
  pose proof (small_abs (val (fill_fee (exit_fill (trade_exit t))))) as Sxf'.
  set (an := Qabs (val (fill_notional (position_entry p)))) in *. set (af := Qabs (val (fill_fee (position_entry p)))) in *.
  set (axn := Qabs (val (fill_notional (exit_fill (trade_exit t))))) in *.
  set (axf := Qabs (val (fill_fee (exit_fill (trade_exit t))))) in *.
  pose proof (small_val an n _ (Qeq_sym _ _ Hn) Sn') as Sn. pose proof (small_val af f _ (Qeq_sym _ _ Hf) Sf') as Sf.
  pose proof (small_val axn xn _ (Qeq_sym _ _ Hxn) Sxn') as Sxn. pose proof (small_val axf xf _ (Qeq_sym _ _ Hxf) Sxf') as Sxf.
  destruct (entry_cash_near (is_short (pending_side e)) cash0 n f _ _ _ S0 Sn Sf) as [A1 A2].
  destruct (is_short (pending_side e)); destruct Hout as [Hnet ->].
  - destruct (entry_cash_near false cash2 xn xf _ _ _ S2 Sxn Sxf) as [B1 B2]. unfold entry_cash in B1, B2.
    destruct (sub_near Hw _ _ _ _ Sn' Sf') as [[] T1]. destruct (sub_near Hw _ _ _ _ T1 Sxn) as [[] T2].
    destruct (sub_near Hw _ _ _ _ T2 Sxf) as [[] _]. unfold near, slack, unit_error, small in *. lra.
  - destruct (entry_cash_near true cash2 xn xf _ _ _ S2 Sxn Sxf) as [B1 B2]. unfold entry_cash in B1, B2.
    destruct (sub_near Hw _ _ _ _ Sxn Sxf) as [[] T1]. destruct (sub_near Hw _ _ _ _ T1 Sn') as [[] T2].
    destruct (sub_near Hw _ _ _ _ T2 Sf') as [[] _]. unfold near, slack, unit_error, small in *. lra.
Qed.

(** The cash before an entry and what the entry cost. *)
Definition spent (cash : decimal) (p : _Position) : Q :=
  (Qabs (val cash) + Qabs (val (fill_notional (position_entry p))) + Qabs (val (fill_fee (position_entry p))))%Q.

(** A spot long entry that fills leaves the shared cash non-negative, up to one part in ten
    to the eighteenth of the cash and the entry's cost. *)
Lemma spot_entry_never_overdraws e c cash off costs p cash1 :
  futures costs = None -> pending_side e = LONG ->
  _open_position e c cash off costs = Ok (Some p, cash1) ->
  (- (slack * spent cash p) <= val cash1)%Q.
Proof.
  intros Hfut Hl (n & f & Hn & Hf & _ & -> & Hle)%open_position_cash. rewrite Hl in *.
  specialize (Hle Hfut eq_refl). pose proof (small_abs (val cash)) as S0.
  pose proof (small_val _ n _ (Qeq_sym _ _ Hn) (small_abs _)) as Sn.
  pose proof (small_val _ f _ (Qeq_sym _ _ Hf) (small_abs _)) as Sf.
  destruct (add_near Hw n f _ _ Sn Sf) as [[] _]. destruct (entry_cash_near false cash n f _ _ _ S0 Sn Sf) as [].
  cbn [is_short] in *. unfold spent, small, slack, unit_error in *. lra.
Qed.

End Accounting.

(** The fills of the demo window's first round trip. *)
Definition demo_open : result (option _Position * decimal) :=
  match pending (demo_book 1) with
  | Some e => @_open_position simulation_context e (demo_bar 1 100 102 99 101) (of_Z 1000) 1 demo_costs
  | None => Raise KeyError
  end.

Definition demo_close (p : _Position) : result (BacktestTrade * decimal) :=
  @_close_position simulation_context p (demo_bar 2 101 109 100 104) (of_Z 800) (maker (of_Z 108)) take_profit_
    (Dec 4 (-3)) hour.

(** * Expiry and liquidation

    A dated contract is flat from its flatten time on, and a futures position that survives
    a bar's exit checks was margined at the bar's adverse extreme. *)

Section Futures.
Context {dc : DecimalContext} (strategy : StrategyDefinition) (costs : _Costs).
Context (bar : timedelta).

(** ** Expiry *)

Lemma flatten_closes b c cash t b' tr cash' t' :
  _flatten_for_expiry b c costs cash bar t = Ok (b', tr, cash', t') -> pending b' = None ∧ position b' = None.
Proof.
  unfold _flatten_for_expiry. destruct (pending b) eqn:Hn; cbn; destruct (position b) eqn:Hp.
  1,3: intros ([[b2 tr2] k] & (q & t2 & _ & _ & -> & _)%taker_close_inv & [= <- _ _ _])%bind_Ok; done.
  all: by intros [= <- _ _ _].
Qed.

Lemma step_book_flat starts off s i s' b : sim_books s !! i = Some b ->
  (∀ t c, candle_by_start b !! t = Some c -> starts_at c = t) ->
  _in_expiry_window costs starts = true -> _in_expiry_window costs (starts + bar) = true ->
  step_book strategy costs bar starts off s i = Ok s' ->
  ∃ b', sim_books s' = <[i := b']> (sim_books s) ∧ is_open b' = false.
Proof.
  intros Hb Hk Hx Hnext. unfold step_book. rewrite Hb.
  intros (c & Hc%dict_get_Ok & ([[[b1 k] tr1] t1] & Hp & (r & _ & ([b2 t2] & Hm & [= <-])%bind_Ok)%bind_Ok)%bind_Ok)%bind_Ok.
  cbn [sim_books]. exists b2. rewrite list_insert_insert_eq. split; [done|].
  rewrite Hnext in Hm. apply maybe_rest_spec in Hm as [-> | (e & _ & _ & _ & Hw & _)]; [|done].
  unfold _process_bar in Hp. rewrite (Hk _ _ Hc), Hx in Hp.
  apply bind_Ok in Hp as ([[[b3 tr3] k3] t3] & [Hn Hpos]%flatten_closes & H).
  destruct (_record_close _ _ _ _ _) as [[b4 tr4] t4] eqn:Hr. injection H as <- _ _ _.
  apply is_open_false. unfold _record_close in Hr. by destruct tr3; injection Hr as <- _ _.
Qed.

(** ** Liquidation *)

(** The book's equity with [p] marked against it at the bar's adverse extreme. *)
Definition adverse_price (p : _Position) (c : Candle) : decimal :=
  match position_side p with SHORT => high c | LONG => low c end.

(** Liquidation safety. When a futures position survives the exit checks of a bar, the
    equity at the bar's adverse extreme, marked on the side the position would be closed at,
    covers the maintenance margin; otherwise the position was closed as a liquidation before
    any stop, target or signal was looked at. *)
Lemma survivors_are_margined b p c off cash terms b' cash' :
  futures costs = Some terms -> position b = Some p ->
  check_exits b c off strategy costs cash bar = Ok (b', None, cash') ->
  ∃ m, mark (fill_model costs) (adverse_price p c) (position_side p) = Ok m ∧
    (val (maintenance (margin terms) (fill_quantity (position_entry p)) (adverse_price p c) (position_side p))
     <= val (cash + signed_quantity (position_side p) (fill_quantity (position_entry p)) * m)%dec)%Q.
Proof.
  intros Hf Hp (why & Hd & Ha)%(check_exits_acts _ p); [|done].
  destruct why as [why|]; [by destruct Ha as [_ (? & ? & ? & ? & ? & _ & ? & _)]|].
  unfold exit_decision in Hd. apply bind_Ok in Hd as (l & Hl & Hd). destruct l; [done|].
  unfold liquidates in Hl. rewrite Hf in Hl. apply bind_Ok in Hl as (m & Hm & [= Hlt]).
  exists m. split; [exact Hm|]. by apply dltb_ge in Hlt.
Qed.

End Futures.

(** No book holds a position or a resting entry. *)
Definition all_closed (s : sim) : Prop := Forall (λ b, is_open b = false) (sim_books s).

(** From the flatten time of a dated contract on, no book holds a position or a resting
    entry: every bar that starts in the window ends with all books closed. *)
Lemma flat_after_expiry {dc : DecimalContext} strategy costs bar start n books cash s curve terms f :
  0 < bar -> 0 <= max_bars_held (exits strategy) -> Forall fresh books ->
  futures costs = Some terms -> flatten_at terms = Some f -> f <= bar_start bar start (Z.of_nat n) ->
  run_bars strategy costs bar start (mk_sim books cash [] empty_tally) (S n) = Ok (s, curve) ->
  all_closed s.
Proof.
  intros Hbar Hmax Hfresh Hterms Hflat Hf. unfold run_bars. rewrite seq_S, foldM_app.
  intros ([u c0] & Hu & Hs)%bind_Ok. cbn [foldM] in Hs. apply bind_Ok in Hs as ([v c1] & Hs & [= <- <-]).
  destruct (run_bars_ok strategy costs bar start Hbar Hmax _ _ _ _ (fresh_sim_ok _ _ _ books cash Hfresh) Hu) as [[Hok _] _].
  unfold step_bar in Hs. apply bind_Ok in Hs as (w & Hw & (pt & _ & [= <- _])%bind_Ok).
  assert (Hwin : ∀ t, f <= t -> _in_expiry_window costs t = true)
    by (intros t Ht; unfold _in_expiry_window; rewrite Hterms, Hflat; lia).
  apply (foldM_seq_ind _ (λ i x, length (sim_books x) = length (sim_books u) ∧
    ∀ j b, sim_books x !! j = Some b -> if decide (j < i)%nat then is_open b = false
      else book_ok strategy bar start (Z.of_nat n) b)) in Hw.
  - destruct Hw as [Hl Hb]. unfold all_closed. apply Forall_lookup. intros j b Hj. specialize (Hb j b Hj).
    apply lookup_lt_Some in Hj. by rewrite decide_True in Hb by lia.
  - split; [done|]. intros j b Hj. rewrite decide_False by lia. rewrite Forall_lookup in Hok. by eapply Hok.
  - intros i x y Hi [Hl Hb] Hy. destruct (lookup_lt_is_Some_2 (sim_books x) i) as [b Hib]; [lia|].
    specialize (Hb i b Hib) as Hbi. rewrite decide_False in Hbi by lia.
    pose proof (candle_keyed _ (ok_keyed _ _ _ _ _ Hbi)) as Hk.
    eapply step_book_flat in Hy as (b' & Eb & Hclosed); [|exact Hib|exact Hk|apply Hwin; exact Hf|apply Hwin; unfold bar_start in *; lia].
    rewrite Eb, length_insert. split; [done|]. intros j z Hj. destruct (decide (j = i)) as [->|Hne].
    + rewrite list_lookup_insert_eq in Hj by lia. injection Hj as <-. by rewrite decide_True by lia.
    + rewrite list_lookup_insert_ne in Hj by done. specialize (Hb j z Hj).
      destruct (decide (j < i)%nat); [rewrite decide_True by lia|rewrite decide_False by lia]; done.
Qed.

#[local] Existing Instance simulation_context.

(** * A pyramid add outlives its position

    A concrete run of the simulation in which the position a resting add belongs to is
    closed, and the add then opens a new position at the closed trade's levels, inside the
    cooldown that close started. *)

(** [demo_strategy] with one profitable add allowed and a cooldown of five bars. *)
Definition add_strategy : StrategyDefinition :=
  let d := demo_strategy in
  Build_StrategyDefinition (instrument d) (additional_instruments d) (timeframe d) (data_requirements d)
    (indicators d) (htf_filter d)
    {| side := side (entry d); when := when (entry d); cooldown_bars := 5; max_open_positions := 2;
       economic_guard := None; pyramiding := true |}
    (sizing d) (portfolio_limits d) (exits d) (execution d) (derivatives d).

Lemma add_strategy_valid : valid_strategy add_strategy.
Proof. vm_compute. repeat split; reflexivity. Qed.

Definition add_candles : list Candle :=
  [demo_bar (-2) 100 101 99 100; demo_bar (-1) 100 101 99 100;
   demo_bar 0 100 101 99 100; demo_bar 1 100 103 99 103; demo_bar 2 104 109 104 107;
   demo_bar 3 107 107 102 104; demo_bar 4 104 105 103 104; demo_bar 5 104 105 103 104;
   demo_bar 6 104 105 103 104; demo_bar 7 104 105 103 104; demo_bar 8 104 105 103 104;
   demo_bar 9 104 105 103 104; demo_bar 10 104 105 103 104].

Definition add_trace : list SignalTraceRecord :=
  [demo_record 0 MATCHED; demo_record 1 MATCHED] ++
  map (λ k, demo_record k NOT_MATCHED) [2; 3; 4; 5; 6; 7; 8; 9].

Definition add_books : list _Book :=
  match @_candle_map demo_spec add_candles ONE_HOUR with
  | Ok m => [mk_book "BTC-USD" m (fold_left (λ acc r, <[record_starts_at r := r]> acc) add_trace ∅) None None 0]
  | Raise _ => []
  end.

Definition add_after (n : nat) : result (sim * list EquityPoint) :=
  @run_bars simulation_context add_strategy demo_costs hour demo_start
    (mk_sim add_books (of_Z 1000) [] empty_tally) n.

(** What is left of the book after [n] bars: exits so far, the entry bar, stop and target of
    the open position, the resting add, and the cooldown. *)
Definition add_view (n : nat) :=
  match add_after n with
  | Ok (s, _) => map (λ b, (map (λ t, reason (trade_exit t)) (sim_trades s),
                            (λ p, (entered_bar_index p, position_stop_price p, position_target_price p)) <$> position b,
                            (λ e, (limit_price e, is_pyramid_add e)) <$> pending b, book_cooldown b)) (sim_books s)
  | Raise _ => []
  end.
(** The cooldown and flat-book gates of an entry do not bind a resting add. On a valid
    document with a five-bar cooldown, the run takes profit on bar 2 and leaves the book flat,
    cooling down, with the add still resting; on bar 3, still inside the cooldown and with no
    new signal, the add opens a new position at the stop and target of the closed one. *)
Lemma stale_add_reopens :
  valid_strategy add_strategy ∧ cooldown_bars (entry add_strategy) = 5 ∧
  add_view 2 = [([], Some (1, of_Z 96, Some (of_Z 108)), Some (of_Z 103, true), 0)] ∧
  add_view 3 = [([take_profit_], None, Some (of_Z 103, true), 5)] ∧
  add_view 4 = [([take_profit_], Some (3, of_Z 96, Some (of_Z 108)), None, 4)].
Proof. split; [exact add_strategy_valid|]. vm_compute. repeat split; reflexivity. Qed.

(** * The drawdown of an equity curve

    The one-pass loop of [_summary] against its meaning: the largest fall from an earlier
    high, in money and as a fraction of the running peak. *)

Definition one_slack : Q := 1 + (1 # 1000000000000000000).

(** The largest fall of a series, up to rounding: no later value lies further below an
    earlier one, and some fall is that large. *)
Record largest_fall (values : list decimal) (fall : decimal) : Prop := {
  fall_nonneg : (0 <= val fall)%Q;
  fall_bounds i j h e : values !! i = Some h -> values !! j = Some e -> (i <= j)%nat ->
    (val h - val e <= val fall * one_slack)%Q;
  fall_attained : (val fall == 0)%Q ∨ ∃ i j h e, values !! i = Some h ∧ values !! j = Some e ∧ (i <= j)%nat ∧
    (val fall <= (val h - val e) * one_slack)%Q
}.

Record highest (values : list decimal) (peak : decimal) : Prop := {
  highest_bounds h : h ∈ values -> (val h <= val peak)%Q;
  highest_attained : ∃ i, values !! i = Some peak
}.

Section Drawdown.
Context {dc : DecimalContext} (Hw : wide dc).

Lemma rounds_slack q d : rounds prec q d -> (0 <= q)%Q ->
  (0 <= val d ∧ val d <= q * one_slack ∧ q <= val d * one_slack)%Q.
Proof.
  intros Hd Hq. destruct (rounds_bounds q d Hd Hq) as [H1 H2].
  pose proof (half_ulp_wide prec Hw) as Hu. pose proof (half_ulp_pos prec) as Hp. unfold one_slack.
  assert (0 <= q * half_ulp prec)%Q by (apply Qmult_le_0_compat; lra).
  assert (q * half_ulp prec <= q * (1 # 10 ^ 20))%Q by (rewrite !(Qmult_comm q); by apply Qmult_le_compat_r).
  change (1 # 10 ^ 20)%Q with (1 # 100000000000000000000)%Q in *.
  split; [lra|]. split; [lra|]. lra.
Qed.

(** The state of the loop after the values [initial :: eqs]. *)
Record drawn (values : list decimal) (acc : decimal * decimal * decimal) : Prop := {
  drawn_peak : highest values acc.1.1;
  drawn_fall : largest_fall values acc.1.2;
  drawn_fraction_nonneg : (0 <= val acc.2)%Q;
  drawn_fraction : (∀ e, e ∈ values -> (0 <= val e)%Q) -> (val acc.2 <= one_slack * one_slack)%Q
}.

Lemma drawn_start initial : (0 < val initial)%Q -> drawn [initial] (initial, d0, d0).
Proof.
  intros Hi. split; cbn.
  - split; [|by exists O]. intros h ->%list_elem_of_singleton. lra.
  - split; [rewrite val_d0; lra| |left; apply val_d0].
    intros [|i] [|j] h e [= <-] [= <-] _; rewrite val_d0; lra.
  - rewrite val_d0. lra.
  - intros _. rewrite val_d0. unfold one_slack. lra.
Qed.

Lemma lookup_snoc_inv {A} (l : list A) x i y : (l ++ [x]) !! i = Some y ->
  l !! i = Some y ∨ (i = length l ∧ y = x).
Proof.
  intros [H|[Hl H]]%lookup_app_Some; [by left|right]. apply list_lookup_singleton_Some in H as [? ?]. split; [lia|done].
Qed.

Lemma highest_snoc values peak e : highest values peak -> highest (values ++ [e]) (dmax peak e).
Proof.
  intros [Hb [i Hi]]. destruct (dmax_spec peak e) as (H1 & H2 & Hm). split.
  - intros h [Hh | ->%list_elem_of_singleton]%elem_of_app; [|done]. specialize (Hb h Hh). lra.
  - destruct Hm as [-> | ->].
    + exists i. by apply lookup_app_l_Some.
    + exists (length values). by rewrite lookup_app_r, Nat.sub_diag by lia.
Qed.

Lemma largest_fall_snoc values peak e fall dd : highest (values ++ [e]) peak -> largest_fall values fall ->
  rounds prec (val peak - val e) dd -> largest_fall (values ++ [e]) (dmax fall dd).
Proof.
  intros [Hb [p Hp]] [F0 F1 F2] Hd. destruct (dmax_spec fall dd) as (H1 & H2 & Hm).
  assert (He : (0 <= val peak - val e)%Q).
  { assert (val e <= val peak)%Q; [|lra]. apply Hb, elem_of_app. right. by apply list_elem_of_singleton. }
  destruct (rounds_slack _ _ Hd He) as (D0 & D1 & D2).
  assert (Hlast : (values ++ [e]) !! length values = Some e) by (by rewrite lookup_app_r, Nat.sub_diag by lia).
  assert (Hone : (0 <= one_slack)%Q) by done. split.
  - lra.
  - intros i j h x Hi Hj Hij. apply lookup_snoc_inv in Hj as [Hj|[-> ->]].
    + assert (Hi' : values !! i = Some h).
      { apply lookup_snoc_inv in Hi as [Hi|[-> _]]; [done|]. apply lookup_lt_Some in Hj. lia. }
      specialize (F1 i j h x Hi' Hj Hij). unfold one_slack in *. lra.
    + assert (val h <= val peak)%Q by (apply Hb; by eapply list_elem_of_lookup_2). unfold one_slack in *. lra.
  - destruct Hm as [-> | ->].
    + destruct F2 as [F2|(i & j & h & x & Hi & Hj & Hij & Hf)]; [by left|right].
      exists i, j, h, x. split; [by apply lookup_app_l_Some|]. split; [by apply lookup_app_l_Some|]. done.
    + right. exists p, (length values), peak, e. split; [done|]. split; [done|]. split; [|done].
      apply lookup_lt_Some in Hp. rewrite length_app in Hp. cbn in Hp. lia.
Qed.

Lemma drawn_step values acc point : (∃ v, v ∈ values ∧ (0 < val v)%Q) -> drawn values acc ->
  ∃ acc', drawdown_step acc point = Ok acc' ∧ drawn (values ++ [KernelState.equity point]) acc'.
Proof.
  destruct acc as [[peak fall] frac]. intros (v & Hv & Hpos) [Hp Hf R0 R1]. cbn in *.
  set (e := KernelState.equity point) in *. unfold drawdown_step. fold e.
  pose proof (highest_snoc _ _ e Hp) as Hp'. set (peak' := dmax peak e) in *.
  assert (Hpk : (0 < val peak')%Q).
  { assert (val v <= val peak')%Q by (apply Hp', elem_of_app; by left). lra. }
  assert (Hq : (0 <= val peak' - val e)%Q).
  { assert (val e <= val peak')%Q; [|lra]. apply Hp', elem_of_app. right. by apply list_elem_of_singleton. }
  pose proof (sub_rounds peak' e) as Hd. set (dd := (peak' - e)%dec) in *.
  destruct (div_total dd peak') as [ratio Hr]; [lra|]. rewrite Hr. cbn.
  apply div_rounds in Hr as [_ Hr]. destruct (rounds_slack _ _ Hd Hq) as (D0 & D1 & _).
  assert (Hq2 : (0 <= val dd / val peak')%Q) by (apply Qle_shift_div_l; [done|lra]).
  destruct (rounds_slack _ _ Hr Hq2) as (Q0 & Q1 & _).
  destruct (dmax_spec frac ratio) as (M1 & M2 & Hm).
  eexists. split; [done|]. split; cbn.
  - done.
  - by eapply largest_fall_snoc.
  - lra.
  - intros Hnn. destruct Hm as [-> | ->]; [apply R1; intros x Hx; apply Hnn, elem_of_app; by left|].
    assert (He : (0 <= val e)%Q) by (apply Hnn, elem_of_app; right; by apply list_elem_of_singleton).
    assert (val dd / val peak' <= one_slack)%Q.
    { apply Qle_shift_div_r; [done|]. unfold one_slack in *. lra. }
    transitivity ((val dd / val peak') * one_slack)%Q; [done|]. by apply Qmult_le_compat_r.
Qed.

(** The drawdown pass over an equity curve never fails on a positive initial equity, and
    computes what its names say: the peak is the highest of the initial equity and the curve,
    the maximum drawdown is the largest fall from any earlier high (up to rounding, in the
    64-digit context and in Python's default one), and the fraction lies between nothing and
    everything as long as equity never goes below zero. *)
Lemma drawdowns_spec initial curve : (0 < val initial)%Q ->
  let values := initial :: map KernelState.equity curve in
  ∃ peak fall fraction, drawdowns initial curve = Ok (peak, fall, fraction) ∧
    highest values peak ∧ largest_fall values fall ∧ (0 <= val fraction)%Q ∧
    ((∀ e, e ∈ values -> (0 <= val e)%Q) -> (val fraction <= one_slack * one_slack)%Q).
Proof.
  intros Hi values. unfold values. clear values.
  enough (∃ acc, drawdowns initial curve = Ok acc ∧ drawn (initial :: map KernelState.equity curve) acc)
    as ([[peak fall] fraction] & H & []) by (by exists peak, fall, fraction).
  induction curve as [|point curve IH] using rev_ind; [eexists; split; [done|by apply drawn_start]|].
  destruct IH as (acc & Hacc & Hd). unfold drawdowns in *. rewrite foldM_app, Hacc, map_app. cbn.
  destruct (drawn_step _ _ point (ex_intro _ initial (conj (list_elem_of_here _ _) Hi)) Hd) as (acc' & -> & Hd').
  by exists acc'.
Qed.

End Drawdown.

(** * A stop never fills better than its level

    A triggered stop exits as a taker at the worse of the bar's open and the stop, after the
    spread stress and slippage. *)

Section StopFills.
Context {dc : DecimalContext} (Hw : wide dc).

Lemma rounds_upper q d : rounds prec q d -> (0 <= q)%Q -> (val d <= q * (1 + err 1))%Q ∧ (q * (1 - err 1) <= val d)%Q.
Proof.
  intros Hd Hq. destruct (rounds_bounds q d Hd Hq) as [H1 H2].
  pose proof (half_ulp_wide prec Hw) as Hu. pose proof (half_ulp_pos prec).
  change (1 # 10 ^ 20)%Q with unit_error in Hu.
  assert (q * half_ulp prec <= q * unit_error)%Q by (rewrite !(Qmult_comm q); by apply Qmult_le_compat_r).
  assert (err 1 == unit_error)%Q as -> by (unfold err; change (inject_Z 1) with 1%Q; ring). lra.
Qed.

Lemma shrink p f : (0 <= val p)%Q -> (0 < val f)%Q -> (val f <= 1)%Q ->
  (0 <= val (p * f)%dec ∧ val (p * f)%dec <= val p * (1 + err 1))%Q.
Proof.
  intros Hp Hf0 Hf1. assert (H : (0 <= val p * val f)%Q) by (apply Qmult_le_0_compat; lra).
  assert (Hpf : (val p * val f <= val p * 1)%Q) by (apply Qmult_le_compat_nonneg; lra).
  split; [exact (rounds_nonneg _ _ prec_pos (mul_rounds p f) H)|].
  destruct (rounds_upper _ _ (mul_rounds p f) H) as [Hu _].
  assert (0 <= 1 + err 1)%Q by done.
  assert (val p * val f * (1 + err 1) <= val p * (1 + err 1))%Q by (apply Qmult_le_compat_r; lra). lra.
Qed.

Lemma grow p f : (0 <= val p)%Q -> (1 <= val f)%Q -> (val p * (1 - err 1) <= val (p * f)%dec)%Q.
Proof.
  intros Hp Hf1. assert (Hpf : (val p * 1 <= val p * val f)%Q) by (apply Qmult_le_compat_nonneg; lra).
  destruct (rounds_upper _ _ (mul_rounds p f) ltac:(lra)) as [_ Hl].
  assert (val p * (1 - err 1) <= val p * val f * (1 - err 1))%Q by (apply Qmult_le_compat_r; [lra|done]). lra.
Qed.

(** The level at which a raw price trades at [stop] on the bid, put back on the bid. *)
Lemma bid_of_raw m stop raw ref b : valid_bps (model_spread_bps m) -> (0 <= val stop)%Q ->
  raw_for_bid m stop = Ok raw -> (0 <= val ref)%Q -> (val ref <= val raw)%Q -> bid m ref = Ok b ->
  (0 <= val b)%Q ∧ (val b <= val stop * (1 + err 7))%Q ∧ (val b <= val ref * (1 + err 1))%Q.
Proof.
  intros [Hs0 Hs1] Hstop Hraw Hr0 Hr Hb. unfold raw_for_bid, bid in *.
  assert (E7 : (0 <= err 7 ∧ 0 <= err 1)%Q) by done.
  destruct (negb _).
  - injection Hraw as <-. injection Hb as <-. split; [done|]. split; nra.
  - apply bind_Ok in Hraw as (h & Hh & Hdiv). rewrite Hh in Hb. injection Hb as <-.
    destruct (basis_fraction Hw _ 20000 _ Hs0 Hs1 ltac:(lia) Hh) as (_ & F0 & F1 & _).
    set (f := (_ONE - h)%dec) in *. destruct (shrink ref f Hr0 F0 F1) as [B0 B1]. split; [done|]. split; [|done].
    assert (Hf : approx 0 (val f) f) by (apply approx_val; lra).
    assert (A : approx 4 (val stop / val f) raw)
      by (apply (approx_div Hw 0 0 _ _ stop f); try done; by apply approx_val).
    assert (E : (val stop / val f * val f == val stop)%Q) by (field; lra).
    assert (M : (val raw * val f <= val stop * (1 + err 4))%Q).
    { rewrite <- E. pose proof (approx_high _ _ _ A).
      assert (val raw * val f <= val stop / val f * (1 + err 4) * val f)%Q by (apply Qmult_le_compat_r; lra). lra. }
    assert (N : (val ref * val f <= val raw * val f)%Q) by (apply Qmult_le_compat_r; lra).
    assert (H0 : (0 <= val ref * val f)%Q) by (apply Qmult_le_0_compat; lra).
    destruct (rounds_upper _ _ (mul_rounds ref f) H0) as [U _].
    apply (Qle_trans _ (val stop * (1 + err (1 + 4 + 1)))).
    + by apply (upper_trans 1 4 _ (val ref * val f)); [done..|lra].
    + rewrite !(Qmult_comm (val stop)). by apply Qmult_le_compat_r.
Qed.

Lemma ask_of_raw m stop raw ref a : valid_bps (model_spread_bps m) -> (0 <= val stop)%Q ->
  raw_for_ask m stop = Ok raw -> (val raw <= val ref)%Q -> (0 <= val ref)%Q -> ask m ref = Ok a ->
  (0 <= val a)%Q ∧ (val stop * (1 - err 7) <= val a)%Q ∧ (val ref * (1 - err 1) <= val a)%Q.
Proof.
  intros [Hs0 Hs1] Hstop Hraw Hr Hr0 Ha. unfold raw_for_ask, ask in *.
  assert (E7 : (0 <= err 7 ∧ 0 <= err 1)%Q) by done.
  destruct (negb _).
  - injection Hraw as <-. injection Ha as <-. split; [done|]. split; nra.
  - apply bind_Ok in Hraw as (h & Hh & Hdiv). rewrite Hh in Ha. injection Ha as <-.
    destruct (basis_fraction Hw _ 20000 _ Hs0 Hs1 ltac:(lia) Hh) as (_ & _ & _ & F1).
    set (f := (_ONE + h)%dec) in *. pose proof (grow ref f Hr0 F1) as G.
    assert (G0 : (0 <= val (ref * f)%dec)%Q).
    { refine (rounds_nonneg _ _ prec_pos (mul_rounds ref f) _). apply Qmult_le_0_compat; lra. }
    split; [done|]. split; [|done].
    assert (Hf : approx 0 (val f) f) by (apply approx_val; lra).
    assert (A : approx 4 (val stop / val f) raw)
      by (apply (approx_div Hw 0 0 _ _ stop f); try done; [lra|by apply approx_val]).
    assert (E : (val stop / val f * val f == val stop)%Q) by (field; lra).
    assert (M : (val stop * (1 - err 4) <= val raw * val f)%Q).
    { rewrite <- E at 1. pose proof (approx_low _ _ _ A).
      assert (val stop / val f * (1 - err 4) * val f <= val raw * val f)%Q by (apply Qmult_le_compat_r; lra). lra. }
    assert (N : (val raw * val f <= val ref * val f)%Q) by (apply Qmult_le_compat_r; lra).
    assert (H0 : (0 <= val ref * val f)%Q) by (apply Qmult_le_0_compat; lra).
    destruct (rounds_upper _ _ (mul_rounds ref f) H0) as [_ U].
    assert (V : (val stop * (1 - err 4) * (1 - err 1) <= val ref * val f * (1 - err 1))%Q)
      by (apply Qmult_le_compat_r; [lra|done]).
    assert (W : ((1 - err 7) <= (1 - err 4) * (1 - err 1))%Q) by done.
    assert (X : (val stop * (1 - err 7) <= val stop * ((1 - err 4) * (1 - err 1)))%Q)
      by (rewrite !(Qmult_comm (val stop)); by apply Qmult_le_compat_r). lra.
Qed.

Lemma raw_bid_nonneg m stop raw : valid_bps (model_spread_bps m) -> (0 <= val stop)%Q ->
  raw_for_bid m stop = Ok raw -> (0 <= val raw)%Q.
Proof.
  intros [Hs0 Hs1] Hstop. unfold raw_for_bid. destruct (negb _); [by intros [= <-]|].
  intros (h & Hh & Hdiv)%bind_Ok. destruct (basis_fraction Hw _ 20000 _ Hs0 Hs1 ltac:(lia) Hh) as (_ & F0 & F1 & _).
  apply (approx_ge0 4 (val stop / val (_ONE - h)%dec)); [done|].
  apply (approx_div Hw 0 0 _ _ stop (_ONE - h)%dec); try done; apply approx_val; [done|lra].
Qed.

Lemma slack_upper b x price : (0 <= x)%Q -> (price <= b * (1 + err 1))%Q -> (b <= x * (1 + err 7))%Q ->
  (price <= x * (1 + slack))%Q.
Proof.
  intros Hx Hp Hb. apply (Qle_trans _ (x * (1 + err (1 + 7 + 1)))).
  - by apply (upper_trans 1 7 _ b).
  - rewrite !(Qmult_comm x). by apply Qmult_le_compat_r.
Qed.

Lemma slack_lower b x price : (0 <= x)%Q -> (b * (1 - err 1) <= price)%Q -> (x * (1 - err 7) <= b)%Q ->
  (x * (1 - slack) <= price)%Q.
Proof.
  intros Hx Hp Hb.
  assert (x * (1 - err 7) * (1 - err 1) <= b * (1 - err 1))%Q by (by apply Qmult_le_compat_r).
  assert (W : (1 - slack <= (1 - err 7) * (1 - err 1))%Q) by done.
  assert (X : (x * (1 - slack) <= x * ((1 - err 7) * (1 - err 1)))%Q)
    by (rewrite !(Qmult_comm x); by apply Qmult_le_compat_r). lra.
Qed.

(** A stop fill at the worse of the stop and the open, or worse. *)
Definition no_better_than_stop (p : _Position) (c : Candle) (q : FillQuote) : Prop :=
  match position_side p with
  | LONG => (val (price q) <= val (position_stop_price p) * (1 + slack) ∧
             val (price q) <= val (open c) * (1 + slack))%Q
  | SHORT => (val (position_stop_price p) * (1 - slack) <= val (price q) ∧
              val (open c) * (1 - slack) <= val (price q))%Q
  end.

(** A stopped-out position never does better than its stop or the bar's open: a long sells
    at most at the lower of the two and a short covers at least at the higher, up to one part
    in ten to the eighteenth, for every spread stress and slippage the run may declare. *)
Lemma stop_fill_not_better p c costs reference q :
  valid_bps (model_spread_bps (fill_model costs)) -> valid_bps (slippage_bps costs) ->
  (0 <= val (position_stop_price p))%Q -> (0 <= val (open c))%Q ->
  _stop_reference p c costs = Ok reference -> _taker_exit_quote p reference costs = Ok q ->
  no_better_than_stop p c q.
Proof.
  intros Hm [Hs0 Hs1] Hstop Hopen. unfold _stop_reference, _taker_exit_quote, no_better_than_stop.
  destruct (position_side p); intros (raw & Hraw & [= <-])%bind_Ok.
  - intros (b & Hb & (sl & Hsl & Hq)%bind_Ok)%bind_Ok. injection Hq as <-.
    pose proof (raw_bid_nonneg _ _ _ Hm Hstop Hraw) as Hr0.
    destruct (dmin_spec (open c) raw) as (M1 & M2 & Hmin). set (ref := dmin (open c) raw) in *.
    assert (H0 : (0 <= val ref)%Q) by (destruct Hmin as [-> | ->]; done).
    destruct (bid_of_raw _ _ _ _ _ Hm Hstop Hraw H0 M2 Hb) as (B0 & B1 & B2).
    destruct (basis_fraction Hw _ 10000 _ Hs0 Hs1 ltac:(lia) Hsl) as (_ & F0 & F1 & _).
    destruct (shrink b _ B0 F0 F1) as [_ P].
    assert (Hpr : price (_quote (fill_model costs) ref (b * (_ONE - sl))%dec bid_side (ref - b)%dec) = (b * (_ONE - sl))%dec)
      by (unfold _quote; by destruct (negb _)).
    rewrite Hpr. split; (eapply slack_upper; [|exact P|]); [done|exact B1|done|].
    assert (val ref * (1 + err 1) <= val (open c) * (1 + err 1))%Q by (apply Qmult_le_compat_r; done).
    assert (val (open c) * (1 + err 1) <= val (open c) * (1 + err 7))%Q
      by (rewrite !(Qmult_comm (val (open c))); by apply Qmult_le_compat_r). lra.
  - intros (b & Hb & (sl & Hsl & Hq)%bind_Ok)%bind_Ok. injection Hq as <-.
    destruct (dmax_spec (open c) raw) as (M1 & M2 & _). set (ref := dmax (open c) raw) in *.
    assert (H0 : (0 <= val ref)%Q) by lra.
    destruct (ask_of_raw _ _ _ _ _ Hm Hstop Hraw M2 H0 Hb) as (B0 & B1 & B2).
    destruct (basis_fraction Hw _ 10000 _ Hs0 Hs1 ltac:(lia) Hsl) as (_ & _ & _ & F1).
    pose proof (grow b _ B0 F1) as P.
    assert (Hpr : price (_quote (fill_model costs) ref (b * (_ONE + sl))%dec ask_side (b - ref)%dec) = (b * (_ONE + sl))%dec)
      by (unfold _quote; by destruct (negb _)).
    rewrite Hpr. split; (eapply slack_lower; [|exact P|]); [done|exact B1|done|].
    assert (val (open c) * (1 - err 1) <= val ref * (1 - err 1))%Q by (apply Qmult_le_compat_r; done).
    assert (val (open c) * (1 - err 7) <= val (open c) * (1 - err 1))%Q
      by (rewrite !(Qmult_comm (val (open c))); by apply Qmult_le_compat_r). lra.
Qed.

End StopFills.
