(* ===== verification/Containers.v ===== *)
(** * Containers: Python's [dict] and [sorted]

    The execution store iterates over its dictionaries and takes the first match, so their
    order is part of its behaviour. A [dict] is kept as the association list of its items in
    insertion order: assigning to a present key keeps the key's place, assigning to a new key
    appends, [pop] removes. Well-formedness is that keys do not repeat; every operation keeps
    it, and under it the dictionary is a finite map ([dict_map]).

    [sort_by] is Python's stable [sorted] under an explicit ordering. *)

From S2P Require Import Prelude.

Section Dict.
Context {K V : Type} `{EqDecision K}.

Definition dict : Type := list (K * V).

Fixpoint dict_get (k : K) (d : dict) : option V :=
  match d with
  | [] => None
  | (k', v) :: d => if decide (k' = k) then Some v else dict_get k d
  end.

(** [d[k] = v] *)
Fixpoint dict_set (k : K) (v : V) (d : dict) : dict :=
  match d with
  | [] => [(k, v)]
  | (k', v') :: d => if decide (k' = k) then (k, v) :: d else (k', v') :: dict_set k v d
  end.

(** [d.pop(k, None)] *)
Definition dict_pop (k : K) (d : dict) : dict := List.filter (λ item, negb (bool_decide (item.1 = k))) d.

Definition dict_keys (d : dict) : list K := d.*1.
Definition dict_values (d : dict) : list V := d.*2.

(** [{key(x): x for x in xs}]: a later entry replaces an earlier one. *)
Definition dict_of (key : V → K) (xs : list V) : dict := fold_left (λ d x, dict_set (key x) x d) xs [].

Definition dict_wf (d : dict) : Prop := NoDup (dict_keys d).

Lemma dict_get_set k v d : dict_get k (dict_set k v d) = Some v.
Proof.
  induction d as [|[k' v'] d IH]; cbn; [by rewrite decide_True|].
  destruct (decide (k' = k)); cbn; [by rewrite decide_True|by rewrite decide_False].
Qed.

Lemma dict_get_set_ne k k' v d : k' ≠ k → dict_get k' (dict_set k v d) = dict_get k' d.
Proof.
  intros Hk. induction d as [|[j w] d IH]; cbn; [by rewrite decide_False|].
  destruct (decide (j = k)) as [->|]; cbn; [by rewrite !decide_False|]. by case_decide.
Qed.

Lemma dict_get_pop_ne k k' d : k' ≠ k → dict_get k' (dict_pop k d) = dict_get k' d.
Proof.
  intros Hk. unfold dict_pop. induction d as [|[j w] d IH]; cbn; [done|].
  destruct (decide (j = k)) as [->|Hj]; cbn.
  - rewrite bool_decide_true by done. cbn. by rewrite decide_False.
  - rewrite bool_decide_false by done. cbn. by case_decide.
Qed.

Lemma dict_get_pop k d : dict_get k (dict_pop k d) = None.
Proof.
  unfold dict_pop. induction d as [|[j w] d IH]; cbn; [done|].
  destruct (decide (j = k)) as [->|Hj]; cbn; [by rewrite bool_decide_true|].
  rewrite bool_decide_false by done. cbn. by rewrite decide_False.
Qed.

Lemma elem_of_dict_keys k d : k ∈ dict_keys d ↔ is_Some (dict_get k d).
Proof.
  unfold dict_keys. induction d as [|[j w] d IH]; cbn.
  - rewrite elem_of_nil. split; [done|]. by intros [? [=]].
  - rewrite elem_of_cons, IH. case_decide; naive_solver.
Qed.

Lemma dict_get_elem k v d : dict_get k d = Some v → (k, v) ∈ d.
Proof.
  induction d as [|[j w] d IH]; cbn; [done|]. case_decide.
  - intros [= ->]. subst. left.
  - intros. right. auto.
Qed.

Lemma dict_elem_get k v d : dict_wf d → (k, v) ∈ d → dict_get k d = Some v.
Proof.
  unfold dict_wf, dict_keys. induction d as [|[j w] d IH]; cbn; [by intros _ ?%elem_of_nil|].
  intros [Hj Hd]%NoDup_cons [[= <- <-]|Hin]%elem_of_cons.
  - by rewrite decide_True.
  - rewrite decide_False; [auto|]. intros <-. apply Hj. apply list_elem_of_fmap. by exists (j, v).
Qed.

Lemma elem_of_dict_values v d : dict_wf d → v ∈ dict_values d ↔ ∃ k, dict_get k d = Some v.
Proof.
  intros Hd. unfold dict_values. rewrite list_elem_of_fmap. split.
  - intros ([k w] & -> & Hin). exists k. by apply dict_elem_get.
  - intros (k & Hk). exists (k, v). split; [done|]. by apply dict_get_elem.
Qed.

Lemma dict_keys_set k v d :
  dict_keys (dict_set k v d) = if decide (k ∈ dict_keys d) then dict_keys d else dict_keys d ++ [k].
Proof.
  unfold dict_keys. induction d as [|[j w] d IH]; cbn.
  - by rewrite decide_False by apply not_elem_of_nil.
  - destruct (decide (j = k)) as [->|Hne]; cbn.
    + by rewrite decide_True by left.
    + rewrite IH. repeat case_decide; set_solver.
Qed.

Lemma dict_wf_nil : dict_wf [].
Proof. constructor. Qed.

Lemma dict_wf_set k v d : dict_wf d → dict_wf (dict_set k v d).
Proof.
  unfold dict_wf. rewrite dict_keys_set. case_decide; [done|]. intros Hd.
  apply NoDup_app. split; [done|]. split; [set_solver|]. apply NoDup_singleton.
Qed.

Lemma dict_wf_pop k d : dict_wf d → dict_wf (dict_pop k d).
Proof.
  unfold dict_wf, dict_keys, dict_pop. induction d as [|[j w] d IH]; cbn; [done|].
  intros [Hj Hd]%NoDup_cons. case_bool_decide; cbn; [auto|]. apply NoDup_cons. split; [|auto].
  rewrite list_elem_of_fmap in *. intros ([j' w'] & -> & Hin). apply Hj. exists (j', w'). split; [done|].
  apply list_elem_of_In, filter_In in Hin as [Hin _]. by apply list_elem_of_In.
Qed.

Lemma dict_of_wf key xs : dict_wf (dict_of key xs).
Proof.
  unfold dict_of. assert (∀ d, dict_wf d → dict_wf (fold_left (λ d x, dict_set (key x) x d) xs d)) as H; [|apply H, dict_wf_nil].
  induction xs as [|x xs IH]; cbn; [done|]. intros d Hd. by apply IH, dict_wf_set.
Qed.

(** With distinct keys the dictionary built from a list finds exactly its members. *)
Lemma dict_of_get key xs x : NoDup (key <$> xs) → x ∈ xs → dict_get (key x) (dict_of key xs) = Some x.
Proof.
  unfold dict_of. generalize (@nil (K * V)) as d. induction xs as [|y xs IH]; cbn; [by intros ? ? ?%elem_of_nil|].
  intros d [Hy Hxs]%NoDup_cons [->|Hx]%elem_of_cons; [|by apply IH].
  assert (∀ d, dict_get (key y) (fold_left (λ d x, dict_set (key x) x d) xs d) = dict_get (key y) d) as ->; [|apply dict_get_set].
  clear - Hy. induction xs as [|x xs IH]; cbn; [done|]. intros d.
  rewrite fmap_cons, not_elem_of_cons in Hy. destruct Hy. rewrite IH by done. by apply dict_get_set_ne.
Qed.

End Dict.
Arguments dict : clear implicits.

(** A key without repetition in a list identifies its members. *)
Lemma NoDup_key_inj {A B} (key : A → B) l x y : NoDup (key <$> l) → x ∈ l → y ∈ l → key x = key y → x = y.
Proof.
  intros Hnd (i & Hi)%list_elem_of_lookup (j & Hj)%list_elem_of_lookup E.
  assert (i = j) as ->; [|congruence]. eapply NoDup_lookup; [done| |].
  - rewrite list_lookup_fmap, Hi. done.
  - rewrite list_lookup_fmap, Hj. cbn. by rewrite E.
Qed.

(** ** Sorting *)

Section Sort.
Context {A : Type} (le : A → A → bool).

Fixpoint insert_sorted (x : A) (l : list A) : list A :=
  match l with
  | [] => [x]
  | y :: l => if le x y then x :: y :: l else y :: insert_sorted x l
  end.

(** Stable: [x] stands before the equal elements that follow it. *)
Definition sort_by (l : list A) : list A := foldr insert_sorted [] l.

Lemma insert_sorted_perm x l : insert_sorted x l ≡ₚ x :: l.
Proof.
  induction l as [|y l IH]; cbn; [done|]. destruct (le x y); [done|]. rewrite IH. apply Permutation_swap.
Qed.

Lemma stable_sort_perm l : sort_by l ≡ₚ l.
Proof. induction l as [|x l IH]; cbn; [done|]. by rewrite insert_sorted_perm, IH. Qed.

Lemma elem_of_sort_by x l : x ∈ sort_by l ↔ x ∈ l.
Proof. by rewrite stable_sort_perm. Qed.

End Sort.

(** [sorted(set(l))] on strings. *)
Definition sorted_set (l : list string) : list string := sort_by String.leb (remove_dups l).

Lemma elem_of_sorted_set x l : x ∈ sorted_set l ↔ x ∈ l.
Proof. unfold sorted_set. by rewrite elem_of_sort_by, elem_of_remove_dups. Qed.
