(* ===== verification/TradingModels.v ===== *)
(** * TradingModels: the records of paper and live trading

    [trading/models.py] and [trading/day_open.py], then one product's view of a deployment
    ([trading/overlay.py], [trading/futures_safety.py]). *)

From Stdlib Require Import Ascii.
From S2P Require Import Prelude Decimals Market Geometry Containers.

Open Scope Z_scope.

(** * The execution records ([trading/models.py])

    The enumerations and records that paper and live books share, with their methods. Each
    Python class is a Module of the same name, so [Order.status o] reads as [order.status].

    A [Deployment] has some fifty fields; they are grouped into what never changes after
    creation ([Terms]), the capital figures ([Capital]), the per-product runtime ([Runtime],
    which an [InstrumentRuntime] overlay carries too) and the fields the execution path
    writes. The groups are coercions, so every field is read off a deployment directly.
    [dataclasses.replace] is a setter [set_f]. A [UUID] is its canonical text, whose order is
    the order of [uuid.UUID]. *)

Definition UUID := string.

Module DeploymentMode.
Inductive DeploymentMode := PAPER | LIVE.
#[global] Instance eq_dec : EqDecision DeploymentMode. Proof. solve_decision. Defined.
End DeploymentMode.
Notation DeploymentMode := DeploymentMode.DeploymentMode.

(** [mode.value] *)
Definition mode_value (mode : DeploymentMode) : string :=
  match mode with DeploymentMode.PAPER => "paper" | DeploymentMode.LIVE => "live" end.

Module DeploymentKind.
Inductive DeploymentKind := STRATEGY | DISCRETIONARY.
#[global] Instance eq_dec : EqDecision DeploymentKind. Proof. solve_decision. Defined.
End DeploymentKind.
Notation DeploymentKind := DeploymentKind.DeploymentKind.

Module IntentOrigin.
Inductive IntentOrigin := HUMAN | AGENT | RUNTIME.
End IntentOrigin.
Notation IntentOrigin := IntentOrigin.IntentOrigin.

Module DeploymentStatus.
Inductive DeploymentStatus := RUNNING | PAUSED | STOPPED.
#[global] Instance eq_dec : EqDecision DeploymentStatus. Proof. solve_decision. Defined.
End DeploymentStatus.
Notation DeploymentStatus := DeploymentStatus.DeploymentStatus.

Module RuntimePhase.
Inductive RuntimePhase := FLAT | PENDING_ENTRY | OPEN | PENDING_EXIT.
#[global] Instance eq_dec : EqDecision RuntimePhase. Proof. solve_decision. Defined.
End RuntimePhase.
Notation RuntimePhase := RuntimePhase.RuntimePhase.

Module OrderKind.
Inductive OrderKind := POST_ONLY_LIMIT | MARKETABLE | TRIGGER_BRACKET | STOP_LIMIT | ADOPTION.
#[global] Instance eq_dec : EqDecision OrderKind. Proof. solve_decision. Defined.
End OrderKind.
Notation OrderKind := OrderKind.OrderKind.

Definition VENUE_PROTECTION_KINDS : list OrderKind := [OrderKind.TRIGGER_BRACKET; OrderKind.STOP_LIMIT].

Definition is_venue_protection (kind : OrderKind) : bool := bool_decide (kind ∈ VENUE_PROTECTION_KINDS).

Module OrderStatus.
Inductive OrderStatus := PENDING | OPEN | FILLED | CANCELED | REJECTED | UNKNOWN.
#[global] Instance eq_dec : EqDecision OrderStatus. Proof. solve_decision. Defined.
End OrderStatus.
Notation OrderStatus := OrderStatus.OrderStatus.

Module IntentPurpose.
Inductive IntentPurpose :=
  | ENTRY | TAKE_PROFIT | STOP | TIME_EXIT | BRACKET | SIGNAL_EXIT | ADOPTION | LIQUIDATION.
#[global] Instance eq_dec : EqDecision IntentPurpose. Proof. solve_decision. Defined.

(** [purpose.value] *)
Definition value (p : IntentPurpose) : string :=
  match p with
  | ENTRY => "entry"
  | TAKE_PROFIT => "take_profit"
  | STOP => "stop"
  | TIME_EXIT => "time_exit"
  | BRACKET => "bracket"
  | SIGNAL_EXIT => "signal_exit"
  | ADOPTION => "adoption"
  | LIQUIDATION => "liquidation"
  end.
End IntentPurpose.
Notation IntentPurpose := IntentPurpose.IntentPurpose.

Definition INVENTORY_OPENING_PURPOSES : list IntentPurpose := [IntentPurpose.ENTRY; IntentPurpose.ADOPTION].

Module LifecycleCommand.
Inductive LifecycleCommand := NONE | STOP_NEW_ENTRIES | FLATTEN | MANAGED_SHUTDOWN.
#[global] Instance eq_dec : EqDecision LifecycleCommand. Proof. solve_decision. Defined.
End LifecycleCommand.
Notation LifecycleCommand := LifecycleCommand.LifecycleCommand.

(** ** Intents, orders, fills *)

Module OrderIntent.
Record OrderIntent := {
  id : UUID;
  deployment_id : UUID;
  client_order_id : string;
  purpose : IntentPurpose;
  side : OrderSide;
  kind : OrderKind;
  quantity : decimal;
  created_at : datetime;
  candle_starts_at : datetime;
  price : option decimal;
  stop_trigger_price : option decimal;
  take_profit_price : option decimal;
  status : OrderStatus;
  origin : IntentOrigin;
  idempotency_key : option string;
  product_id : string
}.

Definition set_product_id (i : OrderIntent) (product : string) : OrderIntent := {|
  id := id i; deployment_id := deployment_id i; client_order_id := client_order_id i; purpose := purpose i;
  side := side i; kind := kind i; quantity := quantity i; created_at := created_at i;
  candle_starts_at := candle_starts_at i; price := price i; stop_trigger_price := stop_trigger_price i;
  take_profit_price := take_profit_price i; status := status i; origin := origin i;
  idempotency_key := idempotency_key i; product_id := product |}.
End OrderIntent.
Notation OrderIntent := OrderIntent.OrderIntent.

Module Order.
Record Order := mk {
  id : UUID;
  deployment_id : UUID;
  intent_id : UUID;
  client_order_id : string;
  side : OrderSide;
  kind : OrderKind;
  quantity : decimal;
  status : OrderStatus;
  created_at : datetime;
  updated_at : datetime;
  price : option decimal;
  filled_quantity : decimal;
  venue_order_id : option string;
  reject_reason : option string;
  stop_trigger_price : option decimal;
  take_profit_price : option decimal;
  product_id : string;
  parent_order_id : option UUID;
  attached_child_venue_order_id : option string;
  pyramid_add : bool;
  venue_observed_at : option datetime;
  canceled_at : option datetime;
  settled_at : option datetime
}.

(** [replace(order, canceled_at=..., settled_at=...)] *)
Definition set_settlement (o : Order) (canceled settled : option datetime) : Order :=
  mk (id o) (deployment_id o) (intent_id o) (client_order_id o) (side o) (kind o) (quantity o) (status o)
    (created_at o) (updated_at o) (price o) (filled_quantity o) (venue_order_id o) (reject_reason o)
    (stop_trigger_price o) (take_profit_price o) (product_id o) (parent_order_id o)
    (attached_child_venue_order_id o) (pyramid_add o) (venue_observed_at o) canceled settled.

(** [replace(order, status=..., filled_quantity=..., updated_at=...)] *)
Definition set_progress (o : Order) (status' : OrderStatus) (filled : decimal) (updated : datetime) : Order :=
  mk (id o) (deployment_id o) (intent_id o) (client_order_id o) (side o) (kind o) (quantity o) status'
    (created_at o) updated (price o) filled (venue_order_id o) (reject_reason o)
    (stop_trigger_price o) (take_profit_price o) (product_id o) (parent_order_id o)
    (attached_child_venue_order_id o) (pyramid_add o) (venue_observed_at o) (canceled_at o) (settled_at o).

(** [replace(order, venue_order_id=..., status=..., filled_quantity=..., reject_reason=...,
    attached_child_venue_order_id=..., venue_observed_at=..., updated_at=...)] *)
Definition set_venue_view (o : Order) (venue : option string) (status' : OrderStatus) (filled : decimal)
    (reason child : option string) (observed : option datetime) (updated : datetime) : Order :=
  mk (id o) (deployment_id o) (intent_id o) (client_order_id o) (side o) (kind o) (quantity o) status'
    (created_at o) updated (price o) filled venue reason
    (stop_trigger_price o) (take_profit_price o) (product_id o) (parent_order_id o)
    child (pyramid_add o) observed (canceled_at o) (settled_at o).

Definition set_product_id (o : Order) (product : string) : Order :=
  mk (id o) (deployment_id o) (intent_id o) (client_order_id o) (side o) (kind o) (quantity o) (status o)
    (created_at o) (updated_at o) (price o) (filled_quantity o) (venue_order_id o) (reject_reason o)
    (stop_trigger_price o) (take_profit_price o) product (parent_order_id o)
    (attached_child_venue_order_id o) (pyramid_add o) (venue_observed_at o) (canceled_at o) (settled_at o).
End Order.
Notation Order := Order.Order.

(** [a or b] on an optional instant (an instant is always true). *)
Definition first_some {A} (a b : option A) : option A := match a with Some _ => a | None => b end.

Definition with_cancel_time (order : Order) (previous : option Order) : Order :=
  let stored_cancel := previous ≫= Order.canceled_at in
  let canceled_at := first_some stored_cancel (Order.canceled_at order) in
  let canceled_at :=
    match canceled_at with
    | None => if decide (Order.status order = OrderStatus.CANCELED) then Some (Order.updated_at order) else None
    | Some _ => canceled_at
    end in
  let stored_settlement := previous ≫= Order.settled_at in
  let settled_at := first_some stored_settlement (Order.settled_at order) in
  if decide (canceled_at = Order.canceled_at order ∧ settled_at = Order.settled_at order) then order
  else Order.set_settlement order canceled_at settled_at.

Module Fill.
Record Fill := mk {
  id : UUID;
  deployment_id : UUID;
  order_id : UUID;
  venue_fill_id : string;
  price : decimal;
  quantity : decimal;
  fee : decimal;
  filled_at : datetime;
  venue_order_id : option string;
  economics_applied_at : option datetime
}.

Definition set_economics_applied_at (f : Fill) (at_ : datetime) : Fill :=
  mk (id f) (deployment_id f) (order_id f) (venue_fill_id f) (price f) (quantity f) (fee f) (filled_at f)
    (venue_order_id f) (Some at_).
End Fill.
Notation Fill := Fill.Fill.

Module FundingCashFlow.
Record FundingCashFlow := {
  deployment_id : UUID;
  product_id : string;
  funding_time : datetime;
  signed_quantity : decimal;
  mark_price : decimal;
  rate : decimal;
  amount : decimal;
  applied_at : datetime
}.
End FundingCashFlow.
Notation FundingCashFlow := FundingCashFlow.FundingCashFlow.

Module Position.
Record Position := mk {
  deployment_id : UUID;
  quantity : decimal;
  entry_price : decimal;
  stop_price : decimal;
  target_price : option decimal;
  entered_bar : datetime;
  updated_at : datetime;
  trail_extreme : option decimal;
  side : PositionSide;
  product_id : string;
  add_count : Z;
  signal_exit_bar : option datetime
}.

(** [replace(position, quantity=..., entry_price=..., updated_at=..., add_count=...)] *)
Definition set_holding (p : Position) (q e : decimal) (updated : datetime) (adds : Z) : Position :=
  mk (deployment_id p) q e (stop_price p) (target_price p) (entered_bar p) updated (trail_extreme p) (side p)
    (product_id p) adds (signal_exit_bar p).

Definition set_product_id (p : Position) (product : string) : Position :=
  mk (deployment_id p) (quantity p) (entry_price p) (stop_price p) (target_price p) (entered_bar p) (updated_at p)
    (trail_extreme p) (side p) product (add_count p) (signal_exit_bar p).

Definition set_signal_exit (p : Position) (bar updated : datetime) : Position :=
  mk (deployment_id p) (quantity p) (entry_price p) (stop_price p) (target_price p) (entered_bar p) updated
    (trail_extreme p) (side p) (product_id p) (add_count p) (Some bar).

(** [replace(position, stop_price=..., trail_extreme=..., updated_at=...)] *)
Definition set_trail (p : Position) (stop : decimal) (extreme : option decimal) (updated : datetime) : Position :=
  mk (deployment_id p) (quantity p) (entry_price p) stop (target_price p) (entered_bar p) updated extreme (side p)
    (product_id p) (add_count p) (signal_exit_bar p).
End Position.
Notation Position := Position.Position.

(** ** Opening evidence of a UTC day ([trading/day_open.py]) *)

Module MidnightMark.
Record MidnightMark := { product_id : string; closes_at : datetime; price : decimal }.
End MidnightMark.
Notation MidnightMark := MidnightMark.MidnightMark.

Definition is_midnight (value : datetime) : bool := (value mod day =? 0)%Z.

(** [Field(gt=0)] and [MidnightMark.require_midnight]. *)
Definition valid_midnight_mark (m : MidnightMark) : bool :=
  ((d0 <? MidnightMark.price m)%dec && is_midnight (MidnightMark.closes_at m))%bool.

Module DailyOpeningEvidence.
Inductive Source := per_product_applied_fills_v1 | per_product_applied_fills_and_funding_v1.
Record DailyOpeningEvidence := {
  source : Source;
  day_start : datetime;
  equity : decimal;
  fills_fingerprint : string;
  marks : list MidnightMark
}.
End DailyOpeningEvidence.
Notation DailyOpeningEvidence := DailyOpeningEvidence.DailyOpeningEvidence.

Definition require_matching_marks (e : DailyOpeningEvidence) : result unit :=
  let products := MidnightMark.product_id <$> DailyOpeningEvidence.marks e in
  guard_or
    (bool_decide (NoDup products)
     && forallb (λ m, (MidnightMark.closes_at m =? DailyOpeningEvidence.day_start e)%Z) (DailyOpeningEvidence.marks e))
    (ValueError "Opening marks must be unique and belong to the evidence day.").

(** ** Runtimes and deployments *)

Module Runtime.
Record Runtime := mk {
  phase : RuntimePhase;
  last_evaluated_bar : option datetime;
  last_signal : option string;
  pending_entry_bars : Z;
  bars_held : Z;
  cooldown_bars_remaining : Z;
  pending_stop_price : option decimal;
  pending_target_price : option decimal
}.
Definition set_phase (r : Runtime) (p : RuntimePhase) : Runtime :=
  mk p (last_evaluated_bar r) (last_signal r) (pending_entry_bars r) (bars_held r) (cooldown_bars_remaining r)
    (pending_stop_price r) (pending_target_price r).

Definition set_last_signal (r : Runtime) (signal : option string) : Runtime :=
  mk (phase r) (last_evaluated_bar r) signal (pending_entry_bars r) (bars_held r) (cooldown_bars_remaining r)
    (pending_stop_price r) (pending_target_price r).

(** The defaults of [InstrumentRuntime]. *)
Definition blank (p : RuntimePhase) : Runtime := mk p None None 0 0 0 None None.
End Runtime.
Notation Runtime := Runtime.Runtime.

Module InstrumentRuntime.
Record InstrumentRuntime := mk { product_id : string; runtime : Runtime }.
End InstrumentRuntime.
Notation InstrumentRuntime := InstrumentRuntime.InstrumentRuntime.
Coercion InstrumentRuntime.runtime : InstrumentRuntime.InstrumentRuntime >-> Runtime.Runtime.

Module Deployment.
Record Terms := {
  id : UUID;
  strategy_fingerprint : option string;
  strategy_id : option UUID;
  product_id : string;
  mode : DeploymentMode;
  created_at : datetime;
  paper_starting_cash : option decimal;
  paper_maker_fee_rate : option decimal;
  paper_taker_fee_rate : option decimal;
  kind : DeploymentKind;
  timeframe : option string;
  strategy_name : option string;
  portfolio_id : option UUID
}.

Record Capital := {
  allocated_capital : option decimal;
  venue_available_quote : option decimal;
  reserved_buying_power : option decimal;
  inventory_cost : option decimal;
  performance_equity : option decimal;
  performance_capital_quote : option decimal;
  performance_maximum_drawdown_fraction : option decimal;
  initial_equity : option decimal;
  baseline_equity : option decimal;
  utc_day_open_equity : option decimal;
  utc_day_open_at : option datetime;
  risk_day_open_evidence : option DailyOpeningEvidence;
  high_water_mark_equity : option decimal
}.

Record Deployment := mk {
  terms : Terms;
  capital : Capital;
  runtime : Runtime;
  status : DeploymentStatus;
  cash : decimal;
  updated_at : datetime;
  mismatch_detail : option string;
  futures_derisk_pending : bool;
  futures_flat_confirmation_after : option datetime;
  revision : Z;
  worker_lease_holder : option string;
  worker_lease_expires_at : option datetime;
  lifecycle_command : LifecycleCommand;
  daily_loss_latched : bool;
  drawdown_latched : bool;
  last_signal_event_at : option datetime;
  last_signal_processed_at : option datetime
}.

Definition set_runtime (d : Deployment) (r : Runtime) : Deployment :=
  mk (terms d) (capital d) r (status d) (cash d) (updated_at d) (mismatch_detail d) (futures_derisk_pending d)
    (futures_flat_confirmation_after d) (revision d) (worker_lease_holder d) (worker_lease_expires_at d)
    (lifecycle_command d) (daily_loss_latched d) (drawdown_latched d) (last_signal_event_at d)
    (last_signal_processed_at d).

Definition set_cash (d : Deployment) (c : decimal) (now : datetime) : Deployment :=
  mk (terms d) (capital d) (runtime d) (status d) c now (mismatch_detail d) (futures_derisk_pending d)
    (futures_flat_confirmation_after d) (revision d) (worker_lease_holder d) (worker_lease_expires_at d)
    (lifecycle_command d) (daily_loss_latched d) (drawdown_latched d) (last_signal_event_at d)
    (last_signal_processed_at d).

Definition set_flat_confirmation (d : Deployment) (after : option datetime) : Deployment :=
  mk (terms d) (capital d) (runtime d) (status d) (cash d) (updated_at d) (mismatch_detail d)
    (futures_derisk_pending d) after (revision d) (worker_lease_holder d) (worker_lease_expires_at d)
    (lifecycle_command d) (daily_loss_latched d) (drawdown_latched d) (last_signal_event_at d)
    (last_signal_processed_at d).

Definition set_revision (d : Deployment) (r : Z) : Deployment :=
  mk (terms d) (capital d) (runtime d) (status d) (cash d) (updated_at d) (mismatch_detail d)
    (futures_derisk_pending d) (futures_flat_confirmation_after d) r (worker_lease_holder d)
    (worker_lease_expires_at d) (lifecycle_command d) (daily_loss_latched d) (drawdown_latched d)
    (last_signal_event_at d) (last_signal_processed_at d).

Definition set_lease (d : Deployment) (holder : string) (expires : datetime) : Deployment :=
  mk (terms d) (capital d) (runtime d) (status d) (cash d) (updated_at d) (mismatch_detail d)
    (futures_derisk_pending d) (futures_flat_confirmation_after d) (revision d) (Some holder) (Some expires)
    (lifecycle_command d) (daily_loss_latched d) (drawdown_latched d) (last_signal_event_at d)
    (last_signal_processed_at d).

(** [replace(current, status=..., mismatch_detail=..., daily_loss_latched=..., updated_at=...)] *)
Definition set_breaker (d : Deployment) (s : DeploymentStatus) (detail : option string) (latched : bool)
    (now : datetime) : Deployment :=
  mk (terms d) (capital d) (runtime d) s (cash d) now detail (futures_derisk_pending d)
    (futures_flat_confirmation_after d) (revision d) (worker_lease_holder d) (worker_lease_expires_at d)
    (lifecycle_command d) latched (drawdown_latched d) (last_signal_event_at d) (last_signal_processed_at d).

Definition set_capital (d : Deployment) (c : Capital) (updated : datetime) : Deployment :=
  mk (terms d) c (runtime d) (status d) (cash d) updated (mismatch_detail d) (futures_derisk_pending d)
    (futures_flat_confirmation_after d) (revision d) (worker_lease_holder d) (worker_lease_expires_at d)
    (lifecycle_command d) (daily_loss_latched d) (drawdown_latched d) (last_signal_event_at d)
    (last_signal_processed_at d).

Definition strategy_deleted (d : Deployment) : bool :=
  bool_decide (kind (terms d) = DeploymentKind.STRATEGY) && bool_decide (strategy_id (terms d) = None).
End Deployment.
Notation Deployment := Deployment.Deployment.
Coercion Deployment.terms : Deployment.Deployment >-> Deployment.Terms.
Coercion Deployment.capital : Deployment.Deployment >-> Deployment.Capital.
Coercion Deployment.runtime : Deployment.Deployment >-> Runtime.Runtime.

Module DeploymentSnapshot.
Record DeploymentSnapshot := mk {
  deployment : Deployment;
  position : option Position;
  orders : list Order;
  fills : list Fill;
  intents : list OrderIntent;
  positions : list Position;
  instrument_runtimes : list InstrumentRuntime;
  accounting_complete : bool;
  funding : list FundingCashFlow
}.

Definition set_deployment (s : DeploymentSnapshot) (d : Deployment) : DeploymentSnapshot :=
  mk d (position s) (orders s) (fills s) (intents s) (positions s) (instrument_runtimes s) (accounting_complete s)
    (funding s).

Definition set_fills (s : DeploymentSnapshot) (f : list Fill) : DeploymentSnapshot :=
  mk (deployment s) (position s) (orders s) f (intents s) (positions s) (instrument_runtimes s)
    (accounting_complete s) (funding s).

Definition set_instrument_runtimes (s : DeploymentSnapshot) (r : list InstrumentRuntime) : DeploymentSnapshot :=
  mk (deployment s) (position s) (orders s) (fills s) (intents s) (positions s) r (accounting_complete s) (funding s).
End DeploymentSnapshot.
Notation DeploymentSnapshot := DeploymentSnapshot.DeploymentSnapshot.

Module DeploymentSummarySnapshot.
Record DeploymentBookTotals := { open_books : nat; working_orders : nat; fill_count : nat }.
Record DeploymentSummarySnapshot := {
  deployment : Deployment;
  position : option Position;
  positions : list Position;
  instrument_runtimes : list InstrumentRuntime;
  book_totals : DeploymentBookTotals;
  open_orders : list Order
}.
End DeploymentSummarySnapshot.
Notation DeploymentSummarySnapshot := DeploymentSummarySnapshot.DeploymentSummarySnapshot.

Definition summary_as_snapshot (summary : DeploymentSummarySnapshot) : DeploymentSnapshot := {|
  DeploymentSnapshot.deployment := DeploymentSummarySnapshot.deployment summary;
  DeploymentSnapshot.position := DeploymentSummarySnapshot.position summary;
  DeploymentSnapshot.orders := DeploymentSummarySnapshot.open_orders summary;
  DeploymentSnapshot.fills := [];
  DeploymentSnapshot.intents := [];
  DeploymentSnapshot.positions := DeploymentSummarySnapshot.positions summary;
  DeploymentSnapshot.instrument_runtimes := DeploymentSummarySnapshot.instrument_runtimes summary;
  DeploymentSnapshot.accounting_complete := false;
  DeploymentSnapshot.funding := []
|}.

(** [with_runtime]: the keyword arguments are the options, [None] leaving a field unchanged. *)
Record RuntimeChange := {
  new_cash : option decimal;
  new_phase : option RuntimePhase;
  new_mismatch_detail : option string;
  clear_mismatch : bool;
  new_last_evaluated_bar : option datetime;
  new_last_signal : option string;
  new_pending_entry_bars : option Z;
  new_bars_held : option Z;
  new_cooldown_bars_remaining : option Z;
  new_pending_stop_price : option decimal;
  new_pending_target_price : option decimal;
  clear_pending_levels : bool;
  new_status : option DeploymentStatus;
  new_lifecycle_command : option LifecycleCommand;
  new_daily_loss_latched : option bool;
  new_drawdown_latched : option bool;
  new_last_signal_event_at : option datetime;
  new_last_signal_processed_at : option datetime
}.

Definition with_runtime (d : Deployment) (updated_at : datetime) (c : RuntimeChange) : Deployment :=
  let stop_price := if clear_pending_levels c then None
    else first_some (new_pending_stop_price c) (Runtime.pending_stop_price d) in
  let target_price := if clear_pending_levels c then None
    else first_some (new_pending_target_price c) (Runtime.pending_target_price d) in
  let detail := if clear_mismatch c then None
    else first_some (new_mismatch_detail c) (Deployment.mismatch_detail d) in
  Deployment.mk (Deployment.terms d) (Deployment.capital d)
    (Runtime.mk
      (default (Runtime.phase d) (new_phase c))
      (first_some (new_last_evaluated_bar c) (Runtime.last_evaluated_bar d))
      (first_some (new_last_signal c) (Runtime.last_signal d))
      (default (Runtime.pending_entry_bars d) (new_pending_entry_bars c))
      (default (Runtime.bars_held d) (new_bars_held c))
      (default (Runtime.cooldown_bars_remaining d) (new_cooldown_bars_remaining c))
      stop_price target_price)
    (default (Deployment.status d) (new_status c))
    (default (Deployment.cash d) (new_cash c))
    updated_at detail
    (Deployment.futures_derisk_pending d) (Deployment.futures_flat_confirmation_after d) (Deployment.revision d)
    (Deployment.worker_lease_holder d) (Deployment.worker_lease_expires_at d)
    (default (Deployment.lifecycle_command d) (new_lifecycle_command c))
    (default (Deployment.daily_loss_latched d) (new_daily_loss_latched c))
    (default (Deployment.drawdown_latched d) (new_drawdown_latched c))
    (first_some (new_last_signal_event_at c) (Deployment.last_signal_event_at d))
    (first_some (new_last_signal_processed_at c) (Deployment.last_signal_processed_at d)).

(** The call of [with_runtime] in the fill projection: the fields it names, the others omitted. *)
Definition runtime_change (cash : option decimal) (phase : option RuntimePhase) (status : option DeploymentStatus)
    (detail : option string) (counters : option Z) (cooldown : option Z) (clear_levels : bool) : RuntimeChange := {|
  new_cash := cash; new_phase := phase; new_mismatch_detail := detail; clear_mismatch := false;
  new_last_evaluated_bar := None; new_last_signal := None;
  new_pending_entry_bars := counters; new_bars_held := counters; new_cooldown_bars_remaining := cooldown;
  new_pending_stop_price := None; new_pending_target_price := None; clear_pending_levels := clear_levels;
  new_status := status; new_lifecycle_command := None; new_daily_loss_latched := None; new_drawdown_latched := None;
  new_last_signal_event_at := None; new_last_signal_processed_at := None |}.

Definition snapshot_positions (s : DeploymentSnapshot) : list Position :=
  match DeploymentSnapshot.positions s with
  | [] => match DeploymentSnapshot.position s with Some p => [p] | None => [] end
  | positions => positions
  end.

(** [product_id or deployment.product_id] *)
Definition resolved_product_id (product_id : string) (d : Deployment) : string :=
  if decide (product_id = "") then Deployment.product_id d else product_id.

Definition runtime_from_deployment (d : Deployment) (product_id : string) : InstrumentRuntime :=
  InstrumentRuntime.mk product_id (Deployment.runtime d).

Definition mirrors_primary_runtime (d : Deployment) (runtimes : list InstrumentRuntime) : bool :=
  forallb (λ item, bool_decide (InstrumentRuntime.product_id item = Deployment.product_id d)) runtimes.

Definition aggregate_phase (runtimes : list InstrumentRuntime) : RuntimePhase :=
  let phases := (λ item : InstrumentRuntime, Runtime.phase item) <$> runtimes in
  if decide (RuntimePhase.OPEN ∈ phases) then RuntimePhase.OPEN
  else if decide (RuntimePhase.PENDING_EXIT ∈ phases) then RuntimePhase.PENDING_EXIT
  else if decide (RuntimePhase.PENDING_ENTRY ∈ phases) then RuntimePhase.PENDING_ENTRY
  else RuntimePhase.FLAT.

Definition _known_product_ids (s : DeploymentSnapshot) : list string :=
  let d := DeploymentSnapshot.deployment s in
  Deployment.product_id d
  :: List.filter (λ p, negb (bool_decide (p = ""))) (InstrumentRuntime.product_id <$> DeploymentSnapshot.instrument_runtimes s)
  ++ ((λ p, resolved_product_id (Position.product_id p) d) <$> snapshot_positions s)
  ++ ((λ o, resolved_product_id (Order.product_id o) d) <$> DeploymentSnapshot.orders s).

Definition _synthesized_phase (s : DeploymentSnapshot) (product_id : string) : RuntimePhase :=
  if existsb (λ p, bool_decide (resolved_product_id (Position.product_id p) (DeploymentSnapshot.deployment s) = product_id))
       (snapshot_positions s)
  then RuntimePhase.OPEN else RuntimePhase.FLAT.

Definition _runtime_row (s : DeploymentSnapshot) (stored : dict string InstrumentRuntime) (product_id : string)
    : InstrumentRuntime :=
  let d := DeploymentSnapshot.deployment s in
  match dict_get product_id stored with
  | Some existing => existing
  | None =>
      if decide (product_id = Deployment.product_id d ∧ DeploymentSnapshot.instrument_runtimes s = [] ∧
                 Forall (λ p, p = Deployment.product_id d) (_known_product_ids s))
      then runtime_from_deployment d product_id
      else InstrumentRuntime.mk product_id (Runtime.blank (_synthesized_phase s product_id))
  end.

Definition visible_instrument_runtimes (s : DeploymentSnapshot) (extra_product_ids : list string) : list InstrumentRuntime :=
  let named := List.filter (λ r, negb (bool_decide (InstrumentRuntime.product_id r = ""))) (DeploymentSnapshot.instrument_runtimes s) in
  let stored := dict_of InstrumentRuntime.product_id named in
  let products := _known_product_ids s ++ List.filter (λ p, negb (bool_decide (p = ""))) extra_product_ids in
  _runtime_row s stored <$> sorted_set products.

(** ** Futures identifiers ([market_data/instrument_ids.py])

    [^[A-Z0-9]{2,6}-\d{2}[A-Z]{3}\d{2}-CDE$] on the stripped, upper-cased text. *)

Definition is_space (c : ascii) : bool :=
  let n := Ascii.nat_of_ascii c in ((9 <=? n) && (n <=? 13) || (28 <=? n) && (n <=? 32))%nat.
Definition is_upper (c : ascii) : bool := let n := Ascii.nat_of_ascii c in ((65 <=? n) && (n <=? 90))%nat.
Definition is_lower (c : ascii) : bool := let n := Ascii.nat_of_ascii c in ((97 <=? n) && (n <=? 122))%nat.
Definition is_decimal_digit (c : ascii) : bool := let n := Ascii.nat_of_ascii c in ((48 <=? n) && (n <=? 57))%nat.
Definition upper (c : ascii) : ascii := if is_lower c then Ascii.ascii_of_nat (Ascii.nat_of_ascii c - 32) else c.

Fixpoint lstrip (l : list ascii) : list ascii :=
  match l with c :: k => if is_space c then lstrip k else l | [] => [] end.
Definition strip (l : list ascii) : list ascii := rev (lstrip (rev (lstrip l))).

Fixpoint split_dash (l : list ascii) : list ascii * list ascii :=
  match l with
  | [] => ([], [])
  | c :: l => if Ascii.eqb c "-"%char then ([], c :: l) else let (a, b) := split_dash l in (c :: a, b)
  end.

Definition is_futures_product_id (product_id : string) : bool :=
  let normalized := upper <$> strip (String.list_ascii_of_string product_id) in
  let (code, rest) := split_dash normalized in
  ((2 <=? length code) && (length code <=? 6) && forallb (λ c, is_upper c || is_decimal_digit c) code
   && match rest with
      | [dash; a; b; m1; m2; m3; y1; y2; dash2; c; d; e] =>
          Ascii.eqb dash "-"%char && forallb is_decimal_digit [a; b; y1; y2] && forallb is_upper [m1; m2; m3]
          && bool_decide ([dash2; c; d; e] = ["-"; "C"; "D"; "E"]%char)
      | _ => false
      end)%nat.

Example futures_ids :
  is_futures_product_id "BIT-28AUG26-CDE" = true ∧ is_futures_product_id " bit-28aug26-cde" = true ∧
  is_futures_product_id "BTC-USD" = false ∧ is_futures_product_id "BITCOIN-28AUG26-CDE" = false.
Proof. by vm_compute. Qed.

(** * One product's view of a deployment ([trading/overlay.py], [trading/futures_safety.py])

    A deployment with several products keeps one runtime row per product; the loop works on
    a snapshot focused on one of them. [overlay_snapshot] builds that focus. The store wrapper
    [InstrumentScopedStore], which stamps the product on what it saves, is in [Engine]. *)

(** The product filter every projection of a snapshot uses. *)
Definition of_product (d : Deployment) (product_id item_product : string) : bool :=
  bool_decide (resolved_product_id item_product d = product_id).

Definition _runtime_for (s : DeploymentSnapshot) (product_id : string) : InstrumentRuntime :=
  let d := DeploymentSnapshot.deployment s in
  if bool_decide (product_id = Deployment.product_id d)
     && mirrors_primary_runtime d (DeploymentSnapshot.instrument_runtimes s)
  then runtime_from_deployment d product_id
  else
    default (InstrumentRuntime.mk product_id (Runtime.blank RuntimePhase.FLAT))
      (List.find (λ item, bool_decide (InstrumentRuntime.product_id item = product_id))
         (DeploymentSnapshot.instrument_runtimes s)).

Definition other_runtimes (product_id : string) (rows : list InstrumentRuntime) : list InstrumentRuntime :=
  List.filter (λ item, negb (bool_decide (InstrumentRuntime.product_id item = product_id))) rows.

Definition _ensure_runtime (s : DeploymentSnapshot) (runtime : InstrumentRuntime) : list InstrumentRuntime :=
  other_runtimes (InstrumentRuntime.product_id runtime) (DeploymentSnapshot.instrument_runtimes s) ++ [runtime].

Definition _position_for (s : DeploymentSnapshot) (product_id : string) : option Position :=
  List.find (λ p, of_product (DeploymentSnapshot.deployment s) product_id (Position.product_id p)) (snapshot_positions s).

Definition _orders_for (s : DeploymentSnapshot) (product_id : string) : list Order :=
  List.filter (λ o, of_product (DeploymentSnapshot.deployment s) product_id (Order.product_id o)) (DeploymentSnapshot.orders s).

Definition _intents_for (s : DeploymentSnapshot) (product_id : string) : list OrderIntent :=
  List.filter (λ i, of_product (DeploymentSnapshot.deployment s) product_id (OrderIntent.product_id i))
    (DeploymentSnapshot.intents s).

Definition _fills_for (s : DeploymentSnapshot) (product_id : string) : list Fill :=
  let order_ids := Order.id <$> _orders_for s product_id in
  List.filter (λ f, bool_decide (Fill.order_id f ∈ order_ids)) (DeploymentSnapshot.fills s).

Definition overlay_snapshot (s : DeploymentSnapshot) (product_id : string) : DeploymentSnapshot :=
  let runtime := _runtime_for s product_id in
  {| DeploymentSnapshot.deployment := Deployment.set_runtime (DeploymentSnapshot.deployment s) runtime;
     DeploymentSnapshot.position := _position_for s product_id;
     DeploymentSnapshot.orders := _orders_for s product_id;
     DeploymentSnapshot.fills := _fills_for s product_id;
     DeploymentSnapshot.intents := _intents_for s product_id;
     DeploymentSnapshot.positions := snapshot_positions s;
     DeploymentSnapshot.instrument_runtimes := _ensure_runtime s runtime;
     DeploymentSnapshot.accounting_complete := false;
     DeploymentSnapshot.funding := [] |}.

(** ** The durable flat-confirmation duty of a live futures book *)

Definition require_futures_flat_confirmation (d : Deployment) (after : datetime) (fill_projected_flat : bool) : Deployment :=
  if negb (bool_decide (Deployment.mode d = DeploymentMode.LIVE))
     || negb (is_futures_product_id (Deployment.product_id d))
     || (negb (bool_decide (Deployment.lifecycle_command d = LifecycleCommand.FLATTEN))
         && negb (Deployment.futures_derisk_pending d)
         && bool_decide (Deployment.futures_flat_confirmation_after d = None)
         && negb fill_projected_flat)
  then d
  else Deployment.set_flat_confirmation d
         (Some (match Deployment.futures_flat_confirmation_after d with
                | Some previous => Z.max previous after
                | None => after
                end)).

(** ** Facts *)

Lemma runtime_for_product s p : InstrumentRuntime.product_id (_runtime_for s p) = p.
Proof.
  unfold _runtime_for. destruct (_ && _); [done|]. destruct (List.find _ _) as [r|] eqn:Hr; cbn; [|done].
  apply find_some in Hr as [_ Hr]. by apply bool_decide_eq_true in Hr.
Qed.

Lemma overlay_cash s p : Deployment.cash (DeploymentSnapshot.deployment (overlay_snapshot s p)) =
  Deployment.cash (DeploymentSnapshot.deployment s).
Proof. done. Qed.

Lemma overlay_resolved s p q : resolved_product_id q (DeploymentSnapshot.deployment (overlay_snapshot s p)) =
  resolved_product_id q (DeploymentSnapshot.deployment s).
Proof. done. Qed.

(** The duty never weakens: the confirmation instant only moves forward, and nothing else
    of the deployment changes. *)
Lemma flat_confirmation_monotone (d : Deployment) after flat t : Deployment.futures_flat_confirmation_after d = Some t →
  ∃ t', Deployment.futures_flat_confirmation_after (require_futures_flat_confirmation d after flat) = Some t' ∧ t <= t'.
Proof.
  intros Ht. unfold require_futures_flat_confirmation. rewrite Ht. destruct (_ || _); cbn.
  - exists t. split; [done|lia].
  - eexists. split; [done|lia].
Qed.

Lemma flat_confirmation_fields d after flat :
  let d' := require_futures_flat_confirmation d after flat in
  Deployment.terms d' = Deployment.terms d ∧ Deployment.runtime d' = Deployment.runtime d ∧
  Deployment.cash d' = Deployment.cash d ∧ Deployment.status d' = Deployment.status d ∧
  Deployment.revision d' = Deployment.revision d ∧ Deployment.mismatch_detail d' = Deployment.mismatch_detail d.
Proof. unfold require_futures_flat_confirmation. by destruct (_ || _). Qed.

(** A later fill of a flat live futures book rearms the duty. *)
Lemma flat_confirmation_armed (d : Deployment) after : Deployment.mode d = DeploymentMode.LIVE →
  is_futures_product_id (Deployment.product_id d) = true →
  is_Some (Deployment.futures_flat_confirmation_after (require_futures_flat_confirmation d after true)).
Proof.
  intros Hm Hp. unfold require_futures_flat_confirmation. rewrite Hp, bool_decide_true by done. cbn.
  rewrite !andb_false_r. cbn. by eexists.
Qed.
