(* ===== verification/FillLedger.v ===== *)
(** * FillLedger: the economic projection of a fill ([trading/fill_ledger.py], [futures_repair.py])

    One fill changes one product book: it opens a position, adds to it, reduces it or closes
    it, and moves cash by the notional and the fee. An explicit repair of a live futures book
    moves cash only. The code reads the clock three times; the readings are arguments.

    A repair computes in a context that traps [Inexact]: [exact_add] and [exact_mul] raise
    where the rounded result differs from the exact one. *)

From S2P Require Import Prelude Decimals DecimalFacts Market Geometry Containers TradingModels.

Open Scope Z_scope.

Definition OVER_CLOSING_FILL_DETAIL : string :=
  "Exit fill exceeds the open position; the residual inventory is unmanaged.".
Definition MISSING_STOP_DETAIL : string := "Entry fill is missing its stored stop price.".
Definition MISSING_TIMEFRAME_DETAIL : string :=
  "Entry fill is missing a deployment timeframe for bar bucketing.".
Definition EXCESS_REDUCTION_PREFIX : string := "futures-flip:".

(** [a or b] on optional text. *)
Definition or_text (a b : option string) : option string :=
  match a with Some t => if decide (t = "") then b else a | None => b end.

(** An optional, possibly empty text as Python's truth value. *)
Definition truthy (t : option string) : option string :=
  match t with Some t => if decide (t = "") then None else Some t | None => None end.

(** [a == b] on optional decimals. *)
Definition same_price (a b : option decimal) : bool :=
  match a, b with
  | None, None => true
  | Some a, Some b => (a =? b)%dec
  | _, _ => false
  end.

Section FillLedger.
Context {dc : DecimalContext}.

Definition _cash_after_fill (cash : decimal) (fill : Fill) (order_side : OrderSide) : decimal :=
  let notional := (Fill.price fill * Fill.quantity fill)%dec in
  match order_side with
  | BUY => (cash - notional - Fill.fee fill)%dec
  | SELL => (cash + notional - Fill.fee fill)%dec
  end.

(** ** Evidence *)

Definition applied (f : Fill) : bool := match Fill.economics_applied_at f with Some _ => true | None => false end.

Definition applied_fill_quantity (s : DeploymentSnapshot) (order_id : UUID) : decimal :=
  dsum (Fill.quantity <$> List.filter (λ f, bool_decide (Fill.order_id f = order_id) && applied f) (DeploymentSnapshot.fills s)).

Definition fill_economics_complete (s : DeploymentSnapshot) (order : Order) : bool :=
  match List.filter (λ f, bool_decide (Fill.order_id f = Order.id order)) (DeploymentSnapshot.fills s) with
  | [] => false
  | order_fills =>
      if negb (forallb applied order_fills) then false
      else
        let covered := if (d0 <? Order.filled_quantity order)%dec then Order.filled_quantity order else Order.quantity order in
        (covered <=? applied_fill_quantity s (Order.id order))%dec
  end.

(** The loop of [unsettled_fill_evidence]: [None] once an unapplied fill is met. *)
Fixpoint applied_by_order (fills : list Fill) (acc : gmap string decimal) : option (gmap string decimal) :=
  match fills with
  | [] => Some acc
  | f :: fills =>
      if applied f
      then applied_by_order fills (<[Fill.order_id f := (default d0 (acc !! Fill.order_id f) + Fill.quantity f)%dec]> acc)
      else None
  end.

Definition unsettled_fill_evidence (s : DeploymentSnapshot) : bool :=
  match applied_by_order (DeploymentSnapshot.fills s) ∅ with
  | None => true
  | Some applied =>
      existsb (λ o,
        (default d0 (applied !! Order.id o) <?
         (if decide (Order.status o = OrderStatus.FILLED) then dmax (Order.quantity o) (Order.filled_quantity o)
          else Order.filled_quantity o))%dec) (DeploymentSnapshot.orders s)
  end.

(** [_anchored_inventory_balances] *)
Definition _anchored_inventory_balances (s : DeploymentSnapshot) (orders : dict string Order)
    (anchors : gmap string datetime) : gmap string decimal :=
  fold_left (λ (balances : gmap string decimal) fill,
    match dict_get (Fill.order_id fill) orders with
    | Some order =>
        if applied fill then
          let product_id := resolved_product_id (Order.product_id order) (DeploymentSnapshot.deployment s) in
          match anchors !! product_id with
          | Some anchor =>
              if Order.created_at order <? anchor then balances
              else
                let signed := match Order.side order with BUY => Fill.quantity fill | SELL => (- Fill.quantity fill)%dec end in
                <[product_id := (default d0 (balances !! product_id) + signed)%dec]> balances
          | None => balances
          end
        else balances
    | None => balances
    end) (DeploymentSnapshot.fills s) ∅.

Definition inventory_anchors (s : DeploymentSnapshot) (orders : dict string Order) : gmap string datetime :=
  let entries := OrderIntent.id <$> List.filter (λ i, bool_decide (OrderIntent.purpose i ∈ INVENTORY_OPENING_PURPOSES))
                   (DeploymentSnapshot.intents s) in
  fold_left (λ (anchors : gmap string datetime) fill,
    match dict_get (Fill.order_id fill) orders with
    | Some order =>
        if negb (applied fill) || negb (bool_decide (Order.intent_id order ∈ entries)) || is_venue_protection (Order.kind order)
        then anchors
        else
          let product_id := resolved_product_id (Order.product_id order) (DeploymentSnapshot.deployment s) in
          <[product_id := Z.min (default (Order.created_at order) (anchors !! product_id)) (Order.created_at order)]> anchors
    | None => anchors
    end) (DeploymentSnapshot.fills s) ∅.

(** Signed inventory, negative for shorts. *)
Definition signed_quantity (p : Position) : decimal :=
  match Position.side p with LONG => Position.quantity p | SHORT => (- Position.quantity p)%dec end.

Definition unprojected_inventory_products (s : DeploymentSnapshot) : list string :=
  let orders := dict_of Order.id (DeploymentSnapshot.orders s) in
  let anchors := inventory_anchors s orders in
  let balances := _anchored_inventory_balances s orders anchors in
  let positions : gmap string decimal :=
    fold_left (λ m p, <[resolved_product_id (Position.product_id p) (DeploymentSnapshot.deployment s) := signed_quantity p]> m)
      (snapshot_positions s) ∅ in
  sort_by String.leb
    (List.filter (λ product_id,
       let balance := default d0 (balances !! product_id) in
       let held := default d0 (positions !! product_id) in
       negb (balance =? d0)%dec && ((balance * held <=? d0)%dec || (abs_ held <? abs_ balance)%dec))
     (map_to_list anchors).*1).

Definition prior_fills_for_order (s : DeploymentSnapshot) (order_id : UUID) : nat :=
  length (List.filter (λ f, bool_decide (Fill.order_id f = order_id) && applied f) (DeploymentSnapshot.fills s)).

(** [creation_order], as the comparison of its key tuples. *)
Definition creation_order_le (a b : Order) : bool :=
  let child o := match Order.parent_order_id o with Some _ => true | None => false end in
  if Order.created_at a <? Order.created_at b then true
  else if Order.created_at b <? Order.created_at a then false
  else if bool_decide (child a = child b) then String.leb (Order.id a) (Order.id b) else child b.

(** The order in which [replay_unapplied_fills] applies recorded fills. *)
Definition replay_le (children : list UUID) (a b : Fill) : bool :=
  let child f := bool_decide (Fill.order_id f ∈ children) in
  if Fill.filled_at a <? Fill.filled_at b then true
  else if Fill.filled_at b <? Fill.filled_at a then false
  else if bool_decide (child a = child b) then String.leb (Fill.id a) (Fill.id b) else child b.

Definition pending_fills (s : DeploymentSnapshot) : list Fill :=
  let children := Order.id <$> List.filter (λ o, match Order.parent_order_id o with Some _ => true | None => false end)
                    (DeploymentSnapshot.orders s) in
  sort_by (replay_le children) (List.filter (λ f, negb (applied f)) (DeploymentSnapshot.fills s)).

(** ** Positions and fills of a snapshot *)

Definition _replace_position (positions : list Position) (position : Position) (product_id : string) : list Position :=
  List.filter (λ item,
    negb (bool_decide ((if decide (Position.product_id item = "") then product_id else Position.product_id item) = product_id)))
    positions ++ [position].

Definition same_fill (a b : Fill) : bool :=
  bool_decide (Fill.venue_fill_id a = Fill.venue_fill_id b) && bool_decide (Fill.deployment_id a = Fill.deployment_id b).

Fixpoint _upsert_fill (fills : list Fill) (fill : Fill) : list Fill :=
  match fills with
  | [] => [fill]
  | item :: rest => if same_fill item fill then fill :: rest else item :: _upsert_fill rest fill
  end.

(** The snapshot every projection returns; [accounting_complete] and [funding] take their defaults. *)
Definition projected (s : DeploymentSnapshot) (d : Deployment) (position : option Position) (fill : Fill)
    (positions : list Position) : DeploymentSnapshot := {|
  DeploymentSnapshot.deployment := d;
  DeploymentSnapshot.position := position;
  DeploymentSnapshot.orders := DeploymentSnapshot.orders s;
  DeploymentSnapshot.fills := _upsert_fill (DeploymentSnapshot.fills s) fill;
  DeploymentSnapshot.intents := DeploymentSnapshot.intents s;
  DeploymentSnapshot.positions := positions;
  DeploymentSnapshot.instrument_runtimes := DeploymentSnapshot.instrument_runtimes s;
  DeploymentSnapshot.accounting_complete := true;
  DeploymentSnapshot.funding := []
|}.

(** A fault pauses a book, but a stopped one stays stopped. *)
Definition fault_status (d : Deployment) : DeploymentStatus :=
  if decide (Deployment.status d = DeploymentStatus.STOPPED) then DeploymentStatus.STOPPED else DeploymentStatus.PAUSED.

Definition entry_fault (s : DeploymentSnapshot) (fill : Fill) (order : Order) (now : datetime) (detail : string)
    : DeploymentSnapshot :=
  let d := DeploymentSnapshot.deployment s in
  let cash := _cash_after_fill (Deployment.cash d) fill (Order.side order) in
  projected s
    (with_runtime d now (runtime_change (Some cash) (Some RuntimePhase.FLAT) (Some (fault_status d)) (Some detail) None None true))
    None fill [].

Definition _project_entry (s : DeploymentSnapshot) (fill : Fill) (order : Order) (now : datetime) (timeframe : option string)
    : result DeploymentSnapshot :=
  let d := DeploymentSnapshot.deployment s in
  let side := match Order.side order with BUY => LONG | SELL => SHORT end in
  let cash := _cash_after_fill (Deployment.cash d) fill (Order.side order) in
  let product_id := resolved_product_id (Order.product_id order) d in
  match Runtime.pending_stop_price d with
  | None => Ok (entry_fault s fill order now MISSING_STOP_DETAIL)
  | Some stop =>
      match or_text (Deployment.timeframe d) timeframe with
      | None => Ok (entry_fault s fill order now MISSING_TIMEFRAME_DETAIL)
      | Some bar_timeframe =>
          entered_bar ← entry_bar_bucket (Fill.filled_at fill) bar_timeframe;
          let position := {|
            Position.deployment_id := Deployment.id d;
            Position.quantity := Fill.quantity fill;
            Position.entry_price := Fill.price fill;
            Position.stop_price := stop;
            Position.target_price := Runtime.pending_target_price d;
            Position.entered_bar := entered_bar;
            Position.updated_at := now;
            Position.trail_extreme := None;
            Position.side := side;
            Position.product_id := product_id;
            Position.add_count := 1;
            Position.signal_exit_bar := None |} in
          Ok (projected s
                (with_runtime d now (runtime_change (Some cash) (Some RuntimePhase.OPEN) None None (Some 0) None true))
                (Some position) fill (_replace_position (DeploymentSnapshot.positions s) position product_id))
      end
  end.

Definition _project_scale_in (s : DeploymentSnapshot) (fill : Fill) (order : Order) (position : Position) (now : datetime)
    : result DeploymentSnapshot :=
  let d := DeploymentSnapshot.deployment s in
  let cash := _cash_after_fill (Deployment.cash d) fill (Order.side order) in
  let quantity := (Position.quantity position + Fill.quantity fill)%dec in
  entry_price ← div (Position.entry_price position * Position.quantity position + Fill.price fill * Fill.quantity fill)%dec quantity;
  let prior := prior_fills_for_order s (Order.id order) in
  let add_count := if (Nat.eqb prior 0) && Order.pyramid_add order then Position.add_count position + 1
                   else Position.add_count position in
  let updated_position := Position.set_holding position quantity entry_price now add_count in
  let phase := if decide (Runtime.phase d = RuntimePhase.FLAT) then RuntimePhase.OPEN else Runtime.phase d in
  let product_id := resolved_product_id (Position.product_id updated_position) d in
  Ok (projected s (with_runtime d now (runtime_change (Some cash) (Some phase) None None None None false))
        (Some updated_position) fill (_replace_position (DeploymentSnapshot.positions s) updated_position product_id)).

(** [_project_exit]; [position] is the focused one. *)
Definition _project_exit (s : DeploymentSnapshot) (fill : Fill) (order : Order) (cooldown_bars : Z) (now : datetime)
    : DeploymentSnapshot :=
  let d := DeploymentSnapshot.deployment s in
  let cash := _cash_after_fill (Deployment.cash d) fill (Order.side order) in
  let flat := with_runtime d now
    (runtime_change (Some cash) (Some RuntimePhase.FLAT) None None (Some 0) (Some (Z.max cooldown_bars 0)) true) in
  match DeploymentSnapshot.position s with
  | None => projected s flat None fill (DeploymentSnapshot.positions s)
  | Some position =>
      let product_id := resolved_product_id (Position.product_id position) d in
      if (Fill.quantity fill <? Position.quantity position)%dec then
        let remaining := Position.set_holding position (Position.quantity position - Fill.quantity fill)%dec
                           (Position.entry_price position) now (Position.add_count position) in
        projected s (with_runtime d now (runtime_change (Some cash) None None None None None false))
          (Some remaining) fill (_replace_position (DeploymentSnapshot.positions s) remaining product_id)
      else
        let updated :=
          if (Position.quantity position <? Fill.quantity fill)%dec
          then with_runtime flat now
                 (runtime_change None None (Some (fault_status d)) (Some OVER_CLOSING_FILL_DETAIL) None None false)
          else flat in
        projected s updated None fill
          (List.filter (λ item, negb (of_product d product_id (Position.product_id item))) (DeploymentSnapshot.positions s))
  end.

Definition scaling_in (side : PositionSide) (order_side : OrderSide) : bool :=
  match side, order_side with LONG, BUY | SHORT, SELL => true | _, _ => false end.

Definition _project_inventory (s : DeploymentSnapshot) (fill : Fill) (order : Order) (cooldown_bars : Z)
    (timeframe : option string) (now : datetime) : result (DeploymentSnapshot * Fill) :=
  let stamped := if applied fill then fill else Fill.set_economics_applied_at fill now in
  match DeploymentSnapshot.position s with
  | None => p ← _project_entry s stamped order now timeframe; Ok (p, stamped)
  | Some position =>
      if scaling_in (Position.side position) (Order.side order)
      then p ← _project_scale_in s stamped order position now; Ok (p, stamped)
      else Ok (_project_exit s stamped order cooldown_bars now, stamped)
  end.

End FillLedger.

(** ** Explicit reductions of a futures book ([trading/futures_repair.py]) *)

Section Repair.
Context {dc : DecimalContext}.

(** The exact results, before any rounding. *)
Definition exact_sum (a b : decimal) : decimal :=
  let m := Z.min (exponent a) (exponent b) in
  Dec (coef a * 10 ^ (exponent a - m) + coef b * 10 ^ (exponent b - m)) m.
Definition exact_product (a b : decimal) : decimal := Dec (coef a * coef b) (exponent a + exponent b).

(** [context.traps[Inexact] = True]: an operation that would round raises. *)
Definition trapped (rounded exact : decimal) : result decimal :=
  if (rounded =? exact)%dec then Ok rounded else Raise Inexact.
Definition exact_add (a b : decimal) : result decimal := trapped (a + b)%dec (exact_sum a b).
Definition exact_sub (a b : decimal) : result decimal := trapped (a - b)%dec (exact_sum a (opp_exact b)).
Definition exact_mul (a b : decimal) : result decimal := trapped (a * b)%dec (exact_product a b).
Definition exact_neg (a : decimal) : result decimal := trapped (- a)%dec (opp_exact a).

(** The durable identity a managed fill must show. *)
Definition managed_identity (s : DeploymentSnapshot) (seen : list string) (fill : Fill) (order : Order)
    (intent : OrderIntent) : bool :=
  let d := DeploymentSnapshot.deployment s in
  applied fill
  && negb (bool_decide (Fill.venue_fill_id fill ∈ seen))
  && (d0 <? Fill.quantity fill)%dec
  && bool_decide (Order.client_order_id order = OrderIntent.client_order_id intent)
  && String.prefix (Deployment.id d ++ ":" ++ IntentPurpose.value (OrderIntent.purpose intent) ++ ":")
       (Order.client_order_id order)
  && bool_decide (Order.product_id order = Deployment.product_id d)
  && bool_decide (Fill.deployment_id fill = Deployment.id d).

Fixpoint managed_total (s : DeploymentSnapshot) (orders : dict string Order) (intents : dict string OrderIntent)
    (seen : list string) (total : decimal) (fills : list Fill) : option decimal :=
  match fills with
  | [] => Some total
  | fill :: fills =>
      match dict_get (Fill.order_id fill) orders with
      | None => None
      | Some order =>
          match dict_get (Order.intent_id order) intents with
          | None => None
          | Some intent =>
              if managed_identity s seen fill order intent then
                match exact_add total
                        (match Order.side order with BUY => Fill.quantity fill | SELL => opp_exact (Fill.quantity fill) end) with
                | Ok total => managed_total s orders intents (Fill.venue_fill_id fill :: seen) total fills
                | Raise _ => None
                end
              else None
          end
      end
  end.

Definition managed_signed_base (s : DeploymentSnapshot) : option decimal :=
  managed_total s (dict_of Order.id (DeploymentSnapshot.orders s)) (dict_of OrderIntent.id (DeploymentSnapshot.intents s))
    [] d0 (DeploymentSnapshot.fills s).

Definition is_signed (d : decimal) : bool := coef d <? 0.

(** [minus] is the subtraction of the active context. *)
Definition excess_quantity (minus : decimal → decimal → result decimal) (s : DeploymentSnapshot) (managed : decimal)
    : result decimal :=
  let size d := Dec (Z.abs (coef d)) (exponent d) in
  match DeploymentSnapshot.position s with
  | None => Ok (size managed)
  | Some position =>
      let book_is_signed := match Position.side position with
        | SHORT => negb (is_signed (Position.quantity position))
        | LONG => is_signed (Position.quantity position)
        end in
      if (managed =? d0)%dec then Ok d0
      else if negb (bool_decide (book_is_signed = is_signed managed)) then Ok (size managed)
      else rest ← minus (size managed) (size (Position.quantity position)); Ok (dmax d0 rest)
  end.

Definition project_excess_reduction (s : DeploymentSnapshot) (fill : Fill) (order : Order) (now : datetime)
    : result (option (DeploymentSnapshot * Fill)) :=
  let d := DeploymentSnapshot.deployment s in
  match List.find (λ i, bool_decide (OrderIntent.id i = Order.intent_id order)) (DeploymentSnapshot.intents s) with
  | None => Ok None
  | Some intent =>
      if negb (String.prefix EXCESS_REDUCTION_PREFIX (default "" (OrderIntent.idempotency_key intent))) then Ok None
      else
        _ ← guard_or (bool_decide (Deployment.mode d = DeploymentMode.LIVE)
                      && is_futures_product_id (Deployment.product_id d)
                      && bool_decide (OrderIntent.purpose intent = IntentPurpose.LIQUIDATION)
                      && bool_decide (Order.kind order = OrderKind.MARKETABLE))
              (ValueError "Invalid futures excess-reduction identity.");
        let others := List.filter (λ item, negb (bool_decide (Fill.id item = Fill.id fill))) (DeploymentSnapshot.fills s) in
        let prior := DeploymentSnapshot.set_fills s others in
        match managed_signed_base prior with
        | None => Raise (ValueError "Futures excess reduction lacks applied managed-fill ownership proof.")
        | Some managed =>
            _ ← guard_or (negb (managed =? d0)%dec
                          && negb (bool_decide (bool_decide (Order.side order = BUY) = (d0 <? managed)%dec)))
                  (ValueError "Futures excess reduction lacks applied managed-fill ownership proof.");
            excess ← excess_quantity exact_sub prior managed;
            _ ← guard_or ((d0 <? Fill.quantity fill)%dec && (Fill.quantity fill <=? excess)%dec)
                  (ValueError "Futures repair fill exceeds proven managed excess.");
            value ← exact_mul (Fill.quantity fill) (Fill.price fill);
            moved ← match Order.side order with SELL => Ok value | BUY => exact_neg value end;
            gross ← exact_add (Deployment.cash d) moved;
            cash ← exact_sub gross (Fill.fee fill);
            let stamped := Fill.set_economics_applied_at fill now in
            Ok (Some (DeploymentSnapshot.set_deployment (DeploymentSnapshot.set_fills s (others ++ [stamped]))
                        (Deployment.set_cash d cash now), stamped))
        end
  end.

(** [project_fill_economics]; the three readings of the clock in the order they are taken. *)
Definition project_fill_economics (s : DeploymentSnapshot) (fill : Fill) (order : Order) (cooldown_bars : Z)
    (timeframe : option string) (repair_now project_now confirm_now : datetime)
    : result (DeploymentSnapshot * Fill) :=
  let product_id := resolved_product_id (Order.product_id order) (DeploymentSnapshot.deployment s) in
  repaired ← project_excess_reduction s fill order repair_now;
  '(projected, stamped) ← match repaired with
    | Some repaired => Ok repaired
    | None => _project_inventory (overlay_snapshot s product_id) fill order cooldown_bars timeframe project_now
    end;
  let projected := DeploymentSnapshot.set_deployment projected
    (require_futures_flat_confirmation (DeploymentSnapshot.deployment projected) confirm_now
       (bool_decide (DeploymentSnapshot.position projected = None))) in
  match DeploymentSnapshot.instrument_runtimes s with
  | [] => Ok (DeploymentSnapshot.set_instrument_runtimes projected [], stamped)
  | _ =>
      let runtime := runtime_from_deployment (DeploymentSnapshot.deployment projected) product_id in
      let siblings := other_runtimes product_id (DeploymentSnapshot.instrument_runtimes s) in
      Ok (DeploymentSnapshot.set_instrument_runtimes projected (siblings ++ [runtime]), stamped)
  end.

Definition fill_projection_deployment (before projected : DeploymentSnapshot) : Deployment :=
  match DeploymentSnapshot.instrument_runtimes projected with
  | [] => DeploymentSnapshot.deployment projected
  | runtimes =>
      let b := DeploymentSnapshot.deployment before in
      let p := DeploymentSnapshot.deployment projected in
      Deployment.mk (Deployment.terms b) (Deployment.capital b)
        (Runtime.set_phase (Deployment.runtime b) (aggregate_phase runtimes))
        (Deployment.status p) (Deployment.cash p) (Deployment.updated_at p) (Deployment.mismatch_detail p)
        (Deployment.futures_derisk_pending p) (Deployment.futures_flat_confirmation_after p)
        (Deployment.revision b) (Deployment.worker_lease_holder b) (Deployment.worker_lease_expires_at b)
        (Deployment.lifecycle_command b) (Deployment.daily_loss_latched b) (Deployment.drawdown_latched b)
        (Deployment.last_signal_event_at b) (Deployment.last_signal_processed_at b)
  end.

End Repair.
