(* ===== verification/FillProjection.v ===== *)
(** * FillProjection: what one fill does to a book

    The theorems about [FillLedger]: on every branch, repairs included, cash moves by the
    notional and the fee of the fill and by nothing else; the focused book follows the fill or
    the deployment stops for an operator; no other product's row changes. *)

From S2P Require Import Prelude Decimals DecimalFacts Market Geometry Containers TradingModels FillLedger.

Open Scope Z_scope.

Section Projection.
Context {dc : DecimalContext}.

Lemma mul_comm a b : (a * b)%dec = (b * a)%dec.
Proof. unfold mul. by rewrite Z.mul_comm, Z.add_comm. Qed.

Lemma neg_product a b : (- (a * b))%dec = opp_exact (a * b)%dec.
Proof. unfold mul. apply neg_fix. Qed.

Lemma trapped_Ok r e d : trapped r e = Ok d → d = r.
Proof. unfold trapped. destruct (r =? e)%dec; [|done]. by intros [= ->]. Qed.

(** Stamping a fill keeps its economics. *)
Definition same_economics (f g : Fill) : Prop :=
  Fill.price f = Fill.price g ∧ Fill.quantity f = Fill.quantity g ∧ Fill.fee f = Fill.fee g ∧
  Fill.id f = Fill.id g ∧ Fill.deployment_id f = Fill.deployment_id g ∧
  Fill.venue_fill_id f = Fill.venue_fill_id g ∧ Fill.order_id f = Fill.order_id g.

Lemma cash_same_economics c f g side : same_economics f g → _cash_after_fill c f side = _cash_after_fill c g side.
Proof. intros (Hp & Hq & Hf & _). unfold _cash_after_fill. by rewrite Hp, Hq, Hf. Qed.

Definition stamp (f : Fill) (now : datetime) : Fill := if applied f then f else Fill.set_economics_applied_at f now.

Lemma stamp_economics f now : same_economics (stamp f now) f.
Proof. unfold stamp. by destruct (applied f). Qed.

Lemma stamp_applied f now : applied (stamp f now) = true.
Proof. unfold stamp. by destruct (applied f) eqn:E. Qed.

(** ** The projection of a focused book *)

Lemma project_inventory_stamp s f o cool tf now p st :
  _project_inventory s f o cool tf now = Ok (p, st) → st = stamp f now.
Proof.
  unfold _project_inventory. fold (stamp f now). destruct (DeploymentSnapshot.position s) as [pos|].
  - destruct (scaling_in _ _); [|by intros [= _ <-]]. by intros (q & _ & [= _ <-])%bind_Ok.
  - by intros (q & _ & [= _ <-])%bind_Ok.
Qed.

Lemma project_entry_cash s f o now tf p : _project_entry s f o now tf = Ok p →
  Deployment.cash (DeploymentSnapshot.deployment p) =
    _cash_after_fill (Deployment.cash (DeploymentSnapshot.deployment s)) f (Order.side o).
Proof.
  unfold _project_entry. intros H. case_ok H; invert_ok; done.
Qed.

Lemma project_scale_in_cash s f o pos now p : _project_scale_in s f o pos now = Ok p →
  Deployment.cash (DeploymentSnapshot.deployment p) =
    _cash_after_fill (Deployment.cash (DeploymentSnapshot.deployment s)) f (Order.side o).
Proof. unfold _project_scale_in. intros H. by invert_ok. Qed.

Lemma project_exit_cash s f o cool now :
  Deployment.cash (DeploymentSnapshot.deployment (_project_exit s f o cool now)) =
    _cash_after_fill (Deployment.cash (DeploymentSnapshot.deployment s)) f (Order.side o).
Proof.
  unfold _project_exit. destruct (DeploymentSnapshot.position s) as [pos|]; [|done].
  destruct (_ <? _)%dec; [done|]. by destruct (_ <? _)%dec.
Qed.

Lemma project_inventory_cash s f o cool tf now p st : _project_inventory s f o cool tf now = Ok (p, st) →
  Deployment.cash (DeploymentSnapshot.deployment p) =
    _cash_after_fill (Deployment.cash (DeploymentSnapshot.deployment s)) f (Order.side o).
Proof.
  unfold _project_inventory. fold (stamp f now).
  rewrite <- (cash_same_economics _ (stamp f now) f) by apply stamp_economics.
  destruct (DeploymentSnapshot.position s) as [pos|].
  - destruct (scaling_in _ _).
    + intros (q & Hq & [= <- _])%bind_Ok. by eapply project_scale_in_cash.
    + intros [= <- _]. apply project_exit_cash.
  - intros (q & Hq & [= <- _])%bind_Ok. by eapply project_entry_cash.
Qed.

(** ** A repair moves cash alone *)

Lemma repair_effect s f o now p st : project_excess_reduction s f o now = Ok (Some (p, st)) →
  st = Fill.set_economics_applied_at f now ∧
  Deployment.cash (DeploymentSnapshot.deployment p) =
    _cash_after_fill (Deployment.cash (DeploymentSnapshot.deployment s)) f (Order.side o) ∧
  DeploymentSnapshot.position p = DeploymentSnapshot.position s ∧
  DeploymentSnapshot.positions p = DeploymentSnapshot.positions s ∧
  Deployment.terms (DeploymentSnapshot.deployment p) = Deployment.terms (DeploymentSnapshot.deployment s) ∧
  Deployment.runtime (DeploymentSnapshot.deployment p) = Deployment.runtime (DeploymentSnapshot.deployment s).
Proof.
  unfold project_excess_reduction. destruct (List.find _ _) as [intent|]; [|done].
  destruct (negb _); [done|]. intros ([] & _ & H)%bind_Ok.
  destruct (managed_signed_base _) as [managed|]; [|done].
  apply bind_Ok in H as ([] & _ & H). apply bind_Ok in H as (excess & _ & H).
  apply bind_Ok in H as ([] & _ & H). apply bind_Ok in H as (value & Hv & H).
  apply bind_Ok in H as (moved & Hm & H). apply bind_Ok in H as (gross & Hg & H).
  apply bind_Ok in H as (cash & Hc & [= <- <-]). cbn.
  apply trapped_Ok in Hv, Hg, Hc. subst cash gross value. split; [done|]. split; [|done].
  unfold _cash_after_fill. rewrite (mul_comm (Fill.price f)). destruct (Order.side o).
  - apply trapped_Ok in Hm as ->. by rewrite neg_product.
  - by injection Hm as <-.
Qed.

(** ** The whole projection *)

(** The snapshot before the confirmation duty and the runtime rows are put in place. *)
Lemma project_fill_cases s f o cool tf t1 t2 t3 p st : project_fill_economics s f o cool tf t1 t2 t3 = Ok (p, st) →
  ∃ q, (project_excess_reduction s f o t1 = Ok (Some (q, st)) ∨
        project_excess_reduction s f o t1 = Ok None ∧
        _project_inventory (overlay_snapshot s (resolved_product_id (Order.product_id o) (DeploymentSnapshot.deployment s)))
          f o cool tf t2 = Ok (q, st)) ∧
    DeploymentSnapshot.position p = DeploymentSnapshot.position q ∧
    DeploymentSnapshot.deployment p = require_futures_flat_confirmation (DeploymentSnapshot.deployment q) t3
      (bool_decide (DeploymentSnapshot.position q = None)) ∧
    DeploymentSnapshot.instrument_runtimes p =
      match DeploymentSnapshot.instrument_runtimes s with
      | [] => []
      | rows => other_runtimes (resolved_product_id (Order.product_id o) (DeploymentSnapshot.deployment s)) rows ++
          [runtime_from_deployment (DeploymentSnapshot.deployment p)
             (resolved_product_id (Order.product_id o) (DeploymentSnapshot.deployment s))]
      end.
Proof.
  unfold project_fill_economics. intros (rep & Hrep & H)%bind_Ok. apply bind_Ok in H as ([q st'] & Hq & H).
  assert (st' = st ∧ DeploymentSnapshot.position p = DeploymentSnapshot.position q ∧
    DeploymentSnapshot.deployment p = require_futures_flat_confirmation (DeploymentSnapshot.deployment q) t3
      (bool_decide (DeploymentSnapshot.position q = None)) ∧
    DeploymentSnapshot.instrument_runtimes p =
      match DeploymentSnapshot.instrument_runtimes s with
      | [] => []
      | rows => other_runtimes (resolved_product_id (Order.product_id o) (DeploymentSnapshot.deployment s)) rows ++
          [runtime_from_deployment (DeploymentSnapshot.deployment p)
             (resolved_product_id (Order.product_id o) (DeploymentSnapshot.deployment s))]
      end) as (-> & H1 & H2 & H3).
  { destruct (DeploymentSnapshot.instrument_runtimes s); injection H as <- <-; done. }
  exists q. split; [|done]. destruct rep as [[q' st']|]; [left|right].
  - by injection Hq as -> ->.
  - done.
Qed.

Lemma fill_stamped s f o cool tf t1 t2 t3 p st : project_fill_economics s f o cool tf t1 t2 t3 = Ok (p, st) →
  same_economics st f ∧ applied st = true.
Proof.
  intros (q & [H|[_ H]] & _)%project_fill_cases.
  - by apply repair_effect in H as (-> & _).
  - apply project_inventory_stamp in H as ->. split; [apply stamp_economics|apply stamp_applied].
Qed.

Lemma fill_cash s f o cool tf t1 t2 t3 p st :
  project_fill_economics s f o cool tf t1 t2 t3 = Ok (p, st) →
  Deployment.cash (DeploymentSnapshot.deployment p) =
    _cash_after_fill (Deployment.cash (DeploymentSnapshot.deployment s)) f (Order.side o).
Proof.
  intros (q & Hq & _ & Hd & _)%project_fill_cases. rewrite Hd.
  destruct (flat_confirmation_fields (DeploymentSnapshot.deployment q) t3
    (bool_decide (DeploymentSnapshot.position q = None))) as (_ & _ & -> & _).
  destruct Hq as [H|[_ H]].
  - by apply repair_effect in H as (_ & -> & _).
  - by apply project_inventory_cash in H as ->.
Qed.

(** ** What no fill touches *)

Definition same_frame (d e : Deployment) : Prop :=
  Deployment.terms d = Deployment.terms e ∧ Deployment.capital d = Deployment.capital e ∧
  Deployment.revision d = Deployment.revision e ∧ Deployment.worker_lease_holder d = Deployment.worker_lease_holder e ∧
  Deployment.worker_lease_expires_at d = Deployment.worker_lease_expires_at e ∧
  Deployment.lifecycle_command d = Deployment.lifecycle_command e.

Lemma project_inventory_frame s f o cool tf now p st : _project_inventory s f o cool tf now = Ok (p, st) →
  same_frame (DeploymentSnapshot.deployment p) (DeploymentSnapshot.deployment s).
Proof.
  unfold _project_inventory. fold (stamp f now). destruct (DeploymentSnapshot.position s) as [pos|] eqn:Hs.
  - destruct (scaling_in _ _).
    + intros (q & Hq & [= <- _])%bind_Ok. unfold _project_scale_in in Hq. by invert_ok.
    + intros [= <- _]. unfold _project_exit. rewrite Hs.
      destruct (_ <? _)%dec; [done|]. by destruct (_ <? _)%dec.
  - intros (q & Hq & [= <- _])%bind_Ok. unfold _project_entry in Hq. case_ok Hq; by invert_ok.
Qed.

Lemma repair_frame s f o now p st : project_excess_reduction s f o now = Ok (Some (p, st)) →
  same_frame (DeploymentSnapshot.deployment p) (DeploymentSnapshot.deployment s).
Proof.
  unfold project_excess_reduction. intros H. case_ok H; invert_ok; try done.
  destruct (managed_signed_base _); invert_ok; done.
Qed.

Lemma fill_frame s f o cool tf t1 t2 t3 p st : project_fill_economics s f o cool tf t1 t2 t3 = Ok (p, st) →
  same_frame (DeploymentSnapshot.deployment p) (DeploymentSnapshot.deployment s) ∧
  same_frame (fill_projection_deployment s p) (DeploymentSnapshot.deployment s).
Proof.
  intros (q & Hq & _ & Hd & _)%project_fill_cases.
  assert (same_frame (DeploymentSnapshot.deployment q) (DeploymentSnapshot.deployment s)) as Hf.
  { destruct Hq as [H|[_ H]]; [by eapply repair_frame|by apply project_inventory_frame in H]. }
  assert (same_frame (DeploymentSnapshot.deployment p) (DeploymentSnapshot.deployment q)) as Hp.
  { rewrite Hd. unfold require_futures_flat_confirmation. by destruct (_ || _). }
  assert (same_frame (DeploymentSnapshot.deployment p) (DeploymentSnapshot.deployment s)) as H.
  { unfold same_frame in *. naive_solver congruence. }
  split; [done|]. unfold fill_projection_deployment. by destruct (DeploymentSnapshot.instrument_runtimes p).
Qed.

Lemma fill_parent_cash s p : Deployment.cash (fill_projection_deployment s p) = Deployment.cash (DeploymentSnapshot.deployment p).
Proof. unfold fill_projection_deployment. by destruct (DeploymentSnapshot.instrument_runtimes p). Qed.

(** ** The book follows the fill *)

Definition oriented (side : PositionSide) (order_side : OrderSide) (q : Q) : Q :=
  if scaling_in side order_side then q else (- q)%Q.

Definition opened_side (order_side : OrderSide) : PositionSide := match order_side with BUY => LONG | SELL => SHORT end.

(** The outcomes of one fill on the focused book [s], leaving [p]. *)
Inductive book_after (s : DeploymentSnapshot) (f : Fill) (o : Order) (p : DeploymentSnapshot) : Prop :=
  | book_opened pos :
      DeploymentSnapshot.position s = None → DeploymentSnapshot.position p = Some pos →
      Position.side pos = opened_side (Order.side o) →
      Position.quantity pos = Fill.quantity f → Position.entry_price pos = Fill.price f →
      Runtime.pending_stop_price (DeploymentSnapshot.deployment s) = Some (Position.stop_price pos) →
      Runtime.phase (DeploymentSnapshot.deployment p) = RuntimePhase.OPEN → book_after s f o p
  | book_unopened detail :
      DeploymentSnapshot.position s = None → DeploymentSnapshot.position p = None →
      Runtime.phase (DeploymentSnapshot.deployment p) = RuntimePhase.FLAT →
      Deployment.status (DeploymentSnapshot.deployment p) = fault_status (DeploymentSnapshot.deployment s) →
      Deployment.mismatch_detail (DeploymentSnapshot.deployment p) = Some detail → book_after s f o p
  | book_held old pos :
      DeploymentSnapshot.position s = Some old → DeploymentSnapshot.position p = Some pos →
      Position.side pos = Position.side old → Position.stop_price pos = Position.stop_price old →
      (0 < val (Position.quantity pos))%Q →
      rounds prec (val (Position.quantity old) + oriented (Position.side old) (Order.side o) (val (Fill.quantity f)))
        (Position.quantity pos) → book_after s f o p
  | book_closed old :
      DeploymentSnapshot.position s = Some old → DeploymentSnapshot.position p = None →
      scaling_in (Position.side old) (Order.side o) = false →
      (val (Position.quantity old) == val (Fill.quantity f))%Q →
      Runtime.phase (DeploymentSnapshot.deployment p) = RuntimePhase.FLAT →
      Deployment.status (DeploymentSnapshot.deployment p) = Deployment.status (DeploymentSnapshot.deployment s) →
      book_after s f o p
  | book_over_closed old :
      DeploymentSnapshot.position s = Some old → DeploymentSnapshot.position p = None →
      scaling_in (Position.side old) (Order.side o) = false →
      (val (Position.quantity old) < val (Fill.quantity f))%Q →
      Runtime.phase (DeploymentSnapshot.deployment p) = RuntimePhase.FLAT →
      Deployment.status (DeploymentSnapshot.deployment p) = fault_status (DeploymentSnapshot.deployment s) →
      Deployment.mismatch_detail (DeploymentSnapshot.deployment p) = Some OVER_CLOSING_FILL_DETAIL → book_after s f o p.

Lemma project_entry_book s f o now tf p : DeploymentSnapshot.position s = None →
  _project_entry s f o now tf = Ok p → book_after s f o p.
Proof.
  intros Hs. unfold _project_entry. destruct (Runtime.pending_stop_price _) as [stop|] eqn:Hstop.
  2: { intros [= <-]. by eapply book_unopened. }
  destruct (or_text _ _) as [bar|].
  2: { intros [= <-]. by eapply book_unopened. }
  intros (entered & _ & [= <-])%bind_Ok. by eapply book_opened.
Qed.

Lemma project_scale_in_book s f o pos now p : DeploymentSnapshot.position s = Some pos →
  scaling_in (Position.side pos) (Order.side o) = true →
  (0 < val (Position.quantity pos))%Q → (0 < val (Fill.quantity f))%Q →
  _project_scale_in s f o pos now = Ok p → book_after s f o p.
Proof.
  intros Hs Hin Hpos Hf. unfold _project_scale_in. intros (e & _ & [= <-])%bind_Ok.
  pose proof (add_rounds (Position.quantity pos) (Fill.quantity f)) as Hr.
  eapply (book_held _ _ _ _ pos); [done|done|done|done| |]; cbn.
  - eapply rounds_pos; [apply prec_pos|exact Hr|lra].
  - unfold oriented. by rewrite Hin.
Qed.

Lemma project_exit_book s f o pos cool now : DeploymentSnapshot.position s = Some pos →
  scaling_in (Position.side pos) (Order.side o) = false → book_after s f o (_project_exit s f o cool now).
Proof.
  intros Hs Hout. unfold _project_exit. rewrite Hs.
  destruct (Fill.quantity f <? Position.quantity pos)%dec eqn:Hpart.
  - apply dltb_lt in Hpart. pose proof (sub_rounds (Position.quantity pos) (Fill.quantity f)) as Hr.
    eapply (book_held _ _ _ _ pos); [done|done|done|done| |]; cbn.
    + eapply rounds_pos; [apply prec_pos|exact Hr|lra].
    + unfold oriented. rewrite Hout. exact Hr.
  - apply dltb_ge in Hpart. destruct (Position.quantity pos <? Fill.quantity f)%dec eqn:Hover.
    + apply dltb_lt in Hover. by eapply (book_over_closed _ _ _ _ pos).
    + apply dltb_ge in Hover. eapply (book_closed _ _ _ _ pos); [done|done|done| |done|done]. lra.
Qed.

Lemma book_after_economics s f g o p : same_economics f g → book_after s f o p → book_after s g o p.
Proof.
  intros (Hp & Hq & _) []; [eapply book_opened|eapply book_unopened|eapply book_held|eapply book_closed|eapply book_over_closed];
    rewrite <- ?Hp, <- ?Hq; done.
Qed.

Lemma project_inventory_book s f o cool tf now p st :
  (∀ old, DeploymentSnapshot.position s = Some old → 0 < val (Position.quantity old))%Q →
  (0 < val (Fill.quantity f))%Q → _project_inventory s f o cool tf now = Ok (p, st) → book_after s f o p.
Proof.
  intros Hold Hf. pose proof (stamp_economics f now) as He. unfold _project_inventory. fold (stamp f now).
  destruct (DeploymentSnapshot.position s) as [pos|] eqn:Hs.
  - specialize (Hold pos eq_refl). destruct (scaling_in _ _) eqn:Hin.
    + intros (q & Hq & [= <- _])%bind_Ok. apply (book_after_economics _ _ _ _ _ He).
      eapply project_scale_in_book; [done..| |exact Hq]. by destruct He as (_ & -> & _).
    + intros [= <- _]. by eapply (book_after_economics _ _ _ _ _ He), project_exit_book.
  - intros (q & Hq & [= <- _])%bind_Ok. apply (book_after_economics _ _ _ _ _ He). by eapply project_entry_book.
Qed.

(** C39: The book follows the fill. A fill that is not an explicit repair opens a position of
    its own side and quantity behind the stored stop, or changes the open quantity by its own,
    keeping side and stop, or closes the book exactly; otherwise (no stored stop or timeframe,
    or a fill larger than the position) the book is flat and stopped for an operator. A
    position never changes side. *)
Theorem inventory_follows_fill s f o cool tf t1 t2 t3 p st :
  let before := overlay_snapshot s (resolved_product_id (Order.product_id o) (DeploymentSnapshot.deployment s)) in
  (∀ old, DeploymentSnapshot.position before = Some old → 0 < val (Position.quantity old))%Q →
  (0 < val (Fill.quantity f))%Q → project_excess_reduction s f o t1 = Ok None →
  project_fill_economics s f o cool tf t1 t2 t3 = Ok (p, st) → book_after before f o p.
Proof.
  intros before Hold Hf Hrep (q & Hq & Hpos & Hd & _)%project_fill_cases.
  rewrite Hrep in Hq. destruct Hq as [[=]|[_ Hq]].
  apply (project_inventory_book before _ _ _ _ _ _ _ Hold Hf) in Hq.
  destruct (flat_confirmation_fields (DeploymentSnapshot.deployment q) t3
    (bool_decide (DeploymentSnapshot.position q = None))) as (_ & Hr & _ & Hs & _ & Hm).
  rewrite <- Hd in Hr, Hs, Hm.
  destruct Hq; [eapply book_opened|eapply book_unopened|eapply book_held|eapply book_closed|eapply book_over_closed];
    rewrite ?Hpos, ?Hr, ?Hs, ?Hm; done.
Qed.

End Projection.
