(* ===== verification/ExecutionStore.v ===== *)
(** * ExecutionStore: the execution records at rest ([trading/memory.py], [trading/lease_fence.py])

    [InMemoryExecutionStore]: the state it keeps, and its operations as functions of that
    state. No operation yields between reading and writing, so each is one atomic step; the
    locks it takes only delay it. An operation that checks first and writes last returns a
    [result]; [apply_fill_transaction] records evidence before it projects, so it returns the
    store it leaves together with the outcome.

    What the code reads from its surroundings is an argument: the clock, the fleet latch
    bound to the store ([gate]: is a mode inhibited, if a latch is bound) and the worker
    lease fence of the current task ([fence]). Twin links and the cursor text of paginated
    reads are not modelled. *)

From S2P Require Import Prelude Decimals Market Geometry Containers TradingModels FillLedger.

Open Scope Z_scope.

Definition REVISION_CONFLICT : error := ExecutionConflictError "Deployment revision conflict.".
Definition NOT_FOUND : error := ExecutionStoreError "Deployment was not found.".
Definition DUPLICATE_KEY : error := ExecutionConflictError "idempotency_key already used".

Definition Gate := option (DeploymentMode → bool).

(** [ENTRY_INHIBITED_PREFIX] and [fleet_control.admission.entry_inhibited_detail]. *)
Definition ENTRY_INHIBITED_PREFIX : string := "ENTRY_INHIBITED".
Definition entry_inhibited_detail (mode action : string) : string :=
  let noun := if decide (action = "start") then "starts" else "entries" in
  ENTRY_INHIBITED_PREFIX ++ ": New " ++ mode ++ " " ++ noun ++ " are refused until an explicit "
  ++ "fleet rearm. Disarm does not flatten, cancel, or pause residual positions.".

Definition raise_if_inhibited (gate : DeploymentMode → bool) (mode : DeploymentMode) (action : string) : result unit :=
  if gate mode then Raise (ExecutionConflictError (entry_inhibited_detail (mode_value mode) action)) else Ok tt.

(** ** Lease fence *)

Definition fenced_holder (fence : option (UUID * string)) (deployment_id : UUID) : option string :=
  match fence with
  | Some (fenced, holder) => if decide (fenced = deployment_id) then Some holder else None
  | None => None
  end.

Definition require_lease_holder (fence : option (UUID * string)) (deployment_id : UUID) (current_holder : option string)
    : result unit :=
  match fenced_holder fence deployment_id, current_holder with
  | Some expected, Some current => if decide (current = expected) then Ok tt else Raise LeaseTakenError
  | _, _ => Ok tt
  end.

(** ** The store *)

Record Store := mk_store {
  deployments : dict UUID Deployment;
  intents : dict UUID OrderIntent;
  orders : dict UUID Order;
  fills : dict UUID Fill;
  positions : dict (UUID * string) Position;
  instrument_runtimes : dict (UUID * string) InstrumentRuntime;
  funding : dict (UUID * string * datetime) FundingCashFlow;
  _fill_keys : gset (UUID * string);
  _applied_fill_keys : gset (UUID * string)
}.

Definition empty_store : Store := mk_store [] [] [] [] [] [] [] ∅ ∅.

Definition set_deployments (s : Store) d : Store :=
  mk_store d (intents s) (orders s) (fills s) (positions s) (instrument_runtimes s) (funding s) (_fill_keys s) (_applied_fill_keys s).
Definition set_intents (s : Store) i : Store :=
  mk_store (deployments s) i (orders s) (fills s) (positions s) (instrument_runtimes s) (funding s) (_fill_keys s) (_applied_fill_keys s).
Definition set_orders (s : Store) o : Store :=
  mk_store (deployments s) (intents s) o (fills s) (positions s) (instrument_runtimes s) (funding s) (_fill_keys s) (_applied_fill_keys s).
Definition set_fills (s : Store) f keys applied_keys : Store :=
  mk_store (deployments s) (intents s) (orders s) f (positions s) (instrument_runtimes s) (funding s) keys applied_keys.
Definition set_positions (s : Store) p : Store :=
  mk_store (deployments s) (intents s) (orders s) (fills s) p (instrument_runtimes s) (funding s) (_fill_keys s) (_applied_fill_keys s).
Definition set_runtimes (s : Store) r : Store :=
  mk_store (deployments s) (intents s) (orders s) (fills s) (positions s) r (funding s) (_fill_keys s) (_applied_fill_keys s).
Definition set_funding (s : Store) f : Store :=
  mk_store (deployments s) (intents s) (orders s) (fills s) (positions s) (instrument_runtimes s) f (_fill_keys s) (_applied_fill_keys s).

Definition _focused_position (positions : list Position) (primary_product_id : string) : option Position :=
  match positions with
  | [] => None
  | [position] => Some position
  | _ => List.find (λ p, bool_decide (Position.product_id p ∈ [""; primary_product_id])) positions
  end.

(** The rows of one deployment, in the order of the dictionary. *)
Definition rows_of {V} (deployment_id : UUID) (d : dict (UUID * string) V) : list V :=
  (List.filter (λ item : (UUID * string) * V, bool_decide (item.1.1 = deployment_id)) d).*2.

Definition flow_le (a b : FundingCashFlow) : bool :=
  if decide (FundingCashFlow.product_id a = FundingCashFlow.product_id b)
  then FundingCashFlow.funding_time a <=? FundingCashFlow.funding_time b
  else String.leb (FundingCashFlow.product_id a) (FundingCashFlow.product_id b).

Definition snapshot_of (s : Store) (deployment_id : UUID) (deployment : Deployment) : DeploymentSnapshot :=
  let positions := rows_of deployment_id (positions s) in
  {| DeploymentSnapshot.deployment := deployment;
     DeploymentSnapshot.position := _focused_position positions (Deployment.product_id deployment);
     DeploymentSnapshot.orders := List.filter (λ o, bool_decide (Order.deployment_id o = deployment_id)) (dict_values (orders s));
     DeploymentSnapshot.fills := List.filter (λ f, bool_decide (Fill.deployment_id f = deployment_id)) (dict_values (fills s));
     DeploymentSnapshot.intents :=
       List.filter (λ i, bool_decide (OrderIntent.deployment_id i = deployment_id)) (dict_values (intents s));
     DeploymentSnapshot.positions := positions;
     DeploymentSnapshot.instrument_runtimes := rows_of deployment_id (instrument_runtimes s);
     DeploymentSnapshot.accounting_complete := true;
     DeploymentSnapshot.funding :=
       sort_by flow_le
         (List.filter (λ f, bool_decide (FundingCashFlow.deployment_id f = deployment_id)) (dict_values (funding s))) |}.

Definition find_deployment (s : Store) (deployment_id : UUID) : result Deployment :=
  match dict_get deployment_id (deployments s) with Some d => Ok d | None => Raise NOT_FOUND end.

Definition get_deployment (s : Store) (deployment_id : UUID) : result DeploymentSnapshot :=
  deployment ← find_deployment s deployment_id; Ok (snapshot_of s deployment_id deployment).

Definition _WORKING_STATUSES : list OrderStatus := [OrderStatus.PENDING; OrderStatus.OPEN; OrderStatus.UNKNOWN].
Definition is_working (o : Order) : bool := bool_decide (Order.status o ∈ _WORKING_STATUSES).
Definition working_order_count (orders : list Order) : nat := length (List.filter is_working orders).

Definition get_deployment_summary (s : Store) (deployment_id : UUID) : result DeploymentSummarySnapshot :=
  snapshot ← get_deployment s deployment_id;
  Ok {| DeploymentSummarySnapshot.deployment := DeploymentSnapshot.deployment snapshot;
        DeploymentSummarySnapshot.position := DeploymentSnapshot.position snapshot;
        DeploymentSummarySnapshot.positions := DeploymentSnapshot.positions snapshot;
        DeploymentSummarySnapshot.instrument_runtimes := DeploymentSnapshot.instrument_runtimes snapshot;
        DeploymentSummarySnapshot.book_totals := {|
          DeploymentSummarySnapshot.open_books := length (DeploymentSnapshot.positions snapshot);
          DeploymentSummarySnapshot.working_orders := working_order_count (DeploymentSnapshot.orders snapshot);
          DeploymentSummarySnapshot.fill_count := length (DeploymentSnapshot.fills snapshot) |};
        DeploymentSummarySnapshot.open_orders := List.filter is_working (DeploymentSnapshot.orders snapshot) |}.

(** Newest-updated first: [reverse=True] keeps the order of equal keys. *)
Definition newest_updated (l : list Deployment) : list Deployment :=
  sort_by (λ a b, Deployment.updated_at b <=? Deployment.updated_at a) l.

Definition list_deployments (s : Store) (limit : option nat) (offset : nat) : list Deployment :=
  let rows := drop offset (newest_updated (dict_values (deployments s))) in
  match limit with Some limit => take limit rows | None => rows end.

Definition list_by_strategy (s : Store) (strategy_id : string) : list Deployment :=
  newest_updated (List.filter (λ d : Deployment, bool_decide (Deployment.strategy_id d = Some strategy_id)) (dict_values (deployments s))).

Definition list_open_orders (s : Store) (deployment_id : UUID) : list Order :=
  List.filter (λ o, bool_decide (Order.deployment_id o = deployment_id) && is_working o) (dict_values (orders s)).

Definition get_intent_by_idempotency_key (s : Store) (key : string) : option OrderIntent :=
  List.find (λ i, bool_decide (OrderIntent.idempotency_key i = Some key)) (dict_values (intents s)).

(** ** Writes *)

Definition create_deployment (s : Store) (gate : Gate) (d : Deployment) : result Store :=
  _ ← match gate with Some gate => raise_if_inhibited gate (Deployment.mode d) "start" | None => Ok tt end;
  Ok (set_deployments s (dict_set (Deployment.id d) d (deployments s))).

Definition require_revision (expected : option Z) (current : Deployment) : result unit :=
  match expected with
  | Some expected => guard_or (Deployment.revision current =? expected) REVISION_CONFLICT
  | None => Ok tt
  end.

Definition save_deployment (s : Store) (d : Deployment) (expected_revision : option Z)
    (instrument_runtime : option InstrumentRuntime) : result (Store * Deployment) :=
  _ ← guard_or (bool_decide (instrument_runtime = None) || negb (bool_decide (expected_revision = None)))
        (ExecutionStoreError "Atomic runtime saves require an expected revision.");
  current ← find_deployment s (Deployment.id d);
  _ ← require_revision expected_revision current;
  let saved := Deployment.set_revision d (Deployment.revision current + 1) in
  let s := set_deployments s (dict_set (Deployment.id d) saved (deployments s)) in
  match instrument_runtime with
  | Some runtime =>
      Ok (set_runtimes s (dict_set (Deployment.id d, InstrumentRuntime.product_id runtime) runtime (instrument_runtimes s)), saved)
  | None =>
      let own := (Deployment.id d, Deployment.product_id d) in
      let rows := rows_of (Deployment.id d) (instrument_runtimes s) in
      match dict_get own (instrument_runtimes s) with
      | Some _ =>
          if mirrors_primary_runtime saved rows
          then Ok (set_runtimes s (dict_set own (runtime_from_deployment saved (Deployment.product_id d)) (instrument_runtimes s)), saved)
          else Ok (s, saved)
      | None => Ok (s, saved)
      end
  end.

Definition save_breaker_pause (s : Store) (deployment_id : UUID) (expected_revision : Z) (detail : string)
    (daily_loss_latched : bool) (now : datetime) : result (Store * Deployment) :=
  current ← find_deployment s deployment_id;
  _ ← require_revision (Some expected_revision) current;
  let running := bool_decide (Deployment.status current = DeploymentStatus.RUNNING) in
  let saved := Deployment.set_revision
    (Deployment.set_breaker current
       (if running then DeploymentStatus.PAUSED else Deployment.status current)
       (if running then Some detail else Deployment.mismatch_detail current)
       (Deployment.daily_loss_latched current || daily_loss_latched) now)
    (Deployment.revision current + 1) in
  Ok (set_deployments s (dict_set deployment_id saved (deployments s)), saved).

(** [acquire_worker_lease]: [None] when another holder's lease has not expired. *)
Definition lease_available (current : Deployment) (holder : string) (now : datetime) : bool :=
  match Deployment.worker_lease_holder current, Deployment.worker_lease_expires_at current with
  | None, _ | _, None => true
  | Some held, Some expires_at => (expires_at <=? now) || bool_decide (held = holder)
  end.

Definition acquire_worker_lease (s : Store) (deployment_id : UUID) (holder : string) (now : datetime) (ttl : timedelta)
    : result (Store * option Deployment) :=
  current ← find_deployment s deployment_id;
  if negb (lease_available current holder now) then Ok (s, None)
  else
    let saved := Deployment.set_revision (Deployment.set_lease current holder (now + ttl)) (Deployment.revision current + 1) in
    Ok (set_deployments s (dict_set deployment_id saved (deployments s)), Some saved).

Definition _insert_leased_intent (s : Store) (fence : option (UUID * string)) (intent : OrderIntent) : result Store :=
  let current := dict_get (OrderIntent.deployment_id intent) (deployments s) in
  _ ← require_lease_holder fence (OrderIntent.deployment_id intent) (current ≫= Deployment.worker_lease_holder);
  Ok (set_intents s (dict_set (OrderIntent.id intent) intent (intents s))).

(** [save_intent] and [_insert_intent]: the inventory lock only delays a live spot entry. *)
Definition save_intent (s : Store) (gate : Gate) (fence : option (UUID * string)) (intent : OrderIntent) : result Store :=
  _ ← match OrderIntent.idempotency_key intent with
      | Some key => guard_or (bool_decide (get_intent_by_idempotency_key s key = None)) DUPLICATE_KEY
      | None => Ok tt
      end;
  _ ← match gate with
      | Some gate =>
          if decide (OrderIntent.purpose intent = IntentPurpose.ENTRY) then
            match dict_get (OrderIntent.deployment_id intent) (deployments s) with
            | Some deployment => raise_if_inhibited gate (Deployment.mode deployment) "entry"
            | None => Raise (ExecutionStoreError "Entry deployment was not found.")
            end
          else Ok tt
      | None => Ok tt
      end;
  _insert_leased_intent s fence intent.

Definition order_with_client_id (s : Store) (client_order_id : string) : option Order :=
  List.find (λ o, bool_decide (Order.client_order_id o = client_order_id)) (dict_values (orders s)).

Definition drop_order (existing : option Order) (d : dict UUID Order) : dict UUID Order :=
  match existing with Some o => dict_pop (Order.id o) d | None => d end.

Definition restore_order (s : Store) (order : Order) : Store :=
  let existing := order_with_client_id s (Order.client_order_id order) in
  set_orders s (dict_set (Order.id order) order (drop_order existing (orders s))).

Definition save_order (s : Store) (order : Order) : Store :=
  let existing := order_with_client_id s (Order.client_order_id order) in
  set_orders s (dict_set (Order.id order) (with_cancel_time order existing) (drop_order existing (orders s))).

Definition fill_key (f : Fill) : UUID * string := (Fill.deployment_id f, Fill.venue_fill_id f).

Definition recorded_fill (l : list Fill) (key : UUID * string) : option Fill :=
  List.find (λ item, bool_decide (fill_key item = key)) l.

Definition save_fill (s : Store) (fill : Fill) : Store * Fill :=
  let key := fill_key fill in
  if decide (key ∈ _fill_keys s)
  then (s, default fill (recorded_fill (dict_values (fills s)) key))
  else
    (set_fills s (dict_set (Fill.id fill) fill (fills s)) ({[key]} ∪ _fill_keys s)
       (if applied fill then {[key]} ∪ _applied_fill_keys s else _applied_fill_keys s), fill).

Definition save_position (s : Store) (position : option Position) (deployment_id : UUID) (product_id : option string) : Store :=
  match position, product_id with
  | None, None =>
      set_positions s (List.filter (λ item : (UUID * string) * Position, negb (bool_decide (item.1.1 = deployment_id))) (positions s))
  | _, _ =>
      let key_product := or_text product_id (Some (match position with Some p => Position.product_id p | None => "" end)) in
      match position with
      | None => set_positions s (dict_pop (deployment_id, default "" key_product) (positions s))
      | Some position =>
          let stamped := if decide (Position.product_id position = "") then Position.set_product_id position (default "" key_product)
                         else position in
          set_positions s (dict_set (deployment_id, Position.product_id stamped) stamped (positions s))
      end
  end.

Definition save_instrument_runtime (s : Store) (runtime : InstrumentRuntime) (deployment_id : UUID) : Store :=
  set_runtimes s (dict_set (deployment_id, InstrumentRuntime.product_id runtime) runtime (instrument_runtimes s)).

Section Transactions.
Context {dc : DecimalContext}.

Definition flow_key (f : FundingCashFlow) : UUID * string * datetime :=
  (FundingCashFlow.deployment_id f, FundingCashFlow.product_id f, FundingCashFlow.funding_time f).

Definition apply_funding_transaction (s : Store) (deployment_id : UUID) (flows : list FundingCashFlow)
    (expected_revision : option Z) : result (Store * (nat * DeploymentSnapshot)) :=
  current ← find_deployment s deployment_id;
  _ ← require_revision expected_revision current;
  let fresh := List.filter (λ f, bool_decide (dict_get (flow_key f) (funding s) = None)) flows in
  _ ← guard_or (forallb (λ f, bool_decide (FundingCashFlow.deployment_id f = deployment_id)) fresh)
        (ExecutionStoreError "Funding belongs to a different deployment.");
  let s :=
    match fresh with
    | [] => s
    | first :: rest =>
        let total := dsum (FundingCashFlow.amount <$> fresh) in
        let now := fold_left (λ m f, Z.max m (FundingCashFlow.applied_at f)) rest (FundingCashFlow.applied_at first) in
        let saved := Deployment.set_revision (Deployment.set_cash current (Deployment.cash current + total)%dec now)
                       (Deployment.revision current + 1) in
        set_deployments (set_funding s (fold_left (λ d f, dict_set (flow_key f) f d) fresh (funding s)))
          (dict_set deployment_id saved (deployments s))
    end in
  snapshot ← get_deployment s deployment_id;
  Ok (s, (length fresh, snapshot)).

(** The order row the transaction writes. *)
Definition filled_order (snapshot : DeploymentSnapshot) (fill stamped : Fill) (order : Order) : Order :=
  let total := (applied_fill_quantity snapshot (Order.id order) + Fill.quantity fill)%dec in
  Order.set_progress order
    (if (Order.quantity order <=? total)%dec then OrderStatus.FILLED else Order.status order)
    (dmax (Order.filled_quantity order) total)
    (default (Order.updated_at order) (Fill.economics_applied_at stamped)).

(** The writes after a successful projection. *)
Definition commit_fill (s : Store) (snapshot : DeploymentSnapshot) (deployment_id : UUID) (fill : Fill) (order : Order)
    (projected : DeploymentSnapshot) (stamped : Fill) : Store :=
  let s := set_fills s (dict_set (Fill.id stamped) stamped (fills s)) (_fill_keys s) ({[fill_key fill]} ∪ _applied_fill_keys s) in
  let s := save_order s (filled_order snapshot fill stamped order) in
  let parent := fill_projection_deployment snapshot projected in
  let saved := Deployment.set_revision parent (Deployment.revision (DeploymentSnapshot.deployment snapshot) + 1) in
  let s := set_deployments s (dict_set (Deployment.id saved) saved (deployments s)) in
  let s := set_runtimes s
    (fold_left (λ d r, dict_set (deployment_id, InstrumentRuntime.product_id r) r d)
       (DeploymentSnapshot.instrument_runtimes projected) (instrument_runtimes s)) in
  let product_id := resolved_product_id (Order.product_id order) (DeploymentSnapshot.deployment projected) in
  match DeploymentSnapshot.position projected with
  | Some position => set_positions s (dict_set (deployment_id, product_id) position (positions s))
  | None =>
      if decide (Runtime.phase (DeploymentSnapshot.deployment projected) = RuntimePhase.FLAT)
      then set_positions s (dict_pop (deployment_id, product_id) (positions s))
      else s
  end.

Definition record_evidence (s : Store) (fill : Fill) : Store :=
  if decide (fill_key fill ∈ _fill_keys s) then s
  else set_fills s (dict_set (Fill.id fill) fill (fills s)) ({[fill_key fill]} ∪ _fill_keys s) (_applied_fill_keys s).

(** [apply_fill_transaction]; the clock readings are those of the projection. *)
Definition apply_fill_transaction (s : Store) (deployment_id : UUID) (fill : Fill) (order : Order) (cooldown_bars : Z)
    (timeframe : option string) (t1 t2 t3 : datetime) : Store * result (bool * DeploymentSnapshot) :=
  match get_deployment s deployment_id with
  | Raise e => (s, Raise e)
  | Ok snapshot =>
      let existing := recorded_fill (DeploymentSnapshot.fills snapshot) (fill_key fill) in
      if match existing with Some item => applied item | None => false end then (s, Ok (false, snapshot))
      else
        let recorded := record_evidence s fill in
        match project_fill_economics snapshot (default fill existing) order cooldown_bars timeframe t1 t2 t3 with
        | Raise e => (recorded, Raise e)
        | Ok (projected, stamped) =>
            let s := commit_fill recorded snapshot deployment_id fill order projected stamped in
            (s, snapshot ← get_deployment s deployment_id; Ok (true, snapshot))
        end
  end.

End Transactions.
