(* ===== verification/StoreFacts.v ===== *)
(** * StoreFacts: a well-formed store, and a worked book

    What every write keeps, and the deployment, orders and fills the worked runs use. *)

From S2P Require Import Prelude Decimals Market Geometry Containers TradingModels FillLedger FillProjection.
From S2P Require Import ExecutionStore.

Open Scope Z_scope.

(** * What the execution store keeps true

    The well-formedness of a store, the step relation of its operations, and the guarantees
    its concurrent clients rely on: a fill's economics are applied exactly once whatever is
    redelivered or fails in between, a save that names a revision never overwrites a row its
    caller has not read, and a worker lease excludes every other holder until it expires. *)

Lemma find_deployment_Ok s id d : find_deployment s id = Ok d ↔ dict_get id (deployments s) = Some d.
Proof. unfold find_deployment. destruct (dict_get _ _); naive_solver. Qed.

(** ** Well-formed stores *)

Record store_wf (s : Store) : Prop := {
  wf_deployments : dict_wf (deployments s);
  wf_deployment_ids id d : dict_get id (deployments s) = Some d → Deployment.id d = id;
  wf_fills : dict_wf (fills s);
  wf_fill_ids id f : dict_get id (fills s) = Some f → Fill.id f = id;
  wf_fill_keys f : f ∈ dict_values (fills s) → fill_key f ∈ _fill_keys s;
  wf_keys_recorded key : key ∈ _fill_keys s → ∃ f, f ∈ dict_values (fills s) ∧ fill_key f = key;
  wf_one_fill f g : f ∈ dict_values (fills s) → g ∈ dict_values (fills s) → fill_key f = fill_key g → f = g
}.

Lemma empty_store_wf : store_wf empty_store.
Proof. split; cbn; try done; try apply dict_wf_nil; set_solver. Qed.

(** An identifier names one venue fill, among the stored fills and the new one. *)
Definition id_identifies (s : Store) (f : Fill) : Prop :=
  ∀ g, g ∈ dict_values (fills s) → Fill.id g = Fill.id f → fill_key g = fill_key f.

Lemma recorded_fill_spec l key : match recorded_fill l key with
  | Some f => f ∈ l ∧ fill_key f = key
  | None => ∀ f, f ∈ l → fill_key f ≠ key
  end.
Proof.
  unfold recorded_fill. destruct (List.find _ l) as [f|] eqn:H.
  - apply find_some in H as [Hin Hk]. by apply bool_decide_eq_true in Hk; apply list_elem_of_In in Hin.
  - intros f Hf. apply list_elem_of_In in Hf. pose proof (find_none _ _ H _ Hf) as Hn.
    by apply bool_decide_eq_false in Hn.
Qed.

Lemma elem_of_values_set {K V} `{EqDecision K} (k : K) (v w : V) (d : dict K V) : dict_wf d →
  w ∈ dict_values (dict_set k v d) ↔ w = v ∨ ∃ k', k' ≠ k ∧ dict_get k' d = Some w.
Proof.
  intros Hd. rewrite elem_of_dict_values by by apply dict_wf_set. split.
  - intros (k' & Hk'). destruct (decide (k' = k)) as [->|Hne].
    + rewrite dict_get_set in Hk'. injection Hk' as ->. by left.
    + rewrite dict_get_set_ne in Hk' by done. right. by exists k'.
  - intros [->|(k' & Hne & Hk')].
    + exists k. apply dict_get_set.
    + exists k'. by rewrite dict_get_set_ne.
Qed.

Lemma stored_at s f : store_wf s → f ∈ dict_values (fills s) → dict_get (Fill.id f) (fills s) = Some f.
Proof.
  intros Hs (k & Hk)%elem_of_dict_values; [|apply wf_fills, Hs]. by rewrite (wf_fill_ids s Hs k f Hk).
Qed.

(** Writing a fill under its own identifier, when that identifier is free or already holds the
    same venue fill, and the venue fill is not held elsewhere. *)
Lemma set_fill_wf s f keys applied_keys : store_wf s → id_identifies s f →
  (∀ g, g ∈ dict_values (fills s) → fill_key g = fill_key f → Fill.id g = Fill.id f) →
  keys = {[fill_key f]} ∪ _fill_keys s →
  store_wf (set_fills s (dict_set (Fill.id f) f (fills s)) keys applied_keys).
Proof.
  intros Hs Hid Huniq ->. pose proof (wf_fills s Hs) as Hwf.
  assert (∀ g, g ∈ dict_values (dict_set (Fill.id f) f (fills s)) ↔
    g = f ∨ g ∈ dict_values (fills s) ∧ Fill.id g ≠ Fill.id f) as Hin.
  { intros g. rewrite elem_of_values_set by done. split.
    - intros [->|(k & Hk & Hg)]; [by left|right]. pose proof (wf_fill_ids s Hs k g Hg) as E. subst k.
      split; [|done]. apply elem_of_dict_values; [done|]. by exists (Fill.id g).
    - intros [->|[Hg Hne]]; [by left|right]. exists (Fill.id g). split; [done|]. by apply stored_at. }
  split; cbn.
  - apply Hs.
  - apply Hs.
  - by apply dict_wf_set.
  - intros id g. destruct (decide (id = Fill.id f)) as [->|Hne].
    + rewrite dict_get_set. by intros [= ->].
    + rewrite dict_get_set_ne by done. apply Hs.
  - intros g [->|[Hg _]]%Hin; [set_solver|]. apply elem_of_union. right. by apply Hs.
  - intros key [->%elem_of_singleton|Hk]%elem_of_union.
    + exists f. split; [|done]. apply Hin. by left.
    + destruct (wf_keys_recorded s Hs key Hk) as (g & Hg & Hgk).
      destruct (decide (Fill.id g = Fill.id f)) as [E|E].
      * exists f. split; [apply Hin; by left|]. rewrite <- Hgk. symmetry. by apply Hid.
      * exists g. split; [apply Hin; by right|done].
  - intros g h [->|[Hg Hgi]]%Hin [->|[Hh Hhi]]%Hin Hk; [done| | |by eapply wf_one_fill].
    + exfalso. by apply Hhi, Huniq.
    + exfalso. by apply Hgi, Huniq.
Qed.

Lemma record_evidence_wf s f : store_wf s → id_identifies s f → store_wf (record_evidence s f).
Proof.
  intros Hs Hid. unfold record_evidence. case_decide as Hk; [done|].
  apply set_fill_wf; [done|done| |done].
  intros g Hg Hgk. exfalso. apply Hk. rewrite <- Hgk. by apply Hs.
Qed.

(** After the evidence is recorded, the store holds exactly one fill under the delivered key. *)
Lemma record_evidence_holds s f : store_wf s → id_identifies s f →
  default f (recorded_fill (dict_values (fills s)) (fill_key f)) ∈ dict_values (fills (record_evidence s f)).
Proof.
  intros Hs Hid. pose proof (recorded_fill_spec (dict_values (fills s)) (fill_key f)) as Hr. unfold record_evidence.
  case_decide as Hk.
  - destruct (recorded_fill _ _) as [g|]; [apply Hr|]. destruct (wf_keys_recorded s Hs _ Hk) as (g & Hg & Hgk).
    by destruct (Hr g Hg).
  - destruct (recorded_fill _ _) as [g|].
    + destruct Hr as [Hg Hgk]. exfalso. apply Hk. rewrite <- Hgk. by apply Hs.
    + cbn. apply elem_of_values_set; [apply Hs|by left].
Qed.

(** ** One delivery *)

(** The economics of a venue fill are applied in the store. *)
Definition applied_in (s : Store) (key : UUID * string) : Prop :=
  ∃ g, g ∈ dict_values (fills s) ∧ fill_key g = key ∧ applied g = true.

(** The record the transaction projects: the evidence already stored, else the delivered fill. *)
Definition evidence (s : Store) (f : Fill) : Fill := default f (recorded_fill (dict_values (fills s)) (fill_key f)).

Lemma evidence_key s f : fill_key (evidence s f) = fill_key f.
Proof.
  unfold evidence. pose proof (recorded_fill_spec (dict_values (fills s)) (fill_key f)).
  destruct (recorded_fill _ _); [by apply H|done].
Qed.

Lemma find_filter {A} (p q : A → bool) l : (∀ x, p x = true → q x = true) → List.find p (List.filter q l) = List.find p l.
Proof.
  intros H. induction l as [|x l IH]; cbn; [done|]. destruct (q x) eqn:Hq; cbn; [by rewrite IH|].
  destruct (p x) eqn:Hp; [|done]. by rewrite (H x Hp) in Hq.
Qed.

Lemma recorded_in_snapshot s d f : recorded_fill (DeploymentSnapshot.fills (snapshot_of s (Fill.deployment_id f) d)) (fill_key f) =
  recorded_fill (dict_values (fills s)) (fill_key f).
Proof.
  unfold recorded_fill. cbn. apply find_filter. intros g Hg. apply bool_decide_eq_true in Hg.
  apply bool_decide_eq_true. by injection Hg.
Qed.

Lemma applied_in_recorded s f : store_wf s →
  applied_in s (fill_key f) ↔ match recorded_fill (dict_values (fills s)) (fill_key f) with Some g => applied g = true | None => False end.
Proof.
  intros Hs. pose proof (recorded_fill_spec (dict_values (fills s)) (fill_key f)) as Hr.
  destruct (recorded_fill _ _) as [g|].
  - destruct Hr as [Hg Hk]. split; [|intros Ha; by exists g].
    intros (h & Hh & Hhk & Ha). by rewrite (wf_one_fill s Hs g h Hg Hh) by congruence.
  - split; [|done]. intros (h & Hh & Hhk & _). by apply (Hr h).
Qed.

(** Storing an unapplied fill under an unknown key changes no applied key. *)
Lemma record_evidence_applied s f key : store_wf s → id_identifies s f → applied f = false →
  applied_in (record_evidence s f) key ↔ applied_in s key.
Proof.
  intros Hs Hid Hf. unfold record_evidence. case_decide as Hk; [done|]. unfold applied_in. cbn.
  setoid_rewrite elem_of_values_set; [|apply Hs]. split.
  - intros (g & [->|(k & _ & Hg)] & Hgk & Ha); [by rewrite Hf in Ha|].
    exists g. split; [|done]. apply elem_of_dict_values; [apply Hs|by exists k].
  - intros (g & Hg & Hgk & Ha). exists g. split; [|done]. right. exists (Fill.id g).
    split; [|by apply stored_at]. intros E. apply Hk. rewrite <- (Hid g Hg E). by apply Hs.
Qed.

Lemma record_evidence_deployments s f : deployments (record_evidence s f) = deployments s.
Proof. unfold record_evidence. by case_decide. Qed.

Section Delivery.
Context {dc : DecimalContext}.

Lemma commit_fill_fills s snap dep f o p st :
  fills (commit_fill s snap dep f o p st) = dict_set (Fill.id st) st (fills s) ∧
  _fill_keys (commit_fill s snap dep f o p st) = _fill_keys s ∧
  deployments (commit_fill s snap dep f o p st) =
    dict_set (Deployment.id (fill_projection_deployment snap p))
      (Deployment.set_revision (fill_projection_deployment snap p) (Deployment.revision (DeploymentSnapshot.deployment snap) + 1))
      (deployments s).
Proof.
  unfold commit_fill. destruct (DeploymentSnapshot.position p); [done|]. by case_decide.
Qed.

(** Committing the stamped evidence of a recorded, unapplied venue fill. *)
Lemma commit_fill_wf s snap dep f o p st : store_wf s →
  (∃ g, g ∈ dict_values (fills s) ∧ Fill.id g = Fill.id st ∧ fill_key g = fill_key st) →
  store_wf (commit_fill s snap dep f o p st) ∧
  (applied st = true → ∀ key, applied_in (commit_fill s snap dep f o p st) key ↔ applied_in s key ∨ key = fill_key st).
Proof.
  intros Hs (g & Hg & Hgi & Hgk). destruct (commit_fill_fills s snap dep f o p st) as (Hf & Hk & Hd).
  assert (store_wf (set_fills s (dict_set (Fill.id st) st (fills s)) (_fill_keys s) (_applied_fill_keys s))) as Hw.
  { apply set_fill_wf; [done| | |].
    - intros h Hh E. rewrite <- Hgk. f_equal. pose proof (stored_at s h Hs Hh) as H1. pose proof (stored_at s g Hs Hg) as H2. congruence.
    - intros h Hh E. rewrite (wf_one_fill s Hs h g Hh Hg); congruence.
    - rewrite <- Hgk. pose proof (wf_fill_keys s Hs g Hg). set_solver. }
  split.
  - split; rewrite ?Hf, ?Hk, ?Hd; try apply Hw.
    + apply dict_wf_set, Hs.
    + intros id d. destruct (decide (id = Deployment.id (fill_projection_deployment snap p))) as [->|Hne].
      * rewrite dict_get_set. by intros [= <-].
      * rewrite dict_get_set_ne by done. apply Hs.
  - intros Ha key. unfold applied_in. rewrite Hf. setoid_rewrite elem_of_values_set; [|apply Hs]. split.
    + intros (h & [->|(k & _ & Hh)] & <- & Hha); [by right|left].
      exists h. split; [|done]. apply elem_of_dict_values; [apply Hs|by exists k].
    + intros [(h & Hh & Hhk & Hha)| ->]; [|exists st; by split; [left|]].
      destruct (decide (Fill.id h = Fill.id st)) as [E|E].
      * assert (h = g) as ->.
        { pose proof (stored_at s h Hs Hh) as H1. pose proof (stored_at s g Hs Hg) as H2. congruence. }
        exists st. split; [by left|]. split; [by rewrite <- Hgk|done].
      * exists h. split; [|done]. right. exists (Fill.id h). split; [done|]. by apply stored_at.
Qed.

(** What one call of [apply_fill_transaction] can do. *)
Definition delivery_outcome (s : Store) (f : Fill) (o : Order) (s' : Store) (r : result (bool * DeploymentSnapshot)) : Prop :=
  let key := fill_key f in
  match r with
  | Ok (true, snapshot) =>
      ¬ applied_in s key ∧ (∀ k, applied_in s' k ↔ applied_in s k ∨ k = key) ∧
      ∃ d d', find_deployment s (Fill.deployment_id f) = Ok d ∧ find_deployment s' (Fill.deployment_id f) = Ok d' ∧
        snapshot = snapshot_of s' (Fill.deployment_id f) d' ∧
        Deployment.cash d' = _cash_after_fill (Deployment.cash d) (evidence s f) (Order.side o) ∧
        Deployment.revision d' = Deployment.revision d + 1 ∧
        (∀ id, id ≠ Fill.deployment_id f → dict_get id (deployments s') = dict_get id (deployments s))
  | Ok (false, _) => s' = s ∧ applied_in s key
  | Raise _ => deployments s' = deployments s ∧ ∀ k, applied_in s' k ↔ applied_in s k
  end.

Lemma apply_fill_outcome s f o cool tf t1 t2 t3 : store_wf s → id_identifies s f → applied f = false →
  let '(s', r) := apply_fill_transaction s (Fill.deployment_id f) f o cool tf t1 t2 t3 in
  store_wf s' ∧ delivery_outcome s f o s' r.
Proof.
  intros Hs Hid Hf. unfold apply_fill_transaction, get_deployment.
  destruct (find_deployment s (Fill.deployment_id f)) as [d|e] eqn:Hd; cbn [mbind result_bind]; [|done].
  rewrite recorded_in_snapshot. pose proof (applied_in_recorded s f Hs) as Happ.
  pose proof (record_evidence_wf s f Hs Hid) as Hrw. pose proof (record_evidence_holds s f Hs Hid) as Hrh.
  pose proof (record_evidence_applied s f) as Hra. fold (evidence s f) in Hrh |- *.
  destruct (match recorded_fill _ _ with Some item => applied item | None => false end) eqn:Hrec.
  { split; [done|]. split; [done|]. apply Happ. by destruct (recorded_fill _ _). }
  assert (¬ applied_in s (fill_key f)) as Hnot.
  { rewrite Happ. destruct (recorded_fill _ _); [by rewrite Hrec|by intros []]. }
  destruct (project_fill_economics _ _ _ _ _ _ _ _) as [[p st]|e] eqn:Hp.
  2: { split; [done|]. split; [apply record_evidence_deployments|]. intros k. by apply Hra. }
  destruct (fill_stamped _ _ _ _ _ _ _ _ _ _ Hp) as [(_ & _ & _ & Hi & Hdi & Hv & _) Hst].
  assert (fill_key st = fill_key f) as Hkey.
  { rewrite <- (evidence_key s f). unfold fill_key. by rewrite Hdi, Hv. }
  destruct (commit_fill_wf (record_evidence s f) (snapshot_of s (Fill.deployment_id f) d) (Fill.deployment_id f) f o p st Hrw) as [Hcw Hca].
  { exists (evidence s f). split; [done|]. split; [done|]. by rewrite evidence_key. }
  specialize (Hca Hst). destruct (commit_fill_fills (record_evidence s f) (snapshot_of s (Fill.deployment_id f) d) (Fill.deployment_id f) f o p st)
    as (_ & _ & Hcd).
  destruct (fill_frame _ _ _ _ _ _ _ _ _ _ Hp) as [_ (Hterms & _ & Hrev & _)].
  assert (Deployment.id (fill_projection_deployment (snapshot_of s (Fill.deployment_id f) d) p) = Fill.deployment_id f) as Hdid.
  { rewrite Hterms. cbn. apply (wf_deployment_ids s Hs). by apply find_deployment_Ok. }
  rewrite Hdid, record_evidence_deployments in Hcd.
  set (s' := commit_fill _ _ _ _ _ _ _) in *.
  assert (find_deployment s' (Fill.deployment_id f) = Ok (Deployment.set_revision
    (fill_projection_deployment (snapshot_of s (Fill.deployment_id f) d) p) (Deployment.revision d + 1))) as Hfind.
  { unfold find_deployment. by rewrite Hcd, dict_get_set. }
  rewrite Hfind. cbn [mbind result_bind]. split; [done|]. split; [done|]. split.
  - intros k. rewrite Hca, Hra by done. by rewrite Hkey.
  - do 2 eexists. split; [done|]. split; [done|]. split; [done|]. split; [|split; [done|]].
    + cbn. rewrite fill_parent_cash. by rewrite (fill_cash _ _ _ _ _ _ _ _ _ _ Hp).
    + intros id Hne. by rewrite Hcd, dict_get_set_ne.
Qed.

End Delivery.

(** * A worked book

    One paper deployment with an entry order of two coins and its covering sell, and the
    reports its venue makes of them. The witnesses of the trading files evaluate on it. *)

Definition demo_hour (k : Z) : datetime := 1700000000 * second + k * hour.

Definition demo_terms : Deployment.Terms := {|
  Deployment.id := "d1"; Deployment.strategy_fingerprint := Some "sha256:a"; Deployment.strategy_id := Some "s1";
  Deployment.product_id := "BTC-USD"; Deployment.mode := DeploymentMode.PAPER; Deployment.created_at := demo_hour 0;
  Deployment.paper_starting_cash := Some (of_Z 1000); Deployment.paper_maker_fee_rate := None;
  Deployment.paper_taker_fee_rate := None; Deployment.kind := DeploymentKind.STRATEGY; Deployment.timeframe := None;
  Deployment.strategy_name := None; Deployment.portfolio_id := None |}.

Definition demo_capital : Deployment.Capital := {|
  Deployment.allocated_capital := None; Deployment.venue_available_quote := None; Deployment.reserved_buying_power := None;
  Deployment.inventory_cost := None; Deployment.performance_equity := None; Deployment.performance_capital_quote := None;
  Deployment.performance_maximum_drawdown_fraction := None; Deployment.initial_equity := Some (of_Z 1000);
  Deployment.baseline_equity := None; Deployment.utc_day_open_equity := None; Deployment.utc_day_open_at := None;
  Deployment.risk_day_open_evidence := None; Deployment.high_water_mark_equity := None |}.

Definition demo_deployment : Deployment := {|
  Deployment.terms := demo_terms; Deployment.capital := demo_capital;
  Deployment.runtime := Runtime.mk RuntimePhase.PENDING_ENTRY None None 1 0 0 (Some (of_Z 90)) (Some (of_Z 120));
  Deployment.status := DeploymentStatus.RUNNING; Deployment.cash := of_Z 1000; Deployment.updated_at := demo_hour 0;
  Deployment.mismatch_detail := None; Deployment.futures_derisk_pending := false;
  Deployment.futures_flat_confirmation_after := None; Deployment.revision := 4; Deployment.worker_lease_holder := None;
  Deployment.worker_lease_expires_at := None; Deployment.lifecycle_command := LifecycleCommand.NONE;
  Deployment.daily_loss_latched := false; Deployment.drawdown_latched := false;
  Deployment.last_signal_event_at := None; Deployment.last_signal_processed_at := None |}.

Definition demo_order (id : UUID) (side : OrderSide) (quantity : decimal) : Order := {|
  Order.id := id; Order.deployment_id := "d1"; Order.intent_id := "i" +:+ id; Order.client_order_id := "c" +:+ id;
  Order.side := side; Order.kind := OrderKind.POST_ONLY_LIMIT; Order.quantity := quantity; Order.status := OrderStatus.OPEN;
  Order.created_at := demo_hour 0; Order.updated_at := demo_hour 0; Order.price := Some (of_Z 100);
  Order.filled_quantity := d0; Order.venue_order_id := None; Order.reject_reason := None; Order.stop_trigger_price := None;
  Order.take_profit_price := None; Order.product_id := "BTC-USD"; Order.parent_order_id := None;
  Order.attached_child_venue_order_id := None; Order.pyramid_add := false; Order.venue_observed_at := None;
  Order.canceled_at := None; Order.settled_at := None |}.

Definition demo_fill (id order venue : string) (price quantity fee : decimal) : Fill := {|
  Fill.id := id; Fill.deployment_id := "d1"; Fill.order_id := order; Fill.venue_fill_id := venue; Fill.price := price;
  Fill.quantity := quantity; Fill.fee := fee; Fill.filled_at := demo_hour 1; Fill.venue_order_id := None;
  Fill.economics_applied_at := None |}.

Definition demo_store : Store := set_deployments empty_store [("d1", demo_deployment)].

Lemma demo_store_wf : store_wf demo_store.
Proof.
  destruct empty_store_wf. split; try done; cbn.
  - unfold dict_wf. cbn. apply NoDup_singleton.
  - intros id d. case_decide; [|done]. by intros [= <-].
Qed.

Definition entry_order : Order := demo_order "o1" BUY (of_Z 2).
Definition exit_order : Order := demo_order "o2" SELL (of_Z 2).
Definition first_buy : Fill := demo_fill "f1" "o1" "v1" (of_Z 100) (of_Z 1) (Dec 1 (-1)).
Definition second_buy : Fill := demo_fill "f2" "o1" "v2" (of_Z 102) (of_Z 1) (Dec 1 (-1)).
Definition closing_sell : Fill := demo_fill "f3" "o2" "v3" (of_Z 110) (of_Z 2) (Dec 2 (-1)).

(** ** One fill of a fresh book *)

Lemma inventory_follows_fill_witness : ∃ p st,
  project_fill_economics (dc := default_context) (snapshot_of demo_store "d1" demo_deployment) first_buy entry_order 3
    (Some "1h") (demo_hour 2) (demo_hour 2) (demo_hour 2) = Ok (p, st) ∧
  book_after (dc := default_context) (overlay_snapshot (snapshot_of demo_store "d1" demo_deployment) "BTC-USD") first_buy entry_order p.
Proof.
  destruct (project_fill_economics (dc := default_context) (snapshot_of demo_store "d1" demo_deployment) first_buy entry_order 3
    (Some "1h") (demo_hour 2) (demo_hour 2) (demo_hour 2)) as [[p st]|e] eqn:E.
  2: { exfalso. revert E. vm_compute. discriminate. }
  exists p, st. split; [reflexivity|].
  apply (inventory_follows_fill (dc := default_context) (snapshot_of demo_store "d1" demo_deployment) first_buy entry_order 3
    (Some "1h") (demo_hour 2) (demo_hour 2) (demo_hour 2) p st); [intros old; discriminate|reflexivity|reflexivity|exact E].
Defined.
