(* ===== verification/StoreSteps.v ===== *)
(** * StoreSteps: deliveries, concurrent clients and funding

    Fills apply exactly once whatever is delivered; clients of the store as a step relation,
    with revisions and leases; the hours of funding under the row lock of PostgreSQL. *)

From stdpp Require Import relations.
From S2P Require Import Prelude Decimals DecimalFacts Market Geometry Containers TradingModels FillLedger.
From S2P Require Import FillProjection ExecutionStore StoreFacts.

Open Scope Z_scope.

(** * A fill's economics are applied exactly once

    The venue reports fills at least once: a poll, a websocket event and a replay may deliver
    the same execution, and a delivery can fail after the evidence was recorded. Whatever the
    sequence, the deployment's cash is the fold of [_cash_after_fill] over the executions that
    settled, and no execution settles twice. *)

Record Delivery := {
  delivered : Fill;
  for_order : Order;
  cooldown : Z;
  bar_timeframe : option string;
  clocks : datetime * datetime * datetime
}.

(** A fresh report: not yet applied, for this deployment, under an identifier of its own. *)
Definition reports (s : Store) (dep : UUID) (ds : list Delivery) : Prop :=
  (∀ d, d ∈ ds → Fill.deployment_id (delivered d) = dep ∧ applied (delivered d) = false) ∧
  (∀ f g, f ∈ dict_values (fills s) ++ (delivered <$> ds) → g ∈ dict_values (fills s) ++ (delivered <$> ds) →
     Fill.id f = Fill.id g → fill_key f = fill_key g).

Section Deliveries.
Context {dc : DecimalContext}.

Definition apply_delivery (s : Store) (dep : UUID) (d : Delivery) : Store * result (bool * DeploymentSnapshot) :=
  let '(t1, t2, t3) := clocks d in
  apply_fill_transaction s dep (delivered d) (for_order d) (cooldown d) (bar_timeframe d) t1 t2 t3.

(** Deliver in order; the executions that settled, with their sides, and the reports whose
    delivery raised. *)
Fixpoint deliver (s : Store) (dep : UUID) (ds : list Delivery) : Store * list (Fill * OrderSide) * list Fill :=
  match ds with
  | [] => (s, [], [])
  | d :: ds =>
      let '(s', r) := apply_delivery s dep d in
      let '(s'', settled, failed) := deliver s' dep ds in
      match r with
      | Ok (true, _) => (s'', (evidence s (delivered d), Order.side (for_order d)) :: settled, failed)
      | Ok (false, _) => (s'', settled, failed)
      | Raise _ => (s'', settled, delivered d :: failed)
      end
  end.

Definition settle (cash : decimal) (executions : list (Fill * OrderSide)) : decimal :=
  fold_left (λ c '(f, side), _cash_after_fill c f side) executions cash.

(** The stored fills after a delivery are the old ones, the delivered one, or its stamp. *)
Lemma apply_delivery_fills s dep d g : store_wf s → reports s dep [d] →
  g ∈ dict_values (fills (apply_delivery s dep d).1) →
  ∃ h, h ∈ dict_values (fills s) ++ [delivered d] ∧ Fill.id h = Fill.id g ∧ fill_key h = fill_key g.
Proof.
  intros Hs [Hd Hids]. destruct (Hd d ltac:(left)) as [Hdep Hna].
  assert (∀ h, h ∈ dict_values (fills s) → ∃ h', h' ∈ dict_values (fills s) ++ [delivered d] ∧ Fill.id h' = Fill.id h ∧ fill_key h' = fill_key h) as Hold.
  { intros h Hh. exists h. split; [|done]. apply elem_of_app. by left. }
  assert (∀ f', f' ∈ dict_values (fills (record_evidence s (delivered d))) →
    ∃ h', h' ∈ dict_values (fills s) ++ [delivered d] ∧ Fill.id h' = Fill.id f' ∧ fill_key h' = fill_key f') as Hrec.
  { intros f'. unfold record_evidence. case_decide; [apply Hold|]. cbn.
    intros [->|(k & _ & Hk)]%elem_of_values_set; [| |apply Hs].
    - exists (delivered d). split; [|done]. apply elem_of_app. right. left.
    - apply Hold. apply elem_of_dict_values; [apply Hs|by exists k]. }
  unfold apply_delivery. destruct (clocks d) as [[t1 t2] t3]. unfold apply_fill_transaction.
  destruct (get_deployment s dep) as [snap|e] eqn:Hsnap; cbn [fst]; [|apply Hold].
  destruct (match recorded_fill _ _ with Some item => applied item | None => false end); cbn [fst]; [apply Hold|].
  destruct (project_fill_economics _ _ _ _ _ _ _ _) as [[p st]|e] eqn:Hp; cbn [fst]; [|apply Hrec].
  destruct (commit_fill_fills (record_evidence s (delivered d)) snap dep (delivered d) (for_order d) p st) as (-> & _ & _).
  assert (id_identifies s (delivered d)) as Hid.
  { intros h Hh E. apply Hids; [apply elem_of_app; by left|apply elem_of_app; right; left|done]. }
  intros [->|(k & _ & Hk)]%elem_of_values_set; [| |by apply record_evidence_wf].
  - destruct (fill_stamped _ _ _ _ _ _ _ _ _ _ Hp) as [(_ & _ & _ & Hi & Hdi & Hv & _) _].
    unfold get_deployment in Hsnap. apply bind_Ok in Hsnap as (dd & _ & [= <-]).
    rewrite <- Hdep, recorded_in_snapshot in Hi, Hdi, Hv. fold (evidence s (delivered d)) in Hi, Hdi, Hv.
    destruct (Hrec (evidence s (delivered d)) (record_evidence_holds s _ Hs Hid)) as (h & Hh & Hhi & Hhk).
    exists h. split; [done|]. split; [by rewrite Hi|]. rewrite Hhk. unfold fill_key. by rewrite Hdi, Hv.
  - apply Hrec. apply elem_of_dict_values; [by apply record_evidence_wf|by exists k].
Qed.

Lemma reports_step s dep d ds : store_wf s → reports s dep (d :: ds) → reports (apply_delivery s dep d).1 dep ds.
Proof.
  intros Hs [Hd Hids].
  assert (reports s dep [d]) as H1.
  { split; [intros e ->%list_elem_of_singleton; apply Hd; left|]. intros f g Hf Hg. apply Hids; set_solver. }
  assert (∀ f, f ∈ dict_values (fills (apply_delivery s dep d).1) ++ (delivered <$> ds) →
    ∃ h, h ∈ dict_values (fills s) ++ (delivered <$> d :: ds) ∧ Fill.id h = Fill.id f ∧ fill_key h = fill_key f) as Hold.
  { intros f [Hf|Hf]%elem_of_app.
    - destruct (apply_delivery_fills s dep d f Hs H1 Hf) as (h & Hh & ?). exists h. split; [set_solver|done].
    - exists f. split; [set_solver|done]. }
  split; [intros e He; apply Hd; by right|]. intros f g Hf Hg E.
  destruct (Hold f Hf) as (f' & Hf' & Hfi & <-), (Hold g Hg) as (g' & Hg' & Hgi & <-).
  apply Hids; [done..|congruence].
Qed.

Lemma deliver_spec s dep ds d0 : store_wf s → reports s dep ds → find_deployment s dep = Ok d0 →
  let '(s', settled, failed) := deliver s dep ds in
  store_wf s' ∧ (∀ d, d ∈ ds → applied_in s' (fill_key (delivered d)) ∨ delivered d ∈ failed) ∧
  (∃ d', find_deployment s' dep = Ok d' ∧ Deployment.cash d' = settle (Deployment.cash d0) settled ∧
     Deployment.revision d' = Deployment.revision d0 + Z.of_nat (length settled)) ∧
  (∀ key, applied_in s' key ↔ applied_in s key ∨ key ∈ fill_key <$> settled.*1) ∧
  NoDup (fill_key <$> settled.*1) ∧ (∀ key, key ∈ fill_key <$> settled.*1 → ¬ applied_in s key).
Proof.
  revert s d0. induction ds as [|d ds IH]; intros s d0 Hs Hr Hd0; cbn [deliver].
  - split; [done|]. split; [set_solver|]. split; [exists d0; split; [done|]; split; [done|cbn; lia]|].
    split; [set_solver|]. split; [constructor|set_solver].
  - pose proof (reports_step s dep d ds Hs Hr) as Hr'. destruct Hr as [Hrd Hids].
    destruct (Hrd d ltac:(left)) as [Hdep Hna].
    assert (id_identifies s (delivered d)) as Hid by (intros h Hh E; apply Hids; set_solver).
    unfold apply_delivery in *. destruct (clocks d) as [[t1 t2] t3].
    pose proof (apply_fill_outcome s (delivered d) (for_order d) (cooldown d) (bar_timeframe d) t1 t2 t3 Hs Hid Hna) as Ho.
    rewrite Hdep in Ho. destruct (apply_fill_transaction _ _ _ _ _ _ _ _ _) as [s1 r]. destruct Ho as [Hs1 Ho].
    cbn [fst] in Hr'. unfold delivery_outcome in Ho. rewrite Hdep in Ho.
    destruct r as [[[] snap]|e].
    + destruct Ho as (Hnot & Happ & d1 & d1' & Hd1 & Hd1' & _ & Hc & Hrev & _).
      rewrite Hd0 in Hd1. injection Hd1 as <-. specialize (IH s1 d1' Hs1 Hr' Hd1').
      destruct (deliver s1 dep ds) as [[s2 settled] failed].
      destruct IH as (Hs2 & Hall & (d' & Hd' & Hcash & Hrev') & Ha2 & Hnd & Hfresh).
      split; [done|]. split.
      { intros e [->|He]%elem_of_cons; [left; apply Ha2; left; apply Happ; by right|by apply Hall]. }
      cbn [fmap list_fmap length settle fold_left fst]. rewrite evidence_key.
      split; [|split; [|split]].
      * exists d'. split; [done|]. split; [by rewrite Hcash, Hc|lia].
      * intros key. rewrite Ha2, Happ, elem_of_cons. naive_solver.
      * apply NoDup_cons. split; [|done]. intros Hin. apply (Hfresh _ Hin), Happ. by right.
      * intros key [->|Hin]%elem_of_cons; [done|]. intros Ha. apply (Hfresh _ Hin), Happ. by left.
    + destruct Ho as [-> Happ]. specialize (IH s d0 Hs Hr' Hd0). destruct (deliver s dep ds) as [[s2 settled] failed].
      destruct IH as (Hs2 & Hall & Hc & Ha2 & Hrest). split; [done|]. split; [|done].
      intros e [->|He]%elem_of_cons; [left; apply Ha2; by left|by apply Hall].
    + destruct Ho as [Hdeps Happ]. specialize (IH s1 d0 Hs1 Hr'). unfold find_deployment in *. rewrite Hdeps in IH.
      specialize (IH Hd0). destruct (deliver s1 dep ds) as [[s2 settled] failed].
      destruct IH as (Hs2 & Hall & Hc & Ha2 & Hnd & Hfresh). split; [done|].
      split; [intros x [->|Hx]%elem_of_cons; [right; left|destruct (Hall x Hx); [by left|right; by right]]|]. split; [done|].
      split; [intros key; by rewrite Ha2, Happ|]. split; [done|]. intros key Hin. rewrite <- Happ. by apply Hfresh.
Qed.

(** C2: Exactly once. Deliver fill reports in any order, with duplicates and with deliveries
    that fail half-way: the deployment's cash ends at the fold of the cash rule over the
    executions that settled; each venue fill settles at most once, one already applied never
    again, and every report whose delivery did not raise is applied in the end. The row's
    revision counts the settlements. *)
Theorem fills_apply_exactly_once s dep ds d0 : store_wf s → reports s dep ds → find_deployment s dep = Ok d0 →
  let '(s', settled, failed) := deliver s dep ds in
  (∃ d', find_deployment s' dep = Ok d' ∧ Deployment.cash d' = settle (Deployment.cash d0) settled ∧
     Deployment.revision d' = Deployment.revision d0 + Z.of_nat (length settled)) ∧
  NoDup (fill_key <$> settled.*1) ∧ (∀ key, key ∈ fill_key <$> settled.*1 → ¬ applied_in s key) ∧
  (∀ key, applied_in s' key ↔ applied_in s key ∨ key ∈ fill_key <$> settled.*1) ∧
  (∀ d, d ∈ ds → applied_in s' (fill_key (delivered d)) ∨ delivered d ∈ failed).
Proof.
  intros Hs Hr Hd. pose proof (deliver_spec s dep ds d0 Hs Hr Hd) as H.
  destruct (deliver s dep ds) as [[s' settled] failed]. by destruct H as (_ & ? & ? & ? & ? & ?).
Qed.

End Deliveries.

(** ** A worked sequence of reports

    The first report fails (it names no supported timeframe), is retried, and each execution
    is reported twice. *)

Definition demo_report (f : Fill) (o : Order) (timeframe : string) : Delivery :=
  {| delivered := f; for_order := o; cooldown := 3; bar_timeframe := Some timeframe;
     clocks := (demo_hour 2, demo_hour 2, demo_hour 2) |}.

Definition demo_reports : list Delivery := [
  demo_report first_buy entry_order "7m";
  demo_report (demo_fill "f4" "o1" "v1" (of_Z 100) (of_Z 1) (Dec 1 (-1))) entry_order "1h";
  demo_report second_buy entry_order "1h";
  demo_report (demo_fill "f5" "o1" "v1" (of_Z 100) (of_Z 1) (Dec 1 (-1))) entry_order "1h";
  demo_report closing_sell exit_order "1h";
  demo_report (demo_fill "f6" "o1" "v2" (of_Z 102) (of_Z 1) (Dec 1 (-1))) entry_order "1h";
  demo_report (demo_fill "f7" "o2" "v3" (of_Z 110) (of_Z 2) (Dec 2 (-1))) exit_order "1h"].

Lemma distinct_ids_report s dep ds : fills s = [] →
  forallb (λ d, bool_decide (Fill.deployment_id (delivered d) = dep) && negb (applied (delivered d))) ds = true →
  NoDup (Fill.id <$> (delivered <$> ds)) → reports s dep ds.
Proof.
  intros Hs Hall Hnd. split.
  - intros d Hd. rewrite forallb_forall in Hall. apply list_elem_of_In in Hd. specialize (Hall d Hd).
    apply andb_true_iff in Hall as [H1 H2]. apply bool_decide_eq_true in H1. by apply negb_true_iff in H2.
  - rewrite Hs. cbn. intros f g Hf Hg E. f_equal. by eapply (NoDup_key_inj Fill.id).
Qed.

Lemma fills_apply_exactly_once_witness :
  ∃ s' settled failed d', deliver (dc := default_context) demo_store "d1" demo_reports = (s', settled, failed) ∧
    length settled = 3%nat ∧ failed = [first_buy] ∧ find_deployment s' "d1" = Ok d' ∧
    Deployment.cash d' = Dec 10176 (-1) ∧ Deployment.cash d' = settle (dc := default_context) (of_Z 1000) settled.
Proof.
  pose proof (fills_apply_exactly_once (dc := default_context) demo_store "d1" demo_reports demo_deployment demo_store_wf
    ltac:(apply distinct_ids_report; [reflexivity|vm_compute; reflexivity|apply (bool_decide_eq_true_1 (NoDup _)); vm_compute; reflexivity])
    eq_refl) as H.
  assert (let '(s', settled, failed) := deliver (dc := default_context) demo_store "d1" demo_reports in
    length settled = 3%nat ∧ failed = [first_buy] ∧
    match find_deployment s' "d1" with Ok d => Deployment.cash d = Dec 10176 (-1) | Raise _ => False end) as Hrun
    by (vm_compute; repeat split).
  destruct (deliver demo_store "d1" demo_reports) as [[s' settled] failed].
  destruct H as ((d' & Hd' & Hc & _) & _). exists s', settled, failed, d'. split; [reflexivity|].
  destruct Hrun as (H1 & H2 & H3).
  rewrite Hd' in H3. repeat split; [exact H1|exact H2|exact Hd'|exact H3|exact Hc].
Defined.

(** * Interleaved clients of the store ([execution/leases.py])

    Workers, routes and replays call the store in any order. [store_step] is one completed
    call, whatever its arguments; a run is its closure. Every write of a deployment row raises
    its revision, so a revision names one row: a save that quotes the revision its caller read
    cannot overwrite a row it has not seen. On top of that, worker leases: [RevisionFencedStore]
    is the store as a leased pass sees it, and [world_step] adds a shared clock. *)

Definition row (s : Store) (id : UUID) : option Deployment := dict_get id (deployments s).

Section Steps.
Context {dc : DecimalContext}.

Inductive store_step (s : Store) : Store → Prop :=
  | step_create gate (d : Deployment) s' : row s (Deployment.id d) = None → create_deployment s gate d = Ok s' → store_step s s'
  | step_save d expected rt s' saved : save_deployment s d expected rt = Ok (s', saved) → store_step s s'
  | step_pause id expected detail latched now s' saved :
      save_breaker_pause s id expected detail latched now = Ok (s', saved) → store_step s s'
  | step_lease id holder now ttl s' granted : acquire_worker_lease s id holder now ttl = Ok (s', granted) → store_step s s'
  | step_intent gate fence intent s' : save_intent s gate fence intent = Ok s' → store_step s s'
  | step_restore o : store_step s (restore_order s o)
  | step_order o : store_step s (save_order s o)
  | step_fill f : store_step s (save_fill s f).1
  | step_apply id f o cool tf t1 t2 t3 : store_step s (apply_fill_transaction s id f o cool tf t1 t2 t3).1
  | step_position p id product : store_step s (save_position s p id product)
  | step_runtime r id : store_step s (save_instrument_runtime s r id)
  | step_funding id flows expected s' r : apply_funding_transaction s id flows expected = Ok (s', r) → store_step s s'.

(** Rows are stored under their own identifier. *)
Definition keyed (s : Store) : Prop := ∀ id (d : Deployment), row s id = Some d → Deployment.id d = id.

(** A step leaves a row alone or writes one under a higher revision, possibly creating it. *)
Definition row_written (s s' : Store) : Prop :=
  deployments s' = deployments s ∨
  ∃ id (d : Deployment), Deployment.id d = id ∧ deployments s' = dict_set id d (deployments s) ∧
    (∀ old, row s id = Some old → Deployment.revision old < Deployment.revision d).

Lemma commit_written s snap id f o p st d : keyed s → deployments (record_evidence s f) = deployments s →
  row s id = Some d → DeploymentSnapshot.deployment snap = d →
  Deployment.terms (fill_projection_deployment snap p) = Deployment.terms d →
  row_written s (commit_fill (record_evidence s f) snap id f o p st).
Proof.
  intros Hk Hrec Hd <- Hterms. right.
  exists id, (Deployment.set_revision (fill_projection_deployment snap p) (Deployment.revision (DeploymentSnapshot.deployment snap) + 1)).
  destruct (commit_fill_fills (record_evidence s f) snap id f o p st) as (_ & _ & ->). rewrite Hrec.
  cbn. rewrite Hterms, (Hk id _ Hd). split; [done|]. split; [done|].
  intros old. rewrite Hd. intros [= <-]. cbn. lia.
Qed.

Lemma find_deployment_row s id d : find_deployment s id = Ok d → row s id = Some d.
Proof. apply find_deployment_Ok. Qed.

Lemma store_step_row s s' : keyed s → store_step s s' → row_written s s'.
Proof.
  intros Hk [gate d s'' Hnone H|d expected rt s'' saved H|id expected detail latched now s'' saved H|
    id holder now ttl s'' granted H|gate fence intent s'' H|o|o|f|id f o cool tf t1 t2 t3|p id product|r id|id flows expected s'' r H].
  - apply bind_Ok in H as (? & _ & [= <-]). right. exists (Deployment.id d), d. split; [done|]. split; [done|].
    intros old. by rewrite Hnone.
  - apply bind_Ok in H as (? & _ & H). apply bind_Ok in H as (current & Hcur & H). apply bind_Ok in H as (? & _ & H).
    apply find_deployment_row in Hcur. right. exists (Deployment.id d), (Deployment.set_revision d (Deployment.revision current + 1)).
    split; [done|]. split; [|intros old; rewrite Hcur; intros [= <-]; cbn; lia].
    cbn zeta in H. case_ok H; by injection H as <- _.
  - apply bind_Ok in H as (current & Hcur & H). apply bind_Ok in H as (? & _ & [= <- <-]).
    apply find_deployment_row in Hcur. right. eexists id, _. split; [|split; [done|]].
    + cbn. by apply Hk.
    + intros old. rewrite Hcur. intros [= <-]. cbn. lia.
  - apply bind_Ok in H as (current & Hcur & H). apply find_deployment_row in Hcur.
    destruct (negb _); injection H as <- <-; [by left|]. right. eexists id, _. split; [|split; [done|]].
    + cbn. by apply Hk.
    + intros old. rewrite Hcur. intros [= <-]. cbn. lia.
  - left. apply bind_Ok in H as (? & _ & H). apply bind_Ok in H as (? & _ & H). unfold _insert_leased_intent in H. by invert_ok.
  - by left.
  - by left.
  - left. unfold save_fill. by case_decide.
  - unfold apply_fill_transaction, get_deployment. destruct (find_deployment s id) as [d|e] eqn:Hd; [|by left].
    apply find_deployment_row in Hd. cbn [mbind result_bind].
    destruct (match recorded_fill _ _ with Some item => applied item | None => false end); [by left|].
    destruct (project_fill_economics _ _ _ _ _ _ _ _) as [[p st]|e] eqn:Hp; cbn [fst].
    + destruct (fill_frame _ _ _ _ _ _ _ _ _ _ Hp) as [_ (Hterms & _)].
      by apply (commit_written _ _ _ _ _ _ _ d); [done|apply record_evidence_deployments|done|done|].
    + left. apply record_evidence_deployments.
  - left. unfold save_position. destruct p, product; try done; by case_decide.
  - by left.
  - apply bind_Ok in H as (current & Hcur & H). apply bind_Ok in H as (? & _ & H). apply bind_Ok in H as (? & _ & H).
    apply bind_Ok in H as (snap & _ & [= <- <-]). apply find_deployment_row in Hcur.
    destruct (List.filter _ flows); [by left|]. right. eexists id, _. split; [|split; [done|]].
    + cbn. by apply Hk.
    + intros old. rewrite Hcur. intros [= <-]. cbn. lia.
Qed.

Lemma row_written_keyed s s' : keyed s → row_written s s' → keyed s'.
Proof.
  unfold keyed, row. intros Hk [->|(id & d & Hid & -> & _)]; [done|]. intros id' d'.
  destruct (decide (id' = id)) as [->|Hne]; [rewrite dict_get_set; by intros [= <-]|rewrite dict_get_set_ne by done; apply Hk].
Qed.

Lemma row_written_revision s s' id d : row_written s s' → row s id = Some d →
  ∃ d', row s' id = Some d' ∧ (d' = d ∨ Deployment.revision d < Deployment.revision d').
Proof.
  unfold row. intros [->|(id' & e & _ & -> & Hrev)] Hd; [exists d; by split; [|left]|].
  destruct (decide (id = id')) as [->|Hne].
  - exists e. rewrite dict_get_set. split; [done|]. right. by apply Hrev.
  - exists d. rewrite dict_get_set_ne by done. split; [done|by left].
Qed.

(** Along a run a row only changes together with its revision. *)
Lemma run_revision s s' id d : keyed s → rtc store_step s s' → row s id = Some d →
  keyed s' ∧ ∃ d', row s' id = Some d' ∧ (d' = d ∨ Deployment.revision d < Deployment.revision d').
Proof.
  intros Hk Hrun. revert d Hk. induction Hrun as [s|s t u Hst Htu IH]; intros d Hk Hd.
  - split; [done|]. exists d. by split; [|left].
  - pose proof (store_step_row s t Hk Hst) as Hw. pose proof (row_written_keyed s t Hk Hw) as Hkt.
    destruct (row_written_revision s t id d Hw Hd) as (e & He & Hde).
    destruct (IH e Hkt He) as (Hku & d' & Hd' & Hed). split; [done|]. exists d'. split; [done|].
    destruct Hde as [->|?], Hed as [->|?]; [by left|by right|by right|right; lia].
Qed.

Lemma save_deployment_Ok s d expected rt s' saved : save_deployment s d expected rt = Ok (s', saved) →
  ∃ current, row s (Deployment.id d) = Some current ∧ (∀ e, expected = Some e → Deployment.revision current = e) ∧
    saved = Deployment.set_revision d (Deployment.revision current + 1) ∧ row s' (Deployment.id d) = Some saved.
Proof.
  intros H. apply bind_Ok in H as (? & _ & H). apply bind_Ok in H as (current & Hcur & H). apply bind_Ok in H as ([] & Hrev & H).
  exists current. apply find_deployment_row in Hcur. split; [done|]. split.
  { intros e ->. apply guard_or_Ok in Hrev. by apply Z.eqb_eq. }
  assert (saved = Deployment.set_revision d (Deployment.revision current + 1) ∧
    deployments s' = dict_set (Deployment.id d) saved (deployments s)) as [-> Hs'].
  { cbn zeta in H. case_ok H; by injection H as <- <-. }
  split; [done|]. unfold row. by rewrite Hs', dict_get_set.
Qed.

(** C5: No lost update. A client reads a deployment row; other clients then make any sequence
    of store calls. If its save, quoting the revision it read, succeeds, the row it replaces is
    exactly the row it read, and the saved row is the next revision. *)
Theorem no_lost_update s s1 read (d : Deployment) rt s2 saved : keyed s → row s (Deployment.id d) = Some read → rtc store_step s s1 →
  save_deployment s1 d (Some (Deployment.revision read)) rt = Ok (s2, saved) →
  row s1 (Deployment.id d) = Some read ∧ row s2 (Deployment.id d) = Some saved ∧
  Deployment.revision saved = Deployment.revision read + 1.
Proof.
  intros Hk Hread Hrun Hsave. apply save_deployment_Ok in Hsave as (current & Hcur & Hrev & -> & Hs2).
  specialize (Hrev _ eq_refl). destruct (run_revision s s1 _ read Hk Hrun Hread) as (_ & d' & Hd' & [->|Hlt]).
  - rewrite Hcur in Hd'. injection Hd' as ->. by split; [|split].
  - rewrite Hcur in Hd'. injection Hd' as <-. lia.
Qed.

End Steps.

(** ** The store as a leased pass sees it: [RevisionFencedStore] *)

Record RevisionFencedStore := fenced {
  _inner : Store;
  _deployment_id : UUID;
  _expected_revision : Z;
  _holder : string
}.

Definition with_inner (fs : RevisionFencedStore) (s : Store) (expected : Z) : RevisionFencedStore :=
  fenced s (_deployment_id fs) expected (_holder fs).

(** [require_revision] of [execution/leases.py]. *)
Definition require_own_revision (d : Deployment) (expected : Z) : result unit :=
  guard_or (Deployment.revision d =? expected) REVISION_CONFLICT.

Definition fenced_save_deployment (fs : RevisionFencedStore) (d : Deployment) (expected_revision : option Z)
    (instrument_runtime : option InstrumentRuntime) : result (RevisionFencedStore * Deployment) :=
  if decide (Deployment.id d = _deployment_id fs) then
    let expected := default (_expected_revision fs) expected_revision in
    _ ← require_own_revision d expected;
    '(s, saved) ← save_deployment (_inner fs) d (Some expected) instrument_runtime;
    Ok (with_inner fs s (Deployment.revision saved), saved)
  else
    '(s, saved) ← save_deployment (_inner fs) d expected_revision instrument_runtime;
    Ok (with_inner fs s (_expected_revision fs), saved).

Definition fenced_save_breaker_pause (fs : RevisionFencedStore) (deployment_id : UUID) (expected_revision : Z) (detail : string)
    (daily_loss_latched : bool) (now : datetime) : result (RevisionFencedStore * Deployment) :=
  '(s, saved) ← save_breaker_pause (_inner fs) deployment_id expected_revision detail daily_loss_latched now;
  Ok (with_inner fs s (if decide (deployment_id = _deployment_id fs) then Deployment.revision saved else _expected_revision fs), saved).

(** [ambient] is the fence of the surrounding task. *)
Definition fenced_save_intent (fs : RevisionFencedStore) (gate : Gate) (ambient : option (UUID * string)) (intent : OrderIntent)
    : result RevisionFencedStore :=
  let fence := if decide (OrderIntent.deployment_id intent = _deployment_id fs) then Some (_deployment_id fs, _holder fs) else ambient in
  s ← save_intent (_inner fs) gate fence intent;
  Ok (with_inner fs s (_expected_revision fs)).

Definition WORKER_LEASE_TTL_SECONDS : Z := 45.

Section FencedWrites.
Context {dc : DecimalContext}.

Definition fenced_apply_fill_transaction (fs : RevisionFencedStore) (deployment_id : UUID) (fill : Fill) (order : Order)
    (cooldown_bars : Z) (timeframe : option string) (t1 t2 t3 : datetime)
    : RevisionFencedStore * result (bool * DeploymentSnapshot) :=
  let '(s, r) := apply_fill_transaction (_inner fs) deployment_id fill order cooldown_bars timeframe t1 t2 t3 in
  let expected :=
    match r with
    | Ok (_, snapshot) =>
        if decide (deployment_id = _deployment_id fs) then Deployment.revision (DeploymentSnapshot.deployment snapshot)
        else _expected_revision fs
    | Raise _ => _expected_revision fs
    end in
  (with_inner fs s expected, r).

Definition fenced_apply_funding_transaction (fs : RevisionFencedStore) (deployment_id : UUID) (flows : list FundingCashFlow)
    (expected_revision : option Z) : result (RevisionFencedStore * (nat * DeploymentSnapshot)) :=
  let expected_revision :=
    if decide (deployment_id = _deployment_id fs) then Some (default (_expected_revision fs) expected_revision)
    else expected_revision in
  '(s, (applied, snapshot)) ← apply_funding_transaction (_inner fs) deployment_id flows expected_revision;
  Ok (with_inner fs s (if decide (deployment_id = _deployment_id fs)
                       then Deployment.revision (DeploymentSnapshot.deployment snapshot) else _expected_revision fs),
      (applied, snapshot)).

(** ** Worker leases *)

Definition same_lease (d e : Deployment) : Prop :=
  Deployment.worker_lease_holder d = Deployment.worker_lease_holder e ∧
  Deployment.worker_lease_expires_at d = Deployment.worker_lease_expires_at e.

(** A call that leaves every lease as it is. *)
Definition keeps_leases (s s' : Store) : Prop := ∀ id d d', row s id = Some d → row s' id = Some d' → same_lease d' d.

(** Recording a fill, in whatever way it ends, keeps the lease. *)
Lemma apply_fill_keeps_leases s id f o cool tf t1 t2 t3 : keyed s →
  keeps_leases s (apply_fill_transaction s id f o cool tf t1 t2 t3).1.
Proof.
  intros Hk i d d' Hd. unfold apply_fill_transaction, get_deployment.
  destruct (find_deployment s id) as [e|err] eqn:He; cbn [mbind result_bind fst]; [|rewrite Hd; by intros [= <-]].
  destruct (match recorded_fill _ _ with Some item => applied item | None => false end); cbn [fst]; [rewrite Hd; by intros [= <-]|].
  destruct (project_fill_economics _ _ _ _ _ _ _ _) as [[p st]|err] eqn:Hp; cbn [fst].
  2: { unfold row in *. rewrite record_evidence_deployments, Hd. by intros [= <-]. }
  destruct (commit_fill_fills (record_evidence s f) (snapshot_of s id e) id f o p st) as (_ & _ & Hc).
  destruct (fill_frame _ _ _ _ _ _ _ _ _ _ Hp) as [_ (Hterms & _ & _ & Hh & Hx & _)].
  apply find_deployment_row in He. unfold row in *. rewrite Hc, record_evidence_deployments, Hterms. cbn.
  rewrite (Hk id e He). destruct (decide (i = id)) as [->|Hne].
  - rewrite dict_get_set. intros [= <-]. rewrite He in Hd. injection Hd as ->. split; cbn; [by rewrite Hh|by rewrite Hx].
  - rewrite dict_get_set_ne, Hd by done. by intros [= <-].
Qed.

(** Replacing the current row by one with the same lease keeps every lease. *)
Lemma save_keeps_leases s (d current : Deployment) expected rt s' saved : keyed s → row s (Deployment.id d) = Some current →
  same_lease d current → save_deployment s d expected rt = Ok (s', saved) → keeps_leases s s'.
Proof.
  intros Hk Hcur [Hh Hx] Hsave. pose proof (save_deployment_Ok _ _ _ _ _ _ Hsave) as (c & Hc & _ & Hsaved & Hrow).
  rewrite Hcur in Hc. injection Hc as <-. intros i e e' He He'. destruct (decide (i = Deployment.id d)) as [->|Hne].
  - rewrite Hrow in He'. injection He' as <-. rewrite Hcur in He. injection He as <-. subst saved. by split.
  - destruct (store_step_row _ _ Hk (step_save _ _ _ _ _ _ Hsave)) as [E|(j & g & Hg & E & _)]; unfold row in *; rewrite E in *.
    + rewrite He in He'. by injection He' as ->.
    + destruct (decide (Deployment.id d = j)) as [<-|Hj]; [rewrite dict_get_set_ne in He' by done; rewrite He in He'; by injection He' as ->|].
      rewrite dict_get_set_ne in Hrow by done. rewrite Hcur in Hrow. injection Hrow as Hbad.
      exfalso. rewrite Hsaved in Hbad. apply (f_equal Deployment.revision) in Hbad. cbn in Hbad. lia.
Qed.

(** A fenced save of a row derived from the one the pass read, lease fields untouched, keeps
    the lease: the revision proves that the row read is the row replaced. *)
Lemma fenced_save_keeps_leases s fs read (d : Deployment) rt fs' saved : keyed s → Deployment.id d = _deployment_id fs →
  row s (Deployment.id d) = Some read → Deployment.revision d = Deployment.revision read → same_lease d read →
  rtc store_step s (_inner fs) → fenced_save_deployment fs d None rt = Ok (fs', saved) → keeps_leases (_inner fs) (_inner fs').
Proof.
  intros Hk Hid Hread Hrev Hsame Hrun. unfold fenced_save_deployment. rewrite decide_True by done. cbn [default].
  intros H. apply bind_Ok in H as ([] & Hown & H). apply bind_Ok in H as ([s2 saved'] & Hsave & [= <- <-]).
  apply guard_or_Ok, Z.eqb_eq in Hown. rewrite <- Hown in Hsave.
  pose proof (save_deployment_Ok _ _ _ _ _ _ Hsave) as (current & Hcur & Hexp & _ & _). specialize (Hexp _ eq_refl).
  destruct (run_revision s (_inner fs) _ read Hk Hrun Hread) as (Hk1 & r & Hr & Hor).
  rewrite Hcur in Hr. injection Hr as ->. destruct Hor as [->|Hlt]; [|lia]. by eapply save_keeps_leases.
Qed.

(** The store's calls that neither replace a whole deployment row nor lease one. *)
Inductive record_step (s : Store) : Store → Prop :=
  | record_create gate (d : Deployment) s' : row s (Deployment.id d) = None → create_deployment s gate d = Ok s' → record_step s s'
  | record_pause id expected detail latched now s' saved :
      save_breaker_pause s id expected detail latched now = Ok (s', saved) → record_step s s'
  | record_intent gate fence intent s' : save_intent s gate fence intent = Ok s' → record_step s s'
  | record_restore o : record_step s (restore_order s o)
  | record_order o : record_step s (save_order s o)
  | record_fill f : record_step s (save_fill s f).1
  | record_apply id f o cool tf t1 t2 t3 : record_step s (apply_fill_transaction s id f o cool tf t1 t2 t3).1
  | record_position p id product : record_step s (save_position s p id product)
  | record_runtime r id : record_step s (save_instrument_runtime s r id)
  | record_funding id flows expected s' r : apply_funding_transaction s id flows expected = Ok (s', r) → record_step s s'.

Lemma record_is_step s s' : record_step s s' → store_step s s'.
Proof.
  intros [gate d s'' Hnone H|id expected detail latched now s'' saved H|gate fence intent s'' H|o|o|f|id f o cool tf t1 t2 t3|
    p id product|r id|id flows expected s'' r H].
  - exact (step_create _ _ _ _ Hnone H).
  - exact (step_pause _ _ _ _ _ _ _ _ H).
  - exact (step_intent _ _ _ _ _ H).
  - apply step_restore.
  - apply step_order.
  - apply step_fill.
  - apply step_apply.
  - apply step_position.
  - apply step_runtime.
  - exact (step_funding _ _ _ _ _ _ H).
Qed.

Lemma same_rows_keep s s' : deployments s' = deployments s → keeps_leases s s'.
Proof. intros E id d d'. unfold row. rewrite E. intros -> [= <-]. done. Qed.

Lemma set_row_keeps s s' id (current d : Deployment) : row s id = Some current → deployments s' = dict_set id d (deployments s) →
  same_lease d current → keeps_leases s s'.
Proof.
  intros Hcur E Hsame i e e'. unfold row in *. rewrite E. destruct (decide (i = id)) as [->|Hne].
  - rewrite dict_get_set, Hcur. by intros [= <-] [= <-].
  - rewrite dict_get_set_ne by done. intros -> [= <-]. done.
Qed.

Lemma record_step_keeps s s' : keyed s → record_step s s' → keeps_leases s s'.
Proof.
  intros Hk [gate d s'' Hnone H|id expected detail latched now s'' saved H|gate fence intent s'' H|o|o|f|id f o cool tf t1 t2 t3|
    p id product|r id|id flows expected s'' r H]; try by apply same_rows_keep.
  - apply bind_Ok in H as (? & _ & [= <-]). intros i e e'. unfold row in *. cbn. destruct (decide (i = Deployment.id d)) as [->|Hne].
    + by rewrite Hnone.
    + rewrite dict_get_set_ne by done. intros -> [= <-]. done.
  - apply bind_Ok in H as (current & Hcur & H). apply bind_Ok in H as (? & _ & [= <- <-]). apply find_deployment_row in Hcur.
    by eapply set_row_keeps.
  - apply same_rows_keep. apply bind_Ok in H as (? & _ & H). apply bind_Ok in H as (? & _ & H). unfold _insert_leased_intent in H. by invert_ok.
  - apply same_rows_keep. unfold save_fill. by case_decide.
  - by apply apply_fill_keeps_leases.
  - apply same_rows_keep. unfold save_position. destruct p, product; try done; by case_decide.
  - apply bind_Ok in H as (current & Hcur & H). apply bind_Ok in H as (? & _ & H). apply bind_Ok in H as (? & _ & H).
    apply bind_Ok in H as (snap & _ & [= <- <-]). apply find_deployment_row in Hcur.
    destruct (List.filter _ flows); [by apply same_rows_keep|by eapply set_row_keeps].
Qed.

(** The store, a shared clock, and the rows that clients have read so far. *)
Record World := { world_store : Store; clock : datetime; views : list Deployment }.

(** Every worker leases for the same time. A client replaces a whole row only by one derived from
    a row it read, however long ago, quoting that row's revision and leaving the lease fields. *)
Inductive world_step (ttl : timedelta) (w : World) : World → Prop :=
  | world_tick t : clock w <= t → world_step ttl w {| world_store := world_store w; clock := t; views := views w |}
  | world_read id d : row (world_store w) id = Some d →
      world_step ttl w {| world_store := world_store w; clock := clock w; views := d :: views w |}
  | world_save (read d : Deployment) rt s saved : read ∈ views w → Deployment.id d = Deployment.id read → same_lease d read →
      save_deployment (world_store w) d (Some (Deployment.revision read)) rt = Ok (s, saved) →
      world_step ttl w {| world_store := s; clock := clock w; views := views w |}
  | world_call s : record_step (world_store w) s → world_step ttl w {| world_store := s; clock := clock w; views := views w |}
  | world_acquire id holder s granted : acquire_worker_lease (world_store w) id holder (clock w) ttl = Ok (s, granted) →
      world_step ttl w {| world_store := s; clock := clock w; views := views w |}.

(** Rows are keyed, and a row that was read is the current one or an older revision of it. *)
Definition world_wf (w : World) : Prop := keyed (world_store w) ∧
  ∀ v : Deployment, v ∈ views w → ∃ d, row (world_store w) (Deployment.id v) = Some d ∧ (d = v ∨ Deployment.revision v < Deployment.revision d).

Lemma world_wf_written w s : world_wf w → row_written (world_store w) s →
  world_wf {| world_store := s; clock := clock w; views := views w |}.
Proof.
  intros [Hk Hv] Hw. split; cbn; [by eapply row_written_keyed|]. intros v (d & Hd & Hor)%Hv.
  destruct (row_written_revision _ _ _ _ Hw Hd) as (d' & Hd' & Hor'). exists d'. split; [done|].
  destruct Hor as [->|?], Hor' as [->|?]; [by left|by right|by right|right; lia].
Qed.

(** A step writes rows as the store's calls do. *)
Lemma world_step_written ttl w w' : world_wf w → world_step ttl w w' → row_written (world_store w) (world_store w').
Proof.
  intros [Hk _] [t Ht|id d Hd|read d rt s saved _ _ _ H|s H|id holder s granted H]; cbn; [by left|by left|..].
  - apply store_step_row; [done|]. by eapply step_save.
  - apply store_step_row; [done|]. by apply record_is_step.
  - apply store_step_row; [done|]. by eapply step_lease.
Qed.

Lemma world_step_wf ttl w w' : world_wf w → world_step ttl w w' → world_wf w'.
Proof.
  intros Hwf Hst. pose proof (world_step_written _ _ _ Hwf Hst) as Hw. destruct Hst as [t Ht|id d Hd|read d rt s saved _ _ _ H|s H|id holder s granted H];
    try exact (world_wf_written w _ Hwf Hw). destruct Hwf as [Hk Hv]. split; cbn; [done|]. intros v [->|Hin]%elem_of_cons; [|by apply Hv].
  exists d. by rewrite (Hk _ _ Hd); [split; [|left]].
Qed.

Lemma world_steps_wf ttl w w' : world_wf w → rtc (world_step ttl) w w' → world_wf w'.
Proof. intros Hwf. induction 1 as [|w w1 w2 Hst _ IH]; [done|]. by apply IH, (world_step_wf ttl w). Qed.

(** A save that quotes the revision of a row somebody read replaces that very row. *)
Lemma world_save_keeps w (read d : Deployment) rt s saved : world_wf w → read ∈ views w → Deployment.id d = Deployment.id read →
  same_lease d read → save_deployment (world_store w) d (Some (Deployment.revision read)) rt = Ok (s, saved) →
  keeps_leases (world_store w) s.
Proof.
  intros [Hk Hv] Hin Hid Hsame Hsave. pose proof (save_deployment_Ok _ _ _ _ _ _ Hsave) as (current & Hcur & Hexp & _ & _).
  specialize (Hexp _ eq_refl). destruct (Hv _ Hin) as (c & Hc & Hor). rewrite <- Hid, Hcur in Hc. injection Hc as <-.
  destruct Hor as [->|Hlt]; [|lia]. by eapply save_keeps_leases.
Qed.

(** [holder] has the lease of [id] at least until [deadline]. *)
Definition holds_lease (s : Store) (id : UUID) (holder : string) (deadline : datetime) : Prop :=
  ∃ d e, row s id = Some d ∧ Deployment.worker_lease_holder d = Some holder ∧
    Deployment.worker_lease_expires_at d = Some e ∧ deadline <= e.

Lemma acquire_cases s id holder now ttl s' granted : acquire_worker_lease s id holder now ttl = Ok (s', granted) →
  ∃ current, row s id = Some current ∧
    (lease_available current holder now = false ∧ s' = s ∧ granted = None ∨
     lease_available current holder now = true ∧
     ∃ saved, granted = Some saved ∧ deployments s' = dict_set id saved (deployments s) ∧
       saved = Deployment.set_revision (Deployment.set_lease current holder (now + ttl)) (Deployment.revision current + 1)).
Proof.
  intros H. apply bind_Ok in H as (current & Hcur & H). apply find_deployment_row in Hcur. exists current. split; [done|].
  destruct (lease_available current holder now); cbn in H; injection H as <- <-; [right|by left].
  split; [done|]. by eexists.
Qed.

Lemma lease_taken (d : Deployment) h h' e now : Deployment.worker_lease_holder d = Some h →
  Deployment.worker_lease_expires_at d = Some e → now < e → h' ≠ h → lease_available d h' now = false.
Proof.
  intros Hh He Hlt Hne. unfold lease_available. rewrite Hh, He. apply orb_false_iff.
  split; [apply Z.leb_gt; lia|]. by apply bool_decide_false.
Qed.

Lemma acquire_granted s id holder now ttl s' d : acquire_worker_lease s id holder now ttl = Ok (s', Some d) →
  holds_lease s' id holder (now + ttl).
Proof.
  intros (current & Hcur & [(_ & _ & [=])|(_ & saved & [= <-] & Hs' & Hd)])%acquire_cases.
  exists d, (now + ttl). unfold row. rewrite Hs', dict_get_set. by subst d.
Qed.

(** While the lease lasts, no step takes it away. *)
Lemma world_step_holds ttl w w' id h deadline : world_wf w → world_step ttl w w' → clock w < deadline →
  deadline <= clock w + ttl → holds_lease (world_store w) id h deadline → holds_lease (world_store w') id h deadline.
Proof.
  intros Hwf Hst Hclock Httl (d & e & Hd & Hh & He & Hde).
  assert (∀ s, row_written (world_store w) s → keeps_leases (world_store w) s → holds_lease s id h deadline) as Hkept.
  { intros s Hw Hkeep. destruct (row_written_revision _ _ _ _ Hw Hd) as (d' & Hd' & _). destruct (Hkeep _ _ _ Hd Hd') as [E1 E2].
    exists d', e. by rewrite E1, E2. }
  pose proof (world_step_written _ _ _ Hwf Hst) as Hw. destruct Hst as [t Ht|i r Hr|read x rt s saved Hin Hid Hsame H|s H|j h' s granted H]; cbn in *.
  - by exists d, e.
  - by exists d, e.
  - apply Hkept; [done|]. by eapply world_save_keeps.
  - apply Hkept; [done|]. apply record_step_keeps; [by destruct Hwf|done].
  - apply acquire_cases in H as (current & Hcur & [(_ & -> & _)|(Hav & saved & _ & Hs' & Hsaved)]); [by exists d, e|].
    destruct (decide (j = id)) as [->|Hne].
    + rewrite Hd in Hcur. injection Hcur as <-. destruct (decide (h' = h)) as [->|Hh'].
      * exists saved, (clock w + ttl). unfold row. rewrite Hs', dict_get_set. by subst saved.
      * rewrite (lease_taken d h h' e) in Hav by (done || lia). done.
    + exists d, e. unfold row. by rewrite Hs', dict_get_set_ne.
Qed.

(** C36: Lease exclusion. Start anywhere; clients read rows and call the store in any order. From
    the grant of a lease until its time has passed, whatever reads, saves, other calls, renewals
    and rival attempts come in between, the holder keeps it; every other worker's attempt is
    refused, and an intent for the book written under another worker's fence is never recorded.
    A save may be derived from a row read long before the grant, but it quotes the revision it
    read and does not change the lease itself, as every save of its own book through [RevisionFencedStore] does;
    [unquoted_save_erases_lease] shows that a save without a revision would take the lease away. *)
Theorem lease_excludes_other_workers s0 t0 w0 ttl id h s1 granted w : keyed s0 →
  rtc (world_step ttl) {| world_store := s0; clock := t0; views := [] |} w0 →
  acquire_worker_lease (world_store w0) id h (clock w0) ttl = Ok (s1, Some granted) →
  rtc (world_step ttl) {| world_store := s1; clock := clock w0; views := views w0 |} w → clock w < clock w0 + ttl →
  holds_lease (world_store w) id h (clock w0 + ttl) ∧
  ∀ h', h' ≠ h →
    acquire_worker_lease (world_store w) id h' (clock w) ttl = Ok (world_store w, None) ∧
    ∀ fs gate ambient intent fs', _inner fs = world_store w → _deployment_id fs = id → _holder fs = h' →
      OrderIntent.deployment_id intent = id → fenced_save_intent fs gate ambient intent ≠ Ok fs'.
Proof.
  intros Hk Hbefore Hgrant Hrun Hclock.
  assert (world_wf w0) as Hwf0 by (eapply world_steps_wf; [|exact Hbefore]; split; [done|intros ? ?%elem_of_nil; done]).
  pose proof (world_step_wf ttl w0 _ Hwf0 (world_acquire _ _ _ _ _ _ Hgrant)) as Hwf1.
  assert (world_wf w ∧ clock w0 <= clock w ∧ (clock w < clock w0 + ttl → holds_lease (world_store w) id h (clock w0 + ttl))) as (_ & _ & Hinv).
  { clear Hclock. revert w Hrun. apply rtc_ind_r; cbn.
    - split; [done|]. split; [done|]. intros _. by eapply acquire_granted.
    - intros y z _ Hyz (Hwfy & Hy & IH). assert (clock y <= clock z) as Hyz' by (by destruct Hyz; cbn).
      split; [by eapply world_step_wf|]. split; [lia|]. intros Hz. eapply world_step_holds; [done|done|lia|lia|apply IH; lia]. }
  specialize (Hinv Hclock). split; [done|]. intros h' Hne.
  destruct Hinv as (d & e & Hd & Hh & He & Hde). split.
  - unfold acquire_worker_lease, find_deployment. unfold row in Hd. rewrite Hd. cbn [mbind result_bind].
    rewrite (lease_taken d h h' e) by (done || lia). done.
  - intros fs gate ambient intent fs' Hin Hdep Hfh Hint. unfold fenced_save_intent. rewrite decide_True by congruence.
    intros (s & H & _)%bind_Ok. apply bind_Ok in H as ([] & _ & H). apply bind_Ok in H as ([] & _ & H).
    unfold _insert_leased_intent in H. apply bind_Ok in H as ([] & H & _). revert H.
    rewrite Hin, Hint, Hdep, Hfh. unfold row in Hd. rewrite Hd. cbn. rewrite Hh. unfold require_lease_holder, fenced_holder.
    rewrite decide_True by done. by rewrite decide_False by congruence.
Qed.

(** A lease is never lost. Once the time of a grant has passed and nobody renewed it, the
    next worker that asks is granted the lease, however the worker that held it ended. *)
Lemma expired_lease_is_granted w0 ttl id h s1 granted w h' : world_wf w0 →
  acquire_worker_lease (world_store w0) id h (clock w0) ttl = Ok (s1, Some granted) →
  rtc (λ u v, world_step ttl u v ∧ keeps_leases (world_store u) (world_store v)) {| world_store := s1; clock := clock w0; views := views w0 |} w →
  clock w0 + ttl <= clock w →
  ∃ s2 d, acquire_worker_lease (world_store w) id h' (clock w) ttl = Ok (s2, Some d) ∧ row s2 id = Some d ∧
    Deployment.worker_lease_holder d = Some h' ∧ Deployment.worker_lease_expires_at d = Some (clock w + ttl).
Proof.
  intros Hwf Hgrant Hrun Hclock.
  assert (world_wf w ∧ ∃ d, row (world_store w) id = Some d ∧
    Deployment.worker_lease_expires_at d = Some (clock w0 + ttl)) as (_ & d & Hd & He).
  { clear Hclock. revert w Hrun. apply rtc_ind_r.
    - split; [exact (world_step_wf ttl w0 _ Hwf (world_acquire _ _ _ _ _ _ Hgrant))|].
      pose proof Hgrant as (current & Hcur & [(_ & _ & [=])|(_ & saved & [= <-] & Hs' & Hg)])%acquire_cases. cbn.
      exists granted. unfold row. rewrite Hs', dict_get_set. by subst granted.
    - intros y z _ [Hyz Hkeep] (Hwfy & d & Hd & He). pose proof (world_step_written _ _ _ Hwfy Hyz) as Hw.
      split; [by eapply world_step_wf|]. destruct (row_written_revision _ _ _ _ Hw Hd) as (d' & Hd' & _). exists d'. split; [done|].
      destruct (Hkeep id d d' Hd Hd') as [_ ->]. done. }
  unfold acquire_worker_lease, find_deployment. unfold row in Hd. rewrite Hd. cbn [mbind result_bind].
  assert (lease_available d h' (clock w) = true) as ->.
  { unfold lease_available. rewrite He. destruct (Deployment.worker_lease_holder d); [|done].
    apply orb_true_iff. left. by apply Z.leb_le. }
  cbn [negb]. do 2 eexists. split; [done|]. unfold row. cbn. by rewrite dict_get_set.
Qed.

End FencedWrites.

(** ** Worked interleavings *)

Lemma demo_keyed : keyed demo_store.
Proof. intros id d. unfold row. cbn. case_decide; [|done]. by intros [= <-]. Qed.

Definition demo_saved : result (Store * Deployment) :=
  save_deployment (save_order demo_store entry_order) (Deployment.set_cash demo_deployment (of_Z 900) (demo_hour 1)) (Some 4) None.

Lemma no_lost_update_witness : ∃ s2 saved, demo_saved = Ok (s2, saved) ∧
  row (save_order demo_store entry_order) "d1" = Some demo_deployment ∧ row s2 "d1" = Some saved ∧ Deployment.revision saved = 5.
Proof.
  destruct demo_saved as [[s2 saved]|e] eqn:E; [|exfalso; revert E; vm_compute; discriminate].
  exists s2, saved. split; [reflexivity|].
  apply (no_lost_update (dc := default_context) demo_store (save_order demo_store entry_order) demo_deployment
    (Deployment.set_cash demo_deployment (of_Z 900) (demo_hour 1)) None s2 saved demo_keyed eq_refl); [|exact E].
  apply rtc_once. apply step_order.
Defined.

Definition lease_ttl : timedelta := WORKER_LEASE_TTL_SECONDS * second.
Definition demo_world (t : datetime) (s : Store) (seen : list Deployment) : World := {| world_store := s; clock := t; views := seen |}.
Definition demo_leased : result (Store * option Deployment) := acquire_worker_lease demo_store "d1" "worker-a" (demo_hour 1) lease_ttl.

(** A client reads the row before the grant; ten seconds after it, worker-a still has the lease. *)
Lemma lease_excludes_other_workers_witness : ∃ s1 granted, demo_leased = Ok (s1, Some granted) ∧
  holds_lease s1 "d1" "worker-a" (demo_hour 1 + lease_ttl) ∧
  acquire_worker_lease s1 "d1" "worker-b" (demo_hour 1 + 10 * second) lease_ttl = Ok (s1, None).
Proof.
  destruct demo_leased as [[s1 [granted|]]|e] eqn:E; [|exfalso; revert E; vm_compute; discriminate..].
  exists s1, granted. split; [reflexivity|].
  destruct (lease_excludes_other_workers (dc := default_context) demo_store (demo_hour 1) (demo_world (demo_hour 1) demo_store [demo_deployment])
    lease_ttl "d1" "worker-a" s1 granted (demo_world (demo_hour 1 + 10 * second) s1 [demo_deployment]) demo_keyed) as [H1 H2].
  - apply rtc_once. exact (world_read lease_ttl (demo_world (demo_hour 1) demo_store []) "d1" demo_deployment eq_refl).
  - exact E.
  - apply rtc_once. apply (world_tick lease_ttl (demo_world (demo_hour 1) s1 [demo_deployment])). vm_compute. discriminate.
  - reflexivity.
  - split; [exact H1|]. apply (H2 "worker-b"). discriminate.
Defined.

(** [save_deployment] replaces the whole row, lease fields included: a client that read the row
    before the grant and saves without quoting a revision erases the lease, and a second worker is
    granted one while the first still works. *)
Example unquoted_save_erases_lease :
  match demo_leased with
  | Ok (s1, Some _) =>
      match save_deployment s1 (Deployment.set_cash demo_deployment (of_Z 900) (demo_hour 1)) None None with
      | Ok (s2, _) =>
          match acquire_worker_lease s2 "d1" "worker-b" (demo_hour 1 + 10 * second) lease_ttl with
          | Ok (_, granted) => granted ≠ None
          | Raise _ => False
          end
      | Raise _ => False
      end
  | _ => False
  end.
Proof. vm_compute. discriminate. Qed.

(** * Funding hours are charged once ([persistence/postgres_futures_funding.py])

    [apply_funding] under the row lock of one deployment: the rows of
    [futures_funding_entries] and the deployment row are the state, [ON CONFLICT DO NOTHING]
    inserts a row unless its key is present, and an exception rolls the transaction back. The
    in-memory store checks all flows against the recorded hours first, which differs when one
    call names an hour twice. *)

Abbreviation funding_key := (UUID * string * datetime)%type.

Section Funding.
Context {dc : DecimalContext}.

(** The loop over the flows: table, charged total, number of inserted rows. *)
Definition insert_flow (deployment_id : UUID) (st : dict funding_key FundingCashFlow * decimal * nat) (flow : FundingCashFlow)
    : result (dict funding_key FundingCashFlow * decimal * nat) :=
  let '(table, total, applied) := st in
  if decide (FundingCashFlow.deployment_id flow = deployment_id) then
    match dict_get (flow_key flow) table with
    | Some _ => Ok (table, total, applied)
    | None => Ok (dict_set (flow_key flow) flow table, (total + FundingCashFlow.amount flow)%dec, S applied)
    end
  else Raise (ExecutionStoreError "Funding belongs to a different deployment.").

Definition apply_funding (table : dict funding_key FundingCashFlow) (deployment : Deployment) (flows : list FundingCashFlow)
    (expected_revision : option Z) : result (dict funding_key FundingCashFlow * (nat * Deployment)) :=
  _ ← require_revision expected_revision deployment;
  '(table', total, applied) ← foldM (insert_flow (Deployment.id deployment)) (table, d0, O) flows;
  match applied, flows with
  | S _, first :: rest =>
      let updated_at := fold_left (λ m f, Z.max m (FundingCashFlow.applied_at f)) rest (FundingCashFlow.applied_at first) in
      Ok (table', (applied,
        Deployment.set_revision (Deployment.set_cash deployment (Deployment.cash deployment + total)%dec updated_at)
          (Deployment.revision deployment + 1)))
  | _, _ => Ok (table', (O, deployment))
  end.

(** The flows one pass over [flows] inserts. *)
Fixpoint fresh_flows (table : dict funding_key FundingCashFlow) (flows : list FundingCashFlow) : list FundingCashFlow :=
  match flows with
  | [] => []
  | f :: flows =>
      match dict_get (flow_key f) table with
      | Some _ => fresh_flows table flows
      | None => f :: fresh_flows (dict_set (flow_key f) f table) flows
      end
  end.

Definition record_flows (table : dict funding_key FundingCashFlow) (flows : list FundingCashFlow) : dict funding_key FundingCashFlow :=
  fold_left (λ t f, dict_set (flow_key f) f t) flows table.

Lemma insert_flows_spec id table total applied flows st : foldM (insert_flow id) (table, total, applied) flows = Ok st →
  st = (record_flows table (fresh_flows table flows),
        fold_left add (FundingCashFlow.amount <$> fresh_flows table flows) total,
        (applied + length (fresh_flows table flows))%nat).
Proof.
  revert table total applied. induction flows as [|f flows IH]; intros table total applied; cbn [foldM fresh_flows].
  - intros [= <-]. cbn. by rewrite Nat.add_0_r.
  - intros (u & Hu & H)%bind_Ok. unfold insert_flow in Hu at 1. case_decide; [|done].
    destruct (dict_get (flow_key f) table); injection Hu as <-; apply IH in H as ->; [done|].
    cbn. by rewrite Nat.add_succ_r.
Qed.

(** The charged flows have keys of their own, none of them recorded before. *)
Lemma fresh_flows_keys table flows :
  NoDup (flow_key <$> fresh_flows table flows) ∧ (∀ k, k ∈ flow_key <$> fresh_flows table flows → dict_get k table = None).
Proof.
  revert table. induction flows as [|f flows IH]; intros table; cbn; [split; [constructor|set_solver]|].
  destruct (dict_get (flow_key f) table) eqn:E; [apply IH|]. destruct (IH (dict_set (flow_key f) f table)) as [Hnd Hnew].
  cbn. split.
  - apply NoDup_cons. split; [|done]. intros Hin. specialize (Hnew _ Hin). by rewrite dict_get_set in Hnew.
  - intros k [->|Hin]%elem_of_cons; [done|]. specialize (Hnew k Hin).
    destruct (decide (k = flow_key f)) as [->|Hne]; [done|]. by rewrite dict_get_set_ne in Hnew.
Qed.

Lemma record_flows_get table flows k : dict_get k (record_flows table flows) = None ↔
  dict_get k table = None ∧ k ∉ flow_key <$> flows.
Proof.
  unfold record_flows. revert table. induction flows as [|f flows IH]; intros table; cbn; [set_solver|].
  rewrite IH, not_elem_of_cons. destruct (decide (k = flow_key f)) as [->|Hne].
  - rewrite dict_get_set. naive_solver.
  - rewrite dict_get_set_ne by done. naive_solver.
Qed.

Lemma apply_funding_spec table d flows expected table' n d' : apply_funding table d flows expected = Ok (table', (n, d')) →
  let fresh := fresh_flows table flows in
  table' = record_flows table fresh ∧ n = length fresh ∧ Deployment.terms d' = Deployment.terms d ∧
  (fresh = [] ∧ d' = d ∨
   fresh ≠ [] ∧ Deployment.cash d' = (Deployment.cash d + dsum (FundingCashFlow.amount <$> fresh))%dec ∧
   Deployment.revision d' = Deployment.revision d + 1).
Proof.
  unfold apply_funding. intros ([] & _ & H)%bind_Ok. apply bind_Ok in H as ([[t total] applied] & Hf & H).
  apply insert_flows_spec in Hf. injection Hf as -> -> ->. cbn [Nat.add] in H.
  destruct (fresh_flows table flows) as [|f fresh] eqn:E; cbn [length] in H.
  - injection H as <- <- <-. repeat split. by left.
  - destruct flows as [|g flows]; [done|]. injection H as <- <- <-. repeat split. right. by split.
Qed.

(** A sequence of calls, each with the revision it expects; a refused call changes nothing. *)
Fixpoint charge (table : dict funding_key FundingCashFlow) (d : Deployment) (calls : list (list FundingCashFlow * option Z))
    : dict funding_key FundingCashFlow * Deployment * list (list FundingCashFlow) :=
  match calls with
  | [] => (table, d, [])
  | (flows, expected) :: calls =>
      match apply_funding table d flows expected with
      | Ok (table', (S _, d')) =>
          let '(t, e, charged) := charge table' d' calls in (t, e, fresh_flows table flows :: charged)
      | Ok (table', (O, d')) => charge table' d' calls
      | Raise _ => charge table d calls
      end
  end.

Definition charged_cash (cash : decimal) (charged : list (list FundingCashFlow)) : decimal :=
  fold_left (λ c fresh, (c + dsum (FundingCashFlow.amount <$> fresh))%dec) charged cash.

(** C37: A funding hour is charged at most once. Over any sequence of calls (repeated flows,
    overlapping windows, refused revisions) the cash ends at the old cash plus, per successful
    call, the sum of the hours that call recorded; over the whole sequence no hour is recorded
    twice and none that the table already held is charged; every charge raises the revision. *)
Theorem funding_hour_charged_once table d calls :
  let '(table', d', charged) := charge table d calls in
  Deployment.cash d' = charged_cash (Deployment.cash d) charged ∧
  Deployment.revision d' = Deployment.revision d + Z.of_nat (length charged) ∧
  NoDup (flow_key <$> concat charged) ∧
  (∀ k, dict_get k table' = None ↔ dict_get k table = None ∧ k ∉ flow_key <$> concat charged) ∧
  (∀ k, k ∈ flow_key <$> concat charged → dict_get k table = None).
Proof.
  revert table d. induction calls as [|[flows expected] calls IH]; intros table d; cbn [charge].
  - cbn. split; [done|]. split; [lia|]. split; [constructor|]. split; [|set_solver]. intros k. set_solver.
  - destruct (apply_funding table d flows expected) as [[table' [[|n] d']]|e] eqn:E; [| |apply IH];
      apply apply_funding_spec in E as (-> & Hn & _ & [[Hnil ->]|(Hfresh & Hc & Hr)]).
    + rewrite Hnil. apply IH.
    + by destruct (fresh_flows table flows).
    + by rewrite Hnil in Hn.
    + specialize (IH (record_flows table (fresh_flows table flows)) d'). destruct (charge _ d' calls) as [[t e] charged].
      destruct IH as (IHc & IHr & IHn & IHt & IHk). destruct (fresh_flows_keys table flows) as [Hnd Hnew].
      cbn [length concat charged_cash fold_left]. rewrite fmap_app. split; [by rewrite IHc, Hc|]. split; [lia|].
      split; [|split].
      * apply NoDup_app. split; [done|]. split; [|done]. intros k Hk Hk'. apply IHk, record_flows_get in Hk' as [_ Hk']. done.
      * intros k. rewrite IHt, record_flows_get, not_elem_of_app. naive_solver.
      * intros k [Hk|Hk]%elem_of_app; [by apply Hnew|]. by apply IHk, record_flows_get in Hk as [Hk _].
Qed.

End Funding.

(** ** The in-memory store charges an hour that one call names twice *)

Definition demo_flow : FundingCashFlow := {|
  FundingCashFlow.deployment_id := "d1"; FundingCashFlow.product_id := "BTC-USD"; FundingCashFlow.funding_time := demo_hour 1;
  FundingCashFlow.signed_quantity := of_Z 1; FundingCashFlow.mark_price := of_Z 100; FundingCashFlow.rate := Dec 1 (-2);
  FundingCashFlow.amount := of_Z (-1); FundingCashFlow.applied_at := demo_hour 1 |}.

Lemma memory_store_charges_named_twice :
  match apply_funding_transaction (dc := default_context) demo_store "d1" [demo_flow; demo_flow] None with
  | Ok (s, (n, snapshot)) => n = 2%nat ∧ length (funding s) = 1%nat ∧
      Deployment.cash (DeploymentSnapshot.deployment snapshot) = of_Z 998
  | Raise _ => False
  end ∧
  match apply_funding (dc := default_context) [] demo_deployment [demo_flow; demo_flow] None with
  | Ok (table, (n, d)) => n = 1%nat ∧ length table = 1%nat ∧ Deployment.cash d = of_Z 999
  | Raise _ => False
  end.
Proof. vm_compute. repeat split. Qed.
