(* ===== verification/Protection.v ===== *)
(** * Protection: is a live book really covered by a stop ([trading/protection*.py])

    [protection_orders.py] reduces the orders of a product to one observation per venue
    identity and classifies each; [protection_evidence.py] folds the classifications into an
    evidence record; [protection.py] holds the public questions. Flags are sets of reason
    codes. Instants are aware by construction, so [_aware] is the identity. *)

From S2P Require Import Prelude Decimals DecimalFacts Market Geometry Containers TradingModels FillLedger ExecutionStore.

Open Scope Z_scope.

(** ** Vocabulary ([protection_models.py]) *)

Definition _ACTIVE_STATUSES : list OrderStatus := [OrderStatus.PENDING; OrderStatus.OPEN; OrderStatus.UNKNOWN].
Definition is_active (o : Order) : bool := bool_decide (Order.status o ∈ _ACTIVE_STATUSES).
Definition _STOP_PURPOSES : list IntentPurpose := [IntentPurpose.STOP; IntentPurpose.BRACKET].
Definition LOCAL_EVIDENCE_MAX_AGE : timedelta := 120 * second.

Inductive ObservationSource := venue_order_state | persisted_order | synthetic_worker | no_source.
Inductive Freshness := recent_venue | stale | unknown_freshness.
Inductive GeometryBasis := working_target | stop_limit_trigger | unknown_basis.

Definition PROTECTION_REASONS : list string := [
  "flat"; "inventory_projection_unresolved"; "runtime_position_unresolved"; "fill_economics_unsettled";
  "inventory_evidence_incomplete"; "synthetic_worker_dependent"; "venue_stop_resting"; "duplicate_order_ignored";
  "take_profit_only"; "closing_side_mismatch"; "stop_price_mismatch"; "stale_bracket"; "stop_geometry_invalid";
  "stop_geometry_unknown"; "unsupported_stop_kind"; "venue_identity_missing"; "local_observation_only";
  "venue_evidence_stale"; "observation_time_unknown"; "observation_time_future"; "stop_quantity_short";
  "partial_stop_quantity"; "pending_not_confirmed"; "unknown_not_confirmed"; "no_resting_stop"].

Module ProtectionStatus.
Inductive ProtectionStatus := FLAT | COVERED | UNPROTECTED | UNKNOWN.
#[global] Instance eq_dec : EqDecision ProtectionStatus. Proof. solve_decision. Defined.
End ProtectionStatus.
Notation ProtectionStatus := ProtectionStatus.ProtectionStatus.

Module ProtectionMechanism.
Inductive ProtectionMechanism := VENUE | SYNTHETIC | NONE | UNVERIFIED.
End ProtectionMechanism.
Notation ProtectionMechanism := ProtectionMechanism.ProtectionMechanism.

Module PositionState.
Inductive PositionState := FLAT | ENTERING | OPEN_PROTECTED | OPEN_UNPROTECTED | OPEN_UNVERIFIED | EXITING.
#[global] Instance eq_dec : EqDecision PositionState. Proof. solve_decision. Defined.
End PositionState.
Notation PositionState := PositionState.PositionState.

Definition _STATE_PRIORITY : list PositionState :=
  [PositionState.EXITING; PositionState.OPEN_UNPROTECTED; PositionState.OPEN_UNVERIFIED; PositionState.OPEN_PROTECTED].

Definition _OPEN_STATE (s : ProtectionStatus) : PositionState :=
  match s with
  | ProtectionStatus.FLAT => PositionState.FLAT
  | ProtectionStatus.COVERED => PositionState.OPEN_PROTECTED
  | ProtectionStatus.UNPROTECTED => PositionState.OPEN_UNPROTECTED
  | ProtectionStatus.UNKNOWN => PositionState.OPEN_UNVERIFIED
  end.

Record ProtectionEvidence := mk_evidence {
  status : ProtectionStatus;
  required_quantity : option decimal;
  covered_quantity : option decimal;
  uncovered_quantity : option decimal;
  stop_side : option OrderSide;
  stop_side_valid : bool;
  stop_geometry_valid : bool;
  mechanism : ProtectionMechanism;
  venue_resting : bool;
  worker_dependent : bool;
  observed_at : option datetime;
  verified_at : option datetime;
  observation_source : ObservationSource;
  freshness : Freshness;
  evaluated_at : datetime;
  freshness_max_age_seconds : Z;
  geometry_basis : GeometryBasis;
  reasons : list string
}.

(** ** Classification of one order ([protection_orders.py]) *)

Inductive _HitRole := confirmed | pending | unknown | ignored.
#[global] Instance _HitRole_eq_dec : EqDecision _HitRole.
Proof. solve_decision. Defined.

Abbreviation flags := (gset string).

Record _Hit := mk_hit {
  hit_remaining : decimal;
  role : _HitRole;
  hit_flags : flags;
  hit_observed_at : option datetime;
  hit_side_valid : bool;
  hit_geometry_valid : bool
}.

Record _Fold := mk_fold {
  fold_confirmed : decimal;
  fold_pending : bool;
  fold_unknown : bool;
  fold_flags : flags;
  fold_observed_at : option datetime;
  fold_verified_at : option datetime;
  fold_side_valid : bool;
  fold_geometry_valid : bool
}.

(** [replace(order, status=OrderStatus.UNKNOWN, venue_observed_at=None)] *)
Definition unresolved_order (o : Order) : Order :=
  Order.mk (Order.id o) (Order.deployment_id o) (Order.intent_id o) (Order.client_order_id o) (Order.side o) (Order.kind o)
    (Order.quantity o) OrderStatus.UNKNOWN (Order.created_at o) (Order.updated_at o) (Order.price o) (Order.filled_quantity o)
    (Order.venue_order_id o) (Order.reject_reason o) (Order.stop_trigger_price o) (Order.take_profit_price o)
    (Order.product_id o) (Order.parent_order_id o) (Order.attached_child_venue_order_id o) (Order.pyramid_add o) None
    (Order.canceled_at o) (Order.settled_at o).

Definition _venue_observed (o : Order) : option datetime :=
  if decide (Order.status o = OrderStatus.UNKNOWN) then None else Order.venue_observed_at o.

Definition same_geometry (a b : Order) : bool :=
  bool_decide (Order.side a = Order.side b) && bool_decide (Order.kind a = Order.kind b)
  && same_price (Order.stop_trigger_price a) (Order.stop_trigger_price b)
  && same_price (Order.take_profit_price a) (Order.take_profit_price b) && same_price (Order.price a) (Order.price b).

Definition _parent_attached_venue_id (s : DeploymentSnapshot) (o : Order) : option string :=
  match Order.parent_order_id o with
  | None => None
  | Some parent_id =>
      List.find (λ p, bool_decide (Order.id p = parent_id) && bool_decide (is_Some (truthy (Order.attached_child_venue_order_id p))))
        (DeploymentSnapshot.orders s) ≫= Order.attached_child_venue_order_id
  end.

Definition _cover_identity (s : DeploymentSnapshot) (o : Order) : string :=
  match truthy (Order.venue_order_id o) with
  | Some venue => "venue:" +:+ venue
  | None => match _parent_attached_venue_id s o with
            | Some child => "venue:" +:+ child
            | None => "order:" +:+ Order.id o
            end
  end.

Section Classification.
Context {dc : DecimalContext}.

Definition _remaining (o : Order) : decimal :=
  let remaining := (Order.quantity o - Order.filled_quantity o)%dec in
  if (d0 <? remaining)%dec then remaining else d0.

Definition _prefer_duplicate (left right : Order) : Order :=
  let smaller := if (_remaining left <=? _remaining right)%dec then left else right in
  let conflict := unresolved_order smaller in
  if negb (same_geometry left right) || negb (Order.quantity left =? Order.quantity right)%dec then conflict
  else
    match _venue_observed left, _venue_observed right with
    | Some left_time, Some right_time =>
        if left_time =? right_time then
          if decide (Order.status left = Order.status right) then smaller else conflict
        else
          let '(newer, older) := if right_time <? left_time then (left, right) else (right, left) in
          if negb (is_active older) && is_active newer then conflict
          else if (_remaining older <? _remaining newer)%dec then conflict
          else newer
    | _, _ => conflict
    end.

Definition observed_le (a b : Order) : bool :=
  match _venue_observed a, _venue_observed b with
  | None, _ => true
  | Some _, None => false
  | Some x, Some y => x <=? y
  end.

(** One observation per identity; was any identity seen twice? *)
Definition dedupe_step (s : DeploymentSnapshot) (st : dict string Order * bool) (o : Order) : dict string Order * bool :=
  let '(chosen, duplicate) := st in
  let key := _cover_identity s o in
  match dict_get key chosen with
  | None => (dict_set key o chosen, duplicate)
  | Some prior => (dict_set key (_prefer_duplicate prior o) chosen, true)
  end.

Definition _deduped_active (s : DeploymentSnapshot) (product_id : string) : list Order * bool :=
  let ordered := sort_by observed_le (_orders_for s product_id) in
  let '(chosen, duplicate) := fold_left (dedupe_step s) ordered ([], false) in
  (dict_values chosen, duplicate).

Definition purposes_of (s : DeploymentSnapshot) : dict UUID IntentPurpose :=
  fold_left (λ d i, dict_set (OrderIntent.id i) (OrderIntent.purpose i) d) (DeploymentSnapshot.intents s) [].

Definition _wrong_side_flags (o : Order) (purposes : dict UUID IntentPurpose) : flags :=
  let protective := match dict_get (Order.intent_id o) purposes with
    | Some p => bool_decide (p ∈ _STOP_PURPOSES) || bool_decide (p = IntentPurpose.TAKE_PROFIT)
    | None => false end in
  if protective || is_venue_protection (Order.kind o) then {["closing_side_mismatch"]} else ∅.

Definition _take_profit_only (o : Order) (purposes : dict UUID IntentPurpose) : bool :=
  match dict_get (Order.intent_id o) purposes with
  | Some IntentPurpose.TAKE_PROFIT => true
  | purpose =>
      if bool_decide (is_Some (Order.stop_trigger_price o)) || is_venue_protection (Order.kind o) then false
      else bool_decide (purpose = None) && bool_decide (Order.kind o = OrderKind.POST_ONLY_LIMIT)
  end.

Definition _unsupported_kind_flags (o : Order) (purposes : dict UUID IntentPurpose) : flags :=
  let stop_purpose := match dict_get (Order.intent_id o) purposes with Some p => bool_decide (p ∈ _STOP_PURPOSES) | None => false end in
  if stop_purpose || bool_decide (is_Some (Order.stop_trigger_price o)) then {["unsupported_stop_kind"]} else ∅.

Definition _missing_trigger_flags (o : Order) : flags :=
  if decide (Order.status o = OrderStatus.UNKNOWN) then {["unknown_not_confirmed"]} else {["stop_geometry_invalid"]}.

Definition _price_mismatch_flags (o : Order) : flags :=
  if bool_decide (Order.kind o = OrderKind.TRIGGER_BRACKET) || bool_decide (is_Some (Order.take_profit_price o))
  then {["stop_price_mismatch"; "stale_bracket"]} else {["stop_price_mismatch"]}.

Definition _bracket_target (o : Order) : option decimal :=
  match Order.take_profit_price o with
  | Some target => Some target
  | None => if decide (Order.kind o = OrderKind.TRIGGER_BRACKET) then Order.price o else None
  end.

Definition _target_matches (o : Order) (p : Position) : bool :=
  if decide (Order.kind o = OrderKind.STOP_LIMIT) then bool_decide (Order.take_profit_price o = None)
  else
    match _bracket_target o with
    | None => negb (bool_decide (Order.kind o = OrderKind.TRIGGER_BRACKET))
    | Some observed =>
        match Position.target_price p with
        | None => false
        | Some target =>
            (observed =? target)%dec
            && match Order.price o with None => true | Some price => (price =? target)%dec end
        end
    end.

Definition _stop_limit_flags (o : Order) (p : Position) : flags :=
  match Order.price o, Order.stop_trigger_price o with
  | Some limit, Some trigger =>
      if ((limit <=? d0) || (trigger <=? d0))%dec then {["stop_geometry_invalid"]}
      else
        let valid := match Position.side p with SHORT => (trigger <=? limit)%dec | LONG => (limit <=? trigger)%dec end in
        if valid then ∅ else {["stop_geometry_invalid"]}
  | _, _ => {["stop_geometry_unknown"]}
  end.

(** [book_ok]: the book's own stop geometry, [None] when it cannot be judged. *)
Definition _geometry_flags (o : Order) (p : Position) (book_ok : option bool) : flags :=
  if bool_decide (book_ok = Some false) then {["stop_geometry_invalid"]}
  else
    match Order.stop_trigger_price o with
    | None => _missing_trigger_flags o
    | Some trigger =>
        if negb (trigger =? Position.stop_price p)%dec then _price_mismatch_flags o
        else if negb (_target_matches o p) then {["stale_bracket"]}
        else if decide (Order.kind o = OrderKind.STOP_LIMIT) then _stop_limit_flags o p
        else if bool_decide (book_ok = None) then {["stop_geometry_unknown"]} else ∅
    end.

Definition _observation_flags (observed : option datetime) (now : datetime) (venue_identity : bool) : flags :=
  (if venue_identity then ∅ else {["venue_identity_missing"]}) ∪
  match observed with
  | None => {["observation_time_unknown"]}
  | Some observed =>
      if now <? observed then {["observation_time_future"]}
      else if LOCAL_EVIDENCE_MAX_AGE <? now - observed then {["venue_evidence_stale"]} else ∅
  end.

Definition _unreadable_role (o : Order) (found : flags) : _HitRole :=
  if decide ("stop_geometry_unknown" ∈ found) then unknown
  else if decide (Order.status o = OrderStatus.UNKNOWN ∧ "unknown_not_confirmed" ∈ found) then unknown
  else ignored.

Definition _open_role (o : Order) : _HitRole :=
  match Order.status o with
  | OrderStatus.OPEN => confirmed
  | OrderStatus.PENDING => pending
  | OrderStatus.UNKNOWN => unknown
  | _ => ignored
  end.

Definition _classify_order (o : Order) (p : Position) (closing : OrderSide) (book_ok : option bool)
    (purposes : dict UUID IntentPurpose) (venue_identity : bool) (now : datetime) : _Hit :=
  let observed := _venue_observed o in
  if negb (is_active o) then mk_hit d0 ignored ∅ None false false
  else if negb (bool_decide (Order.side o = closing)) then mk_hit d0 ignored (_wrong_side_flags o purposes) None false false
  else if _take_profit_only o purposes then mk_hit d0 ignored {["take_profit_only"]} None false false
  else if negb (is_venue_protection (Order.kind o)) then
    let found := _unsupported_kind_flags o purposes in
    mk_hit d0 (if bool_decide (Order.status o = OrderStatus.UNKNOWN) && negb (bool_decide (found = ∅)) then unknown else ignored)
      found None false false
  else
    let geometry := _geometry_flags o p book_ok in
    if decide (Order.status o = OrderStatus.UNKNOWN) then
      mk_hit d0 unknown (_observation_flags observed now venue_identity ∪ geometry ∪ {["unknown_not_confirmed"]}) observed
        true (bool_decide (geometry = ∅))
    else if negb (bool_decide (geometry = ∅)) then mk_hit d0 (_unreadable_role o geometry) geometry None true false
    else if (_remaining o <=? d0)%dec then mk_hit d0 ignored {["stop_quantity_short"]} None true true
    else
      let found := _observation_flags observed now venue_identity in
      let role := if negb (bool_decide (found = ∅)) && bool_decide (_open_role o = confirmed) then unknown else _open_role o in
      let found := if bool_decide (observed = None) then found ∪ {["local_observation_only"]} else found in
      mk_hit (_remaining o) role found observed true true.

Definition _later (current candidate : option datetime) : option datetime :=
  match candidate, current with
  | None, _ => current
  | Some c, None => Some c
  | Some c, Some k => if k <? c then Some c else current
  end.

Definition earlier (current candidate : option datetime) : option datetime :=
  match current, candidate with
  | None, c => c
  | Some k, Some c => Some (Z.min k c)
  | Some k, None => Some k
  end.

Definition _fold_hits (hits : list _Hit) (duplicate : bool) : _Fold :=
  let of_role r := List.filter (λ h, bool_decide (role h = r)) hits in
  {| fold_confirmed := dsum (hit_remaining <$> of_role confirmed);
     fold_pending := existsb (λ h, bool_decide (role h = pending)) hits;
     fold_unknown := existsb (λ h, bool_decide (role h = unknown)) hits;
     fold_flags := (if duplicate then {["duplicate_order_ignored"]} else ∅) ∪ ⋃ (hit_flags <$> hits);
     fold_observed_at := fold_left (λ c h, _later c (hit_observed_at h)) hits None;
     fold_verified_at := fold_left (λ c h, earlier c (hit_observed_at h)) (of_role confirmed) None;
     fold_side_valid := existsb hit_side_valid hits;
     fold_geometry_valid := existsb hit_geometry_valid hits |}.

End Classification.

(** ** Evidence ([protection_evidence.py]) *)

Definition max_age_seconds : Z := LOCAL_EVIDENCE_MAX_AGE / second.

Definition _flat_evidence (now : datetime) : ProtectionEvidence :=
  mk_evidence ProtectionStatus.FLAT (Some d0) (Some d0) (Some d0) None false false ProtectionMechanism.NONE false false
    None None no_source unknown_freshness now max_age_seconds unknown_basis ["flat"].

Definition _unresolved_evidence (now : datetime) (found : list string) : ProtectionEvidence :=
  let flat := _flat_evidence now in
  mk_evidence ProtectionStatus.UNKNOWN None None None (stop_side flat) (stop_side_valid flat) (stop_geometry_valid flat)
    ProtectionMechanism.UNVERIFIED (venue_resting flat) (worker_dependent flat) (observed_at flat) (verified_at flat)
    (observation_source flat) (freshness flat) (evaluated_at flat) (freshness_max_age_seconds flat) (geometry_basis flat) found.

Definition _closing_side (p : Position) : OrderSide := match Position.side p with SHORT => BUY | LONG => SELL end.

Definition _book_stop_on_protective_side (p : Position) : option bool :=
  let stop := Position.stop_price p in
  if (stop <=? d0)%dec then Some false
  else
    match Position.target_price p with
    | None => None
    | Some target =>
        if (target <=? d0)%dec then Some false
        else Some (match Position.side p with SHORT => (target <? stop)%dec | LONG => (stop <? target)%dec end)
    end.

(** Known reasons in contract order, then any other code sorted. *)
Definition _ordered_reasons (found : flags) : list string :=
  List.filter (λ code, bool_decide (code ∈ found)) PROTECTION_REASONS
  ++ sort_by String.leb (List.filter (λ code, negb (bool_decide (code ∈ PROTECTION_REASONS))) (elements found)).

Definition _paper_evidence (p : Position) (now : datetime) : ProtectionEvidence :=
  let geometry_ok := _book_stop_on_protective_side p in
  let found : flags := {["synthetic_worker_dependent"]} ∪
    match geometry_ok with
    | None => {["stop_geometry_unknown"]}
    | Some false => {["stop_geometry_invalid"]}
    | Some true => ∅
    end in
  mk_evidence ProtectionStatus.COVERED (Some (Position.quantity p)) (Some (Position.quantity p)) (Some d0)
    (Some (_closing_side p)) true (bool_decide (geometry_ok = Some true)) ProtectionMechanism.SYNTHETIC false true
    None None synthetic_worker unknown_freshness now max_age_seconds
    (if bool_decide (geometry_ok = None) then unknown_basis else working_target) (_ordered_reasons found).

Definition _fold_freshness (fold : _Fold) : Freshness :=
  if decide ("venue_evidence_stale" ∈ fold_flags fold) then stale
  else if bool_decide (fold_verified_at fold = None)
       || negb (bool_decide (fold_flags fold ∩ {["observation_time_unknown"; "observation_time_future"; "venue_identity_missing"]} = ∅))
  then unknown_freshness
  else recent_venue.

Definition _live_status (covered required : decimal) (fold : _Fold) : ProtectionStatus :=
  if (required <=? covered)%dec then ProtectionStatus.COVERED
  else if fold_pending fold || fold_unknown fold then ProtectionStatus.UNKNOWN
  else ProtectionStatus.UNPROTECTED.

Definition _live_mechanism (st : ProtectionStatus) (fold : _Fold) : ProtectionMechanism :=
  if bool_decide (st = ProtectionStatus.COVERED) || (d0 <? fold_confirmed fold)%dec then ProtectionMechanism.VENUE
  else if decide (st = ProtectionStatus.UNKNOWN) then ProtectionMechanism.UNVERIFIED
  else ProtectionMechanism.NONE.

Definition _live_reasons (st : ProtectionStatus) (fold : _Fold) (covered : decimal) : list string :=
  _ordered_reasons
    (fold_flags fold
     ∪ (if decide (st = ProtectionStatus.COVERED) then {["venue_stop_resting"]}
        else if (d0 <? covered)%dec then {["partial_stop_quantity"]} else ∅)
     ∪ (if fold_pending fold then {["pending_not_confirmed"]} else ∅)
     ∪ (if fold_unknown fold then {["unknown_not_confirmed"]} else ∅)
     ∪ (if bool_decide (st = ProtectionStatus.UNPROTECTED) && (covered =? d0)%dec then {["no_resting_stop"]} else ∅)).

Section Evidence.
Context {dc : DecimalContext}.

Definition _evidence_from_fold (p : Position) (closing : OrderSide) (fold : _Fold) (now : datetime) : ProtectionEvidence :=
  let required := Position.quantity p in
  let covered := if (fold_confirmed fold <? required)%dec then fold_confirmed fold else required in
  let uncovered := (required - covered)%dec in
  let st := _live_status covered required fold in
  mk_evidence st (Some required) (Some covered) (Some uncovered) (Some closing) (fold_side_valid fold) (fold_geometry_valid fold)
    (_live_mechanism st fold) (d0 <? fold_confirmed fold)%dec false (fold_observed_at fold) (fold_verified_at fold)
    (match fold_observed_at fold with
     | Some _ => venue_order_state
     | None => if bool_decide (fold_flags fold = ∅) then no_source else persisted_order
     end)
    (_fold_freshness fold) now max_age_seconds
    (if fold_geometry_valid fold then
       match Position.target_price p with Some _ => working_target | None => stop_limit_trigger end
     else unknown_basis)
    (_live_reasons st fold covered).

(** The classified observations of one live book. *)
Definition live_hits (s : DeploymentSnapshot) (product_id : string) (p : Position) (now : datetime) : list _Hit * bool :=
  let closing := _closing_side p in
  let book_ok := _book_stop_on_protective_side p in
  let scoped := resolved_product_id (if decide (product_id = "") then Position.product_id p else product_id)
                  (DeploymentSnapshot.deployment s) in
  let '(orders, duplicate) := _deduped_active s scoped in
  let purposes := purposes_of s in
  ((λ o, _classify_order o p closing book_ok purposes (String.prefix "venue:" (_cover_identity s o)) now) <$> orders, duplicate).

Definition _live_evidence (s : DeploymentSnapshot) (product_id : string) (p : Position) (now : datetime) : ProtectionEvidence :=
  let '(hits, duplicate) := live_hits s product_id p now in
  _evidence_from_fold p (_closing_side p) (_fold_hits hits duplicate) now.

(** ** Public questions ([protection.py]) *)

Definition occupied_phases : list RuntimePhase := [RuntimePhase.OPEN; RuntimePhase.PENDING_EXIT].

Definition missing_occupied_inventory_products (s : DeploymentSnapshot) : list string :=
  let d := DeploymentSnapshot.deployment s in
  let projected := (λ p, resolved_product_id (Position.product_id p) d) <$>
    List.filter (λ p, (d0 <? Position.quantity p)%dec) (snapshot_positions s) in
  let missing := (λ r, resolved_product_id (InstrumentRuntime.product_id r) d) <$>
    List.filter (λ r : InstrumentRuntime, bool_decide (Runtime.phase r ∈ occupied_phases)
      && negb (bool_decide (resolved_product_id (InstrumentRuntime.product_id r) d ∈ projected)))
      (DeploymentSnapshot.instrument_runtimes s) in
  sorted_set
    (missing ++ (if bool_decide (projected = []) && bool_decide (Runtime.phase d ∈ occupied_phases)
                 then [Deployment.product_id d] else [])).

(** [replace(snapshot, orders=..., fills=...)] *)
Definition with_orders_fills (s : DeploymentSnapshot) (o : list Order) (f : list Fill) : DeploymentSnapshot :=
  DeploymentSnapshot.mk (DeploymentSnapshot.deployment s) (DeploymentSnapshot.position s) o f (DeploymentSnapshot.intents s)
    (DeploymentSnapshot.positions s) (DeploymentSnapshot.instrument_runtimes s) (DeploymentSnapshot.accounting_complete s)
    (DeploymentSnapshot.funding s).

Definition book_inventory_reasons (s : DeploymentSnapshot) (product_id : string) : list string :=
  let product := resolved_product_id product_id (DeploymentSnapshot.deployment s) in
  let orders := _orders_for s product in
  let ids := Order.id <$> orders in
  let known_ids := Order.id <$> DeploymentSnapshot.orders s in
  let fills := List.filter (λ f, bool_decide (Fill.order_id f ∈ ids) || negb (bool_decide (Fill.order_id f ∈ known_ids)))
                 (DeploymentSnapshot.fills s) in
  (if decide (product ∈ unprojected_inventory_products s) then ["inventory_projection_unresolved"] else [])
  ++ (if decide (product ∈ missing_occupied_inventory_products s) then ["runtime_position_unresolved"] else [])
  ++ (if unsettled_fill_evidence (with_orders_fills s orders fills) then ["fill_economics_unsettled"] else []).

Definition book_protection_evidence (s : DeploymentSnapshot) (product_id : string) (position : option Position) (now : datetime)
    : ProtectionEvidence :=
  let found := book_inventory_reasons s product_id in
  let found := if bool_decide (found = []) && bool_decide (position = None) && negb (DeploymentSnapshot.accounting_complete s)
               then ["inventory_evidence_incomplete"] else found in
  match found with
  | _ :: _ => _unresolved_evidence now found
  | [] =>
      match position with
      | None => _flat_evidence now
      | Some p =>
          if (Position.quantity p <=? d0)%dec then _flat_evidence now
          else if decide (Deployment.mode (DeploymentSnapshot.deployment s) = DeploymentMode.PAPER) then _paper_evidence p now
          else _live_evidence s product_id p now
      end
  end.

Definition book_protection_status (s : DeploymentSnapshot) (product_id : string) (position : option Position) (now : datetime)
    : ProtectionStatus := status (book_protection_evidence s product_id position now).

Definition live_stop_absent (s : DeploymentSnapshot) (product_id : string) (position : option Position) (now : datetime) : bool :=
  match position with
  | Some p =>
      if negb (bool_decide (Deployment.mode (DeploymentSnapshot.deployment s) = DeploymentMode.LIVE))
         || (Position.quantity p <=? d0)%dec then false
      else bool_decide ("no_resting_stop" ∈ reasons (_live_evidence s product_id p now))
  | None => false
  end.

Definition book_exit_in_flight (s : DeploymentSnapshot) (product_id : string) (position : option Position) : bool :=
  match position with
  | None => false
  | Some p =>
      let d := DeploymentSnapshot.deployment s in
      if decide (Deployment.lifecycle_command d = LifecycleCommand.FLATTEN) then true
      else if bool_decide (is_Some (Position.signal_exit_bar p)) then true
      else
        let scoped := resolved_product_id (if decide (product_id = "") then Position.product_id p else product_id) d in
        existsb (λ o, bool_decide (Order.kind o = OrderKind.MARKETABLE) && bool_decide (Order.side o = _closing_side p)
          && is_active o && of_product d scoped (Order.product_id o)) (DeploymentSnapshot.orders s)
  end.

Definition book_position_state (s : DeploymentSnapshot) (product_id : string) (position : option Position) (phase : RuntimePhase)
    (evidence : option ProtectionEvidence) (now : datetime) : PositionState :=
  let observed := default (book_protection_evidence s product_id position now) evidence in
  if book_exit_in_flight s product_id position then PositionState.EXITING
  else
    match required_quantity observed, position with
    | None, _ => PositionState.OPEN_UNVERIFIED
    | Some _, None => if decide (phase = RuntimePhase.PENDING_ENTRY) then PositionState.ENTERING else PositionState.FLAT
    | Some _, Some _ =>
        if decide (Deployment.mode (DeploymentSnapshot.deployment s) = DeploymentMode.PAPER) then PositionState.OPEN_PROTECTED
        else _OPEN_STATE (status observed)
    end.

Definition deployment_position_state (s : DeploymentSnapshot) (now : datetime) : PositionState :=
  let d := DeploymentSnapshot.deployment s in
  let states := (λ p, book_position_state s (resolved_product_id (Position.product_id p) d) (Some p) (Runtime.phase d) None now)
                  <$> snapshot_positions s in
  let unresolved := negb (bool_decide (unprojected_inventory_products s = []))
    || negb (bool_decide (missing_occupied_inventory_products s = []))
    || unsettled_fill_evidence s || negb (DeploymentSnapshot.accounting_complete s) in
  let states := states ++ (if unresolved then [PositionState.OPEN_UNVERIFIED] else []) in
  match List.find (λ st, bool_decide (st ∈ states)) _STATE_PRIORITY with
  | Some st => st
  | None => if decide (Runtime.phase d = RuntimePhase.PENDING_ENTRY) then PositionState.ENTERING else PositionState.FLAT
  end.

Definition deployment_exit_in_flight (s : DeploymentSnapshot) (now : datetime) : bool :=
  bool_decide (deployment_position_state s now = PositionState.EXITING).

End Evidence.
