(* ===== verification/ProtectionFacts.v ===== *)
(** * ProtectionFacts: a covered live book really rests behind a stop

    [COVERED] is the one answer an operator may rely on. It is shown to rest on rows of the
    store: distinct venue orders, open, on the closing side, with the book's own trigger,
    observed at the venue within the last two minutes, whose unfilled quantities add up to the
    position. *)

From S2P Require Import Prelude Decimals DecimalFacts Market Geometry Containers TradingModels FillLedger ExecutionStore StoreFacts Protection.

Open Scope Z_scope.

Section Backing.
Context {dc : DecimalContext}.

(** ** One observation per identity *)

Lemma identity_unresolved s o : _cover_identity s (unresolved_order o) = _cover_identity s o.
Proof. done. Qed.

Lemma prefer_duplicate_cases left right :
  (_prefer_duplicate left right = left ∨ _prefer_duplicate left right = right) ∨
  (_prefer_duplicate left right = unresolved_order left ∨ _prefer_duplicate left right = unresolved_order right).
Proof.
  unfold _prefer_duplicate. repeat (case_decide || case_match || destruct (_ <=? _)%dec); simplify_eq; auto.
Qed.

(** A chosen observation is a stored row, unless conflicting reports left it unknown. *)
Definition chosen_ok (s : DeploymentSnapshot) (l : list Order) (chosen : dict string Order) : Prop :=
  dict_wf chosen ∧ ∀ k o, dict_get k chosen = Some o →
    _cover_identity s o = k ∧ (o ∈ l ∨ Order.status o = OrderStatus.UNKNOWN).

Lemma chosen_set s l chosen k o : chosen_ok s l chosen → _cover_identity s o = k → (o ∈ l ∨ Order.status o = OrderStatus.UNKNOWN) →
  chosen_ok s l (dict_set k o chosen).
Proof.
  intros [Hwf Hok] Hk Ho. split; [by apply dict_wf_set|]. intros k' o'.
  destruct (decide (k' = k)) as [->|Hne]; [rewrite dict_get_set; by intros [= <-]|rewrite dict_get_set_ne by done; apply Hok].
Qed.

Lemma dedupe_step_ok s l st o : chosen_ok s l st.1 → o ∈ l → chosen_ok s l (dedupe_step s st o).1.
Proof.
  destruct st as [chosen duplicate]. cbn. intros Hok Ho. destruct (dict_get (_cover_identity s o) chosen) as [prior|] eqn:E; cbn.
  - destruct (proj2 Hok _ _ E) as [Hid Hp].
    destruct (prefer_duplicate_cases prior o) as [[->| ->]|[->| ->]]; apply chosen_set; auto.
  - apply chosen_set; auto.
Qed.

Lemma deduped_ok s product_id : let l := _orders_for s product_id in let orders := (_deduped_active s product_id).1 in
  NoDup (_cover_identity s <$> orders) ∧ ∀ o, o ∈ orders → o ∈ l ∨ Order.status o = OrderStatus.UNKNOWN.
Proof.
  cbn. unfold _deduped_active.
  assert (chosen_ok s (_orders_for s product_id)
    (fold_left (dedupe_step s) (sort_by observed_le (_orders_for s product_id)) ([], false)).1) as [Hwf Hok].
  { assert (∀ k st, (∀ o, o ∈ k → o ∈ _orders_for s product_id) → chosen_ok s (_orders_for s product_id) st.1 →
      chosen_ok s (_orders_for s product_id) (fold_left (dedupe_step s) k st).1) as H.
    { induction k as [|o k IH]; intros st Hk Hst; cbn [fold_left]; [done|].
      apply IH; [intros x Hx; apply Hk; by right|]. apply dedupe_step_ok; [done|apply Hk; left]. }
    apply H; [intros o; by rewrite elem_of_sort_by|]. split; [apply dict_wf_nil|done]. }
  destruct (fold_left _ _ _) as [chosen duplicate]. cbn in *. split.
  - assert (_cover_identity s <$> dict_values chosen = dict_keys chosen) as ->; [|exact Hwf].
    unfold dict_values, dict_keys. rewrite <- list_fmap_compose. apply list_fmap_ext. intros i [k o] Hi. cbn.
    apply Hok. apply dict_elem_get; [done|]. by eapply list_elem_of_lookup_2.
  - intros o (k & Hk)%elem_of_dict_values; [|done]. by apply (Hok k).
Qed.

(** ** What a confirmed classification certifies *)

(** A fresh, identified, executable stop order of this book. *)
Record backing_stop (s : DeploymentSnapshot) (p : Position) (now : datetime) (o : Order) : Prop := {
  backing_open : Order.status o = OrderStatus.OPEN;
  backing_side : Order.side o = _closing_side p;
  backing_kind : is_venue_protection (Order.kind o) = true;
  backing_trigger : ∃ trigger, Order.stop_trigger_price o = Some trigger ∧ trigger ≡ Position.stop_price p;
  backing_limit : Order.kind o = OrderKind.STOP_LIMIT → ∃ limit, Order.price o = Some limit ∧
    match Position.side p with
    | LONG => val limit <= val (Position.stop_price p)
    | SHORT => val (Position.stop_price p) <= val limit
    end%Q;
  backing_remaining : (0 < val (_remaining o))%Q;
  backing_fresh : ∃ t, Order.venue_observed_at o = Some t ∧ t <= now ∧ now - t <= LOCAL_EVIDENCE_MAX_AGE;
  backing_identified : String.prefix "venue:" (_cover_identity s o) = true
}.

Lemma geometry_clear o p book_ok : _geometry_flags o p book_ok = ∅ →
  (∃ trigger, Order.stop_trigger_price o = Some trigger ∧ trigger ≡ Position.stop_price p) ∧
  (Order.kind o = OrderKind.STOP_LIMIT → ∃ limit, Order.price o = Some limit ∧
    match Position.side p with
    | LONG => val limit <= val (Position.stop_price p)
    | SHORT => val (Position.stop_price p) <= val limit
    end%Q).
Proof.
  unfold _geometry_flags. case_bool_decide; [set_solver|].
  destruct (Order.stop_trigger_price o) as [trigger|] eqn:Ht.
  2: { unfold _missing_trigger_flags. case_decide; set_solver. }
  destruct (trigger =? Position.stop_price p)%dec eqn:Heq; cbn [negb].
  2: { unfold _price_mismatch_flags. destruct (_ || _); set_solver. }
  apply deqb_eq in Heq. destruct (_target_matches o p); cbn [negb]; [|set_solver]. intros H0.
  split; [by exists trigger|]. intros Hkind. rewrite decide_True in H0 by done. unfold _stop_limit_flags in H0. rewrite Ht in H0.
  destruct (Order.price o) as [limit|]; [|set_solver]. exists limit. split; [done|].
  destruct (_ || _); [set_solver|]. destruct (Position.side p).
  - destruct (limit <=? trigger)%dec eqn:Hl; [|set_solver]. apply dleb_le in Hl. by rewrite <- Heq.
  - destruct (trigger <=? limit)%dec eqn:Hl; [|set_solver]. apply dleb_le in Hl. by rewrite <- Heq.
Qed.

Lemma observation_clear observed now identity : _observation_flags observed now identity = ∅ →
  identity = true ∧ ∃ t, observed = Some t ∧ t <= now ∧ now - t <= LOCAL_EVIDENCE_MAX_AGE.
Proof.
  unfold _observation_flags. destruct identity; [|set_solver]. intros H. split; [done|].
  destruct observed as [t|]; [|set_solver]. exists t. split; [done|].
  destruct (Z.ltb_spec now t); [set_solver|]. destruct (Z.ltb_spec LOCAL_EVIDENCE_MAX_AGE (now - t)); [set_solver|lia].
Qed.

Lemma classify_confirmed s o p book_ok purposes now :
  let hit := _classify_order o p (_closing_side p) book_ok purposes (String.prefix "venue:" (_cover_identity s o)) now in
  role hit = confirmed → backing_stop s p now o ∧ hit_remaining hit = _remaining o.
Proof.
  cbn zeta. unfold _classify_order. destruct (is_active o); cbn [negb]; [|done].
  case_bool_decide as Hside; cbn [negb]; [|done]. destruct (_take_profit_only _ _); [done|].
  destruct (is_venue_protection (Order.kind o)) eqn:Hkind; cbn [negb].
  2: { cbn [role]. by destruct (_ && _). }
  case_decide as Hunknown; [done|].
  destruct (decide (_geometry_flags o p book_ok = ∅)) as [Hgeo|Hgeo].
  2: { rewrite bool_decide_false by done. cbn [negb role]. unfold _unreadable_role. repeat case_decide; done. }
  rewrite bool_decide_true by done. cbn [negb]. destruct (_remaining o <=? d0)%dec eqn:Hrem; [done|]. cbn [role hit_remaining].
  destruct (decide (_observation_flags (_venue_observed o) now (String.prefix "venue:" (_cover_identity s o)) = ∅)) as [Hobs|Hobs].
  - rewrite bool_decide_true by done. cbn [negb andb]. intros Hrole. split; [|done].
    apply observation_clear in Hobs as [Hidn (t & Ht & Hle & Hage)]. apply geometry_clear in Hgeo as [Htrig Hlim].
    split; [|done|done|done|done| | |done].
    + unfold _open_role in Hrole. by destruct (Order.status o).
    + apply dleb_gt in Hrem. by rewrite val_d0 in Hrem.
    + exists t. unfold _venue_observed in Ht. by case_decide.
  - rewrite bool_decide_false by done. cbn [negb andb]. case_bool_decide; done.
Qed.

Lemma confirmed_sum {A} (f : A → _Hit) (g : A → decimal) l : (∀ x, x ∈ l → role (f x) = confirmed → hit_remaining (f x) = g x) →
  hit_remaining <$> List.filter (λ h, bool_decide (role h = confirmed)) (f <$> l) =
  g <$> List.filter (λ x, bool_decide (role (f x) = confirmed)) l.
Proof.
  induction l as [|x l IH]; intros H; [done|]. rewrite fmap_cons. cbn [List.filter].
  assert (∀ y, y ∈ l → role (f y) = confirmed → hit_remaining (f y) = g y) as Hl by (intros y Hy; apply H; by right).
  case_bool_decide as E; [|by apply IH]. rewrite !fmap_cons, (IH Hl). f_equal. by apply H; [left|].
Qed.

Lemma fmap_sublist_filter {A B} (g : A → B) (f : A → bool) l : g <$> List.filter f l `sublist_of` g <$> l.
Proof. induction l as [|x l IH]; cbn; [constructor|]. destruct (f x); by constructor. Qed.

(** C3: Cover is never imagined. If a live book with inventory is reported covered, the store
    holds distinct venue stop orders for it, each open, on the closing side, at the book's own
    trigger (a stop-limit's limit on the marketable side of it), observed at the venue at most
    two minutes ago and not in the future, whose unfilled quantities sum to at least the
    position. *)
Theorem covered_book_is_backed s product_id p now :
  Deployment.mode (DeploymentSnapshot.deployment s) = DeploymentMode.LIVE → (0 < val (Position.quantity p))%Q →
  book_protection_status s product_id (Some p) now = ProtectionStatus.COVERED →
  ∃ stops, Forall (backing_stop s p now) stops ∧ NoDup (_cover_identity s <$> stops) ∧
    (∀ o, o ∈ stops → o ∈ DeploymentSnapshot.orders s) ∧
    (val (Position.quantity p) <= val (dsum (_remaining <$> stops)))%Q.
Proof.
  intros Hlive Hq. unfold book_protection_status, book_protection_evidence.
  destruct (if _ : bool then _ else _); [|done]. assert ((Position.quantity p <=? d0)%dec = false) as ->.
  { apply dleb_gt. by rewrite val_d0. }
  rewrite decide_False by congruence. unfold _live_evidence, live_hits.
  set (scoped := resolved_product_id _ _). pose proof (deduped_ok s scoped) as [Hnd Hrows].
  destruct (_deduped_active s scoped) as [orders duplicate]. cbn [fst] in Hnd, Hrows.
  set (classify := λ o, _classify_order _ _ _ _ _ _ _).
  cbn [status]. unfold _evidence_from_fold. cbn [status]. unfold _live_status. intros Hst.
  assert (∀ o, o ∈ orders → role (classify o) = confirmed → hit_remaining (classify o) = _remaining o) as Hrem.
  { intros o _ Ho. by apply (classify_confirmed s) in Ho as [_ Ho]. }
  exists (List.filter (λ o, bool_decide (role (classify o) = confirmed)) orders). split; [|split; [|split]].
  - apply Forall_forall. intros o (_ & Ho)%list_elem_of_In%filter_In. apply bool_decide_eq_true in Ho.
    by apply (classify_confirmed s) in Ho as [Ho _].
  - eapply sublist_NoDup; [exact Hnd|]. apply fmap_sublist_filter.
  - intros o (Hin & Ho)%list_elem_of_In%filter_In. apply bool_decide_eq_true in Ho. apply list_elem_of_In in Hin.
    apply (classify_confirmed s) in Ho as [Ho _]. destruct (Hrows o Hin) as [Hl|Hu]; [|by rewrite (backing_open _ _ _ _ Ho) in Hu].
    unfold _orders_for in Hl. by apply list_elem_of_In, filter_In in Hl as [Hl%list_elem_of_In _].
  - rewrite <- (confirmed_sum classify _remaining orders Hrem).
    unfold _fold_hits in Hst. cbn [fold_confirmed fold_pending fold_unknown] in Hst.
    destruct (dsum _ <? Position.quantity p)%dec eqn:Hlt; [|by apply dltb_ge in Hlt].
    apply dltb_lt in Hlt. destruct (Position.quantity p <=? _)%dec eqn:Hle; [|by destruct (_ || _)].
    apply dleb_le in Hle. lra.
Qed.

End Backing.

(** ** A worked live book: two coins behind a stop-limit *)

Definition live_terms : Deployment.Terms := {|
  Deployment.id := "d1"; Deployment.strategy_fingerprint := Some "sha256:a"; Deployment.strategy_id := Some "s1";
  Deployment.product_id := "BTC-USD"; Deployment.mode := DeploymentMode.LIVE; Deployment.created_at := demo_hour 0;
  Deployment.paper_starting_cash := None; Deployment.paper_maker_fee_rate := None; Deployment.paper_taker_fee_rate := None;
  Deployment.kind := DeploymentKind.STRATEGY; Deployment.timeframe := Some "1h"; Deployment.strategy_name := None;
  Deployment.portfolio_id := None |}.

Definition live_deployment : Deployment := Deployment.mk live_terms demo_capital (Runtime.blank RuntimePhase.OPEN)
  DeploymentStatus.RUNNING (of_Z 800) (demo_hour 1) None false None 7 None None LifecycleCommand.NONE false false None None.

Definition live_position : Position := Position.mk "d1" (of_Z 2) (of_Z 100) (of_Z 90) None (demo_hour 0) (demo_hour 1) None LONG "BTC-USD" 1 None.

Definition resting_stop : Order := Order.mk "o9" "d1" "i9" "d1:stop:1" SELL OrderKind.STOP_LIMIT (of_Z 2) OrderStatus.OPEN (demo_hour 1) (demo_hour 1)
  (Some (of_Z 85)) d0 (Some "v9") None (Some (of_Z 90)) None "BTC-USD" None None false (Some (demo_hour 2)) None None.

Definition live_snapshot : DeploymentSnapshot := DeploymentSnapshot.mk live_deployment (Some live_position) [resting_stop] [] []
  [live_position] [] true [].

Lemma covered_book_is_backed_witness :
  book_protection_status (dc := default_context) live_snapshot "BTC-USD" (Some live_position) (demo_hour 2 + 60 * second) = ProtectionStatus.COVERED ∧
  ∃ stops, Forall (backing_stop (dc := default_context) live_snapshot live_position (demo_hour 2 + 60 * second)) stops ∧
    (∀ o, o ∈ stops → o ∈ [resting_stop]).
Proof.
  assert (book_protection_status (dc := default_context) live_snapshot "BTC-USD" (Some live_position) (demo_hour 2 + 60 * second) = ProtectionStatus.COVERED) as E by (vm_compute; reflexivity).
  split; [exact E|].
  destruct (covered_book_is_backed (dc := default_context) live_snapshot "BTC-USD" live_position (demo_hour 2 + 60 * second) eq_refl eq_refl E)
    as (stops & H1 & _ & H2 & _).
  exists stops. split; [exact H1|exact H2].
Defined.

(** The same stop observed three minutes ago is not cover. *)
Example stale_stop_is_not_cover :
  book_protection_status (dc := default_context) live_snapshot "BTC-USD" (Some live_position) (demo_hour 2 + 180 * second) = ProtectionStatus.UNKNOWN.
Proof. by vm_compute. Qed.
