(* ===== verification/Ledger.v ===== *)
(** * Ledger: profit and drawdown from recorded fills ([trading/ledger.py], [trading/performance.py])

    The ledger folds a book's fills, oldest first, into one average-cost lot: realized profit,
    the open quantity with its entry price, and the entry fees not yet allocated. Open
    inventory without a mark leaves totals unset. Several books share one cash balance. *)

From Stdlib Require Import Ascii.
From S2P Require Import Prelude Decimals Market Geometry Containers DecimalText TradingModels FillLedger ExecutionStore Protection.

Open Scope Z_scope.

Definition PAPER_MAKER_FEE_RATE : decimal := Dec 1 (-3).
Definition PAPER_TAKER_FEE_RATE : decimal := Dec 2 (-3).
Definition MAX_PAPER_FEE_RATE : decimal := Dec 1 (-1).
Definition MAX_POSITION_FEE_FILLS : nat := 1000.

Record LedgerFill := {
  ledger_side : OrderSide;
  ledger_price : decimal;
  ledger_quantity : decimal;
  ledger_fee : decimal;
  ledger_filled_at : datetime
}.

Record ProductBookLedger := mk_book {
  book_product_id : string;
  book_base_quantity : option decimal;
  book_mark_price : option decimal;
  book_realized_net_pnl : decimal;
  book_unrealized_net_pnl : option decimal;
  book_total_net_pnl : option decimal;
  book_trade_count : Z;
  book_mark_complete : bool
}.

Record DeploymentLedger := mk_ledger {
  starting_cash : decimal;
  cash : decimal;
  base_quantity : option decimal;
  mark_price : option decimal;
  equity : option decimal;
  realized_net_pnl : decimal;
  unrealized_net_pnl : option decimal;
  total_net_pnl : option decimal;
  total_return_fraction : option decimal;
  total_fees : decimal;
  maximum_drawdown : option decimal;
  maximum_drawdown_fraction : option decimal;
  trade_count : Z;
  mark_complete : bool;
  books : list ProductBookLedger;
  marked_exposure : option decimal;
  accounting_complete : bool
}.

(** [total_net_pnl_text] and its siblings: canonical text, or nothing. *)
Definition total_net_pnl_text (l : DeploymentLedger) : option (list ascii) := canonical_decimal <$> total_net_pnl l.
Definition total_return_fraction_text (l : DeploymentLedger) : option (list ascii) := canonical_decimal <$> total_return_fraction l.
Definition maximum_drawdown_fraction_text (l : DeploymentLedger) : option (list ascii) :=
  canonical_decimal <$> maximum_drawdown_fraction l.

(** ** Paper fees *)

Definition LIVE_FEES_REFUSED : error := ValueError "Live deployments do not accept paper fee rates.".
Definition FEES_INCOMPLETE : error := ValueError "Paper fee rates require both maker_fee_rate and taker_fee_rate.".
Definition FEE_OUT_OF_RANGE : error := ValueError "Paper fee rates must be finite decimals in [0, 0.1].".
Definition FEES_INVERTED : error := ValueError "maker_fee_rate must not exceed taker_fee_rate.".

Definition _require_paper_fee_pair (maker taker : decimal) : result unit :=
  let in_range rate := ((d0 <=? rate) && (rate <=? MAX_PAPER_FEE_RATE))%dec in
  _ ← guard_or (in_range maker) FEE_OUT_OF_RANGE;
  _ ← guard_or (in_range taker) FEE_OUT_OF_RANGE;
  guard_or (maker <=? taker)%dec FEES_INVERTED.

Definition resolve_paper_fee_schedule (live : bool) (maker taker : option decimal)
    : result (option decimal * option decimal) :=
  if live then
    match maker, taker with None, None => Ok (None, None) | _, _ => Raise LIVE_FEES_REFUSED end
  else
    match maker, taker with
    | None, None => Ok (Some PAPER_MAKER_FEE_RATE, Some PAPER_TAKER_FEE_RATE)
    | Some m, Some t => _ ← _require_paper_fee_pair m t; Ok (Some m, Some t)
    | _, _ => Raise FEES_INCOMPLETE
    end.

Definition effective_paper_fee_rates (maker taker : option decimal) : decimal * decimal :=
  match maker, taker with
  | Some m, Some t => (m, t)
  | _, _ => (PAPER_MAKER_FEE_RATE, PAPER_TAKER_FEE_RATE)
  end.

(** ** Fills joined to their orders *)

Definition fill_sort_le (a b : Fill) : bool :=
  if Fill.filled_at a <? Fill.filled_at b then true
  else if Fill.filled_at b <? Fill.filled_at a then false
  else String.leb (Fill.venue_fill_id a) (Fill.venue_fill_id b).

Definition ledger_fill (order : Order) (fill : Fill) : LedgerFill := {|
  ledger_side := Order.side order; ledger_price := Fill.price fill; ledger_quantity := Fill.quantity fill;
  ledger_fee := Fill.fee fill; ledger_filled_at := Fill.filled_at fill |}.

Definition joined_fills (orders : dict UUID Order) (fills : list Fill) : list LedgerFill :=
  omap (λ fill, (λ order, ledger_fill order fill) <$> dict_get (Fill.order_id fill) orders) (sort_by fill_sort_le fills).

Definition ledger_fills_for_product (s : DeploymentSnapshot) (product_id : string) : list LedgerFill :=
  let order_ids := Order.id <$> _orders_for s product_id in
  joined_fills (dict_of Order.id (List.filter (λ o, bool_decide (Order.id o ∈ order_ids)) (DeploymentSnapshot.orders s)))
    (DeploymentSnapshot.fills s).

Definition ledger_fills_from_snapshot (s : DeploymentSnapshot) : list LedgerFill :=
  joined_fills (dict_of Order.id (DeploymentSnapshot.orders s)) (DeploymentSnapshot.fills s).

Section Ledger.
Context {dc : DecimalContext}.

Definition paper_fill_fee (kind : OrderKind) (price quantity maker_fee_rate taker_fee_rate : decimal) : decimal :=
  let rate := if decide (kind = OrderKind.POST_ONLY_LIMIT) then maker_fee_rate else taker_fee_rate in
  (price * quantity * rate)%dec.

(** ** The lot *)

Record _LotState := mk_lot {
  lot_quantity : decimal;
  lot_entry_price : option decimal;
  lot_entry_fees : decimal;
  lot_realized : decimal;
  lot_trade_count : Z
}.

Definition empty_lot : _LotState := mk_lot d0 None d0 d0 0.

Definition _flatten (state : _LotState) : _LotState :=
  mk_lot d0 None d0 (lot_realized state) (lot_trade_count state + 1).

(** The average cost after adding [fill] to a lot of [held] (unsigned) at [lot_entry_price]. *)
Definition averaged_entry (state : _LotState) (held : decimal) (fill : LedgerFill) : result decimal :=
  let combined := (held + ledger_quantity fill)%dec in
  let basis := default (ledger_price fill) (lot_entry_price state) in
  div (basis * held + ledger_price fill * ledger_quantity fill)%dec combined.

Definition _fold_buy (state : _LotState) (fill : LedgerFill) : result _LotState :=
  if (lot_quantity state =? d0)%dec then
    Ok (mk_lot (ledger_quantity fill) (Some (ledger_price fill)) (ledger_fee fill) (lot_realized state) (lot_trade_count state))
  else if (d0 <? lot_quantity state)%dec then
    entry_price ← averaged_entry state (lot_quantity state) fill;
    Ok (mk_lot (lot_quantity state + ledger_quantity fill)%dec (Some entry_price) (lot_entry_fees state + ledger_fee fill)%dec
          (lot_realized state) (lot_trade_count state))
  else
    let covered := dmin (ledger_quantity fill) (- lot_quantity state)%dec in
    '(realized, entry_fees) ←
      match lot_entry_price state with
      | None => Ok (lot_realized state, lot_entry_fees state)
      | Some entry_price =>
          allocated ← div (lot_entry_fees state * covered)%dec (- lot_quantity state)%dec;
          let exit_notional := (ledger_price fill * covered)%dec in
          fee_share ← div (ledger_fee fill * covered)%dec (ledger_quantity fill);
          Ok ((lot_realized state + (entry_price * covered - exit_notional - fee_share - allocated))%dec,
              (lot_entry_fees state - allocated)%dec)
      end;
    let quantity := (lot_quantity state + ledger_quantity fill)%dec in
    let updated := mk_lot quantity (lot_entry_price state) entry_fees realized (lot_trade_count state) in
    Ok (if (d0 <=? quantity)%dec then _flatten updated else updated).

Definition _fold_sell (state : _LotState) (fill : LedgerFill) : result _LotState :=
  let exit_notional := (ledger_price fill * ledger_quantity fill)%dec in
  if (lot_quantity state =? d0)%dec then
    Ok (mk_lot (- ledger_quantity fill)%dec (Some (ledger_price fill)) (ledger_fee fill) (lot_realized state) (lot_trade_count state))
  else if (lot_quantity state <? d0)%dec then
    entry_price ← averaged_entry state (- lot_quantity state)%dec fill;
    Ok (mk_lot (lot_quantity state - ledger_quantity fill)%dec (Some entry_price) (lot_entry_fees state + ledger_fee fill)%dec
          (lot_realized state) (lot_trade_count state))
  else
    '(realized, entry_fees) ←
      match lot_entry_price state with
      | None => Ok (lot_realized state, lot_entry_fees state)
      | Some entry_price =>
          allocated ← div (lot_entry_fees state * ledger_quantity fill)%dec (lot_quantity state);
          let realized := (lot_realized state + (exit_notional - ledger_fee fill - entry_price * ledger_quantity fill))%dec in
          Ok ((realized - allocated)%dec, (lot_entry_fees state - allocated)%dec)
      end;
    let quantity := (lot_quantity state - ledger_quantity fill)%dec in
    let updated := mk_lot quantity (lot_entry_price state) entry_fees realized (lot_trade_count state) in
    Ok (if (quantity <=? d0)%dec then _flatten updated else updated).

Definition fold_fill (state : _LotState) (fill : LedgerFill) : result _LotState :=
  match ledger_side fill with BUY => _fold_buy state fill | SELL => _fold_sell state fill end.

(** The cash the replay keeps: [cash -= price * quantity + fee] or [cash += price * quantity - fee]. *)
Definition replay_cash (cash : decimal) (fill : LedgerFill) : decimal :=
  match ledger_side fill with
  | BUY => (cash - (ledger_price fill * ledger_quantity fill + ledger_fee fill))%dec
  | SELL => (cash + (ledger_price fill * ledger_quantity fill - ledger_fee fill))%dec
  end.

Definition fold_step (acc : decimal * _LotState * list decimal) (fill : LedgerFill)
    : result (decimal * _LotState * list decimal) :=
  let '(cash, state, equities) := acc in
  let cash := replay_cash cash fill in
  state ← fold_fill state fill;
  Ok (cash, state, equities ++ [(cash + lot_quantity state * ledger_price fill)%dec]).

(** [_fold_fills]: the final cash is internal to the code; it is kept for the theorems. *)
Definition _fold_fills (starting_cash : decimal) (fills : list LedgerFill) : result (decimal * _LotState * list decimal) :=
  foldM fold_step (starting_cash, empty_lot, [starting_cash]) fills.

Definition remaining_position_entry_fees (position : Position) (fills : list LedgerFill) : result (option decimal) :=
  if bool_decide (fills = []) || (MAX_POSITION_FEE_FILLS <? length fills)%nat then Ok None
  else
    state ← foldM (λ state fill,
      match state with
      | None => Ok None
      | Some state =>
          if ledger_filled_at fill <? Position.entered_bar position then Ok None
          else state ← fold_fill state fill; Ok (Some state)
      end) (Some empty_lot) fills;
    Ok (state ≫= λ state,
          if negb (lot_quantity state =? signed_quantity position)%dec
             || negb (same_price (lot_entry_price state) (Some (Position.entry_price position)))
          then None else Some (lot_entry_fees state)).

(** ** Drawdown *)

Definition drawdown_step (acc : decimal * decimal * decimal) (equity : decimal) : result (decimal * decimal * decimal) :=
  let '(peak, fall, fraction) := acc in
  let peak := dmax peak equity in
  if (peak <=? d0)%dec then Ok (peak, fall, fraction)
  else
    let drawdown := (peak - equity)%dec in
    share ← div drawdown peak;
    Ok (peak, dmax fall drawdown, dmax fraction share).

Definition _drawdown (equities : list decimal) : result (option decimal * option decimal) :=
  match equities with
  | [] => Ok (None, None)
  | first :: _ =>
      '(_, fall, fraction) ← foldM drawdown_step (first, d0, d0) equities;
      Ok (Some fall, Some fraction)
  end.

(** ** One book *)

Definition mark_deployment_ledger (starting_cash cash : decimal) (fills : list LedgerFill) (position_quantity : decimal)
    (position_entry_price mark_price : option decimal) : result DeploymentLedger :=
  '(_, lot, fill_equities) ← _fold_fills starting_cash fills;
  let total_fees := dsum (ledger_fee <$> fills) in
  let flat := (position_quantity =? d0)%dec in
  let base_quantity := if flat then lot_quantity lot else position_quantity in
  let entry_price := if flat then lot_entry_price lot else position_entry_price in
  let needs_mark := negb (base_quantity =? d0)%dec in
  let mark_complete := negb needs_mark || bool_decide (is_Some mark_price) in
  let '(unrealized, equity) :=
    match needs_mark, mark_price, entry_price with
    | true, Some mark, Some entry => (Some (base_quantity * (mark - entry))%dec, Some (cash + base_quantity * mark)%dec)
    | false, _, _ => (Some d0, Some cash)
    | _, _, _ => (None, None)
    end in
  let total_net_pnl := (λ e, (e - starting_cash)%dec) <$> equity in
  total_return_fraction ←
    match total_net_pnl with
    | Some total => if (d0 <? starting_cash)%dec then share ← div total starting_cash; Ok (Some share) else Ok None
    | None => Ok None
    end;
  '(fall, fraction) ← _drawdown (fill_equities ++ match equity with Some e => [e] | None => [] end);
  Ok (mk_ledger starting_cash cash (Some base_quantity) mark_price equity (lot_realized lot) unrealized total_net_pnl
        total_return_fraction total_fees fall fraction (lot_trade_count lot) mark_complete [] None true).

Definition _product_book_ledger (product_id : string) (l : DeploymentLedger) : ProductBookLedger :=
  mk_book product_id (base_quantity l) (mark_price l) (realized_net_pnl l) (unrealized_net_pnl l) (total_net_pnl l)
    (trade_count l) (mark_complete l).

Definition set_books (l : DeploymentLedger) (books : list ProductBookLedger) (exposure : option decimal) : DeploymentLedger :=
  mk_ledger (starting_cash l) (cash l) (base_quantity l) (mark_price l) (equity l) (realized_net_pnl l) (unrealized_net_pnl l)
    (total_net_pnl l) (total_return_fraction l) (total_fees l) (maximum_drawdown l) (maximum_drawdown_fraction l)
    (trade_count l) (mark_complete l) books exposure true.

Definition _single_book_ledger (s : DeploymentSnapshot) (starting_cash cash : decimal) (positions : list Position)
    (marks_map : gmap string decimal) (mark_price : option decimal) : result DeploymentLedger :=
  let d := DeploymentSnapshot.deployment s in
  let position := match positions with p :: _ => Some p | [] => DeploymentSnapshot.position s end in
  let product_id := match position with
    | Some p => resolved_product_id (Position.product_id p) d
    | None => Deployment.product_id d
    end in
  let quantity := match position with Some p => signed_quantity p | None => d0 end in
  let fills := match position with
    | Some _ => ledger_fills_for_product s product_id
    | None => ledger_fills_from_snapshot s
    end in
  let mark := match marks_map !! product_id with
    | Some mark => Some mark
    | None => if decide (product_id = Deployment.product_id d) then mark_price else None
    end in
  ledger ← mark_deployment_ledger starting_cash cash fills quantity (Position.entry_price <$> position) mark;
  let held := bool_decide (is_Some position) && negb (quantity =? d0)%dec in
  Ok (set_books ledger (if held then [_product_book_ledger product_id ledger] else [])
        (if held then (λ m, (quantity * m)%dec) <$> mark else None)).

(** ** Several books on one cash balance *)

Record MultiBook := mk_multi {
  multi_books : list ProductBookLedger;
  multi_exposure : decimal;
  multi_unrealized : decimal;
  multi_complete : bool;
  multi_needs_mark : bool;
  multi_primary : decimal * option decimal
}.

Definition multi_step (s : DeploymentSnapshot) (starting_cash cash : decimal) (marks_map : gmap string decimal)
    (acc : MultiBook) (position : Position) : result MultiBook :=
  let d := DeploymentSnapshot.deployment s in
  let product_id := resolved_product_id (Position.product_id position) d in
  let quantity := signed_quantity position in
  let mark := marks_map !! product_id in
  book ← mark_deployment_ledger starting_cash cash (ledger_fills_for_product s product_id) quantity
           (Some (Position.entry_price position)) mark;
  let books := multi_books acc ++ [_product_book_ledger product_id book] in
  if (quantity =? d0)%dec then
    Ok (mk_multi books (multi_exposure acc) (multi_unrealized acc) (multi_complete acc) (multi_needs_mark acc) (multi_primary acc))
  else
    match mark with
    | None => Ok (mk_multi books (multi_exposure acc) (multi_unrealized acc) false true (multi_primary acc))
    | Some mark =>
        let unrealized := match unrealized_net_pnl book with Some u => if (u =? d0)%dec then d0 else u | None => d0 end in
        Ok (mk_multi books (multi_exposure acc + quantity * mark)%dec (multi_unrealized acc + unrealized)%dec
              (multi_complete acc) true
              (if decide (product_id = Deployment.product_id d) then (quantity, Some mark) else multi_primary acc))
    end.

Definition _multi_book_ledger (s : DeploymentSnapshot) (starting_cash cash : decimal) (positions : list Position)
    (marks_map : gmap string decimal) : result DeploymentLedger :=
  let all_fills := ledger_fills_from_snapshot s in
  '(_, lot, fill_equities) ← _fold_fills starting_cash all_fills;
  let total_fees := dsum (ledger_fee <$> all_fills) in
  acc ← foldM (multi_step s starting_cash cash marks_map) (mk_multi [] d0 d0 true false (d0, None)) positions;
  let equity :=
    if negb (multi_needs_mark acc) then Some cash
    else if multi_complete acc then Some (cash + multi_exposure acc)%dec else None in
  let total_net_pnl := (λ e, (e - starting_cash)%dec) <$> equity in
  total_return_fraction ←
    match total_net_pnl with
    | Some total => if (d0 <? starting_cash)%dec then share ← div total starting_cash; Ok (Some share) else Ok None
    | None => Ok None
    end;
  '(fall, fraction) ← _drawdown (fill_equities ++ match equity with Some e => [e] | None => [] end);
  let '(primary_quantity, primary_mark) :=
    match multi_books acc with
    | first :: _ =>
        if ((multi_primary acc).1 =? d0)%dec then (book_base_quantity first, book_mark_price first)
        else (Some (multi_primary acc).1, (multi_primary acc).2)
    | [] => (Some (multi_primary acc).1, (multi_primary acc).2)
    end in
  Ok (mk_ledger starting_cash cash primary_quantity primary_mark equity (lot_realized lot)
        (if multi_complete acc then Some (multi_unrealized acc) else None) total_net_pnl total_return_fraction total_fees
        fall fraction (lot_trade_count lot) (multi_complete acc) (multi_books acc)
        (if multi_complete acc then Some (multi_exposure acc) else None) true).

(** ** Capital ([trading/performance.py]) *)

Definition ledger_starting_equity (d : Deployment) : decimal :=
  match Deployment.initial_equity d, Deployment.paper_starting_cash d with
  | Some e, _ => e
  | None, Some c => c
  | None, None => d0
  end.

Definition positive (o : option decimal) : option decimal :=
  match o with Some v => if (d0 <? v)%dec then Some v else None | None => None end.

Definition performance_capital (d : Deployment) : option decimal :=
  match Deployment.performance_capital_quote d with
  | Some pinned => positive (Some pinned)
  | None =>
      head (omap positive [
        Deployment.initial_equity d; Deployment.paper_starting_cash d; Deployment.allocated_capital d;
        if decide (Deployment.mode d = DeploymentMode.LIVE) then Deployment.venue_available_quote d else None])
  end.

Definition current_drawdown (d : Deployment) (ledger_equity : decimal) : result (option decimal) :=
  match performance_capital d with
  | None => Ok None
  | Some capital =>
      let starting := ledger_starting_equity d in
      let peak := dmax (default starting (Deployment.high_water_mark_equity d)) ledger_equity in
      let funded_peak := (capital + peak - starting)%dec in
      if (funded_peak <=? d0)%dec then Ok None
      else share ← div (peak - ledger_equity)%dec funded_peak; Ok (Some share)
  end.

Definition _resolve_marks (d : Deployment) (marks : gmap string decimal) (mark_price : option decimal) (positions : list Position)
    : gmap string decimal :=
  match mark_price with
  | None => marks
  | Some mark =>
      let setdefault (m : gmap string decimal) k := match m !! k with Some _ => m | None => <[k := mark]> m end in
      fold_left (λ m p, setdefault m (resolved_product_id (Position.product_id p) d)) positions
        (setdefault marks (Deployment.product_id d))
  end.

(** The replay of shared cash with every product at its own last fill price; the inventory is
    summed in the insertion order of [quantities]. *)
Definition capital_step (s : DeploymentSnapshot) (orders : dict UUID Order)
    (acc : decimal * dict string decimal * gmap string decimal * list decimal) (fill : Fill)
    : decimal * dict string decimal * gmap string decimal * list decimal :=
  let '(cash, quantities, prices, equities) := acc in
  match dict_get (Fill.order_id fill) orders with
  | None => acc
  | Some order =>
      let product_id := resolved_product_id (Order.product_id order) (DeploymentSnapshot.deployment s) in
      let signed := match Order.side order with BUY => Fill.quantity fill | SELL => (- Fill.quantity fill)%dec end in
      let cash := (cash - (signed * Fill.price fill + Fill.fee fill))%dec in
      let quantities := dict_set product_id (default d0 (dict_get product_id quantities) + signed)%dec quantities in
      let prices := <[product_id := Fill.price fill]> prices in
      let inventory := dsum ((λ item : string * decimal, (item.2 * default d0 (prices !! item.1))%dec) <$> quantities) in
      (cash, quantities, prices, equities ++ [(cash + inventory)%dec])
  end.

Definition _capital_fill_equities (s : DeploymentSnapshot) (capital : decimal) : list decimal :=
  (fold_left (capital_step s (dict_of Order.id (DeploymentSnapshot.orders s)))
     (sort_by fill_sort_le (DeploymentSnapshot.fills s)) (capital, [], ∅, [capital])).2.

Definition set_fractions (l : DeploymentLedger) (return_fraction fall fraction : option decimal) : DeploymentLedger :=
  mk_ledger (starting_cash l) (cash l) (base_quantity l) (mark_price l) (equity l) (realized_net_pnl l) (unrealized_net_pnl l)
    (total_net_pnl l) return_fraction (total_fees l) fall fraction (trade_count l) (mark_complete l) (books l)
    (marked_exposure l) (accounting_complete l).

Definition or_zero (o : option decimal) : decimal :=
  match o with Some d => if (d =? d0)%dec then d0 else d | None => d0 end.

Definition _capital_normalized_ledger (s : DeploymentSnapshot) (l : DeploymentLedger) : result DeploymentLedger :=
  let d := DeploymentSnapshot.deployment s in
  match performance_capital d, equity l with
  | Some capital, Some e =>
      if negb (mark_complete l) then Ok (set_fractions l None (maximum_drawdown l) None)
      else
        '(fall, fraction) ← _drawdown (_capital_fill_equities s capital ++ [(capital + e - starting_cash l)%dec]);
        observed ← current_drawdown d e;
        let maximum := dmax (dmax (or_zero fraction) (or_zero observed)) (or_zero (Deployment.performance_maximum_drawdown_fraction d)) in
        return_fraction ← match total_net_pnl l with
          | Some total => share ← div total capital; Ok (Some share)
          | None => Ok None
          end;
        Ok (set_fractions l return_fraction fall (Some maximum))
  | _, _ => Ok (set_fractions l None (maximum_drawdown l) None)
  end.

(** Books whose inventory is unresolved lose their marks; unresolved accounts lose their totals. *)
Definition _inventory_checked_ledger (s : DeploymentSnapshot) (l : DeploymentLedger) : DeploymentLedger :=
  let complete := DeploymentSnapshot.accounting_complete s
    && bool_decide (unprojected_inventory_products s = [])
    && bool_decide (missing_occupied_inventory_products s = [])
    && negb (unsettled_fill_evidence s) in
  if complete then l
  else
    let books := (λ b, if bool_decide (book_inventory_reasons s (book_product_id b) = []) then b
                       else mk_book (book_product_id b) None (book_mark_price b) (book_realized_net_pnl b) None None
                              (book_trade_count b) false) <$> books l in
    mk_ledger (starting_cash l) (cash l) None (mark_price l) None (realized_net_pnl l) None None None (total_fees l) None None
      (trade_count l) false books None false.

Definition ledger_from_snapshot (s : DeploymentSnapshot) (marks : gmap string decimal) (mark_price : option decimal)
    : result DeploymentLedger :=
  let d := DeploymentSnapshot.deployment s in
  let starting := ledger_starting_equity d in
  let cash := Deployment.cash d in
  let positions := snapshot_positions s in
  let marks_map := _resolve_marks d marks mark_price positions in
  ledger ← (if (length positions <=? 1)%nat
            then _single_book_ledger s starting cash positions marks_map mark_price
            else _multi_book_ledger s starting cash positions marks_map);
  _capital_normalized_ledger s (_inventory_checked_ledger s ledger).

End Ledger.
