(* ===== verification/LedgerFacts.v ===== *)
(** * LedgerFacts: the fill replay accounts for every unit of cash

    [_fold_fills] carries two things apart: the cash each fill moves, and a lot with realized
    profit, an average entry price and unallocated entry fees. Cash, less realized profit, plus
    the open lot at cost, plus its fees, is the starting cash, whatever fills arrive, as long
    as no fill closes more than is open; [oversold_lot] and [overbought_lot] show what happens
    then. *)

From S2P Require Import Prelude Decimals DecimalFacts Market Geometry Containers TradingModels FillLedger Ledger.

Open Scope Z_scope.

(** Two signs of one computation: a short lot is a long lot with its quantity negated. *)
Definition signed (short : bool) (v : Q) : Q := if short then (- v)%Q else v.

Definition sells (f : LedgerFill) : bool := match ledger_side f with BUY => false | SELL => true end.

Section LedgerFacts.
Context {dc : DecimalContext} (Hw : wide dc).

Lemma opp_val d : (val (opp_exact d) == - val d)%Q.
Proof. unfold val, opp_exact; cbn. rewrite inject_Z_opp. ring. Qed.

Lemma neg_small d : digits (coef d) <= prec -> neg d = opp_exact d.
Proof. intros H. unfold neg. apply fix_small. cbn. by rewrite digits_opp. Qed.

Lemma add_digits a b : digits (coef (a + b)%dec) <= prec.
Proof. unfold add. destruct (coef a =? 0), (coef b =? 0); apply fix_digits. Qed.

(** ** The lot at cost *)

Definition lot_cost (s : _LotState) : Q := (val (lot_quantity s) * match lot_entry_price s with Some e => val e | None => 0 end)%Q.

(** What the replay conserves: cash, less realized profit, plus the open lot and its fees. *)
Definition balance (cash : decimal) (s : _LotState) : Q :=
  (val cash - val (lot_realized s) + lot_cost s + val (lot_entry_fees s))%Q.

Record lot_ok (s : _LotState) : Prop := {
  lot_digits : digits (coef (lot_quantity s)) <= prec;
  lot_flat : coef (lot_quantity s) = 0 -> (val (lot_entry_fees s) == 0)%Q;
  lot_open : coef (lot_quantity s) <> 0 -> is_Some (lot_entry_price s)
}.

(** A recorded fill: a positive quantity that fits the working precision. *)
Definition fill_ok (f : LedgerFill) : bool := (d0 <? ledger_quantity f)%dec && (digits (coef (ledger_quantity f)) <=? prec).

(** The fill does not close more than is open. *)
Definition closes_within (s : _LotState) (f : LedgerFill) : bool :=
  match ledger_side f with
  | BUY => (d0 <=? lot_quantity s)%dec || (ledger_quantity f <=? opp_exact (lot_quantity s))%dec
  | SELL => (lot_quantity s <=? d0)%dec || (ledger_quantity f <=? lot_quantity s)%dec
  end.

(** The money a fill touches. *)
Definition touched (cash : decimal) (s : _LotState) (f : LedgerFill) : Q :=
  (Qabs (val cash) + Qabs (val (lot_realized s)) + Qabs (val (lot_entry_fees s)) + Qabs (lot_cost s) +
   Qabs (val (ledger_price f) * val (ledger_quantity f)) + Qabs (val (ledger_fee f)))%Q.

Lemma empty_lot_ok : lot_ok empty_lot.
Proof. split; cbn; [pose proof prec_pos; change (digits 0) with 1; lia|done|lia]. Qed.

Lemma flatten_ok s : lot_ok (_flatten s).
Proof. split; cbn; [pose proof prec_pos; change (digits 0) with 1; lia|done|lia]. Qed.

(** ** Products and averages *)

Lemma replay_cash_near c f : near (8 * unit_error * (Qabs (val c) + Qabs (val (ledger_price f) * val (ledger_quantity f)) + Qabs (val (ledger_fee f))))
  (val (replay_cash c f))
  (val c - signed (sells f) (val (ledger_price f) * val (ledger_quantity f)) - val (ledger_fee f)).
Proof.
  pose proof (small_abs (val c)) as Sc. pose proof (small_abs (val (ledger_fee f))) as Sf.
  pose proof (Qabs_nonneg (val c)). pose proof (Qabs_nonneg (val (ledger_fee f))).
  pose proof (Qabs_nonneg (val (ledger_price f) * val (ledger_quantity f))).
  destruct (mul_near Hw (ledger_price f) (ledger_quantity f) _ (small_abs _)) as [[M1 M2] Sm].
  unfold replay_cash, signed, sells. destruct (ledger_side f).
  - destruct (add_near Hw _ _ _ _ Sm Sf) as [[] Sn]. destruct (sub_near Hw _ _ _ _ Sc Sn) as [[] _].
    unfold near, small, unit_error in *. cbv iota. lra.
  - destruct (sub_near Hw _ _ _ _ Sm Sf) as [[] Sn]. destruct (add_near Hw _ _ _ _ Sc Sn) as [[] _].
    unfold near, small, unit_error in *. cbv iota. lra.
Qed.

(** The average price times the combined quantity is the combined cost. *)
Lemma averaged_near s held f e' : averaged_entry s held f = Ok e' ->
  near (8 * unit_error * (Qabs (val (default (ledger_price f) (lot_entry_price s)) * val held) +
                          Qabs (val (ledger_price f) * val (ledger_quantity f))))
    (val e' * val (held + ledger_quantity f)%dec)
    (val (default (ledger_price f) (lot_entry_price s)) * val held + val (ledger_price f) * val (ledger_quantity f)).
Proof.
  unfold averaged_entry. cbv zeta. set (b := default _ _). set (C := (held + ledger_quantity f)%dec). intros Hd.
  destruct (mul_near Hw b held _ (small_abs _)) as [[M1 M2] S1].
  destruct (mul_near Hw (ledger_price f) (ledger_quantity f) _ (small_abs _)) as [[N1 N2] S2].
  destruct (add_near Hw _ _ _ _ S1 S2) as [[A1 A2] [T1 T2]].
  set (S := (b * held + ledger_price f * ledger_quantity f)%dec) in *.
  pose proof (Qabs_nonneg (val b * val held)). pose proof (Qabs_nonneg (val (ledger_price f) * val (ledger_quantity f))).
  set (x := Qabs (val b * val held)) in *. set (y := Qabs (val (ledger_price f) * val (ledger_quantity f))) in *.
  destruct (div_rounds _ _ _ Hd) as [HC Hr].
  destruct (rounds_near Hw _ _ _ Hr (small_abs _)) as [D _].
  assert (E : (val S / val C * val C == val S)%Q) by (field; done).
  assert (F : (Qabs (val e' * val C - val S) <= unit_error * Qabs (val S))%Q).
  { assert (D' : (Qabs (val e' - val S / val C) <= unit_error * Qabs (val S / val C))%Q).
    { apply Qabs_Qle_condition. destruct D. lra. }
    assert (E3 : (val e' * val C - val S == (val e' - val S / val C) * val C)%Q) by (field; done).
    assert (E4 : (unit_error * Qabs (val S) == unit_error * Qabs (val S / val C) * Qabs (val C))%Q).
    { by rewrite <- Qmult_assoc, <- Qabs_Qmult, E. }
    rewrite E3, E4, Qabs_Qmult. apply Qmult_le_compat_r; [done|apply Qabs_nonneg]. }
  assert (G : (Qabs (val S) <= 2 * (2 * x + 2 * y))%Q) by (apply Qabs_Qle_condition; lra).
  assert (unit_error * Qabs (val S) <= unit_error * (2 * (2 * x + 2 * y)))%Q.
  { rewrite !(Qmult_comm unit_error). by apply Qmult_le_compat_r. }
  apply Qabs_Qle_condition in F. unfold near, unit_error in *. lra.
Qed.

(** ** One fill *)

(** What a step must leave: a well-formed lot, and the same balance up to rounding. *)
Definition settles (c : decimal) (s : _LotState) (f : LedgerFill) (s' : _LotState) : Prop :=
  lot_ok s' ∧ near (slack * touched c s f) (balance (replay_cash c f) s') (balance c s).

Lemma near_scale e a b k : near e a b -> near (e * Qabs k) (a * k) (b * k).
Proof.
  intros [H1 H2]. assert (H : (Qabs (a - b) <= e)%Q) by (apply Qabs_Qle_condition; lra).
  assert (Hk : (Qabs ((a - b) * k) <= e * Qabs k)%Q)
    by (rewrite Qabs_Qmult; apply Qmult_le_compat_r; [done|apply Qabs_nonneg]).
  apply Qabs_Qle_condition in Hk. unfold near. lra.
Qed.

Lemma open_settles c s f : coef (lot_quantity s) = 0 -> lot_ok s -> fill_ok f = true ->
  settles c s f (mk_lot (if sells f then - ledger_quantity f else ledger_quantity f)%dec (Some (ledger_price f))
                   (ledger_fee f) (lot_realized s) (lot_trade_count s)).
Proof.
  intros Hz Hs [Hq Hd]%andb_prop_iff. dec_cmp. rewrite val_d0 in Hq. apply Z.leb_le in Hd. split.
  - split; cbn [lot_quantity lot_entry_price lot_entry_fees].
    + destruct (sells f); [rewrite neg_small by done; cbn; by rewrite digits_opp|done].
    + intros E. exfalso. destruct (sells f).
      * rewrite neg_small in E by done. apply val_zero in E. rewrite opp_val in E. lra.
      * apply val_zero in E. lra.
    + done.
  - pose proof (lot_flat s Hs Hz) as HF. apply val_zero in Hz. pose proof (replay_cash_near c f) as [C1 C2].
    assert (Hval : (val (if sells f then - ledger_quantity f else ledger_quantity f)%dec ==
                    signed (sells f) (val (ledger_quantity f)))%Q).
    { destruct (sells f); cbn; [rewrite neg_small by done; apply opp_val|done]. }
    assert (Hcost : (lot_cost s == 0)%Q) by (unfold lot_cost; rewrite Hz; ring).
    match goal with |- near _ (balance _ ?l) _ => set (s' := l) end.
    assert (Hcost' : (lot_cost s' == signed (sells f) (val (ledger_price f) * val (ledger_quantity f)))%Q).
    { unfold lot_cost, s'; cbn [lot_quantity lot_entry_price]. rewrite Hval. unfold signed. destruct (sells f); ring. }
    unfold near, balance, touched in *. rewrite Hcost', HF, Hcost. unfold s'; cbn [lot_realized lot_entry_fees]. unfold signed in *.
    pose proof (Qabs_nonneg (val (lot_realized s))). pose proof (Qabs_nonneg (val c)).
    pose proof (Qabs_nonneg (val (ledger_fee f))). pose proof (Qabs_nonneg (val (ledger_price f) * val (ledger_quantity f))).
    change (Qabs 0) with 0%Q. destruct (sells f); unfold slack, unit_error in *; lra.
Qed.

Definition held_quantity (short : bool) (s : _LotState) : decimal := if short then (- lot_quantity s)%dec else lot_quantity s.

Lemma held_val short s : lot_ok s -> (val (held_quantity short s) == signed short (val (lot_quantity s)))%Q.
Proof. intros Hs. destruct short; [|done]. unfold held_quantity, signed. rewrite neg_small by apply Hs. apply opp_val. Qed.

(** A signed sum is the signed combined quantity. *)
Lemma combined_val (short : bool) s f : lot_ok s ->
  (val (if short then lot_quantity s - ledger_quantity f else lot_quantity s + ledger_quantity f)%dec ==
   signed short (val (held_quantity short s + ledger_quantity f)%dec))%Q.
Proof.
  intros Hs. destruct short; [|done]. unfold held_quantity, signed. rewrite neg_small by apply Hs. unfold sub.
  rewrite <- (opp_opp (lot_quantity s)) at 1. rewrite add_opp. apply opp_val.
Qed.

Lemma sub_digits a b : digits (coef (a - b)%dec) <= prec.
Proof. apply add_digits. Qed.

Lemma add_settles c s f e' : lot_ok s -> fill_ok f = true -> (0 < signed (sells f) (val (lot_quantity s)))%Q ->
  averaged_entry s (held_quantity (sells f) s) f = Ok e' ->
  settles c s f (mk_lot (if sells f then lot_quantity s - ledger_quantity f else lot_quantity s + ledger_quantity f)%dec
                   (Some e') (lot_entry_fees s + ledger_fee f)%dec (lot_realized s) (lot_trade_count s)).
Proof.
  intros Hs [Hq Hd]%andb_prop_iff Hside Hav. dec_cmp. rewrite val_d0 in Hq.
  pose proof (held_val (sells f) s Hs) as Hh. pose proof (combined_val (sells f) s f Hs) as Hc.
  assert (Hpos : (0 < val (held_quantity (sells f) s + ledger_quantity f)%dec)%Q).
  { eapply rounds_pos; [apply prec_pos|apply add_rounds|]. lra. }
  split.
  - split; cbn [lot_quantity lot_entry_price lot_entry_fees]; [destruct (sells f); apply add_digits| |done].
    intros E%val_zero. rewrite Hc in E. unfold signed in E. destruct (sells f); lra.
  - destruct (lot_open s Hs) as [e He].
    { rewrite <- val_zero. intros E. unfold signed in Hside. destruct (sells f); lra. }
    pose proof (averaged_near s _ f e' Hav) as HA. rewrite He in HA; cbn [default from_option id] in HA.
    pose proof (replay_cash_near c f) as [C1 C2].
    destruct (add_near Hw (lot_entry_fees s) (ledger_fee f) _ _ (small_abs _) (small_abs _)) as [[F1 F2] _].
    assert (Hcost : (val e * val (held_quantity (sells f) s) == signed (sells f) (lot_cost s))%Q).
    { unfold lot_cost. rewrite He, Hh. unfold signed. destruct (sells f); ring. }
    match goal with |- near _ (balance _ ?l) _ => set (s' := l) end.
    assert (Hcost' : (lot_cost s' == signed (sells f) (val e' * val (held_quantity (sells f) s + ledger_quantity f)%dec))%Q).
    { unfold lot_cost, s'; cbn [lot_quantity lot_entry_price]. rewrite Hc. unfold signed. destruct (sells f); ring. }
    unfold near, balance, touched in *. rewrite Hcost'. unfold s'; cbn [lot_realized lot_entry_fees].
    rewrite Hcost in HA. destruct HA as [A1 A2].
    assert (Habs : (Qabs (signed (sells f) (lot_cost s)) == Qabs (lot_cost s))%Q)
      by (unfold signed; destruct (sells f); [apply Qabs_opp|done]).
    rewrite Habs in A1, A2. unfold signed in *.
    pose proof (Qabs_nonneg (val (lot_realized s))). pose proof (Qabs_nonneg (val c)). pose proof (Qabs_nonneg (lot_cost s)).
    pose proof (Qabs_nonneg (val (lot_entry_fees s))). pose proof (Qabs_nonneg (val (ledger_fee f))).
    pose proof (Qabs_nonneg (val (ledger_price f) * val (ledger_quantity f))).
    destruct (sells f); unfold slack, unit_error in *; lra.
Qed.

(** A reduction of the open lot, from what the two sides compute: realized profit, remaining
    entry fees after the share [a] is allocated, and the remaining quantity. *)
Lemma close_settles c s f e a realized fees quantity n :
  let open_ := signed (negb (sells f)) (val (lot_quantity s)) in
  lot_ok s -> lot_entry_price s = Some e -> (0 < val (ledger_quantity f))%Q -> (val (ledger_quantity f) <= open_)%Q ->
  rounds prec (val (lot_quantity s) + signed (sells f) (val (ledger_quantity f))) quantity -> digits (coef quantity) <= prec ->
  near (50 * unit_error * touched c s f) (val realized)
    (val (lot_realized s) + signed (sells f) ((val e - val (ledger_price f)) * val (ledger_quantity f)) - val (ledger_fee f) - a) ->
  near (8 * unit_error * Qabs (val (lot_entry_fees s))) (val fees) (val (lot_entry_fees s) - a) ->
  near (3 * unit_error * Qabs (val (lot_entry_fees s))) a (val (lot_entry_fees s) * (val (ledger_quantity f) / open_)) ->
  settles c s f (let updated := mk_lot quantity (Some e) fees realized n in
                 if (if sells f then quantity <=? d0 else d0 <=? quantity)%dec then _flatten updated else updated).
Proof.
  intros h Hs He Hx Hxh Hr Hdig [R1 R2] [F1 F2] [A1 A2]. cbv zeta.
  set (x := val (ledger_quantity f)) in *. pose proof (replay_cash_near c f) as [C1 C2]. fold x in C1, C2.
  assert (Hq : (val (lot_quantity s) == signed (negb (sells f)) h)%Q) by (unfold h, signed; destruct (sells f); cbn; ring).
  assert (Hcost : (lot_cost s == val (lot_quantity s) * val e)%Q) by (unfold lot_cost; by rewrite He).
  assert (Habs : (Qabs (lot_cost s) == h * Qabs (val e))%Q).
  { rewrite Hcost, Qabs_Qmult, Hq. unfold signed. destruct (sells f); cbn [negb]; [|rewrite Qabs_opp]; rewrite Qabs_pos; lra. }
  pose proof (Qabs_nonneg (val (lot_realized s))). pose proof (Qabs_nonneg (val c)). pose proof (Qabs_nonneg (lot_cost s)).
  pose proof (Qabs_nonneg (val (lot_entry_fees s))). pose proof (Qabs_nonneg (val (ledger_fee f))).
  pose proof (Qabs_nonneg (val (ledger_price f) * x)).
  match goal with |- settles _ _ _ (if ?b then _ else _) => destruct b eqn:Hflat end.
  - split; [apply flatten_ok|]. unfold near, balance, touched in *. fold x in R1, R2 |- *.
    assert (Hall : (h == x)%Q).
    { destruct (Qlt_le_dec x h) as [Hlt|]; [exfalso|lra]. unfold signed in *. destruct (sells f); cbn [negb] in *; dec_cmp; rewrite val_d0 in Hflat.
      - assert (0 < val quantity)%Q; [eapply rounds_pos; [apply prec_pos|apply Hr|]|]; lra.
      - assert (val quantity < 0)%Q; [eapply rounds_neg; [apply prec_pos|apply Hr|]|]; lra. }
    assert (Hshare : (val (lot_entry_fees s) * (x / h) == val (lot_entry_fees s))%Q) by (rewrite Hall; field; lra).
    rewrite Hshare in A1, A2. assert (Hzero : (lot_cost (_flatten (mk_lot quantity (Some e) fees realized n)) == 0)%Q) by (unfold lot_cost, _flatten; cbn [lot_quantity lot_entry_price]; ring).
    assert (Hcost2 : (lot_cost s == signed (negb (sells f)) (x * val e))%Q)
      by (rewrite Hcost, Hq; unfold signed; destruct (sells f); cbn [negb]; rewrite Hall; ring).
    rewrite Hzero. unfold _flatten; cbn [lot_realized lot_entry_fees]. rewrite val_d0.
    clear Hcost. unfold signed, slack, unit_error in *. destruct (sells f); cbn [negb] in *; lra.
  - assert (Hlive : ¬ (val quantity == 0)%Q).
    { destruct (sells f); dec_cmp; rewrite val_d0 in Hflat; lra. }
    assert (Hsm : small h (val (lot_quantity s) + signed (sells f) x))
      by (unfold small; rewrite Hq; unfold signed; destruct (sells f); cbn [negb]; lra).
    destruct (rounds_near Hw _ _ _ Hr Hsm) as [Hn _]. apply (near_scale _ _ _ (val e)) in Hn as [N1 N2].
    split.
    + split; cbn; [done|intros E%val_zero; done|done].
    + match goal with |- near _ (balance _ ?l) _ => set (s' := l) end.
      assert (Hcost' : (lot_cost s' == val quantity * val e)%Q) by done.
      unfold near, balance, touched in *. fold x in R1, R2 |- *. rewrite Hcost'. unfold s'; cbn [lot_realized lot_entry_fees].
      assert (Hh : (unit_error * h * Qabs (val e) == unit_error * Qabs (lot_cost s))%Q) by (rewrite Habs; ring).
      rewrite Hh in N1, N2. clear Hq. unfold signed, slack, unit_error in *. destruct (sells f); lra.
Qed.

(** The cost of the closed part is at most the cost of the lot. *)
Lemma closed_cost s e x : lot_entry_price s = Some e -> (0 < x)%Q -> (x <= Qabs (val (lot_quantity s)))%Q ->
  small (Qabs (lot_cost s)) (val e * x).
Proof.
  intros He Hx Hle. apply Qabs_Qle_condition. unfold lot_cost. rewrite He, !Qabs_Qmult, (Qabs_pos x) by lra.
  rewrite (Qmult_comm (Qabs (val e))). apply Qmult_le_compat_r; [done|apply Qabs_nonneg].
Qed.

(** The fee share of a closing fill, in both sides' order of rounded additions. *)
Lemma sell_profit_near c s f e alloc : lot_entry_price s = Some e -> (0 < val (ledger_quantity f))%Q ->
  (val (ledger_quantity f) <= Qabs (val (lot_quantity s)))%Q -> small (2 * Qabs (val (lot_entry_fees s))) (val alloc) ->
  near (50 * unit_error * touched c s f)
    (val (lot_realized s + (ledger_price f * ledger_quantity f - ledger_fee f - e * ledger_quantity f) - alloc)%dec)
    (val (lot_realized s) - (val e - val (ledger_price f)) * val (ledger_quantity f) - val (ledger_fee f) - val alloc).
Proof.
  intros He Hx Hle Hal. pose proof (closed_cost s e _ He Hx Hle) as Hex.
  destruct (mul_near Hw (ledger_price f) (ledger_quantity f) _ (small_abs _)) as [[M1 M2] SM].
  destruct (mul_near Hw e (ledger_quantity f) _ Hex) as [[E1 E2] SE].
  destruct (sub_near Hw _ _ _ _ SM (small_abs (val (ledger_fee f)))) as [[T1 T2] ST].
  destruct (sub_near Hw _ _ _ _ ST SE) as [[U1 U2] SU].
  destruct (add_near Hw _ _ _ _ (small_abs (val (lot_realized s))) SU) as [[V1 V2] SV].
  destruct (sub_near Hw _ _ _ _ SV Hal) as [[W1 W2] _].
  pose proof (Qabs_nonneg (val (lot_realized s))). pose proof (Qabs_nonneg (val c)). pose proof (Qabs_nonneg (lot_cost s)).
  pose proof (Qabs_nonneg (val (lot_entry_fees s))). pose proof (Qabs_nonneg (val (ledger_fee f))).
  pose proof (Qabs_nonneg (val (ledger_price f) * val (ledger_quantity f))).
  clear Hex. unfold near, touched, unit_error in *. lra.
Qed.

Lemma buy_profit_near c s f e covered share alloc : lot_entry_price s = Some e -> (0 < val (ledger_quantity f))%Q ->
  (val covered == val (ledger_quantity f))%Q -> (val (ledger_quantity f) <= Qabs (val (lot_quantity s)))%Q ->
  div (ledger_fee f * covered)%dec (ledger_quantity f) = Ok share -> small (2 * Qabs (val (lot_entry_fees s))) (val alloc) ->
  near (50 * unit_error * touched c s f)
    (val (lot_realized s + (e * covered - ledger_price f * covered - share - alloc))%dec)
    (val (lot_realized s) + (val e - val (ledger_price f)) * val (ledger_quantity f) - val (ledger_fee f) - val alloc).
Proof.
  intros He Hx Hc Hle Hs Hal. pose proof (closed_cost s e _ He Hx Hle) as Hex.
  destruct (share_near Hw (ledger_fee f) covered (ledger_quantity f) share) as [[S1 S2] _]; [lra..|done|].
  assert (Hone : (val (ledger_fee f) * (val covered / val (ledger_quantity f)) == val (ledger_fee f))%Q)
    by (rewrite Hc; field; lra).
  rewrite Hone in S1, S2.
  assert (Sshare : small (2 * Qabs (val (ledger_fee f))) (val share)).
  { destruct (small_abs (val (ledger_fee f))). pose proof (Qabs_nonneg (val (ledger_fee f))). unfold small, unit_error in *. lra. }
  assert (Hex' : small (Qabs (lot_cost s)) (val e * val covered)) by (unfold small in *; rewrite Hc; exact Hex).
  assert (Hpx : small (Qabs (val (ledger_price f) * val (ledger_quantity f))) (val (ledger_price f) * val covered))
    by (unfold small; rewrite Hc; apply small_abs).
  destruct (mul_near Hw e covered _ Hex') as [[E1 E2] SE].
  destruct (mul_near Hw (ledger_price f) covered _ Hpx) as [[M1 M2] SM]. rewrite Hc in M1, M2, E1, E2.
  destruct (sub_near Hw _ _ _ _ SE SM) as [[T1 T2] ST]. destruct (sub_near Hw _ _ _ _ ST Sshare) as [[U1 U2] SU].
  destruct (sub_near Hw _ _ _ _ SU Hal) as [[V1 V2] SV].
  destruct (add_near Hw _ _ _ _ (small_abs (val (lot_realized s))) SV) as [[W1 W2] _].
  pose proof (Qabs_nonneg (val (lot_realized s))). pose proof (Qabs_nonneg (val c)). pose proof (Qabs_nonneg (lot_cost s)).
  pose proof (Qabs_nonneg (val (lot_entry_fees s))). pose proof (Qabs_nonneg (val (ledger_fee f))).
  pose proof (Qabs_nonneg (val (ledger_price f) * val (ledger_quantity f))).
  clear Hex Hex' Hpx. unfold near, touched, unit_error in *. lra.
Qed.

(** The share of the entry fees a reduction allocates, and what it leaves. *)
Lemma allocated_near s x y alloc : (0 < val x)%Q -> (val x <= val y)%Q -> div (lot_entry_fees s * x)%dec y = Ok alloc ->
  near (3 * unit_error * Qabs (val (lot_entry_fees s))) (val alloc) (val (lot_entry_fees s) * (val x / val y)) ∧
  small (2 * Qabs (val (lot_entry_fees s))) (val alloc) ∧
  near (8 * unit_error * Qabs (val (lot_entry_fees s))) (val (lot_entry_fees s - alloc)%dec) (val (lot_entry_fees s) - val alloc).
Proof.
  intros Hx Hxy Hd. destruct (share_near Hw _ _ _ _ Hx Hxy Hd) as [N S]. pose proof (Qabs_nonneg (val (lot_entry_fees s))).
  assert (Sa : small (2 * Qabs (val (lot_entry_fees s))) (val alloc)) by (unfold near, small, unit_error in *; lra).
  destruct (sub_near Hw _ _ _ _ (small_abs (val (lot_entry_fees s))) Sa) as [[] _].
  split; [done|]. split; [done|]. unfold near, unit_error in *. lra.
Qed.

Lemma buy_settles c s f s' : ledger_side f = BUY -> lot_ok s -> fill_ok f = true -> closes_within s f = true ->
  _fold_buy s f = Ok s' -> settles c s f s'.
Proof.
  intros Hside Hs Hf Hin. assert (Hsell : sells f = false) by (unfold sells; by rewrite Hside).
  unfold _fold_buy. destruct (_ =? _)%dec eqn:Hz.
  { intros [= <-]. apply deqb_eq in Hz. rewrite val_d0 in Hz. apply val_zero in Hz.
    pose proof (open_settles c s f Hz Hs Hf) as H. by rewrite Hsell in H. }
  destruct (d0 <? _)%dec eqn:Hp.
  { intros (e' & He' & [= <-])%bind_Ok. dec_cmp. rewrite val_d0 in Hp.
    pose proof (add_settles c s f e' Hs Hf) as H. rewrite Hsell in H. by apply H. }
  unfold closes_within in Hin. rewrite Hside in Hin. unfold fill_ok in Hf. apply andb_prop_iff in Hf as [Hq _].
  dec_cmp. rewrite val_d0 in Hz, Hp, Hq.
  assert (Hneg : (val (lot_quantity s) < 0)%Q) by (apply Qle_lteq in Hp as [|]; [done|contradiction]).
  apply orb_prop in Hin as [Hin|Hin]; dec_cmp; [rewrite val_d0 in Hin; lra|]. rewrite opp_val in Hin.
  assert (Hh : (val (- lot_quantity s)%dec == - val (lot_quantity s))%Q) by (rewrite neg_small by apply Hs; apply opp_val).
  assert (Hlive : coef (lot_quantity s) <> 0) by (by rewrite <- val_zero).
  destruct (lot_open s Hs Hlive) as [e He]. rewrite He. cbn zeta. set (covered := dmin _ _).
  assert (Hc : (val covered == val (ledger_quantity f))%Q).
  { destruct (dmin_spec (ledger_quantity f) (- lot_quantity s)%dec) as (D1 & D2 & [E|E]); fold covered in D1, D2, E;
      rewrite E in *; [done|lra]. }
  intros ([R' F'] & (alloc & Ha & (share & Hshare & [= <- <-])%bind_Ok)%bind_Ok & [= <-])%bind_Ok.
  assert (Hc0 : (0 < val covered)%Q) by lra. assert (Hc1 : (val covered <= val (- lot_quantity s)%dec)%Q) by lra.
  destruct (allocated_near s covered _ alloc Hc0 Hc1 Ha) as (N & S & HF).
  assert (Habs : (val (ledger_quantity f) <= Qabs (val (lot_quantity s)))%Q) by (rewrite Qabs_neg; lra).
  pose proof (buy_profit_near c s f e covered share alloc He Hq Hc Habs Hshare S) as HR.
  pose proof (close_settles c s f e (val alloc)
    (lot_realized s + (e * covered - ledger_price f * covered - share - alloc))%dec (lot_entry_fees s - alloc)%dec
    (lot_quantity s + ledger_quantity f)%dec (lot_trade_count s) Hs He Hq) as H. rewrite Hsell in H.
  apply H; [unfold signed; cbn [negb]; lra|apply add_rounds|apply add_digits|exact HR|exact HF|].
  unfold near in *. by rewrite Hc, Hh in N.
Qed.

Lemma sell_settles c s f s' : ledger_side f = SELL -> lot_ok s -> fill_ok f = true -> closes_within s f = true ->
  _fold_sell s f = Ok s' -> settles c s f s'.
Proof.
  intros Hside Hs Hf Hin. assert (Hsell : sells f = true) by (unfold sells; by rewrite Hside).
  unfold _fold_sell. cbv zeta. destruct (_ =? _)%dec eqn:Hz.
  { intros [= <-]. apply deqb_eq in Hz. rewrite val_d0 in Hz. apply val_zero in Hz.
    pose proof (open_settles c s f Hz Hs Hf) as H. by rewrite Hsell in H. }
  destruct (_ <? d0)%dec eqn:Hp.
  { intros (e' & He' & [= <-])%bind_Ok. dec_cmp. rewrite val_d0 in Hp.
    pose proof (add_settles c s f e' Hs Hf) as H. rewrite Hsell in H. apply H; [unfold signed; lra|done]. }
  unfold closes_within in Hin. rewrite Hside in Hin. unfold fill_ok in Hf. apply andb_prop_iff in Hf as [Hq _].
  dec_cmp. rewrite val_d0 in Hz, Hp, Hq.
  assert (Hpos : (0 < val (lot_quantity s))%Q) by (apply Qle_lteq in Hp as [|E]; [done|symmetry in E; contradiction]).
  apply orb_prop in Hin as [Hin|Hin]; dec_cmp; [rewrite val_d0 in Hin; lra|].
  assert (Hlive : coef (lot_quantity s) <> 0) by (by rewrite <- val_zero).
  destruct (lot_open s Hs Hlive) as [e He]. rewrite He.
  intros ([R' F'] & (alloc & Ha & [= <- <-])%bind_Ok & [= <-])%bind_Ok.
  destruct (allocated_near s _ _ alloc Hq Hin Ha) as (N & S & HF).
  assert (Habs : (val (ledger_quantity f) <= Qabs (val (lot_quantity s)))%Q) by (rewrite Qabs_pos; lra).
  pose proof (sell_profit_near c s f e alloc He Hq Habs S) as HR.
  pose proof (close_settles c s f e (val alloc)
    (lot_realized s + (ledger_price f * ledger_quantity f - ledger_fee f - e * ledger_quantity f) - alloc)%dec
    (lot_entry_fees s - alloc)%dec (lot_quantity s - ledger_quantity f)%dec (lot_trade_count s) Hs He Hq) as H. rewrite Hsell in H.
  apply H; [unfold signed; cbn [negb]; lra|apply sub_rounds|apply sub_digits| |exact HF|exact N].
  unfold near, signed in *. lra.
Qed.

Lemma fold_settles c s f s' : lot_ok s -> fill_ok f = true -> closes_within s f = true ->
  fold_fill s f = Ok s' -> settles c s f s'.
Proof. unfold fold_fill. destruct (ledger_side f) eqn:E; [by apply buy_settles|by apply sell_settles]. Qed.

(** A recorded fill never makes the replay divide by zero. *)
Lemma fold_total s f : lot_ok s -> fill_ok f = true -> ∃ s', fold_fill s f = Ok s'.
Proof.
  intros Hs [Hq _]%andb_prop_iff. dec_cmp. rewrite val_d0 in Hq.
  assert (Hqz : ¬ (val (ledger_quantity f) == 0)%Q) by lra.
  assert (Hav : ∀ held, (0 < val held)%Q -> ∃ e, averaged_entry s held f = Ok e).
  { intros held Hh. apply div_total. intros E. assert (0 < val (held + ledger_quantity f)%dec)%Q; [|lra].
    eapply rounds_pos; [apply prec_pos|apply add_rounds|lra]. }
  unfold fold_fill, _fold_buy, _fold_sell. cbv zeta. destruct (lot_quantity s =? d0)%dec eqn:Hz; [destruct (ledger_side f); by eexists|].
  assert (Hneg : (val (- lot_quantity s)%dec == - val (lot_quantity s))%Q) by (rewrite neg_small by apply Hs; apply opp_val).
  dec_cmp. rewrite val_d0 in Hz. destruct (ledger_side f).
  - destruct (d0 <? lot_quantity s)%dec eqn:Hp; dec_cmp; rewrite val_d0 in Hp.
    { destruct (Hav _ Hp) as [e ->]. by eexists. }
    destruct (lot_entry_price s) as [e|]; [|by eexists].
    destruct (div_total (lot_entry_fees s * dmin (ledger_quantity f) (- lot_quantity s))%dec (- lot_quantity s)%dec) as [a ->].
    { rewrite Hneg. intros E. apply Hz. lra. }
    cbn [mbind result_bind]. destruct (div_total (ledger_fee f * dmin (ledger_quantity f) (- lot_quantity s))%dec _ Hqz) as [b ->].
    by eexists.
  - destruct (lot_quantity s <? d0)%dec eqn:Hp; dec_cmp; rewrite val_d0 in Hp.
    { destruct (Hav (- lot_quantity s)%dec) as [e ->]; [lra|]. by eexists. }
    destruct (lot_entry_price s) as [e|]; [|by eexists].
    destruct (div_total (lot_entry_fees s * ledger_quantity f)%dec _ Hz) as [a ->]. by eexists.
Qed.

(** ** The whole replay *)

(** Every fill of the replay is recorded properly and closes at most what is open then. *)
Fixpoint sound_fills (s : _LotState) (fills : list LedgerFill) : bool :=
  match fills with
  | [] => true
  | f :: rest => fill_ok f && closes_within s f && match fold_fill s f with Ok s' => sound_fills s' rest | Raise _ => true end
  end.

(** The money the replay touches, fill by fill. *)
Fixpoint replay_touched (c : decimal) (s : _LotState) (fills : list LedgerFill) : Q :=
  match fills with
  | [] => 0
  | f :: rest => touched c s f + match fold_fill s f with Ok s' => replay_touched (replay_cash c f) s' rest | Raise _ => 0 end
  end.

Lemma replay_settles fills : ∀ c s eqs, lot_ok s -> sound_fills s fills = true ->
  ∃ c' s' eqs', foldM fold_step (c, s, eqs) fills = Ok (c', s', eqs') ∧
    near (slack * replay_touched c s fills) (balance c' s') (balance c s).
Proof.
  induction fills as [|f fills IH]; intros c s eqs Hs.
  - intros _. exists c, s, eqs. split; [done|]. unfold near; cbn. lra.
  - cbn. intros [[Hf Hin]%andb_prop_iff Hrest]%andb_prop_iff. destruct (fold_total s f Hs Hf) as [s1 Hs1].
    rewrite Hs1 in Hrest |- *. cbn. destruct (fold_settles c s f s1 Hs Hf Hin Hs1) as [Hok1 [N1 N2]].
    destruct (IH (replay_cash c f) s1 (eqs ++ [(replay_cash c f + lot_quantity s1 * ledger_price f)%dec]) Hok1 Hrest)
      as (c2 & s2 & eqs2 & -> & [M1 M2]).
    exists c2, s2, eqs2. split; [done|]. unfold near in *. lra.
Qed.

(** C4: the replay of a book's recorded fills never fails and accounts for every unit of cash: in
    whatever order buys and sells open, add to, reduce and close longs and shorts, the final cash
    is the starting cash plus the realized profit, less the open lot at its average cost and the
    entry fees still unallocated, up to one part in ten to the eighteenth of the money each fill
    touched, provided no fill closes more than is open. *)
Theorem replay_accounts_for_cash starting fills : sound_fills empty_lot fills = true ->
  ∃ c lot equities, _fold_fills starting fills = Ok (c, lot, equities) ∧
    near (slack * replay_touched starting empty_lot fills) (val c)
      (val starting + val (lot_realized lot) - lot_cost lot - val (lot_entry_fees lot)).
Proof.
  intros H. destruct (replay_settles fills starting empty_lot [starting] empty_lot_ok H) as (c & lot & eqs & E & [N1 N2]).
  exists c, lot, eqs. split; [exact E|]. unfold near, balance, lot_cost in *. cbn [lot_realized empty_lot lot_quantity lot_entry_price lot_entry_fees] in *.
  rewrite val_d0 in N1, N2. lra.
Qed.

End LedgerFacts.

(** ** Concrete replays *)

#[local] Existing Instance default_context.

Definition demo_ledger_fill (side : OrderSide) (price quantity fee : decimal) : LedgerFill :=
  {| ledger_side := side; ledger_price := price; ledger_quantity := quantity; ledger_fee := fee; ledger_filled_at := 0 |}.

(** Open, add, reduce and close a long, then a short covered in two parts. *)
Definition demo_ledger_fills : list LedgerFill := [
  demo_ledger_fill BUY (of_Z 100) (of_Z 3) (Dec 3 (-1)); demo_ledger_fill BUY (of_Z 110) (of_Z 4) (Dec 44 (-2));
  demo_ledger_fill SELL (of_Z 120) (of_Z 2) (Dec 24 (-2)); demo_ledger_fill SELL (of_Z 90) (of_Z 5) (Dec 45 (-2));
  demo_ledger_fill SELL (of_Z 95) (of_Z 3) (Dec 1 (-1)); demo_ledger_fill BUY (of_Z 80) (of_Z 1) (Dec 1 (-1))].

Lemma replay_accounts_for_cash_witness :
  sound_fills empty_lot demo_ledger_fills = true ∧
  ∃ c lot equities, _fold_fills (of_Z 1000) demo_ledger_fills = Ok (c, lot, equities) ∧
    near (slack * replay_touched (of_Z 1000) empty_lot demo_ledger_fills) (val c)
      (val (of_Z 1000) + val (lot_realized lot) - lot_cost lot - val (lot_entry_fees lot)).
Proof.
  assert (H : sound_fills empty_lot demo_ledger_fills = true) by (vm_compute; reflexivity).
  split; [exact H|]. exact (replay_accounts_for_cash default_wide _ _ H).
Defined.

(** A sell of twice the open long books the profit of both units, though one unit was open; the
    mirrored buy over a short books one. The replay's two sides disagree on closing too much. *)
Definition oversold_lot : result _LotState :=
  lot ← fold_fill empty_lot (demo_ledger_fill BUY (of_Z 100) d1 d0);
  fold_fill lot (demo_ledger_fill SELL (of_Z 110) (of_Z 2) d0).

Definition overbought_lot : result _LotState :=
  lot ← fold_fill empty_lot (demo_ledger_fill SELL (of_Z 110) d1 d0);
  fold_fill lot (demo_ledger_fill BUY (of_Z 100) (of_Z 2) d0).

Lemma over_closing_is_asymmetric :
  (lot_realized <$> oversold_lot) = Ok (of_Z 20) ∧ (lot_realized <$> overbought_lot) = Ok (of_Z 10).
Proof. by vm_compute. Qed.
