(* ===== verification/RiskModels.v ===== *)
(** * RiskModels: products, policies and verdicts

    [market_data/products.py], [risk/models.py] and [risk/futures_policy.py]. *)

From Stdlib Require Import Ascii.
From S2P Require Import Prelude Decimals Market Geometry TradingModels.

(** * Spot product identifiers ([market_data/products.py])

    The pattern [^[A-Z0-9]{2,20}-(?:USD|USDC|USDT)$] on the stripped, upper-cased text. *)

Definition SPOT_QUOTE_CURRENCIES : list string := ["USD"; "USDC"; "USDT"].

Definition normalized (product_id : string) : list ascii := upper <$> strip (String.list_ascii_of_string product_id).

(** The base and the quote of a normalized identifier that matches the pattern. *)
Definition match_spot (product_id : list ascii) : option (string * string) :=
  let (code, rest) := split_dash product_id in
  let quote := String.string_of_list_ascii (tail rest) in
  if ((2 <=? length code) && (length code <=? 20) && forallb (λ c, is_upper c || is_decimal_digit c) code
      && bool_decide (rest ≠ []) && bool_decide (quote ∈ SPOT_QUOTE_CURRENCIES))%nat
  then Some (String.string_of_list_ascii code, quote) else None.

Definition SPOT_PRODUCT_ID_ERROR : error :=
  ValueError "product_id must be a BASE-USD, BASE-USDC, or BASE-USDT spot identifier.".

Definition normalize_spot_product_id (product_id : string) : result string :=
  match match_spot (normalized product_id) with
  | Some _ => Ok (String.string_of_list_ascii (normalized product_id))
  | None => Raise SPOT_PRODUCT_ID_ERROR
  end.

Definition parse_spot_product_id (product_id : string) : result (string * string) :=
  match match_spot (normalized product_id) with
  | Some parts => Ok parts
  | None => Raise SPOT_PRODUCT_ID_ERROR
  end.

Definition base_currency (product_id : string) : result string := fst <$> parse_spot_product_id product_id.
Definition quote_currency (product_id : string) : result string := snd <$> parse_spot_product_id product_id.
Definition is_spot_product_id (product_id : string) : bool := bool_decide (is_Some (match_spot (normalized product_id))).

Lemma quote_currency_spot product_id : is_spot_product_id product_id = true ↔ is_ok (quote_currency product_id).
Proof.
  unfold is_spot_product_id, quote_currency, parse_spot_product_id, is_ok. rewrite bool_decide_eq_true.
  destruct (match_spot _) as [[b q]|]; cbn; split; try (by intros [? [=]]); eauto.
Qed.

Lemma quote_currency_listed product_id q : quote_currency product_id = Ok q → q ∈ SPOT_QUOTE_CURRENCIES.
Proof.
  unfold quote_currency, parse_spot_product_id, match_spot. destruct (split_dash _) as [code rest]. cbn zeta.
  match goal with |- context [if ?b then _ else _] => destruct b eqn:E end; [|done].
  intros [= <-]. apply andb_prop_iff in E as [_ E]. by apply bool_decide_eq_true in E.
Qed.

(** No identifier is both a spot product and a futures contract. *)
Lemma futures_not_spot product_id : is_futures_product_id product_id = true → is_spot_product_id product_id = false.
Proof.
  unfold is_futures_product_id, is_spot_product_id, match_spot. change (upper <$> strip (String.list_ascii_of_string product_id)) with (normalized product_id).
  destruct (split_dash (normalized product_id)) as [code rest]. cbn zeta.
  intros (_ & Hrest)%andb_prop_iff. apply bool_decide_false.
  repeat (destruct rest as [|?c rest]; try discriminate Hrest).
  rewrite !andb_prop_iff in Hrest. cbn.
  match goal with |- context [bool_decide (?q ∈ SPOT_QUOTE_CURRENCIES)] => assert (q ∉ SPOT_QUOTE_CURRENCIES) as Hq end.
  { unfold SPOT_QUOTE_CURRENCIES. rewrite !elem_of_cons, elem_of_nil. intros [[=]|[[=]|[[=]|[]]]]. }
  rewrite bool_decide_false by exact Hq. rewrite andb_false_r. by intros [? [=]].
Qed.

Example spot_ids :
  parse_spot_product_id " btc-usdc " = Ok ("BTC", "USDC") ∧ is_spot_product_id "BTC-EUR" = false ∧
  is_spot_product_id "B-USD" = false ∧ is_spot_product_id "BIT-28AUG26-CDE" = false.
Proof. by vm_compute. Qed.

Open Scope Z_scope.

(** * Risk-policy documents ([risk/models.py], [risk/futures_policy.py])

    The policy a gate reads, with the validators its construction runs, and the verdicts it
    returns. A decimal field is the number its text parses to. A verdict keeps its decision
    and reason code; the detail text is left out. Fingerprints and stored JSON are outside. *)

Inductive RiskPolicySource := COMPILED_DEFAULT | PUBLISHED.
Inductive RiskDecision := ALLOW | DENY.

#[global] Instance risk_policy_source_eq_dec : EqDecision RiskPolicySource. Proof. solve_decision. Defined.
#[global] Instance risk_decision_eq_dec : EqDecision RiskDecision. Proof. solve_decision. Defined.

Inductive RiskReasonCode :=
  | ALLOWED | PRODUCT_NOT_ALLOWLISTED | MAX_RUNNING_DEPLOYMENTS | MAX_OPEN_POSITIONS | PAPER_CAPITAL_EXCEEDED
  | STRATEGY_NOT_ALLOCATED | ALLOCATION_EXCEEDED | PORTFOLIO_EXPOSURE_EXCEEDED | PRODUCT_EXPOSURE_EXCEEDED
  | DISCRETIONARY_NOT_ALLOCATED | DAILY_LOSS_LIMIT | STRATEGY_DRAWDOWN_LIMIT | ORDER_RATE_LIMIT | CANCEL_RATE_LIMIT
  | REFERENCE_PRICE_COLLAR | REFERENCE_PRICE_UNAVAILABLE | BREAKER_MARK_MISSING | PYRAMIDING_NOT_ALLOWED
  | LIVE_REQUIRES_PUBLISHED_POLICY | VENUE_REQUEST_BUDGET_EXCEEDED | MAX_ORDER_QUANTITY | MAX_ORDER_NOTIONAL
  | BALANCE_RESERVE | STALE_MARK | PRODUCT_DISABLED | CONNECTION_UNHEALTHY | VENUE_BALANCE_UNKNOWN | SIGNAL_STALE
  | ENTRIES_DISABLED | PORTFOLIO_TOTAL_EXPOSURE_LIMIT | PORTFOLIO_ASSET_EXPOSURE_LIMIT | PORTFOLIO_BREAKER_LATCHED
  | PORTFOLIO_DAILY_LOSS_STOP | PORTFOLIO_DRAWDOWN_STOP | PORTFOLIO_LIMITS_UNAVAILABLE | FLEET_ENTRY_CLUSTER_LIMIT
  | BTC_BETA_EXPOSURE_EXCEEDED | BTC_BETA_UNAVAILABLE | FUTURES_COLLATERAL_UNKNOWN | FUTURES_COLLATERAL_IN_USE
  | FUTURES_COLLATERAL_RESERVE_SHORT | FUTURES_LIVE_UNSUPPORTED | FUTURES_PAPER_UNSUPPORTED | FUTURES_POLICY_UNSET
  | FUTURES_PAPER_CAPITAL_EXCEEDED | FUTURES_CONTRACT_UNBOUND | FUTURES_MARGIN_UNKNOWN | FUTURES_LEVERAGE_EXCEEDED
  | FUTURES_LIQUIDATION_BUFFER | FUNDING_HISTORY_MISSING | SHARED_COLLATERAL_BREAKER | FUTURES_EXPOSURE_EXCEEDED
  | FUTURES_ORDER_CONTRACTS_EXCEEDED | FUTURES_FUNDING_RATE_EXCEEDED | FUTURES_LIVE_DISABLED
  | FUTURES_LIVE_CAPITAL_UNSET | FUTURES_LIVE_CAPITAL_EXCEEDED | FUTURES_PRODUCT_OCCUPIED
  | FUTURES_EXTERNAL_POSITION_ON_PRODUCT | FUTURES_LIVE_DATED_UNSUPPORTED | FUTURES_BUYING_POWER_SHORT
  | FUTURES_VENUE_KILLSWITCH | FUTURES_VENUE_MAINTENANCE | FUTURES_CONTRACT_DRIFT.

#[global] Instance risk_reason_code_eq_dec : EqDecision RiskReasonCode.
Proof. solve_decision. Defined.

Record RiskVerdict := { decision : RiskDecision; reason_code : RiskReasonCode }.

#[global] Instance risk_verdict_eq_dec : EqDecision RiskVerdict.
Proof. solve_decision. Defined.

Definition _allow : RiskVerdict := {| decision := ALLOW; reason_code := ALLOWED |}.
Definition _deny (reason : RiskReasonCode) : RiskVerdict := {| decision := DENY; reason_code := reason |}.

Definition pauses_risk_increasing (reason : RiskReasonCode) : bool :=
  bool_decide (reason ∈ [DAILY_LOSS_LIMIT; STRATEGY_DRAWDOWN_LIMIT]).

(** ** The futures block *)

Definition DEFAULT_LIQUIDATION_BUFFER_FRACTION : decimal := Dec 5 (-1).
Definition _MAX_FUTURES_LEVERAGE : decimal := of_Z 20.
Definition _MAX_FUNDING_RATE : decimal := Dec 1 (-2).
Definition _MAX_DERISK_MARGIN_RATIO : decimal := of_Z 100.
Definition MAX_FUTURES_ALLOWLISTED_PRODUCTS : nat := 32.
Definition DEFAULT_LIVE_MAX_ORDER_CONTRACTS : Z := 1.

Inductive BetaNetting := gross | net_by_underlying.

Module FuturesRiskPolicy.
Record FuturesRiskPolicy := {
  live_spot_collateral_reserve_quote : option decimal;
  peg_haircut : decimal;
  paper_capital_usd : option decimal;
  daily_loss_limit_fraction : option decimal;
  max_daily_loss_usd : option decimal;
  max_leverage : option decimal;
  min_liquidation_buffer_fraction : option decimal;
  max_exposure_fraction : option decimal;
  max_order_contracts : option Z;
  max_hourly_funding_rate_abs : option decimal;
  max_btc_beta_exposure_fraction : option decimal;
  beta_netting : option BetaNetting;
  live_enabled : option bool;
  live_capital_usd : option decimal;
  product_allowlist : option (list string);
  live_derisk_margin_ratio : option decimal;
  live_funding_drift_tolerance_usd : option decimal
}.
End FuturesRiskPolicy.
Notation FuturesRiskPolicy := FuturesRiskPolicy.FuturesRiskPolicy.

Definition liquidation_buffer_fraction (f : FuturesRiskPolicy) : decimal :=
  default DEFAULT_LIQUIDATION_BUFFER_FRACTION (FuturesRiskPolicy.min_liquidation_buffer_fraction f).
Definition nets_by_underlying (f : FuturesRiskPolicy) : bool :=
  match FuturesRiskPolicy.beta_netting f with Some net_by_underlying => true | _ => false end.
Definition live_opted_in (f : FuturesRiskPolicy) : bool :=
  match FuturesRiskPolicy.live_enabled f with Some true => true | _ => false end.
Definition effective_live_max_order_contracts (f : FuturesRiskPolicy) : Z :=
  default DEFAULT_LIVE_MAX_ORDER_CONTRACTS (FuturesRiskPolicy.max_order_contracts f).
Definition allowlists (f : FuturesRiskPolicy) (product_id : string) : bool :=
  bool_decide (product_id ∈ default [] (FuturesRiskPolicy.product_allowlist f)).

(** [fullmatch] of the futures pattern, without stripping or folding case. *)
Definition matches_futures_pattern (product_id : string) : bool :=
  is_futures_product_id product_id && bool_decide (normalized product_id = String.list_ascii_of_string product_id).

Definition optional {A} (ok : A → bool) (o : option A) : bool := match o with Some v => ok v | None => true end.
Definition distinct (l : list string) : bool := bool_decide (NoDup l).

(** The field bounds and validators of [FuturesRiskPolicy]. An empty allowlist is stored as unset. *)
Definition valid_futures_policy (f : FuturesRiskPolicy) : bool :=
  let positive d := (d0 <? d)%dec in
  optional (λ l, negb (bool_decide (l = [])) && distinct l && forallb matches_futures_pattern l
                 && (length l <=? MAX_FUTURES_ALLOWLISTED_PRODUCTS)%nat) (FuturesRiskPolicy.product_allowlist f)
  && optional (λ d, (d1 <? d) && (d <=? _MAX_DERISK_MARGIN_RATIO))%dec (FuturesRiskPolicy.live_derisk_margin_ratio f)
  && optional positive (FuturesRiskPolicy.max_daily_loss_usd f)
  && optional (λ d, (d1 <=? d) && (d <=? _MAX_FUTURES_LEVERAGE))%dec (FuturesRiskPolicy.max_leverage f)
  && optional (λ d, (d0 <=? d) && (d <? d1))%dec (FuturesRiskPolicy.min_liquidation_buffer_fraction f)
  && optional (λ d, (d0 <? d) && (d <=? _MAX_FUTURES_LEVERAGE))%dec (FuturesRiskPolicy.max_exposure_fraction f)
  && optional (λ d, (d0 <? d) && (d <=? _MAX_FUTURES_LEVERAGE))%dec (FuturesRiskPolicy.max_btc_beta_exposure_fraction f)
  && optional (λ d, (d0 <? d) && (d <=? _MAX_FUNDING_RATE))%dec (FuturesRiskPolicy.max_hourly_funding_rate_abs f)
  && optional positive (FuturesRiskPolicy.live_spot_collateral_reserve_quote f)
  && optional positive (FuturesRiskPolicy.paper_capital_usd f)
  && optional positive (FuturesRiskPolicy.live_capital_usd f)
  && optional positive (FuturesRiskPolicy.live_funding_drift_tolerance_usd f)
  && optional (λ d, (d0 <? d) && (d <=? d1))%dec (FuturesRiskPolicy.daily_loss_limit_fraction f)
  && optional (λ n, (1 <=? n) && (n <=? 1000000)) (FuturesRiskPolicy.max_order_contracts f)
  && (d1 <=? FuturesRiskPolicy.peg_haircut f)%dec.

(** ** The policy *)

Record CapitalAllocation := { alloc_strategy_id : UUID; alloc_quote : decimal }.
Record DeskAllocation := { desk_id_ : string; desk_quote : decimal }.

Definition MAX_CONCURRENT_LIMIT : Z := 128.
Definition MAX_ALLOWLISTED_PRODUCTS : nat := 256.
Definition MAX_FLEET_ENTRIES_PER_WINDOW : Z := MAX_CONCURRENT_LIMIT.
Definition MAX_FLEET_ENTRY_WINDOW_MINUTES : Z := 1440.

Module RiskPolicyDefinition.
Record RiskPolicyDefinition := {
  policy_id : UUID;
  version : Z;
  quote_currency : string;
  product_allowlist : list string;
  max_concurrent_running_deployments : Z;
  max_concurrent_open_positions : Z;
  max_portfolio_exposure_fraction : decimal;
  per_product_max_exposure_fraction : decimal;
  paper_capital_quote : decimal;
  allocations : list CapitalAllocation;
  desk_allocations : list DeskAllocation;
  daily_loss_limit_fraction : decimal;
  max_strategy_drawdown_fraction : decimal;
  max_entry_orders_per_minute : Z;
  max_cancellations_per_minute : Z;
  reference_price_collar_fraction : decimal;
  allow_intra_strategy_pyramiding : bool;
  max_daily_loss_quote : option decimal;
  max_portfolio_exposure_quote : option decimal;
  max_venue_order_actions_per_minute : option Z;
  max_order_quantity : option decimal;
  max_order_notional_quote : option decimal;
  min_available_quote_reserve : option decimal;
  max_fleet_entries_per_window : option Z;
  fleet_entry_window_minutes : option Z;
  max_btc_beta_exposure_fraction : option decimal;
  max_btc_beta_exposure_quote : option decimal;
  futures : option FuturesRiskPolicy
}.
End RiskPolicyDefinition.
Notation RiskPolicyDefinition := RiskPolicyDefinition.RiskPolicyDefinition.
Import RiskPolicyDefinition (policy_id, version, product_allowlist, max_concurrent_running_deployments,
  max_concurrent_open_positions, max_portfolio_exposure_fraction, per_product_max_exposure_fraction,
  paper_capital_quote, allocations, desk_allocations, max_strategy_drawdown_fraction, max_entry_orders_per_minute,
  max_cancellations_per_minute, reference_price_collar_fraction, allow_intra_strategy_pyramiding, max_daily_loss_quote,
  max_portfolio_exposure_quote, max_venue_order_actions_per_minute, max_order_quantity, max_order_notional_quote,
  min_available_quote_reserve, max_fleet_entries_per_window, fleet_entry_window_minutes, max_btc_beta_exposure_fraction,
  max_btc_beta_exposure_quote, futures).

Definition _unit_fraction (value : decimal) : bool := ((d0 <? value) && (value <=? d1))%dec.

Definition require_fleet_window_pair {A B} (count : option A) (window_minutes : option B) : bool :=
  match count, window_minutes with Some _, Some _ | None, None => true | _, _ => false end.

(** [fullmatch] of [SPOT_PRODUCT_ID_PATTERN], without stripping or folding case. *)
Definition matches_spot_pattern (product_id : string) : bool :=
  bool_decide (is_Some (match_spot (String.list_ascii_of_string product_id))).

Definition between (lo hi n : Z) : bool := (lo <=? n) && (n <=? hi).

Section Policy.
Context {dc : DecimalContext}.

Definition validate_allocations (p : RiskPolicyDefinition) : bool :=
  distinct (alloc_strategy_id <$> allocations p) && distinct (desk_id_ <$> desk_allocations p)
  && (dsum ((alloc_quote <$> allocations p) ++ (desk_quote <$> desk_allocations p)) <=? paper_capital_quote p)%dec.

(** The field bounds and validators of [RiskPolicyDefinition]. *)
Definition valid_policy (p : RiskPolicyDefinition) : bool :=
  let positive d := (d0 <? d)%dec in
  (1 <=? version p) && bool_decide (RiskPolicyDefinition.quote_currency p ∈ SPOT_QUOTE_CURRENCIES)
  && between 1 MAX_CONCURRENT_LIMIT (max_concurrent_running_deployments p)
  && between 1 MAX_CONCURRENT_LIMIT (max_concurrent_open_positions p)
  && between 1 1000 (max_entry_orders_per_minute p) && between 1 1000 (max_cancellations_per_minute p)
  && optional (between 1 10000) (max_venue_order_actions_per_minute p)
  && optional (between 1 MAX_FLEET_ENTRIES_PER_WINDOW) (max_fleet_entries_per_window p)
  && optional (between 1 MAX_FLEET_ENTRY_WINDOW_MINUTES) (fleet_entry_window_minutes p)
  && distinct (product_allowlist p) && (length (product_allowlist p) <=? MAX_ALLOWLISTED_PRODUCTS)%nat
  && forallb matches_spot_pattern (product_allowlist p)
  && forallb (λ a, positive (alloc_quote a)) (allocations p) && forallb (λ a, positive (desk_quote a)) (desk_allocations p)
  && forallb (optional positive) [max_daily_loss_quote p; max_portfolio_exposure_quote p; max_order_quantity p;
       max_order_notional_quote p; min_available_quote_reserve p; max_btc_beta_exposure_quote p]
  && forallb _unit_fraction [max_portfolio_exposure_fraction p; per_product_max_exposure_fraction p;
       RiskPolicyDefinition.daily_loss_limit_fraction p; max_strategy_drawdown_fraction p; reference_price_collar_fraction p]
  && optional _unit_fraction (max_btc_beta_exposure_fraction p)
  && positive (paper_capital_quote p) && validate_allocations p
  && require_fleet_window_pair (max_fleet_entries_per_window p) (fleet_entry_window_minutes p)
  && optional valid_futures_policy (futures p).

End Policy.

Definition COMPILED_POLICY_ID : UUID := "01978a3e-5f2c-7d10-b3a4-0000000000aa".
Definition DEFAULT_DAILY_LOSS_LIMIT_FRACTION : decimal := d1.
Definition DEFAULT_MAX_STRATEGY_DRAWDOWN_FRACTION : decimal := d1.
Definition DEFAULT_MAX_ENTRY_ORDERS_PER_MINUTE : Z := 60.
Definition DEFAULT_MAX_CANCELLATIONS_PER_MINUTE : Z := 60.
Definition DEFAULT_REFERENCE_PRICE_COLLAR_FRACTION : decimal := Dec 5 (-1).

Definition compiled_default_risk_policy : RiskPolicyDefinition := {|
  policy_id := COMPILED_POLICY_ID;
  version := 1;
  RiskPolicyDefinition.quote_currency := "USDC";
  product_allowlist := [];
  max_concurrent_running_deployments := 8;
  max_concurrent_open_positions := 8;
  max_portfolio_exposure_fraction := d1;
  per_product_max_exposure_fraction := d1;
  paper_capital_quote := of_Z 100000;
  allocations := [];
  desk_allocations := [];
  RiskPolicyDefinition.daily_loss_limit_fraction := DEFAULT_DAILY_LOSS_LIMIT_FRACTION;
  max_strategy_drawdown_fraction := DEFAULT_MAX_STRATEGY_DRAWDOWN_FRACTION;
  max_entry_orders_per_minute := DEFAULT_MAX_ENTRY_ORDERS_PER_MINUTE;
  max_cancellations_per_minute := DEFAULT_MAX_CANCELLATIONS_PER_MINUTE;
  reference_price_collar_fraction := DEFAULT_REFERENCE_PRICE_COLLAR_FRACTION;
  allow_intra_strategy_pyramiding := false;
  max_daily_loss_quote := None;
  max_portfolio_exposure_quote := None;
  max_venue_order_actions_per_minute := None;
  max_order_quantity := None;
  max_order_notional_quote := None;
  min_available_quote_reserve := None;
  max_fleet_entries_per_window := None;
  fleet_entry_window_minutes := None;
  max_btc_beta_exposure_fraction := None;
  max_btc_beta_exposure_quote := None;
  futures := None
|}.

Example compiled_policy_is_valid : valid_policy (dc := default_context) compiled_default_risk_policy = true.
Proof. by vm_compute. Qed.
