(* ===== verification/EntryLimits.v ===== *)
(** * EntryLimits: exposure and the limits of an entry

    [trading/exposure.py], [lifecycle.py] and [entry_latch.py]; then membership, slots, exposure,
    order bounds, clustering and portfolio limits. *)

From S2P Require Import Prelude Decimals DecimalFacts Market Geometry Containers TradingModels Ledger RiskModels.

Open Scope Z_scope.

(** * What a book holds, works and occupies

    [trading/exposure.py], [trading/lifecycle.py], [trading/entry_latch.py] and
    [risk/gate_common.py]: the exposure of a book in quote currency, which books bear risk,
    when entries are allowed, and the vocabulary of the entry gate.

    Python iterates a set of strings in an unspecified order, and decimal addition rounds, so
    the order can matter. [SetOrder] is that order: a function of the insertions, of which the
    code may only rely on visiting every element once. *)

(** Iterating a [set] built by inserting the strings of a list. *)
Class SetOrder := {
  set_iter : list string → list string;
  set_iter_perm l : set_iter l ≡ₚ remove_dups l
}.

Lemma elem_of_set_iter {so : SetOrder} x l : x ∈ set_iter l ↔ x ∈ l.
Proof. by rewrite set_iter_perm, elem_of_remove_dups. Qed.

Lemma set_iter_NoDup {so : SetOrder} l : NoDup (set_iter l).
Proof. rewrite set_iter_perm. apply NoDup_remove_dups. Qed.

Definition insertion_order : SetOrder.
Proof. refine {| set_iter := remove_dups |}. done. Defined.

(** [{x for x in l if x]} *)
Definition nonempty (l : list string) : list string := List.filter (λ p, negb (bool_decide (p = ""))) l.

Definition with_orders (s : DeploymentSnapshot) (o : list Order) : DeploymentSnapshot :=
  DeploymentSnapshot.mk (DeploymentSnapshot.deployment s) (DeploymentSnapshot.position s) o (DeploymentSnapshot.fills s)
    (DeploymentSnapshot.intents s) (DeploymentSnapshot.positions s) (DeploymentSnapshot.instrument_runtimes s)
    (DeploymentSnapshot.accounting_complete s) (DeploymentSnapshot.funding s).

(** ** Status sets *)

Definition _OCCUPIED : list DeploymentStatus := [DeploymentStatus.RUNNING; DeploymentStatus.PAUSED].
Definition _DAILY_LOSS : list DeploymentStatus :=
  [DeploymentStatus.RUNNING; DeploymentStatus.PAUSED; DeploymentStatus.STOPPED].
Definition _IN_MARKET : list RuntimePhase := [RuntimePhase.OPEN; RuntimePhase.PENDING_ENTRY; RuntimePhase.PENDING_EXIT].
Definition _ACTIVE_ORDER : list OrderStatus := [OrderStatus.OPEN; OrderStatus.PENDING; OrderStatus.UNKNOWN].

Definition in_mode (mode : DeploymentMode) (d : Deployment) : bool := bool_decide (Deployment.mode d = mode).

Section Exposure.
Context {dc : DecimalContext}.

(** ** Exposure of one book *)

Definition entry_purpose (purposes : dict UUID IntentPurpose) (intent_id : UUID) : bool :=
  bool_decide (default IntentPurpose.ENTRY (dict_get intent_id purposes) = IntentPurpose.ENTRY).

Definition intent_purposes (s : DeploymentSnapshot) : dict UUID IntentPurpose :=
  fold_left (λ d i, dict_set (OrderIntent.id i) (OrderIntent.purpose i) d) (DeploymentSnapshot.intents s) [].

(** One order's step of the loop of [working_entry_notional]. *)
Definition working_step (s : DeploymentSnapshot) (product_id : string) (total : decimal) (order : Order) : decimal :=
  match Order.price order with
  | None => total
  | Some price =>
      let remaining := (Order.quantity order - Order.filled_quantity order)%dec in
      if negb (bool_decide (Order.status order ∈ _ACTIVE_ORDER)) then total
      else if negb (bool_decide (resolved_product_id (Order.product_id order) (DeploymentSnapshot.deployment s) ∈ [""; product_id]))
      then total
      else if (remaining <=? d0)%dec then total
      else if is_venue_protection (Order.kind order) || negb (entry_purpose (intent_purposes s) (Order.intent_id order)) then total
      else (total + remaining * price)%dec
  end.

Definition working_entry_notional (s : DeploymentSnapshot) (product_id : string) : decimal :=
  fold_left (working_step s product_id) (DeploymentSnapshot.orders s) d0.

Definition position_cost (s : DeploymentSnapshot) (product_id : string) : decimal :=
  dsum ((λ p, (Position.quantity p * Position.entry_price p)%dec) <$>
    List.filter (λ p, bool_decide (resolved_product_id (Position.product_id p) (DeploymentSnapshot.deployment s) = product_id))
      (snapshot_positions s)).

Definition product_exposure (s : DeploymentSnapshot) (product_id : string) : decimal :=
  (position_cost s product_id + working_entry_notional s product_id)%dec.

Definition in_market (phase : RuntimePhase) : bool := bool_decide (phase ∈ _IN_MARKET).

Definition snapshot_has_residual_exposure (s : DeploymentSnapshot) : bool :=
  let d := DeploymentSnapshot.deployment s in
  match snapshot_positions s, DeploymentSnapshot.instrument_runtimes s with
  | _ :: _, _ => true
  | [], (_ :: _) as runtimes =>
      existsb (λ r : InstrumentRuntime, in_market (Runtime.phase r)) runtimes
      || existsb (λ r, d0 <? working_entry_notional s (InstrumentRuntime.product_id r))%dec runtimes
  | [], [] =>
      in_market (Runtime.phase d)
      || match DeploymentSnapshot.position s with Some _ => true | None => false end
      || (d0 <? working_entry_notional s (Deployment.product_id d))%dec
  end.

(** ** Which books count *)

Definition counts_for_daily_loss (status : DeploymentStatus) : bool := bool_decide (status ∈ _DAILY_LOSS).

Definition occupies_running_slot (d : Deployment) : bool := bool_decide (Deployment.status d ∈ _OCCUPIED).

Definition occupies_risk (s : DeploymentSnapshot) : bool :=
  let d := DeploymentSnapshot.deployment s in
  if occupies_running_slot d then true
  else bool_decide (Deployment.status d = DeploymentStatus.STOPPED) && snapshot_has_residual_exposure s.

Definition risk_bearing_snapshots (snapshots : list DeploymentSnapshot) (mode : DeploymentMode) : list DeploymentSnapshot :=
  List.filter (λ item,
    let d := DeploymentSnapshot.deployment item in
    in_mode mode d && (bool_decide (Deployment.status d ∈ _OCCUPIED)
      || bool_decide (Deployment.status d = DeploymentStatus.STOPPED) && snapshot_has_residual_exposure item)) snapshots.

Definition daily_loss_snapshots (snapshots : list DeploymentSnapshot) (mode : DeploymentMode) : list DeploymentSnapshot :=
  List.filter (λ item, in_mode mode (DeploymentSnapshot.deployment item)
    && counts_for_daily_loss (Deployment.status (DeploymentSnapshot.deployment item))) snapshots.

(** Every status counts for daily loss, so every book of the mode does. *)
Lemma elem_of_daily_loss s l mode :
  s ∈ daily_loss_snapshots l mode ↔ s ∈ l ∧ Deployment.mode (DeploymentSnapshot.deployment s) = mode.
Proof.
  unfold daily_loss_snapshots, in_mode, counts_for_daily_loss, _DAILY_LOSS.
  rewrite elem_of_filter_bool, andb_prop_iff, !bool_decide_eq_true.
  destruct (Deployment.status _); set_solver.
Qed.

Lemma elem_of_risk_bearing s l mode :
  s ∈ risk_bearing_snapshots l mode ↔
  s ∈ l ∧ Deployment.mode (DeploymentSnapshot.deployment s) = mode ∧ occupies_risk s = true.
Proof.
  unfold risk_bearing_snapshots, in_mode, occupies_risk, occupies_running_slot.
  rewrite elem_of_filter_bool, andb_prop_iff, bool_decide_eq_true.
  case_bool_decide; cbn; tauto.
Qed.

End Exposure.

(** ** The process-wide entry latch ([entry_latch.py])

    The worker's last durable read, and a latch recorded for one task. *)

Record LatchCache := { cached_snapshot : option (gmap string bool); recorded_latch : option (string * bool) }.

Definition process_entry_inhibited (c : LatchCache) (mode : DeploymentMode) : bool :=
  match recorded_latch c with
  | Some (recorded_mode, inhibited) =>
      if decide (recorded_mode = mode_value mode) then inhibited
      else match cached_snapshot c with None => true | Some s => default true (s !! mode_value mode) end
  | None => match cached_snapshot c with None => true | Some s => default true (s !! mode_value mode) end
  end.

Definition remember_entry_inhibition (c : LatchCache) (snapshot : option (gmap string bool)) : LatchCache :=
  {| cached_snapshot := snapshot; recorded_latch := recorded_latch c |}.

Definition clear_entry_inhibition_cache (c : LatchCache) : LatchCache := remember_entry_inhibition c None.

(** The cache inside [entry_inhibition_scope]; the scope's end restores the old value. *)
Definition entry_inhibition_scope (c : LatchCache) (mode : DeploymentMode) (inhibited : bool) : LatchCache :=
  {| cached_snapshot := cached_snapshot c; recorded_latch := Some (mode_value mode, inhibited) |}.

(** ** Lifecycle guards *)

Definition entries_allowed (c : LatchCache) (d : Deployment) : bool :=
  if process_entry_inhibited c (Deployment.mode d) then false
  else bool_decide (Deployment.status d = DeploymentStatus.RUNNING)
    && bool_decide (Deployment.lifecycle_command d = LifecycleCommand.NONE)
    && negb (Deployment.daily_loss_latched d) && negb (Deployment.drawdown_latched d).

Definition can_reprice_risk_up (c : LatchCache) (d : Deployment) : bool := entries_allowed c d.

Definition command_for_status (status : DeploymentStatus) (flatten : bool) : LifecycleCommand :=
  match status with
  | DeploymentStatus.PAUSED => LifecycleCommand.STOP_NEW_ENTRIES
  | DeploymentStatus.RUNNING => LifecycleCommand.NONE
  | DeploymentStatus.STOPPED => if flatten then LifecycleCommand.FLATTEN else LifecycleCommand.MANAGED_SHUTDOWN
  end.

(** Entries are open only to a running book without commands or latches, in a mode whose latch
    was read as clear. *)
Lemma entries_allowed_iff c d :
  entries_allowed c d = true ↔
  process_entry_inhibited c (Deployment.mode d) = false ∧ Deployment.status d = DeploymentStatus.RUNNING ∧
  Deployment.lifecycle_command d = LifecycleCommand.NONE ∧
  Deployment.daily_loss_latched d = false ∧ Deployment.drawdown_latched d = false.
Proof.
  unfold entries_allowed. destruct (process_entry_inhibited _ _); [naive_solver|].
  rewrite !andb_prop_iff, !bool_decide_eq_true, !negb_true_iff. tauto.
Qed.

Lemma cleared_cache_inhibits c mode : recorded_latch c = None →
  process_entry_inhibited (clear_entry_inhibition_cache c) mode = true.
Proof. unfold process_entry_inhibited. cbn. by intros ->. Qed.

(** ** The proposed entry ([gate_common.py]) *)

Inductive EntryFunding := quote_funding | in_kind_funding.

Record ProposedEntry := {
  entry_product_id : string;
  entry_strategy_id : option UUID;
  entry_notional : decimal;
  is_pyramid_add : bool;
  entry_quantity : option decimal;
  funding_ : EntryFunding;
  readmits_working_entry : bool;
  entry_side : option PositionSide;
  desk_id : option string;
  desk_committed : decimal
}.

Definition in_kind (p : ProposedEntry) : bool := match funding_ p with in_kind_funding => true | quote_funding => false end.

Definition in_kind_capital (p : ProposedEntry) : decimal := if in_kind p then entry_notional p else d0.

Section Books.
Context {dc : DecimalContext} {so : SetOrder}.

(** The insertions that build the set of a book's products. *)
Definition book_product_insertions (s : DeploymentSnapshot) : list string :=
  let d := DeploymentSnapshot.deployment s in
  Deployment.product_id d
  :: ((λ p, resolved_product_id (Position.product_id p) d) <$> snapshot_positions s)
  ++ (InstrumentRuntime.product_id <$> DeploymentSnapshot.instrument_runtimes s)
  ++ ((λ o, resolved_product_id (Order.product_id o) d) <$> DeploymentSnapshot.orders s).

Definition _book_products (s : DeploymentSnapshot) : list string :=
  set_iter (nonempty (set_iter (book_product_insertions s))).

Definition _marked_exposure (s : DeploymentSnapshot) : decimal := dsum (product_exposure s <$> _book_products s).

Lemma elem_of_book_products s p : p ∈ _book_products s ↔ p ∈ book_product_insertions s ∧ p ≠ "".
Proof.
  unfold _book_products, nonempty. rewrite elem_of_set_iter, elem_of_filter_bool, elem_of_set_iter, negb_true_iff, bool_decide_eq_false.
  tauto.
Qed.

End Books.

(** * Membership, slots, exposure and order bounds

    [risk/entry_limits.py], [order_bounds.py], [entry_clustering.py], [portfolio_limits.py] and
    [portfolio_scope.py]. A check returns [None] when it has no objection. [quote_currency]
    raises on an identifier that is not a spot product, and rendering an amount of more than
    twenty-eight digits for a message raises, so the checks that use them are [result]s. *)

Import RiskPolicyDefinition (product_allowlist, max_concurrent_open_positions, max_portfolio_exposure_fraction,
  per_product_max_exposure_fraction, paper_capital_quote, allocations, desk_allocations, allow_intra_strategy_pyramiding,
  max_portfolio_exposure_quote, max_order_quantity, max_order_notional_quote, min_available_quote_reserve,
  max_fleet_entries_per_window, fleet_entry_window_minutes, futures).

Definition denied (v : RiskVerdict) : bool := bool_decide (decision v = DENY).

(** The first objection wins: [if verdict is not None: return verdict]. *)
Definition objection (check : result (option RiskVerdict)) (rest : result (option RiskVerdict)) : result (option RiskVerdict) :=
  v ← check; match v with Some _ => Ok v | None => rest end.

Definition object_if (b : bool) (reason : RiskReasonCode) : option RiskVerdict := if b then Some (_deny reason) else None.

Lemma objection_None check rest : objection check rest = Ok None ↔ check = Ok None ∧ rest = Ok None.
Proof. unfold objection. destruct check as [[v|]|]; cbn; naive_solver. Qed.

Lemma object_if_None b reason : object_if b reason = None ↔ b = false.
Proof. unfold object_if. destruct b; naive_solver. Qed.

Section EntryLimits.
Context {dc : DecimalContext} {so : SetOrder}.

(** ** Membership ([entry_limits.py]) *)

Definition _allowlist_verdict (policy : RiskPolicyDefinition) (product_id : string) : RiskVerdict :=
  if is_futures_product_id product_id then
    match futures policy ≫= FuturesRiskPolicy.product_allowlist with
    | None | Some [] => _allow
    | Some listed => if decide (product_id ∈ listed) then _allow else _deny PRODUCT_NOT_ALLOWLISTED
    end
  else if bool_decide (product_allowlist policy = []) || bool_decide (product_id ∈ product_allowlist policy) then _allow
  else _deny PRODUCT_NOT_ALLOWLISTED.

Definition _allocation_membership (policy : RiskPolicyDefinition) (strategy_id : option UUID) (mode : DeploymentMode)
    (portfolio_member futures_entry : bool) (desk : option string) : RiskVerdict :=
  if negb (bool_decide (mode = DeploymentMode.LIVE)) || futures_entry then _allow
  else match strategy_id with
  | None =>
      if bool_decide (allocations policy = []) && bool_decide (desk_allocations policy = []) then _allow
      else match desk with
      | Some desk =>
          if existsb (λ item, bool_decide (desk_id_ item = desk)) (desk_allocations policy) then _allow
          else _deny DISCRETIONARY_NOT_ALLOCATED
      | None => _deny DISCRETIONARY_NOT_ALLOCATED
      end
  | Some strategy_id =>
      if bool_decide (allocations policy = []) then _allow
      else if portfolio_member then _allow
      else if existsb (λ item, bool_decide (alloc_strategy_id item = strategy_id)) (allocations policy) then _allow
      else _deny STRATEGY_NOT_ALLOCATED
  end.

Definition open_position_slot_count (s : DeploymentSnapshot) : Z :=
  let d := DeploymentSnapshot.deployment s in
  let products := (λ p, resolved_product_id (Position.product_id p) d) <$> snapshot_positions s in
  let products :=
    match DeploymentSnapshot.instrument_runtimes s with
    | [] =>
        products ++ (if match DeploymentSnapshot.position s with Some _ => true | None => false end || in_market (Runtime.phase d)
                     then [Deployment.product_id d] else [])
    | runtimes =>
        products ++ (InstrumentRuntime.product_id <$> List.filter (λ r : InstrumentRuntime, in_market (Runtime.phase r)) runtimes)
    end in
  Z.of_nat (length (remove_dups products)).

Definition sum_Z (l : list Z) : Z := foldr Z.add 0 l.

Definition _entry_membership (policy : RiskPolicyDefinition) (mode : DeploymentMode) (proposed : ProposedEntry)
    (occupied : list DeploymentSnapshot) (portfolio_member : bool) : RiskVerdict :=
  let allowlisted := _allowlist_verdict policy (entry_product_id proposed) in
  if denied allowlisted then allowlisted
  else
    let allocated := _allocation_membership policy (entry_strategy_id proposed) mode portfolio_member
      (is_futures_product_id (entry_product_id proposed)) (desk_id proposed) in
    if denied allocated then allocated
    else if is_pyramid_add proposed && negb (allow_intra_strategy_pyramiding policy) then _deny PYRAMIDING_NOT_ALLOWED
    else if negb (is_pyramid_add proposed)
         && (max_concurrent_open_positions policy <=? sum_Z (open_position_slot_count <$> occupied))
    then _deny MAX_OPEN_POSITIONS
    else _allow.

(** ** The capital base *)

Definition buy_orders (s : DeploymentSnapshot) : DeploymentSnapshot :=
  with_orders s (List.filter (λ o, bool_decide (Order.side o = BUY)) (DeploymentSnapshot.orders s)).

(** The working entries of a book, over every product it names. *)
Definition working_reserved (s : DeploymentSnapshot) : decimal := dsum (working_entry_notional s <$> _book_products s).

Definition _held_quote_capital (s : DeploymentSnapshot) : decimal :=
  let inventory := dsum ((λ p, (Position.quantity p * Position.entry_price p)%dec) <$>
    List.filter (λ p, bool_decide (Position.side p = LONG)) (snapshot_positions s)) in
  (inventory + working_reserved (buy_orders s))%dec.

Definition _capital_base (policy : RiskPolicyDefinition) (mode : DeploymentMode) (live_quote_cash : option decimal)
    (occupied : list DeploymentSnapshot) (in_kind_notional : decimal) : decimal :=
  match mode with
  | DeploymentMode.PAPER => paper_capital_quote policy
  | DeploymentMode.LIVE =>
      match live_quote_cash with
      | None => d0
      | Some cash =>
          if (cash <? d0)%dec then d0
          else (cash + dsum (_held_quote_capital <$> occupied) + in_kind_notional)%dec
      end
  end.

(** ** Exposure caps *)

Definition _desk_reservation_verdict (policy : RiskPolicyDefinition) (proposed : ProposedEntry) (mode : DeploymentMode)
    : result (option RiskVerdict) :=
  match desk_id proposed with
  | None => Ok None
  | Some desk =>
      if negb (bool_decide (mode = DeploymentMode.LIVE)) then Ok None
      else match find (λ item, bool_decide (desk_id_ item = desk)) (desk_allocations policy) with
      | None => Ok None
      | Some item =>
          quoted ← quote_currency (entry_product_id proposed);
          if negb (bool_decide (quoted = RiskPolicyDefinition.quote_currency policy)) then Ok (Some (_deny ALLOCATION_EXCEEDED))
          else Ok (object_if (desk_quote item <? desk_committed proposed + entry_notional proposed)%dec ALLOCATION_EXCEEDED)
      end
  end.

Definition _allocation_for (policy : RiskPolicyDefinition) (strategy_id : option UUID) : option decimal :=
  match strategy_id with
  | None => None
  | Some strategy_id =>
      alloc_quote <$> find (λ item, bool_decide (alloc_strategy_id item = strategy_id)) (allocations policy)
  end.

Definition portfolio_cap (policy : RiskPolicyDefinition) (mode : DeploymentMode) (capital : decimal) : decimal :=
  let cap := (capital * max_portfolio_exposure_fraction policy)%dec in
  match max_portfolio_exposure_quote policy, mode with
  | Some absolute, DeploymentMode.LIVE => dmin cap absolute
  | _, _ => cap
  end.

Definition of_strategy (strategy_id : option UUID) (occupied : list DeploymentSnapshot) : list DeploymentSnapshot :=
  List.filter (λ item, bool_decide (Deployment.strategy_id (DeploymentSnapshot.deployment item) = strategy_id)) occupied.

Definition _exposure_verdict (policy : RiskPolicyDefinition) (mode : DeploymentMode) (proposed : ProposedEntry)
    (occupied : list DeploymentSnapshot) (live_quote_cash : option decimal) : result RiskVerdict :=
  let existing_total := dsum (_marked_exposure <$> occupied) in
  let existing_product := dsum ((λ item, product_exposure item (entry_product_id proposed)) <$> occupied) in
  let capital := _capital_base policy mode live_quote_cash occupied (in_kind_capital proposed) in
  if (capital <=? d0)%dec then Ok (_deny PORTFOLIO_EXPOSURE_EXCEEDED)
  else if (portfolio_cap policy mode capital <? existing_total + entry_notional proposed)%dec
  then Ok (_deny PORTFOLIO_EXPOSURE_EXCEEDED)
  else if (capital * per_product_max_exposure_fraction policy <? existing_product + entry_notional proposed)%dec
  then Ok (_deny PRODUCT_EXPOSURE_EXCEEDED)
  else
    desk_verdict ← _desk_reservation_verdict policy proposed mode;
    match desk_verdict with
    | Some verdict => Ok verdict
    | None =>
        match _allocation_for policy (entry_strategy_id proposed) with
        | None => Ok _allow
        | Some reserved =>
            let strategy_exposure := dsum (_marked_exposure <$> of_strategy (entry_strategy_id proposed) occupied) in
            if (reserved <? strategy_exposure + entry_notional proposed)%dec then Ok (_deny ALLOCATION_EXCEEDED) else Ok _allow
        end
    end.

Definition _occupied (deployments : list Deployment) (mode : DeploymentMode) : list Deployment :=
  List.filter (λ item, in_mode mode item && occupies_running_slot item) deployments.

(** ** Order bounds ([order_bounds.py]) *)

Definition _quantity_bound (policy : RiskPolicyDefinition) (proposed : ProposedEntry) : option RiskVerdict :=
  match max_order_quantity policy with
  | None => None
  | Some cap =>
      match entry_quantity proposed with
      | None => Some (_deny MAX_ORDER_QUANTITY)
      | Some quantity => object_if (cap <? quantity)%dec MAX_ORDER_QUANTITY
      end
  end.

Definition _notional_bound (policy : RiskPolicyDefinition) (proposed : ProposedEntry) : option RiskVerdict :=
  match max_order_notional_quote policy with
  | None => None
  | Some cap => object_if (negb (entry_notional proposed <=? cap))%dec MAX_ORDER_NOTIONAL
  end.

(** Local buy remainders the venue does not hold yet; [None] while a submission is ambiguous. *)
Fixpoint unheld_step (reserved : decimal) (books : list DeploymentSnapshot) : option decimal :=
  match books with
  | [] => Some reserved
  | item :: books =>
      let buys := buy_orders item in
      if existsb (λ o, bool_decide (Order.status o ∈ [OrderStatus.PENDING; OrderStatus.UNKNOWN])) (DeploymentSnapshot.orders buys)
      then None
      else
        let unheld := with_orders buys
          (List.filter (λ o, bool_decide (Order.venue_order_id o = None)) (DeploymentSnapshot.orders buys)) in
        unheld_step (reserved + working_reserved unheld)%dec books
  end.

Definition _local_unheld_buy_quote (books : list DeploymentSnapshot) : option decimal := unheld_step d0 books.

(** The paper loop: the change of cash, the working buys and the largest taker rate. *)
Fixpoint paper_headroom (cash_change pending fee_rate : decimal) (books : list DeploymentSnapshot)
    : option (decimal * decimal * decimal) :=
  match books with
  | [] => Some (cash_change, pending, fee_rate)
  | item :: books =>
      let d := DeploymentSnapshot.deployment item in
      match first_some (Deployment.initial_equity d) (Deployment.paper_starting_cash d) with
      | None => None
      | Some opening =>
          let (_, taker) := effective_paper_fee_rates (Deployment.paper_maker_fee_rate d) (Deployment.paper_taker_fee_rate d) in
          paper_headroom (cash_change + (Deployment.cash d - opening))%dec (pending + working_reserved (buy_orders item))%dec
            (dmax fee_rate taker) books
      end
  end.

Definition _available_after_entry (policy : RiskPolicyDefinition) (mode : DeploymentMode) (proposed : ProposedEntry)
    (occupied : list DeploymentSnapshot) (live_quote_cash : option decimal) : option decimal :=
  match mode with
  | DeploymentMode.LIVE =>
      cash ← live_quote_cash;
      if (cash <? d0)%dec then None
      else reserved ← _local_unheld_buy_quote occupied; Some (cash - reserved - entry_notional proposed)%dec
  | DeploymentMode.PAPER =>
      '(cash_change, pending, fee_rate) ← paper_headroom d0 d0 d0 occupied;
      let fee_rate := match occupied with [] => (effective_paper_fee_rates None None).2 | _ => fee_rate end in
      Some (paper_capital_quote policy + cash_change - pending * (d1 + fee_rate) - entry_notional proposed * (d1 + fee_rate))%dec
  end.

Definition _reserve_bound (policy : RiskPolicyDefinition) (mode : DeploymentMode) (proposed : ProposedEntry)
    (occupied : list DeploymentSnapshot) (live_quote_cash : option decimal) : option RiskVerdict :=
  match min_available_quote_reserve policy with
  | None => None
  | Some required =>
      match _available_after_entry policy mode proposed occupied live_quote_cash with
      | None => Some (_deny BALANCE_RESERVE)
      | Some available => object_if (available <? required)%dec BALANCE_RESERVE
      end
  end.

Definition _order_bound_verdict (policy : RiskPolicyDefinition) (mode : DeploymentMode) (proposed : ProposedEntry)
    (occupied : list DeploymentSnapshot) (live_quote_cash : option decimal) : result (option RiskVerdict) :=
  match _quantity_bound policy proposed with
  | Some v => Ok (Some v)
  | None =>
      let set {A} (o : option A) := match o with Some _ => true | None => false end in
      let monetary_bound := set (max_order_notional_quote policy) || set (min_available_quote_reserve policy) in
      objection
        (if monetary_bound then
           quoted ← quote_currency (entry_product_id proposed);
           Ok (object_if (negb (bool_decide (quoted = RiskPolicyDefinition.quote_currency policy))) BREAKER_MARK_MISSING)
         else Ok None)
        (match _notional_bound policy proposed with
         | Some v => Ok (Some v)
         | None => Ok (_reserve_bound policy mode proposed occupied live_quote_cash)
         end)
  end.

(** ** Fleet clustering ([entry_clustering.py]) *)

Definition cluster_step (d : Deployment) (since : datetime) (latest : gmap (UUID * string) datetime) (intent : OrderIntent)
    : gmap (UUID * string) datetime :=
  if negb (bool_decide (OrderIntent.purpose intent = IntentPurpose.ENTRY)) || (OrderIntent.created_at intent <? since) then latest
  else
    let key := (Deployment.id d, resolved_product_id (OrderIntent.product_id intent) d) in
    match latest !! key with
    | None => <[key := OrderIntent.created_at intent]> latest
    | Some prior => if prior <? OrderIntent.created_at intent then <[key := OrderIntent.created_at intent]> latest else latest
    end.

Definition cluster_book (mode : DeploymentMode) (since : datetime) (latest : gmap (UUID * string) datetime)
    (s : DeploymentSnapshot) : gmap (UUID * string) datetime :=
  let d := DeploymentSnapshot.deployment s in
  if negb (in_mode mode d) then latest else fold_left (cluster_step d since) (DeploymentSnapshot.intents s) latest.

Definition _latest_entry_per_book_product (snapshots : list DeploymentSnapshot) (mode : DeploymentMode) (since : datetime)
    : gmap (UUID * string) datetime :=
  fold_left (cluster_book mode since) snapshots ∅.

(** [as_of] is the observation's instant, when there is an observation. *)
Definition cluster_verdict (policy : RiskPolicyDefinition) (mode : DeploymentMode) (proposed : ProposedEntry)
    (snapshots : list DeploymentSnapshot) (as_of : option datetime) : option RiskVerdict :=
  match max_fleet_entries_per_window policy, fleet_entry_window_minutes policy with
  | Some limit, Some minutes =>
      if in_kind proposed || readmits_working_entry proposed then None
      else match as_of with
      | None => Some (_deny FLEET_ENTRY_CLUSTER_LIMIT)
      | Some as_of =>
          let latest := _latest_entry_per_book_product snapshots mode (as_of - minutes * minute) in
          object_if (limit <=? Z.of_nat (size latest)) FLEET_ENTRY_CLUSTER_LIMIT
      end
  | _, _ => None
  end.

(** ** Portfolios ([portfolio_limits.py], [portfolio_scope.py]) *)

Record PortfolioRiskBook := {
  book_portfolio_id : UUID;
  book_capital : decimal;
  max_total_exposure_fraction : decimal;
  max_per_asset_fraction : decimal;
  live : bool;
  breaker_reason : option RiskReasonCode;
  available : bool
}.

Definition unavailable (portfolio_id : UUID) : PortfolioRiskBook := {|
  book_portfolio_id := portfolio_id; book_capital := d0; max_total_exposure_fraction := d0; max_per_asset_fraction := d0;
  live := false; breaker_reason := None; available := false |}.

Definition asset_of (product_id : string) : string :=
  match base_currency product_id with Ok base => base | Raise _ => product_id end.

Definition _asset_exposure (s : DeploymentSnapshot) (asset : string) : decimal :=
  dsum (product_exposure s <$> List.filter (λ p, bool_decide (asset_of p = asset)) (sort_by String.leb (_book_products s))).

Record PortfolioExposure := { total_exposure : decimal; assets : gmap string decimal }.

Definition portfolio_exposure (portfolio_id : UUID) (snapshots : list DeploymentSnapshot) : PortfolioExposure :=
  let members := List.filter (λ item, bool_decide
    (Deployment.portfolio_id (DeploymentSnapshot.deployment item) = Some portfolio_id)) snapshots in
  {| total_exposure := dsum (_marked_exposure <$> members);
     assets := fold_left (λ (m : gmap string decimal) item,
       fold_left (λ (m : gmap string decimal) asset, <[asset := (default d0 (m !! asset) + _asset_exposure item asset)%dec]> m)
         (sorted_set (asset_of <$> _book_products item)) m) members ∅ |}.

(** Rendering an amount for a message: two decimals, an error beyond the context's precision. *)
Definition _quote (amount : decimal) : result decimal := quantize ROUND_HALF_EVEN amount (-2).

Definition evaluate_portfolio_entry (book : PortfolioRiskBook) (proposed : ProposedEntry) (snapshots : list DeploymentSnapshot)
    : result RiskVerdict :=
  if negb (available book) then Ok (_deny PORTFOLIO_LIMITS_UNAVAILABLE)
  else match breaker_reason book with
  | Some _ => Ok (_deny PORTFOLIO_BREAKER_LATCHED)
  | None =>
      let exposure := portfolio_exposure (book_portfolio_id book) snapshots in
      let total_cap := (book_capital book * max_total_exposure_fraction book)%dec in
      if (total_cap <? total_exposure exposure + entry_notional proposed)%dec then
        _ ← result_mapM _quote [entry_notional proposed; total_exposure exposure; total_cap];
        Ok (_deny PORTFOLIO_TOTAL_EXPOSURE_LIMIT)
      else
        let asset := asset_of (entry_product_id proposed) in
        let held := default d0 (assets exposure !! asset) in
        let asset_cap := (book_capital book * max_per_asset_fraction book)%dec in
        if (asset_cap <? held + entry_notional proposed)%dec then
          _ ← result_mapM _quote [entry_notional proposed; held; asset_cap];
          Ok (_deny PORTFOLIO_ASSET_EXPOSURE_LIMIT)
        else Ok _allow
  end.

(** The book bound around the deployment being processed; a sleeve without its own fails closed. *)
Definition portfolio_risk_for (scope : option PortfolioRiskBook) (d : Deployment) : option PortfolioRiskBook :=
  match Deployment.portfolio_id d with
  | None => None
  | Some portfolio_id =>
      match scope with
      | Some book => if decide (book_portfolio_id book = portfolio_id) then Some book else Some (unavailable portfolio_id)
      | None => Some (unavailable portfolio_id)
      end
  end.

End EntryLimits.
