(* ===== verification/Breakers.v ===== *)
(** * Breakers: opening equity and breakers

    The reconstruction of a day's opening ([risk/opening_accounting.py],
    [daily_accounting.py]), then [risk/breakers.py]. *)

From S2P Require Import Prelude Decimals DecimalFacts Market Geometry Containers TradingModels FillLedger Protection.
From S2P Require Import Ledger RiskModels EntryLimits.

Open Scope Z_scope.

(** * What a book was worth at midnight

    [risk/opening_accounting.py] and [risk/daily_accounting.py]: the replay of applied fills
    and funding that proves a book's recorded cash and inventory, and the equity of the UTC
    midnight reconstructed from it. Instants are aware; the [isinstance] and [is_finite] tests
    hold of every modelled decimal. The digest of the replayed records is a parameter. *)

(** The SHA-256 of the sorted canonical records, a function of the fills with their products
    and of the funding hours. *)
Class Digest := { digest : list (Fill * OrderSide * string) → list FundingCashFlow → string }.

Record OpeningReplay := {
  day_cash_change : decimal;
  midnight_quantities : gmap string decimal;
  fills_fingerprint : string;
  includes_funding : bool
}.

Definition utc_day_start (moment : datetime) : datetime := moment - moment mod day.

Definition _fill_economics_qualified (fill : Fill) (order : Order) (as_of : datetime) : bool :=
  bool_decide (Fill.deployment_id fill = Order.deployment_id order)
  && (d0 <? Fill.quantity fill)%dec && (d0 <? Fill.price fill)%dec && (d0 <=? Fill.fee fill)%dec
  && applied fill && (Fill.filled_at fill <=? as_of).

Definition _funding_qualified (flow : FundingCashFlow) (s : DeploymentSnapshot) (as_of : datetime) : bool :=
  bool_decide (FundingCashFlow.deployment_id flow = Deployment.id (DeploymentSnapshot.deployment s))
  && (FundingCashFlow.funding_time flow <=? as_of).

(** The entries that are not zero agree: equality of two dictionaries of decimals without zeros. *)
Definition same_quantities (a b : gmap string decimal) : bool :=
  let value (m : gmap string decimal) k := default d0 (m !! k) in
  forallb (λ k, (value a k =? value b k)%dec) ((map_to_list a).*1 ++ (map_to_list b).*1).

Section DayOpen.
Context {dc : DecimalContext}.

(** A book whose economics, inventory and runtime agree, as every reader of a day's figures requires. *)
Definition evidence_complete (s : DeploymentSnapshot) : bool :=
  DeploymentSnapshot.accounting_complete s && negb (unsettled_fill_evidence s)
  && bool_decide (unprojected_inventory_products s = []) && bool_decide (missing_occupied_inventory_products s = []).

(** The loop of [_orders_covered]: [None] where it returns false. *)
Fixpoint covered_quantities (orders : dict UUID Order) (as_of : datetime) (fills : list Fill) (identities : list string)
    (quantities : gmap string decimal) : option (gmap string decimal) :=
  match fills with
  | [] => Some quantities
  | fill :: fills =>
      if decide (Fill.venue_fill_id fill ∈ identities) then None
      else match dict_get (Fill.order_id fill) orders with
      | None => None
      | Some order =>
          if negb (_fill_economics_qualified fill order as_of) then None
          else
            let key := Fill.order_id fill in
            covered_quantities orders as_of fills (Fill.venue_fill_id fill :: identities)
              (<[key := (default d0 (quantities !! key) + Fill.quantity fill)%dec]> quantities)
      end
  end.

Definition _orders_covered (s : DeploymentSnapshot) (as_of : datetime) : bool :=
  match covered_quantities (dict_of Order.id (DeploymentSnapshot.orders s)) as_of (DeploymentSnapshot.fills s) [] ∅ with
  | None => false
  | Some quantities =>
      forallb (λ o, bool_decide (Order.deployment_id o = Deployment.id (DeploymentSnapshot.deployment s))
        && (default d0 (quantities !! Order.id o) =? Order.filled_quantity o)%dec) (DeploymentSnapshot.orders s)
  end.

Definition fill_signed (order : Order) (fill : Fill) : decimal :=
  match Order.side order with BUY => Fill.quantity fill | SELL => (- Fill.quantity fill)%dec end.

Definition add_quantity (product : string) (quantity : decimal) (m : gmap string decimal) : gmap string decimal :=
  <[product := (default d0 (m !! product) + quantity)%dec]> m.

Record ReplayState := mk_replay {
  current : gmap string decimal;
  midnight : gmap string decimal;
  cash_change : decimal;
  day_change : decimal;
  records : list (Fill * OrderSide * string)
}.

Definition replay_fill (s : DeploymentSnapshot) (as_of : datetime) (st : ReplayState) (fill : Fill) : option ReplayState :=
  match dict_get (Fill.order_id fill) (dict_of Order.id (DeploymentSnapshot.orders s)) with
  | None => None
  | Some order =>
      if negb (_fill_economics_qualified fill order as_of) then None
      else
        let product := resolved_product_id (Order.product_id order) (DeploymentSnapshot.deployment s) in
        let quantity := fill_signed order fill in
        let delta := (neg quantity * Fill.price fill - Fill.fee fill)%dec in
        let before := Fill.filled_at fill <? utc_day_start as_of in
        Some (mk_replay (add_quantity product quantity (current st))
          (if before then add_quantity product quantity (midnight st) else midnight st)
          (cash_change st + delta)%dec
          (if before then day_change st else (day_change st + delta)%dec)
          (records st ++ [(fill, Order.side order, product)]))
  end.

Definition replay_funding (s : DeploymentSnapshot) (as_of : datetime) (st : ReplayState) (flow : FundingCashFlow)
    : option ReplayState :=
  if negb (_funding_qualified flow s as_of) then None
  else
    Some (mk_replay (current st) (midnight st) (cash_change st + FundingCashFlow.amount flow)%dec
      (if utc_day_start as_of <=? FundingCashFlow.funding_time flow
       then (day_change st + FundingCashFlow.amount flow)%dec else day_change st) (records st)).

(** [for x in xs: ... return None] *)
Fixpoint fold_option {A S} (f : S → A → option S) (s : S) (l : list A) : option S :=
  match l with [] => Some s | x :: l => s' ← f s x; fold_option f s' l end.

Definition _projection_matches (s : DeploymentSnapshot) (quantities : gmap string decimal) (change : decimal) : bool :=
  let d := DeploymentSnapshot.deployment s in
  let projected := fold_left (λ m p, add_quantity (resolved_product_id (Position.product_id p) d) (signed_quantity p) m)
    (snapshot_positions s) ∅ in
  same_quantities quantities projected
  && match first_some (Deployment.initial_equity d) (Deployment.paper_starting_cash d) with
     | None => true
     | Some initial => (Deployment.cash d =? initial + change)%dec
     end.

Definition replayed (s : DeploymentSnapshot) (as_of : datetime) : option ReplayState :=
  st ← fold_option (replay_fill s as_of) (mk_replay ∅ ∅ d0 d0 []) (DeploymentSnapshot.fills s);
  fold_option (replay_funding s as_of) st (DeploymentSnapshot.funding s).

Section Replay.
Context {dg : Digest}.

Definition opening_replay (s : DeploymentSnapshot) (as_of : datetime) : option OpeningReplay :=
  if negb (evidence_complete s) || negb (_orders_covered s as_of) then None
  else
    st ← replayed s as_of;
    if _projection_matches s (current st) (cash_change st) then
      Some {| day_cash_change := day_change st; midnight_quantities := midnight st;
              fills_fingerprint := digest (records st) (DeploymentSnapshot.funding s);
              includes_funding := negb (bool_decide (DeploymentSnapshot.funding s = [])) |}
    else None.

(** One overnight product: its recorded midnight mark values it. *)
Definition mark_step (available : gmap string MidnightMark) (acc : decimal * list MidnightMark) (item : string * decimal)
    : option (decimal * list MidnightMark) :=
  let '(equity, marks) := acc in
  let (product, quantity) := (item : string * decimal) in
  if (quantity =? d0)%dec then Some acc
  else match available !! product with
  | None => None
  | Some mark => Some ((equity + quantity * MidnightMark.price mark)%dec, marks ++ [mark])
  end.

Definition item_le (a b : string * decimal) : bool := String.leb a.1 b.1.

Definition available_marks (s : DeploymentSnapshot) (as_of : datetime) (marks : list MidnightMark) : gmap string MidnightMark :=
  let stored := match Deployment.risk_day_open_evidence (DeploymentSnapshot.deployment s) with
    | None => [] | Some e => DailyOpeningEvidence.marks e end in
  fold_left (λ m mark, <[MidnightMark.product_id mark := mark]> m)
    (List.filter (λ mark, MidnightMark.closes_at mark =? utc_day_start as_of) (stored ++ marks)) ∅.

Definition reconstruct_day_open (s : DeploymentSnapshot) (as_of : datetime) (marks : list MidnightMark)
    : option DailyOpeningEvidence :=
  replay ← opening_replay s as_of;
  '(equity, midnight_marks) ← fold_option (mark_step (available_marks s as_of marks))
    ((Deployment.cash (DeploymentSnapshot.deployment s) - day_cash_change replay)%dec, [])
    (sort_by item_le (map_to_list (midnight_quantities replay)));
  Some {|
    DailyOpeningEvidence.source := if includes_funding replay
      then DailyOpeningEvidence.per_product_applied_fills_and_funding_v1 else DailyOpeningEvidence.per_product_applied_fills_v1;
    DailyOpeningEvidence.day_start := utc_day_start as_of;
    DailyOpeningEvidence.equity := equity;
    DailyOpeningEvidence.fills_fingerprint := fills_fingerprint replay;
    DailyOpeningEvidence.marks := midnight_marks |}.

End Replay.

(** ** A flat book's day ([daily_accounting.py]) *)

Definition flat_step (s : DeploymentSnapshot) (since : datetime) (acc : gmap string decimal * gmap string decimal * decimal)
    (fill : Fill) : option (gmap string decimal * gmap string decimal * decimal) :=
  let '(opening, closing, pnl) := acc in
  match dict_get (Fill.order_id fill) (dict_of Order.id (DeploymentSnapshot.orders s)) with
  | None => None
  | Some order =>
      let product := resolved_product_id (Order.product_id order) (DeploymentSnapshot.deployment s) in
      let quantity := fill_signed order fill in
      let closing := add_quantity product quantity closing in
      if Fill.filled_at fill <? since then Some (add_quantity product quantity opening, closing, pnl)
      else Some (opening, closing, (pnl - (quantity * Fill.price fill + Fill.fee fill))%dec)
  end.

Definition all_zero (m : gmap string decimal) : bool := forallb (λ item, (item.2 =? d0)%dec) (map_to_list m).

Definition flat_day_fill_pnl (s : DeploymentSnapshot) (since : datetime) : option decimal :=
  if negb (evidence_complete s) then None
  else
    '(opening, closing, pnl) ← fold_option (flat_step s since) (∅, ∅, d0) (DeploymentSnapshot.fills s);
    if all_zero opening && all_zero closing then Some pnl else None.

End DayOpen.

(** * Daily loss, drawdown, order rates and the price collar ([risk/breakers.py])

    Books are grouped by quote currency; a book whose products have no common quote makes the
    group unreadable, which denies. Missing evidence denies too: a verdict of [None] means that
    every figure was known and within its limit. *)

Import RiskPolicyDefinition (max_strategy_drawdown_fraction, max_entry_orders_per_minute, max_cancellations_per_minute,
  reference_price_collar_fraction, max_daily_loss_quote, max_venue_order_actions_per_minute, futures).

Definition _RATE_WINDOW : timedelta := 60 * second.

Record EntryObservation := {
  as_of : datetime;
  proposed_price : option decimal;
  reference_price : option decimal;
  observed_marks : gmap string decimal
}.

Definition FUTURES_SCOPE : string := "CFM-USD".

Definition _product_quote (product_id : string) : option string :=
  if is_futures_product_id product_id then Some FUTURES_SCOPE
  else match quote_currency product_id with Ok quote => Some quote | Raise _ => None end.

Definition _select_loss_verdict (daily drawdown : option RiskVerdict) : option RiskVerdict :=
  match daily with
  | None => drawdown
  | Some d =>
      if bool_decide (reason_code d = BREAKER_MARK_MISSING)
         && bool_decide ((reason_code <$> drawdown) = Some STRATEGY_DRAWDOWN_LIMIT)
      then drawdown else daily
  end.

Definition _matches_drawdown_scope (s : DeploymentSnapshot) (strategy_id : option UUID) (product_id : string) : bool :=
  let d := DeploymentSnapshot.deployment s in
  match strategy_id with
  | Some strategy_id => bool_decide (Deployment.strategy_id d = Some strategy_id)
  | None =>
      bool_decide (Deployment.kind d = DeploymentKind.DISCRETIONARY)
      && (bool_decide (Deployment.product_id d = product_id)
          || existsb (λ p, bool_decide (resolved_product_id (Position.product_id p) d = product_id)) (snapshot_positions s))
  end.

Definition _open_inventory_missing_mark (s : DeploymentSnapshot) (marks : gmap string decimal) : bool :=
  existsb (λ p, bool_decide (marks !! resolved_product_id (Position.product_id p) (DeploymentSnapshot.deployment s) = None))
    (snapshot_positions s).

Definition holds_futures (books : list DeploymentSnapshot) : bool :=
  existsb (λ item, is_futures_product_id (Deployment.product_id (DeploymentSnapshot.deployment item))) books.

Definition _daily_loss_fraction (policy : RiskPolicyDefinition) (occupied : list DeploymentSnapshot) : decimal :=
  match futures policy ≫= FuturesRiskPolicy.daily_loss_limit_fraction with
  | Some fraction => if holds_futures occupied then fraction else RiskPolicyDefinition.daily_loss_limit_fraction policy
  | None => RiskPolicyDefinition.daily_loss_limit_fraction policy
  end.

Definition _futures_daily_loss_ceiling (policy : RiskPolicyDefinition) (occupied : list DeploymentSnapshot) : option decimal :=
  match futures policy ≫= FuturesRiskPolicy.max_daily_loss_usd with
  | Some ceiling => if holds_futures occupied then Some ceiling else None
  | None => None
  end.

(** ** Order rates *)

Definition _is_entry_purpose (intent_id : UUID) (entry_intent_ids : list UUID) (intents : list OrderIntent) : bool :=
  match intents with [] => true | _ => bool_decide (intent_id ∈ entry_intent_ids) end.

(** The counters: entry orders, cancellations and venue actions. *)
Definition rate_order (s : DeploymentSnapshot) (since : datetime) (counts : Z * Z * Z) (order : Order) : Z * Z * Z :=
  let '(entry_orders, cancels, venue_actions) := counts in
  if bool_decide (Order.kind order = OrderKind.ADOPTION) then counts
  else
    let entry_intent_ids := OrderIntent.id <$>
      List.filter (λ i, bool_decide (OrderIntent.purpose i = IntentPurpose.ENTRY)) (DeploymentSnapshot.intents s) in
    let recent := since <=? Order.created_at order in
    let entry := recent && _is_entry_purpose (Order.intent_id order) entry_intent_ids (DeploymentSnapshot.intents s) in
    let canceled := match Order.canceled_at order with Some at_ => since <=? at_ | None => false end in
    (entry_orders + Z.b2z entry, cancels + Z.b2z canceled, venue_actions + Z.b2z recent + Z.b2z canceled).

Definition rate_counts (occupied : list DeploymentSnapshot) (since : datetime) : Z * Z * Z :=
  fold_left (λ counts s, fold_left (rate_order s since) (DeploymentSnapshot.orders s) counts) occupied (0, 0, 0).

Definition _rate_verdict (policy : RiskPolicyDefinition) (occupied : list DeploymentSnapshot) (as_of : datetime)
    : option RiskVerdict :=
  let '(entry_orders, cancels, venue_actions) := rate_counts occupied (as_of - _RATE_WINDOW) in
  if max_entry_orders_per_minute policy <=? entry_orders then Some (_deny ORDER_RATE_LIMIT)
  else if max_cancellations_per_minute policy <=? cancels then Some (_deny CANCEL_RATE_LIMIT)
  else match max_venue_order_actions_per_minute policy with
  | Some budget => object_if (budget <=? venue_actions) VENUE_REQUEST_BUDGET_EXCEEDED
  | None => None
  end.

Section Breakers.
Context {dc : DecimalContext} {so : SetOrder}.

(** ** Books of one quote *)

Definition _snapshot_products (s : DeploymentSnapshot) : list string := nonempty (set_iter (book_product_insertions s)).

(** [None] at the first product without a quote. *)
Definition _snapshot_quote (s : DeploymentSnapshot) : option string :=
  quotes ← mapM _product_quote (_snapshot_products s);
  match remove_dups quotes with [quote] => Some quote | _ => None end.

(** The selected books and the denial of an unreadable one. *)
Fixpoint _same_quote_books (snapshots : list DeploymentSnapshot) (quote : string)
    : list DeploymentSnapshot * option RiskVerdict :=
  match snapshots with
  | [] => ([], None)
  | item :: snapshots =>
      match _snapshot_quote item with
      | None => ([], Some (_deny BREAKER_MARK_MISSING))
      | Some book_quote =>
          match _same_quote_books snapshots quote with
          | (selected, None) => (if decide (book_quote = quote) then item :: selected else selected, None)
          | refused => refused
          end
      end
  end.

Definition quote_scoped_snapshots (snapshots : list DeploymentSnapshot) (product_id : string)
    : list DeploymentSnapshot * option RiskVerdict :=
  match _product_quote product_id with
  | None => ([], Some (_deny BREAKER_MARK_MISSING))
  | Some quote => _same_quote_books snapshots quote
  end.

Definition unresolved_accounting_verdict (mode : DeploymentMode) (product_id : string) (snapshots : list DeploymentSnapshot)
    : option RiskVerdict :=
  match _product_quote product_id with
  | None => Some (_deny BREAKER_MARK_MISSING)
  | Some quote =>
      match _same_quote_books (daily_loss_snapshots snapshots mode) quote with
      | (_, Some incomplete) => Some incomplete
      | (books, None) => object_if (existsb (λ s, negb (evidence_complete s)) books) BREAKER_MARK_MISSING
      end
  end.

Definition _drawdown_books (snapshots : list DeploymentSnapshot) (mode : DeploymentMode) (quote : string)
    (strategy_id : option UUID) (product_id : string) : list DeploymentSnapshot * option RiskVerdict :=
  _same_quote_books
    (List.filter (λ item, _matches_drawdown_scope item strategy_id product_id) (daily_loss_snapshots snapshots mode)) quote.

(** ** Latches *)

Definition _daily_latch_verdict (books : list DeploymentSnapshot) : option RiskVerdict :=
  object_if (existsb (λ item, Deployment.daily_loss_latched (DeploymentSnapshot.deployment item)) books) DAILY_LOSS_LIMIT.

Definition _drawdown_latch_verdict (snapshots : list DeploymentSnapshot) (mode : DeploymentMode) (quote : string)
    (strategy_id : option UUID) (product_id : string) : option RiskVerdict :=
  match _drawdown_books snapshots mode quote strategy_id product_id with
  | (_, Some incomplete) => Some incomplete
  | (books, None) =>
      object_if (existsb (λ item, Deployment.drawdown_latched (DeploymentSnapshot.deployment item)) books) STRATEGY_DRAWDOWN_LIMIT
  end.

(** ** Daily loss *)

Definition _pnl_from_opening_equity (s : DeploymentSnapshot) (equity : decimal) : option decimal :=
  let d := DeploymentSnapshot.deployment s in
  (λ starting, (equity - starting)%dec) <$> first_some (Deployment.initial_equity d) (Deployment.paper_starting_cash d).

Section Losses.
Context {dg : Digest}.

Definition _daily_pnl (s : DeploymentSnapshot) (marks : gmap string decimal) (as_of : datetime) : result (option decimal) :=
  if negb (evidence_complete s) then Ok None
  else
    ledger ← ledger_from_snapshot s marks None;
    match equity ledger with
    | None => Ok None
    | Some equity =>
        if negb (mark_complete ledger) then Ok None
        else if utc_day_start (Deployment.created_at (DeploymentSnapshot.deployment s)) =? utc_day_start as_of
        then Ok (_pnl_from_opening_equity s equity)
        else
          Ok (option_map (λ evidence, (equity - DailyOpeningEvidence.equity evidence)%dec) (reconstruct_day_open s as_of []))
    end.

Fixpoint total_pnl (total : decimal) (occupied : list DeploymentSnapshot) (o : EntryObservation) : result (option decimal) :=
  match occupied with
  | [] => Ok (Some total)
  | s :: occupied =>
      if _open_inventory_missing_mark s (observed_marks o) then Ok None
      else
        pnl ← _daily_pnl s (observed_marks o) (as_of o);
        match pnl with None => Ok None | Some pnl => total_pnl (total + pnl)%dec occupied o end
  end.

Definition _mode_daily_loss (occupied : list DeploymentSnapshot) (o : EntryObservation) : result (option decimal) :=
  total ← total_pnl d0 occupied o;
  Ok (option_map (λ total, if (d0 <=? total)%dec then d0 else neg total) total).

(** The loss at which the breaker trips. *)
Definition daily_loss_limit (policy : RiskPolicyDefinition) (mode : DeploymentMode) (occupied : list DeploymentSnapshot)
    (capital : decimal) : decimal :=
  let limit := (capital * _daily_loss_fraction policy occupied)%dec in
  match _futures_daily_loss_ceiling policy occupied with
  | Some ceiling => dmin limit ceiling
  | None =>
      match max_daily_loss_quote policy, mode with
      | Some absolute, DeploymentMode.LIVE => if holds_futures occupied then limit else dmin limit absolute
      | _, _ => limit
      end
  end.

Definition _daily_loss_verdict (policy : RiskPolicyDefinition) (mode : DeploymentMode) (occupied : list DeploymentSnapshot)
    (o : EntryObservation) (capital : decimal) : result (option RiskVerdict) :=
  loss ← _mode_daily_loss occupied o;
  match loss with
  | None => Ok (Some (_deny BREAKER_MARK_MISSING))
  | Some loss =>
      if (capital <=? d0)%dec then Ok (Some (_deny BREAKER_MARK_MISSING))
      else Ok (object_if (negb (loss <? daily_loss_limit policy mode occupied capital)%dec) DAILY_LOSS_LIMIT)
  end.

(** ** Drawdown *)

Definition _durable_drawdown_fraction (s : DeploymentSnapshot) (equity : decimal) : result (option decimal) :=
  current_drawdown (DeploymentSnapshot.deployment s) equity.

Definition _one_drawdown_verdict (target : DeploymentSnapshot) (o : EntryObservation) (limit : decimal)
    : result (option RiskVerdict) :=
  if _open_inventory_missing_mark target (observed_marks o) then Ok (Some (_deny BREAKER_MARK_MISSING))
  else
    ledger ← ledger_from_snapshot target (observed_marks o) None;
    match equity ledger with
    | None => Ok (Some (_deny BREAKER_MARK_MISSING))
    | Some equity =>
        if negb (mark_complete ledger) then Ok (Some (_deny BREAKER_MARK_MISSING))
        else
          fraction ← _durable_drawdown_fraction target equity;
          match fraction with
          | None => Ok (Some (_deny BREAKER_MARK_MISSING))
          | Some fraction => Ok (object_if (negb (fraction <? limit)%dec) STRATEGY_DRAWDOWN_LIMIT)
          end
    end.

(** [for target in books: verdict = ...; if verdict is not None: return verdict] *)
Fixpoint first_objection {A} (check : A → result (option RiskVerdict)) (l : list A) : result (option RiskVerdict) :=
  match l with [] => Ok None | x :: l => objection (check x) (first_objection check l) end.

Definition _drawdown_verdict (policy : RiskPolicyDefinition) (snapshots : list DeploymentSnapshot) (mode : DeploymentMode)
    (quote : string) (strategy_id : option UUID) (product_id : string) (o : EntryObservation) : result (option RiskVerdict) :=
  match _drawdown_books snapshots mode quote strategy_id product_id with
  | (_, Some incomplete) => Ok (Some incomplete)
  | (books, None) => first_objection (λ target, _one_drawdown_verdict target o (max_strategy_drawdown_fraction policy)) books
  end.

Definition evaluate_circuit_breakers (policy : RiskPolicyDefinition) (mode : DeploymentMode) (product_id : string)
    (strategy_id : option UUID) (snapshots : list DeploymentSnapshot) (o : EntryObservation) (capital : decimal)
    : result (option RiskVerdict) :=
  match _product_quote product_id with
  | None => Ok (Some (_deny BREAKER_MARK_MISSING))
  | Some quote =>
      match _same_quote_books (daily_loss_snapshots snapshots mode) quote with
      | (_, Some incomplete) => Ok (Some incomplete)
      | (daily_books, None) =>
          match _daily_latch_verdict daily_books with
          | Some latched => Ok (Some latched)
          | None =>
              match _drawdown_latch_verdict snapshots mode quote strategy_id product_id with
              | Some latched => Ok (Some latched)
              | None =>
                  daily ← _daily_loss_verdict policy mode daily_books o capital;
                  drawdown ← _drawdown_verdict policy snapshots mode quote strategy_id product_id o;
                  Ok (_select_loss_verdict daily drawdown)
              end
          end
      end
  end.

End Losses.

(** ** Rate and collar *)

Definition _collar_verdict (policy : RiskPolicyDefinition) (o : EntryObservation) : result (option RiskVerdict) :=
  match reference_price o with
  | None => Ok (Some (_deny REFERENCE_PRICE_UNAVAILABLE))
  | Some reference =>
      if (reference <=? d0)%dec then Ok (Some (_deny REFERENCE_PRICE_UNAVAILABLE))
      else match proposed_price o with
      | None => Ok None
      | Some proposed =>
          if (proposed <=? d0)%dec then Ok (Some (_deny REFERENCE_PRICE_COLLAR))
          else
            deviation ← div (abs_ (proposed - reference)%dec) reference;
            Ok (object_if (negb (deviation <=? reference_price_collar_fraction policy)%dec) REFERENCE_PRICE_COLLAR)
      end
  end.

Definition _occupied_mode (snapshots : list DeploymentSnapshot) (mode : DeploymentMode) : list DeploymentSnapshot :=
  List.filter (λ item,
    let d := DeploymentSnapshot.deployment item in
    in_mode mode d && (bool_decide (Deployment.status d ∈ _OCCUPIED)
      || bool_decide (Deployment.status d = DeploymentStatus.STOPPED) && snapshot_has_residual_exposure item)) snapshots.

Definition evaluate_rate_and_collar (policy : RiskPolicyDefinition) (mode : DeploymentMode) (snapshots : list DeploymentSnapshot)
    (o : EntryObservation) : result (option RiskVerdict) :=
  objection (Ok (_rate_verdict policy (_occupied_mode snapshots mode) (as_of o))) (_collar_verdict policy o).

End Breakers.
