(* ===== verification/BetaExposure.v ===== *)
(** * BetaExposure: the cap on BTC-beta-weighted exposure

    [risk/beta_exposure.py], [risk/futures_beta.py] and the evidence types of [risk/beta.py].
    The estimate itself is binary floating point over logarithms of daily returns and is not
    modelled; the gate reads estimates, their staleness and their absence. *)

From S2P Require Import Prelude Decimals Market Geometry Containers TradingModels.
From S2P Require Import RiskModels EntryLimits Breakers.
Import RiskPolicyDefinition (max_btc_beta_exposure_fraction, max_btc_beta_exposure_quote, futures).

Open Scope Z_scope.

(** ** Evidence ([beta.py]) *)

Inductive BetaUnavailableReason := INSUFFICIENT_HISTORY | INVALID_HISTORY | STALE | FETCH_FAILED | NOT_LOADED.

Record BetaEstimate := {
  est_product_id : string;
  est_reference_id : string;
  beta : decimal;
  est_returns : Z;
  last_close : option datetime
}.

Record BetaUnavailable := {
  una_product_id : string;
  una_reference_id : string;
  una_reason : BetaUnavailableReason;
  una_returns : Z;
  una_last_close : option datetime
}.

Inductive BetaResult := Estimated (e : BetaEstimate) | Unavailable (u : BetaUnavailable).

Record BetaEvidence := { results : gmap string BetaResult }.

Definition BETA_REFERENCE_BASE : string := "BTC".
Definition BETA_STALE_AFTER : timedelta := 48 * hour.

Definition beta_reference (product_id : string) : result string :=
  quoted ← quote_currency product_id; Ok (BETA_REFERENCE_BASE +:+ "-" +:+ quoted).

Definition reference_beta (reference_id : string) : BetaEstimate := {|
  est_product_id := reference_id; est_reference_id := reference_id; beta := d1; est_returns := 0; last_close := None |}.

Definition _unavailable (product_id : string) (reason : BetaUnavailableReason) (returns : Z) : result BetaUnavailable :=
  reference ← beta_reference product_id;
  Ok {| una_product_id := product_id; una_reference_id := reference; una_reason := reason; una_returns := returns;
        una_last_close := None |}.

Definition result_for (evidence : BetaEvidence) (product_id : string) : result BetaResult :=
  match results evidence !! product_id with
  | Some loaded => Ok loaded
  | None =>
      reference ← beta_reference product_id;
      if decide (product_id = reference) then Ok (Estimated (reference_beta product_id))
      else missing ← _unavailable product_id NOT_LOADED 0; Ok (Unavailable missing)
  end.

Definition fresh_beta (r : BetaResult) (as_of : datetime) : BetaResult :=
  match r with
  | Unavailable _ => r
  | Estimated e =>
      match last_close e with
      | None => r
      | Some close =>
          if as_of - close <=? BETA_STALE_AFTER then r
          else Unavailable {| una_product_id := est_product_id e; una_reference_id := est_reference_id e; una_reason := STALE;
                              una_returns := est_returns e; una_last_close := Some close |}
      end
  end.

Record FuturesLegs := { underlyings : gmap UUID string; funding_current : gset UUID }.

Definition futures_beta_products (legs : option FuturesLegs) (quoted : string) : list string :=
  match legs with
  | None => []
  | Some legs => sorted_set ((λ item : UUID * string, item.2 +:+ "-" +:+ quoted) <$> map_to_list (underlyings legs))
  end.

Definition beta_cap_applies (policy : RiskPolicyDefinition) (mode : DeploymentMode) : bool :=
  match max_btc_beta_exposure_fraction policy, max_btc_beta_exposure_quote policy with
  | Some _, _ => true
  | None, Some _ => bool_decide (mode = DeploymentMode.LIVE)
  | None, None => false
  end.

Section Beta.
Context {dc : DecimalContext} {so : SetOrder}.

Definition _beta_cap (policy : RiskPolicyDefinition) (mode : DeploymentMode) (capital : decimal) : result decimal :=
  let fraction := (λ f, (capital * f)%dec) <$> max_btc_beta_exposure_fraction policy in
  let absolute := if decide (mode = DeploymentMode.LIVE) then max_btc_beta_exposure_quote policy else None in
  match fraction, absolute with
  | Some a, Some b => Ok (dmin a b)
  | Some a, None | None, Some a => Ok a
  | None, None => Raise (ValueError "min() iterable argument is empty")
  end.

Definition _held_products (books : list DeploymentSnapshot) : list string :=
  sorted_set (books ≫= λ book, List.filter (λ p, negb (product_exposure book p =? d0)%dec) (_book_products book)).

Definition beta_products (snapshots : list DeploymentSnapshot) (mode : DeploymentMode) (product_id : string) : list string :=
  let '(books, incomplete) := quote_scoped_snapshots (risk_bearing_snapshots snapshots mode) product_id in
  let held := match incomplete with Some _ => [] | None => _held_products books end in
  product_id :: List.filter (λ item, negb (bool_decide (item = product_id))) held.

(** Quantities are negative for shorts. *)
Definition signed_base (p : Position) : decimal :=
  match Position.side p with SHORT => (- Position.quantity p)%dec | LONG => Position.quantity p end.

Definition positions_of (book : DeploymentSnapshot) (product_id : string) : list Position :=
  List.filter (λ p, bool_decide (resolved_product_id (Position.product_id p) (DeploymentSnapshot.deployment book) = product_id))
    (snapshot_positions book).

Definition _signed_base (book : DeploymentSnapshot) (product_id : string) : decimal :=
  dsum (signed_base <$> positions_of book product_id).

Definition _spot_leg (occupied : list DeploymentSnapshot) (spot_product : string) : decimal * decimal :=
  let held := occupied ≫= λ book, positions_of book spot_product in
  (dsum (signed_base <$> held), dsum ((λ p, (Position.quantity p * Position.entry_price p)%dec) <$> held)).

(** The loop of [_futures_base_by_underlying]; [None] once a book's underlying is unknown. *)
Fixpoint futures_bases (books : list DeploymentSnapshot) (legs : FuturesLegs) (marks : gmap string decimal)
    (totals : dict string decimal) (unknown : list string) : option (dict string decimal * list string) :=
  match books with
  | [] => Some (totals, unknown)
  | book :: books =>
      let d := DeploymentSnapshot.deployment book in
      let product_id := Deployment.product_id d in
      if negb (is_futures_product_id product_id) then futures_bases books legs marks totals unknown
      else match underlyings legs !! Deployment.id d with
      | None => None
      | Some underlying =>
          let signed := _signed_base book product_id in
          if (signed =? d0)%dec then futures_bases books legs marks totals unknown
          else if negb (bool_decide (Deployment.id d ∈ funding_current legs)) || bool_decide (marks !! product_id = None)
          then futures_bases books legs marks totals (underlying :: unknown)
          else futures_bases books legs marks
                 (dict_set underlying (default d0 (dict_get underlying totals) + signed)%dec totals) unknown
      end
  end.

Definition _futures_base_by_underlying (snapshots : list DeploymentSnapshot) (mode : DeploymentMode) (legs : FuturesLegs)
    (marks : gmap string decimal) : dict string decimal :=
  match futures_bases (risk_bearing_snapshots snapshots mode) legs marks [] [] with
  | None => []
  | Some (totals, unknown) => List.filter (λ item, negb (bool_decide (item.1 ∈ unknown))) totals
  end.

Definition netting_step (policy : RiskPolicyDefinition) (proposed : ProposedEntry) (side : PositionSide)
    (occupied : list DeploymentSnapshot) (betas marks : gmap string decimal) (adjustment : decimal) (item : string * decimal)
    : decimal :=
  let (underlying, futures_base) := (item : string * decimal) in
  let spot_product := underlying +:+ "-" +:+ RiskPolicyDefinition.quote_currency policy in
  match betas !! spot_product, marks !! spot_product with
  | Some beta, Some mark =>
      if (futures_base =? d0)%dec || (mark <=? d0)%dec then adjustment
      else
        let '(spot_base, gross_) := _spot_leg occupied spot_product in
        let '(spot_base, gross_) :=
          match entry_quantity proposed with
          | Some quantity =>
              if decide (entry_product_id proposed = spot_product) then
                ((spot_base + match side with SHORT => (- quantity)%dec | LONG => quantity end)%dec,
                 (gross_ + abs_ (entry_notional proposed))%dec)
              else (spot_base, gross_)
          | None => (spot_base, gross_)
          end in
        if (gross_ =? d0)%dec then adjustment
        else
          let net := (abs_ (spot_base + futures_base) * mark)%dec in
          (adjustment + dmin (net - gross_) d0 * beta)%dec
  | _, _ => adjustment
  end.

Definition netting_adjustment (policy : RiskPolicyDefinition) (mode : DeploymentMode) (proposed : ProposedEntry)
    (occupied snapshots : list DeploymentSnapshot) (legs : option FuturesLegs) (betas marks : gmap string decimal) : decimal :=
  match futures policy, legs, entry_side proposed with
  | Some f, Some legs, Some side =>
      if negb (nets_by_underlying f) || negb (bool_decide (mode = DeploymentMode.PAPER)) then d0
      else
        fold_left (netting_step policy proposed side occupied betas marks)
          (_futures_base_by_underlying snapshots mode legs marks) d0
  | _, _, _ => d0
  end.

(** The loop that reads the estimates; [None] when one is unavailable. *)
Fixpoint load_betas (evidence : BetaEvidence) (as_of : datetime) (products : list string) (betas : gmap string decimal)
    : result (option (gmap string decimal)) :=
  match products with
  | [] => Ok (Some betas)
  | product_id :: products =>
      r ← result_for evidence product_id;
      match fresh_beta r as_of with
      | Unavailable _ => Ok None
      | Estimated e => load_betas evidence as_of products (<[product_id := dmax (beta e) d0]> betas)
      end
  end.

Definition weighted_exposure (occupied : list DeploymentSnapshot) (betas : gmap string decimal) : decimal :=
  dsum (occupied ≫= λ book,
    omap (λ p, (λ b, (abs_ (product_exposure book p) * b)%dec) <$> betas !! p) (_book_products book)).

(** Rendering an amount for a message. *)
Definition _shown (value : decimal) : result decimal := quantize ROUND_HALF_EVEN value (-2).

Definition beta_verdict (policy : RiskPolicyDefinition) (mode : DeploymentMode) (proposed : ProposedEntry)
    (occupied : list DeploymentSnapshot) (live_quote_cash : option decimal) (evidence : option BetaEvidence)
    (as_of : option datetime) (snapshots : list DeploymentSnapshot) (legs : option FuturesLegs) (marks : gmap string decimal)
    : result (option RiskVerdict) :=
  if negb (beta_cap_applies policy mode) then Ok None
  else match evidence, as_of with
  | Some evidence, Some as_of =>
      betas ← load_betas evidence as_of (entry_product_id proposed :: _held_products occupied) ∅;
      match betas with
      | None => Ok (Some (_deny BTC_BETA_UNAVAILABLE))
      | Some betas =>
          match betas !! entry_product_id proposed with
          | None => Raise KeyError
          | Some proposed_beta =>
              let weighted := (abs_ (entry_notional proposed) * proposed_beta)%dec in
              let existing := (weighted_exposure occupied betas
                + netting_adjustment policy mode proposed occupied snapshots legs betas marks)%dec in
              let capital := _capital_base policy mode live_quote_cash occupied (in_kind_capital proposed) in
              cap ← _beta_cap policy mode capital;
              if (d0 <? capital)%dec && (existing + weighted <=? cap)%dec then Ok None
              else
                _ ← result_mapM _shown [existing; entry_notional proposed; weighted; cap; capital];
                Ok (Some (_deny BTC_BETA_EXPOSURE_EXCEEDED))
          end
      end
  | _, _ => Ok (Some (_deny BTC_BETA_UNAVAILABLE))
  end.

(** ** The futures scope's own cap *)

(** The books' terms after the proposed one; [None] when a book has no readable binding. *)
Fixpoint futures_terms (books : list DeploymentSnapshot) (legs : FuturesLegs) : option (list (string * decimal)) :=
  match books with
  | [] => Some []
  | book :: books =>
      let d := DeploymentSnapshot.deployment book in
      let product_id := Deployment.product_id d in
      let exposure := abs_ (product_exposure book product_id) in
      if negb (is_futures_product_id product_id) || (exposure =? d0)%dec then futures_terms books legs
      else
        underlying ← underlyings legs !! Deployment.id d;
        terms ← futures_terms books legs;
        Some ((underlying, exposure) :: terms)
  end.

Fixpoint weigh_terms (evidence : BetaEvidence) (as_of : datetime) (quoted : string) (weighted : decimal)
    (terms : list (string * decimal)) : result (option decimal) :=
  match terms with
  | [] => Ok (Some weighted)
  | (underlying, exposure) :: terms =>
      r ← result_for evidence (underlying +:+ "-" +:+ quoted);
      match fresh_beta r as_of with
      | Unavailable _ => Ok None
      | Estimated e => weigh_terms evidence as_of quoted (weighted + exposure * dmax (beta e) d0)%dec terms
      end
  end.

Definition futures_beta_verdict (policy : RiskPolicyDefinition) (mode : DeploymentMode) (proposed : ProposedEntry)
    (proposing_underlying : string) (snapshots : list DeploymentSnapshot) (legs : option FuturesLegs)
    (evidence : option BetaEvidence) (capital : decimal) (as_of : option datetime) : result (option RiskVerdict) :=
  match futures policy ≫= FuturesRiskPolicy.max_btc_beta_exposure_fraction with
  | None => Ok None
  | Some fraction =>
      match evidence, as_of, legs with
      | Some evidence, Some as_of, Some legs =>
          match futures_terms (risk_bearing_snapshots snapshots mode) legs with
          | None => Ok (Some (_deny BTC_BETA_UNAVAILABLE))
          | Some terms =>
              weighted ← weigh_terms evidence as_of (RiskPolicyDefinition.quote_currency policy) d0
                ((proposing_underlying, abs_ (entry_notional proposed)) :: terms);
              match weighted with
              | None => Ok (Some (_deny BTC_BETA_UNAVAILABLE))
              | Some weighted =>
                  Ok (object_if (negb ((d0 <? capital)%dec && (weighted <=? capital * fraction)%dec)) BTC_BETA_EXPOSURE_EXCEEDED)
              end
          end
      | _, _, _ => Ok (Some (_deny BTC_BETA_UNAVAILABLE))
      end
  end.

End Beta.
