(* ===== verification/FuturesBooks.v ===== *)
(** * FuturesBooks: a futures book's contract, cycle state, equity and funding hours

    [trading/futures_book.py]. A context variable that the code binds around a book's
    processing is an argument [scope]. The futures contract is the record of
    [evaluation/futures_spec.py] that a book binds at its start. *)

From Stdlib Require Import Sorted.
From S2P Require Import Prelude Decimals DecimalFacts Market Geometry Containers TradingModels FillLedger Protection Ledger.
From S2P Require Import Sizing RiskModels EntryLimits Breakers.

Open Scope Z_scope.

Definition FUNDING_SETTLE_GRACE : timedelta := 15 * minute.

Inductive InstrumentContractKind := dated_future | perpetual_future.

#[global] Instance contract_kind_eq_dec : EqDecision InstrumentContractKind. Proof. solve_decision. Defined.

Module InstrumentContract.
Record InstrumentContract := {
  product_id : string;
  kind : InstrumentContractKind;
  underlying : string;
  contract_size : decimal;
  expires_at : option datetime
}.
End InstrumentContract.
Notation InstrumentContract := InstrumentContract.InstrumentContract.

(** [require_positive_size] and [require_expiry_for_dated]. *)
Definition valid_contract (c : InstrumentContract) : bool :=
  (d0 <? InstrumentContract.contract_size c)%dec
  && bool_decide (InstrumentContract.kind c = dated_future ↔ InstrumentContract.expires_at c ≠ None).

Record BoundFuturesContract := {
  bound_deployment_id : UUID;
  contract : InstrumentContract;
  bound_fee_per_contract : decimal;
  bound_at : datetime
}.

(** The in-memory bindings: a second binding of a deployment is refused. *)
Definition bind_contract (bindings : gmap UUID BoundFuturesContract) (binding : BoundFuturesContract)
    : result (gmap UUID BoundFuturesContract) :=
  match bindings !! bound_deployment_id binding with
  | Some _ => Raise (ValueError "The deployment already has a bound contract.")
  | None => Ok (<[bound_deployment_id binding := binding]> bindings)
  end.

Definition load_contract (bindings : gmap UUID BoundFuturesContract) (deployment_id : UUID) : option BoundFuturesContract :=
  bindings !! deployment_id.

Module FuturesBookState.
Record FuturesBookState := {
  deployment_id : UUID;
  product_id : string;
  side : PositionSide;
  binding : option BoundFuturesContract;
  margin : option FuturesMarginTerms;
  margin_observed_at : option datetime;
  funding_overdue : option datetime;
  latest_funding_rate : option decimal;
  margin_stale : bool
}.
End FuturesBookState.
Notation FuturesBookState := FuturesBookState.FuturesBookState.

(** The reason that blocks an entry; the detail text is left out. *)
Definition entry_block (s : FuturesBookState) : option RiskReasonCode :=
  match FuturesBookState.binding s, FuturesBookState.margin s with
  | None, _ => Some FUTURES_CONTRACT_UNBOUND
  | Some _, None => Some FUTURES_MARGIN_UNKNOWN
  | Some _, Some _ =>
      if FuturesBookState.margin_stale s then Some FUTURES_MARGIN_UNKNOWN
      else match FuturesBookState.funding_overdue s with Some _ => Some FUNDING_HISTORY_MISSING | None => None end
  end.

Definition live_entry_block (s : FuturesBookState) : option RiskReasonCode :=
  match entry_block s with
  | Some blocked => Some blocked
  | None => match FuturesBookState.latest_funding_rate s with None => Some FUNDING_HISTORY_MISSING | Some _ => None end
  end.

Definition current_futures_book (scope : option FuturesBookState) (deployment_id : option UUID) : option FuturesBookState :=
  match scope, deployment_id with
  | Some state, Some id => if decide (FuturesBookState.deployment_id state = id) then Some state else None
  | state, None => state
  | None, _ => None
  end.

(** The exceptions of the [decimal] module. *)
Definition decimal_exception (e : error) : bool :=
  match e with DivisionByZero | InvalidOperation | Inexact => true | _ => false end.

Section FuturesBooks.
Context {dc : DecimalContext}.

(** [try: ... except DecimalException: return None] around the ledger of the book. *)
Definition futures_book_equity (s : DeploymentSnapshot) (marks : gmap string decimal) : result (option decimal) :=
  let d := DeploymentSnapshot.deployment s in
  let live := bool_decide (Deployment.mode d = DeploymentMode.LIVE) in
  match (if live then Deployment.allocated_capital d else Some d0) with
  | None => Ok None
  | Some allocation =>
      if live && (allocation <=? d0)%dec then Ok None
      else match ledger_from_snapshot s marks None with
      | Raise e => if decimal_exception e then Ok None else Raise e
      | Ok ledger =>
          match equity ledger with
          | None => Ok None
          | Some equity =>
              if negb (mark_complete ledger) then Ok None
              else Ok (Some (if live then (equity + allocation)%dec else equity))
          end
      end
  end.

(** ** Funding *)

Definition event_le (a b : datetime * decimal) : bool := a.1 <=? b.1.

Definition signed_event (s : DeploymentSnapshot) (product_id : string) (fill : Fill) : option (datetime * decimal) :=
  match dict_get (Fill.order_id fill) (dict_of Order.id (DeploymentSnapshot.orders s)) with
  | None => None
  | Some order =>
      if negb (applied fill) then None
      else if negb (bool_decide (resolved_product_id (Order.product_id order) (DeploymentSnapshot.deployment s) = product_id))
      then None
      else Some (Fill.filled_at fill, fill_signed order fill)
  end.

Definition _signed_fills (s : DeploymentSnapshot) (product_id : string) : list (datetime * decimal) :=
  sort_by event_le (omap (signed_event s product_id) (DeploymentSnapshot.fills s)).

Definition held_quantity_before (s : DeploymentSnapshot) (product_id : string) (instant : datetime) : decimal :=
  dsum (List.filter (λ e, e.1 <? instant) (_signed_fills s product_id)).*2.

(** [while index < len(events) and events[index][0] < hour: held += ...; index += 1] *)
Fixpoint consume (hour : datetime) (held : decimal) (events : list (datetime * decimal)) : decimal * list (datetime * decimal) :=
  match events with
  | [] => (held, [])
  | e :: rest => if e.1 <? hour then consume hour (held + e.2)%dec rest else (held, events)
  end.

(** The outer loop, over the hours up to [through]; it stops early once a flat book has no
    later event. *)
Fixpoint due_hours (charged : list datetime) (hours : list datetime) (held : decimal) (events : list (datetime * decimal))
    : list datetime :=
  match hours with
  | [] => []
  | hour :: hours =>
      let '(held, events) := consume hour held events in
      if (held =? d0)%dec && bool_decide (events = []) then []
      else
        let rest := due_hours charged hours held events in
        if negb (held =? d0)%dec && negb (bool_decide (hour ∈ charged)) then hour :: rest else rest
  end.

Definition charged_hours (s : DeploymentSnapshot) (product_id : string) : list datetime :=
  FundingCashFlow.funding_time <$>
    List.filter (λ flow, bool_decide (FundingCashFlow.product_id flow = product_id)) (DeploymentSnapshot.funding s).

(** The hours from the one after an instant up to [through]. *)
Definition hours_after (first through : datetime) : list datetime := instants ((first / hour + 1) * hour) (through + 1) hour.

Definition funding_hours_held (s : DeploymentSnapshot) (product_id : string) (through : datetime) : list datetime :=
  match _signed_fills s product_id with
  | [] => []
  | (first :: _) as events => due_hours (charged_hours s product_id) (hours_after first.1 through) d0 events
  end.

Definition funding_overdue (funding_hour now : datetime) : bool := funding_hour + hour + FUNDING_SETTLE_GRACE <=? now.

Definition funding_flow (s : DeploymentSnapshot) (product_id : string) (funding_hour : datetime) (mark_price rate : decimal)
    (applied_at : datetime) : FundingCashFlow :=
  let signed := held_quantity_before s product_id funding_hour in {|
  FundingCashFlow.deployment_id := Deployment.id (DeploymentSnapshot.deployment s);
  FundingCashFlow.product_id := product_id;
  FundingCashFlow.funding_time := funding_hour;
  FundingCashFlow.signed_quantity := signed;
  FundingCashFlow.mark_price := mark_price;
  FundingCashFlow.rate := rate;
  FundingCashFlow.amount := ((- signed) * mark_price * rate)%dec;
  FundingCashFlow.applied_at := applied_at |}.

(** ** Liquidation *)

Definition liquidation_due (terms : FuturesMarginTerms) (cash quantity : decimal) (side : PositionSide) (adverse_price : decimal)
    : bool :=
  let signed := match side with SHORT => (- quantity)%dec | LONG => quantity end in
  (cash + signed * adverse_price <? maintenance terms quantity adverse_price side)%dec.

Definition paper_liquidation_hit (scope : option FuturesBookState) (s : DeploymentSnapshot) (position : option Position)
    (candle : Candle) : bool :=
  let d := DeploymentSnapshot.deployment s in
  match position with
  | None => false
  | Some p =>
      if negb (bool_decide (Deployment.mode d = DeploymentMode.PAPER)) then false
      else match current_futures_book scope (Some (Deployment.id d)) ≫= FuturesBookState.margin with
      | None => false
      | Some terms =>
          let adverse := match Position.side p with SHORT => high candle | LONG => low candle end in
          liquidation_due terms (Deployment.cash d) (Position.quantity p) (Position.side p) adverse
      end
  end.

(** ** The loop over hours is a filter *)

Lemma insert_sorted_sorted x l : StronglySorted (λ a b, event_le a b = true) l →
  StronglySorted (λ a b, event_le a b = true) (insert_sorted event_le x l).
Proof.
  unfold event_le. induction 1 as [|y l Hl IH Hy]; cbn; [by repeat constructor|].
  destruct (x.1 <=? y.1) eqn:E.
  - apply Z.leb_le in E. constructor; [by constructor|]. constructor; [by apply Z.leb_le|].
    eapply Forall_impl; [exact Hy|]. cbn. intros z ?%Z.leb_le. apply Z.leb_le. lia.
  - apply Z.leb_gt in E. constructor; [done|]. rewrite insert_sorted_perm. constructor; [|done]. apply Z.leb_le. lia.
Qed.

Lemma signed_fills_sorted s product_id : StronglySorted (λ a b, event_le a b = true) (_signed_fills s product_id).
Proof.
  unfold _signed_fills, sort_by. induction (omap _ _) as [|e l IH]; cbn; [constructor|]. by apply insert_sorted_sorted.
Qed.

(** What an event list still adds before an hour. *)
Definition before (hour : datetime) (events : list (datetime * decimal)) : list (datetime * decimal) :=
  List.filter (λ e, e.1 <? hour) events.

Lemma before_none hour events : Forall (λ e : datetime * decimal, hour <= e.1) events → before hour events = [].
Proof.
  unfold before. induction 1 as [|e l He _ IH]; cbn; [done|]. by rewrite (proj2 (Z.ltb_ge _ _) He).
Qed.

Lemma consume_spec hour held events :
  StronglySorted (λ a b, event_le a b = true) events →
  consume hour held events = (fold_left add (before hour events).*2 held, List.filter (λ e, negb (e.1 <? hour)) events).
Proof.
  unfold event_le. intros Hs. revert held. induction Hs as [|e l Hl IH He]; intros held; cbn; [done|].
  destruct (e.1 <? hour) eqn:E; cbn; [apply IH|].
  apply Z.ltb_ge in E. change (List.filter (λ e0, e0.1 <? hour) l) with (before hour l).
  rewrite before_none; [|eapply Forall_impl; [exact He|]; cbn; intros ? ?%Z.leb_le; lia]. cbn.
  f_equal. f_equal. rewrite Forall_forall in He. clear IH Hl. induction l as [|x l IH]; [done|]. cbn.
  assert (hour <= x.1) as Hx by (specialize (He x ltac:(left)) as ?%Z.leb_le; lia).
  rewrite (proj2 (Z.ltb_ge _ _) Hx). cbn. f_equal. apply IH. intros y Hy. apply He. by right.
Qed.

Lemma filter_sorted {A} (R : A → A → Prop) f l : StronglySorted R l → StronglySorted R (List.filter f l).
Proof.
  induction 1 as [|x l Hl IH Hx]; cbn; [constructor|]. destruct (f x); [|done]. constructor; [done|].
  apply Forall_forall. intros y [_ Hy]%elem_of_filter_bool. by eapply Forall_forall in Hx.
Qed.

(** Consuming up to an hour and then up to a later one is consuming up to the later one. *)
Lemma before_split hour later events : hour <= later →
  StronglySorted (λ a b, event_le a b = true) events →
  before later events = before hour events ++ before later (List.filter (λ e, negb (e.1 <? hour)) events).
Proof.
  unfold event_le, before. intros Hle. induction 1 as [|e l Hl IH He]; cbn; [done|].
  destruct (e.1 <? hour) eqn:E; cbn.
  - apply Z.ltb_lt in E. rewrite (proj2 (Z.ltb_lt _ _)) by lia. cbn. f_equal. apply IH.
  - apply Z.ltb_ge in E. assert (before hour l = []) as Hb.
    { apply before_none. eapply Forall_impl; [exact He|]. cbn. intros ? ?%Z.leb_le. lia. }
    unfold before in Hb. rewrite Hb in *. cbn in *. destruct (e.1 <? later); [f_equal|]; apply IH.
Qed.

Lemma due_hours_spec charged hours held events :
  StronglySorted Z.le hours → StronglySorted (λ a b, event_le a b = true) events →
  due_hours charged hours held events =
  List.filter (λ h, negb (fold_left add (before h events).*2 held =? d0)%dec && negb (bool_decide (h ∈ charged))) hours.
Proof.
  intros Hs. revert held events. induction Hs as [|h hours Hhs IH Hh]; intros held events He; cbn [due_hours List.filter]; [done|].
  rewrite (consume_spec h held events) by done.
  set (held' := fold_left add (before h events).*2 held). set (events' := List.filter _ events).
  assert (∀ k, k ∈ hours → fold_left add (before k events).*2 held = fold_left add (before k events').*2 held') as Hrest.
  { intros k Hk. rewrite Forall_forall in Hh. rewrite (before_split h k events (Hh k Hk) He), fmap_app, fold_left_app. done. }
  assert (due_hours charged hours held' events' =
          List.filter (λ k, negb (fold_left add (before k events).*2 held =? d0)%dec && negb (bool_decide (k ∈ charged))) hours) as Hdue.
  { rewrite IH by by apply filter_sorted. clear - Hrest. induction hours as [|k hours IH]; cbn; [done|].
    rewrite <- (Hrest k) by by left. rewrite IH; [done|]. intros j Hj. apply Hrest. by right. }
  destruct ((held' =? d0)%dec && bool_decide (events' = [])) eqn:Estop; [|by rewrite Hdue].
  apply andb_prop_iff in Estop as [Hz Hnil%bool_decide_eq_true]. rewrite Hz. cbn [negb andb].
  rewrite <- Hdue, Hnil. clear - Hz. induction hours as [|k hours IH]; cbn; [done|]. by rewrite Hz.
Qed.

Lemma hours_sorted first through : StronglySorted Z.le (hours_after first through).
Proof.
  unfold hours_after. rewrite instants_grid by done.
  generalize (loop_fuel ((first / hour + 1) * hour) (through + 1) hour). generalize ((first / hour + 1) * hour).
  intros start n. revert start. induction n as [|n IH]; intros start; cbn; [constructor|].
  constructor; [apply IH|]. apply Forall_forall.
  intros x (k & _ & ->)%elem_of_grid. unfold hour, minute, second. lia.
Qed.

(** The hourly loop, which consumes fills as it goes and stops early once the book is flat
    for good, returns exactly the hours up to [through] at which the book held a position and
    which were not charged yet. *)
Lemma funding_hours_held_spec s product_id through :
  funding_hours_held s product_id through =
  match _signed_fills s product_id with
  | [] => []
  | first :: _ =>
      List.filter (λ h, negb (held_quantity_before s product_id h =? d0)%dec && negb (bool_decide (h ∈ charged_hours s product_id)))
        (hours_after first.1 through)
  end.
Proof.
  unfold funding_hours_held. pose proof (signed_fills_sorted s product_id) as Hs.
  destruct (_signed_fills s product_id) as [|e events] eqn:E; [done|].
  rewrite due_hours_spec by (apply hours_sorted || done). unfold held_quantity_before. by rewrite E.
Qed.

End FuturesBooks.
