(* ===== verification/FuturesGate.v ===== *)
(** * FuturesGate: admission of futures entries and starts

    [risk/futures_collateral.py], [risk/futures_live.py] and [risk/futures_entry.py]. The live
    gate computes in a context that traps [Inexact], so an admitted figure is exact; a failed
    computation denies. Evidence that is absent denies. *)

From S2P Require Import Prelude Decimals DecimalFacts Market Geometry Containers TradingModels FillLedger Ledger.
From S2P Require Import Sizing RiskModels EntryLimits Breakers BetaExposure FuturesBooks.
Import RiskPolicyDefinition (futures).

Open Scope Z_scope.

Definition MIRROR_STALE_AFTER : timedelta := 180 * second.
Definition COLLATERAL_LINKED_QUOTES : list string := ["USD"; "USDC"].

(** ** The futures account ([futures_collateral.py]) *)

Inductive FuturesCollateralState := ABSENT | IDLE | IN_USE | UNKNOWN.

#[global] Instance collateral_state_eq_dec : EqDecision FuturesCollateralState. Proof. solve_decision. Defined.

Module FuturesEnablement.
Inductive FuturesEnablement := ENABLED | NOT_ENABLED | UNKNOWN.
#[global] Instance eq_dec : EqDecision FuturesEnablement. Proof. solve_decision. Defined.
End FuturesEnablement.
Notation FuturesEnablement := FuturesEnablement.FuturesEnablement.

(** What the gate reads of an account snapshot: the balance's margin and hold, and how many
    positions were listed. [None] is a failed read. *)
Record FuturesAccountObservation := {
  observed_at : datetime;
  enablement : FuturesEnablement;
  balance : option (option decimal * option decimal);
  listed_positions : option nat
}.

Record FuturesCollateralEvidence := {
  collateral_state : FuturesCollateralState;
  collateral_observed_at : option datetime;
  collateral_margin_usd : option decimal;
  collateral_hold_usd : option decimal;
  position_count : option nat
}.

Definition latest_balance (latest : option FuturesAccountObservation) : option (option decimal * option decimal) :=
  match latest with Some account => balance account | None => None end.

Definition _evidence (state : FuturesCollateralState) (latest : option FuturesAccountObservation) : FuturesCollateralEvidence := {|
  collateral_state := state;
  collateral_observed_at := option_map observed_at latest;
  collateral_margin_usd := match latest_balance latest with Some (margin, _) => margin | None => None end;
  collateral_hold_usd := match latest_balance latest with Some (_, hold) => hold | None => None end;
  position_count := match latest with Some account => listed_positions account | None => None end |}.

Definition known_positive (amount : option decimal) : bool := match amount with Some a => (d0 <? a)%dec | None => false end.

Definition classify_futures_collateral (latest : option FuturesAccountObservation) (as_of : datetime) (read_at : option datetime)
    : FuturesCollateralEvidence :=
  match latest with
  | None => _evidence ABSENT None
  | Some account =>
      if decide (enablement account = FuturesEnablement.NOT_ENABLED) then _evidence ABSENT latest
      else match balance account, listed_positions account with
      | Some (margin, hold), Some positions =>
          if bool_decide (enablement account = FuturesEnablement.UNKNOWN)
             || (MIRROR_STALE_AFTER <? as_of - observed_at account) || (default as_of read_at <? observed_at account)
          then _evidence UNKNOWN latest
          else if negb (positions =? 0)%nat || known_positive margin || known_positive hold then _evidence IN_USE latest
          else match margin, hold with
          | Some _, Some _ => _evidence IDLE latest
          | _, _ => _evidence UNKNOWN latest
          end
      | _, _ => _evidence UNKNOWN latest
      end
  end.

(** ** Venue evidence ([futures_live.py]) *)

Record MaintenanceWindow := { window_starts_at : datetime; window_ends_at : datetime }.

Module FuturesVenueEvidence.
Record FuturesVenueEvidence := {
  observed_at : datetime;
  buying_power_usd : option decimal;
  initial_margin_usd : option decimal;
  positions : option (gmap string decimal);
  external_order_products : option (gset string);
  killswitch_enabled : option bool;
  maintenance : gmap string MaintenanceWindow;
  contract_sizes : gmap string decimal;
  killswitch_observed_at : option datetime
}.
End FuturesVenueEvidence.
Notation FuturesVenueEvidence := FuturesVenueEvidence.FuturesVenueEvidence.

Definition is_whole (d : decimal) : bool := (d =? to_integral_value ROUND_HALF_EVEN d)%dec.

(** [__post_init__]; instants are aware and amounts finite. *)
Definition valid_venue_evidence (v : FuturesVenueEvidence) : bool :=
  forallb (λ item : string * MaintenanceWindow, window_starts_at item.2 <? window_ends_at item.2)
    (map_to_list (FuturesVenueEvidence.maintenance v))
  && optional (λ a, d0 <=? a)%dec (FuturesVenueEvidence.buying_power_usd v)
  && optional (λ a, d0 <=? a)%dec (FuturesVenueEvidence.initial_margin_usd v)
  && forallb (λ item : string * decimal, d0 <? item.2)%dec (map_to_list (FuturesVenueEvidence.contract_sizes v))
  && optional (λ m : gmap string decimal, forallb (λ item : string * decimal, is_whole item.2) (map_to_list m))
       (FuturesVenueEvidence.positions v).

Definition LIVE_EVIDENCE_MAX_AGE : timedelta := MIRROR_STALE_AFTER.

Definition _within_max_age (observed as_of : datetime) : bool := (observed <=? as_of) && (as_of - observed <=? LIVE_EVIDENCE_MAX_AGE).

Definition is_fresh (v : FuturesVenueEvidence) (as_of : datetime) : bool := _within_max_age (FuturesVenueEvidence.observed_at v) as_of.

Definition is_admissible (v : FuturesVenueEvidence) (as_of : datetime) : bool :=
  is_fresh v as_of && optional (λ at_, _within_max_age at_ as_of) (FuturesVenueEvidence.killswitch_observed_at v).

Module LiveFuturesStart.
Record LiveFuturesStart := {
  allocated_capital_usd : option decimal;
  contract : option InstrumentContract;
  venue : option FuturesVenueEvidence;
  as_of : datetime;
  proposed_initial_margin_usd : option decimal
}.
End LiveFuturesStart.
Notation LiveFuturesStart := LiveFuturesStart.LiveFuturesStart.

(** [_first]: the first objection of some checks, in order. *)
Fixpoint _first (checks : list (option RiskVerdict)) : option RiskVerdict :=
  match checks with [] => None | Some v :: _ => Some v | None :: checks => _first checks end.

(** [try: <exact arithmetic> except DecimalException: None]; nothing else can be raised. *)
Definition exactly {A} (m : result A) : option A := match m with Ok a => Some a | Raise _ => None end.

Definition live_futures_opt_in_verdict (policy : RiskPolicyDefinition) (product_id : string) : option RiskVerdict :=
  match futures policy with
  | None => Some (_deny FUTURES_LIVE_DISABLED)
  | Some f =>
      if negb (live_opted_in f) then Some (_deny FUTURES_LIVE_DISABLED)
      else match FuturesRiskPolicy.live_capital_usd f with
      | None => Some (_deny FUTURES_LIVE_CAPITAL_UNSET)
      | Some _ => object_if (negb (allowlists f product_id)) PRODUCT_NOT_ALLOWLISTED
      end
  end.

Definition _binding_product_verdict (product_id : string) (c : option InstrumentContract) : option RiskVerdict :=
  match c with
  | Some c => object_if (negb (bool_decide (InstrumentContract.product_id c = product_id))) FUTURES_CONTRACT_DRIFT
  | None => None
  end.

Definition _contract_kind_verdict (c : option InstrumentContract) : option RiskVerdict :=
  match c with
  | None => Some (_deny FUTURES_CONTRACT_UNBOUND)
  | Some c => object_if (negb (bool_decide (InstrumentContract.kind c = perpetual_future))) FUTURES_LIVE_DATED_UNSUPPORTED
  end.

Definition _evidence_verdict (venue : option FuturesVenueEvidence) (as_of : option datetime) : option RiskVerdict :=
  match venue, as_of with
  | Some v, Some as_of => object_if (negb (is_admissible v as_of)) FUTURES_COLLATERAL_UNKNOWN
  | _, _ => Some (_deny FUTURES_COLLATERAL_UNKNOWN)
  end.

Definition _external_verdict (product_id : string) (v : FuturesVenueEvidence) (expected_contracts : decimal) : option RiskVerdict :=
  match FuturesVenueEvidence.positions v, FuturesVenueEvidence.external_order_products v with
  | Some positions, Some external =>
      if negb (default d0 (positions !! product_id) =? expected_contracts)%dec
      then Some (_deny FUTURES_EXTERNAL_POSITION_ON_PRODUCT)
      else object_if (bool_decide (product_id ∈ external)) FUTURES_EXTERNAL_POSITION_ON_PRODUCT
  | _, _ => Some (_deny FUTURES_COLLATERAL_UNKNOWN)
  end.

Definition _drift_verdict (product_id : string) (contract_size : decimal) (venue : option FuturesVenueEvidence)
    : option RiskVerdict :=
  match venue ≫= λ v, FuturesVenueEvidence.contract_sizes v !! product_id with
  | None => Some (_deny FUTURES_CONTRACT_DRIFT)
  | Some catalog => object_if (negb (catalog =? contract_size)%dec) FUTURES_CONTRACT_DRIFT
  end.

Definition _venue_state_verdict (product_id : string) (venue : option FuturesVenueEvidence) (as_of : option datetime)
    : option RiskVerdict :=
  match venue, as_of with
  | Some v, Some as_of =>
      match FuturesVenueEvidence.killswitch_enabled v with
      | None => Some (_deny FUTURES_COLLATERAL_UNKNOWN)
      | Some true => Some (_deny FUTURES_VENUE_KILLSWITCH)
      | Some false =>
          match FuturesVenueEvidence.maintenance v !! product_id with
          | Some window => object_if (as_of <? window_ends_at window) FUTURES_VENUE_MAINTENANCE
          | None => None
          end
      end
  | _, _ => None
  end.

Definition _occupied_verdict (product_id : string) (deployments : list Deployment) (own : option UUID) : option RiskVerdict :=
  object_if (existsb (λ item : Deployment,
    negb (bool_decide (Some (Deployment.id item) = own)) && in_mode DeploymentMode.LIVE item && occupies_running_slot item
    && bool_decide (Deployment.product_id item = product_id)) deployments) FUTURES_PRODUCT_OCCUPIED.

Section Live.
Context {dc : DecimalContext}.

(** Exact division: the quotient times the divisor is the dividend. *)
Definition exact_div (a b : decimal) : result decimal :=
  q ← div a b; if (exact_product q b =? a)%dec then Ok q else Raise Inexact.

(** [sum(..., start=Decimal(0))] in a context that traps [Inexact]. *)
Definition exact_total (l : list decimal) : result decimal := foldM exact_add d0 l.

Definition exact_signed_base (book : DeploymentSnapshot) (product_id : string) : result decimal :=
  foldM (λ total p,
    signed ← match Position.side p with SHORT => exact_neg (Position.quantity p) | LONG => Ok (Position.quantity p) end;
    exact_add total signed) d0 (positions_of book product_id).

Definition live_futures_books (deployments : list Deployment) : list Deployment :=
  List.filter (λ item : Deployment,
    in_mode DeploymentMode.LIVE item && occupies_running_slot item && is_futures_product_id (Deployment.product_id item)) deployments.

Definition _envelope_verdict (policy : RiskPolicyDefinition) (deployments : list Deployment) (start : option LiveFuturesStart)
    : option RiskVerdict :=
  match futures policy ≫= FuturesRiskPolicy.live_capital_usd with
  | None => None
  | Some capital =>
      match start ≫= LiveFuturesStart.allocated_capital_usd with
      | None => Some (_deny FUTURES_LIVE_CAPITAL_EXCEEDED)
      | Some allocated =>
          let allocations := (λ item : Deployment, Deployment.allocated_capital item) <$> live_futures_books deployments in
          if (allocated <=? d0)%dec then Some (_deny FUTURES_LIVE_CAPITAL_EXCEEDED)
          else if existsb (λ a, negb (known_positive a)) allocations then Some (_deny FUTURES_LIVE_CAPITAL_EXCEEDED)
          else match exactly (committed ← exact_total (omap id allocations); exact_add committed allocated) with
          | None => Some (_deny FUTURES_LIVE_CAPITAL_EXCEEDED)
          | Some total => object_if (capital <? total)%dec FUTURES_LIVE_CAPITAL_EXCEEDED
          end
      end
  end.

Definition _external_entry_verdict (product_id : string) (book : DeploymentSnapshot) (contract_size : decimal)
    (venue : option FuturesVenueEvidence) : option RiskVerdict :=
  match venue with
  | None => None
  | Some v =>
      match exactly (base ← exact_signed_base book product_id; exact_div base contract_size) with
      | None => Some (_deny FUTURES_COLLATERAL_UNKNOWN)
      | Some held => if negb (is_whole held) then Some (_deny FUTURES_COLLATERAL_UNKNOWN) else _external_verdict product_id v held
      end
  end.

Definition contract_cap (policy : RiskPolicyDefinition) : Z :=
  match futures policy with None => 1 | Some f => effective_live_max_order_contracts f end.

(** The contracts ordered, held and in total. *)
Definition contract_counts (proposed : ProposedEntry) (book : DeploymentSnapshot) (contract_size quantity : decimal)
    : result (decimal * decimal * decimal) :=
  ordered ← exact_div quantity contract_size;
  base ← exact_signed_base book (entry_product_id proposed);
  size ← trapped (abs_ base) (Dec (Z.abs (coef base)) (exponent base));
  held ← exact_div size contract_size;
  total ← exact_add held ordered;
  Ok (ordered, held, total).

Definition _contracts_verdict (policy : RiskPolicyDefinition) (proposed : ProposedEntry) (book : DeploymentSnapshot)
    (contract_size : decimal) : option RiskVerdict :=
  match entry_quantity proposed with
  | None => Some (_deny FUTURES_ORDER_CONTRACTS_EXCEEDED)
  | Some quantity =>
      if (quantity <=? d0)%dec then Some (_deny FUTURES_ORDER_CONTRACTS_EXCEEDED)
      else match exactly (contract_counts proposed book contract_size quantity) with
      | None => Some (_deny FUTURES_ORDER_CONTRACTS_EXCEEDED)
      | Some (ordered, held, total) =>
          object_if ((ordered <=? d0)%dec || negb (is_whole ordered) || negb (is_whole held)
            || (of_Z (contract_cap policy) <? ordered)%dec || (of_Z (contract_cap policy) <? total)%dec)
            FUTURES_ORDER_CONTRACTS_EXCEEDED
      end
  end.

Definition covers_usd (policy : RiskPolicyDefinition) : bool :=
  bool_decide (RiskPolicyDefinition.quote_currency policy ∈ ["USD"; "USDC"]).

Definition required_reserve (current initial haircut : decimal) : result decimal :=
  projected ← exact_add current initial; exact_mul projected haircut.

Definition _margin_capacity_verdict (policy : RiskPolicyDefinition) (venue : option FuturesVenueEvidence) (initial : option decimal)
    : option RiskVerdict :=
  match venue, initial with
  | None, _ => None
  | Some _, None => Some (_deny FUTURES_COLLATERAL_UNKNOWN)
  | Some v, Some initial =>
      if (initial <=? d0)%dec then Some (_deny FUTURES_COLLATERAL_UNKNOWN)
      else match FuturesVenueEvidence.buying_power_usd v, FuturesVenueEvidence.initial_margin_usd v with
      | Some buying_power, Some current =>
          if (buying_power <? initial)%dec then Some (_deny FUTURES_BUYING_POWER_SHORT)
          else if negb (covers_usd policy) then Some (_deny FUTURES_COLLATERAL_UNKNOWN)
          else match futures policy with
          | None => Some (_deny FUTURES_COLLATERAL_RESERVE_SHORT)
          | Some f =>
              match FuturesRiskPolicy.live_spot_collateral_reserve_quote f with
              | None => Some (_deny FUTURES_COLLATERAL_RESERVE_SHORT)
              | Some reserve =>
                  match exactly (required_reserve current initial (FuturesRiskPolicy.peg_haircut f)) with
                  | None => Some (_deny FUTURES_COLLATERAL_RESERVE_SHORT)
                  | Some required =>
                      object_if ((required <=? d0)%dec || (reserve <? required)%dec) FUTURES_COLLATERAL_RESERVE_SHORT
                  end
              end
          end
      | _, _ => Some (_deny FUTURES_COLLATERAL_UNKNOWN)
      end
  end.

(** The margin already held, in a context wide enough for the exact product. *)
Definition decimal_digits (d : decimal) : Z := digits (coef d).

Definition _unpriced_capacity_verdict (policy : RiskPolicyDefinition) (venue : option FuturesVenueEvidence) : option RiskVerdict :=
  match venue with
  | None => None
  | Some v =>
      match FuturesVenueEvidence.buying_power_usd v, FuturesVenueEvidence.initial_margin_usd v with
      | Some buying_power, Some current =>
          if (buying_power <=? d0)%dec then Some (_deny FUTURES_BUYING_POWER_SHORT)
          else if negb (covers_usd policy) then Some (_deny FUTURES_COLLATERAL_UNKNOWN)
          else match futures policy with
          | None => Some (_deny FUTURES_COLLATERAL_RESERVE_SHORT)
          | Some f =>
              match FuturesRiskPolicy.live_spot_collateral_reserve_quote f with
              | None => Some (_deny FUTURES_COLLATERAL_RESERVE_SHORT)
              | Some reserve =>
                  let held := exact_product current (FuturesRiskPolicy.peg_haircut f) in
                  object_if (reserve <=? held)%dec FUTURES_COLLATERAL_RESERVE_SHORT
              end
          end
      | _, _ => Some (_deny FUTURES_COLLATERAL_UNKNOWN)
      end
  end.

Definition _start_venue_verdict (policy : RiskPolicyDefinition) (product_id : string) (start : option LiveFuturesStart)
    : option RiskVerdict :=
  match _evidence_verdict (start ≫= LiveFuturesStart.venue) (LiveFuturesStart.as_of <$> start) with
  | Some stale => Some stale
  | None =>
      match start with
      | None => None
      | Some st =>
          match LiveFuturesStart.venue st, LiveFuturesStart.contract st with
          | Some v, Some c =>
              _first [
                _external_verdict product_id v d0;
                _venue_state_verdict product_id (Some v) (Some (LiveFuturesStart.as_of st));
                _drift_verdict product_id (InstrumentContract.contract_size c) (Some v);
                _margin_capacity_verdict policy (Some v) (LiveFuturesStart.proposed_initial_margin_usd st)]
          | _, _ => None
          end
      end
  end.

Definition live_futures_deployment_verdict (policy : RiskPolicyDefinition) (covered : list string) (deployments : list Deployment)
    (start : option LiveFuturesStart) : option RiskVerdict :=
  match covered with
  | [product_id] =>
      let c := start ≫= LiveFuturesStart.contract in
      _first [
        live_futures_opt_in_verdict policy product_id;
        _occupied_verdict product_id deployments None;
        _envelope_verdict policy deployments start;
        _contract_kind_verdict c;
        _binding_product_verdict product_id c;
        _start_venue_verdict policy product_id start]
  | _ => Some (_deny FUTURES_LIVE_UNSUPPORTED)
  end.

Definition _standing_checks (policy : RiskPolicyDefinition) (proposed : ProposedEntry) (book : DeploymentSnapshot)
    (binding : BoundFuturesContract) (snapshots : list DeploymentSnapshot) (venue : option FuturesVenueEvidence)
    (as_of : option datetime) : list (option RiskVerdict) :=
  let product_id := entry_product_id proposed in
  let contract_size := InstrumentContract.contract_size (contract binding) in [
  live_futures_opt_in_verdict policy product_id;
  _contract_kind_verdict (Some (contract binding));
  _binding_product_verdict product_id (Some (contract binding));
  _occupied_verdict product_id (DeploymentSnapshot.deployment <$> snapshots)
    (Some (Deployment.id (DeploymentSnapshot.deployment book)));
  _evidence_verdict venue as_of;
  _drift_verdict product_id contract_size venue;
  _external_entry_verdict product_id book contract_size venue;
  _contracts_verdict policy proposed book contract_size;
  _venue_state_verdict product_id venue as_of].

Definition live_futures_entry_verdict (policy : RiskPolicyDefinition) (proposed : ProposedEntry) (book : DeploymentSnapshot)
    (state : FuturesBookState) (snapshots : list DeploymentSnapshot) (venue : option FuturesVenueEvidence)
    (as_of : option datetime) : option RiskVerdict :=
  match FuturesBookState.binding state, FuturesBookState.margin state with
  | Some binding, Some margin =>
      let side := default (FuturesBookState.side state) (entry_side proposed) in
      if (entry_notional proposed <=? d0)%dec then Some (_deny FUTURES_COLLATERAL_UNKNOWN)
      else match exactly (exact_mul (entry_notional proposed) (initial_rate margin side)) with
      | None => Some (_deny FUTURES_COLLATERAL_UNKNOWN)
      | Some initial =>
          if (initial <=? d0)%dec then Some (_deny FUTURES_COLLATERAL_UNKNOWN)
          else _first (_standing_checks policy proposed book binding snapshots venue as_of
                 ++ [_margin_capacity_verdict policy venue (Some initial)])
      end
  | _, _ => Some (_deny FUTURES_CONTRACT_UNBOUND)
  end.

Definition live_futures_standing_verdict (policy : RiskPolicyDefinition) (proposed : ProposedEntry) (book : DeploymentSnapshot)
    (state : FuturesBookState) (snapshots : list DeploymentSnapshot) (venue : option FuturesVenueEvidence)
    (as_of : option datetime) : option RiskVerdict :=
  match FuturesBookState.binding state, FuturesBookState.margin state with
  | Some binding, Some _ =>
      _first (_standing_checks policy proposed book binding snapshots venue as_of ++ [_unpriced_capacity_verdict policy venue])
  | _, _ => Some (_deny FUTURES_CONTRACT_UNBOUND)
  end.

(** ** Spot beside manual futures ([collateral_verdict]) *)

Definition _reserve_verdict (reserve haircut : decimal) (evidence : FuturesCollateralEvidence) (live_quote_cash : option decimal)
    : option RiskVerdict * option decimal :=
  match collateral_margin_usd evidence with
  | None => (Some (_deny FUTURES_COLLATERAL_UNKNOWN), live_quote_cash)
  | Some margin =>
      if (reserve <? margin * haircut)%dec then (Some (_deny FUTURES_COLLATERAL_RESERVE_SHORT), live_quote_cash)
      else match live_quote_cash with
      | None => (None, None)
      | Some cash =>
          let remaining := (cash - reserve)%dec in
          if (remaining <? d0)%dec then (Some (_deny FUTURES_COLLATERAL_RESERVE_SHORT), live_quote_cash)
          else (None, Some remaining)
      end
  end.

Definition collateral_linked (product_id : string) : bool :=
  match quote_currency product_id with Ok quoted => bool_decide (quoted ∈ COLLATERAL_LINKED_QUOTES) | Raise _ => false end.

(** The denial, if any, and the cash the rest of the gate uses. *)
Definition collateral_verdict (policy : RiskPolicyDefinition) (mode : DeploymentMode) (proposed : ProposedEntry)
    (evidence : option FuturesCollateralEvidence) (live_quote_cash : option decimal) : option RiskVerdict * option decimal :=
  match evidence with
  | None => (None, live_quote_cash)
  | Some e =>
      if negb (bool_decide (mode = DeploymentMode.LIVE)) || in_kind proposed || negb (collateral_linked (entry_product_id proposed))
      then (None, live_quote_cash)
      else match collateral_state e with
      | UNKNOWN => (Some (_deny FUTURES_COLLATERAL_UNKNOWN), live_quote_cash)
      | IN_USE =>
          match futures policy with
          | None => (Some (_deny FUTURES_COLLATERAL_IN_USE), live_quote_cash)
          | Some f =>
              match FuturesRiskPolicy.live_spot_collateral_reserve_quote f with
              | None => (Some (_deny FUTURES_COLLATERAL_IN_USE), live_quote_cash)
              | Some reserve => _reserve_verdict reserve (FuturesRiskPolicy.peg_haircut f) e live_quote_cash
              end
          end
      | ABSENT | IDLE => (None, live_quote_cash)
      end
  end.

End Live.

(** ** Futures books in the gate ([futures_entry.py]) *)

(** [_scope]: the collateral scope of a product. *)
Definition _scope (product_id : string) : option string :=
  if is_futures_product_id product_id then Some "futures"
  else match quote_currency product_id with
  | Ok quoted => if decide (quoted ∈ COLLATERAL_LINKED_QUOTES) then Some ("spot " +:+ quoted) else None
  | Raise _ => None
  end.

Definition linked_latch (entry_scope : string) (item : DeploymentSnapshot) : bool :=
  let d := DeploymentSnapshot.deployment item in
  Deployment.daily_loss_latched d
  && match _scope (Deployment.product_id d) with
     | None => false
     | Some book_scope =>
         negb (bool_decide (book_scope = entry_scope)) && bool_decide ("futures" ∈ [book_scope; entry_scope])
     end.

Definition linked_breaker_verdict (mode : DeploymentMode) (product_id : string) (snapshots : list DeploymentSnapshot)
    : option RiskVerdict :=
  if bool_decide (mode = DeploymentMode.LIVE) && is_futures_product_id product_id
     && negb (existsb (λ item, in_mode mode (DeploymentSnapshot.deployment item)
                && bool_decide (Deployment.product_id (DeploymentSnapshot.deployment item) = product_id)) snapshots)
  then None
  else match _scope product_id with
  | None => None
  | Some entry_scope =>
      object_if (existsb (linked_latch entry_scope) (daily_loss_snapshots snapshots mode)) SHARED_COLLATERAL_BREAKER
  end.

Section FuturesEntry.
Context {dc : DecimalContext} {so : SetOrder} {dg : Digest}.

Definition futures_capital (policy : RiskPolicyDefinition) (mode : DeploymentMode) : decimal :=
  default d0 (futures policy ≫= match mode with
    | DeploymentMode.LIVE => FuturesRiskPolicy.live_capital_usd
    | DeploymentMode.PAPER => FuturesRiskPolicy.paper_capital_usd end).

Definition paper_committed (deployments : list Deployment) (mode : DeploymentMode) : decimal :=
  dsum (omap (λ item : Deployment,
    if in_mode mode item && occupies_running_slot item && is_futures_product_id (Deployment.product_id item)
    then Deployment.paper_starting_cash item else None) deployments).

Definition futures_deployment_verdict (policy : RiskPolicyDefinition) (mode : DeploymentMode) (covered : list string)
    (paper_starting_cash : option decimal) (deployments : list Deployment) (start : option LiveFuturesStart) : RiskVerdict :=
  match mode with
  | DeploymentMode.LIVE => default _allow (live_futures_deployment_verdict policy covered deployments start)
  | DeploymentMode.PAPER =>
      if negb (length covered =? 1)%nat then _deny FUTURES_PAPER_UNSUPPORTED
      else match futures policy ≫= FuturesRiskPolicy.paper_capital_usd with
      | None => _deny FUTURES_POLICY_UNSET
      | Some envelope =>
          match paper_starting_cash with
          | None => _deny FUTURES_PAPER_CAPITAL_EXCEEDED
          | Some cash =>
              if (cash <=? d0)%dec then _deny FUTURES_PAPER_CAPITAL_EXCEEDED
              else if (envelope <? paper_committed deployments mode + cash)%dec then _deny FUTURES_PAPER_CAPITAL_EXCEEDED
              else _allow
          end
      end
  end.

Definition _funding_rate_verdict (cap : option decimal) (state : FuturesBookState) : option RiskVerdict :=
  match cap, FuturesBookState.binding state with
  | Some cap, Some binding =>
      if negb (bool_decide (InstrumentContract.kind (contract binding) = perpetual_future)) then None
      else match FuturesBookState.latest_funding_rate state with
      | None => Some (_deny FUNDING_HISTORY_MISSING)
      | Some rate => object_if (cap <? abs_ rate)%dec FUTURES_FUNDING_RATE_EXCEEDED
      end
  | _, _ => None
  end.

Definition gross_futures (snapshots : list DeploymentSnapshot) (mode : DeploymentMode) : decimal :=
  dsum ((λ book, abs_ (product_exposure book (Deployment.product_id (DeploymentSnapshot.deployment book)))) <$>
    List.filter (λ book, is_futures_product_id (Deployment.product_id (DeploymentSnapshot.deployment book)))
      (risk_bearing_snapshots snapshots mode)).

Definition futures_caps_verdict (policy : RiskPolicyDefinition) (mode : DeploymentMode) (state : FuturesBookState)
    (notional : decimal) (quantity : option decimal) (snapshots : list DeploymentSnapshot) (capital : decimal)
    : result (option RiskVerdict) :=
  match futures policy, FuturesBookState.binding state with
  | Some f, Some binding =>
      objection
        (match FuturesRiskPolicy.max_order_contracts f, quantity with
         | Some cap, Some quantity =>
             contracts ← div quantity (InstrumentContract.contract_size (contract binding));
             Ok (object_if (of_Z cap <? contracts)%dec FUTURES_ORDER_CONTRACTS_EXCEEDED)
         | _, _ => Ok None
         end)
        (objection
          (match FuturesRiskPolicy.max_exposure_fraction f with
           | None => Ok None
           | Some fraction =>
               Ok (object_if (capital * fraction <? gross_futures snapshots mode + abs_ notional)%dec FUTURES_EXPOSURE_EXCEEDED)
           end)
          (Ok (_funding_rate_verdict (FuturesRiskPolicy.max_hourly_funding_rate_abs f) state)))
  | _, _ => Ok None
  end.

Definition _proposing_book (scope : option FuturesBookState) (proposed : ProposedEntry) (snapshots : list DeploymentSnapshot)
    : option DeploymentSnapshot :=
  state ← current_futures_book scope None;
  if decide (FuturesBookState.product_id state = entry_product_id proposed)
  then find (λ item, bool_decide (Deployment.id (DeploymentSnapshot.deployment item) = FuturesBookState.deployment_id state)) snapshots
  else None.

(** The state bound for a book, if it is this book's. *)
Definition book_state (scope : option FuturesBookState) (book : option DeploymentSnapshot) : option FuturesBookState :=
  b ← book; current_futures_book scope (Some (Deployment.id (DeploymentSnapshot.deployment b))).

Definition _known_book_verdict (scope : option FuturesBookState) (book : option DeploymentSnapshot) : option RiskVerdict :=
  match book_state scope book with
  | None => Some (_deny FUTURES_CONTRACT_UNBOUND)
  | Some state => _deny <$> entry_block state
  end.

Definition _live_gate_verdict (scope : option FuturesBookState) (policy : RiskPolicyDefinition) (mode : DeploymentMode)
    (proposed : ProposedEntry) (book : option DeploymentSnapshot) (snapshots : list DeploymentSnapshot)
    (venue : option FuturesVenueEvidence) (as_of : option datetime) : option RiskVerdict :=
  match mode, book, book_state scope book with
  | DeploymentMode.LIVE, Some b, Some state => live_futures_entry_verdict policy proposed b state snapshots venue as_of
  | _, _, _ => None
  end.

Definition running_books (snapshots : list DeploymentSnapshot) (mode : DeploymentMode) : list DeploymentSnapshot :=
  List.filter (λ item, in_mode mode (DeploymentSnapshot.deployment item)
    && occupies_running_slot (DeploymentSnapshot.deployment item)) snapshots.

Definition _membership_verdict (policy : RiskPolicyDefinition) (mode : DeploymentMode) (proposed : ProposedEntry)
    (snapshots : list DeploymentSnapshot) : option RiskVerdict :=
  let membership := _entry_membership policy mode proposed (running_books snapshots mode) false in
  if denied membership then Some membership else None.

Definition _margin_verdict (scope : option FuturesBookState) (proposed : ProposedEntry) (book : option DeploymentSnapshot)
    (o : option EntryObservation) : result (option RiskVerdict) :=
  match book, book_state scope book with
  | Some b, Some state =>
      match FuturesBookState.margin state with
      | None => Ok (Some (_deny FUTURES_MARGIN_UNKNOWN))
      | Some margin =>
          equity ← futures_book_equity b (match o with None => ∅ | Some o => observed_marks o end);
          match equity with
          | None => Ok (Some (_deny BREAKER_MARK_MISSING))
          | Some equity =>
              if (equity <=? d0)%dec then Ok (Some (_deny BREAKER_MARK_MISSING))
              else if (terms_max_leverage margin * equity <? entry_notional proposed)%dec
              then Ok (Some (_deny FUTURES_LEVERAGE_EXCEEDED))
              else
                let quantity := default d0 (entry_quantity proposed) in
                price ← (if (quantity =? d0)%dec then Ok d0 else div (entry_notional proposed) quantity);
                let needed := maintenance margin quantity price (FuturesBookState.side state) in
                Ok (object_if ((d1 - min_buffer_fraction margin) * equity <? needed)%dec FUTURES_LIQUIDATION_BUFFER)
          end
      end
  | _, _ => Ok (Some (_deny FUTURES_MARGIN_UNKNOWN))
  end.

Definition _policy_caps_verdict (scope : option FuturesBookState) (policy : RiskPolicyDefinition) (mode : DeploymentMode)
    (proposed : ProposedEntry) (snapshots : list DeploymentSnapshot) (capital : decimal) : result (option RiskVerdict) :=
  match current_futures_book scope None with
  | None => Ok None
  | Some state => futures_caps_verdict policy mode state (entry_notional proposed) (entry_quantity proposed) snapshots capital
  end.

Definition _proposing_underlying (scope : option FuturesBookState) (book : option DeploymentSnapshot) : string :=
  match book_state scope book ≫= FuturesBookState.binding with
  | None => ""
  | Some binding => InstrumentContract.underlying (contract binding)
  end.

Definition _scope_breaker_verdict (policy : RiskPolicyDefinition) (mode : DeploymentMode) (proposed : ProposedEntry)
    (snapshots : list DeploymentSnapshot) (o : option EntryObservation) (capital : decimal) : result (option RiskVerdict) :=
  match o with
  | None => Ok (Some (_deny BREAKER_MARK_MISSING))
  | Some o =>
      objection (evaluate_circuit_breakers policy mode (entry_product_id proposed) (entry_strategy_id proposed) snapshots o capital)
        (objection (evaluate_rate_and_collar policy mode (risk_bearing_snapshots snapshots mode) o)
          (Ok (cluster_verdict policy mode proposed snapshots (Some (as_of o)))))
  end.

(** The checks run in order and the first objection wins. *)
Fixpoint first_of (checks : list (result (option RiskVerdict))) : result RiskVerdict :=
  match checks with
  | [] => Ok _allow
  | check :: checks => v ← check; match v with Some v => Ok v | None => first_of checks end
  end.

Definition evaluate_futures_entry (scope : option FuturesBookState) (policy : RiskPolicyDefinition) (mode : DeploymentMode)
    (proposed : ProposedEntry) (snapshots : list DeploymentSnapshot) (o : option EntryObservation)
    (beta : option BetaEvidence) (legs : option FuturesLegs) (venue : option FuturesVenueEvidence) : result RiskVerdict :=
  let opted := if decide (mode = DeploymentMode.LIVE) then live_futures_opt_in_verdict policy (entry_product_id proposed) else None in
  match opted with
  | Some opted => Ok opted
  | None =>
      let capital := futures_capital policy mode in
      if (capital <=? d0)%dec then Ok (_deny FUTURES_POLICY_UNSET)
      else
        let book := _proposing_book scope proposed snapshots in
        let seen := as_of <$> o in
        first_of [
          Ok (_known_book_verdict scope book);
          Ok (_live_gate_verdict scope policy mode proposed book snapshots venue seen);
          Ok (_membership_verdict policy mode proposed snapshots);
          Ok (linked_breaker_verdict mode (entry_product_id proposed) snapshots);
          _margin_verdict scope proposed book o;
          _policy_caps_verdict scope policy mode proposed snapshots capital;
          futures_beta_verdict policy mode proposed (_proposing_underlying scope book) snapshots legs beta capital seen;
          _scope_breaker_verdict policy mode proposed snapshots o capital]
  end.

End FuturesEntry.
