(* ===== verification/Gate.v ===== *)
(** * Gate: admission of deployments and entries ([risk/gate.py])

    The gate composes the checks of the previous files in a fixed order and returns the first
    denial. The context variable of the futures book is the argument [scope]. *)

From S2P Require Import Prelude Decimals Market Geometry Containers TradingModels.
From S2P Require Import RiskModels EntryLimits Breakers BetaExposure FuturesBooks FuturesGate.
Import RiskPolicyDefinition (product_allowlist, max_concurrent_running_deployments, paper_capital_quote).

Open Scope Z_scope.

Section Gate.
Context {dc : DecimalContext}.

(** ** Deployments *)

Definition _paper_committed (occupied : list Deployment) : decimal :=
  dsum (omap (λ item : Deployment, Deployment.paper_starting_cash item) occupied).

Definition shares_quote (product_id : string) (item : Deployment) : result bool :=
  if negb (is_spot_product_id (Deployment.product_id item)) then Ok false
  else
    item_quote ← quote_currency (Deployment.product_id item);
    quoted ← quote_currency product_id;
    Ok (bool_decide (item_quote = quoted)).

(** [not any(...)], stopping at the first book of another quote. *)
Fixpoint one_quote (product_id : string) (occupied : list Deployment) : result bool :=
  match occupied with
  | [] => Ok true
  | item :: occupied => same ← shares_quote product_id item; if same : bool then one_quote product_id occupied else Ok false
  end.

Definition _paper_deploy_capital (policy : RiskPolicyDefinition) (occupied : list Deployment) (strategy_id : option UUID)
    (paper_starting_cash : option decimal) (product_id : string) : result RiskVerdict :=
  single ← (if is_spot_product_id product_id then one_quote product_id occupied else Ok false);
  if negb single then Ok (_deny PAPER_CAPITAL_EXCEEDED)
  else match paper_starting_cash with
  | None => Ok (_deny PAPER_CAPITAL_EXCEEDED)
  | Some cash =>
      if (cash <=? d0)%dec then Ok (_deny PAPER_CAPITAL_EXCEEDED)
      else if (paper_capital_quote policy <? _paper_committed occupied + cash)%dec then Ok (_deny PAPER_CAPITAL_EXCEEDED)
      else match _allocation_for policy strategy_id with
      | None => Ok _allow
      | Some reserved => if (reserved <? cash)%dec then Ok (_deny ALLOCATION_EXCEEDED) else Ok _allow
      end
  end.

(** The first product that is not allowlisted. *)
Fixpoint allowlist_denial (policy : RiskPolicyDefinition) (covered : list string) : option RiskVerdict :=
  match covered with
  | [] => None
  | product :: covered =>
      let verdict := _allowlist_verdict policy product in
      if denied verdict then Some verdict else allowlist_denial policy covered
  end.

Definition evaluate_new_deployment (policy : RiskPolicyDefinition) (mode : DeploymentMode) (product_id : string)
    (strategy_id : option UUID) (paper_starting_cash : option decimal) (deployments : list Deployment)
    (product_ids : list string) (policy_source : RiskPolicySource) (portfolio_sleeve : bool)
    (live_futures : option LiveFuturesStart) (desk : option string) : result RiskVerdict :=
  if bool_decide (mode = DeploymentMode.LIVE) && bool_decide (policy_source = COMPILED_DEFAULT)
  then Ok (_deny LIVE_REQUIRES_PUBLISHED_POLICY)
  else
    let covered := match product_ids with [] => [product_id] | _ => product_ids end in
    let trades_futures := existsb is_futures_product_id covered in
    let occupied := _occupied deployments mode in
    match allowlist_denial policy covered with
    | Some verdict => Ok verdict
    | None =>
        let allocated := _allocation_membership policy strategy_id mode portfolio_sleeve trades_futures desk in
        if denied allocated then Ok allocated
        else if max_concurrent_running_deployments policy <=? Z.of_nat (length occupied) then Ok (_deny MAX_RUNNING_DEPLOYMENTS)
        else if trades_futures
        then Ok (futures_deployment_verdict policy mode covered paper_starting_cash deployments live_futures)
        else match mode with
        | DeploymentMode.PAPER =>
            let spot_occupied := List.filter (λ item : Deployment, negb (is_futures_product_id (Deployment.product_id item))) occupied in
            _paper_deploy_capital policy spot_occupied strategy_id paper_starting_cash product_id
        | DeploymentMode.LIVE => Ok _allow
        end
    end.

Section Entry.
Context {so : SetOrder} {dg : Digest}.

(** ** Entries *)

(** A book is among [quote_books] exactly when its products have the entry's quote, so the
    books left out, which the code finds by comparing snapshots, are those of another quote. *)
Definition _portfolio_verdict (portfolio : option PortfolioRiskBook) (proposed : ProposedEntry) (quote : string)
    (risk_bearing quote_books : list DeploymentSnapshot) : result (option RiskVerdict) :=
  match portfolio with
  | None => Ok None
  | Some book =>
      let left_out := List.filter (λ item, negb (bool_decide (_snapshot_quote item = Some quote))) risk_bearing in
      if existsb (λ item, bool_decide
           (Deployment.portfolio_id (DeploymentSnapshot.deployment item) = Some (book_portfolio_id book))) left_out
      then Ok (Some (_deny PORTFOLIO_LIMITS_UNAVAILABLE))
      else limited ← evaluate_portfolio_entry book proposed quote_books; Ok (if denied limited then Some limited else None)
  end.

Definition _clustered_or_allow (policy : RiskPolicyDefinition) (mode : DeploymentMode) (proposed : ProposedEntry)
    (snapshots : list DeploymentSnapshot) (seen : option datetime) : RiskVerdict :=
  default _allow (cluster_verdict policy mode proposed snapshots seen).

Definition _entry_breaker_verdict (policy : RiskPolicyDefinition) (mode : DeploymentMode) (proposed : ProposedEntry)
    (risk_bearing quote_books snapshots : list DeploymentSnapshot) (live_quote_cash : option decimal)
    (o : option EntryObservation) : result RiskVerdict :=
  match o with
  | None => Ok (_clustered_or_allow policy mode proposed snapshots None)
  | Some o =>
      let capital := _capital_base policy mode live_quote_cash quote_books (in_kind_capital proposed) in
      tripped ← evaluate_circuit_breakers policy mode (entry_product_id proposed) (entry_strategy_id proposed) snapshots o capital;
      match tripped with
      | Some tripped => Ok tripped
      | None =>
          if in_kind proposed then Ok _allow
          else
            protected ← evaluate_rate_and_collar policy mode risk_bearing o;
            match protected with
            | Some v => Ok v
            | None => Ok (_clustered_or_allow policy mode proposed snapshots (Some (as_of o)))
            end
      end
  end.

(** The checks of a spot entry after its own scope, on the books of its quote. *)
Definition spot_checks (policy : RiskPolicyDefinition) (mode : DeploymentMode) (proposed : ProposedEntry)
    (snapshots risk_bearing quote_books : list DeploymentSnapshot) (quote : string) (live_quote_cash : option decimal)
    (o : option EntryObservation) (portfolio : option PortfolioRiskBook) (beta : option BetaEvidence)
    (futures_collateral : option FuturesCollateralEvidence) (legs : option FuturesLegs) : result RiskVerdict :=
  let membership := _entry_membership policy mode proposed (running_books snapshots mode)
    (match portfolio with Some p => live p | None => false end) in
  if denied membership then Ok membership
  else
    limited ← _portfolio_verdict portfolio proposed quote risk_bearing quote_books;
    match limited with
    | Some v => Ok v
    | None =>
        let '(collateral, live_quote_cash) := collateral_verdict policy mode proposed futures_collateral live_quote_cash in
        match collateral with
        | Some v => Ok v
        | None =>
            bounded ← (if in_kind proposed then Ok None
                       else _order_bound_verdict policy mode proposed quote_books live_quote_cash);
            match bounded with
            | Some v => Ok v
            | None =>
                exposure ← _exposure_verdict policy mode proposed quote_books live_quote_cash;
                if denied exposure then Ok exposure
                else
                  capped ← beta_verdict policy mode proposed quote_books live_quote_cash beta (as_of <$> o) snapshots legs
                    (match o with None => ∅ | Some o => observed_marks o end);
                  match capped with
                  | Some v => Ok v
                  | None =>
                      match unresolved_accounting_verdict mode (entry_product_id proposed) snapshots with
                      | Some v => Ok v
                      | None => _entry_breaker_verdict policy mode proposed risk_bearing quote_books snapshots live_quote_cash o
                      end
                  end
            end
        end
    end.

Definition _scope_verdict (scope : option FuturesBookState) (policy : RiskPolicyDefinition) (mode : DeploymentMode)
    (proposed : ProposedEntry) (snapshots : list DeploymentSnapshot) (o : option EntryObservation) (beta : option BetaEvidence)
    (legs : option FuturesLegs) (venue : option FuturesVenueEvidence) : result (option RiskVerdict) :=
  if is_futures_product_id (entry_product_id proposed) then
    v ← evaluate_futures_entry scope policy mode proposed snapshots o beta legs venue; Ok (Some v)
  else Ok (linked_breaker_verdict mode (entry_product_id proposed) snapshots).

Definition evaluate_new_entry (scope : option FuturesBookState) (policy : RiskPolicyDefinition) (mode : DeploymentMode)
    (proposed : ProposedEntry) (snapshots : list DeploymentSnapshot) (live_quote_cash : option decimal)
    (o : option EntryObservation) (portfolio : option PortfolioRiskBook) (beta : option BetaEvidence)
    (futures_collateral : option FuturesCollateralEvidence) (legs : option FuturesLegs) (venue : option FuturesVenueEvidence)
    : result RiskVerdict :=
  scoped ← _scope_verdict scope policy mode proposed snapshots o beta legs venue;
  match scoped with
  | Some v => Ok v
  | None =>
      let risk_bearing := risk_bearing_snapshots snapshots mode in
      match _product_quote (entry_product_id proposed), quote_scoped_snapshots risk_bearing (entry_product_id proposed) with
      | _, (_, Some incomplete) => Ok incomplete
      | None, _ => Ok (_deny BREAKER_MARK_MISSING)
      | Some quote, (quote_books, None) =>
          spot_checks policy mode proposed snapshots risk_bearing quote_books quote live_quote_cash o portfolio beta
            futures_collateral legs
      end
  end.

(** ** Runtime breakers *)

Definition evaluate_runtime_breakers (policy : RiskPolicyDefinition) (mode : DeploymentMode) (snapshot : DeploymentSnapshot)
    (snapshots : list DeploymentSnapshot) (live_quote_cash : option decimal) (o : EntryObservation) : result RiskVerdict :=
  let d := DeploymentSnapshot.deployment snapshot in
  match quote_scoped_snapshots (risk_bearing_snapshots snapshots mode) (Deployment.product_id d) with
  | (_, Some incomplete) => Ok incomplete
  | (occupied, None) =>
      let capital := if is_futures_product_id (Deployment.product_id d) then futures_capital policy mode
        else _capital_base policy mode live_quote_cash occupied d0 in
      tripped ← evaluate_circuit_breakers policy mode (Deployment.product_id d) (Deployment.strategy_id d) snapshots o capital;
      Ok (default _allow tripped)
  end.

End Entry.
End Gate.
