(* ===== verification/Verdicts.v ===== *)
(** * Verdicts: what the gate can answer

    Every check either has no objection or refuses with a reason that is not [ALLOWED], and a
    verdict is the one allowance or such a refusal. The lemmas follow the shape of the code:
    one rule per control structure, one hint per check. *)

From S2P Require Import Prelude Decimals Market Geometry Containers TradingModels.
From S2P Require Import RiskModels EntryLimits Breakers BetaExposure FuturesBooks FuturesGate Gate.
Import RiskPolicyDefinition (max_concurrent_running_deployments).

Inductive refusal : RiskVerdict → Prop :=
  | refuse reason : reason ≠ ALLOWED → refusal (_deny reason).

(** A check's objection, if any, is a refusal. *)
Definition objects (o : option RiskVerdict) : Prop := ∀ v, o = Some v → refusal v.
Definition checks (m : result (option RiskVerdict)) : Prop := ∀ v, m = Ok (Some v) → refusal v.

Definition settled (v : RiskVerdict) : Prop := v = _allow ∨ refusal v.
Definition answers (m : result RiskVerdict) : Prop := ∀ v, m = Ok v → settled v.

Lemma refusal_denied v : refusal v → denied v = true.
Proof. by intros []. Qed.

Lemma settled_denied v : settled v → denied v = true → refusal v.
Proof. intros [->|Hv]; [done|]. by intros _. Qed.

Lemma settled_allowed v : settled v → denied v = false → v = _allow.
Proof. intros [->|[]]; done. Qed.

(** ** One rule per control structure *)

Lemma objects_None : objects None.
Proof. by intros v [=]. Qed.

Lemma objects_deny reason : reason ≠ ALLOWED → objects (Some (_deny reason)).
Proof. intros Hr v [= <-]. by constructor. Qed.

Lemma objects_if b reason : reason ≠ ALLOWED → objects (object_if b reason).
Proof. intros Hr v. unfold object_if. destruct b; [|done]. intros [= <-]. by constructor. Qed.

Lemma objects_refusal v : refusal v → objects (Some v).
Proof. by intros Hv w [= <-]. Qed.

Lemma objects_fmap (o : option RiskReasonCode) : o ≠ Some ALLOWED → objects (_deny <$> o).
Proof. intros Ho v. destruct o as [r|]; [|done]. intros [= <-]. constructor. congruence. Qed.

Lemma objects_first l : Forall objects l → objects (_first l).
Proof.
  induction 1 as [|o l Ho _ IH]; cbn; [apply objects_None|]. destruct o as [v|]; [|done]. exact Ho.
Qed.

Lemma checks_Ok o : objects o → checks (Ok o).
Proof. intros Ho v [= ->]. by apply Ho. Qed.

Lemma checks_Raise e : checks (Raise e).
Proof. by intros v [=]. Qed.

Lemma checks_bind {A} (m : result A) f : (∀ a, checks (f a)) → checks (m ≫= f).
Proof. intros Hf v (a & _ & Ha)%bind_Ok. by apply (Hf a). Qed.

Lemma checks_bind_on {A} (P : A → Prop) (m : result A) f :
  (∀ a, m = Ok a → P a) → (∀ a, P a → checks (f a)) → checks (m ≫= f).
Proof. intros Hm Hf v (a & Ha & Hv)%bind_Ok. eapply Hf; [by apply Hm|done]. Qed.

Lemma checks_objection a b : checks a → checks b → checks (objection a b).
Proof.
  intros Ha Hb v. unfold objection. intros (o & Ho & Hv)%bind_Ok. destruct o as [w|]; [|by apply Hb].
  injection Hv as ->. by apply Ha.
Qed.

Lemma checks_first {A} (check : A → result (option RiskVerdict)) l : (∀ x, checks (check x)) → checks (first_objection check l).
Proof. intros H. induction l as [|x l IH]; cbn; [apply checks_Ok, objects_None|]. by apply checks_objection. Qed.

Lemma answers_allow : answers (Ok _allow).
Proof. intros v [= <-]. by left. Qed.

Lemma answers_Ok v : settled v → answers (Ok v).
Proof. by intros Hv w [= <-]. Qed.

Lemma answers_Raise e : answers (Raise e).
Proof. by intros v [=]. Qed.

Lemma answers_bind {A} (m : result A) f : (∀ a, answers (f a)) → answers (m ≫= f).
Proof. intros Hf v (a & _ & Ha)%bind_Ok. by apply (Hf a). Qed.

(** An objection is returned, otherwise the code goes on. *)
Lemma answers_objection (m : result (option RiskVerdict)) f :
  checks m → answers (f None) → (∀ v, f (Some v) = Ok v) → answers (m ≫= f).
Proof.
  intros Hm Hn Hs v (o & Ho & Hv)%bind_Ok. destruct o as [w|]; [|by apply Hn].
  rewrite Hs in Hv. injection Hv as ->. right. by apply Hm.
Qed.

Lemma answers_verdict (m : result RiskVerdict) f :
  answers m → (∀ v, settled v → answers (f v)) → answers (m ≫= f).
Proof. intros Hm Hf v (w & Hw & Hv)%bind_Ok. eapply Hf; [by apply Hm|done]. Qed.

Lemma settled_deny reason : reason ≠ ALLOWED → settled (_deny reason).
Proof. right. by constructor. Qed.

Lemma settled_allow : settled _allow.
Proof. by left. Qed.

Lemma settled_default o : objects o → settled (default _allow o).
Proof. intros Ho. destruct o; [right; by apply Ho|by left]. Qed.

Lemma answers_first_of l : Forall checks l → answers (first_of l).
Proof.
  induction 1 as [|m l Hm _ IH]; cbn; [apply answers_allow|]. by apply answers_objection.
Qed.

Create HintDb gate.
#[export] Hint Resolve objects_None objects_refusal checks_Raise answers_allow answers_Raise settled_allow : gate.
#[export] Hint Extern 1 (_ ≠ ALLOWED) => discriminate : gate.
#[export] Hint Extern 2 (objects (Some (_deny _))) => apply objects_deny : gate.
#[export] Hint Extern 2 (objects (object_if _ _)) => apply objects_if : gate.
#[export] Hint Extern 2 (settled (_deny _)) => apply settled_deny : gate.

(** Follow the control structure of a check down to its leaves. *)
Ltac gate_step :=
  first
  [ solve [eauto 3 with gate]
  | progress intros
  | match goal with
    | |- objects (match ?x with _ => _ end) => destruct x eqn:?
    | |- checks (match ?x with _ => _ end) => destruct x eqn:?
    | |- answers (match ?x with _ => _ end) => destruct x eqn:?
    | |- settled (match ?x with _ => _ end) => destruct x eqn:?
    | |- checks (objection _ _) => apply checks_objection
    | |- checks (mbind _ _) => apply checks_bind
    | |- checks (Ok _) => apply checks_Ok
    | |- answers (Ok _) => apply answers_Ok
    | |- objects (_first _) => apply objects_first; repeat constructor
    | |- settled (default _allow _) => apply settled_default
    end ].
Ltac gate := cbn zeta; repeat gate_step.

Section Verdicts.
Context {dc : DecimalContext} {so : SetOrder} {dg : Digest}.

(** ** The checks *)

Lemma allowlist_settled p id : settled (_allowlist_verdict p id).
Proof. unfold _allowlist_verdict. gate. Qed.

Lemma allocation_settled p s m pm f d : settled (_allocation_membership p s m pm f d).
Proof. unfold _allocation_membership. gate. Qed.
#[local] Hint Resolve allowlist_settled allocation_settled : gate.

Lemma membership_settled p m e occ pm : settled (_entry_membership p m e occ pm).
Proof. unfold _entry_membership. gate. Qed.

Lemma desk_checks p e m : checks (_desk_reservation_verdict p e m).
Proof. unfold _desk_reservation_verdict. gate. Qed.
#[local] Hint Resolve membership_settled desk_checks : gate.

Lemma exposure_answers p m e occ cash : answers (_exposure_verdict p m e occ cash).
Proof.
  unfold _exposure_verdict. cbn zeta. do 3 (case_match; [by apply answers_Ok, settled_deny|]).
  apply answers_objection; [apply desk_checks| |done]. gate.
Qed.

Lemma quantity_objects p e : objects (_quantity_bound p e).
Proof. unfold _quantity_bound. gate. Qed.
Lemma notional_objects p e : objects (_notional_bound p e).
Proof. unfold _notional_bound. gate. Qed.
Lemma reserve_objects p m e occ cash : objects (_reserve_bound p m e occ cash).
Proof. unfold _reserve_bound. gate. Qed.

Lemma order_bound_checks p m e occ cash : checks (_order_bound_verdict p m e occ cash).
Proof.
  unfold _order_bound_verdict. pose proof (quantity_objects p e) as Hq. pose proof (notional_objects p e) as Hn.
  destruct (_quantity_bound p e); [by apply checks_Ok|]. cbn zeta. apply checks_objection; [gate|].
  destruct (_notional_bound p e); apply checks_Ok; [done|apply reserve_objects].
Qed.

Lemma cluster_objects p m e l t : objects (cluster_verdict p m e l t).
Proof. unfold cluster_verdict. gate. Qed.

Lemma portfolio_answers b e l : answers (evaluate_portfolio_entry b e l).
Proof.
  unfold evaluate_portfolio_entry. cbn zeta.
  repeat (case_match; [by first [apply answers_Ok, settled_deny|apply answers_bind; intros; apply answers_Ok, settled_deny]|]).
  apply answers_allow.
Qed.
#[local] Hint Resolve exposure_answers order_bound_checks cluster_objects portfolio_answers : gate.

Lemma same_quote_objects l q : objects (_same_quote_books l q).2.
Proof.
  induction l as [|s l IH]; cbn; [gate|]. destruct (_snapshot_quote s); cbn; [|gate].
  destruct (_same_quote_books l q) as [sel [v|]]; cbn in *; [done|gate].
Qed.

Lemma same_quote_incomplete l q books v : _same_quote_books l q = (books, Some v) → refusal v.
Proof. intros H. apply (same_quote_objects l q). by rewrite H. Qed.
#[local] Hint Resolve same_quote_incomplete : gate.

Lemma quote_scoped_incomplete l id books v : quote_scoped_snapshots l id = (books, Some v) → refusal v.
Proof. unfold quote_scoped_snapshots. destruct (_product_quote id); [eauto with gate|]. intros [= _ <-]. by constructor. Qed.
#[local] Hint Resolve quote_scoped_incomplete : gate.

Lemma unresolved_objects m id l : objects (unresolved_accounting_verdict m id l).
Proof. unfold unresolved_accounting_verdict. gate. Qed.
Lemma daily_latch_objects l : objects (_daily_latch_verdict l).
Proof. unfold _daily_latch_verdict. gate. Qed.
Lemma drawdown_latch_objects l m q s id : objects (_drawdown_latch_verdict l m q s id).
Proof. unfold _drawdown_latch_verdict, _drawdown_books. gate. Qed.
Lemma daily_loss_checks p m l o c : checks (_daily_loss_verdict p m l o c).
Proof. unfold _daily_loss_verdict. gate. Qed.
Lemma one_drawdown_checks t o l : checks (_one_drawdown_verdict t o l).
Proof. unfold _one_drawdown_verdict. gate. Qed.
#[local] Hint Resolve unresolved_objects daily_latch_objects drawdown_latch_objects daily_loss_checks one_drawdown_checks : gate.

Lemma drawdown_checks p l m q s id o : checks (_drawdown_verdict p l m q s id o).
Proof.
  unfold _drawdown_verdict, _drawdown_books. destruct (_same_quote_books _ _) as [books [v|]] eqn:E; [gate|].
  apply checks_first. gate.
Qed.

Lemma select_objects a b : objects a → objects b → objects (_select_loss_verdict a b).
Proof. intros Ha Hb. unfold _select_loss_verdict. destruct a as [v|]; [|done]. by case_match. Qed.

Lemma breakers_checks p m id s l o c : checks (evaluate_circuit_breakers p m id s l o c).
Proof.
  unfold evaluate_circuit_breakers. destruct (_product_quote id); [|gate].
  destruct (_same_quote_books _ _) as [books [v|]] eqn:E; [gate|].
  pose proof (daily_latch_objects books) as Hl. destruct (_daily_latch_verdict books); [by apply checks_Ok|].
  pose proof (drawdown_latch_objects l m s0 s id) as Hd. destruct (_drawdown_latch_verdict _ _ _ _ _); [by apply checks_Ok|].
  apply (checks_bind_on objects); [intros d Hd' v ->; by eapply daily_loss_checks|]. intros d Hdl.
  apply (checks_bind_on objects); [intros w Hw v ->; by eapply drawdown_checks|]. intros w Hdw.
  by apply checks_Ok, select_objects.
Qed.

Lemma rate_objects p l t : objects (_rate_verdict p l t).
Proof. unfold _rate_verdict. gate. Qed.
Lemma collar_checks p o : checks (_collar_verdict p o).
Proof. unfold _collar_verdict. gate. Qed.
#[local] Hint Resolve breakers_checks rate_objects collar_checks : gate.
Lemma rate_and_collar_checks p m l o : checks (evaluate_rate_and_collar p m l o).
Proof. unfold evaluate_rate_and_collar. gate. Qed.

Lemma beta_checks p m e occ cash ev t l legs marks : checks (beta_verdict p m e occ cash ev t l legs marks).
Proof. unfold beta_verdict. gate. Qed.
Lemma futures_beta_checks p m e u l legs ev c t : checks (futures_beta_verdict p m e u l legs ev c t).
Proof. unfold futures_beta_verdict. gate. Qed.
#[local] Hint Resolve rate_and_collar_checks beta_checks futures_beta_checks : gate.

(** ** The futures checks *)

Lemma opt_in_objects p id : objects (live_futures_opt_in_verdict p id).
Proof. unfold live_futures_opt_in_verdict. gate. Qed.
Lemma occupied_objects id l own : objects (_occupied_verdict id l own).
Proof. unfold _occupied_verdict. gate. Qed.
Lemma binding_objects id c : objects (_binding_product_verdict id c).
Proof. unfold _binding_product_verdict. gate. Qed.
Lemma kind_objects c : objects (_contract_kind_verdict c).
Proof. unfold _contract_kind_verdict. gate. Qed.
Lemma evidence_objects v t : objects (_evidence_verdict v t).
Proof. unfold _evidence_verdict. gate. Qed.
Lemma external_objects id v d : objects (_external_verdict id v d).
Proof. unfold _external_verdict. gate. Qed.
Lemma drift_objects id s v : objects (_drift_verdict id s v).
Proof. unfold _drift_verdict. gate. Qed.
Lemma venue_state_objects id v t : objects (_venue_state_verdict id v t).
Proof. unfold _venue_state_verdict. gate. Qed.
Lemma envelope_objects p l s : objects (_envelope_verdict p l s).
Proof. unfold _envelope_verdict. gate. Qed.
Lemma contracts_objects p e b s : objects (_contracts_verdict p e b s).
Proof. unfold _contracts_verdict. gate. Qed.
Lemma capacity_objects p v i : objects (_margin_capacity_verdict p v i).
Proof. unfold _margin_capacity_verdict. gate. Qed.
Lemma unpriced_objects p v : objects (_unpriced_capacity_verdict p v).
Proof. unfold _unpriced_capacity_verdict. gate. Qed.
#[local] Hint Resolve opt_in_objects occupied_objects binding_objects kind_objects evidence_objects external_objects
  drift_objects venue_state_objects envelope_objects contracts_objects capacity_objects unpriced_objects : gate.

Lemma external_entry_objects id b s v : objects (_external_entry_verdict id b s v).
Proof. unfold _external_entry_verdict. gate. Qed.
#[local] Hint Resolve external_entry_objects : gate.

Lemma start_venue_objects p id s : objects (_start_venue_verdict p id s).
Proof.
  unfold _start_venue_verdict. pose proof (evidence_objects (s ≫= LiveFuturesStart.venue) (LiveFuturesStart.as_of <$> s)) as He.
  destruct (_evidence_verdict _ _); [done|]. gate.
Qed.
#[local] Hint Resolve start_venue_objects : gate.

Lemma live_start_objects p l ds s : objects (live_futures_deployment_verdict p l ds s).
Proof. unfold live_futures_deployment_verdict. gate. Qed.

Lemma standing_objects p e b bd l v t : Forall objects (_standing_checks p e b bd l v t).
Proof. unfold _standing_checks. repeat constructor; gate. Qed.

Lemma live_entry_objects p e b s l v t : objects (live_futures_entry_verdict p e b s l v t).
Proof.
  unfold live_futures_entry_verdict. repeat (case_match; [|by apply objects_deny]).
  repeat (case_match; try by apply objects_deny). apply objects_first, Forall_app. split; [apply standing_objects|].
  repeat constructor. gate.
Qed.
#[local] Hint Resolve live_start_objects live_entry_objects : gate.

Lemma collateral_objects p m e ev cash : objects (collateral_verdict p m e ev cash).1.
Proof.
  unfold collateral_verdict, _reserve_verdict. repeat (case_match; cbn; try solve [gate]).
Qed.

Lemma linked_objects m id l : objects (linked_breaker_verdict m id l).
Proof. unfold linked_breaker_verdict. gate. Qed.

Lemma futures_start_settled p m c cash ds s : settled (futures_deployment_verdict p m c cash ds s).
Proof. unfold futures_deployment_verdict. gate. Qed.

Lemma caps_checks p m st n q l c : checks (futures_caps_verdict p m st n q l c).
Proof. unfold futures_caps_verdict, _funding_rate_verdict. gate. Qed.

Lemma entry_block_refuses st : entry_block st ≠ Some ALLOWED.
Proof. unfold entry_block. by repeat case_match. Qed.

Lemma known_objects sc b : objects (_known_book_verdict sc b).
Proof.
  unfold _known_book_verdict. destruct (book_state sc b); [apply objects_fmap, entry_block_refuses|gate].
Qed.

Lemma margin_checks sc e b o : checks (_margin_verdict sc e b o).
Proof. unfold _margin_verdict. gate. Qed.

Lemma scope_breaker_checks p m e l o c : checks (_scope_breaker_verdict p m e l o c).
Proof. unfold _scope_breaker_verdict. gate. Qed.

Lemma policy_caps_checks sc p m e l c : checks (_policy_caps_verdict sc p m e l c).
Proof. unfold _policy_caps_verdict. pose proof caps_checks. gate. Qed.

Lemma live_gate_objects sc p m e b l v t : objects (_live_gate_verdict sc p m e b l v t).
Proof. unfold _live_gate_verdict. gate. Qed.

Lemma membership_objects p m e l : objects (_membership_verdict p m e l).
Proof.
  unfold _membership_verdict. destruct (denied _) eqn:E; [|gate].
  apply objects_refusal, settled_denied; [gate|done].
Qed.

Lemma futures_entry_answers sc p m e l o ev legs v : answers (evaluate_futures_entry sc p m e l o ev legs v).
Proof.
  unfold evaluate_futures_entry. cbn zeta.
  assert (objects (if decide (m = DeploymentMode.LIVE) then live_futures_opt_in_verdict p (entry_product_id e) else None)) as Ho
    by (case_match; gate).
  destruct (if decide _ then _ else _); [apply answers_Ok; right; by apply Ho|]. case_match; [by apply answers_Ok, settled_deny|].
  apply answers_first_of. repeat constructor; first [apply checks_Ok|idtac].
  - apply known_objects.
  - apply live_gate_objects.
  - apply membership_objects.
  - apply linked_objects.
  - apply margin_checks.
  - apply policy_caps_checks.
  - apply futures_beta_checks.
  - apply scope_breaker_checks.
Qed.

(** ** The gate *)

Lemma portfolio_checks b e q r l : checks (_portfolio_verdict b e q r l).
Proof.
  unfold _portfolio_verdict. destruct b as [b|]; [|gate]. cbn zeta. case_match; [gate|].
  apply (checks_bind_on settled); [apply portfolio_answers|]. intros v Hv. apply checks_Ok.
  destruct (denied v) eqn:E; [by apply objects_refusal, settled_denied|gate].
Qed.

Lemma entry_breaker_answers p m e r l s cash o : answers (_entry_breaker_verdict p m e r l s cash o).
Proof.
  unfold _entry_breaker_verdict, _clustered_or_allow. destruct o as [o|]; [|gate]. cbn zeta.
  apply answers_objection; [gate| |done]. case_match; [gate|]. apply answers_objection; [gate| |done]. gate.
Qed.

Lemma spot_checks_answers p m e l r books q cash o pf ev fc legs :
  answers (spot_checks p m e l r books q cash o pf ev fc legs).
Proof.
  unfold spot_checks. cbn zeta. case_match; [apply answers_Ok; gate|].
  apply answers_objection; [apply portfolio_checks| |done].
  pose proof (collateral_objects p m e fc cash) as Hc. destruct (collateral_verdict _ _ _ _ _) as [[v|] cash']; cbn in Hc.
  { apply answers_Ok. right. by apply Hc. }
  apply answers_objection; [case_match; gate| |done]. apply answers_verdict; [gate|]. intros v Hv.
  destruct (denied v); [by apply answers_Ok|]. apply answers_objection; [gate| |done].
  pose proof (unresolved_objects m (entry_product_id e) l) as Hu. destruct (unresolved_accounting_verdict _ _ _).
  { apply answers_Ok. right. by apply Hu. }
  apply entry_breaker_answers.
Qed.

Lemma evaluate_new_entry_answers sc p m e l cash o pf ev fc legs v :
  answers (evaluate_new_entry sc p m e l cash o pf ev fc legs v).
Proof.
  unfold evaluate_new_entry. assert (∀ w, (_scope_verdict sc p m e l o ev legs v) = Ok (Some w) → settled w) as Hs.
  { unfold _scope_verdict. destruct (is_futures_product_id (entry_product_id e)).
    - intros w (a & Ha & [= <-])%bind_Ok. by eapply futures_entry_answers.
    - intros w [= Hw]. right. by eapply linked_objects. }
  intros w (scoped & Hscoped & Hw)%bind_Ok. destruct scoped as [s|]; [injection Hw as <-; by apply Hs|].
  destruct (quote_scoped_snapshots _ _) as [books [i|]] eqn:Eq.
  - destruct (_product_quote _); injection Hw as <-; right; by eapply quote_scoped_incomplete.
  - destruct (_product_quote _); [by eapply spot_checks_answers|]. injection Hw as <-. apply settled_deny. discriminate.
Qed.

Lemma one_quote_answers p l s c id : answers (_paper_deploy_capital p l s c id).
Proof.
  unfold _paper_deploy_capital. apply answers_bind. intros single. gate.
Qed.

Lemma allowlist_denial_objects p l : objects (allowlist_denial p l).
Proof.
  induction l as [|id l IH]; cbn; [gate|]. destruct (denied _) eqn:E; [|done].
  apply objects_refusal, settled_denied; [apply allowlist_settled|done].
Qed.

Lemma evaluate_new_deployment_answers p m id s c ds ids src sl lf d :
  answers (evaluate_new_deployment p m id s c ds ids src sl lf d).
Proof.
  unfold evaluate_new_deployment. case_match; [gate|]. cbn zeta.
  set (covered := match ids with [] => _ | _ => _ end). pose proof (allowlist_denial_objects p covered) as Ha.
  destruct (allowlist_denial p covered); [apply answers_Ok; right; by apply Ha|].
  destruct (denied _); [apply answers_Ok, allocation_settled|].
  destruct (max_concurrent_running_deployments p <=? _)%Z; [gate|].
  destruct (existsb _ covered); [apply answers_Ok, futures_start_settled|]. destruct m; [apply one_quote_answers|gate].
Qed.

Lemma runtime_answers p m s l cash o : answers (evaluate_runtime_breakers p m s l cash o).
Proof.
  unfold evaluate_runtime_breakers. cbn zeta. destruct (quote_scoped_snapshots _ _) as [books [i|]] eqn:E.
  - apply answers_Ok. right. by eapply quote_scoped_incomplete.
  - intros v (o' & Ho & [= <-])%bind_Ok. apply settled_default. intros w ->. by eapply breakers_checks.
Qed.

(** Every verdict the gate returns, for an entry, a deployment or a running book, is the one
    allowance, which carries [ALLOWED], or a denial whose reason is not [ALLOWED]. *)
Lemma gate_verdicts_well_formed v :
  (∃ sc p m e l cash o pf ev fc legs ve, evaluate_new_entry sc p m e l cash o pf ev fc legs ve = Ok v) ∨
  (∃ p m id s c ds ids src sl lf d, evaluate_new_deployment p m id s c ds ids src sl lf d = Ok v) ∨
  (∃ p m s l cash o, evaluate_runtime_breakers p m s l cash o = Ok v) →
  (decision v = ALLOW ∧ reason_code v = ALLOWED) ∨ (decision v = DENY ∧ reason_code v ≠ ALLOWED).
Proof.
  assert (settled v → (decision v = ALLOW ∧ reason_code v = ALLOWED) ∨ (decision v = DENY ∧ reason_code v ≠ ALLOWED)) as Hs.
  { intros [->|[reason Hr]]; [by left|right]. done. }
  intros H. apply Hs. destruct H as [H|[H|H]]; decompose [ex] H; clear H.
  - by eapply evaluate_new_entry_answers.
  - by eapply evaluate_new_deployment_answers.
  - by eapply runtime_answers.
Qed.

End Verdicts.
