(* ===== verification/GateFacts.v ===== *)
(** * GateFacts: what an allowed entry satisfies

    A spot entry, a live futures entry, and a fleet that grew by admitted starts. *)

From S2P Require Import Prelude Decimals DecimalFacts Market Geometry Sizing Containers TradingModels FillLedger.
From S2P Require Import RiskModels EntryLimits Breakers BetaExposure FuturesBooks FuturesGate Gate.
From S2P Require Import Verdicts.

Open Scope Z_scope.

(** * What an admitted entry satisfies

    [AdmittedSpotEntry] lists what an allowance of a spot entry establishes, one field per
    check of the gate; a latched daily loss admits nothing in its collateral group. *)

Import RiskPolicyDefinition (product_allowlist, max_concurrent_open_positions, per_product_max_exposure_fraction,
  allow_intra_strategy_pyramiding, max_entry_orders_per_minute, max_cancellations_per_minute,
  reference_price_collar_fraction, max_fleet_entries_per_window, fleet_entry_window_minutes).

Section GateFacts.
Context {dc : DecimalContext} {so : SetOrder} {dg : Digest}.

(** A refused check cannot end in the allowance. *)
Lemma refusal_not_allow v : refusal v → v ≠ _allow.
Proof. by intros [r Hr] [=]. Qed.

Lemma objection_allow (m : result (option RiskVerdict)) f :
  checks m → (∀ v, f (Some v) = Ok v) → (m ≫= f) = Ok _allow → m = Ok None ∧ f None = Ok _allow.
Proof.
  intros Hm Hf (o & -> & Ho)%bind_Ok. destruct o as [v|]; [|done]. rewrite Hf in Ho. injection Ho as ->.
  by destruct (refusal_not_allow _allow (Hm _ eq_refl)).
Qed.

(** ** What each check establishes *)

Lemma allowlist_allows p id : is_futures_product_id id = false → denied (_allowlist_verdict p id) = false →
  product_allowlist p = [] ∨ id ∈ product_allowlist p.
Proof.
  unfold _allowlist_verdict. intros ->. destruct (bool_decide _ || bool_decide _) eqn:E; [|done]. intros _.
  apply orb_true_iff in E as [E|E]; apply bool_decide_eq_true in E; auto.
Qed.

Record Member (p : RiskPolicyDefinition) (e : ProposedEntry) (running : list DeploymentSnapshot) : Prop := {
  member_listed : product_allowlist p = [] ∨ entry_product_id e ∈ product_allowlist p;
  member_add : is_pyramid_add e = true → allow_intra_strategy_pyramiding p = true;
  member_slot : is_pyramid_add e = false → sum_Z (open_position_slot_count <$> running) < max_concurrent_open_positions p
}.

Lemma membership_allows p m e running pm : is_futures_product_id (entry_product_id e) = false →
  denied (_entry_membership p m e running pm) = false → Member p e running.
Proof.
  intros Hf. unfold _entry_membership. cbn zeta. destruct (denied (_allowlist_verdict _ _)) eqn:Ea; [congruence|].
  destruct (denied (_allocation_membership _ _ _ _ _ _)) eqn:Eb; [congruence|].
  destruct (is_pyramid_add e) eqn:Ep; cbn [andb negb].
  - destruct (allow_intra_strategy_pyramiding p) eqn:Ey; cbn [negb]; [|done]. intros _.
    constructor; [by eapply allowlist_allows|done|congruence].
  - destruct (_ <=? _) eqn:Es; [done|]. intros _. apply Z.leb_gt in Es.
    constructor; [by eapply allowlist_allows|congruence|done].
Qed.

Record WithinExposure (p : RiskPolicyDefinition) (m : DeploymentMode) (e : ProposedEntry) (books : list DeploymentSnapshot)
    (cash : option decimal) : Prop := {
  within_capital : (0 < val (_capital_base p m cash books (in_kind_capital e)))%Q;
  within_total : (val (dsum (_marked_exposure <$> books) + entry_notional e)%dec
    <= val (portfolio_cap p m (_capital_base p m cash books (in_kind_capital e))))%Q;
  within_product : (val (dsum ((λ s, product_exposure s (entry_product_id e)) <$> books) + entry_notional e)%dec
    <= val (_capital_base p m cash books (in_kind_capital e) * per_product_max_exposure_fraction p)%dec)%Q;
  within_allocation reserved : _allocation_for p (entry_strategy_id e) = Some reserved →
    (val (dsum (_marked_exposure <$> of_strategy (entry_strategy_id e) books) + entry_notional e)%dec <= val reserved)%Q
}.

Lemma exposure_allows p m e books cash v :
  _exposure_verdict p m e books cash = Ok v → denied v = false → WithinExposure p m e books cash.
Proof.
  unfold _exposure_verdict. cbn zeta. set (capital := _capital_base _ _ _ _ _).
  destruct (capital <=? d0)%dec eqn:Ec; [intros [= <-]; done|].
  destruct (portfolio_cap p m capital <? _)%dec eqn:Et; [intros [= <-]; done|].
  destruct (capital * _ <? _)%dec eqn:Ep; [intros [= <-]; done|].
  intros (d & Hd & H)%bind_Ok Hv. dec_cmp. rewrite val_d0 in Ec. constructor; [done..|]. intros reserved Hr.
  destruct d as [d|].
  - injection H as ->. pose proof (refusal_denied _ (desk_checks _ _ _ _ Hd)). congruence.
  - rewrite Hr in H. destruct (reserved <? _)%dec eqn:Er; [by injection H as <-|]. by dec_cmp.
Qed.

(** ** Loss breakers *)

Definition drawdown_scope (e : ProposedEntry) (m : DeploymentMode) (l : list DeploymentSnapshot) : list DeploymentSnapshot :=
  List.filter (λ s, _matches_drawdown_scope s (entry_strategy_id e) (entry_product_id e)) (daily_loss_snapshots l m).

(** A book whose drawdown is known and below the limit. *)
Definition drawdown_within (limit : decimal) (o : EntryObservation) (s : DeploymentSnapshot) : Prop :=
  ∃ ledger eq fraction, Ledger.ledger_from_snapshot s (observed_marks o) None = Ok ledger ∧ Ledger.equity ledger = Some eq ∧
    Ledger.current_drawdown (DeploymentSnapshot.deployment s) eq = Ok (Some fraction) ∧ (val fraction < val limit)%Q.

Record LossesWithin (p : RiskPolicyDefinition) (m : DeploymentMode) (e : ProposedEntry) (l daily : list DeploymentSnapshot)
    (quote : string) (o : EntryObservation) (capital : decimal) : Prop := {
  loss_unlatched s : s ∈ daily → Deployment.daily_loss_latched (DeploymentSnapshot.deployment s) = false;
  loss_known : ∃ loss, _mode_daily_loss daily o = Ok (Some loss) ∧ (val loss < val (daily_loss_limit p m daily capital))%Q;
  scope_books : ∃ books, _same_quote_books (drawdown_scope e m l) quote = (books, None) ∧
    ∀ s, s ∈ books → Deployment.drawdown_latched (DeploymentSnapshot.deployment s) = false ∧
      drawdown_within (RiskPolicyDefinition.max_strategy_drawdown_fraction p) o s
}.

Lemma first_objection_None {A} (check : A → result (option RiskVerdict)) l x :
  first_objection check l = Ok None → x ∈ l → check x = Ok None.
Proof.
  induction l as [|y l IH]; cbn; [by intros _ ?%elem_of_nil|]. intros [Hy Hl]%objection_None [->|Hx]%elem_of_cons; auto.
Qed.

Lemma one_drawdown_None s o limit : _one_drawdown_verdict s o limit = Ok None → drawdown_within limit o s.
Proof.
  unfold _one_drawdown_verdict, _durable_drawdown_fraction. destruct (_open_inventory_missing_mark _ _); [done|].
  intros (ledger & Hl & H)%bind_Ok. destruct (Ledger.equity ledger) as [eq|] eqn:Ee; [|done].
  destruct (negb _); [done|]. apply bind_Ok in H as ([fraction|] & Hf & H); [|done].
  injection H as H. apply object_if_None, negb_false_iff in H. dec_cmp. by exists ledger, eq, fraction.
Qed.

Lemma breakers_allow p m e l o capital quote :
  _product_quote (entry_product_id e) = Some quote →
  evaluate_circuit_breakers p m (entry_product_id e) (entry_strategy_id e) l o capital = Ok None →
  ∃ daily, _same_quote_books (daily_loss_snapshots l m) quote = (daily, None) ∧ LossesWithin p m e l daily quote o capital.
Proof.
  unfold evaluate_circuit_breakers. intros ->. destruct (_same_quote_books _ _) as [daily [v|]] eqn:Ed; [done|].
  destruct (_daily_latch_verdict daily) eqn:El; [done|]. apply object_if_None in El.
  destruct (_drawdown_latch_verdict _ _ _ _ _) eqn:Ew; [done|].
  intros (d & Hd & (w & Hw & H)%bind_Ok)%bind_Ok. injection H as H.
  assert (d = None ∧ w = None) as [-> ->].
  { unfold _select_loss_verdict in H. destruct d as [d|]; [|done]. destruct (_ && _) eqn:E; [|done]. subst w.
    by apply andb_prop_iff in E as [_ E%bool_decide_eq_true]. }
  exists daily. split; [done|]. unfold _drawdown_latch_verdict, _drawdown_verdict, _drawdown_books in *.
  fold (drawdown_scope e m l) in *. destruct (_same_quote_books (drawdown_scope e m l) quote) as [books [v|]] eqn:Eb; [done|].
  apply object_if_None in Ew. constructor.
  - intros s Hs. by apply (existsb_false _ _ s El).
  - unfold _daily_loss_verdict in Hd. apply bind_Ok in Hd as ([loss|] & Hloss & Hd); [|done].
    destruct (capital <=? d0)%dec; [done|]. injection Hd as Hd. apply object_if_None, negb_false_iff in Hd. dec_cmp. by exists loss.
  - exists books. split; [done|]. intros s Hs. split; [by apply (existsb_false _ _ s Ew)|].
    apply one_drawdown_None.
    by apply (first_objection_None (λ target, _one_drawdown_verdict target o (RiskPolicyDefinition.max_strategy_drawdown_fraction p)) books).
Qed.

(** ** Rates, collar, clustering *)

Record Paced (p : RiskPolicyDefinition) (m : DeploymentMode) (l : list DeploymentSnapshot) (o : EntryObservation) : Prop := {
  paced_entries : (rate_counts (_occupied_mode l m) (as_of o - _RATE_WINDOW)).1.1 < max_entry_orders_per_minute p;
  paced_cancels : (rate_counts (_occupied_mode l m) (as_of o - _RATE_WINDOW)).1.2 < max_cancellations_per_minute p;
  paced_collar : ∃ reference, reference_price o = Some reference ∧ (0 < val reference)%Q ∧
    ∀ price, proposed_price o = Some price → (0 < val price)%Q ∧
      ∃ deviation, div (abs_ (price - reference)%dec) reference = Ok deviation ∧
        (val deviation <= val (reference_price_collar_fraction p))%Q
}.

Lemma rate_and_collar_allow p m l o : evaluate_rate_and_collar p m l o = Ok None → Paced p m l o.
Proof.
  unfold evaluate_rate_and_collar. intros [Hr Hc]%objection_None. injection Hr as Hr. unfold _rate_verdict in Hr.
  destruct (rate_counts _ _) as [[entries cancels] venue] eqn:E.
  destruct (max_entry_orders_per_minute p <=? entries) eqn:E1; [done|].
  destruct (max_cancellations_per_minute p <=? cancels) eqn:E2; [done|].
  constructor; try (rewrite E; cbn; by apply Z.leb_gt).
  unfold _collar_verdict in Hc. destruct (reference_price o) as [reference|]; [|done].
  destruct (reference <=? d0)%dec eqn:E3; [done|]. exists reference. dec_cmp. rewrite val_d0 in E3. split; [done|]. split; [done|].
  intros price Hp. rewrite Hp in Hc. destruct (price <=? d0)%dec eqn:E4; [done|]. dec_cmp. rewrite val_d0 in E4. split; [done|].
  apply bind_Ok in Hc as (deviation & Hd & H). injection H as H. apply object_if_None, negb_false_iff in H. dec_cmp.
  by exists deviation.
Qed.

Definition Unclustered (p : RiskPolicyDefinition) (m : DeploymentMode) (e : ProposedEntry) (l : list DeploymentSnapshot)
    (seen : option datetime) : Prop :=
  ∀ limit minutes, max_fleet_entries_per_window p = Some limit → fleet_entry_window_minutes p = Some minutes →
  in_kind e = false → readmits_working_entry e = false →
  ∃ t, seen = Some t ∧ Z.of_nat (size (_latest_entry_per_book_product l m (t - minutes * minute))) < limit.

Lemma cluster_allow p m e l seen : _clustered_or_allow p m e l seen = _allow → Unclustered p m e l seen.
Proof.
  unfold _clustered_or_allow. intros H limit minutes Hl Hm Hk Hr.
  assert (cluster_verdict p m e l seen = None) as Hc.
  { destruct (cluster_verdict p m e l seen) as [v|] eqn:E; [|done]. cbn in H. subst v.
    by destruct (refusal_not_allow _allow (cluster_objects _ _ _ _ _ _ E)). }
  unfold cluster_verdict in Hc. rewrite Hl, Hm, Hk, Hr in Hc. cbn in Hc. destruct seen as [t|]; [|done].
  apply object_if_None, Z.leb_gt in Hc. by exists t.
Qed.

(** ** The spot gate *)

Lemma unresolved_allows m id l quote daily : _product_quote id = Some quote →
  _same_quote_books (daily_loss_snapshots l m) quote = (daily, None) →
  unresolved_accounting_verdict m id l = None → ∀ s, s ∈ daily → evidence_complete s = true.
Proof.
  unfold unresolved_accounting_verdict. intros -> -> H%object_if_None s Hs.
  apply negb_false_iff. by apply (existsb_false _ _ s H).
Qed.

Lemma unresolved_books m id l quote : _product_quote id = Some quote →
  unresolved_accounting_verdict m id l = None → ∃ daily, _same_quote_books (daily_loss_snapshots l m) quote = (daily, None).
Proof. unfold unresolved_accounting_verdict. intros ->. destruct (_same_quote_books _ _) as [daily [v|]]; [done|]. by exists daily. Qed.

Lemma linked_allows m id l scope s : is_futures_product_id id = false → linked_breaker_verdict m id l = None →
  _scope id = Some scope → s ∈ daily_loss_snapshots l m → linked_latch scope s = false.
Proof.
  unfold linked_breaker_verdict. intros Hf. rewrite Hf, andb_false_r. cbn [andb]. intros H Hs Hin. rewrite Hs in H.
  apply object_if_None in H. by apply (existsb_false _ _ s H).
Qed.

(** C7: a spot entry that the gate allows is on the allowlist, takes a free position slot (or is a
    permitted add), and keeps total, per-product and allocated exposure within the policy's
    share of a positive capital base; no futures book that shares its collateral has latched a
    daily loss; every same-quote book of its mode has complete accounts;
    with an observation the day's loss and every matching drawdown are known, unlatched and
    below their limits, and, unless it only adopts coins already held, order rates and the
    price collar hold and the fleet's recent entries are below the clustering cap. *)
Theorem allowed_spot_entry sc p m e l cash o pf ev fc legs ve v :
  is_futures_product_id (entry_product_id e) = false →
  evaluate_new_entry sc p m e l cash o pf ev fc legs ve = Ok v → decision v = ALLOW →
  ∃ quote books daily,
    _product_quote (entry_product_id e) = Some quote ∧
    _same_quote_books (risk_bearing_snapshots l m) quote = (books, None) ∧
    _same_quote_books (daily_loss_snapshots l m) quote = (daily, None) ∧
    (∀ scope s, _scope (entry_product_id e) = Some scope → s ∈ daily_loss_snapshots l m → linked_latch scope s = false) ∧
    Member p e (running_books l m) ∧
    WithinExposure p m e books (collateral_verdict p m e fc cash).2 ∧
    (∀ s, s ∈ daily → evidence_complete s = true) ∧
    (∀ ob, o = Some ob →
      LossesWithin p m e l daily quote ob (_capital_base p m (collateral_verdict p m e fc cash).2 books (in_kind_capital e)) ∧
      (in_kind e = false → Paced p m (risk_bearing_snapshots l m) ob)) ∧
    Unclustered p m e l (as_of <$> o).
Proof.
  intros Hf H Ha. pose proof (evaluate_new_entry_answers _ _ _ _ _ _ _ _ _ _ _ _ v H) as [->|Hr]; [|by inversion Hr; subst v]. clear Ha.
  unfold evaluate_new_entry, _scope_verdict in H. rewrite Hf in H.
  apply objection_allow in H as [Hlink H]; [|apply checks_Ok, linked_objects|done]. injection Hlink as Hlink.
  unfold quote_scoped_snapshots in H. destruct (_product_quote (entry_product_id e)) as [quote|] eqn:Eq; [|done].
  destruct (_same_quote_books (risk_bearing_snapshots l m) quote) as [books [i|]] eqn:Eb.
  { injection H as ->. by destruct (refusal_not_allow _allow (same_quote_incomplete _ _ _ _ Eb)). }
  unfold spot_checks in H. cbn zeta in H. destruct (denied (_entry_membership _ _ _ _ _)) eqn:Em; [injection H as H; by rewrite H in Em|].
  apply objection_allow in H as [_ H]; [|apply portfolio_checks|done].
  pose proof (collateral_objects p m e fc cash) as Hc. destruct (collateral_verdict p m e fc cash) as [[c|] cash'] eqn:Ec; cbn in Hc.
  { injection H as ->. by destruct (refusal_not_allow _allow (Hc _ eq_refl)). }
  apply objection_allow in H as [_ H]; [|destruct (in_kind e); [apply checks_Ok, objects_None|apply order_bound_checks]|done].
  apply bind_Ok in H as (x & Hx & H). destruct (denied x) eqn:Ex; [injection H as ->; done|].
  apply objection_allow in H as [_ H]; [|apply beta_checks|done].
  pose proof (unresolved_objects m (entry_product_id e) l) as Hu.
  destruct (unresolved_accounting_verdict m (entry_product_id e) l) as [u|] eqn:Eu.
  { injection H as ->. by destruct (refusal_not_allow _allow (Hu _ eq_refl)). }
  destruct (unresolved_books _ _ _ _ Eq Eu) as [daily Ed]. exists quote, books, daily.
  split; [done|]. split; [done|]. split; [done|]. split; [by intros; eapply linked_allows|]. split; [by eapply membership_allows|]. split; [by eapply exposure_allows|].
  split; [by eapply unresolved_allows|]. cbn [snd]. unfold _entry_breaker_verdict in H. destruct o as [ob|]; cbn [fmap option_fmap option_map].
  - cbn zeta in H. apply objection_allow in H as [Hbr H]; [|apply breakers_checks|done].
    destruct (breakers_allow _ _ _ _ _ _ _ Eq Hbr) as (daily' & Ed' & Hl). rewrite Ed in Ed'. injection Ed' as <-.
    destruct (in_kind e) eqn:Ek.
    + split; [|intros ? ? ? ?; congruence]. intros ? [= <-]. done.
    + apply objection_allow in H as [Hp H]; [|apply rate_and_collar_checks|done]. injection H as H.
      split; [|by apply cluster_allow]. intros ? [= <-]. split; [done|]. intros _. by apply rate_and_collar_allow.
  - injection H as H. split; [done|by apply cluster_allow].
Qed.

End GateFacts.

(** * An admitted live futures entry is exact

    The live gate computes in a context that traps rounding, so every figure it admits equals
    the exact one. The lemmas read the gate's checks back as facts about rationals. *)

Import RiskPolicyDefinition (futures).

(** ** Trapped operations *)

Lemma val_exact_sum a b : (val (exact_sum a b) == val a + val b)%Q.
Proof.
  unfold exact_sum. set (m := Z.min _ _). rewrite val_Dec, inject_Z_plus, Qmult_plus_distr_l.
  rewrite <- (val_align a m), <- (val_align b m) by lia. reflexivity.
Qed.

Lemma val_exact_product a b : (val (exact_product a b) == val a * val b)%Q.
Proof. unfold exact_product, val. cbn. rewrite inject_Z_mult, p10_add. ring. Qed.

Lemma val_magnitude d : (val (Dec (Z.abs (coef d)) (exponent d)) == Qabs.Qabs (val d))%Q.
Proof. destruct d as [c e]. cbn [coef exponent]. rewrite !val_Dec, Qabs.Qabs_Qmult, (Qabs.Qabs_pos (p10 _)) by (apply Qlt_le_weak, p10_pos). reflexivity. Qed.

Section Exact.
Context {dc : DecimalContext}.

Lemma trapped_val r e d : trapped r e = Ok d → (val d == val e)%Q.
Proof. unfold trapped. destruct (r =? e)%dec eqn:E; [|done]. intros [= <-]. by dec_cmp. Qed.

Lemma exact_add_val a b d : exact_add a b = Ok d → (val d == val a + val b)%Q.
Proof. intros H%trapped_val. by rewrite H, val_exact_sum. Qed.

Lemma exact_mul_val a b d : exact_mul a b = Ok d → (val d == val a * val b)%Q.
Proof. intros H%trapped_val. by rewrite H, val_exact_product. Qed.

Lemma exact_neg_val a d : exact_neg a = Ok d → (val d == - val a)%Q.
Proof. intros H%trapped_val. by rewrite H, val_opp. Qed.

Lemma exact_div_val a b q : exact_div a b = Ok q → (val q * val b == val a)%Q.
Proof.
  unfold exact_div. intros (c & _ & H)%bind_Ok. destruct (exact_product c b =? a)%dec eqn:E; [|done].
  injection H as <-. dec_cmp. by rewrite <- val_exact_product.
Qed.

Lemma exactly_Some {A} (m : result A) a : exactly m = Some a → m = Ok a.
Proof. destruct m; [|done]. by intros [= ->]. Qed.

Lemma is_whole_integer d : is_whole d = true → ∃ n, (val d == inject_Z n)%Q.
Proof.
  unfold is_whole, to_integral_value. destruct (0 <=? exponent d) eqn:E.
  - intros _. apply Z.leb_le in E. exists (coef d * 10 ^ exponent d). rewrite <- (val_of_Z (_ * _)). unfold of_Z.
    by rewrite val_shift, Z.add_0_l by done; destruct d.
  - unfold rescale. rewrite (proj2 (Z.leb_gt 0 (exponent d))) by (by apply Z.leb_gt).
    intros H%deqb_eq. eexists. rewrite H. apply val_of_Z.
Qed.

(** ** Held contracts *)

(** The signed base quantity of a product's positions, exactly. *)
Definition signed_quantity (p : Position) : Q :=
  match Position.side p with SHORT => - val (Position.quantity p) | LONG => val (Position.quantity p) end.
Definition base_held (book : DeploymentSnapshot) (product_id : string) : Q :=
  foldr (λ p total, signed_quantity p + total)%Q 0%Q (positions_of book product_id).

Lemma exact_signed_base_val book id d : exact_signed_base book id = Ok d → (val d == base_held book id)%Q.
Proof.
  unfold exact_signed_base, base_held. enough (∀ acc, foldM (λ total p,
    signed ← match Position.side p with SHORT => exact_neg (Position.quantity p) | LONG => Ok (Position.quantity p) end;
    exact_add total signed) acc (positions_of book id) = Ok d →
    (val d == val acc + foldr (λ p total, signed_quantity p + total)%Q 0%Q (positions_of book id))%Q) as Hf.
  { intros H. rewrite (Hf _ H), val_d0. ring. }
  induction (positions_of book id) as [|p l IH]; intros acc; cbn [foldM foldr].
  - intros [= ->]. ring.
  - intros (next & (signed & Hs & Ha)%bind_Ok & H)%bind_Ok. rewrite (IH _ H), (exact_add_val _ _ _ Ha).
    assert (val signed == signed_quantity p)%Q as ->; [|ring].
    unfold signed_quantity. destruct (Position.side p); [by injection Hs as ->|by apply exact_neg_val].
Qed.

(** ** The live checks, read back *)

Lemma first_None l : _first l = None → Forall (λ o, o = None) l.
Proof. induction l as [|[v|] l IH]; cbn; [constructor|done|]. intros H. constructor; auto. Qed.

Definition recent (observed now : datetime) : Prop := observed <= now <= observed + LIVE_EVIDENCE_MAX_AGE.

Lemma within_max_age_recent observed now : _within_max_age observed now = true → recent observed now.
Proof. unfold _within_max_age, recent. intros [?%Z.leb_le ?%Z.leb_le]%andb_prop_iff. lia. Qed.

Lemma evidence_allows venue seen : _evidence_verdict venue seen = None → ∃ v now, venue = Some v ∧ seen = Some now ∧
  recent (FuturesVenueEvidence.observed_at v) now ∧
  ∀ t, FuturesVenueEvidence.killswitch_observed_at v = Some t → recent t now.
Proof.
  unfold _evidence_verdict. destruct venue as [v|]; [|done]. destruct seen as [now|]; [|done].
  intros H%object_if_None. apply negb_false_iff in H. unfold is_admissible, is_fresh in H.
  apply andb_prop_iff in H as [Hf Hk]. exists v, now. split; [done|]. split; [done|].
  split; [by apply within_max_age_recent|]. intros t Ht. rewrite Ht in Hk. by apply within_max_age_recent.
Qed.

Lemma venue_allows id v now : _venue_state_verdict id (Some v) (Some now) = None →
  FuturesVenueEvidence.killswitch_enabled v = Some false ∧
  ∀ w, FuturesVenueEvidence.maintenance v !! id = Some w → window_ends_at w <= now.
Proof.
  cbn. destruct (FuturesVenueEvidence.killswitch_enabled v) as [[]|]; [done| |done]. intros H. split; [done|].
  intros w Hw. rewrite Hw in H. apply object_if_None in H. by apply Z.ltb_ge in H.
Qed.

Lemma drift_allows id size v : _drift_verdict id size (Some v) = None →
  ∃ catalog, FuturesVenueEvidence.contract_sizes v !! id = Some catalog ∧ (val catalog == val size)%Q.
Proof.
  unfold _drift_verdict. cbn [mbind option_bind]. destruct (_ !! _) as [catalog|]; [|done].
  intros H%object_if_None. apply negb_false_iff in H. dec_cmp. by exists catalog.
Qed.

Lemma occupied_allows id l own : _occupied_verdict id l (Some own) = None → ∀ d : Deployment, d ∈ l → Deployment.id d ≠ own →
  in_mode DeploymentMode.LIVE d = true → occupies_running_slot d = true → Deployment.product_id d ≠ id.
Proof.
  unfold _occupied_verdict. intros H%object_if_None d Hd Hown Hm Ho Hid. apply (existsb_false _ _ d H) in Hd.
  rewrite Hm, Ho, !andb_true_r in Hd. rewrite (bool_decide_eq_true_2 _ Hid), andb_true_r in Hd.
  apply negb_false_iff, bool_decide_eq_true in Hd. congruence.
Qed.

Lemma opt_in_allows p id : live_futures_opt_in_verdict p id = None → ∃ f capital, futures p = Some f ∧
  live_opted_in f = true ∧ FuturesRiskPolicy.live_capital_usd f = Some capital ∧ allowlists f id = true.
Proof.
  unfold live_futures_opt_in_verdict. destruct (futures p) as [f|]; [|done]. destruct (live_opted_in f) eqn:E; [|done].
  destruct (FuturesRiskPolicy.live_capital_usd f) as [c|] eqn:Ec; [|done]. intros H%object_if_None%negb_false_iff. by exists f, c.
Qed.

Lemma external_allows id b size v : _external_entry_verdict id b size (Some v) = None → ∃ held : Z,
  (base_held b id == inject_Z held * val size)%Q ∧
  (∃ positions, FuturesVenueEvidence.positions v = Some positions ∧ val (default d0 (positions !! id)) == inject_Z held)%Q ∧
  ∃ external, FuturesVenueEvidence.external_order_products v = Some external ∧ id ∉ external.
Proof.
  unfold _external_entry_verdict. destruct (exactly _) as [held|] eqn:E; [|done].
  apply exactly_Some, bind_Ok in E as (base & Hb & Hd). apply exact_div_val in Hd. apply exact_signed_base_val in Hb.
  destruct (is_whole held) eqn:Ew; cbn [negb]; [|done]. apply is_whole_integer in Ew as [n Hn].
  unfold _external_verdict. destruct (FuturesVenueEvidence.positions v) as [positions|]; [|done].
  destruct (FuturesVenueEvidence.external_order_products v) as [external|]; [|done].
  destruct (negb _) eqn:Ep; [done|]. apply negb_false_iff in Ep. intros H%object_if_None%bool_decide_eq_false. dec_cmp.
  exists n. split; [by rewrite <- Hb, <- Hd, Hn|]. split; [exists positions; split; [done|by rewrite Ep]|by exists external].
Qed.

Lemma contracts_allow p e b size : (0 < val size)%Q → _contracts_verdict p e b size = None → ∃ quantity (ordered held : Z),
  entry_quantity e = Some quantity ∧ 0 < ordered ∧ (val quantity == inject_Z ordered * val size)%Q ∧
  (Qabs.Qabs (base_held b (entry_product_id e)) == inject_Z held * val size)%Q ∧ held + ordered <= contract_cap p.
Proof.
  intros Hsize. unfold _contracts_verdict. destruct (entry_quantity e) as [quantity|]; [|done].
  destruct (quantity <=? d0)%dec; [done|]. destruct (exactly _) as [[[ordered held] total]|] eqn:E; [|done].
  apply exactly_Some in E. unfold contract_counts in E.
  apply bind_Ok in E as (o & Ho & (base & Hb & (magnitude & Hm & (h & Hh & (t & Ht & E)%bind_Ok)%bind_Ok)%bind_Ok)%bind_Ok).
  injection E as -> -> ->. apply exact_div_val in Ho, Hh. apply exact_signed_base_val in Hb. apply exact_add_val in Ht.
  apply trapped_val in Hm.
  intros [[[[Hpos Hwo]%orb_false_iff Hwh]%orb_false_iff Hco]%orb_false_iff Hct]%object_if_None%orb_false_iff.
  apply negb_false_iff, is_whole_integer in Hwo as [n Hn]. apply negb_false_iff, is_whole_integer in Hwh as [k Hk].
  dec_cmp. rewrite val_d0 in Hpos. rewrite val_of_Z in *.
  exists quantity, n, k. split; [done|]. split; [rewrite Hn in Hpos; change 0%Q with (inject_Z 0) in Hpos; by rewrite <- Zlt_Qlt in Hpos|].
  split; [by rewrite <- Ho, Hn|]. split; [by rewrite <- Hb, <- val_magnitude, <- Hm, <- Hh, Hk|].
  rewrite Ht, Hn, Hk, <- inject_Z_plus in Hct. by rewrite <- Zle_Qle in Hct.
Qed.

Lemma margin_allows p v initial : _margin_capacity_verdict p (Some v) (Some initial) = None →
  ∃ f reserve power current, futures p = Some f ∧ FuturesRiskPolicy.live_spot_collateral_reserve_quote f = Some reserve ∧
    FuturesVenueEvidence.buying_power_usd v = Some power ∧ FuturesVenueEvidence.initial_margin_usd v = Some current ∧
    (val initial <= val power)%Q ∧ ((val current + val initial) * val (FuturesRiskPolicy.peg_haircut f) <= val reserve)%Q.
Proof.
  unfold _margin_capacity_verdict. destruct (initial <=? d0)%dec; [done|].
  destruct (FuturesVenueEvidence.buying_power_usd v) as [power|]; [|done].
  destruct (FuturesVenueEvidence.initial_margin_usd v) as [current|]; [|done].
  destruct (power <? initial)%dec eqn:Ep; [done|]. destruct (covers_usd p); [|done].
  destruct (futures p) as [f|]; [|done].
  destruct (FuturesRiskPolicy.live_spot_collateral_reserve_quote f) as [reserve|] eqn:Er; [|done].
  destruct (exactly _) as [required|] eqn:E; [|done]. apply exactly_Some in E.
  intros [_ H]%object_if_None%orb_false_iff. apply bind_Ok in E as (projected & Ha%exact_add_val & Hm%exact_mul_val).
  dec_cmp. exists f, reserve, power, current. repeat split; try done. by rewrite <- Ha, <- Hm.
Qed.

(** ** The admission *)

(** What the live gate has established, in exact arithmetic, when it does not object. *)
Record LiveAdmission (p : RiskPolicyDefinition) (e : ProposedEntry) (b : DeploymentSnapshot) (side : PositionSide)
    (c : InstrumentContract) (margin : FuturesMarginTerms) (l : list DeploymentSnapshot) (v : FuturesVenueEvidence)
    (now : datetime) : Prop := {
  live_opt_in : ∃ f capital, futures p = Some f ∧ live_opted_in f = true ∧
    FuturesRiskPolicy.live_capital_usd f = Some capital ∧ allowlists f (entry_product_id e) = true;
  live_contract : InstrumentContract.kind c = perpetual_future ∧ InstrumentContract.product_id c = entry_product_id e;
  live_alone s : s ∈ l → Deployment.id (DeploymentSnapshot.deployment s) ≠ Deployment.id (DeploymentSnapshot.deployment b) →
    in_mode DeploymentMode.LIVE (DeploymentSnapshot.deployment s) = true →
    occupies_running_slot (DeploymentSnapshot.deployment s) = true →
    Deployment.product_id (DeploymentSnapshot.deployment s) ≠ entry_product_id e;
  live_recent : recent (FuturesVenueEvidence.observed_at v) now;
  live_open : FuturesVenueEvidence.killswitch_enabled v = Some false ∧
    ∀ w, FuturesVenueEvidence.maintenance v !! entry_product_id e = Some w → window_ends_at w <= now;
  live_contracts : ∃ quantity (ordered held : Z), entry_quantity e = Some quantity ∧ 0 < ordered ∧
    (val quantity == inject_Z ordered * val (InstrumentContract.contract_size c))%Q ∧
    (base_held b (entry_product_id e) == inject_Z held * val (InstrumentContract.contract_size c))%Q ∧
    Z.abs held + ordered <= contract_cap p ∧
    ∃ positions, FuturesVenueEvidence.positions v = Some positions ∧
      (val (default d0 (positions !! entry_product_id e)) == inject_Z held)%Q;
  live_margin : ∃ f reserve power current, futures p = Some f ∧
    FuturesRiskPolicy.live_spot_collateral_reserve_quote f = Some reserve ∧
    FuturesVenueEvidence.buying_power_usd v = Some power ∧ FuturesVenueEvidence.initial_margin_usd v = Some current ∧
    let initial := (val (entry_notional e) * val (initial_rate margin side))%Q in
    (0 < initial <= val power)%Q ∧ ((val current + initial) * val (FuturesRiskPolicy.peg_haircut f) <= val reserve)%Q
}.

(** The contracts of the two readings of the held base agree. *)
Lemma held_agree base size (n k : Z) : (0 < size)%Q → (base == inject_Z n * size)%Q →
  (Qabs.Qabs base == inject_Z k * size)%Q → k = Z.abs n.
Proof.
  intros Hs -> H. rewrite Qabs.Qabs_Qmult, (Qabs.Qabs_pos size) in H by (by apply Qlt_le_weak).
  apply Qmult_inj_r in H; [|intros E; rewrite E in Hs; by apply Qlt_irrefl in Hs].
  change (Qabs.Qabs (inject_Z n)) with (inject_Z (Z.abs n)) in H. unfold Qeq in H. cbn in H. lia.
Qed.

(** C29: when the live futures gate has no objection, the order is a whole number of contracts of a
    bound perpetual, the book holds exactly the whole contracts the venue reports, both together
    stay within the contract cap, the exact initial margin is positive and within buying power,
    and the reserve covers the margin already held and the new one; the venue evidence is recent
    and its killswitch off, the policy opts in, and no other live book runs on the product. *)
Theorem live_admission_is_exact p e b st l venue seen : live_futures_entry_verdict p e b st l venue seen = None →
  (∀ binding, FuturesBookState.binding st = Some binding → valid_contract (contract binding) = true) →
  ∃ binding margin v now, FuturesBookState.binding st = Some binding ∧ FuturesBookState.margin st = Some margin ∧
    venue = Some v ∧ seen = Some now ∧
    LiveAdmission p e b (default (FuturesBookState.side st) (entry_side e)) (contract binding) margin l v now.
Proof.
  unfold live_futures_entry_verdict. destruct (FuturesBookState.binding st) as [binding|]; [|done].
  destruct (FuturesBookState.margin st) as [margin|]; [|done]. intros H Hv. specialize (Hv _ eq_refl).
  cbn zeta in H. destruct (entry_notional e <=? d0)%dec; [done|].
  destruct (exactly _) as [initial|] eqn:Ei; [|done]. apply exactly_Some, exact_mul_val in Ei.
  destruct (initial <=? d0)%dec eqn:Epos; [done|]. apply first_None in H. unfold _standing_checks in H. cbn zeta in H.
  repeat setoid_rewrite Forall_cons in H.
  destruct H as (Hopt & Hkind & Hid & Halone & Hev & Hdrift & Hext & Hcon & Hven & Hmar & _).
  apply evidence_allows in Hev as (v & now & -> & -> & Hrecent & _). exists binding, margin, v, now.
  do 4 (split; [done|]). assert (0 < val (InstrumentContract.contract_size (contract binding)))%Q as Hsize.
  { unfold valid_contract in Hv. apply andb_prop_iff in Hv as [Hv _]. dec_cmp. by rewrite val_d0 in Hv. }
  constructor.
  - by apply opt_in_allows.
  - cbn in Hkind, Hid. apply object_if_None, negb_false_iff, bool_decide_eq_true in Hkind, Hid. done.
  - intros s Hs. apply (occupied_allows _ _ _ Halone). by apply list_elem_of_fmap_2.
  - done.
  - by apply venue_allows.
  - apply external_allows in Hext as (held & Hheld & Hpos & _).
    apply contracts_allow in Hcon as (quantity & ordered & k & Hq & Ho & Hqo & Hk & Hcap); [|done].
    rewrite (held_agree _ _ _ _ Hsize Hheld Hk) in Hcap. by exists quantity, ordered, held.
  - apply margin_allows in Hmar as (f & reserve & power & current & Hf & Hr & Hp & Hc & Hle & Hcov).
    exists f, reserve, power, current. do 4 (split; [done|]). dec_cmp. rewrite val_d0 in Epos. cbn zeta. by rewrite <- Ei.
Qed.

End Exact.

(** * A fleet admitted book by book stays within the policy

    [evaluate_new_deployment] judges one start against the deployments that run at that
    moment. A fleet grows by admitted starts; every other change of a deployment keeps its
    mode, product and capital and never makes a stopped book run. Whatever the order of the
    steps and of the listings, the slots and the capital envelopes of the policy hold. *)

Import RiskPolicyDefinition (futures, max_concurrent_running_deployments, paper_capital_quote).

(** ** Totals over a list *)

Fixpoint total {A} (w : A → Q) (l : list A) : Q := match l with [] => 0%Q | x :: l => (w x + total w l)%Q end.

Lemma total_app {A} (w : A → Q) l k : (total w (l ++ k) == total w l + total w k)%Q.
Proof. induction l as [|x l IH]; cbn; [ring|]. rewrite IH. ring. Qed.

Lemma total_perm {A} (w : A → Q) l k : l ≡ₚ k → (total w l == total w k)%Q.
Proof. induction 1 as [|x l k _ IH|x y l|l k m _ IH1 _ IH2]; cbn; [done|by rewrite IH|ring|by rewrite IH1]. Qed.

#[global] Instance total_proper {A} (w : A → Q) : Proper (Permutation ==> Qeq) (total w).
Proof. intros l k. apply total_perm. Qed.

Lemma total_nonneg {A} (w : A → Q) l : (∀ x, x ∈ l → 0 <= w x)%Q → (0 <= total w l)%Q.
Proof.
  induction l as [|x l IH]; intros H; cbn; [done|]. pose proof (H x ltac:(left)).
  assert (0 <= total w l)%Q by (apply IH; intros y Hy; apply H; by right). lra.
Qed.

Lemma total_filter {A} (w : A → Q) f l : (total w (List.filter f l) == total (λ x, if f x then w x else 0) l)%Q.
Proof. induction l as [|x l IH]; cbn; [done|]. destruct (f x); cbn; rewrite IH; ring. Qed.

Definition amount (o : option decimal) : Q := match o with Some d => val d | None => 0%Q end.

Lemma total_omap {A} (f : A → option decimal) l : (total val (omap f l) == total (λ x, amount (f x)) l)%Q.
Proof. induction l as [|x l IH]; cbn; [done|]. destruct (f x); cbn; rewrite IH; [done|ring]. Qed.

Lemma length_total {A} f (l : list A) : (inject_Z (Z.of_nat (length (List.filter f l))) == total (λ x, if f x then 1 else 0) l)%Q.
Proof.
  induction l as [|x l IH]; cbn; [done|]. destruct (f x); cbn [length]; [|rewrite IH; ring].
  rewrite Nat2Z.inj_succ, <- Z.add_1_l, inject_Z_plus, IH. done.
Qed.

(** ** Sums on a grid are exact *)

Section Sums.
Context {dc : DecimalContext}.

Definition coin (g : Z) (d : decimal) : Prop := on_grid g (val d) ∧ (0 <= val d)%Q.

Lemma add_on_grid g a b : on_grid g (val a) → on_grid g (val b) → (0 <= val a + val b <= p10 (prec - g))%Q →
  (val (a + b)%dec == val a + val b)%Q.
Proof.
  intros Ha Hb [Hn Hle]. pose proof prec_pos. apply (rounds_exact (p := prec)); [apply add_rounds|].
  apply (on_grid_representable _ g); [lia|by apply on_grid_plus|]. by rewrite Qabs.Qabs_pos.
Qed.

Lemma on_grid_eq g q r : (q == r)%Q → on_grid g q → on_grid g r.
Proof. intros Hq [n Hn]. exists n. by rewrite <- Hq. Qed.

Lemma dsum_on_grid g l : Forall (coin g) l → (total val l <= p10 (prec - g))%Q → (val (dsum l) == total val l)%Q.
Proof.
  unfold dsum. enough (∀ acc, coin g acc → Forall (coin g) l → (val acc + total val l <= p10 (prec - g))%Q →
    (val (fold_left add l acc) == val acc + total val l)%Q) as Hf.
  { intros Hl Hle. rewrite Hf; [rewrite val_d0; ring| |done|rewrite val_d0, Qplus_0_l; done].
    split; [|by rewrite val_d0]. exists 0. rewrite val_d0. ring. }
  induction l as [|x l IH]; intros acc [Hg Hn] Hl Hle; cbn [fold_left total]; [cbn; ring|].
  apply Forall_cons in Hl as [[Hxg Hxn] Hl]. cbn [total] in Hle.
  assert (0 <= total val l)%Q as Ht.
  { apply total_nonneg. intros y Hy. rewrite Forall_forall in Hl. by apply Hl. }
  pose proof (add_on_grid g acc x Hg Hxg ltac:(lra)) as He. rewrite IH; [rewrite He; ring| |done|rewrite He; lra].
  split; [|rewrite He; lra]. eapply on_grid_eq; [symmetry; exact He|by apply on_grid_plus].
Qed.

(** A capital check on an exact sum: when the rounded total does not exceed a capital below the
    precision, neither does the exact one. *)
Lemma envelope_exact g l cash capital : Forall (coin g) (cash :: l) → (total val l <= val capital)%Q →
  (val capital < p10 (prec - g))%Q → (capital <? dsum l + cash)%dec = false → (total val l + val cash <= val capital)%Q.
Proof.
  intros [[Hcg Hcn] Hl]%Forall_cons Ht Hc Hle. dec_cmp. pose proof prec_pos.
  assert (val (dsum l) == total val l)%Q as Hs by (apply (dsum_on_grid g); [done|lra]).
  assert (on_grid g (val (dsum l))) as Hg.
  { eapply on_grid_eq; [symmetry; exact Hs|]. clear -Hl. induction Hl as [|x l [Hx _] _ IH]; cbn; [exists 0; ring|by apply on_grid_plus]. }
  assert (0 <= total val l)%Q as Hn by (apply total_nonneg; intros y Hy; rewrite Forall_forall in Hl; by apply Hl).
  destruct (Qlt_le_dec (p10 (prec - g)) (total val l + val cash)) as [Hbig|Hsmall].
  - exfalso. assert (p10 (prec - g) <= val (dsum l + cash)%dec)%Q; [|lra].
    apply (rounds_ge (p := prec) _ (val (dsum l) + val cash)%Q); [apply add_rounds| |lra].
    exists 1, (prec - g). split; [|by rewrite Qmult_1_l]. assert (0 < 10 ^ prec) by (apply pow10_pos; lia). lia.
  - rewrite <- Hs in *. rewrite <- (add_on_grid g) by (done || lra). done.
Qed.

End Sums.

(** ** The fleet *)

Section Fleet.
Context {dc : DecimalContext} (p : RiskPolicyDefinition) (g : Z).

(** The books each limit counts and what each takes of it. *)
Definition runs (m : DeploymentMode) (d : Deployment) : bool := in_mode m d && occupies_running_slot d.
Definition trades_futures (d : Deployment) : bool := is_futures_product_id (Deployment.product_id d).

Definition slot (m : DeploymentMode) (d : Deployment) : Q := if runs m d then 1 else 0.
Definition spot_paper_cash (d : Deployment) : Q :=
  if runs DeploymentMode.PAPER d && negb (trades_futures d) then amount (Deployment.paper_starting_cash d) else 0.
Definition futures_paper_cash (d : Deployment) : Q :=
  if runs DeploymentMode.PAPER d && trades_futures d then amount (Deployment.paper_starting_cash d) else 0.
Definition futures_live_cash (d : Deployment) : Q :=
  if runs DeploymentMode.LIVE d && trades_futures d then amount (Deployment.allocated_capital d) else 0.

Definition envelope (field : FuturesRiskPolicy → option decimal) : Q := amount (futures p ≫= field).

(** The capital of a book: cash on the grid, an allocation that is not negative. *)
Definition funded (d : Deployment) : Prop :=
  (∀ c, Deployment.paper_starting_cash d = Some c → coin g c) ∧
  (∀ c, Deployment.allocated_capital d = Some c → 0 <= val c)%Q.

Record FleetWithin (fleet : list Deployment) : Prop := {
  fleet_funded : Forall funded fleet;
  fleet_slots m : (total (slot m) fleet <= inject_Z (max_concurrent_running_deployments p))%Q;
  fleet_spot_paper : (total spot_paper_cash fleet <= val (paper_capital_quote p))%Q;
  fleet_futures_paper : (total futures_paper_cash fleet <= envelope FuturesRiskPolicy.paper_capital_usd)%Q;
  fleet_futures_live : (total futures_live_cash fleet <= envelope FuturesRiskPolicy.live_capital_usd)%Q
}.

(** A start the gate allows, on whatever listing of the fleet; or another change of a book. *)
Inductive fleet_step : list Deployment → list Deployment → Prop :=
  | admit_start fleet listing (d : Deployment) strategy_id product_ids source sleeve start desk v :
      listing ≡ₚ fleet → funded d →
      Deployment.product_id d ∈ (match product_ids with [] => [Deployment.product_id d] | _ => product_ids end) →
      (start ≫= LiveFuturesStart.allocated_capital_usd) = Deployment.allocated_capital d →
      evaluate_new_deployment p (Deployment.mode d) (Deployment.product_id d) strategy_id (Deployment.paper_starting_cash d)
        listing product_ids source sleeve start desk = Ok v →
      decision v = ALLOW → fleet_step fleet (d :: fleet)
  | change_book before after (d d' : Deployment) :
      Deployment.mode d' = Deployment.mode d → Deployment.product_id d' = Deployment.product_id d →
      Deployment.paper_starting_cash d' = Deployment.paper_starting_cash d →
      Deployment.allocated_capital d' = Deployment.allocated_capital d →
      (occupies_running_slot d' = true → occupies_running_slot d = true) →
      fleet_step (before ++ d :: after) (before ++ d' :: after).

(** *** A change of one book takes no more of any limit *)

Lemma change_total (w : Deployment → Q) before after (d d' : Deployment) : (w d' <= w d)%Q →
  (total w (before ++ d' :: after) <= total w (before ++ d :: after))%Q.
Proof. intros Hw. rewrite !total_app. cbn [total]. lra. Qed.

Lemma amount_nonneg o : (∀ c, o = Some c → 0 <= val c)%Q → (0 <= amount o)%Q.
Proof. destruct o; cbn; [auto|done]. Qed.

Lemma guarded_le (a b : bool) (x : Q) : (0 <= x)%Q → (b = true → a = true) → ((if b then x else 0) <= (if a then x else 0))%Q.
Proof. destruct a, b; intros Hx H; (lra || by specialize (H eq_refl)). Qed.

Lemma change_within before after (d d' : Deployment) :
  Deployment.mode d' = Deployment.mode d → Deployment.product_id d' = Deployment.product_id d →
  Deployment.paper_starting_cash d' = Deployment.paper_starting_cash d →
  Deployment.allocated_capital d' = Deployment.allocated_capital d →
  (occupies_running_slot d' = true → occupies_running_slot d = true) →
  FleetWithin (before ++ d :: after) → FleetWithin (before ++ d' :: after).
Proof.
  intros Hm Hid Hc Ha Ho [Hf Hs Hsp Hfp Hfl].
  assert (funded d' ∧ funded d) as [Hd' Hd].
  { apply Forall_app in Hf as [_ [Hd _]%Forall_cons]. split; [|done]. unfold funded. by rewrite Hc, Ha. }
  assert (0 <= amount (Deployment.paper_starting_cash d))%Q as Hcash by (apply amount_nonneg; intros c Hx; by destruct (proj1 Hd c Hx)).
  assert (0 <= amount (Deployment.allocated_capital d))%Q as Hall by (apply amount_nonneg, (proj2 Hd)).
  assert (∀ m, runs m d' = true → runs m d = true) as Hruns.
  { unfold runs, in_mode. rewrite Hm. intros m [-> ?]%andb_prop_iff. by apply Ho. }
  constructor; [|intros m|..]; try (eapply Qle_trans; [apply change_total|eauto]).
  - apply Forall_app in Hf as [? [_ ?]%Forall_cons]. apply Forall_app. split; [done|by constructor].
  - apply guarded_le; [done|apply Hruns].
  - unfold spot_paper_cash, trades_futures. rewrite Hc, Hid. apply guarded_le; [done|].
    intros [?%Hruns ->]%andb_prop_iff. by rewrite andb_true_r.
  - unfold futures_paper_cash, trades_futures. rewrite Hc, Hid. apply guarded_le; [done|].
    intros [?%Hruns ->]%andb_prop_iff. by rewrite andb_true_r.
  - unfold futures_live_cash, trades_futures. rewrite Ha, Hid. apply guarded_le; [done|].
    intros [?%Hruns ->]%andb_prop_iff. by rewrite andb_true_r.
Qed.

(** *** An admitted start fits every limit *)

Lemma runs_slot m l : (inject_Z (Z.of_nat (length (_occupied l m))) == total (slot m) l)%Q.
Proof. apply length_total. Qed.

Lemma spot_committed l : (total val (omap (λ item : Deployment, Deployment.paper_starting_cash item)
    (List.filter (λ item : Deployment, negb (trades_futures item)) (_occupied l DeploymentMode.PAPER))) == total spot_paper_cash l)%Q.
Proof.
  rewrite total_omap, total_filter. unfold _occupied. rewrite total_filter. unfold spot_paper_cash. fold (runs DeploymentMode.PAPER).
  induction l as [|d l IH]; cbn [total]; [done|]. rewrite IH. unfold runs. destruct (in_mode _ _ && _), (negb _); reflexivity.
Qed.

Lemma futures_committed l : (total val (omap (λ item : Deployment,
    if in_mode DeploymentMode.PAPER item && occupies_running_slot item && is_futures_product_id (Deployment.product_id item)
    then Deployment.paper_starting_cash item else None) l) == total futures_paper_cash l)%Q.
Proof.
  rewrite total_omap. induction l as [|d l IH]; cbn [total]; [done|]. rewrite IH. unfold futures_paper_cash, runs, trades_futures.
  destruct (in_mode _ _ && _ && _); reflexivity.
Qed.

Lemma exact_total_val l d : exact_total l = Ok d → (val d == total val l)%Q.
Proof.
  unfold exact_total. enough (∀ acc, foldM exact_add acc l = Ok d → (val d == val acc + total val l)%Q) as Hf.
  { intros H. rewrite (Hf _ H), val_d0. ring. }
  induction l as [|x l IH]; intros acc; cbn [foldM total]; [intros [= ->]; ring|].
  intros (next & Hn%exact_add_val & H)%bind_Ok. rewrite (IH _ H), Hn. ring.
Qed.

Lemma live_committed l : (total val (omap id ((λ item : Deployment, Deployment.allocated_capital item) <$> live_futures_books l))
  == total futures_live_cash l)%Q.
Proof.
  rewrite total_omap. unfold live_futures_books.
  induction l as [|d l IH]; cbn [total List.filter fmap list_fmap]; [done|]. unfold futures_live_cash at 1, runs, trades_futures.
  destruct (in_mode _ _ && _ && _); cbn [fmap list_fmap total]; rewrite IH; [reflexivity|ring].
Qed.

Lemma coins_funded l f : Forall funded l → (∀ d : Deployment, f d = None ∨ f d = Deployment.paper_starting_cash d) →
  Forall (coin g) (omap f l).
Proof.
  intros Hl Hf. apply Forall_forall. intros c (d & Hd & Hc)%list_elem_of_omap. rewrite Forall_forall in Hl.
  destruct (Hf d) as [E|E]; rewrite E in Hc; [done|]. by apply (Hl d).
Qed.

Lemma futures_listed (id : string) l : existsb is_futures_product_id l = true → (length l =? 1)%nat = true → id ∈ l →
  is_futures_product_id id = true.
Proof.
  destruct l as [|x [|]]; cbn; [done| |done]. rewrite orb_false_r. by intros ? _ ->%list_elem_of_singleton.
Qed.

Lemma spot_listed (id : string) l : existsb is_futures_product_id l = false → id ∈ l → is_futures_product_id id = false.
Proof. apply existsb_false. Qed.

Lemma refusal_denies v : refusal v → decision v ≠ ALLOW.
Proof. by intros []. Qed.

Lemma paper_futures_admitted covered cash l start v :
  futures_deployment_verdict p DeploymentMode.PAPER covered cash l start = v → decision v = ALLOW →
  (length covered =? 1)%nat = true ∧ ∃ c e, cash = Some c ∧ (futures p ≫= FuturesRiskPolicy.paper_capital_usd) = Some e ∧
    (e <? paper_committed l DeploymentMode.PAPER + c)%dec = false.
Proof.
  cbn. destruct (length covered =? 1)%nat; [|by intros <-]. cbn [negb]. destruct (_ ≫= _) as [e|]; [|by intros <-]. destruct cash as [c|]; [|by intros <-].
  destruct (c <=? d0)%dec; [by intros <-|]. destruct (e <? _)%dec eqn:E; [by intros <-|]. intros _ _. split; [done|]. by exists c, e.
Qed.

Lemma live_futures_admitted covered cash l start v :
  futures_deployment_verdict p DeploymentMode.LIVE covered cash l start = v → decision v = ALLOW →
  (length covered =? 1)%nat = true ∧ ∃ c e t, (start ≫= LiveFuturesStart.allocated_capital_usd) = Some c ∧
    (futures p ≫= FuturesRiskPolicy.live_capital_usd) = Some e ∧
    (t ← exact_total (omap id ((λ item : Deployment, Deployment.allocated_capital item) <$> live_futures_books l)); exact_add t c) =
      Ok (t : decimal) ∧ (e <? t)%dec = false.
Proof.
  cbn. intros <- Ha. destruct (live_futures_deployment_verdict p covered l start) as [v|] eqn:E.
  { cbn in Ha. pose proof (live_start_objects _ _ _ _ _ E) as Hv. by destruct (refusal_denies v Hv). }
  unfold live_futures_deployment_verdict in E. destruct covered as [|id [|]]; [done| |done].
  apply first_None in E. repeat setoid_rewrite Forall_cons in E. destruct E as (Hopt & _ & Henv & _).
  apply opt_in_allows in Hopt as (f & capital & Hf & _ & Hc & _). unfold _envelope_verdict in Henv. rewrite Hf in Henv |- *.
  cbn [mbind option_bind] in Henv |- *. rewrite Hc in Henv |- *. destruct (start ≫= _) as [c|]; [|done].
  destruct (c <=? d0)%dec; [done|]. destruct (existsb _ _); [done|]. destruct (exactly _) as [t|] eqn:Et; [|done].
  apply object_if_None in Henv. apply exactly_Some in Et. split; [done|]. by exists c, capital, t.
Qed.

(** What the gate has checked when it allows a start. *)
Definition start_fits (m : DeploymentMode) (l : list Deployment) (futures_book : bool) (cash allocated : option decimal) : Prop :=
  match m, futures_book with
  | DeploymentMode.PAPER, true => ∃ c e, cash = Some c ∧ (futures p ≫= FuturesRiskPolicy.paper_capital_usd) = Some e ∧
      (e <? paper_committed l DeploymentMode.PAPER + c)%dec = false
  | DeploymentMode.PAPER, false => ∃ c, cash = Some c ∧ (paper_capital_quote p <? _paper_committed
      (List.filter (λ item : Deployment, negb (trades_futures item)) (_occupied l DeploymentMode.PAPER)) + c)%dec = false
  | DeploymentMode.LIVE, true => ∃ c e t, allocated = Some c ∧ (futures p ≫= FuturesRiskPolicy.live_capital_usd) = Some e ∧
      (t ← exact_total (omap id ((λ item : Deployment, Deployment.allocated_capital item) <$> live_futures_books l)); exact_add t c) =
        Ok (t : decimal) ∧ (e <? t)%dec = false
  | DeploymentMode.LIVE, false => True
  end.

Lemma spot_paper_admitted l strategy_id cash id v :
  _paper_deploy_capital p l strategy_id cash id = Ok v → decision v = ALLOW →
  ∃ c, cash = Some c ∧ (paper_capital_quote p <? _paper_committed l + c)%dec = false.
Proof.
  unfold _paper_deploy_capital. intros (single & _ & H)%bind_Ok Hv. destruct (negb single); [by injection H as <-|].
  destruct cash as [c|]; [|by injection H as <-]. destruct (c <=? d0)%dec; [by injection H as <-|].
  destruct (_ <? _)%dec eqn:E; [by injection H as <-|]. by exists c.
Qed.

Lemma start_admitted m id strategy_id cash l ids source sleeve start desk v :
  evaluate_new_deployment p m id strategy_id cash l ids source sleeve start desk = Ok v → decision v = ALLOW →
  id ∈ (match ids with [] => [id] | _ => ids end) →
  Z.of_nat (length (_occupied l m)) < max_concurrent_running_deployments p ∧
  start_fits m l (is_futures_product_id id) cash (start ≫= LiveFuturesStart.allocated_capital_usd).
Proof.
  unfold evaluate_new_deployment. destruct (_ && _); [by intros [= <-]|]. set (covered := match ids with [] => _ | _ => _ end).
  cbn zeta. intros H Hv Hid. destruct (allowlist_denial p covered) as [w|] eqn:Ew.
  { injection H as ->. by destruct (refusal_denies v (allowlist_denial_objects _ _ _ Ew)). }
  destruct (denied _) eqn:Ed; [injection H as H; unfold denied in Ed; rewrite H, Hv in Ed; done|].
  destruct (_ <=? _) eqn:Es; [by injection H as <-|]. apply Z.leb_gt in Es. split; [done|]. unfold start_fits.
  destruct (existsb _ covered) eqn:Ef.
  - injection H as H. destruct m.
    + destruct (paper_futures_admitted _ _ _ _ _ H Hv) as [Hone Hfit]. by rewrite (futures_listed _ _ Ef Hone Hid).
    + destruct (live_futures_admitted _ _ _ _ _ H Hv) as [Hone Hfit]. by rewrite (futures_listed _ _ Ef Hone Hid).
  - rewrite (spot_listed _ _ Ef Hid). destruct m; [|done]. by eapply spot_paper_admitted.
Qed.

(** The envelopes fit the precision on the grid of the starting cash. *)
Definition small_envelopes : Prop :=
  (val (paper_capital_quote p) < p10 (prec - g))%Q ∧ (envelope FuturesRiskPolicy.paper_capital_usd < p10 (prec - g))%Q.

(** A weight that counts nothing of a book, or an amount that was checked. *)
Lemma admit_total (w : Deployment → Q) d fleet listing cap : listing ≡ₚ fleet → (total w fleet <= cap)%Q →
  (w d == 0)%Q ∨ (total w listing + w d <= cap)%Q → (total w (d :: fleet) <= cap)%Q.
Proof. intros Hp Hle. rewrite Hp. cbn [total]. intros [H|H]; [rewrite H|]; lra. Qed.

Lemma guarded_cases (b : bool) (x y : Q) : y = (if b then x else 0%Q) → (y == 0)%Q ∨ b = true ∧ y = x.
Proof. intros ->. by destruct b; [right|left]. Qed.

Lemma admit_within fleet listing (d : Deployment) : listing ≡ₚ fleet → small_envelopes → funded d →
  Z.of_nat (length (_occupied listing (Deployment.mode d))) < max_concurrent_running_deployments p →
  start_fits (Deployment.mode d) listing (trades_futures d) (Deployment.paper_starting_cash d) (Deployment.allocated_capital d) →
  FleetWithin fleet → FleetWithin (d :: fleet).
Proof.
  intros Hp [Hsmall Hsmall'] Hd Hn Hfits [Hf Hs Hsp Hfp Hfl].
  assert (Forall funded listing) as Hl by by rewrite Hp.
  constructor; [by constructor|intros m|..]; apply (admit_total _ _ _ listing); try done.
  - destruct (guarded_cases _ _ _ (eq_refl (slot m d))) as [?|[Hb ->]]; [by left|right].
    apply andb_prop_iff in Hb as [<-%bool_decide_eq_true _].
    rewrite <- runs_slot. change 1%Q with (inject_Z 1). rewrite <- inject_Z_plus, <- Zle_Qle. lia.
  - destruct (guarded_cases _ _ _ (eq_refl (spot_paper_cash d))) as [?|[Hb ->]]; [by left|right].
    apply andb_prop_iff in Hb as [[Hm%bool_decide_eq_true _]%andb_prop_iff Hk%negb_true_iff]. rewrite Hm, Hk in Hfits.
    destruct Hfits as (c & Hc & Hfits). rewrite Hc. cbn [amount]. rewrite <- spot_committed.
    apply (envelope_exact g _ _ _); [|by rewrite spot_committed, Hp|done|done].
    constructor; [by apply Hd|]. apply coins_funded; [|by right].
    apply Forall_forall. intros x [_ [_ Hx]%elem_of_filter_bool]%elem_of_filter_bool. rewrite Forall_forall in Hl. by apply Hl.
  - destruct (guarded_cases _ _ _ (eq_refl (futures_paper_cash d))) as [?|[Hb ->]]; [by left|right].
    apply andb_prop_iff in Hb as [[Hm%bool_decide_eq_true _]%andb_prop_iff Hk]. rewrite Hm, Hk in Hfits.
    destruct Hfits as (c & e & Hc & He & Hfits). rewrite Hc. unfold envelope in *. rewrite He in *. cbn [amount] in *.
    rewrite <- futures_committed. apply (envelope_exact g _ _ _); [|by rewrite futures_committed, Hp|done|done].
    constructor; [by apply Hd|]. apply coins_funded; [done|]. intros x. destruct (_ && _); auto.
  - destruct (guarded_cases _ _ _ (eq_refl (futures_live_cash d))) as [?|[Hb ->]]; [by left|right].
    apply andb_prop_iff in Hb as [[Hm%bool_decide_eq_true _]%andb_prop_iff Hk]. rewrite Hm, Hk in Hfits.
    destruct Hfits as (c & e & t & Hc & He & (t' & Ht%exact_total_val & Ht')%bind_Ok & Hfits). apply exact_add_val in Ht'.
    rewrite Hc. unfold envelope. rewrite He. cbn [amount]. rewrite <- live_committed, <- Ht, <- Ht'. by dec_cmp.
Qed.

Lemma step_within fleet fleet' : small_envelopes → fleet_step fleet fleet' → FleetWithin fleet → FleetWithin fleet'.
Proof.
  intros Hsmall [fl listing d strategy_id ids source sleeve start desk v Hp Hd Hid Ha H Hv|b a d d' Hm Hid Hc Ha Ho] Hw.
  - destruct (start_admitted _ _ _ _ _ _ _ _ _ _ _ H Hv Hid) as [Hn Hfits]. rewrite Ha in Hfits. by eapply admit_within.
  - by eapply change_within.
Qed.

Lemma optional_positive o : optional (λ d, d0 <? d)%dec o = true → (0 <= amount o)%Q.
Proof. destruct o as [d|]; cbn; [intros H; dec_cmp; rewrite val_d0 in H; lra|done]. Qed.

Lemma valid_limits : valid_policy p = true → FleetWithin [].
Proof.
  unfold valid_policy, between. cbn zeta. rewrite !andb_true_iff. intros H. destruct_and!.
  assert (∀ field, (∀ f, valid_futures_policy f = true → optional (λ d, d0 <? d)%dec (field f) = true) → (0 <= envelope field)%Q) as He.
  { intros field Hfield. apply optional_positive. destruct (futures p) as [f|]; [by apply Hfield|done]. }
  constructor; cbn [total]; [constructor|intros m|..].
  - change 0%Q with (inject_Z 0). rewrite <- Zle_Qle. lia.
  - dec_cmp. rewrite val_d0 in *. lra.
  - apply He. intros f Hf. unfold valid_futures_policy in Hf. rewrite !andb_true_iff in Hf. by destruct_and!.
  - apply He. intros f Hf. unfold valid_futures_policy in Hf. rewrite !andb_true_iff in Hf. by destruct_and!.
Qed.

(** C15: a fleet that grew from nothing by admitted starts, whatever the order of the starts, of
    the listings they were judged on, and of pauses, stops and other changes in between, never
    runs more books of a mode than the policy's slots, and the cash of its running paper books,
    spot and futures, and the allocations of its running live futures books never exceed the
    policy's envelopes, summed exactly. *)
Theorem fleet_stays_within fleet : valid_policy p = true → small_envelopes → rtc fleet_step [] fleet → FleetWithin fleet.
Proof.
  intros Hv Hsmall. apply (rtc_ind_r (λ f, FleetWithin f)).
  - by apply valid_limits.
  - intros f f' _ Hstep. by apply step_within.
Qed.

End Fleet.
