(* ===== verification/GateScenario.v ===== *)
(** * GateScenario: the gate on worked books

    One paper book that asks for a spot entry, one live book that asks for a demo_perpetual, and
    a fleet of one start. The theorems about admission are instantiated here. *)

From S2P Require Import Prelude Decimals Market Geometry Containers TradingModels StoreFacts.
From S2P Require Import Sizing RiskModels EntryLimits Breakers BetaExposure FuturesBooks FuturesGate Gate Verdicts GateFacts.

Open Scope Z_scope.

#[local] Existing Instance default_context.
#[local] Existing Instance insertion_order.
#[local] Instance no_digest : Digest := {| digest _ _ := "" |}.

Definition flat_book : DeploymentSnapshot := DeploymentSnapshot.mk demo_deployment None [] [] [] [] [] true [].

Definition demo_entry : ProposedEntry := {|
  entry_product_id := "BTC-USD"; entry_strategy_id := Some "s1"; entry_notional := of_Z 100; is_pyramid_add := false;
  entry_quantity := Some (of_Z 1); funding_ := quote_funding; readmits_working_entry := false; entry_side := Some LONG;
  desk_id := None; desk_committed := d0 |}.

Definition demo_observation : EntryObservation := {|
  as_of := demo_hour 1; proposed_price := Some (of_Z 100); reference_price := Some (of_Z 101); observed_marks := ∅ |}.

Definition demo_verdict : result RiskVerdict :=
  evaluate_new_entry None compiled_default_risk_policy DeploymentMode.PAPER demo_entry [flat_book] None (Some demo_observation)
    None None None None None.

Example demo_entry_allowed : demo_verdict = Ok _allow.
Proof. by vm_compute. Qed.

(** A price far from the reference is refused by the collar. *)
Example collar_refuses : evaluate_new_entry None compiled_default_risk_policy DeploymentMode.PAPER demo_entry [flat_book] None
    (Some {| as_of := demo_hour 1; proposed_price := Some (of_Z 160); reference_price := Some (of_Z 101); observed_marks := ∅ |})
    None None None None None = Ok (_deny REFERENCE_PRICE_COLLAR).
Proof. by vm_compute. Qed.

Lemma allowed_spot_entry_witness : demo_verdict = Ok _allow ∧
  Member compiled_default_risk_policy demo_entry (running_books [flat_book] DeploymentMode.PAPER) ∧
  Paced compiled_default_risk_policy DeploymentMode.PAPER (risk_bearing_snapshots [flat_book] DeploymentMode.PAPER) demo_observation.
Proof.
  split; [by vm_compute|].
  destruct (allowed_spot_entry None compiled_default_risk_policy DeploymentMode.PAPER demo_entry [flat_book] None
    (Some demo_observation) None None None None None _allow) as (quote & books & daily & _ & _ & _ & _ & Hm & _ & _ & Ho & _);
    [by vm_compute|by vm_compute|done|].
  split; [exact Hm|]. apply (Ho demo_observation); by vm_compute.
Defined.

Lemma gate_verdicts_well_formed_witness : decision _allow = ALLOW ∧ reason_code _allow = ALLOWED ∨
  decision _allow = DENY ∧ reason_code _allow ≠ ALLOWED.
Proof.
  apply gate_verdicts_well_formed. left. exists None, compiled_default_risk_policy, DeploymentMode.PAPER, demo_entry, [flat_book],
    None, (Some demo_observation), None, None, None, None, None. by vm_compute.
Defined.

(** ** A live demo_perpetual *)

Definition demo_perpetual : string := "BIP-20DEC30-CDE".

Definition live_deployment (id : UUID) : Deployment := {|
  Deployment.terms := {|
    Deployment.id := id; Deployment.strategy_fingerprint := Some "sha256:a"; Deployment.strategy_id := Some "s1";
    Deployment.product_id := demo_perpetual; Deployment.mode := DeploymentMode.LIVE; Deployment.created_at := demo_hour 0;
    Deployment.paper_starting_cash := None; Deployment.paper_maker_fee_rate := None;
    Deployment.paper_taker_fee_rate := None; Deployment.kind := DeploymentKind.STRATEGY; Deployment.timeframe := None;
    Deployment.strategy_name := None; Deployment.portfolio_id := None |};
  Deployment.capital := demo_capital;
  Deployment.runtime := Deployment.runtime demo_deployment;
  Deployment.status := DeploymentStatus.RUNNING; Deployment.cash := d0; Deployment.updated_at := demo_hour 0;
  Deployment.mismatch_detail := None; Deployment.futures_derisk_pending := false;
  Deployment.futures_flat_confirmation_after := None; Deployment.revision := 4; Deployment.worker_lease_holder := None;
  Deployment.worker_lease_expires_at := None; Deployment.lifecycle_command := LifecycleCommand.NONE;
  Deployment.daily_loss_latched := false; Deployment.drawdown_latched := false;
  Deployment.last_signal_event_at := None; Deployment.last_signal_processed_at := None |}.

Definition live_book : DeploymentSnapshot := DeploymentSnapshot.mk (live_deployment "d2") None [] [] [] [] [] true [].

Definition live_policy : RiskPolicyDefinition :=
  let p := compiled_default_risk_policy in {|
  RiskPolicyDefinition.policy_id := RiskPolicyDefinition.policy_id p;
  RiskPolicyDefinition.version := 2;
  RiskPolicyDefinition.quote_currency := "USDC";
  RiskPolicyDefinition.product_allowlist := [];
  RiskPolicyDefinition.max_concurrent_running_deployments := 8;
  RiskPolicyDefinition.max_concurrent_open_positions := 8;
  RiskPolicyDefinition.max_portfolio_exposure_fraction := d1;
  RiskPolicyDefinition.per_product_max_exposure_fraction := d1;
  RiskPolicyDefinition.paper_capital_quote := of_Z 100000;
  RiskPolicyDefinition.allocations := [];
  RiskPolicyDefinition.desk_allocations := [];
  RiskPolicyDefinition.daily_loss_limit_fraction := d1;
  RiskPolicyDefinition.max_strategy_drawdown_fraction := d1;
  RiskPolicyDefinition.max_entry_orders_per_minute := 60;
  RiskPolicyDefinition.max_cancellations_per_minute := 60;
  RiskPolicyDefinition.reference_price_collar_fraction := Dec 5 (-1);
  RiskPolicyDefinition.allow_intra_strategy_pyramiding := false;
  RiskPolicyDefinition.max_daily_loss_quote := None;
  RiskPolicyDefinition.max_portfolio_exposure_quote := None;
  RiskPolicyDefinition.max_venue_order_actions_per_minute := None;
  RiskPolicyDefinition.max_order_quantity := None;
  RiskPolicyDefinition.max_order_notional_quote := None;
  RiskPolicyDefinition.min_available_quote_reserve := None;
  RiskPolicyDefinition.max_fleet_entries_per_window := None;
  RiskPolicyDefinition.fleet_entry_window_minutes := None;
  RiskPolicyDefinition.max_btc_beta_exposure_fraction := None;
  RiskPolicyDefinition.max_btc_beta_exposure_quote := None;
  RiskPolicyDefinition.futures := Some {|
    FuturesRiskPolicy.live_spot_collateral_reserve_quote := Some (of_Z 1000);
    FuturesRiskPolicy.peg_haircut := Dec 105 (-2);
    FuturesRiskPolicy.paper_capital_usd := Some (of_Z 10000);
    FuturesRiskPolicy.daily_loss_limit_fraction := None;
    FuturesRiskPolicy.max_daily_loss_usd := None;
    FuturesRiskPolicy.max_leverage := None;
    FuturesRiskPolicy.min_liquidation_buffer_fraction := None;
    FuturesRiskPolicy.max_exposure_fraction := None;
    FuturesRiskPolicy.max_order_contracts := Some 3;
    FuturesRiskPolicy.max_hourly_funding_rate_abs := None;
    FuturesRiskPolicy.max_btc_beta_exposure_fraction := None;
    FuturesRiskPolicy.beta_netting := None;
    FuturesRiskPolicy.live_enabled := Some true;
    FuturesRiskPolicy.live_capital_usd := Some (of_Z 5000);
    FuturesRiskPolicy.product_allowlist := Some [demo_perpetual];
    FuturesRiskPolicy.live_derisk_margin_ratio := None;
    FuturesRiskPolicy.live_funding_drift_tolerance_usd := None |} |}.

Example live_policy_is_valid : valid_policy live_policy = true.
Proof. by vm_compute. Qed.

Definition perpetual_contract : InstrumentContract := {|
  InstrumentContract.product_id := demo_perpetual; InstrumentContract.kind := perpetual_future;
  InstrumentContract.underlying := "BTC"; InstrumentContract.contract_size := Dec 1 (-2); InstrumentContract.expires_at := None |}.

Definition perpetual_binding : BoundFuturesContract := {|
  bound_deployment_id := "d2"; contract := perpetual_contract; bound_fee_per_contract := Dec 1 (-1); bound_at := demo_hour 0 |}.

Definition perpetual_margin : FuturesMarginTerms := {|
  Sizing.contract_size := Dec 1 (-2); long_rate := Dec 25 (-2); short_rate := Dec 3 (-1); maintenance_fraction := Dec 5 (-1);
  min_buffer_fraction := Dec 1 (-1); terms_max_leverage := of_Z 3; fee_per_contract := Dec 1 (-1) |}.

Definition perpetual_state : FuturesBookState := {|
  FuturesBookState.deployment_id := "d2"; FuturesBookState.product_id := demo_perpetual; FuturesBookState.side := LONG;
  FuturesBookState.binding := Some perpetual_binding; FuturesBookState.margin := Some perpetual_margin;
  FuturesBookState.margin_observed_at := Some (demo_hour 1); FuturesBookState.funding_overdue := None;
  FuturesBookState.latest_funding_rate := Some d0; FuturesBookState.margin_stale := false |}.

Definition perpetual_entry : ProposedEntry := {|
  entry_product_id := demo_perpetual; entry_strategy_id := Some "s1"; entry_notional := of_Z 2000; is_pyramid_add := false;
  entry_quantity := Some (Dec 2 (-2)); funding_ := quote_funding; readmits_working_entry := false; entry_side := Some LONG;
  desk_id := None; desk_committed := d0 |}.

Definition perpetual_venue : FuturesVenueEvidence := {|
  FuturesVenueEvidence.observed_at := demo_hour 1; FuturesVenueEvidence.buying_power_usd := Some (of_Z 900);
  FuturesVenueEvidence.initial_margin_usd := Some d0; FuturesVenueEvidence.positions := Some ∅;
  FuturesVenueEvidence.external_order_products := Some ∅; FuturesVenueEvidence.killswitch_enabled := Some false;
  FuturesVenueEvidence.maintenance := ∅; FuturesVenueEvidence.contract_sizes := {[ demo_perpetual := Dec 10 (-3) ]};
  FuturesVenueEvidence.killswitch_observed_at := None |}.

Definition perpetual_verdict : option RiskVerdict :=
  live_futures_entry_verdict live_policy perpetual_entry live_book perpetual_state [live_book] (Some perpetual_venue)
    (Some (demo_hour 1 + minute)).

Lemma live_admission_is_exact_witness : perpetual_verdict = None ∧
  LiveAdmission live_policy perpetual_entry live_book LONG perpetual_contract perpetual_margin [live_book] perpetual_venue
    (demo_hour 1 + minute).
Proof.
  split; [by vm_compute|].
  destruct (live_admission_is_exact live_policy perpetual_entry live_book perpetual_state [live_book] (Some perpetual_venue)
    (Some (demo_hour 1 + minute))) as (binding & margin & v & now & Hb & Hm & Hv & Hn & H);
    [by vm_compute|by intros binding [= <-]; vm_compute|].
  injection Hb as <-. injection Hm as <-. injection Hv as <-. injection Hn as <-. exact H.
Defined.

(** A live account that already holds margin does not admit a second order of the reserve. *)
Example reserve_refuses : live_futures_entry_verdict live_policy perpetual_entry live_book perpetual_state [live_book]
    (Some {|
      FuturesVenueEvidence.observed_at := demo_hour 1; FuturesVenueEvidence.buying_power_usd := Some (of_Z 900);
      FuturesVenueEvidence.initial_margin_usd := Some (of_Z 600); FuturesVenueEvidence.positions := Some ∅;
      FuturesVenueEvidence.external_order_products := Some ∅; FuturesVenueEvidence.killswitch_enabled := Some false;
      FuturesVenueEvidence.maintenance := ∅; FuturesVenueEvidence.contract_sizes := {[ demo_perpetual := Dec 10 (-3) ]};
      FuturesVenueEvidence.killswitch_observed_at := None |})
    (Some (demo_hour 1 + minute)) = Some (_deny FUTURES_COLLATERAL_RESERVE_SHORT).
Proof. by vm_compute. Qed.

(** ** A fleet of one start *)

Lemma fleet_stays_within_witness : FleetWithin compiled_default_risk_policy 8 [demo_deployment].
Proof.
  apply fleet_stays_within; [by vm_compute|split; by vm_compute|]. apply rtc_once.
  apply (admit_start _ _ [] [] demo_deployment (Some "s1") [] COMPILED_DEFAULT false None None _allow).
  - done.
  - split; [|done]. intros c [= <-]. split; [by exists (1000 * 10 ^ 8)|by vm_compute].
  - by left.
  - done.
  - by vm_compute.
  - done.
Defined.
