(* ===== verification/LiveSignals.v ===== *)
(** * LiveSignals: the newest bar's signals in paper and live ([execution/signals.py])

    A running book evaluates the newest closed bar of its decision clock: every other clock is
    cut to the bars closed by that bar's close, and the rules read the same merged values the
    research evaluator reads. A reference instrument without coverage leaves its values
    undefined. *)

From S2P Require Import Prelude Decimals DecimalText Market Geometry IndicatorSpec Conditions.
From S2P Require Import Convergence Strategy Alignment Series IndicatorMath Indicators IndicatorCausality.
From S2P Require Import KernelState KernelRun SignalTrace SignalCausality.

Open Scope Z_scope.

Record LatestEntryEvaluation := {
  latest_outcome : EntryConditionOutcome;
  candle_starts_at : option datetime;
  ltf_outcome : EntryConditionOutcome;
  current_values : values;
  previous_values : option values;
  latest_htf_outcome : option EntryConditionOutcome;
  htf_current : values;
  htf_previous : option values
}.

Record LatestExitEvaluation := {
  exit_outcome : EntryConditionOutcome;
  exit_candle_starts_at : option datetime;
  exit_current : values;
  exit_previous : option values
}.

(** [l[-k]] *)
Definition from_end {A} (l : list A) (k : nat) : result A :=
  match l !! (length l - k)%nat with Some x => Ok x | None => Raise IndexError end.

Definition last_start (candles : list Candle) : option datetime := starts_at <$> last candles.

(** HTF bars that had closed by the newest LTF close; all of them without a filter. *)
Definition _visible_htf (d : StrategyDefinition) (candles htf_candles : list Candle) : result (list Candle) :=
  match htf_filter d with
  | None => Ok htf_candles
  | Some f =>
      latest ← from_end candles 1;
      close ← ltf_close (starts_at latest) (timeframe d);
      bars_closed_at_or_before htf_candles close (htf_timeframe f)
  end.

Definition visible_extra (extra : gmap string (list Candle)) (current_close : datetime) : result (gmap string (list Candle)) :=
  visible ← result_mapM (λ item : string * list Candle,
    bars ← bars_closed_at_or_before item.2 current_close item.1; Ok (item.1, bars)) (map_to_list extra);
  Ok (list_to_map visible).

Definition visible_references (d : StrategyDefinition) (references : gmap string (list Candle)) (current_close : datetime)
    : result (gmap string (list Candle)) :=
  visible ← result_mapM (λ r,
    bars ← bars_closed_at_or_before (default [] (references !! reference_id r)) current_close (reference_timeframe r);
    Ok (reference_id r, bars)) (reference_instruments d);
  Ok (list_to_map visible).

Definition _latest_merged_values (d : StrategyDefinition) (candles visible_htf : list Candle)
    (extra references : gmap string (list Candle)) : result (values * option values) :=
  latest ← from_end candles 1;
  current_close ← ltf_close (starts_at latest) (timeframe d);
  extras ← visible_extra extra current_close;
  extra_rows ← calculate_extra_indicator_rows d extras visible_htf (starts_at latest) current_close;
  visible ← visible_references d references current_close;
  reference_rows ← calculate_reference_indicator_rows d visible (starts_at latest) current_close false;
  rows ← calculate_indicator_rows (dc := simulation_context) (decision_clock_indicators d) candles (strategy_indicator_operands d);
  before ← from_end candles 2;
  row ← from_end rows 1;
  previous_row ← from_end rows 2;
  overlay_indicator_timeframe_values d latest (Some (starts_at before)) row (Some previous_row) extra_rows reference_rows false.

Definition evaluate_latest_signal_exit (d : StrategyDefinition) (candles htf_candles : list Candle)
    (extra references : gmap string (list Candle)) : result (option LatestExitEvaluation) :=
  match signal_exit_condition (exits d) with
  | None => Ok None
  | Some condition =>
      if (length candles <? 2)%nat
      then Ok (Some {| exit_outcome := UNDEFINED; exit_candle_starts_at := last_start candles;
                       exit_current := ∅; exit_previous := None |})
      else
        visible ← _visible_htf d candles htf_candles;
        merged ← _latest_merged_values d candles visible extra references;
        let '(merged_values, merged_previous) := merged in
        Ok (Some {| exit_outcome := _condition_outcome condition merged_values merged_previous;
                    exit_candle_starts_at := last_start candles;
                    exit_current := merged_values; exit_previous := merged_previous |})
  end.

Definition evaluate_latest_entry_evidence (d : StrategyDefinition) (candles htf_candles : list Candle)
    (extra references : gmap string (list Candle)) : result LatestEntryEvaluation :=
  _ ← guard_or (negb (bool_decide (htf_filter d = None) && negb (bool_decide (htf_candles = []))))
        (SignalEvaluationError "HTF candles were supplied without an HTF filter.");
  _ ← guard_or (negb (negb (bool_decide (htf_filter d = None)) && bool_decide (htf_candles = [])))
        (SignalEvaluationError "HTF candles are required for an HTF-filter strategy.");
  if (length candles <? 2)%nat
  then Ok {| latest_outcome := UNDEFINED; candle_starts_at := last_start candles; ltf_outcome := UNDEFINED;
             current_values := ∅; previous_values := None; latest_htf_outcome := None; htf_current := ∅; htf_previous := None |}
  else
    latest ← from_end candles 1;
    current_close ← ltf_close (starts_at latest) (timeframe d);
    visible_htf ← _visible_htf d candles htf_candles;
    merged ← _latest_merged_values d candles visible_htf extra references;
    let '(merged_values, merged_previous) := merged in
    let outcome := _condition_outcome (when (entry d)) merged_values merged_previous in
    match htf_filter d with
    | None =>
        Ok {| latest_outcome := outcome; candle_starts_at := Some (starts_at latest); ltf_outcome := outcome;
              current_values := merged_values; previous_values := merged_previous; latest_htf_outcome := None;
              htf_current := ∅; htf_previous := None |}
    | Some f =>
        htf_rows ← calculate_htf_indicator_rows d visible_htf (starts_at latest) current_close;
        before ← from_end candles 2;
        htf ← htf_filter_outcome d latest (Some (starts_at before)) htf_rows;
        let '(htf_outcome, htf_values) := htf in
        previous_close ← ltf_close (starts_at before) (timeframe d);
        previous_htf_start ← mapped_htf_start previous_close (htf_timeframe f);
        Ok {| latest_outcome := and_entry_outcomes outcome htf_outcome; candle_starts_at := Some (starts_at latest);
              ltf_outcome := outcome; current_values := merged_values; previous_values := merged_previous;
              latest_htf_outcome := Some htf_outcome; htf_current := htf_values;
              htf_previous := htf_rows !! previous_htf_start |}
    end.

Definition evaluate_latest_entry (d : StrategyDefinition) (candles htf_candles : list Candle)
    (extra references : gmap string (list Candle)) : result EntryConditionOutcome :=
  ev ← evaluate_latest_entry_evidence d candles htf_candles extra references; Ok (latest_outcome ev).

(** The newest value of a named ATR on the decision clock. *)
Definition named_atr (d : StrategyDefinition) (candles : list Candle) (indicator_id : string) : result (option decimal) :=
  rows ← calculate_indicator_rows (dc := simulation_context) (decision_clock_indicators d) candles [];
  match last rows with
  | None => Ok None
  | Some row => Ok (row_get row indicator_id)
  end.

Definition latest_atr (d : StrategyDefinition) (candles : list Candle) : result (option decimal) :=
  named_atr d candles (atr_indicator (initial_stop (exits d))).

(** ** Cutting a clock to the closed bars *)

Definition closed_bars (ends : datetime) (i : CandleInterval) (cs : list Candle) : list Candle :=
  List.filter (λ c, starts_at c + duration i <=? ends) cs.

Lemma bars_closed_spec cs ends tf i : parse_candle_interval tf = Ok i ->
  bars_closed_at_or_before cs ends tf = Ok (closed_bars ends i cs).
Proof. unfold bars_closed_at_or_before. by intros ->. Qed.

Lemma elem_of_closed ends i cs c : c ∈ closed_bars ends i cs ↔ c ∈ cs ∧ starts_at c + duration i <= ends.
Proof. unfold closed_bars. rewrite elem_of_filter_bool, Z.leb_le. tauto. Qed.

Lemma index_distinct cs m : index_candles_by_start cs = Ok m -> NoDup (starts_at <$> cs).
Proof.
  unfold index_candles_by_start. enough (∀ m0 : gmap datetime Candle, foldM (λ (indexed : gmap datetime Candle) candle,
    match indexed !! starts_at candle with
    | Some _ => Raise (ValueError "Closed-bar candles contain duplicate timestamps.")
    | None => Ok (<[starts_at candle := candle]> indexed)
    end) m0 cs = Ok m -> NoDup (starts_at <$> cs) ∧ ∀ c, c ∈ cs -> m0 !! starts_at c = None) as Hf
    by (intros H; by apply Hf in H as []).
  induction cs as [|c cs IH]; intros m0 H; [by split; [constructor|intros ? ?%elem_of_nil]|]. cbn [foldM] in H.
  destruct (m0 !! starts_at c) eqn:E; [done|]. cbn in H. destruct (IH _ H) as [Hnd Hm]. split.
  - rewrite fmap_cons. constructor; [|done]. intros (x & Hx & Hin)%list_elem_of_fmap.
    specialize (Hm x Hin). rewrite <- Hx, lookup_insert_eq in Hm. done.
  - intros x [->|Hin]%elem_of_cons; [done|]. specialize (Hm x Hin). by apply lookup_insert_None in Hm as [].
Qed.

Lemma sublist_filter {A} (f : A → bool) l : sublist (List.filter f l) l.
Proof. induction l as [|x l IH]; cbn; [constructor|]. destruct (f x); by constructor. Qed.

Lemma closed_distinct ends i cs : NoDup (starts_at <$> cs) -> NoDup (starts_at <$> closed_bars ends i cs).
Proof. intros H. eapply sublist_NoDup; [exact H|apply fmap_sublist, sublist_filter]. Qed.

Lemma required_bar_closed starts ends tf warmup i expected t : parse_candle_interval tf = Ok i ->
  closed_bar_starts starts ends tf warmup = Ok expected -> t ∈ expected -> t + duration i <= ends.
Proof.
  intros Hp. rewrite (closed_bar_starts_spec _ _ _ _ _ Hp). intros [= <-] (k & Hk & -> & Hlt)%elem_of_instants;
    [|apply duration_pos]. pose proof (duration_pos i). pose proof (floor_bounds ends _ (duration_pos i)).
  replace (starts / duration i * duration i - duration i * Z.of_nat warmup + duration i * k)
    with ((starts / duration i - Z.of_nat warmup + k) * duration i) in * by lia.
  assert (starts / duration i - Z.of_nat warmup + k < ends / duration i) by nia. nia.
Qed.

(** The bars a clock selects are among its closed ones. *)
Lemma closed_selection starts ends tf warmup i expected cs selected : parse_candle_interval tf = Ok i ->
  closed_bar_starts starts ends tf warmup = Ok expected -> _required_htf_candles expected cs = Ok selected ->
  _required_htf_candles expected (closed_bars ends i cs) = Ok selected ∧
  (selected ≠ [] -> closed_bars ends i cs ≠ []).
Proof.
  intros Hp He Hs. pose proof (required_candles_starts _ _ _ Hs) as [Hstarts [m Hm]].
  assert (_required_htf_candles expected (closed_bars ends i cs) = Ok selected) as Hc.
  { rewrite <- (firstn_all expected) at 1. rewrite <- (firstn_all selected), <- (length_fmap starts_at selected), Hstarts.
    apply (required_candles_replay i ends expected cs); [|by apply closed_distinct, (index_distinct _ m)| |done].
    - intros c Hc. rewrite elem_of_closed. tauto.
    - rewrite firstn_all. intros t. by eapply required_bar_closed. }
  split; [done|]. intros Hne Hnil. rewrite Hnil in Hc. unfold _required_htf_candles in Hc. cbn in Hc.
  destruct expected as [|t expected]; [cbn in Hc; congruence|]. done.
Qed.

Lemma index_rows_nonempty selected computed (rows : row_map) : index_rows selected computed = Ok rows -> rows ≠ ∅ -> selected ≠ [].
Proof. unfold index_rows. intros H Hne ->. destruct computed; cbn in H; [|done]. injection H as <-. done. Qed.

(** ** Every clock's rows, from the closed bars *)

Lemma closed_rows d message group tf i starts ends warmup cs expected selected computed (rows : row_map) :
  parse_candle_interval tf = Ok i -> closed_bar_starts starts ends tf warmup = Ok expected ->
  _required_htf_candles expected cs = Ok selected -> signal_rows message d group selected = Ok computed ->
  index_rows selected computed = Ok rows -> rows ≠ ∅ ->
  _required_htf_candles expected (closed_bars ends i cs) = Ok selected ∧ closed_bars ends i cs ≠ [].
Proof.
  intros Hp He Hs _ Hr Hne. destruct (closed_selection _ _ _ _ _ _ _ _ Hp He Hs) as [Hc Hk]. split; [done|].
  apply Hk. by eapply index_rows_nonempty.
Qed.

Lemma parsed_bar_starts starts ends tf warmup expected : closed_bar_starts starts ends tf warmup = Ok expected ->
  ∃ i, parse_candle_interval tf = Ok i.
Proof. unfold closed_bar_starts, closed_bar_required_coverage. destruct (parse_candle_interval tf); [by eexists|done]. Qed.

Lemma live_htf_rows d f i htf starts ends rows : htf_filter d = Some f -> parse_candle_interval (htf_timeframe f) = Ok i ->
  calculate_htf_indicator_rows d htf starts ends = Ok rows -> rows ≠ ∅ ->
  calculate_htf_indicator_rows d (closed_bars ends i htf) starts ends = Ok rows.
Proof.
  unfold calculate_htf_indicator_rows. intros -> Hi H Hne. destruct htf as [|c cs] eqn:Eh; [done|]. rewrite <- Eh in *.
  apply bind_Ok in H as (expected & He & (selected & Hs & (computed & Hc & Hr)%bind_Ok)%bind_Ok).
  destruct (closed_rows _ _ _ _ _ _ _ _ _ _ _ _ _ Hi He Hs Hc Hr Hne) as [Hs' Hn].
  destruct (closed_bars ends i htf) as [|c' cs'] eqn:E; [done|]. rewrite He; cbn [mbind result_bind].
  rewrite Hs'; cbn [mbind result_bind]. by rewrite Hc.
Qed.

Lemma mapM_lift {A B} (f g : A → result B) l k : result_mapM f l = Ok k ->
  (∀ x y, x ∈ l -> y ∈ k -> f x = Ok y -> g x = Ok y) -> result_mapM g l = Ok k.
Proof.
  revert k. induction l as [|x l IH]; intros k H Hfg; cbn in *; [done|].
  apply bind_Ok in H as (y & Hy & (ys & Hys & [= <-])%bind_Ok). rewrite (Hfg x y ltac:(left) ltac:(left) Hy). cbn.
  rewrite (IH ys Hys); [done|]. intros a b Ha Hb. apply Hfg; by right.
Qed.

(** Each clock of a supplied history, cut to its closed bars. *)
Definition closed_extra (ends : datetime) (extra : gmap string (list Candle)) : gmap string (list Candle) :=
  map_imap (λ tf bars, match parse_candle_interval tf with Ok i => Some (closed_bars ends i bars) | Raise _ => None end) extra.

Lemma live_extra_rows d extra htf htf' starts ends rows :
  (∀ f i, htf_filter d = Some f -> parse_candle_interval (htf_timeframe f) = Ok i -> htf' = closed_bars ends i htf) ->
  calculate_extra_indicator_rows d extra htf starts ends = Ok rows -> Forall (λ clock, clock.2 ≠ ∅) rows ->
  calculate_extra_indicator_rows d (closed_extra ends extra) htf' starts ends = Ok rows.
Proof.
  unfold calculate_extra_indicator_rows. intros Hhtf H Hne. eapply mapM_lift; [exact H|].
  intros [tf group] [tf' m] _ Hy. rewrite Forall_forall in Hne. specialize (Hne _ Hy). cbn in Hne. clear Hy H.
  unfold extra_group_rows. destruct (extra_clock_candles d extra htf tf) as [|c cs] eqn:Ecs; [done|]. rewrite <- Ecs in *.
  intros (warmup & Hw & (expected & He & (selected & Hs & (computed & Hc & (m' & Hr & [= <- <-])%bind_Ok)%bind_Ok)%bind_Ok)%bind_Ok)%bind_Ok.
  destruct (parsed_bar_starts _ _ _ _ _ He) as [i Hi].
  destruct (closed_rows _ _ _ _ _ _ _ _ _ _ _ _ _ Hi He Hs Hc Hr Hne) as [Hs' Hn].
  assert (extra_clock_candles d (closed_extra ends extra) htf' tf = closed_bars ends i (extra_clock_candles d extra htf tf)) as ->.
  { unfold extra_clock_candles, closed_extra. rewrite map_lookup_imap. destruct (extra !! tf); cbn; [by rewrite Hi|].
    case_bool_decide as Htf; [|done]. destruct (htf_filter d) as [f|] eqn:Ef; [|done]. injection Htf as ->. by eapply Hhtf. }
  destruct (closed_bars ends i _) as [|c' cs'] eqn:E; [done|]. rewrite Hw; cbn [mbind result_bind].
  rewrite He; cbn [mbind result_bind]. rewrite Hs'; cbn [mbind result_bind]. rewrite Hc; cbn [mbind result_bind]. by rewrite Hr.
Qed.

(** Strict rows, up to clocks without a row. *)
Definition covers (rows rows' : gmap string row_map) : Prop := ∀ id, rows !! id = rows' !! id ∨ rows !! id = Some ∅.

Definition closed_references (d : StrategyDefinition) (ends : datetime) (references : gmap string (list Candle))
    : gmap string (list Candle) :=
  list_to_map ((λ r, (reference_id r, match parse_candle_interval (reference_timeframe r) with
    | Ok i => closed_bars ends i (default [] (references !! reference_id r)) | Raise _ => [] end)) <$> reference_instruments d).

Lemma closed_references_lookup d ends references r i : NoDup (reference_id <$> reference_instruments d) ->
  r ∈ reference_instruments d -> parse_candle_interval (reference_timeframe r) = Ok i ->
  closed_references d ends references !! reference_id r = Some (closed_bars ends i (default [] (references !! reference_id r))).
Proof.
  intros Hnd Hr Hi. unfold closed_references. apply elem_of_list_to_map_1; [by rewrite <- list_fmap_compose|].
  apply list_elem_of_fmap. exists r. by rewrite Hi.
Qed.

Lemma live_reference_rows d references starts ends rows : NoDup (reference_id <$> reference_instruments d) ->
  calculate_reference_indicator_rows d references starts ends true = Ok rows ->
  ∃ rows', calculate_reference_indicator_rows d (closed_references d ends references) starts ends false = Ok rows' ∧
    covers rows rows'.
Proof.
  intros Hnd. unfold calculate_reference_indicator_rows. rewrite andb_false_r. destruct (has_undeclared _ _ && _); [done|].
  apply foldM_simulates; [intros id; by left|]. intros [r group] u v u' Hin Huv. unfold reference_group_rows.
  assert (r ∈ reference_instruments d) as Hr
    by (unfold reference_indicator_groups in Hin; by apply list_elem_of_fmap in Hin as (r' & [= -> ->] & Hr)).
  intros (warmup & Hw & (expected & He & (sel & Hs & Hk)%bind_Ok)%bind_Ok)%bind_Ok.
  destruct (parsed_bar_starts _ _ _ _ _ He) as [i Hi]. unfold _reference_window in Hs.
  rewrite (closed_references_lookup d ends references r i Hnd Hr Hi). cbn [default from_option id].
  destruct (default [] (references !! reference_id r)) as [|c cs] eqn:Ecs; [done|]. rewrite <- Ecs in *. clear Ecs.
  destruct (_required_htf_candles expected _) as [selected|[]] eqn:Hsel; try discriminate Hs. injection Hs as <-.
  apply bind_Ok in Hk as (computed & Hc & (m & Hm & [= <-])%bind_Ok).
  destruct (closed_selection _ _ _ _ _ _ _ _ Hi He Hsel) as [Hsel' Hn].
  rewrite Hw; cbn [mbind result_bind]. rewrite He; cbn [mbind result_bind]. unfold _reference_window.
  destruct (closed_bars ends i _) as [|c' cs'] eqn:E.
  - exists v. split; [done|]. intros id. destruct (decide (reference_id r = id)) as [<-|Hne].
    + right. rewrite lookup_insert_eq. f_equal. destruct selected; [|by destruct Hn]. unfold index_rows in Hm.
      destruct computed; [|done]. by injection Hm as <-.
    + rewrite lookup_insert_ne by done. apply Huv.
  - rewrite Hsel'; cbn [mbind result_bind]. rewrite Hc; cbn [mbind result_bind]. rewrite Hm; cbn [mbind result_bind].
    eexists. split; [done|]. intros id. destruct (decide (reference_id r = id)) as [<-|Hne].
    + left. by rewrite !lookup_insert_eq.
    + rewrite !lookup_insert_ne by done. apply Huv.
Qed.

(** ** The overlay *)

Lemma overlay_rows_nonempty d close before state rows state' :
  foldM (overlay_clock d close before) state rows = Ok state' -> Forall (λ clock, clock.2 ≠ ∅) rows.
Proof.
  revert state. induction rows as [|[tf m] rows IH]; intros state; cbn [foldM]; [constructor|].
  intros (next & Hn & H)%bind_Ok. constructor; [|by eapply IH]. cbn. intros ->. unfold overlay_clock in Hn.
  destruct state as [current previous]. apply bind_Ok in Hn as (t & _ & Hn). by rewrite lookup_empty in Hn.
Qed.

Lemma covers_row rows rows' (id : string) close tf row : covers rows rows' ->
  _mapped_reference_row (rows !! id) close tf = Ok (Some row) ->
  _mapped_reference_row (rows' !! id) close tf = Ok (Some row).
Proof.
  intros Hc. destruct (Hc id) as [-> | ->]; [done|]. unfold _mapped_reference_row.
  intros (t & _ & H)%bind_Ok. by rewrite lookup_empty in H.
Qed.

Lemma strict_row keys mapped message row : reference_row true keys mapped message = Ok row -> mapped = Some row.
Proof. destruct mapped; [by intros [= ->]|done]. Qed.

(** A strict overlay that succeeds is the lenient one. *)
Lemma lenient_overlay d close previous_close state rows rows' state' : covers rows rows' ->
  _overlay_reference_values d close previous_close state rows true = Ok state' ->
  _overlay_reference_values d close previous_close state rows' false = Ok state'.
Proof.
  intros Hc. unfold _overlay_reference_values. revert state.
  induction (reference_indicator_groups d) as [|[r group] l IH]; intros state; [done|]. cbn [foldM].
  intros (next & Hn & H)%bind_Ok. enough (overlay_reference close previous_close rows' false state (r, group) = Ok next) as ->
    by by apply IH.
  clear H IH. unfold overlay_reference in *. destruct state as [current previous].
  apply bind_Ok in Hn as (mapped & Hm & (row & Hr & Hn)%bind_Ok). apply strict_row in Hr as ->.
  rewrite (covers_row _ _ _ _ _ _ Hc Hm); cbn [mbind result_bind reference_row].
  destruct previous as [previous|]; [|done]. destruct previous_close as [pc|]; [|done].
  apply bind_Ok in Hn as (mapped & Hm' & (row' & Hr & Hn)%bind_Ok). apply strict_row in Hr as ->.
  rewrite (covers_row _ _ _ _ _ _ Hc Hm'); cbn [mbind result_bind reference_row]. done.
Qed.

Lemma live_overlay d candle before ltf previous extras rows rows' merged : covers rows rows' ->
  overlay_indicator_timeframe_values d candle before ltf previous extras rows true = Ok merged ->
  overlay_indicator_timeframe_values d candle before ltf previous extras rows' false = Ok merged ∧
  Forall (λ clock, clock.2 ≠ ∅) extras.
Proof.
  intros Hc. unfold overlay_indicator_timeframe_values. intros (close & -> & (state & Hs & H)%bind_Ok)%bind_Ok.
  split; [|by eapply overlay_rows_nonempty]. cbn [mbind result_bind]. rewrite Hs; cbn [mbind result_bind].
  destruct (reference_instruments d) eqn:Er; [done|]. apply bind_Ok in H as (pc & -> & H). cbn [mbind result_bind].
  by eapply lenient_overlay.
Qed.

Lemma htf_outcome_nonempty d f candle before htf_rows o : htf_filter d = Some f ->
  htf_filter_outcome d candle before htf_rows = Ok o -> htf_rows ≠ ∅.
Proof.
  unfold htf_filter_outcome. intros -> (close & _ & (t & _ & H)%bind_Ok)%bind_Ok ->. by rewrite lookup_empty in H.
Qed.

Lemma visible_extra_spec extra close : (∀ tf bars, extra !! tf = Some bars -> is_ok (parse_candle_interval tf)) ->
  visible_extra extra close = Ok (closed_extra close extra).
Proof.
  intros Hp. unfold visible_extra.
  assert (result_mapM (λ item : string * list Candle,
      bars ← bars_closed_at_or_before item.2 close item.1; Ok (item.1, bars)) (map_to_list extra) =
    Ok ((λ item, (item.1, match parse_candle_interval item.1 with Ok i => closed_bars close i item.2 | Raise _ => [] end))
          <$> map_to_list extra)) as ->.
  { assert (∀ item, item ∈ map_to_list extra -> is_ok (parse_candle_interval item.1)) as Hl
      by (intros [tf bars] Hin%elem_of_map_to_list; by apply (Hp tf bars)).
    induction (map_to_list extra) as [|item l IH]; [done|]. cbn [result_mapM].
    destruct (Hl item ltac:(left)) as [i Hi]. rewrite (bars_closed_spec _ _ _ _ Hi). cbn [mbind result_bind].
    rewrite IH by (intros x Hx; apply Hl; by right). cbn. by rewrite Hi. }
  cbn [mbind result_bind]. f_equal. apply map_eq. intros tf. unfold closed_extra. rewrite map_lookup_imap.
  destruct (extra !! tf) as [bars|] eqn:E; cbn [mbind option_bind].
  - destruct (Hp tf bars E) as [i Hi]. rewrite Hi. apply elem_of_list_to_map_1.
    + rewrite <- list_fmap_compose. apply NoDup_fst_map_to_list.
    + apply list_elem_of_fmap. exists (tf, bars). cbn. rewrite Hi. split; [done|]. by apply elem_of_map_to_list.
  - apply not_elem_of_list_to_map_1. rewrite <- list_fmap_compose. intros ([tf' bars] & Htf & Hin%elem_of_map_to_list)%list_elem_of_fmap.
    cbn in Htf. congruence.
Qed.

Lemma visible_references_spec d references close :
  (∀ r, r ∈ reference_instruments d -> is_ok (parse_candle_interval (reference_timeframe r))) ->
  visible_references d references close = Ok (closed_references d close references).
Proof.
  intros Hp. unfold visible_references, closed_references.
  assert (result_mapM (λ r,
      bars ← bars_closed_at_or_before (default [] (references !! reference_id r)) close (reference_timeframe r);
      Ok (reference_id r, bars)) (reference_instruments d) =
    Ok ((λ r, (reference_id r, match parse_candle_interval (reference_timeframe r) with
      | Ok i => closed_bars close i (default [] (references !! reference_id r)) | Raise _ => [] end)) <$> reference_instruments d)) as ->;
    [|done].
  induction (reference_instruments d) as [|r l IH]; [done|]. cbn [result_mapM].
  destruct (Hp r ltac:(left)) as [i Hi]. rewrite (bars_closed_spec _ _ _ _ Hi). cbn [mbind result_bind].
  rewrite IH by (intros x Hx; apply Hp; by right). cbn. by rewrite Hi.
Qed.

Lemma signal_rows_calculated message d group bars computed : signal_rows message d group bars = Ok computed ->
  calculate_indicator_rows (dc := simulation_context) group bars (strategy_indicator_operands d) = Ok computed.
Proof. unfold signal_rows, as_signal_error. destruct (calculate_indicator_rows _ _ _) as [|[]]; congruence. Qed.

Lemma from_end_take {A} (l : list A) j k x : (k < S j)%nat -> l !! (j - k)%nat = Some x -> (j < length l)%nat ->
  from_end (take (S j) l) (S k) = Ok x.
Proof.
  intros Hk Hx Hj. unfold from_end. rewrite length_take, Nat.min_l by lia.
  replace (S j - S k)%nat with (j - k)%nat by lia. rewrite lookup_take_lt by lia. by rewrite Hx.
Qed.

Lemma trace_loop_member f from before bars records r : trace_loop f from before bars = Ok records -> r ∈ records ->
  ∃ j candle row, bars !! j = Some (candle, row) ∧ from <= starts_at candle ∧
    f candle row (match j with O => before | S j => bars !! j end) = Ok r.
Proof.
  revert before records. induction bars as [|[candle row] bars IH]; intros before records; cbn [trace_loop].
  - by intros [= <-] ?%elem_of_nil.
  - destruct (Z.ltb_spec (starts_at candle) from).
    + intros Hrec Hr. destruct (IH _ _ Hrec Hr) as (j & c & w & Hj & Hc & Hf). exists (S j), c, w. split; [done|]. split; [done|].
      by destruct j.
    + intros (x & Hx & (xs & Hxs & [= <-])%bind_Ok)%bind_Ok [->|Hr]%elem_of_cons.
      * by exists O, candle, row.
      * destruct (IH _ _ Hxs Hr) as (j & c & w & Hj & Hc & Hf). exists (S j), c, w. split; [done|]. split; [done|].
        by destruct j.
Qed.

(** ** Parity *)


(** The values a trace records of a bar: each key's canonical text, in the document's order. *)
Definition canonical_values (d : StrategyDefinition) (merged htf : values) :=
  result_mapM (λ key, value ← _canonical_optional (_row_value merged htf key); Ok (key, value)) (strategy_indicator_value_keys d).

Section Parity.
Context (d : StrategyDefinition) (i : CandleInterval) (h : Histories).
Context (candle before : Candle) (row before_row : values) (bars : list Candle) (rows : list values).

Hypothesis Hclock : parse_candle_interval (timeframe d) = Ok i.
Hypothesis Hbar : from_end bars 1 = Ok candle.
Hypothesis Hbefore : from_end bars 2 = Ok before.
Hypothesis Hlong : (2 <= length bars)%nat.
Hypothesis Hrows : calculate_indicator_rows (dc := simulation_context) (decision_clock_indicators d) bars
  (strategy_indicator_operands d) = Ok rows.
Hypothesis Hrow : from_end rows 1 = Ok row.
Hypothesis Hbefore_row : from_end rows 2 = Ok before_row.
Hypothesis Hextra : ∀ tf l, extra_bars h !! tf = Some l -> is_ok (parse_candle_interval tf).
Hypothesis Hreferences : ∀ r, r ∈ reference_instruments d -> is_ok (parse_candle_interval (reference_timeframe r)).

Let close := starts_at candle + duration i.
Let visible_htf := match htf_filter d with
  | None => htf_bars h
  | Some f => match parse_candle_interval (htf_timeframe f) with Ok j => closed_bars close j (htf_bars h) | Raise _ => [] end end.

Context (extras : list (string * row_map)) (refs refs' : gmap string row_map) (htfs : row_map).
Hypothesis Hextras : calculate_extra_indicator_rows d (closed_extra close (extra_bars h)) visible_htf (starts_at candle) close = Ok extras.
Hypothesis Hrefs : calculate_reference_indicator_rows d (closed_references d close (reference_bars h)) (starts_at candle) close false = Ok refs'.
Hypothesis Hcovers : covers refs refs'.
Hypothesis Hhtf : ∀ f, htf_filter d = Some f -> is_ok (parse_candle_interval (htf_timeframe f)) ∧ htf_bars h ≠ [] ∧
  calculate_htf_indicator_rows d visible_htf (starts_at candle) close = Ok htfs.
Hypothesis Hhtf_none : htf_filter d = None -> htf_bars h = [].

Lemma live_visible : _visible_htf d bars (htf_bars h) = Ok visible_htf.
Proof.
  unfold _visible_htf, visible_htf. destruct (htf_filter d) as [f|] eqn:Ef; [|done]. rewrite Hbar; cbn [mbind result_bind].
  rewrite (ltf_close_spec _ _ _ Hclock); cbn [mbind result_bind]. destruct (Hhtf f eq_refl) as [[j Hj] _]. rewrite Hj.
  by apply bars_closed_spec.
Qed.

Lemma live_merged merged :
  overlay_indicator_timeframe_values d candle (Some (starts_at before)) row (Some before_row) extras refs true = Ok merged ->
  _latest_merged_values d bars visible_htf (extra_bars h) (reference_bars h) = Ok merged.
Proof.
  intros H. unfold _latest_merged_values. rewrite Hbar; cbn [mbind result_bind].
  rewrite (ltf_close_spec _ _ _ Hclock); cbn [mbind result_bind].
  rewrite visible_extra_spec by done. cbn [mbind result_bind]. fold close. rewrite Hextras; cbn [mbind result_bind].
  rewrite visible_references_spec by done. cbn [mbind result_bind]. rewrite Hrefs; cbn [mbind result_bind].
  rewrite Hrows; cbn [mbind result_bind]. rewrite Hbefore; cbn [mbind result_bind]. rewrite Hrow; cbn [mbind result_bind].
  rewrite Hbefore_row; cbn [mbind result_bind]. by eapply live_overlay.
Qed.

Lemma live_record r : trace_record d extras refs htfs candle row (Some (before, before_row)) = Ok r ->
  (∃ ev, evaluate_latest_entry_evidence d bars (htf_bars h) (extra_bars h) (reference_bars h) = Ok ev ∧
    latest_outcome ev = entry_condition r ∧ candle_starts_at ev = Some (record_starts_at r) ∧
    canonical_values d (current_values ev) (htf_current ev) = Ok (indicator_values r)) ∧
  (∃ ex, evaluate_latest_signal_exit d bars (htf_bars h) (extra_bars h) (reference_bars h) = Ok ex ∧
    exit_outcome <$> ex = exit_condition r).
Proof.
  unfold trace_record. cbn [fmap option_fmap option_map fst snd].
  intros ([merged previous] & Hm & H)%bind_Ok. apply bind_Ok in H as ([outcome htf_values] & Ho & H).
  apply bind_Ok in H as (entries & Hvalues & ([] & _ & [= <-])%bind_Ok). pose proof (live_merged _ Hm) as Hlive. pose proof live_visible as Hv.
  cbn [entry_condition exit_condition record_starts_at].
  assert ((length bars <? 2)%nat = false) as Hl by (by apply Nat.ltb_ge).
  split.
  - unfold evaluate_latest_entry_evidence. destruct (htf_filter d) as [f|] eqn:Ef.
    + destruct (Hhtf f eq_refl) as (_ & Hne & Hr). rewrite bool_decide_eq_false_2 by done.
      rewrite (bool_decide_eq_false_2 (htf_bars h = [])) by done. cbn [negb andb guard_or mbind result_bind].
      rewrite Hl, Hbar; cbn [mbind result_bind]. rewrite (ltf_close_spec _ _ _ Hclock); cbn [mbind result_bind].
      rewrite Hv; cbn [mbind result_bind]. rewrite Hlive; cbn [mbind result_bind].
      fold close. rewrite Hr; cbn [mbind result_bind]. rewrite Hbefore; cbn [mbind result_bind].
      rewrite Ho; cbn [mbind result_bind]. rewrite (ltf_close_spec _ _ _ Hclock); cbn [mbind result_bind].
      destruct (Hhtf f eq_refl) as [[j Hj] _]. unfold mapped_htf_start. rewrite Hj; cbn [mbind result_bind].
      rewrite last_completed_spec; cbn [mbind result_bind]. eexists. split; [done|]. split; [done|]. split; [done|exact Hvalues].
    + unfold htf_filter_outcome in Ho. rewrite Ef in Ho. injection Ho as <- <-.
      rewrite !(Hhtf_none eq_refl). rewrite !bool_decide_eq_true_2 by done. cbn [negb andb guard_or mbind result_bind].
      rewrite Hl, Hbar; cbn [mbind result_bind]. rewrite (ltf_close_spec _ _ _ Hclock); cbn [mbind result_bind].
      rewrite (Hhtf_none eq_refl) in Hv. rewrite Hv; cbn [mbind result_bind].
      rewrite Hlive; cbn [mbind result_bind]. eexists. split; [done|]. cbn. split; [by destruct (_condition_outcome _ _ _)|]. split; [done|exact Hvalues].
  - unfold evaluate_latest_signal_exit. destruct (signal_exit_condition (exits d)) as [condition|]; [|by exists None].
    rewrite Hl, Hv; cbn [mbind result_bind]. rewrite Hlive; cbn [mbind result_bind]. eexists. by split.
Qed.

End Parity.

Lemma closed_prefix start i E j : require_contiguous start (duration i) 0 E = Ok tt ->
  closed_bars (start + duration i * Z.of_nat j + duration i) i E = take (S j) E.
Proof.
  intros H. pose proof (duration_pos i) as Hd.
  destruct (contiguous_filter start _ 0 E (Z.of_nat j + 1) Hd ltac:(lia) H) as (Hf & _).
  replace (Z.to_nat (Z.of_nat j + 1 - 0)) with (S j) in Hf by lia. rewrite <- Hf. unfold closed_bars.
  apply List.filter_ext_in. intros c (k & Hk)%list_elem_of_In%list_elem_of_lookup.
  rewrite (contiguous_lookup _ _ _ _ _ _ H Hk).
  apply eq_iff_eq_true. rewrite Z.leb_le, Z.ltb_lt. set (m := Z.of_nat j). set (n := Z.of_nat k).
  split; intros; destruct (Z.le_gt_cases n m); nia.
Qed.

Lemma foldM_step {A S'} (f : S' → A → result S') u l v x : foldM f u l = Ok v -> x ∈ l -> ∃ a b, f a x = Ok b.
Proof.
  revert u. induction l as [|y l IH]; intros u; cbn; [by intros _ ?%elem_of_nil|].
  intros (w & Hw & H)%bind_Ok [->|Hx]%elem_of_cons; [by exists u, w|by eapply IH].
Qed.

Lemma parsed_references d references starts ends rows : calculate_reference_indicator_rows d references starts ends true = Ok rows ->
  ∀ r, r ∈ reference_instruments d -> is_ok (parse_candle_interval (reference_timeframe r)).
Proof.
  unfold calculate_reference_indicator_rows. destruct (_ && _); [done|]. intros H r Hr.
  assert ((r, List.filter (λ i, bool_decide (ind_source i = Some (reference_id r))) (indicators d)) ∈ reference_indicator_groups d)
    as Hg by (apply list_elem_of_fmap; by exists r).
  destruct (foldM_step _ _ _ _ _ H Hg) as (a & b & Hab). unfold reference_group_rows in Hab.
  apply bind_Ok in Hab as (w & _ & (expected & He & _)%bind_Ok). by eapply parsed_bar_starts.
Qed.

Lemma parsed_htf d f htf starts ends rows : htf_filter d = Some f -> calculate_htf_indicator_rows d htf starts ends = Ok rows ->
  is_ok (parse_candle_interval (htf_timeframe f)).
Proof.
  unfold calculate_htf_indicator_rows. intros ->. destruct htf; [done|]. intros (expected & He & _)%bind_Ok.
  by eapply parsed_bar_starts.
Qed.

(** A document whose rules read nothing but its decision clock. *)
Definition decision_clock_only (d : StrategyDefinition) : Prop :=
  htf_filter d = None ∧ extra_indicator_timeframe_groups d = [] ∧ reference_instruments d = [].

Section LiveParity.
Context (strategy_fingerprint : StrategyDefinition → string).
Context (research_run_fingerprint : BoundSpecification → string).
Context (s : BoundSpecification) (d : StrategyDefinition) (h : Histories) (i : CandleInterval).

Hypothesis Hinterval : specification_bar_interval s = Ok i.
Hypothesis Hvalid : Forall valid_indicator (decision_and_filter_indicators d).
Hypothesis Hunique : NoDup (reference_id <$> reference_instruments d).
Hypothesis Hclocks : ∀ tf l, extra_bars h !! tf = Some l -> is_ok (parse_candle_interval tf).

(** The other clocks of a run, as a cycle at the bar of a record computes them. *)
Lemma live_clocks extras refs htfs candle row before r :
  calculate_extra_indicator_rows d (extra_bars h) (htf_bars h) (evaluation_starts_at s) (evaluation_ends_at s) = Ok extras ->
  calculate_reference_indicator_rows d (reference_bars h) (evaluation_starts_at s) (evaluation_ends_at s) true = Ok refs ->
  _htf_indicator_rows s d (htf_bars h) = Ok htfs ->
  starts_at candle = evaluation_starts_at s ∧ starts_at candle + duration i = evaluation_ends_at s ∨ decision_clock_only d ->
  trace_record d extras refs htfs candle row before = Ok r ->
  let close := starts_at candle + duration i in
  let visible := match htf_filter d with
    | None => htf_bars h
    | Some f => match parse_candle_interval (htf_timeframe f) with Ok j => closed_bars close j (htf_bars h) | Raise _ => [] end end in
  calculate_extra_indicator_rows d (closed_extra close (extra_bars h)) visible (starts_at candle) close = Ok extras ∧
  (∃ refs', calculate_reference_indicator_rows d (closed_references d close (reference_bars h)) (starts_at candle) close false = Ok refs' ∧
     covers refs refs') ∧
  (∀ r, r ∈ reference_instruments d -> is_ok (parse_candle_interval (reference_timeframe r))) ∧
  (∀ f, htf_filter d = Some f -> is_ok (parse_candle_interval (htf_timeframe f)) ∧ htf_bars h ≠ [] ∧
     calculate_htf_indicator_rows d visible (starts_at candle) close = Ok htfs) ∧
  (htf_filter d = None -> htf_bars h = []).
Proof.
  intros Hex Hre Hht Hcase Hr close visible.
  assert (htf_filter d = None -> htf_bars h = []) as Hnone.
  { intros Hf. unfold _htf_indicator_rows, calculate_htf_indicator_rows in Hht. rewrite Hf in Hht.
    destruct (htf_dataset_fingerprint s); [done|]. by destruct (htf_bars h). }
  unfold trace_record in Hr. apply bind_Ok in Hr as ([merged previous] & Hm & Hr). apply bind_Ok in Hr as ([outcome hv] & Ho & _).
  destruct Hcase as [[Hs He]|(Hf & Hg & Hrefs)].
  - rewrite <- Hs in *. fold close in He. unfold _htf_indicator_rows in Hht. rewrite <- Hs, <- He in *.
    assert (∀ r, r ∈ reference_instruments d -> is_ok (parse_candle_interval (reference_timeframe r))) as Hparse.
    { by eapply parsed_references. }
    destruct (live_reference_rows d _ _ _ _ Hunique Hre) as (refs' & Hre' & Hc).
    destruct (live_overlay _ _ _ _ _ _ _ _ _ Hc Hm) as [_ Hne].
    split; [|split; [by exists refs'|split; [done|split; [|done]]]].
    + eapply live_extra_rows; [|exact Hex|exact Hne]. intros f j Hf Hj. unfold visible. by rewrite Hf, Hj.
    + intros f Hf. assert (calculate_htf_indicator_rows d (htf_bars h) (starts_at candle) close = Ok htfs) as Hrows
        by (rewrite Hf in Hht; by destruct (htf_dataset_fingerprint s)). clear Hht.
      destruct (parsed_htf _ _ _ _ _ _ Hf Hrows) as [j Hj]. split; [by exists j|].
      split; [intros Hnil; unfold calculate_htf_indicator_rows in Hrows; by rewrite Hf, Hnil in Hrows|].
      unfold visible. rewrite Hf, Hj. apply (live_htf_rows d f); [done..|]. by eapply htf_outcome_nonempty.
  - assert (refs = ∅) as ->.
    { unfold calculate_reference_indicator_rows, reference_indicator_groups in Hre. rewrite Hrefs in Hre.
      destruct (_ && _); [done|]. by injection Hre as <-. }
    unfold calculate_extra_indicator_rows in *. rewrite Hg in *. cbn in Hex |- *. injection Hex as <-.
    split; [done|]. split; [|split; [by rewrite Hrefs; intros ? ?%elem_of_nil|split; [congruence|done]]].
    exists ∅. split; [|intros ?; by left]. unfold calculate_reference_indicator_rows, reference_indicator_groups.
    rewrite Hrefs, andb_false_r. done.
Qed.

(** C30: paper and live see the signals research saw. For every record of a research trace, a cycle
    that is given the run's decision bars up to that bar, and the other clocks' bars uncut,
    reaches the entry outcome, the indicator values and the exit outcome of the record: for every
    bar of a document that reads only its decision clock, and for any document on the bar of a
    run that evaluates one bar, where both sides start every other clock at the same bar. *)
Theorem live_signals_match_research trace r :
  evaluation_ends_at s = evaluation_starts_at s + duration i ∨ decision_clock_only d ->
  1 <= warmup_window_bars s ->
  signals strategy_fingerprint research_run_fingerprint s d h = Ok trace -> r ∈ trace_records trace ->
  let bars := closed_bars (record_starts_at r + duration i) i (_select_window_candles s (decision_bars h)) in
  (∃ ev, evaluate_latest_entry_evidence d bars (htf_bars h) (extra_bars h) (reference_bars h) = Ok ev ∧
    latest_outcome ev = entry_condition r ∧ candle_starts_at ev = Some (record_starts_at r) ∧
    canonical_values d (current_values ev) (htf_current ev) = Ok (indicator_values r)) ∧
  (∃ ex, evaluate_latest_signal_exit d bars (htf_bars h) (extra_bars h) (reference_bars h) = Ok ex ∧
    exit_outcome <$> ex = exit_condition r).
Proof.
  intros Hcase Hwarm H Hr bars. unfold signals, evaluate_signal_trace in H. apply bind_Ok in H as ([] & Hcon & H).
  destruct (bar_interval_spec _ _ Hinterval) as (Hspan & _ & _ & [e He] & _).
  destruct (contract_replay _ _ _ (evaluation_ends_at s) _ Hinterval ltac:(by exists e) Hcon) as (_ & Htf & _).
  apply bind_Ok in H as (E & HE & (rows & Hrows & (extras & Hex & (refs & Hre & (htfs & Hht & (zipped & Hz & (records & Hrec & Hval)%bind_Ok)%bind_Ok)%bind_Ok)%bind_Ok)%bind_Ok)%bind_Ok).
  rewrite (validate_trace_id _ _ Hval) in Hr. cbn [trace_records] in Hr. clear Hval Hcon.
  destruct (trace_loop_member _ _ _ _ _ _ Hrec Hr) as (j & candle & row & Hj & Hfrom & Hrecord).
  pose proof (trace_record_starts _ _ _ _ _ _ _ _ Hrecord) as Hstarts.
  pose proof (zip_strict_length _ _ _ Hz) as (Hlen & _ & ->).
  unfold _required_candles in HE. rewrite Hinterval in HE; cbn [mbind result_bind] in HE.
  apply bind_Ok in HE as ([] & Hcount%guard_or_Ok%Z.eqb_eq & ([] & Hgrid & [= HE])%bind_Ok). rewrite HE in *.
  apply lookup_zip_Some in Hj as [HEj Hrj]. pose proof (contiguous_lookup _ _ _ _ _ _ Hgrid HEj) as Hat.
  pose proof (duration_pos i) as Hd. pose proof (lookup_lt_Some _ _ _ HEj) as Hjlt.
  destruct j as [|j]; [nia|].
  destruct (lookup_lt_is_Some_2 E j ltac:(lia)) as [before Hb].
  destruct (lookup_lt_is_Some_2 rows j ltac:(lia)) as [before_row Hbr].
  rewrite (proj2 (lookup_zip_Some _ _ _ _ _) (conj Hb Hbr)) in Hrecord.
  assert (bars = take (S (S j)) E) as ->.
  { subst bars. rewrite Hstarts, Hat, HE. by apply closed_prefix. }
  assert (starts_at candle = evaluation_starts_at s ∧ starts_at candle + duration i = evaluation_ends_at s ∨ decision_clock_only d) as Hcase'.
  { destruct Hcase as [Hone|]; [left|by right]. rewrite Hone in Hcount |- *.
    replace (evaluation_starts_at s + duration i - evaluation_starts_at s) with (1 * duration i) in Hcount by lia.
    rewrite Z.quot_mul in Hcount by lia. unfold Zlen in Hcount. assert (Z.of_nat (S j) = warmup_window_bars s) as Hw by nia.
    rewrite Hw in Hat. lia. }
  destruct (live_clocks _ _ _ _ _ _ _ Hex Hre Hht Hcase' Hrecord) as (Hex' & (refs' & Hre' & Hcov) & Hparse & Hhtf & Hnone).
  apply signal_rows_calculated in Hrows.
  eapply (live_record d i h candle before row before_row _ (take (S (S j)) rows)); try done.
  - by apply (from_end_take E (S j) 0); [lia|rewrite Nat.sub_0_r|].
  - by apply (from_end_take E (S j) 1); [lia|cbn; rewrite Nat.sub_0_r|].
  - rewrite length_take. lia.
  - apply indicator_rows_cut; [by apply filtered_valid|done].
  - apply (from_end_take rows (S j) 0); [lia|by rewrite Nat.sub_0_r|lia].
  - apply (from_end_take rows (S j) 1); [lia|cbn; by rewrite Nat.sub_0_r|lia].
Qed.

End LiveParity.

(** ** A cycle at the first bar of the worked run, which reads a six-hour clock *)

Lemma live_signals_match_research_witness : ∃ trace r ev,
  signals (λ _, "sha256:strategy"%string) (λ _, "sha256:run"%string) (SignalCausality.as_of breakout_run (241 * hour)) breakout_strategy
    (breakout_history 110) = Ok trace ∧ r ∈ trace_records trace ∧
  evaluate_latest_entry_evidence breakout_strategy
    (closed_bars (record_starts_at r + hour) ONE_HOUR
      (_select_window_candles (SignalCausality.as_of breakout_run (241 * hour)) (decision_bars (breakout_history 110))))
    [] (extra_bars (breakout_history 110)) ∅ = Ok ev ∧ latest_outcome ev = entry_condition r.
Proof.
  eexists _, _.
  destruct (live_signals_match_research (λ _, "sha256:strategy"%string) (λ _, "sha256:run"%string)
    (SignalCausality.as_of breakout_run (241 * hour)) breakout_strategy (breakout_history 110) ONE_HOUR ltac:(reflexivity)
    ltac:(repeat constructor; vm_compute; reflexivity) ltac:(constructor)
    ltac:(intros tf l; unfold breakout_history; cbn [extra_bars]; intros [<- _]%lookup_singleton_Some; by eexists)
    _ _ ltac:(by left) ltac:(done) ltac:(vm_compute; reflexivity) ltac:(left)) as [(ev & He & Ho & _) _].
  exists ev. split; [vm_compute; reflexivity|]. split; [left|]. split; [exact He|exact Ho].
Defined.
