(* ===== verification/LiveWindows.v ===== *)
(** * LiveWindows: the windows a running book reads

    [execution/clock_windows.py], [execution/references.py], [execution/candle_wait.py] and the
    signal age of [execution/freshness.py]. Every clock is fetched from a fixed start before the
    deployment's creation; the windows so sized cover whatever a later decision reads. *)

From S2P Require Import Prelude Decimals DecimalText Market Geometry IndicatorSpec Conditions.
From S2P Require Import Convergence Strategy Alignment Series IndicatorMath Indicators.
From S2P Require Import KernelState KernelRun SignalTrace SignalCausality LiveSignals.

Open Scope Z_scope.

(** ** Sizes *)

Record ClockWindow := {
  window_product_id : string;
  window_timeframe : string;
  window_warmup_bars : Z;
  window_starts_at : datetime;
  role : string
}.

(** [evaluation.models.warmup_starts_at] *)
Definition warmup_window_start (evaluation_starts_at : datetime) (bars : Z) (timeframe : string) : result datetime :=
  interval ← parse_candle_interval timeframe;
  _ ← guard_or (bool_decide (timeframe ∈ EXECUTION_TIMEFRAMES))
        (ValueError "warmup windows require an ingested venue strategy timeframe.");
  Ok (evaluation_starts_at - duration interval * bars).

Definition required_clock_warmup_bars (d : StrategyDefinition) (clock : string) (warmup_bars : Z) (deploy_anchor : datetime)
    : result Z :=
  decision_interval ← parse_candle_interval (timeframe d);
  bucket ← entry_bar_bucket deploy_anchor (timeframe d);
  let first_decision := bucket - duration decision_interval in
  first_close ← ltf_close first_decision (timeframe d);
  coverage ← closed_bar_required_coverage first_decision first_close clock (Z.to_nat warmup_bars);
  interval ← parse_candle_interval clock;
  deploy_bucket ← entry_bar_bucket deploy_anchor clock;
  Ok (Z.max warmup_bars ((deploy_bucket - coverage.1) / duration interval)).

(** The warmup of the extra-timeframe indicators on one clock, if there are any. *)
Definition extra_timeframe_warmup (d : StrategyDefinition) (clock : string) : result (option nat) :=
  match find (λ group : string * list IndicatorDefinition, bool_decide (group.1 = clock)) (extra_indicator_timeframe_groups d) with
  | None => Ok None
  | Some group => warmup ← group_warmup d group.2; Ok (Some warmup)
  end.

Definition shared_clock_union_warmup (d : StrategyDefinition) (clock : string) (warmup_bars : Z) (deploy_anchor : datetime)
    : result Z :=
  needed ← required_clock_warmup_bars d clock warmup_bars deploy_anchor;
  extra ← extra_timeframe_warmup d clock;
  match extra with
  | None => Ok needed
  | Some extra => more ← required_clock_warmup_bars d clock (Z.of_nat extra) deploy_anchor; Ok (Z.max needed more)
  end.

Definition _window (product_id clock : string) (warmup_bars : Z) (deploy_anchor : datetime) (role : string) : result ClockWindow :=
  bucket ← entry_bar_bucket deploy_anchor clock;
  starts ← warmup_window_start bucket warmup_bars clock;
  Ok {| window_product_id := product_id; window_timeframe := clock; window_warmup_bars := warmup_bars;
        window_starts_at := starts; role := role |}.

Record ReferenceDataRequirement := {
  requirement_reference_id : string;
  requirement_product_id : string;
  requirement_timeframe : string;
  requirement_warmup_bars : nat;
  requirement_fields : list source_field
}.

Definition reference_data_requirements (d : StrategyDefinition) : result (list ReferenceDataRequirement) :=
  result_mapM (λ group : ReferenceInstrument * list IndicatorDefinition,
    warmup ← group_warmup d group.2;
    Ok {| requirement_reference_id := reference_id group.1; requirement_product_id := reference_product_id group.1;
          requirement_timeframe := reference_timeframe group.1; requirement_warmup_bars := warmup;
          requirement_fields := extra_indicator_required_fields group.2 |})
    (List.filter (λ group : ReferenceInstrument * list IndicatorDefinition, negb (bool_decide (group.2 = [])))
      (reference_indicator_groups d)).

(** The windows of one covered product: its decision clock, the filter's, the other clocks. *)
Definition product_windows (d : StrategyDefinition) (deploy_anchor : datetime) (product_id : string) : result (list ClockWindow) :=
  decision ← _window product_id (timeframe d) (Z.of_nat (warmup_bars (data_requirements d))) deploy_anchor "decision clock";
  filter ← match htf_filter d with
    | None => Ok []
    | Some f =>
        union ← shared_clock_union_warmup d (htf_timeframe f) (Z.of_nat (warmup_bars (htf_data_requirements f))) deploy_anchor;
        w ← _window product_id (htf_timeframe f) union deploy_anchor "HTF filter"; Ok [w]
    end;
  others ← result_mapM (λ group : string * list IndicatorDefinition,
      extra ← extra_timeframe_warmup d group.1;
      warmup ← required_clock_warmup_bars d group.1 (Z.of_nat (default O extra)) deploy_anchor;
      _window product_id group.1 warmup deploy_anchor "indicator timeframe")
    (List.filter (λ group : string * list IndicatorDefinition,
      negb (bool_decide (Some group.1 = option_map htf_timeframe (htf_filter d)))) (extra_indicator_timeframe_groups d));
  Ok (decision :: filter ++ others).

Definition reference_window (d : StrategyDefinition) (deploy_anchor : datetime) (r : ReferenceDataRequirement) : result ClockWindow :=
  warmup ← required_clock_warmup_bars d (requirement_timeframe r) (Z.of_nat (requirement_warmup_bars r)) deploy_anchor;
  _window (requirement_product_id r) (requirement_timeframe r) warmup deploy_anchor ("reference " +:+ requirement_reference_id r).

Definition deployment_clock_windows (d : StrategyDefinition) (deploy_anchor : datetime) : result (list ClockWindow) :=
  products ← result_mapM (product_windows d deploy_anchor) (lockstep_product_ids d);
  requirements ← reference_data_requirements d;
  references ← result_mapM (reference_window d deploy_anchor) requirements;
  Ok (concat products ++ references).

(** ** Warmup held by the windows of one decision bar *)

(** [for bars, timeframe, warmup in required: ... return False]; the loop stops at the first. *)
Fixpoint all_reach_back (latest decision_close : datetime) (required : list (list Candle * string * nat)) : result bool :=
  match required with
  | [] => Ok true
  | (bars, clock, warmup) :: required =>
      coverage ← closed_bar_required_coverage latest decision_close clock warmup;
      match bars with
      | [] => Ok false
      | first :: _ => if coverage.1 <? starts_at first then Ok false else all_reach_back latest decision_close required
      end
  end.

Definition windows_hold_warmup (d : StrategyDefinition) (candles htf_candles : list Candle) (extra : list (string * list Candle))
    : result bool :=
  if (length candles <? Nat.max (warmup_bars (data_requirements d)) 1)%nat then Ok false
  else
    latest ← from_end candles 1;
    decision_close ← ltf_close (starts_at latest) (timeframe d);
    let filter := match htf_filter d with
      | None => []
      | Some f => [(htf_candles, htf_timeframe f, warmup_bars (htf_data_requirements f))] end in
    others ← result_mapM (λ item : string * list Candle, warmup ← extra_timeframe_warmup d item.1; Ok (item, warmup)) extra;
    all_reach_back (starts_at latest) decision_close
      (filter ++ omap (λ o : (string * list Candle) * option nat, match o.2 with Some w => Some (o.1.2, o.1.1, w) | None => None end) others).

(** ** References *)

Inductive ReferenceGate := REFERENCE_DATA_STALE (reference_id : string) | REFERENCE_DATA_MISSING (reference_id : string).

Definition _requirement_gate (r : ReferenceDataRequirement) (candles : list Candle) (decision_close : datetime)
    (decision_timeframe : string) : result (option ReferenceGate) :=
  visible ← bars_closed_at_or_before candles decision_close (requirement_timeframe r);
  match last visible with
  | None => Ok (Some (REFERENCE_DATA_MISSING (requirement_reference_id r)))
  | Some newest =>
      expected_last ← mapped_htf_start decision_close (requirement_timeframe r);
      if starts_at newest <? expected_last then Ok (Some (REFERENCE_DATA_STALE (requirement_reference_id r)))
      else
        decision_starts_at ← mapped_htf_start decision_close decision_timeframe;
        required ← closed_bar_starts decision_starts_at decision_close (requirement_timeframe r) (requirement_warmup_bars r);
        if existsb (λ start, negb (bool_decide (start ∈ starts_at <$> visible))) required
        then Ok (Some (REFERENCE_DATA_MISSING (requirement_reference_id r)))
        else Ok None
  end.

(** The first requirement that is not ready, in declaration order. *)
Fixpoint requirement_gates (d : StrategyDefinition) (references : gmap string (list Candle)) (decision_close : datetime)
    (requirements : list ReferenceDataRequirement) : result (option ReferenceGate) :=
  match requirements with
  | [] => Ok None
  | r :: requirements =>
      gate ← _requirement_gate r (default [] (references !! requirement_reference_id r)) decision_close (timeframe d);
      match gate with Some gate => Ok (Some gate) | None => requirement_gates d references decision_close requirements end
  end.

Definition reference_gate (d : StrategyDefinition) (references : gmap string (list Candle)) (decision_close : datetime)
    : result (option ReferenceGate) :=
  requirements ← reference_data_requirements d; requirement_gates d references decision_close requirements.

(** ** The newest bar *)

Definition NEWEST_BAR_SETTLE_SECONDS : Z := 120.

(** Exactly one newest bar is absent, the history before it is contiguous, and time is left. *)
Definition newest_bar_settling (candles : list Candle) (expected_last_start : datetime) (bar_duration : timedelta) (now : datetime)
    : bool :=
  match last candles with
  | None => false
  | Some newest =>
      if negb (starts_at newest =? expected_last_start - bar_duration) then false
      else if existsb (λ pair : Candle * Candle, negb (starts_at pair.2 - starts_at pair.1 =? bar_duration))
                (zip candles (tail candles)) then false
      else
        let closed_at := expected_last_start + bar_duration in
        (closed_at <=? now) && (now <? closed_at + NEWEST_BAR_SETTLE_SECONDS * second)
  end.

Definition _SIGNAL_GRACE_SECONDS : Z := 300.

(** Ages are compared in seconds with their fraction, here in microseconds. *)
Definition signal_still_valid (candle : Candle) (clock : string) (now : datetime) (current_quote : option decimal) : result bool :=
  interval ← parse_candle_interval clock;
  let age := now - starts_at candle in
  let max_age := duration interval * 2 + _SIGNAL_GRACE_SECONDS * second in
  if (age <? 0) || (max_age <=? age) then Ok false
  else Ok match current_quote with None => true | Some q => (d0 <? q)%dec end.

Definition marketable_quote_mark (candle : Candle) (venue_price : option decimal) : decimal :=
  match venue_price with Some price => if (d0 <? price)%dec then price else close candle | None => close candle end.

(** ** A deployment's windows cover every later decision *)

Lemma coverage_spec starts ends clock warmup j : parse_candle_interval clock = Ok j ->
  closed_bar_required_coverage starts ends clock warmup =
  Ok (starts / duration j * duration j - duration j * Z.of_nat warmup, ends / duration j * duration j).
Proof.
  intros Hp. unfold closed_bar_required_coverage. rewrite Hp; cbn [mbind result_bind].
  rewrite !last_completed_spec; cbn [mbind result_bind]. f_equal. f_equal; lia.
Qed.

(** The window of a clock starts no later than what any decision from the first one on reads. *)
Lemma clock_window_covers d i clock warmup anchor bucket needed product role w t : parse_candle_interval (timeframe d) = Ok i ->
  entry_bar_bucket anchor (timeframe d) = Ok bucket ->
  required_clock_warmup_bars d clock (Z.of_nat warmup) anchor = Ok needed ->
  ∀ bars, needed <= bars -> _window product clock bars anchor role = Ok w -> bucket - duration i <= t ->
  window_product_id w = product ∧ window_timeframe w = clock ∧
  ∃ coverage, closed_bar_required_coverage t (t + duration i) clock warmup = Ok coverage ∧ window_starts_at w <= coverage.1.
Proof.
  intros Hi Hb Hn bars Hle Hw Ht. unfold required_clock_warmup_bars in Hn. rewrite Hi, Hb in Hn; cbn [mbind result_bind] in Hn.
  rewrite (ltf_close_spec _ _ _ Hi) in Hn; cbn [mbind result_bind] in Hn. rewrite Nat2Z.id in Hn.
  apply bind_Ok in Hn as (cov & Hcov & (j & Hj & (db & Hdb & [= Hn])%bind_Ok)%bind_Ok).
  rewrite (coverage_spec _ _ _ _ _ Hj) in Hcov. injection Hcov as <-. cbn [fst] in Hn.
  unfold _window in Hw. rewrite Hdb in Hw; cbn [mbind result_bind] in Hw. apply bind_Ok in Hw as (starts & Hstarts & [= <-]).
  unfold warmup_window_start in Hstarts. rewrite Hj in Hstarts; cbn [mbind result_bind] in Hstarts.
  apply bind_Ok in Hstarts as ([] & _ & [= <-]). cbn [window_product_id window_timeframe window_starts_at].
  split; [done|]. split; [done|]. eexists. split; [by apply coverage_spec|]. cbn [fst].
  destruct (entry_bar_bucket_contains _ _ _ _ Hj Hdb) as [[k Hk] _]. pose proof (duration_pos j) as Hd.
  pose proof (Z.div_le_mono _ _ (duration j) Hd Ht) as Hfloor. set (q := (bucket - duration i) / duration j) in *.
  rewrite Hk in Hn. replace (k * duration j - (q * duration j - duration j * Z.of_nat warmup))
    with ((k - q + Z.of_nat warmup) * duration j) in Hn by lia. rewrite Z.div_mul in Hn by lia. nia.
Qed.

Lemma extra_group_unique d clock g g' : (clock, g) ∈ extra_indicator_timeframe_groups d ->
  (clock, g') ∈ extra_indicator_timeframe_groups d -> g = g'.
Proof.
  assert (∀ c x, (c, x) ∈ extra_indicator_timeframe_groups d ->
    x = List.filter (λ i, bool_decide (resolved_indicator_timeframe i (timeframe d) = c)) (indicators d)) as H;
    [|intros Hg Hg'; by rewrite (H _ _ Hg), (H _ _ Hg')].
  intros c x. unfold extra_indicator_timeframe_groups. intros (l & Hin & H)%list_elem_of_In%in_concat.
  apply in_map_iff in Hin as (t & <- & _). destruct (bool_decide _); [done|]. destruct (List.filter _ _) eqn:E; [done|].
  destruct H as [[= <- <-]|[]]. by rewrite <- E.
Qed.

Lemma mapM_member {A B} (f : A → result B) l k x : result_mapM f l = Ok k -> x ∈ l -> ∃ y, y ∈ k ∧ f x = Ok y.
Proof.
  revert k. induction l as [|a l IH]; intros k; cbn; [by intros _ ?%elem_of_nil|].
  intros (y & Hy & (r & Hr & [= <-])%bind_Ok)%bind_Ok [->|Hx]%elem_of_cons; [exists y; split; [left|done]|].
  destruct (IH r Hr Hx) as (z & Hz & Hf). exists z. split; [by right|done].
Qed.

(** What a decision bar reads besides its own clock: a product, a clock and a warmup. *)
Inductive clock_read (d : StrategyDefinition) : string → string → nat → Prop :=
  | filter_read product f : product ∈ lockstep_product_ids d -> htf_filter d = Some f ->
      clock_read d product (htf_timeframe f) (warmup_bars (htf_data_requirements f))
  | extra_read product clock group warmup : product ∈ lockstep_product_ids d ->
      (clock, group) ∈ extra_indicator_timeframe_groups d -> group_warmup d group = Ok warmup ->
      clock_read d product clock warmup
  | reference_read r group warmup : (r, group) ∈ reference_indicator_groups d -> group ≠ [] ->
      group_warmup d group = Ok warmup -> clock_read d (reference_product_id r) (reference_timeframe r) warmup.

Lemma extra_warmup_found d clock group warmup : (clock, group) ∈ extra_indicator_timeframe_groups d ->
  group_warmup d group = Ok warmup -> extra_timeframe_warmup d clock = Ok (Some warmup).
Proof.
  intros Hg Hw. unfold extra_timeframe_warmup. destruct (find _ _) as [[c g]|] eqn:E.
  - apply find_some in E as [Hin%list_elem_of_In Hc%bool_decide_eq_true]. cbn in Hc. subst c.
    rewrite (extra_group_unique _ _ _ _ Hin Hg). cbn [snd]. by rewrite Hw.
  - apply list_elem_of_In in Hg. pose proof (find_none _ _ E _ Hg) as Hn. cbn in Hn. by rewrite bool_decide_eq_true_2 in Hn.
Qed.

(** The decision clock's own window holds a warmup of bars up to and with the decision bar. *)
Lemma decision_window_covers d anchor windows i bucket t product : parse_candle_interval (timeframe d) = Ok i ->
  entry_bar_bucket anchor (timeframe d) = Ok bucket -> deployment_clock_windows d anchor = Ok windows ->
  bucket - duration i <= t -> product ∈ lockstep_product_ids d ->
  ∃ w, w ∈ windows ∧ window_product_id w = product ∧ window_timeframe w = timeframe d ∧
    window_starts_at w + Z.of_nat (warmup_bars (data_requirements d)) * duration i <= t + duration i.
Proof.
  intros Hi Hb H Ht Hprod. unfold deployment_clock_windows in H. apply bind_Ok in H as (products & Hp & H).
  apply bind_Ok in H as (requirements & _ & (references & _ & [= <-])%bind_Ok).
  destruct (mapM_member _ _ _ _ Hp Hprod) as (ws & Hws & Hpw). unfold product_windows in Hpw.
  apply bind_Ok in Hpw as (dw & Hdw & (fw & _ & (ows & _ & [= <-])%bind_Ok)%bind_Ok). exists dw. split.
  { apply elem_of_app. left. rewrite list_elem_of_In. apply in_concat. eexists. split; [by apply list_elem_of_In|]. by left. }
  unfold _window in Hdw. rewrite Hb in Hdw; cbn [mbind result_bind] in Hdw. apply bind_Ok in Hdw as (starts & Hs & [= <-]).
  unfold warmup_window_start in Hs. rewrite Hi in Hs; cbn [mbind result_bind] in Hs. apply bind_Ok in Hs as ([] & _ & [= <-]).
  cbn [window_product_id window_timeframe window_starts_at]. split; [done|]. split; [done|]. lia.
Qed.

(** The window of every other clock a decision bar reads starts where the evaluator requires. *)
Lemma read_window_covers d anchor windows i bucket t product clock warmup :
  parse_candle_interval (timeframe d) = Ok i -> entry_bar_bucket anchor (timeframe d) = Ok bucket ->
  deployment_clock_windows d anchor = Ok windows -> bucket - duration i <= t -> clock_read d product clock warmup ->
  ∃ w, w ∈ windows ∧ window_product_id w = product ∧ window_timeframe w = clock ∧
    ∃ coverage, closed_bar_required_coverage t (t + duration i) clock warmup = Ok coverage ∧ window_starts_at w <= coverage.1.
Proof.
  intros Hi Hb H Ht Hread. unfold deployment_clock_windows in H.
  apply bind_Ok in H as (products & Hp & (requirements & Hq & (references & Hr & [= <-])%bind_Ok)%bind_Ok).
  destruct Hread as [product f Hprod Hf|product clock group warmup Hprod Hg Hw|r group warmup Hg Hne Hw].
  - destruct (mapM_member _ _ _ _ Hp Hprod) as (ws & Hws & Hpw). unfold product_windows in Hpw. rewrite Hf in Hpw.
    apply bind_Ok in Hpw as (dw & _ & (fw & Hfw & (ows & _ & [= <-])%bind_Ok)%bind_Ok).
    apply bind_Ok in Hfw as (union & Hu & (w & Hwin & [= <-])%bind_Ok). unfold shared_clock_union_warmup in Hu.
    apply bind_Ok in Hu as (needed & Hn & (extra & He & Hu)%bind_Ok).
    assert (needed <= union) as Hle
      by (destruct extra; [apply bind_Ok in Hu as (more & _ & Hu)|]; injection Hu as Hu; lia).
    exists w. split; [|by eapply clock_window_covers]. apply elem_of_app. left. rewrite list_elem_of_In. apply in_concat.
    eexists. split; [by apply list_elem_of_In|]. cbn. auto.
  - destruct (mapM_member _ _ _ _ Hp Hprod) as (ws & Hws & Hpw). unfold product_windows in Hpw.
    apply bind_Ok in Hpw as (dw & _ & (fw & Hfw & (ows & Ho & [= <-])%bind_Ok)%bind_Ok).
    pose proof (extra_warmup_found _ _ _ _ Hg Hw) as Hew.
    destruct (decide (Some clock = option_map htf_timeframe (htf_filter d))) as [Hc|Hc].
    + destruct (htf_filter d) as [f|]; [|done]. injection Hc as ->.
      apply bind_Ok in Hfw as (union & Hu & (w & Hwin & [= <-])%bind_Ok). unfold shared_clock_union_warmup in Hu.
      rewrite Hew in Hu. apply bind_Ok in Hu as (needed & Hn & Hu). cbn [mbind result_bind] in Hu.
      apply bind_Ok in Hu as (more & Hm & [= <-]).
      exists w. split; [|by apply (clock_window_covers d i _ warmup anchor bucket more _ "HTF filter" w t Hi Hb Hm (Z.max needed more)); [lia|..]]. apply elem_of_app. left. rewrite list_elem_of_In. apply in_concat.
      eexists. split; [by apply list_elem_of_In|]. cbn. auto.
    + assert ((clock, group) ∈ List.filter (λ group : string * list IndicatorDefinition,
        negb (bool_decide (Some group.1 = option_map htf_timeframe (htf_filter d)))) (extra_indicator_timeframe_groups d)) as Hin
        by (apply elem_of_filter_bool; cbn; by rewrite bool_decide_eq_false_2).
      destruct (mapM_member _ _ _ _ Ho Hin) as (w & Hwin & Hwf). cbn [fst] in Hwf. rewrite Hew in Hwf. cbn [mbind result_bind] in Hwf.
      apply bind_Ok in Hwf as (needed & Hn & Hwf). cbn [default from_option] in Hn.
      exists w. split; [|by eapply clock_window_covers]. apply elem_of_app. left. rewrite list_elem_of_In. apply in_concat.
      eexists. split; [by apply list_elem_of_In|]. right. apply in_or_app. right. by apply list_elem_of_In.
  - assert ((r, group) ∈ List.filter (λ group : ReferenceInstrument * list IndicatorDefinition, negb (bool_decide (group.2 = [])))
      (reference_indicator_groups d)) as Hin by (apply elem_of_filter_bool; cbn; by rewrite bool_decide_eq_false_2).
    destruct (mapM_member _ _ _ _ Hq Hin) as (q & Hqin & Hqf). cbn [fst snd] in Hqf. rewrite Hw in Hqf. cbn [mbind result_bind] in Hqf.
    injection Hqf as <-. destruct (mapM_member _ _ _ _ Hr Hqin) as (w & Hwin & Hwf). unfold reference_window in Hwf.
    cbn [requirement_timeframe requirement_warmup_bars requirement_product_id] in Hwf.
    apply bind_Ok in Hwf as (needed & Hn & Hwf). exists w. split; [|by eapply clock_window_covers].
    apply elem_of_app. by right.
Qed.

(** C32: the windows a deployment is sized with cover every later decision, from the first bar
    evaluated after the deployment on. For every product some window of its decision clock holds
    the document's warmup up to and with the decision bar. For each other clock a decision bar
    reads (the filter's, every extra timeframe's, every reference's), some window of that product
    and clock starts at or before the first bar the evaluator requires, the indicators that share
    the filter's clock included. *)
Theorem deployment_windows_cover d anchor windows i bucket t :
  parse_candle_interval (timeframe d) = Ok i -> entry_bar_bucket anchor (timeframe d) = Ok bucket ->
  deployment_clock_windows d anchor = Ok windows -> bucket - duration i <= t ->
  (∀ product, product ∈ lockstep_product_ids d -> ∃ w, w ∈ windows ∧ window_product_id w = product ∧
     window_timeframe w = timeframe d ∧
     window_starts_at w + Z.of_nat (warmup_bars (data_requirements d)) * duration i <= t + duration i) ∧
  (∀ product clock warmup, clock_read d product clock warmup -> ∃ w, w ∈ windows ∧ window_product_id w = product ∧
     window_timeframe w = clock ∧
     ∃ coverage, closed_bar_required_coverage t (t + duration i) clock warmup = Ok coverage ∧ window_starts_at w <= coverage.1).
Proof.
  intros Hi Hb H Ht. split; [intros product; by eapply decision_window_covers|].
  intros product clock warmup. by eapply read_window_covers.
Qed.

(** ** A ready reference is read *)

Lemma required_candles_total expected cs : NoDup (starts_at <$> cs) ->
  (∀ c, c ∈ cs -> _require_ohlcv_contract c = Ok tt) -> (∀ t, t ∈ expected -> t ∈ starts_at <$> cs) ->
  is_ok (_required_htf_candles expected cs).
Proof.
  intros Hnd Hok Hin. destruct (index_candles_total cs Hnd) as [m Hm]. unfold _required_htf_candles. rewrite Hm; cbn [mbind result_bind].
  induction expected as [|t expected IH]; [by eexists|]. cbn [result_mapM].
  destruct (proj1 (list_elem_of_fmap _ _ _) (Hin t ltac:(left))) as (c & Ht & Hc).
  rewrite (proj2 (index_candles_lookup _ _ _ _ Hm) (conj Hc (eq_sym Ht))), (Hok c Hc). cbn [mbind result_bind].
  destruct IH as [k Hk]; [intros x Hx; apply Hin; by right|]. rewrite Hk. by eexists.
Qed.

Lemma requirement_gates_None d references close l r : requirement_gates d references close l = Ok None -> r ∈ l ->
  _requirement_gate r (default [] (references !! requirement_reference_id r)) close (timeframe d) = Ok None.
Proof.
  induction l as [|q l IH]; cbn; [by intros _ ?%elem_of_nil|]. intros (gate & Hg & H)%bind_Ok.
  destruct gate; [done|]. intros [->|Hr]%elem_of_cons; auto.
Qed.

(** C31: when the reference gate is silent at a decision close, the lenient evaluation of that bar
    reads every reference an indicator names: the bars closed by then hold exactly the bars it
    requires, warmup included, so none of its values is undefined for want of data. The gate does
    not look at the two other things the selection checks, which are assumed here of the
    reference's series: no two of its bars start together, and each is a valid bar
    ([_require_ohlcv_contract]). *)
Theorem ready_references_are_read d references i latest r group : parse_candle_interval (timeframe d) = Ok i ->
  (duration i | latest) -> reference_gate d references (latest + duration i) = Ok None ->
  NoDup (starts_at <$> default [] (references !! reference_id r)) ->
  (∀ c, c ∈ default [] (references !! reference_id r) -> _require_ohlcv_contract c = Ok tt) ->
  (r, group) ∈ reference_indicator_groups d -> group ≠ [] ->
  ∃ warmup expected visible selected, group_warmup d group = Ok warmup ∧
    closed_bar_starts latest (latest + duration i) (reference_timeframe r) warmup = Ok expected ∧
    bars_closed_at_or_before (default [] (references !! reference_id r)) (latest + duration i) (reference_timeframe r) = Ok visible ∧
    _reference_window visible (reference_label r) expected false = Ok (Some selected) ∧ starts_at <$> selected = expected.
Proof.
  intros Hi Hlatest H Hnd Hok Hg Hne. unfold reference_gate in H. apply bind_Ok in H as (requirements & Hq & H).
  assert ((r, group) ∈ List.filter (λ group : ReferenceInstrument * list IndicatorDefinition, negb (bool_decide (group.2 = [])))
    (reference_indicator_groups d)) as Hin by (apply elem_of_filter_bool; cbn; by rewrite bool_decide_eq_false_2).
  destruct (mapM_member _ _ _ _ Hq Hin) as (q & Hqin & Hqf). apply bind_Ok in Hqf as (warmup & Hw & [= <-]). cbn [fst snd] in *.
  pose proof (requirement_gates_None _ _ _ _ _ H Hqin) as Hgate. unfold _requirement_gate in Hgate.
  cbn [requirement_reference_id requirement_timeframe requirement_warmup_bars] in Hgate.
  set (cs := default [] (references !! reference_id r)) in *.
  apply bind_Ok in Hgate as (visible & Hv & Hgate). destruct (last visible) as [newest|] eqn:El; [|done].
  apply bind_Ok in Hgate as (expected_last & _ & Hgate). destruct (_ <? _); [done|].
  rewrite (mapped_spec _ _ _ Hi) in Hgate; cbn [mbind result_bind] in Hgate.
  destruct Hlatest as [k ->]. replace (k * duration i + duration i) with ((k + 1) * duration i) in * by lia.
  pose proof (duration_pos i). rewrite Z.div_mul in Hgate by lia.
  replace ((k + 1) * duration i - duration i) with (k * duration i) in Hgate by lia.
  apply bind_Ok in Hgate as (expected & He & Hgate). destruct (existsb _ expected) eqn:Ex; [done|].
  assert (∃ j, parse_candle_interval (reference_timeframe r) = Ok j) as [j Hj] by by eapply parsed_bar_starts.
  rewrite (bars_closed_spec _ _ _ _ Hj) in Hv. injection Hv as <-.
  destruct (required_candles_total expected (closed_bars ((k + 1) * duration i) j cs)) as [selected Hs].
  - by apply closed_distinct.
  - intros c [Hc _]%elem_of_closed. by apply Hok.
  - intros t Ht. pose proof (existsb_false _ _ t Ex Ht) as Hb. by apply negb_false_iff, bool_decide_eq_true in Hb.
  - exists warmup, expected, (closed_bars ((k + 1) * duration i) j cs), selected. split; [done|]. split; [done|].
    split; [by apply bars_closed_spec|]. pose proof (required_candles_starts _ _ _ Hs) as [Hst _]. split; [|done].
    unfold _reference_window. rewrite Hs. destruct (closed_bars _ _ _) eqn:E; [done|]. done.
Qed.

(** ** The worked document, with a daily reference *)

Definition gated_strategy : StrategyDefinition := {|
  instrument := instrument demo_strategy; additional_instruments := []; timeframe := "1h";
  data_requirements := {| warmup_bars := 2; convergence_policy := false; required_fields := [close_field];
    reference_instruments_ := [{| reference_id := "btc"; reference_product_id := "BTC-USDC"; reference_timeframe := "1d" |}] |};
  indicators := indicators breakout_strategy ++
    [mk_indicator "regime" HIGHEST (Some (SingleField close_field)) (IndicatorParameters 3) None None (Some "btc"%string)];
  htf_filter := None; entry := entry breakout_strategy; sizing := sizing demo_strategy;
  portfolio_limits := portfolio_limits demo_strategy; exits := exits demo_strategy; execution := execution demo_strategy;
  derivatives := None |}.

Definition daily_bars : gmap string (list Candle) :=
  {[ "btc"%string := imap (λ k price, bar_of ((Z.of_nat k + 6) * day) price) [100; 101; 99; 104] ]}.

(** The bar from 9:00 on the tenth day: the last closed daily bar is the ninth. *)
Example references_ready : reference_gate gated_strategy daily_bars (10 * day + 10 * hour) = Ok None.
Proof. by vm_compute. Qed.

Example reference_stale : reference_gate gated_strategy daily_bars (12 * day) = Ok (Some (REFERENCE_DATA_STALE "btc")).
Proof. by vm_compute. Qed.

Lemma ready_references_are_read_witness : ∃ expected selected,
  closed_bar_starts (10 * day + 9 * hour) (10 * day + 10 * hour) "1d" 3 = Ok expected ∧ starts_at <$> selected = expected ∧
  length selected = 3%nat.
Proof.
  destruct (ready_references_are_read gated_strategy daily_bars ONE_HOUR (10 * day + 9 * hour)
    {| reference_id := "btc"; reference_product_id := "BTC-USDC"; reference_timeframe := "1d" |}
    [mk_indicator "regime" HIGHEST (Some (SingleField close_field)) (IndicatorParameters 3) None None (Some "btc"%string)])
    as (warmup & expected & visible & selected & Hw & He & Hv & Hs & Hst).
  - reflexivity.
  - by exists 249.
  - by vm_compute.
  - apply (bool_decide_eq_true_1 (NoDup _)). by vm_compute.
  - intros c. apply (Forall_forall (λ c, _require_ohlcv_contract c = Ok tt)). repeat constructor; by vm_compute.
  - vm_compute. left.
  - done.
  - vm_compute in Hw. injection Hw as <-. exists expected, selected. split; [exact He|]. split; [exact Hst|].
    rewrite <- (length_fmap starts_at), Hst. vm_compute in He. injection He as <-. done.
Defined.

Definition demo_anchor : datetime := 245 * hour + 17 * minute.

Lemma deployment_windows_cover_witness : ∃ windows own w, deployment_clock_windows gated_strategy demo_anchor = Ok windows ∧
  own ∈ windows ∧ window_timeframe own = timeframe gated_strategy ∧
  window_starts_at own + Z.of_nat (warmup_bars (data_requirements gated_strategy)) * hour <= 253 * hour ∧
  w ∈ windows ∧ window_timeframe w = "6h"%string ∧ window_starts_at w <= 252 * hour / (6 * hour) * (6 * hour) - 6 * hour * 2.
Proof.
  destruct (deployment_clock_windows gated_strategy demo_anchor) as [windows|] eqn:E; [|by vm_compute in E].
  destruct (deployment_windows_cover gated_strategy demo_anchor windows ONE_HOUR (245 * hour) (252 * hour)
    ltac:(reflexivity) ltac:(by vm_compute) E ltac:(by vm_compute)) as [Hown Hread].
  destruct (Hown "BTC-USD"%string ltac:(by vm_compute; left)) as (own & Ho & _ & Hoc & Hos).
  destruct (Hread "BTC-USD"%string "6h"%string 2%nat) as (w & Hw & _ & Ht & coverage & Hc & Hle).
  - eapply extra_read; [by vm_compute; left|vm_compute; left|by vm_compute].
  - exists windows, own, w. split; [done|]. split; [done|]. split; [done|]. split; [exact Hos|]. split; [done|]. split; [done|].
    vm_compute in Hc. injection Hc as <-. exact Hle.
Defined.
