(* ===== verification/Engine.v ===== *)
(** * Engine: what a cycle runs in

    Calendar texts, then the venue, the clock, the store a cycle writes and the programs over
    them ([execution/broker.py], [paper.py], [leases.py], [trading/overlay.py]). *)

From stdpp Require Import pretty.
From S2P Require Import Prelude Decimals Market Geometry Containers TradingModels FillLedger ExecutionStore.
From S2P Require Import StoreSteps Ledger.

Open Scope Z_scope.

(** * The text of an instant

    Instants are microseconds since 1970-01-01 in UTC. [strftime_minute] is
    [instant.strftime("%Y%m%dT%H%M")] and [isoformat] is [instant.isoformat()] of Python's
    [datetime] for an aware UTC instant of the years 1 to 9999, on the proleptic Gregorian
    calendar. *)

(** Years begin in March, so a leap day ends its year; an era is 400 years. *)
Definition civil_from_days (days : Z) : Z * Z * Z :=
  let z := days + 719468 in
  let era := z / 146097 in
  let doe := z mod 146097 in
  let yoe := (doe - doe / 1460 + doe / 36524 - doe / 146096) / 365 in
  let doy := doe - (365 * yoe + yoe / 4 - yoe / 100) in
  let mp := (5 * doy + 2) / 153 in
  let d := doy - (153 * mp + 2) / 5 + 1 in
  let m := if mp <? 10 then mp + 3 else mp - 9 in
  (yoe + era * 400 + (if m <=? 2 then 1 else 0), m, d).

(** A number with leading zeros up to a width. *)
Definition padded (width : nat) (n : Z) : string :=
  let digits := pretty n in
  String.concat "" (repeat "0" (width - String.length digits)) ++ digits.

Definition date_of (instant : datetime) : Z * Z * Z := civil_from_days (instant / day).

Definition strftime_minute (instant : datetime) : string :=
  let '(y, m, d) := date_of instant in
  let time := instant mod day in
  padded 4 y ++ padded 2 m ++ padded 2 d ++ "T" ++ padded 2 (time / hour) ++ padded 2 (time mod hour / minute).

Definition isoformat (instant : datetime) : string :=
  let '(y, m, d) := date_of instant in
  let time := instant mod day in
  let micro := time mod second in
  padded 4 y ++ "-" ++ padded 2 m ++ "-" ++ padded 2 d ++ "T" ++ padded 2 (time / hour) ++ ":"
  ++ padded 2 (time mod hour / minute) ++ ":" ++ padded 2 (time mod minute / second)
  ++ (if micro =? 0 then "" else "." ++ padded 6 micro) ++ "+00:00".

Example isoformat_day : isoformat (20514 * day + 13 * hour + 5 * minute + 1500000) = "2026-03-02T13:05:01.500000+00:00".
Proof. vm_compute. reflexivity. Qed.

Example strftime_leap : strftime_minute (11016 * day + 59 * minute) = "20000229T0059".
Proof. vm_compute. reflexivity. Qed.

(** * The effects of a worker cycle ([execution/broker.py], [trading/overlay.py])

    The execution loop is a chain of coroutines that read the clock, draw identifiers, call
    the store and call the broker, and that any of these may interrupt with an exception. [M]
    is that: a function of the [World], which returns the world as far as the code got and
    either a value or the exception. A write made before an exception stays.

    The store is the state of [ExecutionStore], behind the wrappers a cycle puts around it: a
    leased pass sees it through [RevisionFencedStore], and a product's book through
    [InstrumentScopedStore]. The venue is an interface, [Venue]: anything that answers
    requests. The paper broker is a value, so rebinding its fees is rebinding a value.

    [calls] is a record of the requests the broker was sent, each with the store as it was at
    that moment. The code does not keep it: it is what statements about the order of writes and
    submissions speak of. Audit and decision journals, which nothing reads back, are left out. *)

Definition CANCEL_PENDING_REASON : string := "cancel_pending".

Module SubmitResult.
Record SubmitResult := mk {
  status : OrderStatus;
  venue_order_id : string;
  filled_quantity : decimal;
  reject_reason : option string;
  fill_price : option decimal;
  fill_fee : decimal;
  attached_child_venue_order_id : option string
}.

(** [replace(result, reject_reason=...)] *)
Definition set_reject_reason (r : SubmitResult) (reason : option string) : SubmitResult :=
  mk (status r) (venue_order_id r) (filled_quantity r) reason (fill_price r) (fill_fee r) (attached_child_venue_order_id r).
End SubmitResult.
Notation SubmitResult := SubmitResult.SubmitResult.

(** The arguments of [place_order]. *)
Module PlaceRequest.
Record PlaceRequest := {
  client_order_id : string;
  product_id : string;
  side : OrderSide;
  kind : OrderKind;
  quantity : decimal;
  price : option decimal;
  stop_trigger_price : option decimal;
  take_profit_price : option decimal
}.
End PlaceRequest.
Notation PlaceRequest := PlaceRequest.PlaceRequest.

(** The [Broker] protocol, and [ClientOrderLookup] for the venues that have it. A request may
    change the venue whether or not it answers. *)
Class Venue := {
  venue_state : Type;
  venue_place_order : PlaceRequest → venue_state → venue_state * result SubmitResult;
  venue_cancel_order : string → string → venue_state → venue_state * result SubmitResult;
  venue_get_order : string → string → venue_state → venue_state * result SubmitResult;
  venue_list_fills : string → option string → venue_state → venue_state * result (list Fill);
  venue_match_open_order : Order → Candle → option Fill;
  venue_maker_limit_price : string → decimal → OrderSide → venue_state → venue_state * result decimal;
  venue_find_order : option (string → string → datetime → venue_state → venue_state * result (option SubmitResult))
}.

(** What the process reads from its surroundings: the clock, fresh identifiers, the fleet latch
    bound to the store and the lease fence of the surrounding task. *)
Class Surroundings := {
  clock_reading : nat → datetime;
  fresh_id : nat → UUID;
  bound_gate : Gate;
  ambient_fence : option (UUID * string)
}.

(** ** The broker *)

Module PaperRates.
Record PaperRates := { maker_fee_rate : decimal; taker_fee_rate : decimal; fee_per_unit : decimal }.
End PaperRates.
Notation PaperRates := PaperRates.PaperRates.

(** [ListedFills] is the wrapper of a reconcile pass: the venue, answering listings from the
    pass's plan. *)
Inductive Broker := PaperBroker (rates : PaperRates) | VenueBroker | ListedFills.

Definition is_paper_broker (b : Broker) : bool := match b with PaperBroker _ => true | _ => false end.

(** ** The world *)

Inductive Backing := Shared (s : Store) | Leased (fs : RevisionFencedStore).

Definition store_of (b : Backing) : Store := match b with Shared s => s | Leased fs => _inner fs end.

(** Writes that [RevisionFencedStore] only forwards. *)
Definition forward (b : Backing) (s : Store) : Backing :=
  match b with Shared _ => Shared s | Leased fs => Leased (with_inner fs s (_expected_revision fs)) end.

(** The listings one reconcile pass has read ([_Plan]). *)
Record _Plan := mk_plan {
  listed : dict string (list Fill);
  plan_products : dict string string;
  parent_of : dict string string;
  reported : dict string decimal;
  required : dict string decimal;
  short_parents : gset string
}.
Definition empty_plan : _Plan := mk_plan [] [] [] [] [] ∅.

Section Effects.
Context {venue : Venue} {surroundings : Surroundings}.

Inductive BrokerCall := Placed (request : PlaceRequest) (stored : Store) | CancelSent (venue_order_id : string) (stored : Store).

Record World := mk_world {
  backing : Backing;
  at_venue : venue_state;
  ticks : nat;
  current_plan : _Plan;
  calls : list BrokerCall
}.

Definition stored (w : World) : Store := store_of (backing w).

Definition M (A : Type) : Type := World → World * result A.

#[global] Instance M_ret : MRet M := λ A a w, (w, Ok a).
#[global] Instance M_bind : MBind M := λ A B f m w,
  match m w with (w, Ok a) => f a w | (w, Raise e) => (w, Raise e) end.

Definition raise {A} (e : error) : M A := λ w, (w, Raise e).

(** An expression that may raise but has no effect. *)
Definition pure {A} (r : result A) : M A := λ w, (w, r).

(** [try: ... except ...]: the handler of an exception, if there is one for it. *)
Definition try_except {A} (m : M A) (handler : error → option (M A)) : M A := λ w,
  match m w with
  | (w, Ok a) => (w, Ok a)
  | (w, Raise e) => match handler e with Some h => h w | None => (w, Raise e) end
  end.

(** [for x in l: state = step(state, x)] *)
Fixpoint loop {A S} (step : S → A → M S) (s : S) (l : list A) : M S :=
  match l with [] => mret s | x :: l => s ← step s x; loop step s l end.

Definition is_broker_error (e : error) : bool := match e with BrokerError _ => true | _ => false end.

Definition except_broker_error {A} (h : M A) (e : error) : option (M A) := if is_broker_error e then Some h else None.

(** ** The clock and identifiers *)

Definition utc_now : M datetime := λ w,
  (mk_world (backing w) (at_venue w) (S (ticks w)) (current_plan w) (calls w), Ok (clock_reading (ticks w))).

Definition uuid7 : M UUID := λ w,
  (mk_world (backing w) (at_venue w) (S (ticks w)) (current_plan w) (calls w), Ok (fresh_id (ticks w))).

(** ** The store *)

Definition set_backing (w : World) (b : Backing) : World := mk_world b (at_venue w) (ticks w) (current_plan w) (calls w).

Definition read_store {A} (f : Store → A) : M A := λ w, (w, Ok (f (stored w))).

Definition write_store {A} (f : Store → Store * A) : M A := λ w,
  let '(s, a) := f (stored w) in (set_backing w (forward (backing w) s), Ok a).

(** A call that changes the store only when it succeeds. *)
Definition on_backing {A} (f : Backing → result (Backing * A)) : M A := λ w,
  match f (backing w) with Ok (b, a) => (set_backing w b, Ok a) | Raise e => (w, Raise e) end.

Definition base_save_deployment (d : Deployment) (expected_revision : option Z) (runtime : option InstrumentRuntime)
    : M Deployment :=
  on_backing (λ b, match b with
    | Shared s => '(s, saved) ← save_deployment s d expected_revision runtime; Ok (Shared s, saved)
    | Leased fs => '(fs, saved) ← fenced_save_deployment fs d expected_revision runtime; Ok (Leased fs, saved)
    end).

Definition base_save_breaker_pause (deployment_id : UUID) (expected_revision : Z) (detail : string) (latched : bool)
    : M Deployment :=
  now ← utc_now;
  on_backing (λ b, match b with
    | Shared s => '(s, saved) ← save_breaker_pause s deployment_id expected_revision detail latched now; Ok (Shared s, saved)
    | Leased fs =>
        '(fs, saved) ← fenced_save_breaker_pause fs deployment_id expected_revision detail latched now; Ok (Leased fs, saved)
    end).

Definition base_save_intent (intent : OrderIntent) : M unit :=
  on_backing (λ b, match b with
    | Shared s => s ← save_intent s bound_gate ambient_fence intent; Ok (Shared s, tt)
    | Leased fs => fs ← fenced_save_intent fs bound_gate ambient_fence intent; Ok (Leased fs, tt)
    end).

Section Decimals.
Context {dc : DecimalContext}.

Definition base_apply_fill_transaction (deployment_id : UUID) (fill : Fill) (order : Order) (cooldown_bars : Z)
    (timeframe : option string) : M (bool * DeploymentSnapshot) :=
  t1 ← utc_now; t2 ← utc_now; t3 ← utc_now;
  (λ w, match backing w with
    | Shared s =>
        let '(s, r) := apply_fill_transaction s deployment_id fill order cooldown_bars timeframe t1 t2 t3 in
        (set_backing w (Shared s), r)
    | Leased fs =>
        let '(fs, r) := fenced_apply_fill_transaction fs deployment_id fill order cooldown_bars timeframe t1 t2 t3 in
        (set_backing w (Leased fs), r)
    end) : M (bool * DeploymentSnapshot).

(** *** [ExecutionStore] and its product scope, [InstrumentScopedStore] *)

Inductive ExecutionStore := BaseStore | InstrumentScopedStore (inner : ExecutionStore) (product_id : string).

(** [item if item.product_id else replace(item, product_id=...)] *)
Definition stamp_order (product_id : string) (o : Order) : Order :=
  if decide (Order.product_id o = "") then Order.set_product_id o product_id else o.
Definition stamp_intent (product_id : string) (i : OrderIntent) : OrderIntent :=
  if decide (OrderIntent.product_id i = "") then OrderIntent.set_product_id i product_id else i.
Definition stamp_position (product_id : string) (p : Position) : Position :=
  if decide (Position.product_id p = "") then Position.set_product_id p product_id else p.

Definition get_accounting_snapshot (store : ExecutionStore) (deployment_id : UUID) : M DeploymentSnapshot :=
  s ← read_store (λ s, get_deployment s deployment_id); pure s.

Fixpoint store_get_deployment (store : ExecutionStore) (deployment_id : UUID) : M DeploymentSnapshot :=
  match store with
  | BaseStore => get_accounting_snapshot store deployment_id
  | InstrumentScopedStore inner product_id =>
      s ← store_get_deployment inner deployment_id; mret (overlay_snapshot s product_id)
  end.

(** The shared parent row a product's save writes, and the product's own runtime. *)
Definition scoped_parent (current : DeploymentSnapshot) (d : Deployment) (product_id : string) : Deployment :=
  let row := DeploymentSnapshot.deployment current in
  let rows := DeploymentSnapshot.instrument_runtimes current in
  let runtime := runtime_from_deployment d product_id in
  let owns_runtime := bool_decide (product_id = Deployment.product_id row) && mirrors_primary_runtime row rows in
  let runtimes := ((λ item, if decide (InstrumentRuntime.product_id item = product_id) then runtime else item) <$> rows)
    ++ (if existsb (λ item, bool_decide (InstrumentRuntime.product_id item = product_id)) rows then [] else [runtime]) in
  let shared := if owns_runtime then Deployment.runtime d else Deployment.runtime row in
  Deployment.mk (Deployment.terms row) (Deployment.capital d)
    (Runtime.set_last_signal (Runtime.set_phase shared (aggregate_phase runtimes)) (Runtime.last_signal d))
    (Deployment.status d) (Deployment.cash d) (Deployment.updated_at d) (Deployment.mismatch_detail d)
    (Deployment.futures_derisk_pending d) (Deployment.futures_flat_confirmation_after d) (Deployment.revision d)
    (Deployment.worker_lease_holder d) (Deployment.worker_lease_expires_at d) (Deployment.lifecycle_command d)
    (Deployment.daily_loss_latched d) (Deployment.drawdown_latched d) (Deployment.last_signal_event_at d)
    (Deployment.last_signal_processed_at d).

Fixpoint store_save_deployment (store : ExecutionStore) (d : Deployment) (expected_revision : option Z)
    (instrument_runtime : option InstrumentRuntime) : M Deployment :=
  match store with
  | BaseStore => base_save_deployment d expected_revision instrument_runtime
  | InstrumentScopedStore inner product_id =>
      match instrument_runtime with
      | Some runtime => store_save_deployment inner d expected_revision (Some runtime)
      | None =>
          current ← get_accounting_snapshot inner (Deployment.id d);
          saved ← store_save_deployment inner (scoped_parent current d product_id)
            (Some (default (Deployment.revision d) expected_revision)) (Some (runtime_from_deployment d product_id));
          mret (Deployment.set_revision d (Deployment.revision saved))
      end
  end.

(** [await store.save_deployment(deployment)] *)
Definition save (store : ExecutionStore) (d : Deployment) : M Deployment := store_save_deployment store d None None.

Fixpoint store_save_intent (store : ExecutionStore) (intent : OrderIntent) : M unit :=
  match store with
  | BaseStore => base_save_intent intent
  | InstrumentScopedStore inner product_id => store_save_intent inner (stamp_intent product_id intent)
  end.

Fixpoint store_save_order (store : ExecutionStore) (order : Order) : M unit :=
  match store with
  | BaseStore => write_store (λ s, (save_order s order, tt))
  | InstrumentScopedStore inner product_id => store_save_order inner (stamp_order product_id order)
  end.

Definition store_save_fill (store : ExecutionStore) (fill : Fill) : M Fill := write_store (λ s, save_fill s fill).

Fixpoint store_save_position (store : ExecutionStore) (position : option Position) (deployment_id : UUID)
    (product_id : option string) : M unit :=
  match store with
  | BaseStore => write_store (λ s, (save_position s position deployment_id product_id, tt))
  | InstrumentScopedStore inner own => store_save_position inner (stamp_position own <$> position) deployment_id (Some own)
  end.

Fixpoint store_apply_fill_transaction (store : ExecutionStore) (deployment_id : UUID) (fill : Fill) (order : Order)
    (cooldown_bars : Z) (timeframe : option string) : M (bool * DeploymentSnapshot) :=
  match store with
  | BaseStore => base_apply_fill_transaction deployment_id fill order cooldown_bars timeframe
  | InstrumentScopedStore inner product_id =>
      '(applied, s) ← store_apply_fill_transaction inner deployment_id fill (stamp_order product_id order) cooldown_bars timeframe;
      mret (applied, overlay_snapshot s product_id)
  end.

Definition store_get_intent_by_idempotency_key (key : string) : M (option OrderIntent) :=
  read_store (λ s, get_intent_by_idempotency_key s key).


(** *** [PaperBroker] ([execution/paper.py]) *)

Definition paper_fee (rates : PaperRates) (kind : OrderKind) (price quantity : decimal) : decimal :=
  (paper_fill_fee kind price quantity (PaperRates.maker_fee_rate rates) (PaperRates.taker_fee_rate rates)
   + quantity * PaperRates.fee_per_unit rates)%dec.

Definition paper_place_order (rates : PaperRates) (r : PlaceRequest) : result SubmitResult :=
  let id := PlaceRequest.client_order_id r in
  match PlaceRequest.kind r with
  | OrderKind.ADOPTION => Raise (ValueError "inventory adoption is never routed to a broker")
  | OrderKind.TRIGGER_BRACKET => Raise (ValueError "paper does not submit venue trigger brackets")
  | OrderKind.STOP_LIMIT => Raise (ValueError "paper does not submit venue stop-limit orders")
  | OrderKind.MARKETABLE =>
      match PlaceRequest.price r with
      | None => Raise (ValueError "marketable paper orders require a mark price")
      | Some price =>
          let quantity := PlaceRequest.quantity r in
          Ok (SubmitResult.mk OrderStatus.FILLED id quantity None (Some price)
                (paper_fee rates OrderKind.MARKETABLE price quantity) None)
      end
  | OrderKind.POST_ONLY_LIMIT => Ok (SubmitResult.mk OrderStatus.OPEN id d0 None None d0 None)
  end.

Definition paper_answer (status : OrderStatus) (venue_order_id : string) : SubmitResult :=
  SubmitResult.mk status venue_order_id d0 None None d0 None.

Definition paper_traded_through (order : Order) (price : decimal) (candle : Candle) : bool :=
  match Order.side order with BUY => (low candle <=? price)%dec | SELL => (price <=? high candle)%dec end.

(** The fill, without the identifier [uuid7] draws for it. *)
Definition paper_match (rates : PaperRates) (order : Order) (candle : Candle) (id : UUID) : option Fill :=
  match Order.status order, Order.price order, Order.kind order with
  | OrderStatus.OPEN, Some price, OrderKind.POST_ONLY_LIMIT =>
      if paper_traded_through order price candle then
        Some (Fill.mk id (Order.deployment_id order) (Order.id order)
                ("paper:" ++ Order.client_order_id order ++ ":" ++ isoformat (starts_at candle))
                price (Order.quantity order) (paper_fee rates (Order.kind order) price (Order.quantity order))
                (starts_at candle) None None)
      else None
  | _, _, _ => None
  end.

(** *** [_Plan] and [_ListedFills] ([execution/reconcile_fill_order.py]) *)

Definition _total (fills : list Fill) : decimal := dsum (Fill.quantity <$> fills).

Definition dict_get_zero (k : string) (d : dict string decimal) : decimal := default d0 (dict_get k d).

(** [_Plan.record] *)
Definition plan_record (p : _Plan) (venue_order_id : string) (fills : list Fill) : _Plan :=
  let total := _total fills in
  let covered := ((dict_get_zero venue_order_id (reported p) <=? total)%dec
                  && (dict_get_zero venue_order_id (required p) <=? total)%dec) in
  mk_plan (dict_set venue_order_id fills (listed p)) (plan_products p) (parent_of p) (reported p) (required p)
    (if covered then short_parents p ∖ {[venue_order_id]}
     else if bool_decide (dict_get venue_order_id (required p) = None) then short_parents p
     else {[venue_order_id]} ∪ short_parents p).

Definition plan_short (p : _Plan) (venue_order_id : string) : _Plan :=
  mk_plan (listed p) (plan_products p) (parent_of p) (reported p) (required p) ({[venue_order_id]} ∪ short_parents p).

Definition plan_unlist (p : _Plan) (venue_order_id : string) : _Plan :=
  plan_short (mk_plan (dict_pop venue_order_id (listed p)) (plan_products p) (parent_of p) (reported p) (required p)
                (short_parents p)) venue_order_id.

Definition plan_product (p : _Plan) (venue_order_id product_id : string) : _Plan :=
  mk_plan (listed p) (dict_set venue_order_id product_id (plan_products p)) (parent_of p) (reported p) (required p)
    (short_parents p).

(** What a read reports: an attached child, and the executed quantity. *)
Definition plan_observe (p : _Plan) (venue_order_id : string) (r : SubmitResult) : _Plan :=
  let parents := match SubmitResult.attached_child_venue_order_id r with
    | Some child => if decide (child = "") then parent_of p else dict_set child venue_order_id (parent_of p)
    | None => parent_of p
    end in
  mk_plan (listed p) (plan_products p) parents
    (dict_set venue_order_id (dmax (dict_get_zero venue_order_id (reported p)) (SubmitResult.filled_quantity r)) (reported p))
    (required p) (short_parents p).

Definition has_short_parent (p : _Plan) (venue_order_id : string) : bool :=
  match dict_get venue_order_id (parent_of p) with Some parent => bool_decide (parent ∈ short_parents p) | None => false end.

Definition PARENT_FILLS_UNREAD : string := "Attached child fills are held until the parent's fills are read.".

Definition get_plan : M _Plan := λ w, (w, Ok (current_plan w)).
Definition set_plan (p : _Plan) : M unit := λ w, (mk_world (backing w) (at_venue w) (ticks w) p (calls w), Ok tt).

(** *** The venue *)

Definition ask_venue {A} (f : venue_state → venue_state * result A) : M A := λ w,
  let '(v, r) := f (at_venue w) in (mk_world (backing w) v (ticks w) (current_plan w) (calls w), r).

Definition note_call (call : Store → BrokerCall) : M unit := λ w,
  (mk_world (backing w) (at_venue w) (ticks w) (current_plan w) (calls w ++ [call (stored w)]), Ok tt).

Definition listed_get_order (venue_order_id client_order_id : string) : M SubmitResult :=
  result ← ask_venue (venue_get_order venue_order_id client_order_id);
  p ← get_plan;
  _ ← set_plan (plan_observe p venue_order_id result);
  p ← get_plan;
  match dict_get venue_order_id (listed p), dict_get venue_order_id (plan_products p) with
  | Some listing, Some product =>
      if (_total listing <? SubmitResult.filled_quantity result)%dec then
        _ ← try_except
          (fills ← ask_venue (venue_list_fills product (Some venue_order_id));
           p ← get_plan; set_plan (plan_record p venue_order_id fills))
          (except_broker_error (p ← get_plan; set_plan (plan_unlist p venue_order_id)));
        mret result
      else mret result
  | _, _ => mret result
  end.

Definition listed_list_fills (product_id : string) (order_id : option string) : M (list Fill) :=
  match order_id with
  | None => ask_venue (venue_list_fills product_id None)
  | Some id =>
      p ← get_plan;
      if has_short_parent p id then raise (BrokerError PARENT_FILLS_UNREAD)
      else match dict_get id (listed p) with
        | Some fills => mret fills
        | None =>
            fills ← ask_venue (venue_list_fills product_id (Some id));
            p ← get_plan; _ ← set_plan (plan_record (plan_product p id product_id) id fills);
            mret fills
        end
  end.

(** *** The [Broker] protocol *)

Definition place_order (b : Broker) (r : PlaceRequest) : M SubmitResult :=
  _ ← note_call (Placed r);
  match b with PaperBroker rates => pure (paper_place_order rates r) | _ => ask_venue (venue_place_order r) end.

Definition cancel_order (b : Broker) (venue_order_id client_order_id : string) : M SubmitResult :=
  _ ← note_call (CancelSent venue_order_id);
  match b with
  | PaperBroker _ => mret (paper_answer OrderStatus.CANCELED venue_order_id)
  | _ => ask_venue (venue_cancel_order venue_order_id client_order_id)
  end.

Definition get_order (b : Broker) (venue_order_id client_order_id : string) : M SubmitResult :=
  match b with
  | PaperBroker _ => mret (paper_answer OrderStatus.OPEN venue_order_id)
  | VenueBroker => ask_venue (venue_get_order venue_order_id client_order_id)
  | ListedFills => listed_get_order venue_order_id client_order_id
  end.

Definition list_fills (b : Broker) (product_id : string) (order_id : option string) : M (list Fill) :=
  match b with
  | PaperBroker _ => mret []
  | VenueBroker => ask_venue (venue_list_fills product_id order_id)
  | ListedFills => listed_list_fills product_id order_id
  end.

Definition match_open_order (b : Broker) (order : Order) (candle : Candle) : M (option Fill) :=
  match b with
  | PaperBroker rates =>
      match paper_match rates order candle "" with
      | None => mret None
      | Some _ => _ ← utc_now; id ← uuid7; mret (paper_match rates order candle id)
      end
  | _ => mret (venue_match_open_order order candle)
  end.

(** [maker_limit_price], awaited by [_await_maker_limit]. *)
Definition maker_limit_price (b : Broker) (product_id : string) (mark : decimal) (side : OrderSide) : M decimal :=
  match b with PaperBroker _ => mret mark | _ => ask_venue (venue_maker_limit_price product_id mark side) end.

(** [isinstance(broker, ClientOrderLookup)] *)
Definition client_order_lookup (b : Broker) : option (string → string → datetime → M (option SubmitResult)) :=
  match b with
  | PaperBroker _ => None
  | _ => (λ find client_order_id product_id submitted_at, ask_venue (find client_order_id product_id submitted_at)) <$> venue_find_order
  end.

End Decimals.

End Effects.
