(* ===== verification/ExitGuards.v ===== *)
(** * ExitGuards: what may be rested, sent or retried ([execution/exit_guards.py], [attached.py])

    Pure questions about one book. A rejected protective submit is retried after a delay that
    doubles with every identical rejection; after the fifth it waits for an operator. *)

From S2P Require Import Prelude Decimals Market Geometry Containers TradingModels FillLedger.
From S2P Require Import ExecutionStore Engine.

Open Scope Z_scope.

Definition FILLED_WITHOUT_REST_FILLS_DETAIL : string := "Filled order has no REST fills.".

Definition _EXIT_PURPOSES : list IntentPurpose :=
  [IntentPurpose.STOP; IntentPurpose.TIME_EXIT; IntentPurpose.SIGNAL_EXIT; IntentPurpose.LIQUIDATION].

Definition CANCEL_BEFORE_EXIT_DETAIL : string := "Could not cancel resting orders before a marketable exit.".
Definition MARKETABLE_EXIT_UNCONFIRMED_DETAIL : string := "Marketable exit was not confirmed filled.".
Definition BRACKET_REPLACE_CANCEL_DETAIL : string :=
  "Could not cancel the resting exit before replacing the live bracket.".
Definition BRACKET_UNCONFIRMED_DETAIL : string := "Live bracket submit is unconfirmed.".
Definition BRACKET_NOT_RESTED_DETAIL : string := "Live bracket could not be rested on an open position.".
Definition PROTECTIVE_REJECTED_PREFIX : string := "PROTECTIVE_SUBMIT_REJECTED".

Definition POSITION_FAULT_DETAILS : list string :=
  [CANCEL_BEFORE_EXIT_DETAIL; MARKETABLE_EXIT_UNCONFIRMED_DETAIL; BRACKET_REPLACE_CANCEL_DETAIL;
   BRACKET_UNCONFIRMED_DETAIL; BRACKET_NOT_RESTED_DETAIL; FILLED_WITHOUT_REST_FILLS_DETAIL].

Definition FLAT_AFTER_FAULT_DETAIL : string :=
  "Position is flat and no orders are working; the earlier protection fault no longer applies. Review the book and resume when ready.".

Definition _BACKOFF_BASE : timedelta := minute.
Definition _BACKOFF_CAP : timedelta := 30 * minute.
Definition MAX_IDENTICAL_REJECTIONS : Z := 5.

Record SubmitRejection := {
  rejected_label : string;
  rejection_count : Z;
  rejected_for : string;
  last_rejected_at : datetime
}.

(** [timedelta * int]: a duration has at most 999999999 days. *)
Definition timedelta_times (d : timedelta) (n : Z) : result timedelta :=
  if 1000000000 * day <=? d * n then Raise OverflowError else Ok (d * n).

Definition retry_at (r : SubmitRejection) : result datetime :=
  delay ← timedelta_times _BACKOFF_BASE (2 ^ (rejection_count r - 1));
  Ok (last_rejected_at r + Z.min delay _BACKOFF_CAP).

Definition flatten_requested (s : DeploymentSnapshot) : bool :=
  bool_decide (Deployment.lifecycle_command (DeploymentSnapshot.deployment s) = LifecycleCommand.FLATTEN).

(** [status in _ACTIVE] *)
Definition order_active (o : Order) : bool := is_working o.

Definition cancel_pending (o : Order) : bool :=
  order_active o && bool_decide (Order.reject_reason o = Some CANCEL_PENDING_REASON).

Definition active_orders (s : DeploymentSnapshot) : list Order := List.filter order_active (DeploymentSnapshot.orders s).

(** The ids of the intents with one of the purposes. *)
Definition intents_for (s : DeploymentSnapshot) (purposes : list IntentPurpose) : list UUID :=
  OrderIntent.id <$> List.filter (λ i, bool_decide (OrderIntent.purpose i ∈ purposes)) (DeploymentSnapshot.intents s).

Section Guards.
Context {dc : DecimalContext}.

Definition exit_fill_pending (s : DeploymentSnapshot) : option Order :=
  let exit_ids := intents_for s _EXIT_PURPOSES in
  List.find (λ o,
    bool_decide (Order.status o = OrderStatus.FILLED) && bool_decide (Order.kind o = OrderKind.MARKETABLE)
    && bool_decide (Order.intent_id o ∈ exit_ids)
    && let covered := if (d0 <? Order.filled_quantity o)%dec then Order.filled_quantity o else Order.quantity o in
       (applied_fill_quantity s (Order.id o) <? covered)%dec) (DeploymentSnapshot.orders s).

Definition _same_geometry (o : Order) (p : Position) : bool :=
  (Order.quantity o =? Position.quantity p)%dec && same_price (Order.stop_trigger_price o) (Some (Position.stop_price p))
  && match Position.target_price p with
     | None => bool_decide (Order.kind o = OrderKind.STOP_LIMIT)
     | Some _ => same_price (Order.price o) (Position.target_price p)
     end.

(** Newest first; [reverse=True] keeps the order of equal keys. *)
Definition newest_created (l : list Order) : list Order := sort_by (λ a b, Order.created_at b <=? Order.created_at a) l.

Definition rejected_reason (o : Order) : string := default "rejected" (or_text (Order.reject_reason o) (Some "rejected")).

(** The loop over the candidates: how many matched so far, their reason, the newest's time. *)
Fixpoint rejection_scan (matches : Order → bool) (l : list Order) (count : Z) (run : option (string * datetime))
    : Z * option (string * datetime) :=
  match l with
  | [] => (count, run)
  | o :: l =>
      if negb (bool_decide (Order.status o = OrderStatus.REJECTED)) || negb (matches o) then (count, run)
      else
        match run with
        | None => rejection_scan matches l (count + 1) (Some (rejected_reason o, Order.updated_at o))
        | Some (reason, _) =>
            if bool_decide (rejected_reason o = reason) then rejection_scan matches l (count + 1) run else (count, run)
        end
  end.

Definition _rejection_run (s : DeploymentSnapshot) (label : string) (purposes : list IntentPurpose) (matches : Order → bool)
    : option SubmitRejection :=
  let ids := intents_for s purposes in
  let candidates := newest_created (List.filter (λ o, bool_decide (Order.intent_id o ∈ ids)) (DeploymentSnapshot.orders s)) in
  match rejection_scan matches candidates 0 None with
  | (count, Some (reason, at_)) =>
      if count =? 0 then None
      else Some {| rejected_label := label; rejection_count := count; rejected_for := reason; last_rejected_at := at_ |}
  | (_, None) => None
  end.

Definition bracket_rejection (s : DeploymentSnapshot) (p : Position) : option SubmitRejection :=
  let stop_only := bool_decide (Position.target_price p = None) in
  _rejection_run s (if stop_only then "live stop-limit" else "live bracket")
    (if stop_only && is_futures_product_id (Position.product_id p) then [IntentPurpose.BRACKET; IntentPurpose.STOP]
     else [IntentPurpose.BRACKET])
    (λ o, _same_geometry o p).

Definition exit_rejection (s : DeploymentSnapshot) (p : Position) : option SubmitRejection :=
  _rejection_run s "marketable exit" _EXIT_PURPOSES
    (λ o, bool_decide (Order.kind o = OrderKind.MARKETABLE) && (Order.quantity o =? Position.quantity p)%dec).

Definition rejection_latched (s : DeploymentSnapshot) (r : SubmitRejection) (now : datetime) : result bool :=
  at_ ← retry_at r;
  Ok (if now <? at_ then true
      else if rejection_count r <? MAX_IDENTICAL_REJECTIONS then false
      else String.prefix PROTECTIVE_REJECTED_PREFIX (default "" (Deployment.mismatch_detail (DeploymentSnapshot.deployment s)))).

Definition rejection_detail (r : SubmitRejection) : string :=
  PROTECTIVE_REJECTED_PREFIX ++ ": Coinbase rejected the " ++ rejected_label r ++ " " ++ pretty.pretty (rejection_count r)
  ++ " time(s) (" ++ String.substring 0 160 (rejected_for r) ++ "). Identical retries back off "
  ++ "and stop after repeated rejections; check balances and holds on Coinbase, then resume.".

Definition flat_and_idle (s : DeploymentSnapshot) : bool :=
  bool_decide (DeploymentSnapshot.position s = None) && bool_decide (DeploymentSnapshot.positions s = [])
  && bool_decide (Runtime.phase (DeploymentSnapshot.deployment s) = RuntimePhase.FLAT)
  && forallb (λ r : InstrumentRuntime, bool_decide (Runtime.phase r = RuntimePhase.FLAT)) (DeploymentSnapshot.instrument_runtimes s)
  && bool_decide (active_orders s = []).

Definition stale_position_fault (detail : option string) : bool :=
  match detail with
  | None => false
  | Some detail => bool_decide (detail ∈ POSITION_FAULT_DETAILS) || String.prefix PROTECTIVE_REJECTED_PREFIX detail
  end.

(** ** Attached children ([attached.py]) *)

Definition _ENTRY_KINDS : list OrderKind := [OrderKind.POST_ONLY_LIMIT; OrderKind.MARKETABLE].

(** The fill is of the entry that opened the position: same minute, same price. *)
Definition _fill_opened_position (f : Fill) (p : Position) : bool :=
  (Fill.filled_at f - Fill.filled_at f mod minute =? Position.entered_bar p) && (Fill.price f =? Position.entry_price p)%dec.

Definition filled_attached_entry (s : DeploymentSnapshot) (p : Position) : option Order :=
  let entry_ids := intents_for s [IntentPurpose.ENTRY] in
  List.find (λ o,
    bool_decide (Order.status o = OrderStatus.FILLED) && bool_decide (Order.kind o ∈ _ENTRY_KINDS)
    && negb (bool_decide (Order.stop_trigger_price o = None)) && negb (bool_decide (Order.take_profit_price o = None))
    && (bool_decide (entry_ids = []) || bool_decide (Order.intent_id o ∈ entry_ids))
    && existsb (λ f, bool_decide (Fill.order_id f = Order.id o) && _fill_opened_position f p) (DeploymentSnapshot.fills s))
    (DeploymentSnapshot.orders s).

Definition child_order_for (s : DeploymentSnapshot) (entry : Order) : option Order :=
  match truthy (Order.attached_child_venue_order_id entry) with
  | None => None
  | Some child_id =>
      List.find (λ o, bool_decide (Order.venue_order_id o = Some child_id)
                      || bool_decide (Order.parent_order_id o = Some (Order.id entry))) (DeploymentSnapshot.orders s)
  end.

Definition attached_entry_covers (s : DeploymentSnapshot) (p : Position) : bool :=
  match filled_attached_entry s p with
  | None => false
  | Some entry =>
      match child_order_for s entry with
      | None => false
      | Some child =>
          order_active child && same_price (Order.stop_trigger_price child) (Some (Position.stop_price p))
          && same_price (Order.take_profit_price child) (Position.target_price p)
          && (Position.quantity p <=? Order.quantity child)%dec
      end
  end.

Definition remaining_quantity (o : Order) : decimal :=
  let remaining := (Order.quantity o - Order.filled_quantity o)%dec in
  if (d0 <? remaining)%dec then remaining else d0.

End Guards.
