(* ===== verification/FuturesVenue.v ===== *)
(** * FuturesVenue: a live futures book against its account ([execution/futures_venue_check.py], [futures_live.py], [futures_cancel.py])

    The venue counts contracts, the book counts base units. They are compared only while
    nothing is in flight: no order working but freshly observed, untouched protection, no
    execution without its fill, no fill younger than the observation by less than five
    seconds. The same evidence, more loosely read, is what authorises cancelling an order. *)

From S2P Require Import Prelude Decimals Market Geometry Containers TradingModels FillLedger.
From S2P Require Import ExecutionStore EntryLimits FuturesBooks FuturesGate Engine ExitGuards.

Open Scope Z_scope.

Module FuturesLiveAccount.
Record FuturesLiveAccount := {
  venue : FuturesVenueEvidence;
  marks : gmap string decimal;
  available_margin_usd : option decimal;
  liquidation_threshold_usd : option decimal
}.
End FuturesLiveAccount.
Notation FuturesLiveAccount := FuturesLiveAccount.FuturesLiveAccount.

(** What a cycle binds for the book it processes: the context variables of a futures book, of
    the live futures account and of the portfolio, and the process's cache of the fleet latch. *)
Class CycleScope := {
  latch_cache : LatchCache;
  bound_futures_book : option FuturesBookState;
  live_futures_account : option FuturesLiveAccount;
  bound_portfolio : option PortfolioRiskBook
}.

Record PositionComparison := {
  compared_at : datetime;
  book_contracts : decimal;
  venue_contracts : decimal
}.

Definition FILL_GRACE : timedelta := 5 * second.
Definition PROTECTION_OBSERVATION_MAX_AGE : timedelta := 180 * second.

(** [observed_at - max(filled_at) <= 5 s], when there are fills. *)
Definition young_fills (observed_at : datetime) (fills : list Fill) : bool :=
  match Fill.filled_at <$> fills with
  | [] => false
  | first :: rest => observed_at - fold_left Z.max rest first <=? FILL_GRACE
  end.

Section FuturesVenue.
Context {dc : DecimalContext}.

Definition matches (c : PositionComparison) : bool := (book_contracts c =? venue_contracts c)%dec.

(** *** [PositionConfirmations]: two fresh mismatches in a row *)

Record PositionConfirmations := { last_samples : gmap UUID datetime; mismatch_counts : gmap UUID Z }.

Definition confirm (c : PositionConfirmations) (deployment_id : UUID) (sample : option PositionComparison)
    : PositionConfirmations * bool :=
  match sample with
  | None => ({| last_samples := last_samples c; mismatch_counts := delete deployment_id (mismatch_counts c) |}, false)
  | Some sample =>
      let stale := match last_samples c !! deployment_id with Some previous => compared_at sample <=? previous | None => false end in
      if stale then (c, false)
      else
        let count := if matches sample then 0 else default 0 (mismatch_counts c !! deployment_id) + 1 in
        ({| last_samples := <[deployment_id := compared_at sample]> (last_samples c);
            mismatch_counts := <[deployment_id := count]> (mismatch_counts c) |}, 2 <=? count)
  end.

(** *** The comparison *)

Definition signed_book_contracts (s : DeploymentSnapshot) (size : option decimal) : option decimal :=
  match size with
  | None => None
  | Some size =>
      if (size <=? d0)%dec then None
      else match DeploymentSnapshot.position s with
        | None => Some d0
        | Some p =>
            if (Position.quantity p <=? d0)%dec then None
            else match exactly (exact_div (Position.quantity p) size) with
              | None => None
              | Some count =>
                  if negb (is_whole count) || (count <=? d0)%dec then None
                  else Some (match Position.side p with SHORT => opp_exact count | LONG => count end)
              end
        end
  end.

Definition unfinished_intent (s : DeploymentSnapshot) (i : OrderIntent) : bool :=
  bool_decide (OrderIntent.status i ∈ [OrderStatus.PENDING; OrderStatus.UNKNOWN])
  && negb (bool_decide (OrderIntent.id i ∈ Order.intent_id <$> DeploymentSnapshot.orders s)).

Definition quiet_protection (now : datetime) (o : Order) : bool :=
  is_venue_protection (Order.kind o) && bool_decide (Order.status o = OrderStatus.OPEN) && negb (cancel_pending o)
  && (Order.filled_quantity o =? d0)%dec
  && match Order.venue_observed_at o with
     | None => false
     | Some observed => (observed <=? now) && (now - observed <=? PROTECTION_OBSERVATION_MAX_AGE)
     end.

Definition _orders_quiescent (s : DeploymentSnapshot) (now : datetime) : bool :=
  negb (existsb (unfinished_intent s) (DeploymentSnapshot.intents s)) && forallb (quiet_protection now) (active_orders s).

Definition compare_position (s : DeploymentSnapshot) (venue : option FuturesVenueEvidence) (now : datetime)
    : option PositionComparison :=
  match venue with
  | None => None
  | Some venue =>
      match FuturesVenueEvidence.positions venue with
      | None => None
      | Some positions =>
          if negb (DeploymentSnapshot.accounting_complete s) || negb (is_fresh venue now)
             || unsettled_fill_evidence s || negb (_orders_quiescent s now)
             || young_fills (FuturesVenueEvidence.observed_at venue) (DeploymentSnapshot.fills s)
          then None
          else
            let product_id := Deployment.product_id (DeploymentSnapshot.deployment s) in
            match signed_book_contracts s (FuturesVenueEvidence.contract_sizes venue !! product_id) with
            | None => None
            | Some book => Some {| compared_at := FuturesVenueEvidence.observed_at venue; book_contracts := book;
                                   venue_contracts := default d0 (positions !! product_id) |}
            end
      end
  end.

(** ** [futures_live.py] *)

Definition entry_since (observed_at : datetime) (i : OrderIntent) : bool :=
  bool_decide (OrderIntent.purpose i = IntentPurpose.ENTRY) && (observed_at <=? OrderIntent.created_at i).

Definition live_futures_deployment (d : Deployment) : bool :=
  bool_decide (Deployment.mode d = DeploymentMode.LIVE) && is_futures_product_id (Deployment.product_id d).

Definition admission_venue (account : option FuturesLiveAccount) (portfolio : list DeploymentSnapshot)
    : option FuturesVenueEvidence :=
  match account with
  | None => None
  | Some account =>
      let observed_at := FuturesVenueEvidence.observed_at (FuturesLiveAccount.venue account) in
      if existsb (λ book, live_futures_deployment (DeploymentSnapshot.deployment book)
                          && existsb (entry_since observed_at) (DeploymentSnapshot.intents book)) portfolio
      then None else Some (FuturesLiveAccount.venue account)
  end.

Definition managed_live_futures (s : DeploymentSnapshot) : bool :=
  let d := DeploymentSnapshot.deployment s in
  live_futures_deployment d
  && (negb (bool_decide (Deployment.status d = DeploymentStatus.STOPPED))
      || negb (bool_decide (DeploymentSnapshot.position s = None)) || negb (bool_decide (active_orders s = []))
      || unsettled_fill_evidence s || negb (bool_decide (unprojected_inventory_products s = []))
      || existsb (unfinished_intent s) (DeploymentSnapshot.intents s)
      || Deployment.futures_derisk_pending d || negb (bool_decide (Deployment.futures_flat_confirmation_after d = None))).

Definition futures_decisions_deferred (account : option FuturesLiveAccount) (s : DeploymentSnapshot) (now : datetime) : bool :=
  let d := DeploymentSnapshot.deployment s in
  if Deployment.futures_derisk_pending d || negb (bool_decide (Deployment.futures_flat_confirmation_after d = None)) then true
  else if String.prefix "FUTURES_POSITION_MISMATCH" (default "" (Deployment.mismatch_detail d)) then
    match compare_position s (FuturesLiveAccount.venue <$> account) now with
    | None => true
    | Some sample => negb (matches sample)
    end
  else false.

(** ** The authority to cancel ([futures_cancel.py]) *)

Definition _owned_order (s : DeploymentSnapshot) (o : Order) : bool :=
  let d := DeploymentSnapshot.deployment s in
  match List.find (λ i, bool_decide (OrderIntent.id i = Order.intent_id o)) (DeploymentSnapshot.intents s) with
  | None => false
  | Some i =>
      bool_decide (OrderIntent.deployment_id i = Order.deployment_id o) && bool_decide (Order.deployment_id o = Deployment.id d)
      && bool_decide (OrderIntent.product_id i = Order.product_id o) && bool_decide (Order.product_id o = Deployment.product_id d)
      && bool_decide (OrderIntent.client_order_id i = Order.client_order_id o)
      && String.prefix (Deployment.id d ++ ":" ++ IntentPurpose.value (OrderIntent.purpose i) ++ ":") (Order.client_order_id o)
  end.

Definition cancellation_proven (s : DeploymentSnapshot) (account : option FuturesLiveAccount) (now : datetime) : bool :=
  let d := DeploymentSnapshot.deployment s in
  match account with
  | None => false
  | Some account =>
      let venue := FuturesLiveAccount.venue account in
      match FuturesVenueEvidence.positions venue, FuturesVenueEvidence.external_order_products venue with
      | Some positions, Some external =>
          if negb (live_futures_deployment d) || negb (DeploymentSnapshot.accounting_complete s) || negb (is_fresh venue now)
             || bool_decide (Deployment.product_id d ∈ external) || unsettled_fill_evidence s
             || existsb (λ o, bool_decide (Order.kind o = OrderKind.MARKETABLE)) (active_orders s)
             || young_fills (FuturesVenueEvidence.observed_at venue) (DeploymentSnapshot.fills s)
          then false
          else match managed_signed_base s, FuturesVenueEvidence.contract_sizes venue !! Deployment.product_id d with
            | Some managed, Some size =>
                if (size <=? d0)%dec then false
                else match exactly (exact_div managed size) with
                  | None => false
                  | Some count => is_whole count && (count =? default d0 (positions !! Deployment.product_id d))%dec
                  end
            | _, _ => false
            end
      | _, _ => false
      end
  end.

End FuturesVenue.
