(* ===== verification/Submit.v ===== *)
(** * Submit: an intent is recorded before it is sent ([execution/submit.py])

    [submit_intent] writes the intent, then a PENDING order, then asks the broker, then writes
    the answer. An exception of the broker leaves the order UNKNOWN: it is never sent again by
    itself. [submit_writes_ahead] says what the store holds after every outcome. *)

From S2P Require Import Prelude Decimals Market Geometry Containers TradingModels FillLedger.
From S2P Require Import ExecutionStore StoreSteps Engine ExitGuards.

Open Scope Z_scope.

(** The arguments of [submit_intent] that describe the order. *)
Record Submission := {
  submit_product_id : string;
  submit_purpose : IntentPurpose;
  submit_side : OrderSide;
  submit_kind : OrderKind;
  submit_quantity : decimal;
  submit_price : option decimal;
  submit_candle : option Candle;
  submit_decision_at : option datetime;
  submit_stop_trigger_price : option decimal;
  submit_take_profit_price : option decimal;
  submit_origin : IntentOrigin;
  submit_idempotency_key : option string;
  submit_pyramid_add : bool
}.

(** [type(error).__name__] of the exceptions a submission catches: broker errors, timeouts and
    every [ValueError]. *)
Definition submit_error_name (e : error) : option string :=
  match e with
  | BrokerError _ => Some "BrokerError"
  | ValueError _ => Some "ValueError"
  | BacktestSimulationError _ => Some "BacktestSimulationError"
  | IndicatorCalculationError => Some "IndicatorCalculationError"
  | CandleQualityError _ => Some "CandleQualityError"
  | SignalEvaluationError _ => Some "SignalEvaluationError"
  | ExecutionConflictError _ => Some "ExecutionConflictError"
  | LeaseTakenError => Some "LeaseTakenError"
  | TimeoutError => Some "TimeoutError"
  | _ => None
  end.

Definition order_left_nothing_working (o : Order) : bool :=
  bool_decide (Order.status o = OrderStatus.REJECTED)
  || (bool_decide (Order.status o = OrderStatus.CANCELED) && (Order.filled_quantity o =? d0)%dec).

Definition client_order_id_for (deployment_id : UUID) (purpose : IntentPurpose) (instant : datetime) (id : UUID) : string :=
  String.substring 0 128 (deployment_id ++ ":" ++ IntentPurpose.value purpose ++ ":" ++ strftime_minute instant ++ ":" ++ id).

Definition flip_side (side : OrderSide) : OrderSide := match side with BUY => SELL | SELL => BUY end.

Section Submit.
Context {venue : Venue} {surroundings : Surroundings} {dc : DecimalContext}.

Definition PRICE_FREE_PURPOSES : list IntentPurpose :=
  [IntentPurpose.STOP; IntentPurpose.LIQUIDATION; IntentPurpose.TIME_EXIT; IntentPurpose.SIGNAL_EXIT].

Definition _require_price_free_reduction (store : ExecutionStore) (broker : Broker) (deployment_id : UUID) (a : Submission)
    (instant : option datetime) : M unit :=
  if negb (bool_decide (submit_kind a = OrderKind.MARKETABLE)) || negb (bool_decide (submit_purpose a ∈ PRICE_FREE_PURPOSES))
     || negb (is_futures_product_id (submit_product_id a)) || is_paper_broker broker || bool_decide (instant = None)
  then raise (ValueError "Only an explicit live futures reduction may omit its candle.")
  else
    s ← store_get_deployment store deployment_id;
    if decide (Deployment.mode (DeploymentSnapshot.deployment s) = DeploymentMode.LIVE) then mret tt
    else raise (ValueError "Paper orders require an executable candle.").

Definition _existing_order_for_key (store : ExecutionStore) (key : option string) (conflict : error) : M (option Order) :=
  match truthy key, conflict with
  | None, _ | _, LeaseTakenError => mret None
  | Some key, _ =>
      existing ← store_get_intent_by_idempotency_key key;
      match existing with
      | None => mret None
      | Some existing =>
          s ← store_get_deployment store (OrderIntent.deployment_id existing);
          mret (List.find (λ o, bool_decide (Order.intent_id o = OrderIntent.id existing)) (DeploymentSnapshot.orders s))
      end
  end.

(** [except ExecutionConflictError]; the lease refusal is one. *)
Definition is_conflict (e : error) : bool :=
  match e with ExecutionConflictError _ | LeaseTakenError => true | _ => false end.

Definition pending_intent (deployment_id : UUID) (a : Submission) (now instant : datetime) (client_order_id : string) (id : UUID)
    : OrderIntent := {|
  OrderIntent.id := id; OrderIntent.deployment_id := deployment_id; OrderIntent.client_order_id := client_order_id;
  OrderIntent.purpose := submit_purpose a; OrderIntent.side := submit_side a; OrderIntent.kind := submit_kind a;
  OrderIntent.quantity := submit_quantity a; OrderIntent.created_at := now; OrderIntent.candle_starts_at := instant;
  OrderIntent.price := submit_price a; OrderIntent.stop_trigger_price := submit_stop_trigger_price a;
  OrderIntent.take_profit_price := submit_take_profit_price a; OrderIntent.status := OrderStatus.PENDING;
  OrderIntent.origin := submit_origin a; OrderIntent.idempotency_key := submit_idempotency_key a;
  OrderIntent.product_id := submit_product_id a |}.

Definition pending_order (deployment_id : UUID) (a : Submission) (now : datetime) (client_order_id : string)
    (intent_id id : UUID) : Order := {|
  Order.id := id; Order.deployment_id := deployment_id; Order.intent_id := intent_id;
  Order.client_order_id := client_order_id; Order.side := submit_side a; Order.kind := submit_kind a;
  Order.quantity := submit_quantity a; Order.status := OrderStatus.PENDING; Order.created_at := now;
  Order.updated_at := now; Order.price := submit_price a; Order.filled_quantity := d0; Order.venue_order_id := None;
  Order.reject_reason := None; Order.stop_trigger_price := submit_stop_trigger_price a;
  Order.take_profit_price := submit_take_profit_price a; Order.product_id := submit_product_id a;
  Order.parent_order_id := None; Order.attached_child_venue_order_id := None;
  Order.pyramid_add := submit_pyramid_add a; Order.venue_observed_at := None; Order.canceled_at := None;
  Order.settled_at := None |}.

(** The venue's attached child, recorded beside its parent. *)
Definition attached_child (parent : Order) (child_venue_order_id : string) (id : UUID) (created updated : datetime)
    (status : OrderStatus) (product_id : string) : Order := {|
  Order.id := id; Order.deployment_id := Order.deployment_id parent; Order.intent_id := Order.intent_id parent;
  Order.client_order_id := String.substring 0 128 (Order.client_order_id parent ++ ":child");
  Order.side := flip_side (Order.side parent); Order.kind := OrderKind.TRIGGER_BRACKET;
  Order.quantity := Order.quantity parent; Order.status := status; Order.created_at := created; Order.updated_at := updated;
  Order.price := Order.take_profit_price parent; Order.filled_quantity := d0;
  Order.venue_order_id := Some child_venue_order_id; Order.reject_reason := None;
  Order.stop_trigger_price := Order.stop_trigger_price parent; Order.take_profit_price := Order.take_profit_price parent;
  Order.product_id := product_id; Order.parent_order_id := Some (Order.id parent);
  Order.attached_child_venue_order_id := None; Order.pyramid_add := false; Order.venue_observed_at := None;
  Order.canceled_at := None; Order.settled_at := None |}.

Definition place_request (o : Order) : PlaceRequest := {|
  PlaceRequest.client_order_id := Order.client_order_id o; PlaceRequest.product_id := Order.product_id o;
  PlaceRequest.side := Order.side o; PlaceRequest.kind := Order.kind o; PlaceRequest.quantity := Order.quantity o;
  PlaceRequest.price := Order.price o; PlaceRequest.stop_trigger_price := Order.stop_trigger_price o;
  PlaceRequest.take_profit_price := Order.take_profit_price o |}.

(** The answer, or the name of the exception that left it open. *)
Definition try_place (broker : Broker) (o : Order) : M (SubmitResult + string) :=
  try_except (r ← place_order broker (place_request o); mret (inl r))
    (λ e, (λ name, mret (inr name)) <$> submit_error_name e).

(** After the broker answered: the order, its attached child and an immediate paper fill. *)
Definition record_answer (store : ExecutionStore) (broker : Broker) (candle : option Candle) (now : datetime) (o : Order)
    (r : SubmitResult) : M Order :=
  t ← utc_now;
  let submitted := Order.set_venue_view o (Some (SubmitResult.venue_order_id r)) (SubmitResult.status r)
    (SubmitResult.filled_quantity r) (SubmitResult.reject_reason r) (SubmitResult.attached_child_venue_order_id r)
    (Order.venue_observed_at o) t in
  _ ← store_save_order store submitted;
  _ ← match truthy (SubmitResult.attached_child_venue_order_id r) with
      | Some child =>
          _ ← utc_now; id ← uuid7; t ← utc_now;
          store_save_order store (attached_child submitted child id now t OrderStatus.OPEN (Order.product_id o))
      | None => mret tt
      end;
  _ ← match broker, candle, SubmitResult.status r, SubmitResult.fill_price r with
      | PaperBroker _, Some candle, OrderStatus.FILLED, Some price =>
          _ ← utc_now; id ← uuid7;
          _ ← store_save_fill store (Fill.mk id (Order.deployment_id o) (Order.id submitted)
                (SubmitResult.venue_order_id r ++ ":immediate") price
                (if (SubmitResult.filled_quantity r =? d0)%dec then Order.quantity o else SubmitResult.filled_quantity r)
                (SubmitResult.fill_fee r) (starts_at candle) None None);
          mret tt
      | _, _, _, _ => mret tt
      end;
  mret submitted.

(** From the recorded intent on. *)
Definition send_order (store : ExecutionStore) (broker : Broker) (candle : option Candle) (now : datetime) (o : Order) : M Order :=
  _ ← store_save_order store o;
  answer ← try_place broker o;
  match answer with
  | inl r => record_answer store broker candle now o r
  | inr name =>
      t ← utc_now;
      let unknown := Order.set_venue_view o (Order.venue_order_id o) OrderStatus.UNKNOWN (Order.filled_quantity o) (Some name)
        (Order.attached_child_venue_order_id o) (Order.venue_observed_at o) t in
      _ ← store_save_order store unknown;
      mret unknown
  end.

Definition submit_intent (store : ExecutionStore) (broker : Broker) (deployment_id : UUID) (a : Submission) : M Order :=
  if bool_decide (submit_kind a = OrderKind.ADOPTION) || bool_decide (submit_purpose a = IntentPurpose.ADOPTION)
  then raise (ValueError "Inventory adoption is recorded in-kind and is never submitted.")
  else
    now ← utc_now;
    let instant := match submit_candle a with Some c => Some (starts_at c) | None => submit_decision_at a end in
    _ ← match submit_candle a with
        | None => _require_price_free_reduction store broker deployment_id a instant
        | Some _ => mret tt
        end;
    match instant with
    | None => raise (ValueError "An explicit decision instant is required without a candle.")
    | Some instant =>
        id ← uuid7;
        let client_order_id := client_order_id_for deployment_id (submit_purpose a) instant id in
        intent_id ← uuid7;
        existing ← try_except
          (_ ← store_save_intent store (pending_intent deployment_id a now instant client_order_id intent_id); mret None)
          (λ conflict, if is_conflict conflict then Some (
            existing ← _existing_order_for_key store (submit_idempotency_key a) conflict;
            match existing with Some o => mret (Some o) | None => raise conflict end) else None);
        match existing with
        | Some o => mret o
        | None =>
            order_id ← uuid7;
            send_order store broker (submit_candle a) now
              (pending_order deployment_id a now client_order_id intent_id order_id)
        end
    end.

End Submit.
