(* ===== verification/Reconcile.v ===== *)
(** * Reconcile: the venue's view applied to the book ([execution/reconcile.py], [reconcile_fill_order.py])

    Every watched order is read from the venue and its unseen fills are applied. Before the
    walk the fills of all watched orders are listed once and, when several orders have new
    ones, applied in execution order; an attached child's fills wait until its parent's are
    known. A fault pauses a running book and is kept; a pause or a stop is never cleared. *)

From S2P Require Import Prelude Decimals Market Geometry Containers TradingModels FillLedger.
From S2P Require Import ExecutionStore StoreSteps Engine ExitGuards Submit.

Open Scope Z_scope.

Definition TERMINAL_READ_UNCONFIRMED_REASON : string := "terminal_read_unconfirmed".
Definition UNCONFIRMED_SUBMIT_PREFIX : string := "Order submit is unconfirmed".
Definition RECONCILE_UNCONFIRMED_PREFIX : string := "Order reconciliation is unconfirmed".
Definition ADOPTION_EVIDENCE_INCOMPLETE_DETAIL : string :=
  "ADOPTION_EVIDENCE_INCOMPLETE: an inventory adoption lacks one applied fill covering its full quantity.".
Definition UNAPPLIED_FILLS_DETAIL : string := "Stored fills have unapplied economics.".
Definition UNPROJECTED_DETAIL : string := "Applied fills contain unprojected inventory.".
Definition ORDER_READ_FAILED : string := RECONCILE_UNCONFIRMED_PREFIX ++ ": order read failed.".
Definition FILL_READ_FAILED : string := RECONCILE_UNCONFIRMED_PREFIX ++ ": fill read failed.".
Definition VENUE_STATUS_UNKNOWN : string := RECONCILE_UNCONFIRMED_PREFIX ++ ": venue status is unknown.".
Definition NO_VENUE_ID_DETAIL : string := UNCONFIRMED_SUBMIT_PREFIX ++ " and has no venue id.".
Definition READ_FAULT_DETAILS : list string := [ORDER_READ_FAILED; FILL_READ_FAILED].
Definition CANCELED_SETTLE_DELAY : timedelta := 15 * minute.

Definition _WATCH : list OrderStatus :=
  [OrderStatus.OPEN; OrderStatus.UNKNOWN; OrderStatus.PENDING; OrderStatus.FILLED; OrderStatus.CANCELED].

(** The fields [with_runtime] changes in a fault: status, detail. *)
Definition fault_change (status : DeploymentStatus) (detail : option string) (clear : bool) : RuntimeChange := {|
  new_cash := None; new_phase := None; new_mismatch_detail := detail; clear_mismatch := clear;
  new_last_evaluated_bar := None; new_last_signal := None; new_pending_entry_bars := None; new_bars_held := None;
  new_cooldown_bars_remaining := None; new_pending_stop_price := None; new_pending_target_price := None;
  clear_pending_levels := false; new_status := Some status; new_lifecycle_command := None;
  new_daily_loss_latched := None; new_drawdown_latched := None; new_last_signal_event_at := None;
  new_last_signal_processed_at := None |}.

Definition adoption_evidence_total {dc : DecimalContext} (fills : list Fill) : decimal := dsum (Fill.quantity <$> fills).

Section Reconcile.
Context {venue : Venue} {surroundings : Surroundings} {dc : DecimalContext}.

(** [trading.adoption.adoption_evidence_complete] *)
Definition adoption_evidence_complete (s : DeploymentSnapshot) (o : Order) : bool :=
  let own := List.filter (λ f, bool_decide (Fill.order_id f = Order.id o)) (DeploymentSnapshot.fills s) in
  bool_decide (Order.kind o = OrderKind.ADOPTION) && bool_decide (Order.status o = OrderStatus.FILLED)
  && bool_decide (Order.venue_order_id o = None) && negb (bool_decide (own = [])) && forallb applied own
  && (dsum (Fill.quantity <$> own) =? Order.quantity o)%dec && (Order.quantity o =? Order.filled_quantity o)%dec.

(** [fill_ledger.ingest_fill]: the stores of a cycle have the fill transaction. *)
Definition ingest_fill (store : ExecutionStore) (s : DeploymentSnapshot) (fill : Fill) (order : Order) (cooldown_bars : Z)
    (timeframe : option string) : M DeploymentSnapshot :=
  let d := DeploymentSnapshot.deployment s in
  '(_, updated) ← store_apply_fill_transaction store (Deployment.id d) fill order cooldown_bars
    (or_text (Deployment.timeframe d) timeframe);
  mret updated.

Definition replay_step (store : ExecutionStore) (cooldown_bars : Z) (current : DeploymentSnapshot) (fill : Fill)
    : M DeploymentSnapshot :=
  match List.find (λ o, bool_decide (Order.id o = Fill.order_id fill)) (DeploymentSnapshot.orders current) with
  | None => mret current
  | Some o =>
      if decide (Order.kind o = OrderKind.ADOPTION) then mret current
      else ingest_fill store current fill o cooldown_bars None
  end.

Definition replay_unapplied_fills (store : ExecutionStore) (s : DeploymentSnapshot) (cooldown_bars : Z) : M DeploymentSnapshot :=
  loop (replay_step store cooldown_bars) s (pending_fills s).

(** ** Faults *)

Definition _fault_status (d : Deployment) : DeploymentStatus :=
  if decide (Deployment.status d = DeploymentStatus.STOPPED) then DeploymentStatus.STOPPED else DeploymentStatus.PAUSED.

Definition _first_new_fault (current : option string) (before after : Deployment) : option string :=
  match current with
  | Some _ => current
  | None =>
      match Deployment.mismatch_detail after with
      | None => None
      | Some detail =>
          if bool_decide (Deployment.mismatch_detail before = Some detail) then None
          else if bool_decide (Deployment.status after ∈ [DeploymentStatus.PAUSED; DeploymentStatus.STOPPED]) then Some detail
          else None
      end
  end.

(** Save the deployment of a snapshot under a change, and read it back. *)
Definition save_change (store : ExecutionStore) (s : DeploymentSnapshot) (c : RuntimeChange) : M DeploymentSnapshot :=
  t ← utc_now;
  _ ← save store (with_runtime (DeploymentSnapshot.deployment s) t c);
  store_get_deployment store (Deployment.id (DeploymentSnapshot.deployment s)).

Definition _record_reconcile_fault (store : ExecutionStore) (s : DeploymentSnapshot) (detail : string) : M DeploymentSnapshot :=
  save_change store s (fault_change (_fault_status (DeploymentSnapshot.deployment s)) (Some detail) false).

Definition _retained_status (started current : DeploymentStatus) (first_fault : option string) : DeploymentStatus :=
  match started with
  | DeploymentStatus.STOPPED => DeploymentStatus.STOPPED
  | DeploymentStatus.PAUSED => DeploymentStatus.PAUSED
  | DeploymentStatus.RUNNING => match first_fault with Some _ => DeploymentStatus.PAUSED | None => current end
  end.

Definition _retain_reconcile_supervision (store : ExecutionStore) (s : DeploymentSnapshot) (started_status : DeploymentStatus)
    (started_detail first_fault : option string) : M DeploymentSnapshot :=
  let d := DeploymentSnapshot.deployment s in
  let status := _retained_status started_status (Deployment.status d) first_fault in
  let detail := match first_fault with Some _ => first_fault | None => started_detail end in
  if bool_decide (status = Deployment.status d) && bool_decide (detail = Deployment.mismatch_detail d) then mret s
  else if bool_decide (started_status = DeploymentStatus.RUNNING) && bool_decide (first_fault = None) then mret s
  else save_change store s (fault_change status detail (bool_decide (detail = None))).

(** ** One order *)

Definition _needs_reconcile (o : Order) (s : DeploymentSnapshot) : bool :=
  if bool_decide (Order.kind o = OrderKind.ADOPTION) || negb (bool_decide (Order.status o ∈ _WATCH)) then false
  else if bool_decide (Order.status o ∈ [OrderStatus.OPEN; OrderStatus.PENDING; OrderStatus.UNKNOWN]) then true
  else if bool_decide (Order.status o = OrderStatus.FILLED) && (applied_fill_quantity s (Order.id o) <? Order.quantity o)%dec
  then true
  else if bool_decide (Order.status o = OrderStatus.CANCELED) then bool_decide (Order.settled_at o = None)
  else if fill_economics_complete s o then false
  else if negb (bool_decide (Order.status o = OrderStatus.FILLED)) then true
  else
    let covered := if (d0 <? Order.filled_quantity o)%dec then Order.filled_quantity o else Order.quantity o in
    (applied_fill_quantity s (Order.id o) <? covered)%dec.

Definition _terminal (o : Order) : bool :=
  bool_decide (Order.status o = OrderStatus.CANCELED)
  || (bool_decide (Order.status o = OrderStatus.FILLED) && (Order.quantity o <=? Order.filled_quantity o)%dec).

Definition _mark_read_failed (store : ExecutionStore) (o : Order) : M unit :=
  t ← utc_now;
  let reason := if _terminal o || bool_decide (Order.reject_reason o = Some TERMINAL_READ_UNCONFIRMED_REASON)
                then Some TERMINAL_READ_UNCONFIRMED_REASON else Order.reject_reason o in
  store_save_order store (Order.set_venue_view o (Order.venue_order_id o) OrderStatus.UNKNOWN (Order.filled_quantity o) reason
    (Order.attached_child_venue_order_id o) None t).

(** A venue fill as a row of this book's order. *)
Definition local_fill (remote : Fill) (o : Order) (id : UUID) : Fill :=
  Fill.mk id (Order.deployment_id o) (Order.id o) (Fill.venue_fill_id remote) (Fill.price remote) (Fill.quantity remote)
    (Fill.fee remote) (Fill.filled_at remote) (Fill.venue_order_id remote) None.

(** [known] is a set the passes of one walk share; it is returned with the snapshot. *)
Definition Walk : Type := DeploymentSnapshot * gset string.

Definition known_fills (s : DeploymentSnapshot) : gset string := list_to_set (Fill.venue_fill_id <$> DeploymentSnapshot.fills s).

Definition _ingest_fills (store : ExecutionStore) (order : Order) (cooldown_bars : Z) (start : Walk) (remote_fills : list Fill) : M Walk :=
  loop (λ '(current, known) remote,
    if bool_decide (Fill.venue_fill_id remote ∈ known) then mret (current, known)
    else
      _ ← utc_now; id ← uuid7;
      current ← ingest_fill store current (local_fill remote order id) order cooldown_bars None;
      mret (current, {[Fill.venue_fill_id remote]} ∪ known)) start remote_fills.

Definition ingest_order_fills (store : ExecutionStore) (broker : Broker) (s : DeploymentSnapshot) (order : Order)
    (product_id : string) (cooldown_bars : Z) : M DeploymentSnapshot :=
  match truthy (Order.venue_order_id order) with
  | None => mret s
  | Some id =>
      remote ← try_except (fills ← list_fills broker product_id (Some id); mret (Some fills)) (except_broker_error (mret None));
      match remote with
      | None => mret s
      | Some remote => r ← _ingest_fills store order cooldown_bars (s, known_fills s) remote; mret r.1
      end
  end.

Definition _recover_unconfirmed_submit
    (find_order_by_client_id : string → string → datetime → M (option SubmitResult)) (order : Order) (product_id : string)
    : M (option SubmitResult) :=
  found ← find_order_by_client_id (Order.client_order_id order) product_id (Order.created_at order);
  match found with
  | Some r => if decide (SubmitResult.venue_order_id r = "") then mret None else mret (Some r)
  | None => mret None
  end.

Definition _pause_unconfirmed_submit (store : ExecutionStore) (s : DeploymentSnapshot) (order : Order) : M DeploymentSnapshot :=
  t ← utc_now;
  let d := DeploymentSnapshot.deployment s in
  let detail := (UNCONFIRMED_SUBMIT_PREFIX ++ ": no Coinbase order with client_order_id " ++ Order.client_order_id order
    ++ " was found; verify on Coinbase before resuming.")%string in
  _ ← save store (with_runtime d t (fault_change (_fault_status d) (Some detail) false));
  store_get_deployment store (Order.deployment_id order).

Definition _settle_canceled (store : ExecutionStore) (current : DeploymentSnapshot) (order : Order) : M DeploymentSnapshot :=
  let id := Deployment.id (DeploymentSnapshot.deployment current) in
  let now := Order.updated_at order in
  match Order.status order, Order.settled_at order, Order.canceled_at order with
  | OrderStatus.CANCELED, None, Some canceled_at =>
      if now - canceled_at <? CANCELED_SETTLE_DELAY then mret current
      else
        fresh ← store_get_deployment store id;
        match List.find (λ o, bool_decide (Order.id o = Order.id order)) (DeploymentSnapshot.orders fresh) with
        | None => mret fresh
        | Some stored_order =>
            match Order.status stored_order, Order.canceled_at stored_order with
            | OrderStatus.CANCELED, Some canceled_at =>
                if now - canceled_at <? CANCELED_SETTLE_DELAY then mret fresh
                else if (applied_fill_quantity fresh (Order.id order)
                         <? dmax (Order.filled_quantity stored_order) (Order.filled_quantity order))%dec then mret fresh
                else
                  _ ← store_save_order store (Order.set_settlement stored_order (Order.canceled_at stored_order) (Some now));
                  store_get_deployment store id
            | _, _ => mret fresh
            end
        end
  | _, _, _ => mret current
  end.

(** The outcome of the read: the answer, an order the venue has not, or a failed read. *)
Inductive order_read := Answered (r : SubmitResult) | NotFound | ReadFailed.

Definition read_order (broker : Broker) (order : Order) (product_id : string) : M order_read :=
  try_except
    match truthy (Order.venue_order_id order), client_order_lookup broker with
    | None, Some find =>
        recovered ← _recover_unconfirmed_submit find order product_id;
        match recovered with Some r => mret (Answered r) | None => mret NotFound end
    | _, _ => r ← get_order broker (default "" (Order.venue_order_id order)) (Order.client_order_id order); mret (Answered r)
    end
    (except_broker_error (mret ReadFailed)).

(** The row a successful read writes. *)
Definition observed_order (s : DeploymentSnapshot) (order : Order) (r : SubmitResult) (venue_order_id : string) : M Order :=
  let working := bool_decide (SubmitResult.status r ∈ [OrderStatus.OPEN; OrderStatus.PENDING; OrderStatus.UNKNOWN]) in
  observed ← (if bool_decide (Deployment.mode (DeploymentSnapshot.deployment s) = DeploymentMode.LIVE)
                 && negb (bool_decide (SubmitResult.status r = OrderStatus.UNKNOWN))
              then t ← utc_now; mret (Some t) else mret None : M (option datetime));
  t ← utc_now;
  mret (Order.set_venue_view order (Some venue_order_id) (SubmitResult.status r)
    (dmax (Order.filled_quantity order) (SubmitResult.filled_quantity r))
    (if bool_decide (Order.reject_reason order = Some CANCEL_PENDING_REASON) && working then Some CANCEL_PENDING_REASON
     else SubmitResult.reject_reason r)
    (or_text (Order.attached_child_venue_order_id order) (SubmitResult.attached_child_venue_order_id r)) observed t).

(** The fills of an order just read, and the faults they show. *)
Definition apply_read (store : ExecutionStore) (broker : Broker) (walk : Walk) (updated : Order) (status : OrderStatus)
    (product_id : string) (cooldown_bars : Z) : M Walk :=
  let '(s, known) := walk in
  remote ← try_except (fills ← list_fills broker product_id (Order.venue_order_id updated); mret (Some fills))
    (except_broker_error (mret None));
  match remote with
  | None =>
      _ ← _mark_read_failed store updated;
      s ← _record_reconcile_fault store s FILL_READ_FAILED; mret (s, known)
  | Some remote =>
      if bool_decide (status = OrderStatus.FILLED) && bool_decide (remote = []) then
        s ← _record_reconcile_fault store s FILLED_WITHOUT_REST_FILLS_DETAIL; mret (s, known)
      else
        '(current, known) ← _ingest_fills store updated cooldown_bars (s, known) remote;
        if (applied_fill_quantity current (Order.id updated) <? Order.filled_quantity updated)%dec then
          s ← _record_reconcile_fault store current FILLED_WITHOUT_REST_FILLS_DETAIL; mret (s, known)
        else if decide (status = OrderStatus.UNKNOWN) then
          s ← _record_reconcile_fault store current VENUE_STATUS_UNKNOWN; mret (s, known)
        else s ← _settle_canceled store current updated; mret (s, known)
  end.

Definition _reconcile_venue_order (store : ExecutionStore) (broker : Broker) (walk : Walk) (order : Order) (product_id : string)
    (cooldown_bars : Z) (read : bool) : M Walk :=
  let '(s, known) := walk in
  if negb read && negb (_needs_reconcile order s) then mret walk
  else
    answer ← read_order broker order product_id;
    match answer with
    | NotFound => s ← _pause_unconfirmed_submit store s order; mret (s, known)
    | ReadFailed =>
        _ ← _mark_read_failed store order;
        s ← _record_reconcile_fault store s ORDER_READ_FAILED; mret (s, known)
    | Answered r =>
        match truthy (or_text (Some (SubmitResult.venue_order_id r)) (Order.venue_order_id order)) with
        | None => s ← _record_reconcile_fault store s NO_VENUE_ID_DETAIL; mret (s, known)
        | Some venue_order_id =>
            updated ← observed_order s order r venue_order_id;
            _ ← store_save_order store updated;
            apply_read store broker walk updated (SubmitResult.status r) product_id cooldown_bars
        end
    end.

Definition _check_local_fill_coverage (store : ExecutionStore) (s : DeploymentSnapshot) (order : Order) : M DeploymentSnapshot :=
  if (applied_fill_quantity s (Order.id order) <? Order.filled_quantity order)%dec
  then _record_reconcile_fault store s FILLED_WITHOUT_REST_FILLS_DETAIL else mret s.

Definition _check_adoption_evidence (store : ExecutionStore) (s : DeploymentSnapshot) (order : Order) : M DeploymentSnapshot :=
  if adoption_evidence_complete s order then mret s
  else _record_reconcile_fault store s ADOPTION_EVIDENCE_INCOMPLETE_DETAIL.

Definition _reconcile_one_order (store : ExecutionStore) (broker : Broker) (walk : Walk) (order : Order) (product_id : string)
    (cooldown_bars : Z) (read : bool) : M Walk :=
  let '(s, known) := walk in
  if decide (Order.kind order = OrderKind.ADOPTION) then s ← _check_adoption_evidence store s order; mret (s, known)
  else if is_paper_broker broker && negb (bool_decide (truthy (Order.venue_order_id order) = None)) then
    if decide (Deployment.mode (DeploymentSnapshot.deployment s) = DeploymentMode.PAPER)
    then s ← _check_local_fill_coverage store s order; mret (s, known) else mret walk
  else _reconcile_venue_order store broker walk order product_id cooldown_bars read.

(** ** New fills, in execution order ([reconcile_fill_order.py]) *)

Definition _product (o : Order) (s : DeploymentSnapshot) (product_id : option string) : string :=
  default "" (or_text (Some (Order.product_id o)) (or_text product_id (Some (Deployment.product_id (DeploymentSnapshot.deployment s))))).

(** The links and progress the plan starts from. *)
Definition plan_order (s : DeploymentSnapshot) (p : _Plan) (o : Order) : _Plan :=
  match truthy (Order.venue_order_id o) with
  | None => p
  | Some id =>
      let parent := parent ← Order.parent_order_id o; List.find (λ q, bool_decide (Order.id q = parent)) (DeploymentSnapshot.orders s) in
      let parents := match parent ≫= (λ q, truthy (Order.venue_order_id q)) with
        | Some venue_id => dict_set id venue_id (parent_of p) | None => parent_of p end in
      mk_plan (listed p) (plan_products p) parents (dict_set id (Order.filled_quantity o) (reported p)) (required p) (short_parents p)
  end.

Definition list_one (broker : Broker) (s : DeploymentSnapshot) (product_id : option string) (watched : Order → bool) (o : Order)
    : M unit :=
  match truthy (Order.venue_order_id o) with
  | None => mret tt
  | Some id =>
      p ← get_plan;
      if bool_decide (Order.kind o = OrderKind.ADOPTION) || negb (watched o) || has_short_parent p id then mret tt
      else
        let product := _product o s product_id in
        _ ← set_plan (plan_product p id product);
        try_except (fills ← list_fills broker product (Some id); p ← get_plan; set_plan (plan_record p id fills))
          (except_broker_error (p ← get_plan; set_plan (plan_short p id)))
  end.

Definition _list_watched (broker : Broker) (s : DeploymentSnapshot) (product_id : option string) (watched : Order → bool) : M unit :=
  _ ← set_plan (fold_left (plan_order s) (DeploymentSnapshot.orders s) empty_plan);
  loop (λ _ o, list_one broker s product_id watched o) tt (sort_by creation_order_le (DeploymentSnapshot.orders s)).

Definition mark_parent (s : DeploymentSnapshot) (p : _Plan) (link : string * string) : _Plan :=
  let '(child, parent) := link in
  let parent_total :=
    match dict_get parent (listed p) with
    | Some fills => _total fills
    | None =>
        match List.find (λ o, bool_decide (Order.venue_order_id o = Some parent)) (DeploymentSnapshot.orders s) with
        | Some o => applied_fill_quantity s (Order.id o)
        | None => d0
        end
    end in
  let child_total := _total (default [] (dict_get child (listed p))) in
  let p := mk_plan (listed p) (plan_products p) (parent_of p) (reported p)
             (dict_set parent (dmax (dict_get_zero parent (required p)) child_total) (required p)) (short_parents p) in
  if (parent_total <? child_total)%dec then plan_short p parent else p.

Definition _mark_short_parents (p : _Plan) (s : DeploymentSnapshot) : _Plan := fold_left (mark_parent s) (parent_of p) p.

Definition new_fill_step (o : Order) (state : gset string * list (Fill * Order)) (f : Fill) : gset string * list (Fill * Order) :=
  let '(known, new) := state in
  if bool_decide (Fill.venue_fill_id f ∈ known) then state else ({[Fill.venue_fill_id f]} ∪ known, new ++ [(f, o)]).

Definition _new_fills (p : _Plan) (s : DeploymentSnapshot) : list (Fill * Order) :=
  (fold_left (λ state o,
    let id := default "" (Order.venue_order_id o) in
    if has_short_parent p id then state
    else fold_left (new_fill_step o) (default [] (dict_get id (listed p))) state)
    (DeploymentSnapshot.orders s) (known_fills s, [])).2.

(** [(filled_at, is a child, venue_fill_id)] *)
Definition execution_order_le (a b : Fill * Order) : bool :=
  let child (o : Order) := negb (bool_decide (Order.parent_order_id o = None)) in
  if Fill.filled_at a.1 <? Fill.filled_at b.1 then true
  else if Fill.filled_at b.1 <? Fill.filled_at a.1 then false
  else match child a.2, child b.2 with
       | false, true => true
       | true, false => false
       | _, _ => String.leb (Fill.venue_fill_id a.1) (Fill.venue_fill_id b.1)
       end.

Definition apply_new_fill (store : ExecutionStore) (product_id : option string) (cooldown_bars : Z) (current : DeploymentSnapshot)
    (item : Fill * Order) : M DeploymentSnapshot :=
  let '(remote, order) := item in
  let latest := default order (List.find (λ o, bool_decide (Order.id o = Order.id order)) (DeploymentSnapshot.orders current)) in
  let product := _product latest current product_id in
  _ ← utc_now; id ← uuid7;
  _ ← ingest_fill (InstrumentScopedStore store product) (overlay_snapshot current product) (local_fill remote latest id) latest
        cooldown_bars None;
  store_get_deployment store (Deployment.id (DeploymentSnapshot.deployment current)).

Definition apply_new_fills_in_execution_order (store : ExecutionStore) (broker : Broker) (s : DeploymentSnapshot)
    (product_id : option string) (cooldown_bars : Z) (watched : Order → bool)
    : M (DeploymentSnapshot * Broker * gset UUID) :=
  if is_paper_broker broker then mret (s, broker, ∅)
  else
    _ ← _list_watched broker s product_id watched;
    p ← get_plan;
    let p := _mark_short_parents p s in
    _ ← set_plan p;
    let new := _new_fills p s in
    let applied_orders : gset UUID := list_to_set ((λ item, Order.id item.2) <$> new) in
    let several := bool_decide (2 <= size applied_orders)%nat in
    current ← loop (apply_new_fill store product_id cooldown_bars) s (sort_by execution_order_le (if several then new else []));
    mret (current, ListedFills, if several then applied_orders else ∅).

(** ** The walk *)

Definition child_of (order : Order) (child_id : string) (product_id : string) : M Order :=
  _ ← utc_now; id ← uuid7; created ← utc_now; updated ← utc_now;
  mret (attached_child order child_id id created updated OrderStatus.UNKNOWN product_id).

Definition import_one (store : ExecutionStore) (broker : Broker) (started : DeploymentSnapshot) (product_id : option string)
    (cooldown_bars : Z) (state : DeploymentSnapshot * option string * list string) (order : Order)
    : M (DeploymentSnapshot * option string * list string) :=
  let '(current, first_fault, known_venues) := state in
  match truthy (Order.attached_child_venue_order_id order) with
  | None => mret state
  | Some child_id =>
      if bool_decide (child_id ∈ known_venues) then mret state
      else
        let before := DeploymentSnapshot.deployment current in
        child ← child_of order child_id (_product order started product_id);
        _ ← store_save_order store child;
        current ← store_get_deployment store (Order.deployment_id order);
        let order_product := _product child started product_id in
        _ ← _reconcile_one_order (InstrumentScopedStore store order_product) broker
              (overlay_snapshot current order_product, known_fills current) child order_product cooldown_bars false;
        current ← store_get_deployment store (Order.deployment_id order);
        mret (current, _first_new_fault first_fault before (DeploymentSnapshot.deployment current), child_id :: known_venues)
  end.

Definition import_attached_children (store : ExecutionStore) (broker : Broker) (s : DeploymentSnapshot) (product_id : option string)
    (cooldown_bars : Z) : M DeploymentSnapshot :=
  let known_venues := omap (λ o, truthy (Order.venue_order_id o)) (DeploymentSnapshot.orders s) in
  '(current, first_fault, _) ← loop (import_one store broker s product_id cooldown_bars) (s, None, known_venues)
    (DeploymentSnapshot.orders s);
  let d := DeploymentSnapshot.deployment s in
  _retain_reconcile_supervision store current (Deployment.status d) (Deployment.mismatch_detail d) first_fault.

Definition _unread_orders (s : DeploymentSnapshot) (walked : gset UUID) : bool :=
  let local := omap (λ o, truthy (Order.venue_order_id o)) (DeploymentSnapshot.orders s) in
  existsb (λ o,
    bool_decide (Order.status o = OrderStatus.UNKNOWN)
    || (negb (bool_decide (Order.id o ∈ walked)) && _needs_reconcile o s)
    || match Order.attached_child_venue_order_id o with Some child => negb (bool_decide (child ∈ local)) | None => false end)
    (DeploymentSnapshot.orders s).

Definition _read_fault_confirmed (s : DeploymentSnapshot) (walked : option (gset UUID)) : bool :=
  match walked, Deployment.mismatch_detail (DeploymentSnapshot.deployment s) with
  | Some walked, Some detail =>
      bool_decide (detail ∈ READ_FAULT_DETAILS) && negb (_unread_orders s walked) && negb (unsettled_fill_evidence s)
      && bool_decide (unprojected_inventory_products s = [])
  | _, _ => false
  end.

Definition clear_change : RuntimeChange := {|
  new_cash := None; new_phase := None; new_mismatch_detail := None; clear_mismatch := true;
  new_last_evaluated_bar := None; new_last_signal := None; new_pending_entry_bars := None; new_bars_held := None;
  new_cooldown_bars_remaining := None; new_pending_stop_price := None; new_pending_target_price := None;
  clear_pending_levels := false; new_status := None; new_lifecycle_command := None;
  new_daily_loss_latched := None; new_drawdown_latched := None; new_last_signal_event_at := None;
  new_last_signal_processed_at := None |}.

Definition _clear_confirmed_read_fault (store : ExecutionStore) (s : DeploymentSnapshot) : M DeploymentSnapshot :=
  save_change store s clear_change.

Section Walk.
Variable store : ExecutionStore.
Variable product_id : option string.
Variable cooldown_bars : Z.
Variable started : Deployment.

Definition retain (s : DeploymentSnapshot) (first_fault : option string) : M DeploymentSnapshot :=
  _retain_reconcile_supervision store s (Deployment.status started) (Deployment.mismatch_detail started) first_fault.

Definition walk_order (broker : Broker) (applied_orders : gset UUID) (state : DeploymentSnapshot * option string * gset string)
    (listed_order : Order) : M (DeploymentSnapshot * option string * gset string) :=
  let '(s, first_fault, known) := state in
  let order := default listed_order (List.find (λ o, bool_decide (Order.id o = Order.id listed_order)
    && bool_decide (Order.id o ∈ applied_orders)) (DeploymentSnapshot.orders s)) in
  let before := DeploymentSnapshot.deployment s in
  let order_product := _product order s product_id in
  '(_, known) ← _reconcile_one_order (InstrumentScopedStore store order_product) broker
    (overlay_snapshot s order_product, known) order order_product cooldown_bars (bool_decide (Order.id order ∈ applied_orders));
  s ← store_get_deployment store (Deployment.id before);
  let first_fault := _first_new_fault first_fault before (DeploymentSnapshot.deployment s) in
  s ← retain s first_fault;
  mret (s, first_fault, known).

(** The faults the stored fills already show. *)
Definition check_stored (s : DeploymentSnapshot) : M DeploymentSnapshot :=
  s ← replay_unapplied_fills store s cooldown_bars;
  s ← (if forallb applied (DeploymentSnapshot.fills s) then mret s else _record_reconcile_fault store s UNAPPLIED_FILLS_DETAIL);
  if bool_decide (Deployment.status (DeploymentSnapshot.deployment s) = DeploymentStatus.RUNNING)
     && negb (bool_decide (unprojected_inventory_products s = []))
  then _record_reconcile_fault store s UNPROJECTED_DETAIL else mret s.

Definition import_phase (broker : Broker) (id : UUID) (first_fault : option string) : M (DeploymentSnapshot * option string) :=
  s ← store_get_deployment store id;
  let before := DeploymentSnapshot.deployment s in
  s ← import_attached_children store broker s product_id cooldown_bars;
  s ← store_get_deployment store (Deployment.id (DeploymentSnapshot.deployment s));
  let first_fault := _first_new_fault first_fault before (DeploymentSnapshot.deployment s) in
  s ← retain s first_fault;
  mret (s, first_fault).

End Walk.

Definition reconcile_open_orders (store : ExecutionStore) (broker : Broker) (s : DeploymentSnapshot) (product_id : option string)
    (cooldown_bars : Z) : M DeploymentSnapshot :=
  let started := DeploymentSnapshot.deployment s in
  unread ← check_stored store cooldown_bars s;
  '(s, broker, applied_orders) ← apply_new_fills_in_execution_order store broker unread product_id cooldown_bars
    (λ o, _needs_reconcile o unread);
  let known := known_fills s in
  let first_fault := _first_new_fault None started (DeploymentSnapshot.deployment s) in
  s ← retain store started s first_fault;
  let walked := if is_paper_broker broker
      && negb (bool_decide (Deployment.mode (DeploymentSnapshot.deployment s) = DeploymentMode.PAPER)) then None
    else Some (list_to_set (Order.id <$> DeploymentSnapshot.orders unread) : gset UUID) in
  '(s, first_fault, _) ← loop (walk_order store product_id cooldown_bars started broker applied_orders) (s, first_fault, known)
    (sort_by creation_order_le (DeploymentSnapshot.orders unread));
  '(s, first_fault) ← import_phase store product_id cooldown_bars started broker (Deployment.id (DeploymentSnapshot.deployment s)) first_fault;
  whole ← get_accounting_snapshot store (Deployment.id (DeploymentSnapshot.deployment s));
  if bool_decide (first_fault = None) && _read_fault_confirmed whole walked then _clear_confirmed_read_fault store s
  else mret s.

End Reconcile.
