(* ===== verification/Exits.v ===== *)
(** * Exits: runtime updates, cancels and exits

    [execution/runtime_ops.py]; then [exits.py], [futures_reduction.py],
    [futures_obligations.py] and [futures_cancel.py]. *)

From S2P Require Import Prelude Decimals Market Geometry IndicatorSpec Conditions Strategy SignalTrace Containers.
From S2P Require Import TradingModels FillLedger ExecutionStore StoreSteps FuturesBooks FuturesGate LiveSignals.
From S2P Require Import Engine ExitGuards FuturesVenue Submit Reconcile.

Open Scope Z_scope.

(** * The shared operations of the loop ([execution/runtime_ops.py])

    Matching resting orders against a closed candle, cancelling, pausing, and writing the
    runtime back without undoing an operator's stop. *)

(** A call of [with_runtime] that names these fields. *)
Definition runtime_update (phase : option RuntimePhase) (pending_entry_bars cooldown_bars_remaining : option Z)
    (clear_levels : bool) (status : option DeploymentStatus) (detail : option string) : RuntimeChange := {|
  new_cash := None; new_phase := phase; new_mismatch_detail := detail; clear_mismatch := false;
  new_last_evaluated_bar := None; new_last_signal := None; new_pending_entry_bars := pending_entry_bars;
  new_bars_held := None; new_cooldown_bars_remaining := cooldown_bars_remaining; new_pending_stop_price := None;
  new_pending_target_price := None; clear_pending_levels := clear_levels; new_status := status;
  new_lifecycle_command := None; new_daily_loss_latched := None; new_drawdown_latched := None;
  new_last_signal_event_at := None; new_last_signal_processed_at := None |}.

(** [phase=...] alone *)
Definition to_phase (phase : RuntimePhase) : RuntimeChange := runtime_update (Some phase) None None false None None.

(** [last_evaluated_bar=..., status=...] *)
Definition evaluated_bar (bar : datetime) (status : DeploymentStatus) : RuntimeChange := {|
  new_cash := None; new_phase := None; new_mismatch_detail := None; clear_mismatch := false;
  new_last_evaluated_bar := Some bar; new_last_signal := None; new_pending_entry_bars := None; new_bars_held := None;
  new_cooldown_bars_remaining := None; new_pending_stop_price := None; new_pending_target_price := None;
  clear_pending_levels := false; new_status := Some status; new_lifecycle_command := None;
  new_daily_loss_latched := None; new_drawdown_latched := None; new_last_signal_event_at := None;
  new_last_signal_processed_at := None |}.

Section RuntimeOps.
Context {venue : Venue} {surroundings : Surroundings} {dc : DecimalContext} {scope : CycleScope}.

Definition _reconcile_stopped_live (store : ExecutionStore) (broker : Broker) (s : DeploymentSnapshot) : M DeploymentSnapshot :=
  if negb (bool_decide (Deployment.mode (DeploymentSnapshot.deployment s) = DeploymentMode.LIVE)) then mret s
  else reconcile_open_orders store broker s (Position.product_id <$> DeploymentSnapshot.position s) 0.

(** ** Pausing *)

Definition _pause_in (store : ExecutionStore) (s : DeploymentSnapshot) (detail : string) (phase : option RuntimePhase)
    : M DeploymentSnapshot :=
  let d := DeploymentSnapshot.deployment s in
  let flat := bool_decide (phase = Some RuntimePhase.FLAT) in
  save_change store s
    (runtime_update (Some (default (Runtime.phase d) phase)) (if flat then Some 0 else None) None flat
       (Some (_fault_status d)) (Some detail)).

Definition _pause (store : ExecutionStore) (s : DeploymentSnapshot) (detail : string) : M DeploymentSnapshot :=
  _pause_in store s detail None.

(** The audit note formats the time of the next attempt, which may be too far away to compute. *)
Definition _pause_rejected (store : ExecutionStore) (s : DeploymentSnapshot) (rejection : SubmitRejection) : M DeploymentSnapshot :=
  let d := DeploymentSnapshot.deployment s in
  let detail := rejection_detail rejection in
  if bool_decide (Deployment.mismatch_detail d = Some detail) && negb (bool_decide (Deployment.status d = DeploymentStatus.RUNNING))
  then mret s
  else
    paused ← _pause store s detail;
    _ ← pure (retry_at rejection);
    mret paused.

Definition _flatten_pending (store : ExecutionStore) (s : DeploymentSnapshot) (cooldown_bars : Z) : M DeploymentSnapshot :=
  save_change store s (runtime_update (Some RuntimePhase.FLAT) (Some 0) (Some cooldown_bars) true None None).

Definition _persist_runtime (store : ExecutionStore) (s : DeploymentSnapshot) (last_evaluated_bar : datetime) : M DeploymentSnapshot :=
  let d := DeploymentSnapshot.deployment s in
  latest ← store_get_deployment store (Deployment.id d);
  let operator := Deployment.status (DeploymentSnapshot.deployment latest) in
  let status := if bool_decide (Deployment.status d = DeploymentStatus.PAUSED)
                   && negb (bool_decide (operator = DeploymentStatus.STOPPED)) then DeploymentStatus.PAUSED else operator in
  save_change store s (evaluated_bar last_evaluated_bar status).

(** ** Cancelling *)

(** [An absent or incomplete position is no authority to remove real protection]. *)
Definition protects_unprojected (s : DeploymentSnapshot) (o : Order) : bool :=
  bool_decide (resolved_product_id (Order.product_id o) (DeploymentSnapshot.deployment s) ∈ unprojected_inventory_products s)
  && (is_venue_protection (Order.kind o)
      || negb (existsb (λ i, bool_decide (OrderIntent.id i = Order.intent_id o)
                             && bool_decide (OrderIntent.purpose i = IntentPurpose.ENTRY)) (DeploymentSnapshot.intents s))).

(** The venue's answer to the cancel, or to the read that confirms an accepted one. *)
Definition cancel_answer (broker : Broker) (o : Order) (venue_order_id : string) : M SubmitResult :=
  if bool_decide (Order.reject_reason o = Some CANCEL_PENDING_REASON) then
    r ← get_order broker venue_order_id (Order.client_order_id o);
    mret (if bool_decide (SubmitResult.status r ∈ _WORKING_STATUSES)
          then SubmitResult.set_reject_reason r (Some CANCEL_PENDING_REASON) else r)
  else cancel_order broker venue_order_id (Order.client_order_id o).

(** The order after a cancel was answered at an instant. *)
Definition canceled_row (o : Order) (r : SubmitResult) (t : datetime) : Order :=
  Order.set_venue_view o (Order.venue_order_id o) (SubmitResult.status r)
    (dmax (Order.filled_quantity o) (SubmitResult.filled_quantity r)) (SubmitResult.reject_reason r)
    (Order.attached_child_venue_order_id o) (Order.venue_observed_at o) t.

Definition _cancel_one_order (store : ExecutionStore) (broker : Broker) (o : Order) : M DeploymentSnapshot :=
  s ← store_get_deployment store (Order.deployment_id o);
  match Order.venue_order_id o with
  | None => mret s
  | Some venue_order_id =>
      if protects_unprojected s o then mret s
      else
        answer ← try_except (r ← cancel_answer broker o venue_order_id; mret (Some r)) (except_broker_error (mret None));
        match answer with
        | None => store_get_deployment store (Order.deployment_id o)
        | Some r =>
            t ← utc_now;
            _ ← store_save_order store (canceled_row o r t);
            store_get_deployment store (Order.deployment_id o)
        end
  end.

Definition _cancel_open_orders (store : ExecutionStore) (broker : Broker) (s : DeploymentSnapshot) : M unit :=
  loop (λ _ o, if order_active o && negb (bool_decide (truthy (Order.venue_order_id o) = None))
               then _ ← _cancel_one_order store broker o; mret tt else mret tt) tt (DeploymentSnapshot.orders s).

Definition cancel_resting_orders (store : ExecutionStore) (broker : Broker) (s : DeploymentSnapshot) : M DeploymentSnapshot :=
  _ ← _cancel_open_orders store broker s;
  current ← store_get_deployment store (Deployment.id (DeploymentSnapshot.deployment s));
  let blocking := active_orders current in
  if bool_decide (Deployment.status (DeploymentSnapshot.deployment current) = DeploymentStatus.STOPPED)
     && negb (bool_decide (blocking = [])) then
    if forallb cancel_pending blocking then mret current else _pause store current CANCEL_BEFORE_EXIT_DETAIL
  else mret current.

(** ** Matching *)

Definition _stop_preempts_take_profit (s : DeploymentSnapshot) (o : Order) (candle : Candle) : bool :=
  match List.find (λ i, bool_decide (OrderIntent.id i = Order.intent_id o)) (DeploymentSnapshot.intents s) with
  | None => false
  | Some intent =>
      if negb (bool_decide (OrderIntent.purpose intent = IntentPurpose.TAKE_PROFIT)) then false
      else match DeploymentSnapshot.position s with
        | None => false
        | Some p =>
            if negb (bool_decide (Order.product_id o = "")) && negb (bool_decide (Position.product_id p = ""))
               && negb (bool_decide (Order.product_id o = Position.product_id p)) then false
            else paper_stop_hit (Position.side p) candle (Position.stop_price p)
                 || paper_liquidation_hit bound_futures_book s (Some p) candle
        end
  end.

Definition match_one (store : ExecutionStore) (broker : Broker) (candle : Candle) (cooldown_bars : Z) (timeframe : option string)
    (stop_first : bool) (bar_closes_at : option datetime) (s : DeploymentSnapshot) (o : Order) : M DeploymentSnapshot :=
  if negb (bool_decide (Order.status o = OrderStatus.OPEN)) then mret s
  else if match bar_closes_at with Some closes => closes <=? Order.created_at o | None => false end then mret s
  else if stop_first && _stop_preempts_take_profit s o candle then mret s
  else
    fill ← match_open_order broker o candle;
    match fill with
    | None => mret s
    | Some fill => ingest_fill store s fill o cooldown_bars timeframe
    end.

Definition _match_resting_orders (store : ExecutionStore) (broker : Broker) (s : DeploymentSnapshot) (candle : Candle)
    (cooldown_bars : Z) (timeframe : option string) (stop_first : bool) (bar_closes_at : option datetime) : M DeploymentSnapshot :=
  s ← loop (match_one store broker candle cooldown_bars timeframe stop_first bar_closes_at) s (DeploymentSnapshot.orders s);
  store_get_deployment store (Deployment.id (DeploymentSnapshot.deployment s)).

Definition apply_fill (store : ExecutionStore) (s : DeploymentSnapshot) (fill : Fill) (o : Order) (cooldown_bars : Z)
    (timeframe : option string) : M DeploymentSnapshot :=
  ingest_fill store s fill o cooldown_bars (or_text timeframe (Deployment.timeframe (DeploymentSnapshot.deployment s))).

(** ** Attached children, entries *)

Definition _adopt_venue_attached_child (store : ExecutionStore) (broker : Broker) (s : DeploymentSnapshot) (product_id : string)
    : M DeploymentSnapshot :=
  match DeploymentSnapshot.position s ≫= filled_attached_entry s with
  | None => mret s
  | Some entry =>
      match truthy (Order.attached_child_venue_order_id entry), truthy (Order.venue_order_id entry) with
      | None, Some venue_order_id =>
          observed ← try_except (r ← get_order broker venue_order_id (Order.client_order_id entry); mret (Some r))
            (except_broker_error (mret None));
          match observed ≫= (λ r, truthy (SubmitResult.attached_child_venue_order_id r)) with
          | None => mret s
          | Some child_id =>
              t ← utc_now;
              _ ← store_save_order store (Order.set_venue_view entry (Order.venue_order_id entry) (Order.status entry)
                    (Order.filled_quantity entry) (Order.reject_reason entry) (Some child_id) (Order.venue_observed_at entry) t);
              refreshed ← store_get_deployment store (Deployment.id (DeploymentSnapshot.deployment s));
              import_attached_children store broker refreshed (Some product_id) 0
          end
      | _, _ => mret s
      end
  end.

Definition _active_side (orders : list Order) (side : OrderSide) : option Order :=
  List.find (λ o, order_active o && bool_decide (Order.side o = side)) orders.

Definition _is_working_entry_order (o : Order) : bool :=
  order_active o && bool_decide (Order.parent_order_id o = None) && bool_decide (Order.kind o ∈ _ENTRY_KINDS).

Definition _active_entry (s : DeploymentSnapshot) : option Order :=
  match intents_for s [IntentPurpose.ENTRY] with
  | [] =>
      let known := OrderIntent.id <$> DeploymentSnapshot.intents s in
      List.find (λ o, _is_working_entry_order o && negb (bool_decide (Order.intent_id o ∈ known))) (DeploymentSnapshot.orders s)
  | entry_ids =>
      List.find (λ o, bool_decide (Order.intent_id o ∈ entry_ids) && _is_working_entry_order o) (DeploymentSnapshot.orders s)
  end.

Definition entry_executions_unapplied (s : DeploymentSnapshot) : bool :=
  existsb (λ o, bool_decide (Order.parent_order_id o = None) && bool_decide (Order.kind o ∈ _ENTRY_KINDS)
                && (applied_fill_quantity s (Order.id o) <? Order.filled_quantity o)%dec) (DeploymentSnapshot.orders s).

End RuntimeOps.

(** * Marketable exits ([execution/exits.py], [futures_reduction.py], [futures_obligations.py])

    An exit cancels what rests, waits until nothing works, and only then sells the position.
    A live futures book is reduced instead: the venue must prove the inventory is the book's.
    A filled exit whose fills are not applied yet is settled, never sent again. *)

Definition REDUCTION_UNPROVEN_DETAIL : string := "FUTURES_REDUCTION_UNPROVEN: inventory changed during cancel confirmation.".
Definition REDUCTION_UNRESOLVED_DETAIL : string :=
  "Futures reduction remains unresolved or has residual inventory; reconcile before another submit.".
Definition FLAT_CONFIRMATION_DETAIL : string :=
  "FUTURES_FLAT_CONFIRMATION_PENDING: fills applied; await fresh venue-flat evidence.".

Definition detail_change (detail : string) : RuntimeChange := runtime_update None None None false None (Some detail).

(** The window is gap-free on the decision clock. *)
Fixpoint gap_free (step : timedelta) (candles : list Candle) : bool :=
  match candles with
  | earlier :: ((later :: _) as rest) => (starts_at later - starts_at earlier =? step) && gap_free step rest
  | _ => true
  end.

Definition _window_contiguous (candles : list Candle) (timeframe : string) : result bool :=
  i ← parse_candle_interval timeframe; Ok (gap_free (duration i) candles).

(** [_exit_cooldown] of [breaker_pause.py]. *)
Definition _exit_cooldown (strategy : option StrategyDefinition) (cooldown_bars : option Z) : Z :=
  match cooldown_bars, strategy with
  | Some bars, _ => bars
  | None, None => 0
  | None, Some d => Strategy.cooldown_bars (entry d)
  end.

(** What the cycle was given to read: the decision bars and the other clocks' bars. *)
Record CycleBars := {
  cycle_candles : list Candle;
  cycle_htf_candles : list Candle;
  cycle_extra_candles : gmap string (list Candle);
  cycle_reference_candles : gmap string (list Candle)
}.

Section Exits.
Context {venue : Venue} {surroundings : Surroundings} {dc : DecimalContext} {scope : CycleScope}.
Variable store : ExecutionStore.
Variable broker : Broker.

Definition reload (s : DeploymentSnapshot) : M DeploymentSnapshot :=
  store_get_deployment store (Deployment.id (DeploymentSnapshot.deployment s)).

(** ** The exit rule *)

Definition is_evaluation_error (e : error) : option string :=
  match e with SignalEvaluationError message => Some message | _ => None end.

Definition _evaluate_signal_exit (strategy : StrategyDefinition) (bars : CycleBars) (candle : Candle) (s : DeploymentSnapshot)
    : M (DeploymentSnapshot * bool) :=
  match DeploymentSnapshot.position s, signal_exit_condition (exits strategy) with
  | Some p, Some _ =>
      if negb (bool_decide (Position.signal_exit_bar p = None)) || (starts_at candle <=? Position.entered_bar p)
      then mret (s, false)
      else
        contiguous ← pure (_window_contiguous (cycle_candles bars) (timeframe strategy));
        if negb contiguous then mret (s, false)
        else match evaluate_latest_signal_exit strategy (cycle_candles bars) (cycle_htf_candles bars) (cycle_extra_candles bars)
                     (cycle_reference_candles bars) with
          | Raise e =>
              match is_evaluation_error e with
              | None => raise e
              | Some message =>
                  if decide (Deployment.status (DeploymentSnapshot.deployment s) = DeploymentStatus.RUNNING)
                  then s ← _pause store s message; mret (s, false) else mret (s, false)
              end
          | Ok None => mret (s, false)
          | Ok (Some evaluation) => mret (s, bool_decide (exit_outcome evaluation = MATCHED))
          end
  | _, _ => mret (s, false)
  end.

Definition _mark_signal_exit (candle : Candle) (s : DeploymentSnapshot) : M DeploymentSnapshot :=
  match DeploymentSnapshot.position s with
  | None => mret s
  | Some p =>
      t ← utc_now;
      _ ← store_save_position store (Some (Position.set_signal_exit p (starts_at candle) t))
            (Deployment.id (DeploymentSnapshot.deployment s)) None;
      reload s
  end.

Definition _mark_pending_exit (s : DeploymentSnapshot) : M DeploymentSnapshot := save_change store s (to_phase RuntimePhase.PENDING_EXIT).

(** ** Reductions of a live futures book ([futures_reduction.py]) *)

Definition retain_flat_confirmation (s : DeploymentSnapshot) (now : datetime) : M DeploymentSnapshot :=
  let d := DeploymentSnapshot.deployment s in
  if negb (bool_decide (Deployment.futures_flat_confirmation_after d = None)) then mret s
  else if bool_decide (DeploymentSnapshot.position s = None) && bool_decide (active_orders s = [])
          && negb (unsettled_fill_evidence s) && bool_decide (unprojected_inventory_products s = [])
          && negb (Deployment.futures_derisk_pending d) then mret s
  else
    let required := require_futures_flat_confirmation d now false in
    if bool_decide (Deployment.futures_flat_confirmation_after required = None) then mret s
    else _ ← save store required; reload s.

Definition cancel_proven_one (account : option FuturesLiveAccount) (now : datetime) (state : DeploymentSnapshot * bool)
    (candidate : Order) : M (DeploymentSnapshot * bool) :=
  let '(s, go_on) := state in
  if negb go_on then mret state
  else
    s ← reload s;
    match List.find (λ o, bool_decide (Order.id o = Order.id candidate)) (active_orders s) with
    | None => mret (s, true)
    | Some o =>
        match Order.venue_order_id o with
        | None => mret (s, true)
        | Some venue_order_id =>
            if negb (cancellation_proven s account now) || negb (_owned_order s o) then mret (s, false)
            else
              answer ← try_except (
                r ← (if cancel_pending o then
                       r ← get_order broker venue_order_id (Order.client_order_id o);
                       mret (if bool_decide (SubmitResult.status r ∈ _WORKING_STATUSES)
                             then SubmitResult.set_reject_reason r (Some CANCEL_PENDING_REASON) else r)
                     else cancel_order broker venue_order_id (Order.client_order_id o));
                mret (Some r)) (except_broker_error (mret None));
              match answer with
              | None => s ← reload s; mret (s, false)
              | Some r =>
                  _ ← store_save_order store (canceled_row o r now);
                  s ← reload s;
                  s ← reconcile_open_orders store broker s None 0;
                  mret (s, true)
              end
        end
    end.

(** An early return of the loop ends it: the flag. *)
Definition cancel_proven_futures_orders (account : option FuturesLiveAccount) (now : datetime) (s : DeploymentSnapshot)
    : M DeploymentSnapshot :=
  r ← loop (cancel_proven_one account now) (s, true) (active_orders s); mret r.1.

Definition _reduction_key (s : DeploymentSnapshot) (p : Position) (purpose : IntentPurpose) : string :=
  let base := ("futures-reduction:" ++ Deployment.id (DeploymentSnapshot.deployment s) ++ ":" ++ IntentPurpose.value purpose
               ++ ":" ++ isoformat (Position.updated_at p))%string in
  let attempts := length (List.filter (λ i, String.prefix base (default "" (OrderIntent.idempotency_key i))) (DeploymentSnapshot.intents s)) in
  match attempts with
  | O => base
  | S _ => (base ++ ":attempt-" ++ pretty.pretty (Z.of_nat attempts + 1))%string
  end.

Definition _unresolved_reduction (s : DeploymentSnapshot) : bool :=
  negb (bool_decide (exit_fill_pending s = None))
  || existsb (λ o, bool_decide (Order.kind o = OrderKind.MARKETABLE)) (active_orders s)
  || unsettled_fill_evidence s || negb (bool_decide (unprojected_inventory_products s = [])).

Definition _reduction_proven (s : DeploymentSnapshot) (account : option FuturesLiveAccount) (now : datetime) : bool :=
  match account with
  | None => false
  | Some account =>
      let venue := FuturesLiveAccount.venue account in
      match FuturesVenueEvidence.external_order_products venue with
      | None => false
      | Some external =>
          if bool_decide (Deployment.product_id (DeploymentSnapshot.deployment s) ∈ external) then false
          else match compare_position s (Some venue) now with
            | None => false
            | Some c => matches c && negb (book_contracts c =? d0)%dec
            end
      end
  end.

Definition _pending (s : DeploymentSnapshot) (now : datetime) : M DeploymentSnapshot :=
  _ ← save store (with_runtime (DeploymentSnapshot.deployment s) now (to_phase RuntimePhase.PENDING_EXIT)); reload s.

Definition _await_flat_confirmation (s : DeploymentSnapshot) (now : datetime) : M DeploymentSnapshot :=
  let d := DeploymentSnapshot.deployment s in
  if decide (Deployment.lifecycle_command d = LifecycleCommand.FLATTEN)
  then _ ← save store (with_runtime d now (detail_change FLAT_CONFIRMATION_DETAIL)); reload s
  else mret s.

Definition marketable_submission (product_id : string) (purpose : IntentPurpose) (p : Position) (price : option decimal)
    (candle : option Candle) (decision_at : option datetime) (key : option string) : Submission := {|
  submit_product_id := product_id; submit_purpose := purpose; submit_side := exit_order_side (Position.side p);
  submit_kind := OrderKind.MARKETABLE; submit_quantity := Position.quantity p; submit_price := price;
  submit_candle := candle; submit_decision_at := decision_at; submit_stop_trigger_price := None;
  submit_take_profit_price := None; submit_origin := IntentOrigin.RUNTIME; submit_idempotency_key := key;
  submit_pyramid_add := false |}.

(** From a proven position on: send the reduction and settle what it did. *)
Definition send_reduction (purpose : IntentPurpose) (now : datetime) (s : DeploymentSnapshot) (p : Position) : M DeploymentSnapshot :=
  s ← _pending s now;
  let d := DeploymentSnapshot.deployment s in
  o ← submit_intent store broker (Deployment.id d)
    (marketable_submission (Deployment.product_id d) purpose p None None (Some now) (Some (_reduction_key s p purpose)));
  rejected ← (if decide (Order.status o = OrderStatus.REJECTED)
              then current ← reload s; mret ((λ r, (current, r)) <$> exit_rejection current p) else mret None);
  match rejected with
  | Some (current, r) => _pause_rejected store current r
  | None =>
      s ← reload s;
      s ← reconcile_open_orders store broker s None 0;
      if bool_decide (DeploymentSnapshot.position s = None) then _await_flat_confirmation s now
      else _pause store s REDUCTION_UNRESOLVED_DETAIL
  end.

Definition reduce_live_futures_position (account : option FuturesLiveAccount) (purpose : IntentPurpose) (now : datetime)
    (s : DeploymentSnapshot) : M DeploymentSnapshot :=
  if negb (live_futures_deployment (DeploymentSnapshot.deployment s))
  then raise (ValueError "Price-free reductions require a live futures book.")
  else if negb (bool_decide (purpose ∈ PRICE_FREE_PURPOSES))
  then raise (ValueError "A futures reduction requires an explicit exit purpose.")
  else
    s ← retain_flat_confirmation s now;
    s ← reconcile_open_orders store broker s None 0;
    s ← cancel_proven_futures_orders account now s;
    s ← reconcile_open_orders store broker s None 0;
    match DeploymentSnapshot.position s with
    | None => mret s
    | Some p =>
        if _unresolved_reduction s || negb (bool_decide (active_orders s = [])) then _pending s now
        else if negb (_reduction_proven s account now) then _pause store s REDUCTION_UNPROVEN_DETAIL
        else match exit_rejection s p with
          | Some r =>
              latched ← pure (rejection_latched s r now);
              if (latched : bool) then _pause_rejected store s r else send_reduction purpose now s p
          | None => send_reduction purpose now s p
          end
    end.

(** ** Marketable exits *)

Definition _exit_economics_fault (s : DeploymentSnapshot) : option string :=
  if negb (bool_decide (unprojected_inventory_products s = [])) then Some UNPROJECTED_DETAIL
  else if unsettled_fill_evidence s then Some FILLED_WITHOUT_REST_FILLS_DETAIL
  else None.

Definition _wait_or_pause_exit (s : DeploymentSnapshot) : M DeploymentSnapshot :=
  if forallb cancel_pending (active_orders s) then _mark_pending_exit s else _pause store s CANCEL_BEFORE_EXIT_DETAIL.

Definition _apply_immediate_exit_fill (product_id : string) (cooldown_bars : Z) (s : DeploymentSnapshot) (o : Order)
    : M DeploymentSnapshot :=
  current ← reload s;
  match List.find (λ f, bool_decide (Fill.order_id f = Order.id o) && negb (applied f)) (DeploymentSnapshot.fills current) with
  | Some fill => apply_fill store current fill o cooldown_bars None
  | None =>
      if negb (bool_decide (Deployment.mode (DeploymentSnapshot.deployment current) = DeploymentMode.LIVE)) then mret current
      else
        ingested ← ingest_order_fills store broker current o product_id cooldown_bars;
        if bool_decide (exit_fill_pending ingested = None) then mret ingested else _mark_pending_exit ingested
  end.

(** The answer of a marketable exit: filled, rejected by a live venue, or anything else. *)
Definition settle_exit (product_id : string) (cooldown_bars : Z) (s : DeploymentSnapshot) (p : Position) (o : Order)
    : M DeploymentSnapshot :=
  let live := bool_decide (Deployment.mode (DeploymentSnapshot.deployment s) = DeploymentMode.LIVE) in
  if decide (Order.status o = OrderStatus.FILLED) then _apply_immediate_exit_fill product_id cooldown_bars s o
  else
    current ← reload s;
    match (if live && bool_decide (Order.status o = OrderStatus.REJECTED) then exit_rejection current p else None) with
    | Some r => _pause_rejected store current r
    | None => _pause store current MARKETABLE_EXIT_UNCONFIRMED_DETAIL
    end.

Definition _submit_marketable_exit (product_id : string) (candle : Candle) (purpose : IntentPurpose) (price : decimal)
    (cooldown_bars : Z) (s : DeploymentSnapshot) (p : Position) : M DeploymentSnapshot :=
  let live := bool_decide (Deployment.mode (DeploymentSnapshot.deployment s) = DeploymentMode.LIVE) in
  latched ← match (if live then exit_rejection s p else None) with
            | None => mret None
            | Some r => now ← utc_now; latched ← pure (rejection_latched s r now); mret (if (latched : bool) then Some r else None)
            end;
  match latched with
  | Some r => _pause_rejected store s r
  | None =>
      o ← submit_intent store broker (Deployment.id (DeploymentSnapshot.deployment s))
        (marketable_submission product_id purpose p (Some price) (Some candle) None None);
      settle_exit product_id cooldown_bars s p o
  end.

(** After the cancels: exit only a position that is still open, with nothing working. *)
Definition exit_after_cancels (product_id : string) (candle : Candle) (purpose : IntentPurpose) (price : decimal)
    (cooldown_bars : Z) (s : DeploymentSnapshot) : M DeploymentSnapshot :=
  if negb (bool_decide (active_orders s = [])) && forallb cancel_pending (active_orders s) then _mark_pending_exit s
  else
    s ← _reconcile_stopped_live store broker s;
    match DeploymentSnapshot.position s, _exit_economics_fault s with
    | None, _ => mret s
    | Some _, Some detail => _pause store s detail
    | Some p, None =>
        if bool_decide (active_orders s = []) then _submit_marketable_exit product_id candle purpose price cooldown_bars s p
        else _wait_or_pause_exit s
    end.

Definition _marketable_exit (product : MarketProduct) (candle : Candle) (purpose : IntentPurpose) (price : decimal)
    (strategy : option StrategyDefinition) (cooldown_bars : option Z) (s : DeploymentSnapshot) : M DeploymentSnapshot :=
  let product_id := market_product_id product in
  let live := bool_decide (Deployment.mode (DeploymentSnapshot.deployment s) = DeploymentMode.LIVE) in
  let cooldown := _exit_cooldown strategy cooldown_bars in
  if bool_decide (DeploymentSnapshot.position s = None) then mret s
  else if live && is_futures_product_id product_id then
    now ← utc_now; reduce_live_futures_position live_futures_account purpose now s
  else
    s ← (if live then s ← _reconcile_stopped_live store broker s; _adopt_venue_attached_child store broker s product_id
         else mret s);
    match exit_fill_pending s with
    | Some filled => _apply_immediate_exit_fill product_id cooldown s filled
    | None =>
        match _exit_economics_fault s with
        | Some detail => _pause store s detail
        | None =>
            _ ← _cancel_open_orders store broker s;
            s ← reload s;
            exit_after_cancels product_id candle purpose price cooldown s
        end
    end.

End Exits.
