(* ===== verification/Capital.v ===== *)
(** * Capital: accounts, accounting evidence and breaker pauses ([execution/capital.py], [risk/accounting_evidence.py], [execution/breaker_pause.py])

    What a book may size with, what it is worth, and the pause a tripped breaker causes. The
    accounting evidence of the fleet is read from the store itself, never from a product's view.
    The price history behind it is the class [RiskEvidence]. *)

From S2P Require Import Prelude Decimals Market Geometry Containers TradingModels FillLedger.
From S2P Require Import ExecutionStore StoreSteps Ledger RiskModels EntryLimits Breakers BetaExposure.
From S2P Require Import FuturesBooks FuturesGate Gate Engine ExitGuards FuturesVenue Submit Reconcile Exits.

Open Scope Z_scope.

(** What admission reads outside the store: hourly candles, the beta estimates of some products,
    the bindings of futures books, the newest account observation (or a failed read of it), and
    the text of a verdict. *)
Class RiskEvidence := {
  read_range : option (string → CandleInterval → datetime → datetime → option CandleRangeReport);
  read_beta : option (list string → datetime → BetaEvidence);
  futures_runtime : option (UUID → option string);
  account_mirror : option (option (option FuturesAccountObservation));
  verdict_text : RiskVerdict → string
}.

Section Accounts.
Context {dc : DecimalContext}.

(** ** Accounts *)

Definition apply_venue_quote (d : Deployment) (available : option decimal) (now : datetime) : Deployment :=
  let allocated := match Deployment.allocated_capital d with
    | None => if decide (Deployment.mode d = DeploymentMode.PAPER) then Deployment.paper_starting_cash d else None
    | some => some
    end in
  let c := Deployment.capital d in
  let observe (performance : option decimal) : Deployment.Capital := {|
    Deployment.allocated_capital := allocated; Deployment.venue_available_quote := available;
    Deployment.reserved_buying_power := Deployment.reserved_buying_power c; Deployment.inventory_cost := Deployment.inventory_cost c;
    Deployment.performance_equity := Deployment.performance_equity c; Deployment.performance_capital_quote := performance;
    Deployment.performance_maximum_drawdown_fraction := Deployment.performance_maximum_drawdown_fraction c;
    Deployment.initial_equity := Deployment.initial_equity c; Deployment.baseline_equity := Deployment.baseline_equity c;
    Deployment.utc_day_open_equity := Deployment.utc_day_open_equity c; Deployment.utc_day_open_at := Deployment.utc_day_open_at c;
    Deployment.risk_day_open_evidence := Deployment.risk_day_open_evidence c;
    Deployment.high_water_mark_equity := Deployment.high_water_mark_equity c |} in
  let observed := Deployment.set_capital d (observe (Deployment.performance_capital_quote c)) now in
  match Deployment.performance_capital_quote d with
  | Some _ => observed
  | None => Deployment.set_capital d (observe (performance_capital observed)) now
  end.

Definition _allocation_remaining (d : Deployment) : decimal :=
  let remaining := (default d0 (Deployment.allocated_capital d) - default d0 (Deployment.reserved_buying_power d)
                    - default d0 (Deployment.inventory_cost d))%dec in
  if (d0 <? remaining)%dec then remaining else d0.

Definition live_sizing_cash (d : Deployment) : option decimal :=
  if decide (Deployment.mode d = DeploymentMode.PAPER) then
    match Deployment.portfolio_id d, Deployment.allocated_capital d with
    | Some _, Some _ => Some (dmin (Deployment.cash d) (_allocation_remaining d))
    | _, _ => Some (Deployment.cash d)
    end
  else match Deployment.allocated_capital d with
    | Some _ => Some (_allocation_remaining d)
    | None => Deployment.venue_available_quote d
    end.

Definition live_capital_base (d : Deployment) : option decimal :=
  if decide (Deployment.mode d = DeploymentMode.PAPER) then Deployment.paper_starting_cash d else Deployment.venue_available_quote d.

Definition _inventory_cost (s : DeploymentSnapshot) : decimal :=
  fold_left (λ total p, total + Position.quantity p * Position.entry_price p)%dec (snapshot_positions s) d0.

Section Performance.
Context {so : SetOrder} {dg : Digest}.

Definition _reserved_working (s : DeploymentSnapshot) : decimal :=
  let primary := Deployment.product_id (DeploymentSnapshot.deployment s) in
  let products := primary :: ((λ p, resolved_product_id (Position.product_id p) (DeploymentSnapshot.deployment s)) <$> snapshot_positions s) in
  fold_left (λ total product, total + working_entry_notional s product)%dec (set_iter products) d0.

Definition _roll_utc_day_open (s : DeploymentSnapshot) (now : datetime) : option DailyOpeningEvidence :=
  match reconstruct_day_open s now [] with
  | Some recovered => Some recovered
  | None => Deployment.risk_day_open_evidence (DeploymentSnapshot.deployment s)
  end.

Definition refresh_performance (s : DeploymentSnapshot) (marks : gmap string decimal) (now : datetime) : result Deployment :=
  let d := DeploymentSnapshot.deployment s in
  ledger ← ledger_from_snapshot s marks None;
  let worth := equity ledger in
  let initial := match Deployment.initial_equity d with None => worth | some => some end in
  let baseline := match Deployment.baseline_equity d with None => initial | some => some end in
  let high_water := match worth, Deployment.high_water_mark_equity d with
    | None, high => high
    | Some worth, None => Some worth
    | Some worth, Some high => Some (dmax high worth)
    end in
  Ok (Deployment.set_capital d {|
    Deployment.allocated_capital := Deployment.allocated_capital d;
    Deployment.venue_available_quote := Deployment.venue_available_quote d;
    Deployment.reserved_buying_power := Some (_reserved_working s);
    Deployment.inventory_cost := Some (_inventory_cost s);
    Deployment.performance_equity := worth;
    Deployment.performance_capital_quote :=
      match Deployment.performance_capital_quote d with None => performance_capital d | some => some end;
    Deployment.performance_maximum_drawdown_fraction :=
      match maximum_drawdown_fraction ledger with None => Deployment.performance_maximum_drawdown_fraction d | some => some end;
    Deployment.initial_equity := initial;
    Deployment.baseline_equity := baseline;
    Deployment.utc_day_open_equity := Deployment.utc_day_open_equity d;
    Deployment.utc_day_open_at := Deployment.utc_day_open_at d;
    Deployment.risk_day_open_evidence := _roll_utc_day_open s now;
    Deployment.high_water_mark_equity := high_water |} now).

End Performance.

Definition daily_pnl_from_day_open (d : Deployment) (worth : option decimal) (as_of : datetime) : option decimal :=
  match worth, Deployment.risk_day_open_evidence d with
  | Some worth, Some evidence =>
      if DailyOpeningEvidence.day_start evidence =? utc_day_start as_of
      then Some (worth - DailyOpeningEvidence.equity evidence)%dec else None
  | _, _ => None
  end.

End Accounts.

Section Evidence.
Context {venue : Venue} {surroundings : Surroundings} {dc : DecimalContext} {scope : CycleScope}.
Context {so : SetOrder} {dg : Digest} {risk_evidence : RiskEvidence}.
Variable store : ExecutionStore.

(** ** Accounting evidence ([accounting_evidence.py]) *)

(** One genuine midnight close, from an exact and complete one-candle range. *)
Definition midnight_mark (read : string → CandleInterval → datetime → datetime → option CandleRangeReport) (day_start : datetime)
    (item : string * decimal) : option MidnightMark :=
  let start := day_start - hour in
  if (item.2 =? d0)%dec then None
  else match read item.1 ONE_HOUR start day_start with
    | None => None
    | Some report =>
        match candles (quality report) with
        | [candle] =>
            if complete report && (range_starts_at report =? start) && (range_ends_at report =? day_start)
               && (requested_candle_count report =? 1) && (starts_at candle =? start) && (d0 <? close candle)%dec
            then Some {| MidnightMark.product_id := item.1; MidnightMark.closes_at := day_start; MidnightMark.price := close candle |}
            else None
        | _ => None
        end
    end.

Definition _opening_marks (s : DeploymentSnapshot) (as_of : datetime) : list MidnightMark :=
  match reconstruct_day_open s as_of [], opening_replay s as_of, read_range with
  | None, Some replay, Some read =>
      omap (midnight_mark read (utc_day_start as_of)) (sort_by item_le (map_to_list (midnight_quantities replay)))
  | _, _, _ => []
  end.

Definition with_day_open (s : DeploymentSnapshot) (evidence : DailyOpeningEvidence) : DeploymentSnapshot :=
  let d := DeploymentSnapshot.deployment s in
  let c := Deployment.capital d in
  DeploymentSnapshot.set_deployment s (Deployment.set_capital d {|
    Deployment.allocated_capital := Deployment.allocated_capital c; Deployment.venue_available_quote := Deployment.venue_available_quote c;
    Deployment.reserved_buying_power := Deployment.reserved_buying_power c; Deployment.inventory_cost := Deployment.inventory_cost c;
    Deployment.performance_equity := Deployment.performance_equity c;
    Deployment.performance_capital_quote := Deployment.performance_capital_quote c;
    Deployment.performance_maximum_drawdown_fraction := Deployment.performance_maximum_drawdown_fraction c;
    Deployment.initial_equity := Deployment.initial_equity c; Deployment.baseline_equity := Deployment.baseline_equity c;
    Deployment.utc_day_open_equity := Deployment.utc_day_open_equity c; Deployment.utc_day_open_at := Deployment.utc_day_open_at c;
    Deployment.risk_day_open_evidence := Some evidence;
    Deployment.high_water_mark_equity := Deployment.high_water_mark_equity c |} (Deployment.updated_at d)).

Definition accounting_snapshot (deployment_id : UUID) (as_of : datetime) : M DeploymentSnapshot :=
  s ← get_accounting_snapshot store deployment_id;
  if negb (DeploymentSnapshot.accounting_complete s)
  then raise (ExecutionStoreError "Risk accounting snapshot omitted sibling economics.")
  else mret match reconstruct_day_open s as_of (_opening_marks s as_of) with
    | None => s
    | Some evidence => with_day_open s evidence
    end.

Definition accounting_portfolio (as_of : datetime) : M (list DeploymentSnapshot) :=
  deployments ← read_store (λ s, list_deployments s None 0);
  loop (λ books (d : Deployment), s ← accounting_snapshot (Deployment.id d) as_of; mret (books ++ [s])) [] deployments.

(** ** Breaker pauses ([breaker_pause.py]) *)

Definition _portfolio_with_current (portfolio : list DeploymentSnapshot) (s : DeploymentSnapshot) : M (list DeploymentSnapshot) :=
  now ← utc_now;
  loaded ← accounting_portfolio now;
  let ids (books : list DeploymentSnapshot) := (λ b, Deployment.id (DeploymentSnapshot.deployment b)) <$> books in
  if forallb (λ id, bool_decide (id ∈ ids loaded)) (ids portfolio ++ ids [s]) then mret loaded
  else raise (ExecutionStoreError "Risk accounting inventory is incomplete.").

Definition _bar_observation (product_id : string) (candle : Candle) (proposed_price : option decimal) (marks : gmap string decimal)
    : M EntryObservation :=
  now ← utc_now;
  mret {| as_of := now; proposed_price := proposed_price; reference_price := Some (close candle);
          observed_marks := <[product_id := close candle]> marks |}.

Definition breaker_pause_detail (v : RiskVerdict) : string := verdict_text v.

(** One peer, up to [attempts] times against revision races. *)
Fixpoint pause_daily_peer (attempts : nat) (deployment_id : UUID) (mode : DeploymentMode) (product_id : string) (detail : string)
    (latch : bool) : M unit :=
  match attempts with
  | O => mret tt
  | S attempts =>
      current ← get_accounting_snapshot store deployment_id;
      let d := DeploymentSnapshot.deployment current in
      match quote_scoped_snapshots [current] product_id with
      | (_ :: _, None) =>
          if negb (bool_decide (Deployment.mode d = mode)) then mret tt
          else if negb (bool_decide (Deployment.status d = DeploymentStatus.RUNNING))
                  && (negb latch || Deployment.daily_loss_latched d) then mret tt
          else try_except
            (_ ← base_save_breaker_pause deployment_id (Deployment.revision d) detail latch; mret tt)
            (λ e, if is_conflict e && negb (bool_decide (attempts = O))
                  then Some (pause_daily_peer attempts deployment_id mode product_id detail latch) else None)
      | _ => mret tt
      end
  end.

Definition _pause_daily_peer (deployment_id : UUID) (mode : DeploymentMode) (product_id : string) (detail : string) (latch : bool)
    : M unit := pause_daily_peer 3 deployment_id mode product_id detail latch.

Definition _pause_mode_running (mode : DeploymentMode) (product_id : string) (portfolio : list DeploymentSnapshot) (detail : string)
    : M unit :=
  match quote_scoped_snapshots (List.filter (λ item, in_mode mode (DeploymentSnapshot.deployment item)) portfolio) product_id with
  | (_, Some _) => mret tt
  | (books, None) =>
      let anchor := if existsb (λ b, Deployment.daily_loss_latched (DeploymentSnapshot.deployment b)) books then None
        else (λ b, Deployment.id (DeploymentSnapshot.deployment b)) <$> head books in
      loop (λ _ b, let id := Deployment.id (DeploymentSnapshot.deployment b) in
        _pause_daily_peer id mode product_id detail (bool_decide (anchor = Some id))) tt books
  end.

Definition latch_change (daily drawdown : bool) : RuntimeChange := {|
  new_cash := None; new_phase := None; new_mismatch_detail := None; clear_mismatch := false;
  new_last_evaluated_bar := None; new_last_signal := None; new_pending_entry_bars := None; new_bars_held := None;
  new_cooldown_bars_remaining := None; new_pending_stop_price := None; new_pending_target_price := None;
  clear_pending_levels := false; new_status := None; new_lifecycle_command := None;
  new_daily_loss_latched := if daily then Some true else None;
  new_drawdown_latched := if drawdown then Some true else None; new_last_signal_event_at := None;
  new_last_signal_processed_at := None |}.

Definition _pause_for_breaker (portfolio : list DeploymentSnapshot) (v : RiskVerdict) (s : DeploymentSnapshot) : M DeploymentSnapshot :=
  let id := Deployment.id (DeploymentSnapshot.deployment s) in
  s ← store_get_deployment store id;
  let detail := breaker_pause_detail v in
  let daily := bool_decide (reason_code v = DAILY_LOSS_LIMIT) in
  let drawdown := bool_decide (reason_code v = STRATEGY_DRAWDOWN_LIMIT) in
  s ← (if daily || drawdown then
         t ← utc_now;
         let d := DeploymentSnapshot.deployment s in
         _ ← store_save_deployment store (with_runtime d t (latch_change daily drawdown)) (Some (Deployment.revision d)) None;
         store_get_deployment store id
       else mret s);
  if daily then
    books ← _portfolio_with_current portfolio s;
    let d := DeploymentSnapshot.deployment s in
    _ ← _pause_mode_running (Deployment.mode d) (Deployment.product_id d) books detail;
    store_get_deployment store id
  else _pause store s detail.

Definition is_store_error (e : error) : bool :=
  match e with ExecutionStoreError _ => true | _ => false end.

Definition _apply_circuit_breakers (policy : RiskPolicyDefinition) (portfolio : list DeploymentSnapshot) (marks : gmap string decimal)
    (product_id : string) (candle : Candle) (s : DeploymentSnapshot) : M DeploymentSnapshot :=
  let d := DeploymentSnapshot.deployment s in
  books ← try_except (books ← _portfolio_with_current portfolio s; mret (Some books))
    (λ e, if is_store_error e then Some (mret None) else None);
  match books with
  | None => mret s
  | Some books =>
      match List.find (λ b, bool_decide (Deployment.id (DeploymentSnapshot.deployment b) = Deployment.id d)) books with
      | None => mret s
      | Some current =>
          o ← _bar_observation product_id candle None marks;
          v ← pure (evaluate_runtime_breakers policy (Deployment.mode d) current books
                      (live_capital_base (DeploymentSnapshot.deployment current)) o);
          if bool_decide (decision v = ALLOW) || negb (pauses_risk_increasing (reason_code v)) then mret s
          else _pause_for_breaker portfolio v s
      end
  end.

(** ** Admission ([entry_admission.py]) *)

Definition load_entry_beta (policy : RiskPolicyDefinition) (mode : DeploymentMode) (snapshots : list DeploymentSnapshot)
    (product_id : string) (as_of : datetime) : option BetaEvidence :=
  if negb (beta_cap_applies policy mode) then None
  else (λ read, read (beta_products snapshots mode product_id) as_of) <$> read_beta.

Definition _entry_beta (policy : RiskPolicyDefinition) (mode : DeploymentMode) (snapshots : list DeploymentSnapshot)
    (product_id : string) (as_of : datetime) (legs : option FuturesLegs) : option BetaEvidence :=
  if negb (is_futures_product_id product_id) then load_entry_beta policy mode snapshots product_id as_of
  else match RiskPolicyDefinition.futures policy with
    | None => None
    | Some f =>
        match FuturesRiskPolicy.max_btc_beta_exposure_fraction f with
        | None => None
        | Some _ => (λ read, read (futures_beta_products legs (RiskPolicyDefinition.quote_currency policy)) as_of) <$> read_beta
        end
    end.

(** [futures_paper.load_futures_legs]. *)
Definition leg_step (mode : DeploymentMode) (settled_through : datetime) (binding : UUID → option string) (legs : FuturesLegs)
    (book : DeploymentSnapshot) : FuturesLegs :=
  let d := DeploymentSnapshot.deployment book in
  if negb (bool_decide (Deployment.mode d = mode)) || negb (is_futures_product_id (Deployment.product_id d)) then legs
  else match binding (Deployment.id d) with
    | None => legs
    | Some underlying =>
        {| underlyings := <[Deployment.id d := underlying]> (underlyings legs);
           funding_current := if bool_decide (funding_hours_held book (Deployment.product_id d) settled_through = [])
             then {[Deployment.id d]} ∪ funding_current legs else funding_current legs |}
    end.

Definition load_futures_legs (policy : RiskPolicyDefinition) (snapshots : list DeploymentSnapshot) (mode : DeploymentMode)
    (now : datetime) : option FuturesLegs :=
  match RiskPolicyDefinition.futures policy, futures_runtime with
  | Some f, Some binding =>
      if negb (nets_by_underlying f) && bool_decide (FuturesRiskPolicy.max_btc_beta_exposure_fraction f = None) then None
      else Some (fold_left (leg_step mode (now - hour - FUNDING_SETTLE_GRACE) binding) snapshots
                   {| underlyings := ∅; funding_current := ∅ |})
  | _, _ => None
  end.

(** [risk.futures_collateral.load_futures_collateral]. *)
Definition load_futures_collateral (mode : DeploymentMode) (as_of : datetime) : M (option FuturesCollateralEvidence) :=
  if negb (bool_decide (mode = DeploymentMode.LIVE)) then mret None
  else match account_mirror with
    | None => mret (Some (_evidence ABSENT None))
    | Some None => mret (Some (_evidence FuturesGate.UNKNOWN None))
    | Some (Some latest) =>
        now ← utc_now; mret (Some (classify_futures_collateral latest as_of (Some (Z.max as_of now))))
    end.

Definition _entry_verdict (policy : RiskPolicyDefinition) (portfolio : list DeploymentSnapshot) (proposed : ProposedEntry)
    (o : EntryObservation) (s : DeploymentSnapshot) : M RiskVerdict :=
  let d := DeploymentSnapshot.deployment s in
  let mode := Deployment.mode d in
  books ← try_except (books ← _portfolio_with_current portfolio s; mret (Some books))
    (λ e, if is_store_error e then Some (mret None) else None);
  match books with
  | None => mret (_deny BREAKER_MARK_MISSING)
  | Some books =>
      match List.find (λ b, bool_decide (Deployment.id (DeploymentSnapshot.deployment b) = Deployment.id d)) books with
      | None => mret (_deny BREAKER_MARK_MISSING)
      | Some current =>
          let live_cash := live_capital_base (DeploymentSnapshot.deployment current) in
          if bool_decide (mode = DeploymentMode.LIVE) && bool_decide (live_cash = None) then mret (_deny VENUE_BALANCE_UNKNOWN)
          else
            let legs := load_futures_legs policy books mode (as_of o) in
            let beta := _entry_beta policy mode books (entry_product_id proposed) (as_of o) legs in
            collateral ← load_futures_collateral mode (as_of o);
            pure (evaluate_new_entry bound_futures_book policy mode proposed books live_cash (Some o)
                    (portfolio_risk_for bound_portfolio d) beta collateral legs (admission_venue live_futures_account books))
      end
  end.

End Evidence.
