(* ===== verification/EntryCycle.v ===== *)
(** * EntryCycle: entries of a cycle

    [execution/entry.py], [entry_admission.py] and [entry_sizing.py], then [entry_reprice.py]. *)

From S2P Require Import Prelude Decimals Market Geometry IndicatorSpec Conditions Strategy Alignment Sizing.
From S2P Require Import SignalTrace Containers TradingModels FillLedger ExecutionStore StoreSteps Ledger RiskModels.
From S2P Require Import EntryLimits Breakers FuturesBooks FuturesGate LiveSignals LiveWindows Engine.
From S2P Require Import ExitGuards FuturesVenue Submit Reconcile Exits Capital.

Open Scope Z_scope.

(** * New entries ([execution/entry_sizing.py], [entry.py], [freshness.py])

    A flat running book may open, an open one may add. A signal is evaluated, checked for
    freshness, sized at the maker price, admitted by the risk gate and rested post-only.
    [EntryReprice] manages the entry once it rests. *)

Definition UNCONFIRMED_ENTRY_DETAIL : string := "Entry submit is unconfirmed.".
Definition SPOT_SHORT_DETAIL : string := "INSUFFICIENT_BASE_FOR_SPOT_SHORT: Coinbase spot shorts require available base.".
Definition FILLED_SPLIT_DETAIL : string :=
  "Filled entry order has no applied fill and no position; fill economics did not commit.".
Definition PENDING_SPLIT_DETAIL : string :=
  "Book is pending entry with no working entry order and no position; entry lifecycle did not advance.".
(** [freshness.entry_prerequisites] *)
Definition entry_prerequisites (product : MarketProduct) (candle : Candle) (now : datetime) (clock : string)
    (connection_healthy venue_balance_known : bool) : result RiskVerdict :=
  if negb (trading_enabled product) then Ok (_deny PRODUCT_DISABLED)
  else if negb connection_healthy then Ok (_deny CONNECTION_UNHEALTHY)
  else if negb venue_balance_known then Ok (_deny VENUE_BALANCE_UNKNOWN)
  else
    interval ← parse_candle_interval clock;
    Ok match (evaluate_freshness (Some (starts_at candle)) now interval).1 with FRESH => _allow | _ => _deny STALE_MARK end.

(** What a cycle is called with besides the store and the broker. *)
Record CycleInputs := {
  cycle_strategy : StrategyDefinition;
  cycle_product : MarketProduct;
  cycle_bars : CycleBars;
  cycle_policy : RiskPolicyDefinition;
  cycle_portfolio : list DeploymentSnapshot;
  cycle_base_available : option decimal;
  cycle_marks : gmap string decimal;
  cycle_maker_fee : option decimal
}.

(** The pending levels of an entry; no target clears a stale one. *)
Definition level_change (stop : decimal) (target : option decimal) : RuntimeChange := {|
  new_cash := None; new_phase := None; new_mismatch_detail := None; clear_mismatch := false;
  new_last_evaluated_bar := None; new_last_signal := None; new_pending_entry_bars := None; new_bars_held := None;
  new_cooldown_bars_remaining := None; new_pending_stop_price := Some stop; new_pending_target_price := target;
  clear_pending_levels := false; new_status := None; new_lifecycle_command := None; new_daily_loss_latched := None;
  new_drawdown_latched := None; new_last_signal_event_at := None; new_last_signal_processed_at := None |}.

Definition clear_levels_change : RuntimeChange := runtime_update None None None true None None.

(** [last_signal=..., last_signal_event_at=..., last_signal_processed_at=...] *)
Definition signal_change (signal : string) (event_at processed_at : datetime) : RuntimeChange := {|
  new_cash := None; new_phase := None; new_mismatch_detail := None; clear_mismatch := false;
  new_last_evaluated_bar := None; new_last_signal := Some signal; new_pending_entry_bars := None; new_bars_held := None;
  new_cooldown_bars_remaining := None; new_pending_stop_price := None; new_pending_target_price := None;
  clear_pending_levels := false; new_status := None; new_lifecycle_command := None; new_daily_loss_latched := None;
  new_drawdown_latched := None; new_last_signal_event_at := Some event_at; new_last_signal_processed_at := Some processed_at |}.

Definition pending_bars (bars : Z) : RuntimeChange := runtime_update None (Some bars) None false None None.
Definition phase_and_bars (phase : RuntimePhase) : RuntimeChange := runtime_update (Some phase) (Some 0) None false None None.

(** [EntryConditionOutcome.value] *)
Definition outcome_value (o : EntryConditionOutcome) : string :=
  match o with MATCHED => "matched" | NOT_MATCHED => "not_matched" | UNDEFINED => "undefined" end.

Inductive attempt_mode := new_book | pyramid.

#[global] Instance attempt_mode_eq_dec : EqDecision attempt_mode.
Proof. solve_decision. Defined.

Section EntryCycle.
Context {venue : Venue} {surroundings : Surroundings} {dc : DecimalContext} {scope : CycleScope}.
Context {so : SetOrder} {dg : Digest} {risk_evidence : RiskEvidence}.

(** ** Sizing ([entry_sizing.py]) *)

Definition _entry_fee_rate (d : Deployment) (maker_fee : option decimal) : decimal :=
  if decide (Deployment.mode d = DeploymentMode.PAPER)
  then (effective_paper_fee_rates (Deployment.paper_maker_fee_rate d) (Deployment.paper_taker_fee_rate d)).1
  else default PAPER_MAKER_FEE_RATE maker_fee.

Definition _size_entry_or_add (i : CycleInputs) (maker_fee : option decimal) (price atr : decimal) (side : PositionSide)
    (is_pyramid_add : bool) (s : DeploymentSnapshot) : result (skippable SizedEntry) :=
  let strategy := cycle_strategy i in
  let product := cycle_product i in
  let d := DeploymentSnapshot.deployment s in
  let live := bool_decide (Deployment.mode d = DeploymentMode.LIVE) in
  let futures := is_futures_product_id (market_product_id product) in
  if (negb (bool_decide (economic_guard (entry strategy) = None)) || futures) && live && bool_decide (maker_fee = None)
  then Ok (Skip ECONOMICS_FEE_UNAVAILABLE)
  else
    let fee_rate := _entry_fee_rate d maker_fee in
    sizing_cash ← (if live && futures then futures_book_equity s {[market_product_id product := price]}
                   else Ok (live_sizing_cash d));
    match sizing_cash with
    | None => Ok (Skip SIZING_CASH_UNAVAILABLE)
    | Some sizing_cash =>
        if negb is_pyramid_add then
          size_entry_or_skip strategy sizing_cash price atr product fee_rate side
            (current_futures_book bound_futures_book (Some (Deployment.id d)) ≫= FuturesBookState.margin)
        else match DeploymentSnapshot.position s with
          | None => Ok (Skip NO_OPEN_POSITION)
          | Some p => size_pyramid_add_or_skip strategy sizing_cash price (Position.stop_price p) (Position.target_price p)
                        product fee_rate side
          end
    end.

Definition _attaches_bracket (d : Deployment) (strategy : StrategyDefinition) (target : option decimal) (product_id : string) : bool :=
  negb (bool_decide (target = None)) && bool_decide (atr_trailing_stop (exits strategy) = None)
  && negb (bool_decide (Deployment.mode d = DeploymentMode.LIVE) && is_futures_product_id product_id).

Definition _with_pending_levels (d : Deployment) (stop : decimal) (target : option decimal) : M Deployment :=
  t1 ← utc_now; t2 ← utc_now;
  mret (with_runtime (with_runtime d t1 clear_levels_change) t2 (level_change stop target)).

Definition _runtime_for_admitted_entry (d : Deployment) (sized : SizedEntry) (strategy : StrategyDefinition) (is_pyramid_add : bool)
    : M (Deployment * bool) :=
  if is_pyramid_add then t ← utc_now; mret (with_runtime d t (phase_and_bars RuntimePhase.OPEN), false)
  else
    leveled ← _with_pending_levels d (sized_stop_price sized) (sized_target_price sized);
    t ← utc_now;
    mret (with_runtime leveled t (phase_and_bars RuntimePhase.PENDING_ENTRY),
          _attaches_bracket d strategy (sized_target_price sized) (Deployment.product_id d)).

Definition _signal_intent_key (deployment_id : UUID) (purpose : IntentPurpose) (bar : datetime) (product_id : string) : string :=
  String.substring 0 128 (deployment_id ++ ":" ++ IntentPurpose.value purpose ++ ":" ++ product_id ++ ":" ++ strftime_minute bar).

(** The first-stop ATR, when no futures evidence blocks an entry. *)
Definition _futures_entry_block (s : DeploymentSnapshot) (product_id : string) : bool :=
  if negb (is_futures_product_id product_id) then false
  else match current_futures_book bound_futures_book (Some (Deployment.id (DeploymentSnapshot.deployment s))) with
    | None => true
    | Some state =>
        negb (bool_decide ((if decide (Deployment.mode (DeploymentSnapshot.deployment s) = DeploymentMode.LIVE)
                            then live_entry_block state else entry_block state) = None))
    end.

Definition _sizing_atr (i : CycleInputs) (s : DeploymentSnapshot) : result (option decimal) :=
  if _futures_entry_block s (market_product_id (cycle_product i)) then Ok None
  else latest_atr (cycle_strategy i) (cycle_candles (cycle_bars i)).

(** The maker price, or [None] when the broker has none. *)
Definition try_maker_price (broker : Broker) (product_id : string) (mark : decimal) (side : OrderSide) : M (option decimal) :=
  try_except (p ← maker_limit_price broker product_id mark side; mret (Some p)) (except_broker_error (mret None)).

(** ** Entry attempts ([entry.py]) *)

Definition split_pending_entry (s : DeploymentSnapshot) : bool :=
  let d := DeploymentSnapshot.deployment s in
  bool_decide (Runtime.phase d = RuntimePhase.PENDING_ENTRY)
  && bool_decide (Deployment.status d ∈ [DeploymentStatus.RUNNING; DeploymentStatus.PAUSED])
  && bool_decide (truthy (Deployment.mismatch_detail d) = None)
  && bool_decide (DeploymentSnapshot.position s = None) && bool_decide (_active_entry s = None).

Definition _split_state_detail (s : DeploymentSnapshot) : string :=
  if existsb (λ o, bool_decide (Order.status o = OrderStatus.FILLED) && negb (is_venue_protection (Order.kind o))) (DeploymentSnapshot.orders s)
  then FILLED_SPLIT_DETAIL else PENDING_SPLIT_DETAIL.

Definition occupied_phase (phase : RuntimePhase) : bool := in_market phase.

Definition _document_open_book_count (s : DeploymentSnapshot) : Z :=
  let d := DeploymentSnapshot.deployment s in
  let held := (λ p, resolved_product_id (Position.product_id p) d) <$> snapshot_positions s in
  let products := match DeploymentSnapshot.instrument_runtimes s with
    | [] =>
        if negb (bool_decide (DeploymentSnapshot.position s = None)) || occupied_phase (Runtime.phase d)
        then held ++ [Deployment.product_id d] else held
    | rows => held ++ (InstrumentRuntime.product_id <$> List.filter (λ r : InstrumentRuntime, occupied_phase (Runtime.phase r)) rows)
    end in
  Z.of_nat (length (remove_dups products)).

Definition _entry_attempt_mode (strategy : StrategyDefinition) (s : DeploymentSnapshot) : option attempt_mode :=
  let d := DeploymentSnapshot.deployment s in
  if negb (entries_allowed latch_cache d) then None
  else match Runtime.phase d with
    | RuntimePhase.FLAT =>
        if 0 <? Runtime.cooldown_bars_remaining d then None
        else if max_concurrent_positions (portfolio_limits strategy) <=? _document_open_book_count s then None
        else Some new_book
    | RuntimePhase.OPEN =>
        if negb (bool_decide (DeploymentSnapshot.position s = None)) && bool_decide (_active_entry s = None) then Some pyramid else None
    | _ => None
    end.

Section Handlers.
Variable store : ExecutionStore.
Variable broker : Broker.
Variable i : CycleInputs.
Variable candle : Candle.

Definition bar_strategy : StrategyDefinition := cycle_strategy i.
Definition bar_product_id : string := market_product_id (cycle_product i).

(** A split pending entry pauses; [None] lets the bar go on. *)
Definition _fail_closed_on_split_state (s : DeploymentSnapshot) : M (option DeploymentSnapshot) :=
  if split_pending_entry s then s ← _pause store s (_split_state_detail s); mret (Some s) else mret None.

Definition entry_submission (side : OrderSide) (quantity price : decimal) (stop target : option decimal) (pyramid_add : bool)
    (deployment_id : UUID) : Submission := {|
  submit_product_id := bar_product_id; submit_purpose := IntentPurpose.ENTRY; submit_side := side;
  submit_kind := OrderKind.POST_ONLY_LIMIT; submit_quantity := quantity; submit_price := Some price;
  submit_candle := Some candle; submit_decision_at := None; submit_stop_trigger_price := stop;
  submit_take_profit_price := target; submit_origin := IntentOrigin.RUNTIME;
  submit_idempotency_key := Some (_signal_intent_key deployment_id IntentPurpose.ENTRY (starts_at candle) bar_product_id);
  submit_pyramid_add := pyramid_add |}.

Definition proposed_entry (d : Deployment) (notional quantity : decimal) (is_pyramid_add readmits : bool) (side : option PositionSide)
    : ProposedEntry := {|
  entry_product_id := bar_product_id; entry_strategy_id := Deployment.strategy_id d; entry_notional := notional;
  is_pyramid_add := is_pyramid_add; entry_quantity := Some quantity; funding_ := quote_funding;
  readmits_working_entry := readmits; entry_side := side; desk_id := None; desk_committed := d0 |}.

Definition spot_short_uncovered (d : Deployment) (side : PositionSide) (quantity : decimal) : bool :=
  bool_decide (side = SHORT) && bool_decide (Deployment.mode d = DeploymentMode.LIVE) && negb (is_futures_product_id bar_product_id)
  && match cycle_base_available i with None => true | Some base => (base <? quantity)%dec end.

(** After the gate allowed it: stamp the book, send, and undo the stamp if nothing works. *)
Definition send_entry (s : DeploymentSnapshot) (sized : SizedEntry) (side : PositionSide) (is_pyramid_add : bool) : M DeploymentSnapshot :=
  let d := DeploymentSnapshot.deployment s in
  stamped ← _runtime_for_admitted_entry d sized bar_strategy is_pyramid_add;
  let '(pending, attach) := stamped : Deployment * bool in
  _ ← save store pending;
  o ← submit_intent store broker (Deployment.id d)
    (entry_submission (entry_order_side side) (Sizing.quantity sized) (Sizing.entry_price sized)
       (if attach then Some (sized_stop_price sized) else None) (if attach then sized_target_price sized else None)
       is_pyramid_add (Deployment.id d));
  s ← reload store s;
  if decide (Order.status o = OrderStatus.UNKNOWN) then _pause store s UNCONFIRMED_ENTRY_DETAIL
  else if order_left_nothing_working o then
    if is_pyramid_add then save_change store s (phase_and_bars RuntimePhase.OPEN)
    else _flatten_pending store s (Z.max (Strategy.cooldown_bars (entry bar_strategy)) 1)
  else mret s.

Definition _submit_sized_entry (is_pyramid_add : bool) (s : DeploymentSnapshot) : M DeploymentSnapshot :=
  let d := DeploymentSnapshot.deployment s in
  let side := Strategy.side (entry bar_strategy) in
  atr ← pure (_sizing_atr i s);
  match atr with
  | None => mret s
  | Some atr =>
      price ← try_maker_price broker bar_product_id (close candle) (entry_order_side side);
      match price with
      | None => mret s
      | Some price =>
          sized ← pure (_size_entry_or_add i (cycle_maker_fee i) price atr side is_pyramid_add s);
          match sized with
          | Skip _ => mret s
          | Sized sized =>
              if spot_short_uncovered d side (Sizing.quantity sized) then _pause store s SPOT_SHORT_DETAIL
              else
                o ← _bar_observation bar_product_id candle (Some (Sizing.entry_price sized)) (cycle_marks i);
                v ← _entry_verdict store (cycle_policy i) (cycle_portfolio i)
                  (proposed_entry d (Sizing.notional sized) (Sizing.quantity sized) is_pyramid_add false (Some side)) o s;
                if denied v then
                  if pauses_risk_increasing (reason_code v) then _pause_for_breaker store (cycle_portfolio i) v s else mret s
                else send_entry s sized side is_pyramid_add
          end
      end
  end.

(** What a matched signal still has to pass before it is sized. *)
Definition signal_usable (mode : attempt_mode) (s : DeploymentSnapshot) : result bool :=
  let d := DeploymentSnapshot.deployment s in
  interval ← parse_candle_interval (timeframe bar_strategy);
  let evaluated_at := starts_at candle + duration interval in
  valid ← signal_still_valid candle (timeframe bar_strategy) evaluated_at (Some (close candle));
  if negb valid then Ok false
  else
    fresh ← entry_prerequisites (cycle_product i) candle evaluated_at (timeframe bar_strategy) true
      (negb (bool_decide (live_sizing_cash d = None)) || bool_decide (Deployment.mode d = DeploymentMode.PAPER));
    if denied fresh then Ok false
    else match mode, DeploymentSnapshot.position s with
      | new_book, _ => Ok true
      | pyramid, None => Ok false
      | pyramid, Some p =>
          Ok (can_pyramid_add bar_strategy (Position.side p) (Position.entry_price p) (close candle) (Position.add_count p))
      end.

Definition evaluate_entry : result LatestEntryEvaluation :=
  let bars := cycle_bars i in
  visible_htf ← match htf_filter bar_strategy with
    | None => Ok (cycle_htf_candles bars)
    | Some f =>
        close_at ← ltf_close (starts_at candle) (timeframe bar_strategy);
        bars_closed_at_or_before (cycle_htf_candles bars) close_at (htf_timeframe f)
    end;
  evaluate_latest_entry_evidence bar_strategy (cycle_candles bars) visible_htf (cycle_extra_candles bars) (cycle_reference_candles bars).

Definition _maybe_enter (s : DeploymentSnapshot) : M DeploymentSnapshot :=
  match _entry_attempt_mode bar_strategy s with
  | None => mret s
  | Some mode =>
      match evaluate_entry with
      | Raise e => match is_evaluation_error e with Some message => _pause store s message | None => raise e end
      | Ok evaluation =>
          now ← utc_now;
          let outcome := latest_outcome evaluation in
          _ ← save store (with_runtime (DeploymentSnapshot.deployment s) now
                (signal_change (outcome_value outcome) (starts_at candle) now));
          s ← reload store s;
          if negb (bool_decide (outcome = MATCHED)) then mret s
          else
            usable ← pure (signal_usable mode s);
            if (usable : bool) then _submit_sized_entry (bool_decide (mode = pyramid)) s else mret s
      end
  end.

End Handlers.
End EntryCycle.

(** * The working entry ([execution/entry_reprice.py])

    A working entry waits a bounded number of bars. When the wait is over it is cancelled, its
    racing executions are applied, and a book that may take risk may rest a replacement for what
    is left. The replacement passes through the same sizing and the same gate. *)

Definition CANCEL_RACE_FILLS_PENDING_DETAIL : string :=
  "Cancelled entry reported executions that are not readable yet; reconcile before resuming.".
Definition ENTRY_UNCONFIRMED_DETAIL : string := "Entry order is unconfirmed; reconcile before retrying.".
Definition ENTRY_NOT_CANCELED_DETAIL : string := "Unfilled entry could not be canceled before retrying.".
Definition REPRICE_UNCONFIRMED_DETAIL : string := "Repriced entry submit is unconfirmed.".

Section EntryReprice.
Context {venue : Venue} {surroundings : Surroundings} {dc : DecimalContext} {scope : CycleScope}.
Context {so : SetOrder} {dg : Digest} {risk_evidence : RiskEvidence}.
Variable store : ExecutionStore.
Variable broker : Broker.
Variable i : CycleInputs.
Variable candle : Candle.

Definition _legal_reprice_geometry (side : PositionSide) (entry_price stop_price : decimal) (target_price : option decimal)
    : decimal * option decimal :=
  match target_price with
  | None => (stop_price, None)
  | Some target =>
      let repair (width : decimal) := if (width <=? d0)%dec then (entry_price * Dec 1 (-2))%dec else width in
      match side with
      | LONG =>
          if (target <=? entry_price)%dec
          then (stop_price, Some (entry_price + repair (entry_price - stop_price)%dec)%dec) else (stop_price, Some target)
      | SHORT =>
          if (entry_price <=? target)%dec
          then (stop_price, Some (entry_price - repair (stop_price - entry_price)%dec)%dec) else (stop_price, Some target)
      end
  end.

(** The book as stored, and the order's row in it or else the order given. *)
Definition current_order (s : DeploymentSnapshot) (o : Order) : Order :=
  default o (List.find (λ item, bool_decide (Order.id item = Order.id o)) (DeploymentSnapshot.orders s)).

Definition executions_applied (s : DeploymentSnapshot) (o : Order) : bool :=
  (Order.filled_quantity o <=? applied_fill_quantity s (Order.id o))%dec.

(** The flag is [false] while some executions are not readable yet. *)
Definition _apply_cancel_race_fills (s : DeploymentSnapshot) (o : Order) : M (DeploymentSnapshot * Order * bool) :=
  let current := current_order s o in
  if executions_applied s current then mret (s, current, true)
  else
    _ ← ingest_order_fills store broker s current (bar_product_id i) 0;
    s ← reload store s;
    let current := current_order s current in
    mret (s, current, executions_applied s current).

Definition _abandon_reprice (is_pyramid : bool) (s : DeploymentSnapshot) : M DeploymentSnapshot :=
  latest ← reload store s;
  if is_pyramid then save_change store latest (pending_bars 0)
  else _flatten_pending store latest (Z.max (Strategy.cooldown_bars (entry (bar_strategy i))) 1).

Definition reprice_submission (prior : Order) (quantity price : decimal) (stop target : option decimal) (is_pyramid : bool)
    (deployment_id : UUID) : Submission := {|
  submit_product_id := bar_product_id i; submit_purpose := IntentPurpose.ENTRY; submit_side := Order.side prior;
  submit_kind := OrderKind.POST_ONLY_LIMIT; submit_quantity := quantity; submit_price := Some price;
  submit_candle := Some candle; submit_decision_at := None; submit_stop_trigger_price := stop;
  submit_take_profit_price := target; submit_origin := IntentOrigin.RUNTIME;
  submit_idempotency_key := Some (_signal_intent_key deployment_id IntentPurpose.ENTRY (starts_at candle) (bar_product_id i));
  submit_pyramid_add := is_pyramid |}.

Definition _submit_repriced_entry (prior : Order) (remaining_qty entry_price stop_price : decimal) (target_price : option decimal)
    (is_pyramid : bool) (phase : RuntimePhase) (attach : bool) (s : DeploymentSnapshot) : M DeploymentSnapshot :=
  let d := DeploymentSnapshot.deployment s in
  t ← utc_now;
  let reset := with_runtime d t (pending_bars 0) in
  reset ← (if is_pyramid then mret reset else _with_pending_levels reset stop_price target_price);
  _ ← save store reset;
  o ← submit_intent store broker (Deployment.id d)
    (reprice_submission prior remaining_qty entry_price (if attach then Some stop_price else None)
       (if attach then target_price else None) is_pyramid (Deployment.id d));
  if decide (Order.status o = OrderStatus.UNKNOWN) then s ← reload store s; _pause store s REPRICE_UNCONFIRMED_DETAIL
  else if order_left_nothing_working o then _abandon_reprice is_pyramid s
  else
    _ ← (if decide (Order.status o = OrderStatus.FILLED)
         then s ← reload store s; ingest_order_fills store broker s o (bar_product_id i) 0 else mret s);
    latest ← reload store s;
    save_change store latest
      (phase_and_bars (if bool_decide (DeploymentSnapshot.position latest = None) then phase else RuntimePhase.OPEN)).

(** What the replacement is made of, once sized. *)
Definition admit_reprice (prior : Order) (phase : RuntimePhase) (is_pyramid : bool) (entry_price : decimal) (sized : SizedEntry)
    (s : DeploymentSnapshot) : M DeploymentSnapshot :=
  let d := DeploymentSnapshot.deployment s in
  let side := Strategy.side (entry (bar_strategy i)) in
  let remaining_qty := remaining_quantity prior in
  let '(stop_price, target_price) :=
    _legal_reprice_geometry side entry_price (sized_stop_price sized) (sized_target_price sized) in
  o ← _bar_observation (bar_product_id i) candle (Some entry_price) (cycle_marks i);
  v ← _entry_verdict store (cycle_policy i) (cycle_portfolio i)
    (proposed_entry i d (entry_price * remaining_qty)%dec remaining_qty is_pyramid true None) o s;
  if denied v then
    if pauses_risk_increasing (reason_code v) then _pause_for_breaker store (cycle_portfolio i) v s
    else _abandon_reprice is_pyramid s
  else if spot_short_uncovered i d side remaining_qty then _pause store s SPOT_SHORT_DETAIL
  else
    _submit_repriced_entry prior remaining_qty entry_price stop_price target_price is_pyramid phase
      (negb is_pyramid && _attaches_bracket d (bar_strategy i) target_price (bar_product_id i)) s.

Definition _reprice_entry (prior : Order) (phase : RuntimePhase) (s : DeploymentSnapshot) : M DeploymentSnapshot :=
  let d := DeploymentSnapshot.deployment s in
  let is_pyramid := bool_decide (phase = RuntimePhase.OPEN) || negb (bool_decide (DeploymentSnapshot.position s = None)) in
  if (remaining_quantity prior <=? d0)%dec || negb (can_reprice_risk_up latch_cache d) then _abandon_reprice is_pyramid s
  else
    price ← try_maker_price broker (bar_product_id i) (close candle) (Order.side prior);
    match price with
    | None => _abandon_reprice is_pyramid s
    | Some entry_price =>
        atr ← pure (_sizing_atr i s);
        match atr with
        | None => _abandon_reprice is_pyramid s
        | Some atr =>
            let maker_fee :=
              if negb (bool_decide (economic_guard (entry (bar_strategy i)) = None)) || is_futures_product_id (bar_product_id i)
              then cycle_maker_fee i else None in
            sized ← pure (_size_entry_or_add i maker_fee entry_price atr (Strategy.side (entry (bar_strategy i))) is_pyramid s);
            match sized with
            | Skip _ => _abandon_reprice is_pyramid s
            | Sized sized => admit_reprice prior phase is_pyramid entry_price sized s
            end
        end
    end.

(** After the wait: the entry is cancelled, its racing fills applied, and it is replaced or given up. *)
Definition give_up_or_reprice (open_entry : Order) : M DeploymentSnapshot :=
  s ← _cancel_one_order store broker open_entry;
  if match _active_entry s with Some o => negb (bool_decide (Order.status o = OrderStatus.CANCELED)) | None => false end
  then _pause store s ENTRY_NOT_CANCELED_DETAIL
  else
    raced ← _apply_cancel_race_fills s open_entry;
    let '(s, prior, settled) := raced : DeploymentSnapshot * Order * bool in
    if negb settled then _pause store s CANCEL_RACE_FILLS_PENDING_DETAIL
    else
      let has_position := negb (bool_decide (DeploymentSnapshot.position s = None)) in
      match on_unfilled_entry (execution (bar_strategy i)), can_reprice_risk_up latch_cache (DeploymentSnapshot.deployment s) with
      | reprice, true => _reprice_entry prior (if has_position then RuntimePhase.OPEN else RuntimePhase.PENDING_ENTRY) s
      | _, _ =>
          if has_position then save_change store s (pending_bars 0)
          else _flatten_pending store s (Z.max (Strategy.cooldown_bars (entry (bar_strategy i))) 1)
      end.

Definition _manage_working_entry (s : DeploymentSnapshot) : M DeploymentSnapshot :=
  let waited := Runtime.pending_entry_bars (DeploymentSnapshot.deployment s) + 1 in
  match _active_entry s with
  | None =>
      if negb (bool_decide (DeploymentSnapshot.position s = None)) then save_change store s (pending_bars 0)
      else _flatten_pending store s 1
  | Some open_entry =>
      if negb (bool_decide (Order.status open_entry = OrderStatus.OPEN)) || bool_decide (Order.venue_order_id open_entry = None)
      then _pause store s ENTRY_UNCONFIRMED_DETAIL
      else if waited <? max_entry_wait_bars (execution (bar_strategy i)) then save_change store s (pending_bars waited)
      else give_up_or_reprice open_entry
  end.

End EntryReprice.
