(* ===== verification/ClosedBar.v ===== *)
(** * ClosedBar: the cycle of a closed bar

    Protection and flattening ([execution/live_protection.py], [futures_liquidation.py],
    [residual.py]), then [loop.py], which runs everything in the code's order. *)

From S2P Require Import Prelude Decimals Market Geometry IndicatorSpec Conditions Strategy Sizing Containers.
From S2P Require Import TradingModels FillLedger ExecutionStore StoreSteps Ledger RiskModels EntryLimits.
From S2P Require Import Breakers FuturesBooks FuturesGate LiveSignals Engine ExitGuards FuturesVenue Submit.
From S2P Require Import Reconcile Exits Capital EntryCycle.

Open Scope Z_scope.

(** * Protecting and flattening a book ([execution/live_protection.py], [futures_liquidation.py], [residual.py], [paper.py])

    A live position rests one venue bracket, replaced when its stop moves; a paper position
    checks its stop on closed bars and rests its take-profit. A book asked to flatten exits
    when a verified price exists and settles as STOPPED once it is flat and idle. *)

Definition STOP_LIMIT_PRICE_DETAIL : string :=
  "Stop-only protection limit price is not positive at the venue price increment.".
Definition TAKE_PROFIT_UNCONFIRMED_DETAIL : string := "Take-profit submit is unconfirmed.".
Definition FLATTEN_AWAITING_EXECUTABLE_CONTEXT : string :=
  "Flatten is pending: no verified closed price is available, so protective orders were kept and no exit was submitted.".

(** A settled flatten: [status=STOPPED, clear_mismatch=True, pending_entry_bars=0]. *)
Definition settled_change : RuntimeChange := {|
  new_cash := None; new_phase := None; new_mismatch_detail := None; clear_mismatch := true;
  new_last_evaluated_bar := None; new_last_signal := None; new_pending_entry_bars := Some 0; new_bars_held := None;
  new_cooldown_bars_remaining := None; new_pending_stop_price := None; new_pending_target_price := None;
  clear_pending_levels := false; new_status := Some DeploymentStatus.STOPPED; new_lifecycle_command := None;
  new_daily_loss_latched := None; new_drawdown_latched := None; new_last_signal_event_at := None;
  new_last_signal_processed_at := None |}.

(** [clear_mismatch=True] alone *)
Definition cleared_mismatch : RuntimeChange := {|
  new_cash := None; new_phase := None; new_mismatch_detail := None; clear_mismatch := true;
  new_last_evaluated_bar := None; new_last_signal := None; new_pending_entry_bars := None; new_bars_held := None;
  new_cooldown_bars_remaining := None; new_pending_stop_price := None; new_pending_target_price := None;
  clear_pending_levels := false; new_status := None; new_lifecycle_command := None;
  new_daily_loss_latched := None; new_drawdown_latched := None; new_last_signal_event_at := None;
  new_last_signal_processed_at := None |}.

Section Fees.
Context {dc : DecimalContext} {scope : CycleScope}.

(** ** The paper broker's fees ([paper.py]) *)

Definition _futures_fee_per_unit (d : Deployment) : result decimal :=
  match current_futures_book bound_futures_book (Some (Deployment.id d)) ≫= FuturesBookState.binding with
  | None => Ok d0
  | Some binding => div (bound_fee_per_contract binding) (InstrumentContract.contract_size (contract binding))
  end.

Definition bind_paper_broker_fees (broker : Broker) (d : Deployment) : result Broker :=
  match broker with
  | PaperBroker rates =>
      if negb (bool_decide (Deployment.mode d = DeploymentMode.PAPER)) then Ok broker
      else
        let '(maker, taker) := effective_paper_fee_rates (Deployment.paper_maker_fee_rate d) (Deployment.paper_taker_fee_rate d) in
        per_unit ← _futures_fee_per_unit d;
        if ((PaperRates.maker_fee_rate rates =? maker) && (PaperRates.taker_fee_rate rates =? taker)
            && (PaperRates.fee_per_unit rates =? per_unit))%dec
        then Ok broker
        else Ok (PaperBroker {| PaperRates.maker_fee_rate := maker; PaperRates.taker_fee_rate := taker;
                                PaperRates.fee_per_unit := per_unit |})
  | _ => Ok broker
  end.

End Fees.

Section BookProtection.
Context {venue : Venue} {surroundings : Surroundings} {dc : DecimalContext} {scope : CycleScope}.
Variable store : ExecutionStore.

(** ** Live brackets *)

Section Protection.
Variable broker : Broker.
Variable product : MarketProduct.
Variable candle : Candle.

Definition _bracket_matches (o : Order) (p : Position) : bool :=
  if negb (same_price (Order.stop_trigger_price o) (Some (Position.stop_price p)))
     || negb (Order.quantity o =? Position.quantity p)%dec then false
  else match Position.target_price p with
    | None => bool_decide (Order.kind o = OrderKind.STOP_LIMIT)
    | Some _ => bool_decide (Order.kind o = OrderKind.TRIGGER_BRACKET) && same_price (Order.price o) (Position.target_price p)
    end.

Definition _pause_bracket_rejected (s : DeploymentSnapshot) (p : Position) : M DeploymentSnapshot :=
  match bracket_rejection s p with
  | None => _pause store s BRACKET_NOT_RESTED_DETAIL
  | Some r => _pause_rejected store s r
  end.

(** The kind and limit price of the protective order of a position. *)
Definition bracket_terms (p : Position) : result (OrderKind * decimal) :=
  match Position.target_price p with
  | Some target => Ok (OrderKind.TRIGGER_BRACKET, target)
  | None =>
      price ← protective_stop_limit_price (exit_order_side (Position.side p)) (Position.stop_price p) (price_increment product);
      Ok (OrderKind.STOP_LIMIT, price)
  end.

Definition bracket_submission (p : Position) (kind : OrderKind) (price : decimal) : Submission := {|
  submit_product_id := market_product_id product;
  submit_purpose := if bool_decide (Position.target_price p = None) && is_futures_product_id (market_product_id product)
                    then IntentPurpose.STOP else IntentPurpose.BRACKET;
  submit_side := exit_order_side (Position.side p); submit_kind := kind; submit_quantity := Position.quantity p;
  submit_price := Some price; submit_candle := Some candle; submit_decision_at := None;
  submit_stop_trigger_price := Some (Position.stop_price p); submit_take_profit_price := None;
  submit_origin := IntentOrigin.RUNTIME; submit_idempotency_key := None; submit_pyramid_add := false |}.

(** What the answer to a protective submit leaves behind. *)
Definition settle_bracket (s : DeploymentSnapshot) (p : Position) (o : Order) : M DeploymentSnapshot :=
  match Order.status o with
  | OrderStatus.OPEN => _mark_pending_exit store s
  | OrderStatus.UNKNOWN | OrderStatus.PENDING => _pause store s BRACKET_UNCONFIRMED_DETAIL
  | OrderStatus.REJECTED => _pause_bracket_rejected s p
  | _ => _pause store s BRACKET_NOT_RESTED_DETAIL
  end.

Definition _submit_live_bracket (s : DeploymentSnapshot) (p : Position) : M DeploymentSnapshot :=
  latched ← match bracket_rejection s p with
            | None => mret false
            | Some r => now ← utc_now; pure (rejection_latched s r now)
            end;
  if (latched : bool) then _pause_bracket_rejected s p
  else
    terms ← pure (bracket_terms p);
    let '(kind, price) := terms : OrderKind * decimal in
    if bool_decide (Position.target_price p = None) && (price <=? d0)%dec then _pause store s STOP_LIMIT_PRICE_DETAIL
    else
      o ← submit_intent store broker (Deployment.id (DeploymentSnapshot.deployment s)) (bracket_submission p kind price);
      current ← reload store s;
      settle_bracket current p o.

Definition _replace_live_protection (s : DeploymentSnapshot) : M DeploymentSnapshot :=
  s ← _reconcile_stopped_live store broker s;
  match _exit_economics_fault s, DeploymentSnapshot.position s with
  | Some detail, _ => _pause store s detail
  | None, None => mret s
  | None, Some p => _submit_live_bracket s p
  end.

(** A resting order covers other geometry: it is cancelled first. *)
Definition replace_bracket (s : DeploymentSnapshot) (p : Position) (existing : Order) : M DeploymentSnapshot :=
  s ← _cancel_one_order store broker existing;
  match _active_side (DeploymentSnapshot.orders s) (exit_order_side (Position.side p)) with
  | Some remaining => if cancel_pending remaining then mret s else _pause store s BRACKET_REPLACE_CANCEL_DETAIL
  | None => _replace_live_protection s
  end.

Definition _ensure_live_bracket (s : DeploymentSnapshot) : M DeploymentSnapshot :=
  s ← _adopt_venue_attached_child store broker s (market_product_id product);
  match _exit_economics_fault s, DeploymentSnapshot.position s with
  | Some detail, _ => _pause store s detail
  | None, None => mret s
  | None, Some p =>
      let existing := _active_side (DeploymentSnapshot.orders s) (exit_order_side (Position.side p)) in
      if attached_entry_covers s p then _mark_pending_exit store s
      else if match existing with Some o => _bracket_matches o p | None => false end then _mark_pending_exit store s
      else if flatten_requested s || negb (bool_decide (exit_fill_pending s = None)) then mret s
      else match existing with
        | Some o => replace_bracket s p o
        | None => _submit_live_bracket s p
        end
  end.

(** ** Paper take-profit *)

Definition take_profit_submission (p : Position) (target : decimal) : Submission := {|
  submit_product_id := market_product_id product; submit_purpose := IntentPurpose.TAKE_PROFIT;
  submit_side := exit_order_side (Position.side p); submit_kind := OrderKind.POST_ONLY_LIMIT;
  submit_quantity := Position.quantity p; submit_price := Some target; submit_candle := Some candle;
  submit_decision_at := None; submit_stop_trigger_price := None; submit_take_profit_price := None;
  submit_origin := IntentOrigin.RUNTIME; submit_idempotency_key := None; submit_pyramid_add := false |}.

Definition _ensure_take_profit (s : DeploymentSnapshot) : M DeploymentSnapshot :=
  match DeploymentSnapshot.position s with
  | None => mret s
  | Some p =>
      match Position.target_price p with
      | None => mret s
      | Some target =>
          if negb (bool_decide (_active_side (DeploymentSnapshot.orders s) (exit_order_side (Position.side p)) = None))
          then _mark_pending_exit store s
          else
            o ← submit_intent store broker (Deployment.id (DeploymentSnapshot.deployment s)) (take_profit_submission p target);
            match Order.status o with
            | OrderStatus.OPEN => _mark_pending_exit store s
            | OrderStatus.UNKNOWN | OrderStatus.PENDING => s ← reload store s; _pause store s TAKE_PROFIT_UNCONFIRMED_DETAIL
            | _ => reload store s
            end
      end
  end.

(** ** Exits that are due *)

Definition _due_exit_purpose (s : DeploymentSnapshot) (strategy : option StrategyDefinition) : option IntentPurpose :=
  match DeploymentSnapshot.position s with
  | None => None
  | Some p =>
      if negb (bool_decide (Deployment.mode (DeploymentSnapshot.deployment s) = DeploymentMode.LIVE)) then None
      else if flatten_requested s then Some IntentPurpose.STOP
      else if negb (bool_decide (Position.signal_exit_bar p = None)) then Some IntentPurpose.SIGNAL_EXIT
      else match strategy with
        | None => None
        | Some strategy =>
            if max_bars_held (exits strategy) <=? Runtime.bars_held (DeploymentSnapshot.deployment s)
            then Some IntentPurpose.TIME_EXIT else None
        end
  end.

Definition _ensure_exit_protection (strategy : option StrategyDefinition) (s : DeploymentSnapshot) : M DeploymentSnapshot :=
  match strategy, _due_exit_purpose s strategy with
  | Some _, Some purpose => _marketable_exit store broker product candle purpose (close candle) strategy None s
  | _, _ =>
      if decide (Deployment.mode (DeploymentSnapshot.deployment s) = DeploymentMode.LIVE)
      then _ensure_live_bracket s else _ensure_take_profit s
  end.

(** [None]: the stop was not hit and the bar goes on. *)
Definition _paper_stop_exit_if_hit (strategy : StrategyDefinition) (p : Position) (s : DeploymentSnapshot)
    : M (option DeploymentSnapshot) :=
  if negb (paper_stop_hit (Position.side p) candle (Position.stop_price p)) then mret None
  else
    let price := paper_stop_fill_price (Position.side p) candle (Position.stop_price p) in
    s ← _marketable_exit store broker product candle IntentPurpose.STOP price (Some strategy) None s; mret (Some s).

Definition paper_liquidation_if_due (strategy : StrategyDefinition) (p : Position) (s : DeploymentSnapshot)
    : M (option DeploymentSnapshot) :=
  if negb (paper_liquidation_hit bound_futures_book s (Some p) candle) then mret None
  else
    let adverse := match Position.side p with SHORT => high candle | LONG => low candle end in
    s ← _marketable_exit store broker product candle IntentPurpose.LIQUIDATION adverse (Some strategy) None s; mret (Some s).

Definition trailed_stop (strategy : StrategyDefinition) (candles : list Candle) (policy : AtrMultipleStop) (p : Position)
    : result TrailingStopState :=
  atr ← named_atr strategy candles (atr_indicator policy);
  let ratchet := Position.entered_bar p <? starts_at candle in
  match Position.side p with
  | SHORT => ratcheted_short_stop (Position.stop_price p) (Position.trail_extreme p) (low candle) atr (multiple policy)
               (Some (price_increment product)) ratchet
  | LONG => ratcheted_long_stop (Position.stop_price p) (Position.trail_extreme p) (high candle) atr (multiple policy)
              (Some (price_increment product)) ratchet
  end.

Definition _apply_trailing (strategy : StrategyDefinition) (candles : list Candle) (s : DeploymentSnapshot) : M DeploymentSnapshot :=
  match DeploymentSnapshot.position s, atr_trailing_stop (exits strategy) with
  | Some p, Some policy =>
      state ← pure (trailed_stop strategy candles policy p);
      if (trail_stop_price state =? Position.stop_price p)%dec
         && same_price (Some (state_extreme state)) (Position.trail_extreme p) then mret s
      else
        t ← utc_now;
        _ ← store_save_position store (Some (Position.set_trail p (trail_stop_price state) (Some (state_extreme state)) t))
              (Deployment.id (DeploymentSnapshot.deployment s)) None;
        reload store s
  | _, _ => mret s
  end.

(** The marketable exit due on this closed bar, with its price; [None] rests protection. *)
Definition due_on_bar (strategy : StrategyDefinition) (skip_paper_stop : bool) (p : Position) (s : DeploymentSnapshot)
    : option (IntentPurpose * decimal) :=
  let live := bool_decide (Deployment.mode (DeploymentSnapshot.deployment s) = DeploymentMode.LIVE) in
  let timed_out := max_bars_held (exits strategy) <=? Runtime.bars_held (DeploymentSnapshot.deployment s) in
  if flatten_requested s then Some (IntentPurpose.STOP, close candle)
  else if negb (bool_decide (Position.signal_exit_bar p = None)) then Some (IntentPurpose.SIGNAL_EXIT, close candle)
  else if timed_out then Some (IntentPurpose.TIME_EXIT, close candle)
  else if negb live && negb skip_paper_stop && paper_stop_hit (Position.side p) candle (Position.stop_price p)
  then Some (IntentPurpose.STOP, paper_stop_fill_price (Position.side p) candle (Position.stop_price p))
  else None.

Definition _protect_open_position (strategy : StrategyDefinition) (skip_paper_stop : bool) (s : DeploymentSnapshot)
    : M DeploymentSnapshot :=
  match DeploymentSnapshot.position s with
  | None => mret s
  | Some p =>
      match due_on_bar strategy skip_paper_stop p s with
      | Some (purpose, price) => _marketable_exit store broker product candle purpose price (Some strategy) None s
      | None =>
          if decide (Deployment.mode (DeploymentSnapshot.deployment s) = DeploymentMode.LIVE)
          then _ensure_live_bracket s else _ensure_take_profit s
      end
  end.

End Protection.

(** The upkeep of a book that takes no new entries. *)
Definition maintain_discretionary_protection (broker : Broker) (product : MarketProduct) (candles : list Candle)
    (strategy : option StrategyDefinition) (s : DeploymentSnapshot) : M DeploymentSnapshot :=
  match last candles, DeploymentSnapshot.position s with
  | None, _ | _, None => mret s
  | Some candle, Some _ =>
      broker ← pure (bind_paper_broker_fees broker (DeploymentSnapshot.deployment s));
      let live (s : DeploymentSnapshot) := bool_decide (Deployment.mode (DeploymentSnapshot.deployment s) = DeploymentMode.LIVE) in
      s ← (if negb (live s) then _match_resting_orders store broker s candle 0 None true None else mret s);
      match DeploymentSnapshot.position s, _due_exit_purpose s strategy with
      | None, _ => mret s
      | Some _, Some purpose => _marketable_exit store broker product candle purpose (close candle) strategy None s
      | Some p, None =>
          if live s then _ensure_live_bracket broker product candle s
          else if paper_stop_hit (Position.side p) candle (Position.stop_price p)
          then _marketable_exit store broker product candle IntentPurpose.STOP
                 (paper_stop_fill_price (Position.side p) candle (Position.stop_price p)) None (Some 0) s
          else _ensure_take_profit broker product candle s
      end
  end.

(** ** Residual inventory ([residual.py]) *)

Definition _settle_flat_book (s : DeploymentSnapshot) : M DeploymentSnapshot :=
  let d := DeploymentSnapshot.deployment s in
  if negb (flat_and_idle s) || unsettled_fill_evidence s || negb (bool_decide (unprojected_inventory_products s = [])) then mret s
  else if flatten_requested s && bool_decide (Deployment.status d ∈ [DeploymentStatus.PAUSED; DeploymentStatus.STOPPED]) then
    if bool_decide (Deployment.status d = DeploymentStatus.STOPPED) && bool_decide (Deployment.mismatch_detail d = None)
    then mret s else save_change store s settled_change
  else if negb (stale_position_fault (Deployment.mismatch_detail d)) then mret s
  else save_change store s
    (if decide (Deployment.status d = DeploymentStatus.PAUSED) then detail_change FLAT_AFTER_FAULT_DETAIL else cleared_mismatch).

Definition settle_stopped_book (s : DeploymentSnapshot) : M DeploymentSnapshot := _settle_flat_book s.

Section Residual.
Variable broker : Broker.

Definition _cancel_open_entries (s : DeploymentSnapshot) : M DeploymentSnapshot :=
  let entry_ids := intents_for s [IntentPurpose.ENTRY] in
  s ← loop (λ current o,
    if negb (order_active o) || negb (bool_decide (Order.intent_id o ∈ entry_ids)) || is_venue_protection (Order.kind o)
    then mret current else _cancel_one_order store broker o) s (DeploymentSnapshot.orders s);
  reload store s.

Definition defer_flatten_without_executable_context (s : DeploymentSnapshot) : M DeploymentSnapshot :=
  s ← _cancel_open_entries s;
  s ← reload store s;
  current ← _reconcile_stopped_live store broker s;
  let d := DeploymentSnapshot.deployment current in
  if negb (bool_decide (Deployment.mismatch_detail d = None)) then mret current
  else save_change store current
    (runtime_update None None None false (Some (Deployment.status d)) (Some FLATTEN_AWAITING_EXECUTABLE_CONTEXT)).

Definition _cancel_and_settle (s : DeploymentSnapshot) : M DeploymentSnapshot :=
  cleared ← cancel_resting_orders store broker s;
  cleared ← _reconcile_stopped_live store broker cleared;
  _settle_flat_book cleared.

Definition _exit_after_confirmed_cancels (product : MarketProduct) (candle : Candle) (strategy : option StrategyDefinition)
    (cooldown_bars : Z) (s : DeploymentSnapshot) : M DeploymentSnapshot :=
  exited ← _marketable_exit store broker product candle IntentPurpose.STOP (close candle) strategy (Some cooldown_bars) s;
  if negb (bool_decide (DeploymentSnapshot.position exited = None)) then mret exited else _cancel_and_settle exited.

End Residual.

Definition flatten_residual_book (broker : Broker) (product : MarketProduct) (candles : list Candle)
    (strategy : option StrategyDefinition) (cooldown_bars : Z) (s : DeploymentSnapshot) : M DeploymentSnapshot :=
  broker ← pure (bind_paper_broker_fees broker (DeploymentSnapshot.deployment s));
  match DeploymentSnapshot.position s, last candles with
  | Some _, None => defer_flatten_without_executable_context broker s
  | None, _ => _cancel_and_settle broker s
  | Some _, Some candle => _exit_after_confirmed_cancels broker product candle strategy cooldown_bars s
  end.

Definition flatten_stopped_residual (broker : Broker) (product : MarketProduct) (candles : list Candle)
    (strategy : StrategyDefinition) (s : DeploymentSnapshot) : M DeploymentSnapshot :=
  flatten_residual_book broker product candles (Some strategy) (Strategy.cooldown_bars (entry strategy)) s.

End BookProtection.

(** * One closed candle ([execution/loop.py])

    [process_closed_bar] is the cycle of one product's book: resting orders are matched, the
    working entry and the open position are managed, breakers are applied, an entry may be
    attempted, and the performance and the runtime are written back. *)

(** The phases in which a position is held; [PENDING_ENTRY] is not one of them. *)
Definition _HOLDING : list RuntimePhase := [RuntimePhase.OPEN; RuntimePhase.PENDING_EXIT].

Definition bars_held_change (bars : Z) : RuntimeChange := {|
  new_cash := None; new_phase := None; new_mismatch_detail := None; clear_mismatch := false;
  new_last_evaluated_bar := None; new_last_signal := None; new_pending_entry_bars := None; new_bars_held := Some bars;
  new_cooldown_bars_remaining := None; new_pending_stop_price := None; new_pending_target_price := None;
  clear_pending_levels := false; new_status := None; new_lifecycle_command := None; new_daily_loss_latched := None;
  new_drawdown_latched := None; new_last_signal_event_at := None; new_last_signal_processed_at := None |}.

Definition cooldown_change (bars : Z) : RuntimeChange := runtime_update None None (Some bars) false None None.

(** [purposes.get(order.intent_id, ENTRY)] of a dict built from the intents: the last one counts. *)
Definition intent_purpose (s : DeploymentSnapshot) (intent_id : UUID) : IntentPurpose :=
  default IntentPurpose.ENTRY
    (OrderIntent.purpose <$> last (List.filter (λ i, bool_decide (OrderIntent.id i = intent_id)) (DeploymentSnapshot.intents s))).

Definition known_entries (s : DeploymentSnapshot) : list UUID :=
  List.filter (λ id, bool_decide (intent_purpose s id = IntentPurpose.ENTRY)) (OrderIntent.id <$> DeploymentSnapshot.intents s).

Definition risk_increasing_orders (s : DeploymentSnapshot) : list Order :=
  List.filter (λ o,
    order_active o && negb (is_venue_protection (Order.kind o))
    && bool_decide (intent_purpose s (Order.intent_id o) = IntentPurpose.ENTRY)
    && (bool_decide (known_entries s = []) || bool_decide (Order.intent_id o ∈ known_entries s))) (DeploymentSnapshot.orders s).

Section ClosedBar.
Context {venue : Venue} {surroundings : Surroundings} {dc : DecimalContext} {scope : CycleScope}.
Context {so : SetOrder} {dg : Digest} {risk_evidence : RiskEvidence}.
Variable store : ExecutionStore.
Variable i : CycleInputs.

Definition cancel_risk_increasing_orders (broker : Broker) (s : DeploymentSnapshot) : M DeploymentSnapshot :=
  s ← loop (λ _ o, _cancel_one_order store broker o) s (risk_increasing_orders s);
  reload store s.

(** ** The open position *)

Section Bar.
Variable broker : Broker.
Variable candle : Candle.

(** After the exits that win the bar: mark a matched signal or trail, then protect. *)
Definition trail_and_protect (signal_matched live : bool) (p : Position) (s : DeploymentSnapshot) : M DeploymentSnapshot :=
  s ← (if signal_matched then _mark_signal_exit store candle s
       else if bool_decide (Position.signal_exit_bar p = None)
       then _apply_trailing store (cycle_product i) candle (cycle_strategy i) (cycle_candles (cycle_bars i)) s
       else mret s);
  _protect_open_position store broker (cycle_product i) candle (cycle_strategy i) (negb live) s.

(** What a paper book checks first: liquidation, then the stop. *)
Definition paper_exits_first (p : Position) (s : DeploymentSnapshot) : M (option DeploymentSnapshot) :=
  liquidated ← paper_liquidation_if_due store broker (cycle_product i) candle (cycle_strategy i) p s;
  match liquidated with
  | Some s => mret (Some s)
  | None => _paper_stop_exit_if_hit store broker (cycle_product i) candle (cycle_strategy i) p s
  end.

Definition _exit_trail_and_protect (s : DeploymentSnapshot) : M DeploymentSnapshot :=
  let live := bool_decide (Deployment.mode (DeploymentSnapshot.deployment s) = DeploymentMode.LIVE) in
  evaluated ← _evaluate_signal_exit store (cycle_strategy i) (cycle_bars i) candle s;
  let '(s, signal_matched) := evaluated : DeploymentSnapshot * bool in
  match DeploymentSnapshot.position s with
  | None => mret s
  | Some p =>
      exited ← (if live then mret None else paper_exits_first p s);
      match exited with
      | Some s => mret s
      | None => trail_and_protect signal_matched live p s
      end
  end.

Definition _manage_open_position (s : DeploymentSnapshot) : M DeploymentSnapshot :=
  let d := DeploymentSnapshot.deployment s in
  match DeploymentSnapshot.position s with
  | None => mret s
  | Some p =>
      if negb (bool_decide (Runtime.phase d ∈ _HOLDING)) then mret s
      else
        s ← (if decide (Deployment.mode d = DeploymentMode.LIVE)
             then _adopt_venue_attached_child store broker s (market_product_id (cycle_product i)) else mret s);
        match DeploymentSnapshot.position s with
        | None => mret s
        | Some _ =>
            s ← (if negb (Position.entered_bar p =? starts_at candle)
                 then save_change store s (bars_held_change (Runtime.bars_held (DeploymentSnapshot.deployment s) + 1)) else mret s);
            match DeploymentSnapshot.position s with None => mret s | Some _ => _exit_trail_and_protect s end
        end
  end.

Definition _manage_position (s : DeploymentSnapshot) : M DeploymentSnapshot :=
  managed ← (if negb (bool_decide (_active_entry s = None)) then
               s ← _manage_working_entry store broker i candle s;
               mret (s, bool_decide (Deployment.status (DeploymentSnapshot.deployment s) = DeploymentStatus.STOPPED)
                        || bool_decide (DeploymentSnapshot.position s = None)
                           && bool_decide (Runtime.phase (DeploymentSnapshot.deployment s) = RuntimePhase.FLAT))
             else mret (s, false));
  let '(s, done) := managed : DeploymentSnapshot * bool in
  if done then mret s
  else
    checked ← _fail_closed_on_split_state store s;
    match checked with Some s => mret s | None => _manage_open_position s end.

End Bar.

(** ** Performance *)

(** [replace(current.deployment, ...)] with the marked metadata. *)
Definition with_performance (current marked : Deployment) : Deployment :=
  Deployment.set_capital current {|
    Deployment.allocated_capital := Deployment.allocated_capital current;
    Deployment.venue_available_quote := Deployment.venue_available_quote current;
    Deployment.reserved_buying_power := Deployment.reserved_buying_power marked;
    Deployment.inventory_cost := Deployment.inventory_cost marked;
    Deployment.performance_equity := Deployment.performance_equity marked;
    Deployment.performance_capital_quote := Deployment.performance_capital_quote marked;
    Deployment.performance_maximum_drawdown_fraction := Deployment.performance_maximum_drawdown_fraction marked;
    Deployment.initial_equity := Deployment.initial_equity marked;
    Deployment.baseline_equity := Deployment.baseline_equity marked;
    Deployment.utc_day_open_equity := Deployment.utc_day_open_equity current;
    Deployment.utc_day_open_at := Deployment.utc_day_open_at current;
    Deployment.risk_day_open_evidence := Deployment.risk_day_open_evidence marked;
    Deployment.high_water_mark_equity := Deployment.high_water_mark_equity marked |} (Deployment.updated_at marked).

Definition _persist_performance (mark_price : decimal) (s : DeploymentSnapshot) : M DeploymentSnapshot :=
  let id := Deployment.id (DeploymentSnapshot.deployment s) in
  now ← utc_now;
  full ← try_except (full ← accounting_snapshot store id now; mret (Some full))
    (λ e, if is_store_error e then Some (mret None) else None);
  match full with
  | None => mret s
  | Some full =>
      current ← reload store s;
      let expected := Deployment.revision (DeploymentSnapshot.deployment full) in
      if negb (Deployment.revision (DeploymentSnapshot.deployment current) =? expected) then mret current
      else
        marked ← pure (refresh_performance full (<[market_product_id (cycle_product i) := mark_price]> (cycle_marks i)) now);
        _ ← try_except
          (_ ← store_save_deployment store (with_performance (DeploymentSnapshot.deployment current) marked) (Some expected) None; mret tt)
          (λ e, if is_conflict e then Some (mret tt) else None);
        reload store s
  end.

(** ** The cycle *)

(** A bar that was evaluated already only gets its protection and its performance. *)
Definition revisit_bar (broker : Broker) (candle : Candle) (s : DeploymentSnapshot) : M DeploymentSnapshot :=
  let d := DeploymentSnapshot.deployment s in
  s ← (if bool_decide (Runtime.phase d ∈ _HOLDING) || negb (bool_decide (DeploymentSnapshot.position s = None))
       then _ensure_exit_protection store broker (cycle_product i) candle (Some (cycle_strategy i)) s else mret s);
  s ← _persist_performance (close candle) s;
  _settle_flat_book store s.

(** The state of a book that may take a new entry at the end of its bar. *)
Definition may_enter (allow_new_entries : bool) (d : Deployment) : bool :=
  allow_new_entries && entries_allowed latch_cache d && bool_decide (Deployment.status d = DeploymentStatus.RUNNING).

Definition evaluate_bar (broker : Broker) (candle : Candle) (allow_new_entries : bool) (s : DeploymentSnapshot) : M DeploymentSnapshot :=
  let d := DeploymentSnapshot.deployment s in
  s ← (if (0 <? Runtime.cooldown_bars_remaining d) && negb (bool_decide (Deployment.status d = DeploymentStatus.STOPPED))
       then save_change store s (cooldown_change (Runtime.cooldown_bars_remaining d - 1)) else mret s);
  s ← _match_resting_orders store broker s candle (Strategy.cooldown_bars (entry (cycle_strategy i)))
    (or_text (Deployment.timeframe d) (Some (timeframe (cycle_strategy i))))
    (negb (bool_decide (Deployment.mode d = DeploymentMode.LIVE))) None;
  s ← _manage_position broker candle s;
  s ← (if decide (Deployment.status (DeploymentSnapshot.deployment s) = DeploymentStatus.RUNNING)
       then _apply_circuit_breakers store (cycle_policy i) (cycle_portfolio i) (cycle_marks i)
              (market_product_id (cycle_product i)) candle s
       else mret s);
  s ← (if may_enter allow_new_entries (DeploymentSnapshot.deployment s)
       then _maybe_enter store broker i candle s else mret s);
  s ← _persist_performance (close candle) s;
  s ← _persist_runtime store s (starts_at candle);
  _settle_flat_book store s.

(** A stopped book is only worked on while it has residual exposure. *)
Definition cycle_applies (s : DeploymentSnapshot) : bool :=
  let status := Deployment.status (DeploymentSnapshot.deployment s) in
  bool_decide (status ∈ [DeploymentStatus.RUNNING; DeploymentStatus.PAUSED])
  || bool_decide (status = DeploymentStatus.STOPPED) && snapshot_has_residual_exposure s.

Definition process_closed_bar (broker : Broker) (allow_new_entries : bool) (s : DeploymentSnapshot) : M DeploymentSnapshot :=
  let d := DeploymentSnapshot.deployment s in
  match last (cycle_candles (cycle_bars i)) with
  | None => mret s
  | Some candle =>
      if negb (cycle_applies s) then mret s
      else
        broker ← pure (bind_paper_broker_fees broker d);
        if bool_decide (Runtime.last_evaluated_bar d = Some (starts_at candle)) then revisit_bar broker candle s
        else evaluate_bar broker candle allow_new_entries s
  end.

End ClosedBar.

(** The arguments a maintenance cycle leaves at their defaults. *)
Definition maintenance_inputs (i : CycleInputs) : CycleInputs := {|
  cycle_strategy := cycle_strategy i; cycle_product := cycle_product i; cycle_bars := cycle_bars i;
  cycle_policy := compiled_default_risk_policy; cycle_portfolio := []; cycle_base_available := None; cycle_marks := ∅;
  cycle_maker_fee := None |}.

(** Between bars: the same cycle with no entries. *)
Definition maintain_open_inventory {venue : Venue} {surroundings : Surroundings} {dc : DecimalContext} {scope : CycleScope}
    {so : SetOrder} {dg : Digest} {risk_evidence : RiskEvidence} (store : ExecutionStore) (i : CycleInputs) (broker : Broker)
    (s : DeploymentSnapshot) : M DeploymentSnapshot :=
  if bool_decide (cycle_candles (cycle_bars i) = []) then mret s
  else
    broker ← pure (bind_paper_broker_fees broker (DeploymentSnapshot.deployment s));
    process_closed_bar store (maintenance_inputs i) broker false s.
