(* ===== verification/CycleSteps.v ===== *)
(** * CycleSteps: a cycle as a sequence of steps

    A worked venue and clock, then what every operation of the engine may do to its world. *)

From stdpp Require Import relations.
From S2P Require Import Prelude Decimals Market Geometry Containers TradingModels FillLedger ExecutionStore.
From S2P Require Import StoreFacts StoreSteps RiskModels EntryLimits Breakers FuturesBooks FuturesGate Engine.
From S2P Require Import ExitGuards FuturesVenue Submit Capital.

Open Scope Z_scope.

(** * A venue, a clock and a paper book to evaluate the engine on

    A venue that rests every order, a clock that ticks a second per reading, numbered
    identifiers, and the book of [TradingScenario]. The witnesses of the engine's theorems
    evaluate on them. *)

Definition resting_answer (id : string) : SubmitResult := SubmitResult.mk OrderStatus.OPEN id d0 None None d0 None.

(** Every order rests under its client id; there are no fills, and a maker price is the mark. *)
Definition resting_venue : Venue := {|
  venue_state := unit;
  venue_place_order r v := (v, Ok (resting_answer (PlaceRequest.client_order_id r)));
  venue_cancel_order id client v := (v, Ok (SubmitResult.mk OrderStatus.CANCELED id d0 None None d0 None));
  venue_get_order id client v := (v, Ok (resting_answer id));
  venue_list_fills product id v := (v, Ok []);
  venue_match_open_order o c := None;
  venue_maker_limit_price product mark side v := (v, Ok mark);
  venue_find_order := None |}.

Definition numbered_id (n : nat) : UUID := "id-" +:+ pretty.pretty n.

Definition ticking : Surroundings := {|
  clock_reading n := demo_hour 5 + Z.of_nat n * second;
  fresh_id := numbered_id;
  bound_gate := None;
  ambient_fence := None |}.

Lemma numbered_id_inj : Inj eq eq numbered_id.
Proof. intros m n H. by apply (inj _) in H. Qed.

Definition calm : CycleScope := {|
  latch_cache := {| cached_snapshot := None; recorded_latch := None |}; bound_futures_book := None; live_futures_account := None; bound_portfolio := None |}.

Definition no_evidence : RiskEvidence := {|
  read_range := None; read_beta := None; futures_runtime := None; account_mirror := None; verdict_text _ := "paused" |}.

#[local] Existing Instance resting_venue.
#[local] Existing Instance ticking.
#[local] Existing Instance default_context.

Definition opening_world (s : Store) : World := mk_world (Shared s) tt 0 empty_plan [].

Definition demo_candle : Candle := {|
  starts_at := demo_hour 4; open := of_Z 100; high := of_Z 103; low := of_Z 98; close := of_Z 101; volume := of_Z 5 |}.

Definition demo_submission (key : option string) : Submission := {|
  submit_product_id := "BTC-USD"; submit_purpose := IntentPurpose.ENTRY; submit_side := BUY;
  submit_kind := OrderKind.POST_ONLY_LIMIT; submit_quantity := of_Z 1; submit_price := Some (of_Z 100);
  submit_candle := Some demo_candle; submit_decision_at := None; submit_stop_trigger_price := None;
  submit_take_profit_price := None; submit_origin := IntentOrigin.RUNTIME; submit_idempotency_key := key;
  submit_pyramid_add := false |}.

Definition demo_submit (key : option string) (w : World) : World * result Order :=
  submit_intent BaseStore VenueBroker "d1" (demo_submission key) w.

(** The first submission under a key rests an order; the second returns that order. *)
Example submit_rests : let '(w, r) := demo_submit (Some "k") (opening_world demo_store) in
  length (calls w) = 1%nat ∧ match r with Ok o => Order.status o = OrderStatus.OPEN | Raise _ => False end.
Proof. by vm_compute. Qed.

Example resubmission_returns_it : let '(w, r) := demo_submit (Some "k") (opening_world demo_store) in
  let '(w2, r2) := demo_submit (Some "k") w in calls w2 = calls w ∧ match r, r2 with
    | Ok o, Ok o2 => Order.client_order_id o = Order.client_order_id o2 | _, _ => False end.
Proof. by vm_compute. Qed.

(** * A cycle as a sequence of steps

    What any operation of the engine does to the world is a sequence of five kinds of step: it
    looks something up, it makes one complete store call, it records an intent under a fresh
    identifier, it asks the venue to cancel, or it places an order that the store has recorded
    before. [runs] says so of an operation; it is closed under the constructions the code is
    written with, and the [runs] hint database carries it from the store's methods to the whole
    cycle ([CycleRuns]). *)

Section Steps.
Context {venue : Venue} {surroundings : Surroundings} {dc : DecimalContext}.

(** The row carries the request's terms. A product's scope stamps its product on a row that
    names none; the request then names none either. *)
Definition carries (o : Order) (r : PlaceRequest) : Prop :=
  place_request (Order.set_product_id o (PlaceRequest.product_id r)) = r
  ∧ (Order.product_id o = PlaceRequest.product_id r ∨ PlaceRequest.product_id r = "").

(** The request asks for what the submission described. *)
Definition asks (a : Submission) (r : PlaceRequest) : Prop :=
  PlaceRequest.side r = submit_side a ∧ PlaceRequest.kind r = submit_kind a ∧ PlaceRequest.quantity r = submit_quantity a ∧
  PlaceRequest.price r = submit_price a ∧ PlaceRequest.product_id r = submit_product_id a ∧
  PlaceRequest.stop_trigger_price r = submit_stop_trigger_price a ∧ PlaceRequest.take_profit_price r = submit_take_profit_price a.

(** The request of a submission is on record: a PENDING row with its terms, never answered, and
    its intent. *)
Definition recorded (a : Submission) (r : PlaceRequest) (s : Store) : Prop := asks a r ∧ ∃ o i,
  dict_get (Order.id o) (orders s) = Some o ∧ dict_get (OrderIntent.id i) (intents s) = Some i
  ∧ carries o r ∧ Order.status o = OrderStatus.PENDING ∧ Order.venue_order_id o = None
  ∧ Order.intent_id o = OrderIntent.id i ∧ OrderIntent.client_order_id i = PlaceRequest.client_order_id r
  ∧ OrderIntent.purpose i = submit_purpose a ∧ OrderIntent.deployment_id i = Order.deployment_id o
  ∧ OrderIntent.side i = PlaceRequest.side r ∧ OrderIntent.kind i = PlaceRequest.kind r
  ∧ OrderIntent.quantity i = PlaceRequest.quantity r ∧ OrderIntent.price i = PlaceRequest.price r.

Section Allowed.
(** The submissions an operation is allowed to make. *)
Context (P : Submission → Prop).

Inductive cycle_step (w w' : World) : Prop :=
  | step_look : backing w' = backing w → calls w' = calls w → (ticks w ≤ ticks w')%nat → cycle_step w w'
  | step_write : store_step (stored w) (stored w') → intents (stored w') = intents (stored w) → calls w' = calls w →
      (ticks w ≤ ticks w')%nat → cycle_step w w'
  | step_intend gate fence i : save_intent (stored w) gate fence i = Ok (stored w') → OrderIntent.id i = fresh_id (ticks w) →
      calls w' = calls w → (ticks w < ticks w')%nat → cycle_step w w'
  | step_cancel id : backing w' = backing w → calls w' = calls w ++ [CancelSent id (stored w)] →
      (ticks w ≤ ticks w')%nat → cycle_step w w'
  | step_place a r : P a → recorded a r (stored w) → backing w' = backing w → calls w' = calls w ++ [Placed r (stored w)] →
      (ticks w ≤ ticks w')%nat → cycle_step w w'.

Definition runs {A} (m : M A) : Prop := ∀ w, rtc cycle_step w (m w).1.

(** An operation that changes neither the store nor the record of calls. *)
Definition looks {A} (m : M A) : Prop := ∀ w,
  backing (m w).1 = backing w ∧ calls (m w).1 = calls w ∧ (ticks w ≤ ticks (m w).1)%nat.

Lemma looks_runs {A} (m : M A) : looks m → runs m.
Proof. intros H w. destruct (H w) as (? & ? & ?). apply rtc_once. by constructor. Qed.

(** ** The constructions *)

Lemma runs_ret {A} (a : A) : runs (mret a).
Proof. intros w. apply rtc_refl. Qed.

Lemma runs_at {A} (m : M A) w : runs m → rtc cycle_step w (m w).1.
Proof. intros H. apply H. Qed.

Lemma runs_raise {A} e : runs (A := A) (raise e).
Proof. intros w. apply rtc_refl. Qed.

Lemma runs_pure {A} (r : result A) : runs (pure r).
Proof. intros w. apply rtc_refl. Qed.

Lemma runs_bind {A B} (m : M A) (f : A → M B) : runs m → (∀ a, runs (f a)) → runs (m ≫= f).
Proof.
  intros Hm Hf w. specialize (Hm w). unfold mbind, M_bind. destruct (m w) as [w1 [a|e]]; cbn in *; [|done].
  etrans; [done|apply Hf].
Qed.

Lemma runs_try {A} (m : M A) handler : runs m → (∀ e, match handler e with Some h => runs h | None => True end) →
  runs (try_except m handler).
Proof.
  intros Hm Hh w. specialize (Hm w). unfold try_except. destruct (m w) as [w1 [a|e]]; cbn in *; [done|].
  specialize (Hh e). destruct (handler e); [|done]. etrans; [done|apply Hh].
Qed.

Lemma runs_loop {A S} (step : S → A → M S) s l : (∀ s a, runs (step s a)) → runs (loop step s l).
Proof.
  intros Hs. revert s. induction l as [|x l IH]; intros s; [apply runs_ret|]. apply runs_bind; [done|]. intros a. apply IH.
Qed.

(** ** Looking things up *)

Lemma runs_read {A} (f : Store → A) : runs (read_store f).
Proof. intros w. apply rtc_refl. Qed.

Lemma looks_now : looks utc_now.
Proof. intros w. cbn. repeat split; lia. Qed.

Lemma looks_uuid : looks uuid7.
Proof. intros w. cbn. repeat split; lia. Qed.

Lemma looks_set_plan p : looks (set_plan p).
Proof. by intros w. Qed.

Lemma looks_ask {A} (f : venue_state → venue_state * result A) : looks (ask_venue f).
Proof. intros w. unfold ask_venue. by destruct (f (at_venue w)). Qed.

Lemma runs_get_plan : runs get_plan.
Proof. intros w. apply rtc_refl. Qed.

Lemma runs_cancel_note id : runs (note_call (CancelSent id)).
Proof. intros w. apply rtc_once. by apply (step_cancel _ _ id). Qed.

(** ** The store's methods *)

Lemma stored_forward b s : store_of (forward b s) = s.
Proof. by destruct b. Qed.

Lemma runs_write {A} (f : Store → Store * A) :
  (∀ s, store_step s (f s).1) → (∀ s, intents (f s).1 = intents s) → runs (write_store f).
Proof.
  intros Hstep Hsame w. apply rtc_once. unfold write_store. specialize (Hstep (stored w)). specialize (Hsame (stored w)).
  destruct (f (stored w)) as [s a]. apply step_write; cbn; [| |done|done]; unfold stored; cbn; by rewrite stored_forward.
Qed.

Lemma save_deployment_intents s d e r s' saved : ExecutionStore.save_deployment s d e r = Ok (s', saved) → intents s' = intents s.
Proof.
  intros H. apply bind_Ok in H as (? & _ & H). apply bind_Ok in H as (current & _ & H). apply bind_Ok in H as (? & _ & H).
  cbn zeta in H. case_ok H; by injection H as <- _.
Qed.

Lemma runs_base_save d e r : runs (base_save_deployment d e r).
Proof.
  intros w. unfold base_save_deployment, on_backing, fenced_save_deployment.
  destruct (backing w) as [s|fs] eqn:Hb.
  - destruct (ExecutionStore.save_deployment s d e r) as [[s' saved]|] eqn:Hs; cbn; [|done]. apply rtc_once.
    apply step_write; unfold stored; cbn; rewrite ?Hb; [by eapply step_save|by eapply save_deployment_intents|done|done].
  - assert (∀ e' r', match ExecutionStore.save_deployment (_inner fs) d e' r' with
      | Ok (s, _) => store_step (_inner fs) s ∧ intents s = intents (_inner fs) | Raise _ => True end) as Hgen.
    { intros e' r'. destruct (ExecutionStore.save_deployment (_inner fs) d e' r') as [[s' saved]|] eqn:Hs; [|done].
      split; [by eapply step_save|by eapply save_deployment_intents]. }
    case_decide.
    + destruct (require_own_revision _ _); cbn; [|done]. specialize (Hgen (Some (default (_expected_revision fs) e)) r).
      destruct (ExecutionStore.save_deployment _ _ _ _) as [[s' saved]|]; cbn; [|done]. apply rtc_once.
      apply step_write; unfold stored; cbn; rewrite ?Hb; naive_solver.
    + specialize (Hgen e r). destruct (ExecutionStore.save_deployment _ _ _ _) as [[s' saved]|]; cbn; [|done]. apply rtc_once.
      apply step_write; unfold stored; cbn; rewrite ?Hb; naive_solver.
Qed.

Lemma breaker_pause_intents s id e detail latched now s' saved :
  save_breaker_pause s id e detail latched now = Ok (s', saved) → intents s' = intents s.
Proof. intros H. apply bind_Ok in H as (? & _ & H). apply bind_Ok in H as (? & _ & H). by injection H as <- _. Qed.

Lemma runs_base_breaker_pause id e detail latched : runs (base_save_breaker_pause id e detail latched).
Proof.
  apply runs_bind; [apply looks_runs, looks_now|]. intros now w. unfold on_backing, fenced_save_breaker_pause.
  assert (∀ s, match save_breaker_pause s id e detail latched now with
    | Ok (s', _) => store_step s s' ∧ intents s' = intents s | Raise _ => True end) as Hgen.
  { intros s. destruct (save_breaker_pause _ _ _ _ _ _) as [[s' saved]|] eqn:Hs; [|done].
    split; [by eapply step_pause|by eapply breaker_pause_intents]. }
  destruct (backing w) as [s|fs] eqn:Hb; [specialize (Hgen s)|specialize (Hgen (_inner fs))];
    destruct (save_breaker_pause _ _ _ _ _ _) as [[s' saved]|]; cbn; try done; apply rtc_once;
    apply step_write; unfold stored; cbn; rewrite ?Hb; naive_solver.
Qed.

Lemma commit_fill_intents s snap id f o p st : intents (commit_fill s snap id f o p st) = intents s.
Proof. unfold commit_fill. cbn zeta. by destruct (DeploymentSnapshot.position p); [|case_decide]. Qed.

Lemma record_evidence_intents s f : intents (record_evidence s f) = intents s.
Proof. unfold record_evidence. by case_decide. Qed.

Lemma apply_fill_intents s id f o cool tf t1 t2 t3 : intents (apply_fill_transaction s id f o cool tf t1 t2 t3).1 = intents s.
Proof.
  unfold apply_fill_transaction. destruct (get_deployment s id); [|done].
  destruct (match recorded_fill _ _ with Some _ => _ | None => _ end); [done|].
  destruct (project_fill_economics _ _ _ _ _ _ _ _) as [[]|]; cbn [fst];
    by rewrite ?commit_fill_intents, record_evidence_intents.
Qed.

Lemma runs_base_apply_fill id f o cool tf : runs (base_apply_fill_transaction id f o cool tf).
Proof.
  do 3 (apply runs_bind; [apply looks_runs, looks_now|intros ?]). intros w. unfold fenced_apply_fill_transaction.
  assert (∀ s t1 t2 t3, store_step s (apply_fill_transaction s id f o cool tf t1 t2 t3).1) as Hgen by (intros; apply step_apply).
  destruct (backing w) as [s|fs] eqn:Hb.
  - specialize (Hgen s a a0 a1). pose proof (apply_fill_intents s id f o cool tf a a0 a1) as Hi.
    destruct (apply_fill_transaction _ _ _ _ _ _ _ _ _) as [s' r]. apply rtc_once.
    apply step_write; unfold stored; cbn; by rewrite ?Hb.
  - specialize (Hgen (_inner fs) a a0 a1). pose proof (apply_fill_intents (_inner fs) id f o cool tf a a0 a1) as Hi.
    destruct (apply_fill_transaction _ _ _ _ _ _ _ _ _) as [s' r]. apply rtc_once.
    apply step_write; unfold stored; cbn; by rewrite ?Hb.
Qed.

Lemma save_position_intents s p id product : intents (save_position s p id product) = intents s.
Proof. unfold save_position. destruct p, product; try done; by case_decide. Qed.

Lemma save_fill_intents s f : intents (save_fill s f).1 = intents s.
Proof. unfold save_fill. by case_decide. Qed.

Lemma runs_accounting store id : runs (get_accounting_snapshot store id).
Proof. apply runs_bind; [apply runs_read|intros; apply runs_pure]. Qed.

Lemma runs_get_deployment store id : runs (store_get_deployment store id).
Proof. induction store; [apply runs_accounting|]. apply runs_bind; [done|intros; apply runs_ret]. Qed.

Lemma runs_save_deployment store d e r : runs (store_save_deployment store d e r).
Proof.
  revert d e r. induction store as [|inner IH product]; intros d e r; [apply runs_base_save|]. cbn. destruct r; [apply IH|].
  apply runs_bind; [apply runs_accounting|intros]. apply runs_bind; [apply IH|intros; apply runs_ret].
Qed.

Lemma runs_save store d : runs (save store d).
Proof. apply runs_save_deployment. Qed.

Lemma runs_save_order store o : runs (store_save_order store o).
Proof. revert o. induction store; intros o; [|by cbn]. apply runs_write; [intros; apply step_order|done]. Qed.

Lemma runs_save_fill store f : runs (store_save_fill store f).
Proof. apply runs_write; intros; [apply step_fill|apply save_fill_intents]. Qed.

Lemma runs_save_position store p id product : runs (store_save_position store p id product).
Proof.
  revert p product. induction store; intros p product; [|by cbn].
  apply runs_write; intros; [apply StoreSteps.step_position|apply save_position_intents].
Qed.

Lemma runs_apply_fill store id f o cool tf : runs (store_apply_fill_transaction store id f o cool tf).
Proof.
  revert o. induction store as [|inner IH product]; intros o; [apply runs_base_apply_fill|]. apply runs_bind; [apply IH|].
  intros []. apply runs_ret.
Qed.

Lemma runs_by_key key : runs (store_get_intent_by_idempotency_key key).
Proof. apply runs_read. Qed.
End Allowed.
End Steps.

(** ** Automation *)

Create HintDb runs.
#[export] Hint Resolve runs_ret runs_raise runs_pure runs_read runs_get_plan runs_cancel_note runs_accounting runs_get_deployment
  runs_save_deployment runs_save runs_save_order runs_save_fill runs_save_position runs_apply_fill runs_by_key
  runs_base_breaker_pause : runs.
#[export] Hint Extern 1 (runs _ utc_now) => apply looks_runs, looks_now : runs.
#[export] Hint Extern 1 (runs _ uuid7) => apply looks_runs, looks_uuid : runs.
#[export] Hint Extern 1 (runs _ (set_plan _)) => apply looks_runs, looks_set_plan : runs.
#[export] Hint Extern 1 (runs _ (ask_venue _)) => apply looks_runs, looks_ask : runs.

(** Take an operation apart along its text. *)
Ltac runs_step :=
  match goal with
  | |- True => exact I
  | |- runs _ _ => solve [auto with runs nocore]
  | |- runs _ (_ ≫= _) => apply runs_bind; [|intros ?]
  | |- runs _ (try_except _ _) => apply runs_try; [|intros ?]
  | |- runs _ (loop _ _ _) => apply runs_loop; intros ? ?
  | |- runs _ (let '(_, _) := ?x in _) => destruct x
  | |- runs _ (match ?x with _ => _ end) => destruct x
  | |- runs _ (match ?x with _ => _ end _) => destruct x
  | |- match except_broker_error _ _ with _ => _ end => unfold except_broker_error
  | |- match _ <$> ?x with _ => _ end => destruct x; cbn
  | |- match (match ?x with _ => _ end) with _ => _ end => destruct x
  | |- match ?x with _ => _ end => destruct x
  end.
Ltac runs := cbn zeta; repeat (runs_step; cbn beta zeta).

Section Operations.
Context {venue : Venue} {surroundings : Surroundings} {dc : DecimalContext}.
Context (P : Submission → Prop).

(** ** The broker's methods, placing aside *)

Lemma runs_cancel_order b id client : runs P (cancel_order b id client).
Proof. unfold cancel_order. runs. Qed.

Lemma runs_get_order b id client : runs P (get_order b id client).
Proof. unfold get_order, listed_get_order. runs. Qed.

Lemma runs_list_fills b product id : runs P (list_fills b product id).
Proof. unfold list_fills, listed_list_fills. runs. Qed.

Lemma runs_match b o c : runs P (match_open_order b o c).
Proof. unfold match_open_order. runs. Qed.

Lemma runs_maker_price b product mark side : runs P (maker_limit_price b product mark side).
Proof. unfold maker_limit_price. runs. Qed.

Lemma runs_lookup b find client product at_ : client_order_lookup b = Some find → runs P (find client product at_).
Proof.
  unfold client_order_lookup. destruct b; [done|..]; destruct venue_find_order; cbn; try done; intros [= <-]; runs.
Qed.

(** ** Submission: the one place an order is sent from *)

Lemma with_cancel_time_frame o p : with_cancel_time o p = o ∨ ∃ canceled settled, with_cancel_time o p = Order.set_settlement o canceled settled.
Proof. unfold with_cancel_time. cbn zeta. case_decide; [by left|right; by do 2 eexists]. Qed.

Lemma save_order_gets s o : ∃ o', dict_get (Order.id o) (orders (save_order s o)) = Some o'
  ∧ o' = with_cancel_time o (order_with_client_id s (Order.client_order_id o)).
Proof. eexists. split; [|done]. cbn. apply dict_get_set. Qed.

(** What a scope writes for an order: the row itself, or with a product it did not name. *)
Definition scoped_row (o o' : Order) : Prop := o' = o ∨ Order.product_id o = "" ∧ ∃ product, o' = Order.set_product_id o product.

Lemma stamp_order_scoped o o' product : scoped_row (stamp_order product o) o' → scoped_row o o'.
Proof.
  unfold stamp_order. case_decide as H; [|done]. intros [->|[? (p & ->)]]; right; (split; [done|]); [by exists product|by exists p].
Qed.

Lemma store_save_order_spec store o w : ∃ o', scoped_row o o' ∧
  (store_save_order store o w).2 = Ok tt ∧ stored (store_save_order store o w).1 = save_order (stored w) o'
  ∧ calls (store_save_order store o w).1 = calls w.
Proof.
  revert o. induction store as [|inner IH product]; intros o.
  - exists o. split; [by left|]. unfold store_save_order, write_store, stored. cbn. by rewrite stored_forward.
  - destruct (IH (stamp_order product o)) as (o' & Ho & H). exists o'. split; [by eapply stamp_order_scoped|done].
Qed.

(** The same for an intent. *)
Definition scoped_intent (i i' : OrderIntent) : Prop := i' = i ∨ ∃ product, i' = OrderIntent.set_product_id i product.

Lemma stamp_intent_scoped i i' product : scoped_intent (stamp_intent product i) i' → scoped_intent i i'.
Proof.
  unfold stamp_intent. case_decide; [|done]. intros [->|(p & ->)]; right; [by exists product|by exists p].
Qed.

Lemma base_save_intent_spec i w : match base_save_intent i w with
  | (w', Ok _) => ∃ gate fence, ExecutionStore.save_intent (stored w) gate fence i = Ok (stored w') ∧ calls w' = calls w ∧ ticks w' = ticks w
  | (w', Raise _) => w' = w end.
Proof.
  unfold base_save_intent, on_backing, fenced_save_intent. destruct (backing w) as [s|fs] eqn:Hb.
  - destruct (ExecutionStore.save_intent s bound_gate ambient_fence i) as [s'|] eqn:Hs; cbn; [|done].
    exists bound_gate, ambient_fence. unfold stored. cbn. by rewrite Hb.
  - cbn zeta. destruct (ExecutionStore.save_intent (_inner fs) bound_gate _ i) as [s'|] eqn:Hs; cbn; [|done].
    eexists bound_gate, _. unfold stored. cbn. rewrite Hb. split; [exact Hs|done].
Qed.

Lemma store_save_intent_spec store i w : match store_save_intent store i w with
  | (w', Ok _) => ∃ i' gate fence, scoped_intent i i' ∧ ExecutionStore.save_intent (stored w) gate fence i' = Ok (stored w')
      ∧ calls w' = calls w ∧ ticks w' = ticks w
  | (w', Raise _) => w' = w end.
Proof.
  revert i. induction store as [|inner IH product]; intros i; cbn [store_save_intent].
  - pose proof (base_save_intent_spec i w) as H. destruct (base_save_intent i w) as [w' [[]|]]; [|done].
    destruct H as (gate & fence & ?). exists i, gate, fence. by split; [left|].
  - specialize (IH (stamp_intent product i)). destruct (store_save_intent _ _ w) as [w' [[]|]]; [|done].
    destruct IH as (i' & gate & fence & Hi & ?). exists i', gate, fence. split; [by eapply stamp_intent_scoped|done].
Qed.

Lemma rtc_bind {A B} (m : M A) (f : A → M B) w : rtc (cycle_step P) w (m w).1 →
  (∀ w1 a, m w = (w1, Ok a) → rtc (cycle_step P) w1 (f a w1).1) → rtc (cycle_step P) w ((m ≫= f) w).1.
Proof.
  intros Hm Hf. unfold mbind, M_bind. destruct (m w) as [w1 [a|e]]; cbn in *; [|done]. etrans; [done|by apply Hf].
Qed.

(** A row and its intent under one client id, for a submission. *)
Definition intended (a : Submission) (o : Order) (i : OrderIntent) : Prop :=
  asks a (place_request o) ∧ Order.intent_id o = OrderIntent.id i ∧ OrderIntent.client_order_id i = Order.client_order_id o
  ∧ OrderIntent.purpose i = submit_purpose a ∧ OrderIntent.deployment_id i = Order.deployment_id o ∧ OrderIntent.side i = Order.side o
  ∧ OrderIntent.kind i = Order.kind o ∧ OrderIntent.quantity i = Order.quantity o ∧ OrderIntent.price i = Order.price o.

Lemma saved_order_recorded a s o o' i : scoped_row o o' → Order.status o = OrderStatus.PENDING → Order.venue_order_id o = None →
  intended a o i → dict_get (OrderIntent.id i) (intents s) = Some i → recorded a (place_request o) (save_order s o').
Proof.
  intros Ho Hp Hv (Ha & Hi & Hc & Hpu & Hd & Hs & Hk & Hq & Hpr) Hin. split; [done|]. destruct (save_order_gets s o') as (o2 & Hget & Heq).
  exists o2, i. destruct (with_cancel_time_frame o' (order_with_client_id s (Order.client_order_id o'))) as [Hf|(c & t & Hf)];
    rewrite Hf in Heq; subst o2; (split; [exact Hget|]); (split; [exact Hin|]);
    destruct Ho as [->|[Hempty (product & ->)]]; unfold carries; cbn; repeat split; try done; first [by left|by right].
Qed.

Lemma runs_record_answer store b c now o r : runs P (record_answer store b c now o r).
Proof. unfold record_answer. runs. Qed.

Lemma send_order_steps store b c now a o i w : P a → Order.status o = OrderStatus.PENDING → Order.venue_order_id o = None →
  intended a o i → dict_get (OrderIntent.id i) (intents (stored w)) = Some i → rtc (cycle_step P) w (send_order store b c now o w).1.
Proof.
  intros HP Hp Hv Hi Hin. unfold send_order. apply rtc_bind; [apply runs_save_order|]. intros w1 [] Hsave.
  destruct (store_save_order_spec store o w) as (o' & Ho & _ & Hst & _). rewrite Hsave in Hst. cbn in Hst.
  assert (recorded a (place_request o) (stored w1)) as Hrec by (rewrite Hst; by eapply saved_order_recorded).
  apply rtc_bind; [|intros w2 [r|name] _; apply runs_at; [apply runs_record_answer|runs]].
  unfold try_place, place_order. set (w2 := (note_call (Placed (place_request o)) w1).1).
  etrans; [apply (rtc_once _ w2); by apply (step_place _ _ _ a (place_request o))|].
  set (answer := match b with PaperBroker rates => pure (paper_place_order rates (place_request o)) | _ => _ end).
  assert (runs P (try_except (r ← answer; mret (inl r)) (λ e, (λ name, mret (inr name)) <$> submit_error_name e))) as H
    by (unfold answer; runs).
  apply (H w2).
Qed.

Lemma runs_existing_order store key e : runs P (_existing_order_for_key store key e).
Proof. unfold _existing_order_for_key. runs. Qed.

Lemma runs_price_free store b id a instant : runs P (_require_price_free_reduction store b id a instant).
Proof. unfold _require_price_free_reduction. runs. Qed.

Lemma save_intent_gets s gate fence i s' : ExecutionStore.save_intent s gate fence i = Ok s' →
  intents s' = dict_set (OrderIntent.id i) i (intents s).
Proof.
  intros H. apply bind_Ok in H as (? & _ & H). apply bind_Ok in H as (? & _ & H). unfold _insert_leased_intent in H.
  apply bind_Ok in H as (? & _ & H). by injection H as <-.
Qed.

(** Drawing the intent's identifier and recording the intent, or what a refusal returns. *)
Definition intend (store : ExecutionStore) (id : UUID) (a : Submission) (now instant : datetime) (client : string) (intent_id : UUID)
    : M (option Order) :=
  try_except
    (_ ← store_save_intent store (pending_intent id a now instant client intent_id); mret None)
    (λ conflict, if is_conflict conflict then Some (
      existing ← _existing_order_for_key store (submit_idempotency_key a) conflict;
      match existing with Some o => mret (Some o) | None => raise conflict end) else None).

Lemma existing_or_raise store key e w : ((existing ← _existing_order_for_key store key e;
  match existing with Some o => mret (Some o) | None => raise e end : M (option Order)) w).2 ≠ Ok None.
Proof. unfold mbind, M_bind. by destruct (_existing_order_for_key store key e w) as [w2 [[o|]|]]. Qed.

Lemma intend_steps store id a now instant client w : let intent_id := fresh_id (ticks w) in
  let m := uuid7 ≫= intend store id a now instant client in
  rtc (cycle_step P) w (m w).1 ∧ ((m w).2 = Ok None →
    ∃ i', scoped_intent (pending_intent id a now instant client intent_id) i'
      ∧ dict_get (OrderIntent.id i') (intents (stored (m w).1)) = Some i').
Proof.
  intros intent_id m. set (i := pending_intent id a now instant client intent_id). set (w1 := (uuid7 w).1).
  assert (m w = intend store id a now instant client intent_id w1) as -> by done.
  unfold intend. fold i. pose proof (store_save_intent_spec store i w1) as Hspec.
  unfold try_except, mbind, M_bind. destruct (store_save_intent store i w1) as [w2 [[]|e]]; cbn [fst snd].
  - destruct Hspec as (i' & gate & fence & Hsc & Hok & Hcalls & Hticks).
    assert (OrderIntent.id i' = intent_id) as Hid by (by destruct Hsc as [->|(p & ->)]). split.
    + apply rtc_once. apply (step_intend _ _ _ gate fence i'); [done|done|done|]. cbn in *. lia.
    + intros _. exists i'. split; [done|]. unfold mret, M_ret. cbn [fst]. rewrite (save_intent_gets _ _ _ _ _ Hok). apply dict_get_set.
  - subst w2. assert (cycle_step P w w1) as Hlook by (apply step_look; [done|done|cbn; lia]).
    destruct (is_conflict e); cbn; [|by split; [apply rtc_once|]].
    set (rest := existing ← _existing_order_for_key store (submit_idempotency_key a) e;
      match existing with Some o => mret (Some o) | None => raise e end : M (option Order)).
    assert (runs P rest) as Hrest by (unfold rest; pose proof runs_existing_order; runs).
    split; [etrans; [by apply rtc_once|apply Hrest]|]. intros Hnone. by apply existing_or_raise in Hnone.
Qed.

(** Everything after the submission's guards. *)
Definition intend_and_send (store : ExecutionStore) (b : Broker) (id : UUID) (a : Submission) (now instant : datetime) (client : string)
    (intent_id : UUID) : M Order :=
  existing ← intend store id a now instant client intent_id;
  match existing with
  | Some o => mret o
  | None => order_id ← uuid7; send_order store b (submit_candle a) now (pending_order id a now client intent_id order_id)
  end.

Lemma send_after_intend store b id a now instant client intent_id i w :
  P a → scoped_intent (pending_intent id a now instant client intent_id) i →
  dict_get (OrderIntent.id i) (intents (stored w)) = Some i →
  rtc (cycle_step P) w ((order_id ← uuid7; send_order store b (submit_candle a) now (pending_order id a now client intent_id order_id)) w).1.
Proof.
  intros HP Hi Hget. apply rtc_bind; [apply runs_at, looks_runs, looks_uuid|]. intros w2 order_id Hid.
  assert (intents (stored w2) = intents (stored w)) as Hsame by (by injection Hid as <- _).
  apply (send_order_steps _ _ _ _ a _ i); [done|done|done| |by rewrite Hsame].
  split; [done|]. by destruct Hi as [->|(p & ->)].
Qed.

Lemma intend_and_send_runs store b id a now instant client : P a → runs P (uuid7 ≫= intend_and_send store b id a now instant client).
Proof.
  intros HP w. destruct (intend_steps store id a now instant client w) as [Hsteps Hnone].
  assert ((uuid7 ≫= intend_and_send store b id a now instant client) w =
    (existing ← (uuid7 ≫= intend store id a now instant client); match existing with
      | Some o => mret o
      | None => order_id ← uuid7; send_order store b (submit_candle a) now (pending_order id a now client (fresh_id (ticks w)) order_id)
      end) w) as -> by done.
  apply rtc_bind; [done|]. intros w1 [o|] Hrun; [apply runs_at, runs_ret|]. rewrite Hrun in Hnone.
  destruct (Hnone eq_refl) as (i & Hi & Hget). by apply (send_after_intend _ _ _ _ _ instant _ _ i).
Qed.

Lemma runs_submit store b id a : P a → runs P (submit_intent store b id a).
Proof.
  intros HP. unfold submit_intent. destruct (_ || _); [apply runs_raise|]. apply runs_bind; [runs|]. intros now. cbn zeta.
  apply runs_bind; [destruct (submit_candle a); [apply runs_ret|apply runs_price_free]|]. intros _.
  destruct (match submit_candle a with Some c => _ | None => _ end) as [instant|]; [|apply runs_raise].
  apply runs_bind; [runs|]. intros client_id. by apply intend_and_send_runs.
Qed.

End Operations.
#[export] Hint Resolve runs_cancel_order runs_get_order runs_list_fills runs_match runs_maker_price runs_submit : runs.
