(* ===== verification/CycleRuns.v ===== *)
(** * CycleRuns: the whole cycle is a sequence of steps

    Every operation of the engine [runs]: what it does to the world is a sequence of
    [cycle_step]s, whatever the venue answers and wherever an exception interrupts it. Each
    lemma is its operation's text taken apart by [runs]. A lemma about an operation that submits
    says which submissions it makes: an exit only its own purpose's marketable order, the
    protection of a book only reducing purposes, entries only where they are asked for. *)

From stdpp Require Import relations.
From S2P Require Import Prelude Decimals Market Geometry Containers TradingModels FillLedger ExecutionStore StoreFacts StoreSteps Strategy.
From S2P Require Import IndicatorSpec Conditions Sizing LiveSignals Ledger RiskModels EntryLimits Breakers FuturesBooks FuturesGate.
From S2P Require Import Engine ExitGuards FuturesVenue Submit Reconcile Exits Capital EntryCycle ClosedBar CycleSteps.

Open Scope Z_scope.

(** ** Kinds of submission *)

Definition exit_submission (purpose : IntentPurpose) (a : Submission) : Prop :=
  submit_purpose a = purpose ∧ submit_kind a = OrderKind.MARKETABLE.

Definition _REDUCING_PURPOSES : list IntentPurpose :=
  [IntentPurpose.STOP; IntentPurpose.LIQUIDATION; IntentPurpose.TIME_EXIT; IntentPurpose.SIGNAL_EXIT; IntentPurpose.BRACKET;
   IntentPurpose.TAKE_PROFIT].

Definition reducing (a : Submission) : Prop := submit_purpose a ∈ _REDUCING_PURPOSES.
Definition entering (a : Submission) : Prop := submit_purpose a = IntentPurpose.ENTRY.

Lemma exit_reducing purpose a : purpose ∈ _REDUCING_PURPOSES → exit_submission purpose a → reducing a.
Proof. intros Hp [Ha _]. unfold reducing. by rewrite Ha. Qed.

#[local] Hint Extern 1 (exit_submission _ _) => split; reflexivity : runs.
#[local] Hint Extern 1 (entering _) => reflexivity : runs.
#[local] Hint Extern 1 (reducing (take_profit_submission _ _ _ _)) => by apply (bool_decide_unpack _); vm_compute : runs.
#[local] Hint Extern 2 (reducing ?a) =>
  match goal with H : exit_submission _ a |- _ => refine (exit_reducing _ a _ H); apply (bool_decide_unpack _); exact I end : runs.

Lemma bracket_reducing pr c p kind px : reducing (bracket_submission pr c p kind px).
Proof. unfold reducing. cbn. destruct (_ && _); by apply (bool_decide_unpack _). Qed.
#[local] Hint Resolve bracket_reducing : runs.

Section Purposes.
Context {dc : DecimalContext}.

Lemma due_purpose_reducing s sd pu : _due_exit_purpose s sd = Some pu → pu ∈ _REDUCING_PURPOSES.
Proof. unfold _due_exit_purpose. intros H. repeat case_match; try done; injection H as <-; by apply (bool_decide_unpack _). Qed.

Lemma due_on_bar_reducing c sd skip p s pu px : due_on_bar c sd skip p s = Some (pu, px) → pu ∈ _REDUCING_PURPOSES.
Proof. unfold due_on_bar. intros H. repeat case_match; try done; injection H as <- _; by apply (bool_decide_unpack _). Qed.
End Purposes.

Section Runs.
Context {venue : Venue} {surroundings : Surroundings} {dc : DecimalContext} {scope : CycleScope}.
Context {so : SetOrder} {dg : Digest} {risk_evidence : RiskEvidence}.
Context (P : Submission → Prop).

(** ** Reconciliation *)

Lemma runs_ingest_fill st s fill o cb tf : runs P (ingest_fill st s fill o cb tf).
Proof. unfold ingest_fill. runs. Qed.
#[local] Hint Resolve runs_ingest_fill : runs.

Lemma runs_replay_step st cb current fill : runs P (replay_step st cb current fill).
Proof. unfold replay_step. runs. Qed.
#[local] Hint Resolve runs_replay_step : runs.

Lemma runs_replay_unapplied_fills st s cb : runs P (replay_unapplied_fills st s cb).
Proof. unfold replay_unapplied_fills. runs. Qed.
#[local] Hint Resolve runs_replay_unapplied_fills : runs.

Lemma runs_save_change st s c : runs P (save_change st s c).
Proof. unfold save_change. runs. Qed.
#[local] Hint Resolve runs_save_change : runs.

Lemma runs_record_reconcile_fault st s det : runs P (_record_reconcile_fault st s det).
Proof. unfold _record_reconcile_fault. runs. Qed.
#[local] Hint Resolve runs_record_reconcile_fault : runs.

Lemma runs_retain_reconcile_supervision st s started_status started_detail first_fault :
  runs P (_retain_reconcile_supervision st s started_status started_detail first_fault).
Proof. unfold _retain_reconcile_supervision. runs. Qed.
#[local] Hint Resolve runs_retain_reconcile_supervision : runs.

Lemma runs_mark_read_failed st o : runs P (_mark_read_failed st o).
Proof. unfold _mark_read_failed. runs. Qed.
#[local] Hint Resolve runs_mark_read_failed : runs.

Lemma runs_ingest_fills st o cb start remote_fills : runs P (_ingest_fills st o cb start remote_fills).
Proof. unfold _ingest_fills. runs. Qed.
#[local] Hint Resolve runs_ingest_fills : runs.

Lemma runs_ingest_order_fills st b s o pid cb : runs P (ingest_order_fills st b s o pid cb).
Proof. unfold ingest_order_fills. runs. Qed.
#[local] Hint Resolve runs_ingest_order_fills : runs.

Lemma runs_recover_unconfirmed_submit find o pid : (∀ client product at_, runs P (find client product at_)) →
  runs P (_recover_unconfirmed_submit find o pid).
Proof. intros Hfind. unfold _recover_unconfirmed_submit. runs. Qed.

Lemma runs_pause_unconfirmed_submit st s o : runs P (_pause_unconfirmed_submit st s o).
Proof. unfold _pause_unconfirmed_submit. runs. Qed.
#[local] Hint Resolve runs_pause_unconfirmed_submit : runs.

Lemma runs_settle_canceled st current o : runs P (_settle_canceled st current o).
Proof. unfold _settle_canceled. runs. Qed.
#[local] Hint Resolve runs_settle_canceled : runs.

Lemma runs_read_order b o pid : runs P (read_order b o pid).
Proof.
  unfold read_order. apply runs_try; [|intros e; unfold except_broker_error; destruct (is_broker_error e); runs].
  destruct (truthy (Order.venue_order_id o)) as [id|]; [runs|]. destruct (client_order_lookup b) as [find|] eqn:Hfind; [|runs].
  apply runs_bind; [apply runs_recover_unconfirmed_submit; intros; by apply (runs_lookup _ b)|intros; runs].
Qed.
#[local] Hint Resolve runs_read_order : runs.

Lemma runs_observed_order s o r venue_order_id : runs P (observed_order s o r venue_order_id).
Proof. unfold observed_order. runs. Qed.
#[local] Hint Resolve runs_observed_order : runs.

Lemma runs_apply_read st b walk updated status pid cb : runs P (apply_read st b walk updated status pid cb).
Proof. unfold apply_read. runs. Qed.
#[local] Hint Resolve runs_apply_read : runs.

Lemma runs_reconcile_venue_order st b walk o pid cb read : runs P (_reconcile_venue_order st b walk o pid cb read).
Proof. unfold _reconcile_venue_order. runs. Qed.
#[local] Hint Resolve runs_reconcile_venue_order : runs.

Lemma runs_check_local_fill_coverage st s o : runs P (_check_local_fill_coverage st s o).
Proof. unfold _check_local_fill_coverage. runs. Qed.
#[local] Hint Resolve runs_check_local_fill_coverage : runs.

Lemma runs_check_adoption_evidence st s o : runs P (_check_adoption_evidence st s o).
Proof. unfold _check_adoption_evidence. runs. Qed.
#[local] Hint Resolve runs_check_adoption_evidence : runs.

Lemma runs_reconcile_one_order st b walk o pid cb read : runs P (_reconcile_one_order st b walk o pid cb read).
Proof. unfold _reconcile_one_order. runs. Qed.
#[local] Hint Resolve runs_reconcile_one_order : runs.

Lemma runs_list_one b s pid watched o : runs P (list_one b s pid watched o).
Proof. unfold list_one. runs. Qed.
#[local] Hint Resolve runs_list_one : runs.

Lemma runs_list_watched b s pid watched : runs P (_list_watched b s pid watched).
Proof. unfold _list_watched. runs. Qed.
#[local] Hint Resolve runs_list_watched : runs.

Lemma runs_apply_new_fill st pid cb current item : runs P (apply_new_fill st pid cb current item).
Proof. unfold apply_new_fill. runs. Qed.
#[local] Hint Resolve runs_apply_new_fill : runs.

Lemma runs_apply_new_fills_in_execution_order st b s pid cb watched :
  runs P (apply_new_fills_in_execution_order st b s pid cb watched).
Proof. unfold apply_new_fills_in_execution_order. runs. Qed.
#[local] Hint Resolve runs_apply_new_fills_in_execution_order : runs.

Lemma runs_child_of o child_id pid : runs P (child_of o child_id pid).
Proof. unfold child_of. runs. Qed.
#[local] Hint Resolve runs_child_of : runs.

Lemma runs_import_one st b started pid cb state o : runs P (import_one st b started pid cb state o).
Proof. unfold import_one. runs. Qed.
#[local] Hint Resolve runs_import_one : runs.

Lemma runs_import_attached_children st b s pid cb : runs P (import_attached_children st b s pid cb).
Proof. unfold import_attached_children. runs. Qed.
#[local] Hint Resolve runs_import_attached_children : runs.

Lemma runs_clear_confirmed_read_fault st s : runs P (_clear_confirmed_read_fault st s).
Proof. unfold _clear_confirmed_read_fault. runs. Qed.
#[local] Hint Resolve runs_clear_confirmed_read_fault : runs.

Lemma runs_retain st started s first_fault : runs P (retain st started s first_fault).
Proof. unfold retain. runs. Qed.
#[local] Hint Resolve runs_retain : runs.

Lemma runs_walk_order st pid cb started b applied_orders state listed_order :
  runs P (walk_order st pid cb started b applied_orders state listed_order).
Proof. unfold walk_order. runs. Qed.
#[local] Hint Resolve runs_walk_order : runs.

Lemma runs_check_stored st cb s : runs P (check_stored st cb s).
Proof. unfold check_stored. runs. Qed.
#[local] Hint Resolve runs_check_stored : runs.

Lemma runs_import_phase st pid cb started b id first_fault : runs P (import_phase st pid cb started b id first_fault).
Proof. unfold import_phase. runs. Qed.
#[local] Hint Resolve runs_import_phase : runs.

Lemma runs_reconcile_open_orders st b s pid cb : runs P (reconcile_open_orders st b s pid cb).
Proof. unfold reconcile_open_orders. runs. Qed.
#[local] Hint Resolve runs_reconcile_open_orders : runs.

(** ** Shared operations *)

Lemma runs_reconcile_stopped_live st b s : runs P (_reconcile_stopped_live st b s).
Proof. unfold _reconcile_stopped_live. runs. Qed.
#[local] Hint Resolve runs_reconcile_stopped_live : runs.

Lemma runs_pause_in st s det phase : runs P (_pause_in st s det phase).
Proof. unfold _pause_in. runs. Qed.
#[local] Hint Resolve runs_pause_in : runs.

Lemma runs_pause st s det : runs P (_pause st s det).
Proof. unfold _pause. runs. Qed.
#[local] Hint Resolve runs_pause : runs.

Lemma runs_pause_rejected st s rejection : runs P (_pause_rejected st s rejection).
Proof. unfold _pause_rejected. runs. Qed.
#[local] Hint Resolve runs_pause_rejected : runs.

Lemma runs_flatten_pending st s cb : runs P (_flatten_pending st s cb).
Proof. unfold _flatten_pending. runs. Qed.
#[local] Hint Resolve runs_flatten_pending : runs.

Lemma runs_persist_runtime st s bar : runs P (_persist_runtime st s bar).
Proof. unfold _persist_runtime. runs. Qed.
#[local] Hint Resolve runs_persist_runtime : runs.

Lemma runs_cancel_answer b o venue_order_id : runs P (cancel_answer b o venue_order_id).
Proof. unfold cancel_answer. runs. Qed.
#[local] Hint Resolve runs_cancel_answer : runs.

Lemma runs_cancel_one_order st b o : runs P (_cancel_one_order st b o).
Proof. unfold _cancel_one_order. runs. Qed.
#[local] Hint Resolve runs_cancel_one_order : runs.

Lemma runs_cancel_open_orders st b s : runs P (_cancel_open_orders st b s).
Proof. unfold _cancel_open_orders. runs. Qed.
#[local] Hint Resolve runs_cancel_open_orders : runs.

Lemma runs_cancel_resting_orders st b s : runs P (cancel_resting_orders st b s).
Proof. unfold cancel_resting_orders. runs. Qed.
#[local] Hint Resolve runs_cancel_resting_orders : runs.

Lemma runs_match_one st b c cb tf sf close_at s o : runs P (match_one st b c cb tf sf close_at s o).
Proof. unfold match_one. runs. Qed.
#[local] Hint Resolve runs_match_one : runs.

Lemma runs_match_resting_orders st b s c cb tf sf close_at : runs P (_match_resting_orders st b s c cb tf sf close_at).
Proof. unfold _match_resting_orders. runs. Qed.
#[local] Hint Resolve runs_match_resting_orders : runs.

Lemma runs_fill_applied st s fill o cb tf : runs P (apply_fill st s fill o cb tf).
Proof. unfold apply_fill. runs. Qed.
#[local] Hint Resolve runs_fill_applied : runs.

Lemma runs_adopt_venue_attached_child st b s pid : runs P (_adopt_venue_attached_child st b s pid).
Proof. unfold _adopt_venue_attached_child. runs. Qed.
#[local] Hint Resolve runs_adopt_venue_attached_child : runs.

(** ** Exits and reductions *)

Lemma runs_reload st s : runs P (reload st s).
Proof. unfold reload. runs. Qed.
#[local] Hint Resolve runs_reload : runs.

Lemma runs_evaluate_signal_exit st sd bars c s : runs P (_evaluate_signal_exit st sd bars c s).
Proof. unfold _evaluate_signal_exit. runs. Qed.
#[local] Hint Resolve runs_evaluate_signal_exit : runs.

Lemma runs_mark_signal_exit st c s : runs P (_mark_signal_exit st c s).
Proof. unfold _mark_signal_exit. runs. Qed.
#[local] Hint Resolve runs_mark_signal_exit : runs.

Lemma runs_mark_pending_exit st s : runs P (_mark_pending_exit st s).
Proof. unfold _mark_pending_exit. runs. Qed.
#[local] Hint Resolve runs_mark_pending_exit : runs.

Lemma runs_retain_flat_confirmation st s now : runs P (retain_flat_confirmation st s now).
Proof. unfold retain_flat_confirmation. runs. Qed.
#[local] Hint Resolve runs_retain_flat_confirmation : runs.

Lemma runs_cancel_proven_one st b acc now state candidate : runs P (cancel_proven_one st b acc now state candidate).
Proof. unfold cancel_proven_one. runs. Qed.
#[local] Hint Resolve runs_cancel_proven_one : runs.

Lemma runs_cancel_proven_futures_orders st b acc now s : runs P (cancel_proven_futures_orders st b acc now s).
Proof. unfold cancel_proven_futures_orders. runs. Qed.
#[local] Hint Resolve runs_cancel_proven_futures_orders : runs.

Lemma runs_pending st s now : runs P (_pending st s now).
Proof. unfold _pending. runs. Qed.
#[local] Hint Resolve runs_pending : runs.

Lemma runs_await_flat_confirmation st s now : runs P (_await_flat_confirmation st s now).
Proof. unfold _await_flat_confirmation. runs. Qed.
#[local] Hint Resolve runs_await_flat_confirmation : runs.

Lemma runs_send_reduction st b pu now s p : (∀ a, exit_submission pu a → P a) → runs P (send_reduction st b pu now s p).
Proof. intros Hexit. unfold send_reduction. runs. Qed.
#[local] Hint Resolve runs_send_reduction : runs.

Lemma runs_reduce_live_futures_position st b acc pu now s :
  (∀ a, exit_submission pu a → P a) → runs P (reduce_live_futures_position st b acc pu now s).
Proof. intros Hexit. unfold reduce_live_futures_position. runs. Qed.
#[local] Hint Resolve runs_reduce_live_futures_position : runs.

Lemma runs_wait_or_pause_exit st s : runs P (_wait_or_pause_exit st s).
Proof. unfold _wait_or_pause_exit. runs. Qed.
#[local] Hint Resolve runs_wait_or_pause_exit : runs.

Lemma runs_apply_immediate_exit_fill st b pid cb s o : runs P (_apply_immediate_exit_fill st b pid cb s o).
Proof. unfold _apply_immediate_exit_fill. runs. Qed.
#[local] Hint Resolve runs_apply_immediate_exit_fill : runs.

Lemma runs_settle_exit st b pid cb s p o : runs P (settle_exit st b pid cb s p o).
Proof. unfold settle_exit. runs. Qed.
#[local] Hint Resolve runs_settle_exit : runs.

Lemma runs_submit_marketable_exit st b pid c pu px cb s p :
  (∀ a, exit_submission pu a → P a) → runs P (_submit_marketable_exit st b pid c pu px cb s p).
Proof. intros Hexit. unfold _submit_marketable_exit. runs. Qed.
#[local] Hint Resolve runs_submit_marketable_exit : runs.

Lemma runs_exit_after_cancels st b pid c pu px cb s :
  (∀ a, exit_submission pu a → P a) → runs P (exit_after_cancels st b pid c pu px cb s).
Proof. intros Hexit. unfold exit_after_cancels. runs. Qed.
#[local] Hint Resolve runs_exit_after_cancels : runs.

Lemma runs_marketable_exit st b pr c pu px sd cb s :
  (∀ a, exit_submission pu a → P a) → runs P (_marketable_exit st b pr c pu px sd cb s).
Proof. intros Hexit. unfold _marketable_exit. runs. Qed.
#[local] Hint Resolve runs_marketable_exit : runs.

(** ** Accounting, breakers and admission *)

Lemma runs_accounting_snapshot st id as_of : runs P (accounting_snapshot st id as_of).
Proof. unfold accounting_snapshot. runs. Qed.
#[local] Hint Resolve runs_accounting_snapshot : runs.

Lemma runs_accounting_portfolio st as_of : runs P (accounting_portfolio st as_of).
Proof. unfold accounting_portfolio. runs. Qed.
#[local] Hint Resolve runs_accounting_portfolio : runs.

Lemma runs_portfolio_with_current st pf s : runs P (_portfolio_with_current st pf s).
Proof. unfold _portfolio_with_current. runs. Qed.
#[local] Hint Resolve runs_portfolio_with_current : runs.

Lemma runs_bar_observation pid c proposed_price mk : runs P (_bar_observation pid c proposed_price mk).
Proof. unfold _bar_observation. runs. Qed.
#[local] Hint Resolve runs_bar_observation : runs.

Lemma runs_pause_daily_peer st attempts id mode pid det latch : runs P (pause_daily_peer st attempts id mode pid det latch).
Proof. induction attempts; cbn [pause_daily_peer]; runs. Qed.
#[local] Hint Resolve runs_pause_daily_peer : runs.

Lemma runs_pause_daily_peer_thrice st id mode pid det latch : runs P (_pause_daily_peer st id mode pid det latch).
Proof. unfold _pause_daily_peer. runs. Qed.
#[local] Hint Resolve runs_pause_daily_peer_thrice : runs.

Lemma runs_pause_mode_running st mode pid pf det : runs P (_pause_mode_running st mode pid pf det).
Proof. unfold _pause_mode_running. runs. Qed.
#[local] Hint Resolve runs_pause_mode_running : runs.

Lemma runs_pause_for_breaker st pf v s : runs P (_pause_for_breaker st pf v s).
Proof. unfold _pause_for_breaker. runs. Qed.
#[local] Hint Resolve runs_pause_for_breaker : runs.

Lemma runs_apply_circuit_breakers st pol pf mk pid c s : runs P (_apply_circuit_breakers st pol pf mk pid c s).
Proof. unfold _apply_circuit_breakers. runs. Qed.
#[local] Hint Resolve runs_apply_circuit_breakers : runs.

Lemma runs_load_futures_collateral mode as_of : runs P (load_futures_collateral mode as_of).
Proof. unfold load_futures_collateral. runs. Qed.
#[local] Hint Resolve runs_load_futures_collateral : runs.

Lemma runs_entry_verdict st pol pf proposed o s : runs P (_entry_verdict st pol pf proposed o s).
Proof. unfold _entry_verdict. runs. Qed.
#[local] Hint Resolve runs_entry_verdict : runs.

(** ** Entries *)

Lemma runs_with_pending_levels d stop target : runs P (_with_pending_levels d stop target).
Proof. unfold _with_pending_levels. runs. Qed.
#[local] Hint Resolve runs_with_pending_levels : runs.

Lemma runs_runtime_for_admitted_entry d sized sd is_pyramid_add :
  runs P (_runtime_for_admitted_entry d sized sd is_pyramid_add).
Proof. unfold _runtime_for_admitted_entry. runs. Qed.
#[local] Hint Resolve runs_runtime_for_admitted_entry : runs.

Lemma runs_try_maker_price b pid mark side : runs P (try_maker_price b pid mark side).
Proof. unfold try_maker_price. runs. Qed.
#[local] Hint Resolve runs_try_maker_price : runs.

Lemma runs_fail_closed_on_split_state st s : runs P (_fail_closed_on_split_state st s).
Proof. unfold _fail_closed_on_split_state. runs. Qed.
#[local] Hint Resolve runs_fail_closed_on_split_state : runs.

Lemma runs_send_entry st b i c s sized side is_pyramid_add :
  (∀ a, entering a → P a) → runs P (send_entry st b i c s sized side is_pyramid_add).
Proof. intros Hent. unfold send_entry. runs. Qed.
#[local] Hint Resolve runs_send_entry : runs.

Lemma runs_submit_sized_entry st b i c is_pyramid_add s :
  (∀ a, entering a → P a) → runs P (_submit_sized_entry st b i c is_pyramid_add s).
Proof. intros Hent. unfold _submit_sized_entry. runs. Qed.
#[local] Hint Resolve runs_submit_sized_entry : runs.

Lemma runs_maybe_enter st b i c s : (∀ a, entering a → P a) → runs P (_maybe_enter st b i c s).
Proof. intros Hent. unfold _maybe_enter. runs. Qed.
#[local] Hint Resolve runs_maybe_enter : runs.

(** ** The working entry *)

Lemma runs_apply_cancel_race_fills st b i s o : runs P (_apply_cancel_race_fills st b i s o).
Proof. unfold _apply_cancel_race_fills. runs. Qed.
#[local] Hint Resolve runs_apply_cancel_race_fills : runs.

Lemma runs_abandon_reprice st i is_pyramid s : runs P (_abandon_reprice st i is_pyramid s).
Proof. unfold _abandon_reprice. runs. Qed.
#[local] Hint Resolve runs_abandon_reprice : runs.

Lemma runs_submit_repriced_entry st b i c prior remaining_qty entry_price stop_price target_price is_pyramid phase attach s :
  (∀ a, entering a → P a) → runs P (_submit_repriced_entry st b i c prior remaining_qty entry_price stop_price target_price is_pyramid phase attach s).
Proof. intros Hent. unfold _submit_repriced_entry. runs. Qed.
#[local] Hint Resolve runs_submit_repriced_entry : runs.

Lemma runs_admit_reprice st b i c prior phase is_pyramid entry_price sized s :
  (∀ a, entering a → P a) → runs P (admit_reprice st b i c prior phase is_pyramid entry_price sized s).
Proof. intros Hent. unfold admit_reprice. runs. Qed.
#[local] Hint Resolve runs_admit_reprice : runs.

Lemma runs_reprice_entry st b i c prior phase s : (∀ a, entering a → P a) → runs P (_reprice_entry st b i c prior phase s).
Proof. intros Hent. unfold _reprice_entry. runs. Qed.
#[local] Hint Resolve runs_reprice_entry : runs.

Lemma runs_give_up_or_reprice st b i c open_entry :
  (on_unfilled_entry (execution (cycle_strategy i)) = reprice → ∀ a, entering a → P a) → runs P (give_up_or_reprice st b i c open_entry).
Proof. intros Hent. unfold give_up_or_reprice. destruct (on_unfilled_entry _); [|pose proof (Hent eq_refl)]; runs. Qed.
#[local] Hint Resolve runs_give_up_or_reprice : runs.

Lemma runs_manage_working_entry st b i c s :
  (on_unfilled_entry (execution (cycle_strategy i)) = reprice → ∀ a, entering a → P a) → runs P (_manage_working_entry st b i c s).
Proof. intros Hent. unfold _manage_working_entry. runs. Qed.
#[local] Hint Resolve runs_manage_working_entry : runs.

(** ** Protection and residual books *)

Lemma runs_pause_bracket_rejected st s p : runs P (_pause_bracket_rejected st s p).
Proof. unfold _pause_bracket_rejected. runs. Qed.
#[local] Hint Resolve runs_pause_bracket_rejected : runs.

Lemma runs_settle_bracket st s p o : runs P (settle_bracket st s p o).
Proof. unfold settle_bracket. runs. Qed.
#[local] Hint Resolve runs_settle_bracket : runs.

Lemma runs_submit_live_bracket st b pr c s p : (∀ a, reducing a → P a) → runs P (_submit_live_bracket st b pr c s p).
Proof. intros Hred. unfold _submit_live_bracket. runs. Qed.
#[local] Hint Resolve runs_submit_live_bracket : runs.

Lemma runs_replace_live_protection st b pr c s : (∀ a, reducing a → P a) → runs P (_replace_live_protection st b pr c s).
Proof. intros Hred. unfold _replace_live_protection. runs. Qed.
#[local] Hint Resolve runs_replace_live_protection : runs.

Lemma runs_replace_bracket st b pr c s p existing :
  (∀ a, reducing a → P a) → runs P (replace_bracket st b pr c s p existing).
Proof. intros Hred. unfold replace_bracket. runs. Qed.
#[local] Hint Resolve runs_replace_bracket : runs.

Lemma runs_ensure_live_bracket st b pr c s : (∀ a, reducing a → P a) → runs P (_ensure_live_bracket st b pr c s).
Proof. intros Hred. unfold _ensure_live_bracket. runs. Qed.
#[local] Hint Resolve runs_ensure_live_bracket : runs.

Lemma runs_ensure_take_profit st b pr c s : (∀ a, reducing a → P a) → runs P (_ensure_take_profit st b pr c s).
Proof. intros Hred. unfold _ensure_take_profit. runs. Qed.
#[local] Hint Resolve runs_ensure_take_profit : runs.

Lemma runs_ensure_exit_protection st b pr c sd s :
  (∀ a, reducing a → P a) → runs P (_ensure_exit_protection st b pr c sd s).
Proof.
  intros Hred. unfold _ensure_exit_protection. destruct sd as [sd|]; [|runs].
  destruct (_due_exit_purpose s (Some sd)) as [pu|] eqn:Hdue; [|runs]. apply due_purpose_reducing in Hdue.
  apply runs_marketable_exit. intros a [Ha _]. apply Hred. unfold reducing. by rewrite Ha.
Qed.
#[local] Hint Resolve runs_ensure_exit_protection : runs.

Lemma runs_paper_stop_exit_if_hit st b pr c sd p s :
  (∀ a, reducing a → P a) → runs P (_paper_stop_exit_if_hit st b pr c sd p s).
Proof. intros Hred. unfold _paper_stop_exit_if_hit. runs. Qed.
#[local] Hint Resolve runs_paper_stop_exit_if_hit : runs.

Lemma runs_paper_liquidation_if_due st b pr c sd p s :
  (∀ a, reducing a → P a) → runs P (paper_liquidation_if_due st b pr c sd p s).
Proof. intros Hred. unfold paper_liquidation_if_due. runs. Qed.
#[local] Hint Resolve runs_paper_liquidation_if_due : runs.

Lemma runs_apply_trailing st pr c sd cs s : runs P (_apply_trailing st pr c sd cs s).
Proof. unfold _apply_trailing. runs. Qed.
#[local] Hint Resolve runs_apply_trailing : runs.

Lemma runs_protect_open_position st b pr c sd skip_paper_stop s :
  (∀ a, reducing a → P a) → runs P (_protect_open_position st b pr c sd skip_paper_stop s).
Proof.
  intros Hred. unfold _protect_open_position. destruct (DeploymentSnapshot.position s) as [p|]; [|runs].
  destruct (due_on_bar _ _ _ _ _) as [[pu px]|] eqn:Hdue; [|runs]. apply due_on_bar_reducing in Hdue.
  apply runs_marketable_exit. intros a [Ha _]. apply Hred. unfold reducing. by rewrite Ha.
Qed.
#[local] Hint Resolve runs_protect_open_position : runs.

Lemma runs_maintain_discretionary_protection st b pr cs sd s :
  (∀ a, reducing a → P a) → runs P (maintain_discretionary_protection st b pr cs sd s).
Proof.
  intros Hred. unfold maintain_discretionary_protection. cbn zeta. destruct (last cs) as [c|]; [|runs].
  destruct (DeploymentSnapshot.position s); [|runs]. apply runs_bind; [runs|intros b']. apply runs_bind; [runs|intros s'].
  destruct (DeploymentSnapshot.position s'); [|runs]. destruct (_due_exit_purpose s' sd) as [pu|] eqn:Hdue; [|runs].
  apply due_purpose_reducing in Hdue. apply runs_marketable_exit. intros a [Ha _]. apply Hred. unfold reducing. by rewrite Ha.
Qed.
#[local] Hint Resolve runs_maintain_discretionary_protection : runs.

Lemma runs_settle_flat_book st s : runs P (_settle_flat_book st s).
Proof. unfold _settle_flat_book. runs. Qed.
#[local] Hint Resolve runs_settle_flat_book : runs.

Lemma runs_settle_stopped_book st s : runs P (settle_stopped_book st s).
Proof. unfold settle_stopped_book. runs. Qed.
#[local] Hint Resolve runs_settle_stopped_book : runs.

Lemma runs_cancel_open_entries st b s : runs P (_cancel_open_entries st b s).
Proof. unfold _cancel_open_entries. runs. Qed.
#[local] Hint Resolve runs_cancel_open_entries : runs.

Lemma runs_defer_flatten_without_executable_context st b s : runs P (defer_flatten_without_executable_context st b s).
Proof. unfold defer_flatten_without_executable_context. runs. Qed.
#[local] Hint Resolve runs_defer_flatten_without_executable_context : runs.

Lemma runs_cancel_and_settle st b s : runs P (_cancel_and_settle st b s).
Proof. unfold _cancel_and_settle. runs. Qed.
#[local] Hint Resolve runs_cancel_and_settle : runs.

Lemma runs_exit_after_confirmed_cancels st b pr c sd cb s :
  (∀ a, exit_submission IntentPurpose.STOP a → P a) → runs P (_exit_after_confirmed_cancels st b pr c sd cb s).
Proof. intros Hexit. unfold _exit_after_confirmed_cancels. runs. Qed.
#[local] Hint Resolve runs_exit_after_confirmed_cancels : runs.

Lemma runs_flatten_residual_book st b pr cs sd cb s :
  (∀ a, exit_submission IntentPurpose.STOP a → P a) → runs P (flatten_residual_book st b pr cs sd cb s).
Proof. intros Hexit. unfold flatten_residual_book. runs. Qed.
#[local] Hint Resolve runs_flatten_residual_book : runs.

Lemma runs_flatten_stopped_residual st b pr cs sd s :
  (∀ a, exit_submission IntentPurpose.STOP a → P a) → runs P (flatten_stopped_residual st b pr cs sd s).
Proof. intros Hexit. unfold flatten_stopped_residual. runs. Qed.
#[local] Hint Resolve runs_flatten_stopped_residual : runs.

(** ** The cycle *)

Lemma runs_cancel_risk_increasing_orders st b s : runs P (cancel_risk_increasing_orders st b s).
Proof. unfold cancel_risk_increasing_orders. runs. Qed.
#[local] Hint Resolve runs_cancel_risk_increasing_orders : runs.

Lemma runs_trail_and_protect st i b c signal_matched live p s :
  (∀ a, reducing a → P a) → runs P (trail_and_protect st i b c signal_matched live p s).
Proof. intros Hred. unfold trail_and_protect. runs. Qed.
#[local] Hint Resolve runs_trail_and_protect : runs.

Lemma runs_paper_exits_first st i b c p s : (∀ a, reducing a → P a) → runs P (paper_exits_first st i b c p s).
Proof. intros Hred. unfold paper_exits_first. runs. Qed.
#[local] Hint Resolve runs_paper_exits_first : runs.

Lemma runs_exit_trail_and_protect st i b c s : (∀ a, reducing a → P a) → runs P (_exit_trail_and_protect st i b c s).
Proof. intros Hred. unfold _exit_trail_and_protect. runs. Qed.
#[local] Hint Resolve runs_exit_trail_and_protect : runs.

Lemma runs_manage_open_position st i b c s : (∀ a, reducing a → P a) → runs P (_manage_open_position st i b c s).
Proof. intros Hred. unfold _manage_open_position. runs. Qed.
#[local] Hint Resolve runs_manage_open_position : runs.

Lemma runs_manage_position st i b c s :
  (∀ a, reducing a → P a) → (on_unfilled_entry (execution (cycle_strategy i)) = reprice → ∀ a, entering a → P a) → runs P (_manage_position st i b c s).
Proof. intros Hred Hent. unfold _manage_position. runs. Qed.
#[local] Hint Resolve runs_manage_position : runs.

Lemma runs_persist_performance st i mark_price s : runs P (_persist_performance st i mark_price s).
Proof. unfold _persist_performance. runs. Qed.
#[local] Hint Resolve runs_persist_performance : runs.

Lemma runs_revisit_bar st i b c s : (∀ a, reducing a → P a) → runs P (revisit_bar st i b c s).
Proof. intros Hred. unfold revisit_bar. runs. Qed.
#[local] Hint Resolve runs_revisit_bar : runs.

Lemma runs_evaluate_bar st i b c allow s :
  (∀ a, reducing a → P a) → (on_unfilled_entry (execution (cycle_strategy i)) = reprice → ∀ a, entering a → P a) → (allow = true → ∀ a, entering a → P a) → runs P (evaluate_bar st i b c allow s).
Proof.
  intros Hred Hent Hnew. unfold evaluate_bar, may_enter. destruct allow; [pose proof (Hnew eq_refl)|]; cbn [andb]; runs.
Qed.
#[local] Hint Resolve runs_evaluate_bar : runs.

Lemma runs_process_closed_bar st i b allow s :
  (∀ a, reducing a → P a) → (on_unfilled_entry (execution (cycle_strategy i)) = reprice → ∀ a, entering a → P a) → (allow = true → ∀ a, entering a → P a) → runs P (process_closed_bar st i b allow s).
Proof. intros Hred Hent Hnew. unfold process_closed_bar. runs. Qed.
#[local] Hint Resolve runs_process_closed_bar : runs.

Lemma runs_maintain_open_inventory st i b s :
  (∀ a, reducing a → P a) → (on_unfilled_entry (execution (cycle_strategy i)) = reprice → ∀ a, entering a → P a) → runs P (maintain_open_inventory st i b s).
Proof.
  intros Hred Hent. unfold maintain_open_inventory. destruct (bool_decide _); [runs|]. apply runs_bind; [runs|intros b'].
  apply runs_process_closed_bar; [exact Hred|exact Hent|discriminate].
Qed.
#[local] Hint Resolve runs_maintain_open_inventory : runs.

End Runs.
