(* ===== verification/CycleFacts.v ===== *)
(** * CycleFacts: what a cycle guarantees

    Whatever the venue answers and wherever an exception interrupts a cycle: orders are on record
    before the venue sees them, keys send once, the operator's stop survives, refusals back off,
    and a paper bar takes the exit decision of the simulation. *)

From stdpp Require Import relations.
From S2P Require Import Prelude Decimals Market Geometry IndicatorSpec Conditions Strategy Sizing Containers.
From S2P Require Import TradingModels FillLedger ExecutionStore StoreFacts StoreSteps RiskModels EntryLimits Breakers.
From S2P Require Import FuturesBooks FuturesGate LiveSignals Engine ExitGuards FuturesVenue Submit Reconcile.
From S2P Require Import Exits Capital EntryCycle ClosedBar CycleSteps.
From S2P Require Import CycleRuns.

Open Scope Z_scope.

(** * What a cycle guarantees

    Whatever the venue answers and wherever an exception interrupts a cycle: every order was on
    record before the venue saw it, and an idempotency key sends at most one order. *)

Section Traces.
Context {venue : Venue} {surroundings : Surroundings} {dc : DecimalContext}.

Section Allowed.
Context (P : Submission → Prop).

(** A call was made against a store between the two ends of the run; a request was on record
    there, for an allowed submission. *)
Definition placed_in_order (from to : Store) (call : BrokerCall) : Prop :=
  match call with
  | Placed r s => (∃ a, P a ∧ recorded a r s) ∧ rtc store_step from s ∧ rtc store_step s to
  | CancelSent _ s => rtc store_step from s ∧ rtc store_step s to
  end.

Lemma cycle_step_store w w' : cycle_step P w w' → rtc store_step (stored w) (stored w').
Proof.
  unfold stored. intros [-> ? ?|H ? ? ?|gate fence i H ? ? ?|id -> ? ?|a r ? ? -> ? ?]; try apply rtc_refl; apply rtc_once; [done|].
  by eapply StoreSteps.step_intent.
Qed.

Lemma cycle_steps_store w w' : rtc (cycle_step P) w w' → rtc store_step (stored w) (stored w').
Proof. induction 1 as [|w w1 w2 H _ IH]; [apply rtc_refl|]. etrans; [by apply cycle_step_store|done]. Qed.

Lemma placed_in_order_weaken a a' b b' call : rtc store_step a' a → rtc store_step b b' →
  placed_in_order a b call → placed_in_order a' b' call.
Proof. intros Ha Hb. destruct call; cbn; [intros (? & ? & ?); split; [done|]|intros [? ?]]; (split; [by etrans|by etrans]). Qed.

Lemma cycle_step_calls w w' : cycle_step P w w' → ∃ new, calls w' = calls w ++ new ∧
  Forall (placed_in_order (stored w) (stored w')) new.
Proof.
  intros [Hb -> ?|H ? -> ?|gate fence i H ? -> ?|id Hb -> ?|a r HP Hr Hb -> ?].
  1-3: exists []; by rewrite app_nil_r.
  all: eexists; (split; [done|]); constructor; [|done]; unfold stored in *; rewrite Hb; cbn; repeat split; try apply rtc_refl.
  by exists a.
Qed.

Lemma cycle_steps_calls w w' : rtc (cycle_step P) w w' → ∃ new, calls w' = calls w ++ new ∧
  Forall (placed_in_order (stored w) (stored w')) new.
Proof.
  induction 1 as [w|w w1 w2 H Hrun (new2 & Hc2 & Hf2)]; [exists []; by rewrite app_nil_r|].
  destruct (cycle_step_calls w w1 H) as (new1 & Hc1 & Hf1). exists (new1 ++ new2).
  rewrite Hc2, Hc1, app_assoc. split; [done|]. apply Forall_app. split; (eapply Forall_impl; [done|]); intros call.
  - apply placed_in_order_weaken; [apply rtc_refl|by apply cycle_steps_store].
  - apply placed_in_order_weaken; [by apply cycle_step_store|apply rtc_refl].
Qed.

(** ** Identifiers *)

(** No identifier still to be drawn names a stored intent. *)
Definition unused_ids (w : World) : Prop := ∀ n, (ticks w ≤ n)%nat → dict_get (fresh_id n) (intents (stored w)) = None.

Lemma cycle_step_intents w w' : Inj eq eq fresh_id → unused_ids w → cycle_step P w w' →
  unused_ids w' ∧ ∀ id i, dict_get id (intents (stored w)) = Some i → dict_get id (intents (stored w')) = Some i.
Proof.
  intros Hinj Hun Hstep. unfold unused_ids in *.
  destruct Hstep as [Hb ? ?|H Hsame ? ?|gate fence i H Hid ? ?|id Hb ? ?|a r ? ? Hb ? ?].
  1,4,5: unfold stored in *; rewrite Hb; (split; [|done]); intros n ?; apply Hun; lia.
  - rewrite Hsame. split; [|done]. intros n ?. apply Hun. lia.
  - rewrite (save_intent_gets _ _ _ _ _ H), Hid. split.
    + intros n Hn. rewrite dict_get_set_ne; [apply Hun; lia|]. intros ->%(inj fresh_id). lia.
    + intros id' i' Hi'. rewrite dict_get_set_ne; [done|]. intros ->. by rewrite Hun in Hi' by lia.
Qed.

Lemma cycle_steps_intents w w' : Inj eq eq fresh_id → unused_ids w → rtc (cycle_step P) w w' →
  unused_ids w' ∧ ∀ id i, dict_get id (intents (stored w)) = Some i → dict_get id (intents (stored w')) = Some i.
Proof.
  intros Hinj Hun Hrun. induction Hrun as [w|w w1 w2 H _ IH]; [done|].
  destruct (cycle_step_intents w w1 Hinj Hun H) as [Hun1 Hkeep]. destruct (IH Hun1) as [Hun2 Hkeep2]. naive_solver.
Qed.

End Allowed.

(** ** A used key *)

Definition key_used (key : string) (s : Store) : Prop := ∃ id i, dict_get id (intents s) = Some i ∧ OrderIntent.idempotency_key i = Some key.

Lemma key_used_found key s : key_used key s → get_intent_by_idempotency_key s key ≠ None.
Proof.
  intros (id & i & Hget%dict_get_elem & Hk) Hnone.
  assert (In i (dict_values (intents s))) as Hin.
  { apply list_elem_of_In. unfold dict_values. apply list_elem_of_fmap. by exists (id, i). }
  apply (find_none _ _ Hnone) in Hin. cbn beta in Hin. by rewrite bool_decide_eq_true_2 in Hin.
Qed.

(** A read changes nothing. *)
Lemma accounting_same store id w : (get_accounting_snapshot store id w).1 = w.
Proof. done. Qed.

Lemma get_deployment_same store id w : (store_get_deployment store id w).1 = w.
Proof.
  induction store as [|inner IH product]; [apply accounting_same|]. cbn. unfold mbind, M_bind.
  destruct (store_get_deployment inner id w) as [w1 [a|e]]; cbn in *; done.
Qed.

Lemma bind_calls {A B} (m : M A) (f : A → M B) w : calls (m w).1 = calls w →
  (∀ w1 a, m w = (w1, Ok a) → calls (f a w1).1 = calls w1) → calls ((m ≫= f) w).1 = calls w.
Proof. intros Hm Hf. unfold mbind, M_bind. destruct (m w) as [w1 [a|e]]; cbn in *; [|done]. by rewrite (Hf w1 a). Qed.

Lemma existing_order_same store key e w : (_existing_order_for_key store key e w).1 = w.
Proof.
  unfold _existing_order_for_key. destruct (truthy key) as [k|]; [|done]. destruct e; try done.
  all: unfold mbind, M_bind; cbn; destruct (get_intent_by_idempotency_key _ k) as [i|]; [|done];
    pose proof (get_deployment_same store (OrderIntent.deployment_id i) w) as H;
    destruct (store_get_deployment store (OrderIntent.deployment_id i) w) as [w1 [a|e1]]; cbn in *; by subst.
Qed.

(** An intent whose key is used is refused and nothing is sent. *)
Lemma intend_refused store id a now instant client intent_id key w :
  submit_idempotency_key a = Some key → key_used key (stored w) →
  let '(w', r) := intend store id a now instant client intent_id w in calls w' = calls w ∧ r ≠ Ok None.
Proof.
  intros Hk Hused. unfold intend. set (i := pending_intent id a now instant client intent_id).
  pose proof (store_save_intent_spec store i w) as Hspec.
  unfold try_except, mbind at 1, M_bind at 1. destruct (store_save_intent store i w) as [w1 [[]|e]].
  - destruct Hspec as (i' & gate & fence & Hsc & H & _). exfalso. apply bind_Ok in H as ([] & H & _).
    assert (OrderIntent.idempotency_key i' = Some key) as Hk' by (by destruct Hsc as [->|(p & ->)]).
    rewrite Hk' in H. apply guard_or_Ok in H. apply bool_decide_eq_true in H. by apply key_used_found in Hused.
  - subst w1. destruct (is_conflict e); [|done]. pose proof (existing_or_raise store (submit_idempotency_key a) e w) as Hr.
    set (rest := (existing ← _existing_order_for_key store (submit_idempotency_key a) e;
      match existing with Some o => mret (Some o) | None => raise e end : M (option Order)) w) in *.
    assert (calls rest.1 = calls w) as Hc.
    { apply bind_calls; [by rewrite existing_order_same|]. by intros w2 [o|] _. }
    by destruct rest.
Qed.

(** A submission stops at its guards, or reaches the recording of its intent. *)
Definition unmoved (w w' : World) : Prop := backing w' = backing w ∧ calls w' = calls w ∧ (ticks w ≤ ticks w')%nat.

Lemma unmoved_trans w w1 w2 : unmoved w w1 → unmoved w1 w2 → unmoved w w2.
Proof. intros (? & ? & ?) (? & ? & ?). split; [congruence|]. split; [congruence|lia]. Qed.

Lemma price_free_unmoved store b id a instant w : unmoved w (_require_price_free_reduction store b id a instant w).1.
Proof.
  unfold _require_price_free_reduction. destruct (_ || _); [done|]. pose proof (get_deployment_same store id w) as H.
  unfold mbind, M_bind. destruct (store_get_deployment store id w) as [w1 [s|e]]; cbn in H; subst w1; [|done]. by case_decide.
Qed.

Lemma submit_shape store b id a w w' r : submit_intent store b id a w = (w', r) →
  (unmoved w w' ∧ ∃ e, r = Raise e) ∨
  ∃ w1 now instant client, unmoved w w1 ∧ (uuid7 ≫= intend_and_send store b id a now instant client) w1 = (w', r).
Proof.
  unfold submit_intent. destruct (_ || _); [intros [= <- <-]; left; split; [done|by eexists]|].
  intros H. unfold mbind at 1, M_bind at 1 in H. destruct (utc_now w) as [w1 [now|e]] eqn:Hnow; [|discriminate Hnow].
  pose proof (looks_now w) as Hw1. rewrite Hnow in Hw1. cbn [fst] in Hw1.
  cbn zeta in H. set (instant := match submit_candle a with Some c => Some (starts_at c) | None => submit_decision_at a end) in *.
  set (guarded := match submit_candle a with None => _ | Some _ => mret tt end) in *.
  assert (unmoved w1 (guarded w1).1) as Hg by (unfold guarded; destruct (submit_candle a); [done|apply price_free_unmoved]).
  unfold mbind at 1, M_bind at 1 in H. destruct (guarded w1) as [w2 [[]|e]]; cbn in Hg;
    pose proof (unmoved_trans _ _ _ Hw1 Hg) as Hw2; [|injection H as <- <-; left; split; [done|by eexists]].
  destruct instant as [at_|]; [|injection H as <- <-; left; split; [done|by eexists]]. right.
  eexists (uuid7 w2).1, now, at_, _. split; [exact (unmoved_trans _ _ _ Hw2 (looks_uuid w2))|exact H].
Qed.

Lemma submit_refused store b id a key w : submit_idempotency_key a = Some key → key_used key (stored w) →
  calls (submit_intent store b id a w).1 = calls w.
Proof.
  intros Hk Hused. destruct (submit_intent store b id a w) as [w' r] eqn:Hsub.
  apply submit_shape in Hsub as [[(_ & H & _) _]|(w1 & now & instant & client & (Hb & Hc & _) & Hsub)]; [done|].
  change w' with (w', r).1. rewrite <- Hsub, <- Hc. apply bind_calls; [done|]. intros w2 intent_id Hid. unfold intend_and_send.
  assert (stored w2 = stored w) as Hst by (injection Hid as <- _; unfold stored; cbn; by rewrite Hb).
  pose proof (intend_refused store id a now instant client intent_id key w2 Hk) as H. rewrite Hst in H. specialize (H Hused).
  unfold mbind, M_bind. destruct (intend store id a now instant client intent_id w2) as [w3 [[o|]|e]]; [by apply H|naive_solver|by apply H].
Qed.

Lemma intend_calls store id a now instant client intent_id w : calls (intend store id a now instant client intent_id w).1 = calls w.
Proof.
  unfold intend. set (i := pending_intent id a now instant client intent_id). pose proof (store_save_intent_spec store i w) as Hspec.
  unfold try_except, mbind at 1, M_bind at 1. destruct (store_save_intent store i w) as [w1 [[]|e]].
  - by destruct Hspec as (? & ? & ? & _ & _ & ? & _).
  - subst w1. destruct (is_conflict e); [|done].
    apply bind_calls; [by rewrite existing_order_same|]. by intros w2 [o|] _.
Qed.

(** A submission that sent something used its key up. *)
Lemma submit_uses_key store b id a key w w' r : Inj eq eq fresh_id → unused_ids w → submit_idempotency_key a = Some key →
  submit_intent store b id a w = (w', r) → calls w' ≠ calls w → unused_ids w' ∧ key_used key (stored w').
Proof.
  intros Hinj Hun Hk Hsub Hsent. pose proof (runs_submit (eq a) store b id a eq_refl w) as Hruns. rewrite Hsub in Hruns.
  destruct (cycle_steps_intents _ _ _ Hinj Hun Hruns) as [Hun' _]. split; [done|]. clear Hruns.
  apply submit_shape in Hsub as [[(_ & H & _) _]|(w1 & now & instant & client & (Hb & Hc & Ht) & Hsub)]; [done|]. rewrite <- Hc in Hsent.
  assert (unused_ids w1) as Hun1 by (intros n ?; unfold stored; rewrite Hb; apply Hun; lia).
  destruct (intend_steps (eq a) store id a now instant client w1) as [Hsteps Hnone].
  destruct (cycle_steps_intents _ _ _ Hinj Hun1 Hsteps) as [Hun2 _].
  pose proof (intend_calls store id a now instant client (fresh_id (ticks w1)) (uuid7 w1).1) as Hcalls.
  assert ((uuid7 ≫= intend store id a now instant client) w1 = intend store id a now instant client (fresh_id (ticks w1)) (uuid7 w1).1)
    as Hm by done. rewrite Hm in Hnone, Hun2. clear Hm Hsteps.
  assert ((uuid7 ≫= intend_and_send store b id a now instant client) w1 =
    intend_and_send store b id a now instant client (fresh_id (ticks w1)) (uuid7 w1).1) as Hm by done.
  rewrite Hm in Hsub. clear Hm. unfold intend_and_send, mbind at 1, M_bind at 1 in Hsub.
  destruct (intend store id a now instant client _ _) as [w2 [[o|]|e]]; cbn in Hcalls, Hnone, Hun2;
    [injection Hsub as <- <-; by cbn in Hsent| |injection Hsub as <- <-; by cbn in Hsent].
  destruct (Hnone eq_refl) as (i & Hi & Hget).
  pose proof (send_after_intend (eq a) store b id a now instant client _ i w2 eq_refl Hi Hget) as Hrest. rewrite Hsub in Hrest.
  destruct (cycle_steps_intents _ _ _ Hinj Hun2 Hrest) as [_ Hkeep]. exists (OrderIntent.id i), i. split; [by apply Hkeep|].
  by destruct Hi as [->|(p & ->)].
Qed.

Lemma key_used_later P key w w' : Inj eq eq fresh_id → unused_ids w → rtc (cycle_step P) w w' → key_used key (stored w) → key_used key (stored w').
Proof.
  intros Hinj Hun Hrun (id & i & Hget & Hk). destruct (cycle_steps_intents _ _ _ Hinj Hun Hrun) as [_ Hkeep].
  exists id, i. by split; [apply Hkeep|].
Qed.

(** C9: An idempotency key sends at most one order. Once a submission under a key has reached
    the venue, then after any further steps of the engine, and whatever its own outcome was, a
    submission under the same key sends nothing, whichever store view, broker, book and terms
    it names. *)
Theorem one_order_per_key st1 b1 id1 a1 st2 b2 id2 a2 key P w w1 r1 w2 : Inj eq eq fresh_id → unused_ids w →
  submit_idempotency_key a1 = Some key → submit_idempotency_key a2 = Some key →
  submit_intent st1 b1 id1 a1 w = (w1, r1) → calls w1 ≠ calls w → rtc (cycle_step P) w1 w2 →
  calls (submit_intent st2 b2 id2 a2 w2).1 = calls w2.
Proof.
  intros Hinj Hun Hk1 Hk2 Hsub Hsent Hrun. destruct (submit_uses_key _ _ _ _ _ _ _ _ Hinj Hun Hk1 Hsub Hsent) as [Hun1 Hused].
  apply (submit_refused _ _ _ _ key); [done|]. by apply (key_used_later P _ w1).
Qed.

(** ** What a submission leaves behind *)

(** The stored row of an order: its product and its settlement times may have been stamped. *)
Definition has_row (s : Store) (o : Order) : Prop := ∃ o', dict_get (Order.id o) (orders s) = Some o' ∧
  ∃ product canceled settled, o' = o ∨ o' = Order.set_settlement (Order.set_product_id o product) canceled settled.

Lemma set_product_same o : Order.set_product_id o (Order.product_id o) = o.
Proof. by destruct o. Qed.

Lemma saved_has_row store o w : has_row (stored (store_save_order store o w).1) o.
Proof.
  destruct (store_save_order_spec store o w) as (o1 & Hsc & _ & -> & _).
  destruct (save_order_gets (stored w) o1) as (o2 & Hget & Heq). exists o2.
  assert (Order.id o1 = Order.id o) as Hid by (by destruct Hsc as [->|[_ (p & ->)]]). rewrite <- Hid. split; [done|].
  destruct (with_cancel_time_frame o1 (order_with_client_id (stored w) (Order.client_order_id o1))) as [Hf|(c & t & Hf)];
    rewrite Hf in Heq; subst o2; destruct Hsc as [->|[_ (p & ->)]].
  - by exists "", None, None; left.
  - exists p, (Order.canceled_at o), (Order.settled_at o). right. by destruct o.
  - exists (Order.product_id o), c, t. right. by rewrite set_product_same.
  - exists p, c, t. by right.
Qed.

Definition answer_of (b : Broker) (r : PlaceRequest) (w : World) : result SubmitResult :=
  (match b with PaperBroker rates => pure (paper_place_order rates r) | _ => ask_venue (venue_place_order r) end w).2.

(** The row after the venue's answer. *)
Definition answered (o o' : Order) (r : SubmitResult) : Prop :=
  Order.status o' = SubmitResult.status r ∧ Order.venue_order_id o' = Some (SubmitResult.venue_order_id r) ∧
  Order.filled_quantity o' = SubmitResult.filled_quantity r ∧ Order.reject_reason o' = SubmitResult.reject_reason r ∧
  Order.attached_child_venue_order_id o' = SubmitResult.attached_child_venue_order_id r ∧
  place_request o' = place_request o ∧ Order.id o' = Order.id o.

Lemma save_order_Ok store o w : ∃ w', store_save_order store o w = (w', Ok tt) ∧ has_row (stored w') o ∧ calls w' = calls w ∧
  ∃ row, stored w' = save_order (stored w) row ∧ Order.id row = Order.id o ∧ Order.client_order_id row = Order.client_order_id o.
Proof.
  pose proof (saved_has_row store o w) as Hrow. destruct (store_save_order_spec store o w) as (o' & Hsc & Hok & Hst & Hc).
  destruct (store_save_order store o w) as [w' x]. cbn in *. subst x. exists w'. split_and!; try done. exists o'.
  split; [done|]. by destruct Hsc as [->|[_ (p & ->)]].
Qed.

Lemma save_order_ticks store o w : ticks (store_save_order store o w).1 = ticks w.
Proof. revert o. by induction store as [|inner IH product]; intros o; [|apply IH]. Qed.

(** ** A second row beside the first *)

Definition orders_sound (s : Store) : Prop := dict_wf (orders s) ∧ ∀ id o, dict_get id (orders s) = Some o → Order.id o = id.

Lemma with_cancel_time_id o existing : Order.id (with_cancel_time o existing) = Order.id o.
Proof. by destruct (with_cancel_time_frame o existing) as [->|(c & t & ->)]. Qed.

Lemma dropped_sound s existing : orders_sound s →
  dict_wf (drop_order existing (orders s)) ∧ ∀ id o, dict_get id (drop_order existing (orders s)) = Some o → Order.id o = id.
Proof.
  intros [Hwf Hids]. destruct existing as [x|]; [|done]. cbn. split; [by apply dict_wf_pop|]. intros id o.
  destruct (decide (id = Order.id x)) as [->|Hne]; [by rewrite dict_get_pop|]. rewrite dict_get_pop_ne by done. apply Hids.
Qed.

Lemma save_order_sound s o : orders_sound s → orders_sound (save_order s o).
Proof.
  intros H. destruct (dropped_sound s (order_with_client_id s (Order.client_order_id o)) H) as [Hwf Hids].
  split; cbn; [by apply dict_wf_set|]. intros id x. destruct (decide (id = Order.id o)) as [->|Hne].
  - rewrite dict_get_set. intros [= <-]. apply with_cancel_time_id.
  - rewrite dict_get_set_ne by done. apply Hids.
Qed.

(** Saving an order of another identifier and another client identifier keeps the row. *)
Lemma other_order_saved s o x : orders_sound s → has_row s o → Order.id x ≠ Order.id o →
  Order.client_order_id x ≠ Order.client_order_id o → has_row (save_order s x) o.
Proof.
  intros [Hwf Hids] (row & Hget & product & canceled & settled & Hrow) Hid Hclient. exists row. split; [|by exists product, canceled, settled].
  cbn. rewrite dict_get_set_ne by done. unfold order_with_client_id. destruct (List.find _ _) as [y|] eqn:Hy; [|done]. cbn.
  apply find_some in Hy as [Hin Heq%bool_decide_eq_true].
  apply list_elem_of_In in Hin. apply (elem_of_dict_values _ _ Hwf) in Hin as (k & Hk). rewrite (Hids _ _ Hk). rewrite dict_get_pop_ne; [done|].
  intros <-. rewrite Hk in Hget. injection Hget as ->. destruct Hrow as [->| ->]; cbn in Heq; congruence.
Qed.

Lemma substring_whole s : ∀ n, (String.length s <= n)%nat → String.substring 0 n s = s.
Proof. induction s as [|c s IH]; intros [|n]; cbn; try done; [lia|]. intros H. by rewrite IH by lia. Qed.

Lemma append_length s t : String.length (s +:+ t) = (String.length s + String.length t)%nat.
Proof. induction s as [|c s IH]; [done|]. exact (f_equal S IH). Qed.

(** A client identifier with room for the suffix is not its child's. *)
Lemma child_client_id s : (String.length s <= 122)%nat → String.substring 0 128 (s +:+ ":child") ≠ s.
Proof.
  intros H. assert (String.length (s +:+ ":child") = String.length s + 6)%nat as Hl by (by rewrite append_length).
  rewrite substring_whole by lia. intros E. apply (f_equal String.length) in E. lia.
Qed.

(** ** The rows written after an answer *)

(** The row of the venue's attached child, under its own identifier. *)
Definition child_recorded (parent : Order) (product venue_order_id : string) (s : Store) : Prop :=
  ∃ n created updated, has_row s (attached_child parent venue_order_id (fresh_id n) created updated OrderStatus.OPEN product).

(** What makes the child's row another row than the parent's: identifiers that are never drawn
    twice, a table keyed by them, and a client identifier that is not cut at 128 characters. *)
Definition rows_apart (parent : Order) (s : Store) : Prop :=
  Inj eq eq fresh_id ∧ orders_sound s ∧ (String.length (Order.client_order_id parent) <= 122)%nat.

(** A paper order that filled at once has its fill on record; nothing else records one. *)
Definition fill_recorded (b : Broker) (c : option Candle) (o : Order) (r : SubmitResult) (before s : Store) : Prop :=
  match b, c, SubmitResult.status r, SubmitResult.fill_price r with
  | PaperBroker _, Some candle, OrderStatus.FILLED, Some price => ∃ n,
      let f := Fill.mk (fresh_id n) (Order.deployment_id o) (Order.id o) (SubmitResult.venue_order_id r +:+ ":immediate") price
        (if (SubmitResult.filled_quantity r =? d0)%dec then Order.quantity o else SubmitResult.filled_quantity r)
        (SubmitResult.fill_fee r) (starts_at candle) None None in
      fill_key f ∈ _fill_keys s ∧ (fill_key f ∉ _fill_keys before → dict_get (fresh_id n) (fills s) = Some f)
  | _, _, _, _ => fills s = fills before ∧ _fill_keys s = _fill_keys before
  end.

Definition record_child (store : ExecutionStore) (parent : Order) (product : string) (now : datetime) (child : option string) : M unit :=
  match child with
  | Some child =>
      _ ← utc_now; id ← uuid7; t ← utc_now;
      store_save_order store (attached_child parent child id now t OrderStatus.OPEN product)
  | None => mret tt
  end.

Definition record_fill (store : ExecutionStore) (b : Broker) (c : option Candle) (o : Order) (r : SubmitResult) : M unit :=
  match b, c, SubmitResult.status r, SubmitResult.fill_price r with
  | PaperBroker _, Some candle, OrderStatus.FILLED, Some price =>
      _ ← utc_now; id ← uuid7;
      _ ← store_save_fill store (Fill.mk id (Order.deployment_id o) (Order.id o)
            (SubmitResult.venue_order_id r +:+ ":immediate") price
            (if (SubmitResult.filled_quantity r =? d0)%dec then Order.quantity o else SubmitResult.filled_quantity r)
            (SubmitResult.fill_fee r) (starts_at candle) None None);
      mret tt
  | _, _, _, _ => mret tt
  end.

Lemma record_child_spec store parent product now child w k : Order.id parent = fresh_id k → (k < ticks w)%nat →
  ∃ w', record_child store parent product now child w = (w', Ok tt) ∧ calls w' = calls w ∧
    fills (stored w') = fills (stored w) ∧ _fill_keys (stored w') = _fill_keys (stored w) ∧
    match child with
    | None => stored w' = stored w
    | Some child => child_recorded parent product child (stored w') ∧
        (rows_apart parent (stored w) → has_row (stored w) parent → has_row (stored w') parent)
    end.
Proof.
  intros Hid Hk. destruct child as [child|]; [|by exists w]. unfold record_child, mbind, M_bind. cbn [utc_now uuid7].
  match goal with |- context [store_save_order store ?o ?w0] => destruct (save_order_Ok store o w0) as (w1 & -> & Hrow & Hc & x & Hst & Hxid & Hxc) end.
  exists w1. split; [done|]. split; [done|]. split; [by rewrite Hst|]. split; [by rewrite Hst|]. split; [by do 3 eexists|].
  intros (Hinj & Hsound & Hlen) Hparent. rewrite Hst. apply other_order_saved; [done..| |].
  - rewrite Hxid, Hid. cbn. intros E%Hinj. lia.
  - rewrite Hxc. by apply child_client_id.
Qed.

Lemma record_fill_spec store b c o r w : ∃ w', record_fill store b c o r w = (w', Ok tt) ∧ calls w' = calls w ∧
  orders (stored w') = orders (stored w) ∧ fill_recorded b c o r (stored w) (stored w').
Proof.
  unfold record_fill, fill_recorded. destruct b as [rates| |], c as [candle|], (SubmitResult.status r), (SubmitResult.fill_price r) as [price|];
    try (by exists w).
  unfold mbind, M_bind. cbn [utc_now uuid7]. unfold store_save_fill, write_store.
  match goal with |- context [save_fill ?s ?f] => set (x := f) end. unfold save_fill. cbn [stored]. case_decide as Hkey.
  - eexists. split; [done|]. cbn. unfold stored. cbn. rewrite stored_forward. split; [done|]. split; [done|].
    exists (S (ticks w)). split; [exact Hkey|]. by intros [].
  - eexists. split; [done|]. cbn. unfold stored. cbn. rewrite stored_forward. split; [done|]. split; [done|].
    exists (S (ticks w)). cbn. split; [set_solver|]. intros _. apply dict_get_set.
Qed.

Lemma record_answer_spec store b c now o r w k : Order.id o = fresh_id k → (k < ticks w)%nat →
  ∃ w' o', record_answer store b c now o r w = (w', Ok o') ∧ calls w' = calls w ∧ answered o o' r ∧
    Order.client_order_id o' = Order.client_order_id o ∧ fill_recorded b c o' r (stored w) (stored w') ∧
    match truthy (SubmitResult.attached_child_venue_order_id r) with
    | None => has_row (stored w') o'
    | Some child => child_recorded o' (Order.product_id o) child (stored w') ∧ (rows_apart o (stored w) → has_row (stored w') o')
    end.
Proof.
  intros Hid Hk. set (submitted := Order.set_venue_view o (Some (SubmitResult.venue_order_id r)) (SubmitResult.status r)
    (SubmitResult.filled_quantity r) (SubmitResult.reject_reason r) (SubmitResult.attached_child_venue_order_id r)
    (Order.venue_observed_at o) (clock_reading (ticks w))).
  assert (record_answer store b c now o r w = (_ ← utc_now; _ ← store_save_order store submitted;
    _ ← record_child store submitted (Order.product_id o) now (truthy (SubmitResult.attached_child_venue_order_id r));
    _ ← record_fill store b c submitted r; mret submitted) w) as -> by done.
  assert (answered o submitted r) as Ha by done. assert (Order.id submitted = fresh_id k) as Hid' by done.
  assert (Order.client_order_id submitted = Order.client_order_id o) as Hclient by done. clearbody submitted.
  unfold mbind at 1, M_bind at 1. cbn [utc_now]. unfold mbind at 1, M_bind at 1.
  match goal with |- context [store_save_order store submitted ?w0] =>
    pose proof (save_order_ticks store submitted w0) as Ht; destruct (save_order_Ok store submitted w0) as (w1 & E & Hrow & Hc & x & Hst & _) end.
  rewrite E in *. cbn in Ht, Hc, Hst.
  destruct (record_child_spec store submitted (Order.product_id o) now (truthy (SubmitResult.attached_child_venue_order_id r)) w1 k Hid')
    as (w2 & E2 & Hc2 & Hf2 & Hk2 & Hchild); [lia|].
  destruct (record_fill_spec store b c submitted r w2) as (w3 & E3 & Hc3 & Ho3 & Hfill).
  exists w3, submitted. unfold mbind, M_bind. rewrite E2, E3. split; [done|]. split; [congruence|]. split; [done|]. split; [done|].
  assert (fills (stored w2) = fills (stored w) ∧ _fill_keys (stored w2) = _fill_keys (stored w)) as [Hf Hks] by (rewrite Hf2, Hk2, Hst; done).
  split. { unfold fill_recorded in *. rewrite Hf, Hks in Hfill. exact Hfill. }
  assert (∀ y, has_row (stored w2) y → has_row (stored w3) y) as Hkeep by (intros y; unfold has_row; by rewrite Ho3).
  destruct (truthy (SubmitResult.attached_child_venue_order_id r)) as [child|].
  - destruct Hchild as [(n & cr & up & Hchild) Hparent]. split; [exists n, cr, up; by apply Hkeep|]. intros (Hinj & Hsound & Hlen).
    apply Hkeep, Hparent; [|done]. split; [done|]. split; [|by rewrite Hclient]. rewrite Hst. by apply save_order_sound.
  - apply Hkeep. by rewrite Hchild.
Qed.

(** The row asks for what the submission described. *)
Definition describes (a : Submission) (o : Order) : Prop :=
  Order.side o = submit_side a ∧ Order.kind o = submit_kind a ∧ Order.quantity o = submit_quantity a ∧
  Order.price o = submit_price a ∧ Order.product_id o = submit_product_id a ∧
  Order.stop_trigger_price o = submit_stop_trigger_price a ∧ Order.take_profit_price o = submit_take_profit_price a.

(** What an answer, or the exception instead of one, makes of the order [o]: [before] is the store
    the broker was called against, [s] the store afterwards. *)
Definition outcome (b : Broker) (c : option Candle) (o : Order) (answer : result SubmitResult) (before s : Store) (r : result Order) : Prop :=
  match answer with
  | Ok answer => ∃ o', r = Ok o' ∧ answered o o' answer ∧ fill_recorded b c o' answer before s ∧
      match truthy (SubmitResult.attached_child_venue_order_id answer) with
      | None => has_row s o'
      | Some child => child_recorded o' (Order.product_id o) child s ∧ (rows_apart o before → has_row s o')
      end
  | Raise e =>
      match submit_error_name e with
      | Some name => ∃ o', r = Ok o' ∧ Order.status o' = OrderStatus.UNKNOWN ∧ Order.reject_reason o' = Some name ∧
          Order.venue_order_id o' = None ∧ place_request o' = place_request o ∧ has_row s o' ∧ fills s = fills before
      | None => r = Raise e ∧ has_row s o ∧ fills s = fills before
      end
  end.

Lemma try_place_spec b o w : ∃ w1, try_place b o w =
    (w1, match answer_of b (place_request o) w with
         | Ok answer => Ok (inl answer)
         | Raise e => match submit_error_name e with Some name => Ok (inr name) | None => Raise e end
         end) ∧ stored w1 = stored w ∧ calls w1 = calls w ++ [Placed (place_request o) (stored w)] ∧ ticks w1 = ticks w.
Proof.
  unfold try_place, place_order, answer_of, try_except, mbind, M_bind. cbn [note_call]. destruct b as [rates| |].
  - cbn [pure snd]. destruct (paper_place_order rates (place_request o)) as [answer|e]; cbn; [by eexists|].
    destruct (submit_error_name e); by eexists.
  - unfold ask_venue. cbn. destruct (venue_place_order (place_request o) (at_venue w)) as [v [answer|e]]; cbn; [by eexists|].
    destruct (submit_error_name e); by eexists.
  - unfold ask_venue. cbn. destruct (venue_place_order (place_request o) (at_venue w)) as [v [answer|e]]; cbn; [by eexists|].
    destruct (submit_error_name e); by eexists.
Qed.

Lemma send_order_spec store b c now o w w' r k : Order.venue_order_id o = None → Order.id o = fresh_id k → (k < ticks w)%nat →
  send_order store b c now o w = (w', r) →
  ∃ w1, has_row (stored w1) o ∧ calls w' = calls w ++ [Placed (place_request o) (stored w1)] ∧
    outcome b c o (answer_of b (place_request o) w1) (stored w1) (stored w') r.
Proof.
  intros Hv Hid Hk. unfold send_order. unfold mbind at 1, M_bind at 1. pose proof (save_order_ticks store o w) as Ht.
  destruct (save_order_Ok store o w) as (w1 & E & Hrow & Hc & _). rewrite E in *. cbn in Ht. intros H. exists w1. split; [done|]. rewrite <- Hc.
  unfold mbind at 1, M_bind at 1 in H. destruct (try_place_spec b o w1) as (w2 & Hplace & Hst & Hc2 & Ht2). rewrite Hplace in H. unfold outcome.
  destruct (answer_of b (place_request o) w1) as [answer|e]; cbn in H.
  - destruct (record_answer_spec store b c now o answer w2 k Hid ltac:(lia)) as (w3 & o' & E3 & Hc3 & Ha & _ & Hf & Hr). rewrite E3 in H.
    injection H as <- <-. split; [congruence|]. exists o'. rewrite Hst in Hf, Hr. done.
  - destruct (submit_error_name e) as [name|]; cbn in H; [|injection H as <- <-; by rewrite Hst].
    unfold mbind at 1, M_bind at 1 in H. cbn [utc_now] in H. unfold mbind at 1, M_bind at 1 in H.
    match type of H with context [store_save_order store ?o0 ?w0] => destruct (save_order_Ok store o0 w0) as (w3 & Hs & Hrow3 & Hc3 & x & Hx & _) end.
    rewrite Hs in H. injection H as <- <-. cbn in Hc3, Hx. split; [congruence|]. eexists. split; [done|].
    split_and!; try done. rewrite Hx. cbn. unfold stored in *. cbn. by rewrite <- Hst.
Qed.

(** C10: What a submission leaves behind, on every branch. A submission that called the broker
    made exactly one call, for an order with the terms it was given, which was on record as
    PENDING. If the broker answered, the order returned has the answer's status, venue id,
    executed quantity, reason and child; it is stored, an attached child is stored beside it
    under its own row, and the fill of a paper order that filled at once is on record (no other
    answer records a fill). If a broker error, a timeout or a value error came instead, the order
    is returned and stored as UNKNOWN under that name, to be reconciled, never rejected; if any
    other exception escapes, the PENDING row stays. That the child's row does not replace the
    parent's needs what makes them two rows: identifiers drawn once, a table keyed by them, and a
    client identifier of at most 122 characters, so that the child's is not cut. *)
Theorem submission_outcome store b id a w w' r : submit_intent store b id a w = (w', r) → calls w' ≠ calls w →
  ∃ o at_call, calls w' = calls w ++ [Placed (place_request o) (stored at_call)] ∧ describes a o ∧
    recorded a (place_request o) (stored at_call) ∧
    outcome b (submit_candle a) o (answer_of b (place_request o) at_call) (stored at_call) (stored w') r.
Proof.
  intros Hsub Hsent. pose proof (runs_submit (eq a) store b id a eq_refl w) as Hruns. rewrite Hsub in Hruns.
  apply cycle_steps_calls in Hruns as (new & Hnew & Hall). cbn in Hnew.
  apply submit_shape in Hsub as [[(_ & H & _) _]|(w1 & now & instant & client & (_ & Hc & _) & Hsub)]; [done|].
  pose proof (intend_calls store id a now instant client (fresh_id (ticks w1)) (uuid7 w1).1) as Hcalls.
  assert ((uuid7 ≫= intend_and_send store b id a now instant client) w1 =
    intend_and_send store b id a now instant client (fresh_id (ticks w1)) (uuid7 w1).1) as Hm by done.
  rewrite Hm in Hsub. clear Hm. unfold intend_and_send, mbind at 1, M_bind at 1 in Hsub.
  destruct (intend store id a now instant client _ _) as [w2 [[o|]|e]]; cbn in Hcalls;
    [injection Hsub as <- <-; by rewrite Hcalls in Hsent| |injection Hsub as <- <-; by rewrite Hcalls in Hsent].
  unfold mbind at 1, M_bind at 1 in Hsub. cbn [uuid7] in Hsub.
  apply (send_order_spec _ _ _ _ _ _ _ _ (ticks w2)) in Hsub as (w3 & _ & Hc3 & Hout); [|done|done|cbn; lia].
  cbn in Hc3. rewrite Hcalls, Hc in Hc3. rewrite Hc3 in Hnew. apply app_inv_head in Hnew as <-.
  eexists _, w3. split; [done|]. split; [done|]. split; [|done]. by apply Forall_cons in Hall as [((? & <- & ?) & _) _].
Qed.
End Traces.

Section Cycle.
Context {venue : Venue} {surroundings : Surroundings} {dc : DecimalContext} {scope : CycleScope}.
Context {so : SetOrder} {dg : Digest} {risk_evidence : RiskEvidence}.

(** C8: Write-ahead. Whatever the venue answers, whatever fails and wherever an exception ends
    the cycle of a closed bar, the calls it made are appended to the earlier ones, each was made
    against a store that lies on the cycle's own run of store calls, and every order that was
    placed was by then on record: a PENDING row with exactly its terms, never answered, with the
    intent behind it. An order opens or adds only where the cycle was asked for entries or the
    document reprices; every other order has a purpose that reduces. *)
Theorem cycle_writes_ahead store i b allow_new_entries s w :
  let w' := (process_closed_bar store i b allow_new_entries s w).1 in
  let allowed a := reducing a ∨ entering a ∧ (allow_new_entries = true ∨ on_unfilled_entry (execution (cycle_strategy i)) = reprice) in
  rtc store_step (stored w) (stored w') ∧
  ∃ new, calls w' = calls w ++ new ∧ Forall (placed_in_order allowed (stored w) (stored w')) new.
Proof.
  intros w' allowed. assert (rtc (cycle_step allowed) w w') as Hrun.
  { apply runs_process_closed_bar; unfold allowed; [by left|by intros ? a ?; right; split; [|right]|by intros ? a ?; right; split; [|left]]. }
  split; [by eapply cycle_steps_store|by apply cycle_steps_calls].
Qed.

(** C11: Flattening only exits. Whatever the venue answers and whatever fails, flattening a book
    places nothing but marketable orders of purpose STOP, each on record before it was sent:
    it never opens, adds, or rests protection. *)
Theorem flatten_only_exits store b product candles strategy cooldown_bars s w :
  let w' := (flatten_residual_book store b product candles strategy cooldown_bars s w).1 in
  ∃ new, calls w' = calls w ++ new ∧
    Forall (placed_in_order (exit_submission IntentPurpose.STOP) (stored w) (stored w')) new.
Proof. cbn zeta. apply cycle_steps_calls. by apply runs_flatten_residual_book. Qed.

End Cycle.

(** ** Worked runs *)

#[local] Existing Instance resting_venue.
#[local] Existing Instance ticking.
#[local] Existing Instance default_context.

#[local] Notation submits a := (submit_intent (venue := resting_venue) (surroundings := ticking) BaseStore VenueBroker "d1" a).
#[local] Notation keyed_submission := (demo_submission (Some "k")).

Lemma first_submission_sends : calls (submits keyed_submission (opening_world demo_store)).1 ≠ [].
Proof. by vm_compute. Qed.

Lemma one_order_per_key_witness : ∃ w r, submits keyed_submission (opening_world demo_store) = (w, r) ∧ calls w ≠ [] ∧
  calls (submits keyed_submission w).1 = calls w.
Proof.
  pose proof first_submission_sends as Hsent. destruct (submits keyed_submission (opening_world demo_store)) as [w r] eqn:Hsub.
  exists w, r. split; [reflexivity|]. split; [exact Hsent|].
  assert (unused_ids (opening_world demo_store)) as Hun by (intros n _; reflexivity).
  exact (one_order_per_key BaseStore VenueBroker "d1" keyed_submission BaseStore VenueBroker "d1" keyed_submission "k" (λ _, True) _ w r w
    numbered_id_inj Hun eq_refl eq_refl Hsub Hsent (rtc_refl _ _)).
Defined.

Lemma submission_outcome_witness : ∃ w r o at_call, submits keyed_submission (opening_world demo_store) = (w, r) ∧
  calls w = [Placed (place_request o) (stored at_call)] ∧ describes keyed_submission o ∧
  outcome VenueBroker (submit_candle keyed_submission) o (answer_of VenueBroker (place_request o) at_call) (stored at_call) (stored w) r.
Proof.
  pose proof first_submission_sends as Hsent. destruct (submits keyed_submission (opening_world demo_store)) as [w r] eqn:Hsub.
  destruct (submission_outcome _ _ _ _ _ _ _ Hsub Hsent) as (o & w1 & Hc & Hd & _ & Ho).
  exists w, r, o, w1. split; [reflexivity|]. split; [exact Hc|]. by split.
Defined.

(** A venue that attaches a child: the parent and the child are two rows. *)
Definition bracketing_venue : Venue := {|
  venue_state := unit;
  venue_place_order r v := (v, Ok (SubmitResult.mk OrderStatus.OPEN "v1" d0 None None d0 (Some "v2")));
  venue_cancel_order := venue_cancel_order (Venue := resting_venue);
  venue_get_order := venue_get_order (Venue := resting_venue);
  venue_list_fills := venue_list_fills (Venue := resting_venue);
  venue_match_open_order o c := None;
  venue_maker_limit_price := venue_maker_limit_price (Venue := resting_venue);
  venue_find_order := None |}.

Example bracketed_rows :
  let '(w, _) := submit_intent (venue := bracketing_venue) (surroundings := ticking) BaseStore VenueBroker "d1" keyed_submission
    (mk_world (venue := bracketing_venue) (Shared demo_store) tt 0 empty_plan []) in
  (Order.venue_order_id <$> dict_values (orders (stored w))) = [Some "v1"; Some "v2"].
Proof. vm_compute. reflexivity. Qed.

(** * The operator's word and the venue's refusals

    The end of a cycle never undoes an operator's stop, and a protective order that the venue
    keeps refusing is retried at growing intervals and then held for the operator. *)

Section Operator.
Context {venue : Venue} {surroundings : Surroundings} {dc : DecimalContext}.

(** What a read of a book says of its row. *)
Lemma get_deployment_row store id w w' s : store_get_deployment store id w = (w', Ok s) →
  w' = w ∧ ∃ d : Deployment, row (stored w) id = Some d ∧ Deployment.status (DeploymentSnapshot.deployment s) = Deployment.status d
    ∧ Deployment.terms (DeploymentSnapshot.deployment s) = Deployment.terms d.
Proof.
  revert w' s. induction store as [|inner IH product]; intros w' s.
  - cbn. unfold get_accounting_snapshot, mbind, M_bind, read_store, pure, get_deployment, row.
    destruct (find_deployment (stored w) id) as [d|e] eqn:Hd; cbn; [|done]. intros [= <- <-]. split; [done|].
    exists d. by split; [apply find_deployment_Ok|].
  - cbn. unfold mbind, M_bind. destruct (store_get_deployment inner id w) as [w1 [s1|e]]; [|done].
    intros [= <- <-]. destruct (IH w1 s1 eq_refl) as (-> & d & Hd & Hs & Ht). split; [done|]. by exists d.
Qed.

Lemma save_deployment_row s d e r s' saved : ExecutionStore.save_deployment s d e r = Ok (s', saved) →
  row s' (Deployment.id d) = Some saved ∧ Deployment.status saved = Deployment.status d ∧ Deployment.terms saved = Deployment.terms d.
Proof.
  intros H. apply bind_Ok in H as (? & _ & H). apply bind_Ok in H as (current & _ & H). apply bind_Ok in H as (? & _ & H).
  unfold row. cbn zeta in H. case_ok H; injection H as <- <-; cbn; by rewrite dict_get_set.
Qed.

Lemma base_save_row d e r w w' saved : base_save_deployment d e r w = (w', Ok saved) →
  row (stored w') (Deployment.id d) = Some saved ∧ Deployment.status saved = Deployment.status d.
Proof.
  unfold base_save_deployment, on_backing, fenced_save_deployment, stored. destruct (backing w) as [s|fs].
  - destruct (ExecutionStore.save_deployment s d e r) as [[s' x]|] eqn:Hs; cbn; [|done]. intros [= <- <-].
    by apply save_deployment_row in Hs as (? & ? & _).
  - case_decide; [destruct (require_own_revision _ _); cbn; [|done]|]; cbn;
      (destruct (ExecutionStore.save_deployment _ _ _ _) as [[s' x]|] eqn:Hs; cbn; [|done]; intros [= <- <-];
       by apply save_deployment_row in Hs as (? & ? & _)).
Qed.

(** A save sets the status of the book's row, whatever view of the store it goes through. *)
Lemma save_row store d e r w w' saved : keyed (stored w) → store_save_deployment store d e r w = (w', Ok saved) →
  ∃ d', row (stored w') (Deployment.id d) = Some d' ∧ Deployment.status d' = Deployment.status d.
Proof.
  intros Hk. revert d e r w' saved. induction store as [|inner IH product]; intros d e r w' saved H; cbn in H.
  - exists saved. by eapply base_save_row.
  - destruct r as [r|]; [by eapply IH|]. unfold mbind at 1, M_bind at 1 in H.
    pose proof (get_deployment_row BaseStore (Deployment.id d) w) as Hget. cbn [store_get_deployment] in Hget.
    assert (get_accounting_snapshot inner (Deployment.id d) w = get_accounting_snapshot BaseStore (Deployment.id d) w) as Hsame by done.
    rewrite Hsame in H. destruct (get_accounting_snapshot BaseStore (Deployment.id d) w) as [w1 [current|]]; [|done].
    destruct (Hget w1 current eq_refl) as (-> & d0 & Hd0 & _ & Ht). unfold mbind, M_bind in H.
    destruct (store_save_deployment inner _ _ _ w) as [w2 [saved2|]] eqn:Hinner; [|done]. injection H as <- <-.
    apply IH in Hinner as (d' & Hd' & Hs'). exists d'. split; [|exact Hs'].
    assert (Deployment.id (scoped_parent current d product) = Deployment.id d) as <-; [|done].
    cbn. rewrite Ht. by apply Hk.
Qed.

Definition persisted_status (cycle operator : DeploymentStatus) : DeploymentStatus :=
  if bool_decide (cycle = DeploymentStatus.PAUSED) && negb (bool_decide (operator = DeploymentStatus.STOPPED))
  then DeploymentStatus.PAUSED else operator.

(** C12: The end of a cycle keeps the operator's word: whatever status the cycle worked with,
    the row's status afterwards is the one stored at that moment, except that a book the cycle
    paused is paused unless it was stopped. So a stop made during the cycle survives it, and a
    book becomes RUNNING only if its row says RUNNING already. *)
Theorem persisted_runtime_keeps_operator store s bar w w' s' d : keyed (stored w) →
  row (stored w) (Deployment.id (DeploymentSnapshot.deployment s)) = Some d →
  _persist_runtime store s bar w = (w', Ok s') →
  let cycle := Deployment.status (DeploymentSnapshot.deployment s) in
  ∃ d', row (stored w') (Deployment.id (DeploymentSnapshot.deployment s)) = Some d' ∧
    Deployment.status d' = persisted_status cycle (Deployment.status d) ∧
    Deployment.status (DeploymentSnapshot.deployment s') = Deployment.status d' ∧
    (Deployment.status d = DeploymentStatus.STOPPED → Deployment.status d' = DeploymentStatus.STOPPED) ∧
    (Deployment.status d' = DeploymentStatus.RUNNING → Deployment.status d = DeploymentStatus.RUNNING ∧ cycle ≠ DeploymentStatus.PAUSED).
Proof.
  intros Hk Hrow H. cbn zeta. unfold _persist_runtime, mbind at 1, M_bind at 1 in H.
  destruct (store_get_deployment store _ w) as [w1 [latest|]] eqn:Hlatest; [|done].
  apply get_deployment_row in Hlatest as (-> & d0 & Hd0 & Hs0 & _). rewrite Hrow in Hd0. injection Hd0 as <-.
  set (status := if _ && _ then _ else _) in H. assert (status = persisted_status
    (Deployment.status (DeploymentSnapshot.deployment s)) (Deployment.status d)) as Hstatus.
  { unfold status, persisted_status. by rewrite Hs0. }
  unfold save_change, mbind at 1, M_bind at 1 in H. cbn [utc_now] in H. unfold mbind, M_bind, save in H.
  match type of H with context [store_save_deployment store ?d1 None None ?w1] => set (d1' := d1) in *; set (w1' := w1) in * end.
  destruct (store_save_deployment store d1' None None w1') as [w2 [saved|]] eqn:Hsave; [|done].
  assert (keyed (stored w1')) as Hk' by done. destruct (save_row _ _ _ _ _ _ _ Hk' Hsave) as (d' & Hd' & Hs').
  apply get_deployment_row in H as (-> & d2 & Hd2 & Hs2 & _).
  assert (Deployment.id d1' = Deployment.id (DeploymentSnapshot.deployment s)) as Hid by done.
  rewrite Hid in Hd'. rewrite Hd' in Hd2. injection Hd2 as <-. exists d'. split; [done|].
  assert (Deployment.status d1' = status) as Hst by done. rewrite Hs', Hst, Hstatus. split; [done|].
  split; [by rewrite Hs2, Hs', Hst|]. unfold persisted_status.
  destruct (Deployment.status (DeploymentSnapshot.deployment s)), (Deployment.status d); done.
Qed.
End Operator.

Section Refusals.
Context {dc : DecimalContext}.

(** A refusal of the order in question for one reason. *)
Definition refused_for (matches : Order → bool) (reason : string) (o : Order) : Prop :=
  Order.status o = OrderStatus.REJECTED ∧ matches o = true ∧ rejected_reason o = reason.

(** The newest candidates are one unbroken run of the same refusal. *)
Definition newest_run (matches : Order → bool) (candidates : list Order) (count : Z) (reason : string) (newest : datetime) : Prop :=
  ∃ run rest, candidates = run ++ rest ∧ Z.of_nat (length run) = count ∧ Forall (refused_for matches reason) run ∧
    (∃ o, head run = Some o ∧ Order.updated_at o = newest) ∧ match rest with o :: _ => ¬ refused_for matches reason o | [] => True end.

Lemma rejection_scan_count matches l count run : count <= (rejection_scan matches l count run).1.
Proof.
  revert count run. induction l as [|o l IH]; intros count run; cbn; [lia|]. destruct (_ || _); cbn; [lia|].
  destruct run as [[reason t]|]; [destruct (bool_decide _); cbn; [|lia]|]; etrans; [|apply IH|..|apply IH]; lia.
Qed.

(** The rest of a run whose reason is known. *)
Lemma rejection_scan_run matches l count reason t :
  ∃ run rest, l = run ++ rest ∧ rejection_scan matches l count (Some (reason, t)) = (count + Z.of_nat (length run), Some (reason, t))
    ∧ Forall (refused_for matches reason) run ∧ match rest with o :: _ => ¬ refused_for matches reason o | [] => True end.
Proof.
  revert count. induction l as [|o l IH]; intros count; cbn; [exists [], []; by rewrite Z.add_0_r|].
  destruct (bool_decide (Order.status o = OrderStatus.REJECTED)) eqn:Hr; cbn; [|exists [], (o :: l)].
  2: { rewrite Z.add_0_r. split; [done|]. split; [done|]. split; [done|]. intros [H _]. by apply bool_decide_eq_false in Hr. }
  apply bool_decide_eq_true in Hr. destruct (matches o) eqn:Hm; cbn; [|exists [], (o :: l)].
  2: { rewrite Z.add_0_r. split; [done|]. split; [done|]. split; [done|]. intros (_ & H & _). congruence. }
  destruct (bool_decide (rejected_reason o = reason)) eqn:Hs; [apply bool_decide_eq_true in Hs|apply bool_decide_eq_false in Hs].
  - destruct (IH (count + 1)) as (run & rest & -> & Hscan & Hf & Hrest). exists (o :: run), rest. split; [done|].
    rewrite Hscan. split; [cbn; f_equal; lia|]. by split; [constructor|].
  - exists [], (o :: l). rewrite Z.add_0_r. split; [done|]. split; [done|]. split; [done|]. by intros (_ & _ & H).
Qed.

Lemma rejection_run_newest s label purposes matches r : _rejection_run s label purposes matches = Some r →
  1 <= rejection_count r ∧ newest_run matches
    (newest_created (List.filter (λ o, bool_decide (Order.intent_id o ∈ intents_for s purposes)) (DeploymentSnapshot.orders s)))
    (rejection_count r) (rejected_for r) (last_rejected_at r).
Proof.
  unfold _rejection_run. set (l := newest_created _). destruct l as [|o l]; [done|]. cbn.
  destruct (bool_decide (Order.status o = OrderStatus.REJECTED)) eqn:Hr; cbn; [|done]. apply bool_decide_eq_true in Hr.
  destruct (matches o) eqn:Hm; cbn; [|done].
  destruct (rejection_scan_run matches l (0 + 1) (rejected_reason o) (Order.updated_at o)) as (run & rest & -> & Hscan & Hf & Hrest).
  rewrite Hscan. destruct (_ =? 0) eqn:Hz; [done|]. intros [= <-]. cbn. split; [lia|].
  exists (o :: run), rest. split; [done|]. split; [cbn; lia|]. split; [by constructor|]. split; [by exists o|done].
Qed.

Lemma backoff_bounds n : 1 <= n → minute <= Z.min (_BACKOFF_BASE * 2 ^ (n - 1)) _BACKOFF_CAP <= 30 * minute.
Proof.
  intros Hn. assert (1 <= 2 ^ (n - 1)) as Hp by (apply Z.lt_pred_le; apply Z.pow_pos_nonneg; lia).
  assert (0 < minute) as Hm by done. unfold _BACKOFF_BASE, _BACKOFF_CAP. split; [apply Z.min_glb; nia|lia].
Qed.

(** Forty-one doublings of a minute are more than a duration holds; forty are not. *)
Lemma backoff_fits n : 1 <= n → timedelta_times _BACKOFF_BASE (2 ^ (n - 1)) =
  if n <=? 41 then Ok (_BACKOFF_BASE * 2 ^ (n - 1)) else Raise OverflowError.
Proof.
  intros Hn. unfold timedelta_times, _BACKOFF_BASE. assert (0 < minute) by done.
  assert (1000000000 * day <= minute * 2 ^ 41) as Hover by (by vm_compute).
  assert (minute * 2 ^ 40 < 1000000000 * day) as Hfits by (by vm_compute). destruct (Z.leb_spec n 41) as [Hle|Hgt].
  - assert (2 ^ (n - 1) <= 2 ^ 40) by (apply Z.pow_le_mono_r; lia). by destruct (Z.leb_spec (1000000000 * day) (minute * 2 ^ (n - 1))); [nia|].
  - assert (2 ^ 41 <= 2 ^ (n - 1)) by (apply Z.pow_le_mono_r; lia). by destruct (Z.leb_spec (1000000000 * day) (minute * 2 ^ (n - 1))); [|nia].
Qed.

(** C13: Protective orders the venue keeps refusing back off. The count is the length of the
    newest unbroken run of the same refusal of the same order, at least one. Up to the forty-first
    refusal the next attempt is between one and thirty minutes after the newest one, doubling with
    every refusal until the cap; and an attempt is held back exactly until then, or, from the fifth
    refusal on, for as long as the book shows the refusal to its operator. From the forty-second
    refusal on the delay is computed before it is capped and no longer fits a duration: both the
    time of the next attempt and the decision to hold back raise [OverflowError]. *)
Theorem refusals_back_off s label purposes matches r : _rejection_run s label purposes matches = Some r →
  newest_run matches
    (newest_created (List.filter (λ o, bool_decide (Order.intent_id o ∈ intents_for s purposes)) (DeploymentSnapshot.orders s)))
    (rejection_count r) (rejected_for r) (last_rejected_at r) ∧
  (rejection_count r <= 41 → ∃ next, retry_at r = Ok next ∧
    last_rejected_at r + minute <= next <= last_rejected_at r + 30 * minute ∧
    (rejection_count r <= 5 → next = last_rejected_at r + minute * 2 ^ (rejection_count r - 1)) ∧
    ∀ book now, ∃ held, rejection_latched book r now = Ok held ∧ (held = true ↔
      now < next ∨ 5 <= rejection_count r ∧
        String.prefix PROTECTIVE_REJECTED_PREFIX (default "" (Deployment.mismatch_detail (DeploymentSnapshot.deployment book))) = true)) ∧
  (42 <= rejection_count r → retry_at r = Raise OverflowError ∧ ∀ book now, rejection_latched book r now = Raise OverflowError).
Proof.
  intros [Hcount Hrun]%rejection_run_newest. split; [done|]. pose proof (backoff_bounds _ Hcount) as Hb.
  unfold rejection_latched, retry_at, MAX_IDENTICAL_REJECTIONS. rewrite backoff_fits by done.
  destruct (Z.leb_spec (rejection_count r) 41) as [Hle|Hgt]; cbn [mbind result_bind]; [|by split; [lia|]]. split; [|lia].
  intros _. eexists. split; [done|]. split; [lia|]. split.
  - intros H5. rewrite Z.min_l; [done|]. unfold _BACKOFF_BASE, _BACKOFF_CAP.
    assert (2 ^ (rejection_count r - 1) <= 2 ^ 4) as Hpow by (apply Z.pow_le_mono_r; lia). assert (0 < minute) by done. nia.
  - intros book now. eexists. split; [done|]. set (next := _ + Z.min _ _).
    destruct (Z.ltb_spec now next); [naive_solver|]. destruct (Z.ltb_spec (rejection_count r) 5).
    + split; [done|]. intros [?|[? _]]; lia.
    + split; [intros ->; right; split; [lia|done]|]. by intros [?|[_ ?]]; [lia|].
Qed.
End Refusals.

(** ** Worked books *)

#[local] Existing Instance resting_venue.
#[local] Existing Instance ticking.
#[local] Existing Instance default_context.

(** The operator stopped the book while a cycle was working with it. *)
Definition stopped_deployment : Deployment := with_runtime demo_deployment (demo_hour 3)
  (runtime_update None None None false (Some DeploymentStatus.STOPPED) None).
Definition stopped_store : Store := set_deployments empty_store [("d1", stopped_deployment)].
Definition running_view : DeploymentSnapshot := snapshot_of demo_store "d1" demo_deployment.
Definition end_of_cycle : World * result DeploymentSnapshot :=
  _persist_runtime BaseStore running_view (demo_hour 4) (opening_world stopped_store).

Lemma persisted_runtime_keeps_operator_witness : ∃ w' s' d', end_of_cycle = (w', Ok s') ∧
  row (stored w') "d1" = Some d' ∧ Deployment.status d' = DeploymentStatus.STOPPED.
Proof.
  destruct end_of_cycle as [w' r] eqn:Hend. assert (∃ s', r = Ok s') as [s' ->].
  { assert (end_of_cycle.2 = r) as <- by (rewrite Hend; reflexivity). destruct (end_of_cycle.2) eqn:H; [by eexists|].
    exfalso. revert H. vm_compute. discriminate. }
  destruct (persisted_runtime_keeps_operator BaseStore running_view (demo_hour 4) (opening_world stopped_store) w' s' stopped_deployment)
    as (d' & Hd & _ & _ & Hstop & _).
  - intros id d. unfold row. cbn. case_decide; [|discriminate]. intros [= <-]. by subst.
  - reflexivity.
  - exact Hend.
  - exists w', s', d'. split; [reflexivity|]. split; [exact Hd|]. apply Hstop. reflexivity.
Defined.

Definition refused_bracket (id : UUID) (at_ : datetime) : Order :=
  Order.set_venue_view (demo_order id SELL (of_Z 2)) None OrderStatus.REJECTED d0 (Some "INSUFFICIENT_FUND") None None at_.

(** Two refusals of one bracket, the second a minute after the first. *)
Definition refused_book : DeploymentSnapshot := DeploymentSnapshot.mk demo_deployment None
  [refused_bracket "o1" (demo_hour 1); refused_bracket "o2" (demo_hour 1 + minute)] []
  [{| OrderIntent.id := "io1"; OrderIntent.deployment_id := "d1"; OrderIntent.client_order_id := "co1";
      OrderIntent.purpose := IntentPurpose.BRACKET; OrderIntent.side := SELL; OrderIntent.kind := OrderKind.TRIGGER_BRACKET;
      OrderIntent.quantity := of_Z 2; OrderIntent.created_at := demo_hour 1; OrderIntent.candle_starts_at := demo_hour 1;
      OrderIntent.price := None; OrderIntent.stop_trigger_price := None; OrderIntent.take_profit_price := None;
      OrderIntent.status := OrderStatus.PENDING; OrderIntent.origin := IntentOrigin.RUNTIME; OrderIntent.idempotency_key := None;
      OrderIntent.product_id := "BTC-USD" |};
   {| OrderIntent.id := "io2"; OrderIntent.deployment_id := "d1"; OrderIntent.client_order_id := "co2";
      OrderIntent.purpose := IntentPurpose.BRACKET; OrderIntent.side := SELL; OrderIntent.kind := OrderKind.TRIGGER_BRACKET;
      OrderIntent.quantity := of_Z 2; OrderIntent.created_at := demo_hour 1; OrderIntent.candle_starts_at := demo_hour 1;
      OrderIntent.price := None; OrderIntent.stop_trigger_price := None; OrderIntent.take_profit_price := None;
      OrderIntent.status := OrderStatus.PENDING; OrderIntent.origin := IntentOrigin.RUNTIME; OrderIntent.idempotency_key := None;
      OrderIntent.product_id := "BTC-USD" |}] [] [] true [].

Definition refused_run : option SubmitRejection := _rejection_run refused_book "live bracket" [IntentPurpose.BRACKET] (λ _, true).

Lemma refusals_back_off_witness : ∃ r, refused_run = Some r ∧ rejection_count r = 2 ∧
  retry_at r = Ok (last_rejected_at r + minute * 2 ^ (2 - 1)).
Proof.
  destruct refused_run as [r|] eqn:Hrun; [|exfalso; revert Hrun; vm_compute; discriminate].
  destruct (refusals_back_off refused_book "live bracket" [IntentPurpose.BRACKET] (λ _, true) r Hrun) as (_ & Hfew & _).
  assert (rejection_count r = 2) as Hcount.
  { assert (option_map rejection_count refused_run = Some 2) as H by (vm_compute; reflexivity). rewrite Hrun in H. by injection H. }
  exists r. split; [reflexivity|]. split; [exact Hcount|]. rewrite Hcount in Hfew.
  destruct (Hfew ltac:(lia)) as (next & Hnext & _ & Hexact & _). rewrite Hnext, (Hexact ltac:(lia)). reflexivity.
Defined.

(** * A paper bar exits as the backtest's bar does

    The paper cycle and the backtest kernel are separate programs with one precedence of exits.
    For a paper position that mirrors a simulated one, on a bar whose take-profit did not trade,
    they take the same exit at the same price. *)

From S2P Require Broker KernelState Kernel ExitRules Scenario.

Section Parity.
Context {venue : Venue} {surroundings : Surroundings} {dc : DecimalContext} {scope : CycleScope}.
Context {so : SetOrder} {dg : Digest} {risk_evidence : RiskEvidence}.

(** A paper book holds what the simulation holds at a bar's offset. *)
Record mirrors (s : DeploymentSnapshot) (live : Position) (p : KernelState._Position) (offset : Z) (costs : KernelState._Costs)
    (cash : decimal) : Prop := {
  mirrors_held : DeploymentSnapshot.position s = Some live;
  mirrors_paper : Deployment.mode (DeploymentSnapshot.deployment s) = DeploymentMode.PAPER;
  mirrors_side : Position.side live = KernelState.position_side p;
  mirrors_stop : Position.stop_price live = KernelState.position_stop_price p;
  mirrors_quantity : Position.quantity live = KernelState.fill_quantity (KernelState.position_entry p);
  mirrors_cash : Deployment.cash (DeploymentSnapshot.deployment s) = cash;
  mirrors_bars : Runtime.bars_held (DeploymentSnapshot.deployment s) = offset - KernelState.entered_bar_index p;
  mirrors_margin : current_futures_book bound_futures_book (Some (Deployment.id (DeploymentSnapshot.deployment s))) ≫= FuturesBookState.margin
    = KernelState.margin <$> KernelState.futures costs;
  mirrors_open : flatten_requested s = false
}.

Lemma same_liquidation s live p offset costs cash c : mirrors s live p offset costs cash →
  Broker.spread_stressed (KernelState.fill_model costs) = false →
  ExitRules.liquidates p c costs cash = Ok (paper_liquidation_hit bound_futures_book s (Some live) c).
Proof.
  intros [_ Hpaper Hside _ Hq Hcash _ Hmargin _] Hplain. unfold ExitRules.liquidates, paper_liquidation_hit.
  rewrite bool_decide_eq_true_2 by done. rewrite Hmargin. cbn [negb]. destruct (KernelState.futures costs) as [terms|]; cbn; [|done].
  unfold liquidation_due. rewrite Hside, Hq, Hcash.
  destruct (KernelState.position_side p); unfold Broker.mark, Broker.ask, Broker.bid; by rewrite Hplain.
Qed.

Lemma same_stop s live p offset costs cash c : mirrors s live p offset costs cash →
  Broker.spread_stressed (KernelState.fill_model costs) = false →
  Kernel._stop_hit p c (KernelState.fill_model costs) = Ok (paper_stop_hit (Position.side live) c (Position.stop_price live)) ∧
  Kernel._stop_reference p c costs = Ok (paper_stop_fill_price (Position.side live) c (Position.stop_price live)).
Proof.
  intros [_ _ Hside Hstop _ _ _ _ _] Hplain. rewrite Hside, Hstop. unfold Kernel._stop_hit, Kernel._stop_reference, paper_stop_hit.
  destruct (KernelState.position_side p); unfold Broker.ask, Broker.bid, Broker.raw_for_ask, Broker.raw_for_bid; by rewrite Hplain.
Qed.

(** The position of a later view of the same bar: marked exactly when the exit rule matched. *)
Record carried (s s' : DeploymentSnapshot) (p' : Position) (mark : option datetime) : Prop := {
  carried_held : DeploymentSnapshot.position s' = Some p';
  carried_mark : Position.signal_exit_bar p' = mark;
  carried_mode : Deployment.mode (DeploymentSnapshot.deployment s') = Deployment.mode (DeploymentSnapshot.deployment s);
  carried_bars : Runtime.bars_held (DeploymentSnapshot.deployment s') = Runtime.bars_held (DeploymentSnapshot.deployment s);
  carried_open : flatten_requested s' = flatten_requested s
}.

(** C14: Paper and backtest exit alike. Take a paper position that mirrors a simulated one, on a
    bar where the spread is not stressed, the resting take-profit did not trade and the exit
    rule matched in both or in neither. If the simulation's decision for the bar is liquidation
    or a stop, the paper cycle is exactly that marketable exit, at the adverse extreme or at the
    simulation's own stop reference; otherwise it marks or trails and then protects, and the
    exit due then is the simulation's: the signal exit or the time exit at the close, or none. *)
Theorem paper_exits_match_backtest store i b c s live p offset costs cash record matched w :
  mirrors s live p offset costs cash →
  Broker.spread_stressed (KernelState.fill_model costs) = false → ExitRules.target_fills p c costs = Ok false →
  _evaluate_signal_exit store (cycle_strategy i) (cycle_bars i) c s w = (w, Ok (s, matched)) →
  matched = negb (offset =? KernelState.entered_bar_index p) && Kernel._signal_exit_matched record →
  let exits_by purpose price :=
    _marketable_exit store b (cycle_product i) c purpose price (Some (cycle_strategy i)) None s w in
  let bar := _exit_trail_and_protect store i b c s w in
  ∃ why, ExitRules.exit_decision p c record offset (cycle_strategy i) costs cash = Ok why ∧
    match why with
    | Some KernelState.liquidation =>
        bar = exits_by IntentPurpose.LIQUIDATION (match Position.side live with SHORT => high c | LONG => low c end)
    | Some KernelState.stop_loss => ∃ reference, Kernel._stop_reference p c costs = Ok reference ∧ bar = exits_by IntentPurpose.STOP reference
    | why =>
        bar = trail_and_protect store i b c matched false live s w ∧
        ∀ s' p', carried s s' p' (if matched then Some (starts_at c) else None) →
          due_on_bar c (cycle_strategy i) true p' s' =
            match why with
            | Some KernelState.signal => Some (IntentPurpose.SIGNAL_EXIT, close c)
            | Some KernelState.time_exit => Some (IntentPurpose.TIME_EXIT, close c)
            | _ => None
            end
    end.
Proof.
  intros Hm Hplain Htarget Heval Hmatched. cbn zeta. pose proof (same_liquidation _ _ _ _ _ _ c Hm Hplain) as Hliq.
  destruct (same_stop _ _ _ _ _ _ c Hm Hplain) as [Hstop Href].
  assert (_exit_trail_and_protect store i b c s w =
    (exited ← paper_exits_first store i b c live s;
     match exited with Some s => mret s | None => trail_and_protect store i b c matched false live s end) w) as Hbar.
  { unfold _exit_trail_and_protect. unfold mbind at 1, M_bind at 1. rewrite Heval, (mirrors_held _ _ _ _ _ _ Hm).
    by rewrite (bool_decide_eq_false_2 _) by (by rewrite (mirrors_paper _ _ _ _ _ _ Hm)). }
  rewrite Hbar. clear Hbar. unfold ExitRules.exit_decision. rewrite Hliq, Hstop. cbn [mbind result_bind].
  unfold paper_exits_first, paper_liquidation_if_due, _paper_stop_exit_if_hit.
  destruct (paper_liquidation_hit _ s (Some live) c) eqn:El; cbn [negb].
  { eexists. split; [done|]. cbn. unfold mbind, M_bind, mret, M_ret. destruct (_marketable_exit _ _ _ _ _ _ _ _ _ w) as [w1 [s1|e]]; reflexivity. }
  destruct (paper_stop_hit _ _ _) eqn:Es; cbn [negb].
  { eexists. split; [done|]. cbn. eexists. split; [exact Href|]. unfold mbind, M_bind, mret, M_ret.
    destruct (_marketable_exit _ _ _ _ _ _ _ _ _ w) as [w1 [s1|e]]; reflexivity. }
  rewrite Htarget. cbn [mbind result_bind]. rewrite <- Hmatched. pose proof (mirrors_bars _ _ _ _ _ _ Hm) as Hbars.
  pose proof (mirrors_open _ _ _ _ _ _ Hm) as Hopen. pose proof (mirrors_paper _ _ _ _ _ _ Hm) as Hpaper.
  assert (∀ s' p', carried s s' p' (if matched then Some (starts_at c) else None) → due_on_bar c (cycle_strategy i) true p' s' =
    if matched then Some (IntentPurpose.SIGNAL_EXIT, close c)
    else if max_bars_held (exits (cycle_strategy i)) <=? offset - KernelState.entered_bar_index p
    then Some (IntentPurpose.TIME_EXIT, close c) else None) as Hdue.
  { intros s' p' [Hheld Hmark Hmode Hb Ho]. unfold due_on_bar. rewrite Ho, Hopen, Hmark, Hb, Hbars, andb_false_r.
    destruct matched; [done|]. by rewrite andb_false_l. }
  destruct matched; [eexists; split; [done|]; split; [done|]; exact Hdue|].
  destruct (max_bars_held _ <=? _); eexists; (split; [done|]); (split; [done|]); exact Hdue.
Qed.
End Parity.

(** ** A worked bar

    Two units bought at 100 with a stop at 95, on a bar that opens at 103 and falls to 90. *)

#[local] Existing Instance resting_venue.
#[local] Existing Instance ticking.
#[local] Existing Instance default_context.
#[local] Existing Instance calm.
#[local] Existing Instance no_evidence.
#[local] Existing Instance insertion_order.
#[local] Instance blank_digest : Digest := {| digest _ _ := "" |}.

Definition falling_bar : Candle := {|
  starts_at := demo_hour 4; open := of_Z 103; high := of_Z 104; low := of_Z 90; close := of_Z 92; volume := of_Z 10 |}.

Definition simulated_fill : KernelState.BacktestFill := {|
  KernelState.candle_starts_at := demo_hour 1; KernelState.fill_price := of_Z 100; KernelState.fill_quantity := of_Z 2;
  KernelState.fill_notional := of_Z 200; KernelState.fill_fee := d0; KernelState.fee_rate := d0;
  KernelState.fill_reference_price := None; KernelState.fill_executable_side := None; KernelState.fill_spread_cost := None |}.

Definition simulated : KernelState._Position :=
  KernelState.mk_position simulated_fill (of_Z 95) (Some (of_Z 120)) 1 true None LONG 0 None None.

Definition held : Position :=
  Position.mk "d1" (of_Z 2) (of_Z 100) (of_Z 95) (Some (of_Z 120)) (demo_hour 1) (demo_hour 1) None LONG "BTC-USD" 0 None.

Definition holding_deployment : Deployment := with_runtime demo_deployment (demo_hour 3) (bars_held_change 3).
Definition holding_book : DeploymentSnapshot := DeploymentSnapshot.mk holding_deployment (Some held) [] [] [] [held] [] true [].

Definition demo_inputs : CycleInputs := {|
  cycle_strategy := demo_strategy;
  cycle_product := demo_product;
  cycle_bars := {| cycle_candles := [falling_bar]; cycle_htf_candles := []; cycle_extra_candles := ∅; cycle_reference_candles := ∅ |};
  cycle_policy := compiled_default_risk_policy; cycle_portfolio := []; cycle_base_available := None; cycle_marks := ∅;
  cycle_maker_fee := None |}.

Definition free_broker : Broker :=
  PaperBroker {| PaperRates.maker_fee_rate := d0; PaperRates.taker_fee_rate := d0; PaperRates.fee_per_unit := d0 |}.

Lemma paper_exits_match_backtest_witness : ∃ reference,
  Kernel._stop_reference simulated falling_bar Scenario.demo_costs = Ok reference ∧
  _exit_trail_and_protect BaseStore demo_inputs free_broker falling_bar holding_book (opening_world demo_store) =
    _marketable_exit BaseStore free_broker demo_product falling_bar IntentPurpose.STOP reference (Some demo_strategy) None holding_book
      (opening_world demo_store).
Proof.
  assert (mirrors holding_book held simulated 4 Scenario.demo_costs (of_Z 1000)) as Hm by (split; reflexivity).
  pose proof (paper_exits_match_backtest BaseStore demo_inputs free_broker falling_bar holding_book held simulated 4
    Scenario.demo_costs (of_Z 1000) None false (opening_world demo_store) Hm) as H. cbv zeta in H.
  destruct H as (why & Hwhy & Hbar); [reflexivity|vm_compute; reflexivity|reflexivity|reflexivity|].
  assert (why = Some KernelState.stop_loss) as ->; [|exact Hbar].
  assert (ExitRules.exit_decision simulated falling_bar None 4 demo_strategy Scenario.demo_costs (of_Z 1000) =
    Ok (Some KernelState.stop_loss)) as Hdecision by (vm_compute; reflexivity).
  cbn [cycle_strategy demo_inputs] in Hwhy. rewrite Hdecision in Hwhy. by injection Hwhy as <-.
Defined.
