(* ===== verification/Portfolio.v ===== *)
(** * Portfolio: the records and rules of a portfolio

    [portfolios/vocabulary.py], [values.py], [models.py], [allocation.py], [journal_changes.py]
    and [rules.py]. Weights, fractions and amounts travel as canonical decimal text, as in the
    code; [decimal_of] is [Decimal(text)]. Every change to a portfolio is planned here from the
    current aggregate and a validated command: a plan holds the next row, the complete next
    sleeve set and the journal the change appends.

    Left out: the summary line of a journal entry, which is display text built from names, the
    identifier drawn for an entry, and the trimming of names, notes and mandates. *)

From Stdlib Require Import Ascii.
From S2P Require Import Prelude Decimals DecimalFacts DecimalText Market Containers TradingModels FillLedger RiskModels.

Open Scope Z_scope.

(** ** Value types ([values.py]) *)

Notation chars := String.list_ascii_of_string.
Notation text := String.string_of_list_ascii.

(** [Decimal(text)] on the text of a validated field. *)
Definition decimal_of (t : string) : decimal := default d0 (parse_decimal (chars t)).

(** A full match: a whole number without leading zeros, then optionally a point and digits. *)
Definition _DECIMAL_TEXT (l : list ascii) : bool :=
  let '(whole, separator, fraction) := partition_dot l in
  match whole with
  | [] => false
  | c :: rest => (negb (Ascii.eqb c "0"%char) || bool_decide (rest = [])) && forallb is_decimal_digit whole
  end && (if separator : bool then bool_decide (fraction ≠ []) && forallb is_decimal_digit fraction else true).

(** [whole.lstrip("0") or "0"] *)
Fixpoint lstrip0 (l : list ascii) : list ascii :=
  match l with
  | c :: k => if Ascii.eqb c "0"%char then lstrip0 k else l
  | [] => []
  end.
Definition whole_digits (l : list ascii) : list ascii := match lstrip0 l with [] => ["0"%char] | k => k end.

Definition _MAX_DECIMAL_TEXT_LENGTH : nat := 40.

Definition canonical_decimal_text (value : string) (places : nat) : result string :=
  if (_MAX_DECIMAL_TEXT_LENGTH <? length (chars value))%nat || negb (_DECIMAL_TEXT (chars value))
  then Raise (ValueError "must be a non-negative plain decimal string such as '0.25'")
  else
    let '(whole, _, fraction) := partition_dot (chars value) in
    let fraction := rstrip0 fraction in
    if (places <? length fraction)%nat then Raise (ValueError "allows too many decimal places")
    else Ok (text (match fraction with [] => whole_digits whole | _ => whole_digits whole ++ "."%char :: fraction end)).

Definition _ranged (value : string) (places : nat) (minimum maximum : decimal) (minimum_inclusive maximum_inclusive : bool)
    : result string :=
  text ← canonical_decimal_text value places;
  let amount := decimal_of text in
  let above := if minimum_inclusive then (amount >=? minimum)%dec else (amount >? minimum)%dec in
  let below := if maximum_inclusive then (amount <=? maximum)%dec else (amount <? maximum)%dec in
  if above && below then Ok text else Raise (ValueError "out of range").

Definition FRACTION_PLACES : nat := 4.
Definition QUOTE_PLACES : nat := 8.
Definition MAX_SLEEVES : nat := 32.
Definition MAX_CAPITAL_QUOTE : decimal := Dec 1000000000000000 0.

Definition _weight_fraction (value : string) : result string := _ranged value FRACTION_PLACES d0 d1 false true.
Definition _reserve_fraction (value : string) : result string := _ranged value FRACTION_PLACES d0 d1 true false.
Definition _limit_fraction (value : string) : result string := _ranged value FRACTION_PLACES d0 d1 false true.
Definition _drawdown_fraction (value : string) : result string := _ranged value FRACTION_PLACES d0 d1 false false.
Definition _weekly_change_fraction (value : string) : result string := _ranged value FRACTION_PLACES d0 d1 false true.
Definition _quote_amount (value : string) : result string := _ranged value QUOTE_PLACES d0 MAX_CAPITAL_QUOTE false true.

(** A field of such a type holds what its validator returned. *)
Definition holds_value (validator : string → result string) (t : string) : bool := bool_decide (validator t = Ok t).

(** ** Records ([models.py]) *)

Module PortfolioMode.
Inductive PortfolioMode := paper | live.
#[global] Instance eq_dec : EqDecision PortfolioMode. Proof. solve_decision. Defined.
End PortfolioMode.
Notation PortfolioMode := PortfolioMode.PortfolioMode.

Module JournalKind.
Inductive JournalKind :=
  | created | settings_changed | sleeve_added | sleeve_updated | sleeve_removed | weights_changed | limits_changed
  | manager_changed | backtest_run | deployment_started | deployment_paused | deployment_resumed | deployment_stopped
  | breaker_tripped | breaker_reset | proposal_submitted | proposal_approved | proposal_declined | proposal_failed.
#[global] Instance eq_dec : EqDecision JournalKind. Proof. solve_decision. Defined.
End JournalKind.
Notation JournalKind := JournalKind.JournalKind.

Module JournalActor.
Inductive JournalActor := operator | system | manager.
#[global] Instance eq_dec : EqDecision JournalActor. Proof. solve_decision. Defined.
End JournalActor.
Notation JournalActor := JournalActor.JournalActor.

Module JournalChannel.
Inductive JournalChannel := browser | api | system.
#[global] Instance eq_dec : EqDecision JournalChannel. Proof. solve_decision. Defined.
End JournalChannel.
Notation JournalChannel := JournalChannel.JournalChannel.

Module JournalReason.
Inductive JournalReason := operator | strategy_deleted | manager_proposal | breaker.
#[global] Instance eq_dec : EqDecision JournalReason. Proof. solve_decision. Defined.
End JournalReason.
Notation JournalReason := JournalReason.JournalReason.

Module SleeveIssueCode.
Inductive SleeveIssueCode := strategy_invalid | quote_currency_mismatch | product_unknown.
#[global] Instance eq_dec : EqDecision SleeveIssueCode. Proof. solve_decision. Defined.
End SleeveIssueCode.
Notation SleeveIssueCode := SleeveIssueCode.SleeveIssueCode.

Module BreakerReason.
Inductive BreakerReason := PORTFOLIO_DAILY_LOSS_STOP | PORTFOLIO_DRAWDOWN_STOP.
#[global] Instance eq_dec : EqDecision BreakerReason. Proof. solve_decision. Defined.

Definition value (r : BreakerReason) : string :=
  match r with
  | PORTFOLIO_DAILY_LOSS_STOP => "PORTFOLIO_DAILY_LOSS_STOP"
  | PORTFOLIO_DRAWDOWN_STOP => "PORTFOLIO_DRAWDOWN_STOP"
  end.
End BreakerReason.
Notation BreakerReason := BreakerReason.BreakerReason.

Module PortfolioLimits.
Record PortfolioLimits := {
  max_total_exposure_fraction : string;
  max_per_asset_fraction : string;
  daily_loss_quote : option string;
  max_drawdown_fraction : option string
}.
#[global] Instance eq_dec : EqDecision PortfolioLimits. Proof. solve_decision. Defined.

Definition valid_portfolio_limits (l : PortfolioLimits) : bool :=
  holds_value _limit_fraction (max_total_exposure_fraction l) && holds_value _limit_fraction (max_per_asset_fraction l)
  && optional (holds_value _quote_amount) (daily_loss_quote l)
  && optional (holds_value _drawdown_fraction) (max_drawdown_fraction l).
End PortfolioLimits.
Notation PortfolioLimits := PortfolioLimits.PortfolioLimits.

Module ManagerPermissions.
Record ManagerPermissions := {
  may_rebalance : bool;
  max_weight_change_per_week : string;
  may_pause_sleeves : bool;
  may_propose_sleeves : bool
}.
#[global] Instance eq_dec : EqDecision ManagerPermissions. Proof. solve_decision. Defined.
End ManagerPermissions.
Notation ManagerPermissions := ManagerPermissions.ManagerPermissions.

Module ManagerSettings.
Record ManagerSettings := { mandate : string; permissions : ManagerPermissions }.
#[global] Instance eq_dec : EqDecision ManagerSettings. Proof. solve_decision. Defined.

Definition valid_manager (m : ManagerSettings) : bool :=
  holds_value _weekly_change_fraction (ManagerPermissions.max_weight_change_per_week (permissions m)).
End ManagerSettings.
Notation ManagerSettings := ManagerSettings.ManagerSettings.

Record JournalChange := { change_field : string; change_before : option string; change_after : option string }.

Module JournalDetail.
Record JournalDetail := {
  sleeve_id : option UUID;
  strategy_id : option UUID;
  strategy_name : option string;
  reason : option JournalReason;
  changes : list JournalChange;
  job_id : option UUID;
  result_fingerprint : option string;
  deployment_ids : list UUID;
  reason_code : option BreakerReason;
  proposal_id : option UUID;
  rationale : option string;
  note : option string
}.

(** [JournalDetail(reason=..., changes=...)] *)
Definition of_changes (r : JournalReason) (c : list JournalChange) : JournalDetail := {|
  sleeve_id := None; strategy_id := None; strategy_name := None; reason := Some r; changes := c; job_id := None;
  result_fingerprint := None; deployment_ids := []; reason_code := None; proposal_id := None; rationale := None; note := None |}.

(** [JournalDetail(sleeve_id=..., strategy_id=..., strategy_name=..., reason=..., changes=...)] *)
Definition of_sleeve (sleeve strategy : UUID) (name : string) (r : JournalReason) (c : list JournalChange) : JournalDetail := {|
  sleeve_id := Some sleeve; strategy_id := Some strategy; strategy_name := Some name; reason := Some r; changes := c;
  job_id := None; result_fingerprint := None; deployment_ids := []; reason_code := None; proposal_id := None;
  rationale := None; note := None |}.

(** [detail.model_copy(update={"reason": ..., "proposal_id": ...})] *)
Definition for_proposal (d : JournalDetail) (proposal : UUID) : JournalDetail := {|
  sleeve_id := sleeve_id d; strategy_id := strategy_id d; strategy_name := strategy_name d;
  reason := Some JournalReason.manager_proposal; changes := changes d; job_id := job_id d;
  result_fingerprint := result_fingerprint d; deployment_ids := deployment_ids d; reason_code := reason_code d;
  proposal_id := Some proposal; rationale := rationale d; note := note d |}.
End JournalDetail.
Notation JournalDetail := JournalDetail.JournalDetail.

Module JournalEntry.
Record JournalEntry := {
  portfolio_id : UUID;
  occurred_at : datetime;
  kind : JournalKind;
  actor : JournalActor;
  channel : JournalChannel;
  detail : JournalDetail;
  revision : Z
}.
End JournalEntry.
Notation JournalEntry := JournalEntry.JournalEntry.

Record MutationContext := { actor : JournalActor; channel : JournalChannel; occurred_at : datetime }.

Module SleeveBatchItem.
Record SleeveBatchItem := { strategy_id : UUID; weight_fraction : string; note : option string }.
End SleeveBatchItem.
Notation SleeveBatchItem := SleeveBatchItem.SleeveBatchItem.

Definition valid_item (i : SleeveBatchItem) : bool := holds_value _weight_fraction (SleeveBatchItem.weight_fraction i).

(** [require_distinct_strategies] *)
Definition distinct_strategies (items : list SleeveBatchItem) : bool := distinct (SleeveBatchItem.strategy_id <$> items).

Module PortfolioCreateRequest.
Record PortfolioCreateRequest := {
  name : string;
  mode : PortfolioMode;
  quote_currency : string;
  capital_quote : string;
  cash_reserve_fraction : string;
  limits : PortfolioLimits;
  manager : ManagerSettings;
  sleeves : list SleeveBatchItem
}.

Definition valid_create (r : PortfolioCreateRequest) : bool :=
  bool_decide (quote_currency r ∈ SPOT_QUOTE_CURRENCIES) && holds_value _quote_amount (capital_quote r)
  && holds_value _reserve_fraction (cash_reserve_fraction r) && PortfolioLimits.valid_portfolio_limits (limits r)
  && ManagerSettings.valid_manager (manager r) && (length (sleeves r) <=? MAX_SLEEVES)%nat && forallb valid_item (sleeves r)
  && distinct_strategies (sleeves r).
End PortfolioCreateRequest.
Notation PortfolioCreateRequest := PortfolioCreateRequest.PortfolioCreateRequest.

Module PortfolioUpdateRequest.
Record PortfolioUpdateRequest := {
  revision : Z;
  name : option string;
  capital_quote : option string;
  cash_reserve_fraction : option string;
  limits : option PortfolioLimits;
  manager : option ManagerSettings
}.

Definition valid_update (r : PortfolioUpdateRequest) : bool :=
  (1 <=? revision r) && optional (holds_value _quote_amount) (capital_quote r)
  && optional (holds_value _reserve_fraction) (cash_reserve_fraction r) && optional PortfolioLimits.valid_portfolio_limits (limits r)
  && optional ManagerSettings.valid_manager (manager r)
  && negb (bool_decide (name r = None) && bool_decide (capital_quote r = None) && bool_decide (cash_reserve_fraction r = None)
           && bool_decide (limits r = None) && bool_decide (manager r = None)).
End PortfolioUpdateRequest.
Notation PortfolioUpdateRequest := PortfolioUpdateRequest.PortfolioUpdateRequest.

Module SleeveAddRequest.
Record SleeveAddRequest := { revision : Z; strategy_id : UUID; weight_fraction : string; note : option string }.

Definition valid_add (r : SleeveAddRequest) : bool := (1 <=? revision r) && holds_value _weight_fraction (weight_fraction r).
End SleeveAddRequest.
Notation SleeveAddRequest := SleeveAddRequest.SleeveAddRequest.

Module SleevesAddRequest.
Record SleevesAddRequest := { revision : Z; sleeves : list SleeveBatchItem }.

Definition valid_add_batch (r : SleevesAddRequest) : bool :=
  (1 <=? revision r) && ((1 <=? length (sleeves r)) && (length (sleeves r) <=? MAX_SLEEVES))%nat
  && forallb valid_item (sleeves r) && distinct_strategies (sleeves r).
End SleevesAddRequest.
Notation SleevesAddRequest := SleevesAddRequest.SleevesAddRequest.

Module SleeveUpdateRequest.
Record SleeveUpdateRequest := { revision : Z; weight_fraction : option string; note : option string }.

Definition valid_sleeve_update (r : SleeveUpdateRequest) : bool :=
  (1 <=? revision r) && optional (holds_value _weight_fraction) (weight_fraction r)
  && negb (bool_decide (weight_fraction r = None) && bool_decide (note r = None)).
End SleeveUpdateRequest.
Notation SleeveUpdateRequest := SleeveUpdateRequest.SleeveUpdateRequest.

Module WeightAssignment.
Record WeightAssignment := { sleeve_id : UUID; weight_fraction : string }.
End WeightAssignment.
Notation WeightAssignment := WeightAssignment.WeightAssignment.

Definition valid_weights (weights : list WeightAssignment) (cash_reserve_fraction : option string) : bool :=
  ((1 <=? length weights) && (length weights <=? MAX_SLEEVES))%nat
  && forallb (λ w, holds_value _weight_fraction (WeightAssignment.weight_fraction w)) weights
  && optional (holds_value _reserve_fraction) cash_reserve_fraction.

Module SetWeightsRequest.
Record SetWeightsRequest := { revision : Z; weights : list WeightAssignment; cash_reserve_fraction : option string }.

Definition valid_set_weights (r : SetWeightsRequest) : bool := (1 <=? revision r) && valid_weights (weights r) (cash_reserve_fraction r).
End SetWeightsRequest.
Notation SetWeightsRequest := SetWeightsRequest.SetWeightsRequest.

Module Portfolio.
Record Portfolio := {
  portfolio_id : UUID;
  name : string;
  mode : PortfolioMode;
  quote_currency : string;
  capital_quote : string;
  cash_reserve_fraction : string;
  limits : PortfolioLimits;
  manager : ManagerSettings;
  revision : Z;
  created_at : datetime;
  updated_at : datetime
}.

(** [replace(portfolio, revision=portfolio.revision + 1, updated_at=now)] *)
Definition next (p : Portfolio) (now : datetime) : Portfolio := {|
  portfolio_id := portfolio_id p; name := name p; mode := mode p; quote_currency := quote_currency p;
  capital_quote := capital_quote p; cash_reserve_fraction := cash_reserve_fraction p; limits := limits p;
  manager := manager p; revision := revision p + 1; created_at := created_at p; updated_at := now |}.

(** [replace(portfolio, cash_reserve_fraction=reserve)] *)
Definition set_reserve (p : Portfolio) (reserve : string) : Portfolio := {|
  portfolio_id := portfolio_id p; name := name p; mode := mode p; quote_currency := quote_currency p;
  capital_quote := capital_quote p; cash_reserve_fraction := reserve; limits := limits p;
  manager := manager p; revision := revision p; created_at := created_at p; updated_at := updated_at p |}.

(** [replace(portfolio, name=..., capital_quote=..., limits=..., manager=...)] *)
Definition set_settings (p : Portfolio) (name' capital : string) (limits' : PortfolioLimits) (manager' : ManagerSettings)
    : Portfolio := {|
  portfolio_id := portfolio_id p; name := name'; mode := mode p; quote_currency := quote_currency p;
  capital_quote := capital; cash_reserve_fraction := cash_reserve_fraction p; limits := limits';
  manager := manager'; revision := revision p; created_at := created_at p; updated_at := updated_at p |}.
End Portfolio.
Notation Portfolio := Portfolio.Portfolio.

Module Sleeve.
Record Sleeve := {
  sleeve_id : UUID;
  portfolio_id : UUID;
  strategy_id : UUID;
  weight_fraction : string;
  note : option string;
  created_at : datetime;
  updated_at : datetime
}.

(** [replace(sleeve, weight_fraction=..., note=..., updated_at=...)] *)
Definition set_terms (s : Sleeve) (weight : string) (n : option string) (now : datetime) : Sleeve := {|
  sleeve_id := sleeve_id s; portfolio_id := portfolio_id s; strategy_id := strategy_id s; weight_fraction := weight;
  note := n; created_at := created_at s; updated_at := now |}.
End Sleeve.
Notation Sleeve := Sleeve.Sleeve.

Module SleeveStrategy.
Record SleeveStrategy := {
  strategy_id : UUID;
  name : string;
  product_id : option string;
  covered_product_ids : list string;
  timeframe : option string;
  valid : bool;
  current_fingerprint : option string
}.

Definition quote_currency (s : SleeveStrategy) : option string :=
  match product_id s with
  | Some product => if is_spot_product_id product
                    then match RiskModels.quote_currency product with Ok quote => Some quote | Raise _ => None end
                    else None
  | None => None
  end.
End SleeveStrategy.
Notation SleeveStrategy := SleeveStrategy.SleeveStrategy.

Record SleeveView := { sleeve : Sleeve; strategy : SleeveStrategy }.
Record PortfolioAggregate := { portfolio : Portfolio; sleeves : list SleeveView }.

(** [aggregate.sleeve(sleeve_id)] *)
Definition find_sleeve (a : PortfolioAggregate) (sleeve_id : UUID) : result SleeveView :=
  match List.find (λ v, bool_decide (Sleeve.sleeve_id (sleeve v) = sleeve_id)) (sleeves a) with
  | Some view => Ok view
  | None => Raise PortfolioSleeveNotFoundError
  end.

Definition sleeve_issues (view : SleeveView) (quote : string) : list SleeveIssueCode :=
  match SleeveStrategy.quote_currency (strategy view) with
  | None => [SleeveIssueCode.product_unknown]
  | Some q => if bool_decide (q = quote) then [] else [SleeveIssueCode.quote_currency_mismatch]
  end ++ (if SleeveStrategy.valid (strategy view) then [] else [SleeveIssueCode.strategy_invalid]).

Definition asset_of (product_id : string) : result string := base_currency product_id.

(** [utc_millisecond]: truncated to the millisecond. *)
Definition millisecond : Z := 1000.
Definition utc_millisecond (value : datetime) : datetime := value - value mod millisecond.

(** ** Allocation ([allocation.py]) *)

Record AssetAllocation := { asset : string; asset_weight : string; asset_sleeves : list UUID }.

Module AllocationSummary.
Record AllocationSummary := {
  allocated_fraction : string;
  cash_reserve_fraction : string;
  unallocated_fraction : string;
  allocated_quote : string;
  cash_reserve_quote : string;
  unallocated_quote : string;
  assets : list AssetAllocation;
  largest_asset : option AssetAllocation;
  largest_asset_within_limit : option bool
}.
End AllocationSummary.

Section Rules.
Context {dc : DecimalContext}.

(** Thousands separators, on digits given last first. *)
Fixpoint grouped_reversed (l : list ascii) : list ascii :=
  match l with
  | a :: b :: c :: ((_ :: _) as rest) => a :: b :: c :: ","%char :: grouped_reversed rest
  | _ => l
  end.

Definition percent_of (fraction : decimal) : string := canonical_text (fraction * of_Z 100)%dec ++ "%".
Definition percent_text (fraction : string) : string := percent_of (decimal_of fraction).

Definition quote_text_of (amount : decimal) (currency : string) : string :=
  let '(whole, separator, fraction) := partition_dot (canonical_decimal amount) in
  let negative := match whole with c :: _ => Ascii.eqb c "-"%char | [] => false end in
  let digits := if negative then tail whole else whole in
  text ((if negative then ["-"%char] else []) ++ rev (grouped_reversed (rev (whole_digits digits)))
        ++ (if separator : bool then ["."%char] else []) ++ fraction ++ [" "%char]) ++ currency.
Definition quote_text (amount currency : string) : string := quote_text_of (decimal_of amount) currency.

Definition sleeve_capital (capital_quote weight_fraction : string) : string :=
  canonical_text (decimal_of capital_quote * decimal_of weight_fraction)%dec.

Definition allocated_fraction (weights : list string) : decimal := dsum (decimal_of <$> weights).

Definition require_allocation (weights : list string) (cash_reserve_fraction : string) : result unit :=
  let total := (allocated_fraction weights + decimal_of cash_reserve_fraction)%dec in
  if (total >? d1)%dec then Raise (PortfolioValidationError "portfolio_allocation_exceeded") else Ok tt.

(** One sleeve's assets, each once, in the order its products name them. *)
Definition view_assets (view : SleeveView) : result (list string) :=
  assets ← result_mapM asset_of (SleeveStrategy.covered_product_ids (strategy view));
  Ok (dict_keys (fold_left (λ d a, dict_set a tt d) assets [])).

Definition add_to_asset (view : SleeveView) (held : dict string decimal * dict string (list UUID)) (a : string)
    : dict string decimal * dict string (list UUID) :=
  (dict_set a (default d0 (dict_get a held.1) + decimal_of (Sleeve.weight_fraction (sleeve view)))%dec held.1,
   dict_set a (default [] (dict_get a held.2) ++ [Sleeve.sleeve_id (sleeve view)]) held.2).

(** [(-weights[asset], asset)] *)
Definition heavier (weights : dict string decimal) (a b : string) : bool :=
  let weight x := default d0 (dict_get x weights) in
  match dcompare (neg (weight a)) (neg (weight b)) with Lt => true | Gt => false | Eq => String.leb a b end.

Definition _asset_allocations (views : list SleeveView) : result (list AssetAllocation) :=
  '(weights, members) ← foldM (λ held view, assets ← view_assets view; Ok (fold_left (add_to_asset view) assets held)) ([], []) views;
  Ok ((λ a, {| asset := a; asset_weight := canonical_text (default d0 (dict_get a weights));
               asset_sleeves := default [] (dict_get a members) |}) <$> sort_by (heavier weights) (dict_keys weights)).

Definition allocation_summary (aggregate : PortfolioAggregate) : result AllocationSummary.AllocationSummary :=
  let p := portfolio aggregate in
  let allocated := allocated_fraction ((λ v, Sleeve.weight_fraction (sleeve v)) <$> sleeves aggregate) in
  let reserve := decimal_of (Portfolio.cash_reserve_fraction p) in
  let unallocated := dmax d0 (d1 - allocated - reserve)%dec in
  let capital := decimal_of (Portfolio.capital_quote p) in
  assets ← _asset_allocations (sleeves aggregate);
  let largest := head assets in
  Ok {| AllocationSummary.allocated_fraction := canonical_text allocated;
        AllocationSummary.cash_reserve_fraction := canonical_text reserve;
        AllocationSummary.unallocated_fraction := canonical_text unallocated;
        AllocationSummary.allocated_quote := canonical_text (capital * allocated)%dec;
        AllocationSummary.cash_reserve_quote := canonical_text (capital * reserve)%dec;
        AllocationSummary.unallocated_quote := canonical_text (capital * unallocated)%dec;
        AllocationSummary.assets := assets;
        AllocationSummary.largest_asset := largest;
        AllocationSummary.largest_asset_within_limit :=
          (λ a, (decimal_of (asset_weight a) <=? decimal_of (PortfolioLimits.max_per_asset_fraction (Portfolio.limits p)))%dec)
          <$> largest |}.

(** ** Journal entries and field changes ([journal_changes.py]) *)

Definition _NONE_TEXT : string := "none".

Definition journal_entry (portfolio_id : UUID) (kind : JournalKind) (context : MutationContext) (revision : Z)
    (detail : JournalDetail) : JournalEntry := {|
  JournalEntry.portfolio_id := portfolio_id; JournalEntry.occurred_at := occurred_at context; JournalEntry.kind := kind;
  JournalEntry.actor := actor context; JournalEntry.channel := channel context; JournalEntry.detail := detail;
  JournalEntry.revision := revision |}.

Definition change_of (field : string) (before after : option string) : JournalChange :=
  {| change_field := field; change_before := before; change_after := after |}.

(** A proposed value that differs from the current one. *)
Definition changed {A} `{EqDecision A} (proposed : option A) (current : A) : option A :=
  match proposed with Some v => if decide (v = current) then None else Some v | None => None end.

Definition _settings_changes (p : Portfolio) (request : PortfolioUpdateRequest) : list JournalChange :=
  match changed (PortfolioUpdateRequest.name request) (Portfolio.name p) with
  | Some name => [change_of "name" (Some (Portfolio.name p)) (Some name)]
  | None => []
  end ++
  match changed (PortfolioUpdateRequest.capital_quote request) (Portfolio.capital_quote p) with
  | Some capital => [change_of "capital" (Some (quote_text (Portfolio.capital_quote p) (Portfolio.quote_currency p)))
                       (Some (quote_text capital (Portfolio.quote_currency p)))]
  | None => []
  end ++
  match changed (PortfolioUpdateRequest.cash_reserve_fraction request) (Portfolio.cash_reserve_fraction p) with
  | Some reserve => [change_of "cash reserve" (Some (percent_text (Portfolio.cash_reserve_fraction p))) (Some (percent_text reserve))]
  | None => []
  end.

Definition _limit_text (value : option string) (as_percent : bool) : string :=
  match value with
  | None => _NONE_TEXT
  | Some v => if as_percent then percent_text v else canonical_text (decimal_of v)
  end.

Definition limit_change (label : string) (before after : option string) (as_percent : bool) : list JournalChange :=
  if decide (before = after) then []
  else [change_of label (Some (_limit_text before as_percent)) (Some (_limit_text after as_percent))].

Definition _limits_changes (current : PortfolioLimits) (proposed : option PortfolioLimits) : list JournalChange :=
  match changed proposed current with
  | None => []
  | Some proposed =>
      limit_change "max total exposure" (Some (PortfolioLimits.max_total_exposure_fraction current))
        (Some (PortfolioLimits.max_total_exposure_fraction proposed)) true
      ++ limit_change "max per asset" (Some (PortfolioLimits.max_per_asset_fraction current))
        (Some (PortfolioLimits.max_per_asset_fraction proposed)) true
      ++ limit_change "daily loss stop" (PortfolioLimits.daily_loss_quote current) (PortfolioLimits.daily_loss_quote proposed) false
      ++ limit_change "max drawdown stop" (PortfolioLimits.max_drawdown_fraction current)
        (PortfolioLimits.max_drawdown_fraction proposed) true
  end.

Definition _on_off (value : bool) : string := if value then "on" else "off".

(** [text or _NONE_TEXT] *)
Definition or_none (value : string) : string := if decide (value = "") then _NONE_TEXT else value.

Definition flag_change (label : string) (old new : bool) : list JournalChange :=
  if Bool.eqb old new then [] else [change_of label (Some (_on_off old)) (Some (_on_off new))].

Definition _manager_changes (current : ManagerSettings) (proposed : option ManagerSettings) : list JournalChange :=
  match changed proposed current with
  | None => []
  | Some proposed =>
      let before := ManagerSettings.permissions current in
      let after := ManagerSettings.permissions proposed in
      (if decide (ManagerSettings.mandate proposed = ManagerSettings.mandate current) then []
       else [change_of "mandate" (Some (or_none (ManagerSettings.mandate current))) (Some (or_none (ManagerSettings.mandate proposed)))])
      ++ flag_change "may rebalance" (ManagerPermissions.may_rebalance before) (ManagerPermissions.may_rebalance after)
      ++ flag_change "may pause sleeves" (ManagerPermissions.may_pause_sleeves before) (ManagerPermissions.may_pause_sleeves after)
      ++ flag_change "may propose sleeves" (ManagerPermissions.may_propose_sleeves before) (ManagerPermissions.may_propose_sleeves after)
      ++ (if decide (ManagerPermissions.max_weight_change_per_week after = ManagerPermissions.max_weight_change_per_week before) then []
          else [change_of "max weight change per week" (Some (percent_text (ManagerPermissions.max_weight_change_per_week before)))
                  (Some (percent_text (ManagerPermissions.max_weight_change_per_week after)))])
  end.

(** ** Mutation plans ([rules.py]) *)

Record MutationPlan := { plan_portfolio : Portfolio; plan_sleeves : list Sleeve; plan_journal : list JournalEntry }.

Definition require_revision (p : Portfolio) (expected : Z) : result unit :=
  if (Portfolio.revision p =? expected)%Z then Ok tt else Raise (PortfolioRevisionConflictError (Portfolio.revision p)).

Definition view_weights (views : list SleeveView) : list string := (λ v, Sleeve.weight_fraction (sleeve v)) <$> views.

Definition _require_strategy_quote (s : SleeveStrategy) (p : Portfolio) : result unit :=
  match SleeveStrategy.quote_currency s with
  | None => Raise (PortfolioValidationError "portfolio_sleeve_product_unknown")
  | Some quote => if bool_decide (quote = Portfolio.quote_currency p) then Ok tt
                  else Raise (PortfolioValidationError "portfolio_sleeve_quote_mismatch")
  end.

(** [note or None] *)
Definition new_sleeve (p : Portfolio) (strategy_id sleeve_id : UUID) (weight : string) (note : option string) (now : datetime)
    : Sleeve := {|
  Sleeve.sleeve_id := sleeve_id; Sleeve.portfolio_id := Portfolio.portfolio_id p; Sleeve.strategy_id := strategy_id;
  Sleeve.weight_fraction := weight; Sleeve.note := truthy note; Sleeve.created_at := now; Sleeve.updated_at := now |}.

Definition _sleeve_added_entry (p : Portfolio) (s : SleeveStrategy) (weight : string) (sleeve_id : UUID) (revision : Z)
    (context : MutationContext) : JournalEntry :=
  journal_entry (Portfolio.portfolio_id p) JournalKind.sleeve_added context revision
    (JournalDetail.of_sleeve sleeve_id (SleeveStrategy.strategy_id s) (SleeveStrategy.name s) JournalReason.operator
       [change_of "weight" None (Some (percent_text weight))]).

(** [zip(strategies, items, sleeve_ids, strict=True)] *)
Fixpoint zip3_strict {A B C} (l : list A) (m : list B) (n : list C) : result (list (A * B * C)) :=
  match l, m, n with
  | [], [], [] => Ok []
  | a :: l, b :: m, c :: n => rest ← zip3_strict l m n; Ok ((a, b, c) :: rest)
  | _, _, _ => Raise (ValueError "zip() argument lengths differ")
  end.

Definition strategy_sleeve (views : list SleeveView) (strategy_id : UUID) : option UUID :=
  dict_get strategy_id (fold_left (λ d v, dict_set (Sleeve.strategy_id (sleeve v)) (Sleeve.sleeve_id (sleeve v)) d) views []).

Definition _plan_sleeves (p : Portfolio) (current : list SleeveView) (strategies : list SleeveStrategy)
    (items : list SleeveBatchItem) (sleeve_ids : list UUID) (context : MutationContext) : result MutationPlan :=
  _ ← result_mapM (λ s, match strategy_sleeve current (SleeveStrategy.strategy_id s) with
                        | Some existing => Raise (PortfolioSleeveExistsError existing)
                        | None => Ok tt
                        end) strategies;
  _ ← guard_or (length current + length items <=? MAX_SLEEVES)%nat (PortfolioValidationError "portfolio_sleeve_limit");
  _ ← result_mapM (λ s, _require_strategy_quote s p) strategies;
  _ ← require_allocation (view_weights current ++ (SleeveBatchItem.weight_fraction <$> items)) (Portfolio.cash_reserve_fraction p);
  let now := occurred_at context in
  rows ← zip3_strict strategies items sleeve_ids;
  Ok {| plan_portfolio := p;
        plan_sleeves := (sleeve <$> current) ++ ((λ '(s, i, id), new_sleeve p (SleeveStrategy.strategy_id s) id
          (SleeveBatchItem.weight_fraction i) (SleeveBatchItem.note i) now) <$> rows);
        plan_journal := (λ '(s, i, id), _sleeve_added_entry p s (SleeveBatchItem.weight_fraction i) id (Portfolio.revision p) context)
          <$> rows |}.

Definition plan_create (request : PortfolioCreateRequest) (portfolio_id : UUID) (context : MutationContext)
    (strategies : list SleeveStrategy) (sleeve_ids : list UUID) : result MutationPlan :=
  let now := occurred_at context in
  let p := {|
    Portfolio.portfolio_id := portfolio_id; Portfolio.name := PortfolioCreateRequest.name request;
    Portfolio.mode := PortfolioCreateRequest.mode request;
    Portfolio.quote_currency := PortfolioCreateRequest.quote_currency request;
    Portfolio.capital_quote := PortfolioCreateRequest.capital_quote request;
    Portfolio.cash_reserve_fraction := PortfolioCreateRequest.cash_reserve_fraction request;
    Portfolio.limits := PortfolioCreateRequest.limits request; Portfolio.manager := PortfolioCreateRequest.manager request;
    Portfolio.revision := 1; Portfolio.created_at := now; Portfolio.updated_at := now |} in
  let entry := journal_entry portfolio_id JournalKind.created context 1
    (JournalDetail.of_changes JournalReason.operator [
       change_of "mode" None (Some (match Portfolio.mode p with PortfolioMode.paper => "paper" | PortfolioMode.live => "live" end));
       change_of "quote_currency" None (Some (Portfolio.quote_currency p));
       change_of "capital_quote" None (Some (Portfolio.capital_quote p));
       change_of "cash_reserve_fraction" None (Some (Portfolio.cash_reserve_fraction p))]) in
  plan ← _plan_sleeves p [] strategies (PortfolioCreateRequest.sleeves request) sleeve_ids context;
  Ok {| plan_portfolio := plan_portfolio plan; plan_sleeves := plan_sleeves plan; plan_journal := entry :: plan_journal plan |}.

(** [text or current] *)
Definition or_current (proposed : option string) (current : string) : string := default current (truthy proposed).

Definition section_entry (p : Portfolio) (context : MutationContext) (kind : JournalKind) (changes : list JournalChange)
    : list JournalEntry :=
  match changes with
  | [] => []
  | _ => [journal_entry (Portfolio.portfolio_id p) kind context (Portfolio.revision p + 1)
            (JournalDetail.of_changes JournalReason.operator changes)]
  end.

Definition plan_update (current : PortfolioAggregate) (request : PortfolioUpdateRequest) (context : MutationContext)
    : result (option MutationPlan) :=
  let p := portfolio current in
  _ ← require_revision p (PortfolioUpdateRequest.revision request);
  let settings := _settings_changes p request in
  let limits := _limits_changes (Portfolio.limits p) (PortfolioUpdateRequest.limits request) in
  let manager := _manager_changes (Portfolio.manager p) (PortfolioUpdateRequest.manager request) in
  match settings ++ limits ++ manager with
  | [] => Ok None
  | _ =>
      let reserve := or_current (PortfolioUpdateRequest.cash_reserve_fraction request) (Portfolio.cash_reserve_fraction p) in
      _ ← require_allocation (view_weights (sleeves current)) reserve;
      Ok (Some {|
        plan_portfolio := Portfolio.set_settings (Portfolio.set_reserve (Portfolio.next p (occurred_at context)) reserve)
          (or_current (PortfolioUpdateRequest.name request) (Portfolio.name p))
          (or_current (PortfolioUpdateRequest.capital_quote request) (Portfolio.capital_quote p))
          (default (Portfolio.limits p) (PortfolioUpdateRequest.limits request))
          (default (Portfolio.manager p) (PortfolioUpdateRequest.manager request));
        plan_sleeves := sleeve <$> sleeves current;
        plan_journal := section_entry p context JournalKind.settings_changed settings
          ++ section_entry p context JournalKind.limits_changed limits
          ++ section_entry p context JournalKind.manager_changed manager |})
  end.

Definition plan_add_sleeve (current : PortfolioAggregate) (s : SleeveStrategy) (request : SleeveAddRequest) (sleeve_id : UUID)
    (context : MutationContext) : result MutationPlan :=
  let p := portfolio current in
  _ ← require_revision p (SleeveAddRequest.revision request);
  match List.find (λ v, bool_decide (Sleeve.strategy_id (sleeve v) = SleeveStrategy.strategy_id s)) (sleeves current) with
  | Some view => Raise (PortfolioSleeveExistsError (Sleeve.sleeve_id (sleeve view)))
  | None =>
      _ ← guard_or (length (sleeves current) <? MAX_SLEEVES)%nat (PortfolioValidationError "portfolio_sleeve_limit");
      _ ← _require_strategy_quote s p;
      _ ← require_allocation (view_weights (sleeves current) ++ [SleeveAddRequest.weight_fraction request])
            (Portfolio.cash_reserve_fraction p);
      let now := occurred_at context in
      Ok {| plan_portfolio := Portfolio.next p now;
            plan_sleeves := (sleeve <$> sleeves current) ++ [new_sleeve p (SleeveStrategy.strategy_id s) sleeve_id
              (SleeveAddRequest.weight_fraction request) (SleeveAddRequest.note request) now];
            plan_journal := [_sleeve_added_entry p s (SleeveAddRequest.weight_fraction request) sleeve_id
              (Portfolio.revision p + 1) context] |}
  end.

Definition plan_add_sleeves (current : PortfolioAggregate) (strategies : list SleeveStrategy) (request : SleevesAddRequest)
    (sleeve_ids : list UUID) (context : MutationContext) : result MutationPlan :=
  let p := portfolio current in
  _ ← require_revision p (SleevesAddRequest.revision request);
  _plan_sleeves (Portfolio.next p (occurred_at context)) (sleeves current) strategies (SleevesAddRequest.sleeves request)
    sleeve_ids context.

Definition _sleeve_detail (view : SleeveView) (change : JournalChange) : JournalDetail :=
  JournalDetail.of_sleeve (Sleeve.sleeve_id (sleeve view)) (Sleeve.strategy_id (sleeve view)) (SleeveStrategy.name (strategy view))
    JournalReason.operator [change].

(** [view.strategy.name[:64]] *)
Definition field_name (view : SleeveView) : string := String.substring 0 64 (SleeveStrategy.name (strategy view)).

Definition _sleeve_update_entries (view : SleeveView) (weight : string) (note : option string) (revision : Z)
    (context : MutationContext) : list JournalEntry :=
  let s := sleeve view in
  (if decide (weight = Sleeve.weight_fraction s) then []
   else [journal_entry (Sleeve.portfolio_id s) JournalKind.weights_changed context revision
           (_sleeve_detail view (change_of (field_name view) (Some (percent_text (Sleeve.weight_fraction s))) (Some (percent_text weight))))])
  ++ (if decide (note = Sleeve.note s) then []
      else [journal_entry (Sleeve.portfolio_id s) JournalKind.sleeve_updated context revision
              (_sleeve_detail view (change_of "note" (Sleeve.note s) note))]).

Definition plan_update_sleeve (current : PortfolioAggregate) (sleeve_id : UUID) (request : SleeveUpdateRequest)
    (context : MutationContext) : result (option MutationPlan) :=
  let p := portfolio current in
  _ ← require_revision p (SleeveUpdateRequest.revision request);
  view ← find_sleeve current sleeve_id;
  let s := sleeve view in
  let weight := or_current (SleeveUpdateRequest.weight_fraction request) (Sleeve.weight_fraction s) in
  let note := match SleeveUpdateRequest.note request with None => Sleeve.note s | Some n => truthy (Some n) end in
  if decide (weight = Sleeve.weight_fraction s ∧ note = Sleeve.note s) then Ok None
  else
    let is_this (v : SleeveView) := bool_decide (Sleeve.sleeve_id (sleeve v) = sleeve_id) in
    _ ← (if decide (weight = Sleeve.weight_fraction s) then Ok tt
         else require_allocation ((λ v, if is_this v then weight else Sleeve.weight_fraction (sleeve v)) <$> sleeves current)
                (Portfolio.cash_reserve_fraction p));
    let now := occurred_at context in
    Ok (Some {|
      plan_portfolio := Portfolio.next p now;
      plan_sleeves := (λ v, if is_this v then Sleeve.set_terms s weight note now else sleeve v) <$> sleeves current;
      plan_journal := _sleeve_update_entries view weight note (Portfolio.revision p + 1) context |}).

Definition plan_remove_sleeve (current : PortfolioAggregate) (sleeve_id : UUID) (expected_revision : option Z)
    (context : MutationContext) (strategy_deleted : bool) : result MutationPlan :=
  let p := portfolio current in
  _ ← match expected_revision with Some expected => require_revision p expected | None => Ok tt end;
  view ← find_sleeve current sleeve_id;
  let reason := if strategy_deleted then JournalReason.strategy_deleted else JournalReason.operator in
  Ok {| plan_portfolio := Portfolio.next p (occurred_at context);
        plan_sleeves := sleeve <$> List.filter (λ v, negb (bool_decide (Sleeve.sleeve_id (sleeve v) = sleeve_id))) (sleeves current);
        plan_journal := [journal_entry (Portfolio.portfolio_id p) JournalKind.sleeve_removed context (Portfolio.revision p + 1)
          (JournalDetail.of_sleeve sleeve_id (Sleeve.strategy_id (sleeve view)) (SleeveStrategy.name (strategy view)) reason
             [change_of "weight" (Some (percent_text (Sleeve.weight_fraction (sleeve view)))) None])] |}.

(** [{item.sleeve_id: item.weight_fraction for item in weights}] *)
Definition assigned_weights (weights : list WeightAssignment) : dict UUID string :=
  fold_left (λ d w, dict_set (WeightAssignment.sleeve_id w) (WeightAssignment.weight_fraction w) d) weights [].

(** Every sleeve named exactly once. *)
Definition names_every_sleeve (weights : list WeightAssignment) (current : PortfolioAggregate) : bool :=
  let assigned := assigned_weights weights in
  (length assigned =? length weights)%nat
  && bool_decide ((list_to_set (dict_keys assigned) : gset UUID)
                  = list_to_set ((λ v, Sleeve.sleeve_id (sleeve v)) <$> sleeves current)).

Definition plan_set_weights (current : PortfolioAggregate) (request : SetWeightsRequest) (context : MutationContext)
    : result (option MutationPlan) :=
  let p := portfolio current in
  _ ← require_revision p (SetWeightsRequest.revision request);
  let assigned := assigned_weights (SetWeightsRequest.weights request) in
  let weight_of (v : SleeveView) := default "" (dict_get (Sleeve.sleeve_id (sleeve v)) assigned) in
  _ ← guard_or (names_every_sleeve (SetWeightsRequest.weights request) current) (PortfolioValidationError "portfolio_weights_incomplete");
  let reserve := or_current (SetWeightsRequest.cash_reserve_fraction request) (Portfolio.cash_reserve_fraction p) in
  _ ← require_allocation (dict_values assigned) reserve;
  let moved := List.filter (λ v, negb (bool_decide (weight_of v = Sleeve.weight_fraction (sleeve v)))) (sleeves current) in
  let changes := ((λ v, change_of (field_name v) (Some (percent_text (Sleeve.weight_fraction (sleeve v)))) (Some (percent_text (weight_of v))))
                    <$> moved)
    ++ (if decide (reserve = Portfolio.cash_reserve_fraction p) then []
        else [change_of "cash reserve" (Some (percent_text (Portfolio.cash_reserve_fraction p))) (Some (percent_text reserve))]) in
  match changes with
  | [] => Ok None
  | _ =>
      let now := occurred_at context in
      Ok (Some {|
        plan_portfolio := Portfolio.set_reserve (Portfolio.next p now) reserve;
        plan_sleeves := (λ v, if bool_decide (weight_of v = Sleeve.weight_fraction (sleeve v)) then sleeve v
          else Sleeve.set_terms (sleeve v) (weight_of v) (Sleeve.note (sleeve v)) now) <$> sleeves current;
        plan_journal := [journal_entry (Portfolio.portfolio_id p) JournalKind.weights_changed context (Portfolio.revision p + 1)
          (JournalDetail.of_changes JournalReason.operator changes)] |})
  end.

End Rules.
