(* ===== verification/Proposals.v ===== *)
(** * Proposals: what the manager may change, and who decides

    [portfolios/proposals.py] and the settlements of [portfolios/manager.py]. The manager
    submits a proposal; it is applied at once inside its permissions, or it waits for a person.
    Only a pending proposal can be decided. A settlement is what a store writes in one
    transaction: the proposal, the plan of an applied change, and the journal.

    Left out: the summary line and the failure message, which are display text, and the shape of
    evidence references. *)

From S2P Require Import Prelude Decimals DecimalFacts DecimalText Market Containers TradingModels FillLedger RiskModels Portfolio.

Open Scope Z_scope.

Module EvidenceKind.
Inductive EvidenceKind := backtest_result | portfolio_backtest | study | decision | deployment.
#[global] Instance eq_dec : EqDecision EvidenceKind. Proof. solve_decision. Defined.
End EvidenceKind.

Record ProposalEvidence := { evidence_kind : EvidenceKind.EvidenceKind; evidence_ref : string; evidence_note : option string }.

Module ProposalStatus.
Inductive ProposalStatus := pending | applied | declined | failed | expired.
#[global] Instance eq_dec : EqDecision ProposalStatus. Proof. solve_decision. Defined.
End ProposalStatus.
Notation ProposalStatus := ProposalStatus.ProposalStatus.

Module DecidedBy.
Inductive DecidedBy := operator | manager | system.
#[global] Instance eq_dec : EqDecision DecidedBy. Proof. solve_decision. Defined.
End DecidedBy.
Notation DecidedBy := DecidedBy.DecidedBy.

(** [RebalanceChange | PauseSleeveChange | ResumeSleeveChange | AddSleeveChange] *)
Inductive ProposalChange :=
  | RebalanceChange (weights : list WeightAssignment) (cash_reserve_fraction : option string)
  | PauseSleeveChange (sleeve_id : UUID)
  | ResumeSleeveChange (sleeve_id : UUID)
  | AddSleeveChange (strategy_id : UUID) (weight_fraction : string) (note : option string).

Definition is_rebalance (c : ProposalChange) : bool := match c with RebalanceChange _ _ => true | _ => false end.

Definition valid_change (c : ProposalChange) : bool :=
  match c with
  | RebalanceChange weights reserve => valid_weights weights reserve
  | AddSleeveChange _ weight _ => holds_value _weight_fraction weight
  | _ => true
  end.

Definition PROPOSAL_TTL : timedelta := 7 * day.
Definition REBALANCE_BUDGET_WINDOW : timedelta := 7 * day.
Definition MAX_EVIDENCE : nat := 20.
Definition MAX_PENDING_PROPOSALS : nat := 20.

Module ProposalSubmitRequest.
Record ProposalSubmitRequest := {
  revision : Z;
  change : ProposalChange;
  rationale : string;
  evidence : list ProposalEvidence
}.

Definition valid_submission (r : ProposalSubmitRequest) : bool :=
  (1 <=? revision r) && valid_change (change r) && (length (evidence r) <=? MAX_EVIDENCE)%nat.
End ProposalSubmitRequest.
Notation ProposalSubmitRequest := ProposalSubmitRequest.ProposalSubmitRequest.

Record ProposalDecisionRequest := { decision_request_note : option string; i_understand_live : bool }.

Module Proposal.
Record Proposal := {
  proposal_id : UUID;
  portfolio_id : UUID;
  status : ProposalStatus;
  rationale : string;
  change : ProposalChange;
  evidence : list ProposalEvidence;
  base_revision : Z;
  channel : JournalChannel;
  approval_reason : option string;
  weight_moved : option string;
  created_at : datetime;
  expires_at : datetime;
  decided_at : option datetime;
  decided_by : option DecidedBy;
  decision_note : option string;
  auto_applied : bool;
  applied_revision : option Z;
  failure_code : option string
}.

(** [model_copy(update={"status": "expired", "decided_at": now, "decided_by": "system"})] *)
Definition set_expired (p : Proposal) (now : datetime) : Proposal := {|
  proposal_id := proposal_id p; portfolio_id := portfolio_id p; status := ProposalStatus.expired; rationale := rationale p;
  change := change p; evidence := evidence p; base_revision := base_revision p; channel := channel p;
  approval_reason := approval_reason p; weight_moved := weight_moved p; created_at := created_at p;
  expires_at := expires_at p; decided_at := Some now; decided_by := Some DecidedBy.system;
  decision_note := decision_note p; auto_applied := auto_applied p; applied_revision := applied_revision p;
  failure_code := failure_code p |}.

(** [manager._decided] *)
Definition _decided (p : Proposal) (status' : ProposalStatus) (by_ : DecidedBy) (at_ : datetime) (note : option string)
    (auto : bool) (revision : option Z) (code : option string) : Proposal := {|
  proposal_id := proposal_id p; portfolio_id := portfolio_id p; status := status'; rationale := rationale p;
  change := change p; evidence := evidence p; base_revision := base_revision p; channel := channel p;
  approval_reason := approval_reason p; weight_moved := weight_moved p; created_at := created_at p;
  expires_at := expires_at p; decided_at := Some at_; decided_by := Some by_;
  decision_note := note; auto_applied := auto; applied_revision := revision; failure_code := code |}.
End Proposal.
Notation Proposal := Proposal.Proposal.

Record ProposalSettlement := { settled_proposal : Proposal; settled_plan : option MutationPlan; settled_journal : list JournalEntry }.

Record ApprovalRequirement := { auto_apply : bool; approval_reason : option string; requirement_moved : option decimal }.

Section Proposals.
Context {dc : DecimalContext}.

(** [{view.sleeve.sleeve_id: Decimal(view.sleeve.weight_fraction)}] *)
Definition current_weights (a : PortfolioAggregate) : dict UUID decimal :=
  fold_left (λ d v, dict_set (Sleeve.sleeve_id (sleeve v)) (decimal_of (Sleeve.weight_fraction (sleeve v))) d) (sleeves a) [].

Definition weight_moved (a : PortfolioAggregate) (weights : list WeightAssignment) : result decimal :=
  if negb (names_every_sleeve weights a) then Raise (PortfolioValidationError "portfolio_weights_incomplete")
  else
    let proposed := assigned_weights weights in
    let after (key : UUID) := decimal_of (default "" (dict_get key proposed)) in
    let rises := (λ '(key, before), dmax d0 (after key - before)%dec) <$> current_weights a in
    let falls := (λ '(key, before), dmax d0 (before - after key)%dec) <$> current_weights a in
    Ok (dmax (dsum rises) (dsum falls)).

Definition _rebalance_requirement (a : PortfolioAggregate) (moved moved_this_week : decimal) : ApprovalRequirement :=
  let p := portfolio a in
  let permissions := ManagerSettings.permissions (Portfolio.manager p) in
  let waits why := {| auto_apply := false; approval_reason := Some why; requirement_moved := Some moved |} in
  if bool_decide (Portfolio.mode p = PortfolioMode.live)
  then waits "This is a live portfolio: a rebalance moves real capital and needs approval."
  else if negb (ManagerPermissions.may_rebalance permissions) then waits "Rebalancing needs approval: may_rebalance is off."
  else
    let budget := decimal_of (ManagerPermissions.max_weight_change_per_week permissions) in
    let remaining := dmax d0 (budget - moved_this_week)%dec in
    if (moved >? remaining)%dec
    then waits ("Moves " ++ percent_of moved ++ "; only " ++ percent_of remaining ++ " of the " ++ percent_of budget
                ++ " weekly auto-apply budget is left.")%string
    else {| auto_apply := true; approval_reason := None; requirement_moved := Some moved |}.

Definition approval_requirement (a : PortfolioAggregate) (change : ProposalChange) (moved_this_week : decimal)
    : result ApprovalRequirement :=
  let waits why := Ok {| auto_apply := false; approval_reason := Some why; requirement_moved := None |} in
  match change with
  | PauseSleeveChange _ =>
      if ManagerPermissions.may_pause_sleeves (ManagerSettings.permissions (Portfolio.manager (portfolio a)))
      then Ok {| auto_apply := true; approval_reason := None; requirement_moved := None |}
      else waits "Pausing a sleeve needs approval: may_pause_sleeves is off."
  | ResumeSleeveChange _ => waits "Resuming a sleeve always needs a person's approval."
  | AddSleeveChange _ _ _ => waits "Adding a sleeve always needs a person's approval."
  | RebalanceChange weights _ => moved ← weight_moved a weights; Ok (_rebalance_requirement a moved moved_this_week)
  end.

Definition expiry (created_at : datetime) : datetime := created_at + PROPOSAL_TTL.

(** ** Settlements ([manager.py]) *)

(** [_tag_plan] *)
Definition _tag_plan (plan : MutationPlan) (proposal_id : UUID) : MutationPlan := {|
  plan_portfolio := plan_portfolio plan; plan_sleeves := plan_sleeves plan;
  plan_journal := (λ e, {| JournalEntry.portfolio_id := JournalEntry.portfolio_id e;
      JournalEntry.occurred_at := JournalEntry.occurred_at e; JournalEntry.kind := JournalEntry.kind e;
      JournalEntry.actor := JournalEntry.actor e; JournalEntry.channel := JournalEntry.channel e;
      JournalEntry.detail := JournalDetail.for_proposal (JournalEntry.detail e) proposal_id;
      JournalEntry.revision := JournalEntry.revision e |}) <$> plan_journal plan |}.

(** [sleeve_id] is the identifier drawn for an added sleeve. *)
Definition _plan_change (current : PortfolioAggregate) (change : ProposalChange) (strategy : option SleeveStrategy)
    (context : MutationContext) (proposal_id sleeve_id : UUID) : result (option MutationPlan) :=
  let revision := Portfolio.revision (portfolio current) in
  match change with
  | RebalanceChange weights reserve =>
      plan ← plan_set_weights current {| SetWeightsRequest.revision := revision; SetWeightsRequest.weights := weights;
               SetWeightsRequest.cash_reserve_fraction := reserve |} context;
      match plan with
      | None => Raise (PortfolioValidationError "portfolio_proposal_no_change")
      | Some plan => Ok (Some (_tag_plan plan proposal_id))
      end
  | AddSleeveChange strategy_id weight note =>
      match strategy with
      | None => Raise (PortfolioValidationError "portfolio_proposal_invalid")
      | Some s =>
          plan ← plan_add_sleeve current s {| SleeveAddRequest.revision := revision; SleeveAddRequest.strategy_id := strategy_id;
                   SleeveAddRequest.weight_fraction := weight; SleeveAddRequest.note := note |} sleeve_id context;
          Ok (Some (_tag_plan plan proposal_id))
      end
  | _ => Ok None
  end.

Definition _proposal_entry (current : PortfolioAggregate) (p : Proposal) (kind : JournalKind) (context : MutationContext)
    : JournalEntry :=
  journal_entry (Portfolio.portfolio_id (portfolio current)) kind context (Portfolio.revision (portfolio current)) {|
    JournalDetail.sleeve_id := None; JournalDetail.strategy_id := None; JournalDetail.strategy_name := None;
    JournalDetail.reason := Some JournalReason.manager_proposal; JournalDetail.changes := []; JournalDetail.job_id := None;
    JournalDetail.result_fingerprint := None; JournalDetail.deployment_ids := []; JournalDetail.reason_code := None;
    JournalDetail.proposal_id := Some (Proposal.proposal_id p); JournalDetail.rationale := Some (Proposal.rationale p);
    JournalDetail.note := Proposal.decision_note p |}.

(** A new proposal, planned under the portfolio's lock: pending, or applied when it may be. *)
Definition _submission (current : PortfolioAggregate) (request : ProposalSubmitRequest) (moved : decimal)
    (strategy : option SleeveStrategy) (proposal_id sleeve_id : UUID) (context : MutationContext) : result ProposalSettlement :=
  _ ← require_revision (portfolio current) (ProposalSubmitRequest.revision request);
  let change := ProposalSubmitRequest.change request in
  plan ← _plan_change current change strategy context proposal_id sleeve_id;
  requirement ← approval_requirement current change moved;
  let applied := auto_apply requirement && is_rebalance change in
  let now := occurred_at context in
  let p := {|
    Proposal.proposal_id := proposal_id; Proposal.portfolio_id := Portfolio.portfolio_id (portfolio current);
    Proposal.status := if applied then ProposalStatus.applied else ProposalStatus.pending;
    Proposal.rationale := ProposalSubmitRequest.rationale request; Proposal.change := change;
    Proposal.evidence := ProposalSubmitRequest.evidence request;
    Proposal.base_revision := Portfolio.revision (portfolio current); Proposal.channel := channel context;
    Proposal.approval_reason := approval_reason requirement;
    Proposal.weight_moved := canonical_text <$> requirement_moved requirement;
    Proposal.created_at := now; Proposal.expires_at := expiry now;
    Proposal.decided_at := if applied then Some now else None;
    Proposal.decided_by := if applied then Some DecidedBy.manager else None; Proposal.decision_note := None;
    Proposal.auto_applied := applied;
    Proposal.applied_revision := if applied then (λ plan, Portfolio.revision (plan_portfolio plan)) <$> plan else None;
    Proposal.failure_code := None |} in
  Ok {| settled_proposal := p; settled_plan := if applied then plan else None;
        settled_journal := [_proposal_entry current p JournalKind.proposal_submitted context] |}.

Definition _require_pending (p : Proposal) : result unit :=
  if bool_decide (Proposal.status p = ProposalStatus.pending) then Ok tt
  else Raise (PortfolioConflictError "portfolio_proposal_not_pending").

Definition _failure (current : PortfolioAggregate) (stored : Proposal) (code : string) (context : MutationContext)
    : result ProposalSettlement :=
  _ ← _require_pending stored;
  let by_ := if bool_decide (actor context = JournalActor.operator) then DecidedBy.operator else DecidedBy.system in
  let p := Proposal._decided stored ProposalStatus.failed by_ (occurred_at context) None false None
             (Some (String.substring 0 64 code)) in
  let system := {| actor := JournalActor.system; channel := JournalChannel.system; occurred_at := occurred_at context |} in
  Ok {| settled_proposal := p; settled_plan := None;
        settled_journal := [_proposal_entry current p JournalKind.proposal_failed system] |}.

(** [except PortfolioValidationError as error], with its code: the class and its subclasses. *)
Definition validation_code (e : error) : option string :=
  match e with
  | PortfolioValidationError code | PortfolioConflictError code => Some code
  | PortfolioSleeveExistsError _ => Some "portfolio_sleeve_exists"
  | _ => None
  end.

Definition _approval (current : PortfolioAggregate) (stored : Proposal) (strategy : option SleeveStrategy) (note : option string)
    (sleeve_id : UUID) (context : MutationContext) : result ProposalSettlement :=
  _ ← _require_pending stored;
  match _plan_change current (Proposal.change stored) strategy context (Proposal.proposal_id stored) sleeve_id with
  | Raise e => match validation_code e with Some code => _failure current stored code context | None => Raise e end
  | Ok None => _failure current stored "portfolio_proposal_invalid" context
  | Ok (Some plan) =>
      let p := Proposal._decided stored ProposalStatus.applied DecidedBy.operator (occurred_at context) note false
                 (Some (Portfolio.revision (plan_portfolio plan))) None in
      Ok {| settled_proposal := p; settled_plan := Some plan;
            settled_journal := [_proposal_entry current p JournalKind.proposal_approved context] |}
  end.

Definition _closing (current : PortfolioAggregate) (stored : Proposal) (status : ProposalStatus) (context : MutationContext)
    (note : option string) : result ProposalSettlement :=
  _ ← _require_pending stored;
  let applied := bool_decide (status = ProposalStatus.applied) in
  let p := Proposal._decided stored status DecidedBy.operator (occurred_at context) note false
             (if applied then Some (Portfolio.revision (portfolio current)) else None) None in
  Ok {| settled_proposal := p; settled_plan := None;
        settled_journal := [_proposal_entry current p
          (if applied then JournalKind.proposal_approved else JournalKind.proposal_declined) context] |}.

(** The settlement of a pause the manager was allowed to make. *)
Definition auto_applied_pause (current : PortfolioAggregate) (stored : Proposal) (context : MutationContext)
    : result ProposalSettlement :=
  _ ← _require_pending stored;
  Ok {| settled_proposal := Proposal._decided stored ProposalStatus.applied DecidedBy.manager (occurred_at context) None true
          (Some (Portfolio.revision (portfolio current))) None;
        settled_plan := None; settled_journal := [] |}.

End Proposals.
