(* ===== verification/PortfolioStore.v ===== *)
(** * PortfolioStore: portfolios at rest ([portfolios/store_memory.py])

    [InMemoryPortfolioStore], which mirrors the PostgreSQL store: every mutation re-reads the
    aggregate, plans the change with the rules of [Portfolio] and writes the plan and its journal
    together, under one lock. An operation is a function of the state it finds when it holds the
    lock; what it read before (a strategy's facts, the deployments) is an argument, so it may be
    stale. Drawn identifiers are arguments. Backtest jobs and results are not modelled. *)

From S2P Require Import Prelude Decimals DecimalFacts DecimalText Market Containers TradingModels FillLedger RiskModels.
From S2P Require Import EntryLimits Portfolio Proposals.

Open Scope Z_scope.

(** [PortfolioRuntimeState] *)
Module RuntimeState.
Record RuntimeState := {
  portfolio_id : UUID;
  run_started_at : option datetime;
  breaker_reason : option BreakerReason;
  breaker_detail : option string;
  breaker_latched_at : option datetime;
  day_open_equity : option decimal;
  day_open_at : option datetime;
  high_water_mark_equity : option decimal;
  last_equity : option decimal;
  last_evaluated_at : option datetime;
  revision : Z
}.

Definition never_run (id : UUID) : RuntimeState := {|
  portfolio_id := id; run_started_at := None; breaker_reason := None; breaker_detail := None; breaker_latched_at := None;
  day_open_equity := None; day_open_at := None; high_water_mark_equity := None; last_equity := None;
  last_evaluated_at := None; revision := 0 |}.

Definition breaker_latched (r : RuntimeState) : bool := negb (bool_decide (breaker_reason r = None)).

(** [replace(state, revision=...)] *)
Definition set_revision (r : RuntimeState) (n : Z) : RuntimeState := {|
  portfolio_id := portfolio_id r; run_started_at := run_started_at r; breaker_reason := breaker_reason r;
  breaker_detail := breaker_detail r; breaker_latched_at := breaker_latched_at r; day_open_equity := day_open_equity r;
  day_open_at := day_open_at r; high_water_mark_equity := high_water_mark_equity r; last_equity := last_equity r;
  last_evaluated_at := last_evaluated_at r; revision := n |}.

(** [replace(state, day_open_equity=..., day_open_at=..., high_water_mark_equity=..., last_equity=..., last_evaluated_at=...)] *)
Definition set_baselines (r : RuntimeState) (open : decimal) (open_at : datetime) (peak equity : decimal) (now : datetime)
    : RuntimeState := {|
  portfolio_id := portfolio_id r; run_started_at := run_started_at r; breaker_reason := breaker_reason r;
  breaker_detail := breaker_detail r; breaker_latched_at := breaker_latched_at r; day_open_equity := Some open;
  day_open_at := Some open_at; high_water_mark_equity := Some peak; last_equity := Some equity;
  last_evaluated_at := Some now; revision := revision r |}.

(** [replace(state, run_started_at=now)] *)
Definition set_run (r : RuntimeState) (now : datetime) : RuntimeState := {|
  portfolio_id := portfolio_id r; run_started_at := Some now; breaker_reason := breaker_reason r;
  breaker_detail := breaker_detail r; breaker_latched_at := breaker_latched_at r; day_open_equity := day_open_equity r;
  day_open_at := day_open_at r; high_water_mark_equity := high_water_mark_equity r; last_equity := last_equity r;
  last_evaluated_at := last_evaluated_at r; revision := revision r |}.

(** [replace(state, breaker_reason=..., breaker_detail=..., breaker_latched_at=...)] *)
Definition set_latch (r : RuntimeState) (reason : option BreakerReason) (detail : option string) (at_ : option datetime)
    : RuntimeState := {|
  portfolio_id := portfolio_id r; run_started_at := run_started_at r; breaker_reason := reason;
  breaker_detail := detail; breaker_latched_at := at_; day_open_equity := day_open_equity r;
  day_open_at := day_open_at r; high_water_mark_equity := high_water_mark_equity r; last_equity := last_equity r;
  last_evaluated_at := last_evaluated_at r; revision := revision r |}.
End RuntimeState.
Notation RuntimeState := RuntimeState.RuntimeState.

Module PortfolioStore.
Record PortfolioStore := {
  portfolios : dict UUID Portfolio;
  sleeves : dict UUID (list Sleeve);
  journal : dict UUID (list JournalEntry);
  runtime : dict UUID RuntimeState;
  proposals : dict UUID (list Proposal)
}.

Definition empty : PortfolioStore := {| portfolios := []; sleeves := []; journal := []; runtime := []; proposals := [] |}.

Definition set_journal (s : PortfolioStore) (j : dict UUID (list JournalEntry)) : PortfolioStore := {|
  portfolios := portfolios s; sleeves := sleeves s; journal := j; runtime := runtime s; proposals := proposals s |}.
Definition set_rows (s : PortfolioStore) (p : dict UUID Portfolio) (k : dict UUID (list Sleeve)) : PortfolioStore := {|
  portfolios := p; sleeves := k; journal := journal s; runtime := runtime s; proposals := proposals s |}.
Definition set_runtime (s : PortfolioStore) (r : dict UUID RuntimeState) : PortfolioStore := {|
  portfolios := portfolios s; sleeves := sleeves s; journal := journal s; runtime := r; proposals := proposals s |}.
Definition set_proposals (s : PortfolioStore) (p : dict UUID (list Proposal)) : PortfolioStore := {|
  portfolios := portfolios s; sleeves := sleeves s; journal := journal s; runtime := runtime s; proposals := p |}.
End PortfolioStore.
Notation PortfolioStore := PortfolioStore.PortfolioStore.

(** The strategies as the strategy store shows them at one moment. *)
Definition Strategies := UUID → option SleeveStrategy.

Definition find_portfolio (s : PortfolioStore) (portfolio_id : UUID) : result Portfolio :=
  match dict_get portfolio_id (PortfolioStore.portfolios s) with Some p => Ok p | None => Raise PortfolioNotFoundError end.

(** [_strategy]: the facts, or a placeholder when the strategy no longer exists. *)
Definition _strategy (strategies : Strategies) (strategy_id : UUID) : SleeveStrategy :=
  default {| SleeveStrategy.strategy_id := strategy_id; SleeveStrategy.name := "(deleted strategy)";
             SleeveStrategy.product_id := None; SleeveStrategy.covered_product_ids := []; SleeveStrategy.timeframe := None;
             SleeveStrategy.valid := false; SleeveStrategy.current_fingerprint := None |} (strategies strategy_id).

Definition rows (s : PortfolioStore) (portfolio_id : UUID) : list Sleeve :=
  default [] (dict_get portfolio_id (PortfolioStore.sleeves s)).

Definition _aggregate (s : PortfolioStore) (strategies : Strategies) (p : Portfolio) : PortfolioAggregate := {|
  portfolio := p;
  sleeves := (λ x, {| sleeve := x; strategy := _strategy strategies (Sleeve.strategy_id x) |}) <$> rows s (Portfolio.portfolio_id p) |}.

Definition get (s : PortfolioStore) (strategies : Strategies) (portfolio_id : UUID) : result PortfolioAggregate :=
  p ← find_portfolio s portfolio_id; Ok (_aggregate s strategies p).

(** [self._journal.setdefault(portfolio_id, []).extend(entries)] *)
Definition extend_journal (s : PortfolioStore) (portfolio_id : UUID) (entries : list JournalEntry) : PortfolioStore :=
  PortfolioStore.set_journal s
    (dict_set portfolio_id (default [] (dict_get portfolio_id (PortfolioStore.journal s)) ++ entries) (PortfolioStore.journal s)).

Definition _apply (s : PortfolioStore) (plan : MutationPlan) : PortfolioStore :=
  let id := Portfolio.portfolio_id (plan_portfolio plan) in
  extend_journal (PortfolioStore.set_rows s (dict_set id (plan_portfolio plan) (PortfolioStore.portfolios s))
                    (dict_set id (plan_sleeves plan) (PortfolioStore.sleeves s))) id (plan_journal plan).

Definition apply_option (s : PortfolioStore) (plan : option MutationPlan) : PortfolioStore :=
  match plan with Some plan => _apply s plan | None => s end.

Section Store.
Context {dc : DecimalContext}.

Definition require_strategy (strategies : Strategies) (strategy_id : UUID) : result SleeveStrategy :=
  match strategies strategy_id with Some s => Ok s | None => Raise PortfolioStrategyNotFoundError end.

(** [sorted(uuid7(...) for _ in ...)] *)
Definition ascending (ids : list UUID) : list UUID := sort_by String.leb ids.

Definition create (s : PortfolioStore) (read : Strategies) (request : PortfolioCreateRequest) (portfolio_id : UUID)
    (drawn : list UUID) (context : MutationContext) : result PortfolioStore :=
  facts ← result_mapM (require_strategy read) (SleeveBatchItem.strategy_id <$> PortfolioCreateRequest.sleeves request);
  plan ← plan_create request portfolio_id context facts (ascending drawn);
  Ok (_apply s plan).

(** [_mutate]: plan against the current aggregate and apply the plan. *)
Definition _mutate (s : PortfolioStore) (strategies : Strategies) (portfolio_id : UUID)
    (planner : PortfolioAggregate → result (option MutationPlan)) : result PortfolioStore :=
  p ← find_portfolio s portfolio_id;
  plan ← planner (_aggregate s strategies p);
  Ok (apply_option s plan).

Definition update (s : PortfolioStore) (strategies : Strategies) (portfolio_id : UUID) (request : PortfolioUpdateRequest)
    (context : MutationContext) : result PortfolioStore :=
  _mutate s strategies portfolio_id (λ current, plan_update current request context).

Definition add_sleeve (s : PortfolioStore) (read strategies : Strategies) (portfolio_id : UUID) (request : SleeveAddRequest)
    (sleeve_id : UUID) (context : MutationContext) : result PortfolioStore :=
  facts ← require_strategy read (SleeveAddRequest.strategy_id request);
  _mutate s strategies portfolio_id (λ current, Some <$> plan_add_sleeve current facts request sleeve_id context).

Definition add_sleeves (s : PortfolioStore) (read strategies : Strategies) (portfolio_id : UUID) (request : SleevesAddRequest)
    (drawn : list UUID) (context : MutationContext) : result PortfolioStore :=
  facts ← result_mapM (require_strategy read) (SleeveBatchItem.strategy_id <$> SleevesAddRequest.sleeves request);
  _mutate s strategies portfolio_id (λ current, Some <$> plan_add_sleeves current facts request (ascending drawn) context).

Definition update_sleeve (s : PortfolioStore) (strategies : Strategies) (portfolio_id sleeve_id : UUID)
    (request : SleeveUpdateRequest) (context : MutationContext) : result PortfolioStore :=
  _mutate s strategies portfolio_id (λ current, plan_update_sleeve current sleeve_id request context).

(** The book of one of the portfolio's strategies holds a running slot. *)
Definition deployed_here (portfolio_id : UUID) (strategy_id : option UUID) (d : Deployment) : bool :=
  bool_decide (Deployment.portfolio_id d = Some portfolio_id)
  && match strategy_id with Some id => bool_decide (Deployment.strategy_id d = Some id) | None => true end
  && occupies_running_slot d.

(** [execution] is the list of deployments, when an execution store is attached. *)
Definition _require_sleeve_not_deployed (execution : option (list Deployment)) (current : PortfolioAggregate) (sleeve_id : UUID)
    : result unit :=
  match execution with
  | None => Ok tt
  | Some deployments =>
      view ← find_sleeve current sleeve_id;
      guard_or (negb (existsb (deployed_here (Portfolio.portfolio_id (portfolio current)) (Some (Sleeve.strategy_id (sleeve view)))) deployments))
        (PortfolioConflictError "portfolio_sleeve_deployed")
  end.

Definition remove_sleeve (s before : PortfolioStore) (read strategies : Strategies) (execution : option (list Deployment))
    (portfolio_id sleeve_id : UUID) (expected_revision : Z) (context : MutationContext) : result PortfolioStore :=
  current ← get before read portfolio_id;
  _ ← _require_sleeve_not_deployed execution current sleeve_id;
  _mutate s strategies portfolio_id (λ current, Some <$> plan_remove_sleeve current sleeve_id (Some expected_revision) context false).

Definition set_weights (s : PortfolioStore) (strategies : Strategies) (portfolio_id : UUID) (request : SetWeightsRequest)
    (context : MutationContext) : result PortfolioStore :=
  _mutate s strategies portfolio_id (λ current, plan_set_weights current request context).

Definition _require_not_deployed (execution : option (list Deployment)) (portfolio_id : UUID) : result unit :=
  match execution with
  | None => Ok tt
  | Some deployments =>
      guard_or (negb (existsb (deployed_here portfolio_id None) deployments)) (PortfolioConflictError "portfolio_deployed")
  end.

Definition delete (s : PortfolioStore) (execution : option (list Deployment)) (portfolio_id : UUID) (expected_revision : Z)
    : result PortfolioStore :=
  _ ← _require_not_deployed execution portfolio_id;
  p ← find_portfolio s portfolio_id;
  _ ← require_revision p expected_revision;
  Ok {| PortfolioStore.portfolios := dict_pop portfolio_id (PortfolioStore.portfolios s);
        PortfolioStore.sleeves := dict_pop portfolio_id (PortfolioStore.sleeves s);
        PortfolioStore.journal := dict_pop portfolio_id (PortfolioStore.journal s);
        PortfolioStore.runtime := dict_pop portfolio_id (PortfolioStore.runtime s);
        PortfolioStore.proposals := dict_pop portfolio_id (PortfolioStore.proposals s) |}.

(** Newest first, one page. *)
Definition journal_page (s : PortfolioStore) (portfolio_id : UUID) (limit offset : nat) : result (list JournalEntry * nat) :=
  _ ← find_portfolio s portfolio_id;
  let entries := rev (default [] (dict_get portfolio_id (PortfolioStore.journal s))) in
  Ok (take limit (drop offset entries), length entries).

(** Oldest first, one page. *)
Definition list_page (s : PortfolioStore) (strategies : Strategies) (limit offset : nat) : list PortfolioAggregate * nat :=
  let ordered := sort_by (λ a b, (Portfolio.created_at a <? Portfolio.created_at b)
    || (Portfolio.created_at a =? Portfolio.created_at b) && String.leb (Portfolio.portfolio_id a) (Portfolio.portfolio_id b))
    (dict_values (PortfolioStore.portfolios s)) in
  (_aggregate s strategies <$> take limit (drop offset ordered), length ordered).

(** ** Runtime state *)

Definition runtime_state (s : PortfolioStore) (portfolio_id : UUID) : result RuntimeState :=
  _ ← find_portfolio s portfolio_id;
  Ok (default (RuntimeState.never_run portfolio_id) (dict_get portfolio_id (PortfolioStore.runtime s))).

(** The named portfolios that still exist, each once. *)
Definition runtime_views (s : PortfolioStore) (strategies : Strategies) (portfolio_ids : list UUID)
    : list (PortfolioAggregate * RuntimeState) :=
  omap (λ id, match dict_get id (PortfolioStore.portfolios s) with
              | Some p => Some (_aggregate s strategies p, default (RuntimeState.never_run id) (dict_get id (PortfolioStore.runtime s)))
              | None => None
              end) (dict_keys (fold_left (λ d id, dict_set id tt d) portfolio_ids [])).

(** Compare and set: [None] when the revision is no longer the expected one. *)
Definition write_runtime (s : PortfolioStore) (state : RuntimeState) (expected_revision : Z) (journal : list JournalEntry)
    : result (PortfolioStore * option RuntimeState) :=
  let id := RuntimeState.portfolio_id state in
  _ ← find_portfolio s id;
  let current_revision := match dict_get id (PortfolioStore.runtime s) with Some r => RuntimeState.revision r | None => 0 end in
  if negb (current_revision =? expected_revision)%Z then Ok (s, None)
  else
    let written := RuntimeState.set_revision state (expected_revision + 1) in
    Ok (extend_journal (PortfolioStore.set_runtime s (dict_set id written (PortfolioStore.runtime s))) id journal, Some written).

(** Entries appended before one names a missing portfolio stay. *)
Fixpoint append_journal (s : PortfolioStore) (entries : list JournalEntry) : PortfolioStore * result unit :=
  match entries with
  | [] => (s, Ok tt)
  | e :: entries =>
      match find_portfolio s (JournalEntry.portfolio_id e) with
      | Ok _ => append_journal (extend_journal s (JournalEntry.portfolio_id e) [e]) entries
      | Raise why => (s, Raise why)
      end
  end.

(** ** Proposals *)

(** An applied rebalance that was made without a person, in the trailing window. *)
Definition counts_against_budget (since : datetime) (p : Proposal) : bool :=
  is_rebalance (Proposal.change p) && Proposal.auto_applied p && bool_decide (Proposal.status p = ProposalStatus.applied)
  && negb (bool_decide (Proposal.weight_moved p = None))
  && match Proposal.decided_at p with Some at_ => since <=? at_ | None => false end.

Definition _auto_moved_since (rows : list Proposal) (now : datetime) : decimal :=
  dsum ((λ p, decimal_of (default "" (Proposal.weight_moved p)))
          <$> List.filter (counts_against_budget (now - REBALANCE_BUDGET_WINDOW)) rows).

Definition stored_proposals (s : PortfolioStore) (portfolio_id : UUID) : list Proposal :=
  default [] (dict_get portfolio_id (PortfolioStore.proposals s)).

(** Replace the row of the same identifier, else append. *)
Fixpoint upsert (p : Proposal) (rows : list Proposal) : list Proposal :=
  match rows with
  | [] => [p]
  | r :: rows => if decide (Proposal.proposal_id r = Proposal.proposal_id p) then p :: rows else r :: upsert p rows
  end.

Definition _settle (s : PortfolioStore) (settlement : ProposalSettlement) : PortfolioStore :=
  let p := settled_proposal settlement in
  let id := Proposal.portfolio_id p in
  let s := PortfolioStore.set_proposals s (dict_set id (upsert p (stored_proposals s id)) (PortfolioStore.proposals s)) in
  apply_option (extend_journal s id (settled_journal settlement)) (settled_plan settlement).

Definition _strategy_facts (read : Strategies) (strategy_id : option UUID) : result (option SleeveStrategy) :=
  match strategy_id with None => Ok None | Some id => Some <$> require_strategy read id end.

Definition create_proposal (s : PortfolioStore) (read strategies : Strategies) (portfolio_id : UUID) (now : datetime)
    (strategy_id : option UUID) (build : PortfolioAggregate → decimal → option SleeveStrategy → result ProposalSettlement)
    : result (PortfolioStore * Proposal) :=
  facts ← _strategy_facts read strategy_id;
  p ← find_portfolio s portfolio_id;
  settlement ← build (_aggregate s strategies p) (_auto_moved_since (stored_proposals s portfolio_id) now) facts;
  Ok (_settle s settlement, settled_proposal settlement).

Definition _find_proposal (s : PortfolioStore) (portfolio_id proposal_id : UUID) : result Proposal :=
  match List.find (λ p, bool_decide (Proposal.proposal_id p = proposal_id)) (stored_proposals s portfolio_id) with
  | Some p => Ok p
  | None => Raise PortfolioProposalNotFoundError
  end.

Definition settle_proposal (s : PortfolioStore) (read strategies : Strategies) (portfolio_id proposal_id : UUID)
    (strategy_id : option UUID) (settle : PortfolioAggregate → Proposal → option SleeveStrategy → result ProposalSettlement)
    : result (PortfolioStore * Proposal) :=
  facts ← _strategy_facts read strategy_id;
  p ← find_portfolio s portfolio_id;
  stored ← _find_proposal s portfolio_id proposal_id;
  settlement ← settle (_aggregate s strategies p) stored facts;
  Ok (_settle s settlement, settled_proposal settlement).

Definition get_proposal (s : PortfolioStore) (portfolio_id proposal_id : UUID) : result Proposal :=
  _ ← find_portfolio s portfolio_id; _find_proposal s portfolio_id proposal_id.

(** Newest first, one page, optionally of one status. *)
Definition list_proposals (s : PortfolioStore) (portfolio_id : UUID) (status : option ProposalStatus) (limit offset : nat)
    : result (list Proposal * nat) :=
  _ ← find_portfolio s portfolio_id;
  let rows := sort_by (λ a b, (Proposal.created_at b <? Proposal.created_at a)
      || (Proposal.created_at b =? Proposal.created_at a) && String.leb (Proposal.proposal_id b) (Proposal.proposal_id a))
    (List.filter (λ p, match status with None => true | Some s => bool_decide (Proposal.status p = s) end)
       (stored_proposals s portfolio_id)) in
  Ok (take limit (drop offset rows), length rows).

Definition is_expired (now : datetime) (p : Proposal) : bool :=
  bool_decide (Proposal.status p = ProposalStatus.pending) && (Proposal.expires_at p <=? now).

Definition expire (now : datetime) (p : Proposal) : Proposal := if is_expired now p then Proposal.set_expired p now else p.

Definition expire_rows (now : datetime) (item : UUID * list Proposal) : UUID * list Proposal := (item.1, expire now <$> item.2).

Definition expire_proposals (s : PortfolioStore) (now : datetime) : PortfolioStore * nat :=
  (PortfolioStore.set_proposals s (map (expire_rows now) (PortfolioStore.proposals s)),
   length (List.filter (is_expired now) (concat (dict_values (PortfolioStore.proposals s))))).

End Store.
