(* ===== verification/PortfolioRuntime.v ===== *)
(** * PortfolioRuntime: deployed portfolios

    [portfolios/deployment.py], the actions of [portfolios/runtime.py] and [runtime_guards.py] on
    running books with [set_deployment_status] of [execution/service.py], and the per-cycle
    supervision of [execution_worker/portfolio_supervisor.py]. A program here works on a desk: the
    portfolio store and the execution store. An exception keeps the writes made before it.

    Starting a portfolio (which creates books) is not modelled; audit events and journal summary
    lines are left out. *)

From S2P Require Import Prelude Decimals DecimalFacts DecimalText Market Geometry Containers TradingModels FillLedger.
From S2P Require Import ExecutionStore Ledger RiskModels EntryLimits Portfolio Proposals PortfolioStore.

Open Scope Z_scope.

(** ** Deployment rules ([deployment.py]) *)

Definition deployment_mode (a : PortfolioAggregate) : DeploymentMode :=
  if bool_decide (Portfolio.mode (portfolio a) = PortfolioMode.live) then DeploymentMode.LIVE else DeploymentMode.PAPER.

(** Newest first. *)
Definition members (deployments : list Deployment) (portfolio_id : UUID) : list Deployment :=
  sort_by (λ (a b : Deployment), (Deployment.created_at b <? Deployment.created_at a)
      || (Deployment.created_at b =? Deployment.created_at a) && String.leb (Deployment.id b) (Deployment.id a))
    (List.filter (λ d : Deployment, bool_decide (Deployment.portfolio_id d = Some portfolio_id)) deployments).

Record SleeveBook := { book_view : SleeveView; target_capital : decimal; book_deployment : option Deployment }.

Inductive PortfolioDeploymentState := not_deployed | running | partially_running | paused | stopped.

Record PortfolioBooks := { book_sleeves : list SleeveBook; detached : list Deployment; books_state : PortfolioDeploymentState }.

Record BreakerTrip := { trip_reason : BreakerReason; trip_detail : string }.

(** The running or paused book of a strategy, else its newest. *)
Definition _current_book (tagged : list Deployment) (strategy_id : UUID) : option Deployment :=
  let mine := List.filter (λ d : Deployment, bool_decide (Deployment.strategy_id d = Some strategy_id)) tagged in
  match head (List.filter occupies_running_slot mine) with Some d => Some d | None => head mine end.

Definition _state (books : list SleeveBook) (tagged : list Deployment) : PortfolioDeploymentState :=
  match tagged with
  | [] => not_deployed
  | _ =>
      let statuses := omap (λ b, Deployment.status <$> book_deployment b) books in
      let count status := length (List.filter (λ s, bool_decide (s = status)) statuses) in
      let running_count := count DeploymentStatus.RUNNING in
      let paused_count := count DeploymentStatus.PAUSED in
      if ((running_count =? 0) && (paused_count =? 0))%nat then stopped
      else if (running_count =? length books)%nat then running
      else if (running_count =? 0)%nat then paused
      else partially_running
  end.

Definition occupied_members (tagged : list Deployment) : list Deployment := List.filter occupies_running_slot tagged.

(** The books of the current run: created since it started, or all when that is unknown. *)
Definition run_members (tagged : list Deployment) (r : RuntimeState) : list Deployment :=
  List.filter (λ d : Deployment, match RuntimeState.run_started_at r with None => true | Some t => t <=? Deployment.created_at d end) tagged.

Definition starting_equity (d : Deployment) : decimal :=
  match Deployment.initial_equity d, Deployment.paper_starting_cash d with
  | Some e, _ => e
  | None, Some cash => cash
  | None, None => d0
  end.

Definition utc_day_start (moment : datetime) : datetime := moment - moment mod day.

Section Deployment.
Context {dc : DecimalContext}.

Definition sleeve_books (a : PortfolioAggregate) (tagged : list Deployment) : PortfolioBooks :=
  let books := (λ v, {| book_view := v;
      target_capital := decimal_of (sleeve_capital (Portfolio.capital_quote (portfolio a)) (Sleeve.weight_fraction (sleeve v)));
      book_deployment := _current_book tagged (Sleeve.strategy_id (sleeve v)) |}) <$> sleeves a in
  let strategy_ids := (λ v, Some (Sleeve.strategy_id (sleeve v))) <$> sleeves a in
  {| book_sleeves := books;
     detached := List.filter (λ d : Deployment, negb (bool_decide (Deployment.strategy_id d ∈ strategy_ids)) && occupies_running_slot d) tagged;
     books_state := _state books tagged |}.

Definition net_pnl (d : Deployment) : decimal :=
  match Deployment.performance_equity d with None => d0 | Some equity => (equity - starting_equity d)%dec end.

Definition run_equity (a : PortfolioAggregate) (books : list Deployment) : decimal :=
  (decimal_of (Portfolio.capital_quote (portfolio a)) + dsum (net_pnl <$> books))%dec.

Definition begin_run (r : RuntimeState) (equity : decimal) (now : datetime) : RuntimeState :=
  RuntimeState.set_run (RuntimeState.set_baselines r equity (utc_day_start now) equity equity now) now.

Definition roll_baselines (r : RuntimeState) (equity : decimal) (now : datetime) : RuntimeState :=
  let day_start := utc_day_start now in
  let '(open, open_at) :=
    match RuntimeState.day_open_equity r, RuntimeState.day_open_at r with
    | Some open, Some open_at => if open_at <? day_start then (equity, day_start) else (open, open_at)
    | _, _ => (equity, day_start)
    end in
  let peak := match RuntimeState.high_water_mark_equity r with None => equity | Some peak => dmax peak equity end in
  RuntimeState.set_baselines r open open_at peak equity now.

Definition drawdown_fraction (r : RuntimeState) : result (option decimal) :=
  match RuntimeState.high_water_mark_equity r, RuntimeState.last_equity r with
  | Some peak, Some equity => if (peak <=? d0)%dec then Ok None else q ← div (peak - equity)%dec peak; Ok (Some (dmax d0 q))
  | _, _ => Ok None
  end.

Definition daily_pnl (r : RuntimeState) : option decimal :=
  match RuntimeState.last_equity r, RuntimeState.day_open_equity r with
  | Some equity, Some open => Some (equity - open)%dec
  | _, _ => None
  end.

Definition _money (value : decimal) : result decimal := quantize ROUND_HALF_EVEN value (-2).
Definition _fraction (value : decimal) : result string := canonical_text <$> quantize ROUND_HALF_EVEN value (-4).

Definition daily_loss_trip (a : PortfolioAggregate) (r : RuntimeState) : result (option BreakerTrip) :=
  match PortfolioLimits.daily_loss_quote (Portfolio.limits (portfolio a)), daily_pnl r with
  | Some limit, Some change =>
      let quote := Portfolio.quote_currency (portfolio a) in
      if (neg change >=? decimal_of limit)%dec then
        lost ← _money (neg change);
        Ok (Some {| trip_reason := BreakerReason.PORTFOLIO_DAILY_LOSS_STOP;
                    trip_detail := "The portfolio lost " ++ quote_text_of lost quote
                      ++ " since the UTC day opened; its daily loss stop is " ++ quote_text limit quote ++ "." |})
      else Ok None
  | _, _ => Ok None
  end%string.

Definition drawdown_trip (a : PortfolioAggregate) (r : RuntimeState) : result (option BreakerTrip) :=
  drawdown ← drawdown_fraction r;
  match PortfolioLimits.max_drawdown_fraction (Portfolio.limits (portfolio a)), drawdown with
  | Some stop, Some drawdown =>
      if (drawdown >=? decimal_of stop)%dec then
        shown ← _fraction drawdown;
        peak ← _money (default d0 (RuntimeState.high_water_mark_equity r));
        Ok (Some {| trip_reason := BreakerReason.PORTFOLIO_DRAWDOWN_STOP;
                    trip_detail := "Portfolio equity is " ++ percent_text shown ++ " below its peak of "
                      ++ quote_text_of peak (Portfolio.quote_currency (portfolio a)) ++ "; its drawdown stop is "
                      ++ percent_text stop ++ "." |})
      else Ok None
  | _, _ => Ok None
  end%string.

(** The daily loss stop first, then the drawdown stop. *)
Definition tripped_breaker (a : PortfolioAggregate) (r : RuntimeState) : result (option BreakerTrip) :=
  trip ← daily_loss_trip a r;
  match trip with Some trip => Ok (Some trip) | None => drawdown_trip a r end.

Definition risk_reason (r : BreakerReason) : RiskReasonCode :=
  match r with
  | BreakerReason.PORTFOLIO_DAILY_LOSS_STOP => PORTFOLIO_DAILY_LOSS_STOP
  | BreakerReason.PORTFOLIO_DRAWDOWN_STOP => PORTFOLIO_DRAWDOWN_STOP
  end.

Definition risk_book (a : PortfolioAggregate) (r : RuntimeState) : PortfolioRiskBook :=
  let p := portfolio a in {|
  book_portfolio_id := Portfolio.portfolio_id p; book_capital := decimal_of (Portfolio.capital_quote p);
  max_total_exposure_fraction := decimal_of (PortfolioLimits.max_total_exposure_fraction (Portfolio.limits p));
  max_per_asset_fraction := decimal_of (PortfolioLimits.max_per_asset_fraction (Portfolio.limits p));
  live := bool_decide (Portfolio.mode p = PortfolioMode.live);
  breaker_reason := risk_reason <$> RuntimeState.breaker_reason r; available := true |}.

End Deployment.

(** ** Programs on a desk *)

Record Desk := { portfolio_rows : PortfolioStore; books_at : Store }.

Definition D (A : Type) : Type := Desk → Desk * result A.
#[global] Instance D_ret : MRet D := λ A a desk, (desk, Ok a).
#[global] Instance D_bind : MBind D := λ A B f m desk,
  match m desk with (desk, Ok a) => f a desk | (desk, Raise e) => (desk, Raise e) end.

Definition fail {A} (e : error) : D A := λ desk, (desk, Raise e).
Definition lift {A} (r : result A) : D A := λ desk, (desk, r).
Definition on_portfolios {A} (f : PortfolioStore → result (PortfolioStore * A)) : D A := λ desk,
  match f (portfolio_rows desk) with
  | Ok (s, a) => ({| portfolio_rows := s; books_at := books_at desk |}, Ok a)
  | Raise e => (desk, Raise e)
  end.
Definition ask_portfolios {A} (f : PortfolioStore → result A) : D A := λ desk, (desk, f (portfolio_rows desk)).
Definition on_books {A} (f : Store → result (Store * A)) : D A := λ desk,
  match f (books_at desk) with
  | Ok (s, a) => ({| portfolio_rows := portfolio_rows desk; books_at := s |}, Ok a)
  | Raise e => (desk, Raise e)
  end.
Definition ask_books {A} (f : Store → result A) : D A := λ desk, (desk, f (books_at desk)).

(** [try: ... except E: handler]: the handler sees the writes made before the exception. *)
Definition catch {A} (m : D A) (handler : error → option (D A)) : D A := λ desk,
  match m desk with
  | (desk, Raise e) => match handler e with Some k => k desk | None => (desk, Raise e) end
  | done => done
  end.

Fixpoint for_each {A} (f : A → D unit) (l : list A) : D unit :=
  match l with [] => mret tt | x :: l => _ ← f x; for_each f l end.
Fixpoint collect {A B} (f : A → D B) (l : list A) : D (list B) :=
  match l with [] => mret [] | x :: l => y ← f x; k ← collect f l; mret (y :: k) end.

Definition is_execution_conflict (e : error) : bool := match e with ExecutionConflictError _ | LeaseTakenError => true | _ => false end.
Definition is_execution_error (e : error) : bool :=
  match e with ExecutionConflictError _ | LeaseTakenError | ExecutionStoreError _ => true | _ => false end.
Definition is_portfolio_error (e : error) : bool :=
  match e with
  | PortfolioNotFoundError | PortfolioSleeveNotFoundError | PortfolioStrategyNotFoundError | PortfolioProposalNotFoundError
  | PortfolioRevisionConflictError _ | PortfolioValidationError _ | PortfolioConflictError _ | PortfolioSleeveExistsError _
  | PortfolioLiveAcknowledgementError | PortfolioStorageUnavailableError => true
  | _ => false
  end.

Section Desk.
Context {dc : DecimalContext}.

(** ** Supervision ([portfolio_supervisor.py]) *)

Definition _HEARTBEAT : timedelta := minute.

Fixpoint any_unresolved (s : Store) (run : list Deployment) : result bool :=
  match run with
  | [] => Ok false
  | d :: run =>
      match Deployment.performance_equity d with
      | Some _ => any_unresolved s run
      | None =>
          match get_deployment s (Deployment.id d) with
          | Raise (ExecutionStoreError _) => Ok true
          | Raise e => Raise e
          | Ok snapshot =>
              ledger ← ledger_from_snapshot snapshot ∅ None;
              if negb (Ledger.accounting_complete ledger) then Ok true else any_unresolved s run
          end
      end
  end.
Definition _equity_unresolved (run : list Deployment) : D bool := ask_books (λ s, any_unresolved s run).

(** [item.allocated_capital == target] *)
Definition same_capital (current : option decimal) (target : decimal) : bool :=
  match current with Some c => (c =? target)%dec | None => false end.

Definition with_allocation (d : Deployment) (target : decimal) (now : datetime) : Deployment :=
  let c := Deployment.capital d in
  Deployment.set_capital d {|
    Deployment.allocated_capital := Some target; Deployment.venue_available_quote := Deployment.venue_available_quote c;
    Deployment.reserved_buying_power := Deployment.reserved_buying_power c; Deployment.inventory_cost := Deployment.inventory_cost c;
    Deployment.performance_equity := Deployment.performance_equity c;
    Deployment.performance_capital_quote := Deployment.performance_capital_quote c;
    Deployment.performance_maximum_drawdown_fraction := Deployment.performance_maximum_drawdown_fraction c;
    Deployment.initial_equity := Deployment.initial_equity c; Deployment.baseline_equity := Deployment.baseline_equity c;
    Deployment.utc_day_open_equity := Deployment.utc_day_open_equity c; Deployment.utc_day_open_at := Deployment.utc_day_open_at c;
    Deployment.risk_day_open_evidence := Deployment.risk_day_open_evidence c;
    Deployment.high_water_mark_equity := Deployment.high_water_mark_equity c |} now.

(** A save under the revision the book was read with; a conflict leaves the row alone. *)
Definition save_or_skip (d : Deployment) (expected_revision : Z) : D unit :=
  catch (_ ← on_books (λ s, save_deployment s d (Some expected_revision) None); mret tt)
    (λ e, if is_execution_conflict e then Some (mret tt) else None).

(** [{view.sleeve.strategy_id: view.sleeve.weight_fraction}] *)
Definition strategy_weights (a : PortfolioAggregate) : dict UUID string :=
  fold_left (λ d v, dict_set (Sleeve.strategy_id (sleeve v)) (Sleeve.weight_fraction (sleeve v)) d) (sleeves a) [].

Definition _sync_allocations (a : PortfolioAggregate) (occupied : list Deployment) (now : datetime) : D unit :=
  for_each (λ d : Deployment,
    match Deployment.strategy_id d ≫= (λ id, dict_get id (strategy_weights a)) with
    | None => mret tt
    | Some weight =>
        let target := decimal_of (sleeve_capital (Portfolio.capital_quote (portfolio a)) weight) in
        if same_capital (Deployment.allocated_capital d) target then mret tt
        else save_or_skip (with_allocation d target now) (Deployment.revision d)
    end) occupied.

Definition breaker_pause (detail : string) : RuntimeChange := {|
  new_cash := None; new_phase := None; new_mismatch_detail := Some detail; clear_mismatch := false;
  new_last_evaluated_bar := None; new_last_signal := None; new_pending_entry_bars := None; new_bars_held := None;
  new_cooldown_bars_remaining := None; new_pending_stop_price := None; new_pending_target_price := None;
  clear_pending_levels := false; new_status := Some DeploymentStatus.PAUSED;
  new_lifecycle_command := Some LifecycleCommand.STOP_NEW_ENTRIES; new_daily_loss_latched := None;
  new_drawdown_latched := None; new_last_signal_event_at := None; new_last_signal_processed_at := None |}.

Definition _pause_running (running : list Deployment) (detail : string) (now : datetime) : D unit :=
  for_each (λ d : Deployment, save_or_skip (with_runtime d now (breaker_pause detail)) (Deployment.revision d)) running.

(** [detail or "portfolio breaker latched"] *)
Definition latch_detail (reason : BreakerReason) (detail : option string) : string :=
  String.substring 0 2000 (BreakerReason.value reason ++ ": " ++ default "portfolio breaker latched" (truthy detail)).

Definition _enforce_latch (state : RuntimeState) (running : list Deployment) (now : datetime) : D RuntimeState :=
  _ ← match RuntimeState.breaker_reason state, running with
      | Some reason, (_ :: _) => _pause_running running (latch_detail reason (RuntimeState.breaker_detail state)) now
      | _, _ => mret tt
      end;
  mret state.

(** [!=] on optional amounts and instants *)
Definition same_amount (a b : option decimal) : bool :=
  match a, b with Some a, Some b => (a =? b)%dec | None, None => true | _, _ => false end.

Definition _baselines_moved (r recorded : RuntimeState) (now : datetime) : bool :=
  if negb (same_amount (RuntimeState.day_open_equity r) (RuntimeState.day_open_equity recorded)
           && bool_decide (RuntimeState.day_open_at r = RuntimeState.day_open_at recorded)
           && same_amount (RuntimeState.high_water_mark_equity r) (RuntimeState.high_water_mark_equity recorded)
           && same_amount (RuntimeState.last_equity r) (RuntimeState.last_equity recorded))
  then true
  else match RuntimeState.last_evaluated_at r with None => true | Some last => _HEARTBEAT <=? now - last end.

Definition _trip_entry (a : PortfolioAggregate) (trip : BreakerTrip) (running : list Deployment) (now : datetime) : JournalEntry :=
  journal_entry (Portfolio.portfolio_id (portfolio a)) JournalKind.breaker_tripped
    {| actor := JournalActor.system; channel := JournalChannel.system; occurred_at := utc_millisecond now |}
    (Portfolio.revision (portfolio a)) {|
    JournalDetail.sleeve_id := None; JournalDetail.strategy_id := None; JournalDetail.strategy_name := None;
    JournalDetail.reason := Some JournalReason.breaker; JournalDetail.changes := []; JournalDetail.job_id := None;
    JournalDetail.result_fingerprint := None; JournalDetail.deployment_ids := (λ d : Deployment, Deployment.id d) <$> running;
    JournalDetail.reason_code := Some (trip_reason trip); JournalDetail.proposal_id := None;
    JournalDetail.rationale := None; JournalDetail.note := None |}.

Definition latched_by (r : RuntimeState) (trip : BreakerTrip) (now : datetime) : RuntimeState :=
  RuntimeState.set_latch r (Some (trip_reason trip)) (Some (String.substring 0 500 (trip_detail trip))) (Some now).

Definition _supervise_one (a : PortfolioAggregate) (r : RuntimeState) (deployments : list Deployment) (now : datetime)
    : D RuntimeState :=
  let tagged := members deployments (Portfolio.portfolio_id (portfolio a)) in
  let occupied := occupied_members tagged in
  match occupied with
  | [] => mret r
  | _ =>
      _ ← _sync_allocations a occupied now;
      let running := List.filter (λ d : Deployment, bool_decide (Deployment.status d = DeploymentStatus.RUNNING)) occupied in
      let run := run_members tagged r in
      unresolved ← _equity_unresolved run;
      if (unresolved : bool) then _enforce_latch r running now
      else
        let recorded := roll_baselines r (run_equity a run) now in
        trip ← (if RuntimeState.breaker_latched r then mret None else lift (tripped_breaker a recorded));
        state ← match (trip : option BreakerTrip) with
          | Some trip =>
              let latched := latched_by recorded trip now in
              written ← on_portfolios (λ s, write_runtime s latched (RuntimeState.revision r) [_trip_entry a trip running now]);
              mret (default latched (written : option RuntimeState))
          | None =>
              if _baselines_moved r recorded now then
                written ← on_portfolios (λ s, write_runtime s recorded (RuntimeState.revision r) []);
                mret (default r (written : option RuntimeState))
              else mret r
          end;
        _enforce_latch state running now
  end.

(** The gate's book of every portfolio that could be supervised. *)
Definition supervise_view (deployments : list Deployment) (now : datetime) (books : dict UUID PortfolioRiskBook)
    (view : PortfolioAggregate * RuntimeState) : D (dict UUID PortfolioRiskBook) :=
  catch (r ← _supervise_one view.1 view.2 deployments now;
         mret (dict_set (Portfolio.portfolio_id (portfolio view.1)) (risk_book view.1 r) books))
    (λ e, if is_portfolio_error e || is_execution_error e then Some (mret books) else None).

Fixpoint supervise_views (deployments : list Deployment) (now : datetime) (books : dict UUID PortfolioRiskBook)
    (views : list (PortfolioAggregate * RuntimeState)) : D (dict UUID PortfolioRiskBook) :=
  match views with
  | [] => mret books
  | view :: views => books ← supervise_view deployments now books view; supervise_views deployments now books views
  end.

Definition supervise_portfolios (strategies : Strategies) (deployments : list Deployment) (now : datetime)
    : D (dict UUID PortfolioRiskBook) :=
  let ids := sorted_set (omap (λ d : Deployment, Deployment.portfolio_id d) deployments) in
  views ← ask_portfolios (λ s, Ok (runtime_views s strategies ids));
  supervise_views deployments now [] views.

End Desk.

(** ** Status changes ([execution/service.py]) *)

Definition status_change (status : DeploymentStatus) (flatten : bool) : RuntimeChange := {|
  new_cash := None; new_phase := None; new_mismatch_detail := None; clear_mismatch := true;
  new_last_evaluated_bar := None; new_last_signal := None; new_pending_entry_bars := None; new_bars_held := None;
  new_cooldown_bars_remaining := None; new_pending_stop_price := None; new_pending_target_price := None;
  clear_pending_levels := false; new_status := Some status; new_lifecycle_command := Some (command_for_status status flatten);
  new_daily_loss_latched := None; new_drawdown_latched := None; new_last_signal_event_at := None;
  new_last_signal_processed_at := None |}.

Definition STOPPED_FOR_GOOD : error := ExecutionConflictError "A stopped deployment cannot be resumed.".
Definition NO_SNAPSHOT : error := ExecutionConflictError "This deployment has no strategy snapshot to resume.".

(** What the actions read from their surroundings: does a published snapshot follow the
    convergence warmup policy, is that required to start or resume, and the clock when a book's
    status is written. *)
Class ActionContext := {
  load_published : string → result bool;
  require_convergence_warmup : bool;
  reading : UUID → datetime
}.

Section Actions.
Context {dc : DecimalContext} {ac : ActionContext}.

(** [convergence_policy_check], up to its warning. *)
Definition convergence_policy_check (follows enforce : bool) : result unit :=
  if follows then Ok tt else guard_or (negb enforce) (ExecutionConflictError "WARMUP_POLICY_REQUIRED").

Definition set_deployment_status (deployment_id : UUID) (status : DeploymentStatus) (flatten enforce : bool)
    (expected_revision : option Z) : D DeploymentSnapshot :=
  snapshot ← ask_books (λ s, get_deployment s deployment_id);
  let d := DeploymentSnapshot.deployment snapshot in
  _ ← match expected_revision with
      | Some expected => if (Deployment.revision d =? expected)%Z then mret tt
                         else fail (ExecutionConflictError "The deployment changed since it was read.")
      | None => mret tt
      end;
  if bool_decide (Deployment.status d = DeploymentStatus.STOPPED) && negb (bool_decide (status = DeploymentStatus.STOPPED))
  then fail STOPPED_FOR_GOOD
  else if bool_decide (status = DeploymentStatus.RUNNING) && bool_decide (Deployment.status d = DeploymentStatus.RUNNING)
  then mret snapshot
  else
    _ ← (if bool_decide (status = DeploymentStatus.RUNNING) && bool_decide (Deployment.kind d = DeploymentKind.STRATEGY) then
           match Deployment.strategy_fingerprint d with
           | None => fail NO_SNAPSHOT
           | Some fingerprint => follows ← lift (load_published fingerprint); lift (convergence_policy_check follows enforce)
           end
         else mret tt);
    let updated := with_runtime d (reading deployment_id) (status_change status flatten) in
    _ ← on_books (λ s, save_deployment s updated (Some (Deployment.revision d)) None);
    ask_books (λ s, get_deployment s deployment_id).

(** ** Actions on a portfolio ([runtime.py], [runtime_guards.py], [runtime_outcomes.py]) *)

Inductive SleeveOutcomeKind := attached | was_paused | resumed | was_stopped | unchanged | failed.

Record SleeveOutcome := {
  outcome_sleeve : option UUID;
  outcome_strategy : option UUID;
  outcome_name : string;
  outcome_kind : SleeveOutcomeKind;
  outcome_deployment : option UUID
}.

Definition _outcome (name : string) (view : option SleeveView) (d : option Deployment) (kind : SleeveOutcomeKind) : SleeveOutcome := {|
  outcome_sleeve := (λ v, Sleeve.sleeve_id (sleeve v)) <$> view;
  outcome_strategy := match view with Some v => Some (Sleeve.strategy_id (sleeve v)) | None => d ≫= (λ d : Deployment, Deployment.strategy_id d) end;
  outcome_name := name; outcome_kind := kind; outcome_deployment := (λ d : Deployment, Deployment.id d) <$> d |}.

Definition _require_live_acknowledgement (mode : DeploymentMode) (acknowledged : bool) : result unit :=
  guard_or (negb (bool_decide (mode = DeploymentMode.LIVE) && negb acknowledged)) PortfolioLiveAcknowledgementError.

Definition _require_breaker_clear (r : RuntimeState) : result unit :=
  guard_or (negb (RuntimeState.breaker_latched r)) (PortfolioConflictError "portfolio_breaker_latched").

Definition Target : Type := string * option SleeveView * option Deployment.

Definition book_target (b : SleeveBook) : Target :=
  (SleeveStrategy.name (strategy (book_view b)), Some (book_view b), book_deployment b).

Definition _sleeve_book (books : PortfolioBooks) (sleeve_id : UUID) : result SleeveBook :=
  match List.find (λ b, bool_decide (Sleeve.sleeve_id (sleeve (book_view b)) = sleeve_id)) (book_sleeves books) with
  | Some book => Ok book
  | None => Raise PortfolioSleeveNotFoundError
  end.

Definition _targets (books : PortfolioBooks) (sleeve_id : option UUID) (include_detached : bool) : result (list Target) :=
  match sleeve_id with
  | Some id => book ← _sleeve_book books id; Ok [book_target book]
  | None => Ok ((book_target <$> book_sleeves books)
      ++ (if include_detached then (λ d : Deployment, (default "removed sleeve" (truthy (Deployment.strategy_name d)), None, Some d)) <$> detached books
          else []))
  end.

Definition _require_deployed (targets : list Target) (sleeve_id : option UUID) : result unit :=
  guard_or (existsb (λ t : Target, match t.2 with Some d => occupies_running_slot d | None => false end) targets)
    (PortfolioConflictError (match sleeve_id with Some _ => "portfolio_sleeve_not_deployed" | None => "portfolio_not_deployed" end)).

(** One book's status change; a refusal by the execution store is an outcome, not an error. *)
Definition _set_status (t : Target) (d : Deployment) (status : DeploymentStatus) (kind : SleeveOutcomeKind) (flatten : bool)
    : D SleeveOutcome :=
  let '(name, view, _) := t in
  catch
    (snapshot ← set_deployment_status (Deployment.id d) status flatten
       (bool_decide (status = DeploymentStatus.RUNNING) && require_convergence_warmup) None;
     mret (_outcome name view (Some (DeploymentSnapshot.deployment snapshot)) kind))
    (λ e, if is_execution_error e then Some (mret (_outcome name view (Some d) failed)) else None).

Definition is_changed (o : SleeveOutcome) : bool := match outcome_kind o with unchanged | failed => false | _ => true end.
Definition is_failed (o : SleeveOutcome) : bool := match outcome_kind o with failed => true | _ => false end.

Definition _journal_action (a : PortfolioAggregate) (outcomes : list SleeveOutcome) (kind : JournalKind)
    (context : MutationContext) (sleeve_id : option UUID) (reason : JournalReason) (note : option string) : D unit :=
  if negb (existsb is_changed outcomes || existsb is_failed outcomes) then mret tt
  else
    let first := match sleeve_id with Some _ => head outcomes | None => None end in
    let entry := journal_entry (Portfolio.portfolio_id (portfolio a)) kind context (Portfolio.revision (portfolio a)) {|
      JournalDetail.sleeve_id := sleeve_id; JournalDetail.strategy_id := first ≫= outcome_strategy;
      JournalDetail.strategy_name := (λ o, String.substring 0 120 (outcome_name o)) <$> first;
      JournalDetail.reason := Some reason; JournalDetail.changes := []; JournalDetail.job_id := None;
      JournalDetail.result_fingerprint := None;
      JournalDetail.deployment_ids := omap outcome_deployment (List.filter is_changed outcomes);
      JournalDetail.reason_code := None; JournalDetail.proposal_id := None; JournalDetail.rationale := None;
      JournalDetail.note := note |} in
    λ desk, let '(s, r) := append_journal (portfolio_rows desk) [entry] in ({| portfolio_rows := s; books_at := books_at desk |}, r).

Definition _millisecond (c : MutationContext) : MutationContext :=
  {| actor := actor c; channel := channel c; occurred_at := utc_millisecond (occurred_at c) |}.

Definition _books (strategies : Strategies) (portfolio_id : UUID) : D (PortfolioAggregate * PortfolioBooks) :=
  a ← ask_portfolios (λ s, get s strategies portfolio_id);
  tagged ← ask_books (λ s, Ok (members (list_deployments s None 0) portfolio_id));
  mret (a, sleeve_books a tagged).

(** The book of a target unless it has none, is stopped or already has the status. *)
Definition pending_target (t : Target) (status : DeploymentStatus) : option Deployment :=
  match t.2 with
  | Some d => if bool_decide (Deployment.status d = DeploymentStatus.STOPPED) || bool_decide (Deployment.status d = status)
              then None else Some d
  | None => None
  end.

Definition change_target (status : DeploymentStatus) (kind : SleeveOutcomeKind) (flatten : bool) (t : Target) : D SleeveOutcome :=
  match pending_target t status with
  | Some d => _set_status t d status kind flatten
  | None => mret (_outcome t.1.1 t.1.2 t.2 unchanged)
  end.

Definition pause (strategies : Strategies) (portfolio_id : UUID) (context : MutationContext) (sleeve_id : option UUID)
    (reason : JournalReason) (note : option string) : D (list SleeveOutcome) :=
  '(a, books) ← _books strategies portfolio_id;
  targets ← lift (_targets books sleeve_id true);
  _ ← lift (_require_deployed targets sleeve_id);
  outcomes ← collect (change_target DeploymentStatus.PAUSED was_paused false) targets;
  _ ← _journal_action a outcomes JournalKind.deployment_paused (_millisecond context) sleeve_id reason note;
  mret outcomes.

Definition resume (strategies : Strategies) (portfolio_id : UUID) (context : MutationContext) (live_acknowledged : bool)
    (sleeve_id : option UUID) (reason : JournalReason) (note : option string) : D (list SleeveOutcome) :=
  '(a, books) ← _books strategies portfolio_id;
  _ ← lift (_require_live_acknowledgement (deployment_mode a) live_acknowledged);
  r ← ask_portfolios (λ s, runtime_state s portfolio_id);
  _ ← lift (_require_breaker_clear r);
  targets ← lift (_targets books sleeve_id false);
  _ ← lift (_require_deployed targets sleeve_id);
  outcomes ← collect (change_target DeploymentStatus.RUNNING resumed false) targets;
  _ ← _journal_action a outcomes JournalKind.deployment_resumed (_millisecond context) sleeve_id reason note;
  mret outcomes.

Definition stop (strategies : Strategies) (portfolio_id : UUID) (context : MutationContext) (sleeve_id : option UUID)
    (flatten : bool) : D (list SleeveOutcome) :=
  '(a, books) ← _books strategies portfolio_id;
  targets ← lift (_targets books sleeve_id true);
  _ ← lift (_require_deployed targets sleeve_id);
  outcomes ← collect (change_target DeploymentStatus.STOPPED was_stopped flatten) targets;
  _ ← _journal_action a outcomes JournalKind.deployment_stopped (_millisecond context) sleeve_id JournalReason.operator
        (Some (if flatten then "Flatten: exit positions at market, then cancel remainders."
               else "Managed stop: protective orders stay until positions close."));
  mret outcomes.

(** [snapshot], as far as the reset of a breaker reads it. *)
Definition run_snapshot (strategies : Strategies) (portfolio_id : UUID) : D (PortfolioAggregate * RuntimeState * decimal) :=
  a ← ask_portfolios (λ s, get s strategies portfolio_id);
  r ← ask_portfolios (λ s, runtime_state s portfolio_id);
  tagged ← ask_books (λ s, Ok (members (list_deployments s None 0) portfolio_id));
  let in_run := (λ d : Deployment, Deployment.id d) <$> run_members tagged r in
  _ ← collect (λ d : Deployment, ask_books (λ s, get_deployment s (Deployment.id d)))
        (List.filter (λ d : Deployment, bool_decide (Deployment.id d ∈ in_run) || occupies_running_slot d) tagged);
  mret (a, r, run_equity a (run_members tagged r)).

Definition cleared (r : RuntimeState) (equity : decimal) (now : datetime) : RuntimeState :=
  RuntimeState.set_baselines (RuntimeState.set_latch r None None None) equity (utc_day_start now) equity equity now.

(** One attempt: [None] when the runtime state changed meanwhile. *)
Definition try_reset (strategies : Strategies) (portfolio_id : UUID) (context : MutationContext) : D (option RuntimeState) :=
  '(a, r, equity) ← run_snapshot strategies portfolio_id;
  if negb (RuntimeState.breaker_latched r) then fail (PortfolioConflictError "portfolio_breaker_not_latched")
  else
    _ ← lift (_money equity);
    let entry := journal_entry portfolio_id JournalKind.breaker_reset context (Portfolio.revision (portfolio a)) {|
      JournalDetail.sleeve_id := None; JournalDetail.strategy_id := None; JournalDetail.strategy_name := None;
      JournalDetail.reason := Some JournalReason.operator; JournalDetail.changes := []; JournalDetail.job_id := None;
      JournalDetail.result_fingerprint := None; JournalDetail.deployment_ids := [];
      JournalDetail.reason_code := RuntimeState.breaker_reason r; JournalDetail.proposal_id := None;
      JournalDetail.rationale := None; JournalDetail.note := None |} in
    on_portfolios (λ s, write_runtime s (cleared r equity (occurred_at context)) (RuntimeState.revision r) [entry]).

Definition reset_breaker (strategies : Strategies) (portfolio_id : UUID) (context : MutationContext) : D RuntimeState :=
  let context := _millisecond context in
  first ← try_reset strategies portfolio_id context;
  match (first : option RuntimeState) with
  | Some written => mret written
  | None =>
      second ← try_reset strategies portfolio_id context;
      match (second : option RuntimeState) with
      | Some written => mret written
      | None => fail (PortfolioConflictError "portfolio_runtime_conflict")
      end
  end.

(** ** The manager loop ([manager.py]) *)

Definition _sleeve_status (a : PortfolioAggregate) (sleeve_id : UUID) : D (option DeploymentStatus) :=
  tagged ← ask_books (λ s, Ok (members (list_deployments s None 0) (Portfolio.portfolio_id (portfolio a))));
  mret (match _sleeve_book (sleeve_books a tagged) sleeve_id with
        | Ok book => (λ d : Deployment, Deployment.status d) <$> book_deployment book
        | Raise _ => None
        end).

Definition _require_applicable (a : PortfolioAggregate) (change : ProposalChange) : D unit :=
  match change with
  | AddSleeveChange _ _ _ =>
      lift (guard_or (ManagerPermissions.may_propose_sleeves (ManagerSettings.permissions (Portfolio.manager (portfolio a))))
              (PortfolioValidationError "portfolio_proposal_not_permitted"))
  | RebalanceChange _ _ => mret tt
  | PauseSleeveChange sleeve_id =>
      _ ← lift (find_sleeve a sleeve_id);
      status ← _sleeve_status a sleeve_id;
      lift (guard_or (bool_decide ((status : option DeploymentStatus) = Some DeploymentStatus.RUNNING))
              (PortfolioConflictError "portfolio_sleeve_not_running"))
  | ResumeSleeveChange sleeve_id =>
      _ ← lift (find_sleeve a sleeve_id);
      status ← _sleeve_status a sleeve_id;
      _ ← lift (guard_or (bool_decide ((status : option DeploymentStatus) = Some DeploymentStatus.PAUSED))
                  (PortfolioConflictError "portfolio_sleeve_not_paused"));
      r ← ask_portfolios (λ s, runtime_state s (Portfolio.portfolio_id (portfolio a)));
      lift (_require_breaker_clear r)
  end.

(** The first failed outcome refuses the change. *)
Definition _require_sleeve_changed (outcomes : list SleeveOutcome) : result unit :=
  guard_or (negb (existsb is_failed outcomes)) (PortfolioConflictError "portfolio_sleeve_action_failed").

Definition settle_with (strategies : Strategies) (portfolio_id proposal_id : UUID) (strategy_id : option UUID)
    (settle : PortfolioAggregate → Proposal → option SleeveStrategy → result ProposalSettlement) : D Proposal :=
  on_portfolios (λ s, settle_proposal s strategies strategies portfolio_id proposal_id strategy_id settle).

Definition error_code (e : error) : string := default "portfolio_error" (validation_code e).

Definition _fail (strategies : Strategies) (portfolio_id : UUID) (p : Proposal) (e : error) (context : MutationContext) : D Proposal :=
  settle_with strategies portfolio_id (Proposal.proposal_id p) None (λ current stored _, _failure current stored (error_code e) context).

(** Run a change of the books, then settle the proposal; the errors named in [recorded] fail it. *)
Definition change_then_settle (strategies : Strategies) (portfolio_id : UUID) (p : Proposal) (context : MutationContext)
    (recorded : error → bool) (run : D (list SleeveOutcome))
    (settle : PortfolioAggregate → Proposal → result ProposalSettlement) : D Proposal :=
  outcome ← catch (outcomes ← run; _ ← lift (_require_sleeve_changed outcomes); mret None)
    (λ e, if recorded e then Some (mret (Some e)) else None);
  match (outcome : option error) with
  | Some e => _fail strategies portfolio_id p e context
  | None => settle_with strategies portfolio_id (Proposal.proposal_id p) None (λ current stored _, settle current stored)
  end.

Definition _auto_apply_runtime (strategies : Strategies) (portfolio_id : UUID) (p : Proposal) (context : MutationContext) : D Proposal :=
  match Proposal.change p with
  | PauseSleeveChange sleeve_id =>
      change_then_settle strategies portfolio_id p context is_portfolio_error
        (pause strategies portfolio_id context (Some sleeve_id) JournalReason.manager_proposal
           (Some ("Proposal " ++ Proposal.proposal_id p)%string))
        (λ current stored, auto_applied_pause current stored context)
  | _ => mret p
  end.

Definition submit (strategies : Strategies) (portfolio_id : UUID) (request : ProposalSubmitRequest) (channel : JournalChannel)
    (now : datetime) (proposal_id sleeve_id : UUID) : D Proposal :=
  let moment := utc_millisecond now in
  _ ← on_portfolios (λ s, Ok (expire_proposals s moment));
  a ← ask_portfolios (λ s, get s strategies portfolio_id);
  _ ← lift (require_revision (portfolio a) (ProposalSubmitRequest.revision request));
  _ ← _require_applicable a (ProposalSubmitRequest.change request);
  '(_, total) ← ask_portfolios (λ s, list_proposals s portfolio_id (Some ProposalStatus.pending) 1 0);
  _ ← lift (guard_or (total <? MAX_PENDING_PROPOSALS)%nat (PortfolioConflictError "portfolio_proposal_limit"));
  let context := {| actor := JournalActor.manager; Portfolio.channel := channel; occurred_at := moment |} in
  let strategy_id := match ProposalSubmitRequest.change request with AddSleeveChange id _ _ => Some id | _ => None end in
  p ← on_portfolios (λ s, create_proposal s strategies strategies portfolio_id moment strategy_id
        (λ current moved facts, _submission current request moved facts proposal_id sleeve_id context));
  if bool_decide (Proposal.status p = ProposalStatus.pending) && bool_decide (Proposal.approval_reason p = None)
  then _auto_apply_runtime strategies portfolio_id p context
  else mret p.

(** A proposal that is still pending, read after the overdue ones expired. *)
Definition _pending (strategies : Strategies) (portfolio_id proposal_id : UUID) (now : datetime) : D (Proposal * PortfolioAggregate) :=
  _ ← on_portfolios (λ s, Ok (expire_proposals s (utc_millisecond now)));
  p ← ask_portfolios (λ s, get_proposal s portfolio_id proposal_id);
  _ ← lift (_require_pending p);
  a ← ask_portfolios (λ s, get s strategies portfolio_id);
  mret (p, a).

Definition approve (strategies : Strategies) (portfolio_id proposal_id : UUID) (request : ProposalDecisionRequest)
    (context : MutationContext) (now : datetime) (sleeve_id : UUID) : D Proposal :=
  '(p, a) ← _pending strategies portfolio_id proposal_id now;
  let context := _millisecond context in
  let note := Some ("Approved proposal " ++ proposal_id)%string in
  let recorded e := match e with PortfolioConflictError _ => true | _ => false end in
  let settle current stored := _closing current stored ProposalStatus.applied context (decision_request_note request) in
  match Proposal.change p with
  | PauseSleeveChange sleeve =>
      change_then_settle strategies portfolio_id p context recorded
        (pause strategies portfolio_id context (Some sleeve) JournalReason.manager_proposal note) settle
  | ResumeSleeveChange sleeve =>
      _ ← lift (_require_live_acknowledgement (deployment_mode a) (i_understand_live request));
      change_then_settle strategies portfolio_id p context recorded
        (resume strategies portfolio_id context (i_understand_live request) (Some sleeve) JournalReason.manager_proposal note) settle
  | change =>
      let strategy_id := match change with AddSleeveChange id _ _ => Some id | _ => None end in
      settle_with strategies portfolio_id proposal_id strategy_id
        (λ current stored facts, _approval current stored facts (decision_request_note request) sleeve_id context)
  end.

Definition decline (strategies : Strategies) (portfolio_id proposal_id : UUID) (request : ProposalDecisionRequest)
    (context : MutationContext) (now : datetime) : D Proposal :=
  _ ← _pending strategies portfolio_id proposal_id now;
  let context := _millisecond context in
  settle_with strategies portfolio_id proposal_id None
    (λ current stored _, _closing current stored ProposalStatus.declined context (decision_request_note request)).

End Actions.
