(* ===== verification/PortfolioFacts.v ===== *)
(** * PortfolioFacts: the plans of a portfolio

    Validated texts stand for fractions on a grid of four places, which the decimal context adds
    exactly; so the allocation check rejects exactly the weights that exceed the capital, and
    every plan of [Portfolio] leaves an aggregate that satisfies [agg_ok]. *)

From Stdlib Require Import Ascii.
From stdpp Require Import relations.
From S2P Require Import Prelude Decimals DecimalFacts DecimalText Market Containers TradingModels FillLedger RiskModels.
From S2P Require Import EntryLimits Portfolio Proposals PortfolioStore.

Open Scope Z_scope.

(** ** The numbers a validated text stands for *)

Lemma partition_dot_spec l : let '(whole, separator, fraction) := partition_dot l in
  "."%char ∉ whole ∧ (separator = false → fraction = []).
Proof.
  induction l as [|c l IH]; cbn; [split; [apply not_elem_of_nil|done]|].
  destruct (Ascii.eqb_spec c "."%char) as [->|Hc]; [split; [apply not_elem_of_nil|done]|].
  destruct (partition_dot l) as [[whole separator] fraction]. destruct IH as [Hw Hs]. split; [|done].
  rewrite not_elem_of_cons. split; congruence.
Qed.

Lemma partition_dot_app w f : "."%char ∉ w → partition_dot (w ++ "."%char :: f) = (w, true, f).
Proof.
  induction w as [|c w IH]; cbn; [done|]. rewrite not_elem_of_cons. intros [Hc Hw].
  destruct (Ascii.eqb_spec c "."%char); [congruence|]. by rewrite IH.
Qed.

Lemma partition_dot_plain w : "."%char ∉ w → partition_dot w = (w, false, []).
Proof.
  induction w as [|c w IH]; cbn; [done|]. rewrite not_elem_of_cons. intros [Hc Hw].
  destruct (Ascii.eqb_spec c "."%char); [congruence|]. by rewrite IH.
Qed.

Lemma whole_digits_dotless w : "."%char ∉ w → "."%char ∉ whole_digits w.
Proof.
  intros Hw. assert ("."%char ∉ lstrip0 w) as Hl.
  { clear -Hw. induction w as [|c w IH]; cbn; [done|]. apply not_elem_of_cons in Hw as [Hc Hw].
    destruct (Ascii.eqb c "0"%char); [auto|]. rewrite not_elem_of_cons. done. }
  unfold whole_digits. destruct (lstrip0 w); [|done]. by rewrite list_elem_of_singleton.
Qed.

Lemma parse_digits_length l k : parse_digits l = Some k → length k = length l.
Proof.
  revert k. induction l as [|c l IH]; intros k; cbn; [by intros [= <-]|].
  destruct (digit_value c) as [z|]; [|done]. cbn. destruct (parse_digits l) as [r|]; [|done]. intros [= <-]. cbn. by rewrite IH.
Qed.

(** A parsed text has as many places as digits after its point. *)
Lemma parse_decimal_places c w f d : Ascii.eqb c "-"%char = false → "."%char ∉ c :: w →
  parse_decimal (match f with [] => c :: w | _ => (c :: w) ++ "."%char :: f end) = Some d → exponent d = - Z.of_nat (length f).
Proof.
  intros Hc Hw. unfold parse_decimal. destruct f as [|x f].
  - rewrite Hc, partition_dot_plain by done. destruct (parse_digits (c :: w)) as [k|]; [|done]. cbn.
    case_bool_decide; [done|]. by intros [= <-].
  - cbn [app]. rewrite Hc. change (c :: w ++ "."%char :: x :: f) with ((c :: w) ++ "."%char :: x :: f).
    rewrite partition_dot_app by done. destruct (parse_digits (c :: w)) as [k|]; [|done]. cbn [mbind option_bind].
    destruct (parse_digits (x :: f)) as [j|] eqn:Hj; [|done]. cbn [mbind option_bind]. case_bool_decide; [done|].
    intros [= <-]. cbn [exponent]. by apply parse_digits_length in Hj as ->.
Qed.

Lemma on_grid_exponent g d : 0 <= g → - g <= exponent d → on_grid g (val d).
Proof.
  intros Hg He. exists (coef d * 10 ^ (exponent d + g)). unfold val. rewrite inject_Z_mult, <- p10_Z by lia.
  rewrite <- Qmult_assoc, <- p10_add. by replace (exponent d + g + - g) with (exponent d) by lia.
Qed.

(** A validated text stands for a number on the grid of its places. *)
Lemma canonical_decimal_text_grid value places t : canonical_decimal_text value places = Ok t →
  on_grid (Z.of_nat places) (val (decimal_of t)).
Proof.
  unfold canonical_decimal_text. case_match eqn:Hguard; [done|].
  apply orb_false_iff in Hguard as [_ Htext]. apply negb_false_iff in Htext. unfold _DECIMAL_TEXT in Htext.
  pose proof (partition_dot_spec (chars value)) as Hdots. destruct (partition_dot (chars value)) as [[whole separator] fraction].
  destruct Hdots as [Hdots _]. cbn zeta. destruct (places <? length (rstrip0 fraction))%nat eqn:Hplaces; [done|].
  intros [= <-]. apply Nat.ltb_ge in Hplaces.
  apply andb_true_iff in Htext as [Hwhole _].
  assert (∃ c w, whole_digits whole = c :: w ∧ Ascii.eqb c "-"%char = false ∧ "."%char ∉ c :: w) as (c & w & Hcw & Hc & Hdot).
  { pose proof (whole_digits_dotless whole Hdots) as Hd. destruct whole as [|x whole]; [done|].
    apply andb_true_iff in Hwhole as [_ Hdigits]. unfold whole_digits in *.
    assert (∀ l, forallb is_decimal_digit l = true → forallb is_decimal_digit (lstrip0 l) = true) as Hstrip.
    { induction l as [|y l IH]; cbn; [done|]. intros [Hy Hl]%andb_true_iff. destruct (Ascii.eqb y "0"%char); [auto|]. cbn. by rewrite Hy. }
    specialize (Hstrip _ Hdigits). destruct (lstrip0 (x :: whole)) as [|c w].
    - exists "0"%char, []. split; [done|]. split; [done|]. done.
    - exists c, w. split; [done|]. split; [|done]. cbn in Hstrip. apply andb_true_iff in Hstrip as [Hc _].
      destruct (Ascii.eqb_spec c "-"%char) as [->|]; [done|done]. }
  rewrite Hcw. unfold decimal_of. rewrite String.list_ascii_of_string_of_list_ascii.
  destruct (parse_decimal _) as [d|] eqn:Hd; cbn; [|by apply on_grid_exponent; cbn; lia].
  apply parse_decimal_places in Hd; [|done..]. apply on_grid_exponent; lia.
Qed.

(** Bounds and grid of a field of a range type. *)
Lemma holds_ranged t places lo hi il ih : holds_value (λ v, _ranged v places lo hi il ih) t = true →
  on_grid (Z.of_nat places) (val (decimal_of t)) ∧ (val lo <= val (decimal_of t) ∧ val (decimal_of t) <= val hi)%Q ∧
  (il = false → val lo < val (decimal_of t))%Q ∧ (ih = false → val (decimal_of t) < val hi)%Q.
Proof.
  unfold holds_value, _ranged. rewrite bool_decide_eq_true. intros (u & Hu & H)%bind_Ok. cbn zeta in H.
  case_match eqn:Hr; [|done]. injection H as ->. apply andb_true_iff in Hr as [Ha Hb].
  split; [by eapply canonical_decimal_text_grid|].
  destruct il, ih; rewrite ?dleb_le, ?dltb_lt in Ha; rewrite ?dleb_le, ?dltb_lt in Hb; split_and!; try done; by apply Qlt_le_weak.
Qed.

Definition weight_of (x : Sleeve) : Q := val (decimal_of (Sleeve.weight_fraction x)).

Definition fraction_ok (q : Q) : Prop := on_grid 4 q ∧ (0 <= q <= 1)%Q.

Lemma weight_fraction_ok t : holds_value _weight_fraction t = true → fraction_ok (val (decimal_of t)) ∧ (0 < val (decimal_of t))%Q.
Proof.
  intros (Hg & [Hlo Hhi] & Hpos & _)%holds_ranged. rewrite val_d0, val_d1 in *. unfold fraction_ok. auto 10.
Qed.

Lemma reserve_fraction_ok t : holds_value _reserve_fraction t = true → fraction_ok (val (decimal_of t)).
Proof. intros (Hg & [Hlo Hhi] & _)%holds_ranged. rewrite val_d0, val_d1 in *. unfold fraction_ok. auto 10. Qed.

(** Sums of fractions are exact. *)
Definition Qsum (l : list Q) : Q := foldr Qplus 0%Q l.

Lemma Qsum_app l k : (Qsum (l ++ k) == Qsum l + Qsum k)%Q.
Proof. unfold Qsum. induction l as [|x l IH]; cbn; [ring|]. rewrite IH. ring. Qed.

Lemma Qsum_perm l k : l ≡ₚ k → (Qsum l == Qsum k)%Q.
Proof. unfold Qsum. induction 1; cbn; [done|by rewrite IHPermutation|ring|etrans; eauto]. Qed.

Section Exact.
Context {dc : DecimalContext} (Hwide : wide dc).

Lemma grid_sum_exact g a b : 0 <= g <= 8 → on_grid g (val a) → on_grid g (val b) →
  (Qabs (val a + val b) <= p10 20)%Q → (val (a + b)%dec == val a + val b)%Q.
Proof.
  intros Hg Ha Hb Hsize. eapply rounds_exact; [apply add_rounds|]. unfold wide in Hwide.
  apply (on_grid_representable prec g); [lia|by apply on_grid_plus|]. etrans; [exact Hsize|].
  rewrite !p10_Z by lia. rewrite <- Zle_Qle. apply Z.pow_le_mono_r; lia.
Qed.

Lemma grid_0 g : on_grid g 0.
Proof. exists 0. cbn. ring. Qed.

Lemma on_grid_equal g q r : (q == r)%Q → on_grid g q → on_grid g r.
Proof. intros Hq [n Hn]. exists n. by rewrite <- Hq. Qed.

Lemma Qsum_bounds l : Forall (λ q, 0 <= q <= 1)%Q l → (0 <= Qsum l <= inject_Z (Z.of_nat (length l)))%Q.
Proof.
  unfold Qsum. induction 1 as [|q l [H0 H1] _ IH]; cbn [foldr length]; [done|].
  rewrite Nat2Z.inj_succ, <- Z.add_1_r, inject_Z_plus. change (inject_Z 1) with 1%Q. destruct IH; split; lra.
Qed.

(** [sum] of fractions loses nothing, for any list that can be written down. *)
Lemma fold_add_exact ds : Forall (λ d, fraction_ok (val d)) ds → ∀ acc, on_grid 4 (val acc) → (0 <= val acc)%Q →
  (val acc + inject_Z (Z.of_nat (length ds)) <= inject_Z (10 ^ 20))%Q →
  (val (fold_left add ds acc) == val acc + Qsum (map val ds))%Q ∧ on_grid 4 (val (fold_left add ds acc)).
Proof.
  induction 1 as [|d ds [Hd [Hd0 Hd1]] _ IH]; intros acc Hg H0 Hk.
  - split; [|done]. cbn. ring.
  - cbn [length] in Hk. rewrite Nat2Z.inj_succ, <- Z.add_1_r, inject_Z_plus in Hk. change (inject_Z 1) with 1%Q in Hk.
    assert (0 <= inject_Z (Z.of_nat (length ds)))%Q by (change 0%Q with (inject_Z 0); rewrite <- Zle_Qle; lia).
    assert (val (acc + d)%dec == val acc + val d)%Q as He.
    { apply (grid_sum_exact 4); [lia|done..|]. rewrite Qabs_pos by lra. rewrite p10_Z by lia. lra. }
    destruct (IH (acc + d)%dec) as [IHv IHg].
    { eapply on_grid_equal; [symmetry; exact He|]. by apply on_grid_plus. } { rewrite He. lra. } { rewrite He. lra. }
    split; [|done]. change (fold_left add (d :: ds) acc) with (fold_left add ds (acc + d)%dec).
    change (Qsum (map val (d :: ds))) with (val d + Qsum (map val ds))%Q.
    rewrite IHv, He. set (q := Qsum _). ring.
Qed.

Lemma dsum_exact ds : Forall (λ d, fraction_ok (val d)) ds → (Z.of_nat (length ds) <= 10 ^ 19) →
  (val (dsum ds) == Qsum (map val ds))%Q ∧ on_grid 4 (val (dsum ds)).
Proof.
  intros Hds Hlen. destruct (fold_add_exact ds Hds d0) as [Hv Hg].
  - apply grid_0.
  - by rewrite val_d0.
  - rewrite val_d0, Qplus_0_l, <- Zle_Qle. lia.
  - unfold dsum. split; [|done]. rewrite Hv, val_d0. apply Qplus_0_l.
Qed.
End Exact.

(** ** One aggregate *)

(** Weights and reserve are fractions on the code's grid and never exceed the capital; a sleeve
    has its own identifier and its own strategy. *)
Record sleeves_ok (reserve : string) (l : list Sleeve) : Prop := {
  ok_reserve : fraction_ok (val (decimal_of reserve));
  ok_weights : ∀ x, x ∈ l → fraction_ok (weight_of x) ∧ (0 < weight_of x)%Q;
  ok_ids : NoDup (Sleeve.sleeve_id <$> l);
  ok_strategies : NoDup (Sleeve.strategy_id <$> l);
  ok_count : (length l <= MAX_SLEEVES)%nat;
  ok_total : (Qsum (map weight_of l) + val (decimal_of reserve) <= 1)%Q
}.

Definition text_value (t : string) : Q := val (decimal_of t).
Definition weight_text (t : string) : Prop := fraction_ok (text_value t) ∧ (0 < text_value t)%Q.

Definition agg_ok (a : PortfolioAggregate) : Prop :=
  sleeves_ok (Portfolio.cash_reserve_fraction (portfolio a)) (sleeve <$> sleeves a) ∧
  ManagerSettings.valid_manager (Portfolio.manager (portfolio a)) = true.

Definition plan_ok (id : UUID) (plan : MutationPlan) : Prop :=
  Portfolio.portfolio_id (plan_portfolio plan) = id ∧ ManagerSettings.valid_manager (Portfolio.manager (plan_portfolio plan)) = true ∧
  sleeves_ok (Portfolio.cash_reserve_fraction (plan_portfolio plan)) (plan_sleeves plan).

(** The weights a complete assignment gives, in the order of the sleeves. *)
Definition assigned_values (ws : list WeightAssignment) (a : PortfolioAggregate) : list Q :=
  map (λ v, text_value (default "" (dict_get (Sleeve.sleeve_id (sleeve v)) (assigned_weights ws)))) (sleeves a).
Definition held_values (a : PortfolioAggregate) : list Q := map (λ v, weight_of (sleeve v)) (sleeves a).

Section Plans.
Context {dc : DecimalContext} (Hwide : wide dc).

(** The check rejects exactly the weights that exceed the capital. *)
Lemma require_allocation_Ok ws r : Forall (λ w, fraction_ok (text_value w)) ws → fraction_ok (text_value r) →
  (length ws <= 64)%nat → require_allocation ws r = Ok tt ↔ (Qsum (map text_value ws) + text_value r <= 1)%Q.
Proof.
  intros Hws [Hrg [Hr0 Hr1]] Hlen. unfold require_allocation, allocated_fraction.
  destruct (dsum_exact Hwide (map decimal_of ws)) as [Hsum Hgrid].
  { apply Forall_fmap. exact Hws. } { rewrite length_map. lia. }
  change (decimal_of <$> ws) with (map decimal_of ws). cbn zeta.
  assert (map val (map decimal_of ws) = map text_value ws) as Hmap by (rewrite map_map; done).
  rewrite Hmap in Hsum.
  assert (0 <= Qsum (map text_value ws) <= inject_Z (Z.of_nat (length (map text_value ws))))%Q as [H0 H1].
  { apply Qsum_bounds, Forall_fmap. eapply Forall_impl; [exact Hws|]. by intros w [_ Hw]. }
  rewrite length_map in H1.
  assert (inject_Z (Z.of_nat (length ws)) <= inject_Z 64)%Q as H64 by (rewrite <- Zle_Qle; lia).
  assert (val (dsum (map decimal_of ws) + decimal_of r)%dec == Qsum (map text_value ws) + text_value r)%Q as Htotal.
  { rewrite (grid_sum_exact Hwide 4); [|lia|done|done|]; change (val (decimal_of r)) with (text_value r).
    - rewrite Hsum. done.
    - rewrite Hsum. rewrite Qabs_pos by lra. rewrite p10_Z by lia.
      assert (65 <= inject_Z (10 ^ 20))%Q by (change 65%Q with (inject_Z 65); rewrite <- Zle_Qle; lia).
      change (inject_Z 64) with 64%Q in H64. lra. }
  destruct (d1 <? dsum (map decimal_of ws) + decimal_of r)%dec eqn:E.
  - apply dltb_lt in E. rewrite val_d1, Htotal in E. split; [done|]. intros H. lra.
  - apply dltb_ge in E. rewrite val_d1, Htotal in E. done.
Qed.

Lemma weight_text_of t : holds_value _weight_fraction t = true → weight_text t.
Proof. apply weight_fraction_ok. Qed.

Lemma find_sleeve_elem a id v : find_sleeve a id = Ok v → v ∈ sleeves a ∧ Sleeve.sleeve_id (sleeve v) = id.
Proof.
  unfold find_sleeve. destruct (List.find _ _) as [w|] eqn:E; [|done]. intros [= ->].
  apply find_some in E as [Hin Hid]. rewrite bool_decide_eq_true in Hid. by rewrite list_elem_of_In.
Qed.

Lemma view_weights_map vs : map text_value (view_weights vs) = map weight_of (sleeve <$> vs).
Proof. unfold view_weights. induction vs as [|v vs IH]; cbn; [done|]. by f_equal. Qed.

Lemma view_weights_ok a : agg_ok a → Forall (λ w, fraction_ok (text_value w)) (view_weights (sleeves a)).
Proof.
  intros Ha. apply Forall_fmap, Forall_forall. intros v Hv. apply (ok_weights _ _ (proj1 Ha)).
  apply list_elem_of_fmap. by exists v.
Qed.

Lemma length_view_weights vs : length (view_weights vs) = length vs.
Proof. apply length_fmap. Qed.

Lemma agg_count a : agg_ok a → (length (sleeves a) <= 32)%nat.
Proof. intros Ha. pose proof (ok_count _ _ (proj1 Ha)) as Hc. rewrite length_fmap in Hc. exact Hc. Qed.

Lemma or_current_ok (P : string → Prop) proposed current :
  P current → (∀ t, proposed = Some t → P t) → P (or_current proposed current).
Proof.
  intros Hc Hp. unfold or_current, truthy. destruct proposed as [t|]; [|done]. cbn. case_decide; cbn; [done|]. by apply Hp.
Qed.

Lemma plan_update_ok a request context plan : agg_ok a → PortfolioUpdateRequest.valid_update request = true →
  plan_update a request context = Ok (Some plan) → plan_ok (Portfolio.portfolio_id (portfolio a)) plan.
Proof.
  intros Ha Hvalid. unfold plan_update. intros (u & _ & H)%bind_Ok. cbn zeta in H. case_match; [done|].
  apply bind_Ok in H as ([] & Hcheck & [= <-]). split; [done|].
  unfold PortfolioUpdateRequest.valid_update in Hvalid. repeat (apply andb_true_iff in Hvalid as [Hvalid ?]).
  split; cbn.
  { destruct (PortfolioUpdateRequest.manager request); [done|exact (proj2 Ha)]. }
  assert (fraction_ok (text_value (or_current (PortfolioUpdateRequest.cash_reserve_fraction request)
    (Portfolio.cash_reserve_fraction (portfolio a))))) as Hres.
  { apply (or_current_ok (λ t, fraction_ok (text_value t))); [apply (ok_reserve _ _ (proj1 Ha))|]. intros t Ht.
    rewrite Ht in *. by apply reserve_fraction_ok. }
  pose proof (agg_count a Ha).
  apply require_allocation_Ok in Hcheck; [|by apply view_weights_ok|done|rewrite length_view_weights; lia].
  rewrite view_weights_map in Hcheck. destruct Ha as [[] _]. by constructor.
Qed.

(** A set of sleeves grown by sleeves of new strategies under new identifiers. *)
Lemma sleeves_ok_app reserve l k : sleeves_ok reserve l → (∀ x, x ∈ k → weight_text (Sleeve.weight_fraction x)) →
  NoDup (Sleeve.sleeve_id <$> k) → NoDup (Sleeve.strategy_id <$> k) →
  (∀ x y, x ∈ l → y ∈ k → Sleeve.sleeve_id x ≠ Sleeve.sleeve_id y ∧ Sleeve.strategy_id x ≠ Sleeve.strategy_id y) →
  (length l + length k <= MAX_SLEEVES)%nat →
  (Qsum (map weight_of (l ++ k)) + text_value reserve <= 1)%Q → sleeves_ok reserve (l ++ k).
Proof.
  intros [Hr Hw Hi Hs Hc _] Hk Hki Hks Hne Hlen Htotal. constructor; try done.
  - intros x [Hx|Hx]%elem_of_app; [by apply Hw|by apply Hk].
  - rewrite fmap_app, NoDup_app. split_and!; try done. intros i (x & -> & Hx)%list_elem_of_fmap (y & Hy & Hin)%list_elem_of_fmap.
    by apply (proj1 (Hne x y Hx Hin)).
  - rewrite fmap_app, NoDup_app. split_and!; try done. intros i (x & -> & Hx)%list_elem_of_fmap (y & Hy & Hin)%list_elem_of_fmap.
    by apply (proj2 (Hne x y Hx Hin)).
  - by rewrite length_app.
Qed.

(** The weights checked before sleeves are added are the weights of the sleeves that result. *)
Lemma added_weights a k ws reserve : agg_ok a → Forall weight_text ws → map weight_of k = map text_value ws →
  (length (sleeves a) + length ws <= MAX_SLEEVES)%nat → fraction_ok (text_value reserve) →
  require_allocation (view_weights (sleeves a) ++ ws) reserve = Ok tt →
  (Qsum (map weight_of ((sleeve <$> sleeves a) ++ k)) + text_value reserve <= 1)%Q.
Proof.
  intros Ha Hws Hk Hlen Hr Hcheck. apply require_allocation_Ok in Hcheck; [|..|done|].
  - by rewrite map_app, Hk, <- view_weights_map, <- map_app.
  - apply Forall_app. split; [by apply view_weights_ok|]. eapply Forall_impl; [exact Hws|]. by intros w [Hw _].
  - rewrite length_app, length_view_weights. unfold MAX_SLEEVES in Hlen. lia.
Qed.

Lemma plan_add_sleeve_ok a s request sleeve_id context plan : agg_ok a →
  holds_value _weight_fraction (SleeveAddRequest.weight_fraction request) = true →
  (∀ v, v ∈ sleeves a → Sleeve.sleeve_id (sleeve v) ≠ sleeve_id) →
  plan_add_sleeve a s request sleeve_id context = Ok plan → plan_ok (Portfolio.portfolio_id (portfolio a)) plan.
Proof.
  intros Ha Hvalid Hfresh. unfold plan_add_sleeve. intros (u & _ & H)%bind_Ok. cbn zeta in H.
  destruct (List.find _ _) eqn:Hfind; [done|]. apply bind_Ok in H as ([] & Hcount & H). apply guard_or_Ok, Nat.ltb_lt in Hcount.
  apply bind_Ok in H as ([] & _ & H). apply bind_Ok in H as ([] & Hcheck & [= <-]). split; [done|]. split; [exact (proj2 Ha)|]. cbn.
  pose proof (weight_text_of _ Hvalid) as Hw.
  apply sleeves_ok_app; [exact (proj1 Ha)|..].
  - by intros x ->%list_elem_of_singleton.
  - apply NoDup_singleton.
  - apply NoDup_singleton.
  - intros x y (v & -> & Hv)%list_elem_of_fmap ->%list_elem_of_singleton. cbn. split; [by apply Hfresh|]. intros He.
    apply list_elem_of_In, (find_none _ _ Hfind) in Hv. by apply bool_decide_eq_false in Hv.
  - rewrite length_fmap. cbn. unfold MAX_SLEEVES in *. lia.
  - apply (added_weights a _ [SleeveAddRequest.weight_fraction request]);
      [done|by constructor|done|cbn; unfold MAX_SLEEVES in *; lia|apply (ok_reserve _ _ (proj1 Ha))|done].
Qed.

Lemma zip3_strict_spec {A B C} (l : list A) (m : list B) (n : list C) rows : zip3_strict l m n = Ok rows →
  (λ r, r.1.1) <$> rows = l ∧ (λ r, r.1.2) <$> rows = m ∧ (λ r, r.2) <$> rows = n.
Proof.
  revert m n rows. induction l as [|a l IH]; intros [|b m] [|c n] rows; cbn; try done; [by intros [= <-]|].
  intros (rest & Hrest & [= <-])%bind_Ok. destruct (IH _ _ _ Hrest) as (<- & <- & <-). done.
Qed.

Lemma strategy_sleeve_None views id : strategy_sleeve views id = None → ∀ v, v ∈ views → Sleeve.strategy_id (sleeve v) ≠ id.
Proof.
  unfold strategy_sleeve. assert (∀ d, dict_get id (fold_left (λ d v, dict_set (Sleeve.strategy_id (sleeve v)) (Sleeve.sleeve_id (sleeve v)) d) views d) = None →
    dict_get id d = None ∧ ∀ v, v ∈ views → Sleeve.strategy_id (sleeve v) ≠ id) as H; [|intros He; by apply (H [])].
  induction views as [|v views IH]; cbn; intros d Hd; [split; [done|]; by intros v ?%elem_of_nil|].
  apply IH in Hd as [Hd Hv]. destruct (decide (Sleeve.strategy_id (sleeve v) = id)) as [<-|Hne].
  - by rewrite dict_get_set in Hd.
  - rewrite dict_get_set_ne in Hd by congruence. split; [done|]. intros w [->|Hw]%elem_of_cons; auto.
Qed.

Lemma mapM_all {A} (f : A → result unit) l ys x : result_mapM f l = Ok ys → x ∈ l → f x = Ok tt.
Proof.
  revert ys. induction l as [|y l IH]; intros ys; cbn; [by intros _ ?%elem_of_nil|].
  intros ([] & Hy & (k & Hk & _)%bind_Ok)%bind_Ok [->|Hx]%elem_of_cons; [done|]. by eapply IH.
Qed.

Lemma plan_sleeves_ok p current strategies items ids context plan :
  sleeves_ok (Portfolio.cash_reserve_fraction p) (sleeve <$> current) → ManagerSettings.valid_manager (Portfolio.manager p) = true →
  forallb valid_item items = true →
  distinct_strategies items = true → SleeveStrategy.strategy_id <$> strategies = SleeveBatchItem.strategy_id <$> items →
  NoDup ids → (∀ v, v ∈ current → Sleeve.sleeve_id (sleeve v) ∉ ids) →
  _plan_sleeves p current strategies items ids context = Ok plan → plan_ok (Portfolio.portfolio_id p) plan.
Proof.
  intros Ha0 Hmanager Hitems Hdistinct Hfacts Hids Hfresh. unfold _plan_sleeves. intros (us & Hnew & H)%bind_Ok.
  apply bind_Ok in H as ([] & Hcount & H). apply guard_or_Ok, Nat.leb_le in Hcount. apply bind_Ok in H as (us' & _ & H).
  apply bind_Ok in H as ([] & Hcheck & H). cbn zeta in H. apply bind_Ok in H as (rows & Hrows%zip3_strict_spec & [= <-]).
  destruct Hrows as (Hstrategies & Hbatch & Hdrawn). split; [done|]. split; [done|]. cbn.
  set (k := _ <$> rows).
  assert (Sleeve.sleeve_id <$> k = ids) as Hk by (unfold k; rewrite <- Hdrawn, <- list_fmap_compose; apply list_fmap_ext; by intros ? [[s i] id]).
  assert (Sleeve.strategy_id <$> k = SleeveBatchItem.strategy_id <$> items) as Hks.
  { unfold k. rewrite <- Hfacts, <- Hstrategies, <- !list_fmap_compose. apply list_fmap_ext; by intros ? [[s i] id]. }
  assert (Sleeve.weight_fraction <$> k = SleeveBatchItem.weight_fraction <$> items) as Hkw.
  { unfold k. rewrite <- Hbatch, <- !list_fmap_compose. apply list_fmap_ext; by intros ? [[s i] id]. }
  assert (Forall weight_text (SleeveBatchItem.weight_fraction <$> items)) as Hweights.
  { apply Forall_fmap, Forall_forall. intros i Hi. apply weight_text_of. rewrite forallb_forall in Hitems.
    apply Hitems. by rewrite <- list_elem_of_In. }
  set (a := {| portfolio := p; sleeves := current |}). assert (agg_ok a) as Ha by done.
  apply sleeves_ok_app; [exact (proj1 Ha)|..].
  - intros x Hx. rewrite <- Hkw in Hweights. rewrite Forall_fmap, Forall_forall in Hweights. by apply Hweights.
  - by rewrite Hk.
  - rewrite Hks. by apply bool_decide_eq_true in Hdistinct.
  - intros x y (v & -> & Hv)%list_elem_of_fmap Hy. split.
    + intros He. apply (Hfresh v Hv). rewrite He, <- Hk. apply list_elem_of_fmap. by exists y.
    + apply (strategy_sleeve_None current); [|done]. assert (Sleeve.strategy_id y ∈ SleeveStrategy.strategy_id <$> strategies) as Hin.
      { rewrite Hfacts, <- Hks. apply list_elem_of_fmap. by exists y. }
      apply list_elem_of_fmap in Hin as (s & -> & Hs). eapply mapM_all in Hnew; [|exact Hs]. cbn beta in Hnew. by case_match.
  - rewrite length_fmap. assert (length k = length items) as ->; [|done]. rewrite <- (length_fmap Sleeve.strategy_id k), Hks. apply length_fmap.
  - apply (added_weights a k (SleeveBatchItem.weight_fraction <$> items)); [done|done| | |apply (ok_reserve _ _ (proj1 Ha))|done].
    + rewrite <- Hkw. unfold fmap. rewrite <- list_fmap_compose. done.
    + rewrite length_fmap. exact Hcount.
Qed.

Lemma plan_create_ok request id context strategies ids plan : PortfolioCreateRequest.valid_create request = true →
  SleeveStrategy.strategy_id <$> strategies = SleeveBatchItem.strategy_id <$> PortfolioCreateRequest.sleeves request →
  NoDup ids → plan_create request id context strategies ids = Ok plan → plan_ok id plan.
Proof.
  intros Hvalid Hfacts Hids. unfold plan_create. cbn zeta. intros (made & Hmade & [= <-])%bind_Ok.
  unfold PortfolioCreateRequest.valid_create in Hvalid. repeat (apply andb_true_iff in Hvalid as [Hvalid ?]).
  apply plan_sleeves_ok in Hmade; try done; [|by intros v ?%elem_of_nil].
  cbn. assert (fraction_ok (text_value (PortfolioCreateRequest.cash_reserve_fraction request))) as Hr by by apply reserve_fraction_ok.
  constructor; cbn; [exact Hr|by intros x ?%elem_of_nil|apply NoDup_nil_2..|lia|]. destruct Hr as [_ [_ Hr]].
  change (0 + text_value (PortfolioCreateRequest.cash_reserve_fraction request) <= 1)%Q. lra.
Qed.

Lemma plan_add_sleeves_ok a strategies request ids context plan : agg_ok a → SleevesAddRequest.valid_add_batch request = true →
  SleeveStrategy.strategy_id <$> strategies = SleeveBatchItem.strategy_id <$> SleevesAddRequest.sleeves request →
  NoDup ids → (∀ v, v ∈ sleeves a → Sleeve.sleeve_id (sleeve v) ∉ ids) →
  plan_add_sleeves a strategies request ids context = Ok plan → plan_ok (Portfolio.portfolio_id (portfolio a)) plan.
Proof.
  intros Ha Hvalid Hfacts Hids Hfresh. unfold plan_add_sleeves. intros (u & _ & H)%bind_Ok.
  unfold SleevesAddRequest.valid_add_batch in Hvalid. repeat (apply andb_true_iff in Hvalid as [Hvalid ?]).
  eapply plan_sleeves_ok in H; [exact H|exact (proj1 Ha)|exact (proj2 Ha)|done..].
Qed.

(** Sleeves whose terms changed keep their identifiers and strategies. *)
Lemma sleeves_ok_terms reserve reserve' (vs : list SleeveView) (f : SleeveView → Sleeve) : sleeves_ok reserve (sleeve <$> vs) →
  (∀ v, v ∈ vs → Sleeve.sleeve_id (f v) = Sleeve.sleeve_id (sleeve v) ∧ Sleeve.strategy_id (f v) = Sleeve.strategy_id (sleeve v) ∧
     weight_text (Sleeve.weight_fraction (f v))) →
  fraction_ok (text_value reserve') → (Qsum (map weight_of (f <$> vs)) + text_value reserve' <= 1)%Q → sleeves_ok reserve' (f <$> vs).
Proof.
  intros [_ _ Hi Hs Hc _] Hf Hr Htotal.
  assert (Sleeve.sleeve_id <$> (f <$> vs) = Sleeve.sleeve_id <$> (sleeve <$> vs)) as Hids.
  { rewrite <- !list_fmap_compose. apply list_fmap_ext. intros i v Hv. apply Hf. by eapply list_elem_of_lookup_2. }
  assert (Sleeve.strategy_id <$> (f <$> vs) = Sleeve.strategy_id <$> (sleeve <$> vs)) as Hstrategies.
  { rewrite <- !list_fmap_compose. apply list_fmap_ext. intros i v Hv. apply Hf. by eapply list_elem_of_lookup_2. }
  constructor; try done; [|by rewrite Hids|by rewrite Hstrategies|by rewrite length_fmap in *].
  intros x (v & -> & Hv)%list_elem_of_fmap. by apply Hf.
Qed.

Lemma sleeve_weight_text a v : agg_ok a → v ∈ sleeves a → weight_text (Sleeve.weight_fraction (sleeve v)).
Proof. intros Ha Hv. apply (ok_weights _ _ (proj1 Ha)), list_elem_of_fmap. by exists v. Qed.

Lemma plan_update_sleeve_ok a id request context plan : agg_ok a → SleeveUpdateRequest.valid_sleeve_update request = true →
  plan_update_sleeve a id request context = Ok (Some plan) → plan_ok (Portfolio.portfolio_id (portfolio a)) plan.
Proof.
  intros Ha Hvalid. unfold plan_update_sleeve. intros (u & _ & H)%bind_Ok.
  apply bind_Ok in H as (view & [Hview Hid]%find_sleeve_elem & H). cbn zeta in H. case_decide; [done|].
  apply bind_Ok in H as ([] & Hcheck & [= <-]). split; [done|]. split; [exact (proj2 Ha)|].
  set (weight := or_current _ _) in *. cbn [plan_portfolio plan_sleeves Portfolio.next Portfolio.cash_reserve_fraction].
  assert (weight_text weight) as Hweight.
  { apply or_current_ok; [by eapply sleeve_weight_text|]. intros t Ht. unfold SleeveUpdateRequest.valid_sleeve_update in Hvalid.
    rewrite Ht in Hvalid. cbn in Hvalid. repeat (apply andb_true_iff in Hvalid as [Hvalid ?]). by apply weight_text_of. }
  set (f := λ v : SleeveView, if bool_decide (Sleeve.sleeve_id (sleeve v) = id) then _ else _).
  assert (Hf : ∀ v, v ∈ sleeves a → Sleeve.sleeve_id (f v) = Sleeve.sleeve_id (sleeve v) ∧ Sleeve.strategy_id (f v) = Sleeve.strategy_id (sleeve v) ∧
    Sleeve.weight_fraction (f v) = if bool_decide (Sleeve.sleeve_id (sleeve v) = id) then weight else Sleeve.weight_fraction (sleeve v)).
  { intros v Hv. unfold f. case_bool_decide as Hv'; [|done]. split_and!; try done;
      assert (v = view) as -> by (apply (NoDup_key_inj (λ v, Sleeve.sleeve_id (sleeve v)) (sleeves a)); [|done..|congruence];
        pose proof (ok_ids _ _ (proj1 Ha)) as Hn; by rewrite <- list_fmap_compose in Hn); done. }
  apply (sleeves_ok_terms (Portfolio.cash_reserve_fraction (portfolio a))); [exact (proj1 Ha)| |apply (ok_reserve _ _ (proj1 Ha))|].
  - intros v Hv. destruct (Hf v Hv) as (-> & -> & ->). split_and!; try done. case_bool_decide; [done|]. by eapply sleeve_weight_text.
  - assert (map weight_of (f <$> sleeves a) = map text_value
      ((λ v, if bool_decide (Sleeve.sleeve_id (sleeve v) = id) then weight else Sleeve.weight_fraction (sleeve v)) <$> sleeves a)) as ->.
    { rewrite <- !list_fmap_compose. apply list_fmap_ext. intros i v Hv%list_elem_of_lookup_2. cbn. unfold weight_of.
      by destruct (Hf v Hv) as (_ & _ & ->). }
    case_decide as Hsame.
    + pose proof (ok_total _ _ (proj1 Ha)) as Ht. rewrite <- view_weights_map in Ht.
      assert ((λ v, if bool_decide (Sleeve.sleeve_id (sleeve v) = id) then weight else Sleeve.weight_fraction (sleeve v)) <$> sleeves a
        = view_weights (sleeves a)) as ->; [|exact Ht].
      apply list_fmap_ext. intros i v Hv%list_elem_of_lookup_2. cbn. case_bool_decide; [|done]. rewrite Hsame.
      do 2 f_equal. apply (NoDup_key_inj (λ v, Sleeve.sleeve_id (sleeve v)) (sleeves a)); [|done..|congruence].
      pose proof (ok_ids _ _ (proj1 Ha)) as Hn. by rewrite <- list_fmap_compose in Hn.
    + pose proof (agg_count a Ha). apply require_allocation_Ok in Hcheck; [exact Hcheck| |apply (ok_reserve _ _ (proj1 Ha))|rewrite length_fmap; lia].
      apply Forall_fmap, Forall_forall. intros v Hv. cbn. case_bool_decide; [apply Hweight|]. by apply (sleeve_weight_text a).
Qed.

Lemma sublist_sleeves_ok reserve l k : sleeves_ok reserve l → k `sublist_of` l → sleeves_ok reserve k.
Proof.
  intros [Hr Hw Hi Hs Hc Ht] Hk. constructor; try done.
  - intros x Hx. apply Hw. by eapply elem_of_sublist.
  - eapply sublist_NoDup; [exact Hi|]. by apply fmap_sublist.
  - eapply sublist_NoDup; [exact Hs|]. by apply fmap_sublist.
  - apply sublist_length in Hk. lia.
  - assert (Qsum (map weight_of k) <= Qsum (map weight_of l))%Q; [|lra]. clear Hi Hs Hc Ht.
    induction Hk as [|x k l Hk IH|x k l Hk IH]; cbn; [lra|..].
    + change (weight_of x + Qsum (map weight_of k) <= weight_of x + Qsum (map weight_of l))%Q.
      assert (Qsum (map weight_of k) <= Qsum (map weight_of l))%Q by (apply IH; intros y Hy; apply Hw; by right). lra.
    + change (Qsum (map weight_of k) <= weight_of x + Qsum (map weight_of l))%Q.
      assert (Qsum (map weight_of k) <= Qsum (map weight_of l))%Q by (apply IH; intros y Hy; apply Hw; by right).
      destruct (Hw x ltac:(left)) as [_ Hx]. lra.
Qed.

Lemma filter_sublist {A} (f : A → bool) l : List.filter f l `sublist_of` l.
Proof. induction l as [|x l IH]; cbn; [done|]. destruct (f x); by constructor. Qed.

Lemma plan_remove_sleeve_ok a id expected context deleted plan : agg_ok a →
  plan_remove_sleeve a id expected context deleted = Ok plan → plan_ok (Portfolio.portfolio_id (portfolio a)) plan.
Proof.
  intros Ha. unfold plan_remove_sleeve. cbn zeta. intros (u & _ & H)%bind_Ok. apply bind_Ok in H as (view & _ & [= <-]).
  split; [done|]. split; [exact (proj2 Ha)|]. cbn. eapply sublist_sleeves_ok; [exact (proj1 Ha)|]. apply fmap_sublist, filter_sublist.
Qed.

Lemma assigned_weights_wf ws : dict_wf (assigned_weights ws).
Proof.
  unfold assigned_weights. generalize (dict_wf_nil (K:=UUID) (V:=string)). generalize (@nil (UUID * string)) as d.
  induction ws as [|w ws IH]; cbn; [done|]. intros d Hd. by apply IH, dict_wf_set.
Qed.

Lemma assigned_weights_value ws k t : dict_get k (assigned_weights ws) = Some t →
  ∃ w, w ∈ ws ∧ WeightAssignment.weight_fraction w = t.
Proof.
  unfold assigned_weights. assert (∀ d, dict_get k (fold_left (λ d w, dict_set (WeightAssignment.sleeve_id w) (WeightAssignment.weight_fraction w) d) ws d) = Some t →
    dict_get k d = Some t ∨ ∃ w, w ∈ ws ∧ WeightAssignment.weight_fraction w = t) as H; [|intros Hk; by destruct (H [] Hk)].
  induction ws as [|w ws IH]; cbn; intros d Hk; [by left|]. apply IH in Hk as [Hk|(v & Hv & <-)].
  - destruct (decide (k = WeightAssignment.sleeve_id w)) as [->|Hne].
    + rewrite dict_get_set in Hk. injection Hk as <-. right. exists w. split; [left|done].
    + rewrite dict_get_set_ne in Hk by done. by left.
  - right. exists v. split; [by right|done].
Qed.

Lemma dict_values_keys (d : dict UUID string) : dict_wf d → dict_values d = (λ k, default "" (dict_get k d)) <$> dict_keys d.
Proof.
  intros Hd. unfold dict_values, dict_keys. rewrite <- list_fmap_compose. apply list_fmap_ext.
  intros i [k t] Hin%list_elem_of_lookup_2. cbn. by rewrite (dict_elem_get k t d Hd Hin).
Qed.

(** A complete assignment gives every sleeve its weight, and no other. *)
Lemma assigned_perm ws a : agg_ok a → names_every_sleeve ws a = true →
  (λ v, default "" (dict_get (Sleeve.sleeve_id (sleeve v)) (assigned_weights ws))) <$> sleeves a ≡ₚ dict_values (assigned_weights ws).
Proof.
  intros Ha [_ Hset%bool_decide_eq_true]%andb_true_iff. rewrite dict_values_keys by apply assigned_weights_wf.
  change (λ v, default "" (dict_get (Sleeve.sleeve_id (sleeve v)) (assigned_weights ws)))
    with ((λ k, default "" (dict_get k (assigned_weights ws))) ∘ (λ v, Sleeve.sleeve_id (sleeve v))).
  rewrite list_fmap_compose. apply fmap_Permutation, NoDup_Permutation.
  - pose proof (ok_ids _ _ (proj1 Ha)) as Hn. by rewrite <- list_fmap_compose in Hn.
  - apply assigned_weights_wf.
  - intros k. rewrite <- (elem_of_list_to_set (C:=gset UUID) k (dict_keys _)), Hset. by rewrite elem_of_list_to_set.
Qed.

Lemma assigned_weight ws a v : forallb (λ w, holds_value _weight_fraction (WeightAssignment.weight_fraction w)) ws = true →
  names_every_sleeve ws a = true → v ∈ sleeves a →
  weight_text (default "" (dict_get (Sleeve.sleeve_id (sleeve v)) (assigned_weights ws))).
Proof.
  intros Hws [_ Hset%bool_decide_eq_true]%andb_true_iff Hv.
  assert (Sleeve.sleeve_id (sleeve v) ∈ dict_keys (assigned_weights ws)) as Hin.
  { rewrite <- (elem_of_list_to_set (C:=gset UUID)), Hset, elem_of_list_to_set. apply list_elem_of_fmap. by exists v. }
  apply elem_of_dict_keys in Hin as [t Ht]. rewrite Ht. apply assigned_weights_value in Ht as (w & Hw & <-).
  apply weight_text_of. rewrite forallb_forall in Hws. apply Hws. by rewrite <- list_elem_of_In.
Qed.

Lemma assigned_values_ok ws : forallb (λ w, holds_value _weight_fraction (WeightAssignment.weight_fraction w)) ws = true →
  Forall (λ w, fraction_ok (text_value w)) (dict_values (assigned_weights ws)).
Proof.
  intros Hws. apply Forall_forall. intros t Ht. apply elem_of_dict_values in Ht as (k & Hk); [|apply assigned_weights_wf].
  apply assigned_weights_value in Hk as (w & Hw & <-). rewrite forallb_forall in Hws.
  assert (weight_text (WeightAssignment.weight_fraction w)) as [Hf _]; [|exact Hf].
  apply weight_text_of, Hws. by rewrite <- list_elem_of_In.
Qed.

Lemma plan_set_weights_ok a request context plan : agg_ok a →
  valid_weights (SetWeightsRequest.weights request) (SetWeightsRequest.cash_reserve_fraction request) = true →
  plan_set_weights a request context = Ok (Some plan) → plan_ok (Portfolio.portfolio_id (portfolio a)) plan ∧
  names_every_sleeve (SetWeightsRequest.weights request) a = true ∧
  map weight_of (plan_sleeves plan) = assigned_values (SetWeightsRequest.weights request) a ∧
  Portfolio.mode (plan_portfolio plan) = Portfolio.mode (portfolio a) ∧
  Portfolio.manager (plan_portfolio plan) = Portfolio.manager (portfolio a).
Proof.
  intros Ha Hvalid. unfold plan_set_weights. intros (u & _ & H)%bind_Ok. cbn zeta in H.
  apply bind_Ok in H as ([] & Hnames%guard_or_Ok & H). apply bind_Ok in H as ([] & Hcheck & H).
  set (reserve := or_current _ _) in *. set (moved := List.filter _ _) in *. case_match; [done|]. injection H as <-.
  unfold valid_weights in Hvalid. repeat (apply andb_true_iff in Hvalid as [? Hvalid]).
  repeat match goal with H : _ && _ = true |- _ => apply andb_true_iff in H as [? ?] end.
  assert (fraction_ok (text_value reserve)) as Hr.
  { apply (or_current_ok (λ t, fraction_ok (text_value t))); [apply (ok_reserve _ _ (proj1 Ha))|]. intros t Ht.
    rewrite Ht in Hvalid. by apply reserve_fraction_ok. }
  cbn [plan_portfolio plan_sleeves Portfolio.set_reserve Portfolio.cash_reserve_fraction].
  set (weight := λ v : SleeveView, default "" (dict_get (Sleeve.sleeve_id (sleeve v)) (assigned_weights (SetWeightsRequest.weights request)))) in *.
  set (f := λ v : SleeveView, if bool_decide _ then _ else _).
  assert (Hf : ∀ v, Sleeve.sleeve_id (f v) = Sleeve.sleeve_id (sleeve v) ∧ Sleeve.strategy_id (f v) = Sleeve.strategy_id (sleeve v) ∧
    Sleeve.weight_fraction (f v) = weight v) by (intros v; unfold f, weight; case_bool_decide; auto).
  assert (map weight_of (f <$> sleeves a) = map text_value (weight <$> sleeves a)) as Hweights.
  { change (map weight_of (f <$> sleeves a)) with (weight_of <$> (f <$> sleeves a)).
    change (map text_value (weight <$> sleeves a)) with (text_value <$> (weight <$> sleeves a)).
    rewrite <- !list_fmap_compose. apply list_fmap_ext. intros i v _. cbn. unfold weight_of. by destruct (Hf v) as (_ & _ & ->). }
  split; [|split_and!; [done| |done..]; rewrite Hweights; unfold fmap; by rewrite map_map]. split; [done|]. split; [exact (proj2 Ha)|].
  cbn [plan_portfolio plan_sleeves Portfolio.set_reserve Portfolio.cash_reserve_fraction].
  apply (sleeves_ok_terms (Portfolio.cash_reserve_fraction (portfolio a))); [exact (proj1 Ha)| |exact Hr|].
  - intros v Hv. destruct (Hf v) as (-> & -> & ->). split_and!; try done. by eapply assigned_weight.
  - rewrite Hweights.
    pose proof (assigned_perm _ _ Ha Hnames) as Hperm. fold weight in Hperm.
    rewrite (Qsum_perm (map text_value (weight <$> sleeves a)) (map text_value (dict_values (assigned_weights (SetWeightsRequest.weights request)))))
      by by apply Permutation_map.
    apply require_allocation_Ok in Hcheck; [done|by apply assigned_values_ok|done|].
    rewrite <- (Permutation_length Hperm), length_fmap. pose proof (agg_count a Ha). lia.
Qed.
End Plans.
