(* ===== verification/PortfolioSteps.v ===== *)
(** * PortfolioSteps: every change of a portfolio store

    What a rebalance moves, what a settlement writes, and the steps the services take on a store
    ([portfolio_step]); the invariant [store_ok] and what becomes of a stored proposal. *)

From Stdlib Require Import Ascii Qminmax.
From stdpp Require Import relations.
From S2P Require Import Prelude Decimals DecimalFacts DecimalText Market Containers TradingModels FillLedger RiskModels.
From S2P Require Import EntryLimits Portfolio Proposals PortfolioStore PortfolioFacts.

Open Scope Z_scope.

(** ** What a rebalance moves *)

(** The weight gained, and the weight given up, in sum over the sleeves. *)
Definition gained (w w' : list Q) : Q := Qsum (zip_with (λ a b, Qmax 0 (b - a)) w w').
Definition given_up (w w' : list Q) : Q := gained w' w.

Lemma text_value_canonical d : (text_value (canonical_text d) == val d)%Q.
Proof.
  unfold text_value, decimal_of, canonical_text. rewrite String.list_ascii_of_string_of_list_ascii.
  rewrite canonical_decimal_canon, parse_canon_text. apply val_canon.
Qed.

Lemma val_dmax a b : (val (dmax a b) == Qmax (val a) (val b))%Q.
Proof.
  unfold dmax. destruct (a <? b)%dec eqn:E; [apply dltb_lt in E|apply dltb_ge in E].
  - rewrite Q.max_r by lra. done.
  - rewrite Q.max_l by lra. done.
Qed.

Lemma on_grid_Qmax g a b : on_grid g a → on_grid g b → on_grid g (Qmax a b).
Proof. intros Ha Hb. destruct (Q.max_spec a b) as [[_ H]|[_ H]]; eapply on_grid_equal; try (symmetry; exact H); done. Qed.

Lemma fraction_ok_equal q r : (q == r)%Q → fraction_ok q → fraction_ok r.
Proof. intros Hq [Hg Hb]. split; [by eapply on_grid_equal|]. by rewrite <- Hq. Qed.

Lemma Qsum_le (l k : list Q) : Forall2 (λ a b, (a <= b)%Q) l k → (Qsum l <= Qsum k)%Q.
Proof. unfold Qsum. induction 1; cbn; [lra|]. by apply Qplus_le_compat. Qed.

Lemma Qsum_equal (l k : list Q) : Forall2 Qeq l k → (Qsum l == Qsum k)%Q.
Proof. unfold Qsum. induction 1 as [|x y l k Hx Hk IH]; cbn; [done|]. by rewrite Hx, IH. Qed.

Lemma Forall2_map_map {A B C} (R : B → C → Prop) (f : A → B) (g : A → C) l :
  (∀ x, x ∈ l → R (f x) (g x)) → Forall2 R (map f l) (map g l).
Proof. induction l as [|x l IH]; cbn; intros H; constructor; [apply H; left|]. apply IH. intros y Hy. apply H. by right. Qed.

Lemma gained_map {A} (f g : A → Q) l : gained (map f l) (map g l) = Qsum (map (λ x, Qmax 0 (g x - f x)) l).
Proof. unfold gained. f_equal. induction l as [|x l IH]; cbn; [done|]. by rewrite IH. Qed.

Section Moves.
Context {dc : DecimalContext} (Hwide : wide dc).

Lemma excess_exact a b : fraction_ok (val a) → fraction_ok (val b) →
  (val (dmax d0 (a - b)%dec) == Qmax 0 (val a - val b))%Q ∧ fraction_ok (val (dmax d0 (a - b)%dec)).
Proof.
  intros [Hag Ha] [Hbg Hb].
  assert (on_grid 4 (val a - val b)) as Hg.
  { eapply on_grid_equal; [|apply on_grid_plus; [exact Hag|apply on_grid_opp; exact Hbg]]. ring. }
  assert (val (a - b)%dec == val a - val b)%Q as He.
  { eapply rounds_exact; [apply sub_rounds|]. unfold wide in Hwide. apply (on_grid_representable prec 4); [lia|done|].
    apply Qle_trans with 1%Q; [apply Qabs_case; intros; lra|]. rewrite p10_Z by lia. change 1%Q with (inject_Z 1).
    rewrite <- Zle_Qle. assert (0 < 10 ^ (prec - 4)) by (apply Z.pow_pos_nonneg; lia). lia. }
  assert (val (dmax d0 (a - b)%dec) == Qmax 0 (val a - val b))%Q as Hm.
  { rewrite val_dmax, val_d0. by rewrite He. }
  split; [done|]. eapply fraction_ok_equal; [symmetry; exact Hm|]. split; [apply on_grid_Qmax; [apply grid_0|done]|].
  destruct (Q.max_spec 0 (val a - val b)) as [[? ->]|[? ->]]; lra.
Qed.

Lemma sum_excess_exact {A} (f g : A → decimal) l : (Z.of_nat (length l) <= 10 ^ 19) →
  (∀ x, x ∈ l → fraction_ok (val (f x)) ∧ fraction_ok (val (g x))) →
  (val (dsum (map (λ x, dmax d0 (f x - g x)%dec) l)) == gained (map (λ x, val (g x)) l) (map (λ x, val (f x)) l))%Q ∧
  on_grid 4 (val (dsum (map (λ x, dmax d0 (f x - g x)%dec) l))).
Proof.
  intros Hlen Hl. destruct (dsum_exact Hwide (map (λ x, dmax d0 (f x - g x)%dec) l)) as [Hsum Hgrid].
  - apply Forall_fmap, Forall_forall. intros x Hx. destruct (Hl x Hx). by apply excess_exact.
  - by rewrite length_map.
  - split; [|done]. rewrite Hsum, gained_map, map_map. apply Qsum_equal, Forall2_map_map.
    intros x Hx. destruct (Hl x Hx). by apply excess_exact.
Qed.

Lemma fold_dict_fresh {A} (f : A → UUID) (g : A → decimal) vs (d : dict UUID decimal) :
  NoDup (f <$> vs) → (∀ v, v ∈ vs → f v ∉ dict_keys d) →
  fold_left (λ d v, dict_set (f v) (g v) d) vs d = d ++ map (λ v, (f v, g v)) vs.
Proof.
  revert d. induction vs as [|v vs IH]; cbn; intros d Hn Hd; [by rewrite app_nil_r|].
  apply NoDup_cons in Hn as [Hv Hn].
  assert (∀ k x (d : dict UUID decimal), k ∉ dict_keys d → dict_set k x d = d ++ [(k, x)]) as Hset.
  { intros k x e He. induction e as [|[k' x'] e IHe]; cbn; [done|]. unfold dict_keys in He. cbn in He. apply not_elem_of_cons in He as [Hne He].
    rewrite decide_False by congruence. by rewrite IHe. }
  rewrite (Hset _ _ _ (Hd v ltac:(left))). rewrite IH; [|done|].
  - by rewrite <- app_assoc.
  - intros w Hw. unfold dict_keys. rewrite fmap_app, not_elem_of_app. split; [apply Hd; by right|].
    cbn. rewrite list_elem_of_singleton. intros He. apply Hv. rewrite <- He. apply list_elem_of_fmap. by exists w.
Qed.

Lemma current_weights_spec a : agg_ok a →
  current_weights a = map (λ v, (Sleeve.sleeve_id (sleeve v), decimal_of (Sleeve.weight_fraction (sleeve v)))) (sleeves a).
Proof.
  intros Ha. unfold current_weights. rewrite (fold_dict_fresh (λ v, Sleeve.sleeve_id (sleeve v))); [done| |].
  - pose proof (ok_ids _ _ (proj1 Ha)) as Hn. by rewrite <- list_fmap_compose in Hn.
  - intros v _. apply not_elem_of_nil.
Qed.

Lemma gained_bound (f g : SleeveView → Q) vs : (∀ v, v ∈ vs → 0 <= f v ∧ 0 <= g v)%Q → (Qsum (map g vs) <= 1)%Q →
  (0 <= gained (map f vs) (map g vs) <= 1)%Q.
Proof.
  intros Hvs Hsum. rewrite gained_map. split.
  - assert (Qsum (map (λ _, 0) vs) <= Qsum (map (λ x, Qmax 0 (g x - f x)) vs))%Q as Hle.
    { apply Qsum_le, Forall2_map_map. intros v _. apply Q.le_max_l. }
    assert (Qsum (map (λ _ : SleeveView, 0) vs) == 0)%Q as Hz; [|lra].
    clear. unfold Qsum. induction vs as [|v vs IH]; cbn; [done|]. rewrite IH. ring.
  - etrans; [|exact Hsum]. apply Qsum_le, Forall2_map_map. intros v Hv. destruct (Hvs v Hv).
    destruct (Q.max_spec 0 (g v - f v)) as [[? ->]|[? ->]]; lra.
Qed.

Lemma weight_moved_exact a ws moved : agg_ok a →
  forallb (λ w, holds_value _weight_fraction (WeightAssignment.weight_fraction w)) ws = true →
  (Qsum (assigned_values ws a) <= 1)%Q → weight_moved a ws = Ok moved →
  (val moved == Qmax (gained (held_values a) (assigned_values ws a)) (given_up (held_values a) (assigned_values ws a)))%Q
  ∧ fraction_ok (val moved).
Proof.
  intros Ha Hws Hsum. unfold weight_moved. destruct (names_every_sleeve ws a) eqn:Hnames; cbn [negb]; [|done].
  cbn zeta. rewrite (current_weights_spec a Ha). intros [= <-].
  set (after := λ v : SleeveView, decimal_of (default "" (dict_get (Sleeve.sleeve_id (sleeve v)) (assigned_weights ws)))).
  set (before := λ v : SleeveView, decimal_of (Sleeve.weight_fraction (sleeve v))).
  assert (∀ v, v ∈ sleeves a → fraction_ok (val (after v)) ∧ fraction_ok (val (before v))) as Hok.
  { intros v Hv. split; [by apply (assigned_weight ws a)|by apply (sleeve_weight_text a)]. }
  assert (Z.of_nat (length (sleeves a)) <= 10 ^ 19) as Hlen by (pose proof (agg_count a Ha); lia).
  destruct (sum_excess_exact after before (sleeves a) Hlen Hok) as [Hr Hrg].
  destruct (sum_excess_exact before after (sleeves a) Hlen) as [Hf Hfg]; [intros v Hv; destruct (Hok v Hv); done|].
  unfold fmap. change (list_fmap _ _) with (@map (UUID * decimal) decimal). rewrite !map_map.
  cbn beta iota.
  assert (val (dmax (dsum (map (λ v, dmax d0 (after v - before v)%dec) (sleeves a))) (dsum (map (λ v, dmax d0 (before v - after v)%dec) (sleeves a))))
    == Qmax (gained (held_values a) (assigned_values ws a)) (given_up (held_values a) (assigned_values ws a)))%Q as Hm.
  { rewrite val_dmax, Hr, Hf. done. }
  split; [exact Hm|]. split.
  - eapply on_grid_equal; [symmetry; apply val_dmax|]. by apply on_grid_Qmax.
  - change (0 <= val (dmax (dsum (map (λ v, dmax d0 (after v - before v)%dec) (sleeves a))) (dsum (map (λ v, dmax d0 (before v - after v)%dec) (sleeves a)))) <= 1)%Q.
    rewrite Hm.
    assert (0 <= gained (held_values a) (assigned_values ws a) <= 1)%Q.
    { apply gained_bound; [|exact Hsum]. intros v Hv. destruct (Hok v Hv) as [[_ ?] [_ ?]]. split; [apply H0|apply H]. }
    assert (0 <= given_up (held_values a) (assigned_values ws a) <= 1)%Q.
    { apply gained_bound.
      - intros v Hv. destruct (Hok v Hv) as [[_ ?] [_ ?]]. split; [apply H0|apply H1].
      - pose proof (ok_total _ _ (proj1 Ha)) as Ht. destruct (ok_reserve _ _ (proj1 Ha)) as [_ [Hr0 _]].
        unfold held_values. unfold fmap in Ht. rewrite map_map in Ht. lra. }
    destruct (Q.max_spec (gained (held_values a) (assigned_values ws a)) (given_up (held_values a) (assigned_values ws a))) as [[? ->]|[? ->]]; done.
Qed.

(** ** Settlements *)

Definition proposal_ok (id : UUID) (p : Proposal) : Prop :=
  Proposal.portfolio_id p = id ∧ valid_change (Proposal.change p) = true ∧
  (∀ t, Proposal.weight_moved p = Some t → fraction_ok (text_value t)).

Definition settlement_ok (id : UUID) (s : ProposalSettlement) : Prop :=
  proposal_ok id (settled_proposal s) ∧ (∀ plan, settled_plan s = Some plan → plan_ok id plan).

Definition fresh_sleeve (l : list Sleeve) (id : UUID) : Prop := ∀ x, x ∈ l → Sleeve.sleeve_id x ≠ id.

Lemma plan_change_ok a change strategy context proposal_id sleeve_id plan : agg_ok a → valid_change change = true →
  fresh_sleeve (sleeve <$> sleeves a) sleeve_id → _plan_change a change strategy context proposal_id sleeve_id = Ok (Some plan) →
  plan_ok (Portfolio.portfolio_id (portfolio a)) plan.
Proof.
  intros Ha Hchange Hfresh. destruct change as [ws reserve|?|?|strategy_id weight note]; cbn; try done.
  - intros (made & Hmade & H)%bind_Ok. destruct made as [made|]; [|done]. injection H as <-.
    by apply plan_set_weights_ok in Hmade as [Hok _].
  - destruct strategy as [s|]; [|done]. intros (made & Hmade & [= <-])%bind_Ok.
    apply plan_add_sleeve_ok in Hmade; [exact Hmade|done..|]. intros v Hv. apply Hfresh, list_elem_of_fmap. by exists v.
Qed.

(** A planned rebalance sets the assigned weights, which fit in the capital. *)
Lemma plan_rebalance_spec a ws reserve strategy context proposal_id sleeve_id plan : agg_ok a →
  valid_change (RebalanceChange ws reserve) = true →
  _plan_change a (RebalanceChange ws reserve) strategy context proposal_id sleeve_id = Ok plan →
  ∃ made, plan = Some made ∧ map weight_of (plan_sleeves made) = assigned_values ws a ∧ (Qsum (assigned_values ws a) <= 1)%Q ∧
    Portfolio.manager (plan_portfolio made) = Portfolio.manager (portfolio a).
Proof.
  intros Ha Hchange. cbn. intros (made & Hmade & H)%bind_Ok. destruct made as [made|]; [|done]. injection H as <-.
  apply plan_set_weights_ok in Hmade as ((_ & _ & Hok) & _ & Hweights & _ & Hmanager); [|done..]. cbn in Hweights.
  exists (_tag_plan made proposal_id). split_and!; try done.
  rewrite <- Hweights. pose proof (ok_total _ _ Hok) as Ht. destruct (ok_reserve _ _ Hok) as [_ [Hr _]]. lra.
Qed.

Lemma submission_ok a request moved strategy proposal_id sleeve_id context s : agg_ok a →
  ProposalSubmitRequest.valid_submission request = true → fresh_sleeve (sleeve <$> sleeves a) sleeve_id →
  _submission a request moved strategy proposal_id sleeve_id context = Ok s →
  settlement_ok (Portfolio.portfolio_id (portfolio a)) s.
Proof.
  intros Ha Hvalid Hfresh. unfold _submission. intros (u & _ & H)%bind_Ok. cbn zeta in H.
  apply bind_Ok in H as (plan & Hplan & H). apply bind_Ok in H as (requirement & Hreq & [= <-]).
  assert (valid_change (ProposalSubmitRequest.change request) = true) as Hchange.
  { unfold ProposalSubmitRequest.valid_submission in Hvalid. by repeat (apply andb_true_iff in Hvalid as [Hvalid ?]). }
  split; cbn.
  - split_and!; [done|done|]. intros t Ht. destruct (ProposalSubmitRequest.change request) as [ws reserve|?|?|? ? ?] eqn:E; cbn in Hreq.
    + apply bind_Ok in Hreq as (m & Hm & [= <-]).
      destruct (plan_rebalance_spec _ _ _ _ _ _ _ _ Ha Hchange Hplan) as (made & -> & _ & Hsum & _).
      unfold valid_change, valid_weights in Hchange. apply andb_true_iff in Hchange as [[_ Hws]%andb_true_iff _].
      destruct (weight_moved_exact a ws m Ha Hws Hsum Hm) as [_ Hok].
      assert (requirement_moved (_rebalance_requirement a m moved) = Some m) as Hmoved.
      { unfold _rebalance_requirement. cbn zeta. repeat case_match; done. }
      rewrite Hmoved in Ht. injection Ht as <-. eapply fraction_ok_equal; [symmetry; apply text_value_canonical|done].
    + destruct (ManagerPermissions.may_pause_sleeves _); injection Hreq as <-; done.
    + injection Hreq as <-. done.
    + injection Hreq as <-. done.
  - intros made. case_match; [|done]. intros ->. by eapply plan_change_ok.
Qed.

Lemma decided_ok id p status by_ at_ note auto revision code : proposal_ok id p →
  proposal_ok id (Proposal._decided p status by_ at_ note auto revision code).
Proof. done. Qed.

(** A decision settles a pending proposal and keeps what was proposed. *)
Definition decides (stored p : Proposal) : Prop :=
  Proposal.status stored = ProposalStatus.pending ∧ Proposal.status p ≠ ProposalStatus.pending ∧
  is_Some (Proposal.decided_at p) ∧ is_Some (Proposal.decided_by p) ∧
  Proposal.proposal_id p = Proposal.proposal_id stored ∧ Proposal.portfolio_id p = Proposal.portfolio_id stored ∧
  Proposal.change p = Proposal.change stored ∧ Proposal.rationale p = Proposal.rationale stored ∧
  Proposal.evidence p = Proposal.evidence stored ∧ Proposal.base_revision p = Proposal.base_revision stored ∧
  Proposal.weight_moved p = Proposal.weight_moved stored ∧ Proposal.created_at p = Proposal.created_at stored ∧
  Proposal.expires_at p = Proposal.expires_at stored.

(** The settlements the services ask the store for. *)
Inductive settling (rows : list Sleeve) : (PortfolioAggregate → Proposal → option SleeveStrategy → result ProposalSettlement) → Prop :=
  | settle_approval note sleeve_id context : fresh_sleeve rows sleeve_id →
      settling rows (λ current stored facts, _approval current stored facts note sleeve_id context)
  | settle_failure code context : settling rows (λ current stored _, _failure current stored code context)
  | settle_applied context note : settling rows (λ current stored _, _closing current stored ProposalStatus.applied context note)
  | settle_declined context note : settling rows (λ current stored _, _closing current stored ProposalStatus.declined context note)
  | settle_pause context : settling rows (λ current stored _, auto_applied_pause current stored context).

Lemma require_pending_Ok p u : _require_pending p = Ok u → Proposal.status p = ProposalStatus.pending.
Proof. unfold _require_pending. case_bool_decide; done. Qed.

Lemma failure_spec a stored code context s : _failure a stored code context = Ok s →
  decides stored (settled_proposal s) ∧ settled_plan s = None ∧ Proposal.auto_applied (settled_proposal s) = false.
Proof. unfold _failure. intros (u & Hp%require_pending_Ok & [= <-])%bind_Ok. split_and!; try done; by eexists. Qed.

Lemma approval_spec a stored strategy note sleeve_id context s : _approval a stored strategy note sleeve_id context = Ok s →
  decides stored (settled_proposal s) ∧
  (∀ plan, settled_plan s = Some plan → _plan_change a (Proposal.change stored) strategy context (Proposal.proposal_id stored) sleeve_id = Ok (Some plan)).
Proof.
  unfold _approval. intros (u & Hp%require_pending_Ok & H)%bind_Ok.
  destruct (_plan_change _ _ _ _ _ _) as [[plan|]|e].
  - injection H as <-. split; [|by intros ? [= <-]]. split_and!; try done; by eexists.
  - apply failure_spec in H as (Hd & Hn & _). split; [done|]. by rewrite Hn.
  - destruct (validation_code e); [|done]. apply failure_spec in H as (Hd & Hn & _). split; [done|]. by rewrite Hn.
Qed.

Lemma settling_spec rows settle a stored facts s : settling rows settle → rows = sleeve <$> sleeves a → agg_ok a →
  proposal_ok (Portfolio.portfolio_id (portfolio a)) stored → settle a stored facts = Ok s →
  decides stored (settled_proposal s) ∧ settlement_ok (Portfolio.portfolio_id (portfolio a)) s.
Proof.
  intros Hs -> Ha Hok H.
  assert (decides stored (settled_proposal s) ∧ (∀ plan, settled_plan s = Some plan → plan_ok (Portfolio.portfolio_id (portfolio a)) plan))
    as [Hd Hplan].
  { destruct Hs.
    - apply approval_spec in H as [Hd Hplan]. split; [done|]. intros plan Hp%Hplan. destruct Hok as (_ & Hc & _). by eapply plan_change_ok.
    - apply failure_spec in H as (Hd & -> & _). done.
    - unfold _closing in H. apply bind_Ok in H as (u & Hp%require_pending_Ok & [= <-]). split; [|done]. split_and!; try done; by eexists.
    - unfold _closing in H. apply bind_Ok in H as (u & Hp%require_pending_Ok & [= <-]). split; [|done]. split_and!; try done; by eexists.
    - unfold auto_applied_pause in H. apply bind_Ok in H as (u & Hp%require_pending_Ok & [= <-]). split; [|done]. split_and!; try done; by eexists. }
  split; [done|]. split; [|done]. destruct Hd as (_ & _ & _ & _ & _ & Hid & Hc & _ & _ & _ & Hw & _).
  destruct Hok as (<- & ? & ?). unfold proposal_ok. by rewrite Hid, Hc, Hw.
Qed.
End Moves.

(** ** Every change of the store *)

Section Steps.
Context {dc : DecimalContext}.

(** The facts a store read before it took its lock name the strategies it asked for. *)
Definition honest (read : Strategies) : Prop := ∀ id s, read id = Some s → SleeveStrategy.strategy_id s = id.

Definition fresh_sleeves (s : PortfolioStore) (portfolio_id : UUID) (ids : list UUID) : Prop :=
  NoDup ids ∧ ∀ x, x ∈ rows s portfolio_id → Sleeve.sleeve_id x ∉ ids.

Definition fresh_proposal (s : PortfolioStore) (portfolio_id proposal_id : UUID) : Prop :=
  ∀ p, p ∈ stored_proposals s portfolio_id → Proposal.proposal_id p ≠ proposal_id.

(** One call of the store by the services, with a validated request and newly drawn identifiers;
    the strategies seen by the call ([strategies]) and by its first read ([read]) are any. *)
Inductive portfolio_step (s : PortfolioStore) : PortfolioStore → Prop :=
  | step_create read request portfolio_id drawn context s' :
      PortfolioCreateRequest.valid_create request = true → honest read →
      dict_get portfolio_id (PortfolioStore.portfolios s) = None → NoDup drawn →
      create s read request portfolio_id drawn context = Ok s' → portfolio_step s s'
  | step_update strategies portfolio_id request context s' : PortfolioUpdateRequest.valid_update request = true →
      update s strategies portfolio_id request context = Ok s' → portfolio_step s s'
  | step_add_sleeve read strategies portfolio_id request sleeve_id context s' : SleeveAddRequest.valid_add request = true →
      fresh_sleeves s portfolio_id [sleeve_id] →
      add_sleeve s read strategies portfolio_id request sleeve_id context = Ok s' → portfolio_step s s'
  | step_add_sleeves read strategies portfolio_id request drawn context s' : SleevesAddRequest.valid_add_batch request = true →
      honest read → fresh_sleeves s portfolio_id drawn →
      add_sleeves s read strategies portfolio_id request drawn context = Ok s' → portfolio_step s s'
  | step_update_sleeve strategies portfolio_id sleeve_id request context s' : SleeveUpdateRequest.valid_sleeve_update request = true →
      update_sleeve s strategies portfolio_id sleeve_id request context = Ok s' → portfolio_step s s'
  | step_remove_sleeve before read strategies execution portfolio_id sleeve_id expected context s' :
      remove_sleeve s before read strategies execution portfolio_id sleeve_id expected context = Ok s' → portfolio_step s s'
  | step_set_weights strategies portfolio_id request context s' : SetWeightsRequest.valid_set_weights request = true →
      set_weights s strategies portfolio_id request context = Ok s' → portfolio_step s s'
  | step_delete execution portfolio_id expected s' : delete s execution portfolio_id expected = Ok s' → portfolio_step s s'
  | step_runtime state expected journal s' written : write_runtime s state expected journal = Ok (s', written) → portfolio_step s s'
  | step_journal entries s' r : append_journal s entries = (s', r) → portfolio_step s s'
  | step_submit read strategies portfolio_id now strategy_id request proposal_id sleeve_id context s' p :
      ProposalSubmitRequest.valid_submission request = true → fresh_sleeves s portfolio_id [sleeve_id] →
      fresh_proposal s portfolio_id proposal_id →
      create_proposal s read strategies portfolio_id now strategy_id
        (λ current moved facts, _submission current request moved facts proposal_id sleeve_id context) = Ok (s', p) →
      portfolio_step s s'
  | step_settle read strategies portfolio_id proposal_id strategy_id settle s' p : settling (rows s portfolio_id) settle →
      settle_proposal s read strategies portfolio_id proposal_id strategy_id settle = Ok (s', p) → portfolio_step s s'
  | step_expire now : portfolio_step s (expire_proposals s now).1.

Record store_ok (s : PortfolioStore) : Prop := {
  ok_portfolios : ∀ id p, dict_get id (PortfolioStore.portfolios s) = Some p →
    Portfolio.portfolio_id p = id ∧ sleeves_ok (Portfolio.cash_reserve_fraction p) (rows s id) ∧
    ManagerSettings.valid_manager (Portfolio.manager p) = true;
  ok_proposals : ∀ id p, p ∈ stored_proposals s id → proposal_ok id p
}.

Lemma store_ok_empty : store_ok PortfolioStore.empty.
Proof. split; [done|]. by intros id p ?%elem_of_nil. Qed.

Lemma aggregate_rows s strategies p : sleeve <$> sleeves (_aggregate s strategies p) = rows s (Portfolio.portfolio_id p).
Proof.
  cbn. rewrite <- list_fmap_compose. rewrite <- (list_fmap_id (rows s _)) at 2. apply list_fmap_ext. done.
Qed.

Lemma find_portfolio_Ok s id p : find_portfolio s id = Ok p → dict_get id (PortfolioStore.portfolios s) = Some p.
Proof. unfold find_portfolio. case_match; [|done]. by intros [= ->]. Qed.

Lemma aggregate_ok s strategies id p : store_ok s → find_portfolio s id = Ok p →
  agg_ok (_aggregate s strategies p) ∧ Portfolio.portfolio_id p = id.
Proof.
  intros Hs Hp%find_portfolio_Ok. destruct (ok_portfolios s Hs id p Hp) as (<- & Hok & Hm). split; [|done]. split; [|done].
 
  by rewrite aggregate_rows.
Qed.

(** What a plan leaves at each portfolio. *)
Lemma apply_rows s plan id : rows (_apply s plan) id =
  if decide (id = Portfolio.portfolio_id (plan_portfolio plan)) then plan_sleeves plan else rows s id.
Proof.
  unfold rows, _apply. cbn. case_decide as H; [by rewrite H, dict_get_set|by rewrite dict_get_set_ne].
Qed.

Lemma apply_portfolios s plan id : dict_get id (PortfolioStore.portfolios (_apply s plan)) =
  if decide (id = Portfolio.portfolio_id (plan_portfolio plan)) then Some (plan_portfolio plan) else dict_get id (PortfolioStore.portfolios s).
Proof. unfold _apply. cbn. case_decide as H; [by rewrite H, dict_get_set|by rewrite dict_get_set_ne]. Qed.

Lemma apply_ok s plan id : store_ok s → plan_ok id plan → store_ok (_apply s plan).
Proof.
  intros [Hp Hq] (Hid & Hm & Hok). split; [|exact Hq]. intros i p. rewrite apply_portfolios, apply_rows.
  case_decide as Hi; [|apply Hp]. intros [= <-]. by rewrite Hi.
Qed.

Lemma apply_option_ok s plan id : store_ok s → (∀ made, plan = Some made → plan_ok id made) → store_ok (apply_option s plan).
Proof. intros Hs Hplan. destruct plan as [made|]; [|done]. eapply apply_ok; [done|]. by apply Hplan. Qed.

Lemma mutate_ok s strategies id planner s' : store_ok s →
  (∀ a plan, agg_ok a → sleeve <$> sleeves a = rows s (Portfolio.portfolio_id (portfolio a)) → Portfolio.portfolio_id (portfolio a) = id →
     planner a = Ok (Some plan) → plan_ok (Portfolio.portfolio_id (portfolio a)) plan) →
  _mutate s strategies id planner = Ok s' → store_ok s'.
Proof.
  intros Hs Hplan. unfold _mutate. intros (p & Hp & (plan & Hmade & [= <-])%bind_Ok)%bind_Ok.
  destruct (aggregate_ok s strategies id p Hs Hp) as [Ha <-]. eapply apply_option_ok; [done|].
  intros made ->. apply Hplan in Hmade; [exact Hmade|done| |done]. apply aggregate_rows.
Qed.

Lemma upsert_elem p l q : q ∈ upsert p l → q = p ∨ q ∈ l.
Proof.
  induction l as [|r l IH]; cbn; [intros ->%list_elem_of_singleton; by left|].
  case_decide; intros [->|Hq]%elem_of_cons; auto using list_elem_of_here, list_elem_of_further.
  - destruct (IH Hq); auto using list_elem_of_further.
Qed.

Lemma settle_stored s settlement id : stored_proposals (_settle s settlement) id =
  if decide (id = Proposal.portfolio_id (settled_proposal settlement))
  then upsert (settled_proposal settlement) (stored_proposals s id) else stored_proposals s id.
Proof.
  unfold _settle, apply_option. destruct (settled_plan settlement); unfold stored_proposals; cbn;
    (case_decide as H; [by rewrite H, dict_get_set|by rewrite dict_get_set_ne]).
Qed.

Lemma settle_ok s settlement id : store_ok s → settlement_ok id settlement → store_ok (_settle s settlement).
Proof.
  intros Hs [Hp Hplan].
  assert (store_ok (extend_journal (PortfolioStore.set_proposals s (dict_set (Proposal.portfolio_id (settled_proposal settlement))
    (upsert (settled_proposal settlement) (stored_proposals s (Proposal.portfolio_id (settled_proposal settlement)))) (PortfolioStore.proposals s)))
    (Proposal.portfolio_id (settled_proposal settlement)) (settled_journal settlement))) as Hmid.
  { split; [apply (ok_portfolios s Hs)|]. destruct Hp as (Hid & Hc & Hw). rewrite Hid. intros i q. unfold stored_proposals. cbn.
    destruct (decide (i = id)) as [->|Hi]; [|rewrite dict_get_set_ne by done; apply (ok_proposals s Hs)].
    rewrite dict_get_set. intros [->|Hq]%upsert_elem; [done|]. by apply (ok_proposals s Hs). }
  eapply apply_option_ok; [exact Hmid|exact Hplan].
Qed.

Lemma write_runtime_frame s state expected journal s' written : write_runtime s state expected journal = Ok (s', written) →
  PortfolioStore.portfolios s' = PortfolioStore.portfolios s ∧ PortfolioStore.sleeves s' = PortfolioStore.sleeves s ∧
  PortfolioStore.proposals s' = PortfolioStore.proposals s.
Proof. unfold write_runtime. cbn zeta. intros (p & _ & H)%bind_Ok. case_match; by injection H as <- <-. Qed.

Lemma append_journal_frame s entries : let s' := (append_journal s entries).1 in
  PortfolioStore.portfolios s' = PortfolioStore.portfolios s ∧ PortfolioStore.sleeves s' = PortfolioStore.sleeves s ∧
  PortfolioStore.proposals s' = PortfolioStore.proposals s.
Proof.
  cbn zeta. revert s. induction entries as [|e entries IH]; intros s; cbn; [done|].
  destruct (find_portfolio s (JournalEntry.portfolio_id e)); [|done]. destruct (IH (extend_journal s (JournalEntry.portfolio_id e) [e])) as (-> & -> & ->). done.
Qed.

Lemma store_ok_frame s s' : PortfolioStore.portfolios s' = PortfolioStore.portfolios s → PortfolioStore.sleeves s' = PortfolioStore.sleeves s →
  PortfolioStore.proposals s' = PortfolioStore.proposals s → store_ok s → store_ok s'.
Proof.
  intros Hp Hk Hq [Hsp Hsq]. split; intros id p; unfold rows, stored_proposals; rewrite ?Hp, ?Hk, ?Hq; [apply Hsp|apply Hsq].
Qed.

Lemma expire_stored s now id : stored_proposals (expire_proposals s now).1 id = expire now <$> stored_proposals s id.
Proof.
  unfold stored_proposals, expire_proposals. cbn. induction (PortfolioStore.proposals s) as [|[k l] d IH]; cbn; [done|].
  case_decide; [done|exact IH].
Qed.

Lemma find_proposal_Ok s id proposal_id p : _find_proposal s id proposal_id = Ok p →
  p ∈ stored_proposals s id ∧ Proposal.proposal_id p = proposal_id.
Proof.
  unfold _find_proposal. destruct (List.find _ _) as [q|] eqn:E; [|done]. intros [= ->]. apply find_some in E as [Hin Hid].
  apply bool_decide_eq_true in Hid. by rewrite list_elem_of_In.
Qed.

Lemma mapM_require_strategy read ids facts : honest read → result_mapM (require_strategy read) ids = Ok facts →
  SleeveStrategy.strategy_id <$> facts = ids.
Proof.
  intros Hr. revert facts. induction ids as [|i ids IH]; intros facts; cbn; [by intros [= <-]|].
  intros (x & Hx & (k & Hk & [= <-])%bind_Ok)%bind_Ok. cbn. rewrite (IH k Hk). f_equal.
  unfold require_strategy in Hx. destruct (read i) eqn:E; [|done]. injection Hx as <-. by apply Hr.
Qed.

Lemma ascending_perm ids : ascending ids ≡ₚ ids.
Proof. apply stable_sort_perm. Qed.
End Steps.

Section Preserved.
Context {dc : DecimalContext} (Hwide : wide dc).

Lemma fresh_in_aggregate a s ids : fresh_sleeves s (Portfolio.portfolio_id (portfolio a)) ids →
  sleeve <$> sleeves a = rows s (Portfolio.portfolio_id (portfolio a)) →
  ∀ v, v ∈ sleeves a → Sleeve.sleeve_id (sleeve v) ∉ ids.
Proof. intros [_ Hf] Hr v Hv. apply Hf. rewrite <- Hr. apply list_elem_of_fmap. by exists v. Qed.

Lemma portfolio_step_ok s s' : portfolio_step s s' → store_ok s → store_ok s'.
Proof.
  intros Hstep Hs. destruct Hstep as [read request id drawn context s' Hv Hr Hnew Hd H|strategies id request context s' Hv H
    |read strategies id request sleeve_id context s' Hv Hf H|read strategies id request drawn context s' Hv Hr Hf H
    |strategies id sleeve_id request context s' Hv H|before read strategies execution id sleeve_id expected context s' H
    |strategies id request context s' Hv H|execution id expected s' H|state expected journal s' written H|entries s' r H
    |read strategies id now strategy_id request proposal_id sleeve_id context s' p Hv Hf Hp H
    |read strategies id proposal_id strategy_id settle s' p Hsettle H|now].
  - unfold create in H. apply bind_Ok in H as (facts & Hfacts%mapM_require_strategy & H); [|done].
    apply bind_Ok in H as (plan & Hplan & [= <-]). eapply apply_ok; [done|].
    eapply plan_create_ok; [done..| |exact Hplan]. by rewrite ascending_perm.
  - eapply mutate_ok in H; [exact H|done|]. intros a plan Ha _ _. by apply plan_update_ok.
  - unfold add_sleeve in H. apply bind_Ok in H as (facts & _ & H).
    eapply mutate_ok in H; [exact H|done|]. intros a plan Ha Hrows <-. intros (made & Hmade & [= ->])%fmap_Ok.
    apply andb_true_iff in Hv as [_ Hw]. eapply plan_add_sleeve_ok; [done..| |exact Hmade].
    intros v Hin He. eapply (fresh_in_aggregate a s); [done..|]. rewrite He. left.
  - unfold add_sleeves in H. apply bind_Ok in H as (facts & Hfacts%mapM_require_strategy & H); [|done].
    eapply mutate_ok in H; [exact H|done|]. intros a plan Ha Hrows <-. intros (made & Hmade & [= ->])%fmap_Ok.
    destruct Hf as [Hd Hf]. eapply plan_add_sleeves_ok; [done..| | |exact Hmade].
    + by rewrite ascending_perm.
    + intros v Hin. rewrite ascending_perm. apply Hf. rewrite <- Hrows. apply list_elem_of_fmap. by exists v.
  - eapply mutate_ok in H; [exact H|done|]. intros a plan Ha _ _. by apply plan_update_sleeve_ok.
  - unfold remove_sleeve in H. apply bind_Ok in H as (current & _ & H). apply bind_Ok in H as (u & _ & H).
    eapply mutate_ok in H; [exact H|done|]. intros a plan Ha _ _. intros (made & Hmade & [= ->])%fmap_Ok.
    by eapply plan_remove_sleeve_ok.
  - eapply mutate_ok in H; [exact H|done|]. intros a plan Ha _ _. apply andb_true_iff in Hv as [_ Hv].
    intros Hplan. by apply plan_set_weights_ok in Hplan as [Hok _].
  - unfold delete in H. apply bind_Ok in H as (u & _ & H). apply bind_Ok in H as (p & _ & H). apply bind_Ok in H as (u' & _ & [= <-]).
    split; intros i q; unfold rows, stored_proposals; cbn; destruct (decide (i = id)) as [->|Hi].
    + by rewrite dict_get_pop.
    + rewrite !dict_get_pop_ne by done. apply (ok_portfolios s Hs).
    + rewrite dict_get_pop. by intros ?%elem_of_nil.
    + rewrite dict_get_pop_ne by done. apply (ok_proposals s Hs).
  - apply write_runtime_frame in H as (? & ? & ?). by eapply store_ok_frame.
  - pose proof (append_journal_frame s entries) as Hj. rewrite H in Hj. destruct Hj as (? & ? & ?). by eapply store_ok_frame.
  - unfold create_proposal in H. apply bind_Ok in H as (facts & _ & H). apply bind_Ok in H as (found & Hfound & H).
    apply bind_Ok in H as (settlement & Hmade & [= <- <-]). destruct (aggregate_ok s strategies id found Hs Hfound) as [Ha <-].
    eapply settle_ok; [done|]. eapply submission_ok in Hmade; [exact Hmade|done..|].
    intros x. rewrite aggregate_rows. intros Hx He. destruct Hf as [_ Hf]. apply (Hf x Hx). rewrite He. left.
  - unfold settle_proposal in H. apply bind_Ok in H as (facts & _ & H). apply bind_Ok in H as (found & Hfound & H).
    apply bind_Ok in H as (stored & [Hin _]%find_proposal_Ok & H). apply bind_Ok in H as (settlement & Hmade & [= <- <-]).
    destruct (aggregate_ok s strategies id found Hs Hfound) as [Ha <-].
    destruct (settling_spec Hwide _ _ _ _ _ _ Hsettle (eq_sym (aggregate_rows s strategies found)) Ha (ok_proposals s Hs _ _ Hin) Hmade)
      as [_ Hok]. by eapply settle_ok.
  - split; [apply (ok_portfolios s Hs)|]. intros id q. rewrite expire_stored. intros (p & -> & Hp)%list_elem_of_fmap.
    unfold expire. case_match; [|by apply (ok_proposals s Hs)]. apply (ok_proposals s Hs _ _ Hp).
Qed.

Lemma portfolio_steps_ok s s' : rtc portfolio_step s s' → store_ok s → store_ok s'.
Proof. induction 1; [done|]. intros Hs. by apply IHrtc, (portfolio_step_ok x). Qed.

(** ** What a step does to a stored proposal *)

(** A proposal stays as it is, or was pending and is now decided. *)
Definition carried (q q' : Proposal) : Prop := q' = q ∨ decides q q'.

Lemma upsert_carries p l stored q : List.find (λ r, bool_decide (Proposal.proposal_id r = Proposal.proposal_id p)) l = Some stored →
  decides stored p → q ∈ l → ∃ q', q' ∈ upsert p l ∧ carried q q'.
Proof.
  intros Hfind Hd. induction l as [|r l IH]; cbn in *; [done|]. case_bool_decide as Hid.
  - injection Hfind as ->. rewrite decide_True by done. intros [->|Hq]%elem_of_cons.
    + exists p. split; [left|by right].
    + exists q. split; [by right|by left].
  - rewrite decide_False by done. intros [->|Hq]%elem_of_cons.
    + exists r. split; [left|by left].
    + destruct (IH Hfind Hq) as (q' & Hq' & Hc). exists q'. split; [by right|done].
Qed.

Lemma upsert_fresh p l : (∀ r, r ∈ l → Proposal.proposal_id r ≠ Proposal.proposal_id p) → upsert p l = l ++ [p].
Proof.
  induction l as [|r l IH]; cbn; [done|]. intros H. rewrite decide_False by (apply H; left).
  rewrite IH; [done|]. intros r' Hr. apply H. by right.
Qed.

Lemma mutate_proposals s strategies id planner s' : _mutate s strategies id planner = Ok s' →
  PortfolioStore.proposals s' = PortfolioStore.proposals s.
Proof.
  unfold _mutate. intros (p & _ & (plan & _ & [= <-])%bind_Ok)%bind_Ok. by destruct plan.
Qed.

Lemma expire_carries now q : carried q (expire now q).
Proof.
  unfold expire, is_expired. destruct (bool_decide _) eqn:E; cbn; [|by left]. apply bool_decide_eq_true in E.
  case_match; [|by left]. right. split_and!; try done; by eexists.
Qed.

Lemma portfolio_step_carries s s' id q : store_ok s → portfolio_step s s' → q ∈ stored_proposals s id →
  (∃ q', q' ∈ stored_proposals s' id ∧ carried q q') ∨ dict_get id (PortfolioStore.portfolios s') = None.
Proof.
  intros Hs Hstep Hq.
  assert (PortfolioStore.proposals s' = PortfolioStore.proposals s →
    (∃ q', q' ∈ stored_proposals s' id ∧ carried q q') ∨ dict_get id (PortfolioStore.portfolios s') = None) as Hsame.
  { intros He. left. exists q. unfold stored_proposals in *. rewrite He. split; [done|by left]. }
  destruct Hstep as [read request i drawn context s' _ _ _ _ H|strategies i request context s' _ H
    |read strategies i request sleeve_id context s' _ _ H|read strategies i request drawn context s' _ _ _ H
    |strategies i sleeve_id request context s' _ H|before read strategies execution i sleeve_id expected context s' H
    |strategies i request context s' _ H|execution i expected s' H|state expected journal s' written H|entries s' r H
    |read strategies i now strategy_id request proposal_id sleeve_id context s' p Hv _ Hfresh H
    |read strategies i proposal_id strategy_id settle s' p Hsettle H|now].
  - apply Hsame. unfold create in H. apply bind_Ok in H as (facts & _ & H). by apply bind_Ok in H as (plan & _ & [= <-]).
  - eapply Hsame, mutate_proposals, H.
  - apply bind_Ok in H as (facts & _ & H). eapply Hsame, mutate_proposals, H.
  - apply bind_Ok in H as (facts & _ & H). eapply Hsame, mutate_proposals, H.
  - eapply Hsame, mutate_proposals, H.
  - apply bind_Ok in H as (current & _ & H). apply bind_Ok in H as (u & _ & H). eapply Hsame, mutate_proposals, H.
  - eapply Hsame, mutate_proposals, H.
  - apply bind_Ok in H as (u & _ & H). apply bind_Ok in H as (p & _ & H). apply bind_Ok in H as (u' & _ & [= <-]).
    unfold stored_proposals. cbn. destruct (decide (id = i)) as [->|Hi]; [right; apply dict_get_pop|]. left. exists q.
    rewrite dict_get_pop_ne by done. split; [done|by left].
  - apply Hsame. by apply write_runtime_frame in H as (_ & _ & ?).
  - apply Hsame. pose proof (append_journal_frame s entries) as Hj. rewrite H in Hj. by destruct Hj as (_ & _ & ?).
  - apply bind_Ok in H as (facts & _ & H). apply bind_Ok in H as (found & Hfound & H).
    apply bind_Ok in H as (settlement & Hmade & [= <- <-]). left. exists q. split; [|by left]. rewrite settle_stored.
    case_decide as Hid; [|done]. rewrite upsert_fresh; [apply elem_of_app; by left|].
    unfold _submission in Hmade. apply bind_Ok in Hmade as (u & _ & Hmade). apply bind_Ok in Hmade as (plan & _ & Hmade).
    apply bind_Ok in Hmade as (req & _ & [= <-]). cbn in *. destruct (aggregate_ok s strategies i found Hs Hfound) as [_ Hi].
    subst. exact Hfresh.
  - apply bind_Ok in H as (facts & _ & H). apply bind_Ok in H as (found & Hfound & H).
    apply bind_Ok in H as (stored & Hstored & H). apply bind_Ok in H as (settlement & Hmade & [= <- <-]).
    destruct (aggregate_ok s strategies i found Hs Hfound) as [Ha <-]. pose proof (find_proposal_Ok _ _ _ _ Hstored) as [Hin <-].
    destruct (settling_spec Hwide _ _ _ _ _ _ Hsettle (eq_sym (aggregate_rows s strategies found)) Ha (ok_proposals s Hs _ _ Hin) Hmade)
      as [Hd _]. left. rewrite settle_stored. case_decide as Hid; [|exists q; split; [done|by left]].
    eapply upsert_carries; [|exact Hd|done].
    destruct Hd as (_ & _ & _ & _ & Hpid & Hport & _). destruct (ok_proposals s Hs _ _ Hin) as [Hstored_id _].
    rewrite Hid, Hport, Hstored_id, Hpid. unfold _find_proposal in Hstored. destruct (List.find _ _); [|done]. by injection Hstored as ->.
  - left. exists (expire now q). rewrite expire_stored. split; [by apply list_elem_of_fmap_2|apply expire_carries].
Qed.

(** ** The weekly budget *)

(** An applied submission is a rebalance of a paper portfolio within what is left of the budget. *)
Lemma auto_submission_spec a request moved strategy proposal_id sleeve_id context st : agg_ok a →
  ProposalSubmitRequest.valid_submission request = true →
  _submission a request moved strategy proposal_id sleeve_id context = Ok st →
  if Proposal.auto_applied (settled_proposal st) then
    let permissions := ManagerSettings.permissions (Portfolio.manager (portfolio a)) in
    Portfolio.mode (portfolio a) = PortfolioMode.paper ∧ ManagerPermissions.may_rebalance permissions = true ∧
    ∃ m plan, settled_plan st = Some plan ∧ Proposal.weight_moved (settled_proposal st) = Some (canonical_text m) ∧
      plan_ok (Portfolio.portfolio_id (portfolio a)) plan ∧
      (val m <= val (dmax d0 (decimal_of (ManagerPermissions.max_weight_change_per_week permissions) - moved)%dec))%Q ∧
      let w := map weight_of (sleeve <$> sleeves a) in
      let w' := map weight_of (plan_sleeves plan) in
      (val m == Qmax (gained w w') (given_up w w'))%Q ∧ fraction_ok (val m)
  else settled_plan st = None.
Proof.
  intros Ha Hvalid. unfold _submission. intros (u & _ & H)%bind_Ok. cbn zeta in H.
  apply bind_Ok in H as (plan & Hplan & H). apply bind_Ok in H as (requirement & Hreq & [= <-]). cbn.
  destruct (auto_apply requirement && is_rebalance (ProposalSubmitRequest.change request)) eqn:Happlied; [|done].
  apply andb_true_iff in Happlied as [Hauto Hrebalance].
  assert (valid_change (ProposalSubmitRequest.change request) = true) as Hchange.
  { unfold ProposalSubmitRequest.valid_submission in Hvalid. by repeat (apply andb_true_iff in Hvalid as [Hvalid ?]). }
  destruct (ProposalSubmitRequest.change request) as [ws reserve|?|?|? ? ?]; try done. cbn [approval_requirement] in Hreq.
  apply bind_Ok in Hreq as (m & Hm & [= <-]).
  destruct (plan_rebalance_spec Hwide _ _ _ _ _ _ _ _ Ha Hchange Hplan) as (made & -> & Hweights & Hsum & _).
  pose proof Hchange as Hws. unfold valid_change, valid_weights in Hws. apply andb_true_iff in Hws as [[_ Hws]%andb_true_iff _].
  destruct (weight_moved_exact Hwide a ws m Ha Hws Hsum Hm) as [Hexact Hok].
  assert (plan_ok (Portfolio.portfolio_id (portfolio a)) made) as Hmade.
  { cbn in Hplan. apply bind_Ok in Hplan as (raw & Hraw & H). destruct raw as [raw|]; [|done]. injection H as <-.
    by apply plan_set_weights_ok in Hraw as [Hraw _]. }
  unfold _rebalance_requirement in Hauto |- *. cbn zeta in Hauto |- *.
  destruct (Portfolio.mode (portfolio a)); cbn in Hauto |- *; [|done]. split; [done|].
  destruct (ManagerPermissions.may_rebalance _); cbn in Hauto |- *; [|done]. split; [done|].
  destruct (dltb _ m) eqn:Hlt; cbn in Hauto |- *; [done|]. apply dltb_ge in Hlt.
  exists m, made. split_and!; try done; try apply Hok. rewrite Hweights.
  assert (map weight_of (sleeve <$> sleeves a) = held_values a) as -> by (unfold fmap; apply map_map). exact Hexact.
Qed.

Lemma auto_moved_range l now : (∀ p t, p ∈ l → Proposal.weight_moved p = Some t → fraction_ok (text_value t)) →
  Z.of_nat (length l) <= 10 ^ 19 →
  on_grid 4 (val (_auto_moved_since l now)) ∧ (0 <= val (_auto_moved_since l now) <= inject_Z (10 ^ 19))%Q.
Proof.
  intros Hl Hlen. unfold _auto_moved_since. set (counted := List.filter _ l).
  assert (∀ p, p ∈ counted → fraction_ok (val (decimal_of (default "" (Proposal.weight_moved p))))) as Hcounted.
  { intros p [Hc Hp]%elem_of_filter_bool. unfold counts_against_budget in Hc.
    repeat (apply andb_true_iff in Hc as [Hc ?]). destruct (Proposal.weight_moved p) as [t|] eqn:Hw; [|done].
    by apply (Hl p t). }
  assert (length counted <= length l)%nat as Hshort by apply filter_length_le.
  destruct (dsum_exact Hwide (map (λ p, decimal_of (default "" (Proposal.weight_moved p))) counted)) as [Hsum Hgrid].
  { apply Forall_fmap, Forall_forall, Hcounted. } { rewrite length_map. lia. }
  split; [exact Hgrid|]. unfold fmap. change (list_fmap _ _) with (@map Proposal decimal). rewrite Hsum.
  destruct (Qsum_bounds (map val (map (λ p, decimal_of (default "" (Proposal.weight_moved p))) counted))) as [H0 H1].
  { rewrite map_map. apply Forall_fmap, Forall_forall. intros p Hp. by destruct (Hcounted p Hp). }
  split; [exact H0|]. etrans; [exact H1|]. rewrite !length_map, <- Zle_Qle. lia.
Qed.

Lemma auto_moved_snoc l p now : _auto_moved_since (l ++ [p]) now =
  if counts_against_budget (now - REBALANCE_BUDGET_WINDOW) p
  then (_auto_moved_since l now + decimal_of (default "" (Proposal.weight_moved p)))%dec else _auto_moved_since l now.
Proof.
  unfold _auto_moved_since. rewrite List.filter_app. cbn. case_match; rewrite ?app_nil_r; [|done].
  unfold dsum. by rewrite fmap_app, fold_left_app.
Qed.

(** Within what is left, the total stays within the budget; with nothing left nothing moves. *)
Lemma budget_arithmetic (budget before m : decimal) : on_grid 4 (val before) → (0 <= val before <= inject_Z (10 ^ 19))%Q →
  fraction_ok (val budget) → fraction_ok (val m) → (val m <= val (dmax d0 (budget - before)%dec))%Q →
  (val (before + m)%dec == val before + val m)%Q ∧ ((val before + val m <= val budget)%Q ∨ (val m == 0)%Q).
Proof.
  intros Hg [H0 H1] [Hbg Hb] [Hmg Hm] Hle. split.
  - apply (grid_sum_exact Hwide 4); [lia|done..|]. rewrite Qabs_pos by lra. rewrite p10_Z by lia.
    assert (inject_Z (10 ^ 19) + 1 <= inject_Z (10 ^ 20))%Q; [|lra]. change 1%Q with (inject_Z 1).
    rewrite <- inject_Z_plus, <- Zle_Qle. lia.
  - assert (val (budget - before)%dec == val budget - val before)%Q as He.
    { eapply rounds_exact; [apply sub_rounds|]. unfold wide in Hwide. apply (on_grid_representable prec 4); [lia| |].
      - eapply on_grid_equal; [|apply on_grid_plus; [exact Hbg|apply on_grid_opp; exact Hg]]. ring.
      - apply Qle_trans with (inject_Z (10 ^ 19))%Q.
        + assert (1 <= inject_Z (10 ^ 19))%Q by (change 1%Q with (inject_Z 1); rewrite <- Zle_Qle; lia). apply Qabs_case; intros; lra.
        + rewrite p10_Z by lia. rewrite <- Zle_Qle. apply Z.pow_le_mono_r; lia. }
    rewrite val_dmax, val_d0, He in Hle. destruct (Q.max_spec 0 (val budget - val before)) as [[? Hmax]|[? Hmax]]; rewrite Hmax in Hle; [left|right]; lra.
Qed.
End Preserved.
