(* ===== verification/PortfolioSafety.v ===== *)
(** * PortfolioSafety: what a portfolio store keeps

    Whatever sequence of changes is made, and however stale the facts they were planned from,
    weights and reserve never exceed the capital; a decided proposal is final; and the manager
    moves no more than its weekly budget without a person. *)

From Stdlib Require Import Ascii Qminmax.
From stdpp Require Import relations.
From S2P Require Import Prelude Decimals DecimalFacts DecimalText Market Containers TradingModels FillLedger RiskModels.
From S2P Require Import EntryLimits Portfolio Proposals PortfolioStore PortfolioFacts PortfolioSteps.

Open Scope Z_scope.

(** A step after which the portfolio is still there. *)
Definition keeps {dc : DecimalContext} (id : UUID) (s s' : PortfolioStore) : Prop :=
  portfolio_step s s' ∧ dict_get id (PortfolioStore.portfolios s') ≠ None.

Section Properties.
Context {dc : DecimalContext}.

(** C18: whatever changes are made to a store, the weights of a portfolio's sleeves and its cash
    reserve, added exactly, never exceed its capital; every sleeve has a positive weight, and no
    identifier and no strategy appears in two sleeves. *)
Theorem allocation_never_exceeded (Hwide : wide dc) s id p :
  rtc portfolio_step PortfolioStore.empty s → dict_get id (PortfolioStore.portfolios s) = Some p →
  (Qsum (map weight_of (rows s id)) + text_value (Portfolio.cash_reserve_fraction p) <= 1)%Q
  ∧ (0 <= text_value (Portfolio.cash_reserve_fraction p))%Q
  ∧ (∀ x, x ∈ rows s id → (0 < weight_of x)%Q)
  ∧ NoDup (Sleeve.sleeve_id <$> rows s id) ∧ NoDup (Sleeve.strategy_id <$> rows s id)
  ∧ (length (rows s id) <= MAX_SLEEVES)%nat.
Proof.
  intros Hrun Hp. pose proof (portfolio_steps_ok Hwide _ _ Hrun store_ok_empty) as Hs.
  destruct (ok_portfolios s Hs id p Hp) as (_ & [Hr Hw Hi Hk Hc Ht] & _). split_and!; try done; [apply Hr|].
  intros x Hx. by apply Hw.
Qed.

(** C19: as long as its portfolio exists a proposal stays on record with what was proposed; only a
    pending one is ever decided, and a decision is final. *)
Theorem decided_proposals_are_final (Hwide : wide dc) s s' id q :
  rtc portfolio_step PortfolioStore.empty s → rtc (keeps id) s s' → q ∈ stored_proposals s id →
  ∃ q', q' ∈ stored_proposals s' id ∧ carried q q' ∧ (Proposal.status q ≠ ProposalStatus.pending → q' = q).
Proof.
  intros Hrun Hlife Hq. pose proof (portfolio_steps_ok Hwide _ _ Hrun store_ok_empty) as Hs. clear Hrun.
  assert (∃ q', q' ∈ stored_proposals s' id ∧ carried q q') as (q' & Hq' & Hc).
  { revert q Hq. induction Hlife as [s|s t s' [Hstep Hlive] _ IH]; intros q Hq; [exists q; split; [done|by left]|].
    destruct (portfolio_step_carries Hwide s t id q Hs Hstep Hq) as [(r & Hr & Hqr)|?]; [|done].
    destruct (IH (portfolio_step_ok Hwide s t Hstep Hs) r Hr) as (r' & Hr' & Hrr'). exists r'. split; [done|].
    destruct Hqr as [->|Hd]; [done|]. destruct Hrr' as [->|Hd']; [by right|].
    destruct Hd as (_ & Hdecided & _). by destruct Hd' as [? _]. }
  exists q'. split_and!; [done..|]. intros Hdecided. destruct Hc as [->|[Hpending _]]; done.
Qed.

(** C17: a submission changes a portfolio without a person only as a rebalance of a paper
    portfolio whose manager may rebalance. What it moves, the larger of the weight gained and the
    weight given up over the sleeves as they are stored before and after, is added exactly to what
    was moved that way in the trailing week, and the sum stays within the weekly budget (unless
    no weight moves at all). Any other submission leaves every portfolio alone. *)
Theorem manager_stays_within_budget (Hwide : wide dc) s read strategies id now strategy_id request proposal_id sleeve_id channel s' q p :
  rtc portfolio_step PortfolioStore.empty s → ProposalSubmitRequest.valid_submission request = true →
  fresh_proposal s id proposal_id → Z.of_nat (length (stored_proposals s id)) <= 10 ^ 19 →
  dict_get id (PortfolioStore.portfolios s) = Some p →
  create_proposal s read strategies id now strategy_id
    (λ current moved facts, _submission current request moved facts proposal_id sleeve_id
       {| actor := JournalActor.manager; Portfolio.channel := channel; occurred_at := now |}) = Ok (s', q) →
  if Proposal.auto_applied q then
    let permissions := ManagerSettings.permissions (Portfolio.manager p) in
    let moved := Qmax (gained (map weight_of (rows s id)) (map weight_of (rows s' id)))
                      (given_up (map weight_of (rows s id)) (map weight_of (rows s' id))) in
    let week store := val (_auto_moved_since (stored_proposals store id) now) in
    Portfolio.mode p = PortfolioMode.paper ∧ ManagerPermissions.may_rebalance permissions = true
    ∧ (week s' == week s + moved)%Q
    ∧ ((week s' <= text_value (ManagerPermissions.max_weight_change_per_week permissions))%Q ∨ (moved == 0)%Q)
  else PortfolioStore.portfolios s' = PortfolioStore.portfolios s ∧ PortfolioStore.sleeves s' = PortfolioStore.sleeves s.
Proof.
  intros Hrun Hvalid Hfresh Hmany Hp H. pose proof (portfolio_steps_ok Hwide _ _ Hrun store_ok_empty) as Hs.
  unfold create_proposal in H. apply bind_Ok in H as (facts & _ & H). unfold find_portfolio in H. rewrite Hp in H.
  cbn [mbind result_bind] in H. apply bind_Ok in H as (settlement & Hmade & [= <- <-]).
  assert (find_portfolio s id = Ok p) as Hfound by (unfold find_portfolio; by rewrite Hp).
  destruct (aggregate_ok s strategies id p Hs Hfound) as [Ha Hid].
  pose proof (auto_submission_spec Hwide _ _ _ _ _ _ _ _ Ha Hvalid Hmade) as Hspec.
  destruct (Proposal.auto_applied (settled_proposal settlement)) eqn:Happlied.
  2: { unfold _settle, apply_option. rewrite Hspec. done. }
  rewrite aggregate_rows in Hspec. cbn zeta in Hspec. cbn [portfolio _aggregate] in Hspec. rewrite Hid in Hspec.
  destruct Hspec as (Hmode & Hmay & m & plan & Hplan & Hmoved & (Hplan_id & _) & Hleft & Hexact & Hm).
  cbn zeta. split; [done|]. split; [done|].
  assert (rows (_settle s settlement) id = plan_sleeves plan) as Hrows.
  { unfold _settle, apply_option. rewrite Hplan, apply_rows. by rewrite decide_True by done. }
  rewrite Hrows. rewrite <- Hexact.
  assert (stored_proposals (_settle s settlement) id = stored_proposals s id ++ [settled_proposal settlement]
    ∧ counts_against_budget (now - REBALANCE_BUDGET_WINDOW) (settled_proposal settlement) = true) as [Hstored Hcounts].
  { unfold _submission in Hmade. apply bind_Ok in Hmade as (u & _ & Hmade). apply bind_Ok in Hmade as (made & _ & Hmade).
    apply bind_Ok in Hmade as (requirement & _ & [= <-]). cbn in Hmoved, Happlied. split.
    - rewrite settle_stored. cbn. rewrite decide_True by done. by apply upsert_fresh.
    - unfold counts_against_budget. cbn. rewrite Happlied. cbn. apply andb_true_iff in Happlied as [_ ->].
      destruct (requirement_moved requirement); [|done]. cbn. apply Z.leb_le. assert (0 <= REBALANCE_BUDGET_WINDOW) by done. lia. }
  cbn beta. rewrite Hstored, auto_moved_snoc, Hcounts, Hmoved. cbn [default].
  destruct (auto_moved_range Hwide (stored_proposals s id) now) as [Hgrid Hrange]; [|done|].
  { intros r t Hr. apply (ok_proposals s Hs id r Hr). }
  assert (fraction_ok (text_value (ManagerPermissions.max_weight_change_per_week (ManagerSettings.permissions (Portfolio.manager p))))) as Hbudget.
  { destruct (ok_portfolios s Hs id p Hp) as (_ & _ & Hmanager). unfold ManagerSettings.valid_manager, holds_value in Hmanager.
    by apply weight_fraction_ok in Hmanager as [Hok _]. }
  assert (val (decimal_of (canonical_text m)) == val m)%Q as Htext by apply text_value_canonical.
  destruct (budget_arithmetic Hwide (decimal_of (ManagerPermissions.max_weight_change_per_week (ManagerSettings.permissions (Portfolio.manager p))))
    (_auto_moved_since (stored_proposals s id) now) (decimal_of (canonical_text m)) Hgrid Hrange Hbudget) as [Hsum Hcases].
  { eapply fraction_ok_equal; [symmetry; exact Htext|done]. } { rewrite Htext. exact Hleft. }
  rewrite Htext in Hsum, Hcases. split; [exact Hsum|]. rewrite Hsum. exact Hcases.
Qed.
End Properties.

(** ** A concrete portfolio *)

Module Paper.
Definition read : Strategies := λ id, Some {|
  SleeveStrategy.strategy_id := id; SleeveStrategy.name := "trend"; SleeveStrategy.product_id := Some "BTC-USD";
  SleeveStrategy.covered_product_ids := ["BTC-USD"]; SleeveStrategy.timeframe := Some "1h"; SleeveStrategy.valid := true;
  SleeveStrategy.current_fingerprint := None |}.

Lemma read_honest : honest read.
Proof. by intros id s [= <-]. Qed.

Definition item (strategy weight : string) : SleeveBatchItem := {|
  SleeveBatchItem.strategy_id := strategy; SleeveBatchItem.weight_fraction := weight; SleeveBatchItem.note := None |}.

Definition request : PortfolioCreateRequest := {|
  PortfolioCreateRequest.name := "core"; PortfolioCreateRequest.mode := PortfolioMode.paper;
  PortfolioCreateRequest.quote_currency := "USD"; PortfolioCreateRequest.capital_quote := "10000";
  PortfolioCreateRequest.cash_reserve_fraction := "0.1";
  PortfolioCreateRequest.limits := {| PortfolioLimits.max_total_exposure_fraction := "1"; PortfolioLimits.max_per_asset_fraction := "1";
    PortfolioLimits.daily_loss_quote := Some "500"; PortfolioLimits.max_drawdown_fraction := Some "0.2" |};
  PortfolioCreateRequest.manager := {| ManagerSettings.mandate := ""; ManagerSettings.permissions := {|
    ManagerPermissions.may_rebalance := true; ManagerPermissions.max_weight_change_per_week := "0.2";
    ManagerPermissions.may_pause_sleeves := true; ManagerPermissions.may_propose_sleeves := true |} |};
  PortfolioCreateRequest.sleeves := [item "s1" "0.5"; item "s2" "0.3"] |}.

Definition at_noon (actor : JournalActor) : MutationContext := {| Portfolio.actor := actor; Portfolio.channel := JournalChannel.api; occurred_at := day |}.

Definition ok_or {A} (a : A) (r : result A) : A := match r with Ok a => a | Raise _ => a end.

Definition opened : PortfolioStore :=
  ok_or PortfolioStore.empty (@create default_context PortfolioStore.empty read request "p" ["b"; "a"] (at_noon JournalActor.operator)).

Lemma opened_reached : rtc (@portfolio_step default_context) PortfolioStore.empty opened.
Proof.
  apply rtc_once. apply (@step_create default_context _ read request "p" ["b"; "a"] (at_noon JournalActor.operator)).
  - vm_compute. reflexivity.
  - apply read_honest.
  - reflexivity.
  - apply (bool_decide_unpack _). vm_compute. exact I.
  - vm_compute. reflexivity.
Qed.

Definition row : Portfolio := ok_or {|
  Portfolio.portfolio_id := ""; Portfolio.name := ""; Portfolio.mode := PortfolioMode.live; Portfolio.quote_currency := "";
  Portfolio.capital_quote := ""; Portfolio.cash_reserve_fraction := ""; Portfolio.limits := PortfolioCreateRequest.limits request;
  Portfolio.manager := PortfolioCreateRequest.manager request; Portfolio.revision := 0; Portfolio.created_at := 0;
  Portfolio.updated_at := 0 |} (find_portfolio opened "p").

(** A tenth of the capital moves from one sleeve to the other. *)
Definition rebalance : ProposalSubmitRequest := {|
  ProposalSubmitRequest.revision := 1;
  ProposalSubmitRequest.change := RebalanceChange
    [{| WeightAssignment.sleeve_id := "a"; WeightAssignment.weight_fraction := "0.4" |};
     {| WeightAssignment.sleeve_id := "b"; WeightAssignment.weight_fraction := "0.4" |}] None;
  ProposalSubmitRequest.rationale := "even out"; ProposalSubmitRequest.evidence := [] |}.

Definition submitted : result (PortfolioStore * Proposal) :=
  @create_proposal default_context opened read read "p" day None
    (λ current moved facts, @_submission default_context current rebalance moved facts "q1" "c" (at_noon JournalActor.manager)).

Definition after : PortfolioStore := match submitted with Ok (s, _) => s | Raise _ => PortfolioStore.empty end.

Lemma after_submitted : ∃ q, submitted = Ok (after, q) ∧ stored_proposals after "p" = [q] ∧ Proposal.status q = ProposalStatus.applied
  ∧ Proposal.auto_applied q = true.
Proof. unfold after. eexists. split; [vm_compute; reflexivity|]. split_and!; vm_compute; reflexivity. Qed.

Lemma after_reached : rtc (@portfolio_step default_context) PortfolioStore.empty after.
Proof.
  eapply rtc_r; [apply opened_reached|]. destruct after_submitted as (q & Hq & _).
  eapply (@step_submit default_context _ read read "p" day None rebalance "q1" "c" (at_noon JournalActor.manager) _ q); [| | |exact Hq].
  - vm_compute. reflexivity.
  - split; [apply NoDup_singleton|]. apply Forall_forall, (bool_decide_unpack _). vm_compute. exact I.
  - intros r. vm_compute. intros Hr. inversion Hr.
Qed.
End Paper.

Lemma allocation_never_exceeded_witness :
  (Qsum (map weight_of (rows Paper.opened "p")) + text_value (Portfolio.cash_reserve_fraction Paper.row) <= 1)%Q.
Proof.
  assert (wide default_context) as Hwide by (vm_compute; discriminate).
  apply (@allocation_never_exceeded default_context Hwide Paper.opened "p" Paper.row Paper.opened_reached).
  vm_compute. reflexivity.
Defined.

(** The applied rebalance is still on record, as it was, after overdue proposals expired. *)
Lemma decided_proposals_are_final_witness :
  ∃ q', q' ∈ stored_proposals (@expire_proposals Paper.after (10 * day)).1 "p" ∧ Proposal.status q' = ProposalStatus.applied.
Proof.
  assert (wide default_context) as Hwide by (vm_compute; discriminate).
  destruct Paper.after_submitted as (q & _ & Hstored & Hstatus & _).
  destruct (@decided_proposals_are_final default_context Hwide Paper.after (@expire_proposals Paper.after (10 * day)).1 "p" q
    Paper.after_reached) as (q' & Hq' & _ & Hfinal).
  - apply rtc_once. split; [apply step_expire|]. vm_compute. discriminate.
  - rewrite Hstored. left.
  - exists q'. split; [exact Hq'|]. rewrite Hfinal; [exact Hstatus|]. by rewrite Hstatus.
Defined.

Lemma manager_stays_within_budget_witness :
  (val (@_auto_moved_since default_context (stored_proposals Paper.after "p") day)
   == val (@_auto_moved_since default_context (stored_proposals Paper.opened "p") day)
      + Qmax (gained (map weight_of (rows Paper.opened "p")) (map weight_of (rows Paper.after "p")))
             (given_up (map weight_of (rows Paper.opened "p")) (map weight_of (rows Paper.after "p"))))%Q.
Proof.
  assert (wide default_context) as Hwide by (vm_compute; discriminate).
  destruct Paper.after_submitted as (q & Hq & _ & _ & Happlied).
  pose proof (@manager_stays_within_budget default_context Hwide Paper.opened Paper.read Paper.read "p" day None Paper.rebalance "q1" "c"
    JournalChannel.api Paper.after q Paper.row Paper.opened_reached) as H.
  rewrite Happlied in H. cbn zeta beta in H. apply H.
  - vm_compute. reflexivity.
  - intros r. vm_compute. intros Hr. inversion Hr.
  - vm_compute. discriminate.
  - vm_compute. reflexivity.
  - exact Hq.
Defined.
