(* ===== verification/PortfolioBreakers.v ===== *)
(** * PortfolioBreakers: a loss stop halts the portfolio

    One supervision pass over a portfolio whose breaker is latched, or whose loss stop is reached:
    the latch is stored, every running book that was read up to date is paused, and the gate
    denies every entry. *)

From stdpp Require Import relations.
From S2P Require Import Prelude Decimals DecimalFacts DecimalText Market Geometry Containers TradingModels FillLedger.
From S2P Require Import ExecutionStore StoreFacts Ledger RiskModels EntryLimits Portfolio Proposals PortfolioStore PortfolioRuntime PortfolioSafety.

Open Scope Z_scope.

(** ** Programs on a desk *)

Lemma D_bind_Ok {A B} (m : D A) (f : A → D B) desk desk' b :
  (m ≫= f) desk = (desk', Ok b) ↔ ∃ mid a, m desk = (mid, Ok a) ∧ f a mid = (desk', Ok b).
Proof.
  unfold mbind, D_bind. destruct (m desk) as [mid [a|e]]; split.
  - intros H. by exists mid, a.
  - by intros (? & ? & [= <- <-] & ?).
  - done.
  - by intros (? & ? & ? & ?).
Qed.

Lemma D_ret_Ok {A} (a b : A) desk desk' : (mret a : D A) desk = (desk', Ok b) → desk' = desk ∧ b = a.
Proof. by intros [= <- <-]. Qed.

Definition book_row (desk : Desk) (i : UUID) : option Deployment := dict_get i (deployments (books_at desk)).

(** A save under the revision that was read: the row moves on, or was changed and is left alone. *)
Lemma save_or_skip_spec d expected desk desk' u : save_or_skip d expected desk = (desk', Ok u) →
  portfolio_rows desk' = portfolio_rows desk ∧ (∀ i, i ≠ Deployment.id d → book_row desk' i = book_row desk i) ∧
  (∀ c, book_row desk (Deployment.id d) = Some c → Deployment.revision c = expected →
     book_row desk' (Deployment.id d) = Some (Deployment.set_revision d (expected + 1))).
Proof.
  unfold save_or_skip, catch. destruct (((_ ← on_books (λ s, save_deployment s d (Some expected) None); mret tt) : D unit) desk) as [mid [[]|e]] eqn:H.
  - intros [= <- _]. apply D_bind_Ok in H as (mid' & saved & H & [= <-]).
    unfold on_books in H. destruct (save_deployment _ _ _ _) as [[s x]|] eqn:Hsave; [|done]. injection H as <- <-. cbn.
    unfold save_deployment in Hsave. cbn [guard_or bool_decide orb negb] in Hsave.
    apply bind_Ok in Hsave as ([] & _ & Hsave). apply bind_Ok in Hsave as (c & Hc & Hsave). apply bind_Ok in Hsave as ([] & Hrev & Hsave).
    cbn zeta in Hsave. unfold find_deployment in Hc. destruct (dict_get (Deployment.id d) (deployments (books_at desk))) as [c'|] eqn:Hrow; [|done].
    injection Hc as ->. apply guard_or_Ok, Z.eqb_eq in Hrev.
    assert (deployments s = dict_set (Deployment.id d) (Deployment.set_revision d (Deployment.revision c + 1)) (deployments (books_at desk))) as Hs.
    { repeat (case_match; try done); by injection Hsave as <- _. }
    split; [done|]. unfold book_row. cbn. rewrite Hs. split.
    + intros i Hi. by apply dict_get_set_ne.
    + intros c' _ _. rewrite dict_get_set. by rewrite <- Hrev.
  - assert (mid = desk) as ->.
    { unfold mbind, D_bind, on_books in H. destruct (save_deployment _ _ _ _) as [[s x]|]; [done|]. by injection H as <- _. }
    destruct (is_execution_conflict e); [|done]. intros [= <- _]. split; [done|]. split; [done|]. intros c Hc Hrev. exfalso.
    unfold mbind, D_bind, on_books in H. destruct (save_deployment _ _ _ _) as [[s x]|e2] eqn:Hsave; [done|]. injection H as ->.
    unfold save_deployment in Hsave. cbn [guard_or bool_decide orb negb mbind result_bind] in Hsave.
    unfold find_deployment in Hsave. unfold book_row in Hc. rewrite Hc in Hsave. cbn [mbind result_bind ExecutionStore.require_revision] in Hsave.
    rewrite (proj2 (Z.eqb_eq _ _) Hrev) in Hsave. cbn in Hsave. repeat (case_match; try done).
Qed.

(** A loop over books that touches only the book it is at. *)
Lemma for_each_frame (f : Deployment → D unit) l desk desk' u :
  (∀ (d : Deployment) desk desk' u, d ∈ l → f d desk = (desk', Ok u) →
     portfolio_rows desk' = portfolio_rows desk ∧ (∀ i, i ≠ Deployment.id d → book_row desk' i = book_row desk i)) →
  for_each f l desk = (desk', Ok u) →
  portfolio_rows desk' = portfolio_rows desk ∧ (∀ i, (∀ d : Deployment, d ∈ l → Deployment.id d ≠ i) → book_row desk' i = book_row desk i).
Proof.
  intros Hf. revert desk. induction l as [|d l IH]; intros desk; cbn; [by intros [-> _]%D_ret_Ok|].
  intros (mid & a & Hd & Hl)%D_bind_Ok. destruct (Hf d _ _ _ ltac:(left) Hd) as [Hp Hi].
  destruct (IH ltac:(intros; eapply Hf; [by right|done]) _ Hl) as [Hp' Hi']. split; [congruence|].
  intros i Hin. rewrite Hi' by (intros; apply Hin; by right). apply Hi. intros ->. by apply (Hin d ltac:(left)).
Qed.

Lemma for_each_at (f : Deployment → D unit) l (d : Deployment) desk desk' u :
  (∀ (d : Deployment) desk desk' u, d ∈ l → f d desk = (desk', Ok u) →
     portfolio_rows desk' = portfolio_rows desk ∧ (∀ i, i ≠ Deployment.id d → book_row desk' i = book_row desk i)) →
  NoDup ((λ d : Deployment, Deployment.id d) <$> l) → d ∈ l → for_each f l desk = (desk', Ok u) →
  ∃ before after a, f d before = (after, Ok a) ∧ book_row before (Deployment.id d) = book_row desk (Deployment.id d) ∧
    book_row desk' (Deployment.id d) = book_row after (Deployment.id d).
Proof.
  intros Hf. revert desk. induction l as [|x l IH]; intros desk Hn Hd; cbn; [by apply elem_of_nil in Hd|].
  intros (mid & a & Hx & Hl)%D_bind_Ok. apply NoDup_cons in Hn as [Hx' Hn].
  assert (∀ (d : Deployment) desk desk' u, d ∈ l → f d desk = (desk', Ok u) →
     portfolio_rows desk' = portfolio_rows desk ∧ (∀ i, i ≠ Deployment.id d → book_row desk' i = book_row desk i)) as Hfl
    by (intros; eapply Hf; [by right|done]).
  apply elem_of_cons in Hd as [->|Hd].
  - exists desk, mid, a. split_and!; try done. eapply for_each_frame in Hl as [_ Hi]; [|exact Hfl]. apply Hi.
    intros y Hy He. apply Hx'. rewrite <- He. apply list_elem_of_fmap. by exists y.
  - destruct (IH Hfl mid Hn Hd Hl) as (before & after & b & Hb & Hbefore & Hafter). exists before, after, b. split_and!; try done.
    rewrite Hbefore. eapply Hf; [left|exact Hx|]. intros He. apply Hx'. rewrite <- He. apply list_elem_of_fmap. by exists d.
Qed.

(** ** The books of a pass *)

Lemma elem_of_members deployments id (d : Deployment) : d ∈ members deployments id ↔ Deployment.portfolio_id d = Some id ∧ d ∈ deployments.
Proof. unfold members. rewrite elem_of_sort_by, elem_of_filter_bool, bool_decide_eq_true. done. Qed.

Lemma NoDup_fmap_filter {A B} (key : A → B) (f : A → bool) l : NoDup (key <$> l) → NoDup (key <$> List.filter f l).
Proof.
  induction l as [|x l IH]; cbn; [done|]. intros [Hx Hl]%NoDup_cons. destruct (f x); [|by apply IH]. cbn. apply NoDup_cons. split; [|by apply IH].
  intros (y & Hy & [_ Hin]%elem_of_filter_bool)%list_elem_of_fmap. apply Hx. rewrite Hy. apply list_elem_of_fmap. by exists y.
Qed.

Lemma NoDup_members deployments id : NoDup ((λ d : Deployment, Deployment.id d) <$> deployments) →
  NoDup ((λ d : Deployment, Deployment.id d) <$> members deployments id).
Proof. intros Hn. unfold members. rewrite stable_sort_perm. by apply NoDup_fmap_filter. Qed.

Section Pass.
Context {dc : DecimalContext}.

(** The book already has the capital its sleeve's weight gives it. *)
Definition in_step (a : PortfolioAggregate) (d : Deployment) : Prop :=
  match Deployment.strategy_id d ≫= (λ id, dict_get id (strategy_weights a)) with
  | None => True
  | Some weight => same_capital (Deployment.allocated_capital d)
      (decimal_of (sleeve_capital (Portfolio.capital_quote (portfolio a)) weight)) = true
  end.

Lemma sync_frame a occupied now desk desk' u : _sync_allocations a occupied now desk = (desk', Ok u) →
  NoDup ((λ d : Deployment, Deployment.id d) <$> occupied) →
  portfolio_rows desk' = portfolio_rows desk ∧
  (∀ d : Deployment, d ∈ occupied → in_step a d → book_row desk' (Deployment.id d) = book_row desk (Deployment.id d)).
Proof.
  unfold _sync_allocations. set (f := λ d : Deployment, _). intros H Hn.
  assert (∀ (d : Deployment) desk desk' u, d ∈ occupied → f d desk = (desk', Ok u) →
     portfolio_rows desk' = portfolio_rows desk ∧ (∀ i, i ≠ Deployment.id d → book_row desk' i = book_row desk i)) as Hf.
  { intros d k k' v _. unfold f. destruct (Deployment.strategy_id d ≫= _); [|by intros [-> _]%D_ret_Ok]. cbn zeta.
    case_match; [by intros [-> _]%D_ret_Ok|]. intros (Hp & Hi & _)%save_or_skip_spec. done. }
  pose proof (for_each_frame f occupied desk desk' u Hf H) as [Hp _]. split; [done|]. intros d Hd Hstep.
  destruct (for_each_at f occupied d desk desk' u Hf Hn Hd H) as (before & after & a' & Hat & Hb & Ha).
  rewrite Ha, <- Hb. unfold f in Hat. unfold in_step in Hstep. destruct (Deployment.strategy_id d ≫= _).
  - cbn zeta in Hat. rewrite Hstep in Hat. by apply D_ret_Ok in Hat as [-> _].
  - by apply D_ret_Ok in Hat as [-> _].
Qed.

Definition paused_row (d : Deployment) (now : datetime) (detail : string) : Deployment :=
  Deployment.set_revision (with_runtime d now (breaker_pause detail)) (Deployment.revision d + 1).

Lemma pause_running_spec running detail now desk desk' u : _pause_running running detail now desk = (desk', Ok u) →
  NoDup ((λ d : Deployment, Deployment.id d) <$> running) →
  portfolio_rows desk' = portfolio_rows desk ∧
  (∀ d c : Deployment, d ∈ running → book_row desk (Deployment.id d) = Some c → Deployment.revision c = Deployment.revision d →
     book_row desk' (Deployment.id d) = Some (paused_row d now detail)).
Proof.
  unfold _pause_running. set (f := λ d : Deployment, _). intros H Hn.
  assert (∀ (d : Deployment) desk desk' u, d ∈ running → f d desk = (desk', Ok u) →
     portfolio_rows desk' = portfolio_rows desk ∧ (∀ i, i ≠ Deployment.id d → book_row desk' i = book_row desk i)) as Hf.
  { intros d k k' v _. unfold f. intros (Hp & Hi & _)%save_or_skip_spec. done. }
  pose proof (for_each_frame f running desk desk' u Hf H) as [Hp _]. split; [done|]. intros d c Hd Hc Hrev.
  destruct (for_each_at f running d desk desk' u Hf Hn Hd H) as (before & after & a' & Hat & Hb & Ha).
  rewrite Ha. unfold f in Hat. apply save_or_skip_spec in Hat as (_ & _ & Hsaved). eapply (Hsaved c); [by rewrite <- Hc, <- Hb|done].
Qed.

(** ** A pass *)

(** The breaker is latched, or every book of the run is marked and a loss stop is reached. *)
Definition breaker_due (a : PortfolioAggregate) (r : RuntimeState) (deployments : list Deployment) (now : datetime)
    (reason : BreakerReason) : Prop :=
  RuntimeState.breaker_reason r = Some reason ∨
  let tagged := members deployments (Portfolio.portfolio_id (portfolio a)) in
  let run := run_members tagged r in
  RuntimeState.breaker_reason r = None ∧ occupied_members tagged ≠ [] ∧
  (∀ d : Deployment, d ∈ run → Deployment.performance_equity d ≠ None) ∧
  ∃ trip, tripped_breaker a (roll_baselines r (run_equity a run) now) = Ok (Some trip) ∧ trip_reason trip = reason.

Definition stored_latch (desk : Desk) (id : UUID) (reason : BreakerReason) : Prop :=
  ∃ row, runtime_state (portfolio_rows desk) id = Ok row ∧ RuntimeState.breaker_reason row = Some reason.

Lemma marked_resolved s (run : list Deployment) : (∀ d : Deployment, d ∈ run → Deployment.performance_equity d ≠ None) →
  any_unresolved s run = Ok false.
Proof.
  induction run as [|d run IH]; cbn; intros H; [done|]. destruct (Deployment.performance_equity d) eqn:E.
  - apply IH. intros x Hx. apply H. by right.
  - exfalso. by apply (H d ltac:(left)).
Qed.

(** The row that was read is the row that is stored, so the write succeeds. *)
Lemma write_current s r state expected journal : runtime_state s (RuntimeState.portfolio_id state) = Ok r → RuntimeState.revision r = expected →
  ∃ s', write_runtime s state expected journal = Ok (s', Some (RuntimeState.set_revision state (expected + 1))) ∧
    runtime_state s' (RuntimeState.portfolio_id state) = Ok (RuntimeState.set_revision state (expected + 1)).
Proof.
  unfold runtime_state, write_runtime, find_portfolio. cbn zeta. destruct (dict_get _ (PortfolioStore.portfolios s)) as [p|] eqn:Hp; [|done].
  cbn [mbind result_bind]. intros [= Hr] He.
  assert (match dict_get (RuntimeState.portfolio_id state) (PortfolioStore.runtime s) with Some r => RuntimeState.revision r | None => 0 end = expected) as ->.
  { subst r expected. by destruct (dict_get _ (PortfolioStore.runtime s)). }
  rewrite Z.eqb_refl. cbn [negb]. eexists. split; [done|]. cbn. rewrite Hp. cbn. by rewrite dict_get_set.
Qed.

Lemma enforce_latch_spec state running now desk desk' r reason : _enforce_latch state running now desk = (desk', Ok r) →
  NoDup ((λ d : Deployment, Deployment.id d) <$> running) → RuntimeState.breaker_reason state = Some reason →
  r = state ∧ portfolio_rows desk' = portfolio_rows desk ∧
  (∀ d c : Deployment, d ∈ running → book_row desk (Deployment.id d) = Some c → Deployment.revision c = Deployment.revision d →
     book_row desk' (Deployment.id d) = Some (paused_row d now (latch_detail reason (RuntimeState.breaker_detail state)))).
Proof.
  unfold _enforce_latch. intros H Hn Hreason. rewrite Hreason in H. apply D_bind_Ok in H as (mid & u & H & [-> ->]%D_ret_Ok).
  destruct running as [|x running]; [apply D_ret_Ok in H as [-> _]; split_and!; try done; by intros d c ?%elem_of_nil|].
  apply pause_running_spec in H as [Hp Hpaused]; [|done]. done.
Qed.

Definition running_members (a : PortfolioAggregate) (deployments : list Deployment) : list Deployment :=
  List.filter (λ d : Deployment, bool_decide (Deployment.status d = DeploymentStatus.RUNNING))
    (occupied_members (members deployments (Portfolio.portfolio_id (portfolio a)))).

(** After the allocations a pass only records the run and enforces the latch it then holds. *)
Lemma supervise_recorded a r deployments now mid desk' r' reason :
  let tagged := members deployments (Portfolio.portfolio_id (portfolio a)) in
  RuntimeState.portfolio_id r = Portfolio.portfolio_id (portfolio a) →
  runtime_state (portfolio_rows mid) (Portfolio.portfolio_id (portfolio a)) = Ok r →
  breaker_due a r deployments now reason → NoDup ((λ d : Deployment, Deployment.id d) <$> running_members a deployments) →
  ((unresolved ← _equity_unresolved (run_members tagged r);
   if (unresolved : bool) then _enforce_latch r (running_members a deployments) now
   else
     let recorded := roll_baselines r (run_equity a (run_members tagged r)) now in
     trip ← (if RuntimeState.breaker_latched r then mret None else lift (tripped_breaker a recorded));
     state ← match (trip : option BreakerTrip) with
       | Some trip =>
           let latched := latched_by recorded trip now in
           written ← on_portfolios (λ s, write_runtime s latched (RuntimeState.revision r) [_trip_entry a trip (running_members a deployments) now]);
           mret (default latched (written : option RuntimeState))
       | None =>
           if _baselines_moved r recorded now then
             written ← on_portfolios (λ s, write_runtime s recorded (RuntimeState.revision r) []);
             mret (default r (written : option RuntimeState))
           else mret r
       end;
     _enforce_latch state (running_members a deployments) now) : D RuntimeState) mid = (desk', Ok r') →
  ∃ before, books_at before = books_at mid ∧ stored_latch before (Portfolio.portfolio_id (portfolio a)) reason ∧
    RuntimeState.breaker_reason r' = Some reason ∧ _enforce_latch r' (running_members a deployments) now before = (desk', Ok r').
Proof.
  cbn zeta. intros Hid Hstored Hdue Hn (mid1 & unresolved & Hask & H)%D_bind_Ok.
  assert (mid1 = mid ∧ any_unresolved (books_at mid) (run_members (members deployments (Portfolio.portfolio_id (portfolio a))) r) = Ok unresolved)
    as [-> Hunresolved] by (by injection Hask as <- <-). clear Hask.
  destruct unresolved.
  { destruct Hdue as [Hreason|(_ & _ & Hmarked & _)]; [|by rewrite (marked_resolved _ _ Hmarked) in Hunresolved].
    pose proof (enforce_latch_spec _ _ _ _ _ _ _ H Hn Hreason) as (-> & _ & _). exists mid. split; [done|]. split; [|done]. by exists r. }
  cbn zeta in H. set (recorded := roll_baselines r _ now) in *.
  assert (RuntimeState.portfolio_id recorded = Portfolio.portfolio_id (portfolio a) ∧ RuntimeState.breaker_reason recorded = RuntimeState.breaker_reason r)
    as [Hrid Hrreason].
  { unfold recorded, roll_baselines. destruct (match RuntimeState.day_open_equity r with Some _ => _ | None => _ end). done. }
  apply D_bind_Ok in H as (mid2 & trip & Htrip & H). apply D_bind_Ok in H as (before & state & Hstate & H).
  assert (mid2 = mid) as -> by (destruct (RuntimeState.breaker_latched r); by injection Htrip).
  assert (books_at before = books_at mid ∧ stored_latch before (Portfolio.portfolio_id (portfolio a)) reason ∧
    RuntimeState.breaker_reason state = Some reason) as (Hbooks & Hlatch & Hreason).
  { destruct Hdue as [Hreason|(Hnone & _ & _ & made & Hmade & Hreason)].
    - unfold RuntimeState.breaker_latched in Htrip. rewrite Hreason in Htrip. injection Htrip as <-.
      destruct (_baselines_moved r recorded now).
      + apply D_bind_Ok in Hstate as (mid3 & written & Hw & [-> ->]%D_ret_Ok). unfold on_portfolios in Hw.
        destruct (write_current (portfolio_rows mid) r recorded (RuntimeState.revision r) []) as (s' & Hs' & Hrow); [by rewrite Hrid|done|].
        rewrite Hs' in Hw. injection Hw as <- <-. split; [done|]. rewrite Hrid in Hrow. split; [eexists; split; [exact Hrow|]|]; cbn; congruence.
      + apply D_ret_Ok in Hstate as [-> ->]. split; [done|]. split; [by exists r|done].
    - unfold RuntimeState.breaker_latched in Htrip. rewrite Hnone in Htrip. cbn in Htrip. fold recorded in Hmade. rewrite Hmade in Htrip.
      injection Htrip as <-. cbn zeta in Hstate. apply D_bind_Ok in Hstate as (mid3 & written & Hw & [-> ->]%D_ret_Ok). unfold on_portfolios in Hw.
      destruct (write_current (portfolio_rows mid) r (latched_by recorded made now) (RuntimeState.revision r)
        [_trip_entry a made (running_members a deployments) now]) as (s' & Hs' & Hrow); [cbn; by rewrite Hrid|done|].
      rewrite Hs' in Hw. injection Hw as <- <-. split; [done|]. cbn [latched_by RuntimeState.set_latch RuntimeState.portfolio_id] in Hrow.
      rewrite Hrid in Hrow. split; [eexists; split; [exact Hrow|]|]; cbn; congruence. }
  pose proof (enforce_latch_spec _ _ _ _ _ _ _ H Hn Hreason) as (-> & _ & _). by exists before.
Qed.
End Pass.

(** C16: once a portfolio's breaker is latched, or the loss of its run reaches a stop, a
    supervision pass leaves the latch stored, pauses every running book it read up to date and
    whose capital it did not change, and hands the gate a book on which every entry of the
    portfolio is denied. *)
Theorem breaker_halts_portfolio {dc : DecimalContext} {so : SetOrder} a r deployments now desk desk' r' reason :
  let id := Portfolio.portfolio_id (portfolio a) in
  NoDup ((λ d : Deployment, Deployment.id d) <$> deployments) → RuntimeState.portfolio_id r = id →
  runtime_state (portfolio_rows desk) id = Ok r → breaker_due a r deployments now reason →
  _supervise_one a r deployments now desk = (desk', Ok r') →
  stored_latch desk' id reason
  ∧ (∀ d c : Deployment, d ∈ deployments → Deployment.portfolio_id d = Some id → Deployment.status d = DeploymentStatus.RUNNING →
      in_step a d → book_row desk (Deployment.id d) = Some c → Deployment.revision c = Deployment.revision d →
      ∃ row, book_row desk' (Deployment.id d) = Some row ∧ Deployment.status row = DeploymentStatus.PAUSED ∧
        Deployment.lifecycle_command row = LifecycleCommand.STOP_NEW_ENTRIES)
  ∧ (∀ (d : Deployment) proposed snapshots, Deployment.portfolio_id d = Some id →
      ∃ book, portfolio_risk_for (Some (risk_book a r')) d = Some book ∧
        evaluate_portfolio_entry book proposed snapshots = Ok (_deny PORTFOLIO_BREAKER_LATCHED)).
Proof.
  cbn zeta. intros Hn Hid Hstored Hdue H.
  assert (NoDup ((λ d : Deployment, Deployment.id d) <$> occupied_members (members deployments (Portfolio.portfolio_id (portfolio a))))) as Hocc
    by by apply NoDup_fmap_filter, NoDup_members.
  assert (NoDup ((λ d : Deployment, Deployment.id d) <$> running_members a deployments)) as Hrunning by by apply NoDup_fmap_filter.
  assert (Hgate : RuntimeState.breaker_reason r' = Some reason → ∀ (d : Deployment) proposed snapshots,
    Deployment.portfolio_id d = Some (Portfolio.portfolio_id (portfolio a)) →
      ∃ book, portfolio_risk_for (Some (risk_book a r')) d = Some book ∧
        evaluate_portfolio_entry book proposed snapshots = Ok (_deny PORTFOLIO_BREAKER_LATCHED)).
  { intros Hr' d proposed snapshots Hd. unfold portfolio_risk_for. rewrite Hd, decide_True by done. eexists. split; [done|].
    unfold evaluate_portfolio_entry, risk_book. cbn. by rewrite Hr'. }
  unfold _supervise_one in H. cbn zeta in H.
  destruct (occupied_members (members deployments (Portfolio.portfolio_id (portfolio a)))) as [|x rest] eqn:Hx.
  { apply D_ret_Ok in H as [-> ->]. destruct Hdue as [Hreason|(_ & Hne & _)]; [|done]. split; [by exists r|]. split; [|by apply Hgate].
    intros d c Hd Hp Hs. exfalso. assert (d ∈ ([] : list Deployment)) as Hin; [|by apply elem_of_nil in Hin].
    rewrite <- Hx. unfold occupied_members. rewrite elem_of_filter_bool, elem_of_members. split; [|done]. unfold occupies_running_slot. by rewrite Hs. }
  rewrite <- Hx in H, Hocc. apply D_bind_Ok in H as (mid & u & Hsync & H).
  apply sync_frame in Hsync as [Hrows Hsync]; [|done].
  rewrite <- Hrows in Hstored. apply supervise_recorded with (reason := reason) in H as (before & Hbooks & Hlatch & Hr' & H); [|done..].
  pose proof (enforce_latch_spec _ _ _ _ _ _ _ H Hrunning Hr') as (_ & Hp & Hpaused).
  split; [destruct Hlatch as (row & ? & ?); exists row; by rewrite Hp|]. split; [|by apply Hgate].
  intros d c Hd Hport Hs Hstep Hc Hrev.
  assert (d ∈ occupied_members (members deployments (Portfolio.portfolio_id (portfolio a)))) as Hin.
  { unfold occupied_members. rewrite elem_of_filter_bool, elem_of_members. split; [|done]. unfold occupies_running_slot. by rewrite Hs. }
  exists (paused_row d now (latch_detail reason (RuntimeState.breaker_detail r'))). split; [|done]. apply (Hpaused d c); [|..|done].
  - unfold running_members. rewrite elem_of_filter_bool, bool_decide_eq_true. done.
  - unfold book_row. rewrite Hbooks. rewrite <- Hc. by apply Hsync.
Qed.

(** ** A losing day *)

Module Losing.

Definition book (id strategy : UUID) (capital equity : Z) : Deployment :=
  let c := Deployment.capital demo_deployment in
  Deployment.mk {|
      Deployment.id := id; Deployment.strategy_fingerprint := Some "sha256:a"; Deployment.strategy_id := Some strategy;
      Deployment.product_id := "BTC-USD"; Deployment.mode := DeploymentMode.PAPER; Deployment.created_at := demo_hour 0;
      Deployment.paper_starting_cash := Some (of_Z capital); Deployment.paper_maker_fee_rate := None;
      Deployment.paper_taker_fee_rate := None; Deployment.kind := DeploymentKind.STRATEGY; Deployment.timeframe := None;
      Deployment.strategy_name := None; Deployment.portfolio_id := Some "p" |} {|
      Deployment.allocated_capital := Some (of_Z capital); Deployment.venue_available_quote := None;
      Deployment.reserved_buying_power := None; Deployment.inventory_cost := None;
      Deployment.performance_equity := Some (of_Z equity); Deployment.performance_capital_quote := None;
      Deployment.performance_maximum_drawdown_fraction := None; Deployment.initial_equity := Some (of_Z capital);
      Deployment.baseline_equity := None; Deployment.utc_day_open_equity := None; Deployment.utc_day_open_at := None;
      Deployment.risk_day_open_evidence := None; Deployment.high_water_mark_equity := None |}
    (Deployment.runtime demo_deployment) DeploymentStatus.RUNNING (of_Z capital) (demo_hour 0) None false None 4 None None
    LifecycleCommand.NONE false false None None.

(** The first sleeve lost 600 of the 5000 it was given; the portfolio stops at a loss of 500. *)
Definition books : list Deployment := [book "d1" "s1" 5000 4400; book "d2" "s2" 3000 3050].

Definition run : RuntimeState := {|
  RuntimeState.portfolio_id := "p"; RuntimeState.run_started_at := Some (demo_hour 0); RuntimeState.breaker_reason := None;
  RuntimeState.breaker_detail := None; RuntimeState.breaker_latched_at := None; RuntimeState.day_open_equity := Some (of_Z 10000);
  RuntimeState.day_open_at := Some (utc_day_start (demo_hour 0)); RuntimeState.high_water_mark_equity := Some (of_Z 10000);
  RuntimeState.last_equity := Some (of_Z 10000); RuntimeState.last_evaluated_at := Some (demo_hour 0); RuntimeState.revision := 1 |}.

Definition desk : Desk := {|
  portfolio_rows := PortfolioStore.set_runtime Paper.opened [("p", run)];
  books_at := set_deployments empty_store [("d1", book "d1" "s1" 5000 4400); ("d2", book "d2" "s2" 3000 3050)] |}.

Definition aggregate : PortfolioAggregate := _aggregate (portfolio_rows desk) Paper.read Paper.row.

Definition pass : Desk * result RuntimeState := @_supervise_one default_context aggregate run books (demo_hour 1) desk.
End Losing.

Lemma breaker_halts_portfolio_witness :
  ∃ desk' r' row, Losing.pass = (desk', Ok r') ∧ stored_latch desk' "p" BreakerReason.PORTFOLIO_DAILY_LOSS_STOP ∧
    book_row desk' "d1" = Some row ∧ Deployment.status row = DeploymentStatus.PAUSED.
Proof.
  destruct Losing.pass as [desk' [r'|e]] eqn:Hpass; [|exfalso; revert Hpass; vm_compute; discriminate].
  destruct (@breaker_halts_portfolio default_context insertion_order Losing.aggregate Losing.run Losing.books (demo_hour 1) Losing.desk desk' r'
    BreakerReason.PORTFOLIO_DAILY_LOSS_STOP) as (Hlatch & Hpaused & _).
  - apply (bool_decide_unpack _). vm_compute. exact I.
  - reflexivity.
  - vm_compute. reflexivity.
  - right. split; [reflexivity|]. split; [vm_compute; discriminate|]. split.
    + apply Forall_forall. vm_compute. repeat constructor; discriminate.
    + eexists. split; vm_compute; reflexivity.
  - exact Hpass.
  - destruct (Hpaused (Losing.book "d1" "s1" 5000 4400) (Losing.book "d1" "s1" 5000 4400)) as (row & Hrow & Hstatus & _).
    + left.
    + reflexivity.
    + reflexivity.
    + vm_compute. reflexivity.
    + reflexivity.
    + reflexivity.
    + exists desk', r', row. split; [reflexivity|]. split; [exact Hlatch|]. split; [exact Hrow|exact Hstatus].
Defined.
