(* ===== verification/Fleet.v ===== *)
(** * Fleet: actions on every book at once ([fleet_control])

    [models.py], [effects.py], [commands.py], [store.py] and [service.py]: disarm, managed stop,
    flatten and rearm. An action is an operation on record under an idempotency key; each book's
    command is stored together with its receipt, so that a retry continues where a failed attempt
    ended.

    An attempt is a program over a [FleetWorld]: the latch and the operation log, the books, and
    the latch cache of the process. Every awaited call of the stores goes through [call]: other
    clients may act before it, and it may fail, before or after it took effect, as its
    [FleetSurroundings] decide. [effects] records what took effect, for the theorems; nothing
    reads it. The guard that serialises attempts under one key is the assumption on the other
    clients in [FleetFacts]. The kinds of the two stores are taken to match
    ([validate_execution]); effect texts, details and notes are left out. *)

From stdpp Require Import pretty.
From S2P Require Import Prelude Decimals DecimalText Market Geometry Containers TradingModels FillLedger ExecutionStore EntryLimits.

Open Scope Z_scope.

(** ** Models ([models.py]) *)

Module FleetAction.
Inductive FleetAction := DISARM | MANAGED_STOP | FLATTEN | REARM.
#[global] Instance eq_dec : EqDecision FleetAction. Proof. solve_decision. Defined.
Definition action_text (a : FleetAction) : string :=
  match a with DISARM => "disarm" | MANAGED_STOP => "managed_stop" | FLATTEN => "flatten" | REARM => "rearm" end.
End FleetAction.
Notation FleetAction := FleetAction.FleetAction.

Module FleetModeScope.
Inductive FleetModeScope := PAPER | LIVE | ALL.
#[global] Instance eq_dec : EqDecision FleetModeScope. Proof. solve_decision. Defined.
Definition mode_text (s : FleetModeScope) : string := match s with PAPER => "paper" | LIVE => "live" | ALL => "all" end.
End FleetModeScope.
Notation FleetModeScope := FleetModeScope.FleetModeScope.

Module FleetOperationStatus.
Inductive FleetOperationStatus := PENDING | ACCEPTED | PARTIAL | COMPLETED | REJECTED.
#[global] Instance eq_dec : EqDecision FleetOperationStatus. Proof. solve_decision. Defined.
End FleetOperationStatus.
Notation FleetOperationStatus := FleetOperationStatus.FleetOperationStatus.

Module FleetTargetStatus.
Inductive FleetTargetStatus := COMMAND_RECORDED | ALREADY_APPLIED | REVISION_CONFLICT | FAILED | NOT_CONFIRMED | UNCHANGED.
#[global] Instance eq_dec : EqDecision FleetTargetStatus. Proof. solve_decision. Defined.
End FleetTargetStatus.
Notation FleetTargetStatus := FleetTargetStatus.FleetTargetStatus.

Inductive VenueEffect := NO_EFFECT | ASYNC_MANAGED_SHUTDOWN | ASYNC_FLATTEN.

Record ResidualPosition := { residual_product_id : string; residual_side : string; residual_quantity : string }.

Module FleetTarget.
Record FleetTarget := {
  deployment_id : UUID;
  revision : Z;
  mode : DeploymentMode;
  status : DeploymentStatus;
  lifecycle_command : LifecycleCommand;
  product_id : string;
  positions : option (list ResidualPosition)
}.
End FleetTarget.
Notation FleetTarget := FleetTarget.FleetTarget.

Module ExpectedTarget.
Record ExpectedTarget := { deployment_id : UUID; revision : Z }.
End ExpectedTarget.
Notation ExpectedTarget := ExpectedTarget.ExpectedTarget.

Module TargetResult.
Record TargetResult := {
  deployment_id : UUID;
  expected_revision : option Z;
  status : FleetTargetStatus;
  venue_effect : VenueEffect
}.
End TargetResult.
Notation TargetResult := TargetResult.TargetResult.

(** The latch: [InhibitionSnapshot] of [trading/entry_latch.py]. *)
Module Inhibition.
Record InhibitionSnapshot := {
  paper_inhibited : bool;
  live_inhibited : bool;
  paper_revision : Z;
  live_revision : Z;
  updated_at : option datetime
}.

Definition initial : InhibitionSnapshot := {|
  paper_inhibited := false; live_inhibited := false; paper_revision := 0; live_revision := 0; updated_at := None |}.

Definition inhibited (s : InhibitionSnapshot) (mode : DeploymentMode) : bool :=
  match mode with DeploymentMode.PAPER => paper_inhibited s | DeploymentMode.LIVE => live_inhibited s end.

Definition revision (s : InhibitionSnapshot) (mode : DeploymentMode) : Z :=
  match mode with DeploymentMode.PAPER => paper_revision s | DeploymentMode.LIVE => live_revision s end.

(** One mode's bit, with its revision advanced. *)
Definition advance (s : InhibitionSnapshot) (mode : DeploymentMode) (bit : bool) : InhibitionSnapshot :=
  match mode with
  | DeploymentMode.PAPER => {| paper_inhibited := bit; live_inhibited := live_inhibited s;
      paper_revision := paper_revision s + 1; live_revision := live_revision s; updated_at := updated_at s |}
  | DeploymentMode.LIVE => {| paper_inhibited := paper_inhibited s; live_inhibited := bit;
      paper_revision := paper_revision s; live_revision := live_revision s + 1; updated_at := updated_at s |}
  end.

Definition touched (s : InhibitionSnapshot) (now : datetime) : InhibitionSnapshot := {|
  paper_inhibited := paper_inhibited s; live_inhibited := live_inhibited s; paper_revision := paper_revision s;
  live_revision := live_revision s; updated_at := Some now |}.
End Inhibition.
Notation InhibitionSnapshot := Inhibition.InhibitionSnapshot.

Module FleetOperation.
Record FleetOperation := {
  id : UUID;
  idempotency_key : string;
  action : FleetAction;
  mode : FleetModeScope;
  status : FleetOperationStatus;
  request_fingerprint : string;
  created_at : datetime;
  updated_at : datetime;
  targets : list TargetResult;
  inhibition : InhibitionSnapshot;
  live_acknowledged : bool;
  audit_recorded : bool;
  latch_applied : bool
}.

(** [replace(operation, targets=..., updated_at=now)] *)
Definition set_targets (o : FleetOperation) (t : list TargetResult) (now : datetime) : FleetOperation := {|
  id := id o; idempotency_key := idempotency_key o; action := action o; mode := mode o; status := status o;
  request_fingerprint := request_fingerprint o; created_at := created_at o; updated_at := now; targets := t;
  inhibition := inhibition o; live_acknowledged := live_acknowledged o; audit_recorded := audit_recorded o;
  latch_applied := latch_applied o |}.

(** [replace(operation, inhibition=..., latch_applied=True, updated_at=now)] *)
Definition set_latched (o : FleetOperation) (i : InhibitionSnapshot) (now : datetime) : FleetOperation := {|
  id := id o; idempotency_key := idempotency_key o; action := action o; mode := mode o; status := status o;
  request_fingerprint := request_fingerprint o; created_at := created_at o; updated_at := now; targets := targets o;
  inhibition := i; live_acknowledged := live_acknowledged o; audit_recorded := audit_recorded o; latch_applied := true |}.

(** [replace(operation, status=..., targets=..., inhibition=..., updated_at=now, audit_recorded=False)] *)
Definition finish (o : FleetOperation) (s : FleetOperationStatus) (now : datetime) : FleetOperation := {|
  id := id o; idempotency_key := idempotency_key o; action := action o; mode := mode o; status := s;
  request_fingerprint := request_fingerprint o; created_at := created_at o; updated_at := now; targets := targets o;
  inhibition := inhibition o; live_acknowledged := live_acknowledged o; audit_recorded := false;
  latch_applied := latch_applied o |}.

Definition set_audited (o : FleetOperation) (b : bool) : FleetOperation := {|
  id := id o; idempotency_key := idempotency_key o; action := action o; mode := mode o; status := status o;
  request_fingerprint := request_fingerprint o; created_at := created_at o; updated_at := updated_at o; targets := targets o;
  inhibition := inhibition o; live_acknowledged := live_acknowledged o; audit_recorded := b; latch_applied := latch_applied o |}.
End FleetOperation.
Notation FleetOperation := FleetOperation.FleetOperation.

Record ExpectedInhibition := { expected_paper_revision : option Z; expected_live_revision : option Z }.

Definition confirmed_revision (e : ExpectedInhibition) (mode : DeploymentMode) : option Z :=
  match mode with DeploymentMode.PAPER => expected_paper_revision e | DeploymentMode.LIVE => expected_live_revision e end.

Module FleetExecuteRequest.
Record FleetExecuteRequest := {
  action : FleetAction;
  mode : FleetModeScope;
  idempotency_key : string;
  expected_targets : list ExpectedTarget;
  live_acknowledged : bool;
  allow_empty_scope : bool;
  expected_inhibition : ExpectedInhibition
}.
End FleetExecuteRequest.
Notation FleetExecuteRequest := FleetExecuteRequest.FleetExecuteRequest.

(** ** Effects ([effects.py]) *)

Definition cancels_entries (a : FleetAction) : bool :=
  match a with FleetAction.MANAGED_STOP | FleetAction.FLATTEN => true | _ => false end.
Definition flattens (a : FleetAction) : bool := bool_decide (a = FleetAction.FLATTEN).
Definition pauses (a : FleetAction) : bool := false.

Definition requires_live_acknowledgement (a : FleetAction) (mode : FleetModeScope) : bool :=
  let includes_live := bool_decide (mode ∈ [FleetModeScope.LIVE; FleetModeScope.ALL]) in
  match a with FleetAction.REARM | FleetAction.FLATTEN => includes_live | _ => false end.

Definition is_latch_action (a : FleetAction) : bool :=
  match a with FleetAction.DISARM | FleetAction.REARM => true | _ => false end.

(** ** Commands ([commands.py]) *)

Definition in_scope (mode : FleetModeScope) (d : Deployment) : bool :=
  match mode with
  | FleetModeScope.ALL => true
  | FleetModeScope.PAPER => bool_decide (Deployment.mode d = DeploymentMode.PAPER)
  | FleetModeScope.LIVE => bool_decide (Deployment.mode d = DeploymentMode.LIVE)
  end.

Definition target_result (deployment_id : UUID) (revision : option Z) (status : FleetTargetStatus) (effect : VenueEffect)
    : TargetResult := {|
  TargetResult.deployment_id := deployment_id; TargetResult.expected_revision := revision; TargetResult.status := status;
  TargetResult.venue_effect := effect |}.

Definition stop_change (command : LifecycleCommand) : RuntimeChange := {|
  new_cash := None; new_phase := None; new_mismatch_detail := None; clear_mismatch := true;
  new_last_evaluated_bar := None; new_last_signal := None; new_pending_entry_bars := None; new_bars_held := None;
  new_cooldown_bars_remaining := None; new_pending_stop_price := None; new_pending_target_price := None;
  clear_pending_levels := false; new_status := Some DeploymentStatus.STOPPED; new_lifecycle_command := Some command;
  new_daily_loss_latched := None; new_drawdown_latched := None; new_last_signal_event_at := None;
  new_last_signal_processed_at := None |}.

Definition confirmed_command (row : Deployment) (expected : ExpectedTarget) (action : FleetAction) (mode : FleetModeScope)
    (now : datetime) : option Deployment * TargetResult :=
  let revision := Some (ExpectedTarget.revision expected) in
  if negb (in_scope mode row)
  then (None, target_result (ExpectedTarget.deployment_id expected) revision FleetTargetStatus.FAILED NO_EFFECT)
  else if negb (Deployment.revision row =? ExpectedTarget.revision expected)
  then (None, target_result (Deployment.id row) revision FleetTargetStatus.REVISION_CONFLICT NO_EFFECT)
  else
    let flatten := flattens action in
    let command := command_for_status DeploymentStatus.STOPPED flatten in
    let effect := if flatten then ASYNC_FLATTEN else ASYNC_MANAGED_SHUTDOWN in
    if bool_decide (Deployment.status row = DeploymentStatus.STOPPED) && bool_decide (Deployment.lifecycle_command row = command)
    then (None, target_result (Deployment.id row) revision FleetTargetStatus.UNCHANGED NO_EFFECT)
    else (Some (with_runtime row now (stop_change command)),
          target_result (Deployment.id row) revision FleetTargetStatus.COMMAND_RECORDED effect).

(** ** The store ([store.py]) *)

Definition modes_for (scope : FleetModeScope) : list DeploymentMode :=
  match scope with
  | FleetModeScope.ALL => [DeploymentMode.PAPER; DeploymentMode.LIVE]
  | FleetModeScope.PAPER => [DeploymentMode.PAPER]
  | FleetModeScope.LIVE => [DeploymentMode.LIVE]
  end.

Definition STALE_LATCH : error := ExecutionConflictError "inhibition_revision_conflict".

Definition require_inhibition_revisions (s : InhibitionSnapshot) (expected : ExpectedInhibition) (modes : list DeploymentMode)
    : result unit :=
  _ ← result_mapM (λ mode, guard_or (bool_decide (confirmed_revision expected mode = Some (Inhibition.revision s mode))) STALE_LATCH) modes;
  Ok tt.

Definition sorted_expected (expected : list (string * Z)) : list (string * Z) := sort_by (λ a b, String.leb a.1 b.1) expected.

(** [hashlib.sha256(...).hexdigest()] *)
Class Sha256 := { sha256_hex : string → string }.

Definition optional_text (z : option Z) : string := match z with Some z => pretty z | None => "None" end.
Definition flag_text (b : bool) : string := if b then "1" else "0".

Definition fingerprint_request `{Sha256} (action mode : string) (expected : list (string * Z))
    (live_acknowledged allow_empty_scope : bool) (inhibition : ExpectedInhibition) : string :=
  let targets := String.concat "," ((λ t : string * Z, t.1 +:+ ":" +:+ pretty t.2) <$> expected) in
  sha256_hex ("action=" +:+ action +:+ ";mode=" +:+ mode +:+ ";live=" +:+ flag_text live_acknowledged
    +:+ ";empty=" +:+ flag_text allow_empty_scope +:+ ";targets=" +:+ targets
    +:+ ";paper_revision=" +:+ optional_text (expected_paper_revision inhibition)
    +:+ ";live_revision=" +:+ optional_text (expected_live_revision inhibition)).

Record FleetStore := { latch : InhibitionSnapshot; operations : dict string FleetOperation }.

Definition set_latch_state (f : FleetStore) (l : InhibitionSnapshot) : FleetStore := {| latch := l; operations := operations f |}.
Definition set_operation (f : FleetStore) (o : FleetOperation) : FleetStore :=
  {| latch := latch f; operations := dict_set (FleetOperation.idempotency_key o) o (operations f) |}.

(** [_set]: the bits that change, one by one. *)
Definition _set (s : InhibitionSnapshot) (modes : list DeploymentMode) (bit : bool) (now : datetime) : InhibitionSnapshot :=
  fold_left (λ s mode, if Bool.eqb (Inhibition.inhibited s mode) bit then s
                       else Inhibition.touched (Inhibition.advance s mode bit) now) modes s.

Definition inhibit (f : FleetStore) (modes : list DeploymentMode) (now : datetime) : FleetStore :=
  set_latch_state f (_set (latch f) modes true now).
Definition release (f : FleetStore) (modes : list DeploymentMode) (now : datetime) : FleetStore :=
  set_latch_state f (_set (latch f) modes false now).

(** The latch as the gate of an execution store. *)
Definition fleet_gate (f : FleetStore) : Gate := Some (Inhibition.inhibited (latch f)).

Definition insert_operation (f : FleetStore) (o : FleetOperation) : FleetStore * bool :=
  match dict_get (FleetOperation.idempotency_key o) (operations f) with
  | Some _ => (f, false)
  | None => (set_operation f o, true)
  end.

Definition apply_latch (f : FleetStore) (o : FleetOperation) (request : FleetExecuteRequest) (now : datetime)
    : result (FleetStore * FleetOperation) :=
  if FleetOperation.latch_applied o then Ok (f, o)
  else
    let modes := modes_for (FleetExecuteRequest.mode request) in
    _ ← require_inhibition_revisions (latch f) (FleetExecuteRequest.expected_inhibition request) modes;
    let bit := bool_decide (FleetExecuteRequest.action request = FleetAction.DISARM) in
    let state := Inhibition.touched (fold_left (λ s mode, Inhibition.advance s mode bit) modes (latch f)) now in
    let saved := FleetOperation.set_latched o state now in
    Ok (set_operation (set_latch_state f state) saved, saved).

Definition record_target (f : FleetStore) (books : Store) (o : FleetOperation) (expected : ExpectedTarget) (now : datetime)
    : result (FleetStore * Store * FleetOperation * bool) :=
  snapshot ← get_deployment books (ExpectedTarget.deployment_id expected);
  let '(updated, r) := confirmed_command (DeploymentSnapshot.deployment snapshot) expected (FleetOperation.action o)
                         (FleetOperation.mode o) now in
  let saved := FleetOperation.set_targets o (FleetOperation.targets o ++ [r]) now in
  match updated with
  | Some d =>
      '(books, _) ← save_deployment books d (Some (ExpectedTarget.revision expected)) None;
      Ok (set_operation f saved, books, saved, true)
  | None => Ok (set_operation f saved, books, saved, false)
  end.

(** ** The surroundings of an attempt *)

(** What took effect under a key: a command recorded on a book, or the latch applied. *)
Inductive FleetEffect := CommandRecorded (deployment_id : UUID) | LatchApplied.

Record FleetWorld := {
  fleet : FleetStore;
  fleet_books : Store;
  process_cache : LatchCache;
  calls_made : nat;
  effects : list (string * FleetEffect)
}.

(** A call goes through, or its caller sees an exception and the call did or did not take effect. *)
Inductive Fault := Delivered | LostBefore (e : error) | LostAfter (e : error).

Class FleetSurroundings := {
  fault : nat → Fault;
  others : nat → FleetWorld → FleetWorld;
  fleet_now : nat → datetime;
  fresh_operation_id : nat → UUID;
  audit_available : nat → bool
}.

Definition set_fleet (w : FleetWorld) (f : FleetStore) : FleetWorld := {|
  fleet := f; fleet_books := fleet_books w; process_cache := process_cache w; calls_made := calls_made w; effects := effects w |}.
Definition set_fleet_books (w : FleetWorld) (b : Store) : FleetWorld := {|
  fleet := fleet w; fleet_books := b; process_cache := process_cache w; calls_made := calls_made w; effects := effects w |}.
Definition set_cache (w : FleetWorld) (c : LatchCache) : FleetWorld := {|
  fleet := fleet w; fleet_books := fleet_books w; process_cache := c; calls_made := calls_made w; effects := effects w |}.
Definition count_call (w : FleetWorld) : FleetWorld := {|
  fleet := fleet w; fleet_books := fleet_books w; process_cache := process_cache w; calls_made := S (calls_made w); effects := effects w |}.
Definition add_effect (w : FleetWorld) (key : string) (e : FleetEffect) : FleetWorld := {|
  fleet := fleet w; fleet_books := fleet_books w; process_cache := process_cache w; calls_made := calls_made w;
  effects := effects w ++ [(key, e)] |}.

Definition F (A : Type) : Type := FleetWorld → FleetWorld * result A.
#[global] Instance F_ret : MRet F := λ A a w, (w, Ok a).
#[global] Instance F_bind : MBind F := λ A B f m w,
  match m w with (w, Ok a) => f a w | (w, Raise e) => (w, Raise e) end.
Definition lift {A} (r : result A) : F A := λ w, (w, r).
Definition try_except {A} (m : F A) (handler : error → option (F A)) : F A := λ w,
  match m w with
  | (w, Ok a) => (w, Ok a)
  | (w, Raise e) => match handler e with Some h => h w | None => (w, Raise e) end
  end.

Section Service.
Context {surroundings : FleetSurroundings} `{Sha256}.

Definition call {A} (f : F A) : F A := λ w,
  let i := calls_made w in
  let w := others i (count_call w) in
  match fault i with
  | Delivered => f w
  | LostBefore e => (w, Raise e)
  | LostAfter e => match f w with (w, Ok _) => (w, Raise e) | raised => raised end
  end.

(** [datetime.now(UTC)] *)
Definition now_utc : F datetime := λ w, (w, Ok (fleet_now (calls_made w))).

Definition read_inhibition : F InhibitionSnapshot := call (λ w, (w, Ok (latch (fleet w)))).
Definition get_operation (key : string) : F (option FleetOperation) := call (λ w, (w, Ok (dict_get key (operations (fleet w))))).
Definition save_operation (o : FleetOperation) : F unit := call (λ w, (set_fleet w (set_operation (fleet w) o), Ok tt)).
Definition insert_operation_call (o : FleetOperation) : F bool :=
  call (λ w, let '(f, inserted) := insert_operation (fleet w) o in (set_fleet w f, Ok inserted)).

Definition apply_latch_call (o : FleetOperation) (request : FleetExecuteRequest) (now : datetime) : F FleetOperation :=
  call (λ w,
    match apply_latch (fleet w) o request now with
    | Ok (f, saved) =>
        let w := set_fleet w f in
        (if FleetOperation.latch_applied o then w else add_effect w (FleetOperation.idempotency_key o) LatchApplied, Ok saved)
    | Raise e => (w, Raise e)
    end).

Definition record_target_call (o : FleetOperation) (expected : ExpectedTarget) (now : datetime) : F FleetOperation :=
  call (λ w,
    match record_target (fleet w) (fleet_books w) o expected now with
    | Ok (f, books, saved, commanded) =>
        let w := set_fleet_books (set_fleet w f) books in
        (if (commanded : bool) then add_effect w (FleetOperation.idempotency_key o) (CommandRecorded (ExpectedTarget.deployment_id expected))
         else w, Ok saved)
    | Raise e => (w, Raise e)
    end).

(** [remember_snapshot]: the latch cache of this process. *)
Definition remember_snapshot (s : InhibitionSnapshot) : F unit := λ w,
  (set_cache w (remember_entry_inhibition (process_cache w)
     (Some (<["paper" := Inhibition.paper_inhibited s]> (<["live" := Inhibition.live_inhibited s]> ∅)))), Ok tt).

(** ** The service ([service.py]) *)

(** Newest first. *)
Definition scoped (rows : list Deployment) (mode : FleetModeScope) : list Deployment :=
  sort_by (λ (a b : Deployment), (Deployment.created_at b <? Deployment.created_at a)
      || (Deployment.created_at b =? Deployment.created_at a) && String.leb (Deployment.id b) (Deployment.id a))
    (List.filter (in_scope mode) rows).

Definition _scoped_rows (mode : FleetModeScope) : F (list Deployment) :=
  call (λ w, (w, Ok (scoped (list_deployments (fleet_books w) None 0) mode))).

Definition LIVE_ACK_REQUIRED : error := ExecutionConflictError "live_acknowledgement_required".
Definition EMPTY_SCOPE : error := ExecutionConflictError "Fleet action has no confirmed deployment ids.".
Definition DUPLICATE_IDS : error := ExecutionConflictError "Duplicate confirmed deployment ids are not allowed.".
Definition INHIBITION_REQUIRED : error := ExecutionConflictError "expected_inhibition_required".
Definition KEY_REUSED : error := ExecutionConflictError "idempotency_key already used for a different fleet request.".
Definition STORAGE_CONFLICT : error := ExecutionStoreError "Fleet operation storage conflict.".
Definition RECEIPT_UNAVAILABLE : error := ExecutionStoreError "Fleet receipt is unavailable; result remains unknown.".

Definition target_ids (request : FleetExecuteRequest) : list UUID :=
  (λ t, ExpectedTarget.deployment_id t) <$> FleetExecuteRequest.expected_targets request.

Definition _require_request (request : FleetExecuteRequest) : result unit :=
  let action := FleetExecuteRequest.action request in
  let mode := FleetExecuteRequest.mode request in
  _ ← guard_or (negb (requires_live_acknowledgement action mode && negb (FleetExecuteRequest.live_acknowledged request))) LIVE_ACK_REQUIRED;
  _ ← guard_or (bool_decide (NoDup (target_ids request))) DUPLICATE_IDS;
  _ ← guard_or (negb (is_latch_action action
        && existsb (λ m, bool_decide (confirmed_revision (FleetExecuteRequest.expected_inhibition request) m = None)) (modes_for mode)))
        INHIBITION_REQUIRED;
  let needs_ids := negb (is_latch_action action) in
  guard_or (negb (needs_ids && bool_decide (FleetExecuteRequest.expected_targets request = [])
                  && negb (FleetExecuteRequest.allow_empty_scope request))) EMPTY_SCOPE.

Definition _fingerprint (request : FleetExecuteRequest) : string :=
  fingerprint_request (FleetAction.action_text (FleetExecuteRequest.action request)) (FleetModeScope.mode_text (FleetExecuteRequest.mode request))
    (sorted_expected ((λ t, (ExpectedTarget.deployment_id t, ExpectedTarget.revision t)) <$> FleetExecuteRequest.expected_targets request))
    (FleetExecuteRequest.live_acknowledged request) (FleetExecuteRequest.allow_empty_scope request)
    (FleetExecuteRequest.expected_inhibition request).

Definition _require_same_fingerprint (existing : FleetOperation) (fingerprint : string) : result unit :=
  guard_or (bool_decide (FleetOperation.request_fingerprint existing = fingerprint)) KEY_REUSED.

Definition new_operation (request : FleetExecuteRequest) (fingerprint : string) (inhibition : InhibitionSnapshot) (id : UUID)
    (now : datetime) : FleetOperation := {|
  FleetOperation.id := id; FleetOperation.idempotency_key := FleetExecuteRequest.idempotency_key request;
  FleetOperation.action := FleetExecuteRequest.action request; FleetOperation.mode := FleetExecuteRequest.mode request;
  FleetOperation.status := FleetOperationStatus.PENDING; FleetOperation.request_fingerprint := fingerprint;
  FleetOperation.created_at := now; FleetOperation.updated_at := now; FleetOperation.targets := [];
  FleetOperation.inhibition := inhibition; FleetOperation.live_acknowledged := FleetExecuteRequest.live_acknowledged request;
  FleetOperation.audit_recorded := false; FleetOperation.latch_applied := false |}.

Definition _insert_pending (request : FleetExecuteRequest) (fingerprint : string) : F FleetOperation :=
  now ← now_utc;
  inhibition ← read_inhibition;
  id ← (λ w, (w, Ok (fresh_operation_id (calls_made w))));
  let o := new_operation request fingerprint inhibition id now in
  inserted ← insert_operation_call o;
  if (inserted : bool) then mret o
  else
    existing ← get_operation (FleetExecuteRequest.idempotency_key request);
    match existing with
    | None => lift (Raise STORAGE_CONFLICT)
    | Some existing => _ ← lift (_require_same_fingerprint existing fingerprint); mret existing
    end.

Definition recorded_ids (o : FleetOperation) : list UUID := (λ t, TargetResult.deployment_id t) <$> FleetOperation.targets o.

(** The known failures of a command become its receipt; any other exception leaves it pending. *)
Definition failure_outcome (e : error) : option FleetTargetStatus :=
  match e with
  | ExecutionConflictError _ | LeaseTakenError => Some FleetTargetStatus.REVISION_CONFLICT
  | ExecutionStoreError _ => Some FleetTargetStatus.FAILED
  | _ => None
  end.

(** The receipt of a command that failed, unless one is on record. *)
Definition record_failure (o : FleetOperation) (expected : ExpectedTarget) (outcome : FleetTargetStatus) : F FleetOperation :=
  durable ← get_operation (FleetOperation.idempotency_key o);
  match durable with
  | None => lift (Raise RECEIPT_UNAVAILABLE)
  | Some durable =>
      if bool_decide (ExpectedTarget.deployment_id expected ∈ recorded_ids durable) then mret durable
      else
        now ← now_utc;
        let r := target_result (ExpectedTarget.deployment_id expected) (Some (ExpectedTarget.revision expected)) outcome NO_EFFECT in
        let saved := FleetOperation.set_targets durable (FleetOperation.targets durable ++ [r]) now in
        _ ← save_operation saved;
        mret saved
  end.

Definition _record_target (o : FleetOperation) (expected : ExpectedTarget) : F FleetOperation :=
  try_except (now ← now_utc; record_target_call o expected now)
    (λ e, record_failure o expected <$> failure_outcome e).

Fixpoint record_targets (recorded : list UUID) (o : FleetOperation) (expected : list ExpectedTarget) : F FleetOperation :=
  match expected with
  | [] => mret o
  | t :: expected =>
      if bool_decide (ExpectedTarget.deployment_id t ∈ recorded) then record_targets recorded o expected
      else o ← _record_target o t; record_targets recorded o expected
  end.

Definition _not_confirmed (d : Deployment) : TargetResult :=
  target_result (Deployment.id d) None FleetTargetStatus.NOT_CONFIRMED NO_EFFECT.

Definition _apply_books (request : FleetExecuteRequest) (o : FleetOperation) : F FleetOperation :=
  let recorded := recorded_ids o in
  let confirmed := target_ids request in
  o ← record_targets recorded o (FleetExecuteRequest.expected_targets request);
  current ← _scoped_rows (FleetExecuteRequest.mode request);
  let omitted := _not_confirmed <$> List.filter (λ d : Deployment, negb (bool_decide (Deployment.id d ∈ confirmed))
                                      && negb (bool_decide (Deployment.id d ∈ recorded))) current in
  mret (FleetOperation.set_targets o (FleetOperation.targets o ++ omitted) (FleetOperation.updated_at o)).

Definition _status_for (action : FleetAction) (results : list TargetResult) : FleetOperationStatus :=
  if is_latch_action action then FleetOperationStatus.COMPLETED
  else if existsb (λ r, bool_decide (TargetResult.status r ∈ [FleetTargetStatus.FAILED; FleetTargetStatus.REVISION_CONFLICT])) results
  then FleetOperationStatus.PARTIAL
  else if existsb (λ r, bool_decide (TargetResult.status r = FleetTargetStatus.NOT_CONFIRMED)) results
  then FleetOperationStatus.PARTIAL
  else FleetOperationStatus.ACCEPTED.

(** An audit store that is unavailable does not undo the command. *)
Definition _audit (with_audit : bool) (o : FleetOperation) : F FleetOperation :=
  if with_audit then
    call (λ w, (w, Ok (FleetOperation.set_audited o (audit_available (calls_made w)))))
  else mret o.

Definition _apply_pending (with_audit : bool) (o : FleetOperation) (request : FleetExecuteRequest) : F FleetOperation :=
  o ← (if is_latch_action (FleetExecuteRequest.action request)
       then now ← now_utc; apply_latch_call o request now
       else _apply_books request o);
  current ← read_inhibition;
  _ ← remember_snapshot current;
  now ← now_utc;
  let status := _status_for (FleetExecuteRequest.action request) (FleetOperation.targets o) in
  finished ← _audit with_audit (FleetOperation.finish o status now);
  _ ← save_operation finished;
  mret finished.

Definition execute_fleet (with_audit : bool) (request : FleetExecuteRequest) : F FleetOperation :=
  _ ← lift (_require_request request);
  let fingerprint := _fingerprint request in
  existing ← get_operation (FleetExecuteRequest.idempotency_key request);
  match existing with
  | Some o =>
      _ ← lift (_require_same_fingerprint o fingerprint);
      if negb (bool_decide (FleetOperation.status o = FleetOperationStatus.PENDING)) then mret o
      else _apply_pending with_audit o request
  | None => o ← _insert_pending request fingerprint; _apply_pending with_audit o request
  end.

(** ** Previews *)

Record FleetPreview := {
  preview_action : FleetAction;
  preview_mode : FleetModeScope;
  preview_cancels_entries : bool;
  preview_flattens : bool;
  preview_pauses : bool;
  preview_requires_live_acknowledgement : bool;
  preview_inhibition : InhibitionSnapshot;
  preview_targets : list FleetTarget;
  as_of : datetime
}.

(** [item.product_id or row.product_id] and [format(item.quantity, "f")] *)
Definition residuals (s : DeploymentSummarySnapshot) (d : Deployment) : list ResidualPosition :=
  (λ p, {| residual_product_id := if decide (Position.product_id p = "") then Deployment.product_id d else Position.product_id p;
           residual_side := match Position.side p with LONG => "long" | SHORT => "short" end;
           residual_quantity := String.string_of_list_ascii (format_f (Position.quantity p)) |}) <$> DeploymentSummarySnapshot.positions s.

(** Positions that cannot be read are unknown, not empty. *)
Definition preview_target (d : Deployment) (positions : option (list ResidualPosition)) : FleetTarget := {|
  FleetTarget.deployment_id := Deployment.id d; FleetTarget.revision := Deployment.revision d; FleetTarget.mode := Deployment.mode d;
  FleetTarget.status := Deployment.status d; FleetTarget.lifecycle_command := Deployment.lifecycle_command d;
  FleetTarget.product_id := Deployment.product_id d; FleetTarget.positions := positions |}.

Definition _preview_target (d : Deployment) : F FleetTarget :=
  positions ← try_except
    (summary ← call (λ w, (w, get_deployment_summary (fleet_books w) (Deployment.id d))); mret (Some (residuals summary d)))
    (λ e, match e with ExecutionStoreError _ => Some (mret None) | _ => None end);
  mret (preview_target d positions).

Fixpoint preview_all (rows : list Deployment) : F (list FleetTarget) :=
  match rows with
  | [] => mret []
  | d :: rows => t ← _preview_target d; k ← preview_all rows; mret (t :: k)
  end.

Definition preview_fleet (action : FleetAction) (mode : FleetModeScope) : F FleetPreview :=
  now ← now_utc;
  inhibition ← read_inhibition;
  _ ← remember_snapshot inhibition;
  rows ← _scoped_rows mode;
  targets ← preview_all rows;
  mret {| preview_action := action; preview_mode := mode; preview_cancels_entries := cancels_entries action;
          preview_flattens := flattens action; preview_pauses := pauses action;
          preview_requires_live_acknowledgement := requires_live_acknowledgement action mode;
          preview_inhibition := inhibition; preview_targets := targets; as_of := now |}.

End Service.
