(* ===== verification/FleetFacts.v ===== *)
(** * FleetFacts: fleet actions take effect once

    One attempt after another under an idempotency key, each failing anywhere, with any other
    client in between: a book is commanded and the latch applied at most once, the receipts say
    exactly what took effect, a finished operation never changes, and an attempt without failures
    finishes. *)

From stdpp Require Import relations pretty.
From S2P Require Import Prelude Decimals DecimalText Market Geometry Containers TradingModels FillLedger ExecutionStore EntryLimits StoreFacts Fleet.

Open Scope Z_scope.

(** ** What is on record under a key *)

Definition operation_at (k : string) (w : FleetWorld) : option FleetOperation := dict_get k (operations (fleet w)).

Definition effects_of (k : string) (w : FleetWorld) : list FleetEffect :=
  omap (λ e : string * FleetEffect, if decide (e.1 = k) then Some e.2 else None) (effects w).

Definition books_keyed (w : FleetWorld) : Prop :=
  ∀ i d, dict_get i (deployments (fleet_books w)) = Some d → Deployment.id d = i.

(** Others leave the key alone, as its guard ensures, and keep the books under their identifiers. *)
Definition leaves (k : string) (w w' : FleetWorld) : Prop :=
  operation_at k w' = operation_at k w ∧ effects_of k w' = effects_of k w ∧ (books_keyed w → books_keyed w').

Definition respects (k : string) (s : FleetSurroundings) : Prop := ∀ i w, leaves k w (@others s i w).

Definition commanded_ids (es : list FleetEffect) : list UUID :=
  omap (λ e, match e with CommandRecorded d => Some d | LatchApplied => None end) es.
Definition latch_effects (es : list FleetEffect) : list FleetEffect :=
  List.filter (λ e, match e with LatchApplied => true | CommandRecorded _ => false end) es.

Definition command_receipts (o : FleetOperation) : list UUID :=
  omap (λ r, if bool_decide (TargetResult.status r = FleetTargetStatus.COMMAND_RECORDED) then Some (TargetResult.deployment_id r) else None)
    (FleetOperation.targets o).

(** The receipts say exactly what took effect, each once. *)
Record receipts_ok (k : string) (o : FleetOperation) (es : list FleetEffect) : Prop := {
  receipts_key : FleetOperation.idempotency_key o = k;
  receipts_latch : latch_effects es = if FleetOperation.latch_applied o then [LatchApplied] else [];
  receipts_commands : commanded_ids es = command_receipts o;
  receipts_once : NoDup (command_receipts o);
  receipts_pending : FleetOperation.status o = FleetOperationStatus.PENDING → NoDup (recorded_ids o)
}.

Definition on_record (k : string) (w : FleetWorld) : Prop :=
  books_keyed w ∧
  match operation_at k w with Some o => receipts_ok k o (effects_of k w) | None => effects_of k w = [] end.

Lemma leaves_on_record k w w' : leaves k w w' → on_record k w → on_record k w'.
Proof. intros (Ho & He & Hb) [Hk Hr]. unfold on_record. rewrite Ho, He. auto. Qed.

Lemma effects_of_app k w key e : effects_of k (add_effect w key e) = effects_of k w ++ (if decide (key = k) then [e] else []).
Proof. unfold effects_of, add_effect. cbn. rewrite omap_app. cbn. by case_decide. Qed.

(** ** Attempts, call by call

    A [triple] says what holds however a program ends: [Q] of its result and world, or [E] of the
    exception and the world it leaves. *)
Definition triple {A} (P : FleetWorld → Prop) (m : F A) (Q : A → FleetWorld → Prop) (E : error → FleetWorld → Prop) : Prop :=
  ∀ w w' r, P w → m w = (w', r) → match r with Ok a => Q a w' | Raise e => E e w' end.

Lemma triple_ret {A} (a : A) (P : FleetWorld → Prop) Q E : (∀ w, P w → Q a w) → triple P (mret a) Q E.
Proof. intros H w w' r Hw [= <- <-]. by apply H. Qed.

Lemma triple_lift {A} (m : result A) (P : FleetWorld → Prop) Q (E : error → FleetWorld → Prop) :
  (∀ w a, m = Ok a → P w → Q a w) → (∀ w e, m = Raise e → P w → E e w) → triple P (lift m) Q E.
Proof. intros HQ HE w w' r Hw [= <- <-]. destruct m; [by apply HQ|by apply HE]. Qed.

Lemma triple_bind {A B} (m : F A) (f : A → F B) P Q R E : triple P m Q E → (∀ a, triple (Q a) (f a) R E) → triple P (m ≫= f) R E.
Proof.
  intros Hm Hf w w' r Hw. unfold mbind, F_bind. destruct (m w) as [v [a|e]] eqn:Hv.
  - intros H. specialize (Hm _ _ _ Hw Hv). exact (Hf a _ _ _ Hm H).
  - intros [= <- <-]. exact (Hm _ _ _ Hw Hv).
Qed.

Lemma triple_weaken {A} (m : F A) (P P' : FleetWorld → Prop) (Q Q' : A → FleetWorld → Prop) (E E' : error → FleetWorld → Prop) :
  triple P' m Q' E' → (∀ w, P w → P' w) → (∀ a w, Q' a w → Q a w) → (∀ e w, E' e w → E e w) → triple P m Q E.
Proof. intros H HP HQ HE w w' r Hw Hm. specialize (H w w' r (HP _ Hw) Hm). destruct r; auto. Qed.

Lemma triple_error {A} (m : F A) (P : FleetWorld → Prop) (Q : A → FleetWorld → Prop) (E E' : error → FleetWorld → Prop) :
  triple P m Q E' → (∀ e w, E' e w → E e w) → triple P m Q E.
Proof. intros H HE. by eapply triple_weaken; [exact H| | |]. Qed.

Lemma triple_pure {A} (f : FleetWorld → A) P E : triple P (λ w, (w, Ok (f w))) (λ _ w, P w) E.
Proof. by intros w w' r Hw [= <- <-]. Qed.

(** A hypothesis about the values of a program, out of its precondition. *)
Lemma triple_know {A} (X : Prop) (m : F A) P Q E : (X → triple P m Q E) → triple (λ w, P w ∧ X) m Q E.
Proof. intros H w w' r [Hw HX]. by apply H. Qed.

Section Attempt.
Context {surroundings : FleetSurroundings} `{Sha256} (k : string) (Hrespects : respects k surroundings).

(** Some call is lost. *)
Definition lossy : Prop := ∃ i, fault i ≠ Delivered.

(** A property others keep. *)
Definition stable (P : FleetWorld → Prop) : Prop := ∀ i w, P w → P (others i (count_call w)).

Lemma triple_call {A} (f : F A) P Q (E : error → FleetWorld → Prop) : stable P → (lossy → ∀ e w, P w → E e w) →
  (∀ w w' r, P w → f w = (w', r) → match r with Ok a => Q a w' | Raise e => E e w' end) →
  (lossy → ∀ e a w, Q a w → E e w) → triple P (call f) Q E.
Proof.
  intros Hst HE Hf HQ w w' r Hw. unfold call. cbn zeta. apply (Hst (calls_made w)) in Hw.
  destruct (fault (calls_made w)) as [|e|e] eqn:Hfault.
  - by apply Hf.
  - intros [= <- <-]. apply HE; [|done]. exists (calls_made w). by rewrite Hfault.
  - destruct (f (others (calls_made w) (count_call w))) as [v [a|e']] eqn:Hv; intros [= <- <-].
    + eapply HQ; [|exact (Hf _ _ _ Hw Hv)]. exists (calls_made w). by rewrite Hfault.
    + exact (Hf _ _ _ Hw Hv).
Qed.

Lemma on_record_stable : stable (on_record k).
Proof. intros i w Hw. eapply leaves_on_record; [apply Hrespects|exact Hw]. Qed.

(** On record, with [o] as what is stored under the key. *)
Definition stored (o : option FleetOperation) (w : FleetWorld) : Prop := on_record k w ∧ operation_at k w = o.
Notation holds o := (stored (Some o)).

Lemma stored_stable o : stable (stored o).
Proof.
  intros i w [Hw Ho]. split; [by apply on_record_stable|]. destruct (Hrespects i (count_call w)) as (-> & _). exact Ho.
Qed.

(** What an exception leaves when a call was lost. *)
Definition broken (e : error) (w : FleetWorld) : Prop := on_record k w ∧ lossy.

Lemma triple_read {A} (f : FleetWorld → A) P : stable P → (∀ w, P w → on_record k w) →
  triple P (call (λ w, (w, Ok (f w)))) (λ a w, P w ∧ a = f w) broken.
Proof.
  intros Hs HP. apply triple_call; [done|by split; [apply HP|]| |by intros ? e a w [? _]; split; [apply HP|]].
  by intros w w' r Hw [= <- <-].
Qed.

Lemma holds_intro w o : books_keyed w → operation_at k w = Some o → receipts_ok k o (effects_of k w) → holds o w.
Proof. intros Hb Ho Hr. split; [|exact Ho]. split; [exact Hb|]. by rewrite Ho. Qed.

Lemma triple_peek {A} (f : FleetWorld → A) P : stable P → (∀ w, P w → on_record k w) →
  triple P (call (λ w, (w, Ok (f w)))) (λ _ w, P w) broken.
Proof. intros Hs HP. eapply triple_weaken; [by apply triple_read|done|by intros a w [? _]|done]. Qed.

(** Replacing the stored operation by one with the same receipts of effects. *)
Lemma on_record_set w o : books_keyed w → receipts_ok k o (effects_of k w) → holds o (set_fleet w (set_operation (fleet w) o)).
Proof.
  intros Hb Hr. apply holds_intro; [done| |done]. unfold operation_at. cbn. rewrite (receipts_key _ _ _ Hr). apply dict_get_set.
Qed.

Lemma holds_receipts o w : holds o w → receipts_ok k o (effects_of k w).
Proof. intros [[_ Hr] Ho]. by rewrite Ho in Hr. Qed.

(** [o'] has the receipts of effects of [o]. *)
Record agrees (o o' : FleetOperation) : Prop := {
  agrees_key : FleetOperation.idempotency_key o' = FleetOperation.idempotency_key o;
  agrees_latch : FleetOperation.latch_applied o' = FleetOperation.latch_applied o;
  agrees_commands : command_receipts o' = command_receipts o
}.

Lemma triple_save o o' : agrees o o' →
  (FleetOperation.status o' = FleetOperationStatus.PENDING → FleetOperation.status o = FleetOperationStatus.PENDING) →
  (FleetOperation.status o' = FleetOperationStatus.PENDING → NoDup (recorded_ids o) → NoDup (recorded_ids o')) →
  triple (holds o) (save_operation o') (λ _ w, holds o' w) broken.
Proof.
  intros [Hkey Hlatch Hcommands] Hstatus Hids.
  apply triple_call; [apply stored_stable|by intros ? ? w [? _]| |by intros ? ? ? w [? _]].
  intros w w' r Hw [= <- <-]. pose proof (holds_receipts _ _ Hw) as Hr. destruct Hw as [[Hb _] _]. apply on_record_set; [done|].
  destruct Hr as [Hk Hl Hc Ho Hp]. constructor; rewrite ?Hkey, ?Hlatch, ?Hcommands; auto.
Qed.

(** ** The latch *)

Lemma triple_apply_latch o request now :
  triple (holds o) (apply_latch_call o request now) (λ o' w, holds o' w ∧ FleetOperation.status o' = FleetOperation.status o)
    (λ _ w, on_record k w).
Proof.
  apply triple_call; [apply stored_stable|by intros ? ? w [? _]| |by intros ? ? ? w [[? _] _]].
  intros w w' r Hw. unfold apply_latch. pose proof (holds_receipts _ _ Hw) as Hr.
  destruct (FleetOperation.latch_applied o) eqn:Hl.
  - intros [= <- <-]. split; [|done]. destruct Hw as [[Hb Hw] Ho]. split; [split|]; done.
  - unfold mbind, result_bind. destruct (require_inhibition_revisions _ _ _); intros [= <- <-]; [|by destruct Hw].
    split; [|done]. destruct Hw as [[Hb _] _]. destruct Hr as [Hk Hlatch Hc Ho Hp]. rewrite Hl in Hlatch.
    apply holds_intro; [done| |].
    + unfold operation_at. cbn. rewrite Hk. apply dict_get_set.
    + rewrite effects_of_app, decide_True by done. change (effects_of k (set_fleet w _)) with (effects_of k w).
      constructor; cbn; try done.
      * unfold latch_effects in *. rewrite List.filter_app. cbn. by rewrite Hlatch.
      * unfold commanded_ids in *. rewrite omap_app. cbn. rewrite app_nil_r. exact Hc.
Qed.

(** ** The books *)

(** [o'] is [o] with the receipt of one more book. *)
Definition grew (o : FleetOperation) (i : UUID) (o' : FleetOperation) : Prop :=
  recorded_ids o' = recorded_ids o ++ [i] ∧ FleetOperation.status o' = FleetOperation.status o.

Lemma confirmed_command_receipt (row : Deployment) expected action mode now updated r : Deployment.id row = ExpectedTarget.deployment_id expected →
  confirmed_command row expected action mode now = (updated, r) →
  TargetResult.deployment_id r = ExpectedTarget.deployment_id expected ∧
  match updated with
  | Some d => Deployment.id d = Deployment.id row ∧ Deployment.revision row = ExpectedTarget.revision expected
      ∧ TargetResult.status r = FleetTargetStatus.COMMAND_RECORDED
  | None => TargetResult.status r ≠ FleetTargetStatus.COMMAND_RECORDED
  end.
Proof.
  intros Hid. unfold confirmed_command. cbv zeta.
  destruct (negb (in_scope mode row)); [by intros [= <- <-]|].
  destruct (Z.eqb_spec (Deployment.revision row) (ExpectedTarget.revision expected)) as [Hrev|]; cbn [negb]; [|by intros [= <- <-]].
  destruct (bool_decide _ && bool_decide _); by intros [= <- <-].
Qed.

Lemma command_receipts_app o r now : command_receipts (FleetOperation.set_targets o (FleetOperation.targets o ++ [r]) now) =
  command_receipts o ++ (if bool_decide (TargetResult.status r = FleetTargetStatus.COMMAND_RECORDED) then [TargetResult.deployment_id r] else []).
Proof. unfold command_receipts. cbn [FleetOperation.targets FleetOperation.set_targets]. rewrite omap_app. cbn. by case_bool_decide. Qed.

Lemma recorded_ids_app o ts now : recorded_ids (FleetOperation.set_targets o (FleetOperation.targets o ++ ts) now) =
  recorded_ids o ++ ((λ t, TargetResult.deployment_id t) <$> ts).
Proof. unfold recorded_ids. cbn [FleetOperation.targets FleetOperation.set_targets]. apply fmap_app. Qed.

Lemma command_receipts_recorded o i : i ∈ command_receipts o → i ∈ recorded_ids o.
Proof.
  unfold command_receipts, recorded_ids. rewrite list_elem_of_omap, list_elem_of_fmap. intros (r & Hr & Hi).
  case_bool_decide; [|done]. injection Hi as <-. eauto.
Qed.

Lemma book_keyed w i s : books_keyed w → get_deployment (fleet_books w) i = Ok s → Deployment.id (DeploymentSnapshot.deployment s) = i.
Proof.
  intros Hb. unfold get_deployment, find_deployment, mbind, result_bind. destruct (dict_get i _) as [d|] eqn:Hd; [|done].
  intros [= <-]. cbn. by apply Hb.
Qed.

Lemma save_deployment_keyed w d e b d' : books_keyed w → save_deployment (fleet_books w) d e None = Ok (b, d') →
  books_keyed (set_fleet_books w b).
Proof.
  intros Hb Hs. apply bind_Ok in Hs as (? & _ & Hs). apply bind_Ok in Hs as (? & _ & Hs). apply bind_Ok in Hs as (? & _ & Hs).
  assert (∃ saved, deployments b = dict_set (Deployment.id d) saved (deployments (fleet_books w)) ∧ Deployment.id saved = Deployment.id d)
    as (saved & Hsaved & Hid).
  { cbn zeta in Hs. case_ok Hs; injection Hs as <- <-; by eexists. }
  intros i d0. cbn [set_fleet_books fleet_books]. rewrite Hsaved. destruct (decide (i = Deployment.id d)) as [->|Hi].
  - rewrite dict_get_set. by intros [= <-].
  - rewrite dict_get_set_ne by done. apply Hb.
Qed.

Lemma receipts_ok_grow o es r now : receipts_ok k o es → FleetOperation.status o = FleetOperationStatus.PENDING →
  TargetResult.deployment_id r ∉ recorded_ids o →
  receipts_ok k (FleetOperation.set_targets o (FleetOperation.targets o ++ [r]) now)
    (es ++ if bool_decide (TargetResult.status r = FleetTargetStatus.COMMAND_RECORDED) then [CommandRecorded (TargetResult.deployment_id r)] else []).
Proof.
  intros [Hk Hl Hc Ho Hp] Hpending Hnew. constructor; [done| | | |].
  - unfold latch_effects in *. rewrite List.filter_app, Hl. case_bool_decide; apply app_nil_r.
  - rewrite command_receipts_app, <- Hc. unfold commanded_ids. rewrite omap_app. by case_bool_decide.
  - rewrite command_receipts_app. apply NoDup_app. split; [done|]. case_bool_decide; [|split; [by intros x _ ?%not_elem_of_nil|apply NoDup_nil_2]].
    split; [|apply NoDup_singleton]. intros x Hx ->%list_elem_of_singleton. by apply Hnew, command_receipts_recorded.
  - intros _. rewrite recorded_ids_app. apply NoDup_app. split; [by apply Hp|]. split; [|apply NoDup_singleton].
    by intros x Hx ->%list_elem_of_singleton.
Qed.

Lemma triple_record_target_call o t now : FleetOperation.status o = FleetOperationStatus.PENDING →
  ExpectedTarget.deployment_id t ∉ recorded_ids o →
  triple (holds o) (record_target_call o t now) (λ o' w, holds o' w ∧ grew o (ExpectedTarget.deployment_id t) o')
    (λ e w, (holds o w ∨ ∃ o', holds o' w ∧ grew o (ExpectedTarget.deployment_id t) o') ∧ (failure_outcome e ≠ None ∨ lossy)).
Proof.
  intros Hpending Hnew. apply triple_call; [apply stored_stable|by auto| |by eauto 6].
  intros w w' r Hw. pose proof (holds_receipts _ _ Hw) as Hr. pose proof Hw as [[Hb _] Hat]. unfold record_target.
  unfold mbind, result_bind. destruct (get_deployment (fleet_books w) _) as [s|e] eqn:Hs.
  2:{ intros [= <- <-]. split; [by left|]. left. revert Hs. unfold get_deployment, find_deployment, mbind, result_bind.
      destruct (dict_get _ _); [done|]. by intros [= <-]. }
  destruct (confirmed_command _ t _ _ now) as [updated res] eqn:Hcmd.
  pose proof (book_keyed _ _ _ Hb Hs) as Hrow.
  destruct (confirmed_command_receipt _ _ _ _ _ _ _ Hrow Hcmd) as [Hid Hupdated].
  pose proof (receipts_ok_grow o _ res now Hr Hpending) as Hgrown. rewrite Hid in Hgrown. specialize (Hgrown Hnew).
  assert (grew o (ExpectedTarget.deployment_id t) (FleetOperation.set_targets o (FleetOperation.targets o ++ [res]) now)) as Hgrew.
  { split; [|done]. rewrite recorded_ids_app. cbn. by rewrite Hid. }
  destruct updated as [d|].
  - destruct Hupdated as (Hd & Hrev & Hst). rewrite bool_decide_true in Hgrown by done.
    destruct (save_deployment _ d _ None) as [[b d']|e] eqn:Hsave; intros [= <- <-].
    2:{ split; [by left|]. left. revert Hsave. unfold save_deployment, find_deployment, mbind, result_bind, guard_or.
        cbn [negb bool_decide orb]. destruct (dict_get _ _); [|by intros [= <-]]. cbn [ExecutionStore.require_revision]. unfold guard_or.
        destruct (_ =? _); [|by intros [= <-]]. cbv zeta. repeat case_match; done. }
    split; [|exact Hgrew]. pose proof (receipts_key _ _ _ Hr) as Hk. apply holds_intro.
    + eapply save_deployment_keyed in Hsave; [|exact Hb]. exact Hsave.
    + unfold operation_at. cbn. rewrite Hk. apply dict_get_set.
    + rewrite effects_of_app, decide_True by done. exact Hgrown.
  - intros [= <- <-]. rewrite bool_decide_false, app_nil_r in Hgrown by done. split; [|exact Hgrew].
    exact (on_record_set w _ Hb Hgrown).
Qed.

Lemma triple_try {A} (m : F A) (handler : error → option (F A)) P Q (E E' : error → FleetWorld → Prop) : triple P m Q E →
  (∀ e h, handler e = Some h → triple (E e) h Q E') → (∀ e w, handler e = None → E e w → E' e w) →
  triple P (try_except m handler) Q E'.
Proof.
  intros Hm Hh HE w w' r Hw. unfold try_except. destruct (m w) as [v [a|e]] eqn:Hv; specialize (Hm _ _ _ Hw Hv); cbn in Hm.
  - by intros [= <- <-].
  - destruct (handler e) as [h|] eqn:He; [by apply (Hh e)|]. intros [= <- <-]. by apply HE.
Qed.

Lemma triple_get start : triple (stored start) (get_operation k) (λ a w, stored start w ∧ a = start) broken.
Proof.
  eapply triple_weaken; [apply triple_read; [apply stored_stable|by intros w [? _]]|done| |done].
  intros a w [Hw ->]. split; [done|]. apply Hw.
Qed.

Lemma triple_record_failure o t outcome : FleetOperation.idempotency_key o = k →
  FleetOperation.status o = FleetOperationStatus.PENDING →
  ExpectedTarget.deployment_id t ∉ recorded_ids o → outcome ≠ FleetTargetStatus.COMMAND_RECORDED →
  ∀ d, d = o ∨ grew o (ExpectedTarget.deployment_id t) d →
  triple (holds d) (record_failure o t outcome) (λ o' w, holds o' w ∧ grew o (ExpectedTarget.deployment_id t) o') broken.
Proof.
  intros Hkey Hpending Hnew Houtcome d Hd. unfold record_failure. rewrite Hkey.
  eapply triple_bind; [apply triple_get|]. intros durable. apply triple_know. intros ->.
  destruct Hd as [->|Hgrew].
  - rewrite bool_decide_false by done. eapply triple_bind; [apply triple_pure|]. intros now. cbv zeta. eapply triple_bind.
    + apply triple_save.
      * split; [done|done|]. rewrite command_receipts_app, bool_decide_false by done. apply app_nil_r.
      * done.
      * intros _ Ho. rewrite recorded_ids_app. apply NoDup_app. split; [done|]. split; [|apply NoDup_singleton].
        by intros x Hx ->%list_elem_of_singleton.
    + intros []. apply triple_ret. intros w Hw. split; [exact Hw|]. split; [apply recorded_ids_app|done].
  - rewrite bool_decide_true by (destruct Hgrew as [-> _]; set_solver). apply triple_ret. done.
Qed.

Lemma triple_record_target o t : FleetOperation.idempotency_key o = k →
  FleetOperation.status o = FleetOperationStatus.PENDING → ExpectedTarget.deployment_id t ∉ recorded_ids o →
  triple (holds o) (_record_target o t) (λ o' w, holds o' w ∧ grew o (ExpectedTarget.deployment_id t) o') broken.
Proof.
  intros Hkey Hpending Hnew. eapply triple_try.
  - eapply triple_bind; [apply triple_pure|]. intros now. by apply triple_record_target_call.
  - intros e h Hh w w' r [Hw _]. assert (∃ outcome, h = record_failure o t outcome ∧ outcome ≠ FleetTargetStatus.COMMAND_RECORDED)
      as (outcome & -> & Houtcome) by (destruct e; simplify_eq/=; eauto).
    destruct Hw as [Hw|(o' & Hw & Hgrew)]; revert Hw; apply triple_record_failure; auto.
  - intros e w He [Hw Hlost]. split.
    + by destruct Hw as [[? _]|(? & [? _] & _)].
    + destruct Hlost as [Hlost|?]; [|done]. by destruct e.
Qed.

Notation ids ts := ((λ t, ExpectedTarget.deployment_id t) <$> ts).

Lemma triple_record_targets recorded expected : NoDup (ids expected) →
  ∀ o, FleetOperation.idempotency_key o = k → FleetOperation.status o = FleetOperationStatus.PENDING →
  (∀ i, i ∈ ids expected → i ∉ recorded → i ∉ recorded_ids o) →
  triple (holds o) (record_targets recorded o expected)
    (λ o' w, holds o' w ∧ FleetOperation.status o' = FleetOperationStatus.PENDING
      ∧ recorded_ids o' = recorded_ids o ++ List.filter (λ i, negb (bool_decide (i ∈ recorded))) (ids expected)) broken.
Proof.
  induction expected as [|t ts IH]; intros Hdup o Hkey Hpending Hnew; cbn [record_targets].
  { apply triple_ret. intros w Hw. rewrite app_nil_r. done. }
  cbn in Hdup. apply NoDup_cons in Hdup as [Ht Hdup]. cbn [fmap list_fmap List.filter].
  case_bool_decide as Hrec; cbn [negb].
  - apply IH; [done..|]. intros i Hi. apply Hnew. cbn. by constructor.
  - eapply triple_bind; [apply triple_record_target; [done..|]; apply Hnew; [cbn; by constructor|done]|].
    intros o'. apply triple_know. intros [Hids Hst] w w' r Hw.
    assert (FleetOperation.idempotency_key o' = k) as Hkey' by apply (holds_receipts _ _ Hw).
    rewrite Hpending in Hst. revert w w' r Hw. eapply triple_weaken; [apply IH| | |]; try done.
    + intros i Hi Hr. rewrite Hids, not_elem_of_app, list_elem_of_singleton. split; [apply Hnew; [cbn; by constructor|done]|].
      by intros ->.
    + intros a w (Hw & Ha & ->). split; [done|]. split; [done|]. by rewrite Hids, <- app_assoc.
Qed.

(** Every confirmed book has its receipt. *)
Definition covers (request : FleetExecuteRequest) (o : FleetOperation) : Prop :=
  is_latch_action (FleetExecuteRequest.action request) = false → target_ids request ⊆ recorded_ids o.

(** An operation about to be stored over a pending one. *)
Definition closes (request : FleetExecuteRequest) (o' : FleetOperation) (w : FleetWorld) : Prop :=
  covers request o' ∧ ∃ o, holds o w ∧ FleetOperation.status o = FleetOperationStatus.PENDING ∧ agrees o o'.

Lemma closes_stable request o' : stable (closes request o').
Proof. intros i w (Hc & o & Hw & Ho). split; [done|]. exists o. split; [by apply stored_stable|done]. Qed.

Lemma closes_on_record request o' w : closes request o' w → on_record k w.
Proof. by intros (_ & o & [? _] & _). Qed.

Lemma command_receipts_omitted o rows at_ :
  command_receipts (FleetOperation.set_targets o (FleetOperation.targets o ++ (_not_confirmed <$> rows)) at_) = command_receipts o.
Proof.
  unfold command_receipts. cbn. rewrite omap_app. rewrite <- (app_nil_r (omap _ (FleetOperation.targets o))) at 2. f_equal.
  by induction rows.
Qed.

Lemma triple_apply_books request o : FleetOperation.idempotency_key o = k →
  FleetOperation.status o = FleetOperationStatus.PENDING → NoDup (target_ids request) →
  triple (holds o) (_apply_books request o) (closes request) broken.
Proof.
  intros Hkey Hpending Hdup. eapply triple_bind; [apply triple_record_targets; [done..|]; by intros i _ Hi|].
  intros o'. apply triple_know. intros [Hst Hids]. eapply triple_bind.
  { apply triple_read; [apply stored_stable|by intros w [? _]]. }
  intros rows. apply triple_ret. intros w [Hw _]. split.
  - intros _ i Hi. rewrite recorded_ids_app, Hids, !elem_of_app. left.
    destruct (decide (i ∈ recorded_ids o)); [by left|right].
    apply list_elem_of_In, filter_In. split; [by apply list_elem_of_In|]. by rewrite bool_decide_false.
  - exists o'. split; [done|]. split; [done|]. split; [done|done|apply command_receipts_omitted].
Qed.

Lemma status_for_settled action results : _status_for action results ≠ FleetOperationStatus.PENDING.
Proof. unfold _status_for. repeat case_match; done. Qed.

(** What an attempt leaves: the operation is finished, and says what became of each confirmed book. *)
Definition finished (request : FleetExecuteRequest) (o : FleetOperation) (w : FleetWorld) : Prop :=
  holds o w ∧ FleetOperation.status o ≠ FleetOperationStatus.PENDING ∧ covers request o.

Lemma triple_finish audit request o status : status ≠ FleetOperationStatus.PENDING →
  triple (closes request o) (now ← now_utc; finished ← _audit audit (FleetOperation.finish o status now);
    _ ← save_operation finished; mret finished) (finished request) broken.
Proof.
  intros Hst. eapply triple_bind; [apply triple_pure|]. intros now. eapply triple_bind with (Q := λ f w, closes request o w ∧
    ∃ b, f = FleetOperation.set_audited (FleetOperation.finish o status now) b).
  { unfold _audit. destruct audit; [|apply triple_ret; intros w Hw; split; [done|by exists false]].
    eapply triple_weaken; [apply triple_read; [apply closes_stable|apply closes_on_record]|done| |done].
    intros f w [Hw ->]. split; [done|]. by eexists. }
  intros f. apply triple_know. intros (b & ->) w w' r (Hc & o0 & Hw & Hpending & Hagrees). revert w w' r Hw.
  eapply triple_bind.
  - apply triple_save; [by destruct Hagrees|by cbn; intros ->|by cbn; intros ->].
  - intros []. apply triple_ret. intros w Hw. done.
Qed.

Lemma triple_apply_pending audit request o : FleetOperation.idempotency_key o = k →
  FleetOperation.status o = FleetOperationStatus.PENDING → NoDup (target_ids request) →
  triple (holds o) (_apply_pending audit o request) (finished request)
    (λ _ w, on_record k w ∧ (lossy ∨ is_latch_action (FleetExecuteRequest.action request) = true)).
Proof.
  intros Hkey Hpending Hdup. unfold _apply_pending. eapply triple_bind with (Q := closes request).
  - destruct (is_latch_action _) eqn:Hlatch.
    + eapply triple_bind; [apply triple_pure|]. intros now.
      eapply triple_weaken; [apply triple_apply_latch|done| |by intros e w ?; split; [|right]].
      intros o' w [Hw Ho]. split; [by intros ?; congruence|]. exists o'. by rewrite Ho.
    + eapply triple_weaken; [by apply triple_apply_books|done|done|by intros e w [? ?]; split; [|left]].
  - intros o'. eapply triple_bind with (Q := λ _, closes request o').
    + eapply triple_weaken; [apply triple_read; [apply closes_stable|apply closes_on_record]|done|by intros a w [? _]|].
      by intros e w [? ?]; split; [|left].
    + intros current. eapply triple_bind with (Q := λ _, closes request o').
      * intros w w' r Hw [= <- <-]. exact Hw.
      * intros []. eapply triple_error; [apply triple_finish, status_for_settled|].
        by intros e w [? ?]; split; [|left].
Qed.

(** The operation an attempt starts from. *)
Lemma triple_insert_pending request fingerprint : FleetExecuteRequest.idempotency_key request = k →
  triple (stored None) (_insert_pending request fingerprint)
    (λ o w, holds o w ∧ FleetOperation.idempotency_key o = k ∧ FleetOperation.status o = FleetOperationStatus.PENDING) broken.
Proof.
  intros Hkey. unfold _insert_pending. eapply triple_bind; [apply triple_pure|]. intros now.
  eapply triple_bind; [eapply triple_peek; [apply stored_stable|by intros w [? _]]|]. intros latch.
  eapply triple_bind; [apply triple_pure|]. intros id.
  cbv zeta. set (o := new_operation _ _ _ _ _). eapply triple_bind with (Q := λ b w, holds o w ∧ b = true).
  - apply triple_call; [apply stored_stable|by intros ? ? w [? _]| |by intros ? ? ? w [[? _] _]].
    intros w w' r [Hw Hnone]. unfold insert_operation. unfold operation_at in Hnone. cbn [o new_operation FleetOperation.idempotency_key].
    rewrite Hkey, Hnone. intros [= <- <-]. split; [|done]. destruct Hw as [Hb Hw]. unfold operation_at in Hw. rewrite Hnone in Hw.
    apply on_record_set; [done|]. rewrite Hw. constructor; cbn; try done; intros; apply NoDup_nil_2.
  - intros b. apply triple_know. intros ->. apply triple_ret. intros w Hw. split; [exact Hw|]. split; [exact Hkey|done].
Qed.

(** The requests an attempt refuses before it starts: malformed, or the key of another request. *)
Definition refused (request : FleetExecuteRequest) (start : option FleetOperation) : Prop :=
  _require_request request ≠ Ok tt ∨ (∃ o, start = Some o ∧ FleetOperation.request_fingerprint o ≠ _fingerprint request).

Lemma require_request_distinct request : _require_request request = Ok tt → NoDup (target_ids request).
Proof.
  intros Hreq. apply bind_Ok in Hreq as ([] & _ & Hreq). apply bind_Ok in Hreq as ([] & Hdup & _). apply guard_or_Ok in Hdup.
  by apply bool_decide_eq_true in Hdup.
Qed.

Lemma triple_execute audit request start : FleetExecuteRequest.idempotency_key request = k →
  triple (stored start) (execute_fleet audit request)
    (λ o w, holds o w ∧ FleetOperation.status o ≠ FleetOperationStatus.PENDING ∧ (start = Some o ∨ covers request o))
    (λ _ w, on_record k w ∧ (lossy ∨ is_latch_action (FleetExecuteRequest.action request) = true ∨ refused request start)).
Proof.
  intros Hkey. unfold execute_fleet. eapply triple_bind with (Q := λ _ w, stored start w ∧ _require_request request = Ok tt).
  { apply triple_lift; [by intros w [] ? ?|]. intros w e He [Hw _]. split; [done|]. right. right. left. by rewrite He. }
  intros []. apply triple_know. intros Hreq. pose proof (require_request_distinct _ Hreq) as Hdup. cbv zeta. rewrite Hkey.
  eapply triple_bind; [eapply triple_error; [apply triple_get|by intros e w [? ?]; split; [|left]]|].
  intros existing. apply triple_know. intros ->. destruct start as [o|].
  - eapply triple_bind with (Q := λ _, holds o).
    { apply triple_lift; [by intros w []|]. intros w e He [Hw _]. split; [done|]. right. right. right. exists o. split; [done|].
      unfold _require_same_fingerprint, guard_or in He. by case_bool_decide. }
    intros []. case_bool_decide as Hst; cbn [negb].
    + intros w w' r Hw. pose proof (receipts_key _ _ _ (holds_receipts _ _ Hw)) as Ho. revert w w' r Hw.
      eapply triple_weaken; [by apply triple_apply_pending|auto| |].
      * intros f w (Hf & Hs & Hc). auto.
      * by intros e w (? & [?|?]); split; auto.
    + apply triple_ret. intros w Hw. auto.
  - eapply triple_bind; [eapply triple_error; [by apply triple_insert_pending|by intros e w [? ?]; split; [|left]]|].
    intros o. apply triple_know. intros [Ho Hst]. eapply triple_weaken; [by apply triple_apply_pending|auto| |].
    + intros f w (Hf & Hs & Hc). auto.
    + by intros e w (? & [?|?]); split; auto.
Qed.
End Attempt.

(** ** The life of a key *)

Section Key.
Context `{Sha256}.

(** Attempts under the key, each in surroundings of its own, and changes that leave the key alone. *)
Inductive evolves (k : string) : FleetWorld → FleetWorld → Prop :=
  | attempted (s : FleetSurroundings) (audit : bool) request w : respects k s → FleetExecuteRequest.idempotency_key request = k →
      evolves k w (execute_fleet audit request w).1
  | elsewhere w w' : leaves k w w' → evolves k w w'.

(** No action was begun under the key. *)
Definition unused (k : string) (w : FleetWorld) : Prop := books_keyed w ∧ operation_at k w = None ∧ effects_of k w = [].

Lemma evolves_on_record k w w' : evolves k w w' → on_record k w → on_record k w'.
Proof.
  intros [s audit request v Hs Hk|v v' Hv] Hw; [|by eapply leaves_on_record].
  destruct (execute_fleet audit request v) as [v' r] eqn:Hv.
  pose proof (triple_execute (surroundings := s) k Hs audit request (operation_at k v) Hk v v' r) as Ht.
  cbn. destruct r; [apply Ht|apply Ht]; done.
Qed.

Lemma unused_on_record k w w' : unused k w → rtc (evolves k) w w' → on_record k w'.
Proof.
  intros (Hb & Ho & He) Hsteps. assert (on_record k w) as Hw by (split; [done|by rewrite Ho]).
  clear Hb Ho He. induction Hsteps; [done|]. eauto using evolves_on_record.
Qed.

Lemma commanded_effect es i : CommandRecorded i ∈ es ↔ i ∈ commanded_ids es.
Proof.
  unfold commanded_ids. rewrite list_elem_of_omap. split; [by exists (CommandRecorded i)|]. by intros ([?|] & ? & [= ->]).
Qed.

Lemma latched_effect es : LatchApplied ∈ es ↔ LatchApplied ∈ latch_effects es.
Proof. unfold latch_effects. rewrite !list_elem_of_In, filter_In. tauto. Qed.

Lemma effects_distinct es : NoDup (commanded_ids es) → NoDup (latch_effects es) → NoDup es.
Proof.
  induction es as [|e es IH]; [constructor|]. destruct e as [i|]; cbn.
  - intros [Hi Hc]%NoDup_cons Hl. constructor; [by rewrite commanded_effect|by apply IH].
  - intros Hc [Hi Hl]%NoDup_cons. constructor; [by rewrite latched_effect|by apply IH].
Qed.

Lemma command_receipt o i : i ∈ command_receipts o ↔
  ∃ r, r ∈ FleetOperation.targets o ∧ TargetResult.deployment_id r = i ∧ TargetResult.status r = FleetTargetStatus.COMMAND_RECORDED.
Proof.
  unfold command_receipts. rewrite list_elem_of_omap. split.
  - intros (r & Hr & Hi). case_bool_decide; [|done]. injection Hi as <-. by exists r.
  - intros (r & Hr & <- & Hst). exists r. split; [done|]. by rewrite bool_decide_true.
Qed.

(** C20: A fleet action takes effect once. Any sequence of attempts under one idempotency key is
    made, each by a request of its own, each with other clients acting between its calls and with
    any of its calls lost before or after taking effect; in between, others leave the key alone.
    Then no book is commanded twice and the latch is applied at most once, and the operation on
    record says exactly what took effect: a book has a [COMMAND_RECORDED] receipt if and only if
    it was commanded, and the latch is marked applied if and only if it was. *)
Theorem fleet_effects_once k w w' : unused k w → rtc (evolves k) w w' →
  NoDup (effects_of k w') ∧ (operation_at k w' = None → effects_of k w' = []) ∧
  ∀ o, operation_at k w' = Some o →
    (∀ i, CommandRecorded i ∈ effects_of k w' ↔
      ∃ r, r ∈ FleetOperation.targets o ∧ TargetResult.deployment_id r = i ∧ TargetResult.status r = FleetTargetStatus.COMMAND_RECORDED)
    ∧ (LatchApplied ∈ effects_of k w' ↔ FleetOperation.latch_applied o = true).
Proof.
  intros Hw Hsteps. destruct (unused_on_record k w w' Hw Hsteps) as [_ Hr].
  destruct (operation_at k w') as [o|]; [|by rewrite Hr; split; [constructor|]].
  destruct Hr as [_ Hlatch Hcommands Honce _]. split.
  - apply effects_distinct; [by rewrite Hcommands|]. rewrite Hlatch. destruct (FleetOperation.latch_applied o); [apply NoDup_singleton|constructor].
  - split; [done|]. intros ? [= <-]. split; [intros i; by rewrite commanded_effect, Hcommands, command_receipt|].
    rewrite latched_effect, Hlatch. destruct (FleetOperation.latch_applied o); set_solver.
Qed.

(** An attempt under the key of a finished operation. *)
Lemma triple_final (s : FleetSurroundings) k audit request o es : respects k s → FleetExecuteRequest.idempotency_key request = k →
  FleetOperation.status o ≠ FleetOperationStatus.PENDING →
  triple (λ w, operation_at k w = Some o ∧ effects_of k w = es) (execute_fleet audit request)
    (λ o' w, operation_at k w = Some o ∧ effects_of k w = es) (λ _ w, operation_at k w = Some o ∧ effects_of k w = es).
Proof.
  intros Hs Hk Hst. eapply triple_bind with (Q := λ _ w, operation_at k w = Some o ∧ effects_of k w = es); [by apply triple_lift|].
  intros []. eapply triple_bind with (Q := λ a w, (operation_at k w = Some o ∧ effects_of k w = es) ∧ a = Some o).
  - rewrite Hk. apply triple_call; [|by auto| |by intros _ _ a w [? _]].
    + intros i w [Ho He]. destruct (Hs i (count_call w)) as (Ho' & He' & _). by rewrite Ho', He'.
    + intros w w' r [Ho He] [= <- <-]. done.
  - intros a. apply triple_know. intros ->.
    eapply triple_bind with (Q := λ _ w, operation_at k w = Some o ∧ effects_of k w = es); [by apply triple_lift|].
    intros []. rewrite bool_decide_false by done. by apply triple_ret.
Qed.

(** A finished fleet operation is final: whatever is attempted under its key afterwards, it
    stays on record unchanged and nothing takes effect under the key; and an attempt that repeats
    its request, and whose read of the record is delivered, is answered with it. *)
Lemma finished_operation_is_final k w w' o : operation_at k w = Some o →
  FleetOperation.status o ≠ FleetOperationStatus.PENDING → rtc (evolves k) w w' →
  operation_at k w' = Some o ∧ effects_of k w' = effects_of k w ∧
  ∀ (s : FleetSurroundings) audit request, respects k s → FleetExecuteRequest.idempotency_key request = k →
    _require_request request = Ok tt → _fingerprint request = FleetOperation.request_fingerprint o →
    fault (calls_made w') = Delivered → (execute_fleet audit request w').2 = Ok o.
Proof.
  intros Ho Hst Hsteps. assert (operation_at k w' = Some o ∧ effects_of k w' = effects_of k w) as [Ho' He].
  { induction Hsteps as [|x y z Hxy _ IH]; [done|]. assert (operation_at k y = Some o ∧ effects_of k y = effects_of k x) as [Hy Hey].
    - destruct Hxy as [s audit request v Hs Hk|v v' (Hv & Hev & _)]; [|by rewrite Hv].
      destruct (execute_fleet audit request v) as [v' r] eqn:Hv.
      pose proof (triple_final s k audit request o _ Hs Hk Hst v v' r (conj Ho eq_refl) Hv) as Ht. by destruct r.
    - destruct (IH Hy) as [? ->]. done. }
  split; [done|]. split; [done|]. intros s audit request Hs Hk Hreq Hfp Hfault.
  unfold execute_fleet, mbind, F_bind, lift, get_operation, call. rewrite Hreq, Hfault, Hk. cbn zeta.
  destruct (Hs (calls_made w') (count_call w')) as (Hat & _). unfold operation_at in Hat, Ho'. cbn in Hat. rewrite Hat, Ho'.
  unfold _require_same_fingerprint, guard_or. rewrite Hfp, bool_decide_true by done. by rewrite bool_decide_false.
Qed.

(** C21: A stop can always be finished by repeating it. After any attempts and failures under a
    key, a well-formed managed stop or flatten whose operation is not begun, or is pending for the
    same request, and whose own calls are all delivered, returns a finished operation, which is on
    record with a receipt for every confirmed book; whatever the books are, and whatever other
    clients do in between. *)
Theorem fleet_retry_finishes k w w' (s : FleetSurroundings) audit request : unused k w → rtc (evolves k) w w' →
  respects k s → (∀ i, fault i = Delivered) → FleetExecuteRequest.idempotency_key request = k →
  _require_request request = Ok tt → is_latch_action (FleetExecuteRequest.action request) = false →
  (∀ o, operation_at k w' = Some o → FleetOperation.status o = FleetOperationStatus.PENDING ∧
    FleetOperation.request_fingerprint o = _fingerprint request) →
  ∃ v o, execute_fleet audit request w' = (v, Ok o) ∧ operation_at k v = Some o ∧
    FleetOperation.status o ≠ FleetOperationStatus.PENDING ∧
    ∀ t, t ∈ FleetExecuteRequest.expected_targets request →
      ∃ r, r ∈ FleetOperation.targets o ∧ TargetResult.deployment_id r = ExpectedTarget.deployment_id t.
Proof.
  intros Hw Hsteps Hs Hfault Hk Hreq Hlatch Hstart. pose proof (unused_on_record k w w' Hw Hsteps) as Hrec.
  destruct (execute_fleet audit request w') as [v r] eqn:Hv.
  pose proof (triple_execute (surroundings := s) k Hs audit request (operation_at k w') Hk w' v r (conj Hrec eq_refl) Hv) as Ht.
  destruct r as [o|e].
  - destruct Ht as ([_ Ho] & Hst & Hcovers). exists v, o. split; [done|]. split; [done|]. split; [done|]. intros t Hin.
    destruct Hcovers as [Hsame|Hcovers]; [by destruct (Hstart o Hsame)|]. specialize (Hcovers Hlatch (ExpectedTarget.deployment_id t)).
    unfold recorded_ids in Hcovers. rewrite list_elem_of_fmap in Hcovers. destruct Hcovers as (r & Hr & Hin'); [|by exists r].
    unfold target_ids. apply list_elem_of_fmap. by exists t.
  - destruct Ht as [_ [[i Hi]|[Hlat|[Hbad|(o & Ho & Hfp)]]]]; [by destruct Hi|congruence|done|]. by destruct (Hstart o Ho).
Qed.
End Key.

(** ** A lost call *)

(** The connection breaks after the command of the first attempt is stored. *)
#[local] Instance demo_sha : Sha256 := {| sha256_hex := λ s, s |}.
#[local] Instance demo_surroundings : FleetSurroundings := {|
  fault := λ i, if Nat.eqb i 3 then LostAfter TimeoutError else Delivered;
  others := λ _ w, w;
  fleet_now := λ i, demo_hour 0 + Z.of_nat i;
  fresh_operation_id := λ i, "op" +:+ pretty i;
  audit_available := λ _, false
|}.
Definition calm_surroundings : FleetSurroundings := {|
  fault := λ _, Delivered;
  others := λ _ w, w;
  fleet_now := λ i, demo_hour 1 + Z.of_nat i;
  fresh_operation_id := λ i, "op" +:+ pretty i;
  audit_available := λ _, true
|}.

Definition demo_request : FleetExecuteRequest := {|
  FleetExecuteRequest.action := FleetAction.FLATTEN; FleetExecuteRequest.mode := FleetModeScope.ALL;
  FleetExecuteRequest.idempotency_key := "k1";
  FleetExecuteRequest.expected_targets := [{| ExpectedTarget.deployment_id := "d1"; ExpectedTarget.revision := 4 |};
                                           {| ExpectedTarget.deployment_id := "d2"; ExpectedTarget.revision := 1 |}];
  FleetExecuteRequest.live_acknowledged := true; FleetExecuteRequest.allow_empty_scope := false;
  FleetExecuteRequest.expected_inhibition := {| expected_paper_revision := None; expected_live_revision := None |} |}.

Definition demo_world : FleetWorld := {|
  fleet := {| latch := Inhibition.initial; operations := [] |}; fleet_books := demo_store; process_cache := {| cached_snapshot := None; recorded_latch := None |};
  calls_made := 0; effects := [] |}.

Definition after_loss : FleetWorld := (execute_fleet (surroundings := demo_surroundings) true demo_request demo_world).1.
Definition after_retry : FleetWorld := (execute_fleet (surroundings := calm_surroundings) true demo_request after_loss).1.

Lemma demo_unused : unused "k1" demo_world.
Proof. split; [|done]. intros i d. cbn. case_decide as Hi; [|done]. by intros [= <-]. Qed.

Lemma still_respects k (s : FleetSurroundings) : (∀ i w, @others s i w = w) → respects k s.
Proof. intros Hs i w. by rewrite Hs. Qed.

Lemma demo_loses : rtc (evolves "k1") demo_world after_loss.
Proof. apply rtc_once. apply (attempted "k1" demo_surroundings true demo_request demo_world); [by apply still_respects|done]. Qed.

Lemma demo_retries : rtc (evolves "k1") demo_world after_retry.
Proof.
  eapply rtc_r; [exact demo_loses|]. apply (attempted "k1" calm_surroundings true demo_request after_loss); [by apply still_respects|done].
Qed.

Lemma fleet_effects_once_witness :
  (execute_fleet (surroundings := demo_surroundings) true demo_request demo_world).2 = Raise TimeoutError
  ∧ effects_of "k1" after_retry = [CommandRecorded "d1"] ∧ NoDup (effects_of "k1" after_retry).
Proof.
  split; [vm_compute; reflexivity|]. split; [vm_compute; reflexivity|].
  exact (proj1 (fleet_effects_once "k1" demo_world after_retry demo_unused demo_retries)).
Defined.

Definition demo_started : FleetOperation := new_operation demo_request (_fingerprint demo_request) Inhibition.initial "op" 0.
Definition demo_at (w : FleetWorld) : FleetOperation := default demo_started (operation_at "k1" w).

Lemma demo_pending : operation_at "k1" after_loss = Some (demo_at after_loss)
  ∧ FleetOperation.status (demo_at after_loss) = FleetOperationStatus.PENDING
  ∧ FleetOperation.request_fingerprint (demo_at after_loss) = _fingerprint demo_request.
Proof. vm_compute. done. Qed.

Lemma demo_finished : operation_at "k1" after_retry = Some (demo_at after_retry)
  ∧ bool_decide (FleetOperation.status (demo_at after_retry) = FleetOperationStatus.PENDING) = false
  ∧ FleetOperation.request_fingerprint (demo_at after_retry) = _fingerprint demo_request.
Proof. vm_compute. done. Qed.

Lemma demo_settled {o : FleetOperation} : bool_decide (FleetOperation.status o = FleetOperationStatus.PENDING) = false →
  FleetOperation.status o ≠ FleetOperationStatus.PENDING.
Proof. by rewrite bool_decide_eq_false. Qed.

Lemma demo_valid : _require_request demo_request = Ok tt.
Proof. vm_compute. done. Qed.

Lemma demo_calm i : @fault calm_surroundings i = Delivered.
Proof. done. Qed.

Lemma fleet_retry_finishes_witness : ∃ v o,
  execute_fleet (surroundings := calm_surroundings) true demo_request after_loss = (v, Ok o) ∧ operation_at "k1" v = Some o
  ∧ FleetOperation.status o ≠ FleetOperationStatus.PENDING.
Proof.
  destruct (fleet_retry_finishes "k1" demo_world after_loss calm_surroundings true demo_request demo_unused demo_loses)
    as (v & o & Hv & Ho & Hst & _); [by apply still_respects|reflexivity|reflexivity|vm_compute; reflexivity|reflexivity| |].
  - intros o Ho. destruct demo_pending as (Hp & Hst & Hfp). rewrite Hp in Ho. apply (f_equal (default demo_started)) in Ho. cbn in Ho.
    rewrite <- Ho. split; [exact Hst|exact Hfp].
  - exists v, o. split; [exact Hv|]. split; [exact Ho|exact Hst].
Defined.
