(* ===== verification/Studies.v ===== *)
(** * Studies: research studies over many backtests ([research])

    [sweep_axes.py], [sweep_selection.py], [study_models.py] (requests and their field rules),
    [study_planning.py] (the child windows of a study), [study_assembly.py] (selection in sample
    and the aggregates) and [stitched_equity.py] (one compounded out-of-sample path).

    Then the windows of a walk-forward study: where each lies, that training ends before testing
    begins, how many folds there are. And that the candidate a fold selects is the best in sample
    whatever happened out of sample.

    A request is a validated record; texts of fractions are held as decimals. Warnings are
    constructors, fingerprints of requests and plans are left out, and the fingerprints of the
    candidates that [parameter_sweep.py] derives from axes are an argument of the planner. *)

From S2P Require Import Prelude Decimals DecimalFacts DecimalText Market IndicatorSpec Conditions Strategy.
From S2P Require Import Containers KernelState KernelRun SignalTrace.

Open Scope Z_scope.

(** ** Sweep axes ([sweep_axes.py]) *)

Definition _MAX_AXES : nat := 4.
Definition _MAX_VALUES_PER_AXIS : nat := 8.
Definition MAX_SYNC_CANDIDATES : Z := 8.
Definition MAX_CANDIDATES : Z := 64.

Module SweepAxisTarget.
Inductive SweepAxisTarget := INDICATOR | SIZING | EXITS | EXECUTION | ENTRY_LITERAL | HTF_LITERAL.
#[global] Instance eq_dec : EqDecision SweepAxisTarget. Proof. solve_decision. Defined.
End SweepAxisTarget.
Notation SweepAxisTarget := SweepAxisTarget.SweepAxisTarget.

Record ParameterAxis := {
  axis_target : SweepAxisTarget;
  axis_indicator_id : option string;
  axis_parameter : string;
  axis_values : list string;
  condition_operator : option string
}.

Record AxisCell := {
  cell_target : SweepAxisTarget;
  locator : string;
  cell_parameter : string;
  cell_value : string;
  cell_operator : option string
}.

Definition _INTEGER_INDICATOR_PARAMETERS : list string :=
  ["period"; "fast_period"; "slow_period"; "signal_period"; "k_period"; "d_period"; "atr_period"; "tenkan_period";
   "kijun_period"; "senkou_b_period"; "rsi_period"; "stoch_period"; "short_period"; "medium_period"; "long_period";
   "annualization_periods"].
Definition _DECIMAL_INDICATOR_PARAMETERS : list string := ["stdev_multiplier"; "multiplier"; "step"; "max_step"; "value"].
Definition _OFFSET_PARAMETER : string := "offset".
Definition _INDICATOR_PARAMETERS : list string :=
  _INTEGER_INDICATOR_PARAMETERS ++ _DECIMAL_INDICATOR_PARAMETERS ++ [_OFFSET_PARAMETER].
Definition _SIZING_PARAMETERS : list string := ["risk_fraction"; "min_quote_notional"; "max_quote_notional"].
Definition _EXITS_PARAMETERS : list string :=
  ["initial_stop_multiple"; "take_profit_multiple"; "trailing_stop_multiple"; "max_bars_held"].
Definition _EXECUTION_PARAMETERS : list string := ["max_entry_wait_bars"].
Definition _LITERAL_PARAMETERS : list string := ["literal"].
Definition _CONDITION_OPERATORS : list string :=
  ["greater_than"; "greater_than_or_equal"; "less_than"; "less_than_or_equal"; "equals"].

Definition _parameters_for_target (t : SweepAxisTarget) : list string :=
  match t with
  | SweepAxisTarget.INDICATOR => _INDICATOR_PARAMETERS
  | SweepAxisTarget.SIZING => _SIZING_PARAMETERS
  | SweepAxisTarget.EXITS => _EXITS_PARAMETERS
  | SweepAxisTarget.EXECUTION => _EXECUTION_PARAMETERS
  | _ => _LITERAL_PARAMETERS
  end.

(** [^[a-z][a-z0-9_]{0,63}$] *)
Definition lower_letter (c : Ascii.ascii) : bool := let n := Ascii.N_of_ascii c in (97 <=? n)%N && (n <=? 122)%N.
Definition identifier_character (c : Ascii.ascii) : bool :=
  let n := Ascii.N_of_ascii c in lower_letter c || ((48 <=? n) && (n <=? 57))%N || (n =? 95)%N.
Definition is_indicator_id (s : string) : bool :=
  match String.list_ascii_of_string s with
  | [] => false
  | c :: rest => lower_letter c && forallb identifier_character rest && (length rest <=? 63)%nat
  end.

Definition literal_target (t : SweepAxisTarget) : bool :=
  bool_decide (t ∈ [SweepAxisTarget.ENTRY_LITERAL; SweepAxisTarget.HTF_LITERAL]).

Definition _require_parameter_for_target (a : ParameterAxis) : bool :=
  bool_decide (axis_parameter a ∈ _parameters_for_target (axis_target a)).

Definition _require_locator_for_target (a : ParameterAxis) : bool :=
  if bool_decide (axis_target a = SweepAxisTarget.INDICATOR) || literal_target (axis_target a)
  then match axis_indicator_id a with Some i => is_indicator_id i | None => false end
  else bool_decide (axis_indicator_id a = None).

Definition valid_axis (a : ParameterAxis) : bool :=
  (2 <=? length (axis_values a))%nat && (length (axis_values a) <=? _MAX_VALUES_PER_AXIS)%nat
  && bool_decide (NoDup (axis_values a))
  && _require_parameter_for_target a && _require_locator_for_target a
  && match condition_operator a with
     | None => true
     | Some op => literal_target (axis_target a) && bool_decide (op ∈ _CONDITION_OPERATORS)
     end.

Definition parameter_axes_candidate_count (axes : list ParameterAxis) : Z :=
  fold_left (λ count a, count * Z.of_nat (length (axis_values a))) axes 1.

Definition axis_key (a : ParameterAxis) : SweepAxisTarget * string * string * string :=
  (axis_target a, default "" (axis_indicator_id a), axis_parameter a, default "" (condition_operator a)).

Definition validate_parameter_axes_candidate_budget (axes : list ParameterAxis) : result unit :=
  _ ← guard_or (negb (bool_decide (length axes = O))) (ValueError "parameter_axes is required");
  _ ← guard_or (length axes <=? _MAX_AXES)%nat (ValueError "parameter_axes accepts at most 4 axes");
  _ ← guard_or (bool_decide (NoDup (axis_key <$> axes)))
        (ValueError "parameter_axes must use distinct target, locator, and parameter tuples");
  guard_or (parameter_axes_candidate_count axes <=? MAX_CANDIDATES)
    (ValueError "parameter_axes Cartesian product yields too many candidates").

Definition _cell_for_axis (a : ParameterAxis) (v : string) : AxisCell := {|
  cell_target := axis_target a; locator := default "" (axis_indicator_id a); cell_parameter := axis_parameter a;
  cell_value := v; cell_operator := condition_operator a |}.

(** [itertools.product]: the last axis moves fastest. *)
Fixpoint cartesian (axes : list ParameterAxis) : list (list AxisCell) :=
  match axes with
  | [] => [[]]
  | a :: axes => flat_map (λ v, (λ cells, _cell_for_axis a v :: cells) <$> cartesian axes) (axis_values a)
  end.

Definition expand_parameter_grid (axes : list ParameterAxis) : result (list (list AxisCell)) :=
  _ ← validate_parameter_axes_candidate_budget axes; Ok (cartesian axes).

(** ** Requests, plans and studies ([study_models.py]) *)

Module StudyKind.
Inductive StudyKind := OOS_HOLDOUT | WALK_FORWARD | CROSS_MARKET | PARAMETER_SWEEP | WALK_FORWARD_OPTIMIZATION.
#[global] Instance eq_dec : EqDecision StudyKind. Proof. solve_decision. Defined.
End StudyKind.
Notation StudyKind := StudyKind.StudyKind.

Inductive FoldMode := ROLLING | ANCHORED.

Module WindowRole.
Inductive WindowRole := IN_SAMPLE | OUT_OF_SAMPLE | FULL_WINDOW | SWEEP_CANDIDATE.
#[global] Instance eq_dec : EqDecision WindowRole. Proof. solve_decision. Defined.
Definition role_text (r : WindowRole) : string :=
  match r with IN_SAMPLE => "in_sample" | OUT_OF_SAMPLE => "out_of_sample" | FULL_WINDOW => "full_window"
             | SWEEP_CANDIDATE => "sweep_candidate" end.
End WindowRole.
Notation WindowRole := WindowRole.WindowRole.

Inductive SelectionMetric := TOTAL_RETURN_FRACTION | TOTAL_NET_PNL | MAXIMUM_DRAWDOWN_FRACTION.

Record StudyBudget := { sync : bool; max_candidates : Z; max_windows : Z }.
Definition SYNC_STUDY_BUDGET : StudyBudget := {| sync := true; max_candidates := MAX_SYNC_CANDIDATES; max_windows := 128 |}.
Definition ASYNC_STUDY_BUDGET : StudyBudget := {| sync := false; max_candidates := MAX_CANDIDATES; max_windows := 512 |}.

(** The datasets a child is bound to; a request has one when its [dataset_fingerprint] is given. *)
Record DatasetBinding := {
  bound_dataset : string;
  bound_htf_dataset : option string;
  bound_indicator_datasets : list IndicatorTimeframeDataset;
  bound_reference_datasets : list ReferenceInstrumentDataset
}.

Record MarketBinding := { market_strategy_fingerprint : string; market_datasets : DatasetBinding }.

Record ResearchStudyRequest := {
  kind : StudyKind;
  study_start : datetime;
  study_end : datetime;
  study_strategy_fingerprint : option string;
  study_datasets : option DatasetBinding;
  oos_fraction : option decimal;
  embargo_bars : Z;
  in_sample_bars : option Z;
  out_of_sample_bars : option Z;
  step_bars : option Z;
  fold_mode : FoldMode;
  markets : option (list MarketBinding);
  candidate_strategy_fingerprints : list string;
  parameter_axes : list ParameterAxis;
  selection_metric : SelectionMetric
}.

Definition within (low high : Z) (z : option Z) : bool :=
  match z with Some z => (low <=? z) && (z <=? high) | None => true end.
Definition given {A} (x : option A) : bool := match x with Some _ => true | None => false end.
Definition empty {A} (l : list A) : bool := match l with [] => true | _ => false end.

(** [EvaluationWindow]: whole minutes, and at least one. *)
Definition valid_evaluation_window (starts ends : datetime) : bool :=
  (starts mod duration ONE_MINUTE =? 0) && (ends mod duration ONE_MINUTE =? 0) && (duration ONE_MINUTE <=? ends - starts).

Definition _require_single_market (r : ResearchStudyRequest) : bool :=
  negb (given (markets r)) && given (study_strategy_fingerprint r) && given (study_datasets r).
Definition _forbid_candidate_fields (r : ResearchStudyRequest) : bool :=
  empty (candidate_strategy_fingerprints r) && empty (parameter_axes r).
Definition no_fold_bars (r : ResearchStudyRequest) : bool :=
  negb (given (in_sample_bars r)) && negb (given (out_of_sample_bars r)) && negb (given (step_bars r)).
Definition fold_bars (r : ResearchStudyRequest) : bool :=
  given (in_sample_bars r) && given (out_of_sample_bars r) && given (step_bars r).

Definition _require_candidate_source (r : ResearchStudyRequest) : bool :=
  let candidates := candidate_strategy_fingerprints r in
  let count := Z.of_nat (length candidates) in
  if empty candidates
  then negb (empty (parameter_axes r))
       && match validate_parameter_axes_candidate_budget (parameter_axes r) with Ok _ => true | Raise _ => false end
  else empty (parameter_axes r) && (2 <=? count) && (count <=? MAX_CANDIDATES) && bool_decide (NoDup candidates)
       && forallb (λ f, (String.length f =? 71)%nat && String.prefix "sha256:" f) candidates.

Definition _require_oos_holdout (r : ResearchStudyRequest) : bool :=
  no_fold_bars r && given (oos_fraction r) && _forbid_candidate_fields r.
Definition _require_walk_forward (r : ResearchStudyRequest) : bool :=
  negb (given (oos_fraction r)) && fold_bars r && _forbid_candidate_fields r.
Definition _require_parameter_sweep (r : ResearchStudyRequest) : bool :=
  negb (given (oos_fraction r)) && no_fold_bars r && _require_candidate_source r.
Definition _require_walk_forward_optimization (r : ResearchStudyRequest) : bool :=
  negb (given (oos_fraction r)) && fold_bars r && _require_candidate_source r.

Definition _MAX_MARKETS : nat := 8.
Definition _require_cross_market (r : ResearchStudyRequest) : bool :=
  negb (given (study_strategy_fingerprint r)) && negb (given (study_datasets r))
  && negb (given (oos_fraction r)) && no_fold_bars r
  && match markets r with
     | Some l => (2 <=? length l)%nat && (length l <=? _MAX_MARKETS)%nat
                 && bool_decide (NoDup (market_strategy_fingerprint <$> l))
     | None => false
     end
  && _forbid_candidate_fields r.

Definition valid_study_fields (r : ResearchStudyRequest) : bool :=
  within 0 10000 (Some (embargo_bars r)) && within 1 100000 (in_sample_bars r) && within 1 100000 (out_of_sample_bars r)
  && within 1 100000 (step_bars r) && forallb valid_axis (parameter_axes r)
  && match oos_fraction r with Some f => ((d0 <? f) && (f <? d1))%dec | None => true end.

(** [validate_kind_fields] *)
Definition valid_study_request (r : ResearchStudyRequest) : bool :=
  valid_study_fields r && valid_evaluation_window (study_start r) (study_end r) &&
  match kind r with
  | StudyKind.CROSS_MARKET => _require_cross_market r
  | StudyKind.OOS_HOLDOUT => _require_single_market r && _require_oos_holdout r
  | StudyKind.PARAMETER_SWEEP => _require_single_market r && _require_parameter_sweep r
  | StudyKind.WALK_FORWARD_OPTIMIZATION => _require_single_market r && _require_walk_forward_optimization r
  | StudyKind.WALK_FORWARD => _require_single_market r && _require_walk_forward r
  end.

Module PlannedStudyWindow.
Record PlannedStudyWindow := {
  label : string;
  role : WindowRole;
  fold_index : Z;
  product_id : string;
  timeframe : string;
  strategy_fingerprint : string;
  datasets : DatasetBinding;
  evaluation_start : datetime;
  evaluation_end : datetime
}.
End PlannedStudyWindow.
Notation PlannedStudyWindow := PlannedStudyWindow.PlannedStudyWindow.

Inductive StudyWarning := OVERLAPPING_OOS | SWEEP_IS_NOT_OOS | ASYNC_ONLY | DATA_SNOOPING | STITCH_UNAVAILABLE (reason : string) | STITCH_POINTS_OMITTED.

Record ResearchStudyPlan := {
  plan_kind : StudyKind;
  plan_timeframe : string;
  plan_windows : list PlannedStudyWindow;
  plan_warnings : list StudyWarning
}.

Module StudyWindowResult.
Record StudyWindowResult := {
  role : WindowRole;
  fold_index : Z;
  strategy_fingerprint : string;
  result_fingerprint : string;
  evaluation_start : datetime;
  evaluation_end : datetime;
  summary : BacktestSummary;
  selected : bool
}.
Definition select (w : StudyWindowResult) (b : bool) : StudyWindowResult := {|
  role := role w; fold_index := fold_index w; strategy_fingerprint := strategy_fingerprint w;
  result_fingerprint := result_fingerprint w; evaluation_start := evaluation_start w; evaluation_end := evaluation_end w;
  summary := summary w; selected := b |}.
End StudyWindowResult.
Notation StudyWindowResult := StudyWindowResult.StudyWindowResult.

(** ** Planning ([study_planning.py]) *)

Definition _MAX_FOLDS : nat := 24.
Definition TOO_SHORT : error := ValueError "The evaluation window is too short for one walk-forward fold".
Definition OVER_BUDGET : error := ValueError "This study exceeds its budget".

Definition study_candidate_count (r : ResearchStudyRequest) : Z :=
  match parameter_axes r with
  | [] => Z.of_nat (length (candidate_strategy_fingerprints r))
  | axes => parameter_axes_candidate_count axes
  end.

Definition _require_candidate_budget (r : ResearchStudyRequest) (b : StudyBudget) : result unit :=
  guard_or (study_candidate_count r <=? max_candidates b) OVER_BUDGET.
Definition _require_window_budget (count : Z) (b : StudyBudget) : result unit := guard_or (count <=? max_windows b) OVER_BUDGET.

Definition _sync_budget_warnings (r : ResearchStudyRequest) (count : Z) : list StudyWarning :=
  let candidates := study_candidate_count r in
  let many := max_candidates SYNC_STUDY_BUDGET <? candidates in
  (if many || (max_windows SYNC_STUDY_BUDGET <? count) then [ASYNC_ONLY] else []) ++ (if many then [DATA_SNOOPING] else []).

(** [_bar_count]: [total_seconds] of both durations, as integers. *)
Definition whole_seconds (span : timedelta) : Z := Z.quot span 1000000.
Definition _bar_count (start end_ : datetime) (bar : timedelta) : result Z :=
  let seconds := whole_seconds (end_ - start) in
  let step := whole_seconds bar in
  _ ← guard_or (negb ((step <=? 0) || (seconds <=? 0) || negb (seconds mod step =? 0)))
        (ValueError "evaluation window must be a positive integer number of bars.");
  Ok (seconds / step).

Definition _add_bars (instant : datetime) (bars : Z) (bar : timedelta) : datetime := instant + bar * bars.

(** A window of a split: its fold, its role and its bounds. *)
Definition Split : Type := Z * WindowRole * datetime * datetime.

Section Planning.
Context {dc : DecimalContext}.

Definition _oos_splits (r : ResearchStudyRequest) (total_bars : Z) (bar : timedelta) : result (list Split) :=
  match oos_fraction r with
  | None => Raise (ValueError "oos_fraction is required for oos_holdout.")
  | Some fraction =>
      let rounded := to_integral_value ROUND_HALF_EVEN (of_Z total_bars * fraction)%dec in
      let oos_bars := coef rounded * 10 ^ exponent rounded in
      let oos_bars := Z.min (Z.max oos_bars 1) (total_bars - 1) in
      let remaining := total_bars - oos_bars - embargo_bars r in
      _ ← guard_or (negb (remaining <? 1)) (ValueError "oos_holdout needs at least one in-sample bar after embargo and OOS.");
      let is_end := _add_bars (study_start r) remaining bar in
      let oos_start := _add_bars is_end (embargo_bars r) bar in
      Ok [(0, WindowRole.IN_SAMPLE, study_start r, is_end); (0, WindowRole.OUT_OF_SAMPLE, oos_start, study_end r)]
  end.

(** The folds from [fold_index] on: [while fold_index < _MAX_FOLDS], with [left] turns left. *)
Fixpoint walk_folds (r : ResearchStudyRequest) (in_sample out_of_sample step total_bars : Z) (bar : timedelta)
    (left : nat) (fold_index : Z) : list Split :=
  match left with
  | O => []
  | S left =>
      let '(is_bars, is_offset) :=
        match fold_mode r with
        | ANCHORED => (in_sample + fold_index * step, 0)
        | ROLLING => (in_sample, fold_index * step)
        end in
      let is_start := _add_bars (study_start r) is_offset bar in
      let is_end := _add_bars is_start is_bars bar in
      let oos_start := _add_bars is_end (embargo_bars r) bar in
      let oos_end := _add_bars oos_start out_of_sample bar in
      if study_end r <? oos_end then []
      else if total_bars <? is_offset + is_bars + embargo_bars r + out_of_sample then []
      else (fold_index, WindowRole.IN_SAMPLE, is_start, is_end) :: (fold_index, WindowRole.OUT_OF_SAMPLE, oos_start, oos_end)
             :: walk_folds r in_sample out_of_sample step total_bars bar left (fold_index + 1)
  end.

Definition _walk_forward_splits (r : ResearchStudyRequest) (total_bars : Z) (bar : timedelta)
    : result (list Split * list StudyWarning) :=
  match in_sample_bars r, out_of_sample_bars r, step_bars r with
  | Some in_sample, Some out_of_sample, Some step =>
      let warnings := if step <? out_of_sample then [OVERLAPPING_OOS] else [] in
      let folds := walk_folds r in_sample out_of_sample step total_bars bar _MAX_FOLDS 0 in
      _ ← guard_or (negb (empty folds)) TOO_SHORT;
      Ok (folds, warnings)
  | _, _, _ => Raise (ValueError "walk_forward requires bar counts.")
  end.

(** [str(int)] *)
Definition index_text (z : Z) : string := String.string_of_list_ascii (format_f (of_Z z)).

Definition planned (label : string) (role : WindowRole) (fold_index : Z) (product_id timeframe strategy : string)
    (datasets : DatasetBinding) (starts ends : datetime) : PlannedStudyWindow := {|
  PlannedStudyWindow.label := label; PlannedStudyWindow.role := role; PlannedStudyWindow.fold_index := fold_index;
  PlannedStudyWindow.product_id := product_id; PlannedStudyWindow.timeframe := timeframe;
  PlannedStudyWindow.strategy_fingerprint := strategy; PlannedStudyWindow.datasets := datasets;
  PlannedStudyWindow.evaluation_start := starts; PlannedStudyWindow.evaluation_end := ends |}.

(** What a planner returns: the windows, their clock, and its warnings. *)
Definition Schedule : Type := list PlannedStudyWindow * string * list StudyWarning.

Definition Publications : Type := gmap string StrategyDefinition.

(** [publications[fingerprint]] *)
Definition published_as (publications : Publications) (fingerprint : string) : result StrategyDefinition :=
  match publications !! fingerprint with Some d => Ok d | None => Raise KeyError end.

Definition decision_product (d : StrategyDefinition) : string := Strategy.product_id (instrument d).

Definition market_step (r : ResearchStudyRequest) (publications : Publications)
    (acc : list PlannedStudyWindow * option string * Z) (m : MarketBinding)
    : result (list PlannedStudyWindow * option string * Z) :=
  let '(windows, clock, index) := acc in
  published ← published_as publications (market_strategy_fingerprint m);
  let product := decision_product published in
  let own := timeframe published in
  _ ← guard_or (match clock with Some c => bool_decide (own = c) | None => true end)
        (ValueError "cross_market markets must share one decision timeframe.");
  _ ← guard_or (negb (bool_decide (product ∈ PlannedStudyWindow.product_id <$> windows)))
        (ValueError "cross_market markets must use distinct products.");
  Ok (windows ++ [planned product WindowRole.FULL_WINDOW index product own (market_strategy_fingerprint m) (market_datasets m)
                    (study_start r) (study_end r)], Some (default own clock), index + 1).

Definition _plan_cross_market (r : ResearchStudyRequest) (publications : Publications) : result Schedule :=
  match markets r with
  | None => Raise (ValueError "cross_market studies require markets.")
  | Some l =>
      '(windows, clock, _) ← foldM (market_step r publications) ([], None, 0) l;
      match clock with
      | None => Raise (ValueError "cross_market studies require markets.")
      | Some clock => Ok (windows, clock, [])
      end
  end.

(** The strategy and datasets of a study of one market. *)
Definition single_market (r : ResearchStudyRequest) : result (string * DatasetBinding) :=
  match study_strategy_fingerprint r, study_datasets r with
  | Some s, Some d => Ok (s, d)
  | _, _ => Raise (ValueError "This study kind requires strategy and dataset fingerprints.")
  end.

Definition single_market_splits (r : ResearchStudyRequest) (total_bars : Z) (bar : timedelta)
    : result (list Split * list StudyWarning) :=
  if bool_decide (kind r = StudyKind.OOS_HOLDOUT)
  then (splits ← _oos_splits r total_bars bar; Ok (splits, []))
  else _walk_forward_splits r total_bars bar.

Definition single_window (published : StrategyDefinition) (strategy : string) (datasets : DatasetBinding) (split : Split)
    : PlannedStudyWindow :=
  let '(fold, role, starts, ends) := split in
  planned (WindowRole.role_text role +:+ "-" +:+ index_text fold) role fold (decision_product published) (timeframe published)
    strategy datasets starts ends.

Definition _plan_single_market (r : ResearchStudyRequest) (publications : Publications) : result Schedule :=
  '(strategy, datasets) ← single_market r;
  published ← published_as publications strategy;
  interval ← parse_candle_interval (timeframe published);
  let bar := duration interval in
  total_bars ← _bar_count (study_start r) (study_end r) bar;
  '(splits, warnings) ← single_market_splits r total_bars bar;
  Ok (map (single_window published strategy datasets) splits, timeframe published, warnings).

(** [_resolve_candidates]: [derived] are the candidates derived from the axes. *)
Definition _resolve_candidates (r : ResearchStudyRequest) (publications : Publications)
    (derived : StrategyDefinition → result (list string)) : result (list string * string * string) :=
  '(strategy, _) ← single_market r;
  base ← published_as publications strategy;
  let clock := timeframe base in
  let product := decision_product base in
  match parameter_axes r with
  | _ :: _ => fingerprints ← derived base; Ok (fingerprints, clock, product)
  | [] =>
      _ ← foldM (λ _ fingerprint,
            match publications !! fingerprint with
            | None => Raise (ValueError "Published strategy was not found")
            | Some published =>
                _ ← guard_or (bool_decide (timeframe published = clock))
                      (ValueError "Sweep candidates must share one decision timeframe.");
                guard_or (bool_decide (decision_product published = product))
                  (ValueError "Sweep candidates must share one product.")
            end) tt (candidate_strategy_fingerprints r);
      Ok (candidate_strategy_fingerprints r, clock, product)
  end.

(** [enumerate(xs)] *)
Definition enumerate {A} (xs : list A) : list (Z * A) := imap (λ i x, (Z.of_nat i, x)) xs.

Definition _plan_parameter_sweep (r : ResearchStudyRequest) (publications : Publications)
    (derived : StrategyDefinition → result (list string)) : result Schedule :=
  '(candidates, clock, product) ← _resolve_candidates r publications derived;
  '(_, datasets) ← single_market r;
  let window '(index, fingerprint) :=
    planned ("sweep-" +:+ index_text index) WindowRole.SWEEP_CANDIDATE index product clock fingerprint datasets
      (study_start r) (study_end r) in
  Ok (map window (enumerate candidates), clock, [SWEEP_IS_NOT_OOS]).

Definition candidate_window (product clock : string) (datasets : DatasetBinding) (split : Split) (candidate : Z * string)
    : PlannedStudyWindow :=
  let '(fold, role, starts, ends) := split in
  planned (WindowRole.role_text role +:+ "-" +:+ index_text fold +:+ "-" +:+ index_text candidate.1) role fold product clock
    candidate.2 datasets starts ends.

Definition _plan_walk_forward_optimization (r : ResearchStudyRequest) (publications : Publications)
    (derived : StrategyDefinition → result (list string)) : result Schedule :=
  '(candidates, clock, product) ← _resolve_candidates r publications derived;
  '(_, datasets) ← single_market r;
  interval ← parse_candle_interval clock;
  let bar := duration interval in
  total_bars ← _bar_count (study_start r) (study_end r) bar;
  '(splits, warnings) ← _walk_forward_splits r total_bars bar;
  Ok (flat_map (λ split, map (candidate_window product clock datasets split) (enumerate candidates)) splits, clock, warnings).

Definition plan_study (r : ResearchStudyRequest) (publications : Publications)
    (derived : StrategyDefinition → result (list string)) (b : StudyBudget) : result ResearchStudyPlan :=
  _ ← _require_candidate_budget r b;
  '(windows, clock, warnings) ←
    match kind r with
    | StudyKind.CROSS_MARKET => _plan_cross_market r publications
    | StudyKind.PARAMETER_SWEEP => _plan_parameter_sweep r publications derived
    | StudyKind.WALK_FORWARD_OPTIMIZATION => _plan_walk_forward_optimization r publications derived
    | _ => _plan_single_market r publications
    end;
  _ ← guard_or (negb (empty windows)) (ValueError "The evaluation window cannot form any study child windows.");
  _ ← _require_window_budget (Z.of_nat (length windows)) b;
  Ok {| plan_kind := kind r; plan_timeframe := clock; plan_windows := windows;
        plan_warnings := warnings ++ _sync_budget_warnings r (Z.of_nat (length windows)) |}.
End Planning.

(** ** Selection in sample ([sweep_selection.py], [study_assembly.py]) *)

Definition metric_value (s : BacktestSummary) (m : SelectionMetric) : decimal :=
  match m with
  | TOTAL_RETURN_FRACTION => total_return_fraction s
  | TOTAL_NET_PNL => total_net_pnl s
  | MAXIMUM_DRAWDOWN_FRACTION => maximum_drawdown_fraction s
  end.

Section Assembly.
Context {dc : DecimalContext}.

(** The order of the keys: by value, ties by fingerprint. *)
Definition selection_key (m : SelectionMetric) (item : string * decimal) : decimal * string :=
  match m with MAXIMUM_DRAWDOWN_FRACTION => (item.2, item.1) | _ => (neg item.2, item.1) end.
Definition key_before (a b : decimal * string) : bool := (a.1 <? b.1)%dec || (a.1 =? b.1)%dec && String.ltb a.2 b.2.

(** [min(scored, key=...)]: the first of the least. *)
Definition least_by {A K} (before : K → K → bool) (key : A → K) (first : A) (rest : list A) : A :=
  fold_left (λ best x, if before (key x) (key best) then x else best) rest first.

Definition select_candidate_fingerprint (scored : list (string * decimal)) (m : SelectionMetric) : result string :=
  match scored with
  | [] => Raise (ValueError "selection requires at least one in-sample score")
  | first :: rest => Ok (least_by key_before (selection_key m) first rest).1
  end.

Definition scores (m : SelectionMetric) (windows : list StudyWindowResult) : list (string * decimal) :=
  (λ w, (StudyWindowResult.strategy_fingerprint w, metric_value (StudyWindowResult.summary w) m)) <$> windows.

Definition is_role (role : WindowRole) (w : StudyWindowResult) : bool := bool_decide (StudyWindowResult.role w = role).
Definition in_fold (fold : Z) (w : StudyWindowResult) : bool := StudyWindowResult.fold_index w =? fold.

(** [dict.fromkeys(xs)]: each value once, where it first occurs. *)
Definition distinct_values (xs : list Z) : list Z :=
  fold_left (λ seen x, if bool_decide (x ∈ seen) then seen else seen ++ [x]) xs [].

Definition _wfo_selected_by_fold (r : ResearchStudyRequest) (windows : list StudyWindowResult) : result (dict Z string) :=
  foldM (λ selected fold,
      let insample := List.filter (λ w, in_fold fold w && is_role WindowRole.IN_SAMPLE w) windows in
      winner ← select_candidate_fingerprint (scores (selection_metric r) insample) (selection_metric r);
      Ok (dict_set fold winner selected))
    [] (distinct_values (StudyWindowResult.fold_index <$> windows)).

Definition mark_winner (winner : string) (w : StudyWindowResult) : StudyWindowResult :=
  StudyWindowResult.select w (bool_decide (StudyWindowResult.strategy_fingerprint w = winner)).
Definition mark_fold_winner (selected : dict Z string) (w : StudyWindowResult) : StudyWindowResult :=
  StudyWindowResult.select w
    (bool_decide (dict_get (StudyWindowResult.fold_index w) selected = Some (StudyWindowResult.strategy_fingerprint w))).

Definition _annotate_selections (r : ResearchStudyRequest) (windows : list StudyWindowResult) : result (list StudyWindowResult) :=
  match kind r with
  | StudyKind.PARAMETER_SWEEP =>
      winner ← select_candidate_fingerprint (scores (selection_metric r) windows) (selection_metric r);
      Ok (map (mark_winner winner) windows)
  | StudyKind.WALK_FORWARD_OPTIMIZATION =>
      selected ← _wfo_selected_by_fold r windows;
      Ok (map (mark_fold_winner selected) windows)
  | _ => Ok windows
  end.

(** ** Aggregates ([study_assembly.py]) *)

(** [_canonical_decimal]: eighteen places, and the text without trailing zeros. *)
Definition eighteen_places (value : decimal) : result decimal :=
  quantized ← quantize ROUND_HALF_EVEN value (-18); Ok (canon quantized).

Definition _mean_decimal (values : list decimal) : result (option decimal) :=
  match values with
  | [] => Ok None
  | _ => mean ← div (dsum values) (of_Z (Z.of_nat (length values))); text ← eighteen_places mean; Ok (Some text)
  end.

(** The figures of the windows of one role. *)
Record RoleAggregate := {
  role_windows : Z;
  role_trades : Z;
  role_wins : Z;
  mean_return : option decimal;
  mean_drawdown : option decimal
}.

Record StudyAggregate := {
  window_count : Z;
  oos : RoleAggregate;
  oos_win_rate : option decimal;
  mean_is_return_fraction : option decimal;
  is_oos_return_gap : option decimal;
  candidate_windows : option RoleAggregate;
  full_windows : option RoleAggregate
}.

Definition sum_by (f : BacktestSummary → Z) (windows : list StudyWindowResult) : Z :=
  fold_left (λ total w, total + f (StudyWindowResult.summary w)) windows 0.
Definition figures (f : BacktestSummary → decimal) (windows : list StudyWindowResult) : list decimal :=
  (λ w, f (StudyWindowResult.summary w)) <$> windows.

Definition role_aggregate (windows : list StudyWindowResult) : result RoleAggregate :=
  returns ← _mean_decimal (figures total_return_fraction windows);
  drawdowns ← _mean_decimal (figures maximum_drawdown_fraction windows);
  Ok {| role_windows := Z.of_nat (length windows); role_trades := sum_by trade_count windows;
        role_wins := sum_by winning_trade_count windows; mean_return := returns; mean_drawdown := drawdowns |}.

Definition no_windows : RoleAggregate := {| role_windows := 0; role_trades := 0; role_wins := 0; mean_return := None; mean_drawdown := None |}.

Definition aggregate_windows (windows : list StudyWindowResult) (selected_only : bool) : result StudyAggregate :=
  let marked := List.filter StudyWindowResult.selected windows in
  let pool := if selected_only && negb (empty marked) then marked else windows in
  let oos := List.filter (is_role WindowRole.OUT_OF_SAMPLE) pool in
  let is_windows := List.filter (is_role WindowRole.IN_SAMPLE) pool in
  let candidates := List.filter (is_role WindowRole.SWEEP_CANDIDATE) pool in
  let full := List.filter (is_role WindowRole.FULL_WINDOW) pool in
  out ← role_aggregate oos;
  mean_is ← _mean_decimal (figures total_return_fraction is_windows);
  gap ← match mean_is, mean_return out with
        | Some a, Some b => text ← eighteen_places (a - b)%dec; Ok (Some text)
        | _, _ => Ok None
        end;
  rate ← (if role_trades out =? 0 then Ok None
          else q ← div (of_Z (role_wins out)) (of_Z (role_trades out)); text ← eighteen_places q; Ok (Some text));
  full_figures ← (if empty full then Ok None else a ← role_aggregate full; Ok (Some a));
  if negb (empty candidates) && empty is_windows
  then
    candidate_figures ← role_aggregate candidates;
    Ok {| window_count := Z.of_nat (length windows); oos := no_windows; oos_win_rate := None; mean_is_return_fraction := None;
          is_oos_return_gap := None; candidate_windows := Some candidate_figures; full_windows := full_figures |}
  else
    Ok {| window_count := Z.of_nat (length windows); oos := out; oos_win_rate := rate; mean_is_return_fraction := mean_is;
          is_oos_return_gap := gap; candidate_windows := None; full_windows := full_figures |}.

(** ** The stitched path ([stitched_equity.py]) *)

Definition MAX_STITCHED_POINTS : nat := 4096.

Record StitchedEquityPoint := {
  stitched_at : datetime;
  stitched_equity : decimal;
  stitched_fold : Z;
  stitched_result : string
}.

Inductive StitchedOosEquity :=
  | Unavailable (reason : string)
  | Stitched (initial final return_fraction drawdown drawdown_fraction : decimal) (point_count : nat) (points : list StitchedEquityPoint).

Record StitchSourceWindow := {
  source_fold : Z;
  source_start : datetime;
  source_end : datetime;
  source_fingerprint : string;
  source_result : BacktestResult
}.

Record _StitchTracker := {
  initial : decimal;
  capital : decimal;
  peak : decimal;
  max_drawdown : decimal;
  max_drawdown_fraction : decimal;
  last_timestamp : option datetime;
  points : list StitchedEquityPoint
}.

Definition new_tracker (initial : decimal) : _StitchTracker := {|
  initial := initial; capital := initial; peak := initial; max_drawdown := d0; max_drawdown_fraction := d0;
  last_timestamp := None; points := [] |}.
Definition set_capital (t : _StitchTracker) (c : decimal) : _StitchTracker := {|
  initial := initial t; capital := c; peak := peak t; max_drawdown := max_drawdown t;
  max_drawdown_fraction := max_drawdown_fraction t; last_timestamp := last_timestamp t; points := points t |}.

Definition maybe_append (t : _StitchTracker) (timestamp : datetime) (equity : decimal) (fold : Z) (fingerprint : string)
    : result _StitchTracker :=
  if match last_timestamp t with Some last => timestamp <=? last | None => false end then Ok t
  else
    let peak' := if (peak t <? equity)%dec then equity else peak t in
    let drawdown := (peak' - equity)%dec in
    fraction ← (if (peak' =? d0)%dec then Ok d0 else div drawdown peak');
    text ← eighteen_places equity;
    Ok {| initial := initial t; capital := capital t; peak := peak';
          max_drawdown := if (max_drawdown t <? drawdown)%dec then drawdown else max_drawdown t;
          max_drawdown_fraction := if (max_drawdown_fraction t <? fraction)%dec then fraction else max_drawdown_fraction t;
          last_timestamp := Some timestamp;
          points := points t ++ [{| stitched_at := timestamp; stitched_equity := text; stitched_fold := fold;
                                    stitched_result := fingerprint |}] |}.

Definition document (t : _StitchTracker) : result StitchedOosEquity :=
  match points t with
  | [] => Ok (Unavailable "Stitched OOS equity has no mark-to-market points.")
  | _ =>
      let published := if (MAX_STITCHED_POINTS <? length (points t))%nat then [] else points t in
      returned ← (if (initial t =? d0)%dec then Ok d0
                  else q ← div (capital t - initial t)%dec (initial t); eighteen_places q);
      first ← eighteen_places (initial t);
      final ← eighteen_places (capital t);
      drawdown ← eighteen_places (max_drawdown t);
      fraction ← eighteen_places (max_drawdown_fraction t);
      Ok (Stitched first final returned drawdown fraction (length (points t)) published)
  end.

Definition OVERLAP : string :=
  "OOS windows overlap, so stitched equity is not a continuous path. Use equal-weight OOS aggregates instead.".

Fixpoint overlap_after (previous : StitchSourceWindow) (windows : list StitchSourceWindow) : option string :=
  match windows with
  | [] => None
  | current :: windows => if source_start current <? source_end previous then Some OVERLAP else overlap_after current windows
  end.
Definition _first_overlap (windows : list StitchSourceWindow) : option string :=
  match windows with [] => None | first :: rest => overlap_after first rest end.

Definition stitch_before (a b : StitchSourceWindow) : bool :=
  (source_start a <? source_start b) || (source_start a =? source_start b) && (source_fold a <=? source_fold b).

(** One window of the path; [None] when its initial equity is 0. *)
Definition stitch_window (t : _StitchTracker) (w : StitchSourceWindow) : result (option _StitchTracker) :=
  let window_initial := initial_equity (summary (source_result w)) in
  if (window_initial =? d0)%dec then Ok None
  else
    t ← foldM (λ t point,
          growth ← div (equity point) window_initial;
          maybe_append t (point_starts_at point) (capital t * growth)%dec (source_fold w) (source_fingerprint w))
        t (equity_curve (source_result w));
    growth ← div (final_equity (summary (source_result w))) window_initial;
    let t := set_capital t (capital t * growth)%dec in
    t ← maybe_append t (source_end w) (capital t) (source_fold w) (source_fingerprint w);
    Ok (Some t).

Fixpoint stitch_windows (t : _StitchTracker) (windows : list StitchSourceWindow) : result (option _StitchTracker) :=
  match windows with
  | [] => Ok (Some t)
  | w :: windows =>
      next ← stitch_window t w;
      match next with Some t => stitch_windows t windows | None => Ok None end
  end.

Definition stitch_oos_equity (windows : list StitchSourceWindow) : result StitchedOosEquity :=
  if (length windows <? 2)%nat
  then Ok (Unavailable "Stitched OOS equity needs at least two scored out-of-sample windows.")
  else
    match Containers.sort_by stitch_before windows with
    | [] => Raise IndexError
    | (first :: _) as ordered =>
        match _first_overlap ordered with
        | Some reason => Ok (Unavailable reason)
        | None =>
            stitched ← stitch_windows (new_tracker (initial_equity (summary (source_result first)))) ordered;
            match stitched with
            | None => Ok (Unavailable "Stitched OOS equity cannot scale a window whose initial equity is 0.")
            | Some t => document t
            end
        end
    end.

(** [unavailable_stitched_equity] when a child result is missing. *)
Definition _derived_stitched_equity (r : ResearchStudyRequest) (windows : list StudyWindowResult) (results : gmap string BacktestResult)
    : result (option StitchedOosEquity) :=
  if negb (bool_decide (kind r ∈ [StudyKind.WALK_FORWARD; StudyKind.WALK_FORWARD_OPTIMIZATION])) then Ok None
  else
    let oos := List.filter (is_role WindowRole.OUT_OF_SAMPLE) windows in
    let oos := if bool_decide (kind r = StudyKind.WALK_FORWARD_OPTIMIZATION) then List.filter StudyWindowResult.selected oos else oos in
    let source w := (λ result, {| source_fold := StudyWindowResult.fold_index w; source_start := StudyWindowResult.evaluation_start w;
                                  source_end := StudyWindowResult.evaluation_end w;
                                  source_fingerprint := StudyWindowResult.result_fingerprint w; source_result := result |})
                      <$> results !! StudyWindowResult.result_fingerprint w in
    match mapM source oos with
    | None => Ok (Some (Unavailable "Stitched OOS equity is unavailable because a child result could not be loaded."))
    | Some sources => stitched ← stitch_oos_equity sources; Ok (Some stitched)
    end.

Definition _stitch_warnings (warnings : list StudyWarning) (stitched : option StitchedOosEquity) : list StudyWarning :=
  warnings ++ match stitched with
              | Some (Unavailable reason) => [STITCH_UNAVAILABLE reason]
              | Some (Stitched _ _ _ _ _ (S _) []) => [STITCH_POINTS_OMITTED]
              | _ => []
              end.

(** The second half of [submit_with_progress]: a study from its scored children. *)
Record ResearchStudy := {
  study_kind : StudyKind;
  windows : list StudyWindowResult;
  aggregate : StudyAggregate;
  warnings : list StudyWarning;
  stitched_oos_equity : option StitchedOosEquity
}.

Definition assemble_study (r : ResearchStudyRequest) (plan : ResearchStudyPlan) (children : list StudyWindowResult)
    (results : gmap string BacktestResult) : result ResearchStudy :=
  windows ← _annotate_selections r children;
  stitched ← _derived_stitched_equity r windows results;
  aggregate ← aggregate_windows windows (bool_decide (kind r = StudyKind.WALK_FORWARD_OPTIMIZATION));
  Ok {| study_kind := kind r; windows := windows; aggregate := aggregate;
        warnings := _stitch_warnings (plan_warnings plan) stitched; stitched_oos_equity := stitched |}.
End Assembly.

(** ** The folds *)

Section Folds.
Context (r : ResearchStudyRequest) (s o p total : Z) (bar : timedelta).
Context (Hs : 1 <= s) (Ho : 1 <= o) (Hp : 1 <= p) (He : 0 <= embargo_bars r) (Hbar : 0 < bar).
Context (Htotal : study_end r - study_start r = bar * total).

Definition train_offset (i : Z) : Z := match fold_mode r with ANCHORED => 0 | ROLLING => i * p end.

(** The bounds of the two windows of a fold. *)
Definition train_start (i : Z) : datetime := study_start r + bar * train_offset i.
Definition train_end (i : Z) : datetime := study_start r + bar * (i * p + s).
Definition test_start (i : Z) : datetime := study_start r + bar * (i * p + s + embargo_bars r).
Definition test_end (i : Z) : datetime := study_start r + bar * (i * p + s + embargo_bars r + o).

Definition fold_splits (i : Z) : list Split :=
  [(i, WindowRole.IN_SAMPLE, train_start i, train_end i); (i, WindowRole.OUT_OF_SAMPLE, test_start i, test_end i)].

(** The loop stops when the next test window would pass the end; its second guard never fires. *)
Lemma walk_folds_step left i : walk_folds r s o p total bar (S left) i =
  if study_end r <? test_end i then [] else fold_splits i ++ walk_folds r s o p total bar left (i + 1).
Proof.
  cbn [walk_folds]. unfold fold_splits, train_start, train_end, test_start, test_end, train_offset, _add_bars.
  destruct (fold_mode r); cbv beta iota zeta.
  - set (a := study_start r + bar * (i * p) + bar * s + bar * embargo_bars r + bar * o).
    replace (study_start r + bar * (i * p + s + embargo_bars r + o)) with a by (unfold a; ring).
    destruct (Z.ltb_spec (study_end r) a) as [|Hle]; [done|].
    rewrite (proj2 (Z.ltb_ge _ _)) by (unfold a in Hle; nia). cbn [app]. unfold a.
    repeat (apply (f_equal2 cons) || apply (f_equal2 pair)); (reflexivity || ring).
  - set (a := study_start r + bar * 0 + bar * (s + i * p) + bar * embargo_bars r + bar * o).
    replace (study_start r + bar * (i * p + s + embargo_bars r + o)) with a by (unfold a; ring).
    destruct (Z.ltb_spec (study_end r) a) as [|Hle]; [done|].
    rewrite (proj2 (Z.ltb_ge _ _)) by (unfold a in Hle; nia). cbn [app]. unfold a.
    repeat (apply (f_equal2 cons) || apply (f_equal2 pair)); (reflexivity || ring).
Qed.

(** The folds are the first ones that fit, at most [left] of them. *)
Lemma walk_folds_spec left i : ∃ n : nat, (n <= left)%nat ∧
  walk_folds r s o p total bar left i = flat_map fold_splits (seqZ i (Z.of_nat n)) ∧
  (∀ j, i <= j < i + Z.of_nat n → test_end j <= study_end r) ∧ (n = left ∨ study_end r < test_end (i + Z.of_nat n)).
Proof.
  revert i. induction left as [|left IH]; intros i.
  { exists O. split; [done|]. split; [done|]. split; [lia|by left]. }
  rewrite walk_folds_step. destruct (Z.ltb_spec (study_end r) (test_end i)) as [Hlt|Hle].
  { exists O. split; [lia|]. split; [done|]. split; [lia|right]. by rewrite Z.add_0_r. }
  destruct (IH (i + 1)) as (n & Hn & Hw & Hfit & Hmax). exists (S n). split; [lia|]. split; [|split].
  - rewrite Hw, (seqZ_cons i (Z.of_nat (S n))) by lia. cbn [flat_map]. replace (Z.pred (Z.of_nat (S n))) with (Z.of_nat n) by lia. done.
  - intros j Hj. destruct (decide (j = i)) as [->|]; [done|]. apply Hfit. lia.
  - destruct Hmax as [->|Hmax]; [by left|right]. by replace (i + Z.of_nat (S n)) with (i + 1 + Z.of_nat n) by lia.
Qed.

Lemma elem_of_folds n x : x ∈ flat_map fold_splits (seqZ 0 n) ↔ ∃ i, 0 <= i < n ∧ x ∈ fold_splits i.
Proof.
  rewrite list_elem_of_In, in_flat_map. split.
  - intros (i & Hi & Hx). exists i. rewrite <- list_elem_of_In, elem_of_seqZ in Hi. rewrite list_elem_of_In. split; [lia|done].
  - intros (i & Hi & Hx). exists i. rewrite <- list_elem_of_In, elem_of_seqZ. rewrite <- list_elem_of_In. split; [lia|done].
Qed.
End Folds.

(** ** The schedule of a walk-forward study *)

(** Where a planned window lies in the study. *)
Record placed (r : ResearchStudyRequest) (s o p : Z) (bar : timedelta) (w : PlannedStudyWindow) : Prop := {
  placed_within : study_start r <= PlannedStudyWindow.evaluation_start w ∧
    PlannedStudyWindow.evaluation_start w < PlannedStudyWindow.evaluation_end w ∧
    PlannedStudyWindow.evaluation_end w <= study_end r;
  placed_role : match PlannedStudyWindow.role w with
    | WindowRole.IN_SAMPLE =>
        PlannedStudyWindow.evaluation_start w = study_start r + bar * train_offset r p (PlannedStudyWindow.fold_index w) ∧
        PlannedStudyWindow.evaluation_end w = study_start r + bar * (PlannedStudyWindow.fold_index w * p + s)
    | WindowRole.OUT_OF_SAMPLE =>
        PlannedStudyWindow.evaluation_start w = study_start r + bar * (PlannedStudyWindow.fold_index w * p + s + embargo_bars r) ∧
        PlannedStudyWindow.evaluation_end w = PlannedStudyWindow.evaluation_start w + bar * o
    | _ => False
    end
}.

Lemma whole_seconds_duration i : whole_seconds (duration i) * 1000000 = duration i ∧ 0 < whole_seconds (duration i).
Proof. by destruct i. Qed.

Lemma bar_count_exact starts ends i n : valid_evaluation_window starts ends = true → _bar_count starts ends (duration i) = Ok n →
  ends - starts = duration i * n ∧ 0 < n.
Proof.
  intros Hv H. apply bind_Ok in H as ([] & Hg & [= <-]). apply guard_or_Ok in Hg.
  destruct (whole_seconds_duration i) as [Hi Hpos]. unfold valid_evaluation_window in Hv.
  apply andb_true_iff in Hv as [Hv _]. apply andb_true_iff in Hv as [Hstarts Hends]. apply Z.eqb_eq in Hstarts, Hends.
  assert (ends - starts = whole_seconds (ends - starts) * 1000000) as Hsec.
  { unfold whole_seconds. assert ((1000000 | ends - starts)) as [k ->].
    { apply Z.divide_sub_r; (etransitivity; [|by apply Z.mod_divide in Hstarts + apply Z.mod_divide in Hends]); by exists 60. }
    by rewrite Z.quot_mul. }
  set (a := whole_seconds (ends - starts)) in *. set (b := whole_seconds (duration i)) in *.
  apply negb_true_iff, orb_false_iff in Hg as [Hg Hmod]. apply orb_false_iff in Hg as [_ Hpos']. apply Z.leb_gt in Hpos'.
  apply negb_false_iff, Z.eqb_eq in Hmod. apply Z.div_exact in Hmod; [|lia].
  rewrite Hsec, <- Hi. split; [nia|]. assert (0 < b * (a / b)) by lia. nia.
Qed.

Section Schedule.
Context {dc : DecimalContext}.

(** The windows of a split carry its fold, role and bounds. *)
Definition carries (w : PlannedStudyWindow) (split : Split) : Prop :=
  (PlannedStudyWindow.fold_index w, PlannedStudyWindow.role w, PlannedStudyWindow.evaluation_start w,
   PlannedStudyWindow.evaluation_end w) = split.

Definition walk_forward (r : ResearchStudyRequest) : Prop :=
  kind r = StudyKind.WALK_FORWARD ∨ kind r = StudyKind.WALK_FORWARD_OPTIMIZATION.

Lemma placed_split r s o p bar : 1 <= s → 1 <= o → 1 <= p → 0 <= embargo_bars r → 0 < bar → ∀ j w split n,
  0 <= j < n → test_end r s o p bar j <= study_end r → split ∈ fold_splits r s o p bar j → carries w split →
  0 <= PlannedStudyWindow.fold_index w < n ∧ placed r s o p bar w.
Proof.
  intros Hs Ho Hp He Hbar j w split n Hj Hend Hjs Hc. unfold fold_splits in Hjs.
  unfold test_end, train_start, train_end, test_start, train_offset in *.
  assert (0 <= bar * (j * p)) by nia. assert (0 <= bar * embargo_bars r) by nia.
  rewrite !elem_of_cons in Hjs. unfold carries in Hc. destruct Hjs as [->|[->|[]%not_elem_of_nil]]; injection Hc as Hf Hr Hst Hen;
    (split; [lia|]); constructor; rewrite ?Hr, ?Hf, ?Hst, ?Hen; unfold train_offset.
  - destruct (fold_mode r); repeat split; nia.
  - done.
  - repeat split; nia.
  - split; [done|ring].
Qed.

(** What the planner of either walk-forward kind returns. *)
Definition scheduled (r : ResearchStudyRequest) (ws : list PlannedStudyWindow) (clock : string) (warnings : list StudyWarning) : Prop :=
  ∃ i total splits, parse_candle_interval clock = Ok i ∧ _bar_count (study_start r) (study_end r) (duration i) = Ok total ∧
    _walk_forward_splits r total (duration i) = Ok (splits, warnings) ∧
    (∀ w, w ∈ ws → ∃ split, split ∈ splits ∧ carries w split) ∧
    (ws ≠ [] → ∀ split, split ∈ splits → ∃ w, w ∈ ws ∧ carries w split).

Lemma single_market_schedule r publications ws clock warnings : kind r = StudyKind.WALK_FORWARD →
  _plan_single_market r publications = Ok (ws, clock, warnings) → scheduled r ws clock warnings.
Proof.
  intros Hk H. apply bind_Ok in H as ([strategy datasets] & _ & H). apply bind_Ok in H as (d & _ & H).
  apply bind_Ok in H as (i & Hi & H). cbv zeta in H. apply bind_Ok in H as (total & Htotal & H).
  apply bind_Ok in H as ([splits ws'] & Hsplits & H). injection H as <- <- <-. unfold single_market_splits in Hsplits.
  rewrite bool_decide_false in Hsplits by congruence. exists i, total, splits. repeat split; try done.
  - intros w (split & <- & Hs)%list_elem_of_In%in_map_iff. exists split. rewrite list_elem_of_In. split; [done|].
    by destruct split as [[[fold role] starts] ends].
  - intros _ split Hs. exists (single_window d strategy datasets split). split; [|by destruct split as [[[fold role] starts] ends]].
    apply list_elem_of_In, in_map. by apply list_elem_of_In.
Qed.

Lemma optimization_schedule r publications derived ws clock warnings :
  _plan_walk_forward_optimization r publications derived = Ok (ws, clock, warnings) → scheduled r ws clock warnings.
Proof.
  intros H. apply bind_Ok in H as ([[candidates clock'] product] & _ & H). apply bind_Ok in H as ([strategy datasets] & _ & H).
  apply bind_Ok in H as (i & Hi & H). cbv zeta in H. apply bind_Ok in H as (total & Htotal & H).
  apply bind_Ok in H as ([splits ws'] & Hsplits & H). injection H as Hws <- <-. exists i, total, splits. subst ws. repeat split; try done.
  - intros w (split & Hs & (c & <- & _)%in_map_iff)%list_elem_of_In%in_flat_map. exists split. rewrite list_elem_of_In. split; [done|].
    by destruct split as [[[fold role] starts] ends].
  - intros Hne split Hs. destruct (enumerate candidates) as [|c cs].
    { destruct Hne. clear. by induction splits. }
    exists (candidate_window product clock' datasets split c). split; [|by destruct split as [[[fold role] starts] ends]].
    apply list_elem_of_In, in_flat_map. exists split. rewrite <- list_elem_of_In. split; [done|by left].
Qed.

Lemma plan_schedule r publications derived b plan : walk_forward r → plan_study r publications derived b = Ok plan →
  ∃ warnings, scheduled r (plan_windows plan) (plan_timeframe plan) warnings ∧ plan_windows plan ≠ [] ∧
    (∀ x, x ∈ warnings → x ∈ plan_warnings plan).
Proof.
  intros Hk H. apply bind_Ok in H as ([] & _ & H). apply bind_Ok in H as ([[ws clock] warnings] & Hplan & H).
  apply bind_Ok in H as ([] & Hne & H). apply bind_Ok in H as ([] & _ & H). injection H as <-. cbn. exists warnings. repeat split.
  - destruct Hk as [Hk|Hk]; rewrite Hk in Hplan; [by eapply single_market_schedule|by eapply optimization_schedule].
  - intros ->. by apply guard_or_Ok in Hne.
  - intros x Hx. apply elem_of_app. by left.
Qed.

Lemma valid_walk_forward r : valid_study_request r = true → walk_forward r →
  ∃ s o p, in_sample_bars r = Some s ∧ out_of_sample_bars r = Some o ∧ step_bars r = Some p ∧ 1 <= s ∧ 1 <= o ∧ 1 <= p ∧
    0 <= embargo_bars r ∧ valid_evaluation_window (study_start r) (study_end r) = true.
Proof.
  unfold valid_study_request, valid_study_fields. rewrite !andb_true_iff. intros (((((((He & Hs) & Ho) & Hp) & _) & _) & Hw) & Hkind) Hk.
  assert (fold_bars r = true) as Hbars.
  { destruct Hk as [Hk|Hk]; rewrite Hk in Hkind; apply andb_true_iff in Hkind as [_ Hkind];
      unfold _require_walk_forward, _require_walk_forward_optimization in Hkind; rewrite !andb_true_iff in Hkind; tauto. }
  unfold fold_bars in Hbars. rewrite !andb_true_iff in Hbars. destruct Hbars as [[Hs' Ho'] Hp'].
  destruct (in_sample_bars r) as [s|]; [|done]. destruct (out_of_sample_bars r) as [o|]; [|done]. destruct (step_bars r) as [p|]; [|done].
  exists s, o, p. unfold within in *. rewrite andb_true_iff, !Z.leb_le in He, Hs, Ho, Hp. repeat split; (done || lia).
Qed.

Definition role_of (w : PlannedStudyWindow) : WindowRole := PlannedStudyWindow.role w.

(** C25: A planned walk-forward study tests only on bars after those it trained on. Its windows
    form between 1 and 24 folds, as many as fit; each fold has a training and a test window for
    its candidates, on whole bars inside the study; the test window begins exactly the embargo
    after the training window ends, fold by fold one step later; and unless the plan warns of it
    the test windows of different folds do not overlap. *)
Theorem walk_forward_schedule r publications derived b plan :
  valid_study_request r = true → walk_forward r → plan_study r publications derived b = Ok plan →
  ∃ i s o p n, parse_candle_interval (plan_timeframe plan) = Ok i ∧
    in_sample_bars r = Some s ∧ out_of_sample_bars r = Some o ∧ step_bars r = Some p ∧ 1 <= n <= 24 ∧
    (∀ w, w ∈ plan_windows plan → 0 <= PlannedStudyWindow.fold_index w < n ∧ placed r s o p (duration i) w) ∧
    (∀ fold role, 0 <= fold < n → role = WindowRole.IN_SAMPLE ∨ role = WindowRole.OUT_OF_SAMPLE →
       ∃ w, w ∈ plan_windows plan ∧ PlannedStudyWindow.fold_index w = fold ∧ role_of w = role) ∧
    (n = 24 ∨ study_end r < study_start r + duration i * (n * p + s + embargo_bars r + o)) ∧
    (∀ train test, train ∈ plan_windows plan → test ∈ plan_windows plan →
       PlannedStudyWindow.fold_index train = PlannedStudyWindow.fold_index test →
       role_of train = WindowRole.IN_SAMPLE → role_of test = WindowRole.OUT_OF_SAMPLE →
       PlannedStudyWindow.evaluation_end train + duration i * embargo_bars r = PlannedStudyWindow.evaluation_start test) ∧
    (OVERLAPPING_OOS ∉ plan_warnings plan → ∀ v w, v ∈ plan_windows plan → w ∈ plan_windows plan →
       role_of v = WindowRole.OUT_OF_SAMPLE → role_of w = WindowRole.OUT_OF_SAMPLE →
       PlannedStudyWindow.fold_index v < PlannedStudyWindow.fold_index w →
       PlannedStudyWindow.evaluation_end v <= PlannedStudyWindow.evaluation_start w).
Proof.
  intros Hvalid Hk Hplan. destruct (valid_walk_forward r Hvalid Hk) as (s & o & p & Hs & Ho & Hp & Hs1 & Ho1 & Hp1 & He & Hw).
  destruct (plan_schedule r publications derived b plan Hk Hplan) as (warnings & (i & total & splits & Hi & Htotal & Hsplits & Hin & Hex) & Hne & Hwarn).
  destruct (bar_count_exact _ _ _ _ Hw Htotal) as [Hspan _].
  unfold _walk_forward_splits in Hsplits. rewrite Hs, Ho, Hp in Hsplits. cbv zeta in Hsplits.
  destruct (whole_seconds_duration i) as [Hi' Hpos]. assert (0 < duration i) as Hbar by lia. set (bar := duration i) in *.
  destruct (walk_folds_spec r s o p total bar Hs1 Hbar Hspan _MAX_FOLDS 0) as (n & Hn & Hfolds & Hfit & Hmax).
  rewrite Hfolds in Hsplits. remember (flat_map (fold_splits r s o p bar) (seqZ 0 (Z.of_nat n))) as folds eqn:Heq.
  apply bind_Ok in Hsplits as ([] & Hsome & [= <- Hwarnings]). apply guard_or_Ok in Hsome. rewrite Heq in Hsome, Hin, Hex.
  assert (0 < Z.of_nat n) as Hn0. { destruct n; [by cbn in Hsome|lia]. }
  assert (∀ w, w ∈ plan_windows plan → 0 <= PlannedStudyWindow.fold_index w < Z.of_nat n ∧ placed r s o p bar w) as Hplaced.
  { intros w Hww. destruct (Hin w Hww) as (split & (j & Hj & Hjs)%elem_of_folds & Hc).
    apply (placed_split r s o p bar Hs1 Ho1 Hp1 He Hbar j w split (Z.of_nat n)); [lia|apply Hfit; lia|done|done]. }
  exists i, s, o, p, (Z.of_nat n). fold bar. split; [done|]. split; [done|]. split; [done|]. split; [done|].
  unfold _MAX_FOLDS in *. split; [lia|]. split; [exact Hplaced|]. split; [|split; [|split]].
  - intros fold role Hfold Hrole.
    assert (∃ split, split ∈ fold_splits r s o p bar fold ∧ split.1.1 = (fold, role)) as (split & Hsp & Hfr).
    { unfold fold_splits. destruct Hrole as [-> | ->]; eexists; (split; [by left + by (right; left)|reflexivity]). }
    destruct (Hex Hne split) as (w & Hww & Hc); [apply elem_of_folds; by exists fold|]. exists w. split; [done|].
    unfold carries in Hc. rewrite <- Hc in Hfr. by injection Hfr as <- <-.
  - destruct Hmax as [->|Hmax]; [by left|right]. exact Hmax.
  - intros train test Htrain Htest Hfold Hr1 Hr2. destruct (Hplaced _ Htrain) as [_ [_ H1]], (Hplaced _ Htest) as [_ [_ H2]].
    unfold role_of in *. rewrite Hr1 in H1. rewrite Hr2 in H2. destruct H1 as [_ ->], H2 as [-> _]. rewrite Hfold. ring.
  - intros Hno v w Hv Hww Hr1 Hr2 Hlt. destruct (Hplaced _ Hv) as [_ [_ H1]], (Hplaced _ Hww) as [_ [_ H2]].
    unfold role_of in *. rewrite Hr1 in H1. rewrite Hr2 in H2. destruct H1 as [Hst ->], H2 as [-> _]. rewrite Hst.
    assert (o <= p). { destruct (Z.ltb_spec p o); [|done]. exfalso. apply Hno, Hwarn. rewrite <- Hwarnings. by left. }
    assert ((PlannedStudyWindow.fold_index w - PlannedStudyWindow.fold_index v) * p >= o) by nia. nia.
Qed.
End Schedule.

(** ** Selection *)

Section Selection.
Context {dc : DecimalContext}.

(** The figure that is minimised: the metric, or its negation. *)
Definition rank (m : SelectionMetric) (w : StudyWindowResult) : Q :=
  let value := metric_value (StudyWindowResult.summary w) m in
  val match m with MAXIMUM_DRAWDOWN_FRACTION => value | _ => neg value end.

Lemma key_before_le a b : key_before a b = true → (val a.1 <= val b.1)%Q.
Proof.
  unfold key_before. rewrite orb_true_iff, andb_true_iff, dltb_lt, deqb_eq. intros [Hlt|[Heq _]]; [by apply Qlt_le_weak|].
  rewrite Heq. apply Qle_refl.
Qed.

Lemma key_before_ge a b : key_before a b = false → (val b.1 <= val a.1)%Q.
Proof. unfold key_before. rewrite orb_false_iff, dltb_ge. tauto. Qed.

Lemma least_by_spec {A} (key : A → decimal * string) first rest :
  let best := least_by key_before key first rest in
  best ∈ first :: rest ∧ ∀ x, x ∈ first :: rest → (val (key best).1 <= val (key x).1)%Q.
Proof.
  cbn zeta. unfold least_by. revert first. induction rest as [|y rest IH]; intros first; cbn [fold_left].
  { split; [by left|]. intros x ->%list_elem_of_singleton. apply Qle_refl. }
  set (best := if key_before (key y) (key first) then y else first). destruct (IH best) as [Hin Hmin]. split.
  - apply elem_of_cons in Hin as [->|Hin]; [|by do 2 right]. unfold best. destruct (key_before _ _); [by right; left|by left].
  - assert ((val (key best).1 <= val (key first).1)%Q ∧ (val (key best).1 <= val (key y).1)%Q) as [Hfirst Hy].
    { unfold best. destruct (key_before (key y) (key first)) eqn:Hk.
      - split; [by apply key_before_le|apply Qle_refl].
      - split; [apply Qle_refl|by apply key_before_ge]. }
    pose proof (Hmin best ltac:(by left)) as Hb.
    intros x [->|[->|Hx]%elem_of_cons]%elem_of_cons; [by eapply Qle_trans|by eapply Qle_trans|]. apply Hmin. by right.
Qed.

Definition in_sample_of (fold : Z) (ws : list StudyWindowResult) : list StudyWindowResult :=
  List.filter (λ w, in_fold fold w && is_role WindowRole.IN_SAMPLE w) ws.

Lemma elem_of_in_sample fold ws w : w ∈ in_sample_of fold ws ↔
  w ∈ ws ∧ StudyWindowResult.fold_index w = fold ∧ StudyWindowResult.role w = WindowRole.IN_SAMPLE.
Proof.
  unfold in_sample_of, in_fold, is_role. rewrite !list_elem_of_In, filter_In, andb_true_iff, Z.eqb_eq, bool_decide_eq_true. tauto.
Qed.

Lemma select_best m ws winner : select_candidate_fingerprint (scores m ws) m = Ok winner →
  ∃ u, u ∈ ws ∧ StudyWindowResult.strategy_fingerprint u = winner ∧ ∀ v, v ∈ ws → (rank m u <= rank m v)%Q.
Proof.
  destruct ws as [|w ws]; [done|]. intros H.
  set (f := λ w, (StudyWindowResult.strategy_fingerprint w, metric_value (StudyWindowResult.summary w) m)).
  assert ((least_by key_before (selection_key m) (f w) (f <$> ws)).1 = winner) as Hwin by by injection H.
  destruct (least_by_spec (selection_key m) (f w) (f <$> ws)) as [Hin Hmin].
  change (f w :: (f <$> ws)) with (f <$> (w :: ws)) in Hin, Hmin. set (best := least_by _ _ _ _) in *. clearbody best.
  apply list_elem_of_fmap in Hin as (u & -> & Hin). exists u. split; [done|]. split; [exact Hwin|].
  intros v Hv. assert (f v ∈ f <$> (w :: ws)) as Hfv by (apply list_elem_of_fmap; by exists v).
  specialize (Hmin (f v) Hfv). unfold rank. unfold selection_key, f in Hmin. by destruct m.
Qed.

(** The winner of each fold is chosen from its training windows. *)
Lemma fold_winner r ws selected : _wfo_selected_by_fold r ws = Ok selected → ∀ fold winner, dict_get fold selected = Some winner →
  select_candidate_fingerprint (scores (selection_metric r) (in_sample_of fold ws)) (selection_metric r) = Ok winner.
Proof.
  unfold _wfo_selected_by_fold. apply (foldM_ind _ (λ sel, ∀ fold winner, dict_get fold sel = Some winner →
    select_candidate_fingerprint (scores (selection_metric r) (in_sample_of fold ws)) (selection_metric r) = Ok winner)); [done|].
  intros sel x t _ Hsel Ht fold winner. apply bind_Ok in Ht as (y & Hy & [= <-]). destruct (decide (fold = x)) as [->|Hne].
  - rewrite dict_get_set. by intros [= <-].
  - rewrite dict_get_set_ne by done. apply Hsel.
Qed.

(** Two lists of children that differ at most in the results of windows outside the sample. *)
Definition same_training (v w : StudyWindowResult) : Prop :=
  StudyWindowResult.role v = StudyWindowResult.role w ∧ StudyWindowResult.fold_index v = StudyWindowResult.fold_index w ∧
  StudyWindowResult.strategy_fingerprint v = StudyWindowResult.strategy_fingerprint w ∧
  (StudyWindowResult.role v = WindowRole.IN_SAMPLE → StudyWindowResult.summary v = StudyWindowResult.summary w).

Lemma same_training_scores m fold ws ws' : Forall2 same_training ws ws' →
  scores m (in_sample_of fold ws) = scores m (in_sample_of fold ws').
Proof.
  induction 1 as [|v w ws ws' (Hr & Hf & Hs & Hsum) _ IH]; [done|]. unfold in_sample_of, in_fold, is_role in *. cbn.
  rewrite <- Hr, <- Hf. case_bool_decide as Hrole; rewrite ?andb_false_r, ?andb_true_r; [|exact IH].
  destruct (_ =? fold); [|exact IH]. cbn. rewrite Hs, (Hsum Hrole). unfold scores in *. cbn in IH. by rewrite IH.
Qed.

Lemma foldM_ext {A S'} (f g : S' → A → result S') s l : (∀ s x, f s x = g s x) → foldM f s l = foldM g s l.
Proof. intros Hfg. revert s. induction l as [|x l IH]; intros s; [done|]. cbn. rewrite Hfg. destruct (g s x); cbn; [apply IH|done]. Qed.

Lemma same_training_selected r ws ws' : Forall2 same_training ws ws' → _wfo_selected_by_fold r ws = _wfo_selected_by_fold r ws'.
Proof.
  intros H. unfold _wfo_selected_by_fold. assert (StudyWindowResult.fold_index <$> ws = StudyWindowResult.fold_index <$> ws') as ->.
  { induction H as [|v w ws ws' (_ & Hf & _) _ IH]; [done|]. cbn. by rewrite Hf, IH. }
  apply foldM_ext. intros sel fold. pose proof (same_training_scores (selection_metric r) fold ws ws' H) as Hs.
  unfold in_sample_of in Hs. by rewrite Hs.
Qed.

(** C26: A walk-forward optimization selects on training results alone. If its children are
    replaced by others with the same folds, roles and candidates that agree on every training
    result, whatever they show out of sample, the same children are selected; and a selected
    child is of a candidate that trained at least as well in its fold as every other. *)
Theorem selection_ignores_out_of_sample r ws ws' out : kind r = StudyKind.WALK_FORWARD_OPTIMIZATION →
  Forall2 same_training ws ws' → _annotate_selections r ws = Ok out →
  (∃ out', _annotate_selections r ws' = Ok out' ∧ StudyWindowResult.selected <$> out' = StudyWindowResult.selected <$> out) ∧
  ∀ w, w ∈ out → StudyWindowResult.selected w = true →
    ∃ u, u ∈ ws ∧ StudyWindowResult.role u = WindowRole.IN_SAMPLE ∧
      StudyWindowResult.fold_index u = StudyWindowResult.fold_index w ∧
      StudyWindowResult.strategy_fingerprint u = StudyWindowResult.strategy_fingerprint w ∧
      ∀ v, v ∈ ws → StudyWindowResult.role v = WindowRole.IN_SAMPLE →
        StudyWindowResult.fold_index v = StudyWindowResult.fold_index w → (rank (selection_metric r) u <= rank (selection_metric r) v)%Q.
Proof.
  intros Hk Hsame. unfold _annotate_selections. rewrite Hk, <- (same_training_selected r ws ws' Hsame).
  intros (selected & Hsel & [= <-])%bind_Ok. rewrite Hsel. split.
  - eexists. split; [done|]. clear Hsel. induction Hsame as [|v w vs ws' (_ & Hf & Hs & _) _ IH]; [done|]. cbn. by rewrite Hf, Hs, IH.
  - intros w (x & <- & Hx)%list_elem_of_In%in_map_iff. cbn. rewrite bool_decide_eq_true. intros Hwin.
    destruct (select_best _ _ _ (fold_winner r ws selected Hsel _ _ Hwin)) as (u & Hu & Hfp & Hbest).
    apply elem_of_in_sample in Hu as (Hu & Hfold & Hrole). exists u. repeat split; try done.
    intros v Hv Hr Hvf. apply Hbest, elem_of_in_sample. done.
Qed.
End Selection.

(** ** A worked study *)

Definition demo_hours (n : Z) : datetime := n * duration ONE_HOUR.

Definition demo_study (k : StudyKind) : ResearchStudyRequest := {|
  kind := k; study_start := 0; study_end := demo_hours 30; study_strategy_fingerprint := Some "s1";
  study_datasets := Some {| bound_dataset := "d1"; bound_htf_dataset := None; bound_indicator_datasets := [];
                            bound_reference_datasets := [] |};
  oos_fraction := None; embargo_bars := 1; in_sample_bars := Some 10; out_of_sample_bars := Some 5; step_bars := Some 6;
  fold_mode := ROLLING; markets := None; candidate_strategy_fingerprints := []; parameter_axes := [];
  selection_metric := TOTAL_NET_PNL |}.

Definition demo_publications : Publications := {["s1" := demo_strategy]}.

Definition demo_plan : result ResearchStudyPlan :=
  plan_study (dc := default_context) (demo_study StudyKind.WALK_FORWARD) demo_publications (λ _, Ok []) ASYNC_STUDY_BUDGET.

Lemma walk_forward_schedule_witness : ∃ plan, demo_plan = Ok plan ∧ length (plan_windows plan) = 6%nat ∧
  ∀ train test, train ∈ plan_windows plan → test ∈ plan_windows plan →
    PlannedStudyWindow.fold_index train = PlannedStudyWindow.fold_index test →
    role_of train = WindowRole.IN_SAMPLE → role_of test = WindowRole.OUT_OF_SAMPLE →
    PlannedStudyWindow.evaluation_end train < PlannedStudyWindow.evaluation_start test.
Proof.
  destruct demo_plan as [plan|] eqn:Hplan; [|vm_compute in Hplan; discriminate Hplan]. exists plan. split; [reflexivity|]. split.
  - vm_compute in Hplan. injection Hplan as <-. reflexivity.
  - destruct (walk_forward_schedule (dc := default_context) (demo_study StudyKind.WALK_FORWARD) demo_publications (λ _, Ok [])
      ASYNC_STUDY_BUDGET plan) as (i & s & o & p & n & _ & _ & _ & _ & _ & _ & _ & _ & Hgap & _);
      [vm_compute; reflexivity|by left|exact Hplan|].
    intros train test Htrain Htest Hfold Hr1 Hr2. rewrite <- (Hgap train test Htrain Htest Hfold Hr1 Hr2). cbn.
    assert (0 < duration i) by (destruct i; reflexivity). lia.
Defined.

Definition demo_summary (pnl : Z) : BacktestSummary := {|
  initial_equity := of_Z 1000; final_equity := of_Z (1000 + pnl); total_net_pnl := of_Z pnl;
  total_return_fraction := Dec pnl (-3); gross_profit := of_Z pnl; gross_loss := d0; win_rate := d1; profit_factor := None;
  average_win := None; average_loss := None; trade_count := 1; winning_trade_count := 1; maximum_drawdown := d0;
  maximum_drawdown_fraction := d0; exposure_bars := 1; KernelRun.evaluation_bars := 10; total_spread_cost := None;
  validity_limits := []; total_funding := None |}.

Definition demo_child (role : WindowRole) (candidate : string) (pnl : Z) : StudyWindowResult := {|
  StudyWindowResult.role := role; StudyWindowResult.fold_index := 0; StudyWindowResult.strategy_fingerprint := candidate;
  StudyWindowResult.result_fingerprint := ""; StudyWindowResult.evaluation_start := 0;
  StudyWindowResult.evaluation_end := demo_hours 10; StudyWindowResult.summary := demo_summary pnl;
  StudyWindowResult.selected := false |}.

(** The candidate that trains best tests worst. *)
Definition demo_children (tested : Z) : list StudyWindowResult :=
  [demo_child WindowRole.IN_SAMPLE "a" 5; demo_child WindowRole.IN_SAMPLE "b" 9;
   demo_child WindowRole.OUT_OF_SAMPLE "a" 7; demo_child WindowRole.OUT_OF_SAMPLE "b" tested].

Definition demo_selected (tested : Z) : result (list StudyWindowResult) :=
  _annotate_selections (dc := default_context) (demo_study StudyKind.WALK_FORWARD_OPTIMIZATION) (demo_children tested).

Lemma selection_ignores_out_of_sample_witness : ∃ out, demo_selected 3 = Ok out ∧
  StudyWindowResult.selected <$> out = [false; true; false; true] ∧
  ∃ out', demo_selected (-8) = Ok out' ∧ StudyWindowResult.selected <$> out' = StudyWindowResult.selected <$> out.
Proof.
  destruct (demo_selected 3) as [out|] eqn:Hout; [|vm_compute in Hout; discriminate Hout]. exists out. split; [reflexivity|].
  split; [vm_compute in Hout; injection Hout as <-; reflexivity|].
  exact (proj1 (selection_ignores_out_of_sample (dc := default_context) (demo_study StudyKind.WALK_FORWARD_OPTIMIZATION)
    (demo_children 3) (demo_children (-8)) out eq_refl
    ltac:(unfold demo_children; repeat constructor; cbn; intros Hr; discriminate Hr) Hout)).
Defined.
