(* ===== verification/Reports.v ===== *)
(** * Reports: figures derived from finished runs

    [backtest/cost_attribution.py] and [benchmark.py], and [portfolios/combine.py]: one account of
    a portfolio from the runs of its sleeves, on the union of their bar closes.

    Amounts are decimals in canonical form where the code keeps their texts; fingerprints,
    disclosures and the ratio metrics of a curve, which need a power with a fractional exponent,
    are left out. *)

From S2P Require Import Prelude Decimals DecimalFacts DecimalText DecimalFunctions Market Geometry Strategy.
From S2P Require Import Broker Containers TradingModels FillLedger RiskModels KernelState KernelRun PortfolioFacts.

From S2P Require Series.

Open Scope Z_scope.

(** ** Cost attribution ([cost_attribution.py]) *)

Record BacktestCostAttribution := {
  attributed_trades : Z;
  fill_price_pnl_before_fees : decimal;
  entry_fees : decimal;
  exit_fees : decimal;
  attributed_net_pnl : decimal;
  accounting_residual : decimal;
  summary_net_pnl_delta : decimal
}.

(** [value.adjusted()] *)
Definition adjusted (d : decimal) : Z := exponent d + digits (coef d) - 1.

(** Enough digits for any sum of the values. *)
Definition attribution_precision (first : decimal) (rest : list decimal) : Z :=
  fold_left (λ m v, Z.max m (adjusted v)) rest (adjusted first)
  - fold_left (λ m v, Z.min m (exponent v)) rest (exponent first)
  + digits (Z.of_nat (length (first :: rest))) + 3.

Definition TEXT_TOO_LONG : error := ValueError "String should have at most 12500 characters".

(** A field of the attribution: canonical, and at most 12500 characters. *)
Definition attribution_amount (d : decimal) : result decimal :=
  if (length (canonical_decimal d) <=? 12500)%nat then Ok (canon d) else Raise TEXT_TOO_LONG.

(** [sum(values, start=Decimal(0))] where rounding is trapped. *)
Definition exact_total {dc : DecimalContext} (values : list decimal) : result decimal := foldM exact_add d0 values.

(** [require_valid_evidence] *)
Definition attribution (trades : Z) (gross entry exit net residual delta : decimal) : result BacktestCostAttribution :=
  gross ← attribution_amount gross;
  entry ← attribution_amount entry;
  exit ← attribution_amount exit;
  net ← attribution_amount net;
  residual ← attribution_amount residual;
  delta ← attribution_amount delta;
  _ ← guard_or (negb ((entry <? d0) || (exit <? d0))%dec) (ValueError "attribution fees cannot be negative");
  Ok {| attributed_trades := trades; fill_price_pnl_before_fees := gross; entry_fees := entry; exit_fees := exit;
        attributed_net_pnl := net; accounting_residual := residual; summary_net_pnl_delta := delta |}.

Definition trade_amounts (r : BacktestResult) : list decimal :=
  (gross_pnl <$> trades r) ++ ((λ t, fill_fee (trade_entry t)) <$> trades r)
  ++ ((λ t, fill_fee (exit_fill (trade_exit t))) <$> trades r) ++ (net_pnl <$> trades r).

Definition attribute_in (dc : DecimalContext) (r : BacktestResult) : result BacktestCostAttribution :=
  gross ← exact_total (gross_pnl <$> trades r);
  entry ← exact_total ((λ t, fill_fee (trade_entry t)) <$> trades r);
  exit ← exact_total ((λ t, fill_fee (exit_fill (trade_exit t))) <$> trades r);
  net ← exact_total (net_pnl <$> trades r);
  difference ← exact_sub net gross;
  with_entry ← exact_add difference entry;
  residual ← exact_add with_entry exit;
  delta ← exact_sub (total_net_pnl (summary r)) net;
  attribution (Z.of_nat (length (trades r))) gross entry exit net residual delta.

Definition compute_cost_attribution (r : BacktestResult) : result BacktestCostAttribution :=
  let p := attribution_precision (total_net_pnl (summary r)) (trade_amounts r) in
  match decide (0 < p) with
  | left Hp => attribute_in {| prec := p; prec_pos := Hp |} r
  | right _ => Raise (ValueError "valid range for prec is [1, MAX_PREC]")
  end.

(** ** Buy and hold ([benchmark.py]) *)

Record BacktestBenchmark := {
  benchmark_entry_at : datetime;
  benchmark_exit_at : datetime;
  benchmark_entry_price : decimal;
  benchmark_exit_price : decimal;
  benchmark_initial_equity : decimal;
  benchmark_final_equity : decimal;
  benchmark_net_pnl : decimal;
  benchmark_return : decimal;
  benchmark_fees : decimal;
  benchmark_spread_cost : option decimal;
  benchmark_drawdown : decimal;
  benchmark_drawdown_fraction : decimal;
  benchmark_bars : Z
}.

Definition BENCHMARK_COVERAGE : error := ValueError "Benchmark candle coverage is incomplete or duplicated.".
Definition BENCHMARK_BARS : error := ValueError "Benchmark candles are not valid contiguous OHLC bars.".

Section Curves.
Context {dc : DecimalContext}.

Definition _selected_candles (s : ResearchRunSpecification) (candles : list Candle) (bar : timedelta) : result (list Candle) :=
  let starts := evaluation_starts_at s in
  let ends := evaluation_ends_at s in
  let selected := List.filter (λ c, (starts <=? starts_at c) && (starts_at c <=? ends)) candles in
  _ ← guard_or (Z.of_nat (length selected) =? Z.quot (ends - starts) bar + 1) BENCHMARK_COVERAGE;
  _ ← guard_or (bool_decide (NoDup (starts_at <$> selected))) BENCHMARK_COVERAGE;
  _ ← foldM (λ offset c,
        _ ← validate_candle_values c;
        _ ← guard_or (negb (negb (starts_at c =? starts + bar * offset)
              || ((open c <=? d0) || (close c <=? d0) || (high c <? low c) || (high c <? dmax (open c) (close c))
                  || (dmin (open c) (close c) <? low c))%dec)) BENCHMARK_BARS;
        Ok (offset + 1)) 0 selected;
  Ok selected.

(** [_drawdown] *)
Definition benchmark_drawdowns (equities : list decimal) : result (decimal * decimal) :=
  match equities with
  | [] => Raise IndexError
  | first :: _ =>
      '(_, largest, fraction) ← foldM (λ acc equity,
          let '(peak, largest, fraction) := acc in
          let peak := dmax peak equity in
          let fall := (peak - equity)%dec in
          share ← div fall peak;
          Ok (peak, dmax largest fall, dmax fraction share)) (first, d0, d0) equities;
      Ok (largest, fraction)
  end.

Definition buy_and_hold (s : ResearchRunSpecification) (candles : list Candle) : result BacktestBenchmark :=
  interval ← specification_bar_interval s;
  let bar := duration interval in
  selected ← _selected_candles s candles bar;
  let bars := Z.quot (evaluation_ends_at s - evaluation_starts_at s) bar in
  let evaluation := firstn (Z.to_nat bars) selected in
  match evaluation, selected !! Z.to_nat bars with
  | first :: _, Some terminal =>
      let m := {| model_spread_bps := spec_spread_bps s |} in
      let taker := spec_taker_fee_rate s in
      let cash := initial_quote_balance s in
      bought ← taker_buy m (open first) (spec_slippage_bps s);
      notional ← div cash (d1 + taker)%dec;
      let entry_fee := (notional * taker)%dec in
      quantity ← div notional (price bought);
      sold ← taker_sell m (open terminal) (spec_slippage_bps s);
      let exit_notional := (quantity * price sold)%dec in
      let exit_fee := (exit_notional * taker)%dec in
      let final := (exit_notional - exit_fee)%dec in
      marks ← result_mapM (λ c, b ← bid m (close c); Ok (quantity * b)%dec) evaluation;
      '(largest, fraction) ← benchmark_drawdowns (cash :: marks ++ [final]);
      returned ← div (final - cash)%dec cash;
      Ok {| benchmark_entry_at := starts_at first; benchmark_exit_at := starts_at terminal;
            benchmark_entry_price := canon (price bought); benchmark_exit_price := canon (price sold);
            benchmark_initial_equity := canon cash; benchmark_final_equity := canon final;
            benchmark_net_pnl := canon (final - cash)%dec; benchmark_return := canon returned;
            benchmark_fees := canon (entry_fee + exit_fee)%dec;
            benchmark_spread_cost := if spread_stressed m then Some (canon ((spread_cost bought + spread_cost sold) * quantity)%dec) else None;
            benchmark_drawdown := canon largest; benchmark_drawdown_fraction := canon fraction; benchmark_bars := bars |}
  | _, _ => Raise IndexError
  end.
End Curves.

(** [calculate_buy_and_hold_benchmark], on inputs whose identities match: under the simulation's
    context, any failure of the computation is reported as the benchmark's. *)
Definition calculate_buy_and_hold_benchmark (s : ResearchRunSpecification) (candles : list Candle) : result BacktestBenchmark :=
  match buy_and_hold (dc := simulation_context) s candles with
  | Ok b => Ok b
  | Raise (CandleQualityError _) => Raise (ValueError "Benchmark candles contain invalid OHLCV values.")
  | Raise e =>
      if bool_decide (e ∈ [BENCHMARK_COVERAGE; BENCHMARK_BARS]) then Raise e
      else Raise (ValueError "Benchmark arithmetic or coverage validation failed.")
  end.

(** ** One account of a portfolio ([portfolios/combine.py]) *)

Record PlannedSleeve := {
  planned_sleeve_id : UUID;
  planned_strategy_fingerprint : string;
  planned_product_id : string;
  planned_covered_products : list string;
  planned_timeframe : string;
  planned_capital : decimal;
  planned_dataset : string
}.

Record PortfolioBacktestPlan := {
  plan_capital : decimal;
  plan_start : datetime;
  plan_end : datetime;
  plan_taker_fee_rate : decimal;
  plan_slippage_bps : decimal;
  plan_spread_bps : decimal;
  plan_sleeves : list PlannedSleeve
}.

(** [run_strategy_fingerprint] is the result's own, which [BacktestResult] leaves out. *)
Record SleeveRun := { run_planned : PlannedSleeve; run_strategy_fingerprint : string; run_result : BacktestResult }.

Record BasketSource := { source_product : string; source_dataset : string; source_timeframe : string }.
Record BasketInput := { basket_source : BasketSource; basket_candles : list Candle }.

Record SleeveMark := { mark_equity : decimal; mark_cash : decimal; mark_base : decimal }.

Record _Window := { window_start : datetime; window_end : datetime; grid : list datetime; durations : list decimal; total_seconds : decimal }.

Definition MISMATCH {A} : result A := Raise PortfolioCombinationError.
Definition required (b : bool) : result unit := guard_or b PortfolioCombinationError.

Definition _bar (clock : string) : result timedelta := i ← parse_candle_interval clock; Ok (duration i).

(** Whole seconds, as the code's [int(total_seconds())]. *)
Definition seconds_of (span : timedelta) : Z := Z.quot span 1000000.

Section Combine.
Context {dc : DecimalContext}.

(** [zip(plan.sleeves, runs, strict=True)], checked run by run. *)
Definition run_matches (plan : PortfolioBacktestPlan) (r : SleeveRun) : bool :=
  match equity_curve (run_result r), last (equity_curve (run_result r)) with
  | first :: _, Some final =>
      bool_decide (run_strategy_fingerprint r = planned_strategy_fingerprint (run_planned r))
      && (point_starts_at first =? plan_start plan) && (point_starts_at final =? plan_end plan)
      && (initial_equity (summary (run_result r)) =? planned_capital (run_planned r))%dec
  | _, _ => false
  end.

#[global] Instance PlannedSleeve_eq_dec : EqDecision PlannedSleeve. Proof. solve_decision. Defined.

Definition _require_runs_match_plan (plan : PortfolioBacktestPlan) (runs : list SleeveRun) : result unit :=
  _ ← required (bool_decide (run_planned <$> runs = plan_sleeves plan));
  required (forallb (run_matches plan) runs).

(** The marks of a child by their instants, in order; a later point at an instant replaces an
    earlier one. *)
Definition sleeve_marks (r : SleeveRun) (starts ends : datetime) : result (list (datetime * SleeveMark)) :=
  bar ← _bar (planned_timeframe (run_planned r));
  marks ← foldM (λ marks point,
      _ ← required (negb (point_starts_at point <? starts));
      let instant := if ends <=? point_starts_at point then ends else point_starts_at point + bar in
      Ok (dict_set instant {| mark_equity := equity point; mark_cash := point_cash point; mark_base := base_quantity point |} marks))
    [] (equity_curve (run_result r));
  Ok (Containers.sort_by (λ a b : datetime * SleeveMark, a.1 <=? b.1) marks).

Definition _initial_mark (r : SleeveRun) : SleeveMark :=
  {| mark_equity := planned_capital (run_planned r); mark_cash := planned_capital (run_planned r); mark_base := d0 |}.

Fixpoint pairwise {A} (xs : list A) : list (A * A) :=
  match xs with
  | x :: ((y :: _) as rest) => (x, y) :: pairwise rest
  | _ => []
  end.

Definition _window (starts ends : datetime) (series : list (list (datetime * SleeveMark))) : result _Window :=
  let grid := Containers.sort_by Z.leb (remove_dups (starts :: (concat series).*1)) in
  _ ← required (bool_decide (last grid = Some ends) && (2 <=? length grid)%nat);
  Ok {| window_start := starts; window_end := ends; grid := grid;
        durations := (λ p : datetime * datetime, of_Z (seconds_of (p.2 - p.1))) <$> pairwise grid;
        total_seconds := of_Z (seconds_of (ends - starts)) |}.

(** [while position < len(marks) and marks[position][0] <= instant] *)
Fixpoint advance_marks (instant : datetime) (current : SleeveMark) (marks : list (datetime * SleeveMark))
    : SleeveMark * list (datetime * SleeveMark) :=
  match marks with
  | (at_, m) :: rest => if at_ <=? instant then advance_marks instant m rest else (current, marks)
  | [] => (current, [])
  end.

Fixpoint forward_fill (grid : list datetime) (marks : list (datetime * SleeveMark)) (current : SleeveMark) : list SleeveMark :=
  match grid with
  | [] => []
  | instant :: grid => let '(current, marks) := advance_marks instant current marks in current :: forward_fill grid marks current
  end.

Definition drawdown (values : list decimal) (initial : decimal) : result (decimal * decimal) :=
  '(_, largest, fraction) ← foldM (λ acc value,
      let '(peak, largest, fraction) := acc in
      let peak := dmax peak value in
      let fall := (peak - value)%dec in
      let largest := dmax largest fall in
      if (d0 <? peak)%dec then share ← div fall peak; Ok (peak, largest, dmax fraction share)
      else Ok (peak, largest, fraction)) (initial, d0, d0) values;
  Ok (largest, fraction).

(** [marks[index] for marks in filled] *)
Definition column (filled : list (list SleeveMark)) (index : nat) : result (list SleeveMark) :=
  result_mapM (λ marks : list SleeveMark, match marks !! index with Some m => Ok m | None => Raise IndexError end) filled.

Definition position_value (m : SleeveMark) : decimal := abs_ (mark_equity m - mark_cash m)%dec.

(** The combined equity at each instant of the grid. *)
Definition combined_equity (cash : decimal) (filled : list (list SleeveMark)) (count : nat) : result (list decimal) :=
  result_mapM (λ index, marks ← column filled index; Ok (cash + dsum (mark_equity <$> marks))%dec) (seq 0 count).

Definition idle_fraction (w : _Window) (filled : list (list SleeveMark)) (combined : list decimal) : result decimal :=
  weighted ← foldM (λ weighted '(index, duration),
      match combined !! index with
      | None => Raise IndexError
      | Some value =>
          if (value <=? d0)%dec then Ok weighted
          else
            marks ← column filled index;
            share ← div (dmax d0 (value - dsum (position_value <$> marks))%dec) value;
            Ok (weighted + share * duration)%dec
      end) d0 (imap (λ i d, (i, d)) (durations w));
  div weighted (total_seconds w).

(** *** Correlations *)

Definition pearson (left right : list decimal) : result (option decimal) :=
  let count := Z.of_nat (length left) in
  if negb (length left =? length right)%nat || (count <? 3) then Ok None
  else
    left_mean ← div (dsum left) (of_Z count);
    right_mean ← div (dsum right) (of_Z count);
    let '(covariance, left_square, right_square) :=
      fold_left (λ acc xy,
          let '(covariance, left_square, right_square) := acc in
          let x := (xy.1 - left_mean)%dec in
          let y := (xy.2 - right_mean)%dec in
          (covariance + x * y, left_square + x * x, right_square + y * y)%dec)
        (zip left right) (d0, d0, d0) in
    if (left_square =? d0)%dec || (right_square =? d0)%dec then Ok None
    else
      root ← sqrt (left_square * right_square)%dec;
      coefficient ← div covariance root;
      Ok (Some (dmin d1 (dmax (of_Z (-1)) coefficient))).

Definition _returns (values : list decimal) : result (list decimal) :=
  result_mapM (λ p : decimal * decimal, if (p.1 =? d0)%dec then Ok d0 else q ← div p.2 p.1; Ok (q - d1)%dec) (pairwise values).

(** The position of an instant on the grid. *)
Fixpoint grid_position (grid : list datetime) (instant : datetime) : option nat :=
  match grid with
  | [] => None
  | t :: grid => if t =? instant then Some O else S <$> grid_position grid instant
  end.

(** [while instant <= window.end], one turn per step of the clock. *)
Fixpoint sample_loop (w : _Window) (step : timedelta) (turns : nat) (instant : datetime) : result (list nat) :=
  match turns with
  | O => Ok []
  | S turns =>
      if window_end w <? instant then Ok []
      else
        match grid_position (grid w) instant with
        | None => MISMATCH
        | Some index => rest ← sample_loop w step turns (instant + step); Ok (index :: rest)
        end
  end.

Definition _sample_indexes (w : _Window) (clock_seconds : Z) : result (list nat) :=
  let step := clock_seconds * 1000000 in
  indexes ← sample_loop w step (S (Z.to_nat ((window_end w - window_start w) / step))) (window_start w);
  let final := (length (grid w) - 1)%nat in
  Ok (if bool_decide (last indexes = Some final) then indexes else indexes ++ [final]).

Definition _correlation_to_rest (filled : list (list SleeveMark)) (samples : list nat) (returns : list (list decimal)) (index : nat)
    : result (option decimal) :=
  if (length filled <? 2)%nat then Ok None
  else
    rest ← result_mapM (λ sample, marks ← column (delete index filled) sample; Ok (dsum (mark_equity <$> marks))) samples;
    others ← _returns rest;
    match returns !! index with Some own => pearson own others | None => Raise IndexError end.

(** [combinations(xs, 2)] *)
Fixpoint combinations {A} (xs : list A) : list (A * A) :=
  match xs with [] => [] | x :: xs => map (pair x) xs ++ combinations xs end.

Record PortfolioCorrelation := {
  return_clock_seconds : Z;
  observations : Z;
  correlation_pairs : list (UUID * UUID * option decimal)
}.

Definition sleeve_seconds (s : PlannedSleeve) : result Z := bar ← _bar (planned_timeframe s); Ok (seconds_of bar).

Definition sampled_returns (samples : list nat) (marks : list SleeveMark) : result (list decimal) :=
  values ← result_mapM (λ i : nat, match marks !! i with Some m => Ok (mark_equity m) | None => Raise IndexError end) samples;
  _returns values.

Definition pair_correlation (p : (UUID * list decimal) * (UUID * list decimal)) : result (UUID * UUID * option decimal) :=
  c ← pearson p.1.2 p.2.2; Ok (p.1.1, p.2.1, option_map canon c).

Definition correlations (w : _Window) (filled : list (list SleeveMark)) (sleeves : list PlannedSleeve)
    : result (PortfolioCorrelation * list (option decimal)) :=
  bars ← result_mapM sleeve_seconds sleeves;
  let clock := fold_left Z.lcm bars 1 in
  samples ← _sample_indexes w clock;
  returns ← result_mapM (sampled_returns samples) filled;
  pairs ← result_mapM pair_correlation (combinations (zip (planned_sleeve_id <$> sleeves) returns));
  to_rest ← result_mapM (_correlation_to_rest filled samples returns) (seq 0 (length sleeves));
  Ok ({| return_clock_seconds := clock; observations := Z.max 0 (Z.of_nat (length samples) - 1); correlation_pairs := pairs |}, to_rest).

(** *** Overlap *)

Record PortfolioOverlap := {
  same_asset_fraction : decimal;
  long_together_fraction : decimal;
  overlap_pairs : list (UUID * UUID * string * decimal);
  excluded_sleeve_ids : list UUID
}.

Definition _single_product (s : PlannedSleeve) : bool := (length (planned_covered_products s) =? 1)%nat.

(** A single-product sleeve: its index, identifier and asset. *)
Record SingleSleeve := { single_index : nat; single_id : UUID; single_asset : string }.

Record _LongTimes := {
  long_times : list (SingleSleeve * decimal);
  pair_times : list (SingleSleeve * SingleSleeve * decimal);
  same_time : decimal;
  together_time : decimal
}.

Definition was_long (longs : list nat) (s : SingleSleeve) : bool := bool_decide (single_index s ∈ longs).

Definition _accumulate_long_time (t : _LongTimes) (longs : list nat) (duration : decimal) : _LongTimes :=
  let assets := single_asset <$> List.filter (was_long longs) (long_times t).*1 in
  {| long_times := (λ e, if was_long longs e.1 then (e.1, e.2 + duration)%dec else e) <$> long_times t;
     pair_times := (λ e, if was_long longs e.1.1 && was_long longs e.1.2 then (e.1, e.2 + duration)%dec else e) <$> pair_times t;
     same_time := if negb (bool_decide (NoDup assets)) then (same_time t + duration)%dec else same_time t;
     together_time := if (2 <=? length longs)%nat then (together_time t + duration)%dec else together_time t |}.

Definition single_sleeve (s : nat * PlannedSleeve) : result SingleSleeve :=
  asset ← base_currency (planned_product_id s.2); Ok {| single_index := s.1; single_id := planned_sleeve_id s.2; single_asset := asset |}.

Definition longs_at (filled : list (list SleeveMark)) (singles : list SingleSleeve) (position : nat) : result (list nat) :=
  marks ← column filled position;
  Ok (single_index <$> List.filter (λ s, match marks !! single_index s with
                                         | Some m => (d0 <? mark_base m)%dec | None => false end) singles).

Definition overlap_step (filled : list (list SleeveMark)) (singles : list SingleSleeve) (t : _LongTimes) (d : nat * decimal)
    : result _LongTimes :=
  longs ← longs_at filled singles d.1; Ok (_accumulate_long_time t longs d.2).

Definition pair_fraction (total : decimal) (e : SingleSleeve * SingleSleeve * decimal) : result (UUID * UUID * string * decimal) :=
  share ← div e.2 total; Ok (single_id e.1.1, single_id e.1.2, single_asset e.1.1, canon share).

Definition long_fraction (t : _LongTimes) (total : decimal) (index : nat) : result (option decimal) :=
  match List.find (λ e : SingleSleeve * decimal, (single_index e.1 =? index)%nat) (long_times t) with
  | Some e => share ← div e.2 total; Ok (Some share)
  | None => Ok None
  end.

Definition overlap_report (w : _Window) (filled : list (list SleeveMark)) (sleeves : list PlannedSleeve)
    : result (PortfolioOverlap * list (option decimal)) :=
  singles ← result_mapM single_sleeve (List.filter (λ s, _single_product s.2) (imap (λ i s, (i, s)) sleeves));
  let shared := List.filter (λ p, bool_decide (single_asset p.1 = single_asset p.2)) (combinations singles) in
  let start := {| long_times := (λ s, (s, d0)) <$> singles; pair_times := (λ p, (p, d0)) <$> shared; same_time := d0; together_time := d0 |} in
  times ← foldM (overlap_step filled singles) start (imap (λ i d, (i, d)) (durations w));
  let total := total_seconds w in
  same ← div (same_time times) total;
  together ← div (together_time times) total;
  pairs ← result_mapM (pair_fraction total) (pair_times times);
  fractions ← result_mapM (long_fraction times total) (seq 0 (length sleeves));
  Ok ({| same_asset_fraction := canon same; long_together_fraction := canon together; overlap_pairs := pairs;
         excluded_sleeve_ids := planned_sleeve_id <$> List.filter (λ s, negb (_single_product s)) sleeves |}, fractions).

(** *** The equal-weight basket *)

Record BasketLeg := {
  leg_source : BasketSource;
  leg_entry_price : decimal;
  leg_exit_price : decimal;
  leg_quantity : decimal;
  leg_return : decimal
}.

Record PortfolioBasketBenchmark := {
  legs : list BasketLeg;
  basket_invested : decimal;
  basket_cash : decimal;
  basket_final_equity : decimal;
  basket_return : decimal;
  basket_drawdown_fraction : decimal;
  basket_fees : decimal
}.

(** Per primary product, the sleeve with the finest clock; the first of equals. *)
Definition choose_source (chosen : dict string PlannedSleeve) (s : PlannedSleeve) : result (dict string PlannedSleeve) :=
  match dict_get (planned_product_id s) chosen with
  | None => Ok (dict_set (planned_product_id s) s chosen)
  | Some current =>
      own ← _bar (planned_timeframe s);
      other ← _bar (planned_timeframe current);
      Ok (if own <? other then dict_set (planned_product_id s) s chosen else chosen)
  end.

Definition source_of (s : PlannedSleeve) : BasketSource :=
  {| source_product := planned_product_id s; source_dataset := planned_dataset s; source_timeframe := planned_timeframe s |}.

Definition basket_sources (plan : PortfolioBacktestPlan) : result (list BasketSource) :=
  chosen ← foldM choose_source [] (plan_sleeves plan);
  Ok (source_of <$> Containers.sort_by (λ a b, String.leb (planned_product_id a) (planned_product_id b)) (dict_values chosen)).

Definition candles_by_start (candles : list Candle) : gmap datetime Candle := index_by_start candles.

Definition _basket_candles (i : BasketInput) (starts ends : datetime) (bar : timedelta) : result (list Candle * Candle) :=
  let by_start := candles_by_start (basket_candles i) in
  let count := Z.quot (ends - starts) bar in
  match by_start !! ends, mapM (λ t, by_start !! t) (expected_starts starts bar count) with
  | Some terminal, Some evaluation => _ ← required (1 <=? count); Ok (evaluation, terminal)
  | _, _ => MISMATCH
  end.

Definition basket_mark (m : FillModel) (quantity : decimal) (bar : timedelta) (c : Candle) : result (datetime * SleeveMark) :=
  b ← bid m (close c); Ok (starts_at c + bar, {| mark_equity := (quantity * b)%dec; mark_cash := d0; mark_base := quantity |}).

Definition _basket_leg (plan : PortfolioBacktestPlan) (i : BasketInput) (w : _Window) (share : decimal)
    : result (BasketLeg * list (datetime * SleeveMark) * decimal) :=
  bar ← _bar (source_timeframe (basket_source i));
  '(evaluation, terminal) ← _basket_candles i (window_start w) (window_end w) bar;
  match evaluation with
  | [] => Raise IndexError
  | first :: _ =>
      let m := {| model_spread_bps := plan_spread_bps plan |} in
      let taker := plan_taker_fee_rate plan in
      bought ← taker_buy m (open first) (plan_slippage_bps plan);
      notional ← div share (d1 + taker)%dec;
      quantity ← div notional (price bought);
      sold ← taker_sell m (open terminal) (plan_slippage_bps plan);
      let exit_notional := (quantity * price sold)%dec in
      let exit_fee := (exit_notional * taker)%dec in
      let final := (exit_notional - exit_fee)%dec in
      marks ← result_mapM (basket_mark m quantity bar) evaluation;
      let marks := fold_left (λ d (e : datetime * SleeveMark), dict_set e.1 e.2 d) marks [] in
      let marks := dict_set (window_end w) {| mark_equity := final; mark_cash := final; mark_base := d0 |} marks in
      returned ← div final share;
      Ok ({| leg_source := basket_source i; leg_entry_price := canon (price bought); leg_exit_price := canon (price sold);
             leg_quantity := canon quantity; leg_return := canon (returned - d1)%dec |},
          Containers.sort_by (λ a b : datetime * SleeveMark, a.1 <=? b.1) marks, (notional * taker + exit_fee)%dec)
  end.

Definition equal_weight_basket (plan : PortfolioBacktestPlan) (inputs : list BasketInput) (w : _Window) (invested cash : decimal)
    : result (PortfolioBasketBenchmark * list decimal) :=
  expected ← basket_sources plan;
  _ ← required (bool_decide ((λ i, source_product (basket_source i)) <$> inputs = source_product <$> expected));
  share ← div invested (of_Z (Z.of_nat (length inputs)));
  priced ← result_mapM (λ i : BasketInput, _basket_leg plan i w share) inputs;
  let initial := {| mark_equity := share; mark_cash := share; mark_base := d0 |} in
  let curves := (λ l : BasketLeg * list (datetime * SleeveMark) * decimal, forward_fill (grid w) l.1.2 initial) <$> priced in
  curve ← combined_equity cash curves (length (grid w));
  let capital := (invested + cash)%dec in
  '(_, fraction) ← drawdown curve capital;
  match last curve with
  | None => Raise IndexError
  | Some final =>
      returned ← div final capital;
      Ok ({| legs := (λ l : BasketLeg * list (datetime * SleeveMark) * decimal, l.1.1) <$> priced;
             basket_invested := canon invested; basket_cash := canon cash; basket_final_equity := canon final;
             basket_return := canon (returned - d1)%dec; basket_drawdown_fraction := canon fraction;
             basket_fees := canon (dsum ((λ l : BasketLeg * list (datetime * SleeveMark) * decimal, l.2) <$> priced)) |}, curve)
  end.

(** *** The combined result *)

Record PortfolioSleeveResult := {
  sleeve_result_id : UUID;
  sleeve_final_equity : decimal;
  contribution_fraction : decimal;
  correlation_to_rest : option decimal;
  sleeve_long_fraction : option decimal
}.

Record PortfolioBacktestSummary := {
  portfolio_initial_equity : decimal;
  portfolio_final_equity : decimal;
  portfolio_net_pnl : decimal;
  portfolio_return : decimal;
  portfolio_drawdown : decimal;
  portfolio_drawdown_fraction : decimal;
  idle_capital_fraction : decimal;
  allocated_fraction : decimal;
  cash_quote : decimal;
  portfolio_trade_count : Z;
  best_sleeve_return : decimal;
  best_sleeve_drawdown : decimal;
  grid_points : nat
}.

Record PortfolioEquityPoint := { point_at : datetime; point_equity : decimal; point_basket_equity : decimal }.

Record PortfolioBacktestResult := {
  result_sleeves : list PortfolioSleeveResult;
  result_summary : PortfolioBacktestSummary;
  result_correlation : PortfolioCorrelation;
  result_overlap : PortfolioOverlap;
  result_basket : PortfolioBasketBenchmark;
  result_curve : list PortfolioEquityPoint
}.

Definition _sleeve_result (capital : decimal) (r : SleeveRun * option decimal * option decimal) : result PortfolioSleeveResult :=
  let s := summary (run_result r.1.1) in
  share ← div (final_equity s - initial_equity s)%dec capital;
  Ok {| sleeve_result_id := planned_sleeve_id (run_planned r.1.1); sleeve_final_equity := final_equity s;
        contribution_fraction := canon share; correlation_to_rest := option_map canon r.1.2;
        sleeve_long_fraction := option_map canon r.2 |}.

(** [max(runs, key=...)]: the first of the greatest. *)
Definition best_run (first : SleeveRun) (rest : list SleeveRun) : SleeveRun :=
  let key r := total_return_fraction (summary (run_result r)) in
  fold_left (λ best r, if (key best <? key r)%dec then r else best) rest first.

Definition _summary (runs : list SleeveRun) (capital invested cash : decimal) (combined : list decimal)
    (largest fraction idle : decimal) : result PortfolioBacktestSummary :=
  match last combined, runs with
  | Some final, first :: rest =>
      let best := summary (run_result (best_run first rest)) in
      returned ← div final capital;
      allocated ← div invested capital;
      Ok {| portfolio_initial_equity := canon capital; portfolio_final_equity := canon final;
            portfolio_net_pnl := canon (final - capital)%dec; portfolio_return := canon (returned - d1)%dec;
            portfolio_drawdown := canon largest; portfolio_drawdown_fraction := canon fraction;
            idle_capital_fraction := canon idle; allocated_fraction := canon allocated; cash_quote := canon cash;
            portfolio_trade_count := fold_left (λ n r, n + trade_count (summary (run_result r))) runs 0;
            best_sleeve_return := total_return_fraction best; best_sleeve_drawdown := maximum_drawdown_fraction best;
            grid_points := length combined |}
  | _, _ => Raise IndexError
  end.

Definition equity_points (grid : list datetime) (combined basket : list decimal) : list PortfolioEquityPoint :=
  zip_with (λ t v, {| point_at := t; point_equity := canon v.1; point_basket_equity := canon v.2 |}) grid (zip combined basket).

Definition _combine (plan : PortfolioBacktestPlan) (runs : list SleeveRun) (basket : list BasketInput) : result PortfolioBacktestResult :=
  _ ← _require_runs_match_plan plan runs;
  series ← result_mapM (λ r, sleeve_marks r (plan_start plan) (plan_end plan)) runs;
  w ← _window (plan_start plan) (plan_end plan) series;
  let filled := zip_with (λ r marks, forward_fill (grid w) marks (_initial_mark r)) runs series in
  let capital := plan_capital plan in
  let invested := dsum ((λ r, planned_capital (run_planned r)) <$> runs) in
  let cash := (capital - invested)%dec in
  combined ← combined_equity cash filled (length (grid w));
  '(largest, fraction) ← drawdown combined capital;
  '(correlation, to_rest) ← correlations w filled (plan_sleeves plan);
  '(overlap, long_fractions) ← overlap_report w filled (plan_sleeves plan);
  '(basket_report, basket_curve) ← equal_weight_basket plan basket w invested cash;
  sleeves ← result_mapM (_sleeve_result capital) (zip (zip runs to_rest) long_fractions);
  idle ← idle_fraction w filled combined;
  s ← _summary runs capital invested cash combined largest fraction idle;
  Ok {| result_sleeves := sleeves; result_summary := s; result_correlation := correlation; result_overlap := overlap;
        result_basket := basket_report; result_curve := equity_points (grid w) combined basket_curve |}.
End Combine.

(** [combine_portfolio]: under the simulation's context; failed arithmetic is reported as a
    combination that failed. *)
Definition combine_portfolio (plan : PortfolioBacktestPlan) (runs : list SleeveRun) (basket : list BasketInput)
    : result PortfolioBacktestResult :=
  match _combine (dc := simulation_context) plan runs basket with
  | Raise (DivisionByZero | InvalidOperation) => Raise PortfolioCombinationError
  | r => r
  end.

(** ** The attribution is exact *)

Section Exact.
Context {dc : DecimalContext} (g : Z) (B : Q) (N : Z) (HB : (0 <= B)%Q) (Hwide : (inject_Z N * B <= p10 (prec - g))%Q).

(** A sum of at most [k] values of the grid, each at most [B]. *)
Definition fits (k : Z) (d : decimal) : Prop := on_grid g (val d) ∧ (Qabs (val d) <= inject_Z k * B)%Q.

Lemma fits_zero : fits 0 d0.
Proof. split; [exists 0; rewrite val_d0; ring|]. rewrite val_d0. change (Qabs 0) with 0%Q. change (inject_Z 0) with 0%Q. lra. Qed.

Lemma fits_opp k d : fits k d → fits k (opp_exact d).
Proof. intros [Hg Hb]. split; [|by rewrite val_opp, Qabs_opp]. destruct Hg as [n Hn]. exists (- n). rewrite val_opp, Hn, inject_Z_opp. ring. Qed.

Lemma exact_add_fits i j a b : fits i a → fits j b → i + j <= N →
  ∃ c, exact_add a b = Ok c ∧ (val c == val a + val b)%Q ∧ fits (i + j) c.
Proof.
  intros [Hga Ha] [Hgb Hb] HN.
  assert (on_grid g (val a + val b)) as Hg by by apply on_grid_plus.
  assert (Qabs (val a + val b) <= inject_Z (i + j) * B)%Q as Hab.
  { pose proof (Qabs_triangle (val a) (val b)). rewrite inject_Z_plus. lra. }
  assert (Qabs (val a + val b) <= p10 (prec - g))%Q as Hfit.
  { etransitivity; [exact Hab|]. etransitivity; [|exact Hwide]. apply Qmult_le_compat_r; [|done]. by rewrite <- Zle_Qle. }
  assert (0 <= prec) as Hprec by (pose proof (@prec_pos dc); lia).
  pose proof (on_grid_representable prec g _ Hprec Hg Hfit) as Hrep.
  pose proof (rounds_exact _ _ (add_rounds a b) Hrep) as Hval.
  exists (a + b)%dec. unfold exact_add, trapped.
  assert (val (exact_sum a b) == val a + val b)%Q as Hexact.
  { unfold exact_sum. rewrite val_Dec, inject_Z_plus, Qmult_plus_distr_l, <- !val_align by lia. done. }
  rewrite (proj2 (deqb_eq _ _)) by by rewrite Hval, Hexact. split; [done|]. split; [done|].
  split; [|by rewrite Hval]. destruct Hg as [n Hn]. exists n. by rewrite Hval.
Qed.

Lemma exact_total_fits vs : Forall (fits 1) vs → ∀ i t, fits i t → i + Z.of_nat (length vs) <= N →
  ∃ c, foldM exact_add t vs = Ok c ∧ (val c == val t + Qsum (map val vs))%Q ∧ fits (i + Z.of_nat (length vs)) c.
Proof.
  induction 1 as [|v vs Hv _ IH]; intros i t Ht HN; cbn [foldM map length] in *.
  { exists t. split; [done|]. split; [change (Qsum []) with 0%Q; set (x := val t); ring|]. by rewrite Z.add_0_r. }
  destruct (exact_add_fits i 1 t v Ht Hv ltac:(lia)) as (c & Hc & Hval & Hfits).
  destruct (IH (i + 1) c Hfits ltac:(lia)) as (d & Hd & Hsum & Hdfits). exists d. unfold mbind, result_bind. rewrite Hc.
  split; [done|]. split.
  - rewrite Hsum, Hval. change (Qsum (val v :: map val vs)) with (val v + Qsum (map val vs))%Q. ring.
  - by replace (i + Z.of_nat (S (length vs))) with (i + 1 + Z.of_nat (length vs)) by lia.
Qed.

Lemma exact_total_exact vs : Forall (fits 1) vs → Z.of_nat (length vs) <= N →
  ∃ c, exact_total vs = Ok c ∧ (val c == Qsum (map val vs))%Q ∧ fits (Z.of_nat (length vs)) c.
Proof.
  intros Hvs HN. destruct (exact_total_fits vs Hvs 0 d0 fits_zero ltac:(lia)) as (c & Hc & Hval & Hfits). exists c.
  split; [done|]. split; [|done]. rewrite Hval, val_d0. ring.
Qed.

Lemma exact_sub_fits i j a b : fits i a → fits j b → i + j <= N →
  ∃ c, exact_sub a b = Ok c ∧ (val c == val a - val b)%Q ∧ fits (i + j) c.
Proof.
  intros Ha Hb HN. destruct (exact_add_fits i j a (opp_exact b) Ha (fits_opp j b Hb) HN) as (c & Hc & Hval & Hfits).
  exists c. split; [exact Hc|]. split; [|done]. rewrite Hval, val_opp. ring.
Qed.
End Exact.

Lemma fold_max_spec {A} (f : A → Z) xs m : m <= fold_left (λ m v, Z.max m (f v)) xs m ∧
  ∀ x, x ∈ xs → f x <= fold_left (λ m v, Z.max m (f v)) xs m.
Proof.
  revert m. induction xs as [|y xs IH]; intros m; cbn; [split; [lia|by intros x ?%not_elem_of_nil]|].
  destruct (IH (Z.max m (f y))) as [Hm Hx]. split; [lia|]. intros x [->|Hin]%elem_of_cons; [lia|by apply Hx].
Qed.

Lemma fold_min_spec {A} (f : A → Z) xs m : fold_left (λ m v, Z.min m (f v)) xs m <= m ∧
  ∀ x, x ∈ xs → fold_left (λ m v, Z.min m (f v)) xs m <= f x.
Proof.
  revert m. induction xs as [|y xs IH]; intros m; cbn; [split; [lia|by intros x ?%not_elem_of_nil]|].
  destruct (IH (Z.min m (f y))) as [Hm Hx]. split; [lia|]. intros x [->|Hin]%elem_of_cons; [lia|by apply Hx].
Qed.

Lemma p10_mono a b : a <= b → (p10 a <= p10 b)%Q.
Proof.
  intros Hab. assert (p10 b == p10 a * inject_Z (10 ^ (b - a)))%Q as ->.
  { rewrite <- (p10_Z (b - a)), <- p10_add by lia. by replace (a + (b - a)) with b by lia. }
  pose proof (p10_pos a). assert (1 <= inject_Z (10 ^ (b - a)))%Q; [|nra].
  change 1%Q with (inject_Z 1). rewrite <- Zle_Qle. pose proof (pow10_pos (b - a) ltac:(lia)). lia.
Qed.

(** A decimal is below the power of ten after its first digit. *)
Lemma val_adjusted d : (Qabs (val d) <= p10 (adjusted d + 1))%Q.
Proof.
  destruct d as [c e]. unfold adjusted. cbn [coef exponent]. rewrite val_Dec, Qabs_Qmult, (Qabs_pos (p10 e)) by apply Qlt_le_weak, p10_pos.
  replace (e + digits c - 1 + 1) with (digits c + e) by lia. rewrite p10_add, Qabs_inject.
  assert (inject_Z (Z.abs c) <= p10 (digits c))%Q as Hc.
  { pose proof (digits_spec c). rewrite p10_Z by lia. rewrite <- Zle_Qle. pose proof (digits_bound c (digits c) ltac:(lia)). lia. }
  apply Qmult_le_compat_r; [exact Hc|apply Qlt_le_weak, p10_pos].
Qed.

(** Every value of the attribution is on one grid and of one size; the precision holds their sums. *)
Lemma precision_fits first rest : let p := attribution_precision first rest in
  ∃ g B, (0 <= B)%Q ∧ 0 < p ∧ (inject_Z (Z.of_nat (length (first :: rest))) * B <= p10 (p - g))%Q ∧
    ∀ v, v ∈ first :: rest → fits g B 1 v.
Proof.
  cbn zeta. unfold attribution_precision. set (n := Z.of_nat (length (first :: rest))).
  set (M := fold_left (λ m v, Z.max m (adjusted v)) rest (adjusted first)).
  set (E := fold_left (λ m v, Z.min m (exponent v)) rest (exponent first)).
  destruct (fold_max_spec adjusted rest (adjusted first)) as [HM HMs]. fold M in HM, HMs.
  destruct (fold_min_spec exponent rest (exponent first)) as [HE HEs]. fold E in HE, HEs.
  destruct (digits_spec n) as (Hd & Hn & _). rewrite Z.abs_eq in Hn by lia.
  pose proof (digits_spec (coef first)) as [Hdf _]. assert (E <= M) by (unfold adjusted in *; lia).
  exists (- E), (p10 (M + 1)). split; [apply Qlt_le_weak, p10_pos|]. split; [lia|]. split.
  - replace (M - E + digits n + 3 - - E) with (digits n + (M + 3)) by lia.
    rewrite (p10_add (digits n)), (p10_Z (digits n)) by lia.
    assert (inject_Z n <= inject_Z (10 ^ digits n))%Q as Hle by (rewrite <- Zle_Qle; lia).
    pose proof (p10_mono (M + 1) (M + 3) ltac:(lia)) as Hm. pose proof (p10_pos (M + 1)).
    assert (0 <= inject_Z n)%Q by (change 0%Q with (inject_Z 0); rewrite <- Zle_Qle; lia). nra.
  - intros v Hv. assert (E <= exponent v ∧ adjusted v <= M) as [Hev Hav].
    { apply elem_of_cons in Hv as [->|Hv]; [done|]. split; [by apply HEs|by apply HMs]. }
    split.
    + exists (coef v * 10 ^ (exponent v - E)). rewrite Z.opp_involutive. by apply val_align.
    + change (inject_Z 1) with 1%Q. rewrite Qmult_1_l. etransitivity; [apply val_adjusted|]. apply p10_mono. lia.
Qed.

Lemma attribution_amount_Ok d : attribution_amount d = Raise TEXT_TOO_LONG ∨ attribution_amount d = Ok (canon d).
Proof. unfold attribution_amount. case_match; auto. Qed.

(** Built unless a text is too long. *)
Lemma attribution_spec n gross entry exit net residual delta : (0 <= val entry)%Q → (0 <= val exit)%Q →
  attribution n gross entry exit net residual delta = Raise TEXT_TOO_LONG ∨
  attribution n gross entry exit net residual delta = Ok {| attributed_trades := n; fill_price_pnl_before_fees := canon gross;
    entry_fees := canon entry; exit_fees := canon exit; attributed_net_pnl := canon net; accounting_residual := canon residual;
    summary_net_pnl_delta := canon delta |}.
Proof.
  intros Hentry Hexit. unfold attribution, mbind, result_bind.
  repeat match goal with |- context [attribution_amount ?d] => destruct (attribution_amount_Ok d) as [->| ->]; [by left|] end.
  right. unfold guard_or. replace ((canon entry <? d0) || (canon exit <? d0))%dec with false; [done|].
  symmetry. apply orb_false_iff. rewrite !dltb_ge, !val_canon, !val_d0. done.
Qed.

Lemma Qsum_nonneg l : Forall (λ q, 0 <= q)%Q l → (0 <= Qsum l)%Q.
Proof.
  induction 1 as [|q l Hq _ IH]; [apply Qle_refl|]. change (Qsum (q :: l)) with (q + Qsum l)%Q. lra.
Qed.

(** Trades whose net profit is their gross profit less fees plus funding. *)
Lemma funded_total (l : list BacktestTrade) :
  Forall (λ t, val (net_pnl t) == val (gross_pnl t) - val (fill_fee (trade_entry t)) - val (fill_fee (exit_fill (trade_exit t)))
                                  + val (default d0 (trade_funding t)))%Q l →
  (Qsum ((λ t, val (net_pnl t)) <$> l) - Qsum ((λ t, val (gross_pnl t)) <$> l) + Qsum ((λ t, val (fill_fee (trade_entry t))) <$> l)
     + Qsum ((λ t, val (fill_fee (exit_fill (trade_exit t)))) <$> l) == Qsum ((λ t, val (default d0 (trade_funding t))) <$> l))%Q.
Proof.
  unfold Qsum. induction 1 as [|t l Ht _ IH]; cbn; [ring|]. cbn in IH. rewrite <- IH, Ht. ring.
Qed.

(** C28: The cost attribution of a run is exact. For a result whose fees are not negative its
    arithmetic, in which rounding is trapped, never fails, whatever the sizes and scales of its
    amounts; so the attribution is produced, or refused because a total has more than 12500
    characters. The four totals are the exact sums over the trades, the residual is exactly the
    net profit less what the fill prices earned plus both fees, and the delta is exactly what the
    summary's net profit differs by. The report has no field for funding: where each trade's net
    profit is its gross profit less both fees plus the funding it was paid, the residual is
    exactly the funding. *)
Theorem cost_attribution_exact r :
  Forall (λ t, 0 <= val (fill_fee (trade_entry t)) ∧ 0 <= val (fill_fee (exit_fill (trade_exit t))))%Q (trades r) →
  compute_cost_attribution r = Raise TEXT_TOO_LONG ∨
  ∃ a, compute_cost_attribution r = Ok a ∧
    (val (fill_price_pnl_before_fees a) == Qsum ((λ t, val (gross_pnl t)) <$> trades r))%Q ∧
    (val (entry_fees a) == Qsum ((λ t, val (fill_fee (trade_entry t))) <$> trades r))%Q ∧
    (val (exit_fees a) == Qsum ((λ t, val (fill_fee (exit_fill (trade_exit t)))) <$> trades r))%Q ∧
    (val (attributed_net_pnl a) == Qsum ((λ t, val (net_pnl t)) <$> trades r))%Q ∧
    (val (attributed_net_pnl a) ==
       val (fill_price_pnl_before_fees a) - val (entry_fees a) - val (exit_fees a) + val (accounting_residual a))%Q ∧
    (val (total_net_pnl (summary r)) == val (attributed_net_pnl a) + val (summary_net_pnl_delta a))%Q ∧
    (Forall (λ t, val (net_pnl t) == val (gross_pnl t) - val (fill_fee (trade_entry t)) - val (fill_fee (exit_fill (trade_exit t)))
                                     + val (default d0 (trade_funding t)))%Q (trades r) →
       val (accounting_residual a) == Qsum ((λ t, val (default d0 (trade_funding t))) <$> trades r))%Q.
Proof.
  intros Hfees. unfold compute_cost_attribution.
  destruct (precision_fits (total_net_pnl (summary r)) (trade_amounts r)) as (g & B & HB & Hp & Hwide & Hfits).
  set (p := attribution_precision _ _) in *. case_decide as Hp'; [|done].
  set (dc := {| prec := p; prec_pos := Hp' |}). set (n := Z.of_nat (length (trades r))).
  assert (Z.of_nat (length (total_net_pnl (summary r) :: trade_amounts r)) = 4 * n + 1) as Hlen.
  { unfold trade_amounts, n. cbn [length]. rewrite !length_app, !length_fmap. lia. }
  rewrite Hlen in Hwide.
  assert (∀ f : BacktestTrade → decimal, (∀ t, t ∈ trades r → f t ∈ trade_amounts r) →
    ∃ c, exact_total (dc := dc) (f <$> trades r) = Ok c ∧ (val c == Qsum ((λ t, val (f t)) <$> trades r))%Q ∧ fits g B n c) as Htotal.
  { intros f Hf. destruct (exact_total_exact (dc := dc) g B (4 * n + 1) HB Hwide (f <$> trades r)) as (c & Hc & Hval & Hcf).
    - apply Forall_forall. intros v (t & -> & Ht)%list_elem_of_fmap. apply Hfits. right. by apply Hf.
    - rewrite length_fmap. unfold n. lia.
    - exists c. split; [done|]. rewrite length_fmap in Hcf. split; [|done]. rewrite Hval.
      change (map val (f <$> trades r)) with (val <$> (f <$> trades r)). by rewrite <- list_fmap_compose. }
  unfold attribute_in.
  destruct (Htotal gross_pnl) as (gross & -> & Hgross & Gfits).
  { intros t Ht. unfold trade_amounts. rewrite !elem_of_app, !list_elem_of_fmap. left. by exists t. }
  destruct (Htotal (λ t, fill_fee (trade_entry t))) as (entry & -> & Hentry & Efits).
  { intros t Ht. unfold trade_amounts. rewrite !elem_of_app, !list_elem_of_fmap. right. left. by exists t. }
  destruct (Htotal (λ t, fill_fee (exit_fill (trade_exit t)))) as (exit & -> & Hexit & Xfits).
  { intros t Ht. unfold trade_amounts. rewrite !elem_of_app, !list_elem_of_fmap. right. right. left. by exists t. }
  destruct (Htotal net_pnl) as (net & -> & Hnet & Nfits).
  { intros t Ht. unfold trade_amounts. rewrite !elem_of_app, !list_elem_of_fmap. right. right. right. by exists t. }
  cbn [mbind result_bind].
  destruct (exact_sub_fits (dc := dc) g B (4 * n + 1) HB Hwide n n net gross Nfits Gfits ltac:(lia)) as (difference & -> & Hd & Dfits).
  cbn [mbind result_bind].
  destruct (exact_add_fits (dc := dc) g B (4 * n + 1) HB Hwide (n + n) n difference entry Dfits Efits ltac:(lia)) as (with_entry & -> & Hw & Wfits).
  cbn [mbind result_bind].
  destruct (exact_add_fits (dc := dc) g B (4 * n + 1) HB Hwide (n + n + n) n with_entry exit Wfits Xfits ltac:(lia)) as (residual & -> & Hr & _).
  cbn [mbind result_bind].
  destruct (exact_sub_fits (dc := dc) g B (4 * n + 1) HB Hwide 1 n (total_net_pnl (summary r)) net (Hfits _ ltac:(by left)) Nfits ltac:(lia))
    as (delta & -> & Hdelta & _).
  cbn [mbind result_bind].
  fold n. destruct (attribution_spec n gross entry exit net residual delta) as [->| ->]; [| |by left|right].
  - rewrite Hentry. apply Qsum_nonneg, Forall_fmap. eapply Forall_impl; [exact Hfees|]. by intros t [? _].
  - rewrite Hexit. apply Qsum_nonneg, Forall_fmap. eapply Forall_impl; [exact Hfees|]. by intros t [_ ?].
  - eexists. split; [done|]. cbn. rewrite !val_canon. repeat split; try done.
    + rewrite Hr, Hw, Hd. ring.
    + rewrite Hdelta. ring.
    + intros Hfunded. rewrite Hr, Hw, Hd, Hnet, Hgross, Hentry, Hexit. by apply funded_total.
Qed.

(** ** One account *)

Definition by_instant (a b : datetime * SleeveMark) : Prop := a.1 <= b.1.

Section Sorted.
Context {A : Type} (le : A → A → bool) (R : A → A → Prop).
Context (Hle : ∀ x y, le x y = true → R x y) (Hge : ∀ x y, le x y = false → R y x) (Htrans : ∀ x y z, R x y → R y z → R x z).

Lemma insert_sorted_ordered x l : Sorted.StronglySorted R l → Sorted.StronglySorted R (insert_sorted le x l).
Proof.
  induction l as [|y l IH]; cbn; intros Hl; [by repeat constructor|]. apply Sorted.StronglySorted_inv in Hl as [Hl Hy].
  destruct (le x y) eqn:Hxy.
  - constructor; [by constructor|]. constructor; [by apply Hle|]. eapply List.Forall_impl; [|exact Hy]. intros z. by apply Htrans, Hle.
  - constructor; [by apply IH|]. apply Forall_forall. intros z. rewrite insert_sorted_perm. rewrite Forall_forall in Hy.
    intros [->|Hz]%elem_of_cons; [by apply Hge|by apply Hy].
Qed.

Lemma sort_by_sorted l : Sorted.StronglySorted R (Containers.sort_by le l).
Proof. induction l as [|x l IH]; [constructor|]. by apply insert_sorted_ordered. Qed.
End Sorted.

(** The last mark at or before an instant. *)
Definition latest (initial : SleeveMark) (marks : list (datetime * SleeveMark)) (t : datetime) : SleeveMark :=
  fold_left (λ m (e : datetime * SleeveMark), if e.1 <=? t then e.2 else m) marks initial.

Lemma latest_later m marks t : Forall (λ e : datetime * SleeveMark, t < e.1) marks → latest m marks t = m.
Proof.
  unfold latest. induction 1 as [|e marks He _ IH]; cbn; [done|]. by rewrite (proj2 (Z.leb_gt _ _) He).
Qed.

Lemma advance_marks_spec t marks : Sorted.StronglySorted by_instant marks → ∀ current m rest,
  advance_marks t current marks = (m, rest) →
  m = latest current marks t ∧ Sorted.StronglySorted by_instant rest ∧ ∀ t', t <= t' → latest m rest t' = latest current marks t'.
Proof.
  induction 1 as [|e marks Hs IH He]; intros current m rest; cbn [advance_marks]; [intros [= <- <-]; split; [done|split; [constructor|done]]|]. destruct e as [at_ mark].
  destruct (Z.leb_spec at_ t) as [Hle|Hgt].
  - intros H. destruct (IH _ _ _ H) as (-> & Hrest & Hlater).
    assert (∀ t', t <= t' → latest current ((at_, mark) :: marks) t' = latest mark marks t') as Hcons.
    { intros t' Ht'. unfold latest. cbn. by rewrite (proj2 (Z.leb_le at_ t')) by lia. }
    split; [by rewrite Hcons|]. split; [done|]. intros t' Ht'. rewrite Hcons by done. by apply Hlater.
  - intros [= <- <-]. split; [|split; [by constructor|done]]. symmetry. apply latest_later. constructor; [done|].
    eapply List.Forall_impl; [|exact He]. intros e Hle. unfold by_instant in Hle. cbn in *. lia.
Qed.

(** The single pass over marks and grid finds the latest mark at each instant. *)
Lemma forward_fill_latest grid : Sorted.StronglySorted Z.le grid → ∀ marks current, Sorted.StronglySorted by_instant marks →
  forward_fill grid marks current = latest current marks <$> grid.
Proof.
  induction 1 as [|t grid Hs IH Ht]; intros marks current Hm; cbn; [done|].
  destruct (advance_marks t current marks) as [m rest] eqn:H. destruct (advance_marks_spec t marks Hm _ _ _ H) as (-> & Hrest & Hlater).
  f_equal. rewrite IH by done. apply list_fmap_ext. intros i t' Ht'. apply Hlater. rewrite Forall_forall in Ht. apply Ht.
  by eapply list_elem_of_lookup_2.
Qed.

(** At the greatest instant the latest mark is that instant's. *)
Lemma latest_final current marks t m : Sorted.StronglySorted by_instant marks → NoDup marks.*1 → (t, m) ∈ marks →
  Forall (λ e : datetime * SleeveMark, e.1 <= t) marks → latest current marks t = m.
Proof.
  intros Hs Hd Hin Hall. apply list_elem_of_split in Hin as (before & rest & ->).
  assert (rest = []) as ->.
  { destruct rest as [|e rest]; [done|]. exfalso. assert (e.1 = t) as He.
    - apply Forall_app in Hall as [_ Hall]. rewrite !Forall_cons in Hall. destruct Hall as (_ & Hle & _).
      assert (by_instant (t, m) e) as Hge; [|unfold by_instant in Hge; cbn in *; lia].
      clear Hle Hd. induction before as [|b before IH]; cbn in Hs; apply Sorted.StronglySorted_inv in Hs as [Hs Hb]; [|by apply IH].
      by apply Forall_cons in Hb as [Hb _].
    - rewrite fmap_app in Hd. apply NoDup_app in Hd as (_ & _ & Hd). cbn in Hd. apply NoDup_cons in Hd as [Hd _]. apply Hd.
      rewrite He. by left. }
  unfold latest. rewrite fold_left_app. cbn. by rewrite Z.leb_refl.
Qed.

Section Account.
Context {dc : DecimalContext}.

Lemma bar_positive clock bar : _bar clock = Ok bar → 0 < bar.
Proof. intros (i & _ & [= <-])%bind_Ok. by destruct i. Qed.

(** The marks of a child: in order, each instant once, after the start, and its last point at the end. *)
Lemma sleeve_marks_spec r starts ends marks : starts < ends → sleeve_marks r starts ends = Ok marks →
  Sorted.StronglySorted by_instant marks ∧ NoDup marks.*1 ∧ Forall (λ e : datetime * SleeveMark, starts < e.1) marks ∧
  ∀ final, last (equity_curve (run_result r)) = Some final → point_starts_at final = ends →
    (ends, {| mark_equity := equity final; mark_cash := point_cash final; mark_base := base_quantity final |}) ∈ marks.
Proof.
  intros Hlt H. apply bind_Ok in H as (bar & Hbar & H). apply bind_Ok in H as (d & Hd & [= <-]). apply bar_positive in Hbar.
  assert (dict_wf d ∧ Forall (λ e : datetime * SleeveMark, starts < e.1) d ∧
    ∀ final, last (equity_curve (run_result r)) = Some final → point_starts_at final = ends →
      dict_get ends d = Some {| mark_equity := equity final; mark_cash := point_cash final; mark_base := base_quantity final |})
    as (Hwf & Hafter & Hfinal).
  { revert d Hd. induction (equity_curve (run_result r)) as [|point points IH] using rev_ind; intros d Hd.
    { injection Hd as <-. split; [apply dict_wf_nil|]. split; [constructor|]. intros final Hl. by apply last_None in Hl || done. }
    rewrite foldM_app in Hd. apply bind_Ok in Hd as (d0 & Hd0 & Hd). cbn in Hd. apply bind_Ok in Hd as (d1 & Hd1 & [= <-]).
    apply bind_Ok in Hd1 as ([] & Hstart & [= <-]). apply guard_or_Ok in Hstart. apply negb_true_iff, Z.ltb_ge in Hstart.
    destruct (IH d0 Hd0) as (Hwf & Hafter & _). split; [by apply dict_wf_set|]. split.
    - apply Forall_forall. intros e He. destruct e as [t m]. apply dict_elem_get in He; [|by apply dict_wf_set]. cbn.
      rewrite Forall_forall in Hafter. set (instant := if ends <=? point_starts_at point then _ else _) in *.
      destruct (decide (t = instant)) as [->|Hne].
      + unfold instant. case_match; [done|lia].
      + rewrite dict_get_set_ne in He by done. apply dict_get_elem in He. by apply Hafter in He.
    - intros final. rewrite last_snoc. intros [= <-] Hend. rewrite (proj2 (Z.leb_le _ _)) by lia. apply dict_get_set. }
  split; [|split; [|split]].
  - apply sort_by_sorted; unfold by_instant; [intros x y; apply Z.leb_le|intros x y ?%Z.leb_gt; lia|intros; lia].
  - by rewrite stable_sort_perm.
  - by rewrite stable_sort_perm.
  - intros final Hl He. apply elem_of_sort_by, dict_get_elem. by apply Hfinal.
Qed.
End Account.

Section Combined.
Context {dc : DecimalContext}.

(** The equity of every sleeve at an instant, in the order of the sleeves. *)
Definition sleeve_equities (runs : list SleeveRun) (series : list (list (datetime * SleeveMark))) (t : datetime) : list decimal :=
  zip_with (λ r marks, mark_equity (latest (_initial_mark r) marks t)) runs series.

Lemma column_filled grid runs series k t : Sorted.StronglySorted Z.le grid → Forall (Sorted.StronglySorted by_instant) series →
  grid !! k = Some t →
  ∀ marks, column (zip_with (λ r marks, forward_fill grid marks (_initial_mark r)) runs series) k = Ok marks →
  mark_equity <$> marks = sleeve_equities runs series t.
Proof.
  intros Hgrid Hseries Ht. unfold sleeve_equities. revert runs. induction Hseries as [|ms series Hms _ IH]; intros [|r runs] marks.
  1-3: by intros [= <-].
  cbn [zip_with]. unfold column. cbn [result_mapM]. rewrite forward_fill_latest, list_lookup_fmap, Ht by done. cbn [fmap option_fmap option_map].
  intros (m & [= <-] & H)%bind_Ok. apply bind_Ok in H as (rest & Hrest & [= <-]). cbn. f_equal. by apply IH.
Qed.

Lemma combined_equity_at cash grid runs series combined k t v :
  Sorted.StronglySorted Z.le grid → Forall (Sorted.StronglySorted by_instant) series →
  combined_equity cash (zip_with (λ r marks, forward_fill grid marks (_initial_mark r)) runs series) (length grid) = Ok combined →
  grid !! k = Some t → combined !! k = Some v → v = (cash + dsum (sleeve_equities runs series t))%dec.
Proof.
  intros Hgrid Hseries Hc Ht Hv. destruct (Series.mapM_lookup _ _ _ _ _ Hc Hv) as (index & Hi & Hindex).
  apply lookup_seq in Hi as [-> _]. cbn [Nat.add] in Hindex. apply bind_Ok in Hindex as (marks & Hm & [= <-]).
  by rewrite (column_filled grid runs series k t Hgrid Hseries Ht marks Hm).
Qed.

Lemma mapM_Forall {A B} (f : A → result B) (P : B → Prop) l ys : (∀ x y, f x = Ok y → P y) → result_mapM f l = Ok ys → Forall P ys.
Proof.
  intros Hf. revert ys. induction l as [|x l IH]; intros ys; cbn; [by intros [= <-]|].
  intros (y & Hy & H)%bind_Ok. apply bind_Ok in H as (zs & Hzs & [= <-]). constructor; [by eapply Hf|by apply IH].
Qed.

Lemma mapM_Forall2 {A B} (f : A → result B) l ys : result_mapM f l = Ok ys → Forall2 (λ x y, f x = Ok y) l ys.
Proof.
  revert ys. induction l as [|x l IH]; intros ys; cbn; [by intros [= <-]|].
  intros (y & Hy & H)%bind_Ok. apply bind_Ok in H as (zs & Hzs & [= <-]). constructor; [done|by apply IH].
Qed.

(** A list without duplicates in weak order is in strict order. *)
Lemma sorted_strict l : NoDup l → Sorted.StronglySorted Z.le l → Sorted.StronglySorted Z.lt l.
Proof.
  intros Hd. induction 1 as [|x l _ IH Hx]; [constructor|]. apply NoDup_cons in Hd as [Hin Hd]. constructor; [by apply IH|].
  rewrite !Forall_forall in *. intros y Hy. specialize (Hx y Hy). assert (x ≠ y) by by intros ->. lia.
Qed.

Lemma strict_weak l : Sorted.StronglySorted Z.lt l → Sorted.StronglySorted Z.le l.
Proof. induction 1 as [|x l _ IH Hx]; constructor; [done|]. eapply List.Forall_impl; [|exact Hx]. intros y; cbn. lia. Qed.

Lemma sorted_last l : Sorted.StronglySorted Z.le l → ∀ m t, last l = Some m → t ∈ l → t <= m.
Proof.
  intros Hs m t. induction Hs as [|x l Hs IH Hx]; [done|]. intros Hl Ht. apply elem_of_cons in Ht. destruct l as [|y l].
  - injection Hl as <-. destruct Ht as [->|Ht]; [lia|by apply elem_of_nil in Ht].
  - destruct Ht as [->|Ht]; [|by apply IH]. rewrite Forall_forall in Hx. apply Hx. by apply last_Some_elem_of.
Qed.

Lemma elem_of_concat' {A} (x : A) ls : x ∈ concat ls ↔ ∃ l, l ∈ ls ∧ x ∈ l.
Proof.
  rewrite list_elem_of_In, in_concat. setoid_rewrite list_elem_of_In. done.
Qed.

(** The grid of a window. *)
Lemma window_spec starts ends series w : Forall (Forall (λ e : datetime * SleeveMark, starts < e.1)) series →
  _window starts ends series = Ok w →
  Sorted.StronglySorted Z.lt (grid w) ∧ head (grid w) = Some starts ∧ last (grid w) = Some ends ∧
  (∀ t, t ∈ grid w ↔ t = starts ∨ ∃ marks, marks ∈ series ∧ t ∈ marks.*1).
Proof.
  intros Hafter H. unfold _window in H. cbv zeta in H. set (g := Containers.sort_by _ _) in H.
  apply bind_Ok in H as ([] & Hr & H). injection H as <-. cbn [grid]. apply guard_or_Ok, andb_true_iff in Hr as [Hl _].
  apply bool_decide_eq_true in Hl.
  assert (∀ t, t ∈ g ↔ t = starts ∨ ∃ marks, marks ∈ series ∧ t ∈ marks.*1) as Hg.
  { intros t. unfold g. rewrite elem_of_sort_by, elem_of_remove_dups, elem_of_cons, list_elem_of_fmap. apply or_iff_compat_l. split.
    - intros (e & -> & (marks & Hm & He)%elem_of_concat'). exists marks. split; [done|]. by apply list_elem_of_fmap_2.
    - intros (marks & Hm & (e & -> & He)%list_elem_of_fmap). exists e. split; [done|]. apply elem_of_concat'. by exists marks. }
  assert (Sorted.StronglySorted Z.le g) as Hs.
  { apply sort_by_sorted; [intros x y; apply Z.leb_le|intros x y ?%Z.leb_gt; lia|intros; lia]. }
  assert (NoDup g) as Hd by (unfold g; rewrite stable_sort_perm; apply NoDup_remove_dups).
  split; [by apply sorted_strict|]. split; [|done].
  assert (starts ∈ g) as Hin by (apply Hg; by left). clearbody g. destruct g as [|x g]; [by apply elem_of_nil in Hin|]. cbn. f_equal.
  apply Sorted.StronglySorted_inv in Hs as [_ Hx]. apply elem_of_cons in Hin as [<-|Hin]; [done|].
  rewrite Forall_forall in Hx. specialize (Hx _ Hin). destruct (proj1 (Hg x) ltac:(by left)) as [->|(marks & Hm & Hxm)]; [done|].
  rewrite Forall_forall in Hafter. specialize (Hafter _ Hm). apply list_elem_of_fmap in Hxm as (e & -> & He).
  rewrite Forall_forall in Hafter. specialize (Hafter _ He). cbn in *. lia.
Qed.

Lemma basket_curve_length plan basket w invested cash report curve :
  equal_weight_basket plan basket w invested cash = Ok (report, curve) → length curve = length (grid w).
Proof.
  intros (expected & _ & H)%bind_Ok. apply bind_Ok in H as (_ & _ & H). apply bind_Ok in H as (share & _ & H).
  apply bind_Ok in H as (priced & _ & H). apply bind_Ok in H as (points & Hc & H). apply bind_Ok in H as ([[? ?] ?] & _ & H).
  destruct (last points) as [final|]; [|done]. apply bind_Ok in H as (returned & _ & H). injection H as _ <-.
  by rewrite (Series.mapM_length _ _ _ Hc), length_seq.
Qed.

Lemma points_at grid combined basket : length combined = length grid → length basket = length grid →
  point_at <$> equity_points grid combined basket = grid.
Proof.
  intros Hc Hb. unfold equity_points. revert combined basket Hc Hb. induction grid as [|t grid IH]; intros [|v combined] [|b basket] Hc Hb; try done.
  cbn. f_equal. apply IH; cbn in *; lia.
Qed.

Lemma points_lookup grid combined basket p : p ∈ equity_points grid combined basket →
  ∃ k v, grid !! k = Some (point_at p) ∧ combined !! k = Some v ∧ point_equity p = canon v.
Proof.
  unfold equity_points. intros (k & Hk)%list_elem_of_lookup. apply lookup_zip_with_Some in Hk as (t & [v b] & -> & Ht & Hv).
  apply lookup_zip_with_Some in Hv as (v' & b' & [= -> ->] & Hv & _). by exists k, v'.
Qed.

(** Before its first close a sleeve holds its capital. *)
Lemma equities_at_start runs series t : length runs = length series →
  Forall (Forall (λ e : datetime * SleeveMark, t < e.1)) series →
  sleeve_equities runs series t = (λ r, planned_capital (run_planned r)) <$> runs.
Proof.
  intros Hl Hall. unfold sleeve_equities. revert runs Hl. induction Hall as [|ms series Hms _ IH]; intros [|r runs] Hl; try done.
  cbn. rewrite latest_later by done. f_equal. apply IH. by injection Hl.
Qed.

Lemma runs_final plan runs : _require_runs_match_plan plan runs = Ok tt →
  Forall (λ r, ∃ final, last (equity_curve (run_result r)) = Some final ∧ point_starts_at final = plan_end plan) runs.
Proof.
  intros ([] & _ & H)%bind_Ok. apply guard_or_Ok in H. apply Forall_forall. intros r Hr.
  rewrite forallb_forall in H. specialize (H r ltac:(by apply list_elem_of_In)). unfold run_matches in H.
  destruct (equity_curve (run_result r)) as [|first points]; [done|]. destruct (last (first :: points)) as [final|] eqn:Hl; [|done].
  exists final. split; [done|]. apply andb_true_iff in H as [H _]. apply andb_true_iff in H as [_ H]. by apply Z.eqb_eq.
Qed.

(** At the end a sleeve holds what its run ended with. *)
Lemma equities_at_end runs series starts ends : starts < ends →
  Forall (λ r, ∃ final, last (equity_curve (run_result r)) = Some final ∧ point_starts_at final = ends) runs →
  result_mapM (λ r, sleeve_marks r starts ends) runs = Ok series →
  (∀ marks e, marks ∈ series → e ∈ marks → e.1 <= ends) →
  Some <$> sleeve_equities runs series ends = (λ r, option_map equity (last (equity_curve (run_result r)))) <$> runs.
Proof.
  intros Hlt Hfinal Hs Hends. apply mapM_Forall2 in Hs. unfold sleeve_equities.
  induction Hs as [|r ms runs series Hms _ IH]; [done|]. apply Forall_cons in Hfinal as [(final & Hl & He) Hfinal].
  cbn. rewrite Hl. cbn. destruct (sleeve_marks_spec r starts ends ms Hlt Hms) as (Hsort & Hd & _ & Hin).
  rewrite (latest_final _ _ _ _ Hsort Hd (Hin _ Hl He)).
  - cbn. f_equal. apply IH; [done|]. intros marks e Hm. apply Hends. by right.
  - apply Forall_forall. intros e. apply Hends. by left.
Qed.

(** C27: Combining finished runs makes one account. Over a window that ends after it starts, the
    curve's instants are the window's start and every close of any sleeve's curve, each once and
    in order, from the start to the end of the window. Its equity at an instant is the capital not
    given to the sleeves plus, for every sleeve, the equity of its latest close up to then: the
    sleeve's capital at the start, and at the end what its own run ended with. *)
Theorem combined_curve_is_one_account plan runs basket res :
  plan_start plan < plan_end plan → _combine plan runs basket = Ok res →
  let instants := point_at <$> result_curve res in
  let capitals := (λ r, planned_capital (run_planned r)) <$> runs in
  let cash := (plan_capital plan - dsum capitals)%dec in
  ∃ series, result_mapM (λ r, sleeve_marks r (plan_start plan) (plan_end plan)) runs = Ok series ∧
    Sorted.StronglySorted Z.lt instants ∧ head instants = Some (plan_start plan) ∧ last instants = Some (plan_end plan) ∧
    (∀ t, t ∈ instants ↔ t = plan_start plan ∨ ∃ marks, marks ∈ series ∧ t ∈ marks.*1) ∧
    (∀ p, p ∈ result_curve res → point_equity p = canon (cash + dsum (sleeve_equities runs series (point_at p)))%dec) ∧
    sleeve_equities runs series (plan_start plan) = capitals ∧
    Some <$> sleeve_equities runs series (plan_end plan) = (λ r, option_map equity (last (equity_curve (run_result r)))) <$> runs.
Proof.
  intros Hlt H. apply bind_Ok in H as ([] & Hmatch & H). apply bind_Ok in H as (series & Hseries & H).
  apply bind_Ok in H as (w & Hw & H). cbv zeta in H. apply bind_Ok in H as (combined & Hc & H).
  apply bind_Ok in H as ([largest fraction] & _ & H). apply bind_Ok in H as ([correlation to_rest] & _ & H).
  apply bind_Ok in H as ([overlap longs] & _ & H). apply bind_Ok in H as ([report curve] & Hb & H).
  apply bind_Ok in H as (sleeves & _ & H). apply bind_Ok in H as (idle & _ & H). apply bind_Ok in H as (s & _ & H).
  injection H as <-. cbn [result_curve].
  assert (Forall (Sorted.StronglySorted by_instant) series) as Hsorted.
  { eapply mapM_Forall; [|exact Hseries]. intros r ms Hms. by destruct (sleeve_marks_spec r _ _ ms Hlt Hms). }
  assert (Forall (Forall (λ e : datetime * SleeveMark, plan_start plan < e.1)) series) as Hafter.
  { eapply mapM_Forall; [|exact Hseries]. intros r ms Hms. by destruct (sleeve_marks_spec r _ _ ms Hlt Hms) as (_ & _ & ? & _). }
  destruct (window_spec _ _ _ _ Hafter Hw) as (Hgrid & Hhead & Hlast & Hmem).
  assert (length combined = length (grid w)) as Hlen by by rewrite (Series.mapM_length _ _ _ Hc), length_seq.
  rewrite points_at by (done || by eapply basket_curve_length). exists series. repeat split; try done.
  - by apply Hmem.
  - by apply Hmem.
  - intros p (k & v & Ht & Hv & ->)%points_lookup. f_equal.
    by apply (combined_equity_at _ (grid w) runs series combined k); [apply strict_weak| | | |].
  - apply equities_at_start; [|done]. by rewrite (Series.mapM_length _ _ _ Hseries).
  - eapply equities_at_end; [exact Hlt|by apply runs_final|exact Hseries|]. intros marks e Hm He.
    eapply sorted_last; [by apply strict_weak|exact Hlast|]. apply Hmem. right. exists marks. split; [done|]. by apply list_elem_of_fmap_2.
Qed.
End Combined.

(** ** Witnesses *)

Section Witnesses.

(** Two hours of one sleeve: bought in the first at a loss, sold in the second at a gain. *)
Let hour : Z := 3600000000.
Let bought_fill : BacktestFill :=
  {| candle_starts_at := 0; fill_price := of_Z 100; fill_quantity := of_Z 2; fill_notional := of_Z 200; fill_fee := Dec 2 (-1);
     fee_rate := Dec 1 (-3); fill_reference_price := None; fill_executable_side := None; fill_spread_cost := None |}.
Let sold_fill : BacktestFill :=
  {| candle_starts_at := hour; fill_price := of_Z 110; fill_quantity := of_Z 2; fill_notional := of_Z 220; fill_fee := Dec 22 (-2);
     fee_rate := Dec 1 (-3); fill_reference_price := None; fill_executable_side := None; fill_spread_cost := None |}.
Let one_trade : BacktestTrade :=
  {| trade_entry := bought_fill; trade_exit := {| exit_fill := sold_fill; reason := signal |}; gross_pnl := of_Z 20;
     net_pnl := Dec 1958 (-2); holding_bars := 1; trade_funding := None |}.
Let one_summary : BacktestSummary :=
  {| initial_equity := of_Z 1000; final_equity := Dec 101958 (-2); total_net_pnl := Dec 1958 (-2); total_return_fraction := Dec 1958 (-5);
     gross_profit := of_Z 20; gross_loss := d0; win_rate := d1; profit_factor := None; average_win := None; average_loss := None;
     trade_count := 1; winning_trade_count := 1; maximum_drawdown := d0; maximum_drawdown_fraction := d0; exposure_bars := 1;
     evaluation_bars := 2; total_spread_cost := None; validity_limits := []; total_funding := None |}.
Let point (t : datetime) (cash base mark total : decimal) : EquityPoint :=
  {| point_starts_at := t; point_cash := cash; base_quantity := base; mark_price := mark; equity := total |}.
Let one_result : BacktestResult :=
  {| trades := [one_trade];
     equity_curve := [point 0 (Dec 7998 (-1)) (of_Z 2) (of_Z 98) (Dec 9958 (-1));
                      point hour (Dec 101958 (-2)) d0 (of_Z 110) (Dec 101958 (-2));
                      point (2 * hour) (Dec 101958 (-2)) d0 (of_Z 110) (Dec 101958 (-2))];
     summary := one_summary |}.

Lemma cost_attribution_exact_witness :
  (∀ a, compute_cost_attribution one_result = Ok a →
     (val (accounting_residual a) == 0)%Q) ∧ ∃ a, compute_cost_attribution one_result = Ok a.
Proof.
  assert (Forall (λ t, 0 <= val (fill_fee (trade_entry t)) ∧ 0 <= val (fill_fee (exit_fill (trade_exit t))))%Q (trades one_result)) as Hfees.
  { repeat constructor; discriminate. }
  assert (match compute_cost_attribution one_result with Ok _ => true | Raise _ => false end = true) as Hok by (vm_compute; reflexivity).
  destruct (cost_attribution_exact one_result Hfees) as [H|(a & Ha & Hg & He & Hx & Hn & Hr & _)]; [rewrite H in Hok; discriminate Hok|].
  split; [|by exists a]. intros b Hb. assert (b = a) as -> by congruence.
  assert (val (fill_price_pnl_before_fees a) == 20)%Q as Hg' by (rewrite Hg; vm_compute; reflexivity).
  assert (val (entry_fees a) == 2 # 10)%Q as He' by (rewrite He; vm_compute; reflexivity).
  assert (val (exit_fees a) == 22 # 100)%Q as Hx' by (rewrite Hx; vm_compute; reflexivity).
  assert (val (attributed_net_pnl a) == 1958 # 100)%Q as Hn' by (rewrite Hn; vm_compute; reflexivity).
  lra.
Defined.

(** A perpetual's trade that paid three for funding: the report calls it a residual. *)
Let funded_trade : BacktestTrade :=
  {| trade_entry := bought_fill; trade_exit := {| exit_fill := sold_fill; reason := signal |}; gross_pnl := of_Z 20;
     net_pnl := Dec 1658 (-2); holding_bars := 1; trade_funding := Some (of_Z (-3)) |}.

Example funding_is_residual :
  match compute_cost_attribution {| trades := [funded_trade]; equity_curve := []; summary := one_summary |} with
  | Ok a => accounting_residual a = of_Z (-3)
  | Raise _ => False
  end.
Proof. vm_compute. reflexivity. Qed.

Let one_sleeve : PlannedSleeve :=
  {| planned_sleeve_id := "s"; planned_strategy_fingerprint := "sha256:a"; planned_product_id := "BTC-USDC"; planned_covered_products := ["BTC-USDC"]; planned_timeframe := "1h";
     planned_capital := of_Z 1000; planned_dataset := "d" |}.
Let one_plan : PortfolioBacktestPlan :=
  {| plan_capital := of_Z 1500; plan_start := 0; plan_end := 2 * hour; plan_taker_fee_rate := Dec 1 (-3); plan_slippage_bps := d0;
     plan_spread_bps := d0; plan_sleeves := [one_sleeve] |}.
Let one_run : SleeveRun := {| run_planned := one_sleeve; run_strategy_fingerprint := "sha256:a"; run_result := one_result |}.
Let bar_at (t : datetime) (a b : Z) : Candle :=
  {| starts_at := t; open := of_Z a; high := of_Z (Z.max a b); low := of_Z (Z.min a b); close := of_Z b; volume := d1 |}.
Let one_basket : BasketInput :=
  {| basket_source := source_of one_sleeve; basket_candles := [bar_at 0 100 98; bar_at hour 98 110; bar_at (2 * hour) 110 110] |}.

Lemma combined_curve_is_one_account_witness :
  ∃ res, _combine (dc := simulation_context) one_plan [one_run] [one_basket] = Ok res ∧
    head (point_at <$> result_curve res) = Some 0 ∧ last (point_at <$> result_curve res) = Some (2 * hour).
Proof.
  destruct (_combine (dc := simulation_context) one_plan [one_run] [one_basket]) as [res|e] eqn:H; [|exfalso; vm_compute in H; discriminate H].
  exists res. split; [reflexivity|].
  destruct (combined_curve_is_one_account one_plan [one_run] [one_basket] res eq_refl H) as (series & _ & _ & Hhead & Hlast & _).
  split; [exact Hhead|exact Hlast].
Defined.
End Witnesses.
