(* ===== verification/Adoption.v ===== *)
(** * Adoption: coins the account already holds become a live book's position

    [trading/inventory_claims.py], [adoption.py], [adoption_write.py] and [memory_adoption.py]:
    what live books own or will own of a base currency, what of the venue's balance is left, the
    records of an adoption and their projection, and the commit of an adoption into the store.

    A commit happens in two atomic sections. Under the lock of the base the claims are read; then
    the venue is asked, and other clients may act; then everything is checked and written without
    waiting. The store the claims were read from and the store written to are two arguments. The
    texts of refusals end with their code; identifiers and the clock are arguments. *)

From S2P Require Import Prelude Decimals DecimalFacts Market Geometry Containers TradingModels.
From S2P Require Import FillLedger FillProjection ExecutionStore StoreFacts Protection RiskModels GateFacts Reconcile.

Open Scope Z_scope.

(** ** Claims on a base currency ([inventory_claims.py]) *)

Module ExchangeBalance.
Record ExchangeBalance := { currency : string; name : string; available : decimal; hold : decimal }.
End ExchangeBalance.
Notation ExchangeBalance := ExchangeBalance.ExchangeBalance.

Module BaseUnresolvedReason.
Inductive BaseUnresolvedReason :=
  | UNKNOWN_ORDER | FILL_ECONOMICS_UNSETTLED | ACCOUNTING_UNRESOLVED | BALANCE_MISSING | DUPLICATE_BALANCE_ROWS.
#[global] Instance eq_dec : EqDecision BaseUnresolvedReason. Proof. solve_decision. Defined.
End BaseUnresolvedReason.
Notation BaseUnresolvedReason := BaseUnresolvedReason.BaseUnresolvedReason.

Module ManagedBaseClaims.
Record ManagedBaseClaims := {
  base : string;
  managed_long : decimal;
  working_buys : decimal;
  working_short_entry_sells : decimal;
  unresolved : list BaseUnresolvedReason
}.
End ManagedBaseClaims.
Notation ManagedBaseClaims := ManagedBaseClaims.ManagedBaseClaims.

Module BaseAvailability.
Record BaseAvailability := {
  base : string;
  claims : ManagedBaseClaims;
  total : option decimal;
  available : option decimal;
  unmanaged : option decimal;
  adoptable : option decimal;
  reasons : list BaseUnresolvedReason
}.
End BaseAvailability.
Notation BaseAvailability := BaseAvailability.BaseAvailability.

Definition _WORKING : list OrderStatus := [OrderStatus.OPEN; OrderStatus.PENDING; OrderStatus.UNKNOWN].

(** [dict.fromkeys(reasons)] *)
Definition each_once (l : list BaseUnresolvedReason) : list BaseUnresolvedReason :=
  fold_left (λ seen x, if bool_decide (x ∈ seen) then seen else seen ++ [x]) l [].

(** [is_spot_product_id(product) and base_currency(product) == base] *)
Definition has_base (base product : string) : bool :=
  is_spot_product_id product && match base_currency product with Ok b => bool_decide (b = base) | Raise _ => false end.

(** The products of a book whose base is [base], in order. *)
Definition _base_products (s : DeploymentSnapshot) (base : string) : list string :=
  let d := DeploymentSnapshot.deployment s in
  sorted_set (List.filter (has_base base)
    (Deployment.product_id d
     :: ((λ o, resolved_product_id (Order.product_id o) d) <$> DeploymentSnapshot.orders s)
     ++ ((λ i, resolved_product_id (OrderIntent.product_id i) d) <$> DeploymentSnapshot.intents s)
     ++ ((λ p, resolved_product_id (Position.product_id p) d) <$> snapshot_positions s)
     ++ (InstrumentRuntime.product_id <$> DeploymentSnapshot.instrument_runtimes s))).

Definition within_products (s : DeploymentSnapshot) (products : list string) (product_id : string) : bool :=
  bool_decide (resolved_product_id product_id (DeploymentSnapshot.deployment s) ∈ products).

(** Entry intents whose order row is not written yet. *)
Definition _unordered_openings (intents : list OrderIntent) (ordered : list UUID) : list OrderIntent :=
  List.filter (λ i, bool_decide (OrderIntent.purpose i = IntentPurpose.ENTRY)
                    && negb (bool_decide (OrderIntent.id i ∈ ordered)) && bool_decide (OrderIntent.status i ∈ _WORKING)) intents.

Section Claims.
Context {dc : DecimalContext}.

Definition _book_reasons (s : DeploymentSnapshot) (products : list string) : list BaseUnresolvedReason :=
  (if DeploymentSnapshot.accounting_complete s then [] else [BaseUnresolvedReason.ACCOUNTING_UNRESOLVED])
  ++ concat ((λ product,
       let found := book_inventory_reasons s product in
       (if bool_decide ("fill_economics_unsettled" ∈ found) then [BaseUnresolvedReason.FILL_ECONOMICS_UNSETTLED] else [])
       ++ (if existsb (λ r, negb (bool_decide (r = "fill_economics_unsettled"))) found
           then [BaseUnresolvedReason.ACCOUNTING_UNRESOLVED] else [])) <$> products)
  ++ (if existsb (λ o, bool_decide (Order.status o = OrderStatus.UNKNOWN) && within_products s products (Order.product_id o))
           (DeploymentSnapshot.orders s)
      then [BaseUnresolvedReason.UNKNOWN_ORDER] else []).

(** An order that opens inventory and still works on one of the products. A missing intent counts
    as an entry. *)
Definition opening_order (s : DeploymentSnapshot) (products : list string) (o : Order) : bool :=
  bool_decide (Order.status o ∈ _WORKING) && within_products s products (Order.product_id o)
  && negb (Order.quantity o - Order.filled_quantity o <=? d0)%dec
  && bool_decide (default IntentPurpose.ENTRY (dict_get (Order.intent_id o) (purposes_of s)) ∈ INVENTORY_OPENING_PURPOSES).

Definition order_claim (o : Order) : OrderSide * decimal := (Order.side o, (Order.quantity o - Order.filled_quantity o)%dec).
Definition intent_claim (i : OrderIntent) : OrderSide * decimal := (OrderIntent.side i, OrderIntent.quantity i).

Definition working_claims (s : DeploymentSnapshot) (products : list string) : list (OrderSide * decimal) :=
  (order_claim <$> List.filter (opening_order s products) (DeploymentSnapshot.orders s))
  ++ (intent_claim <$> List.filter (λ i, within_products s products (OrderIntent.product_id i))
        (_unordered_openings (DeploymentSnapshot.intents s) (Order.intent_id <$> DeploymentSnapshot.orders s))).

(** The two running sums of the loops. *)
Definition add_claim (sums : decimal * decimal) (claim : OrderSide * decimal) : decimal * decimal :=
  match claim.1 with BUY => ((sums.1 + claim.2)%dec, sums.2) | SELL => (sums.1, (sums.2 + claim.2)%dec) end.

Definition _working_claims (s : DeploymentSnapshot) (products : list string) : decimal * decimal :=
  fold_left add_claim (working_claims s products) (d0, d0).

Definition long_on (s : DeploymentSnapshot) (products : list string) (p : Position) : bool :=
  match Position.side p with LONG => within_products s products (Position.product_id p) | SHORT => false end.

Definition book_longs (s : DeploymentSnapshot) (products : list string) : list decimal :=
  Position.quantity <$> List.filter (long_on s products) (snapshot_positions s).

(** One turn of the loop over the books. *)
Definition claim_book (c : ManagedBaseClaims) (s : DeploymentSnapshot) : ManagedBaseClaims :=
  match Deployment.mode (DeploymentSnapshot.deployment s), _base_products s (ManagedBaseClaims.base c) with
  | DeploymentMode.PAPER, _ | _, [] => c
  | DeploymentMode.LIVE, products =>
      let '(buys, sells) := _working_claims s products in
      {| ManagedBaseClaims.base := ManagedBaseClaims.base c;
         ManagedBaseClaims.managed_long := (ManagedBaseClaims.managed_long c + dsum (book_longs s products))%dec;
         ManagedBaseClaims.working_buys := (ManagedBaseClaims.working_buys c + buys)%dec;
         ManagedBaseClaims.working_short_entry_sells := (ManagedBaseClaims.working_short_entry_sells c + sells)%dec;
         ManagedBaseClaims.unresolved := ManagedBaseClaims.unresolved c ++ _book_reasons s products |}
  end.

Definition no_claims (base : string) : ManagedBaseClaims :=
  {| ManagedBaseClaims.base := base; ManagedBaseClaims.managed_long := d0; ManagedBaseClaims.working_buys := d0;
     ManagedBaseClaims.working_short_entry_sells := d0; ManagedBaseClaims.unresolved := [] |}.

Definition managed_base_claims (books : list DeploymentSnapshot) (base : string) : ManagedBaseClaims :=
  let c := fold_left claim_book books (no_claims base) in
  {| ManagedBaseClaims.base := base; ManagedBaseClaims.managed_long := ManagedBaseClaims.managed_long c;
     ManagedBaseClaims.working_buys := ManagedBaseClaims.working_buys c;
     ManagedBaseClaims.working_short_entry_sells := ManagedBaseClaims.working_short_entry_sells c;
     ManagedBaseClaims.unresolved := each_once (ManagedBaseClaims.unresolved c) |}.

Definition claimed (c : ManagedBaseClaims) : decimal :=
  (ManagedBaseClaims.managed_long c + ManagedBaseClaims.working_buys c + ManagedBaseClaims.working_short_entry_sells c)%dec.

(** [ExchangeBalance.total] *)
Definition balance_total (b : ExchangeBalance) : decimal := (ExchangeBalance.available b + ExchangeBalance.hold b)%dec.

Definition base_availability (balances : list ExchangeBalance) (c : ManagedBaseClaims) (base_increment : option decimal)
    : result BaseAvailability :=
  let rows := List.filter (λ b, bool_decide (ExchangeBalance.currency b = ManagedBaseClaims.base c)) balances in
  let unknown total available reasons :=
    Ok {| BaseAvailability.base := ManagedBaseClaims.base c; BaseAvailability.claims := c; BaseAvailability.total := total;
          BaseAvailability.available := available; BaseAvailability.unmanaged := None; BaseAvailability.adoptable := None;
          BaseAvailability.reasons := each_once reasons |} in
  match rows with
  | [] => unknown None None (ManagedBaseClaims.unresolved c ++ [BaseUnresolvedReason.BALANCE_MISSING])
  | _ :: _ :: _ => unknown None None (ManagedBaseClaims.unresolved c ++ [BaseUnresolvedReason.DUPLICATE_BALANCE_ROWS])
  | [row] =>
      let total := balance_total row in
      let available := ExchangeBalance.available row in
      if negb (bool_decide (ManagedBaseClaims.unresolved c = []))
      then unknown (Some total) (Some available) (ManagedBaseClaims.unresolved c)
      else
        let unmanaged := (total - claimed c)%dec in
        let adoptable := dmax d0 (dmin available unmanaged) in
        adoptable ← match base_increment with
          | Some increment =>
              if (d0 <? increment)%dec
              then q ← div adoptable increment; Ok (to_integral_value ROUND_DOWN q * increment)%dec
              else Ok adoptable
          | None => Ok adoptable
          end;
        Ok {| BaseAvailability.base := ManagedBaseClaims.base c; BaseAvailability.claims := c;
              BaseAvailability.total := Some total; BaseAvailability.available := Some available;
              BaseAvailability.unmanaged := Some unmanaged; BaseAvailability.adoptable := Some adoptable;
              BaseAvailability.reasons := [] |}
  end.

Definition unmanaged_available_base (balances : list ExchangeBalance) (books : list DeploymentSnapshot) (base : string)
    : result (option decimal) :=
  a ← base_availability balances (managed_base_claims books base) None; Ok (BaseAvailability.adoptable a).

End Claims.

(** ** Records and projection ([adoption.py]) *)

Definition ADOPTION_CLIENT_ORDER_PREFIX : string := "adopt:".

Module AdoptionRecords.
Record AdoptionRecords := { intent : OrderIntent; order : Order; fill : Fill }.
End AdoptionRecords.
Notation AdoptionRecords := AdoptionRecords.AdoptionRecords.

(** The four [uuid7(now)] of [adoption_records], in the order they are drawn. *)
Record AdoptionIds := { client_uuid : UUID; intent_uuid : UUID; order_uuid : UUID; fill_uuid : UUID }.

(** [_require_positive] *)
Definition _require_positive (name : string) (value : decimal) : result unit :=
  guard_or (d0 <? value)%dec (ValueError ("Adoption " ++ name ++ " must be a positive finite decimal.")).

Definition adoption_client_id (deployment_id : UUID) (ids : AdoptionIds) : string :=
  ADOPTION_CLIENT_ORDER_PREFIX ++ deployment_id ++ ":" ++ client_uuid ids.

Definition adoption_intent (deployment_id : UUID) (product_id : string) (quantity mark : decimal)
    (mark_bar_starts_at now : datetime) (origin : IntentOrigin) (key : option string) (ids : AdoptionIds) : OrderIntent := {|
  OrderIntent.id := intent_uuid ids; OrderIntent.deployment_id := deployment_id;
  OrderIntent.client_order_id := adoption_client_id deployment_id ids; OrderIntent.purpose := IntentPurpose.ADOPTION;
  OrderIntent.side := BUY; OrderIntent.kind := OrderKind.ADOPTION; OrderIntent.quantity := quantity;
  OrderIntent.created_at := now; OrderIntent.candle_starts_at := mark_bar_starts_at; OrderIntent.price := Some mark;
  OrderIntent.stop_trigger_price := None; OrderIntent.take_profit_price := None; OrderIntent.status := OrderStatus.FILLED;
  OrderIntent.origin := origin; OrderIntent.idempotency_key := key; OrderIntent.product_id := product_id |}.

Definition adoption_order (deployment_id : UUID) (product_id : string) (quantity mark : decimal) (now : datetime)
    (ids : AdoptionIds) : Order := {|
  Order.id := order_uuid ids; Order.deployment_id := deployment_id; Order.intent_id := intent_uuid ids;
  Order.client_order_id := adoption_client_id deployment_id ids; Order.side := BUY; Order.kind := OrderKind.ADOPTION;
  Order.quantity := quantity; Order.status := OrderStatus.FILLED; Order.created_at := now; Order.updated_at := now;
  Order.price := Some mark; Order.filled_quantity := quantity; Order.venue_order_id := None; Order.reject_reason := None;
  Order.stop_trigger_price := None; Order.take_profit_price := None; Order.product_id := product_id;
  Order.parent_order_id := None; Order.attached_child_venue_order_id := None; Order.pyramid_add := false;
  Order.venue_observed_at := None; Order.canceled_at := None; Order.settled_at := None |}.

Definition adoption_fill (deployment_id : UUID) (quantity mark : decimal) (now : datetime) (ids : AdoptionIds) : Fill := {|
  Fill.id := fill_uuid ids; Fill.deployment_id := deployment_id; Fill.order_id := order_uuid ids;
  Fill.venue_fill_id := adoption_client_id deployment_id ids ++ ":fill"; Fill.price := mark; Fill.quantity := quantity;
  Fill.fee := d0; Fill.filled_at := now; Fill.venue_order_id := None; Fill.economics_applied_at := Some now |}.

Definition adoption_records (deployment_id : UUID) (product_id : string) (quantity mark : decimal)
    (mark_bar_starts_at now : datetime) (origin : IntentOrigin) (key : option string) (ids : AdoptionIds)
    : result AdoptionRecords :=
  _ ← _require_positive "quantity" quantity;
  _ ← _require_positive "mark" mark;
  _ ← guard_or (mark_bar_starts_at <=? now) (ValueError "The adoption mark bar must start before the adoption.");
  _ ← guard_or (negb (bool_decide (product_id = ""))) (ValueError "An adoption needs a product id.");
  Ok {| AdoptionRecords.intent := adoption_intent deployment_id product_id quantity mark mark_bar_starts_at now origin key ids;
        AdoptionRecords.order := adoption_order deployment_id product_id quantity mark now ids;
        AdoptionRecords.fill := adoption_fill deployment_id quantity mark now ids |}.

(** The two calls of [with_runtime]: the pending levels are cleared, then staged. *)
Definition levels_change (stop target : option decimal) (bar : option datetime) (clear : bool) : RuntimeChange := {|
  new_cash := None; new_phase := None; new_mismatch_detail := None; clear_mismatch := false;
  new_last_evaluated_bar := bar; new_last_signal := None; new_pending_entry_bars := None; new_bars_held := None;
  new_cooldown_bars_remaining := None; new_pending_stop_price := stop; new_pending_target_price := target;
  clear_pending_levels := clear; new_status := None; new_lifecycle_command := None; new_daily_loss_latched := None;
  new_drawdown_latched := None; new_last_signal_event_at := None; new_last_signal_processed_at := None |}.

Definition staged_deployment (d : Deployment) (instant : datetime) (stop : decimal) (target : option decimal)
    (mark_bar : datetime) : Deployment :=
  let cleared := with_runtime d instant (levels_change None None None true) in
  let newer := match Runtime.last_evaluated_bar d with Some previous => previous <? mark_bar | None => true end in
  with_runtime cleared instant (levels_change (Some stop) target (if newer then Some mark_bar else None) false).

(** [replace(snapshot, deployment=..., intents=..., orders=...)] *)
Definition with_adoption (s : DeploymentSnapshot) (d : Deployment) (r : AdoptionRecords) : DeploymentSnapshot :=
  DeploymentSnapshot.mk d (DeploymentSnapshot.position s) (DeploymentSnapshot.orders s ++ [AdoptionRecords.order r])
    (DeploymentSnapshot.fills s) (DeploymentSnapshot.intents s ++ [AdoptionRecords.intent r]) (DeploymentSnapshot.positions s)
    (DeploymentSnapshot.instrument_runtimes s) (DeploymentSnapshot.accounting_complete s) (DeploymentSnapshot.funding s).

Section Projection.
Context {dc : DecimalContext}.

Definition project_adoption (s : DeploymentSnapshot) (r : AdoptionRecords) (stop_price : decimal) (target_price : option decimal)
    (t1 t2 t3 : datetime) : result (DeploymentSnapshot * Fill) :=
  let d := DeploymentSnapshot.deployment s in
  let order := AdoptionRecords.order r in
  let intent := AdoptionRecords.intent r in
  let fill := AdoptionRecords.fill r in
  _ ← guard_or (bool_decide (Deployment.mode d = DeploymentMode.LIVE)) (ValueError "Inventory adoption is live-only.");
  _ ← guard_or (bool_decide (Order.kind order = OrderKind.ADOPTION)
                && bool_decide (OrderIntent.purpose intent = IntentPurpose.ADOPTION)
                && bool_decide (OrderIntent.deployment_id intent = Deployment.id d)
                && bool_decide (Order.deployment_id order = Deployment.id d)
                && bool_decide (Fill.deployment_id fill = Deployment.id d))
        (ValueError "The records are not an adoption for this book.");
  let product_id := resolved_product_id (Order.product_id order) d in
  _ ← guard_or (negb (existsb (λ p, of_product d product_id (Position.product_id p)) (snapshot_positions s)))
        (ValueError "Adoption needs a flat product book.");
  let mark := Fill.price fill in
  _ ← _require_positive "stop_price" stop_price;
  _ ← guard_or (negb ((mark <=? stop_price)%dec || match target_price with Some t => (t <=? mark)%dec | None => false end))
        (ValueError "An adopted long needs a stop below and a target above the mark.");
  let staged := staged_deployment d (Fill.filled_at fill) stop_price target_price (OrderIntent.candle_starts_at intent) in
  project_fill_economics (with_adoption s staged r) fill order 0 (Deployment.timeframe d) t1 t2 t3.

End Projection.

(** ** One adoption to commit ([adoption_write.py]) *)

Definition ADOPTION_BASE_UNRESOLVED : string := "ADOPTION_BASE_UNRESOLVED".
Definition ADOPTION_QUANTITY_UNAVAILABLE : string := "ADOPTION_QUANTITY_UNAVAILABLE".
Definition ADOPTION_BALANCE_UNAVAILABLE : string := "ADOPTION_BALANCE_UNAVAILABLE".
Definition ADOPTION_REFUSED : string := "ADOPTION_REFUSED".

(** [AdoptionRefusedError], an [ExecutionConflictError]. *)
Definition adoption_refused (code : string) : error := ExecutionConflictError code.

Module AdoptionWrite.
Record AdoptionWrite := {
  deployment_id : UUID;
  product_id : string;
  quantity : option decimal;
  mark : decimal;
  mark_bar_starts_at : datetime;
  now : datetime;
  origin : IntentOrigin;
  stop_price : decimal;
  target_price : option decimal;
  base_increment : decimal;
  idempotency_key : option string;
  new_deployment : option Deployment;
  expected_revision : option Z;
  respect_entry_latch : bool
}.

Definition base (w : AdoptionWrite) : result string := base_currency (product_id w).
End AdoptionWrite.
Notation AdoptionWrite := AdoptionWrite.AdoptionWrite.

Module PreparedAdoption.
Record PreparedAdoption := {
  records : AdoptionRecords;
  projected : DeploymentSnapshot;
  fill : Fill;
  availability : BaseAvailability
}.
End PreparedAdoption.
Notation PreparedAdoption := PreparedAdoption.PreparedAdoption.

Module AdoptionCommit.
Record AdoptionCommit := { snapshot : DeploymentSnapshot; records : AdoptionRecords; availability : BaseAvailability }.
End AdoptionCommit.
Notation AdoptionCommit := AdoptionCommit.AdoptionCommit.

Section Write.
Context {dc : DecimalContext}.

(** [a % b], with the sign of [a]; refused when the whole quotient has more digits than the
    context. *)
Definition remainder (a b : decimal) : result decimal :=
  if (coef b =? 0)%Z then Raise InvalidOperation
  else
    let m := Z.min (exponent a) (exponent b) in
    let n := coef a * 10 ^ (exponent a - m) in
    let d := coef b * 10 ^ (exponent b - m) in
    if 10 ^ prec <=? Z.abs (Z.quot n d) then Raise InvalidOperation else Ok (fix_ (Dec (Z.rem n d) m)).

Definition _adopted_quantity (w : AdoptionWrite) (adoptable : decimal) : result decimal :=
  let quantity := default adoptable (AdoptionWrite.quantity w) in
  let increment := AdoptionWrite.base_increment w in
  let unavailable := adoption_refused ADOPTION_QUANTITY_UNAVAILABLE in
  _ ← guard_or (d0 <? quantity)%dec unavailable;
  _ ← (if (d0 <? increment)%dec then rest ← remainder quantity increment; guard_or (rest =? d0)%dec unavailable else Ok tt);
  _ ← guard_or (negb (adoptable <? quantity)%dec) unavailable;
  Ok quantity.

(** [except ValueError] around the projection. *)
Definition as_refusal {A} (r : result A) : result A :=
  match r with Raise (ValueError _) => Raise (adoption_refused ADOPTION_REFUSED) | r => r end.

Definition prepare_adoption (w : AdoptionWrite) (book : DeploymentSnapshot) (live_books : list DeploymentSnapshot)
    (balances : list ExchangeBalance) (ids : AdoptionIds) (t1 t2 t3 : datetime) : result PreparedAdoption :=
  _ ← guard_or (bool_decide (Deployment.id (DeploymentSnapshot.deployment book) = AdoptionWrite.deployment_id w))
        (adoption_refused ADOPTION_REFUSED);
  base ← AdoptionWrite.base w;
  availability ← base_availability balances (managed_base_claims live_books base) (Some (AdoptionWrite.base_increment w));
  match BaseAvailability.adoptable availability with
  | None => Raise (adoption_refused ADOPTION_BASE_UNRESOLVED)
  | Some adoptable =>
      quantity ← _adopted_quantity w adoptable;
      records ← adoption_records (AdoptionWrite.deployment_id w) (AdoptionWrite.product_id w) quantity (AdoptionWrite.mark w)
                  (AdoptionWrite.mark_bar_starts_at w) (AdoptionWrite.now w) (AdoptionWrite.origin w)
                  (AdoptionWrite.idempotency_key w) ids;
      '(projected, fill) ← as_refusal (project_adoption book records (AdoptionWrite.stop_price w) (AdoptionWrite.target_price w) t1 t2 t3);
      Ok {| PreparedAdoption.records := records; PreparedAdoption.projected := projected; PreparedAdoption.fill := fill;
            PreparedAdoption.availability := availability |}
  end.

(** Any failure to read the balances refuses. *)
Definition read_venue_balances (answer : result (list ExchangeBalance)) : result (list ExchangeBalance) :=
  match answer with Ok balances => Ok balances | Raise _ => Raise (adoption_refused ADOPTION_BALANCE_UNAVAILABLE) end.

Definition flat_snapshot (d : Deployment) : DeploymentSnapshot := DeploymentSnapshot.mk d None [] [] [] [] [] true [].

(** ** The in-memory store ([memory_adoption.py]) *)

(** The books whose claims count, read under the lock of the base. *)
Definition live_books (st : Store) : result (list DeploymentSnapshot) :=
  result_mapM (λ d : Deployment, get_deployment st (Deployment.id d))
    (List.filter (λ d : Deployment, bool_decide (Deployment.mode d = DeploymentMode.LIVE)) (dict_values (deployments st))).

Definition _target_book (st : Store) (w : AdoptionWrite) : result DeploymentSnapshot :=
  match AdoptionWrite.new_deployment w with
  | Some created =>
      _ ← guard_or (bool_decide (Deployment.id created = AdoptionWrite.deployment_id w)
                    && bool_decide (dict_get (Deployment.id created) (deployments st) = None))
            (ExecutionConflictError "The new book is not the adoption's book.");
      Ok (flat_snapshot created)
  | None =>
      book ← get_deployment st (AdoptionWrite.deployment_id w);
      _ ← require_revision (AdoptionWrite.expected_revision w) (DeploymentSnapshot.deployment book);
      Ok book
  end.

Definition _insert_book (st : Store) (gate : Gate) (w : AdoptionWrite) : result Store :=
  match AdoptionWrite.new_deployment w with
  | None => Ok st
  | Some created =>
      if AdoptionWrite.respect_entry_latch w then create_deployment st gate created
      else Ok (set_deployments st (dict_set (Deployment.id created) created (deployments st)))
  end.

(** [_write]: a save that fails leaves what was written before it. *)
Definition _write (st : Store) (gate : Gate) (fence : option (UUID * string)) (book : DeploymentSnapshot) (p : PreparedAdoption)
    : Store * result DeploymentSnapshot :=
  let records := PreparedAdoption.records p in
  let projected := PreparedAdoption.projected p in
  let deployment_id := Deployment.id (DeploymentSnapshot.deployment book) in
  match save_intent st gate fence (AdoptionRecords.intent records) with
  | Raise e => (st, Raise e)
  | Ok st =>
      let st := save_order st (AdoptionRecords.order records) in
      let st := (save_fill st (PreparedAdoption.fill p)).1 in
      let product_id := resolved_product_id (Order.product_id (AdoptionRecords.order records)) (DeploymentSnapshot.deployment book) in
      let st := save_position st (DeploymentSnapshot.position projected) deployment_id (Some product_id) in
      let st := fold_left (λ st runtime, save_instrument_runtime st runtime deployment_id)
                  (DeploymentSnapshot.instrument_runtimes projected) st in
      match save_deployment st (fill_projection_deployment book projected) None None with
      | Raise e => (st, Raise e)
      | Ok (st, _) => (st, get_deployment st deployment_id)
      end
  end.

(** What is decided before the first write: the target book and what to write. *)
Definition check_adoption (before st : Store) (answer : result (list ExchangeBalance)) (w : AdoptionWrite) (ids : AdoptionIds)
    (t1 t2 t3 : datetime) : result (DeploymentSnapshot * PreparedAdoption) :=
  _ ← AdoptionWrite.base w;
  books ← live_books before;
  balances ← read_venue_balances answer;
  book ← _target_book st w;
  prepared ← prepare_adoption w book books balances ids t1 t2 t3;
  _ ← match AdoptionWrite.idempotency_key w with
      | Some key => guard_or (bool_decide (get_intent_by_idempotency_key st key = None)) DUPLICATE_KEY
      | None => Ok tt
      end;
  Ok (book, prepared).

(** [adopt_inventory]: the claims are those of [before], the writes are to [st]. *)
Definition adopt_inventory (before st : Store) (answer : result (list ExchangeBalance)) (gate : Gate)
    (fence : option (UUID * string)) (w : AdoptionWrite) (ids : AdoptionIds) (t1 t2 t3 : datetime)
    : Store * result AdoptionCommit :=
  match check_adoption before st answer w ids t1 t2 t3 with
  | Raise e => (st, Raise e)
  | Ok (book, prepared) =>
      match _insert_book st gate w with
      | Raise e => (st, Raise e)
      | Ok st =>
          let '(st, snapshot) := _write st gate fence book prepared in
          (st, snapshot ← snapshot;
               Ok {| AdoptionCommit.snapshot := snapshot; AdoptionCommit.records := PreparedAdoption.records prepared;
                     AdoptionCommit.availability := PreparedAdoption.availability prepared |})
      end
  end.

End Write.

(** ** Amounts on a grid *)

Section Amounts.
Context {dc : DecimalContext} (g : Z).

(** Ten times below the precision: then a quotient of amounts does not round up to an integer. *)
Definition roomy (q : Q) : Prop := (q <= p10 (prec - 1 - g))%Q.

Lemma roomy_fits q : roomy q → (q <= p10 (prec - g))%Q.
Proof.
  unfold roomy. intros H. replace (prec - g) with (1 + (prec - 1 - g)) by lia. rewrite (p10_add 1).
  change (p10 1) with 10%Q. pose proof (p10_pos (prec - 1 - g)). lra.
Qed.

Lemma coin_zero : coin g d0.
Proof. split; [exists 0; rewrite val_d0; ring|by rewrite val_d0]. Qed.

Lemma coin_add a b : coin g a → coin g b → (val a + val b <= p10 (prec - g))%Q →
  (val (a + b)%dec == val a + val b)%Q ∧ coin g (a + b)%dec.
Proof.
  intros [Ha Han] [Hb Hbn] H. assert (val (a + b)%dec == val a + val b)%Q as E by (apply (add_on_grid g); [done..|lra]).
  split; [done|]. split; [|rewrite E; lra]. eapply on_grid_eq; [symmetry; exact E|by apply on_grid_plus].
Qed.

Lemma coins_nonneg l : Forall (coin g) l → (0 <= total val l)%Q.
Proof. intros H. apply total_nonneg. intros x Hx. rewrite Forall_forall in H. by apply H. Qed.

(** A running sum of amounts that fit is exact. *)
Lemma fold_coins l : Forall (coin g) l → ∀ acc, coin g acc → (val acc + total val l <= p10 (prec - g))%Q →
  (val (fold_left add l acc) == val acc + total val l)%Q ∧ coin g (fold_left add l acc).
Proof.
  induction 1 as [|x l Hx Hl IH]; intros acc Hacc Hle; cbn [fold_left total] in *; [split; [ring|done]|].
  pose proof (coins_nonneg l Hl) as Ht. destruct (coin_add acc x Hacc Hx ltac:(lra)) as [E Hc].
  destruct (IH _ Hc ltac:(rewrite E; lra)) as [E' Hc']. split; [|done]. rewrite E', E. ring.
Qed.

(** Snapping an amount down to a multiple of an increment never exceeds it. *)
Lemma snapped_down a i q : coin g a → on_grid g (val i) → (0 < val i)%Q → roomy (val a) → div a i = Ok q →
  (val (to_integral_value ROUND_DOWN q * i)%dec <= val a)%Q.
Proof.
  intros [[m Hm] Ha] [j Hj] Hi Hr Hq. apply div_rounds in Hq as [_ Hq]. pose proof prec_pos as Hp. pose proof (p10_pos (- g)) as Hg.
  assert (0 <= val a / val i)%Q as Hq0 by (apply Qle_shift_div_l; lra).
  pose proof (rounds_nonneg _ _ Hp Hq Hq0) as Hqn. destruct (rounds_bounds _ _ Hq Hq0) as [_ Hup].
  assert (∃ n, val (to_integral_value ROUND_DOWN q) == inject_Z n ∧ inject_Z n <= val q)%Q as (n & Hn & Hnq).
  { unfold to_integral_value. destruct (Z.leb_spec 0 (exponent q)) as [He|He].
    - exists (coef q * 10 ^ exponent q). split; [|apply Qle_lteq; right; symmetry]; unfold val; rewrite inject_Z_mult, p10_Z by done; ring.
    - destruct (rescale_integer ROUND_DOWN q) as (n & Hn & Hi' & _). exists n. rewrite Hn, val_of_Z. split; [done|]. by apply Hi'. }
  assert (0 < j) as Hj0.
  { rewrite Zlt_Qlt. change (inject_Z 0) with 0%Q. apply (Qmult_lt_r _ _ (p10 (- g))); [done|]. rewrite <- Hj. lra. }
  assert (val a == val a / val i * val i)%Q as Hd by (field; lra). set (w := (val a / val i)%Q) in *.
  assert (n * j <= m) as Hle.
  { apply Z.lt_succ_r. rewrite Zlt_Qlt. unfold Z.succ. rewrite inject_Z_plus, inject_Z_mult. change (inject_Z 1) with 1%Q.
    assert (inject_Z m == w * inject_Z j)%Q as Hmj.
    { apply (Qmult_inj_r _ _ (p10 (- g))); [lra|]. rewrite <- Hm, Hd, Hj. ring. }
    assert (inject_Z m * half_ulp prec <= 1 # 2)%Q as Hhalf.
    { unfold roomy in Hr. rewrite Hm in Hr. replace (prec - 1 - g) with (prec - 1 + - g) in Hr by lia. rewrite (p10_add (prec - 1)) in Hr.
      apply Qmult_le_r in Hr; [|done]. unfold half_ulp.
      assert (p10 (prec - 1) * p10 (1 - prec) == 1)%Q as Hone.
      { rewrite <- (p10_add (prec - 1)). by replace (prec - 1 + (1 - prec)) with 0 by lia. }
      pose proof (p10_pos (1 - prec)) as Hu. assert (inject_Z m * p10 (1 - prec) <= 1)%Q; [|lra].
      rewrite <- Hone. apply Qmult_le_compat_r; lra. }
    assert (0 < inject_Z j)%Q as Hjq by (change 0%Q with (inject_Z 0); by rewrite <- Zlt_Qlt).
    assert (inject_Z n * inject_Z j <= w * (1 + half_ulp prec) * inject_Z j)%Q as H1 by (apply Qmult_le_compat_r; lra).
    assert (w * (1 + half_ulp prec) * inject_Z j == inject_Z m + inject_Z m * half_ulp prec)%Q as H2 by (rewrite Hmj; ring).
    lra. }
  apply (rounds_le (p := prec) _ _ _ (mul_rounds _ _)).
  - apply (on_grid_representable _ g); [lia|by exists m|]. rewrite Qabs_pos by done. by apply roomy_fits.
  - rewrite Hn, Hj, Hm, Qmult_assoc, <- inject_Z_mult. apply Qmult_le_compat_r; [by rewrite <- Zle_Qle|lra].
Qed.

End Amounts.

(** ** The claims, exactly *)

Section Owned.
Context {dc : DecimalContext} (base : string).

Definition on_base (s : DeploymentSnapshot) (product_id : string) : bool :=
  has_base base (resolved_product_id product_id (DeploymentSnapshot.deployment s)).

Definition long_on_base (s : DeploymentSnapshot) (p : Position) : bool :=
  match Position.side p with LONG => on_base s (Position.product_id p) | SHORT => false end.

Definition opening_on_base (s : DeploymentSnapshot) (o : Order) : bool :=
  bool_decide (Order.status o ∈ _WORKING) && on_base s (Order.product_id o)
  && negb (Order.quantity o - Order.filled_quantity o <=? d0)%dec
  && bool_decide (default IntentPurpose.ENTRY (dict_get (Order.intent_id o) (purposes_of s)) ∈ INVENTORY_OPENING_PURPOSES).

Definition book_claims (s : DeploymentSnapshot) : list (OrderSide * decimal) :=
  (order_claim <$> List.filter (opening_on_base s) (DeploymentSnapshot.orders s))
  ++ (intent_claim <$> List.filter (λ i, on_base s (OrderIntent.product_id i))
        (_unordered_openings (DeploymentSnapshot.intents s) (Order.intent_id <$> DeploymentSnapshot.orders s))).

(** What a book owns or will own of the base, amount by amount. *)
Definition book_amounts (s : DeploymentSnapshot) : list decimal :=
  match Deployment.mode (DeploymentSnapshot.deployment s) with
  | DeploymentMode.PAPER => []
  | DeploymentMode.LIVE => (Position.quantity <$> List.filter (long_on_base s) (snapshot_positions s)) ++ (snd <$> book_claims s)
  end.

Definition owned (books : list DeploymentSnapshot) : list decimal := concat (map book_amounts books).

Lemma within_base s product_id :
  resolved_product_id product_id (DeploymentSnapshot.deployment s) ∈
    Deployment.product_id (DeploymentSnapshot.deployment s)
     :: ((λ o, resolved_product_id (Order.product_id o) (DeploymentSnapshot.deployment s)) <$> DeploymentSnapshot.orders s)
     ++ ((λ i, resolved_product_id (OrderIntent.product_id i) (DeploymentSnapshot.deployment s)) <$> DeploymentSnapshot.intents s)
     ++ ((λ p, resolved_product_id (Position.product_id p) (DeploymentSnapshot.deployment s)) <$> snapshot_positions s)
     ++ (InstrumentRuntime.product_id <$> DeploymentSnapshot.instrument_runtimes s) →
  within_products s (_base_products s base) product_id = on_base s product_id.
Proof.
  intros Hin. unfold within_products, on_base, _base_products. cbv zeta.
  destruct (has_base base _) eqn:E.
  - apply bool_decide_eq_true. rewrite elem_of_sorted_set, elem_of_filter_bool. done.
  - apply bool_decide_eq_false. rewrite elem_of_sorted_set, elem_of_filter_bool. by intros [? _]; congruence.
Qed.

Lemma filter_same_in {A} (f h : A → bool) l : (∀ x, x ∈ l → f x = h x) → List.filter f l = List.filter h l.
Proof. intros H. apply List.filter_ext_in. intros x Hx. by apply H, list_elem_of_In. Qed.

Lemma book_longs_base s : book_longs s (_base_products s base) = Position.quantity <$> List.filter (long_on_base s) (snapshot_positions s).
Proof.
  unfold book_longs. f_equal. apply filter_same_in. intros p Hp. unfold long_on, long_on_base. destruct (Position.side p); [|done].
  apply within_base. right. rewrite !elem_of_app. right. right. left. apply list_elem_of_fmap. by exists p.
Qed.

Lemma working_claims_base s : working_claims s (_base_products s base) = book_claims s.
Proof.
  unfold working_claims, book_claims. f_equal; f_equal; apply filter_same_in.
  - intros o Ho. unfold opening_order, opening_on_base. rewrite within_base; [done|].
    right. rewrite !elem_of_app. left. apply list_elem_of_fmap. by exists o.
  - intros i Hi. unfold _unordered_openings in Hi. apply elem_of_filter_bool in Hi as [_ Hi]. apply within_base.
    right. rewrite !elem_of_app. right. left. apply list_elem_of_fmap. by exists i.
Qed.

(** A book without products of the base claims nothing. *)
Lemma no_products_no_amounts s : _base_products s base = [] → book_amounts s = [].
Proof.
  intros H. unfold book_amounts. destruct (Deployment.mode _); [done|]. rewrite <- book_longs_base, <- working_claims_base, H.
  assert (∀ pid, within_products s [] pid = false) as Hnone by (intros pid; apply bool_decide_eq_false, not_elem_of_nil).
  assert (∀ A (f : A → bool) l, (∀ x, f x = false) → List.filter f l = []) as Hnil.
  { intros A f l Hf. induction l as [|x l IH]; [done|]. cbn. by rewrite Hf. }
  unfold book_longs, working_claims. rewrite !Hnil; [done|..].
  - intros i. apply Hnone.
  - intros o. unfold opening_order. by rewrite Hnone, andb_false_r.
  - intros p. unfold long_on. by destruct (Position.side p).
Qed.

(** The two sums of the loops over orders and intents. *)
Definition of_side (side : OrderSide) (l : list (OrderSide * decimal)) : list decimal :=
  snd <$> List.filter (λ c : OrderSide * decimal, match c.1, side with BUY, BUY | SELL, SELL => true | _, _ => false end) l.

Lemma add_claims l : ∀ buys sells,
  fold_left add_claim l (buys, sells) = (fold_left add (of_side BUY l) buys, fold_left add (of_side SELL l) sells).
Proof. induction l as [|[[] q] l IH]; intros buys sells; cbn; [done|exact (IH _ _)|exact (IH _ _)]. Qed.

Lemma sides_perm l : snd <$> l ≡ₚ of_side BUY l ++ of_side SELL l.
Proof.
  induction l as [|[[] q] l IH]; cbn; [done|by f_equiv|]. rewrite IH. unfold of_side. cbn. apply Permutation_middle.
Qed.

Definition exact_claims (g : Z) (c : ManagedBaseClaims) (q : Q) : Prop :=
  ManagedBaseClaims.base c = base ∧ coin g (ManagedBaseClaims.managed_long c) ∧ coin g (ManagedBaseClaims.working_buys c) ∧
  coin g (ManagedBaseClaims.working_short_entry_sells c) ∧
  (val (ManagedBaseClaims.managed_long c) + val (ManagedBaseClaims.working_buys c)
   + val (ManagedBaseClaims.working_short_entry_sells c) == q)%Q.

(** One book's claims are added exactly as long as everything claimed fits. *)
Lemma claim_book_exact g c s q : exact_claims g c q → Forall (coin g) (book_amounts s) →
  (q + total val (book_amounts s) <= p10 (prec - g))%Q →
  exact_claims g (claim_book c s) (q + total val (book_amounts s)).
Proof.
  intros (Hb & Hl & Hbuy & Hsell & Hq) Hcoins Hfit. unfold claim_book. rewrite Hb.
  destruct (Deployment.mode (DeploymentSnapshot.deployment s)) eqn:Hmode.
  { unfold book_amounts. rewrite Hmode. cbn [total]. split_and!; [done..|]. rewrite Hq. ring. }
  destruct (_base_products s base) as [|p products] eqn:Hp.
  { rewrite (no_products_no_amounts s Hp). cbn [total]. split_and!; [done..|]. rewrite Hq. ring. }
  rewrite <- Hp. unfold _working_claims. rewrite working_claims_base, book_longs_base, add_claims.
  unfold book_amounts in *. rewrite Hmode in *. rewrite sides_perm in Hcoins. pose proof (total_perm val _ _ (sides_perm (book_claims s))) as Hsides.
  rewrite !total_app in Hsides. rewrite !total_app in Hfit.
  set (longs := Position.quantity <$> _) in *. set (buys := of_side BUY _) in *. set (sells := of_side SELL _) in *.
  rewrite !Forall_app in Hcoins. destruct Hcoins as (Cl & Cb & Cs).
  pose proof (coins_nonneg g _ Cl) as Nl. pose proof (coins_nonneg g _ Cb) as Nb. pose proof (coins_nonneg g _ Cs) as Ns.
  destruct Hl as [Hlg Hln], Hbuy as [Hbg Hbn], Hsell as [Hsg Hsn]. pose proof val_d0 as Hz.
  assert (0 <= q)%Q as Hq0 by lra.
  assert (q + total val longs + total val buys + total val sells <= p10 (prec - g))%Q as Hroom by (rewrite Hsides in Hfit; lra).
  clear Hfit.
  destruct (fold_coins g longs Cl d0 (coin_zero g)) as [El Gl]; [lra|].
  destruct (fold_coins g buys Cb d0 (coin_zero g)) as [Eb Gb]; [lra|].
  destruct (fold_coins g sells Cs d0 (coin_zero g)) as [Es Gs]; [lra|].
  destruct (coin_add g (ManagedBaseClaims.managed_long c) (dsum longs)) as [E1 C1]; [done|exact Gl|unfold dsum; lra|].
  destruct (coin_add g (ManagedBaseClaims.working_buys c) (fold_left add buys d0)) as [E2 C2]; [done|exact Gb|lra|].
  destruct (coin_add g (ManagedBaseClaims.working_short_entry_sells c) (fold_left add sells d0)) as [E3 C3]; [done|exact Gs|lra|].
  split_and!; [done|exact C1|exact C2|exact C3|]. cbn. rewrite total_app, Hsides, E1, E2, E3. unfold dsum. rewrite El, Eb, Es, Hz, <- Hq. ring.
Qed.

(** The code's claims are exactly what the books own or will own. *)
Lemma claims_exact g books : Forall (coin g) (owned books) → (total val (owned books) <= p10 (prec - g))%Q →
  (val (claimed (managed_base_claims books base)) == total val (owned books))%Q ∧
  coin g (claimed (managed_base_claims books base)).
Proof.
  intros Hcoins Hfit.
  assert (∀ books c q, exact_claims g c q → (0 <= q)%Q → Forall (coin g) (owned books) → (q + total val (owned books) <= p10 (prec - g))%Q →
    exact_claims g (fold_left claim_book books c) (q + total val (owned books))%Q) as Hfold.
  { clear. induction books as [|s books IH]; intros c q Hc Hq Hcoins Hfit; cbn [fold_left].
    { destruct Hc as (? & ? & ? & ? & E). split_and!; [done..|]. rewrite E. cbn. ring. }
    change (owned (s :: books)) with (book_amounts s ++ owned books) in *. apply Forall_app in Hcoins as [Cs Cb].
    rewrite total_app in Hfit. pose proof (coins_nonneg g _ Cs) as Ns. pose proof (coins_nonneg g _ Cb) as Nb.
    destruct (IH _ _ (claim_book_exact g c s q Hc Cs ltac:(lra)) ltac:(lra) Cb ltac:(lra)) as (H1 & H2 & H3 & H4 & E).
    split_and!; [done..|]. rewrite E, total_app. ring. }
  destruct (Hfold books (no_claims base) 0%Q) as (_ & Cl & Cb & Cs & E); [|lra|done|lra|].
  { split_and!; [done|apply coin_zero..|]. cbn. rewrite val_d0. ring. }
  unfold claimed, managed_base_claims. cbn. set (c := fold_left _ _ _) in *.
  pose proof (proj2 Cl) as Nl. pose proof (proj2 Cb) as Nb. pose proof (proj2 Cs) as Ns.
  destruct (coin_add g _ _ Cl Cb) as [E1 C1]; [lra|]. destruct (coin_add g _ _ C1 Cs) as [E2 C2]; [rewrite E1; lra|].
  split; [|done]. rewrite E2, E1. lra.
Qed.

End Owned.

(** ** What a checked adoption satisfies *)

Section Checked.
Context {dc : DecimalContext}.

Definition unmanaged_room (row : ExchangeBalance) (c : ManagedBaseClaims) : decimal :=
  dmax d0 (dmin (ExchangeBalance.available row) (balance_total row - claimed c)%dec).

Definition rows_for (base : string) (balances : list ExchangeBalance) : list ExchangeBalance :=
  List.filter (λ b, bool_decide (ExchangeBalance.currency b = base)) balances.

(** A known adoptable quantity comes from the one row of the base and resolved claims. *)
Lemma availability_known balances c i a q : base_availability balances c (Some i) = Ok a → BaseAvailability.adoptable a = Some q →
  ∃ row, rows_for (ManagedBaseClaims.base c) balances = [row] ∧ ManagedBaseClaims.unresolved c = [] ∧
    if (d0 <? i)%dec then ∃ x, div (unmanaged_room row c) i = Ok x ∧ q = (to_integral_value ROUND_DOWN x * i)%dec
    else q = unmanaged_room row c.
Proof.
  unfold base_availability. fold (rows_for (ManagedBaseClaims.base c) balances). cbv zeta.
  destruct (rows_for _ _) as [|row [|row' rows]]; [by intros [= <-]| |by intros [= <-]].
  case_bool_decide as Hr; cbn [negb]; [|by intros [= <-]]. intros (x & Hx & H)%bind_Ok Hq. injection H as <-. injection Hq as ->.
  exists row. split; [done|]. split; [done|]. unfold unmanaged_room. destruct (d0 <? i)%dec.
  - apply bind_Ok in Hx as (y & Hy & [= <-]). by exists y.
  - by injection Hx as <-.
Qed.

Lemma remainder_zero a b r : remainder a b = Ok r → (val r == 0)%Q → ∃ n, (val a == inject_Z n * val b)%Q.
Proof.
  unfold remainder. destruct (Z.eqb_spec (coef b) 0) as [|Hb]; [done|]. cbv zeta. set (m := Z.min _ _).
  set (n := (coef a * _)%Z). set (d := (coef b * _)%Z). destruct (_ <=? _); [done|]. intros [= <-] Hz.
  exists (Z.quot n d). pose proof prec_pos as Hp. pose proof (fix_rounds (Dec (Z.rem n d) m)) as Hr.
  assert (Z.rem n d = 0) as Hrem.
  { destruct (Z.lt_trichotomy (Z.rem n d) 0) as [Hn|[?|Hn]]; [|done|]; exfalso.
    - pose proof (rounds_neg _ _ Hp Hr) as H. rewrite Hz, val_Dec in H. apply (Qlt_irrefl 0), H.
      rewrite Zlt_Qlt in Hn. pose proof (p10_pos m). change (inject_Z 0) with 0%Q in Hn. nra.
    - pose proof (rounds_pos _ _ Hp Hr) as H. rewrite Hz, val_Dec in H. apply (Qlt_irrefl 0), H.
      rewrite Zlt_Qlt in Hn. pose proof (p10_pos m). change (inject_Z 0) with 0%Q in Hn. nra. }
  assert (n = Z.quot n d * d) as Hn by (pose proof (Z.quot_rem' n d); lia).
  rewrite (val_align a m), (val_align b m) by lia. fold n d. unfold val. cbn [coef exponent]. rewrite Hn at 1. rewrite inject_Z_mult. ring.
Qed.

Lemma adopted_quantity_spec w adoptable q : _adopted_quantity w adoptable = Ok q →
  (0 < val q)%Q ∧ (val q <= val adoptable)%Q ∧
  (0 < val (AdoptionWrite.base_increment w) → ∃ n, val q == inject_Z n * val (AdoptionWrite.base_increment w))%Q.
Proof.
  intros ([] & Hpos & H)%bind_Ok. apply bind_Ok in H as ([] & Hinc & H). apply bind_Ok in H as ([] & Hle & [= <-]).
  apply guard_or_Ok in Hpos, Hle. apply negb_true_iff in Hle. set (q := default _ _) in *.
  assert (val d0 == 0)%Q as Hz by apply val_d0. dec_cmp. split; [lra|]. split; [done|]. intros Hi.
  destruct (d0 <? AdoptionWrite.base_increment w)%dec eqn:E; [|dec_cmp; lra]. apply bind_Ok in Hinc as (r & Hr & Hg).
  apply guard_or_Ok in Hg. apply (remainder_zero _ _ r Hr). dec_cmp. lra.
Qed.

(** The quantity of an adoption is within what the venue holds and nobody manages. *)
Lemma adopted_within g books base balances w a adoptable q :
  base_availability balances (managed_base_claims books base) (Some (AdoptionWrite.base_increment w)) = Ok a →
  BaseAvailability.adoptable a = Some adoptable → _adopted_quantity w adoptable = Ok q →
  Forall (coin g) (owned base books) → (total val (owned base books) <= p10 (prec - g))%Q →
  on_grid g (val (AdoptionWrite.base_increment w)) →
  (∀ row, rows_for base balances = [row] → coin g (ExchangeBalance.available row) ∧ coin g (ExchangeBalance.hold row) ∧
     roomy g (val (ExchangeBalance.available row) + val (ExchangeBalance.hold row))) →
  ∃ row, rows_for base balances = [row] ∧ ManagedBaseClaims.unresolved (managed_base_claims books base) = [] ∧
    (val q <= val (ExchangeBalance.available row))%Q ∧
    (total val (owned base books) + val q <= val (ExchangeBalance.available row) + val (ExchangeBalance.hold row))%Q.
Proof.
  intros Ha Had Hq Hcoins Hfit Hi Hrows. destruct (availability_known _ _ _ _ _ Ha Had) as (row & Hrow & Hun & Hsnap).
  change (ManagedBaseClaims.base _) with base in Hrow. exists row. split; [done|]. split; [done|].
  destruct (Hrows row Hrow) as (Ca & Ch & Hroom). destruct (adopted_quantity_spec w adoptable q Hq) as (Hpos & Hle & _).
  pose proof (roomy_fits g _ Hroom) as Hbal. destruct (coin_add g _ _ Ca Ch Hbal) as [Et Ct]. fold (balance_total row) in Et, Ct.
  destruct (claims_exact base g books Hcoins Hfit) as [Ec Cc]. set (c := managed_base_claims books base) in *.
  pose proof (proj2 Ca) as Na. pose proof (proj2 Ch) as Nh. pose proof (proj2 Ct) as Nt. pose proof (proj2 Cc) as Nc. pose proof prec_pos as Hp.
  assert (val (balance_total row - claimed c)%dec == val (balance_total row) - val (claimed c))%Q as Eu.
  { apply (rounds_exact _ _ (sub_rounds _ _)), (on_grid_representable _ g); [lia| |].
    - apply on_grid_plus; [apply Ct|]. apply on_grid_opp, Cc.
    - apply Qabs_Qle_condition. lra. }
  set (u := (balance_total row - claimed c)%dec) in *.
  assert (coin g (unmanaged_room row c) ∧ roomy g (val (unmanaged_room row c)) ∧
    ((0 < val (unmanaged_room row c)) → val (unmanaged_room row c) <= val (ExchangeBalance.available row) ∧ val (unmanaged_room row c) <= val u)%Q)
    as (Cr & Rr & Hmin).
  { unfold unmanaged_room. fold u. destruct (dmin_spec (ExchangeBalance.available row) u) as (M1 & M2 & M3). set (m := dmin _ _) in *.
    assert (on_grid g (val m)) as Gm.
    { destruct M3 as [-> | ->]; [apply Ca|]. eapply on_grid_eq; [symmetry; exact Eu|]. apply on_grid_plus; [apply Ct|]. apply on_grid_opp, Cc. }
    pose proof val_d0 as Hz. unfold roomy in *. unfold dmax. destruct (d0 <? m)%dec eqn:E; dec_cmp.
    - split; [split; [done|lra]|]. split; [lra|]. intros _. lra.
    - split; [apply coin_zero|]. split; [lra|]. lra. }
  assert (val adoptable <= val (unmanaged_room row c))%Q as Had'.
  { destruct (d0 <? AdoptionWrite.base_increment w)%dec eqn:E.
    - destruct Hsnap as (x & Hx & ->). apply (snapped_down g); [done|done|pose proof val_d0; dec_cmp; lra|done|done].
    - by rewrite Hsnap. }
  destruct (Hmin ltac:(lra)) as [M1 M2]. split; [lra|]. rewrite <- Ec. lra.
Qed.

End Checked.

(** ** The projected book *)

Section Projected.
Context {dc : DecimalContext}.

(** The book of one product that an adoption opens: the callers adopt only into these. *)
Record own_book (s : DeploymentSnapshot) (product_id : string) : Prop := {
  own_product : Deployment.product_id (DeploymentSnapshot.deployment s) = product_id;
  own_rows : mirrors_primary_runtime (DeploymentSnapshot.deployment s) (DeploymentSnapshot.instrument_runtimes s) = true;
  own_clock : ∃ tf, Deployment.timeframe (DeploymentSnapshot.deployment s) = Some tf ∧ tf ≠ ""
}.

(** The position an adoption opens. *)
Definition adopted_position (d : Deployment) (product_id : string) (quantity mark stop : decimal) (target : option decimal)
    (bar now : datetime) : Position := {|
  Position.deployment_id := Deployment.id d; Position.quantity := quantity; Position.entry_price := mark;
  Position.stop_price := stop; Position.target_price := target; Position.entered_bar := bar; Position.updated_at := now;
  Position.trail_extreme := None; Position.side := LONG; Position.product_id := product_id; Position.add_count := 1;
  Position.signal_exit_bar := None |}.

Lemma staged_frame d instant stop target bar : same_frame (staged_deployment d instant stop target bar) d.
Proof. done. Qed.

(** An adoption intent never repairs a futures book. *)
Lemma adoption_no_repair s d r now : (∀ i, i ∈ DeploymentSnapshot.intents s → OrderIntent.id i ≠ Order.intent_id (AdoptionRecords.order r)) →
  OrderIntent.id (AdoptionRecords.intent r) = Order.intent_id (AdoptionRecords.order r) →
  OrderIntent.purpose (AdoptionRecords.intent r) = IntentPurpose.ADOPTION →
  ∀ x, project_excess_reduction (with_adoption s d r) (AdoptionRecords.fill r) (AdoptionRecords.order r) now ≠ Ok (Some x).
Proof.
  intros Hfresh Hid Hpurpose x. unfold project_excess_reduction. cbn [DeploymentSnapshot.intents with_adoption].
  assert (List.find (λ i, bool_decide (OrderIntent.id i = Order.intent_id (AdoptionRecords.order r)))
    (DeploymentSnapshot.intents s ++ [AdoptionRecords.intent r]) = Some (AdoptionRecords.intent r)) as ->.
  { induction (DeploymentSnapshot.intents s) as [|i l IH]; cbn; [by rewrite bool_decide_true|].
    rewrite bool_decide_false by (apply Hfresh; by left). apply IH. intros j Hj. apply Hfresh. by right. }
  destruct (negb _); [done|]. rewrite Hpurpose. rewrite !(bool_decide_false (IntentPurpose.ADOPTION = IntentPurpose.LIQUIDATION)) by done.
  by rewrite andb_false_r.
Qed.

Lemma projected_adoption s w quantity ids t1 t2 t3 r p fill : 
  adoption_records (AdoptionWrite.deployment_id w) (AdoptionWrite.product_id w) quantity (AdoptionWrite.mark w)
    (AdoptionWrite.mark_bar_starts_at w) (AdoptionWrite.now w) (AdoptionWrite.origin w) (AdoptionWrite.idempotency_key w) ids = Ok r →
  project_adoption s r (AdoptionWrite.stop_price w) (AdoptionWrite.target_price w) t1 t2 t3 = Ok (p, fill) →
  own_book s (AdoptionWrite.product_id w) → (∀ i, i ∈ DeploymentSnapshot.intents s → OrderIntent.id i ≠ intent_uuid ids) →
  Deployment.mode (DeploymentSnapshot.deployment s) = DeploymentMode.LIVE ∧ fill = AdoptionRecords.fill r ∧
  (∀ pos, pos ∈ snapshot_positions s → resolved_product_id (Position.product_id pos) (DeploymentSnapshot.deployment s) ≠ AdoptionWrite.product_id w) ∧
  (val (AdoptionWrite.stop_price w) < val (AdoptionWrite.mark w))%Q ∧
  (∃ bar, DeploymentSnapshot.position p = Some (adopted_position (DeploymentSnapshot.deployment s) (AdoptionWrite.product_id w) quantity
    (AdoptionWrite.mark w) (AdoptionWrite.stop_price w) (AdoptionWrite.target_price w) bar t2)) ∧
  same_frame (fill_projection_deployment s p) (DeploymentSnapshot.deployment s) ∧
  Runtime.phase (fill_projection_deployment s p) = RuntimePhase.OPEN ∧
  Deployment.status (fill_projection_deployment s p) = Deployment.status (DeploymentSnapshot.deployment s) ∧
  Deployment.cash (fill_projection_deployment s p) =
    (Deployment.cash (DeploymentSnapshot.deployment s) - AdoptionWrite.mark w * quantity - d0)%dec.
Proof.
  intros Hr Hp [Hprod Hrows (tf & Htf & Hne)] Hfresh.
  apply bind_Ok in Hr as ([] & _ & Hr). apply bind_Ok in Hr as ([] & _ & Hr). apply bind_Ok in Hr as ([] & _ & Hr).
  apply bind_Ok in Hr as ([] & Hpid & Hr). apply guard_or_Ok, negb_true_iff, bool_decide_eq_false in Hpid. injection Hr as <-.
  unfold project_adoption in Hp. cbv zeta in Hp. cbn [AdoptionRecords.order AdoptionRecords.fill AdoptionRecords.intent] in Hp.
  set (d := DeploymentSnapshot.deployment s) in *. set (r := {| AdoptionRecords.intent := _ |}) in *.
  set (staged := staged_deployment d _ _ _ _) in *.
  apply bind_Ok in Hp as ([] & Hlive & Hp). apply guard_or_Ok, bool_decide_eq_true in Hlive.
  apply bind_Ok in Hp as ([] & _ & Hp). apply bind_Ok in Hp as ([] & Hflat & Hp). apply guard_or_Ok, negb_true_iff in Hflat.
  apply bind_Ok in Hp as ([] & _ & Hp). apply bind_Ok in Hp as ([] & Hstop & Hp).
  apply guard_or_Ok, negb_true_iff, orb_false_iff in Hstop as [Hstop _].
  cbn [Order.product_id adoption_order Fill.price adoption_fill] in *.
  assert (resolved_product_id (AdoptionWrite.product_id w) d = AdoptionWrite.product_id w) as Hres by (unfold resolved_product_id; by case_decide).
  rewrite Hres in Hflat.
  split; [done|]. pose proof (fill_frame _ _ _ _ _ _ _ _ _ _ Hp) as [Hframe _]. pose proof (fill_cash _ _ _ _ _ _ _ _ _ _ Hp) as Hcash.
  apply project_fill_cases in Hp as (q & Hq & Hpos & Hdep & Hrt).
  destruct Hq as [Hq|[_ Hq]]; [by apply adoption_no_repair in Hq|].
  change (resolved_product_id (Order.product_id _) (DeploymentSnapshot.deployment (with_adoption s staged r)))
    with (resolved_product_id (AdoptionWrite.product_id w) d) in *. rewrite Hres in *.
  assert (_position_for (with_adoption s staged r) (AdoptionWrite.product_id w) = None) as Hnone.
  { unfold _position_for. destruct (List.find _ _) as [pos|] eqn:E; [|done].
    apply find_some in E as [Hin Hb]. apply (existsb_false _ _ pos) in Hflat; [|by apply list_elem_of_In].
    change (of_product d (AdoptionWrite.product_id w) (Position.product_id pos) = true) in Hb. congruence. }
  unfold _project_inventory in Hq. cbn [DeploymentSnapshot.position overlay_snapshot] in Hq. rewrite Hnone in Hq.
  change (applied (AdoptionRecords.fill r)) with true in Hq. cbv iota zeta in Hq.
  apply bind_Ok in Hq as (q' & Hq & Hst). injection Hst as -> <-.
  assert (_runtime_for (with_adoption s staged r) (AdoptionWrite.product_id w) = runtime_from_deployment staged (AdoptionWrite.product_id w)) as Hrun.
  { unfold _runtime_for. cbn [DeploymentSnapshot.deployment DeploymentSnapshot.instrument_runtimes with_adoption].
    change (Deployment.product_id staged) with (Deployment.product_id d).
    change (mirrors_primary_runtime staged) with (mirrors_primary_runtime d). by rewrite Hrows, bool_decide_true. }
  unfold _project_entry in Hq. cbn [overlay_snapshot DeploymentSnapshot.deployment] in Hq. rewrite Hrun in Hq.
  cbn [Runtime.pending_stop_price Deployment.runtime Deployment.set_runtime InstrumentRuntime.runtime runtime_from_deployment] in Hq.
  change (Runtime.pending_stop_price staged) with (Some (AdoptionWrite.stop_price w)) in Hq. cbv iota in Hq.
  change (Deployment.timeframe _) with (Deployment.timeframe d) in Hq. rewrite Htf in Hq. unfold or_text in Hq at 1.
  rewrite decide_False in Hq by done. apply bind_Ok in Hq as (bar & _ & Hq). injection Hq as Hq.
  split; [done|]. split.
  { intros pos Hin E. apply (existsb_false _ _ pos) in Hflat; [|done]. unfold of_product in Hflat.
    by rewrite bool_decide_true in Hflat. }
  split; [dec_cmp; lra|]. split; [|split; [|split; [|split]]].
  - exists bar. rewrite Hpos, <- Hq. unfold adopted_position, projected. cbn [DeploymentSnapshot.position]. f_equal. f_equal.
    + change (first_some (AdoptionWrite.target_price w) None = AdoptionWrite.target_price w). by destruct (AdoptionWrite.target_price w).
    + exact Hres.
  - unfold fill_projection_deployment. destruct (DeploymentSnapshot.instrument_runtimes p); [exact Hframe|done].
  - destruct (flat_confirmation_fields (DeploymentSnapshot.deployment q) t3 (bool_decide (DeploymentSnapshot.position q = None))) as (_ & Hr & _).
    assert (Runtime.phase (DeploymentSnapshot.deployment p) = RuntimePhase.OPEN) as Hphase by (rewrite Hdep, Hr; by rewrite <- Hq).
    unfold fill_projection_deployment. rewrite Hrt. cbn [DeploymentSnapshot.instrument_runtimes with_adoption].
    destruct (DeploymentSnapshot.instrument_runtimes s) as [|row rows]; [done|].
    match goal with |- context [match ?l with [] => _ | _ => _ end] => assert (RuntimePhase.OPEN ∈ ((λ item : InstrumentRuntime, Runtime.phase item) <$> l)) as Hin end.
    { rewrite fmap_app, elem_of_app. right. cbn. rewrite Hphase. by left. }
    destruct (other_runtimes _ _ ++ _); [by apply elem_of_nil in Hin|]. cbn [Deployment.runtime Runtime.set_phase Runtime.phase].
    unfold aggregate_phase. cbv zeta. by rewrite decide_True.
  - destruct (flat_confirmation_fields (DeploymentSnapshot.deployment q) t3 (bool_decide (DeploymentSnapshot.position q = None))) as (_ & _ & _ & Hs & _).
    transitivity (Deployment.status (DeploymentSnapshot.deployment p)); [unfold fill_projection_deployment; by destruct (DeploymentSnapshot.instrument_runtimes p)|].
    rewrite Hdep, Hs. by rewrite <- Hq.
  - rewrite fill_parent_cash. exact Hcash.
Qed.

End Projected.

(** ** The writes *)

Section Writes.
Context {dc : DecimalContext}.

(** Identifiers no stored record uses. *)
Record unused_ids (st : Store) (deployment_id : UUID) (ids : AdoptionIds) : Prop := {
  unused_intent : dict_get (intent_uuid ids) (intents st) = None;
  unused_intent_id i : i ∈ dict_values (intents st) → OrderIntent.id i ≠ intent_uuid ids;
  unused_reference o : o ∈ dict_values (orders st) → Order.intent_id o ≠ intent_uuid ids;
  unused_order : dict_get (order_uuid ids) (orders st) = None;
  unused_client o : o ∈ dict_values (orders st) → Order.client_order_id o ≠ adoption_client_id deployment_id ids;
  unused_fill : dict_get (fill_uuid ids) (fills st) = None;
  unused_fill_order f : f ∈ dict_values (fills st) → Fill.order_id f ≠ order_uuid ids;
  unused_fill_key : (deployment_id, (adoption_client_id deployment_id ids ++ ":fill")%string) ∉ _fill_keys st
}.

Lemma save_runtimes rows id st : fold_left (λ st runtime, save_instrument_runtime st runtime id) rows st =
  set_runtimes st (fold_left (λ d r, dict_set (id, InstrumentRuntime.product_id r) r d) rows (instrument_runtimes st)).
Proof.
  revert st. induction rows as [|r rows IH]; intros st; cbn [fold_left]; [by destruct st|]. rewrite IH. by destruct st.
Qed.

Lemma rows_of_other {V} (id : UUID) (k : UUID * string) (v : V) (d : dict (UUID * string) V) : k.1 ≠ id →
  rows_of id (dict_set k v d) = rows_of id d.
Proof.
  intros Hk. unfold rows_of. induction d as [|[k' v'] d IH]; cbn; [by rewrite bool_decide_false|].
  case_decide as E; cbn; [subst; by rewrite !bool_decide_false|]. case_bool_decide; cbn; by rewrite IH.
Qed.

Lemma rows_of_fresh {V} (k : UUID * string) (v : V) (d : dict (UUID * string) V) : dict_get k d = None →
  rows_of k.1 (dict_set k v d) = rows_of k.1 d ++ [v].
Proof.
  unfold rows_of. induction d as [|[k' v'] d IH]; cbn; [by rewrite bool_decide_true|].
  case_decide as E; [done|]. intros H. cbn. case_bool_decide; cbn; by rewrite IH.
Qed.

(** What [_write] leaves: one row more of each kind, the book's position and its next revision. *)
Lemma write_spec st gate fence book p (id : UUID) d : Deployment.id (DeploymentSnapshot.deployment book) = id →
  OrderIntent.purpose (AdoptionRecords.intent (PreparedAdoption.records p)) = IntentPurpose.ADOPTION →
  OrderIntent.deployment_id (AdoptionRecords.intent (PreparedAdoption.records p)) = id →
  (∀ key, OrderIntent.idempotency_key (AdoptionRecords.intent (PreparedAdoption.records p)) = Some key →
     get_intent_by_idempotency_key st key = None) →
  fenced_holder fence id = None → dict_get id (deployments st) = Some d →
  Deployment.id (fill_projection_deployment book (PreparedAdoption.projected p)) = id →
  ∃ st', _write st gate fence book p = (st', get_deployment st' id) ∧
    deployments st' = dict_set id (Deployment.set_revision (fill_projection_deployment book (PreparedAdoption.projected p))
      (Deployment.revision d + 1)) (deployments st) ∧
    intents st' = dict_set (OrderIntent.id (AdoptionRecords.intent (PreparedAdoption.records p)))
      (AdoptionRecords.intent (PreparedAdoption.records p)) (intents st) ∧
    orders st' = orders (save_order st (AdoptionRecords.order (PreparedAdoption.records p))) ∧
    fills st' = fills (save_fill st (PreparedAdoption.fill p)).1 ∧
    positions st' = positions (save_position st (DeploymentSnapshot.position (PreparedAdoption.projected p)) id
      (Some (resolved_product_id (Order.product_id (AdoptionRecords.order (PreparedAdoption.records p))) (DeploymentSnapshot.deployment book)))) ∧
    funding st' = funding st ∧
    ∀ other, other ≠ id → rows_of other (instrument_runtimes st') = rows_of other (instrument_runtimes st).
Proof.
  intros Hid Hpurpose Hdep Hkey Hfence Hd Hparent. unfold _write. rewrite Hid.
  assert (save_intent st gate fence (AdoptionRecords.intent (PreparedAdoption.records p)) =
    Ok (set_intents st (dict_set (OrderIntent.id (AdoptionRecords.intent (PreparedAdoption.records p)))
      (AdoptionRecords.intent (PreparedAdoption.records p)) (intents st)))) as ->.
  { unfold save_intent, _insert_leased_intent, require_lease_holder. rewrite Hdep, Hfence, Hpurpose.
    destruct (OrderIntent.idempotency_key _) as [key|]; cbn [mbind result_bind].
    - rewrite (Hkey key eq_refl), bool_decide_true by done. cbn. by destruct gate.
    - by destruct gate. }
  rewrite save_runtimes. set (r := PreparedAdoption.records p) in *. set (pr := PreparedAdoption.projected p) in *.
  unfold save_deployment. rewrite bool_decide_true by done. cbn [guard_or negb orb mbind result_bind require_revision].
  unfold find_deployment. rewrite Hparent.
  match goal with |- context [deployments (set_runtimes ?x _)] => set (st4 := x) end.
  assert (deployments st4 = deployments st) as Hdeps.
  { unfold st4, save_position, save_fill. destruct (DeploymentSnapshot.position pr); case_decide; reflexivity. }
  cbn [deployments set_runtimes]. rewrite Hdeps, Hd. cbn [mbind result_bind].
  set (rows4 := fold_left _ _ _).
  assert (∀ other, other ≠ id → rows_of other rows4 = rows_of other (instrument_runtimes st)) as Hrows4.
  { intros other Hother. assert (instrument_runtimes st4 = instrument_runtimes st) as E.
    { unfold st4, save_position, save_fill. destruct (DeploymentSnapshot.position pr); case_decide; reflexivity. }
    unfold rows4. rewrite E. generalize (instrument_runtimes st). induction (DeploymentSnapshot.instrument_runtimes pr) as [|x rs IH]; [done|].
    intros rows. cbn [fold_left]. rewrite IH. apply rows_of_other. cbn. by intros <-. }
  assert (∀ st', (∃ rows, (∀ other, other ≠ id → rows_of other rows = rows_of other rows4) ∧
      st' = set_runtimes (set_deployments st4 (dict_set id (Deployment.set_revision
      (fill_projection_deployment book pr) (Deployment.revision d + 1)) (deployments st))) rows) →
    deployments st' = dict_set id (Deployment.set_revision (fill_projection_deployment book pr) (Deployment.revision d + 1)) (deployments st) ∧
    intents st' = dict_set (OrderIntent.id (AdoptionRecords.intent r)) (AdoptionRecords.intent r) (intents st) ∧
    orders st' = orders (save_order st (AdoptionRecords.order r)) ∧ fills st' = fills (save_fill st (PreparedAdoption.fill p)).1 ∧
    positions st' = positions (save_position st (DeploymentSnapshot.position pr) id
      (Some (resolved_product_id (Order.product_id (AdoptionRecords.order r)) (DeploymentSnapshot.deployment book)))) ∧
    funding st' = funding st ∧ ∀ other, other ≠ id → rows_of other (instrument_runtimes st') = rows_of other (instrument_runtimes st)) as Hcomponents.
  { intros st' (rows & Hrows & ->). do 5 (split; [cbn; unfold st4, save_position, save_fill;
      cbn [set_orders set_intents orders _fill_keys save_order]; destruct (DeploymentSnapshot.position pr); first [reflexivity|case_decide; reflexivity]|]).
    split; [cbn; unfold st4, save_position, save_fill; destruct (DeploymentSnapshot.position pr); first [reflexivity|case_decide; reflexivity]|].
    intros other Hother. transitivity (rows_of other rows4); [by apply Hrows|by apply Hrows4]. }
  match goal with |- context [match dict_get ?k (instrument_runtimes ?x) with _ => _ end] => destruct (dict_get k (instrument_runtimes x)) as [row|] end;
    [destruct (mirrors_primary_runtime _ _)|];
    (eexists; split; [reflexivity|apply Hcomponents; eexists; split; [|reflexivity]; intros other Hother; try done;
      by apply rows_of_other; cbn; intros <-]).
Qed.

Lemma dict_set_fresh {K V} `{EqDecision K} (k : K) (v : V) (d : dict K V) : dict_get k d = None → dict_set k v d = d ++ [(k, v)].
Proof. induction d as [|[k' v'] d IH]; cbn; [done|]. case_decide; [done|]. intros Hk. by rewrite IH. Qed.

Lemma dict_set_values {K V} `{EqDecision K} (k : K) (v w : V) (d : dict K V) : dict_get k d = Some w →
  ∃ l1 l2, d = l1 ++ (k, w) :: l2 ∧ dict_set k v d = l1 ++ (k, v) :: l2.
Proof.
  induction d as [|[k' v'] d IH]; cbn; [done|]. case_decide as E.
  - intros [= ->]. subst. by exists [], d.
  - intros Hk. destruct (IH Hk) as (l1 & l2 & -> & ->). by exists ((k', v') :: l1), l2.
Qed.

Lemma values_app {K V} (d : dict K V) k v : dict_values (d ++ [(k, v)]) = dict_values d ++ [v].
Proof. unfold dict_values. by rewrite fmap_app. Qed.

Lemma filter_snoc {A} (f : A → bool) l x : List.filter f (l ++ [x]) = List.filter f l ++ (if f x then [x] else []).
Proof. induction l as [|y l IH]; cbn; [done|]. destruct (f y); cbn; by rewrite IH. Qed.

Lemma snapshot_rows st id d : snapshot_positions (snapshot_of st id d) = rows_of id (positions st).
Proof. unfold snapshot_positions, snapshot_of. cbn. by destruct (rows_of id (positions st)). Qed.

(** A store after the rows of one adoption: all of them are of one book. *)
Record adopted_rows (st st' : Store) (id : UUID) (product_id : string) (r : AdoptionRecords) (pos : Position) (saved : Deployment) : Prop := {
  rows_deployments : deployments st' = dict_set id saved (deployments st);
  rows_intents : dict_values (intents st') = dict_values (intents st) ++ [AdoptionRecords.intent r];
  rows_orders : dict_values (orders st') = dict_values (orders st) ++ [AdoptionRecords.order r];
  rows_fills : dict_values (fills st') = dict_values (fills st) ++ [AdoptionRecords.fill r];
  rows_positions : positions st' = dict_set (id, product_id) pos (positions st);
  rows_funding : funding st' = funding st;
  rows_runtimes other : other ≠ id → rows_of other (instrument_runtimes st') = rows_of other (instrument_runtimes st);
  rows_book : OrderIntent.deployment_id (AdoptionRecords.intent r) = id ∧ Order.deployment_id (AdoptionRecords.order r) = id ∧
    Fill.deployment_id (AdoptionRecords.fill r) = id
}.

(** No other book changes. *)
Lemma other_book st st' id product_id r pos saved other d : adopted_rows st st' id product_id r pos saved → other ≠ id →
  snapshot_of st' other d = snapshot_of st other d.
Proof.
  intros [_ Hi Ho Hf Hp Hfu Hr (Bi & Bo & Bf)] Hne. unfold snapshot_of. rewrite Hi, Ho, Hf, Hp, Hfu, Hr by done.
  rewrite rows_of_other by (cbn; congruence). rewrite !filter_snoc. rewrite !bool_decide_false by congruence. by rewrite !app_nil_r.
Qed.

(** The book's own rows. *)
Lemma adopted_book st st' id product_id r pos saved d : adopted_rows st st' id product_id r pos saved →
  dict_get (id, product_id) (positions st) = None →
  DeploymentSnapshot.orders (snapshot_of st' id d) = DeploymentSnapshot.orders (snapshot_of st id d) ++ [AdoptionRecords.order r] ∧
  DeploymentSnapshot.intents (snapshot_of st' id d) = DeploymentSnapshot.intents (snapshot_of st id d) ++ [AdoptionRecords.intent r] ∧
  DeploymentSnapshot.fills (snapshot_of st' id d) = DeploymentSnapshot.fills (snapshot_of st id d) ++ [AdoptionRecords.fill r] ∧
  snapshot_positions (snapshot_of st' id d) = snapshot_positions (snapshot_of st id d) ++ [pos].
Proof.
  intros [_ Hi Ho Hf Hp Hfu Hr (Bi & Bo & Bf)] Hnone. rewrite !snapshot_rows. cbn [snapshot_of DeploymentSnapshot.orders
    DeploymentSnapshot.intents DeploymentSnapshot.fills]. rewrite Hi, Ho, Hf, Hp, !filter_snoc, !bool_decide_true by done.
  split_and!; try done. exact (rows_of_fresh (id, product_id) pos (positions st) Hnone).
Qed.

(** The amounts of a book depend on its terms and rows. *)
Lemma same_amounts base s s' : Deployment.terms (DeploymentSnapshot.deployment s) = Deployment.terms (DeploymentSnapshot.deployment s') →
  DeploymentSnapshot.orders s = DeploymentSnapshot.orders s' → DeploymentSnapshot.intents s = DeploymentSnapshot.intents s' →
  snapshot_positions s = snapshot_positions s' → book_amounts base s = book_amounts base s'.
Proof.
  intros Ht Ho Hi Hp. unfold book_amounts, book_claims. rewrite Ht, Ho, Hi, Hp. destruct (Deployment.mode _); [done|].
  assert (∀ pid, on_base base s pid = on_base base s' pid) as Hon by (intros pid; unfold on_base, resolved_product_id; by rewrite Ht).
  f_equal; [f_equal; apply filter_same_in; intros p _; unfold long_on_base; by rewrite Hon|]. f_equal. f_equal; f_equal; apply filter_same_in; intros x _.
  - unfold opening_on_base, purposes_of. by rewrite Hon, Hi.
  - apply Hon.
Qed.

(** An adoption adds its quantity to what its book owns, and nothing else. *)
Lemma adopted_amounts base s s' r pos q :
  Deployment.terms (DeploymentSnapshot.deployment s') = Deployment.terms (DeploymentSnapshot.deployment s) →
  Deployment.mode (DeploymentSnapshot.deployment s) = DeploymentMode.LIVE →
  DeploymentSnapshot.orders s' = DeploymentSnapshot.orders s ++ [AdoptionRecords.order r] →
  DeploymentSnapshot.intents s' = DeploymentSnapshot.intents s ++ [AdoptionRecords.intent r] →
  snapshot_positions s' = snapshot_positions s ++ [pos] →
  Position.side pos = LONG → Position.quantity pos = q → on_base base s (Position.product_id pos) = true →
  Order.status (AdoptionRecords.order r) = OrderStatus.FILLED →
  OrderIntent.purpose (AdoptionRecords.intent r) = IntentPurpose.ADOPTION →
  (∀ o, o ∈ DeploymentSnapshot.orders s → Order.intent_id o ≠ OrderIntent.id (AdoptionRecords.intent r)) →
  (∀ i, i ∈ DeploymentSnapshot.intents s → OrderIntent.id i ≠ Order.intent_id (AdoptionRecords.order r)) →
  book_amounts base s' ≡ₚ q :: book_amounts base s.
Proof.
  intros Ht Hmode Ho Hi Hp Hside Hq Hbase Hstatus Hpurpose Hrefs Hids. unfold book_amounts. rewrite Ht, Hmode.
  assert (∀ pid, on_base base s' pid = on_base base s pid) as Hon by (intros pid; unfold on_base, resolved_product_id; by rewrite Ht).
  assert (List.filter (long_on_base base s') (snapshot_positions s') = List.filter (long_on_base base s) (snapshot_positions s) ++ [pos]) as ->.
  { rewrite Hp, filter_snoc. unfold long_on_base at 2. rewrite Hside, Hon, Hbase. f_equal. apply filter_same_in. intros p _. unfold long_on_base. by rewrite Hon. }
  assert (book_claims base s' = book_claims base s) as ->.
  { unfold book_claims. f_equal.
    - f_equal. rewrite Ho, filter_snoc. unfold opening_on_base at 2. rewrite Hstatus, (bool_decide_false (OrderStatus.FILLED ∈ _WORKING)).
      2: { unfold _WORKING. rewrite !elem_of_cons, elem_of_nil. intros [[=]|[[=]|[[=]|[]]]]. }
      cbn [andb]. rewrite app_nil_r. apply filter_same_in. intros o Hin. unfold opening_on_base. rewrite Hon. do 3 f_equal.
      unfold purposes_of. rewrite Hi, fold_left_app. cbn [fold_left]. rewrite dict_get_set_ne; [done|]. by apply Hrefs.
    - f_equal. unfold _unordered_openings. rewrite Hi, filter_snoc, Hpurpose, (bool_decide_false (IntentPurpose.ADOPTION = IntentPurpose.ENTRY)) by done.
      cbn [andb]. rewrite app_nil_r, Ho, fmap_app. cbn [fmap list_fmap].
      rewrite (filter_same_in (λ i, bool_decide (OrderIntent.purpose i = IntentPurpose.ENTRY) && negb (bool_decide (OrderIntent.id i ∈
        (Order.intent_id <$> DeploymentSnapshot.orders s) ++ [Order.intent_id (AdoptionRecords.order r)])) && bool_decide (OrderIntent.status i ∈ _WORKING))
        (λ i, bool_decide (OrderIntent.purpose i = IntentPurpose.ENTRY) && negb (bool_decide (OrderIntent.id i ∈
        (Order.intent_id <$> DeploymentSnapshot.orders s))) && bool_decide (OrderIntent.status i ∈ _WORKING))).
      { apply filter_same_in. intros i _. apply Hon. }
      intros i Hin. do 3 f_equal. apply bool_decide_ext. rewrite elem_of_app, list_elem_of_singleton. specialize (Hids i Hin). naive_solver. }
  rewrite fmap_app. cbn [fmap list_fmap]. rewrite Hq, <- app_assoc. symmetry. apply Permutation_middle.
Qed.

End Writes.

(** ** A committed adoption *)

Section Commit.
Context {dc : DecimalContext}.

(** A stored position carries the product of its key. *)
Definition positions_keyed (st : Store) : Prop := ∀ k p, dict_get k (positions st) = Some p → Position.product_id p = k.2.

(** A book that is to be created has no records yet. *)
Record no_rows (st : Store) (id : UUID) : Prop := {
  no_orders o : o ∈ dict_values (orders st) → Order.deployment_id o ≠ id;
  no_intents i : i ∈ dict_values (intents st) → OrderIntent.deployment_id i ≠ id;
  no_fills f : f ∈ dict_values (fills st) → Fill.deployment_id f ≠ id;
  no_positions : rows_of id (positions st) = []
}.

(** The adoption is of the product of its target book, which is new or one-product. *)
Record target_ready (st : Store) (w : AdoptionWrite) : Prop := {
  ready_book book : _target_book st w = Ok book → own_book book (AdoptionWrite.product_id w);
  ready_new created : AdoptionWrite.new_deployment w = Some created → no_rows st (Deployment.id created)
}.

Lemma filter_none {A} (f : A → bool) l : (∀ x, x ∈ l → f x = false) → List.filter f l = [].
Proof.
  induction l as [|x l IH]; intros H; cbn; [done|]. rewrite (H x) by by left. apply IH. intros y Hy. apply H. by right.
Qed.

(** The target book is what the store holds under its identifier once it is inserted. *)
Lemma target_book st gate w book st1 : _target_book st w = Ok book → _insert_book st gate w = Ok st1 →
  Deployment.id (DeploymentSnapshot.deployment book) = AdoptionWrite.deployment_id w →
  (∀ created, AdoptionWrite.new_deployment w = Some created → no_rows st (Deployment.id created)) →
  let id := AdoptionWrite.deployment_id w in
  let stored := snapshot_of st1 id (DeploymentSnapshot.deployment book) in
  (∃ ds, st1 = set_deployments st ds) ∧
  (deployments st1 = deployments st ∨ dict_get id (deployments st) = None ∧
     deployments st1 = deployments st ++ [(id, DeploymentSnapshot.deployment book)] ∧ no_rows st id) ∧
  dict_get id (deployments st1) = Some (DeploymentSnapshot.deployment book) ∧
  DeploymentSnapshot.orders stored = DeploymentSnapshot.orders book ∧ DeploymentSnapshot.intents stored = DeploymentSnapshot.intents book ∧
  snapshot_positions stored = snapshot_positions book.
Proof.
  intros Hbook Hst1 Hid Hnew. unfold _target_book in Hbook. unfold _insert_book in Hst1. cbv zeta.
  destruct (AdoptionWrite.new_deployment w) as [created|] eqn:Hn.
  - apply bind_Ok in Hbook as ([] & Hg & [= <-]). cbn [flat_snapshot DeploymentSnapshot.deployment] in *.
    apply guard_or_Ok, andb_prop_iff in Hg as [_ Hnone]. apply bool_decide_eq_true in Hnone. rewrite Hid in *.
    destruct (Hnew created eq_refl) as [No Ni Nf Np]. rewrite Hid in *.
    assert (st1 = set_deployments st (dict_set (AdoptionWrite.deployment_id w) created (deployments st))) as ->.
    { destruct (AdoptionWrite.respect_entry_latch w); [|by injection Hst1]. unfold create_deployment in Hst1.
      apply bind_Ok in Hst1 as ([] & _ & [= <-]). by rewrite Hid. }
    split; [by eexists|]. split.
    { right. split; [done|]. split; [by apply dict_set_fresh|by split]. }
    split; [apply dict_get_set|]. rewrite snapshot_rows. cbn [positions set_deployments snapshot_of DeploymentSnapshot.orders DeploymentSnapshot.intents orders intents].
    rewrite Np. split_and!; [| |done]; apply filter_none; intros x Hx;
      apply bool_decide_eq_false; [by apply No|by apply Ni].
  - injection Hst1 as <-. apply bind_Ok in Hbook as (b & Hb & H). apply bind_Ok in H as ([] & _ & [= ->]).
    unfold get_deployment in Hb. apply bind_Ok in Hb as (d & Hd & [= <-]). apply find_deployment_Ok in Hd.
    split; [exists (deployments st); by destruct st|]. split; [by left|]. done.
Qed.

(** What a successful adoption did, step by step. *)
Record adopted (before st : Store) (balances : list ExchangeBalance) (w : AdoptionWrite) (ids : AdoptionIds) (t2 : datetime)
    (st1 st' : Store) (commit : AdoptionCommit) (base : string) (books : list DeploymentSnapshot) (book : DeploymentSnapshot)
    (q : decimal) (bar : datetime) (saved : Deployment) : Prop := {
  adopted_books : live_books before = Ok books;
  adopted_base : base_currency (AdoptionWrite.product_id w) = Ok base;
  adopted_target : _target_book st w = Ok book;
  adopted_live : Deployment.mode (DeploymentSnapshot.deployment book) = DeploymentMode.LIVE;
  adopted_id : Deployment.id (DeploymentSnapshot.deployment book) = AdoptionWrite.deployment_id w;
  adopted_available : ∃ a adoptable, base_availability balances (managed_base_claims books base) (Some (AdoptionWrite.base_increment w)) = Ok a ∧
    BaseAvailability.adoptable a = Some adoptable ∧ _adopted_quantity w adoptable = Ok q;
  adopted_quantity : OrderIntent.quantity (AdoptionRecords.intent (AdoptionCommit.records commit)) = q;
  adopted_records : adoption_records (AdoptionWrite.deployment_id w) (AdoptionWrite.product_id w) q (AdoptionWrite.mark w)
    (AdoptionWrite.mark_bar_starts_at w) (AdoptionWrite.now w) (AdoptionWrite.origin w) (AdoptionWrite.idempotency_key w) ids
    = Ok (AdoptionCommit.records commit);
  adopted_stop : (val (AdoptionWrite.stop_price w) < val (AdoptionWrite.mark w))%Q;
  adopted_inserted : (deployments st1 = deployments st ∨ dict_get (AdoptionWrite.deployment_id w) (deployments st) = None ∧
     deployments st1 = deployments st ++ [(AdoptionWrite.deployment_id w, DeploymentSnapshot.deployment book)] ∧
     no_rows st (AdoptionWrite.deployment_id w));
  adopted_same : ∃ ds, st1 = set_deployments st ds;
  adopted_stored : dict_get (AdoptionWrite.deployment_id w) (deployments st1) = Some (DeploymentSnapshot.deployment book);
  adopted_written : adopted_rows st1 st' (AdoptionWrite.deployment_id w) (AdoptionWrite.product_id w) (AdoptionCommit.records commit)
    (adopted_position (DeploymentSnapshot.deployment book) (AdoptionWrite.product_id w) q (AdoptionWrite.mark w)
       (AdoptionWrite.stop_price w) (AdoptionWrite.target_price w) bar t2) saved;
  adopted_key : dict_get (AdoptionWrite.deployment_id w, AdoptionWrite.product_id w) (positions st1) = None;
  adopted_frame : same_frame (Deployment.set_revision saved (Deployment.revision (DeploymentSnapshot.deployment book))) (DeploymentSnapshot.deployment book);
  adopted_revision : Deployment.revision saved = Deployment.revision (DeploymentSnapshot.deployment book) + 1;
  adopted_status : Deployment.status saved = Deployment.status (DeploymentSnapshot.deployment book);
  adopted_phase : Runtime.phase saved = RuntimePhase.OPEN;
  adopted_cash : Deployment.cash saved = (Deployment.cash (DeploymentSnapshot.deployment book) - AdoptionWrite.mark w * q - d0)%dec;
  adopted_held : snapshot_positions (snapshot_of st1 (AdoptionWrite.deployment_id w) (DeploymentSnapshot.deployment book)) = snapshot_positions book;
  adopted_snapshot : get_deployment st' (AdoptionWrite.deployment_id w) = Ok (AdoptionCommit.snapshot commit)
}.

Lemma adoption_adopted before st answer gate fence w ids t1 t2 t3 st' commit :
  positions_keyed st → unused_ids st (AdoptionWrite.deployment_id w) ids → target_ready st w →
  fenced_holder fence (AdoptionWrite.deployment_id w) = None →
  adopt_inventory before st answer gate fence w ids t1 t2 t3 = (st', Ok commit) →
  ∃ balances st1 base books book q bar saved, answer = Ok balances ∧
    adopted before st balances w ids t2 st1 st' commit base books book q bar saved.
Proof.
  intros Hkeyed Hunused [Hown Hnew] Hfence H. unfold adopt_inventory in H.
  destruct (check_adoption _ _ _ _ _ _ _ _) as [[book p]|e] eqn:Hcheck; [|done].
  apply bind_Ok in Hcheck as (base & Hbase & Hcheck). apply bind_Ok in Hcheck as (books & Hbooks & Hcheck).
  apply bind_Ok in Hcheck as (balances & Hans & Hcheck). apply bind_Ok in Hcheck as (book' & Htarget & Hcheck).
  apply bind_Ok in Hcheck as (p' & Hp & Hcheck). apply bind_Ok in Hcheck as ([] & Hkey & Hcheck). injection Hcheck as -> ->.
  assert (answer = Ok balances) as -> by (destruct answer; [by injection Hans as ->|done]). clear Hans.
  apply bind_Ok in Hp as ([] & Hid & Hp). apply guard_or_Ok, bool_decide_eq_true in Hid.
  rewrite Hbase in Hp. cbn [mbind result_bind] in Hp. apply bind_Ok in Hp as (a & Ha & Hp).
  destruct (BaseAvailability.adoptable a) as [adoptable|] eqn:Had; [|done]. apply bind_Ok in Hp as (q & Hq & Hp).
  apply bind_Ok in Hp as (r & Hr & Hp). apply bind_Ok in Hp as ([pr fill] & Hproj & Hp). injection Hp as <-.
  assert (project_adoption book r (AdoptionWrite.stop_price w) (AdoptionWrite.target_price w) t1 t2 t3 = Ok (pr, fill)) as Hpr.
  { destruct (project_adoption _ _ _ _ _ _ _) as [|[]]; try done. }
  clear Hproj. destruct (_insert_book st gate w) as [st1|e] eqn:Hinsert; [|done].
  destruct (target_book st gate w book st1 Htarget Hinsert Hid Hnew) as ((ds & ->) & Hins & Hstored & Ho & Hi & Hpos).
  destruct (_write _ _ _ _ _) as [st2 snapshot] eqn:Hwrite. injection H as Hst H. subst st2.
  apply bind_Ok in H as (snapshot' & -> & H). injection H as <-.
  assert (∀ i, i ∈ DeploymentSnapshot.intents book → OrderIntent.id i ≠ intent_uuid ids) as Hfresh.
  { intros i Hin. rewrite <- Hi in Hin. apply elem_of_filter_bool in Hin as [_ Hin]. by eapply unused_intent_id. }
  destruct (projected_adoption book w q ids t1 t2 t3 r pr fill Hr Hpr (Hown book Htarget) Hfresh)
    as (Hlive & -> & Hflat & Hstop & (bar & Hopen) & Hframe & Hphase & Hstatus & Hcash).
  pose proof Hr as Hr'. apply bind_Ok in Hr' as ([] & _ & Hr'). apply bind_Ok in Hr' as ([] & _ & Hr').
  apply bind_Ok in Hr' as ([] & _ & Hr'). apply bind_Ok in Hr' as ([] & Hpid & Hr'). apply guard_or_Ok, negb_true_iff, bool_decide_eq_false in Hpid.
  injection Hr' as Hr'.
  set (st1 := set_deployments st ds) in *. set (parent := fill_projection_deployment book pr) in *.
  destruct (write_spec st1 gate fence book {| PreparedAdoption.records := r; PreparedAdoption.projected := pr;
    PreparedAdoption.fill := AdoptionRecords.fill r; PreparedAdoption.availability := a |} (AdoptionWrite.deployment_id w)
    (DeploymentSnapshot.deployment book)) as (st2 & Hw & Wd & Wi & Wo & Wf & Wp & Wfu & Wr).
  1-6: cbn [PreparedAdoption.records PreparedAdoption.projected PreparedAdoption.fill].
  { done. } { by rewrite <- Hr'. } { by rewrite <- Hr'. }
  { intros key Hk. rewrite <- Hr' in Hk. cbn in Hk. rewrite Hk in Hkey. by apply guard_or_Ok, bool_decide_eq_true in Hkey. }
  { done. } { done. } { destruct Hframe as (Ht & _). change (Deployment.id parent = AdoptionWrite.deployment_id w). by rewrite Ht. }
  rewrite Hwrite in Hw. injection Hw as -> Hsnap. cbn [PreparedAdoption.records PreparedAdoption.projected PreparedAdoption.fill] in *.
  exists balances, st1, base, books, book, q, bar, (Deployment.set_revision parent (Deployment.revision (DeploymentSnapshot.deployment book) + 1)).
  assert (resolved_product_id (AdoptionWrite.product_id w) (DeploymentSnapshot.deployment book) = AdoptionWrite.product_id w) as Hres.
  { unfold resolved_product_id. by case_decide. }
  assert (dict_get (AdoptionWrite.deployment_id w, AdoptionWrite.product_id w) (positions st1) = None) as Hnokey.
  { destruct (dict_get _ (positions st1)) as [pos|] eqn:E; [|done]. exfalso. pose proof (Hkeyed _ _ E) as Hk. cbn in Hk.
    apply (Hflat pos); [|by rewrite Hk]. rewrite <- Hpos, snapshot_rows. unfold rows_of. apply list_elem_of_fmap.
    exists ((AdoptionWrite.deployment_id w, AdoptionWrite.product_id w), pos). split; [done|]. apply elem_of_filter_bool.
    split; [by apply bool_decide_eq_true|]. by apply dict_get_elem. }
  split; [done|]. split; try done.
  - by exists a, adoptable.
  - by rewrite <- Hr'.
  - by exists ds.
  - rewrite <- Hr' in *. cbn [AdoptionCommit.records AdoptionRecords.intent AdoptionRecords.order AdoptionRecords.fill] in *.
    destruct Hunused as [U1 U2 U3 U4 U5 U6 U7 U8]. split; cbn [AdoptionRecords.intent AdoptionRecords.order AdoptionRecords.fill].
    + exact Wd.
    + rewrite Wi. cbn [OrderIntent.id adoption_intent]. rewrite dict_set_fresh by done. by rewrite values_app.
    + rewrite Wo. unfold save_order, order_with_client_id. cbn [orders set_orders set_deployments st1].
      assert (List.find (λ o, bool_decide (Order.client_order_id o = adoption_client_id (AdoptionWrite.deployment_id w) ids)) (dict_values (orders st)) = None) as E.
      { destruct (List.find _ _) as [o|] eqn:E; [|done]. apply find_some in E as [Hin Hb]. apply bool_decide_eq_true in Hb.
        exfalso. apply (U5 o); [by apply list_elem_of_In|done]. }
      cbn [Order.client_order_id adoption_order]. rewrite E. cbn [drop_order Order.id adoption_order]. rewrite dict_set_fresh by done.
      by rewrite values_app.
    + rewrite Wf. unfold save_fill, fill_key. cbn [fills _fill_keys set_deployments st1 Fill.deployment_id Fill.venue_fill_id adoption_fill].
      rewrite decide_False by done. cbn [fst fills set_fills Fill.id adoption_fill]. rewrite dict_set_fresh by done. by rewrite values_app.
    + rewrite Wp. cbn [Order.product_id adoption_order]. rewrite Hres. unfold save_position. rewrite Hopen.
      unfold or_text. cbn [Position.product_id adopted_position]. by rewrite !decide_False.
    + exact Wfu.
    + exact Wr.
    + done.
  - destruct Hframe as (F1 & F2 & F3 & F4 & F5 & F6). by split_and!.
Qed.

(** *** The base is conserved *)

Definition is_live (d : Deployment) : bool := bool_decide (Deployment.mode d = DeploymentMode.LIVE).

Definition stored_book (st : Store) (d : Deployment) : DeploymentSnapshot := snapshot_of st (Deployment.id d) d.

Definition deployments_wf (st : Store) : Prop :=
  dict_wf (deployments st) ∧ ∀ id (d : Deployment), dict_get id (deployments st) = Some d → Deployment.id d = id.

Lemma live_books_Ok st : deployments_wf st → live_books st = Ok (stored_book st <$> List.filter is_live (dict_values (deployments st))).
Proof.
  intros [Hwf Hids]. unfold live_books. fold is_live.
  assert (∀ d : Deployment, d ∈ List.filter is_live (dict_values (deployments st)) → get_deployment st (Deployment.id d) = Ok (stored_book st d)) as Hget.
  { intros d [_ Hd]%elem_of_filter_bool. apply elem_of_dict_values in Hd as (id & Hd); [|done]. pose proof (Hids _ _ Hd) as Hid.
    unfold get_deployment. subst id. rewrite (proj2 (find_deployment_Ok _ _ _) Hd). done. }
  induction (List.filter _ _) as [|d l IH]; [done|]. cbn [result_mapM]. rewrite Hget by (by left). cbn [mbind result_bind].
  rewrite IH by (intros x Hx; apply Hget; by right). done.
Qed.

Lemma owned_stored base st l : owned base (stored_book st <$> List.filter is_live l) = concat (map (λ d : Deployment, book_amounts base (stored_book st d)) l).
Proof.
  unfold owned. induction l as [|d l IH]; [done|]. cbn [List.filter map concat]. destruct (is_live d) eqn:E; cbn; [by rewrite IH|].
  rewrite IH. unfold book_amounts at 2. cbn [stored_book snapshot_of DeploymentSnapshot.deployment].
  destruct (Deployment.mode d) eqn:Hm; [done|]. unfold is_live in E. rewrite Hm in E. by rewrite bool_decide_true in E.
Qed.

(** The base the live books of a store own or will own. *)
Lemma owned_live base st books : deployments_wf st → live_books st = Ok books →
  owned base books = concat (map (λ d : Deployment, book_amounts base (stored_book st d)) (dict_values (deployments st))).
Proof. intros Hwf H. rewrite live_books_Ok in H by done. injection H as <-. apply owned_stored. Qed.

Lemma amounts_no_rows base st id d : no_rows st id → book_amounts base (snapshot_of st id d) = [].
Proof.
  intros [No Ni Nf Np]. unfold book_amounts, book_claims. rewrite snapshot_rows, Np. cbn [snapshot_of DeploymentSnapshot.orders DeploymentSnapshot.intents].
  rewrite (filter_none (λ o, bool_decide (Order.deployment_id o = id))), (filter_none (λ i, bool_decide (OrderIntent.deployment_id i = id))).
  - by destruct (Deployment.mode _).
  - intros i Hi. apply bool_decide_eq_false. by apply Ni.
  - intros o Ho. apply bool_decide_eq_false. by apply No.
Qed.

(** Inserting a book without records changes no amount. *)
Lemma inserted_amounts base before st balances w ids t2 st1 st' commit b books book q bar saved :
  adopted before st balances w ids t2 st1 st' commit b books book q bar saved → deployments_wf st →
  deployments_wf st1 ∧ concat (map (λ d : Deployment, book_amounts base (stored_book st1 d)) (dict_values (deployments st1))) =
    concat (map (λ d : Deployment, book_amounts base (stored_book st d)) (dict_values (deployments st))).
Proof.
  intros Had [Hwf Hids]. destruct Had as [_ _ _ _ Hid _ _ _ _ Hins [ds ->] _ _ _ _ _ _ _ _ _ _].
  destruct Hins as [H|(Hnone & H & Hno)]; cbn [deployments set_deployments] in *.
  { subst ds. by split. }
  subst ds. split.
  - rewrite <- dict_set_fresh by done. split; cbn [deployments set_deployments]; [by apply dict_wf_set|]. intros id d Hd.
    destruct (decide (id = AdoptionWrite.deployment_id w)) as [->|Hne]; [rewrite dict_get_set in Hd; by injection Hd as <-|].
    rewrite dict_get_set_ne in Hd by done. by apply Hids.
  - rewrite values_app, map_app, concat_app. cbn [map concat].
    assert (∀ ds, book_amounts base (stored_book (set_deployments st ds) (DeploymentSnapshot.deployment book)) = []) as ->.
    { intros ds. unfold stored_book. rewrite Hid. exact (amounts_no_rows base st _ _ Hno). }
    by rewrite !app_nil_r.
Qed.

(** After the commit the book owns its quantity more, and no other book anything else. *)
Lemma adopted_owned before st balances w ids t2 st1 st' commit base books book q bar saved :
  adopted before st balances w ids t2 st1 st' commit base books book q bar saved → deployments_wf st →
  unused_ids st (AdoptionWrite.deployment_id w) ids →
  deployments_wf st' ∧ concat (map (λ d : Deployment, book_amounts base (stored_book st' d)) (dict_values (deployments st'))) ≡ₚ
    q :: concat (map (λ d : Deployment, book_amounts base (stored_book st d)) (dict_values (deployments st))).
Proof.
  intros Had Hwf Hunused. destruct (inserted_amounts base _ _ _ _ _ _ _ _ _ _ _ _ _ _ _ Had Hwf) as [[Hwf1 Hids1] <-].
  destruct Had as [_ Hbase _ Hlive Hid _ _ Hrec _ _ [ds ->] Hstored Hrows Hkey Hframe _ _ _ _ _ _].
  set (st1 := set_deployments st ds) in *. set (id := AdoptionWrite.deployment_id w) in *. set (d := DeploymentSnapshot.deployment book) in *.
  pose proof (rows_deployments _ _ _ _ _ _ _ Hrows) as Hd'.
  assert (Deployment.terms saved = Deployment.terms d) as Hterms by apply Hframe.
  assert (Deployment.id saved = id) as Hsaved by by rewrite Hterms.
  split.
  { unfold deployments_wf. rewrite Hd'. split; [by apply dict_wf_set|]. intros k x Hk.
    destruct (decide (k = id)) as [->|Hne]; [rewrite dict_get_set in Hk; by injection Hk as <-|]. rewrite dict_get_set_ne in Hk by done. by apply Hids1. }
  destruct (dict_set_values id saved d (deployments st1) Hstored) as (l1 & l2 & Hsplit & Hset). rewrite Hd', Hset, Hsplit.
  assert (∀ x : Deployment, x ∈ l1.*2 ++ l2.*2 → Deployment.id x ≠ id) as Hother.
  { intros x Hx E. assert (∃ k, (k, x) ∈ l1 ++ l2 ∧ (k, x) ∈ deployments st1) as (k & Hk & Hin).
    { rewrite <- fmap_app in Hx. apply list_elem_of_fmap in Hx as ([k y] & -> & Hk). exists k. split; [done|]. rewrite Hsplit.
      rewrite elem_of_app in Hk. rewrite elem_of_app, elem_of_cons. tauto. }
    apply dict_elem_get in Hin; [|done]. pose proof (Hids1 _ _ Hin) as Hkx. rewrite E in Hkx. subst k.
    unfold dict_wf, dict_keys in Hwf1. rewrite Hsplit, fmap_app, fmap_cons in Hwf1. cbn [fst] in Hwf1.
    apply NoDup_app in Hwf1 as (_ & Hn1 & Hn2). apply NoDup_cons in Hn2 as [Hn2 _]. apply elem_of_app in Hk as [Hk|Hk].
    - apply (Hn1 id); [apply list_elem_of_fmap; by exists (id, x)|by left].
    - apply Hn2. apply list_elem_of_fmap. by exists (id, x). }
  assert (∀ l : list Deployment, (∀ x : Deployment, x ∈ l → Deployment.id x ≠ id) →
    (λ d : Deployment, book_amounts base (stored_book st' d)) <$> l = (λ d : Deployment, book_amounts base (stored_book st1 d)) <$> l) as Hsame.
  { intros l Hl. apply map_ext_in. intros x Hx. unfold stored_book. rewrite (other_book _ _ _ _ _ _ _ _ _ Hrows); [done|].
    by apply Hl, list_elem_of_In. }
  unfold dict_values. rewrite !fmap_app, !fmap_cons. cbn [snd]. rewrite !concat_app. cbn [concat].
  rewrite !Hsame by (intros x Hx; apply Hother; rewrite elem_of_app; tauto).
  assert (book_amounts base (stored_book st' saved) ≡ₚ q :: book_amounts base (stored_book st1 d)) as ->; [|cbn [app]; symmetry; apply Permutation_middle].
  unfold stored_book. rewrite Hsaved, Hid. destruct (adopted_book _ _ _ _ _ _ _ saved Hrows Hkey) as (Ho & Hi & _ & Hp).
  apply bind_Ok in Hrec as ([] & _ & Hrec). apply bind_Ok in Hrec as ([] & _ & Hrec). apply bind_Ok in Hrec as ([] & _ & Hrec).
  apply bind_Ok in Hrec as ([] & Hpid & Hrec). apply guard_or_Ok, negb_true_iff, bool_decide_eq_false in Hpid. injection Hrec as Hrec.
  eapply (adopted_amounts base _ _ (AdoptionCommit.records commit)); [exact Hterms|exact Hlive|exact Ho|exact Hi|rewrite !snapshot_rows in Hp; rewrite !snapshot_rows; exact Hp|done|done| | | | |].
  - unfold on_base. cbn [Position.product_id adopted_position snapshot_of DeploymentSnapshot.deployment]. unfold resolved_product_id.
    rewrite decide_False by done. unfold has_base. rewrite Hbase, bool_decide_true by done. rewrite andb_true_r.
    unfold is_spot_product_id. unfold base_currency, parse_spot_product_id in Hbase. destruct (match_spot _) eqn:E; [|done]. by apply bool_decide_eq_true.
  - by rewrite <- Hrec.
  - by rewrite <- Hrec.
  - intros o Hin. rewrite <- Hrec. apply elem_of_filter_bool in Hin as [_ Hin]. exact (unused_reference _ _ _ Hunused o Hin).
  - intros i Hin. rewrite <- Hrec. apply elem_of_filter_bool in Hin as [_ Hin]. exact (unused_intent_id _ _ _ Hunused i Hin).
Qed.

(** Amounts that fit: all on one grid, and the venue's balance ten times below the precision. *)
Record grid_amounts (g : Z) (base : string) (books : list DeploymentSnapshot) (balances : list ExchangeBalance) (w : AdoptionWrite) : Prop := {
  grid_owned : Forall (coin g) (owned base books);
  grid_fits : (total val (owned base books) <= p10 (prec - g))%Q;
  grid_increment : on_grid g (val (AdoptionWrite.base_increment w));
  grid_balance row : rows_for base balances = [row] → coin g (ExchangeBalance.available row) ∧ coin g (ExchangeBalance.hold row) ∧
    roomy g (val (ExchangeBalance.available row) + val (ExchangeBalance.hold row))
}.

(** C22: An adoption takes only coins that the account holds and no book manages. If the books did
    not change while the balances were read, a committed adoption is of a positive quantity, a
    whole number of increments, of a base with one balance row and no unresolved claim; it is at
    most what is available; what live books own or will own of the base grows by exactly that
    quantity, and stays within the account's total. *)
Theorem adoption_conserves_base g before st balances gate fence w ids t1 t2 t3 st' commit base books :
  deployments_wf st → positions_keyed st → unused_ids st (AdoptionWrite.deployment_id w) ids → target_ready st w →
  fenced_holder fence (AdoptionWrite.deployment_id w) = None →
  base_currency (AdoptionWrite.product_id w) = Ok base → live_books before = Ok books → live_books st = Ok books →
  grid_amounts g base books balances w →
  adopt_inventory before st (Ok balances) gate fence w ids t1 t2 t3 = (st', Ok commit) →
  let q := val (OrderIntent.quantity (AdoptionRecords.intent (AdoptionCommit.records commit))) in
  ∃ row books', rows_for base balances = [row] ∧ ManagedBaseClaims.unresolved (managed_base_claims books base) = [] ∧
    (0 < q)%Q ∧ (q <= val (ExchangeBalance.available row))%Q ∧
    (0 < val (AdoptionWrite.base_increment w) → ∃ n, q == inject_Z n * val (AdoptionWrite.base_increment w))%Q ∧
    live_books st' = Ok books' ∧ (total val (owned base books') == total val (owned base books) + q)%Q ∧
    (total val (owned base books') <= val (ExchangeBalance.available row) + val (ExchangeBalance.hold row))%Q.
Proof.
  intros Hwf Hkeyed Hunused Hready Hfence Hb Hbefore Hst [Hcoins Hfit Hinc Hrow] H.
  destruct (adoption_adopted _ _ _ _ _ _ _ _ _ _ _ _ Hkeyed Hunused Hready Hfence H) as (bs & st1 & base' & books0 & book & q & bar & saved & [= <-] & Had).
  destruct (adopted_owned _ _ _ _ _ _ _ _ _ _ _ _ _ _ _ Had Hwf Hunused) as [Hwf' Hperm].
  pose proof (adopted_base _ _ _ _ _ _ _ _ _ _ _ _ _ _ _ Had) as Hb'. rewrite Hb in Hb'. injection Hb' as <-.
  pose proof (adopted_books _ _ _ _ _ _ _ _ _ _ _ _ _ _ _ Had) as Hbooks. rewrite Hbefore in Hbooks. injection Hbooks as <-.
  rewrite (adopted_quantity _ _ _ _ _ _ _ _ _ _ _ _ _ _ _ Had).
  destruct (adopted_available _ _ _ _ _ _ _ _ _ _ _ _ _ _ _ Had) as (a & adoptable & Ha & Hadopt & Hq).
  destruct (adopted_within g books base balances w a adoptable q Ha Hadopt Hq Hcoins Hfit Hinc Hrow) as (row & Hrows & Hun & Havail & Htotal).
  destruct (adopted_quantity_spec w adoptable q Hq) as (Hpos & _ & Hmult).
  exists row, (stored_book st' <$> List.filter is_live (dict_values (deployments st'))).
  assert (total val (owned base (stored_book st' <$> List.filter is_live (dict_values (deployments st')))) == total val (owned base books) + val q)%Q as Hsum.
  { rewrite owned_stored, (owned_live base st books Hwf Hst), Hperm. cbn [total]. ring. }
  split_and!; try done; [by apply live_books_Ok|]. rewrite Hsum. exact Htotal.
Qed.

(** C23: A committed adoption opens its book, protected. The deployment keeps its terms and status,
    moves to its next revision and to the phase OPEN, and pays the quantity at the mark; its one
    new position is long, of the adopted quantity at the mark, with the stop below it and the
    target asked for. The order's evidence is complete, so reconciliation never questions it, and
    no other book changes. *)
Theorem adoption_opens_protected_book before st answer gate fence w ids t1 t2 t3 st' commit :
  positions_keyed st → unused_ids st (AdoptionWrite.deployment_id w) ids → target_ready st w →
  fenced_holder fence (AdoptionWrite.deployment_id w) = None →
  adopt_inventory before st answer gate fence w ids t1 t2 t3 = (st', Ok commit) →
  let id := AdoptionWrite.deployment_id w in
  let q := OrderIntent.quantity (AdoptionRecords.intent (AdoptionCommit.records commit)) in
  let saved := DeploymentSnapshot.deployment (AdoptionCommit.snapshot commit) in
  ∃ book bar, _target_book st w = Ok book ∧
    let d := DeploymentSnapshot.deployment book in
    Deployment.terms saved = Deployment.terms d ∧ Deployment.status saved = Deployment.status d ∧
    Deployment.revision saved = Deployment.revision d + 1 ∧ Runtime.phase saved = RuntimePhase.OPEN ∧
    Deployment.cash saved = (Deployment.cash d - AdoptionWrite.mark w * q - d0)%dec ∧
    snapshot_positions (AdoptionCommit.snapshot commit) = snapshot_positions book ++
      [adopted_position d (AdoptionWrite.product_id w) q (AdoptionWrite.mark w) (AdoptionWrite.stop_price w)
         (AdoptionWrite.target_price w) bar t2] ∧
    (val (AdoptionWrite.stop_price w) < val (AdoptionWrite.mark w))%Q ∧
    (representable prec (val q) →
       adoption_evidence_complete (AdoptionCommit.snapshot commit) (AdoptionRecords.order (AdoptionCommit.records commit)) = true) ∧
    ∀ other, other ≠ id → get_deployment st' other = get_deployment st other.
Proof.
  intros Hkeyed Hunused Hready Hfence H. cbv zeta.
  destruct (adoption_adopted _ _ _ _ _ _ _ _ _ _ _ _ Hkeyed Hunused Hready Hfence H) as (bs & st1 & base & books & book & q & bar & saved & _ & Had).
  destruct Had as [_ _ Htarget _ Hid _ Hq Hrec Hstop Hins [ds ->] _ Hrows Hkey Hframe Hrev Hstatus Hphase Hcash Hheld Hsnap].
  set (st1 := set_deployments st ds) in *. pose proof (rows_deployments _ _ _ _ _ _ _ Hrows) as Hd'.
  unfold get_deployment, find_deployment in Hsnap. rewrite Hd', dict_get_set in Hsnap. injection Hsnap as Hsnap.
  rewrite <- Hsnap. rewrite Hq. destruct (adopted_book _ _ _ _ _ _ _ saved Hrows Hkey) as (_ & _ & Hf & Hp).
  exists book, bar. split; [done|]. cbn [snapshot_of DeploymentSnapshot.deployment]. split; [apply Hframe|].
  split; [done|]. split; [done|]. split; [done|]. split; [done|].
  split; [rewrite <- Hheld; rewrite !snapshot_rows in *; exact Hp|]. split; [done|]. split.
  - intros Hrep. change (adoption_evidence_complete (snapshot_of st' (AdoptionWrite.deployment_id w) saved)
      (AdoptionRecords.order (AdoptionCommit.records commit)) = true).
    apply bind_Ok in Hrec as ([] & _ & Hrec). apply bind_Ok in Hrec as ([] & _ & Hrec). apply bind_Ok in Hrec as ([] & _ & Hrec).
    apply bind_Ok in Hrec as ([] & _ & Hrec). injection Hrec as Hrec. unfold adoption_evidence_complete. rewrite Hf, filter_snoc, <- Hrec.
    cbn [AdoptionRecords.order AdoptionRecords.fill Order.id adoption_order Fill.order_id adoption_fill].
    rewrite bool_decide_true by done. rewrite filter_none.
    2: { intros f Hin. apply bool_decide_eq_false. apply elem_of_filter_bool in Hin as [_ Hin]. exact (unused_fill_order _ _ _ Hunused f Hin). }
    cbn [app]. rewrite !(bool_decide_true (order_uuid ids = order_uuid ids)) by done. rewrite !bool_decide_true by done.
    rewrite bool_decide_false by done. cbn [negb andb forallb applied Fill.economics_applied_at].
    apply andb_true_iff. split; apply deqb_eq; [|done]. unfold dsum. cbn [fmap list_fmap fold_left Fill.quantity].
    assert (val d0 + val q == val q)%Q as Hz by (rewrite val_d0; ring).
    assert (representable prec (val d0 + val q)) as Hrep0 by (rewrite Hz; exact Hrep).
    exact (Qeq_trans _ _ _ (rounds_exact _ _ (add_rounds d0 q) Hrep0) Hz).
  - intros other Hother. unfold get_deployment, find_deployment. rewrite Hd', dict_get_set_ne by done.
    assert (dict_get other (deployments st1) = dict_get other (deployments st)) as ->.
    { destruct Hins as [->|(Hnone & -> & _)]; [done|]. rewrite <- dict_set_fresh by done. by rewrite dict_get_set_ne. }
    destruct (dict_get other (deployments st)) as [d|]; [|done]. cbn [mbind result_bind]. f_equal.
    by rewrite (other_book _ _ _ _ _ _ _ _ d Hrows Hother).
Qed.

(** *** Refusals *)

Lemma projection_frame s r stop target t1 t2 t3 p f : project_adoption s r stop target t1 t2 t3 = Ok (p, f) →
  same_frame (fill_projection_deployment s p) (DeploymentSnapshot.deployment s).
Proof.
  unfold project_adoption. cbv zeta. intros H. do 5 (apply bind_Ok in H as ([] & _ & H)).
  pose proof (fill_frame _ _ _ _ _ _ _ _ _ _ H) as [Hframe _]. unfold fill_projection_deployment.
  destruct (DeploymentSnapshot.instrument_runtimes p); [exact Hframe|done].
Qed.

Lemma target_stored st gate w book st1 : _target_book st w = Ok book → _insert_book st gate w = Ok st1 →
  Deployment.id (DeploymentSnapshot.deployment book) = AdoptionWrite.deployment_id w →
  (∃ ds, st1 = set_deployments st ds) ∧
  dict_get (AdoptionWrite.deployment_id w) (deployments st1) = Some (DeploymentSnapshot.deployment book).
Proof.
  intros Hbook Hst1 Hid. unfold _target_book in Hbook. unfold _insert_book in Hst1.
  destruct (AdoptionWrite.new_deployment w) as [created|].
  - apply bind_Ok in Hbook as ([] & _ & [= <-]). cbn [flat_snapshot DeploymentSnapshot.deployment] in *. rewrite <- Hid.
    destruct (AdoptionWrite.respect_entry_latch w); [apply bind_Ok in Hst1 as ([] & _ & Hst1)|]; injection Hst1 as <-;
      (split; [by eexists|apply dict_get_set]).
  - injection Hst1 as <-. apply bind_Ok in Hbook as (b & Hb & H). apply bind_Ok in H as ([] & _ & [= ->]).
    apply bind_Ok in Hb as (d & Hd & [= <-]). apply find_deployment_Ok in Hd. split; [exists (deployments st); by destruct st|done].
Qed.

(** C24: A refused adoption writes nothing. Every check that can refuse, the worker's lease apart,
    comes before the first write: whatever the claims, the venue's answer, the latch and the
    request are, a call that raises leaves the store as it was. *)
Theorem refused_adoption_writes_nothing before st answer gate fence w ids t1 t2 t3 st' e :
  fenced_holder fence (AdoptionWrite.deployment_id w) = None →
  adopt_inventory before st answer gate fence w ids t1 t2 t3 = (st', Raise e) → st' = st.
Proof.
  intros Hfence H. unfold adopt_inventory in H.
  destruct (check_adoption _ _ _ _ _ _ _ _) as [[book p]|] eqn:Hcheck; [|by injection H].
  destruct (_insert_book st gate w) as [st1|] eqn:Hinsert; [|by injection H]. exfalso.
  apply bind_Ok in Hcheck as (base & _ & Hcheck). apply bind_Ok in Hcheck as (books & _ & Hcheck).
  apply bind_Ok in Hcheck as (balances & _ & Hcheck). apply bind_Ok in Hcheck as (book' & Htarget & Hcheck).
  apply bind_Ok in Hcheck as (p' & Hp & Hcheck). apply bind_Ok in Hcheck as ([] & Hkey & Hcheck). injection Hcheck as -> ->.
  apply bind_Ok in Hp as ([] & Hid & Hp). apply guard_or_Ok, bool_decide_eq_true in Hid.
  apply bind_Ok in Hp as (base' & _ & Hp). apply bind_Ok in Hp as (a & _ & Hp).
  destruct (BaseAvailability.adoptable a); [|done]. apply bind_Ok in Hp as (q & _ & Hp).
  apply bind_Ok in Hp as (r & Hr & Hp). apply bind_Ok in Hp as ([pr fill] & Hproj & Hp). injection Hp as <-.
  do 4 (apply bind_Ok in Hr as ([] & _ & Hr)). injection Hr as Hr.
  destruct (project_adoption _ _ _ _ _ _ _) as [[pr' fill']|[]] eqn:Hpr; try done. injection Hproj as -> ->.
  destruct (target_stored st gate w book st1 Htarget Hinsert Hid) as [[ds ->] Hstored].
  destruct (projection_frame _ _ _ _ _ _ _ _ _ Hpr) as (Hterms & _).
  match type of H with context [_write ?x _ _ ?b ?p] =>
    destruct (write_spec x gate fence b p (AdoptionWrite.deployment_id w) (DeploymentSnapshot.deployment book)) as (st2 & Hw & Wd & _) end;
    cbn [PreparedAdoption.records PreparedAdoption.projected].
  { done. } { by rewrite <- Hr. } { by rewrite <- Hr. }
  { intros key Hk. rewrite <- Hr in Hk. cbn in Hk. rewrite Hk in Hkey. by apply guard_or_Ok, bool_decide_eq_true in Hkey. }
  { done. } { done. } { by rewrite Hterms. }
  rewrite Hw in H. unfold get_deployment, find_deployment in H. rewrite Wd, dict_get_set in H. discriminate H.
Qed.

End Commit.

(** * A worked adoption

    A live book holds one coin; the account holds five more and one on hold. A new live book
    adopts two of them. *)

Section Demo.
#[local] Existing Instance default_context.

Definition live_terms (id : UUID) : Deployment.Terms := {|
  Deployment.id := id; Deployment.strategy_fingerprint := Some "sha256:a"; Deployment.strategy_id := Some "s1";
  Deployment.product_id := "BTC-USD"; Deployment.mode := DeploymentMode.LIVE; Deployment.created_at := demo_hour 0;
  Deployment.paper_starting_cash := None; Deployment.paper_maker_fee_rate := None;
  Deployment.paper_taker_fee_rate := None; Deployment.kind := DeploymentKind.STRATEGY; Deployment.timeframe := Some "1h";
  Deployment.strategy_name := None; Deployment.portfolio_id := None |}.

Definition live_book (id : UUID) : Deployment := {|
  Deployment.terms := live_terms id; Deployment.capital := demo_capital;
  Deployment.runtime := Runtime.mk RuntimePhase.FLAT None None 0 0 0 None None;
  Deployment.status := DeploymentStatus.RUNNING; Deployment.cash := of_Z 1000; Deployment.updated_at := demo_hour 0;
  Deployment.mismatch_detail := None; Deployment.futures_derisk_pending := false;
  Deployment.futures_flat_confirmation_after := None; Deployment.revision := 4; Deployment.worker_lease_holder := None;
  Deployment.worker_lease_expires_at := None; Deployment.lifecycle_command := LifecycleCommand.NONE;
  Deployment.daily_loss_latched := false; Deployment.drawdown_latched := false;
  Deployment.last_signal_event_at := None; Deployment.last_signal_processed_at := None |}.

Definition held_coin : Position :=
  adopted_position (live_book "d1") "BTC-USD" (of_Z 1) (of_Z 90) (of_Z 80) None (demo_hour 0) (demo_hour 0).

Definition held_store : Store :=
  set_positions (set_deployments empty_store [("d1", live_book "d1")]) [(("d1", "BTC-USD"), held_coin)].

Definition held_balance : ExchangeBalance :=
  {| ExchangeBalance.currency := "BTC"; ExchangeBalance.name := "Bitcoin"; ExchangeBalance.available := of_Z 5; ExchangeBalance.hold := of_Z 1 |}.

(** The adoption of [quantity] coins into the new book [d2], with a stop at 90. *)
Definition demo_write (quantity : decimal) : AdoptionWrite := {|
  AdoptionWrite.deployment_id := "d2"; AdoptionWrite.product_id := "BTC-USD"; AdoptionWrite.quantity := Some quantity;
  AdoptionWrite.mark := of_Z 100; AdoptionWrite.mark_bar_starts_at := demo_hour 1; AdoptionWrite.now := demo_hour 2;
  AdoptionWrite.origin := IntentOrigin.HUMAN; AdoptionWrite.stop_price := of_Z 90; AdoptionWrite.target_price := Some (of_Z 120);
  AdoptionWrite.base_increment := Dec 1 (-8); AdoptionWrite.idempotency_key := Some "k1";
  AdoptionWrite.new_deployment := Some (live_book "d2"); AdoptionWrite.expected_revision := None;
  AdoptionWrite.respect_entry_latch := true |}.

Definition demo_ids : AdoptionIds := {| client_uuid := "c"; intent_uuid := "i"; order_uuid := "o"; fill_uuid := "f" |}.

Definition demo_adoption (quantity : decimal) : Store * result AdoptionCommit :=
  adopt_inventory held_store held_store (Ok [held_balance]) None None (demo_write quantity) demo_ids (demo_hour 2) (demo_hour 2) (demo_hour 2).

Lemma held_unused quantity : unused_ids held_store (AdoptionWrite.deployment_id (demo_write quantity)) demo_ids.
Proof. split; try done; by intros x Hx%elem_of_nil. Qed.

Lemma held_keyed : positions_keyed held_store.
Proof. intros k p. unfold held_store. cbn. case_decide; [by intros [= <-]; subst|done]. Qed.

Lemma held_ready quantity : target_ready held_store (demo_write quantity).
Proof.
  split.
  - intros book H. vm_compute in H. injection H as <-. split; [done..|]. by exists "1h".
  - intros created [= <-]. split; try done; by intros x Hx%elem_of_nil.
Qed.

Lemma held_wf : deployments_wf held_store.
Proof.
  split; [by apply (bool_decide_unpack _); vm_compute|].
  intros id d. unfold held_store. cbn. case_decide; [by intros [= <-]|done].
Qed.

Lemma held_grid quantity books : live_books held_store = Ok books →
  grid_amounts 8 "BTC" books [held_balance] (demo_write quantity).
Proof.
  intros H. injection H as <-. split.
  - apply Forall_cons. split; [|by apply Forall_nil]. split; [by exists (10 ^ 8)|by vm_compute].
  - by vm_compute.
  - by exists 1.
  - intros row H. injection H as <-. split; [|split]; [split; [by exists (5 * 10 ^ 8)|by vm_compute]|split; [by exists (10 ^ 8)|by vm_compute]|by vm_compute].
Qed.

Lemma adoption_conserves_base_witness : ∃ st' commit books,
  demo_adoption (of_Z 2) = (st', Ok commit) ∧ live_books held_store = Ok books ∧
  ∃ row books', rows_for "BTC" [held_balance] = [row] ∧ live_books st' = Ok books' ∧
    (total val (owned "BTC" books') == total val (owned "BTC" books) + val (OrderIntent.quantity (AdoptionRecords.intent (AdoptionCommit.records commit))))%Q.
Proof.
  destruct (demo_adoption (of_Z 2)) as [st' [commit|e]] eqn:E; [|vm_compute in E; discriminate E].
  destruct (live_books held_store) as [books|e] eqn:Hb; [|vm_compute in Hb; discriminate Hb].
  exists st', commit, books. split; [done|]. split; [done|].
  destruct (adoption_conserves_base 8 held_store held_store [held_balance] None None (demo_write (of_Z 2)) demo_ids
    (demo_hour 2) (demo_hour 2) (demo_hour 2) st' commit "BTC" books held_wf held_keyed (held_unused _) (held_ready _)
    eq_refl eq_refl Hb Hb (held_grid _ _ Hb) E) as (row & books' & Hrow & _ & _ & _ & _ & Hlive & Hsum & _).
  exists row, books'. split; [exact Hrow|]. split; [exact Hlive|exact Hsum].
Defined.

Lemma adoption_opens_protected_book_witness : ∃ st' commit book bar,
  demo_adoption (of_Z 2) = (st', Ok commit) ∧ _target_book held_store (demo_write (of_Z 2)) = Ok book ∧
  Runtime.phase (DeploymentSnapshot.deployment (AdoptionCommit.snapshot commit)) = RuntimePhase.OPEN ∧
  snapshot_positions (AdoptionCommit.snapshot commit) = snapshot_positions book ++
    [adopted_position (DeploymentSnapshot.deployment book) "BTC-USD"
       (OrderIntent.quantity (AdoptionRecords.intent (AdoptionCommit.records commit))) (of_Z 100) (of_Z 90) (Some (of_Z 120)) bar (demo_hour 2)].
Proof.
  destruct (demo_adoption (of_Z 2)) as [st' [commit|e]] eqn:E; [|vm_compute in E; discriminate E].
  destruct (adoption_opens_protected_book held_store held_store (Ok [held_balance]) None None (demo_write (of_Z 2)) demo_ids
    (demo_hour 2) (demo_hour 2) (demo_hour 2) st' commit held_keyed (held_unused _) (held_ready _) eq_refl E)
    as (book & bar & Hbook & _ & _ & _ & Hphase & _ & Hpos & _).
  exists st', commit, book, bar. split; [reflexivity|]. split; [exact Hbook|]. split; [exact Hphase|exact Hpos].
Defined.

(** Seven coins are more than the account can spare. *)
Lemma refused_adoption_writes_nothing_witness : ∃ st' e, demo_adoption (of_Z 7) = (st', Raise e) ∧ st' = held_store.
Proof.
  destruct (demo_adoption (of_Z 7)) as [st' [commit|e]] eqn:E; [vm_compute in E; discriminate E|].
  exists st', e. split; [reflexivity|].
  exact (refused_adoption_writes_nothing held_store held_store (Ok [held_balance]) None None (demo_write (of_Z 7)) demo_ids
    (demo_hour 2) (demo_hour 2) (demo_hour 2) st' e eq_refl E).
Defined.

(** [project_adoption] stages the levels on the deployment, not on the product's own runtime row:
    in a book whose rows cover another product as well, the projected fill finds no stop. The
    callers adopt only into books of one product. *)
Definition two_row_book : DeploymentSnapshot :=
  DeploymentSnapshot.mk (live_book "d2") None [] [] [] []
    [InstrumentRuntime.mk "BTC-USD" (Deployment.runtime (live_book "d2"));
     InstrumentRuntime.mk "ETH-USD" (Deployment.runtime (live_book "d2"))] true [].

Example staged_levels_need_one_product :
  match adoption_records "d2" "BTC-USD" (of_Z 2) (of_Z 100) (demo_hour 1) (demo_hour 2) IntentOrigin.HUMAN None demo_ids with
  | Ok r =>
      match project_adoption two_row_book r (of_Z 90) None (demo_hour 2) (demo_hour 2) (demo_hour 2) with
      | Ok (p, _) => Deployment.mismatch_detail (DeploymentSnapshot.deployment p) = Some MISSING_STOP_DETAIL
      | Raise _ => False
      end
  | Raise _ => False
  end.
Proof. vm_compute. reflexivity. Qed.

End Demo.
